(* ===== verification/_CoqProject ===== *)
-Q . S2P
Prelude.v
CLib.v
Io.v
Disk.v
Raw.v
Checksum.v
BitReader.v
Huffman.v
Canonical.v
Inflate.v
InflateSafe.v
Deflate.v
InflateCorrect.v
LodeLz77.v
LodeHuff.v
LodeTree.v
LodeDeflate.v
LodeColor.v
LodeFilter.v
LodeEncode.v
Qcow2.v
Vdisk.v
Umkart.v
Vnet.v
Syscall.v
SyscallProps.v
Optparse.v
Usage.v
Shell.v
Sample.v
CmdSys.v
CmdGui.v
CmdFs.v
CmdNet.v
ShellMain.v
ShellProps.v
ShellData.v
Listing.v
Runner.v
Pci.v
Board.v
Os.v
Fuse.v
SameHash.v
TestFiles.v
Runtests.v
GenDevices.v
Coverage.v
Unicode.v
Stringbuf.v
SbufEdit.v
SbufNav.v
SbufProps.v
History.v
HistoryProps.v
Tty.v
TtyProps.v
TtyKeys.v
EditLine.v
EditProps.v
Getline.v
EditSafe.v
Lz77Correct.v
PackageMerge.v
PackagePool.v
CodeLengths.v
CodeTable.v
TreeTable.v
BitWriter.v
DynamicBlock.v
ZlibCompress.v
PngFormat.v
FilterCorrect.v
PngBits.v
ColorStats.v
ColorChoice.v
PngPixels.v
PngChunks.v
PngEncode.v
Screenshot.v
