(* ===== verification/Prelude.v ===== *)
(** * UMKa: user-mode KolibriOS developer tools

    UMKa links the KolibriOS kernel (assembly) into an ordinary 32-bit process
    and surrounds it with C code: a scriptable shell that calls the kernel
    (shell.c), wrappers for its system calls (umka.h), virtual disks (vdisk.c,
    vdisk/), network cards (vnet.c, vnet/), host input/output (umkaio.c), a FUSE
    front end (umka_fuse.c), branch coverage (trace_lbr.c), a test runner
    (runtests.c), front ends (umka_shell.c, umka_os.c) and tools that prepare test
    data (tools/).  Compressed disk clusters go through the vendored em_inflate,
    input lines through the vendored isocline, screenshots through the vendored
    lodepng.  This library models that C code; the kernel, the host, the terminal's
    system calls and SDL are parameters.

    ** Files and the sources they model

    - [Prelude]: machine integers, byte strings, reachability, hint databases
      and tactics.  [CLib]: the C library functions the sources use.
    - [Io]: umkaio.c.  [Posix] is the file interface; [Iot] is the slot, the
      host thread and its callers, as a step relation over interleavings, in which
      the host thread can be on its way into pthread_cond_wait and, where the
      relation admits it, be woken spuriously.
    - [Disk], [Raw], [Qcow2], [Vdisk]: vdisk.h, vdisk/raw.c, vdisk/qcow2.c and
      vdisk.c.  Class [ReadableDisk] is what a disk promises to the kernel; both
      drivers are instances and clients are proved against the class.
    - [Checksum], [BitReader], [Huffman], [Inflate]: deps/em_inflate/em_inflate.c,
      bottom up: Adler-32 and CRC-32, the bit reader, the decoder tables, blocks
      and stream wrappers.  [Canonical] is the theory of canonical Huffman codes
      and what a table promises to its readers (record [decodes]); [Deflate] is
      the stream format of RFC 1950, 1951 and 1952 as relations; [InflateSafe] and
      [InflateCorrect] hold the theorems.  [Qcow2] calls [em_inflate].
    - [Umkart]: umkart.c (devices.dat, frame buffer copies) and the pixel loop
      of the screenshot command.
    - [Vnet]: vnet.c, vnet/null.c, vnet/file.c, linux/vnet/tap.c.
    - [Syscall], [SyscallProps]: the [umka_sys_*] wrappers of umka.h, over class
      [Kernel] (the reaction of the entry point i40 to a register file).
    - [Optparse]: deps/optparse/optparse.h, the short options.
    - [Usage], [Shell], [CmdSys], [CmdGui], [CmdFs], [CmdNet], [ShellMain]:
      shell.c and shell.h.  [Shell] has the state ([world]), the monad [M] of
      computations and the shared helpers; the [Cmd] files have the commands,
      one definition [cmd_x] per C function; [ShellMain] has the command table,
      help, the splitting of lines and the read loop.  Classes [ShellKernel] and
      [Host] are the kernel and the host as the shell sees them.
    - [Sample]: a small kernel and host that satisfy these classes, on which
      theorems are tried at concrete inputs.
    - [ShellProps], [ShellData], [Listing]: theorems about the shell.
    - [Runner]: the hand-over of a command from the shell's host thread to the
      kernel thread [cmd_runner] (shell.c), as a step relation.
    - [Board]: the debug board (commands of shell.c, logging thread of umka_os.c),
      over class [BoardQueue].
    - [Fuse]: umka_fuse.c.  [Pci]: linux/pci.c and linux/thread.c.  [Os]:
      umka_shell.c, and of umka_os.c the options, the display thread and the
      handlers for system calls and interrupts.
    - [SameHash], [TestFiles]: tools/.  [Runtests]: runtests.c.
      [GenDevices]: umka_gen_devices_dat.c.  [Coverage]: trace_lbr.c,
      trace.c and tools/covpreproc.c.
    - [Unicode], [Stringbuf], [History]: deps/isocline/src/common.c, wcwidth.c,
      stringbuf.c, history.c and undo.c: the encoding and width of characters, the
      text buffer, the history and its file.  The allocator is class [allocator] with
      the laws [allocator_ok].  [SbufEdit] and [SbufNav] relate the buffer to a list
      of bytes ([sbuf_repr]); [SbufProps] and [HistoryProps] hold more theorems.
    - [Tty]: tty.h, tty.c and tty_esc.c of isocline: key codes, the two
      push-back buffers, reading with time-outs, escape sequences and UTF-8, in the
      state monad [tty_m] over [tty]; the answers of the system are a function of the
      number of reads ([wait]).  [TtyProps] has a calculus of preconditions for the
      monad ([wp]), the invariant [tty_ok] and reading text, [TtyKeys] the theorems.
    - [EditLine]: editline.c, editline_history.c, highlight.c, and of
      isocline.c and completions.c what a line takes: the state [editor], one definition
      for every editing operation, the loop over keys, reading a line with and without
      a terminal.  [EditProps] (undo, typing), [EditSafe] (the invariant [ed_ok] and the
      relation [edited]) and [Getline] (lines of a file, and how umka_shell runs them)
      hold the theorems.
    - [LodeLz77], [LodeHuff], [LodeTree], [LodeDeflate]: the zlib compressor of
      deps/lodepng/lodepng.c: hash chains and matches, length-limited Huffman codes,
      code tables, blocks and the stream.  The proof goes the same way: [Lz77Correct]
      (an invariant of the hash chains, and the relation [lz] of symbols and bytes),
      [PackageMerge] (the algorithm on lists), [PackagePool] (the pool of nodes with its
      garbage collector refines it), [CodeLengths], [CodeTable] and [TreeTable] (codes
      and tables of a complete code), [BitWriter], [DynamicBlock],
      [ZlibCompress].
    - [LodeColor], [LodeFilter], [LodeEncode]: the PNG encoder of the same file as
      [lodepng_encode32_file] runs it: statistics and choice of a colour mode,
      conversion, filters, chunks.  Class [Memory] is what memory holds before it is
      written.  [PngFormat] is the file format, as a decoder reads it ([png_file]),
      independent of the encoder.  [FilterCorrect] (filters), [PngBits] (samples and
      padding), [ColorStats], [ColorChoice] (the chosen mode can express the image:
      [mode_for], and the conversion does), [PngPixels], [PngChunks] and [PngEncode]
      relate the two.  [CmdGui] calls the encoder; [Screenshot] has the
      theorem about the command.

    ** Conventions

    The program is built with -m32 and _FILE_OFFSET_BITS=64.  A C integer is a
    [Z] in its range, and every operation that can leave the range is followed by
    the wrap ([u8] ... [u64], [s8] ... [s64]).  Bytes are [Z]s below 256.  [None]
    and [Undef] stand for behaviour the C standard leaves undefined: an access
    outside an object, a NULL or freed pointer, an indeterminate value, a
    division by zero.  Assertions are compiled out (NDEBUG: one of them names
    constants that are declared nowhere).  The output of the shell is what it
    writes to stdout; diagnostics on stderr are left out.  The
    coverage switches COVERAGE_ON and COVERAGE_OFF, and calls of free, are left
    out of the definitions that do not depend on them.

    Loops whose end is a matter of the C code alone are structural, or have fuel
    that a theorem shows to be enough: the option loop ([option_loop_terminates]),
    [ls_range] ([count + 1] rounds), the comparison of files
    ([artefacts_checked]), the options of umka_shell ([shell_options_fuel]), every
    loop of em_inflate ([inflate_safe]: running out of fuel is not among its
    results) and of the compressor ([zlib_compress_valid]), reading a key
    ([tty_read_keeps_invariant]), recursion of help (two levels: help reaches itself at
    most once).  Loops only the kernel's answers end (ls_all, board_get) take
    their bound as an argument, and [ls80_lists_directory] shows which bound is
    enough; [NoFuel] is never confused with a result.

    ** What the theorems show

    - Decompression: em_inflate decodes every valid zlib and gzip stream
      ([inflate_zlib], [inflate_gzip]) and is safe on every other input but for two
      named cases ([inflate_safe]); its tables decode the
      canonical code and refuse impossible ones ([canonical_code_decoded],
      [oversubscribed_refused]); its checksums are those of the RFCs
      ([adler32_is_rfc1950], [crc32_is_rfc1952]).
    - Compression: lodepng's compressor returns a valid stream for every input
      ([zlib_compress_valid]), which em_inflate reads back
      ([compress_inflate_roundtrip]); its two stages, matches and code lengths, are
      correct on their own ([lz77_lossless], [huffman_lengths_complete]), and what it
      does not handle is known ([compress_rejects]).
    - Screenshots: the PNG encoder returns a file that shows exactly the image
      ([encode32_correct], for up to 2^27 pixels, so that no 32-bit size wraps around),
      and the command scrot writes one that shows the frame buffer ([scrot_png], for
      rows without padding; [scrot_ignores_pitch] is the rest).
    - Disks: the qcow2 driver implements the image's tables
      ([qcow2_read_refines], [qcow2_init_accepts], [qcow2_compressed_fits]) and
      the raw driver the file ([raw_read_after_init]); the front end dispatches
      and composes ([vdisk_init_dispatch], [disk_read_append]).  The drivers read
      through [io_read]; their hypothesis [reads_through] is that the kernel does not
      run yet, where [io_read] calls read(2) itself, or that the asynchronous path
      has that effect.  [single_client_reads] proves this of the step relation for
      one caller at a time and no spurious wake-ups, [single_client_returns] that a
      lost signal is the only way such a call blocks; [signal_can_be_lost],
      [spurious_wakeup_breaks_read] and [submit_test_admits_both] show that these
      limits are real.  The boundaries are theorems too: lost writes, stale clusters behind
      holes, unallocated clusters, table sizes that wrap, compressed clusters that are
      never decompressed ([qcow2_compressed_is_stale]), two callers in the slot.
    - Shell: a command called with a number of words its usage line does not
      allow prints the usage text and does nothing else, with eleven exceptions
      ([usage_on_bad_argc]); help; the argument vector; registers of i40;
      variables, numbers, dumps and kernel variables round trip; a listing prints
      the directory exactly; the option parser makes progress and ends; a
      command handed to the running system is executed once and in order when the
      hand-over returns ([handover_refines]), and may not return
      ([handover_lost_wakeup]).
    - Front ends: command lines ([shell_options_roundtrip],
      [runtests_command_line]), the loop of the display thread
      ([display_refines]), traps of applications ([i40_trap]), the debug board
      ([board_roundtrip]), PCI configuration ([pci_read_config]).
    - Line editor: the text buffer refines a list of bytes, whatever memory the
      allocator gives ([sbuf_refines]); the encoding round trips and its limits
      ([qutf8_lossless], [qutf8_decode_encode]), widths ([wcwidth_reference]), lines
      ([line_of_position]); the history is a bounded queue without duplicates
      ([history_push_refines]) that its file gives back ([history_file_roundtrip]).
      Reading a key ends and keeps its buffers ([tty_read_keeps_invariant]); keys
      pushed as escape sequences are read back ([pushed_key_is_read]), text that is
      typed is read as it is ([typed_text_is_read]) and is the line that is returned
      ([typed_line_is_returned]); no key leads the editor out of its invariant
      ([editor_never_faults]); undo and redo are inverse ([undo_redo_inverse]); without
      a terminal every line of a script is read ([script_is_read]), and umka_shell runs
      a test exactly as its file is written ([test_script_runs], against the relation
      [script_runs]).
    - System calls: packed registers carry their fields, getters undo setters.
    - Tools: devices.dat and ACPI packages round trip; pixels, frames, hashes,
      patterns, names and limits are what they are meant to be; a test passes
      exactly when its artefacts equal the references; the listing covpreproc
      prints has the execution counts ([coverage_counts_visits]).

    ** Not modelled

    The kernel (umka.asm and what it includes); of isocline what is drawn (term.c,
    bbcode.c, highlighting), the completion menu (the completer of the shell is empty),
    changes of the width of the terminal while a line is edited, and setting up the
    terminal; of lodepng the decoder (never called), interlacing, ancillary chunks (never set) and
    failures of malloc, long options of optparse
    (never called), the 64-bit shifter of em_inflate (the build is 32-bit), the
    Windows ports, the creation of windows, timers, signal handlers and address
    spaces in umka_os, mounting by libfuse, and the main functions that only parse
    arguments with sscanf. *)
From Stdlib Require Export Ascii ZArith Lia Bool.
From stdpp Require Export base list gmap strings numbers.

Declare Scope umka_scope.
Delimit Scope umka_scope with umka.
#[global] Open Scope Z_scope.
#[global] Open Scope umka_scope.

(** ** Machine integers

    A C integer of width [w] is a [Z] in its range; every operation that can
    leave the range is followed by the wrap written here.  The program is
    compiled with -m32: [int], [long], [size_t] and pointers have 32 bits and
    [off_t] has 64 (_FILE_OFFSET_BITS=64). *)

Definition u8 (z : Z) : Z := z mod 2 ^ 8.
Definition u16 (z : Z) : Z := z mod 2 ^ 16.
Definition u32 (z : Z) : Z := z mod 2 ^ 32.
Definition u64 (z : Z) : Z := z mod 2 ^ 64.

(** Two's complement reading of the low [w] bits. *)
Definition signed (w z : Z) : Z :=
  let m := z mod 2 ^ w in if decide (m < 2 ^ (w - 1)) then m else m - 2 ^ w.

Definition s8 (z : Z) : Z := signed 8 z.
Definition s16 (z : Z) : Z := signed 16 z.
Definition s32 (z : Z) : Z := signed 32 z.
Definition s64 (z : Z) : Z := signed 64 z.

Definition UINT32_MAX : Z := 2 ^ 32 - 1.
Definition UINT64_MAX : Z := 2 ^ 64 - 1.

(** C truth values. *)
Definition b2z (b : bool) : Z := if b then 1 else 0.
Definition truth (z : Z) : bool := negb (z =? 0).

Notation "x '<<' y" := (Z.shiftl x y) (at level 36, left associativity) : umka_scope.
Notation "x '>>' y" := (Z.shiftr x y) (at level 36, left associativity) : umka_scope.
Infix ".&" := Z.land (at level 40, left associativity) : umka_scope.
Infix ".|" := Z.lor (at level 50, left associativity) : umka_scope.
Infix ".^" := Z.lxor (at level 45, left associativity) : umka_scope.

Create HintDb umka.
Create HintDb umka_arith.
Create Rewrite HintDb umka_arith.

(** ** Lemmas on widths *)

Lemma u8_range z : 0 <= u8 z < 2 ^ 8.
Proof. apply Z.mod_pos_bound. lia. Qed.
Lemma u16_range z : 0 <= u16 z < 2 ^ 16.
Proof. apply Z.mod_pos_bound. lia. Qed.
Lemma u32_range z : 0 <= u32 z < 2 ^ 32.
Proof. apply Z.mod_pos_bound. lia. Qed.
Lemma u64_range z : 0 <= u64 z < 2 ^ 64.
Proof. apply Z.mod_pos_bound. lia. Qed.
Lemma u8_small z : 0 <= z < 2 ^ 8 -> u8 z = z.
Proof. apply Z.mod_small. Qed.
Lemma u16_small z : 0 <= z < 2 ^ 16 -> u16 z = z.
Proof. apply Z.mod_small. Qed.
Lemma u32_small z : 0 <= z < 2 ^ 32 -> u32 z = z.
Proof. apply Z.mod_small. Qed.
Lemma u64_small z : 0 <= z < 2 ^ 64 -> u64 z = z.
Proof. apply Z.mod_small. Qed.

#[export] Hint Resolve u8_range u16_range u32_range u64_range : umka_arith.
#[export] Hint Rewrite u8_small u16_small u32_small u64_small using lia : umka_arith.

Lemma signed_range w z : 0 < w -> - 2 ^ (w - 1) <= signed w z < 2 ^ (w - 1).
Proof.
  intros Hw. unfold signed.
  pose proof (Z.mod_pos_bound z (2 ^ w) ltac:(lia)).
  assert (2 ^ w = 2 * 2 ^ (w - 1)) by (rewrite <- Z.pow_succ_r by lia; f_equal; lia).
  case_decide; lia.
Qed.

Lemma signed_id w z : 0 < w -> - 2 ^ (w - 1) <= z < 2 ^ (w - 1) -> signed w z = z.
Proof.
  intros Hw Hz. unfold signed.
  assert (2 ^ w = 2 * 2 ^ (w - 1)) by (rewrite <- Z.pow_succ_r by lia; f_equal; lia).
  destruct (decide (0 <= z)).
  - rewrite Z.mod_small by lia. case_decide; lia.
  - replace (z mod 2 ^ w) with (z + 2 ^ w).
    + case_decide; lia.
    + apply (Zmod_unique z (2 ^ w) (-1) (z + 2 ^ w)); lia.
Qed.

Lemma signed_mod w z : 0 < w -> signed w z mod 2 ^ w = z mod 2 ^ w.
Proof.
  intros Hw. unfold signed.
  pose proof (Z.mod_pos_bound z (2 ^ w) ltac:(lia)).
  case_decide.
  - apply Z.mod_mod. lia.
  - rewrite <- (Z.mod_add _ 1) by lia. rewrite Z.mul_1_l, Z.sub_add.
    apply Z.mod_mod. lia.
Qed.

Lemma s32_id z : - 2 ^ 31 <= z < 2 ^ 31 -> s32 z = z.
Proof. intros. by apply signed_id. Qed.

Lemma land_ones_mod z n : 0 <= n -> z .& Z.ones n = z mod 2 ^ n.
Proof. apply Z.land_ones. Qed.

Lemma mod_pow2_S v n : v mod 2 ^ Z.of_nat (S n) = v mod 2 ^ Z.of_nat n + 2 ^ Z.of_nat n * b2z (Z.testbit v (Z.of_nat n)).
Proof.
  rewrite Nat2Z.inj_succ, Z.pow_succ_r, (Z.mul_comm 2), Z.rem_mul_r by lia. f_equal. f_equal.
  rewrite Zmod_odd, <- Z.bit0_odd, <- Z.shiftr_div_pow2, Z.shiftr_spec by lia. cbn. by destruct (Z.testbit v _).
Qed.

Lemma land_bound a m k : 0 <= a -> 0 <= m < 2 ^ k -> 0 <= k -> 0 <= a .& m < 2 ^ k.
Proof.
  intros Ha Hm Hk. split; [apply Z.land_nonneg; lia|].
  destruct (decide (a .& m = 0)) as [->|Hne]; [lia|].
  assert (0 < a .& m) by (pose proof (proj2 (Z.land_nonneg a m)); lia).
  apply Z.log2_lt_pow2; [done|].
  pose proof (Z.log2_land a m Ha ltac:(lia)).
  assert (0 < m) by (destruct (decide (m = 0)) as [->|]; [rewrite Z.land_0_r in *; lia|lia]).
  assert (Z.log2 m < k) by (apply Z.log2_lt_pow2; lia). lia.
Qed.

Lemma land_lxor_l a b c : (a .^ b) .& c = (a .& c) .^ (b .& c).
Proof.
  apply Z.bits_inj'. intros n _. rewrite !Z.land_spec, !Z.lxor_spec, !Z.land_spec.
  by destruct (Z.testbit a n), (Z.testbit b n), (Z.testbit c n).
Qed.

Lemma lxor_range a b n : 0 <= n -> 0 <= a < 2 ^ n -> 0 <= b < 2 ^ n -> 0 <= a .^ b < 2 ^ n.
Proof.
  intros Hn Ha Hb. assert (0 <= a .^ b) by (apply Z.lxor_nonneg; lia). split; [done|].
  rewrite <- (Z.mod_small a (2 ^ n)), <- (Z.mod_small b (2 ^ n)) by done.
  rewrite <- !land_ones_mod, <- land_lxor_l, land_ones_mod by done. apply Z.mod_pos_bound. lia.
Qed.

Lemma lor_range a b n : 0 <= n -> 0 <= a < 2 ^ n -> 0 <= b < 2 ^ n -> 0 <= a .| b < 2 ^ n.
Proof.
  intros Hn Ha Hb. assert (0 <= a .| b) by (apply Z.lor_nonneg; lia). split; [done|].
  rewrite <- (Z.mod_small a (2 ^ n)), <- (Z.mod_small b (2 ^ n)) by done.
  rewrite <- !land_ones_mod, <- Z.land_lor_distr_l, land_ones_mod by done. apply Z.mod_pos_bound. lia.
Qed.

(** Bit fields that do not overlap add up. *)
Lemma land_shiftl_disjoint a b n : 0 <= n -> 0 <= a < 2 ^ n -> a .& (b << n) = 0.
Proof.
  intros Hn Ha. apply Z.bits_inj'. intros i Hi. rewrite Z.land_spec, Z.bits_0, Z.shiftl_spec by lia.
  destruct (Z.lt_ge_cases i n).
  - rewrite (Z.testbit_neg_r b) by lia. apply andb_false_r.
  - rewrite <- (Z.mod_small a (2 ^ n)) by lia. by rewrite Z.mod_pow2_bits_high.
Qed.

Lemma lor_shiftl a b n : 0 <= n -> 0 <= a < 2 ^ n -> a .| (b << n) = a + 2 ^ n * b.
Proof.
  intros Hn Ha. rewrite <- Z.lxor_lor, <- Z.add_nocarry_lxor by (by apply land_shiftl_disjoint).
  rewrite Z.shiftl_mul_pow2 by lia. lia.
Qed.

(** A 16-bit pair packed in one 32-bit register, [(hi << 16) + lo]. *)
Lemma pack16_hi hi lo : 0 <= lo < 2 ^ 16 -> ((hi << 16) + lo) >> 16 = hi.
Proof.
  intros. rewrite Z.shiftl_mul_pow2, Z.shiftr_div_pow2 by lia.
  rewrite Z.div_add_l by lia. rewrite Z.div_small; lia.
Qed.

Lemma pack16_lo hi lo : 0 <= lo < 2 ^ 16 -> ((hi << 16) + lo) .& 0xffff = lo.
Proof.
  intros. change 0xffff with (Z.ones 16). rewrite land_ones_mod by lia.
  rewrite Z.shiftl_mul_pow2, Z.add_comm, Z.mod_add by lia. by apply Z.mod_small.
Qed.

(** ** Byte strings *)

Abbreviation bytes := (list Z).

Definition byte_ok (b : Z) : Prop := 0 <= b < 2 ^ 8.
Definition bytes_ok (bs : bytes) : Prop := Forall byte_ok bs.

(** Little-endian value of a byte string, and its [n]-byte representation. *)
Fixpoint le_val (bs : bytes) : Z :=
  match bs with [] => 0 | b :: bs => b + 2 ^ 8 * le_val bs end.

Fixpoint le_bytes (n : nat) (z : Z) : bytes :=
  match n with O => [] | S n => z mod 2 ^ 8 :: le_bytes n (z / 2 ^ 8) end.

Definition be_val (bs : bytes) : Z := le_val (reverse bs).
Definition be_bytes (n : nat) (z : Z) : bytes := reverse (le_bytes n z).

(** [len] bytes at offset [off]. *)
Definition sub (bs : bytes) (off len : nat) : bytes := take len (drop off bs).

(** [memcpy(dst + off, src, length src)] inside a buffer. *)
Definition overlay {A} (off : nat) (src dst : list A) : list A :=
  take off dst ++ src ++ drop (off + length src) dst.

Definition zeroes (n : nat) : bytes := replicate n 0.

(** Little-endian fields of a structure in memory. *)
Definition le32_at (bs : bytes) (off : nat) : Z := le_val (sub bs off 4).
Definition le16_at (bs : bytes) (off : nat) : Z := le_val (sub bs off 2).
Definition le64_at (bs : bytes) (off : nat) : Z := le_val (sub bs off 8).
Definition byte_at (bs : bytes) (off : nat) : Z := le_val (sub bs off 1).

Lemma length_le_bytes n z : length (le_bytes n z) = n.
Proof. revert z; induction n; intros; simpl; auto. Qed.

Lemma le_bytes_ok n z : bytes_ok (le_bytes n z).
Proof.
  revert z; induction n as [|n IH]; intros z; constructor; [|apply IH].
  apply (Z.mod_pos_bound z (2 ^ 8)). lia.
Qed.

Lemma le_val_app a b : le_val (a ++ b) = le_val a + 2 ^ (8 * Z.of_nat (length a)) * le_val b.
Proof.
  induction a as [|x a IH]; cbn [le_val app length]; [rewrite Z.mul_1_l; lia|].
  rewrite IH, Nat2Z.inj_succ, Z.mul_succ_r, Z.pow_add_r by lia. lia.
Qed.

Lemma le_val_bound bs : bytes_ok bs -> 0 <= le_val bs < 2 ^ (8 * Z.of_nat (length bs)).
Proof.
  induction 1 as [|b bs Hb _ IH]; simpl le_val; [simpl; lia|].
  rewrite length_cons, Nat2Z.inj_succ, Z.mul_succ_r, Z.pow_add_r by lia.
  unfold byte_ok in Hb. lia.
Qed.

Lemma le_val_le_bytes n z : le_val (le_bytes n z) = z mod 2 ^ (8 * Z.of_nat n).
Proof.
  revert z; induction n as [|n IH]; intros z; simpl le_bytes; simpl le_val.
  - by rewrite Z.mod_1_r.
  - rewrite IH, Nat2Z.inj_succ, Z.mul_succ_r, Z.add_comm, (Z.add_comm (8 * _)).
    rewrite Z.pow_add_r, Z.rem_mul_r by lia. lia.
Qed.

Lemma le_bytes_le_val bs : bytes_ok bs -> le_bytes (length bs) (le_val bs) = bs.
Proof.
  induction 1 as [|b bs Hb _ IH]; simpl; [done|]. unfold byte_ok in Hb.
  rewrite Z.mul_comm, Z.mod_add, Z.div_add by lia.
  rewrite Z.mod_small, Z.div_small by lia. by rewrite Z.add_0_l, IH.
Qed.

Lemma be_val_be_bytes n z : be_val (be_bytes n z) = z mod 2 ^ (8 * Z.of_nat n).
Proof. unfold be_val, be_bytes. by rewrite reverse_involutive, le_val_le_bytes. Qed.

Lemma be_val_bound bs : bytes_ok bs -> 0 <= be_val bs < 2 ^ (8 * Z.of_nat (length bs)).
Proof.
  intros H. unfold be_val. rewrite <- (length_reverse bs).
  apply le_val_bound. by apply Forall_reverse.
Qed.

Lemma length_be_bytes n z : length (be_bytes n z) = n.
Proof. unfold be_bytes. by rewrite length_reverse, length_le_bytes. Qed.

Lemma le_bytes_inj n a b :
  0 <= a < 2 ^ (8 * Z.of_nat n) -> 0 <= b < 2 ^ (8 * Z.of_nat n) ->
  le_bytes n a = le_bytes n b -> a = b.
Proof.
  intros Ha Hb H. apply (f_equal le_val) in H.
  rewrite !le_val_le_bytes, !Z.mod_small in H; auto.
Qed.

Lemma length_sub bs off len : (off + len <= length bs)%nat -> length (sub bs off len) = len.
Proof. intros. unfold sub. rewrite length_take, length_drop. lia. Qed.

Lemma sub_app_l (a b : bytes) off len :
  (off + len <= length a)%nat -> sub (a ++ b) off len = sub a off len.
Proof.
  intros. unfold sub. rewrite drop_app_le by lia.
  rewrite take_app_le; [done|]. rewrite length_drop. lia.
Qed.

Lemma sub_app_r (a b : bytes) off len :
  (length a <= off)%nat -> sub (a ++ b) off len = sub b (off - length a) len.
Proof. intros. unfold sub. by rewrite drop_app_ge. Qed.

Lemma sub_all (bs : bytes) n : length bs = n -> sub bs 0 n = bs.
Proof. intros <-. unfold sub. by rewrite drop_0, firstn_all. Qed.

(** A field at the front of a structure, and one behind it. *)
Lemma sub_here (a b : bytes) n : length a = n -> sub (a ++ b) 0 n = a.
Proof. intros Ha. rewrite sub_app_l by lia. by apply sub_all. Qed.

Lemma sub_skip (a b : bytes) off len n :
  length a = n -> sub (a ++ b) (n + off) len = sub b off len.
Proof. intros <-. rewrite sub_app_r by lia. f_equal. lia. Qed.

Lemma sub_sub bs o1 l1 o2 l2 :
  (o2 + l2 <= l1)%nat -> sub (sub bs o1 l1) o2 l2 = sub bs (o1 + o2) l2.
Proof.
  intros. unfold sub. rewrite skipn_firstn_comm, drop_drop, take_take.
  f_equal; lia.
Qed.

Lemma sub_split bs off a b : sub bs off (a + b) = sub bs off a ++ sub bs (off + a) b.
Proof. unfold sub. by rewrite <- take_take_drop, drop_drop. Qed.

Lemma bytes_ok_sub bs off len : bytes_ok bs -> bytes_ok (sub bs off len).
Proof. intros. unfold sub. by apply Forall_take, Forall_drop. Qed.

Lemma length_overlay {A} off (src dst : list A) :
  (off + length src <= length dst)%nat -> length (overlay off src dst) = length dst.
Proof. intros. unfold overlay. rewrite !length_app, length_take, length_drop. lia. Qed.

Lemma overlay_0 {A} (src dst : list A) : overlay 0 src dst = src ++ drop (length src) dst.
Proof. reflexivity. Qed.

Lemma overlay_full {A} (src dst : list A) : length src = length dst -> overlay 0 src dst = src.
Proof. intros H. rewrite overlay_0, H, drop_all. apply app_nil_r. Qed.

#[export] Hint Resolve le_bytes_ok bytes_ok_sub : umka.

(** ** Reachability of a step relation *)
Inductive star {S} (step : S -> S -> Prop) : S -> S -> Prop :=
| star_refl s : star step s s
| star_step s1 s2 s3 : step s1 s2 -> star step s2 s3 -> star step s1 s3.

Lemma star_inv {S} (step : S -> S -> Prop) (I : S -> Prop) s s' :
  (forall a b, I a -> step a b -> I b) -> star step s s' -> I s -> I s'.
Proof. intros HI. induction 1; eauto. Qed.

Lemma star_trans {S} (step : S -> S -> Prop) a b c :
  star step a b -> star step b c -> star step a c.
Proof. induction 1; eauto using star_step. Qed.

(** ** Tactics *)

(** Split every boolean or decidable test of the goal. *)
Ltac split_tests :=
  repeat match goal with
  | |- context [if decide ?P then _ else _] => destruct (decide P)
  | |- context [if ?b then _ else _] => destruct b eqn:?
  end.

(** Boolean comparisons of [Z] in the context become propositions. *)
Ltac zbool :=
  rewrite ?Z.eqb_eq, ?Z.eqb_neq, ?Z.ltb_lt, ?Z.ltb_ge, ?Z.leb_le, ?Z.leb_gt,
    ?andb_true_iff, ?andb_false_iff, ?orb_true_iff, ?orb_false_iff,
    ?negb_true_iff, ?negb_false_iff in *.

(** ** Counted loops

    [ofold f i n a] runs [a = f(j, a)] for [j = i, ..., i + n - 1]; [None] in
    one turn ends the loop. *)
Fixpoint ofold {A} (f : nat -> A -> option A) (i n : nat) (a : A) : option A :=
  match n with
  | O => Some a
  | S n => a' ← f i a; ofold f (S i) n a'
  end.

Lemma ofold_add {A} (f : nat -> A -> option A) n m i a :
  ofold f i (n + m) a = (a' ← ofold f i n a; ofold f (i + n) m a').
Proof.
  revert i a; induction n as [|n IH]; intros i a; simpl; [by rewrite Nat.add_0_r|].
  destruct (f i a) as [a'|]; simpl; [|done]. rewrite IH.
  by replace (i + S n)%nat with (S i + n)%nat by lia.
Qed.

Lemma ofold_ext {A} (f g : nat -> A -> option A) i n a :
  (forall j b, f j b = g j b) -> ofold f i n a = ofold g i n a.
Proof.
  intros H. revert i a; induction n as [|n IH]; intros i a; simpl; [done|].
  rewrite H. by destruct (g i a); simpl.
Qed.

Lemma ofold_shift {A} (f : nat -> A -> option A) k n : forall i a,
  ofold (fun j => f (k + j)%nat) i n a = ofold f (k + i) n a.
Proof.
  induction n as [|n IH]; intros i a; simpl; [done|].
  destruct (f (k + i)%nat a); simpl; [|done]. rewrite IH. by rewrite Nat.add_succ_r.
Qed.

(** Two nested loops over rows of [w] are one loop. *)
Lemma ofold_rows {A} (f : nat -> A -> option A) w h : forall i a,
  ofold (fun y => ofold (fun x => f (y * w + x)%nat) 0 w) i h a = ofold f (i * w) (h * w) a.
Proof.
  induction h as [|h IH]; intros i a; [done|].
  cbn [ofold Nat.mul]. rewrite ofold_add, ofold_shift, Nat.add_0_r.
  destruct (ofold f (i * w) w a); simpl; [|done]. rewrite IH. f_equal. lia.
Qed.

(** [a[i] = v] in an array. *)
Definition store_at {A} (a : list A) (i : nat) (v : A) : option (list A) :=
  if (i <? length a)%nat then Some (<[i := v]> a) else None.

(** Filling an array from the front. *)
Lemma ofold_fill {A} (src : nat -> option A) (v : nat -> A) n : forall i a,
  (forall j, (i <= j < i + n)%nat -> src j = Some (v j)) -> (i + n <= length a)%nat ->
  ofold (fun j a => x ← src j; store_at a j x) i n a
  = Some (take i a ++ map v (seq i n) ++ drop (i + n) a).
Proof.
  induction n as [|n IH]; intros i a Hs Hl.
  { simpl. by rewrite Nat.add_0_r, take_drop. }
  cbn [ofold]. rewrite Hs by lia. simpl. unfold store_at.
  rewrite (proj2 (Nat.ltb_lt _ _)) by lia. simpl. rewrite IH.
  - f_equal. rewrite (take_S_r _ _ (v i)) by (apply list_lookup_insert_eq; lia).
    rewrite take_insert_ge by lia. rewrite <- app_assoc. do 2 f_equal. cbn [seq map].
    rewrite drop_insert_lt by lia. replace (i + S n)%nat with (S (i + n)) by lia. done.
  - intros j Hj. apply Hs. lia.
  - rewrite length_insert. lia.
Qed.

(** A loop that ends has made every turn, from a state with the invariant. *)
Lemma ofold_turns {A} (P : A -> Prop) (f : nat -> A -> option A) n : forall i a b,
  (forall j x y, P x -> f j x = Some y -> P y) -> P a -> ofold f i n a = Some b ->
  P b /\ forall j, (i <= j < i + n)%nat -> exists x y, P x /\ f j x = Some y.
Proof.
  induction n as [|n IH]; intros i a b Hf Ha Ho; simpl in Ho.
  { injection Ho as <-. split; [done|]. lia. }
  destruct (f i a) as [a'|] eqn:E; [|done]. simpl in Ho.
  destruct (IH (S i) a' b Hf) as [Hb Ht]; [by eapply Hf|done|].
  split; [done|]. intros j Hj. destruct (decide (j = i)) as [->|]; [by eauto|]. apply Ht. lia.
Qed.

Lemma store_at_length {A} (a b : list A) i v :
  store_at a i v = Some b -> length b = length a /\ (i < length a)%nat.
Proof.
  unfold store_at. destruct (Nat.ltb_spec i (length a)); [|done]. intros [= <-].
  by rewrite length_insert.
Qed.
