(* ===== verification/CLib.v ===== *)
(** The part of the C library the sources use: <string.h> searches on
    NUL-terminated strings, the strtoul family with its end pointer, and the
    integer conversions of printf.  A C string is a [string] (its characters
    up to, not including, the terminator). *)
From S2P Require Import Prelude.

(** ** Characters *)

Definition code (c : ascii) : Z := Z.of_N (N_of_ascii c).
Definition chr (z : Z) : ascii := ascii_of_N (Z.to_N (u8 z)).
Definition nl : string := String (chr 10) "".

Definition isspace (c : ascii) : bool :=
  (code c =? 32) || ((9 <=? code c) && (code c <=? 13)).

(** Value of a digit in a base up to 36. *)
Definition digit_val (c : ascii) : option Z :=
  let z := code c in
  if (48 <=? z) && (z <=? 57) then Some (z - 48)
  else if (97 <=? z) && (z <=? 122) then Some (z - 97 + 10)
  else if (65 <=? z) && (z <=? 90) then Some (z - 65 + 10)
  else None.

Definition digit_char (d : Z) : ascii :=
  if d <? 10 then chr (48 + d) else chr (97 + (d - 10)).

Definition is_digit_of (base : Z) (c : ascii) : bool :=
  match digit_val c with Some d => d <? base | None => false end.

(** ** <string.h> *)

Definition strlen (s : string) : Z := Z.of_nat (String.length s).
(** [!strcmp(a, b)] *)
Definition streq (a b : string) : bool := String.eqb a b.

Fixpoint prefix_of (p s : string) : bool :=
  match p, s with
  | "", _ => true
  | String a p, String b s => Ascii.eqb a b && prefix_of p s
  | _, "" => false
  end.

(** [strstr]: the offset of the first occurrence. *)
Fixpoint strstr (s needle : string) : option nat :=
  if prefix_of needle s then Some O
  else match s with "" => None | String _ s => S <$> strstr s needle end.

(** [strrchr]: the suffix that starts at the last occurrence of [c]. *)
Fixpoint strrchr (s : string) (c : ascii) : option string :=
  match s with
  | "" => None
  | String a s' =>
      match strrchr s' c with
      | Some t => Some t
      | None => if Ascii.eqb a c then Some s else None
      end
  end.

(** [s + n] for [n] up to the terminator. *)
Fixpoint str_drop (n : nat) (s : string) : string :=
  match n, s with
  | O, _ => s
  | S n, String _ s => str_drop n s
  | S _, "" => ""
  end.

Fixpoint str_take (n : nat) (s : string) : string :=
  match n, s with
  | S n, String c s => String c (str_take n s)
  | _, _ => ""
  end.

(** [s[i]], the terminator included. *)
Definition char_at (s : string) (i : nat) : Z :=
  match String.get i s with Some c => code c | None => 0 end.

Definition bytes_of_string (s : string) : bytes := map code (String.list_ascii_of_string s).
Definition string_of_bytes (bs : bytes) : string :=
  String.string_of_list_ascii (map chr bs).

(** The NUL-terminated string at the start of a buffer. *)
Fixpoint cstring (bs : bytes) : string :=
  match bs with
  | [] => ""
  | b :: bs => if b =? 0 then "" else String (chr b) (cstring bs)
  end.

(** ** strtok

    [strtok(s, delims)] repeated until it returns NULL gives the maximal runs
    of characters that are not delimiters. *)
Fixpoint tokens_acc (is_delim : ascii -> bool) (cur : string) (s : string) : list string :=
  match s with
  | "" => match cur with "" => [] | _ => [cur] end
  | String c s =>
      if is_delim c
      then match cur with
           | "" => tokens_acc is_delim "" s
           | _ => cur :: tokens_acc is_delim "" s
           end
      else tokens_acc is_delim (cur +:+ String c "") s
  end.
Definition tokens (is_delim : ascii -> bool) (s : string) : list string :=
  tokens_acc is_delim "" s.

(** [strtok]: the next word and where the following call goes on; the call
    after the last word gives NULL. *)
Fixpoint skip_delims (is_delim : ascii -> bool) (s : string) : string :=
  match s with
  | "" => ""
  | String c s' => if is_delim c then skip_delims is_delim s' else s
  end.
Fixpoint cut_word (is_delim : ascii -> bool) (s : string) : string * string :=
  match s with
  | "" => ("", "")
  | String c s =>
      if is_delim c then ("", s) else let '(w, rest) := cut_word is_delim s in (String c w, rest)
  end.
Definition strtok (is_delim : ascii -> bool) (s : string) : option string * string :=
  match skip_delims is_delim s with
  | "" => (None, "")
  | s => let '(w, rest) := cut_word is_delim s in (Some w, rest)
  end.

(** ** strtoul, strtol, strtoumax *)

Fixpoint skip_space (s : string) : string :=
  match s with
  | String c s' => if isspace c then skip_space s' else s
  | "" => ""
  end.

Fixpoint scan_digits (base acc : Z) (s : string) : Z * string :=
  match s with
  | "" => (acc, "")
  | String c s' =>
      match digit_val c with
      | Some d => if d <? base then scan_digits base (acc * base + d) s' else (acc, s)
      | None => (acc, s)
      end
  end.

(** The subject sequence: sign, magnitude, end pointer; [st_conv] tells whether
    a conversion was performed (otherwise the end pointer is the string). *)
Record strto := Strto { st_neg : bool; st_mag : Z; st_end : string; st_conv : bool }.

Definition take_sign (s : string) : bool * string :=
  match s with
  | String c t => if code c =? 45 then (true, t) else if code c =? 43 then (false, t) else (false, s)
  | "" => (false, s)
  end.

(** Base 0 and the optional 0x prefix. *)
Definition take_base (base : Z) (s : string) : Z * string :=
  match s with
  | String z (String x (String h _ as t)) =>
      if ((base =? 0) || (base =? 16)) && (code z =? 48)
         && ((code x =? 120) || (code x =? 88)) && is_digit_of 16 h
      then (16, t)
      else ((if base =? 0 then if code z =? 48 then 8 else 10 else base), s)
  | String z _ => ((if base =? 0 then if code z =? 48 then 8 else 10 else base), s)
  | "" => ((if base =? 0 then 10 else base), s)
  end.

Definition strto_scan (base : Z) (s : string) : strto :=
  let '(neg, s2) := take_sign (skip_space s) in
  let '(b, s3) := take_base base s2 in
  let '(mag, rest) := scan_digits b 0 s3 in
  if Nat.eqb (String.length rest) (String.length s3)
  then Strto false 0 s false else Strto neg mag rest true.

Definition strto_unsigned (w : Z) (r : strto) : Z :=
  if 2 ^ w - 1 <? st_mag r then 2 ^ w - 1
  else if st_neg r then (- st_mag r) mod 2 ^ w else st_mag r.

Definition strto_signed (w : Z) (r : strto) : Z :=
  let v := if st_neg r then - st_mag r else st_mag r in
  Z.max (- 2 ^ (w - 1)) (Z.min (2 ^ (w - 1) - 1) v).

(** [strtoul(s, NULL, base)] and [strtol(s, NULL, base)] with a 32-bit long;
    [strtoumax], [strtoull] and [strtoll] have 64 bits. *)
Definition strtoul (s : string) (base : Z) : Z := strto_unsigned 32 (strto_scan base s).
Definition strtol (s : string) (base : Z) : Z := strto_signed 32 (strto_scan base s).
Definition strtoumax (s : string) (base : Z) : Z := strto_unsigned 64 (strto_scan base s).
Definition strtoll (s : string) (base : Z) : Z := strto_signed 64 (strto_scan base s).
(** [endptr] after any of them. *)
Definition strto_end (s : string) (base : Z) : string := st_end (strto_scan base s).

(** ** printf integer conversions *)

Fixpoint digits_fuel (fuel : nat) (base n : Z) (acc : string) : string :=
  match fuel with
  | O => acc
  | S fuel =>
      let acc := String (digit_char (n mod base)) acc in
      if n <? base then acc else digits_fuel fuel base (n / base) acc
  end.

(** Digits of a natural number; [log2 n + 1] rounds are enough for any base. *)
Definition fmt_base (base n : Z) : string :=
  digits_fuel (S (Z.to_nat (Z.log2 n))) base n "".

Fixpoint str_repeat (n : nat) (c : ascii) : string :=
  match n with O => "" | S n => String c (str_repeat n c) end.

(** Precision [.p]: leading zeros; field width: leading blanks. *)
Definition prec (p : nat) (s : string) : string :=
  str_repeat (p - String.length s) (chr 48) +:+ s.
Definition width (w : nat) (s : string) : string :=
  str_repeat (w - String.length s) (chr 32) +:+ s.

(** %u, %x of an unsigned argument; %d / %i of a signed one. *)
Definition fmt_u (n : Z) : string := fmt_base 10 n.
Definition fmt_x (n : Z) : string := fmt_base 16 n.
Definition fmt_d (z : Z) : string :=
  if z <? 0 then "-" +:+ fmt_base 10 (- z) else fmt_base 10 z.
(** A signed precision pads between the sign and the digits: %4.4i. *)
Definition fmt_d_prec (p : nat) (z : Z) : string :=
  if z <? 0 then "-" +:+ prec p (fmt_base 10 (- z)) else prec p (fmt_base 10 z).
(** %2.2x and %8.8x *)
Definition fmt_x2 (n : Z) : string := prec 2 (fmt_x n).
Definition fmt_x8 (n : Z) : string := prec 8 (fmt_x n).

(** ** Lemmas *)

Lemma string_app_cons x (a b : string) : String x a +:+ b = String x (a +:+ b).
Proof. reflexivity. Qed.

Lemma string_app_assoc (a b c : string) : (a +:+ b) +:+ c = a +:+ (b +:+ c).
Proof. induction a as [|x a IH]; [done|]. by rewrite !string_app_cons, IH. Qed.

Lemma string_app_nil_r (a : string) : a +:+ "" = a.
Proof. induction a as [|x a IH]; [done|]. by rewrite string_app_cons, IH. Qed.

Lemma string_length_app (a b : string) :
  String.length (a +:+ b) = (String.length a + String.length b)%nat.
Proof. induction a as [|x a IH]; [done|]. rewrite string_app_cons. simpl. by rewrite IH. Qed.

Lemma code_range c : 0 <= code c < 2 ^ 8.
Proof. unfold code. pose proof (N_ascii_bounded c). lia. Qed.

Lemma code_chr z : code (chr z) = u8 z.
Proof.
  unfold code, chr. pose proof (u8_range z).
  rewrite N_ascii_embedding; lia.
Qed.

Lemma chr_code c : chr (code c) = c.
Proof.
  unfold chr. rewrite u8_small by apply code_range.
  unfold code. rewrite N2Z.id. apply ascii_N_embedding.
Qed.

Lemma code_inj a b : code a = code b -> a = b.
Proof. intros H. by rewrite <- (chr_code a), <- (chr_code b), H. Qed.

Lemma eqb_code a b : Ascii.eqb a b = (code a =? code b).
Proof.
  destruct (Ascii.eqb_spec a b) as [->|Hne]; [by rewrite Z.eqb_refl|].
  symmetry. apply Z.eqb_neq. intros H. by apply Hne, code_inj.
Qed.

Lemma streq_eq a b : streq a b = true <-> a = b.
Proof. apply String.eqb_eq. Qed.
Lemma streq_refl a : streq a a = true.
Proof. apply String.eqb_refl. Qed.
Lemma streq_neq a b : streq a b = false <-> a <> b.
Proof. apply String.eqb_neq. Qed.

Lemma prefix_of_spec p s : prefix_of p s = true <-> exists t, s = p +:+ t.
Proof.
  revert s; induction p as [|a p IH]; intros s; simpl.
  - split; [by exists s|done].
  - destruct s as [|b s]; [split; [done|by intros [t ?]]|].
    rewrite andb_true_iff, Ascii.eqb_eq, IH. split.
    + intros [-> [t ->]]. by exists t.
    + intros [t Ht]. rewrite string_app_cons in Ht. injection Ht as -> ->. eauto.
Qed.

Lemma strstr_sound s p n :
  strstr s p = Some n -> (n <= String.length s)%nat /\ exists t, str_drop n s = p +:+ t.
Proof.
  revert n; induction s as [|c s IH]; intros n; simpl; destruct (prefix_of p _) eqn:Hp.
  - intros [= <-]. split; [lia|]. by apply prefix_of_spec.
  - done.
  - intros [= <-]. split; [lia|]. by apply prefix_of_spec.
  - destruct (strstr s p) as [m|]; [|done]. intros [= <-].
    destruct (IH m eq_refl) as [? ?]. split; [lia|done].
Qed.

Lemma str_take_drop n s : str_take n s +:+ str_drop n s = s.
Proof.
  revert s; induction n as [|n IH]; intros s; [done|].
  destruct s; simpl; [done|]. by rewrite string_app_cons, IH.
Qed.

Lemma length_str_take n s : (n <= String.length s)%nat -> String.length (str_take n s) = n.
Proof.
  revert s. induction n as [|n IH]; intros [|c s] H; simpl in *; try done; try lia. f_equal. apply IH. lia.
Qed.

Lemma str_take_prefix a b : str_take (String.length a) (a +:+ b) = a.
Proof. induction a as [|c a IH]; [by destruct b|]. rewrite string_app_cons. simpl. by rewrite IH. Qed.

Lemma str_drop_app a b : str_drop (String.length a) (a +:+ b) = b.
Proof. induction a as [|c a IH]; [by destruct b|]. rewrite string_app_cons. simpl. apply IH. Qed.

Lemma str_drop_add n m s : str_drop (n + m) s = str_drop n (str_drop m s).
Proof.
  revert s. induction m as [|m IH]; intros s; [by rewrite Nat.add_0_r; destruct s|].
  rewrite Nat.add_succ_r. destruct s as [|c s]; [by destruct n|]. simpl. apply IH.
Qed.

(** [strstr] finds an occurrence when there is one, and none before it. *)
Lemma strstr_first a p b n : strstr (a +:+ p +:+ b) p = Some n -> (n <= String.length a)%nat.
Proof.
  revert n. induction a as [|c a IH]; intros n H.
  - assert (prefix_of p (p +:+ b) = true) as Hp by (apply prefix_of_spec; by exists b).
    change ("" +:+ ?x) with x in H. destruct (p +:+ b); cbn [strstr] in H; rewrite Hp in H; by injection H as <-.
  - rewrite string_app_cons in H. cbn [strstr] in H. destruct (prefix_of p _); [injection H as <-; lia|].
    destruct (strstr (a +:+ p +:+ b) p) as [m|]; [|done]. injection H as <-. simpl.
    specialize (IH m eq_refl). lia.
Qed.

Lemma strstr_complete a p b : is_Some (strstr (a +:+ p +:+ b) p).
Proof.
  induction a as [|c a [m Hm]].
  - assert (prefix_of p (p +:+ b) = true) as Hp by (apply prefix_of_spec; by exists b).
    change ("" +:+ ?x) with x. destruct (p +:+ b); cbn [strstr]; rewrite Hp; by eexists.
  - rewrite string_app_cons. cbn [strstr]. destruct (prefix_of p _); [by eexists|]. rewrite Hm. by eexists.
Qed.

Lemma digit_val_char d : 0 <= d < 16 -> digit_val (digit_char d) = Some d.
Proof.
  intros Hd. assert (Forall (fun d => digit_val (digit_char d) = Some d) (seqZ 0 16)) as HF
    by (repeat constructor).
  rewrite List.Forall_forall in HF. apply HF, list_elem_of_In, elem_of_seqZ. lia.
Qed.

(** Scanning the printed digits of [n] yields [n]. *)
Lemma scan_digits_fuel fuel base n acc :
  2 <= base <= 16 -> 0 <= n < 2 ^ Z.of_nat fuel -> (0 < fuel)%nat ->
  scan_digits base 0 (digits_fuel fuel base n acc) = scan_digits base n acc.
Proof.
  intros Hb. revert n acc; induction fuel as [|f IH]; intros n acc Hn Hf; [lia|].
  simpl. pose proof (Z.mod_pos_bound n base ltac:(lia)).
  assert (Hc : forall a, scan_digits base a (String (digit_char (n mod base)) acc)
               = scan_digits base (a * base + n mod base) acc).
  { intros a. simpl. rewrite digit_val_char by lia.
    destruct (Z.ltb_spec (n mod base) base); [done|lia]. }
  destruct (Z.ltb_spec n base).
  - rewrite Hc. f_equal. rewrite Z.mod_small by lia. lia.
  - destruct f as [|f].
    { simpl in Hn. lia. }
    rewrite IH; [|split|lia].
    + rewrite Hc. f_equal. pose proof (Z.div_mod n base). lia.
    + apply Z.div_pos; lia.
    + apply Z.div_lt_upper_bound; [lia|].
      rewrite Nat2Z.inj_succ in Hn. rewrite Z.pow_succ_r in Hn by lia. nia.
Qed.

Lemma log2_fuel n : 0 <= n -> 0 <= n < 2 ^ Z.of_nat (S (Z.to_nat (Z.log2 n))).
Proof.
  intros Hn. split; [done|].
  rewrite Nat2Z.inj_succ, Z2Nat.id by apply Z.log2_nonneg.
  destruct (decide (n = 0)) as [->|]; [done|]. apply Z.log2_spec. lia.
Qed.

Lemma scan_fmt_base base n rest :
  2 <= base <= 16 -> 0 <= n ->
  scan_digits base 0 (digits_fuel (S (Z.to_nat (Z.log2 n))) base n rest)
  = scan_digits base n rest.
Proof. intros. apply scan_digits_fuel; [done| |lia]. by apply log2_fuel. Qed.

(** The first printed digit, and that there is one. *)
Lemma digits_fuel_head fuel base n acc :
  2 <= base <= 16 -> (0 < fuel)%nat ->
  0 <= n < 2 ^ Z.of_nat fuel ->
  exists d t, digits_fuel fuel base n acc = String (digit_char d) (t +:+ acc)
    /\ 0 <= d < base /\ (d = 0 -> n = 0 /\ t = "").
Proof.
  intros Hb. revert n acc; induction fuel as [|f IH]; intros n acc Hf Hn; [lia|].
  simpl. pose proof (Z.mod_pos_bound n base ltac:(lia)).
  destruct (Z.ltb_spec n base).
  - exists (n mod base), "". rewrite Z.mod_small by lia. split; [done|]. split; [lia|]. by intros ->.
  - destruct f as [|f]; [simpl in Hn; lia|].
    assert (0 < n / base) by (apply Z.div_str_pos; lia).
    assert (n / base < 2 ^ Z.of_nat (S f)).
    { apply Z.div_lt_upper_bound; [lia|].
      rewrite Nat2Z.inj_succ in Hn. rewrite Z.pow_succ_r in Hn by lia. nia. }
    destruct (IH (n / base) (String (digit_char (n mod base)) acc)) as (d & t & -> & Hd & Hz); [lia..|].
    exists d, (t +:+ String (digit_char (n mod base)) "").
    rewrite string_app_assoc. simpl. split; [done|]. split; [lia|].
    intros ->. destruct Hz; lia.
Qed.

Lemma fmt_base_head base n :
  2 <= base <= 16 -> 0 <= n ->
  exists d t, fmt_base base n = String (digit_char d) t
    /\ 0 <= d < base /\ (d = 0 -> n = 0 /\ t = "").
Proof.
  intros Hb Hn.
  destruct (digits_fuel_head (S (Z.to_nat (Z.log2 n))) base n "") as (d & t & He & Hd & Hz);
    [done|lia|by apply log2_fuel|].
  exists d, t. rewrite string_app_nil_r in He. auto.
Qed.

Lemma digit_char_code d : 0 <= d < 10 -> code (digit_char d) = 48 + d.
Proof.
  intros Hd. unfold digit_char. destruct (Z.ltb_spec d 10); [|lia].
  rewrite code_chr, u8_small; lia.
Qed.

Lemma take_base_dec d t : 1 <= d < 10 -> take_base 0 (String (digit_char d) t) = (10, String (digit_char d) t).
Proof.
  intros Hd. unfold take_base. rewrite digit_char_code by lia.
  assert ((48 + d =? 48) = false) as -> by (apply Z.eqb_neq; lia).
  rewrite andb_false_r. destruct t as [|? []]; reflexivity.
Qed.

(** [strtoumax(_, &end, 0)] and its narrower forms read back what %u prints. *)
Lemma strto_scan_fmt_u n :
  0 <= n -> strto_scan 0 (fmt_u n) = Strto false n "" true.
Proof.
  intros Hn. destruct (decide (n = 0)) as [->|Hn0]; [reflexivity|].
  destruct (fmt_base_head 10 n) as (d & t & He & Hd & Hz); [lia..|].
  assert (1 <= d) by (destruct (decide (d = 0)); [destruct Hz; lia|lia]).
  assert (isspace (digit_char d) = false) as Hsp.
  { unfold isspace. rewrite digit_char_code by lia. zbool. lia. }
  unfold strto_scan, fmt_u. rewrite He. simpl skip_space. rewrite Hsp. simpl take_sign.
  rewrite digit_char_code by lia.
  assert ((48 + d =? 45) = false) as -> by (apply Z.eqb_neq; lia).
  assert ((48 + d =? 43) = false) as -> by (apply Z.eqb_neq; lia).
  rewrite take_base_dec by lia.
  assert (scan_digits 10 0 (String (digit_char d) t) = (n, "")) as ->
    by (rewrite <- He; apply (scan_fmt_base 10 n ""); lia).
  done.
Qed.

(** The same with something behind the digits that cannot continue them. *)
Definition ends_number (c : ascii) : bool :=
  match digit_val c with Some d => 10 <=? d | None => true end
  && negb (code c =? 120) && negb (code c =? 88).

Lemma scan_stops base acc c rest : ends_number c = true -> base <= 10 ->
  scan_digits base acc (String c rest) = (acc, String c rest).
Proof.
  unfold ends_number. intros H Hb. simpl. destruct (digit_val c) as [d|]; [|done].
  destruct (Z.ltb_spec d base); [|done]. destruct (Z.leb_spec 10 d); [lia|done].
Qed.

Lemma digits_fuel_append fuel base : forall n acc rest,
  digits_fuel fuel base n acc +:+ rest = digits_fuel fuel base n (acc +:+ rest).
Proof.
  induction fuel as [|fuel IH]; intros n acc rest; simpl; [done|].
  destruct (n <? base); [done|]. apply IH.
Qed.

Lemma strto_scan_fmt_u_rest n c rest :
  0 <= n -> ends_number c = true ->
  strto_scan 0 (fmt_u n +:+ String c rest) = Strto false n (String c rest) true.
Proof.
  intros Hn Hc. pose proof Hc as Hx. unfold ends_number in Hx.
  apply andb_prop in Hx as [Hx H88]. apply andb_prop in Hx as [_ H120].
  apply negb_true_iff in H88, H120.
  assert (Hlen : forall s : string, s <> "" ->
    (String.length (String c rest) =? String.length (s +:+ String c rest))%nat = false).
  { intros s Hs. apply Nat.eqb_neq. rewrite string_length_app. destruct s; [done|]. simpl. lia. }
  destruct (decide (n = 0)) as [->|Hn0].
  { change (fmt_u 0) with "0". rewrite string_app_cons. change ("" +:+ ?x) with x.
    unfold strto_scan.
    change (take_sign (skip_space (String "0" ?x))) with (false, String "0" x). cbv beta iota.
    assert (take_base 0 (String "0" (String c rest)) = (8, String "0" (String c rest))) as ->.
    { unfold take_base. rewrite H120, H88. cbn [orb andb]. rewrite andb_false_r. by destruct rest. }
    assert (scan_digits 8 0 (String "0" (String c rest)) = (0, String c rest)) as ->.
    { cbn [scan_digits]. change (digit_val "0") with (Some 0). cbn [Z.ltb Z.compare Z.mul Z.add].
      by apply scan_stops. }
    specialize (Hlen "0" ltac:(done)). rewrite string_app_cons in Hlen. change ("" +:+ ?x) with x in Hlen.
    by rewrite Hlen. }
  destruct (fmt_base_head 10 n) as (d & t & He & Hd & Hz); [lia..|].
  assert (1 <= d) by (destruct (decide (d = 0)); [destruct Hz; lia|lia]).
  assert (isspace (digit_char d) = false) as Hsp.
  { unfold isspace. rewrite digit_char_code by lia. zbool. lia. }
  unfold strto_scan, fmt_u. rewrite He, string_app_cons. simpl skip_space. rewrite Hsp. simpl take_sign.
  rewrite digit_char_code by lia.
  assert ((48 + d =? 45) = false) as -> by (apply Z.eqb_neq; lia).
  assert ((48 + d =? 43) = false) as -> by (apply Z.eqb_neq; lia).
  rewrite take_base_dec by lia. rewrite <- string_app_cons, <- He. unfold fmt_base.
  assert (scan_digits 10 0 (digits_fuel (S (Z.to_nat (Z.log2 n))) 10 n "" +:+ String c rest)
    = (n, String c rest)) as ->.
  { rewrite digits_fuel_append, scan_fmt_base by lia. by apply scan_stops. }
  change (digits_fuel _ 10 n "") with (fmt_base 10 n). rewrite He. by rewrite Hlen.
Qed.

(** ** Strings in memory *)

Lemma bytes_of_string_app (a b : string) : bytes_of_string (a +:+ b) = bytes_of_string a ++ bytes_of_string b.
Proof.
  induction a as [|c a IH]; [done|]. rewrite string_app_cons. unfold bytes_of_string in *. simpl. by rewrite IH.
Qed.

Lemma length_bytes_of_string s : length (bytes_of_string s) = String.length s.
Proof. unfold bytes_of_string. rewrite length_map. induction s; simpl; auto. Qed.

Definition no_nul (s : string) : Prop := Forall (fun c => code c <> 0) (String.list_ascii_of_string s).

Lemma no_nul_app a b : no_nul a -> no_nul b -> no_nul (a +:+ b).
Proof.
  unfold no_nul. intros Ha Hb. induction a as [|c a IH]; [done|]. rewrite string_app_cons. simpl.
  inversion Ha; subst. constructor; auto.
Qed.

Lemma no_nul_digits fuel base : 2 <= base <= 16 -> forall n acc,
  no_nul acc -> no_nul (digits_fuel fuel base n acc).
Proof.
  intros Hb. induction fuel as [|fuel IH]; intros n acc Ha; simpl; [done|].
  assert (no_nul (String (digit_char (n mod base)) acc)).
  { constructor; [|done]. pose proof (Z.mod_pos_bound n base ltac:(lia)). unfold digit_char.
    destruct (n mod base <? 10) eqn:E; rewrite code_chr, u8_small; lia. }
  destruct (n <? base); auto.
Qed.

Lemma no_nul_fmt_u n : no_nul (fmt_u n).
Proof. apply no_nul_digits; [lia|constructor]. Qed.

Lemma cstring_app s r : no_nul s -> cstring (bytes_of_string s ++ r) = s +:+ cstring r.
Proof.
  unfold no_nul, bytes_of_string. induction s as [|c s IH]; intros Hs; [done|]. inversion Hs; subst.
  cbn. rewrite (proj2 (Z.eqb_neq (code c) 0)) by done. rewrite chr_code, string_app_cons. f_equal. by apply IH.
Qed.

Lemma cstring_bytes_of_string s : no_nul s -> cstring (bytes_of_string s) = s.
Proof.
  intros Hs. rewrite <- (app_nil_r (bytes_of_string s)), cstring_app by done. apply string_app_nil_r.
Qed.

(** A word once begun is a token. *)
Lemma tokens_acc_nonempty d cur s : cur <> "" -> tokens_acc d cur s <> [].
Proof.
  revert cur; induction s as [|c s IH]; intros cur Hc; simpl; [by destruct cur|].
  destruct (d c); [by destruct cur|]. apply IH. destruct cur; [done|]. by rewrite string_app_cons.
Qed.

Lemma tokens_head d c s : d c = false -> tokens d (String c s) <> [].
Proof. intros H. unfold tokens. simpl. rewrite H. by apply tokens_acc_nonempty. Qed.

(** The calls of [strtok] give the words of the text one after the other. *)
Lemma tokens_skip d s : tokens d s = tokens d (skip_delims d s).
Proof. induction s as [|c s IH]; [done|]. unfold tokens in *. simpl. destruct (d c) eqn:E; [done|]. simpl. by rewrite E. Qed.

Lemma tokens_cut d s : forall cur,
  cur +:+ fst (cut_word d s) <> "" -> tokens_acc d cur s = (cur +:+ fst (cut_word d s)) :: tokens d (snd (cut_word d s)).
Proof.
  induction s as [|c s IH]; intros cur Hc; simpl in *.
  { rewrite string_app_nil_r in *. by destruct cur. }
  destruct (d c) eqn:E; simpl in *.
  { rewrite string_app_nil_r in *. by destruct cur. }
  destruct (cut_word d s) as [w r]. simpl in *. rewrite IH; simpl; by rewrite string_app_assoc.
Qed.

Lemma cut_word_length d s : (String.length (snd (cut_word d s)) <= String.length s)%nat.
Proof. induction s as [|c s IH]; [done|]. simpl. destruct (d c); simpl; [lia|]. destruct (cut_word d s). simpl in *. lia. Qed.

Lemma skip_delims_cases d s :
  skip_delims d s = "" \/ exists c t, skip_delims d s = String c t /\ d c = false /\ (String.length t < String.length s)%nat.
Proof.
  induction s as [|c s IH]; [by left|]. simpl. destruct (d c) eqn:E.
  - destruct IH as [IH|(x & t & ? & ? & ?)]; [by left|]. right. exists x, t. split; [done|]. split; [done|lia].
  - right. exists c, s. split; [done|]. split; [done|lia].
Qed.

Lemma strtok_tokens d s :
  (strtok d s = (None, "") /\ tokens d s = [])
  \/ exists w rest, strtok d s = (Some w, rest) /\ tokens d s = w :: tokens d rest
       /\ (String.length rest < String.length s)%nat.
Proof.
  unfold strtok. rewrite (tokens_skip d s).
  destruct (skip_delims_cases d s) as [-> |(c & t & -> & Hc & Hl)]; [by left|]. right.
  pose proof (cut_word_length d t) as Hle. unfold tokens at 1. cbn [tokens_acc]. rewrite Hc. cbn [cut_word]. rewrite Hc.
  rewrite tokens_cut by done. destruct (cut_word d t) as [w r]. simpl in *. exists (String c w), r.
  split; [done|]. split; [done|lia].
Qed.

(** ** Equal strings *)

Lemma string_app_inj_l p a b : p +:+ a = p +:+ b -> a = b.
Proof. induction p as [|c p IH]; [done|]. rewrite !string_app_cons. intros [= H]. by apply IH. Qed.

Lemma string_app_eq a b c d : String.length a = String.length b -> a +:+ c = b +:+ d -> a = b.
Proof.
  revert b; induction a as [|x a IH]; intros [|y b] Hl H; try done.
  rewrite !string_app_cons in H. injection H as -> H. f_equal. apply (IH b); [by injection Hl|done].
Qed.

Lemma fmt_x2_byte b : 0 <= b < 256 ->
  fmt_x2 b = String (digit_char (b / 16)) (String (digit_char (b mod 16)) "").
Proof.
  intros Hb.
  assert (Forall (fun b => fmt_x2 b = String (digit_char (b / 16)) (String (digit_char (b mod 16)) ""))
            (seqZ 0 256)) as H by (apply (bool_decide_unpack _); vm_compute; reflexivity).
  rewrite List.Forall_forall in H. apply H, list_elem_of_In, elem_of_seqZ. lia.
Qed.
