(* ===== verification/Io.v ===== *)
(** umkaio.c: host input/output for the emulated kernel.

    [Posix] is the part of the POSIX file interface the sources call (read,
    write, lseek on a descriptor).  [Iot] is the asynchronous path: kernel
    threads hand a request to the host thread [thread_io] through the single
    slot [iot_cmd_buf[0]] and wait for it; it is a step relation over the
    threads' program points.  [io_read] and [io_write] choose between the
    direct call and the hand-over. *)
From S2P Require Import Prelude.

(** ** Descriptors *)
Module Posix.

(** An open file: contents, current position, and the access mode. *)
Record fdesc := Fdesc { fd_data : bytes; fd_pos : Z; fd_writable : bool }.

(** [lseek(fd, off, SEEK_SET)]: a negative offset is refused (EINVAL). *)
Definition lseek_set (f : fdesc) (off : Z) : fdesc :=
  if 0 <=? off then Fdesc (fd_data f) off (fd_writable f) else f.

(** [lseek(fd, 0, SEEK_END)] *)
Definition lseek_end (f : fdesc) : fdesc :=
  Fdesc (fd_data f) (Z.of_nat (length (fd_data f))) (fd_writable f).

(** [read(fd, buf, count)] on a regular file: the bytes stored in [buf], the
    descriptor after it; the return value is their number. *)
Definition read (f : fdesc) (count : Z) : bytes * fdesc :=
  let got := take (Z.to_nat count) (drop (Z.to_nat (fd_pos f)) (fd_data f)) in
  (got, Fdesc (fd_data f) (fd_pos f + Z.of_nat (length got)) (fd_writable f)).

(** [write(fd, src, count)]: -1 on a descriptor opened for reading only. *)
Definition write (f : fdesc) (src : bytes) : Z * fdesc :=
  if fd_writable f then
    let p := Z.to_nat (fd_pos f) in
    let padded := fd_data f ++ zeroes (p - length (fd_data f)) in
    (Z.of_nat (length src),
     Fdesc (overlay p src padded) (fd_pos f + Z.of_nat (length src)) true)
  else (-1, f).

(** [read] on a descriptor number: -1 with nothing stored when it is not open. *)
Definition fd_read (f : option fdesc) (count : Z) : Z * bytes * option fdesc :=
  match f with
  | None => (-1, [], None)
  | Some f => let '(got, f') := read f count in (Z.of_nat (length got), got, Some f')
  end.

Definition fd_write (f : option fdesc) (src : bytes) : Z * option fdesc :=
  match f with
  | None => (-1, None)
  | Some f => let '(n, f') := write f src in (n, Some f')
  end.

Definition fd_lseek (f : option fdesc) (off : Z) : option fdesc :=
  (fun f => lseek_set f off) <$> f.

Lemma read_within f count :
  0 <= count -> 0 <= fd_pos f -> fd_pos f + count <= Z.of_nat (length (fd_data f)) ->
  fst (read f count) = sub (fd_data f) (Z.to_nat (fd_pos f)) (Z.to_nat count)
  /\ length (fst (read f count)) = Z.to_nat count.
Proof. intros. split; [done|]. simpl. rewrite length_take, length_drop. lia. Qed.

(** [lseek] then [read], inside the file. *)
Lemma read_at f off count :
  0 <= off -> 0 <= count -> off + count <= Z.of_nat (length (fd_data f)) ->
  fd_read (fd_lseek (Some f) off) count =
  (count, sub (fd_data f) (Z.to_nat off) (Z.to_nat count),
   Some (Fdesc (fd_data f) (off + count) (fd_writable f))).
Proof.
  intros Ho Hc Hl. cbn -[Z.leb]. unfold lseek_set. rewrite (proj2 (Z.leb_le _ _)) by lia. cbn.
  fold (sub (fd_data f) (Z.to_nat off) (Z.to_nat count)).
  by rewrite length_sub, Z2Nat.id by lia.
Qed.

Lemma read_preserves_data f count : fd_data (snd (read f count)) = fd_data f.
Proof. done. Qed.

Lemma write_readonly f src : fd_writable f = false -> write f src = (-1, f).
Proof. intros H. unfold write. by rewrite H. Qed.

End Posix.

(** ** umka.h: the three phases of the emulator *)
Definition UMKA_RUNNING_NEVER : Z := 0.
Definition UMKA_RUNNING_NOT_YET : Z := 1.
Definition UMKA_RUNNING_YES : Z := 2.

(** ** The hand-over to the I/O thread *)
Module Iot.

Definition IOT_CMD_STATUS_EMPTY : Z := 0.
Definition IOT_CMD_STATUS_READY : Z := 1.
Definition IOT_CMD_STATUS_DONE : Z := 2.

Definition IOT_CMD_READ : Z := 0.
Definition IOT_CMD_WRITE : Z := 1.

(** [struct iot_cmd].  The union's first word holds [arg.fd] before and
    [ret.val] after the call, whichever command it is; [arg_buf] names the
    caller's buffer.  [locked] is the state of [mutex]. *)
Record iot_cmd := IotCmd {
  cmd_type : Z; status : Z; locked : bool;
  word0 : Z; arg_buf : nat; arg_count : Z }.

Record request := Req { rq_fd : Z; rq_buf : nat; rq_count : Z }.

(** Program points of a kernel thread inside [io_async_read]. *)
Inductive client :=
| Idle
| Submitting (r : request)   (** in [kos_wait_events(io_async_submit_wait_test)] *)
| Filling (r : request)      (** past the wait, about to write the slot *)
| Filled (r : request)       (** arguments written, status not yet stored *)
| Signalling (r : request)   (** status READY, before [pthread_cond_signal] *)
| Completing (r : request)   (** in [kos_wait_events(io_async_complete_wait_test)] *)
| Taking (r : request)       (** saw DONE, about to read [ret.val] *)
| Clearing (r : request) (res : Z)    (** about to store EMPTY *)
| Unlocking (r : request) (res : Z)   (** about to unlock the mutex *)
| Returned (r : request) (res : Z).

(** Program points of [thread_io]. *)
Inductive iothread :=
| Starting      (** before the initialisation loop *)
| Looping       (** about to call [pthread_cond_wait]: a signal now is lost *)
| Waiting       (** in [pthread_cond_wait] *)
| Woken         (** returned from it *)
| Executed.     (** call made, DONE not yet stored *)

(** [files] are the process's descriptors, [mem] the callers' buffers. *)
Record state := State {
  cmd : iot_cmd;
  files : gmap Z Posix.fdesc;
  mem : gmap nat bytes;
  iot : iothread;
  clients : gmap nat client }.

(** [read(fd, buf, count)] in the process: the return value, the descriptors
    and the buffers after it. *)
Definition sys_read (fs : gmap Z Posix.fdesc) (m : gmap nat bytes) (fd : Z) (buf : nat) (count : Z)
  : Z * gmap Z Posix.fdesc * gmap nat bytes :=
  let '(n, got, f') := Posix.fd_read (fs !! fd) count in
  (n, match f' with Some f => <[fd := f]> fs | None => fs end,
   <[buf := overlay 0 got (default [] (m !! buf))]> m).

Definition sys_write (fs : gmap Z Posix.fdesc) (m : gmap nat bytes) (fd : Z) (buf : nat) (count : Z)
  : Z * gmap Z Posix.fdesc :=
  let '(n, f') := Posix.fd_write (fs !! fd) (take (Z.to_nat count) (default [] (m !! buf))) in
  (n, match f' with Some f => <[fd := f]> fs | None => fs end).

(** [pthread_mutex_trylock(&iot_cmd_buf[0].mutex)]: 0 when it takes the lock,
    EBUSY when the lock is held, by whichever thread. *)
Definition EBUSY : Z := 16.
Definition io_async_submit_wait_test (c : iot_cmd) : Z * iot_cmd :=
  if locked c then (EBUSY, c)
  else (0, IotCmd (cmd_type c) (status c) true (word0 c) (arg_buf c) (arg_count c)).

Definition io_async_complete_wait_test (c : iot_cmd) : Z :=
  b2z (status c =? IOT_CMD_STATUS_DONE).

Definition set_status (s : Z) (c : iot_cmd) : iot_cmd :=
  IotCmd (cmd_type c) s (locked c) (word0 c) (arg_buf c) (arg_count c).
Definition set_locked (b : bool) (c : iot_cmd) : iot_cmd :=
  IotCmd (cmd_type c) (status c) b (word0 c) (arg_buf c) (arg_count c).
Definition set_word0 (w : Z) (c : iot_cmd) : iot_cmd :=
  IotCmd (cmd_type c) (status c) (locked c) w (arg_buf c) (arg_count c).

(** One step of a kernel thread executing [io_async_read].  [kos_wait_events]
    re-evaluates its test until the test is not zero. *)
Definition client_step (s : state) (c : client) : option (state * client) :=
  match c with
  | Idle | Returned _ _ => None
  | Submitting r =>
      let '(res, c') := io_async_submit_wait_test (cmd s) in
      Some (State c' (files s) (mem s) (iot s) (clients s),
            if res =? 0 then Submitting r else Filling r)
  | Filling r =>
      let c' := IotCmd IOT_CMD_READ (status (cmd s)) (locked (cmd s))
                  (rq_fd r) (rq_buf r) (rq_count r) in
      Some (State c' (files s) (mem s) (iot s) (clients s), Filled r)
  | Filled r =>
      Some (State (set_status IOT_CMD_STATUS_READY (cmd s)) (files s) (mem s) (iot s) (clients s),
            Signalling r)
  | Signalling r =>
      (* a signal with no waiter is lost *)
      let t := match iot s with Waiting => Woken | t => t end in
      Some (State (cmd s) (files s) (mem s) t (clients s), Completing r)
  | Completing r =>
      Some (s, if io_async_complete_wait_test (cmd s) =? 0 then Completing r else Taking r)
  | Taking r => Some (s, Clearing r (word0 (cmd s)))
  | Clearing r res =>
      Some (State (set_status IOT_CMD_STATUS_EMPTY (cmd s)) (files s) (mem s) (iot s) (clients s),
            Unlocking r res)
  | Unlocking r res =>
      Some (State (set_locked false (cmd s)) (files s) (mem s) (iot s) (clients s), Returned r res)
  end.

(** One step of [thread_io]; it has none while it waits. *)
Definition thread_io_step (s : state) : option state :=
  match iot s with
  | Starting =>
      Some (State (IotCmd 0 IOT_CMD_STATUS_EMPTY false
                     (word0 (cmd s)) (arg_buf (cmd s)) (arg_count (cmd s)))
              (files s) (mem s) Looping (clients s))
  | Looping => Some (State (cmd s) (files s) (mem s) Waiting (clients s))
  | Waiting => None
  | Woken =>
      let c := cmd s in
      if cmd_type c =? IOT_CMD_READ then
        let '(ret, fs, m) := sys_read (files s) (mem s) (word0 c) (arg_buf c) (arg_count c) in
        Some (State (set_word0 ret c) fs m Executed (clients s))
      else if cmd_type c =? IOT_CMD_WRITE then
        let '(ret, fs) := sys_write (files s) (mem s) (word0 c) (arg_buf c) (arg_count c) in
        Some (State (set_word0 ret c) fs (mem s) Executed (clients s))
      else Some (State c (files s) (mem s) Executed (clients s))
  | Executed =>
      Some (State (set_status IOT_CMD_STATUS_DONE (cmd s)) (files s) (mem s) Looping (clients s))
  end.

Definition set_client (i : nat) (c : client) (s : state) : state :=
  State (cmd s) (files s) (mem s) (iot s) (<[i := c]> (clients s)).

(** Any thread may take the next step; with [spurious], [pthread_cond_wait] may also
    return without a signal, which POSIX allows and [thread_io] does not expect. *)
Inductive step (spurious : bool) : state -> state -> Prop :=
| step_client i c s s' c' :
    clients s !! i = Some c -> client_step s c = Some (s', c') ->
    step spurious s (set_client i c' s')
| step_iot s s' : thread_io_step s = Some s' -> step spurious s s'
| step_spurious s :
    spurious = true -> iot s = Waiting ->
    step spurious s (State (cmd s) (files s) (mem s) Woken (clients s)).

(** The I/O thread has nothing to do: it is in the wait, or on its way into it. *)
Definition idle (s : state) : Prop := iot s = Looping \/ iot s = Waiting.

(** The signal of the request came too early: the I/O thread waits, the caller too. *)
Definition lost (i : nat) (r : request) (s : state) : Prop :=
  clients s = {[i := Completing r]} /\ idle s /\ status (cmd s) = IOT_CMD_STATUS_READY.

(** *** One kernel thread at a time *)

Section single.
Context (i : nat) (r : request) (s0 : state).
Definition direct := sys_read (files s0) (mem s0) (rq_fd r) (rq_buf r) (rq_count r).

(** The slot holds the request. *)
Definition holds (c : iot_cmd) : Prop :=
  cmd_type c = IOT_CMD_READ /\ word0 c = rq_fd r
  /\ arg_buf c = rq_buf r /\ arg_count c = rq_count r.

Definition untouched (s : state) : Prop := files s = files s0 /\ mem s = mem s0.
Definition finished (s : state) : Prop := (word0 (cmd s), files s, mem s) = direct.
Definition returned (s : state) (res : Z) : Prop := (res, files s, mem s) = direct.

(** Before the signal the I/O thread is idle, and once it waits it stays there;
    a thread that waited from the start is not missed. *)
Definition unsent (s : state) : Prop := idle s /\ (iot s0 = Waiting -> iot s = Waiting).

(** What is true at each program point of the client. *)
Definition inv_at (s : state) (c : client) : Prop :=
  match c with
  | Idle => False
  | Submitting r' | Filling r' => r' = r /\ unsent s /\ untouched s
  | Filled r' => r' = r /\ unsent s /\ untouched s /\ holds (cmd s)
  | Signalling r' =>
      r' = r /\ unsent s /\ untouched s /\ holds (cmd s)
      /\ status (cmd s) = IOT_CMD_STATUS_READY
  | Completing r' =>
      r' = r /\ match iot s with
               | Woken => untouched s /\ holds (cmd s) /\ status (cmd s) = IOT_CMD_STATUS_READY
               | Executed => finished s /\ status (cmd s) = IOT_CMD_STATUS_READY
               | Looping | Waiting =>
                   finished s /\ status (cmd s) = IOT_CMD_STATUS_DONE
                   \/ iot s0 <> Waiting /\ status (cmd s) = IOT_CMD_STATUS_READY
               | Starting => False
               end
  | Taking r' => r' = r /\ idle s /\ finished s
  | Clearing r' res | Unlocking r' res | Returned r' res =>
      r' = r /\ idle s /\ returned s res
  end.

Definition inv (s : state) : Prop := exists c, clients s = {[i := c]} /\ inv_at s c.

Ltac by_inv :=
  simplify_eq/=; unfold unsent, idle, untouched, finished, returned, holds in *; simpl in *;
  destruct_and?; simplify_eq/=; tauto.

Lemma inv_client s c s' c' :
  inv_at s c -> client_step s c = Some (s', c') -> inv_at s' c' /\ clients s' = clients s.
Proof.
  intros Hi Hs. destruct c; simpl in Hs; try done.
  - unfold io_async_submit_wait_test in Hs. destruct (locked (cmd s)); by_inv.
  - by_inv.
  - by_inv.
  - destruct Hi as (-> & [Hid Hw] & Hu & Hh & Hst). simplify_eq/=. split; [|done]. split; [done|].
    destruct Hid as [E|E]; rewrite E in *; [right; split; [intros E0; by specialize (Hw E0)|done]|done].
  - unfold io_async_complete_wait_test in Hs. destruct Hi as (-> & Hi). simplify_eq.
    destruct (iot s') eqn:Hw; try done; cbn [inv_at]; unfold idle; rewrite ?Hw;
      repeat match goal with H : _ /\ _ |- _ => destruct H | H : _ \/ _ |- _ => destruct H end;
      repeat match goal with H : status _ = _ |- _ => rewrite H end; simpl; rewrite ?Hw; unfold idle; rewrite ?Hw; auto 6.
  - by_inv.
  - by_inv.
  - by_inv.
Qed.

(** The I/O thread is not idle: a contradiction with what holds of the client. *)
Ltac busy :=
  try (exfalso; match goal with H : _ /\ _ |- _ => destruct H as (_ & H & _); unfold unsent, idle in H; destruct_and?; destruct_or?; congruence end).

Lemma inv_thread s c s' :
  inv_at s c -> thread_io_step s = Some s' -> inv_at s' c /\ clients s' = clients s.
Proof.
  intros Hi Hs. unfold thread_io_step in Hs. destruct (iot s) eqn:Hw; [|simplify_eq/=|done| |].
  - destruct c; cbn [inv_at] in Hi; rewrite ?Hw in Hi; try done; busy; tauto.
  - split; [|done]. destruct c; cbn [inv_at] in *; unfold unsent, idle in *; cbn [iot] in *; rewrite ?Hw in Hi; by_inv.
  - destruct c; cbn [inv_at] in Hi; rewrite ?Hw in Hi; try done; busy.
    destruct Hi as (-> & (Hf & Hm) & (Ht & H0 & Hb & Hc) & Hst).
    rewrite Ht in Hs. simpl in Hs. rewrite H0, Hb, Hc, Hf, Hm in Hs.
    destruct (sys_read _ _ _ _ _) as [[ret fs] m] eqn:Hr. simplify_eq/=.
    unfold finished, direct. simpl. by rewrite Hr.
  - destruct c; cbn [inv_at] in Hi; rewrite ?Hw in Hi; try done; busy.
    destruct Hi as (-> & Hf & Hst). simplify_eq/=. unfold finished in *. simpl. auto.
Qed.

Lemma inv_step s s' : inv s -> step false s s' -> inv s'.
Proof.
  intros (c & Hc & Hi) Hs. destruct Hs as [j c1 s s1 c1' Hl Hs | s s1 Hs | s H].
  - rewrite Hc in Hl. apply lookup_singleton_Some in Hl as [<- <-].
    destruct (inv_client _ _ _ _ Hi Hs) as [Hi' Hc'].
    exists c1'. split; [simpl; rewrite Hc', Hc; apply insert_singleton_eq|].
    destruct c1'; exact Hi'.
  - destruct (inv_thread _ _ _ Hi Hs) as [Hi' Hc']. exists c. by rewrite Hc', Hc.
  - done.
Qed.

Lemma inv_init : clients s0 = {[i := Submitting r]} -> idle s0 -> inv s0.
Proof. intros Hc Hw. exists (Submitting r). simpl. unfold untouched, unsent. auto. Qed.

(** Steps left until the call returns, if the right thread is scheduled. *)
Definition left_at (s : state) (c : client) : nat :=
  match iot s with Looping => 1 | _ => 0 end +
  match c with
  | Submitting _ => if locked (cmd s) then 21 else 22
  | Filling _ => 20 | Filled _ => 19 | Signalling _ => 18
  | Completing _ => match iot s with Woken => 17 | Executed => 16 | _ => 13 end
  | Taking _ => 10 | Clearing _ _ => 8 | Unlocking _ _ => 6
  | Idle | Returned _ _ => 0
  end.

Definition stuck (s : state) (c : client) : Prop :=
  c = Completing r /\ iot s0 <> Waiting /\ idle s /\ status (cmd s) = IOT_CMD_STATUS_READY.

(** A state from which the call can return: the request is not sent yet, or was not missed. *)
Lemma progress s c :
  clients s = {[i := c]} -> inv_at s c -> (forall res, c <> Returned r res) -> ~ stuck s c ->
  exists s' c', step false s s' /\ clients s' = {[i := c']} /\ inv_at s' c' /\ ~ stuck s' c'
                /\ (left_at s' c' < left_at s c)%nat.
Proof.
  intros Hc Hi Hr Hst.
  assert (Hcl : forall s1 c1, client_step s c = Some (s1, c1) -> ~ stuck s1 c1 -> (left_at s1 c1 < left_at s c)%nat ->
    exists s' c', step false s s' /\ clients s' = {[i := c']} /\ inv_at s' c' /\ ~ stuck s' c'
                  /\ (left_at s' c' < left_at s c)%nat).
  { intros s1 c1 Hs Hk Hl. destruct (inv_client _ _ _ _ Hi Hs) as [Hi' Hc'].
    exists (set_client i c1 s1), c1. split; [eapply step_client; [|done]|].
    - rewrite Hc. apply lookup_singleton_eq.
    - simpl. rewrite Hc', Hc, insert_singleton_eq. split; [done|].
      split; [destruct c1; auto|]. split; [exact Hk|exact Hl]. }
  assert (Hio : forall s1, thread_io_step s = Some s1 -> ~ stuck s1 c -> (left_at s1 c < left_at s c)%nat ->
    exists s' c', step false s s' /\ clients s' = {[i := c']} /\ inv_at s' c' /\ ~ stuck s' c'
                  /\ (left_at s' c' < left_at s c)%nat).
  { intros s1 Hs Hk Hl. destruct (inv_thread _ _ _ Hi Hs) as [Hi' Hc'].
    exists s1, c. rewrite Hc', Hc. split; [by apply step_iot|auto]. }
  assert (Hloop : iot s = Looping -> (forall r', c <> Completing r') ->
    exists s' c', step false s s' /\ clients s' = {[i := c']} /\ inv_at s' c' /\ ~ stuck s' c'
                  /\ (left_at s' c' < left_at s c)%nat).
  { intros Hw Hnc. unfold thread_io_step in Hio. rewrite Hw in Hio. eapply Hio; [reflexivity| |].
    - intros [E _]. by destruct (Hnc r).
    - unfold left_at. cbn [iot cmd]. rewrite Hw. destruct c; try lia. }
  assert (Hnot : forall s1 c1, c1 <> Completing r -> ~ stuck s1 c1) by (intros s1 c1 Hn [E _]; done).
  destruct c; cbn [inv_at] in Hi; try done.
  - destruct Hi as (-> & [[Hw|Hw] _] & _); [by apply Hloop|].
    destruct (locked (cmd s)) eqn:Hl; (eapply Hcl;
      [simpl; unfold io_async_submit_wait_test; rewrite Hl; reflexivity|by apply Hnot|unfold left_at; simpl; rewrite Hw, ?Hl; simpl; lia]).
  - destruct Hi as (-> & [[Hw|Hw] _] & _); [by apply Hloop|].
    eapply Hcl; [reflexivity|by apply Hnot|unfold left_at; simpl; rewrite Hw; lia].
  - destruct Hi as (-> & [[Hw|Hw] _] & _); [by apply Hloop|].
    eapply Hcl; [reflexivity|by apply Hnot|unfold left_at; simpl; rewrite Hw; lia].
  - destruct Hi as (-> & [[Hw|Hw] _] & _); [by apply Hloop|].
    eapply Hcl; [reflexivity| |unfold left_at; simpl; rewrite Hw; lia].
    intros (_ & _ & [E|E] & _); cbn [iot] in E; by rewrite Hw in E.
  - destruct Hi as (-> & Hi). destruct (iot s) eqn:Hw; try done.
    1,2: destruct Hi as [[_ Hdone]|[Hn Hready]]; [|exfalso; apply Hst; unfold stuck, idle; rewrite Hw; auto].
    1,2: eapply Hcl; [reflexivity| |]; unfold io_async_complete_wait_test; rewrite Hdone; [by apply Hnot|].
    1,2: unfold left_at; simpl; rewrite Hw; lia.
    + destruct Hi as (_ & (Ht & _) & _). unfold thread_io_step in Hio.
      rewrite Hw, Ht in Hio. simpl in Hio. destruct (sys_read _ _ _ _ _) as [[]].
      eapply Hio; [reflexivity| |unfold left_at; simpl; rewrite Hw; lia].
      intros (_ & _ & [E|E] & _); done.
    + unfold thread_io_step in Hio. rewrite Hw in Hio.
      eapply Hio; [reflexivity| |unfold left_at; simpl; rewrite Hw; lia]. intros (_ & _ & _ & E). done.
  - eapply Hcl; [reflexivity|by apply Hnot|unfold left_at; simpl; lia].
  - eapply Hcl; [reflexivity|by apply Hnot|unfold left_at; simpl; destruct (iot s); lia].
  - eapply Hcl; [reflexivity|by apply Hnot|unfold left_at; simpl; destruct (iot s); lia].
  - destruct Hi as (-> & _). by destruct (Hr res).
Qed.

Lemma inv_can_return n s c :
  (left_at s c < n)%nat -> clients s = {[i := c]} -> inv_at s c -> ~ stuck s c ->
  exists s' res, star (step false) s s' /\ clients s' !! i = Some (Returned r res).
Proof.
  revert s c; induction n as [|n IH]; intros s c Hn Hc Hi Hk; [lia|].
  assert (Hd : (exists res, c = Returned r res) \/ (forall res, c <> Returned r res)).
  { destruct c; try (right; congruence). destruct Hi as (-> & _). left. eauto. }
  destruct Hd as [[res ->]|Hr]; [exists s, res; split; [constructor|rewrite Hc; apply lookup_singleton_eq]|].
  destruct (progress s c Hc Hi Hr Hk) as (s1 & c1 & Hs & Hc1 & Hi1 & Hk1 & Hl).
  destruct (IH s1 c1 ltac:(lia) Hc1 Hi1 Hk1) as (s' & res & ? & ?). exists s', res. split; [|done]. by eapply star_step.
Qed.

(** Nothing but a spurious wake-up ends a lost request. *)
Lemma lost_step s s' : lost i r s -> step false s s' -> lost i r s'.
Proof.
  intros (Hc & Hw & Hst) Hs. destruct Hs as [j c1 s s1 c1' Hl Hs | s s1 Hs | s H]; [| |done].
  - rewrite Hc in Hl. apply lookup_singleton_Some in Hl as [<- <-]. cbn in Hs.
    unfold io_async_complete_wait_test in Hs. rewrite Hst in Hs. cbn in Hs. simplify_eq.
    unfold lost, idle. cbn. rewrite Hc, insert_singleton_eq. auto.
  - unfold thread_io_step in Hs. destruct Hw as [Hw|Hw]; rewrite Hw in Hs; [|done]. simplify_eq.
    unfold lost, idle. cbn. auto.
Qed.

Lemma lost_forever s s' : star (step false) s s' -> lost i r s -> lost i r s'.
Proof. intros H Hl. by apply (star_inv (step false) (lost i r) s s'); [intros a b; apply lost_step| |]. Qed.
End single.

(** *** Claims *)

(** C8: while one kernel thread uses the slot, and the I/O thread has nothing left to
    do, an asynchronous read that returns has had exactly the effect of
    read(fd, buf, count): the same return value, buffers and descriptors.  This is
    so in every interleaving of the steps of the two threads in which
    pthread_cond_wait returns only when it is signalled. *)
Theorem single_client_reads i r s s' r' res :
  clients s = {[i := Submitting r]} -> idle s ->
  star (step false) s s' -> clients s' !! i = Some (Returned r' res) ->
  (res, files s', mem s') = sys_read (files s) (mem s) (rq_fd r) (rq_buf r) (rq_count r).
Proof.
  intros Hc Hw Hs Hr.
  destruct (star_inv (step false) (inv i r s) s s') as (c & Hc' & Hi); auto using inv_init.
  { intros a b. apply inv_step. }
  rewrite Hc', lookup_singleton_eq in Hr. simplify_eq.
  destruct Hi as (_ & _ & H). exact H.
Qed.

(** C26: in that setting a call is blocked in one way only.  From every reachable
    state a state in which the call has returned is reachable, unless the signal
    was lost: sent while the I/O thread was on its way into pthread_cond_wait.
    Then the slot stays ready, both threads wait, and no schedule changes that.  A
    call made while the I/O thread is in the wait is never lost. *)
Theorem single_client_returns i r s s' :
  clients s = {[i := Submitting r]} -> idle s -> star (step false) s s' ->
  (exists s'' res, star (step false) s' s'' /\ clients s'' !! i = Some (Returned r res))
  \/ (iot s = Looping /\ forall s'', star (step false) s' s'' -> lost i r s'').
Proof.
  intros Hc Hw Hs.
  destruct (star_inv (step false) (inv i r s) s s') as (c & Hc' & Hi); auto using inv_init.
  { intros a b. apply inv_step. }
  assert (Hd : stuck r s s' c \/ ~ stuck r s s' c).
  { unfold stuck, idle. destruct c; try (right; intros [? _]; congruence).
    destruct (decide (status (cmd s') = IOT_CMD_STATUS_READY)); [|right; tauto]. destruct Hi as (-> & _).
    destruct Hw as [->| ->]; [|right; tauto]. destruct (iot s'); try (right; intros (_ & _ & [?|?] & _); done); left; auto. }
  destruct Hd as [(-> & Hn & Hid & Hst)|Hk].
  - right. split; [destruct Hw; [done|tauto]|]. intros s'' H''. by apply (lost_forever i r s').
  - left. eapply inv_can_return; eauto.
Qed.

(** *** Two kernel threads

    Schedules, to exhibit executions: [Kt i] lets kernel thread [i] step, [Ioth] the
    I/O thread, and [Spurious] ends its wait without a signal. *)
Inductive tid := Kt (i : nat) | Ioth | Spurious.

Definition sched_step (t : tid) (s : state) : option state :=
  match t with
  | Kt i => c ← clients s !! i; p ← client_step s c; Some (set_client i (snd p) (fst p))
  | Ioth => thread_io_step s
  | Spurious => match iot s with Waiting => Some (State (cmd s) (files s) (mem s) Woken (clients s)) | _ => None end
  end.

Fixpoint sched (l : list tid) (s : state) : option state :=
  match l with [] => Some s | t :: l => s' ← sched_step t s; sched l s' end.

Definition is_quiet (t : tid) : bool := match t with Spurious => false | _ => true end.

Lemma sched_sound spurious l s s' : spurious = true \/ forallb is_quiet l = true ->
  sched l s = Some s' -> star (step spurious) s s'.
Proof.
  revert s; induction l as [|t l IH]; intros s Hq H; simpl in H.
  { simplify_eq. constructor. }
  destruct (sched_step t s) as [s1|] eqn:Ht; [|done]. simpl in H.
  eapply star_step; [|apply IH; [destruct Hq as [?|Hq]; [by left|]; apply andb_prop in Hq; tauto|done]].
  destruct t as [i| |]; simpl in Ht.
  - destruct (clients s !! i) as [c|] eqn:Hc; [|done]. simpl in Ht.
    destruct (client_step s c) as [[s2 c2]|] eqn:Hs; [|done]. simplify_eq/=.
    by eapply step_client.
  - by apply step_iot.
  - destruct Hq as [->|?]; [|done]. destruct (iot s) eqn:Hw; try done. simplify_eq. by apply step_spurious.
Qed.

(** The slot with a free mutex, the I/O thread waiting, two callers. *)
Definition two_callers (r0 r1 : request) (fs : gmap Z Posix.fdesc) (m : gmap nat bytes) : state :=
  State (IotCmd 0 IOT_CMD_STATUS_EMPTY false 0 0 0) fs m Waiting
    {[0%nat := Submitting r0; 1%nat := Submitting r1]}.

(** Caller 0 takes the lock and is let in; caller 1 is let in by EBUSY and
    overwrites the slot before the I/O thread is woken. *)
Definition overwrite : list tid := [Kt 0; Kt 0; Kt 1; Kt 0; Kt 1; Kt 0; Kt 0].
Definition overwritten (r0 r1 : request) (fs : gmap Z Posix.fdesc) (m : gmap nat bytes) : state :=
  State (IotCmd IOT_CMD_READ IOT_CMD_STATUS_READY true (rq_fd r1) (rq_buf r1) (rq_count r1))
    fs m Woken {[0%nat := Completing r0; 1%nat := Filled r1]}.
Definition finish : list tid := [Ioth; Kt 0; Kt 0; Kt 0; Kt 0].

(** The submit test lets every caller in, because pthread_mutex_trylock
    returns 0 (wait on) to the caller that gets the lock and EBUSY (proceed) to
    the others.  With two callers the second overwrites the slot and the first
    returns the outcome of the second one's read, its own never made. *)
Theorem submit_test_admits_both r0 r1 fs m :
  exists s' res,
    star (step false) (two_callers r0 r1 fs m) s'
    /\ clients s' !! 0%nat = Some (Returned r0 res)
    /\ clients s' !! 1%nat = Some (Filled r1)
    /\ (res, files s', mem s') = sys_read fs m (rq_fd r1) (rq_buf r1) (rq_count r1).
Proof.
  destruct (sys_read fs m (rq_fd r1) (rq_buf r1) (rq_count r1)) as [[res fs'] m'] eqn:Hr.
  set (s1 := State (set_word0 res (cmd (overwritten r0 r1 fs m))) fs' m' Executed
               (clients (overwritten r0 r1 fs m))).
  set (s2 := State (IotCmd IOT_CMD_READ IOT_CMD_STATUS_EMPTY false res (rq_buf r1) (rq_count r1))
               fs' m' Looping {[0%nat := Returned r0 res; 1%nat := Filled r1]}).
  exists s2, res. split; [|auto].
  apply star_trans with (overwritten r0 r1 fs m).
  { apply (sched_sound false overwrite); [by right|]. vm_compute. reflexivity. }
  apply star_step with s1; [apply step_iot; cbn -[sys_read]; by rewrite Hr|].
  apply (sched_sound false finish); [by right|]. vm_compute. reflexivity.
Qed.

(** *** Witnesses *)

Definition file_abc : Posix.fdesc := Posix.Fdesc [97; 98; 99] 0 false.

Definition one_caller : state :=
  State (IotCmd 0 IOT_CMD_STATUS_EMPTY false 0 0 0) {[3 := file_abc]} {[7%nat := [0; 0]]}
    Waiting {[0%nat := Submitting (Req 3 7 2)]}.

Definition alone : list tid :=
  [Kt 0; Kt 0; Kt 0; Kt 0; Kt 0; Ioth; Ioth; Kt 0; Kt 0; Kt 0; Kt 0].

Lemma single_client_reads_witness :
  exists s', sched alone one_caller = Some s'
    /\ clients s' !! 0%nat = Some (Returned (Req 3 7 2) 2)
    /\ (2, files s', mem s') = sys_read {[3 := file_abc]} {[7%nat := [0; 0]]} 3 7 2.
Proof.
  eexists. split; [vm_compute; reflexivity|]. split; [reflexivity|].
  eapply (single_client_reads 0 (Req 3 7 2) one_caller _ (Req 3 7 2)).
  - reflexivity.
  - by right.
  - apply (sched_sound false alone); [by right|]. vm_compute. reflexivity.
  - reflexivity.
Defined.

Lemma single_client_returns_witness :
  (exists s'' res, star (step false) one_caller s'' /\ clients s'' !! 0%nat = Some (Returned (Req 3 7 2) res))
  \/ (iot one_caller = Looping /\ forall s'', star (step false) one_caller s'' -> lost 0 (Req 3 7 2) s'').
Proof.
  apply (single_client_returns 0 (Req 3 7 2) one_caller one_caller).
  - reflexivity.
  - by right.
  - constructor.
Defined.

(** The same caller, with the I/O thread still on its way into the wait. *)
Definition early_caller : state :=
  State (cmd one_caller) (files one_caller) (mem one_caller) Looping (clients one_caller).

(** A signal can be lost: the caller submits before the I/O thread waits. *)
Theorem signal_can_be_lost :
  exists s', star (step false) early_caller s' /\ forall s'', star (step false) s' s'' -> lost 0 (Req 3 7 2) s''.
Proof.
  destruct (sched [Kt 0; Kt 0; Kt 0; Kt 0; Kt 0] early_caller) as [s'|] eqn:E; [|by vm_compute in E].
  exists s'. split; [by apply (sched_sound false [Kt 0; Kt 0; Kt 0; Kt 0; Kt 0]); [right|]|].
  intros s'' H. apply (lost_forever _ _ s'); [done|]. vm_compute in E. injection E as <-. split; [done|]. split; [by left|done].
Qed.

(** A spurious wake-up before the request is marked ready: the read is made, its result
    takes the place of the descriptor in the slot, and the read made after the signal
    is one of that descriptor.  The call returns -1 though its bytes were read. *)
Theorem spurious_wakeup_breaks_read :
  exists s', star (step true) one_caller s' /\ clients s' !! 0%nat = Some (Returned (Req 3 7 2) (-1))
    /\ (-1, files s', mem s') <> sys_read {[3 := file_abc]} {[7%nat := [0; 0]]} 3 7 2.
Proof.
  destruct (sched [Kt 0; Kt 0; Kt 0; Spurious; Ioth; Ioth; Ioth; Kt 0; Kt 0; Ioth; Ioth; Kt 0; Kt 0; Kt 0; Kt 0] one_caller) as [s'|] eqn:E;
    [|by vm_compute in E].
  exists s'. split; [by eapply (sched_sound true); [left|exact E]|]. vm_compute in E. injection E as <-. split; [done|]. by vm_compute.
Qed.

End Iot.

(** ** io_read and io_write

    The direct branch is [read]; the other one is the hand-over above, whose
    outcome is that of [read] when a single kernel thread uses it
    ([Iot.single_client_reads]). *)
Section io.
Context (io_async_read : option Posix.fdesc -> Z -> Z * bytes * option Posix.fdesc).

Definition io_read (running : Z) (f : option Posix.fdesc) (count : Z)
  : Z * bytes * option Posix.fdesc :=
  if running <? UMKA_RUNNING_YES then Posix.fd_read f count else io_async_read f count.

(** [io_async_write] is a stub that returns -1. *)
Definition io_async_write (f : option Posix.fdesc) (src : bytes) : Z * option Posix.fdesc :=
  (-1, f).

Definition io_write (running : Z) (f : option Posix.fdesc) (src : bytes)
  : Z * option Posix.fdesc :=
  if running <? UMKA_RUNNING_YES then Posix.fd_write f src else io_async_write f src.
End io.

(** Reads have the effect of read(2): before the system runs they are made directly;
    afterwards the asynchronous path is assumed to, which holds of the hand-over for one
    caller at a time when it returns ([Iot.single_client_reads]). *)
Definition reads_through (running : Z) (async : option Posix.fdesc -> Z -> Z * bytes * option Posix.fdesc) : Prop :=
  running < UMKA_RUNNING_YES \/ forall f c, async f c = Posix.fd_read f c.

Lemma io_read_through running async f c : reads_through running async -> io_read async running f c = Posix.fd_read f c.
Proof.
  intros [H|H]; unfold io_read; [by rewrite (proj2 (Z.ltb_lt _ _) H)|]. rewrite H. by destruct (_ <? _).
Qed.
