(* ===== verification/Disk.v ===== *)
(** vdisk.h, the part of umka.h about disks, and what every virtual disk
    promises to the kernel's disk layer.

    [vdisk] is the common part of a virtual disk.  [ReadableDisk] is the
    contract of the [read] callback of a [diskfunc_t]: it fills the caller's
    buffer with the sectors asked for and changes neither the contents nor the
    geometry of the disk.  Raw.v and Qcow2.v discharge it; the consequences
    proved here hold for both formats. *)
From S2P Require Import Prelude CLib Io.

(** umka.h: status codes of the disk and file system layers. *)
Definition KOS_ERROR_SUCCESS : Z := 0.
Definition KOS_ERROR_DISK_BASE : Z := 1.
Definition KOS_ERROR_UNSUPPORTED_FS : Z := 2.
Definition KOS_ERROR_UNKNOWN_FS : Z := 3.
Definition KOS_ERROR_PARTITION : Z := 4.
Definition KOS_ERROR_FILE_NOT_FOUND : Z := 5.
Definition KOS_ERROR_END_OF_FILE : Z := 6.
Definition KOS_ERROR_MEMORY_POINTER : Z := 7.
Definition KOS_ERROR_DISK_FULL : Z := 8.
Definition KOS_ERROR_FS_FAIL : Z := 9.
Definition KOS_ERROR_ACCESS_DENIED : Z := 10.
Definition KOS_ERROR_DEVICE : Z := 11.
Definition KOS_ERROR_OUT_OF_MEMORY : Z := 12.

(** [struct vdisk] without the function table: the table's [read], [write] and
    [close] are the operations of Raw.v and Qcow2.v, the other entries those of
    Vdisk.v. *)
Record vdisk := Vdisk {
  sect_size : Z; sect_cnt : Z; cache_size : Z; adjust_cache_size : Z }.

(** [diskmediainfo_t] *)
Record diskmediainfo := MediaInfo { mi_flags : Z; mi_sector_size : Z; mi_capacity : Z }.

(** Sector size chosen by name: "s4096"/"s4k", "s2048"/"s2k", else 512. *)
Definition name_has (fname needle : string) : bool :=
  match strstr fname needle with Some _ => true | None => false end.

Definition sect_size_of_name (fname : string) : Z :=
  if name_has fname "s4096" || name_has fname "s4k" then 4096
  else if name_has fname "s2048" || name_has fname "s2k" then 2048
  else 512.

Lemma sect_size_of_name_range fname : 512 <= sect_size_of_name fname <= 4096.
Proof. unfold sect_size_of_name. split_tests; lia. Qed.

Lemma sect_size_of_name_values fname :
  sect_size_of_name fname ∈ [512; 2048; 4096].
Proof. unfold sect_size_of_name. split_tests; set_solver. Qed.

(** ** The contract of [diskfunc_t.read] *)
Class ReadableDisk (D : Type) := {
  rd_read : D -> bytes -> Z -> Z -> option (Z * bytes * D);
  (** bytes per sector, and the bytes of a sector *)
  rd_size : D -> nat;
  rd_sector : D -> Z -> bytes;
  (** states in which the driver may be called, and valid sector ranges *)
  rd_ok : D -> Prop;
  rd_range : D -> Z -> Z -> Prop;
  rd_sector_length d s : rd_ok d -> rd_range d s 1 -> length (rd_sector d s) = rd_size d;
  rd_range_split d s n m :
    rd_ok d -> 0 <= n -> 0 <= m -> rd_range d s (n + m) ->
    rd_range d s n /\ rd_range d (s + n) m;
  rd_read_spec d buf s n :
    rd_ok d -> 0 <= n -> rd_range d s n -> (Z.to_nat n * rd_size d <= length buf)%nat ->
    exists d',
      rd_read d buf s n =
        Some (KOS_ERROR_SUCCESS, overlay 0 (mjoin (map (rd_sector d) (seqZ s n))) buf, d')
      /\ rd_ok d' /\ rd_size d' = rd_size d
      /\ (forall i, rd_sector d' i = rd_sector d i)
      /\ (forall i k, rd_range d i k -> rd_range d' i k)
}.

Section contract.
Context `{ReadableDisk D}.

Lemma rd_range_one d s n i :
  rd_ok d -> rd_range d s n -> s <= i < s + n -> rd_range d i 1.
Proof.
  intros Hok Hr Hi.
  destruct (rd_range_split d s (i - s) (n - (i - s))) as [_ Hr1]; [done|lia..| |].
  { by replace (i - s + (n - (i - s))) with n by lia. }
  replace (s + (i - s)) with i in Hr1 by lia.
  destruct (rd_range_split d i 1 (n - (i - s) - 1)) as [Hr2 _]; [done|lia..| |done].
  by replace (1 + (n - (i - s) - 1)) with (n - (i - s)) by lia.
Qed.

Lemma length_sectors d s n :
  rd_ok d -> 0 <= n -> rd_range d s n ->
  length (mjoin (map (rd_sector d) (seqZ s n))) = (Z.to_nat n * rd_size d)%nat.
Proof.
  intros Hok Hn Hr.
  assert (Hall : Forall (fun i => rd_range d i 1) (seqZ s n)).
  { apply List.Forall_forall. intros i Hi. apply list_elem_of_In, elem_of_seqZ in Hi.
    by apply (rd_range_one d s n). }
  rewrite <- (length_seqZ s n). clear Hr. induction Hall as [|i l Hi _ IH]; [done|].
  simpl. rewrite length_app, rd_sector_length by done. simpl in IH. by rewrite IH.
Qed.
End contract.
