(* ===== verification/Raw.v ===== *)
(** vdisk/raw.c: a disk image that is the plain sequence of its sectors.

    The image is a host file opened for reading only.  Its descriptor is
    [raw_fd]; [raw_fdnum] is its number, -1 when open failed, since the code
    tests the number. *)
From S2P Require Import Prelude CLib Io Disk.

Record vdisk_raw := VdiskRaw { raw_vdisk : vdisk; raw_fdnum : Z; raw_fd : option Posix.fdesc }.

Definition set_fd (f : option Posix.fdesc) (d : vdisk_raw) : vdisk_raw :=
  VdiskRaw (raw_vdisk d) (raw_fdnum d) f.

Section raw.
(** The emulator's phase, and the asynchronous path of umkaio.c. *)
Context (running : Z).
Context (io_async_read : option Posix.fdesc -> Z -> Z * bytes * option Posix.fdesc).

(** [off_t * uint32_t] has 64 bits, [size_t * uint32_t] 32. *)
Definition vdisk_raw_read (d : vdisk_raw) (buffer : bytes) (startsector numsectors : Z)
  : Z * bytes * vdisk_raw :=
  let ss := sect_size (raw_vdisk d) in
  let f := Posix.fd_lseek (raw_fd d) (s64 (startsector * ss)) in
  let '(_, got, f') := io_read io_async_read running f (u32 (numsectors * ss)) in
  (KOS_ERROR_SUCCESS, overlay 0 got buffer, set_fd f' d).

Definition vdisk_raw_write (d : vdisk_raw) (buffer : bytes) (startsector numsectors : Z)
  : Z * vdisk_raw :=
  let ss := sect_size (raw_vdisk d) in
  let f := Posix.fd_lseek (raw_fd d) (s64 (startsector * ss)) in
  let '(_, f') := io_write running f (take (Z.to_nat (u32 (numsectors * ss))) buffer) in
  (KOS_ERROR_SUCCESS, set_fd f' d).

(** [close(fd); free(disk)]: the descriptor is released. *)
Definition vdisk_raw_close (d : vdisk_raw) : option Posix.fdesc := None.

(** [open(fname, O_RDONLY)] gives a number (-1 on failure) and the open
    file.  [lseek] returns -1 on a bad descriptor.  The fields the
    initialiser leaves out are zero; [vdisk_init] sets them. *)
Definition vdisk_init_raw (open : string -> Z * option Posix.fdesc) (fname : string)
  : option vdisk_raw :=
  let '(fd, f) := open fname in
  if fd =? 0 then None else
  let fsize := match f with Some f => Z.of_nat (length (Posix.fd_data f)) | None => -1 end in
  let ss := sect_size_of_name fname in
  Some (VdiskRaw (Vdisk ss (u64 fsize / ss) 0 0) fd (Posix.fd_lseek f 0)).

(** *** Properties *)

Definition raw_data (d : vdisk_raw) : bytes :=
  match raw_fd d with Some f => Posix.fd_data f | None => [] end.

(** Sector [s] of the image. *)
Definition raw_sector (d : vdisk_raw) (s : Z) : bytes :=
  let ss := sect_size (raw_vdisk d) in
  sub (raw_data d) (Z.to_nat (s * ss)) (Z.to_nat ss).

(** What [vdisk_init_raw] establishes and the callbacks keep: the image is
    open for reading only, [sect_cnt] sectors of it exist, and the file is
    smaller than the largest offset. *)
Record raw_ok (d : vdisk_raw) : Prop := {
  ro_open : is_Some (raw_fd d);
  ro_readonly : forall f, raw_fd d = Some f -> Posix.fd_writable f = false;
  ro_size : 0 < sect_size (raw_vdisk d) <= 4096;
  ro_cnt : sect_cnt (raw_vdisk d) = Z.of_nat (length (raw_data d)) / sect_size (raw_vdisk d);
  ro_off : Z.of_nat (length (raw_data d)) < 2 ^ 63;
  ro_pos : forall f, raw_fd d = Some f -> 0 <= Posix.fd_pos f }.

(** A range of sectors of the disk whose byte count fits size_t. *)
Definition raw_range (d : vdisk_raw) (s n : Z) : Prop :=
  0 <= s /\ 0 <= n /\ s + n <= sect_cnt (raw_vdisk d)
  /\ n * sect_size (raw_vdisk d) < 2 ^ 32.

Lemma raw_range_bytes d s n :
  raw_ok d -> raw_range d s n ->
  (s + n) * sect_size (raw_vdisk d) <= Z.of_nat (length (raw_data d)).
Proof.
  intros Hok (Hs & Hn & Hc & _). rewrite (ro_cnt _ Hok) in Hc.
  pose proof (ro_size _ Hok).
  pose proof (Z.mul_div_le (Z.of_nat (length (raw_data d))) (sect_size (raw_vdisk d))). nia.
Qed.

(** [n] consecutive sectors are one piece of the image. *)
Lemma raw_sectors_sub d s n :
  0 <= s -> 0 < sect_size (raw_vdisk d) ->
  mjoin (map (raw_sector d) (seqZ s (Z.of_nat n))) =
  sub (raw_data d) (Z.to_nat (s * sect_size (raw_vdisk d)))
      (n * Z.to_nat (sect_size (raw_vdisk d))).
Proof.
  intros Hs Hss. set (ss := sect_size (raw_vdisk d)) in *.
  revert s Hs; induction n as [|n IH]; intros s Hs.
  { unfold sub. by rewrite take_0. }
  rewrite seqZ_cons by lia. cbn [map]. rewrite Nat2Z.inj_succ, Z.pred_succ.
  change (mjoin (?x :: ?l)) with (x ++ mjoin l). rewrite <- Z.add_1_l, IH by lia.
  change (S n * Z.to_nat ss)%nat with (Z.to_nat ss + n * Z.to_nat ss)%nat.
  rewrite sub_split. unfold raw_sector. fold ss. do 2 f_equal. lia.
Qed.

Hypothesis async_reads : reads_through running io_async_read.

Lemma io_read_is_read f c : io_read io_async_read running f c = Posix.fd_read f c.
Proof using async_reads. by apply io_read_through. Qed.

Lemma raw_read_spec d buf s n :
  raw_ok d -> raw_range d s n ->
  exists d',
    vdisk_raw_read d buf s n =
      (KOS_ERROR_SUCCESS, overlay 0 (mjoin (map (raw_sector d) (seqZ s n))) buf, d')
    /\ raw_ok d' /\ raw_vdisk d' = raw_vdisk d /\ raw_data d' = raw_data d.
Proof using async_reads.
  intros Hok Hr. pose proof (raw_range_bytes _ _ _ Hok Hr) as Hb.
  pose proof (ro_size _ Hok) as Hss. pose proof (ro_off _ Hok) as Hoff.
  destruct Hr as (Hs & Hn & Hc & Hfit). destruct (ro_open _ Hok) as [f Hf].
  unfold raw_data in Hb, Hoff. rewrite Hf in Hb, Hoff.
  unfold vdisk_raw_read. rewrite io_read_is_read, Hf. cbn -[Posix.read Posix.lseek_set].
  unfold s64. rewrite signed_id, u32_small by nia.
  unfold Posix.lseek_set. rewrite (proj2 (Z.leb_le _ _)) by nia. cbn.
  eexists. split; [|split; [constructor|]].
  - replace (seqZ s n) with (seqZ s (Z.of_nat (Z.to_nat n))) by (f_equal; lia).
    rewrite raw_sectors_sub by lia. unfold sub, raw_data. rewrite Hf.
    rewrite (Z2Nat.inj_mul n) by lia. reflexivity.
  - simpl. eauto.
  - simpl. intros f' [= <-]. simpl. by apply (ro_readonly _ Hok).
  - simpl. done.
  - simpl. unfold raw_data. simpl. rewrite (ro_cnt _ Hok). unfold raw_data. by rewrite Hf.
  - unfold raw_data. simpl. lia.
  - simpl. intros f' [= <-]. simpl. nia.
  - split; [done|]. unfold raw_data. simpl. by rewrite Hf.
Qed.

(** A raw image fulfils the contract of a readable disk. *)
Program Instance raw_readable : ReadableDisk vdisk_raw := {|
  rd_read d buf s n := Some (vdisk_raw_read d buf s n);
  rd_size d := Z.to_nat (sect_size (raw_vdisk d));
  rd_sector := raw_sector;
  rd_ok := raw_ok;
  rd_range := raw_range |}.
Next Obligation.
  intros d s Hok Hr. pose proof (raw_range_bytes _ _ _ Hok Hr). pose proof (ro_size _ Hok).
  destruct Hr as (? & _). unfold raw_sector. apply length_sub. nia.
Qed.
Next Obligation.
  intros d s n m Hok Hn Hm (? & ? & ? & ?). pose proof (ro_size _ Hok).
  unfold raw_range. split; repeat split; try lia; nia.
Qed.
Next Obligation.
  intros d buf s n Hok Hn Hr _.
  destruct (raw_read_spec d buf s n Hok Hr) as (d' & -> & Hok' & Hv & Hd).
  exists d'. split; [done|]. unfold raw_sector, raw_range. rewrite Hv, Hd. auto.
Qed.

(** Two disks that differ only in the position of the descriptor. *)
Lemma raw_ok_lseek d f off :
  raw_ok d -> raw_fd d = Some f ->
  let d' := set_fd (Some (Posix.lseek_set f off)) d in
  raw_ok d' /\ raw_data d' = raw_data d.
Proof.
  intros Hok Hf d'.
  assert (Hd : raw_data d' = raw_data d).
  { unfold d', raw_data. simpl. rewrite Hf. unfold Posix.lseek_set. by destruct (0 <=? _). }
  split; [|done]. constructor; rewrite ?Hd; simpl.
  - eauto.
  - intros f' [= <-]. unfold Posix.lseek_set. destruct (0 <=? off); simpl; by apply (ro_readonly _ Hok).
  - apply (ro_size _ Hok).
  - apply (ro_cnt _ Hok).
  - apply (ro_off _ Hok).
  - intros f' [= <-]. unfold Posix.lseek_set. destruct (Z.leb_spec 0 off); [done|].
    by apply (ro_pos _ Hok).
Qed.

Lemma raw_write_readonly d buf s n :
  raw_ok d -> exists d', vdisk_raw_write d buf s n = (KOS_ERROR_SUCCESS, d')
    /\ raw_ok d' /\ raw_data d' = raw_data d /\ raw_vdisk d' = raw_vdisk d.
Proof.
  intros Hok. destruct (ro_open _ Hok) as [f Hf].
  destruct (raw_ok_lseek d f (s64 (s * sect_size (raw_vdisk d))) Hok Hf) as [Hok' Hd'].
  unfold vdisk_raw_write, io_write. rewrite Hf. cbn -[Posix.lseek_set Posix.write].
  set (d' := set_fd _ d) in *. exists d'. split; [|auto].
  destruct (running <? UMKA_RUNNING_YES); [|done].
  rewrite Posix.write_readonly; [done|]. by apply (ro_readonly _ Hok').
Qed.
End raw.

(** ** Claims *)

Lemma vdisk_init_raw_ok open fname fd f :
  open fname = (fd, Some f) -> 0 < fd -> Posix.fd_writable f = false ->
  Z.of_nat (length (Posix.fd_data f)) < 2 ^ 63 ->
  exists d, vdisk_init_raw open fname = Some d /\ raw_ok d
    /\ raw_data d = Posix.fd_data f /\ sect_size (raw_vdisk d) = sect_size_of_name fname.
Proof.
  intros Ho Hfd Hw Hl. unfold vdisk_init_raw. rewrite Ho.
  rewrite (proj2 (Z.eqb_neq fd 0)) by lia. eexists. split; [reflexivity|].
  pose proof (sect_size_of_name_range fname). split; [constructor|]; simpl; eauto.
  - intros f' [= <-]. done.
  - lia.
  - unfold raw_data. simpl. by rewrite u64_small by lia.
  - intros f' [= <-]. simpl. lia.
Qed.

(** C27: a disk that [vdisk_init_raw] made of an image open for reading returns,
    for every range of its sectors that fits size_t, exactly the bytes of the
    image at startsector * sect_size, leaves the rest of the buffer and the
    disk as they were, and reports success.  Reads are made directly before the
    system runs; afterwards the asynchronous path is assumed to do what read does. *)
Theorem raw_read_after_init running async open fname fd f buf s n :
  reads_through running async ->
  open fname = (fd, Some f) -> 0 < fd -> Posix.fd_writable f = false ->
  Z.of_nat (length (Posix.fd_data f)) < 2 ^ 63 ->
  0 <= s -> 0 <= n -> n * sect_size_of_name fname < 2 ^ 32 ->
  s + n <= Z.of_nat (length (Posix.fd_data f)) / sect_size_of_name fname ->
  exists d d', vdisk_init_raw open fname = Some d
    /\ vdisk_raw_read running async d buf s n =
       (KOS_ERROR_SUCCESS,
        overlay 0 (sub (Posix.fd_data f) (Z.to_nat (s * sect_size_of_name fname))
                       (Z.to_nat (n * sect_size_of_name fname))) buf, d')
    /\ raw_data d' = raw_data d /\ raw_vdisk d' = raw_vdisk d.
Proof.
  intros Ha Ho Hfd Hw Hl Hs Hn Hfit Hr.
  destruct (vdisk_init_raw_ok open fname fd f) as (d & Hi & Hok & Hd & Hss); [done..|].
  destruct (raw_read_spec running async Ha d buf s n Hok) as (d' & Hrd & _ & Hv & Hd').
  { repeat split; rewrite ?Hss; auto. by rewrite (ro_cnt _ Hok), Hss, Hd. }
  exists d, d'. split; [done|]. split; [|auto]. rewrite Hrd. do 2 f_equal.
  pose proof (sect_size_of_name_range fname).
  replace (seqZ s n) with (seqZ s (Z.of_nat (Z.to_nat n))) by (f_equal; lia).
  rewrite raw_sectors_sub by (rewrite ?Hss; lia).
  rewrite Hss, Hd. by rewrite (Z2Nat.inj_mul n) by lia.
Qed.

(** The image is opened with O_RDONLY, so [vdisk_raw_write] reports
    success for every range while the image keeps its bytes: a later read
    returns the old data. *)
Theorem raw_write_is_lost running async d src s n buf s' n' :
  reads_through running async -> raw_ok d -> raw_range d s' n' ->
  exists d' d'', vdisk_raw_write running d src s n = (KOS_ERROR_SUCCESS, d')
    /\ vdisk_raw_read running async d' buf s' n' =
       (KOS_ERROR_SUCCESS, snd (fst (vdisk_raw_read running async d buf s' n')), d'').
Proof.
  intros Ha Hok Hr.
  destruct (raw_write_readonly running d src s n Hok) as (d' & Hw & Hok' & Hd & Hv).
  destruct (raw_read_spec running async Ha d buf s' n' Hok Hr) as (? & -> & _).
  destruct (raw_read_spec running async Ha d' buf s' n' Hok') as (d'' & Hr' & _).
  { unfold raw_range. by rewrite Hv. }
  exists d', d''. split; [done|]. rewrite Hr'. simpl. do 4 f_equal.
  apply map_ext. intros i. unfold raw_sector. by rewrite Hd, Hv.
Qed.

(** A failed open goes unnoticed, because the code tests the descriptor
    against 0 and open reports failure by -1: a disk of
    (2^64 - 1) / sect_size sectors is returned. *)
Theorem raw_init_ignores_open_failure open fname :
  open fname = (-1, None) ->
  vdisk_init_raw open fname =
  Some (VdiskRaw (Vdisk (sect_size_of_name fname) ((2 ^ 64 - 1) / sect_size_of_name fname) 0 0)
          (-1) None).
Proof. intros Ho. unfold vdisk_init_raw. by rewrite Ho. Qed.

(** *** Witnesses: an image of two 512-byte sectors *)

Definition two_sectors : Posix.fdesc := Posix.Fdesc (replicate 512 1 ++ replicate 512 2) 0 false.
Definition open_image (fname : string) : Z * option Posix.fdesc :=
  if String.eqb fname "fat.raw" then (3, Some two_sectors) else (-1, None).

Lemma raw_read_after_init_witness :
  exists d d', vdisk_init_raw open_image "fat.raw" = Some d
    /\ vdisk_raw_read UMKA_RUNNING_NEVER Posix.fd_read d (zeroes 512) 1 1 =
       (KOS_ERROR_SUCCESS, replicate 512 2, d').
Proof.
  destruct (raw_read_after_init UMKA_RUNNING_NEVER Posix.fd_read open_image "fat.raw" 3
              two_sectors (zeroes 512) 1 1) as (d & d' & Hi & Hr & _);
    [by left|reflexivity|lia|reflexivity|vm_compute; reflexivity|lia|lia|reflexivity
    |vm_compute; discriminate|].
  exists d, d'. split; [exact Hi|]. rewrite Hr. vm_compute. reflexivity.
Defined.

Lemma raw_write_is_lost_witness :
  exists d d' d'', vdisk_init_raw open_image "fat.raw" = Some d
    /\ vdisk_raw_write UMKA_RUNNING_NEVER d (replicate 512 9) 1 1 = (KOS_ERROR_SUCCESS, d')
    /\ vdisk_raw_read UMKA_RUNNING_NEVER Posix.fd_read d' (zeroes 512) 1 1 =
       (KOS_ERROR_SUCCESS, replicate 512 2, d'').
Proof.
  destruct (vdisk_init_raw_ok open_image "fat.raw" 3 two_sectors) as (d & Hi & Hok & _);
    [reflexivity|lia|reflexivity|vm_compute; reflexivity|].
  assert (raw_range d 1 1) as Hr.
  { vm_compute in Hi. injection Hi as <-. repeat split; vm_compute; discriminate. }
  destruct (raw_write_is_lost UMKA_RUNNING_NEVER Posix.fd_read d (replicate 512 9) 1 1 (zeroes 512)
              1 1 (or_introl eq_refl) Hok Hr) as (d' & d'' & Hw & Hrd).
  exists d, d', d''. split; [exact Hi|]. split; [exact Hw|]. rewrite Hrd.
  vm_compute in Hi. injection Hi as <-. vm_compute. reflexivity.
Defined.

Lemma raw_init_ignores_open_failure_witness :
  vdisk_init_raw open_image "nosuch.raw" =
  Some (VdiskRaw (Vdisk 512 36028797018963967 0 0) (-1) None).
Proof. rewrite (raw_init_ignores_open_failure open_image "nosuch.raw" eq_refl). reflexivity. Defined.
