(* ===== verification/BitReader.v ===== *)
(** deps/em_inflate/em_inflate.c, the LSB-first bit reader, with the outcome
    monad of the inflater.

    The input is one byte string; the pointers of [em_lsb_bitreader_t] are offsets
    into it.  The program is compiled with -m32, so the shifter has 32 bits and
    [em_lsb_bitreader_refill_32] is empty.  [represents] reads a reader as the list
    of bits that are still to come; [reader_safe] is what holds of it on any input,
    well formed or not. *)
From S2P Require Import Prelude.

(** ** Outcomes

    [Fail]: the C function returns -1.  [Undef]: its behaviour is undefined, and
    why: a shift by a negative count or by the width, an access outside an array,
    a stored block that runs past the input, a block type that could not be read.
    [NoFuel]: a bound the model puts on a loop was reached; it never is. *)
Inductive ub := UbShift | UbIndex | UbStored | UbBlockType | NoFuel.
Inductive res (A : Type) := Ok (a : A) | Fail | Undef (u : ub).
Arguments Ok {A} a.
Arguments Fail {A}.
Arguments Undef {A} u.

#[export] Instance res_ret : MRet res := fun _ a => Ok a.
#[export] Instance res_bind : MBind res := fun _ _ f m =>
  match m with Ok a => f a | Fail => Fail | Undef u => Undef u end.

(** An array element; outside the array the behaviour is undefined. *)
Definition index {A} (a : list A) (i : Z) : res A :=
  if 0 <=? i then match a !! Z.to_nat i with Some x => Ok x | None => Undef UbIndex end
  else Undef UbIndex.

(** [a[i] = v] *)
Definition store {A} (a : list A) (i : Z) (v : A) : res (list A) :=
  if (0 <=? i) && (i <? Z.of_nat (length a)) then Ok (<[Z.to_nat i := v]> a) else Undef UbIndex.

(** [x << n] on 32 bits. *)
Definition shl (x n : Z) : res Z :=
  if (0 <=? n) && (n <? 32) then Ok (u32 (x << n)) else Undef UbShift.

(** [for (j = i; j < i + n; j++) a = f(j, a);] *)
Fixpoint rfor {A} (n : nat) (i : Z) (f : Z -> A -> res A) (a : A) : res A :=
  match n with
  | O => Ok a
  | S n => a ← f i a; rfor n (i + 1) f a
  end.

(** The value -1 of an [unsigned int]. *)
Definition ERR : Z := UINT32_MAX.

(** [run m Q F]: [m] is defined; what it returns satisfies [Q], and it fails only
    when [F]. *)
Definition run {A} (m : res A) (Q : A -> Prop) (F : Prop) : Prop :=
  match m with Ok a => Q a | Fail => F | Undef _ => False end.

Lemma run_bind {A B} (m : res A) (k : A -> res B) Q R F :
  run m Q F -> (forall a, Q a -> run (k a) R F) -> run (m ≫= k) R F.
Proof. destruct m; cbn; auto. Qed.

Lemma run_mono {A} (m : res A) (Q Q' : A -> Prop) (F F' : Prop) :
  run m Q F -> (forall a, Q a -> Q' a) -> (F -> F') -> run m Q' F'.
Proof. destruct m; cbn; auto. Qed.

Lemma run_ok {A} (m : res A) (Q : A -> Prop) : run m Q False -> exists a, m = Ok a /\ Q a.
Proof. destruct m; cbn; try done. eauto. Qed.

Lemma run_for {A} (P : Z -> A -> Prop) F n f : forall i a,
  (forall j a, i <= j < i + Z.of_nat n -> P j a -> run (f j a) (P (j + 1)) F) ->
  P i a -> run (rfor n i f a) (P (i + Z.of_nat n)) F.
Proof.
  induction n as [|n IH]; intros i a Hf Ha; cbn [rfor]; [by rewrite Z.add_0_r|].
  eapply run_bind; [apply Hf; [lia|done]|]. intros a' Ha'.
  replace (i + Z.of_nat (S n)) with (i + 1 + Z.of_nat n) by lia.
  apply IH; [|done]. intros j b Hj. apply Hf. lia.
Qed.

Lemma run_index {A} (a : list A) i F : 0 <= i < Z.of_nat (length a) -> run (index a i) (fun x => a !! Z.to_nat i = Some x) F.
Proof.
  intros Hi. unfold index. rewrite (proj2 (Z.leb_le 0 i)) by lia.
  destruct (lookup_lt_is_Some_2 a (Z.to_nat i)) as [x Hx]; [lia|]. by rewrite Hx.
Qed.

Lemma store_ok {A} (a : list A) i v : 0 <= i < Z.of_nat (length a) -> store a i v = Ok (<[Z.to_nat i := v]> a).
Proof. intros Hi. unfold store. by rewrite (proj2 (Z.leb_le 0 i)), (proj2 (Z.ltb_lt i _)) by lia. Qed.

(** ** The reader *)

Record em_lsb_bitreader_t := BitReader {
  nDecShifterBitCount : Z;
  nDecShifterData : Z;
  pInBlock : Z;
  pInBlockEnd : Z;
  pInBlockStart : Z }.

Definition em_lsb_bitreader_init (pIn pEnd : Z) : em_lsb_bitreader_t := BitReader 0 0 pIn pEnd pIn.

Definition more (r : em_lsb_bitreader_t) : bool := pInBlock r <? pInBlockEnd r.

Definition add_count (n : Z) (r : em_lsb_bitreader_t) : em_lsb_bitreader_t :=
  BitReader (nDecShifterBitCount r + n) (nDecShifterData r) (pInBlock r) (pInBlockEnd r) (pInBlockStart r).

Definition em_lsb_bitreader_consume_bits (nBits : Z) (r : em_lsb_bitreader_t) : em_lsb_bitreader_t :=
  BitReader (nDecShifterBitCount r - nBits) (nDecShifterData r >> nBits)
    (pInBlock r) (pInBlockEnd r) (pInBlockStart r).

Definition set_in (p : Z) (r : em_lsb_bitreader_t) : em_lsb_bitreader_t :=
  BitReader (nDecShifterBitCount r) (nDecShifterData r) p (pInBlockEnd r) (pInBlockStart r).

Section reader.
Context (inp : bytes).

(** [nDecShifterData |= *pInBlock++ << (nDecShifterBitCount + off)] *)
Definition feed (off : Z) (r : em_lsb_bitreader_t) : res em_lsb_bitreader_t :=
  b ← index inp (pInBlock r);
  v ← shl b (nDecShifterBitCount r + off);
  Ok (BitReader (nDecShifterBitCount r) (nDecShifterData r .| v) (pInBlock r + 1)
        (pInBlockEnd r) (pInBlockStart r)).

Definition em_lsb_bitreader_get_bits (nBits : Z) (r : em_lsb_bitreader_t) : res (Z * em_lsb_bitreader_t) :=
  let finish r :=
    Ok (nDecShifterData r .& ((1 << nBits) - 1), em_lsb_bitreader_consume_bits nBits r) in
  if nDecShifterBitCount r <? nBits then
    if more r then
      r ← feed 0 r;
      let r := add_count 8 r in
      if more r then r ← feed 0 r; finish (add_count 8 r)
      else finish r
    else Ok (ERR, r)
  else finish r.

Definition em_lsb_bitreader_peek_16bits (r : em_lsb_bitreader_t) : res (Z * em_lsb_bitreader_t) :=
  r ← (if nDecShifterBitCount r <? 16 then
         if more r then
           r ← feed 0 r;
           r ← (if more r then feed 8 r else Ok r);
           Ok (add_count 16 r)
         else Ok r
       else Ok r);
  Ok (nDecShifterData r .& 0xffff, r).

(** The loop of [em_lsb_bitreader_byte_align]: at most one turn per bit. *)
Fixpoint rewind (fuel : nat) (r : em_lsb_bitreader_t) : Z * em_lsb_bitreader_t :=
  match fuel with
  | O => (0, r)
  | S fuel =>
      if 8 <=? nDecShifterBitCount r then
        let r := set_in (pInBlock r - 1) (add_count (-8) r) in
        if pInBlock r <? pInBlockStart r then (-1, r) else rewind fuel r
      else (0, r)
  end.

Definition em_lsb_bitreader_byte_align (r : em_lsb_bitreader_t) : Z * em_lsb_bitreader_t :=
  let '(e, r) := rewind (Z.to_nat (nDecShifterBitCount r)) r in
  if e <? 0 then (-1, r)
  else (0, BitReader 0 0 (pInBlock r) (pInBlockEnd r) (pInBlockStart r)).

(** ** Bits still to come *)

Fixpoint lsb_val (bs : list bool) : Z :=
  match bs with [] => 0 | b :: bs => b2z b + 2 * lsb_val bs end.

Definition rest_bytes (r : em_lsb_bitreader_t) : bytes :=
  sub inp (Z.to_nat (pInBlock r)) (Z.to_nat (pInBlockEnd r - pInBlock r)).

(** The value of the bits to come and their number. *)
Definition r_val (r : em_lsb_bitreader_t) : Z :=
  nDecShifterData r + 2 ^ nDecShifterBitCount r * le_val (rest_bytes r).
Definition r_len (r : em_lsb_bitreader_t) : Z :=
  nDecShifterBitCount r + 8 * (pInBlockEnd r - pInBlock r).

(** The pointers are ordered, and the block is the end of the input. *)
Definition pointers_ok (r : em_lsb_bitreader_t) : Prop :=
  0 <= pInBlockStart r /\ pInBlockStart r <= pInBlock r <= pInBlockEnd r
  /\ pInBlockEnd r = Z.of_nat (length inp).

(** The shifter holds whole loaded bytes. *)
Record reader_ok (r : em_lsb_bitreader_t) : Prop := {
  ro_pointers : pointers_ok r;
  ro_count : 0 <= nDecShifterBitCount r < 32;
  ro_data : 0 <= nDecShifterData r < 2 ^ nDecShifterBitCount r;
  ro_loaded : nDecShifterBitCount r <= 8 * (pInBlock r - pInBlockStart r) }.

(** The whole block as one number, and the bits of it already read. *)
Definition total (r : em_lsb_bitreader_t) : Z :=
  le_val (sub inp (Z.to_nat (pInBlockStart r)) (Z.to_nat (pInBlockEnd r - pInBlockStart r))).
Definition position (r : em_lsb_bitreader_t) : Z :=
  8 * (pInBlock r - pInBlockStart r) - nDecShifterBitCount r.

Record represents (r : em_lsb_bitreader_t) (bits : list bool) : Prop := {
  rp_ok : reader_ok r;
  rp_val : r_val r = lsb_val bits;
  rp_len : r_len r = Z.of_nat (length bits);
  rp_whole : total r / 2 ^ position r = lsb_val bits }.

(** *** Loading bytes *)

Hypothesis inp_ok : bytes_ok inp.

Lemma index_some {A} (a : list A) i x : 0 <= i -> a !! Z.to_nat i = Some x -> index a i = Ok x.
Proof. intros Hi Hx. unfold index. by rewrite (proj2 (Z.leb_le 0 i) Hi), Hx. Qed.

(** The shifter with [k] bits in it and the bytes behind it. *)
Definition val_at (k : Z) (r : em_lsb_bitreader_t) : Z :=
  nDecShifterData r + 2 ^ k * le_val (rest_bytes r).

Lemma rest_bytes_cons r :
  pointers_ok r -> more r = true ->
  exists b, inp !! Z.to_nat (pInBlock r) = Some b /\ byte_ok b
    /\ rest_bytes r = b :: rest_bytes (set_in (pInBlock r + 1) r).
Proof using inp_ok.
  intros (H0 & H1 & H2) Hm. unfold more in Hm. zbool.
  destruct (lookup_lt_is_Some_2 inp (Z.to_nat (pInBlock r))) as [b Hb]; [lia|].
  exists b. split; [done|]. split; [by eapply Forall_lookup_1 in Hb|].
  unfold rest_bytes, sub, set_in. cbn [pInBlock pInBlockEnd].
  rewrite (drop_S _ _ _ Hb).
  replace (Z.to_nat (pInBlockEnd r - pInBlock r)) with (S (Z.to_nat (pInBlockEnd r - (pInBlock r + 1)))) by lia.
  by replace (Z.to_nat (pInBlock r + 1)) with (S (Z.to_nat (pInBlock r))) by lia.
Qed.

Lemma feed_ok off r :
  let k := nDecShifterBitCount r + off in
  pointers_ok r -> more r = true -> 0 <= k <= 24 -> 0 <= nDecShifterData r < 2 ^ k ->
  exists v, feed off r = Ok (BitReader (nDecShifterBitCount r) v (pInBlock r + 1) (pInBlockEnd r) (pInBlockStart r))
    /\ 0 <= v < 2 ^ (k + 8)
    /\ v + 2 ^ (k + 8) * le_val (rest_bytes (set_in (pInBlock r + 1) r)) = val_at k r.
Proof using inp_ok.
  intros k Hp Hm Hk Hd. destruct (rest_bytes_cons r Hp Hm) as (b & Hb & Hbb & Hr).
  unfold byte_ok in Hbb. destruct Hp as (H0 & H1 & H2).
  unfold feed. erewrite index_some by (eauto; lia). cbn [mbind res_bind]. unfold shl. fold k.
  assert (2 ^ k <= 2 ^ 24) by (apply Z.pow_le_mono_r; lia).
  rewrite (proj2 (Z.leb_le 0 k)), (proj2 (Z.ltb_lt k 32)) by lia. cbn [andb mbind].
  assert (Hs : 0 <= b << k < 2 ^ 32) by (rewrite Z.shiftl_mul_pow2 by lia; nia).
  rewrite u32_small by done. eexists. split; [done|].
  rewrite lor_shiftl by lia. unfold val_at. rewrite Hr. cbn [le_val].
  rewrite Z.pow_add_r by lia. split; nia.
Qed.

Lemma lsb_val_range bs : 0 <= lsb_val bs < 2 ^ Z.of_nat (length bs).
Proof.
  induction bs as [|b bs IH]; cbn [lsb_val length]; [lia|].
  rewrite Nat2Z.inj_succ, Z.pow_succ_r by lia. destruct b; cbn [b2z]; lia.
Qed.

Lemma lsb_val_app a b : lsb_val (a ++ b) = lsb_val a + 2 ^ Z.of_nat (length a) * lsb_val b.
Proof.
  induction a as [|x a IH]; cbn [lsb_val app length]; [rewrite Z.mul_1_l; lia|].
  rewrite IH, Nat2Z.inj_succ, Z.pow_succ_r by lia. lia.
Qed.

Lemma lsb_val_low a b : lsb_val (a ++ b) mod 2 ^ Z.of_nat (length a) = lsb_val a.
Proof.
  rewrite lsb_val_app, Z.mul_comm, Z.mod_add by lia. apply Z.mod_small, lsb_val_range.
Qed.

Lemma lsb_val_high a b : lsb_val (a ++ b) / 2 ^ Z.of_nat (length a) = lsb_val b.
Proof.
  rewrite lsb_val_app, Z.mul_comm, Z.div_add by lia. rewrite Z.div_small by apply lsb_val_range. lia.
Qed.

Lemma lsb_val_drop k bits :
  (k <= length bits)%nat -> lsb_val bits / 2 ^ Z.of_nat k = lsb_val (drop k bits).
Proof.
  intros Hk. pose proof (lsb_val_high (take k bits) (drop k bits)) as H.
  by rewrite take_drop, length_take_le in H.
Qed.

Lemma lsb_val_take k bits :
  (k <= length bits)%nat -> lsb_val bits mod 2 ^ Z.of_nat k = lsb_val (take k bits).
Proof.
  intros Hk. pose proof (lsb_val_low (take k bits) (drop k bits)) as H.
  by rewrite take_drop, length_take_le in H.
Qed.

Lemma feed8_represents r bits :
  represents r bits -> nDecShifterBitCount r <= 23 -> more r = true ->
  exists r1, feed 0 r = Ok r1 /\ represents (add_count 8 r1) bits
    /\ nDecShifterBitCount r1 = nDecShifterBitCount r.
Proof using inp_ok.
  intros [[Hp Hc Hd Hl] Hv Hn Hw] Hc16 Hm.
  destruct (feed_ok 0 r Hp Hm) as (v & -> & Hvr & Hvv); rewrite ?Z.add_0_r in *; [lia|done|].
  eexists. split; [done|]. split; [|done]. unfold more in Hm. zbool. destruct Hp as (H0 & H1 & H2).
  unfold val_at in Hvv. unfold r_val in Hv. unfold r_len in Hn. split.
  - split; [split; [done|]; cbn; lia|cbn; lia|exact Hvr|cbn; lia].
  - unfold r_val. rewrite <- Hv, <- Hvv. reflexivity.
  - unfold r_len. cbn. lia.
  - rewrite <- Hw. unfold position. cbn. do 2 f_equal. lia.
Qed.

(** The low bits of the shifter are the next bits. *)
Lemma shifter_low r a b :
  represents r (a ++ b) -> Z.of_nat (length a) <= nDecShifterBitCount r ->
  nDecShifterData r mod 2 ^ Z.of_nat (length a) = lsb_val a.
Proof.
  intros [[_ Hc Hd _] Hv _ _] Ha. rewrite <- (lsb_val_low a b), <- Hv. unfold r_val.
  replace (nDecShifterBitCount r) with
    (Z.of_nat (length a) + (nDecShifterBitCount r - Z.of_nat (length a))) by lia.
  rewrite Z.pow_add_r, <- Z.mul_assoc, (Z.mul_comm (2 ^ _)), Z.mod_add by lia. done.
Qed.

Lemma consume_represents r a b :
  represents r (a ++ b) -> Z.of_nat (length a) <= nDecShifterBitCount r ->
  represents (em_lsb_bitreader_consume_bits (Z.of_nat (length a)) r) b.
Proof.
  intros [[Hp Hc Hd Hl] Hv Hn Hw] Ha. set (n := Z.of_nat (length a)) in *.
  assert (E : 2 ^ nDecShifterBitCount r = 2 ^ n * 2 ^ (nDecShifterBitCount r - n))
    by (rewrite <- Z.pow_add_r by lia; f_equal; lia).
  split.
  - split; cbn; [done|lia| |lia]. rewrite Z.shiftr_div_pow2 by lia.
    split; [apply Z.div_pos; lia|]. apply Z.div_lt_upper_bound; lia.
  - rewrite <- (lsb_val_high a b), <- Hv. unfold r_val. fold n. cbn.
    rewrite E, <- Z.mul_assoc, (Z.mul_comm (2 ^ n)), Z.div_add by lia.
    by rewrite Z.shiftr_div_pow2 by lia.
  - unfold r_len in *. rewrite length_app in Hn. cbn. lia.
  - rewrite <- (lsb_val_high a b), <- Hw. fold n. change (total (em_lsb_bitreader_consume_bits n r)) with (total r).
    rewrite Z.div_div by (unfold position; lia). rewrite <- Z.pow_add_r by (unfold position; lia).
    unfold position. cbn. do 2 f_equal. lia.
Qed.

(** Reading [nBits] bits when the input has two more bytes. *)
Lemma get_bits_represents n r a b :
  represents r (a ++ b) -> n = Z.of_nat (length a) -> n <= 16 -> (16 <= length b)%nat ->
  exists r', em_lsb_bitreader_get_bits n r = Ok (lsb_val a, r') /\ represents r' b.
Proof using inp_ok.
  intros Hr -> Hn Hb. unfold em_lsb_bitreader_get_bits. set (n := Z.of_nat (length a)) in *.
  assert (F : forall r, represents r (a ++ b) -> n <= nDecShifterBitCount r ->
    exists r', Ok (nDecShifterData r .& ((1 << n) - 1), em_lsb_bitreader_consume_bits n r)
               = Ok (lsb_val a, r') /\ represents r' b).
  { clear r Hr. intros r Hr Hc. eexists. split; [|by apply consume_represents].
    rewrite Z.shiftl_1_l. replace (2 ^ n - 1) with (Z.ones n) by (rewrite Z.ones_equiv; lia).
    rewrite land_ones_mod by lia. unfold n at 1. by rewrite (shifter_low _ _ _ Hr Hc). }
  assert (M : forall r, represents r (a ++ b) -> nDecShifterBitCount r <= n + 8 -> more r = true).
  { intros r1 [_ _ Hl1 _] Hc. unfold r_len in Hl1. rewrite length_app in Hl1. unfold more. zbool. lia. }
  destruct (Z.ltb_spec (nDecShifterBitCount r) n) as [Hc|Hc]; [|by apply F].
  pose proof (ro_count _ (rp_ok _ _ Hr)) as H0. rewrite (M r Hr) by lia.
  destruct (feed8_represents r _ Hr) as (r1 & -> & H1 & Hc1); [lia|by apply M; [|lia]|]. cbn [mbind res_bind].
  assert (nDecShifterBitCount (add_count 8 r1) = nDecShifterBitCount r + 8) by (cbn; lia).
  rewrite (M _ H1) by lia.
  destruct (feed8_represents _ _ H1) as (r2 & -> & H2 & Hc2); [lia|by apply M; [|lia]|]. cbn [mbind res_bind].
  apply F; [done|]. cbn in *. lia.
Qed.

(** Peeking loads bytes and changes no bit to come. *)
Lemma peek_represents r bits :
  represents r bits -> (31 <= length bits)%nat ->
  exists r', em_lsb_bitreader_peek_16bits r = Ok (lsb_val (take 16 bits), r')
    /\ represents r' bits /\ 16 <= nDecShifterBitCount r'.
Proof using inp_ok.
  intros Hr Hl. unfold em_lsb_bitreader_peek_16bits.
  assert (F : forall r, represents r bits -> 16 <= nDecShifterBitCount r ->
    nDecShifterData r .& 0xffff = lsb_val (take 16 bits)).
  { intros r1 H1 Hc1. change 0xffff with (Z.ones 16). rewrite land_ones_mod by lia.
    rewrite <- (take_drop 16 bits) in H1. rewrite <- (shifter_low _ _ _ H1); rewrite length_take; [|lia].
    by rewrite Nat.min_l by lia. }
  destruct (Z.ltb_spec (nDecShifterBitCount r) 16) as [Hc|Hc].
  2: { cbn [mbind res_bind]. exists r. by rewrite (F r Hr Hc). }
  pose proof (ro_count _ (rp_ok _ _ Hr)) as H0.
  assert (Hm : more r = true) by (destruct Hr as [_ _ H _]; unfold r_len in H; unfold more; zbool; lia).
  rewrite Hm. destruct Hr as [[Hp _ Hd Hld] Hv Hn Hw].
  destruct (feed_ok 0 r Hp Hm) as (v & -> & Hvr & Hvv); rewrite ?Z.add_0_r in *; [lia|done|].
  cbn [mbind res_bind]. set (r1 := BitReader _ _ _ _ _).
  unfold r_len in Hn. unfold more in Hm. zbool. destruct Hp as (Hp0 & Hp1 & Hp2).
  assert (Hm1 : more r1 = true) by (unfold more; cbn; zbool; lia). rewrite Hm1.
  destruct (feed_ok 8 r1) as (v2 & -> & Hv2 & Hvv2);
    [split; [done|]; cbn; lia|done|cbn; lia|exact Hvr|].
  cbn [mbind res_bind]. set (r2 := add_count 16 _).
  assert (represents r2 bits) as H2.
  { cbn in Hv2, Hvv2. rewrite <- Z.add_assoc in Hv2, Hvv2. split.
    - split; cbn; [split; cbn; lia|lia|done|lia].
    - rewrite <- Hv. exact (eq_trans Hvv2 Hvv).
    - unfold r_len. cbn. lia.
    - rewrite <- Hw. unfold position. cbn. do 2 f_equal. lia. }
  exists r2. rewrite (F r2 H2) by (cbn; lia). split; [done|]. split; [done|]. cbn. lia.
Qed.

(** *** Alignment *)

Lemma rewind_ok fuel : forall r,
  0 <= nDecShifterBitCount r < Z.of_nat fuel + 8 ->
  nDecShifterBitCount r <= 8 * (pInBlock r - pInBlockStart r) + 7 ->
  rewind fuel r = (0, BitReader (nDecShifterBitCount r mod 8) (nDecShifterData r)
                        (pInBlock r - nDecShifterBitCount r / 8) (pInBlockEnd r) (pInBlockStart r)).
Proof.
  induction fuel as [|fuel IH]; intros r Hc Hl.
  { cbn [rewind]. rewrite Z.mod_small, Z.div_small by lia. rewrite Z.sub_0_r. by destruct r. }
  cbn [rewind]. destruct (Z.leb_spec 8 (nDecShifterBitCount r)) as [H8|H8].
  2: { rewrite Z.mod_small, Z.div_small by lia. rewrite Z.sub_0_r. by destruct r. }
  cbn [pInBlock set_in pInBlockStart add_count]. destruct (Z.ltb_spec (pInBlock r - 1) (pInBlockStart r)); [lia|].
  rewrite IH by (cbn; lia). cbn.
  replace (nDecShifterBitCount r) with (nDecShifterBitCount r + -8 + 1 * 8) at 3 4 by lia.
  rewrite Z.mod_add, Z.div_add by lia. do 2 f_equal. lia.
Qed.

Lemma byte_align_eq r :
  0 <= nDecShifterBitCount r -> nDecShifterBitCount r <= 8 * (pInBlock r - pInBlockStart r) + 7 ->
  em_lsb_bitreader_byte_align r =
  (0, BitReader 0 0 (pInBlock r - nDecShifterBitCount r / 8) (pInBlockEnd r) (pInBlockStart r)).
Proof. intros H0 Hl. unfold em_lsb_bitreader_byte_align. by rewrite rewind_ok by lia. Qed.

(** An empty shifter stands for the bytes behind it. *)
Lemma byte_reader_represents pIn pEnd start bits :
  0 <= start -> start <= pIn <= pEnd -> pEnd = Z.of_nat (length inp) ->
  total (BitReader 0 0 pIn pEnd start) / 2 ^ (8 * (pIn - start)) = lsb_val bits ->
  Z.of_nat (length bits) = 8 * (pEnd - pIn) ->
  represents (BitReader 0 0 pIn pEnd start) bits.
Proof using inp_ok.
  intros H0 H1 H2 Hw Hl. split; cbn.
  - split; cbn; [split; cbn; lia|lia..].
  - rewrite <- Hw. unfold r_val, total, rest_bytes. cbn [nDecShifterBitCount nDecShifterData pInBlock pInBlockEnd pInBlockStart].
    replace (Z.to_nat (pEnd - start)) with (Z.to_nat (pIn - start) + Z.to_nat (pEnd - pIn))%nat by lia.
    rewrite sub_split, le_val_app.
    set (a := sub inp (Z.to_nat start) (Z.to_nat (pIn - start))).
    assert (La : Z.of_nat (length a) = pIn - start) by (unfold a; rewrite length_sub by lia; lia).
    pose proof (le_val_bound a ltac:(by apply bytes_ok_sub)) as Hb. rewrite La in *.
    rewrite (Z.mul_comm (2 ^ (8 * _))), Z.div_add, Z.div_small by lia.
    replace (Z.to_nat start + Z.to_nat (pIn - start))%nat with (Z.to_nat pIn) by lia. lia.
  - unfold r_len. cbn. lia.
  - unfold position. cbn. by rewrite Z.sub_0_r.
Qed.

Lemma byte_align_represents r bits :
  represents r bits ->
  exists r', em_lsb_bitreader_byte_align r = (0, r')
    /\ represents r' (drop (length bits mod 8) bits)
    /\ nDecShifterBitCount r' = 0 /\ nDecShifterData r' = 0
    /\ pInBlockEnd r' = pInBlockEnd r /\ pInBlockStart r' = pInBlockStart r.
Proof using inp_ok.
  intros [[Hp Hc Hd Hl] Hv Hn Hw]. rewrite byte_align_eq by lia. eexists. split; [done|]. split; [|done].
  destruct Hp as (H0 & H1 & H2). unfold r_len in Hn.
  set (c := nDecShifterBitCount r) in *.
  assert (Hk : Z.of_nat (length bits mod 8) = c mod 8).
  { rewrite Nat2Z.inj_mod, <- Hn. change (Z.of_nat 8) with 8. rewrite Z.mul_comm, Z.mod_add by lia. done. }
  pose proof (Z.div_mod c 8 ltac:(lia)) as Hdm. pose proof (Z.mod_pos_bound c 8 ltac:(lia)).
  pose proof (Nat.Div0.mod_le (length bits) 8).
  apply byte_reader_represents; try lia.
  - rewrite <- lsb_val_drop, <- Hw, Hk by done.
    rewrite Z.div_div by (unfold position; lia). rewrite <- Z.pow_add_r by (unfold position; lia).
    change (total (BitReader 0 0 _ _ _)) with (total r). do 2 f_equal. unfold position. fold c. lia.
  - rewrite length_drop. lia.
Qed.

(** *** Any input

    [k] bits of the block were read.  The shifter can claim one byte too many once
    the input is used up, and fewer bits than none. *)
Record reader_safe (k : Z) (r : em_lsb_bitreader_t) : Prop := {
  rs_pointers : pointers_ok r;
  rs_count : nDecShifterBitCount r < 32;
  rs_data : 0 <= nDecShifterData r < 2 ^ 32;
  rs_empty : nDecShifterBitCount r < 0 -> pInBlock r = pInBlockEnd r;
  rs_read : nDecShifterBitCount r + k <=
            8 * (pInBlock r - pInBlockStart r) + (if pInBlock r =? pInBlockEnd r then 8 else 0) }.

(** Same block, and the input is never given back. *)
Definition advances (r r' : em_lsb_bitreader_t) : Prop :=
  pInBlockEnd r' = pInBlockEnd r /\ pInBlockStart r' = pInBlockStart r /\ pInBlock r <= pInBlock r'.

Lemma feed_safe off r :
  pointers_ok r -> more r = true -> 0 <= nDecShifterBitCount r + off < 32 -> 0 <= nDecShifterData r < 2 ^ 32 ->
  exists v, feed off r = Ok (BitReader (nDecShifterBitCount r) v (pInBlock r + 1) (pInBlockEnd r) (pInBlockStart r))
    /\ 0 <= v < 2 ^ 32.
Proof using inp_ok.
  intros Hp Hm Hk Hd. destruct (rest_bytes_cons r Hp Hm) as (b & Hb & _). destruct Hp as (H0 & H1 & _).
  unfold feed. erewrite index_some by (eauto; lia). cbn [mbind res_bind]. unfold shl.
  rewrite (proj2 (Z.leb_le 0 _)), (proj2 (Z.ltb_lt _ 32)) by lia. cbn [andb mbind].
  eexists. split; [done|]. apply lor_range; [lia|done|apply u32_range].
Qed.

Lemma reader_safe_weaken k k' r : reader_safe k r -> k' <= k -> reader_safe k' r.
Proof. intros [? ? ? ? ?] ?. split; try done. lia. Qed.

Lemma consume_safe k n r :
  reader_safe k r -> 0 <= n -> n <= nDecShifterBitCount r \/ pInBlock r = pInBlockEnd r ->
  reader_safe (k + n) (em_lsb_bitreader_consume_bits n r).
Proof.
  intros [Hp Hc Hd He Hr] Hn Hor. split; cbn; [done|lia| |lia|lia].
  rewrite Z.shiftr_div_pow2 by lia. split; [apply Z.div_pos; lia|].
  apply Z.div_lt_upper_bound; [lia|]. nia.
Qed.

Ltac reader_arith := unfold more, advances in *; cbn in *; zbool; repeat case_match; zbool; lia.

(** Reading fails only at the end of the input, and then leaves the reader alone. *)
Lemma get_bits_safe k n r :
  reader_safe k r -> 0 <= n <= 16 ->
  exists v r', em_lsb_bitreader_get_bits n r = Ok (v, r') /\ advances r r'
    /\ ((v = ERR /\ r' = r /\ nDecShifterBitCount r < n /\ more r = false)
        \/ (0 <= v < 2 ^ n /\ reader_safe (k + n) r' /\ (n <= 8 -> 0 <= nDecShifterBitCount r'))).
Proof using inp_ok.
  intros Hr Hn. unfold em_lsb_bitreader_get_bits.
  assert (F : forall r1, reader_safe k r1 -> advances r r1 ->
    n <= nDecShifterBitCount r1 \/ pInBlock r1 = pInBlockEnd r1 -> (n <= 8 -> n <= nDecShifterBitCount r1) ->
    exists v r', Ok (nDecShifterData r1 .& ((1 << n) - 1), em_lsb_bitreader_consume_bits n r1) = Ok (v, r')
      /\ advances r r' /\ ((v = ERR /\ r' = r /\ nDecShifterBitCount r < n /\ more r = false)
        \/ (0 <= v < 2 ^ n /\ reader_safe (k + n) r' /\ (n <= 8 -> 0 <= nDecShifterBitCount r')))).
  { intros r1 H1 Ha Hc H8. eexists _, _. split; [done|]. split; [exact Ha|]. right. split.
    - rewrite Z.shiftl_1_l. replace (2 ^ n - 1) with (Z.ones n) by (rewrite Z.ones_equiv; lia).
      rewrite land_ones_mod by lia. apply Z.mod_pos_bound. lia.
    - split; [apply consume_safe; [done|lia|done]|]. intros Hle. specialize (H8 Hle). cbn. lia. }
  destruct (Z.ltb_spec (nDecShifterBitCount r) n) as [Hc|Hc].
  2: { apply F; [done|reader_arith|by left|done]. }
  destruct (more r) eqn:Hm.
  2: { exists ERR, r. split; [done|]. split; [reader_arith|by left]. }
  destruct Hr as [Hp Hc1 Hd He Hrd].
  assert (0 <= nDecShifterBitCount r) by reader_arith.
  destruct (feed_safe 0 r Hp Hm) as (v & -> & Hv); [lia|done|]. cbn [mbind res_bind]. set (r1 := add_count 8 _).
  assert (H1 : reader_safe k r1).
  { destruct Hp as (Hp0 & Hp1 & Hp2). split; [split; [done|]; reader_arith|reader_arith|done|reader_arith|reader_arith]. }
  destruct (more r1) eqn:Hm1.
  2: { apply F; [done|reader_arith|right; destruct Hp as (? & ? & ?); reader_arith|cbn; lia]. }
  destruct (feed_safe 0 r1 (rs_pointers _ _ H1) Hm1) as (v2 & -> & Hv2); [reader_arith|done|].
  cbn [mbind res_bind]. set (r2 := add_count 8 _).
  destruct H1 as [(Hp0 & Hp1 & Hp2) Hc1' Hd1 He1 Hrd1].
  apply F; [split; [split; [done|]; reader_arith|reader_arith|done|reader_arith|reader_arith]|reader_arith|left; reader_arith|cbn; lia].
Qed.

Lemma peek_safe k r :
  reader_safe k r ->
  exists v r', em_lsb_bitreader_peek_16bits r = Ok (v, r') /\ 0 <= v < 2 ^ 16 /\ advances r r'
    /\ reader_safe k r' /\ (16 <= nDecShifterBitCount r' \/ pInBlock r' = pInBlockEnd r').
Proof using inp_ok.
  intros Hr. unfold em_lsb_bitreader_peek_16bits.
  assert (F : forall r1, reader_safe k r1 -> advances r r1 ->
    16 <= nDecShifterBitCount r1 \/ pInBlock r1 = pInBlockEnd r1 ->
    exists v r', Ok (nDecShifterData r1 .& 0xffff, r1) = Ok (v, r') /\ 0 <= v < 2 ^ 16 /\ advances r r'
      /\ reader_safe k r' /\ (16 <= nDecShifterBitCount r' \/ pInBlock r' = pInBlockEnd r')).
  { intros r1 H1 Ha Hc. eexists _, _. split; [done|]. split; [|done].
    change 0xffff with (Z.ones 16). rewrite land_ones_mod by lia. apply Z.mod_pos_bound. lia. }
  destruct (Z.ltb_spec (nDecShifterBitCount r) 16) as [Hc|Hc]; cbn [mbind res_bind].
  2: { apply F; [done|reader_arith|by left]. }
  destruct (more r) eqn:Hm; cbn [mbind res_bind].
  2: { apply F; [done|reader_arith|]. destruct Hr as [(? & ? & ?) _ _ _ _]. right. reader_arith. }
  destruct Hr as [Hp Hc1 Hd He Hrd].
  assert (0 <= nDecShifterBitCount r) by reader_arith.
  destruct (feed_safe 0 r Hp Hm) as (v & -> & Hv); [lia|done|]. cbn [mbind res_bind]. set (r1 := BitReader _ _ _ _ _).
  destruct Hp as (Hp0 & Hp1 & Hp2).
  assert (Hp' : pointers_ok r1) by (split; [done|]; reader_arith).
  destruct (more r1) eqn:Hm1.
  - destruct (feed_safe 8 r1 Hp' Hm1) as (v2 & -> & Hv2); [reader_arith|done|].
    cbn [mbind res_bind]. apply F; [|reader_arith|left; reader_arith].
    split; [split; [done|]; reader_arith|reader_arith|done|reader_arith|reader_arith].
  - cbn [mbind res_bind]. apply F; [|reader_arith|left; reader_arith].
    split; [split; [done|]; reader_arith|reader_arith|done|reader_arith|reader_arith].
Qed.

Lemma byte_align_safe k r :
  reader_safe k r -> 1 <= k ->
  exists p, em_lsb_bitreader_byte_align r = (0, BitReader 0 0 p (pInBlockEnd r) (pInBlockStart r))
    /\ pInBlockStart r <= p <= pInBlockEnd r
    /\ (p = pInBlockEnd r \/ k <= 8 * (p - pInBlockStart r) + 8).
Proof.
  intros [(H0 & H1 & H2) Hc Hd He Hr] Hk.
  assert (Hr' : nDecShifterBitCount r + k <= 8 * (pInBlock r - pInBlockStart r) + 8)
    by (destruct (pInBlock r =? pInBlockEnd r); lia). clear Hr.
  destruct (Z.leb_spec 0 (nDecShifterBitCount r)) as [Hp|Hn].
  - exists (pInBlock r - nDecShifterBitCount r / 8). rewrite byte_align_eq by lia.
    split; [done|]. assert (0 <= nDecShifterBitCount r / 8) by (apply Z.div_pos; lia).
    pose proof (Z.mul_div_le (nDecShifterBitCount r) 8 ltac:(lia)). lia.
  - exists (pInBlock r). unfold em_lsb_bitreader_byte_align.
    rewrite (Z2Nat.nonpos (nDecShifterBitCount r)) by lia. split; [done|]. split; [lia|]. left. by apply He.
Qed.
End reader.
