(* ===== verification/Huffman.v ===== *)
(** deps/em_inflate/em_inflate.c, the Huffman decoder: building the tables of a
    canonical code from its code lengths, decoding one symbol, and reading the code
    lengths of a dynamic block.

    The array of [2 * nSymbols] entries of the source is two lists here, the symbols
    and, behind them, [nRevCodeLengthTable].  Arrays the code has not written yet are
    empty lists or zeros that are overwritten before they are read. *)
From S2P Require Import Prelude BitReader.

Definition MAX_SYMBOLS : Z := 288.
Definition NCODELENSYMS : Z := 19.
Definition NFASTSYMBOLBITS : Z := 10.

Record em_lsb_huffman_decoder_t := Decoder {
  nFastSymbol : list Z;
  nStartIndex : list Z;
  nSymbols : Z;
  nNumSorted : Z;
  nStartingPos : list Z }.

Definition bad_counts (nReadSymbols nSymbols : Z) : bool :=
  (nReadSymbols <? 0) || (MAX_SYMBOLS <? nReadSymbols) || (nSymbols <? 0) || (MAX_SYMBOLS <? nSymbols)
  || (nSymbols <? nReadSymbols).

(** ** Building the tables *)

(** Symbols per code length. *)
Definition count_lengths (nReadSymbols : Z) (pCodeLength : list Z) : res (list Z) :=
  rfor (Z.to_nat nReadSymbols) 0 (fun i c =>
    l ← index pCodeLength i;
    if 16 <=? l then Fail else v ← index c l; store c l (v + 1)) (replicate 16 0).

(** Where the symbols of each length start, and their number. *)
Definition starting_positions (counts : list Z) : res (list Z * Z) :=
  rfor 15 1 (fun i '(pos, sorted) =>
    pos ← store pos i sorted; c ← index counts i; Ok (pos, sorted + c)) (replicate 16 0, 0).

(** Symbols sorted by code length; each position moves to its end. *)
Definition place_symbols (nReadSymbols : Z) (pCodeLength pos rev : list Z) : res (list Z * list Z) :=
  rfor (Z.to_nat nReadSymbols) 0 (fun i '(pos, rev) =>
    l ← index pCodeLength i;
    if truth l then
      p ← index pos l; rev ← store rev p i; pos ← store pos l (p + 1); Ok (pos, rev)
    else Ok (pos, rev)) (pos, rev).

Definition em_lsb_huffman_decoder_prepare_table (nReadSymbols nSymbols : Z) (pCodeLength : list Z)
  : res (em_lsb_huffman_decoder_t * list Z) :=
  if bad_counts nReadSymbols nSymbols then Fail
  else
    counts ← count_lengths nReadSymbols pCodeLength;
    '(pos, sorted) ← starting_positions counts;
    '(pos, rev) ← place_symbols nReadSymbols pCodeLength pos (replicate (Z.to_nat nSymbols) ERR);
    Ok (Decoder [] [] nSymbols sorted pos, rev).

(** The codeword upside down in 16 bits. *)
Definition reverse_word (w : Z) : Z :=
  let w := ((w .& 0x5555) << 1) .| ((w .& 0xaaaa) >> 1) in
  let w := ((w .& 0x3333) << 2) .| ((w .& 0xcccc) >> 2) in
  let w := ((w .& 0x0f0f) << 4) .| ((w .& 0xf0f0) >> 4) in
  ((w .& 0x00ff) << 8) .| ((w .& 0xff00) >> 8).

(** [while (nSlots)]: the entries of a short codeword. *)
Fixpoint fill_slots (nSlots : nat) (nRevWord len v : Z) (fast : list Z) : res (list Z) :=
  match nSlots with
  | O => Ok fast
  | S n => fast ← store fast nRevWord v; fill_slots n (nRevWord + (1 << len)) len v fast
  end.

(** The locals of [em_lsb_huffman_decoder_finalize_table]. *)
Record build := Build {
  b_i : Z; nCanonicalCodeWord : Z; b_fast : list Z; b_start : list Z; nRevCodeLengthTable : list Z }.

(** One symbol of canonical length [len]. *)
Definition assign_symbol (nSymbols : Z) (rev : list Z) (len : Z) (s : build) : res build :=
  if nSymbols <=? b_i s then Fail
  else
    lens ← store (nRevCodeLengthTable s) (b_i s) len;
    if (1 << len) <=? nCanonicalCodeWord s then Fail
    else
      fast ← (if len <=? NFASTSYMBOLBITS then
                sym ← index rev (b_i s);
                fill_slots (Z.to_nat (1 << (NFASTSYMBOLBITS - len)))
                  (reverse_word (nCanonicalCodeWord s) >> (16 - len)) len
                  ((sym .& 0xffffff) .| (len << 24)) (b_fast s)
              else Ok (b_fast s));
      Ok (Build (b_i s + 1) (u32 (nCanonicalCodeWord s + 1)) fast (b_start s) lens).

(** [while (i < nStartingPos[nCanonicalLength])] *)
Fixpoint assign_length (n : nat) (nSymbols : Z) (rev : list Z) (len : Z) (s : build) : res build :=
  match n with
  | O => Ok s
  | S n => s ← assign_symbol nSymbols rev len s; assign_length n nSymbols rev len s
  end.

(** [while (i < nNumSorted)]; the turn with length 16 fails, so sixteen are enough. *)
Fixpoint assign_codes (fuel : nat) (d : em_lsb_huffman_decoder_t) (rev : list Z) (len : Z) (s : build)
  : res build :=
  match fuel with
  | O => Undef NoFuel
  | S fuel =>
      if b_i s <? nNumSorted d then
        if 16 <=? len then Fail
        else
          start ← store (b_start s) len (u32 (b_i s - nCanonicalCodeWord s));
          stop ← index (nStartingPos d) len;
          s ← assign_length (Z.to_nat (stop - b_i s)) (nSymbols d) rev len
                (Build (b_i s) (nCanonicalCodeWord s) (b_fast s) start (nRevCodeLengthTable s));
          assign_codes fuel d rev (len + 1)
            (Build (b_i s) (u32 (nCanonicalCodeWord s << 1)) (b_fast s) (b_start s) (nRevCodeLengthTable s))
      else Ok s
  end.

(** The decoder, the symbols and their lengths. *)
Definition em_lsb_huffman_decoder_finalize_table (d : em_lsb_huffman_decoder_t) (rev : list Z)
  : res (em_lsb_huffman_decoder_t * list Z * list Z) :=
  s ← assign_codes 16 d rev 1
        (Build 0 0 (replicate (Z.to_nat (1 << NFASTSYMBOLBITS)) 0) (replicate 16 0)
           (replicate (Z.to_nat (nSymbols d)) 0));
  '(rev, lens) ← rfor (Z.to_nat (nSymbols d - b_i s)) (b_i s) (fun i '(rev, lens) =>
      rev ← store rev i ERR; lens ← store lens i 0; Ok (rev, lens)) (rev, nRevCodeLengthTable s);
  Ok (Decoder (b_fast s) (b_start s) (nSymbols d) (nNumSorted d) (nStartingPos d), rev, lens).

(** ** Decoding *)

(** A finalized table: the decoder, its symbols and their lengths. *)
Definition table : Type := em_lsb_huffman_decoder_t * list Z * list Z.

(** The bit-by-bit search of the slow path: the table index and the length. *)
Fixpoint slow_search (n : nat) (d : em_lsb_huffman_decoder_t) (lens : list Z) (nBits nCodeWord nStream : Z)
  : res (option (Z * Z)) :=
  match n with
  | O => Ok None
  | S n =>
      let nCodeWord := nCodeWord .| (nStream .& 1) in
      start ← index (nStartIndex d) nBits;
      let nTableIndex := u32 (start + nCodeWord) in
      hit ← (if nTableIndex <? nSymbols d then l ← index lens nTableIndex; Ok (nBits =? l) else Ok false);
      if (hit : bool) then Ok (Some (nTableIndex, nBits))
      else slow_search n d lens (nBits + 1) (u32 (nCodeWord << 1)) (nStream >> 1)
  end.

Section reading.
Context (inp : bytes).

Definition em_lsb_huffman_decoder_read_value (t : table) (r : em_lsb_bitreader_t)
  : res (Z * em_lsb_bitreader_t) :=
  let '(d, rev, lens) := t in
  '(nStream, r) ← em_lsb_bitreader_peek_16bits inp r;
  f ← index (nFastSymbol d) (nStream .& ((1 << NFASTSYMBOLBITS) - 1));
  if truth f then Ok (f .& 0xffffff, em_lsb_bitreader_consume_bits (f >> 24) r)
  else
    h ← slow_search 15 d lens 1 0 nStream;
    match h with
    | Some (i, nBits) => v ← index rev i; Ok (v, em_lsb_bitreader_consume_bits nBits r)
    | None => Ok (ERR, r)
    end.

(** ** Code lengths *)

(** Order in which code lengths are stored. *)
Definition nCodeLenSymIndex : list Z :=
  [16; 17; 18; 0; 8; 7; 9; 6; 10; 5; 11; 4; 12; 3; 13; 2; 14; 1; 15].

Definition em_lsb_huffman_decoder_read_raw_lengths (nLenBits nReadSymbols nSymbols : Z) (pCodeLength : list Z)
    (r : em_lsb_bitreader_t) : res (list Z * em_lsb_bitreader_t) :=
  if bad_counts nReadSymbols nSymbols then Fail
  else
    '(lens, r) ← rfor (Z.to_nat nReadSymbols) 0 (fun i '(lens, r) =>
       '(nLength, r) ← em_lsb_bitreader_get_bits inp nLenBits r;
       if nLength =? ERR then Fail
       else j ← index nCodeLenSymIndex i; lens ← store lens j (u8 nLength); Ok (lens, r)) (pCodeLength, r);
    lens ← rfor (Z.to_nat (nSymbols - nReadSymbols)) nReadSymbols (fun i lens =>
       j ← index nCodeLenSymIndex i; store lens j 0) lens;
    Ok (lens, r).

(** [while (nRunLen && i < nReadSymbols) pCodeLength[i++] = nPrevLength] *)
Fixpoint fill_run (nRunLen : nat) (i nReadSymbols nPrevLength : Z) (lens : list Z) : res (Z * list Z) :=
  match nRunLen with
  | O => Ok (i, lens)
  | S n => if i <? nReadSymbols then
             lens ← store lens i (u8 nPrevLength); fill_run n (i + 1) nReadSymbols nPrevLength lens
           else Ok (i, lens)
  end.

(** A run: its extra bits, its base, and the length it repeats. *)
Definition run_of (nLength nPrevLength : Z) : option (Z * Z * Z) :=
  if nLength =? 16 then Some (2, 3, nPrevLength)
  else if nLength =? 17 then Some (3, 3, 0)
  else if nLength =? 18 then Some (7, 11, 0)
  else None.

Fixpoint var_lengths_loop (fuel : nat) (t : table) (nReadSymbols i nPrevLength : Z) (lens : list Z)
    (r : em_lsb_bitreader_t) : res (list Z * em_lsb_bitreader_t) :=
  match fuel with
  | O => Undef NoFuel
  | S fuel =>
      if i <? nReadSymbols then
        '(nLength, r) ← em_lsb_huffman_decoder_read_value t r;
        if nLength =? ERR then Fail
        else if nLength <? 16 then
          lens ← store lens i (u8 nLength); var_lengths_loop fuel t nReadSymbols (i + 1) nLength lens r
        else
          '(nRunLen, prev, r) ←
            match run_of nLength nPrevLength with
            | Some (bits, base, prev) =>
                '(nExtraRunLen, r) ← em_lsb_bitreader_get_bits inp bits r;
                if nExtraRunLen =? ERR then Fail else Ok (base + nExtraRunLen, prev, r)
            | None => Ok (0, nPrevLength, r)
            end;
          '(i, lens) ← fill_run (Z.to_nat nRunLen) i nReadSymbols prev lens;
          var_lengths_loop fuel t nReadSymbols i prev lens r
      else Ok (lens, r)
  end.

Definition em_lsb_huffman_decoder_read_var_lengths (t : table) (nReadSymbols nSymbols : Z) (pCodeLength : list Z)
    (r : em_lsb_bitreader_t) : res (list Z * em_lsb_bitreader_t) :=
  if (nReadSymbols <? 0) || (nSymbols <? 0) || (nSymbols <? nReadSymbols) then Fail
  else
    '(lens, r) ← var_lengths_loop (S (Z.to_nat nReadSymbols)) t nReadSymbols 0 0 pCodeLength r;
    lens ← rfor (Z.to_nat (nSymbols - nReadSymbols)) nReadSymbols (fun i lens => store lens i 0) lens;
    Ok (lens, r).
End reading.
