(* ===== verification/Canonical.v ===== *)
(** Canonical Huffman codes (RFC 1951, 3.2.2) and the decoder's tables.

    [syms] lists the symbols of one code length, [start] and [first_code] give the
    position and the code word of the first symbol of each length.  The tables that
    [prepare_table] and [finalize_table] build are characterised by them
    ([table_spec]), and decoding by [decode_symbol]. *)
From S2P Require Import Prelude BitReader Huffman.

(** ** Codes from lengths *)

Section code.
(** Code lengths of the symbols 0, 1, ... *)
Context (L : list Z).

(** The symbols among the first [n] whose code has [l] bits, in order. *)
Definition syms (n : nat) (l : nat) : list nat :=
  filter (fun j => L !! j = Some (Z.of_nat l)) (seq 0 n).

(** [bl_count] of the RFC; no code has length 0. *)
Definition cnt (l : nat) : nat := match l with O => 0 | _ => length (syms (length L) l) end.

Fixpoint start (l : nat) : nat := match l with O => 0 | S l => start l + cnt l end.

(** [next_code] of the RFC. *)
Fixpoint first_code (l : nat) : Z :=
  match l with O => 0 | S l => 2 * (first_code l + Z.of_nat (cnt l)) end.

(** The symbols sorted by code length. *)
Definition sorted : list nat := mjoin (map (syms (length L)) (seq 1 15)).

(** The code word of the [r]-th symbol of length [l]. *)
Definition code_word (l r : nat) : Z := first_code l + Z.of_nat r.

(** No length has more codes than fit. *)
Definition complete_enough : Prop := forall l, (1 <= l <= 15)%nat -> first_code l + Z.of_nat (cnt l) <= 2 ^ Z.of_nat l.

Lemma first_code_nonneg l : 0 <= first_code l.
Proof. induction l; cbn [first_code]; lia. Qed.

(** A longer code word starts behind all shorter ones. *)
Lemma first_code_later l d :
  2 ^ Z.of_nat (S d) * (first_code l + Z.of_nat (cnt l)) <= first_code (l + S d).
Proof.
  induction d as [|d IH].
  - rewrite Nat.add_1_r. cbn [first_code]. lia.
  - replace (l + S (S d))%nat with (S (l + S d)) by lia. cbn [first_code].
    rewrite Nat2Z.inj_succ, Z.pow_succ_r by lia. lia.
Qed.

(** No code word is a prefix of another. *)
Lemma prefix_free l r l' r' :
  (r < cnt l)%nat -> (l < l')%nat -> code_word l' r' / 2 ^ Z.of_nat (l' - l) <> code_word l r.
Proof.
  intros Hr Hl E. pose proof (first_code_later l (l' - l - 1)) as H.
  replace (S (l' - l - 1)) with (l' - l)%nat in H by lia. replace (l + (l' - l))%nat with l' in H by lia.
  assert (first_code l + Z.of_nat (cnt l) <= code_word l' r' / 2 ^ Z.of_nat (l' - l)).
  { apply Z.div_le_lower_bound; [lia|]. unfold code_word. lia. }
  unfold code_word in *. lia.
Qed.

Lemma start_mono l l' : (l <= l')%nat -> (start l <= start l')%nat.
Proof. induction 1; cbn [start]; lia. Qed.

(** A position belongs to one length. *)
Lemma position_length l l' i :
  (start l <= i < start l + cnt l)%nat -> (start l' <= i < start l' + cnt l')%nat -> l = l'.
Proof.
  intros H H'. destruct (Nat.lt_trichotomy l l') as [Hl|[Hl|Hl]]; [|done|].
  - pose proof (start_mono (S l) l' Hl). cbn [start] in *. lia.
  - pose proof (start_mono (S l') l Hl). cbn [start] in *. lia.
Qed.

Lemma syms_S n l : syms (S n) l = syms n l ++ (if decide (L !! n = Some (Z.of_nat l)) then [n] else []).
Proof. unfold syms. rewrite seq_S, list.filter_app. cbn. f_equal. Qed.

Lemma syms_mono n n' l : (n <= n')%nat -> (length (syms n l) <= length (syms n' l))%nat.
Proof. induction 1; [done|]. rewrite syms_S, length_app. lia. Qed.

(** Positions taken by the first [n] symbols with codes shorter than [l]. *)
Fixpoint taken (n l : nat) : nat :=
  match l with O => 0 | S m => taken n m + match m with O => 0 | _ => length (syms n m) end end.

Lemma taken_all l : taken (length L) l = start l.
Proof. induction l as [|[|l] IH]; cbn [taken start cnt] in *; lia. Qed.

(** Symbol [n] has a code shorter than [l]. *)
Definition counted (n l : nat) : bool :=
  match L !! n with Some x => bool_decide (1 <= x < Z.of_nat l) | None => false end.

Lemma taken_S n l : taken (S n) l = (taken n l + if counted n l then 1 else 0)%nat.
Proof.
  assert (C : forall l, (counted n l = true <-> exists x, L !! n = Some x /\ 1 <= x < Z.of_nat l)).
  { intros k. unfold counted. destruct (L !! n) as [x|]; [|split; [done|by intros (? & ? & _)]].
    rewrite bool_decide_eq_true. split; [eauto|]. by intros (? & [= ->] & ?). }
  induction l as [|[|l] IH]; cbn [taken] in *.
  - destruct (counted n 0) eqn:E; [|done]. apply C in E as (x & _ & Hx). lia.
  - destruct (counted n 1) eqn:E; [apply C in E as (x & _ & Hx); lia|]. destruct (counted n 0) eqn:E'; [|done].
    apply C in E' as (x & _ & Hx). lia.
  - rewrite IH, syms_S, length_app.
    assert (E : counted n (S (S l)) = counted n (S l) || bool_decide (L !! n = Some (Z.of_nat (S l)))).
    { apply eq_true_iff_eq. rewrite orb_true_iff, !C, bool_decide_eq_true. split.
      - intros (x & Hx & Hr). destruct (decide (x = Z.of_nat (S l))) as [->|]; [by right|].
        left. exists x. split; [done|lia].
      - intros [(x & Hx & Hr)|Hx]; eexists; (split; [done|lia]). }
    rewrite E. destruct (counted n (S l)) eqn:E1; destruct (decide (L !! n = Some (Z.of_nat (S l)))) as [H|H];
      cbn [length orb]; rewrite ?bool_decide_true, ?bool_decide_false by done; try lia.
    apply C in E1 as (x & Hx & Hr). rewrite H in Hx. injection Hx as <-. lia.
Qed.

Lemma taken_le n l : (taken n l <= n)%nat.
Proof.
  induction n as [|n IH].
  - induction l as [|[|l] IHl]; cbn in *; lia.
  - rewrite taken_S. destruct (counted n l); lia.
Qed.

Lemma start_le l : (start l <= length L)%nat.
Proof. rewrite <- taken_all. apply taken_le. Qed.
End code.

(** ** The tables of [prepare_table] *)

Section prepare.
Context (C : list Z) (n : nat) (nSym : Z).
Hypothesis C_nonneg : Forall (fun x => 0 <= x) C.
Hypothesis n_le : (n <= length C)%nat.

Let L := take n C.

(** Some code is too long. *)
Definition too_long : Prop := exists x, x ∈ L /\ 16 <= x.

Lemma length_L : length L = n.
Proof. unfold L. rewrite length_take. lia. Qed.

Lemma read_length F j : 0 <= j < Z.of_nat n ->
  run (index C j) (fun x => L !! Z.to_nat j = Some x /\ 0 <= x) F.
Proof using C_nonneg n_le.
  intros Hj. eapply run_mono; [apply run_index; lia| |done]. cbn. intros x Hx. split.
  - unfold L. by rewrite lookup_take_lt by lia.
  - by eapply Forall_lookup_1 in Hx.
Qed.

Lemma count_lengths_run :
  run (count_lengths (Z.of_nat n) C)
    (fun c => length c = 16%nat /\ Forall (fun x => x < 16) L
       /\ forall l, (l < 16)%nat -> c !! l = Some (Z.of_nat (length (syms L n l))))
    too_long.
Proof using C_nonneg n_le.
  unfold count_lengths. rewrite Nat2Z.id.
  pose (P := fun (i : Z) (c : list Z) => length c = 16%nat
    /\ Forall (fun x => x < 16) (take (Z.to_nat i) L)
    /\ forall l, (l < 16)%nat -> c !! l = Some (Z.of_nat (length (syms L (Z.to_nat i) l)))).
  replace (fun c => _) with (P (0 + Z.of_nat n)).
  2: { unfold P. rewrite Z.add_0_l, Nat2Z.id, take_ge; [done|]. by rewrite length_L. }
  apply run_for; unfold P; clear P.
  - intros j c Hj (Hc & H16 & Hl). eapply run_bind; [apply read_length; lia|]. intros x [Hx Hx0].
    destruct (Z.leb_spec 16 x).
    { exists x. split; [by eapply list_elem_of_lookup_2|done]. }
    eapply run_bind; [apply run_index; lia|]. intros v Hv. rewrite store_ok by lia. cbn.
    replace (Z.to_nat (j + 1)) with (S (Z.to_nat j)) by lia.
    split; [by rewrite length_insert|]. split.
    { rewrite (take_S_r _ _ x Hx). apply Forall_app. split; [done|]. by repeat constructor. }
    intros l Hll. rewrite syms_S, length_app.
    destruct (decide (l = Z.to_nat x)) as [->|Hne].
    + rewrite list_lookup_insert_eq by lia. rewrite Hl in Hv by lia. injection Hv as <-.
      rewrite decide_True by (rewrite Hx; f_equal; lia). cbn. f_equal. lia.
    + rewrite list_lookup_insert_ne by done. rewrite Hl by done.
      rewrite decide_False by (rewrite Hx; intros [= E]; lia). cbn. by rewrite Nat.add_0_r.
  - split; [done|]. split; [constructor|]. intros l Hl. by rewrite lookup_replicate_2.
Qed.

Lemma cnt_syms l : (1 <= l)%nat -> cnt L l = length (syms L n l).
Proof using n_le. intros Hl. unfold cnt. rewrite length_L. by destruct l; [lia|]. Qed.

Lemma starting_positions_run c F :
  length c = 16%nat -> (forall l, (l < 16)%nat -> c !! l = Some (Z.of_nat (length (syms L n l)))) ->
  run (starting_positions c)
    (fun '(pos, s) => length pos = 16%nat /\ s = Z.of_nat (start L 16)
       /\ forall l, (1 <= l < 16)%nat -> pos !! l = Some (Z.of_nat (start L l))) F.
Proof using n_le.
  intros Hc Hl. unfold starting_positions.
  pose (P := fun (i : Z) (st : list Z * Z) => length (fst st) = 16%nat /\ snd st = Z.of_nat (start L (Z.to_nat i))
    /\ forall l, (1 <= l < Z.to_nat i)%nat -> fst st !! l = Some (Z.of_nat (start L l))).
  eapply run_mono; [apply (run_for P)|by intros [pos s]|done].
  - intros j [pos s] Hj (Hp & Hs & Hpl). cbn [fst snd] in *. rewrite store_ok by lia. cbn [mbind res_bind].
    eapply run_bind; [apply run_index; lia|]. intros v Hv. unfold P; cbn [run fst snd].
    rewrite Hl in Hv by lia. injection Hv as <-.
    replace (Z.to_nat (j + 1)) with (S (Z.to_nat j)) by lia.
    split; [by rewrite length_insert|]. split.
    + cbn [start]. rewrite cnt_syms by lia. lia.
    + intros l Hll. destruct (decide (l = Z.to_nat j)) as [->|Hne].
      * rewrite list_lookup_insert_eq by lia. by rewrite Hs.
      * rewrite list_lookup_insert_ne by done. apply Hpl. lia.
  - split; [done|]. split; [done|]. cbn. intros l Hll. lia.
Qed.

(** Position [p] is taken by one of the first [i] symbols. *)
Definition placed (i p : nat) : Prop :=
  exists l r, (1 <= l <= 15)%nat /\ (r < length (syms L i l))%nat /\ p = (start L l + r)%nat.

Record placing (i : nat) (pos rev : list Z) : Prop := {
  pl_pos : length pos = 16%nat;
  pl_rev : Z.of_nat (length rev) = nSym;
  pl_next l : (1 <= l <= 15)%nat -> pos !! l = Some (Z.of_nat (start L l + length (syms L i l)));
  pl_sym l r s : (1 <= l <= 15)%nat -> syms L i l !! r = Some s -> rev !! (start L l + r)%nat = Some (Z.of_nat s);
  pl_free p : (p < length rev)%nat -> ~ placed i p -> rev !! p = Some ERR }.

(** The segments of two lengths do not overlap. *)
Lemma segments_disjoint i l r l' r' :
  (i <= n)%nat -> (1 <= l <= 15)%nat -> (1 <= l' <= 15)%nat ->
  (r < cnt L l)%nat -> (r' < length (syms L i l'))%nat -> (start L l + r)%nat = (start L l' + r')%nat -> l = l'.
Proof using n_le.
  intros Hi Hl Hl' Hr Hr' E. apply (position_length L l l' (start L l + r)); [lia|].
  rewrite cnt_syms by lia. pose proof (syms_mono L i n l' Hi). lia.
Qed.

Lemma placing_step j pos rev x :
  (j < n)%nat -> placing j pos rev -> L !! j = Some x -> 1 <= x <= 15 -> Z.of_nat n <= nSym ->
  exists p, pos !! Z.to_nat x = Some p /\ 0 <= p < nSym
    /\ placing (S j) (<[Z.to_nat x := p + 1]> pos) (<[Z.to_nat p := Z.of_nat j]> rev).
Proof using n_le.
  intros Hj [Hp Hr Hn Hs Hf] Hx Hx1 HnS. set (l := Z.to_nat x).
  assert (Hl : (1 <= l <= 15)%nat) by lia. assert (Hxl : x = Z.of_nat l) by lia.
  set (c := length (syms L j l)).
  assert (Sl : syms L (S j) l = syms L j l ++ [j]) by (rewrite syms_S, decide_True by (by rewrite Hx, Hxl); done).
  assert (So : forall m, m <> l -> syms L (S j) m = syms L j m).
  { intros m Hm. rewrite syms_S, decide_False, app_nil_r; [done|]. rewrite Hx, Hxl. intros [= E]. lia. }
  assert (Hc : (c < cnt L l)%nat).
  { rewrite cnt_syms by lia. pose proof (syms_mono L (S j) n l ltac:(lia)) as H. rewrite Sl, length_app in H. cbn in H. lia. }
  assert (Hroom : (start L l + c < n)%nat).
  { pose proof (start_le L (S l)) as H. cbn [start] in H. rewrite length_L in H. lia. }
  assert (Hother : forall m r, (1 <= m <= 15)%nat -> (r < length (syms L j m))%nat -> (start L m + r)%nat <> (start L l + c)%nat).
  { intros m r Hm Hrm E. assert (l = m) as <- by (eapply (segments_disjoint j); eauto; lia). fold c in Hrm. lia. }
  exists (Z.of_nat (start L l + c)). split; [by apply Hn|]. split; [lia|]. rewrite Nat2Z.id. split.
  - by rewrite length_insert.
  - by rewrite length_insert.
  - intros m Hm. destruct (decide (m = l)) as [->|Hne].
    + rewrite list_lookup_insert_eq by lia. rewrite Sl, length_app. cbn. f_equal. fold c. lia.
    + rewrite list_lookup_insert_ne by done. rewrite So by done. by apply Hn.
  - intros m r s Hm Hms. destruct (decide (m = l)) as [->|Hne].
    + rewrite Sl in Hms. apply lookup_app_Some in Hms as [Hms|[Hge Hms]].
      * assert (r < c)%nat by (by apply lookup_lt_Some in Hms). rewrite list_lookup_insert_ne by lia. by apply Hs.
      * apply list_lookup_singleton_Some in Hms as [Hr0 <-]. fold c in Hr0, Hge.
        replace r with c by lia. rewrite list_lookup_insert_eq by lia. done.
    + rewrite So in Hms by done. rewrite list_lookup_insert_ne; [by apply Hs|].
      apply not_eq_sym, Hother; [done|]. by apply lookup_lt_Some in Hms.
  - intros p Hpl Hnp. rewrite length_insert in Hpl. rewrite list_lookup_insert_ne.
    + apply Hf; [done|]. intros (m & r & Hm & Hrm & ->). apply Hnp. exists m, r. split; [done|]. split; [|done].
      pose proof (syms_mono L j (S j) m ltac:(lia)). lia.
    + intros <-. apply Hnp. exists l, c. split; [done|]. split; [|done]. rewrite Sl, length_app. cbn. fold c. lia.
Qed.

Lemma place_symbols_run pos F :
  length pos = 16%nat -> (forall l, (1 <= l < 16)%nat -> pos !! l = Some (Z.of_nat (start L l))) ->
  Forall (fun x => x < 16) L -> Z.of_nat n <= nSym ->
  run (place_symbols (Z.of_nat n) C pos (replicate (Z.to_nat nSym) ERR)) (fun '(pos, rev) => placing n pos rev) F.
Proof using C_nonneg n_le.
  intros Hp Hl H16 HnS. unfold place_symbols. rewrite Nat2Z.id.
  pose (P := fun (i : Z) (st : list Z * list Z) => placing (Z.to_nat i) (fst st) (snd st)).
  eapply run_mono; [apply (run_for P)| |done].
  - intros j [ps rv] Hj HP. cbn [fst snd] in *. unfold P in HP. cbn [fst snd] in HP.
    eapply run_bind; [apply read_length; lia|]. intros x [Hx Hx0].
    assert (x < 16) by exact (Forall_lookup_1 _ _ _ _ H16 Hx). unfold P.
    replace (Z.to_nat (j + 1)) with (S (Z.to_nat j)) by lia.
    unfold truth. destruct (Z.eqb_spec x 0) as [->|Hne]; cbn [negb run fst snd].
    + assert (So : forall m, (1 <= m)%nat -> syms L (S (Z.to_nat j)) m = syms L (Z.to_nat j) m).
      { intros m Hm. rewrite syms_S, decide_False, app_nil_r; [done|]. rewrite Hx. intros [= E]. lia. }
      destruct HP as [H1 H2 H3 H4 H5]. split; try done.
      * intros l Hll. rewrite So by lia. by apply H3.
      * intros l r s Hll. rewrite So by lia. apply H4; lia.
      * intros p Hpp Hnp. apply H5; [done|]. intros (l & r & Hll & Hr & ->). apply Hnp.
        exists l, r. rewrite So by lia. done.
    + destruct (placing_step (Z.to_nat j) ps rv x) as (p & Hpx & Hpr & HS); [lia|done|done|lia|done|].
      rewrite (index_some ps x p) by (done || lia). cbn [mbind res_bind].
      pose proof (pl_rev _ _ _ HP). pose proof (pl_pos _ _ _ HP).
      rewrite store_ok by lia. cbn [mbind res_bind]. rewrite store_ok by lia. cbn [mbind res_bind run fst snd].
      rewrite Z2Nat.id in HS by lia. exact HS.
  - unfold P. cbn [fst snd]. split; [done|rewrite length_replicate; lia| | |].
    + intros l Hll. cbn. rewrite Nat.add_0_r. apply Hl. lia.
    + intros l r s Hll Hrs. by destruct r.
    + intros p Hpp _. rewrite length_replicate in Hpp. by apply lookup_replicate_2.
  - intros [ps rv] HP. unfold P in HP. by rewrite Z.add_0_l, Nat2Z.id in HP.
Qed.

(** What [prepare_table] leaves in the decoder and the symbol table. *)
Record prepared (d : em_lsb_huffman_decoder_t) (rev : list Z) : Prop := {
  pr_symbols : nSymbols d = nSym;
  pr_sorted : nNumSorted d = Z.of_nat (start L 16);
  pr_pos_len : length (nStartingPos d) = 16%nat;
  pr_pos l : (1 <= l <= 15)%nat -> nStartingPos d !! l = Some (Z.of_nat (start L (S l)));
  pr_rev_len : Z.of_nat (length rev) = nSym;
  pr_rev l r s : (1 <= l <= 15)%nat -> syms L n l !! r = Some s -> rev !! (start L l + r)%nat = Some (Z.of_nat s);
  pr_free p : (start L 16 <= p < length rev)%nat -> rev !! p = Some ERR }.

Lemma prepare_run F :
  Z.of_nat n <= nSym <= MAX_SYMBOLS -> (too_long -> F) ->
  run (em_lsb_huffman_decoder_prepare_table (Z.of_nat n) nSym C) (fun '(d, rev) => prepared d rev) F.
Proof using C_nonneg n_le.
  intros Hn HF. unfold em_lsb_huffman_decoder_prepare_table, MAX_SYMBOLS in *.
  replace (bad_counts (Z.of_nat n) nSym) with false.
  2: { symmetry. unfold bad_counts, MAX_SYMBOLS. zbool. lia. }
  eapply run_bind; [eapply run_mono; [apply count_lengths_run|done|done]|]. intros c (Hc & H16 & Hl).
  eapply run_bind; [by apply starting_positions_run|]. intros [pos s] (Hp & -> & Hpl).
  eapply run_bind; [apply place_symbols_run; [done..|lia]|]. intros [pos' rev] [H1 H2 H3 H4 H5]. cbn [run].
  split; cbn [nSymbols nNumSorted nStartingPos]; try done.
  - intros l Hll. rewrite H3 by done. cbn [start]. by rewrite (cnt_syms l) by lia.
  - intros p Hpp. apply H5; [lia|]. intros (l & r & Hll & Hr & ->).
    rewrite <- cnt_syms in Hr by lia. pose proof (start_mono L (S l) 16 ltac:(lia)) as Hm. cbn [start] in Hm, Hpp. lia.
Qed.
End prepare.

(** ** Code words as bits *)

(** The low [l] bits of [c], most significant first: the order in the stream. *)
Fixpoint cbits (l : nat) (c : Z) : list bool :=
  match l with O => [] | S l => Z.testbit c (Z.of_nat l) :: cbits l c end.

Lemma length_cbits l c : length (cbits l c) = l.
Proof. induction l; cbn; auto. Qed.

Lemma take_cbits l k c : take l (cbits (k + l) c) = cbits l (c >> Z.of_nat k).
Proof.
  induction l as [|l IH]; [done|]. rewrite Nat.add_succ_r. cbn [cbits take]. rewrite IH. f_equal.
  rewrite Z.shiftr_spec by lia. f_equal. lia.
Qed.

Lemma cbits_inj l a b : cbits l a = cbits l b -> 0 <= a < 2 ^ Z.of_nat l -> 0 <= b < 2 ^ Z.of_nat l -> a = b.
Proof.
  intros E Ha Hb. rewrite <- (Z.mod_small a (2 ^ Z.of_nat l)), <- (Z.mod_small b (2 ^ Z.of_nat l)) by done. clear Ha Hb.
  apply Z.bits_inj'. intros i Hi. destruct (Z.lt_ge_cases i (Z.of_nat l)) as [Hil|Hil].
  2: { by rewrite !Z.mod_pow2_bits_high by lia. }
  rewrite !Z.mod_pow2_bits_low by lia. revert E i Hi Hil. induction l as [|l IH]; intros E i Hi Hil; [lia|].
  cbn in E. injection E as E1 E2. destruct (decide (i = Z.of_nat l)) as [->|]; [done|]. apply IH; [done|done|lia].
Qed.

Lemma lsb_val_inj a : forall b, length a = length b -> lsb_val a = lsb_val b -> a = b.
Proof.
  induction a as [|x a IH]; intros [|y b] Hl E; try done. injection Hl as Hl. cbn [lsb_val] in E.
  assert (x = y) as -> by (destruct x, y; cbn [b2z] in E; try done; lia).
  f_equal. apply IH; [done|]. lia.
Qed.

(** The stream bits [w] start with the code word [c] of [l] bits. *)
Definition hits (l : nat) (c w : Z) : Prop := w mod 2 ^ Z.of_nat l = lsb_val (cbits l c).

Lemma hits_prefix k l c c' w :
  0 <= c < 2 ^ Z.of_nat (k + l) -> 0 <= c' < 2 ^ Z.of_nat l ->
  hits (k + l) c w -> hits l c' w -> c / 2 ^ Z.of_nat k = c'.
Proof.
  unfold hits. intros Hc Hc' H H'.
  assert (E : lsb_val (take l (cbits (k + l) c)) = lsb_val (cbits l c')).
  { rewrite <- H', <- lsb_val_take by (rewrite length_cbits; lia). rewrite <- H.
    rewrite Nat2Z.inj_add, Z.pow_add_r, Z.mul_comm by lia.
    rewrite Z.rem_mul_r by lia. rewrite Z.add_mod, (Z.mul_comm (2 ^ _)), Z.mod_mul, Z.add_0_r by lia.
    by rewrite !Z.mod_mod by lia. }
  apply lsb_val_inj in E; [|rewrite length_take, !length_cbits; lia].
  rewrite take_cbits in E. rewrite <- Z.shiftr_div_pow2 by lia. apply (cbits_inj l); [done| |done].
  rewrite Z.shiftr_div_pow2 by lia. split; [apply Z.div_pos; lia|].
  apply Z.div_lt_upper_bound; [lia|]. rewrite <- Z.pow_add_r by lia.
  rewrite Nat2Z.inj_add in Hc. lia.
Qed.

(** The code of the decoder that turns a code word upside down. *)
Lemma reverse_word_check :
  forallb (fun l => forallb (fun c =>
    (reverse_word (Z.of_nat c) >> (16 - Z.of_nat l)) =? lsb_val (cbits l (Z.of_nat c))) (seq 0 (2 ^ l))) (seq 1 10) = true.
Proof. vm_compute. reflexivity. Qed.

Lemma reverse_word_bits l c :
  (1 <= l <= 10)%nat -> 0 <= c < 2 ^ Z.of_nat l -> reverse_word c >> (16 - Z.of_nat l) = lsb_val (cbits l c).
Proof.
  intros Hl Hc. pose proof reverse_word_check as H. rewrite forallb_forall in H.
  specialize (H l ltac:(apply in_seq; lia)). cbv beta in H. rewrite forallb_forall in H.
  specialize (H (Z.to_nat c)). rewrite Z2Nat.id in H by lia. apply Z.eqb_eq, H, in_seq.
  split; [lia|]. assert (Z.of_nat (2 ^ l) = 2 ^ Z.of_nat l) by (by rewrite Nat2Z.inj_pow). lia.
Qed.

(** ** The tables of [finalize_table] *)

Lemma fill_slots_run l v F k : forall w fast,
  0 <= w -> w + Z.of_nat k * 2 ^ Z.of_nat l < Z.of_nat (length fast) + 2 ^ Z.of_nat l ->
  run (fill_slots k w (Z.of_nat l) v fast) (fun f => length f = length fast
    /\ (forall t, (t < k)%nat -> f !! Z.to_nat (w + Z.of_nat t * 2 ^ Z.of_nat l) = Some v)
    /\ (forall i, (forall t, (t < k)%nat -> Z.of_nat i <> w + Z.of_nat t * 2 ^ Z.of_nat l) -> f !! i = fast !! i)) F.
Proof.
  induction k as [|k IH]; intros w fast Hw Hb; cbn [fill_slots].
  { cbn. split; [done|]. split; [intros; lia|done]. }
  set (s := 2 ^ Z.of_nat l) in *. assert (Hs : 0 < s) by (unfold s; lia).
  rewrite store_ok by nia. cbn [mbind res_bind]. rewrite Z.shiftl_1_l. fold s.
  eapply run_mono; [apply IH; rewrite ?length_insert; fold s; lia| |done].
  intros f (Hl & Hin & Hout). rewrite length_insert in Hl. split; [done|]. split.
  - intros [|t] Ht.
    + rewrite Hout; [|intros t Ht'; fold s; nia].
      rewrite Z.mul_0_l, Z.add_0_r. rewrite list_lookup_insert_eq; [done|]. nia.
    + rewrite <- (Hin t) by lia. f_equal. fold s. lia.
  - intros i Hi. rewrite Hout; [|intros t Ht E; apply (Hi (S t)); [lia|]; fold s in E; lia].
    apply list_lookup_insert_ne. intros <-. apply (Hi 0%nat); lia.
Qed.

Lemma fill_hits l w0 v F fast :
  (l <= 10)%nat -> 0 <= w0 < 2 ^ Z.of_nat l -> length fast = 1024%nat ->
  run (fill_slots (Z.to_nat (1 << (NFASTSYMBOLBITS - Z.of_nat l))) w0 (Z.of_nat l) v fast)
    (fun f => length f = 1024%nat /\ forall i : nat, (i < 1024)%nat ->
       f !! i = if decide (Z.of_nat i mod 2 ^ Z.of_nat l = w0) then Some v else fast !! i) F.
Proof.
  intros Hl Hw Hf. set (k := Z.to_nat _). set (s := 2 ^ Z.of_nat l) in *.
  assert (Hk : Z.of_nat k * s = 1024).
  { unfold k, s, NFASTSYMBOLBITS. rewrite Z.shiftl_1_l, Z2Nat.id by lia. rewrite <- Z.pow_add_r by lia.
    by replace (10 - Z.of_nat l + Z.of_nat l) with 10 by lia. }
  eapply run_mono; [apply fill_slots_run; fold s; lia| |done].
  intros f (Hlf & Hin & Hout). fold s in Hin, Hout. split; [lia|]. intros i Hi. assert (0 < s) by lia.
  case_decide as Hd.
  - pose proof (Z.div_mod (Z.of_nat i) s ltac:(lia)) as Hdm. rewrite Hd in Hdm.
    assert (0 <= Z.of_nat i / s) by (apply Z.div_pos; lia).
    rewrite <- (Hin (Z.to_nat (Z.of_nat i / s))); [f_equal; lia|].
    assert (Z.of_nat i / s < Z.of_nat k); [|lia]. apply Z.div_lt_upper_bound; lia.
  - apply Hout. intros t Ht E. apply Hd. rewrite E. rewrite Z.mod_add by lia. by apply Z.mod_small.
Qed.

Section finalize.
Context (L : list Z).

(** Symbol [r'] of length [l'] comes before position [p] of the sorted symbols. *)
Definition before (p l' r' : nat) : Prop :=
  (1 <= l' <= 15)%nat /\ (r' < cnt L l')%nat /\ (start L l' + r' < p)%nat.

Lemma before_S p l' r' : before (S p) l' r' -> before p l' r' \/ (start L l' + r')%nat = p.
Proof. intros (H1 & H2 & H3). destruct (decide (start L l' + r' = p)%nat); [by right|left]. split; [done|]. split; [done|lia]. Qed.

Lemma before_mono p l' r' : before p l' r' -> before (S p) l' r'.
Proof. intros (H1 & H2 & H3). split; [done|]. split; [done|lia]. Qed.

(** An earlier position has no longer code. *)
Lemma before_shorter l r l' r' : (r < cnt L l)%nat -> before (start L l + r) l' r' -> (l' <= l)%nat.
Proof.
  intros Hr (H1 & H2 & H3). destruct (Nat.le_gt_cases l' l) as [|Hlt]; [done|].
  pose proof (start_mono L (S l) l' Hlt) as Hm. cbn [start] in Hm. lia.
Qed.

Lemma code_word_nonneg l r : 0 <= code_word L l r.
Proof. unfold code_word. pose proof (first_code_nonneg L l). lia. Qed.

(** Two code words that start the same stream are the same. *)
Lemma hits_unique l r l' r' w :
  (1 <= l)%nat -> (r < cnt L l)%nat -> before (start L l + r) l' r' ->
  code_word L l r < 2 ^ Z.of_nat l -> code_word L l' r' < 2 ^ Z.of_nat l' ->
  hits l (code_word L l r) w -> hits l' (code_word L l' r') w -> False.
Proof.
  intros Hl Hr Hb Hf Hf' H H'. pose proof (before_shorter l r l' r' Hr Hb) as Hle.
  pose proof (code_word_nonneg l r). pose proof (code_word_nonneg l' r'). destruct Hb as (Hl' & Hr' & Hp).
  pose proof (hits_prefix (l - l') l' (code_word L l r) (code_word L l' r') w) as E.
  replace (l - l' + l')%nat with l in E by lia. specialize (E ltac:(lia) ltac:(lia) H H').
  destruct (decide (l = l')) as [<-|Hne].
  - rewrite Nat.sub_diag, Z.div_1_r in E. unfold code_word in E. lia.
  - apply (prefix_free L l' r' l r); [done|lia|done].
Qed.

Lemma before_start l l' r' : before (start L l) l' r' -> (l' < l)%nat.
Proof.
  intros (H1 & H2 & H3). destruct (Nat.lt_ge_cases l' l) as [|Hge]; [done|].
  pose proof (start_mono L l l' Hge). lia.
Qed.

Context (nSym : Z) (rev : list Z).
Hypothesis L_le : Z.of_nat (length L) <= nSym <= MAX_SYMBOLS.
Hypothesis rev_len : Z.of_nat (length rev) = nSym.

(** The entry of the fast table for position [p] of length [l]. *)
Definition fast_entry (l p : nat) : Z := (nth p rev 0 .& 0xffffff) .| (Z.of_nat l << 24).

(** The tables after the symbols before position [p]. *)
Record building (p : nat) (fast start_index lens : list Z) : Prop := {
  bu_fast_len : length fast = 1024%nat;
  bu_lens_len : Z.of_nat (length lens) = nSym;
  bu_start_len : length start_index = 16%nat;
  bu_start_range : Forall (fun x => 0 <= x < 2 ^ 32) start_index;
  bu_lens l r : before p l r -> lens !! (start L l + r)%nat = Some (Z.of_nat l);
  bu_lens_free i : (p <= i < length lens)%nat -> lens !! i = Some 0;
  bu_start l r : before p l r -> start_index !! l = Some (u32 (Z.of_nat (start L l) - first_code L l));
  bu_fits l r : before p l r -> code_word L l r < 2 ^ Z.of_nat l;
  bu_fast l r w : before p l r -> (l <= 10)%nat -> (w < 1024)%nat -> hits l (code_word L l r) (Z.of_nat w) ->
    fast !! w = Some (fast_entry l (start L l + r));
  bu_slow w : (w < 1024)%nat -> fast !! w = Some 0 \/ exists l r, before p l r /\ (l <= 10)%nat
    /\ hits l (code_word L l r) (Z.of_nat w) /\ fast !! w = Some (fast_entry l (start L l + r)) }.

Lemma nth_index p : (p < length rev)%nat -> index rev (Z.of_nat p) = Ok (nth p rev 0).
Proof.
  intros Hp. apply index_some; [lia|]. rewrite Nat2Z.id. destruct (lookup_lt_is_Some_2 rev p Hp) as [x Hx].
  rewrite Hx. f_equal. symmetry. by apply nth_lookup_Some.
Qed.

#[local] Instance hits_dec l c w : Decision (hits l c w).
Proof. unfold hits. apply _. Defined.

(** One more symbol in the tables. *)
Lemma building_step l r fast st lens f :
  (1 <= l <= 15)%nat -> (r < cnt L l)%nat -> code_word L l r < 2 ^ Z.of_nat l ->
  building (start L l + r) fast st lens ->
  st !! l = Some (u32 (Z.of_nat (start L l) - first_code L l)) ->
  length f = 1024%nat ->
  (forall w, (w < 1024)%nat -> f !! w = if decide ((l <= 10)%nat /\ hits l (code_word L l r) (Z.of_nat w))
     then Some (fast_entry l (start L l + r)) else fast !! w) ->
  building (S (start L l + r)) f st (<[(start L l + r)%nat := Z.of_nat l]> lens).
Proof using L_le.
  intros Hl Hr Hfit [B1 B2 B3 B4 B5 B6 B7 B8 B9 B10] Hst Hf Hfw.
  set (p := (start L l + r)%nat) in *. assert (Hp : (p < length lens)%nat).
  { pose proof (start_le L (S l)) as H. cbn [start] in H. lia. }
  assert (Hcur : before (S p) l r) by (split; [done|]; split; [done|lia]).
  assert (Hlast : forall l' r', before (S p) l' r' -> (start L l' + r')%nat = p -> l' = l /\ r' = r).
  { intros l' r' (H1 & H2 & H3) E. assert (l' = l) as -> by (apply (position_length L l' l p); lia). lia. }
  split; try done.
  - by rewrite length_insert.
  - intros l' r' Hb. destruct (decide (start L l' + r' = p)%nat) as [E|Hne].
    + destruct (Hlast l' r' Hb E) as [-> ->]. by rewrite list_lookup_insert_eq.
    + rewrite list_lookup_insert_ne by lia. apply B5. destruct (before_S _ _ _ Hb) as [|]; done.
  - intros i Hi. rewrite length_insert in Hi. rewrite list_lookup_insert_ne by lia. apply B6. lia.
  - intros l' r' Hb. destruct (before_S _ _ _ Hb) as [Hb'|E]; [by eapply B7|].
    by destruct (Hlast l' r' Hb E) as [-> ->].
  - intros l' r' Hb. destruct (before_S _ _ _ Hb) as [Hb'|E]; [by eapply B8|].
    by destruct (Hlast l' r' Hb E) as [-> ->].
  - intros l' r' w Hb Hl' Hw Hh. rewrite Hfw by done. destruct (before_S _ _ _ Hb) as [Hb'|E].
    + rewrite decide_False; [by apply B9|]. intros [_ Hh'].
      apply (hits_unique l r l' r' (Z.of_nat w)); try done; [lia|by eapply B8].
    + destruct (Hlast l' r' Hb E) as [-> ->]. by rewrite decide_True.
  - intros w Hw. rewrite Hfw by done.
    destruct (decide ((l <= 10)%nat /\ hits l (code_word L l r) (Z.of_nat w))) as [Hd|Hd].
    + right. exists l, r. destruct Hd as [Hd1 Hd2]. split; [exact Hcur|]. split; [exact Hd1|]. split; [exact Hd2|reflexivity].
    + destruct (B10 w Hw) as [|(l' & r' & Hb & H1 & H2 & H3)]; [by left|]. right. exists l', r'.
      split; [by apply before_mono|]. done.
Qed.

Lemma assign_symbol_run l r s F :
  (1 <= l <= 15)%nat -> (r < cnt L l)%nat ->
  b_i s = Z.of_nat (start L l + r) -> nCanonicalCodeWord s = code_word L l r ->
  building (start L l + r) (b_fast s) (b_start s) (nRevCodeLengthTable s) ->
  b_start s !! l = Some (u32 (Z.of_nat (start L l) - first_code L l)) ->
  (2 ^ Z.of_nat l <= code_word L l r -> F) ->
  run (assign_symbol nSym rev (Z.of_nat l) s) (fun s' =>
    b_i s' = Z.of_nat (start L l + S r) /\ nCanonicalCodeWord s' = code_word L l (S r)
    /\ building (start L l + S r) (b_fast s') (b_start s') (nRevCodeLengthTable s') /\ b_start s' = b_start s) F.
Proof using L_le rev_len.
  intros Hl Hr Hi Hc HB Hst HF. unfold MAX_SYMBOLS in *.
  pose proof (start_le L (S l)) as Hroom. cbn [start] in Hroom.
  unfold assign_symbol. rewrite Hi, Hc. destruct (Z.leb_spec nSym (Z.of_nat (start L l + r))); [lia|].
  rewrite store_ok by (rewrite (bu_lens_len _ _ _ _ HB); lia). cbn [mbind res_bind]. rewrite Z.shiftl_1_l.
  destruct (Z.leb_spec (2 ^ Z.of_nat l) (code_word L l r)) as [Hbig|Hfit]; [by apply HF|].
  pose proof (code_word_nonneg l r) as H0.
  assert (Hp15 : 2 ^ Z.of_nat l <= 2 ^ 15) by (apply Z.pow_le_mono_r; lia).
  rewrite Nat2Z.id. replace (start L l + S r)%nat with (S (start L l + r)) by lia.
  eapply run_bind with (Q := fun f => building (S (start L l + r)) f (b_start s)
    (<[(start L l + r)%nat := Z.of_nat l]> (nRevCodeLengthTable s))).
  2: { intros f Hf. cbn [run b_i nCanonicalCodeWord b_fast b_start nRevCodeLengthTable].
       rewrite u32_small by lia. unfold code_word. split; [lia|]. split; [lia|done]. }
  destruct (Z.leb_spec (Z.of_nat l) NFASTSYMBOLBITS) as [Hfast|Hslow]; unfold NFASTSYMBOLBITS in *.
  - rewrite nth_index by lia. cbn [mbind res_bind]. rewrite reverse_word_bits by lia.
    eapply run_mono; [apply (fill_hits l); [lia| |apply (bu_fast_len _ _ _ _ HB)]| |done].
    + pose proof (lsb_val_range (cbits l (code_word L l r))) as H1. by rewrite length_cbits in H1.
    + intros f [Hlf Hf]. eapply building_step; eauto. intros w Hw. rewrite Hf by done. unfold hits.
      case_decide as H1; case_decide as H2; try done; [exfalso; apply H2; split; [lia|done]|by destruct H2].
  - cbn [run]. eapply building_step; eauto; [apply (bu_fast_len _ _ _ _ HB)|].
    intros w Hw. rewrite decide_False; [done|]. lia.
Qed.

(** A code word that does not fit its length. *)
Definition oversubscribed : Prop :=
  exists l r, (1 <= l <= 15)%nat /\ (r < cnt L l)%nat /\ 2 ^ Z.of_nat l <= code_word L l r.

Lemma assign_length_run l k : forall r s,
  (1 <= l <= 15)%nat -> (r + k = cnt L l)%nat ->
  b_i s = Z.of_nat (start L l + r) -> nCanonicalCodeWord s = code_word L l r ->
  building (start L l + r) (b_fast s) (b_start s) (nRevCodeLengthTable s) ->
  b_start s !! l = Some (u32 (Z.of_nat (start L l) - first_code L l)) ->
  run (assign_length k nSym rev (Z.of_nat l) s) (fun s' =>
    b_i s' = Z.of_nat (start L (S l)) /\ nCanonicalCodeWord s' = code_word L l (cnt L l)
    /\ building (start L (S l)) (b_fast s') (b_start s') (nRevCodeLengthTable s')) oversubscribed.
Proof using L_le rev_len.
  induction k as [|k IH]; intros r s Hl Hk Hi Hc HB Hst; cbn [assign_length].
  { cbn [run start]. rewrite Nat.add_0_r in Hk. by rewrite <- Hk. }
  eapply run_bind; [apply (assign_symbol_run l r); try done; [lia|]|].
  - intros Hbig. exists l, r. split; [done|]. split; [lia|done].
  - intros s' (Hi' & Hc' & HB' & Hst'). apply (IH (S r)); try done; [lia|]. by rewrite Hst'.
Qed.

(** The start index of a length is set before its first symbol. *)
Lemma building_set_start l fast st lens v :
  0 <= v < 2 ^ 32 -> building (start L l) fast st lens -> building (start L l) fast (<[l := v]> st) lens.
Proof.
  intros Hv [B1 B2 B3 B4 B5 B6 B7 B8 B9 B10]. split; try done.
  - by rewrite length_insert.
  - by apply Forall_insert.
  - intros l' r' Hb. rewrite list_lookup_insert_ne; [by eapply B7|]. pose proof (before_start _ _ _ Hb). lia.
Qed.

Lemma assign_codes_run d fuel : forall l s,
  nSymbols d = nSym -> nNumSorted d = Z.of_nat (start L 16) ->
  (forall l, (1 <= l <= 15)%nat -> nStartingPos d !! l = Some (Z.of_nat (start L (S l)))) ->
  (1 <= l)%nat -> (l + fuel = 17)%nat ->
  b_i s = Z.of_nat (start L l) -> nCanonicalCodeWord s = first_code L l -> first_code L l <= 2 ^ Z.of_nat l ->
  building (start L l) (b_fast s) (b_start s) (nRevCodeLengthTable s) ->
  (l <= 16)%nat ->
  run (assign_codes fuel d rev (Z.of_nat l) s) (fun s' =>
    b_i s' = Z.of_nat (start L 16) /\ building (start L 16) (b_fast s') (b_start s') (nRevCodeLengthTable s'))
    oversubscribed.
Proof using L_le rev_len.
  induction fuel as [|fuel IH]; intros l s Hs Hn Hpos Hl1 Hfuel Hi Hc Hfc HB Hl16; [lia|].
  cbn [assign_codes]. rewrite Hi, Hn.
  destruct (Z.ltb_spec (Z.of_nat (start L l)) (Z.of_nat (start L 16))) as [Hlt|Hge].
  2: { cbn [run]. pose proof (start_mono L l 16 Hl16). assert (E : start L l = start L 16) by lia.
       rewrite <- E. done. }
  destruct (decide (l = 16)%nat) as [->|Hne]; [lia|]. destruct (Z.leb_spec 16 (Z.of_nat l)); [lia|].
  pose proof (bu_start_len _ _ _ _ HB) as Hsl. rewrite store_ok by lia. cbn [mbind res_bind].
  rewrite (index_some (nStartingPos d) (Z.of_nat l) (Z.of_nat (start L (S l)))) by (rewrite ?Nat2Z.id; auto with lia).
  cbn [mbind res_bind start]. rewrite Hs, Nat2Z.id.
  replace (Z.to_nat (Z.of_nat (start L l + cnt L l) - Z.of_nat (start L l))) with (cnt L l) by lia.
  eapply run_bind; [apply (assign_length_run l (cnt L l) 0); cbn [b_i nCanonicalCodeWord b_fast b_start nRevCodeLengthTable]|].
  - lia.
  - lia.
  - by rewrite Nat.add_0_r.
  - rewrite Hc. unfold code_word. lia.
  - rewrite Nat.add_0_r. apply building_set_start; [apply u32_range|done].
  - rewrite list_lookup_insert_eq by lia. by rewrite Hc.
  - intros s' (Hi' & Hc' & HB').
    assert (Hfit : first_code L l + Z.of_nat (cnt L l) <= 2 ^ Z.of_nat l).
    { destruct (cnt L l) as [|m] eqn:Ec; [lia|].
      pose proof (bu_fits _ _ _ _ HB' l m) as Hm. cbn [start] in Hm. unfold code_word in Hm.
      assert (before (start L l + cnt L l) l m) by (split; [lia|]; lia). rewrite Ec in *. specialize (Hm ltac:(done)). lia. }
    assert (2 ^ Z.of_nat l <= 2 ^ 15) by (apply Z.pow_le_mono_r; lia).
    pose proof (first_code_nonneg L l).
    replace (Z.of_nat l + 1) with (Z.of_nat (S l)) by lia.
    apply IH; cbn [b_i nCanonicalCodeWord b_fast b_start nRevCodeLengthTable]; try done; try lia.
    + rewrite Hc'. unfold code_word. rewrite Z.shiftl_mul_pow2, u32_small by lia. cbn [first_code]. lia.
    + cbn [first_code]. rewrite Nat2Z.inj_succ, Z.pow_succ_r by lia. lia.
Qed.

(** A finalized table decodes the code of [L] to the symbols [rev]. *)
Definition table_spec (t : table) : Prop :=
  let '(d, rev', lens) := t in
  building (start L 16) (nFastSymbol d) (nStartIndex d) lens
  /\ nSymbols d = nSym /\ Z.of_nat (length rev') = nSym
  /\ forall p, (p < start L 16)%nat -> rev' !! p = rev !! p.

Lemma finalize_run d :
  nSymbols d = nSym -> nNumSorted d = Z.of_nat (start L 16) ->
  (forall l, (1 <= l <= 15)%nat -> nStartingPos d !! l = Some (Z.of_nat (start L (S l)))) ->
  run (em_lsb_huffman_decoder_finalize_table d rev) table_spec oversubscribed.
Proof using L_le rev_len.
  intros Hs Hn Hpos. unfold em_lsb_huffman_decoder_finalize_table.
  pose proof (start_le L 16) as Hst.
  eapply run_bind; [apply (assign_codes_run d 16 1); try done; cbn [b_i nCanonicalCodeWord b_fast b_start nRevCodeLengthTable]|].
  - split; try done.
    + rewrite length_replicate, Hs. lia.
    + apply Forall_replicate. lia.
    + intros l r (H1 & H2 & H3). cbn in H3. lia.
    + intros i Hi. rewrite length_replicate in Hi. apply lookup_replicate_2. lia.
    + intros l r (H1 & H2 & H3). cbn in H3. lia.
    + intros l r (H1 & H2 & H3). cbn in H3. lia.
    + intros l r w (H1 & H2 & H3). cbn in H3. lia.
    + intros w Hw. left. by apply lookup_replicate_2.
  - lia.
  - intros s [Hi HB]. rewrite Hi, Hs.
    pose (P := fun (i : Z) (st : list Z * list Z) => Z.of_nat (length (fst st)) = nSym
      /\ Forall2 eq (snd st) (nRevCodeLengthTable s) /\ (forall p, (p < start L 16)%nat -> fst st !! p = rev !! p)).
    eapply run_bind; [apply (run_for P)|].
    + intros j [rv ln] Hj (H1 & H2 & H3). cbn [fst snd] in *. pose proof (bu_lens_len _ _ _ _ HB).
      apply Forall2_length in H2 as Hlen. rewrite store_ok by lia. cbn [mbind res_bind].
      rewrite store_ok by lia. cbn [mbind res_bind run]. unfold P. cbn [fst snd]. apply list_eq_Forall2 in H2 as ->.
      split; [by rewrite length_insert|]. split.
      * apply list_eq_Forall2. apply list_insert_id. apply (bu_lens_free _ _ _ _ HB). lia.
      * intros p Hp. rewrite list_lookup_insert_ne by lia. by apply H3.
    + unfold P. cbn [fst snd]. split; [done|]. split; [by apply list_eq_Forall2|done].
    + intros [rv ln] (H1 & H2 & H3). cbn [fst snd] in *. apply list_eq_Forall2 in H2 as ->. cbn [run table_spec nFastSymbol nStartIndex nSymbols]. done.
Qed.
End finalize.

(** ** Decoding a symbol *)

(** The number the first [m] bits of the stream [v] spell, most significant first. *)
Fixpoint spelled (m : nat) (v : Z) : Z :=
  match m with O => 0 | S m => 2 * spelled m v + ((v >> Z.of_nat m) .& 1) end.

Lemma bit_of v i : (v >> i) .& 1 = b2z (Z.testbit v i).
Proof.
  change 1 with (Z.ones 1) at 1. rewrite land_ones_mod by lia. change (2 ^ 1) with 2. rewrite Zmod_odd.
  rewrite <- Z.bit0_odd, Z.shiftr_spec, Z.add_0_l by lia. by destruct (Z.testbit v i).
Qed.

Lemma spelled_range m v : 0 <= spelled m v < 2 ^ Z.of_nat m.
Proof.
  induction m as [|m IH]; cbn [spelled]; [lia|].
  rewrite Nat2Z.inj_succ, Z.pow_succ_r, bit_of by lia. destruct (Z.testbit _ _); cbn [b2z]; lia.
Qed.

Lemma cbits_snoc m a b : cbits (S m) (2 * a + b2z b) = cbits m a ++ [b].
Proof.
  induction m as [|m IH].
  - cbn. f_equal. rewrite Z.bit0_odd, Z.add_comm, Z.odd_add_mul_2. by destruct b.
  - change (Z.testbit (2 * a + b2z b) (Z.of_nat (S m)) :: cbits (S m) (2 * a + b2z b)
            = Z.testbit a (Z.of_nat m) :: cbits m a ++ [b]). rewrite IH. f_equal.
    rewrite Nat2Z.inj_succ, <- Z.div2_bits by lia.
    f_equal. rewrite Z.add_comm, Z.mul_comm, Z.div_add by lia. by destruct b.
Qed.

Lemma spelled_hits m v : hits m (spelled m v) v.
Proof.
  unfold hits. induction m as [|m IH]; [by rewrite Z.mod_1_r|].
  cbn [spelled]. rewrite bit_of, cbits_snoc, lsb_val_app, <- IH, length_cbits, mod_pow2_S. cbn [lsb_val]. lia.
Qed.

Lemma hits_spelled m c v : 0 <= c < 2 ^ Z.of_nat m -> hits m c v -> c = spelled m v.
Proof.
  intros Hc H. pose proof (hits_prefix 0 m c (spelled m v) v) as E. cbn in E.
  rewrite Z.div_1_r in E. apply E; [done|apply spelled_range|done|apply spelled_hits].
Qed.

(** The search goes on with the next bit appended. *)
Lemma spelled_or m v : (2 * spelled m v) .| ((v >> Z.of_nat m) .& 1) = spelled (S m) v.
Proof.
  cbn [spelled]. rewrite bit_of. rewrite Z.lor_comm.
  replace (2 * spelled m v) with (spelled m v << 1) by (rewrite Z.shiftl_mul_pow2 by lia; lia).
  rewrite lor_shiftl by (destruct (Z.testbit v (Z.of_nat m)); cbn [b2z]; lia). rewrite Z.shiftl_mul_pow2 by lia. lia.
Qed.

(** Every position belongs to a symbol of some length. *)
Lemma position_of L k p : (p < start L k)%nat -> exists l r, (1 <= l < k)%nat /\ (r < cnt L l)%nat /\ p = (start L l + r)%nat.
Proof.
  induction k as [|k IH]; cbn [start]; [lia|]. intros Hp.
  destruct (decide (p < start L k)%nat) as [Hlt|Hge].
  - destruct (IH Hlt) as (l & r & Hl & Hr & E). exists l, r. split; [lia|done].
  - exists k, (p - start L k)%nat. destruct k as [|k]; [cbn in *; lia|]. lia.
Qed.

Lemma symbol_position L l r : (1 <= l <= 15)%nat -> (r < cnt L l)%nat ->
  (start L l + r < start L 16)%nat /\ before L (start L 16) l r.
Proof.
  intros Hl Hr. pose proof (start_mono L (S l) 16 ltac:(lia)) as H. cbn [start] in H. cbn [start].
  assert (start L l + r < start L 16)%nat by (cbn [start]; lia). split; [done|]. split; [done|]. done.
Qed.

Lemma hits_low l c v k : (l <= k)%nat -> hits l c (v mod 2 ^ Z.of_nat k) <-> hits l c v.
Proof.
  intros Hl. unfold hits. replace (v mod 2 ^ Z.of_nat k mod 2 ^ Z.of_nat l) with (v mod 2 ^ Z.of_nat l); [done|].
  replace (Z.of_nat k) with (Z.of_nat l + Z.of_nat (k - l)) by lia.
  rewrite Z.pow_add_r, Z.rem_mul_r by lia. rewrite (Z.mul_comm (2 ^ _)), Z.mod_add, Z.mod_mod by lia. done.
Qed.

Section decode.
Context (L : list Z) (nSym : Z) (rev : list Z) (t : table).
Hypothesis L_le : Z.of_nat (length L) <= nSym <= MAX_SYMBOLS.
Hypothesis rev_len : Z.of_nat (length rev) = nSym.
Hypothesis t_spec : table_spec L nSym rev t.

(** What one turn of the search compares: a table index of the length tried. *)
Definition valid_hit (v : Z) (h : Z * Z) : Prop :=
  exists l r, (1 <= l <= 15)%nat /\ (r < cnt L l)%nat /\ h = (Z.of_nat (start L l + r), Z.of_nat l)
    /\ code_word L l r = spelled l v.

Lemma slow_turn d lens rv v m :
  t = (d, rv, lens) -> (m < 15)%nat ->
  exists s, nStartIndex d !! S m = Some s
    /\ let i := u32 (s + spelled (S m) v) in
       run (if i <? nSymbols d then l ← index lens i; Ok (Z.of_nat (S m) =? l) else Ok false)
         (fun b => (b = true -> valid_hit v (i, Z.of_nat (S m)))
            /\ (b = false -> forall r, (r < cnt L (S m))%nat -> code_word L (S m) r <> spelled (S m) v)) False.
Proof using L_le t_spec.
  intros -> Hm. destruct t_spec as ([B1 B2 B3 B4 B5 B6 B7 B8 B9 B10] & Hs & Hrl & Hrv).
  destruct (lookup_lt_is_Some_2 (nStartIndex d) (S m)) as [s Hst]; [lia|]. exists s. split; [done|]. cbv zeta.
  assert (Hsr : 0 <= s < 2 ^ 32) by (eapply Forall_lookup_1 in Hst; [exact Hst|done]).
  pose proof (spelled_range (S m) v) as Hw. assert (2 ^ Z.of_nat (S m) <= 2 ^ 15) by (apply Z.pow_le_mono_r; lia).
  unfold MAX_SYMBOLS in *. pose proof (start_le L 16) as H16.
  assert (Hbef : forall r, (r < cnt L (S m))%nat -> before L (start L 16) (S m) r).
  { intros r Hr. split; [lia|]. split; [done|]. pose proof (start_mono L (S (S m)) 16 ltac:(lia)) as Hmo. cbn [start] in Hmo. cbn [start]. lia. }
  assert (Hroom : (start L (S m) + cnt L (S m) <= length L)%nat) by (pose proof (start_le L (S (S m))) as Hst2; exact Hst2).
  assert (Hyes : forall r, (r < cnt L (S m))%nat -> code_word L (S m) r = spelled (S m) v ->
            u32 (s + spelled (S m) v) = Z.of_nat (start L (S m) + r)).
  { intros r Hr E. specialize (B7 _ _ (Hbef r Hr)). rewrite Hst in B7. apply (inj Some) in B7 as ->. rewrite <- E. unfold code_word, u32.
    rewrite Z.add_mod_idemp_l by lia. rewrite Z.mod_small by lia. lia. }
  set (i := u32 _) in *. destruct (Z.ltb_spec i (nSymbols d)) as [Hi|Hi].
  - pose proof (u32_range (s + spelled (S m) v)) as Hir. fold i in Hir.
    eapply run_bind; [apply run_index; lia|]. intros l Hl. cbn [run].
    destruct (Z.eqb_spec (Z.of_nat (S m)) l) as [<-|Hne]; (split; [|]); try done.
    + intros _. destruct (decide (Z.to_nat i < start L 16)%nat) as [Hp|Hp].
      2: { rewrite (B6 (Z.to_nat i)) in Hl by lia. injection Hl as Hl. lia. }
      destruct (position_of L 16 _ Hp) as (l' & r' & Hl' & Hr' & E).
      rewrite E, (B5 l' r') in Hl by (split; [lia|]; lia). injection Hl as Hl. assert (l' = S m) as -> by lia.
      exists (S m), r'. split; [lia|]. split; [done|]. split; [f_equal; lia|].
      specialize (B7 _ _ (Hbef r' Hr')). rewrite Hst in B7. apply (inj Some) in B7 as ->.
      pose proof (B8 _ _ (Hbef r' Hr')) as Hf. pose proof (first_code_nonneg L (S m)). unfold code_word in *.
      assert (Ei : i = Z.of_nat (start L (S m) + r')) by lia. unfold i, u32 in Ei. rewrite Z.add_mod_idemp_l in Ei by lia.
      pose proof (Z.div_mod (Z.of_nat (start L (S m)) - first_code L (S m) + spelled (S m) v) (2 ^ 32) ltac:(lia)) as Hdm.
      rewrite Ei in Hdm. nia.
    + intros _ r Hr E. pose proof (Hyes r Hr E) as Ei. rewrite Ei, Nat2Z.id in Hl.
      rewrite (B5 (S m) r (Hbef r Hr)) in Hl. injection Hl as Hl. done.
  - cbn [run]. split; [done|]. intros _ r Hr E. pose proof (Hyes r Hr E). lia.
Qed.

(** The search stops at the first length with a matching code word. *)
Lemma slow_search_run d lens rv v n : forall m,
  t = (d, rv, lens) -> (m + n = 15)%nat ->
  (forall l r, (1 <= l <= m)%nat -> (r < cnt L l)%nat -> code_word L l r <> spelled l v) ->
  run (slow_search n d lens (Z.of_nat (S m)) (2 * spelled m v) (v >> Z.of_nat m)) (fun h =>
    match h with
    | Some h => valid_hit v h
    | None => forall l r, (1 <= l <= 15)%nat -> (r < cnt L l)%nat -> code_word L l r <> spelled l v
    end) False.
Proof using L_le t_spec.
  induction n as [|n IH]; intros m Ht Hm Hno; cbn [slow_search].
  { cbn. intros l r Hl. apply Hno. lia. }
  rewrite spelled_or. destruct (slow_turn d lens rv v m Ht ltac:(lia)) as (s & Hs & Hrun). cbv zeta in Hrun.
  rewrite (index_some (nStartIndex d) (Z.of_nat (S m)) s) by (rewrite ?Nat2Z.id; done || lia). cbn [mbind res_bind].
  eapply run_bind; [exact Hrun|]. intros [|] [Hy Hn']; [by apply Hy|].
  assert (E : u32 (spelled (S m) v << 1) = 2 * spelled (S m) v).
  { pose proof (spelled_range (S m) v). assert (2 ^ Z.of_nat (S m) <= 2 ^ 15) by (apply Z.pow_le_mono_r; lia).
    rewrite Z.shiftl_mul_pow2, u32_small by lia. lia. }
  rewrite E, Z.shiftr_shiftr by lia. replace (Z.of_nat (S m) + 1) with (Z.of_nat (S (S m))) by lia.
  replace (Z.of_nat m + 1) with (Z.of_nat (S m)) by lia. apply IH; [done|lia|].
  intros l r Hl Hr. destruct (decide (l = S m)) as [->|]; [by apply Hn'|apply Hno; [lia|done]].
Qed.

(** The symbols fit the 24 bits of a fast entry. *)
Hypothesis rev_small : forall p, (p < start L 16)%nat -> 0 <= nth p rev 0 < 2 ^ 24.

Lemma fast_entry_fields l p : (1 <= l <= 10)%nat -> (p < start L 16)%nat ->
  truth (fast_entry rev l p) = true /\ fast_entry rev l p >> 24 = Z.of_nat l
  /\ fast_entry rev l p .& 0xffffff = nth p rev 0.
Proof using rev_small.
  intros Hl Hp. pose proof (rev_small p Hp) as Hr. unfold fast_entry.
  change 0xffffff with (Z.ones 24). rewrite !land_ones_mod by lia. rewrite (Z.mod_small (nth p rev 0)) by lia.
  rewrite lor_shiftl by lia. split; [|split].
  - unfold truth. rewrite (proj2 (Z.eqb_neq _ _)) by lia. done.
  - rewrite Z.shiftr_div_pow2, Z.mul_comm, Z.div_add, Z.div_small by lia. lia.
  - rewrite Z.mul_comm, Z.mod_add by lia. apply Z.mod_small. lia.
Qed.

(** What [read_value] finds for the next 16 bits [v]: a symbol's value and its length. *)
Definition lookup (v : Z) : res (option (Z * Z)) :=
  let '(d, rev', lens) := t in
  f ← index (nFastSymbol d) (v .& ((1 << NFASTSYMBOLBITS) - 1));
  if truth f then Ok (Some (f .& 0xffffff, f >> 24))
  else
    h ← slow_search 15 d lens 1 0 v;
    match h with
    | Some (i, nBits) => x ← index rev' i; Ok (Some (x, nBits))
    | None => Ok None
    end.

Lemma read_value_lookup inp r :
  em_lsb_huffman_decoder_read_value inp t r =
  ('(v, r) ← em_lsb_bitreader_peek_16bits inp r;
   h ← lookup v;
   match h with
   | Some (x, n) => Ok (x, em_lsb_bitreader_consume_bits n r)
   | None => Ok (ERR, r)
   end).
Proof.
  unfold em_lsb_huffman_decoder_read_value, lookup. destruct t as [[d rv] lens].
  destruct (em_lsb_bitreader_peek_16bits inp r) as [[v r']| |]; cbn [mbind res_bind]; [|done|done].
  destruct (index (nFastSymbol d) _) as [f| |]; cbn [mbind res_bind]; [|done|done].
  destruct (truth f); [done|]. destruct (slow_search _ _ _ _ _ _) as [[[i b]|]| |]; cbn [mbind res_bind]; try done.
  destruct (index rv i); done.
Qed.

(** The lookup finds a symbol whose code word starts [v], and finds one if there is one. *)
Lemma lookup_run v :
  0 <= v ->
  run (lookup v) (fun h =>
    match h with
    | Some h => exists l r, (1 <= l <= 15)%nat /\ (r < cnt L l)%nat /\ hits l (code_word L l r) v
        /\ h = (nth (start L l + r) rev 0, Z.of_nat l)
    | None => forall l r, (1 <= l <= 15)%nat -> (r < cnt L l)%nat -> code_word L l r <> spelled l v
    end) False.
Proof using L_le rev_len t_spec rev_small.
  intros Hv. unfold lookup. assert (Ht : exists d rv lens, t = (d, rv, lens)) by (destruct t as [[d rv] lens]; eauto).
  destruct Ht as (d & rv & lens & Ht). rewrite Ht. pose proof t_spec as Hts. rewrite Ht in Hts.
  destruct Hts as ([B1 B2 B3 B4 B5 B6 B7 B8 B9 B10] & Hs & Hrl & Hrv).
  change ((1 << NFASTSYMBOLBITS) - 1) with (Z.ones 10). rewrite land_ones_mod by lia. change 10 with (Z.of_nat 10).
  pose proof (Z.mod_pos_bound v (2 ^ Z.of_nat 10) ltac:(lia)) as Hw. set (w := v mod _) in *.
  eapply run_bind; [apply run_index; rewrite B1; exact Hw|]. intros f Hf.
  change (2 ^ Z.of_nat 10) with 1024 in Hw.
  destruct (B10 (Z.to_nat w)) as [H0|(l & r & Hb & Hl & Hh & He)]; [lia| |].
  - rewrite H0 in Hf. injection Hf as <-. cbn [truth Z.eqb negb].
    eapply run_bind; [apply (slow_search_run d lens rv v 15 0 Ht); [done|lia]|].
    intros [[i b]|] Hhit; [|done]. destruct Hhit as (l & r & Hl & Hr & [= -> ->] & E).
    destruct (symbol_position L l r Hl Hr) as [Hp _]. pose proof (start_le L 16).
    eapply run_bind; [apply run_index; lia|]. intros x Hx. cbn [run]. rewrite Nat2Z.id in Hx. exists l, r.
    split; [done|]. split; [done|]. split; [rewrite E; apply spelled_hits|].
    rewrite Hrv in Hx by done. f_equal. symmetry. by apply nth_lookup_Some.
  - rewrite He in Hf. injection Hf as <-. destruct Hb as (Hl1 & Hr & Hp).
    destruct (fast_entry_fields l (start L l + r) ltac:(lia) Hp) as (Htr & Hsh & Hand). rewrite Htr, Hsh, Hand. cbn [run].
    exists l, r. split; [done|]. split; [done|]. split; [|done].
    rewrite Z2Nat.id in Hh by lia. by apply (hits_low l _ v 10).
Qed.

(** Two symbols cannot start the same bits. *)
Lemma hits_same l r l' r' v :
  (1 <= l <= 15)%nat -> (r < cnt L l)%nat -> (1 <= l' <= 15)%nat -> (r' < cnt L l')%nat ->
  hits l (code_word L l r) v -> hits l' (code_word L l' r') v -> l = l' /\ r = r'.
Proof using t_spec.
  intros Hl Hr Hl' Hr' H H'. destruct t as [[d rv] lens]. destruct t_spec as (HB & _).
  destruct (symbol_position L l r Hl Hr) as [_ Hb]. destruct (symbol_position L l' r' Hl' Hr') as [_ Hb'].
  pose proof (bu_fits _ _ _ _ _ _ _ HB _ _ Hb). pose proof (bu_fits _ _ _ _ _ _ _ HB _ _ Hb').
  destruct (Nat.lt_trichotomy (start L l + r) (start L l' + r')) as [Hlt|[Heq|Hlt]].
  - exfalso. eapply (hits_unique L l' r' l r v); eauto; [lia|]. by split; [|split].
  - assert (l = l') as <- by (apply (position_length L l l' (start L l + r)); lia). lia.
  - exfalso. eapply (hits_unique L l r l' r' v); eauto; [lia|]. by split; [|split].
Qed.

Section input.
Context (inp : bytes).
Hypothesis inp_ok : bytes_ok inp.

(** A code word in front of the stream is decoded to its symbol. *)
Lemma read_value_represents l r q rest :
  (1 <= l <= 15)%nat -> (r < cnt L l)%nat -> (31 <= length rest)%nat ->
  represents inp q (cbits l (code_word L l r) ++ rest) ->
  exists q', em_lsb_huffman_decoder_read_value inp t q = Ok (nth (start L l + r) rev 0, q') /\ represents inp q' rest.
Proof using L_le rev_len t_spec rev_small inp_ok.
  intros Hl Hr Hrest Hq. set (c := code_word L l r) in *. rewrite read_value_lookup.
  destruct (peek_represents inp inp_ok q _ Hq) as (q1 & -> & Hq1 & Hc1); [rewrite length_app; lia|]. cbn [mbind res_bind].
  set (v := lsb_val _).
  assert (Hh : hits l c v).
  { unfold hits, v. rewrite lsb_val_take by (rewrite length_take, length_app, length_cbits; lia).
    rewrite take_take, Nat.min_l by lia. by rewrite take_app_length' by (by rewrite length_cbits). }
  destruct (run_ok _ _ (lookup_run v (proj1 (lsb_val_range _)))) as ([h|] & -> & Hh'); cbn [mbind res_bind].
  - destruct Hh' as (l' & r' & Hl' & Hr' & Hhit & ->).
    destruct (hits_same l r l' r' v Hl Hr Hl' Hr' Hh Hhit) as [<- <-].
    eexists. split; [done|]. rewrite <- (length_cbits l c). apply consume_represents; [done|]. rewrite length_cbits. lia.
  - exfalso. apply (Hh' l r Hl Hr). apply hits_spelled; [|done]. split; [apply code_word_nonneg|].
    destruct t as [[d rv] lens]. destruct t_spec as (HB & _). apply (bu_fits _ _ _ _ _ _ _ HB).
    by apply symbol_position.
Qed.

(** On any input: -1, or the value of some symbol with at least one bit read. *)
Lemma read_value_safe k q :
  reader_safe inp k q ->
  exists x q', em_lsb_huffman_decoder_read_value inp t q = Ok (x, q') /\ advances q q'
    /\ ((x = ERR /\ reader_safe inp k q')
        \/ exists p, (p < start L 16)%nat /\ x = nth p rev 0 /\ reader_safe inp (k + 1) q').
Proof using L_le rev_len t_spec rev_small inp_ok.
  intros Hq. rewrite read_value_lookup.
  destruct (peek_safe inp inp_ok k q Hq) as (v & q1 & -> & Hv & Ha & Hq1 & Hc). cbn [mbind res_bind].
  destruct (run_ok _ _ (lookup_run v (proj1 Hv))) as ([h|] & -> & Hh); cbn [mbind res_bind].
  - destruct Hh as (l & r & Hl & Hr & _ & ->). eexists _, _. split; [done|]. split; [exact Ha|]. right.
    exists (start L l + r)%nat. split; [by apply symbol_position|]. split; [done|].
    eapply reader_safe_weaken; [apply consume_safe; [exact Hq1|lia|destruct Hc; [left; lia|by right]]|lia].
  - eexists _, _. split; [done|]. split; [done|]. by left.
Qed.
End input.
End decode.

(** ** The interface of a decoding table *)

(** The code word of symbol [s] (RFC 1951, 3.2.2). *)
Definition code_of (L : list Z) (s : nat) : option (list bool) :=
  l ← L !! s;
  if decide (1 <= l <= 15)
  then Some (cbits (Z.to_nat l) (code_word L (Z.to_nat l) (length (syms L s (Z.to_nat l)))))
  else None.

(** What the inflater relies on of a table for the code lengths [L] whose symbols
    stand for [f s]: code words are decoded, and any other input is refused or
    read as some symbol. *)
Record decodes (inp : bytes) (L : list Z) (f : Z -> Z) (t : table) : Prop := {
  dec_code s bits q rest :
    code_of L s = Some bits -> (31 <= length rest)%nat -> represents inp q (bits ++ rest) ->
    exists q', em_lsb_huffman_decoder_read_value inp t q = Ok (f (Z.of_nat s), q') /\ represents inp q' rest;
  dec_safe k q :
    reader_safe inp k q ->
    exists x q', em_lsb_huffman_decoder_read_value inp t q = Ok (x, q') /\ advances q q'
      /\ ((x = ERR /\ reader_safe inp k q')
          \/ exists s, (s < length L)%nat /\ x = f (Z.of_nat s) /\ reader_safe inp (k + 1) q') }.

Lemma syms_prefix L n n' l : (n <= n')%nat -> exists k, syms L n' l = syms L n l ++ k.
Proof.
  induction 1 as [|n' _ [k IH]]; [exists []; by rewrite app_nil_r|].
  rewrite syms_S, IH, <- app_assoc. eauto.
Qed.

(** A symbol's place among those of its length. *)
Lemma syms_rank L n s l :
  (s < n)%nat -> L !! s = Some (Z.of_nat l) -> syms L n l !! length (syms L s l) = Some s.
Proof.
  intros Hs Hl. destruct (syms_prefix L (S s) n l Hs) as [k ->].
  rewrite syms_S, decide_True, <- app_assoc by done. rewrite lookup_app_r, Nat.sub_diag by lia. done.
Qed.

Lemma syms_elem L n l r s : syms L n l !! r = Some s -> (s < n)%nat.
Proof.
  intros H. apply list_elem_of_lookup_2 in H. unfold syms in H. apply list_elem_of_filter in H as [_ H].
  apply elem_of_seq in H. lia.
Qed.

Section build.
Context (inp C : list Z) (n : nat) (nSym : Z) (f : Z -> Z).
Hypothesis inp_ok : bytes_ok inp.
Hypothesis C_nonneg : Forall (fun x => 0 <= x) C.
Hypothesis n_le : (n <= length C)%nat.
Hypothesis n_sym : Z.of_nat n <= nSym <= MAX_SYMBOLS.
Hypothesis f_small : forall s, 0 <= s < Z.of_nat n -> 0 <= f s < 2 ^ 24.

(** Prepare, replace the symbols, finalize. *)
Definition build_table : res table :=
  '(d, rev) ← em_lsb_huffman_decoder_prepare_table (Z.of_nat n) nSym C;
  em_lsb_huffman_decoder_finalize_table d (map f rev).

Lemma nth_symbol d rev l r :
  prepared C n nSym d rev -> (1 <= l <= 15)%nat -> (r < cnt (take n C) l)%nat ->
  exists s, syms (take n C) n l !! r = Some s /\ (s < n)%nat
    /\ nth (start (take n C) l + r) (map f rev) 0 = f (Z.of_nat s).
Proof using n_le.
  intros Hp Hl Hr. rewrite cnt_syms in Hr by (done || lia).
  destruct (lookup_lt_is_Some_2 _ _ Hr) as [s Hs]. exists s. split; [done|]. split; [by eapply syms_elem|].
  apply nth_lookup_Some. rewrite list_lookup_fmap. by rewrite (pr_rev _ _ _ _ _ Hp l r s Hl Hs).
Qed.

Lemma table_decodes d rev t :
  prepared C n nSym d rev -> table_spec (take n C) nSym (map f rev) t -> decodes inp (take n C) f t.
Proof using inp_ok n_le n_sym f_small.
  intros Hp Ht. set (L := take n C) in *. assert (HL : length L = n) by (by apply length_L).
  assert (Hlen : Z.of_nat (length (map f rev)) = nSym) by (rewrite length_map; apply (pr_rev_len _ _ _ _ _ Hp)).
  assert (Hsmall : forall p, (p < start L 16)%nat -> 0 <= nth p (map f rev) 0 < 2 ^ 24).
  { intros p Hpp. destruct (position_of L 16 p Hpp) as (l & r & Hl & Hr & ->).
    destruct (nth_symbol d rev l r Hp ltac:(lia) Hr) as (s & _ & Hs & E). fold L in E. rewrite E. apply f_small. lia. }
  split.
  - intros s bits q rest Hc Hrest Hq. unfold code_of in Hc. destruct (L !! s) as [l|] eqn:Hls; [|done]. cbn in Hc.
    case_decide as Hl; [|done]. injection Hc as <-. set (ln := Z.to_nat l) in *.
    assert (Hln : L !! s = Some (Z.of_nat ln)) by (rewrite Hls; f_equal; lia).
    assert (Hsn : (s < n)%nat) by (apply lookup_lt_Some in Hls; lia).
    pose proof (syms_rank L n s ln Hsn Hln) as Hrank.
    assert (Hr : (length (syms L s ln) < cnt L ln)%nat).
    { unfold L. rewrite cnt_syms by (done || lia). by apply lookup_lt_Some in Hrank. }
    destruct (read_value_represents L nSym (map f rev) t ltac:(lia) Hlen Ht Hsmall inp inp_ok ln _ q rest ltac:(lia) Hr Hrest Hq)
      as (q' & -> & Hq'). exists q'. split; [|done]. do 2 f_equal.
    destruct (nth_symbol d rev ln (length (syms L s ln)) Hp ltac:(lia) Hr) as (s' & Hs' & _ & E).
    fold L in Hs', E. rewrite E. rewrite Hrank in Hs'. by injection Hs' as <-.
  - intros k q Hq.
    destruct (read_value_safe L nSym (map f rev) t ltac:(lia) Hlen Ht Hsmall inp inp_ok k q Hq)
      as (x & q' & -> & Ha & Hx). exists x, q'. split; [done|]. split; [done|].
    destruct Hx as [|(p & Hpp & -> & Hs)]; [by left|]. right.
    destruct (position_of L 16 p Hpp) as (l & r & Hl & Hr & ->).
    destruct (nth_symbol d rev l r Hp ltac:(lia) Hr) as (s & _ & Hsn & E).
    fold L in E. exists s. by rewrite HL, E.
Qed.

(** Finalizing a prepared table. *)
Lemma finalize_prepared d rev :
  prepared C n nSym d rev ->
  run (em_lsb_huffman_decoder_finalize_table d (map f rev))
    (fun t => decodes inp (take n C) f t /\ ~ oversubscribed (take n C)) (oversubscribed (take n C)).
Proof using inp_ok n_le n_sym f_small.
  intros Hp. assert (HL : length (take n C) = n) by (by apply length_L).
  eapply run_mono; [apply (finalize_run (take n C) nSym)| |done].
  - lia.
  - rewrite length_map. apply (pr_rev_len _ _ _ _ _ Hp).
  - apply (pr_symbols _ _ _ _ _ Hp).
  - apply (pr_sorted _ _ _ _ _ Hp).
  - apply (pr_pos _ _ _ _ _ Hp).
  - intros t Ht. split; [by eapply table_decodes|]. intros (l & r & Hl & Hr & Hbig).
    destruct t as [[d' rv] lens]. destruct Ht as (HB & _).
    pose proof (bu_fits _ _ _ _ _ _ _ HB l r (proj2 (symbol_position _ l r Hl Hr))). lia.
Qed.

Lemma build_run :
  run build_table (fun t => decodes inp (take n C) f t /\ ~ oversubscribed (take n C))
    (too_long C n \/ oversubscribed (take n C)).
Proof using inp_ok C_nonneg n_le n_sym f_small.
  unfold build_table. eapply run_bind; [apply prepare_run; [done..|by left]|]. intros [d rev] Hp.
  eapply run_mono; [by apply finalize_prepared|done|by right].
Qed.
End build.

Lemma not_oversubscribed L : complete_enough L -> ~ oversubscribed L.
Proof.
  intros H (l & r & Hl & Hr & Hbig). specialize (H l Hl). unfold code_word in Hbig. lia.
Qed.

(** Code lengths as a block declares them. *)
Definition lengths_ok (L : list Z) : Prop := Forall (fun x => 0 <= x <= 15) L.

Lemma lengths_not_too_long L : lengths_ok L -> ~ too_long L (length L).
Proof.
  intros HL (x & Hx & H16). rewrite take_ge in Hx by lia. apply list_elem_of_lookup_1 in Hx as [i Hx].
  pose proof (Forall_lookup_1 _ _ _ _ HL Hx). cbn in *. lia.
Qed.

Lemma lengths_nonneg L : lengths_ok L -> Forall (fun x => 0 <= x) L.
Proof. apply Forall_impl. lia. Qed.

(** The decoder for the code lengths [L], its symbols left as they are. *)
Definition decoder_of (L : list Z) (nSym : Z) : res table := build_table L (length L) nSym id.

Lemma decoder_run inp L nSym :
  bytes_ok inp -> lengths_ok L -> Z.of_nat (length L) <= nSym <= MAX_SYMBOLS ->
  run (decoder_of L nSym) (fun t => decodes inp L id t /\ ~ oversubscribed L) (oversubscribed L).
Proof.
  intros Hi HL Hn. pose proof (build_run inp L (length L) nSym id Hi (lengths_nonneg L HL)) as H.
  rewrite take_ge in H by lia. eapply run_mono; [apply H|done|].
  - lia.
  - done.
  - unfold MAX_SYMBOLS in *. unfold id. lia.
  - intros [Ht|]; [|done]. by apply lengths_not_too_long in Ht.
Qed.

(** ** Theorems *)

(** C16: for every set of code lengths that is not oversubscribed the tables are
    built, and a stream that starts with the canonical code word of a symbol
    (RFC 1951), with at least 31 bits behind it, is decoded to this symbol, by
    the fast table or the bit-by-bit search, and exactly the code word is
    consumed. *)
Theorem canonical_code_decoded inp L nSym s bits q rest :
  bytes_ok inp -> lengths_ok L -> Z.of_nat (length L) <= nSym <= MAX_SYMBOLS -> complete_enough L ->
  code_of L s = Some bits -> represents inp q (bits ++ rest) -> (31 <= length rest)%nat ->
  exists t q', decoder_of L nSym = Ok t
    /\ em_lsb_huffman_decoder_read_value inp t q = Ok (Z.of_nat s, q') /\ represents inp q' rest.
Proof.
  intros Hi HL Hn Hce Hc Hq Hrest.
  pose proof (decoder_run inp L nSym Hi HL Hn) as H. destruct (decoder_of L nSym) as [t| |]; cbn in H; [|by apply not_oversubscribed in H|done].
  destruct (dec_code _ _ _ _ (proj1 H) s bits q rest Hc Hrest Hq) as (q' & Hv & Hq'). by exists t, q'.
Qed.

(** Code lengths that do not fit a prefix code are refused when the tables are
    built, and only those. *)
Theorem oversubscribed_refused L nSym :
  lengths_ok L -> Z.of_nat (length L) <= nSym <= MAX_SYMBOLS ->
  decoder_of L nSym = Fail <-> oversubscribed L.
Proof.
  intros HL Hn. pose proof (decoder_run [] L nSym ltac:(constructor) HL Hn) as H.
  destruct (decoder_of L nSym) as [t| |]; cbn in H; [|done|done]. split; [done|]. intros Ho. by apply H in Ho.
Qed.

(** ** Witnesses *)

(** The example of RFC 1951, 3.2.2: symbol 6 has the code word 1110. *)
Definition rfc_lengths : list Z := [3; 3; 3; 3; 3; 2; 4; 4].
Definition rfc_stream : bytes := [7; 0; 0; 0; 0; 0].

Lemma rfc_complete : complete_enough rfc_lengths.
Proof.
  intros l Hl. do 16 (destruct l as [|l]; [try lia; vm_compute; discriminate|]). lia.
Qed.

Lemma rfc_represents :
  represents rfc_stream (em_lsb_bitreader_init 0 6) ([true; true; true; false] ++ replicate 44 false).
Proof. apply byte_reader_represents; try done. repeat constructor; done. Qed.

Lemma canonical_code_decoded_witness :
  exists t q', decoder_of rfc_lengths 19 = Ok t
    /\ em_lsb_huffman_decoder_read_value rfc_stream t (em_lsb_bitreader_init 0 6) = Ok (6, q')
    /\ represents rfc_stream q' (replicate 44 false).
Proof.
  apply (canonical_code_decoded rfc_stream rfc_lengths 19 6 [true; true; true; false]).
  - repeat constructor; done.
  - repeat constructor; done.
  - done.
  - exact rfc_complete.
  - reflexivity.
  - exact rfc_represents.
  - cbn. lia.
Defined.

Lemma oversubscribed_refused_witness :
  decoder_of [1; 1; 1] 19 = Fail <-> oversubscribed [1; 1; 1].
Proof. apply oversubscribed_refused; [repeat constructor; done|done]. Defined.
