(* ===== verification/Inflate.v ===== *)
(** deps/em_inflate/em_inflate.c: stored, static and dynamic blocks and the top
    level [em_inflate].

    The output buffer is one byte string, [pCurOutData] an offset into it.  A block
    that fails keeps what it has written, so the functions that write return the
    buffer in every case, with [None] (or, for [em_inflate], [SIZE_ERR]) where the
    source returns -1. *)
From S2P Require Import Prelude Checksum BitReader Huffman.

(** [memcpy(out + dst, src, n)] of bytes read before. *)
Definition write_bytes (out : bytes) (dst : Z) (src : bytes) : res bytes :=
  if (0 <=? dst) && (dst + Z.of_nat (length src) <=? Z.of_nat (length out))
  then Ok (overlay (Z.to_nat dst) src out) else Undef UbIndex.

(** [n] bytes at [p]. *)
Definition read_bytes (u : ub) (mem : bytes) (p n : Z) : res bytes :=
  if (0 <=? p) && (p + n <=? Z.of_nat (length mem)) then Ok (sub mem (Z.to_nat p) (Z.to_nat n)) else Undef u.

(** ** Constants *)

Definition NCODELENBITS : Z := 3.
Definition NLITERALSYMS : Z := 288.
Definition NEODMARKERSYM : Z := 256.
Definition NMATCHLENSYMSTART : Z := 257.
Definition NMATCHLENSYMS : Z := 29.
Definition NOFFSETSYMS : Z := 32.
Definition MIN_MATCH_SIZE : Z := 3.
Definition MATCHLEN_PAIR (base dispbits : Z) : Z := base .| (dispbits << 16) .| 0x8000.
Definition OFFSET_PAIR (base dispbits : Z) : Z := base .| (dispbits << 16).

Definition em_inflate_matchlen_code : list Z :=
  map (fun '(b, d) => MATCHLEN_PAIR (MIN_MATCH_SIZE + b) d)
    [(0, 0); (1, 0); (2, 0); (3, 0); (4, 0); (5, 0); (6, 0); (7, 0); (8, 1); (10, 1);
     (12, 1); (14, 1); (16, 2); (20, 2); (24, 2); (28, 2); (32, 3); (40, 3); (48, 3); (56, 3);
     (64, 4); (80, 4); (96, 4); (112, 4); (128, 5); (160, 5); (192, 5); (224, 5); (255, 0)].

(** The array has 32 elements; the last two have no initializer. *)
Definition em_inflate_offset_code : list Z :=
  map (fun '(b, d) => OFFSET_PAIR b d)
    [(1, 0); (2, 0); (3, 0); (4, 0); (5, 1); (7, 1); (9, 2); (13, 2); (17, 3); (25, 3);
     (33, 4); (49, 4); (65, 5); (97, 5); (129, 6); (193, 6); (257, 7); (385, 7); (513, 8); (769, 8);
     (1025, 9); (1537, 9); (2049, 10); (3073, 10); (4097, 11); (6145, 11); (8193, 12); (12289, 12);
     (16385, 13); (24577, 13)] ++ [0; 0].

(** Code lengths of a static block. *)
Definition nFixedLiteralCodeLen : list Z := replicate 144 8 ++ replicate 112 9 ++ replicate 24 7 ++ replicate 8 8.
Definition nFixedOffsetCodeLen : list Z := replicate 32 5.

(** Base and extra bits in place of the offset and match length symbols. *)
Definition offset_entry (n : Z) : Z :=
  if n <? NOFFSETSYMS then nth (Z.to_nat n) em_inflate_offset_code 0 else n.
Definition literal_entry (n : Z) : Z :=
  if (NMATCHLENSYMSTART <=? n) && (n <? NLITERALSYMS) then
    let index := n - NMATCHLENSYMSTART in
    if (0 <=? index) && (index <? NMATCHLENSYMS) then nth (Z.to_nat index) em_inflate_matchlen_code 0 else 0
  else n.

Section inflate.
Context (inp : bytes).

(** ** Stored blocks *)

(** A little-endian 16-bit number at [pInBlock]. *)
Definition read_u16 (p : Z) : res Z :=
  a ← index inp p; b ← index inp (p + 1); Ok (a .| (b << 8)).

Definition em_inflate_copy_stored (r : em_lsb_bitreader_t) (out : bytes) (nOutDataOffset nBlockMaxSize : Z)
  : res (option (Z * em_lsb_bitreader_t) * bytes) :=
  let '(e, r) := em_lsb_bitreader_byte_align r in
  if e <? 0 then Ok (None, out) else
  if pInBlockEnd r <? pInBlock r + 4 then Ok (None, out) else
  nStoredLen ← read_u16 (pInBlock r);
  nNegStoredLen ← read_u16 (pInBlock r + 2);
  let r := set_in (pInBlock r + 4) r in
  if negb (nStoredLen =? (Z.lnot nNegStoredLen .& 0xffff)) then Ok (None, out) else
  if nBlockMaxSize <? nStoredLen then Ok (None, out) else
  data ← read_bytes UbStored inp (pInBlock r) nStoredLen;
  out ← write_bytes out nOutDataOffset data;
  Ok (Some (nStoredLen, set_in (pInBlock r + nStoredLen) r), out).

(** ** Static and dynamic blocks *)

(** The literal and offset tables before they are finalized. *)
Definition dynamic_tables (r : em_lsb_bitreader_t)
  : res ((em_lsb_huffman_decoder_t * list Z) * (em_lsb_huffman_decoder_t * list Z) * em_lsb_bitreader_t) :=
  '(nLiteralSyms, r) ← em_lsb_bitreader_get_bits inp 5 r;
  if nLiteralSyms =? ERR then Fail else
  let nLiteralSyms := nLiteralSyms + 257 in
  if NLITERALSYMS <? nLiteralSyms then Fail else
  '(nOffsetSyms, r) ← em_lsb_bitreader_get_bits inp 5 r;
  if nOffsetSyms =? ERR then Fail else
  let nOffsetSyms := nOffsetSyms + 1 in
  if NOFFSETSYMS <? nOffsetSyms then Fail else
  '(nCodeLenSyms, r) ← em_lsb_bitreader_get_bits inp 4 r;
  if nCodeLenSyms =? ERR then Fail else
  let nCodeLenSyms := nCodeLenSyms + 4 in
  if NCODELENSYMS <? nCodeLenSyms then Fail else
  '(nCodeLength, r) ← em_lsb_huffman_decoder_read_raw_lengths inp NCODELENBITS nCodeLenSyms NCODELENSYMS
     (replicate (Z.to_nat (NLITERALSYMS + NOFFSETSYMS)) 0) r;
  '(d, rev) ← em_lsb_huffman_decoder_prepare_table NCODELENSYMS NCODELENSYMS nCodeLength;
  t ← em_lsb_huffman_decoder_finalize_table d rev;
  '(nCodeLength, r) ← em_lsb_huffman_decoder_read_var_lengths inp t (nLiteralSyms + nOffsetSyms)
     (NLITERALSYMS + NOFFSETSYMS) nCodeLength r;
  lit ← em_lsb_huffman_decoder_prepare_table nLiteralSyms NLITERALSYMS nCodeLength;
  off ← em_lsb_huffman_decoder_prepare_table nOffsetSyms NOFFSETSYMS (drop (Z.to_nat nLiteralSyms) nCodeLength);
  Ok (lit, off, r).

Definition static_tables : res ((em_lsb_huffman_decoder_t * list Z) * (em_lsb_huffman_decoder_t * list Z)) :=
  lit ← em_lsb_huffman_decoder_prepare_table NLITERALSYMS NLITERALSYMS nFixedLiteralCodeLen;
  off ← em_lsb_huffman_decoder_prepare_table NOFFSETSYMS NOFFSETSYMS nFixedOffsetCodeLen;
  Ok (lit, off).

(** Both tables with their entries replaced, finalized. *)
Definition block_tables (nDynamicBlock : bool) (r : em_lsb_bitreader_t)
  : res (table * table * em_lsb_bitreader_t) :=
  '(lit, off, r) ← (if nDynamicBlock then dynamic_tables r else '(lit, off) ← static_tables; Ok (lit, off, r));
  l ← em_lsb_huffman_decoder_finalize_table (fst lit) (map literal_entry (snd lit));
  o ← em_lsb_huffman_decoder_finalize_table (fst off) (map offset_entry (snd off));
  Ok (l, o, r).

(** [do memcpy(dst, src, 16) while (pCopyDst < pCopyEndDst)] *)
Fixpoint copy16 (fuel : nat) (out : bytes) (dst src stop : Z) : res bytes :=
  match fuel with
  | O => Undef NoFuel
  | S fuel =>
      b ← read_bytes UbIndex out src 16;
      out ← write_bytes out dst b;
      if dst + 16 <? stop then copy16 fuel out (dst + 16) (src + 16) stop else Ok out
  end.

(** [while (nMatchLen--) *pCurOutData++ = *pSrc++] *)
Fixpoint copy_bytes (n : nat) (out : bytes) (dst src : Z) : res bytes :=
  match n with
  | O => Ok out
  | S n => b ← index out src; out ← store out dst b; copy_bytes n out (dst + 1) (src + 1)
  end.

(** A match of [nMatchLen] bytes [nMatchOffset] back; [None] for no room. *)
Definition copy_match (out : bytes) (pCur pEnd nMatchLen nMatchOffset : Z) : res (option bytes) :=
  let pSrc := pCur - nMatchOffset in
  if 0 <=? pSrc then
    if (16 <=? nMatchOffset) && (pCur + nMatchLen <=? pEnd - 15) then
      out ← copy16 (S (Z.to_nat nMatchLen)) out pCur pSrc (pCur + nMatchLen); Ok (Some out)
    else if pEnd <? pCur + nMatchLen then Ok None
    else out ← copy_bytes (Z.to_nat nMatchLen) out pCur pSrc; Ok (Some out)
  else Ok None.

(** The match length and offset behind a literal code word; [None] for -1. *)
Definition read_match (off : table) (nLiteralsCodeword : Z) (r : em_lsb_bitreader_t)
  : res (option (Z * Z * em_lsb_bitreader_t)) :=
  '(nMatchLen, r) ← em_lsb_bitreader_get_bits inp ((nLiteralsCodeword >> 16) .& 15) r;
  if nMatchLen =? ERR then Ok None else
  '(nOffsetCodeword, r) ← em_lsb_huffman_decoder_read_value inp off r;
  if nOffsetCodeword =? ERR then Ok None else
  '(nMatchOffset, r) ← em_lsb_bitreader_get_bits inp ((nOffsetCodeword >> 16) .& 15) r;
  if nMatchOffset =? ERR then Ok None else
  Ok (Some (nMatchLen + (nLiteralsCodeword .& 0x7fff), nMatchOffset + (nOffsetCodeword .& 0x7fff), r)).

(** The main loop: every turn but the last writes at least one byte. *)
Fixpoint block_loop (fuel : nat) (lit off : table) (pCur pEnd : Z) (r : em_lsb_bitreader_t) (out : bytes)
  : res (option (Z * em_lsb_bitreader_t) * bytes) :=
  match fuel with
  | O => Undef NoFuel
  | S fuel =>
      '(cw, r) ← em_lsb_huffman_decoder_read_value inp lit r;
      if cw <? 256 then
        if pCur <? pEnd then out ← store out pCur cw; block_loop fuel lit off (pCur + 1) pEnd r out
        else Ok (None, out)
      else if cw =? NEODMARKERSYM then Ok (Some (pCur, r), out)
      else if cw =? ERR then Ok (None, out)
      else
        m ← read_match off cw r;
        match m with
        | None => Ok (None, out)
        | Some (nMatchLen, nMatchOffset, r) =>
            o ← copy_match out pCur pEnd nMatchLen nMatchOffset;
            match o with
            | None => Ok (None, out)
            | Some out => block_loop fuel lit off (pCur + nMatchLen) pEnd r out
            end
        end
  end.

Definition em_inflate_decompress_block (r : em_lsb_bitreader_t) (nDynamicBlock : bool) (out : bytes)
    (nOutDataOffset nBlockMaxSize : Z) : res (option (Z * em_lsb_bitreader_t) * bytes) :=
  match block_tables nDynamicBlock r with
  | Undef u => Undef u
  | Fail => Ok (None, out)
  | Ok (lit, off, r) =>
      '(e, out) ← block_loop (S (Z.to_nat nBlockMaxSize)) lit off nOutDataOffset
                    (nOutDataOffset + nBlockMaxSize) r out;
      match e with
      | None => Ok (None, out)
      | Some (pCur, r) => Ok (Some (pCur - nOutDataOffset, r), out)
      end
  end.

(** ** Top level *)

Inductive em_inflate_checksum_type_t := CHECKSUM_NONE | CHECKSUM_GZIP | CHECKSUM_ZLIB.

(** [(size_t)-1] *)
Definition SIZE_ERR : Z := UINT32_MAX.

Definition update_checksum (t : em_inflate_checksum_type_t) (data : bytes) (sum : Z) : Z :=
  match t with
  | CHECKSUM_NONE => sum
  | CHECKSUM_GZIP => em_inflate_crc32_4bytes data sum
  | CHECKSUM_ZLIB => em_inflate_adler32_z sum (Some data)
  end.

(** [do { if (p >= end) return -1; p++; } while (p[-1])]: a zero-terminated field. *)
Fixpoint skip_string (fuel : nat) (p pEnd : Z) : res Z :=
  match fuel with
  | O => Undef NoFuel
  | S fuel =>
      if pEnd <=? p then Fail
      else b ← index inp p; if truth b then skip_string fuel (p + 1) pEnd else Ok (p + 1)
  end.

(** The gzip header: where the deflate data start. *)
Definition gzip_header (pEnd : Z) : res Z :=
  let p := 2 in
  if pEnd <? p + 8 then Fail else
  m ← index inp p;
  if negb (m =? 8) then Fail else
  flags ← index inp (p + 1);
  let p := p + 2 + 6 in
  p ← (if truth (flags .& 0x02) then if pEnd <? p + 2 then Fail else Ok (p + 2) else Ok p);
  p ← (if truth (flags .& 0x04) then
         if pEnd <? p + 2 then Fail else
         nExtraFieldLen ← read_u16 p;
         let p := p + 2 in
         if pEnd <? p + nExtraFieldLen then Fail else Ok (p + nExtraFieldLen)
       else Ok p);
  p ← (if truth (flags .& 0x08) then skip_string (S (Z.to_nat (pEnd - p))) p pEnd else Ok p);
  p ← (if truth (flags .& 0x10) then skip_string (S (Z.to_nat (pEnd - p))) p pEnd else Ok p);
  if truth (flags .& 0x20) then Fail else Ok p.

Definition stream_header (pEnd : Z) : res (Z * em_inflate_checksum_type_t) :=
  if pEnd <? 2 then Fail else
  b0 ← index inp 0;
  b1 ← index inp 1;
  if (b0 =? 0x1f) && (b1 =? 0x8b) then p ← gzip_header pEnd; Ok (p, CHECKSUM_GZIP)
  else if (b0 .& 0x0f) =? 0x08 then
    let nCheck := b1 .| (b0 << 8) in
    p ← (if (b0 >> 4 <=? 7) && (nCheck mod 31 =? 0) then
           if truth (b1 .& 0x20) then if pEnd <? 6 then Fail else Ok 6 else Ok 2
         else Ok 0);
    Ok (p, CHECKSUM_ZLIB)
  else Ok (0, CHECKSUM_NONE).

(** One turn of the block loop: final flag, result of the block and the buffer.
    A type that could not be read leaves [nBlockResult] unset. *)
Definition inflate_block (nMaxOutDataSize nCurOutOffset : Z) (r : em_lsb_bitreader_t) (out : bytes)
  : res (Z * option (Z * em_lsb_bitreader_t) * bytes) :=
  '(nIsFinalBlock, r) ← em_lsb_bitreader_get_bits inp 1 r;
  '(nBlockType, r) ← em_lsb_bitreader_get_bits inp 2 r;
  let room := nMaxOutDataSize - nCurOutOffset in
  '(e, out) ←
    (if nBlockType =? 0 then em_inflate_copy_stored r out nCurOutOffset room
     else if nBlockType =? 1 then em_inflate_decompress_block r false out nCurOutOffset room
     else if nBlockType =? 2 then em_inflate_decompress_block r true out nCurOutOffset room
     else if nBlockType =? 3 then Ok (None, out)
     else Undef UbBlockType);
  Ok (nIsFinalBlock, e, out).

(** [do { ... } while (!nIsFinalBlock)]: the output size, the checksum and the reader. *)
Fixpoint inflate_loop (fuel : nat) (t : em_inflate_checksum_type_t) (nMaxOutDataSize nCurOutOffset sum : Z)
    (r : em_lsb_bitreader_t) (out : bytes) : res (option (Z * Z * em_lsb_bitreader_t) * bytes) :=
  match fuel with
  | O => Undef NoFuel
  | S fuel =>
      '(final, e, out) ← inflate_block nMaxOutDataSize nCurOutOffset r out;
      match e with
      | None => Ok (None, out)
      | Some (n, r) =>
          let sum := update_checksum t (sub out (Z.to_nat nCurOutOffset) (Z.to_nat n)) sum in
          let nCurOutOffset := nCurOutOffset + n in
          if truth final then Ok (Some (nCurOutOffset, sum, r), out)
          else inflate_loop fuel t nMaxOutDataSize nCurOutOffset sum r out
      end
  end.

(** The stored checksum behind the last block. *)
Definition check_trailer (t : em_inflate_checksum_type_t) (sum p pEnd : Z) : res unit :=
  match t with
  | CHECKSUM_NONE => Ok tt
  | _ =>
      if pEnd <? p + 4 then Fail else
      b0 ← index inp p; b1 ← index inp (p + 1); b2 ← index inp (p + 2); b3 ← index inp (p + 3);
      let nStoredCheckSum :=
        match t with
        | CHECKSUM_GZIP => b0 .| (b1 << 8) .| (b2 << 16) .| (b3 << 24)
        | _ => (b0 << 24) .| (b1 << 16) .| (b2 << 8) .| b3
        end in
      if nStoredCheckSum =? sum then Ok tt else Fail
  end.

(** The returned size, [SIZE_ERR] for -1, and the output buffer. *)
Definition em_inflate (nCompressedDataSize : Z) (out : bytes) (nMaxOutDataSize : Z) : res (Z * bytes) :=
  match stream_header nCompressedDataSize with
  | Undef u => Undef u
  | Fail => Ok (SIZE_ERR, out)
  | Ok (p, t) =>
      let sum := match t with CHECKSUM_ZLIB => em_inflate_adler32_z 0 None | _ => 0 end in
      let r := em_lsb_bitreader_init p nCompressedDataSize in
      '(e, out) ← inflate_loop (S (Z.to_nat (8 * nCompressedDataSize + 8))) t nMaxOutDataSize 0 sum r out;
      match e with
      | None => Ok (SIZE_ERR, out)
      | Some (n, sum, r) =>
          let '(_, r) := em_lsb_bitreader_byte_align r in
          match check_trailer t sum (pInBlock r) nCompressedDataSize with
          | Ok _ => Ok (n, out)
          | Fail => Ok (SIZE_ERR, out)
          | Undef u => Undef u
          end
      end
  end.
End inflate.
