(* ===== verification/InflateSafe.v ===== *)
(** The inflater on any input: it ends, writes only inside the room it was given,
    and leaves the input and its tables only where [inflate_safe] says. *)
From S2P Require Import Prelude Checksum BitReader Huffman Canonical Inflate.

(** ** Table entries *)

Lemma literal_entry_check :
  forallb (fun s => let e := literal_entry (Z.of_nat s) in
    (0 <=? e) && (e <? 2 ^ 24) &&
    ((e <? 256) || (e =? 256) ||
     (negb (e =? ERR) && ((e >> 16) .& 15 <=? 5) && (3 <=? e .& 0x7fff) && (e .& 0x7fff <=? 258)))) (seq 0 288) = true.
Proof. vm_compute. reflexivity. Qed.

Lemma offset_entry_check :
  forallb (fun s => let e := offset_entry (Z.of_nat s) in
    (0 <=? e) && (e <? 2 ^ 24) && ((e >> 16) .& 15 <=? 13)) (seq 0 32) = true.
Proof. vm_compute. reflexivity. Qed.

Lemma literal_entry_cases s : (s < 288)%nat ->
  let e := literal_entry (Z.of_nat s) in
  0 <= e < 2 ^ 24
  /\ (e < 256 \/ e = 256 \/ (e <> ERR /\ (e >> 16) .& 15 <= 5 /\ 3 <= e .& 0x7fff <= 258)).
Proof.
  intros Hs e. pose proof literal_entry_check as H. rewrite forallb_forall in H.
  specialize (H s ltac:(apply in_seq; lia)). cbv zeta in H. fold e in H. zbool. lia.
Qed.

Lemma offset_entry_cases s : (s < 32)%nat ->
  let e := offset_entry (Z.of_nat s) in 0 <= e < 2 ^ 24 /\ (e >> 16) .& 15 <= 13.
Proof.
  intros Hs e. pose proof offset_entry_check as H. rewrite forallb_forall in H.
  specialize (H s ltac:(apply in_seq; lia)). cbv zeta in H. fold e in H. zbool. lia.
Qed.

Section safe.
Context (inp : bytes).
Hypothesis inp_ok : bytes_ok inp.

Abbreviation size := (Z.of_nat (length inp)).

(** ** Copying *)

(** Nothing outside the first [n] bytes of the buffer changed, and it still holds
    bytes. *)
Definition kept (n : Z) (out out' : bytes) : Prop :=
  length out' = length out /\ drop (Z.to_nat n) out' = drop (Z.to_nat n) out
  /\ (bytes_ok out -> bytes_ok out').

Lemma kept_refl n out : kept n out out.
Proof. done. Qed.

Lemma kept_trans n a b c : kept n a b -> kept n b c -> kept n a c.
Proof. intros (H1 & H2 & H3) (H4 & H5 & H6). split; [congruence|]. split; [congruence|auto]. Qed.

Lemma kept_store n out i v : 0 <= i < n -> n <= Z.of_nat (length out) -> (bytes_ok out -> byte_ok v) ->
  exists out', store out i v = Ok out' /\ kept n out out'.
Proof.
  intros Hi Hn Hv. rewrite store_ok by lia. eexists. split; [done|]. split; [by rewrite length_insert|].
  split; [apply drop_insert_lt; lia|]. intros Ho. apply Forall_insert; [exact Ho|exact (Hv Ho)].
Qed.

Lemma kept_write n out dst src :
  0 <= dst -> dst + Z.of_nat (length src) <= n -> n <= Z.of_nat (length out) -> (bytes_ok out -> bytes_ok src) ->
  exists out', write_bytes out dst src = Ok out' /\ kept n out out'.
Proof.
  intros Hd Hs Hn Hv. unfold write_bytes. rewrite (proj2 (Z.leb_le 0 dst)), (proj2 (Z.leb_le _ _)) by lia. cbn [andb].
  eexists. split; [done|]. split; [apply length_overlay; lia|].
  unfold overlay. split.
  - rewrite app_assoc, drop_app_ge by (rewrite length_app, length_take; lia).
    rewrite drop_drop. f_equal. rewrite length_app, length_take. lia.
  - intros Ho. apply Forall_app_2; [by apply Forall_take|]. apply Forall_app_2; [exact (Hv Ho)|by apply Forall_drop].
Qed.

Lemma copy_bytes_run n F k : forall out dst src,
  0 <= src -> src <= dst -> dst + Z.of_nat k <= n -> n <= Z.of_nat (length out) ->
  run (copy_bytes k out dst src) (kept n out) F.
Proof.
  induction k as [|k IH]; intros out dst src Hs Hd Hk Hn; cbn [copy_bytes]; [apply kept_refl|].
  eapply run_bind; [apply run_index; lia|]. cbn beta. intros b Hb.
  destruct (kept_store n out dst b) as (o & -> & Ho); [lia|done|intros H; by eapply Forall_lookup_1 in Hb|]. cbn [mbind res_bind].
  eapply run_mono; [apply IH|intros o' Ho'; by eapply kept_trans|done]; destruct Ho; lia.
Qed.

Lemma copy16_run n F fuel : forall out dst src stop,
  0 <= src -> src + 16 <= dst -> dst < stop -> stop <= n - 15 -> n <= Z.of_nat (length out) ->
  stop - dst < Z.of_nat fuel -> run (copy16 fuel out dst src stop) (kept n out) F.
Proof.
  induction fuel as [|fuel IH]; intros out dst src stop Hs Hd Hst Hn Hl Hf; [lia|]. cbn [copy16].
  unfold read_bytes. rewrite (proj2 (Z.leb_le 0 src)), (proj2 (Z.leb_le _ _)) by lia. cbn [andb mbind res_bind].
  destruct (kept_write n out dst (sub out (Z.to_nat src) (Z.to_nat 16))) as (o & -> & Ho);
    [lia|rewrite length_sub; lia|done|intros H; by apply Forall_take, Forall_drop|]. cbn [mbind res_bind].
  destruct (Z.ltb_spec (dst + 16) stop); [|done].
  eapply run_mono; [apply IH|intros o' Ho'; by eapply kept_trans|done]; destruct Ho; lia.
Qed.

Lemma copy_match_run F out pCur pEnd len off :
  0 <= pCur <= pEnd -> pEnd <= Z.of_nat (length out) -> 1 <= len -> 0 <= off ->
  run (copy_match out pCur pEnd len off) (fun o =>
    match o with Some out' => kept pEnd out out' /\ pCur + len <= pEnd | None => True end) F.
Proof.
  intros Hc He Hl Ho. unfold copy_match. destruct (Z.leb_spec 0 (pCur - off)) as [Hs|]; [|done].
  destruct ((16 <=? off) && (pCur + len <=? pEnd - 15)) eqn:Hfast.
  - zbool. eapply run_bind; [apply (copy16_run pEnd); lia|]. intros o Hk. cbn. split; [done|lia].
  - destruct (Z.ltb_spec pEnd (pCur + len)); [done|].
    eapply run_bind; [apply (copy_bytes_run pEnd); lia|]. intros o Hk. cbn. split; [done|lia].
Qed.

(** ** Reading *)

Lemma get_bits_run F n k r :
  reader_safe inp k r -> 0 <= n <= 16 ->
  run (em_lsb_bitreader_get_bits inp n r) (fun '(v, r') =>
    v = ERR \/ (0 <= v < 2 ^ n /\ reader_safe inp (k + n) r')) F.
Proof using inp_ok.
  intros Hr Hn. destruct (get_bits_safe inp inp_ok k n r Hr Hn) as (v & r' & -> & _ & Hv). cbn.
  destruct Hv as [[-> _]|(H1 & H2 & _)]; [by left|by right].
Qed.

Lemma land15_range e : 0 <= (e >> 16) .& 15 <= 16.
Proof. change 15 with (Z.ones 4). rewrite land_ones_mod by lia. pose proof (Z.mod_pos_bound (e >> 16) (2 ^ 4)). lia. Qed.

Lemma land7fff_nonneg e : 0 <= e .& 0x7fff.
Proof. change 0x7fff with (Z.ones 15). rewrite land_ones_mod by lia. apply Z.mod_pos_bound. lia. Qed.

Lemma read_value_run F L f t k r :
  decodes inp L f t -> reader_safe inp k r ->
  run (em_lsb_huffman_decoder_read_value inp t r) (fun '(x, r') =>
    x = ERR \/ (exists s, (s < length L)%nat /\ x = f (Z.of_nat s)) /\ reader_safe inp k r') F.
Proof.
  intros Ht Hr. destruct (dec_safe _ _ _ _ Ht k r Hr) as (x & r' & -> & _ & Hx). cbn.
  destruct Hx as [[-> _]|(s & Hs & -> & Hr')]; [by left|right]. split; [by exists s|].
  eapply reader_safe_weaken; [exact Hr'|lia].
Qed.

Lemma err_big : ERR = 2 ^ 32 - 1.
Proof. reflexivity. Qed.

Lemma read_match_run F DL off k r cw :
  decodes inp DL offset_entry off -> (length DL <= 32)%nat -> reader_safe inp k r ->
  3 <= cw .& 0x7fff ->
  run (read_match inp off cw r) (fun o =>
    match o with Some (len, mo, r') => 3 <= len /\ 0 <= mo /\ reader_safe inp k r' | None => True end) F.
Proof using inp_ok.
  intros Ht Hl Hr Hcw. unfold read_match. pose proof (land15_range cw) as H15.
  eapply run_bind; [by apply (get_bits_run F _ k)|]. intros [ml r1] H1.
  destruct (Z.eqb_spec ml ERR) as [|Hne]; [done|]. destruct H1 as [|[Hml H1]]; [done|].
  eapply run_bind; [eapply read_value_run; [exact Ht|exact H1]|]. intros [oc r2] H2.
  destruct (Z.eqb_spec oc ERR) as [|Hne2]; [done|]. destruct H2 as [|[_ H2]]; [done|].
  pose proof (land15_range oc) as H15'. pose proof (land7fff_nonneg oc).
  eapply run_bind; [by apply (get_bits_run F _ (k + (cw >> 16) .& 15))|]. intros [mo r3] H3.
  destruct (Z.eqb_spec mo ERR) as [|Hne3]; [done|]. destruct H3 as [|[Hmo H3]]; [done|]. cbn [run].
  split; [lia|]. split; [lia|]. eapply reader_safe_weaken; [exact H3|lia].
Qed.

(** ** The block loop *)

Lemma block_loop_run F LL DL lit off pEnd fuel : forall k pCur r out,
  decodes inp LL literal_entry lit -> (length LL <= 288)%nat ->
  decodes inp DL offset_entry off -> (length DL <= 32)%nat ->
  reader_safe inp k r -> 0 <= pCur <= pEnd -> pEnd <= Z.of_nat (length out) -> pEnd - pCur < Z.of_nat fuel ->
  run (block_loop inp fuel lit off pCur pEnd r out) (fun '(e, out') => kept pEnd out out' /\
    match e with Some (p, r') => pCur <= p <= pEnd /\ reader_safe inp k r' | None => True end) F.
Proof using inp_ok.
  induction fuel as [|fuel IH]; intros k pCur r out Hlit HLL Hoff HDL Hr Hp Hl Hf; [lia|]. cbn [block_loop].
  eapply run_bind; [by eapply read_value_run|]. intros [cw r1] H1.
  destruct (Z.ltb_spec cw 256) as [Hcw|Hcw].
  { destruct H1 as [->|[(s & Hs & Ecw) H1]]; [by rewrite err_big in Hcw|].
    destruct (literal_entry_cases s ltac:(lia)) as [Hb _]. rewrite <- Ecw in Hb.
    destruct (Z.ltb_spec pCur pEnd); [|cbn; split; [apply kept_refl|done]].
    destruct (kept_store pEnd out pCur cw) as (o & -> & Ho); [lia|done|intros _; split; lia|]. cbn [mbind res_bind].
    eapply run_mono; [apply (IH k); try done; destruct Ho; lia| |done].
    intros [e o'] [Hk He]. split; [by eapply kept_trans|]. destruct e as [[p r']|]; [|done]. destruct He. split; [lia|done]. }
  destruct (Z.eqb_spec cw NEODMARKERSYM) as [Heod|Heod].
  { destruct H1 as [->|[_ H1]]; [done|]. cbn. split; [apply kept_refl|]. split; [lia|done]. }
  destruct (Z.eqb_spec cw ERR) as [Herr|Herr]; [cbn; split; [apply kept_refl|done]|].
  destruct H1 as [|[(s & Hs & Ecw) H1]]; [done|].
  destruct (literal_entry_cases s ltac:(lia)) as [_ Hcases]. cbv zeta in Hcases. rewrite <- Ecw in Hcases.
  unfold NEODMARKERSYM in Heod. destruct Hcases as [|[|(_ & _ & Hbase)]]; [lia|done|].
  eapply run_bind; [apply (read_match_run F DL off k r1 cw); done || lia|].
  intros [[[len mo] r2]|] H2; [|cbn; split; [apply kept_refl|done]]. destruct H2 as (Hlen & Hmo & H2).
  eapply run_bind; [apply (copy_match_run F out pCur pEnd len mo); lia|].
  intros [o|] Ho; [|cbn; split; [apply kept_refl|done]]. destruct Ho as [Ho Hroom].
  eapply run_mono; [apply (IH k); try done; destruct Ho; lia| |done].
  intros [e o'] [Hk He]. split; [by eapply kept_trans|]. destruct e as [[p r']|]; [|done]. destruct He. split; [lia|done].
Qed.

(** ** Code lengths *)

(** An array of [m] code lengths. *)
Definition lens_ok (m : nat) (lens : list Z) : Prop := length lens = m /\ Forall (fun x => 0 <= x) lens.

Lemma lens_store m lens i v : lens_ok m lens -> 0 <= i < Z.of_nat m -> 0 <= v ->
  exists lens', store lens i v = Ok lens' /\ lens_ok m lens'.
Proof.
  intros [Hm Hn] Hi Hv. rewrite store_ok by lia. eexists. split; [done|].
  split; [by rewrite length_insert|by apply Forall_insert].
Qed.

Lemma code_len_index F i : 0 <= i < 19 -> run (index nCodeLenSymIndex i) (fun j => 0 <= j < 19) F.
Proof.
  intros Hi. eapply run_mono; [apply run_index; exact Hi| |done]. cbn. intros j Hj.
  assert (H : Forall (fun j => 0 <= j < 19) nCodeLenSymIndex) by (repeat constructor; lia).
  exact (Forall_lookup_1 _ _ _ _ H Hj).
Qed.

Lemma raw_lengths_run m n k lens r :
  (19 <= m)%nat -> 0 <= n <= 19 -> lens_ok m lens -> reader_safe inp k r ->
  run (em_lsb_huffman_decoder_read_raw_lengths inp NCODELENBITS n NCODELENSYMS lens r)
    (fun '(lens', r') => lens_ok m lens' /\ reader_safe inp k r') True.
Proof using inp_ok.
  intros Hm Hn Hl Hr. unfold em_lsb_huffman_decoder_read_raw_lengths, NCODELENSYMS.
  destruct (bad_counts n 19); [done|].
  eapply run_bind; [apply (run_for (fun (_ : Z) (st : list Z * em_lsb_bitreader_t) => lens_ok m (fst st) /\ reader_safe inp k (snd st)))|].
  - intros j [ln q] Hj [H1 H2]. cbn [fst snd] in *.
    eapply run_bind; [apply (get_bits_run True NCODELENBITS k); [done|unfold NCODELENBITS; lia]|]. intros [v q'] Hv.
    destruct (Z.eqb_spec v ERR); [done|]. destruct Hv as [|[Hv Hq]]; [done|].
    eapply run_bind; [apply code_len_index; lia|]. cbn beta. intros x Hx.
    destruct (lens_store m ln x (u8 v) H1) as (l' & -> & Hl'); [lia|apply u8_range|]. cbn [mbind res_bind run fst snd].
    split; [done|]. eapply reader_safe_weaken; [exact Hq|unfold NCODELENBITS; lia].
  - done.
  - intros [ln q] [H1 H2]. cbn [fst snd] in *.
    eapply run_bind; [apply (run_for (fun (_ : Z) ln => lens_ok m ln))|].
    + intros j l1 Hj Hl1. eapply run_bind; [apply code_len_index; lia|]. cbn beta. intros x Hx.
      destruct (lens_store m l1 x 0 Hl1) as (l' & -> & Hl'); [lia|lia|]. done.
    + done.
    + intros l' Hl'. done.
Qed.

Lemma fill_run_run F m nRead v k : forall i lens,
  lens_ok m lens -> 0 <= i <= nRead -> nRead <= Z.of_nat m -> 0 <= v ->
  run (fill_run k i nRead v lens) (fun '(i', lens') => lens_ok m lens' /\ i <= i' <= nRead
    /\ ((1 <= k)%nat -> i < nRead -> i < i')) F.
Proof.
  induction k as [|k IH]; intros i lens Hl Hi Hm Hv; cbn [fill_run]; [cbn [run]; split; [done|]; split; [lia|]; intros; lia|].
  destruct (Z.ltb_spec i nRead); [|cbn [run]; split; [done|]; split; [lia|]; intros; lia].
  destruct (lens_store m lens i (u8 v) Hl) as (l' & -> & Hl'); [lia|apply u8_range|]. cbn [mbind res_bind].
  eapply run_mono; [apply (IH (i + 1) l'); done || lia| |done]. intros [i' l2] (H1 & H2 & _).
  split; [done|]. split; [lia|]. intros _ _. lia.
Qed.

Lemma run_of_cases s prev : (s < 19)%nat -> ~ Z.of_nat s < 16 -> 0 <= prev ->
  exists bits base p, run_of (Z.of_nat s) prev = Some (bits, base, p) /\ 0 <= bits <= 16 /\ 3 <= base /\ 0 <= p.
Proof.
  intros Hs H16 Hp. unfold run_of.
  destruct (Z.eqb_spec (Z.of_nat s) 16); [by exists 2, 3, prev|].
  destruct (Z.eqb_spec (Z.of_nat s) 17); [by exists 3, 3, 0|].
  destruct (Z.eqb_spec (Z.of_nat s) 18); [by exists 7, 11, 0|]. lia.
Qed.

Lemma var_lengths_loop_run CL t m nRead k fuel : forall i prev lens r,
  decodes inp CL id t -> (length CL <= 19)%nat -> lens_ok m lens -> reader_safe inp k r ->
  0 <= i <= nRead -> nRead <= Z.of_nat m -> 0 <= prev -> nRead - i < Z.of_nat fuel ->
  run (var_lengths_loop inp fuel t nRead i prev lens r)
    (fun '(lens', r') => lens_ok m lens' /\ reader_safe inp k r') True.
Proof using inp_ok.
  induction fuel as [|fuel IH]; intros i prev lens r Ht HCL Hl Hr Hi Hm Hp Hf; [lia|]. cbn [var_lengths_loop].
  destruct (Z.ltb_spec i nRead) as [Hlt|]; [|done].
  eapply run_bind; [by eapply read_value_run|]. intros [x q] Hx.
  destruct (Z.eqb_spec x ERR); [done|]. destruct Hx as [|[(s & Hs & ->) Hq]]; [done|]. unfold id in *.
  destruct (Z.ltb_spec (Z.of_nat s) 16).
  { destruct (lens_store m lens i (u8 (Z.of_nat s)) Hl) as (l' & -> & Hl'); [lia|apply u8_range|]. cbn [mbind res_bind].
    apply IH; try done; lia. }
  destruct (run_of_cases s prev) as (bits & base & p & -> & Hb & Hbase & Hp'); [lia..|].
  eapply run_bind with (Q := fun '(n, p', q') => 1 <= n /\ p' = p /\ reader_safe inp k q').
  - eapply run_bind; [apply (get_bits_run True bits k); done|]. intros [v q'] Hv.
    destruct (Z.eqb_spec v ERR); [done|]. destruct Hv as [|[Hv Hq']]; [done|]. cbn.
    split; [lia|]. split; [done|]. eapply reader_safe_weaken; [exact Hq'|lia].
  - intros [[rl p'] q'] (Hn & -> & Hq').
    eapply run_bind; [apply (fill_run_run True m nRead p (Z.to_nat rl) i lens); done || lia|].
    intros [i' l'] (Hl' & Hi' & Hprog). specialize (Hprog ltac:(lia) Hlt). apply IH; try done; lia.
Qed.

Lemma var_lengths_run CL t m nRead nSym k lens r :
  decodes inp CL id t -> (length CL <= 19)%nat -> lens_ok m lens -> reader_safe inp k r -> nSym <= Z.of_nat m ->
  run (em_lsb_huffman_decoder_read_var_lengths inp t nRead nSym lens r)
    (fun '(lens', r') => lens_ok m lens' /\ reader_safe inp k r') True.
Proof using inp_ok.
  intros Ht HCL Hl Hr Hm. unfold em_lsb_huffman_decoder_read_var_lengths.
  destruct ((nRead <? 0) || (nSym <? 0) || (nSym <? nRead)) eqn:Hg; [done|]. zbool.
  eapply run_bind; [eapply (var_lengths_loop_run CL t m); done || lia|]. intros [ln q] [H1 H2].
  eapply run_bind; [apply (run_for (fun (_ : Z) ln => lens_ok m ln))|].
  - intros j l1 Hj Hl1. destruct (lens_store m l1 j 0 Hl1) as (l' & -> & Hl'); [lia|lia|]. done.
  - done.
  - intros l' Hl'. done.
Qed.

(** ** Tables of a block *)

(** A table prepared from some code lengths. *)
Definition some_prepared (nSym : Z) (p : em_lsb_huffman_decoder_t * list Z) : Prop :=
  exists C n, (n <= length C)%nat /\ Z.of_nat n <= nSym /\ prepared C n nSym (fst p) (snd p).

Lemma prepare_some nSym n C :
  Forall (fun x => 0 <= x) C -> 0 <= n <= Z.of_nat (length C) -> n <= nSym <= MAX_SYMBOLS ->
  run (em_lsb_huffman_decoder_prepare_table n nSym C) (some_prepared nSym) True.
Proof.
  intros HC Hn Hs. rewrite <- (Z2Nat.id n) by lia.
  eapply run_mono; [apply (prepare_run C (Z.to_nat n) nSym HC); [lia|lia|done]| |done].
  intros [d rev] Hp. exists C, (Z.to_nat n). split; [lia|]. split; [lia|done].
Qed.

Lemma finalize_some f nSym p :
  some_prepared nSym p -> nSym <= MAX_SYMBOLS -> (forall s, 0 <= s < nSym -> 0 <= f s < 2 ^ 24) ->
  run (em_lsb_huffman_decoder_finalize_table (fst p) (map f (snd p)))
    (fun t => exists L, decodes inp L f t /\ Z.of_nat (length L) <= nSym) True.
Proof using inp_ok.
  intros (C & n & Hn & Hs & Hp) Hm Hf.
  eapply run_mono; [apply (finalize_prepared inp C n nSym f inp_ok Hn); [lia|intros s H; apply Hf; lia|exact Hp]| |done].
  intros t [Ht _]. exists (take n C). split; [done|]. rewrite length_take. lia.
Qed.

Lemma get_count_run (F : Prop) n k r :
  reader_safe inp k r -> 0 <= n <= 16 -> forall {B} (c : Z -> em_lsb_bitreader_t -> res B) Q,
  (forall v r', 0 <= v < 2 ^ n -> reader_safe inp k r' -> run (c v r') Q True) ->
  run ('(v, r') ← em_lsb_bitreader_get_bits inp n r; if v =? ERR then Fail else c v r') Q True.
Proof using inp_ok.
  intros Hr Hn B c Q Hc. eapply run_bind; [by apply (get_bits_run True n k)|]. intros [v r'] Hv.
  destruct (Z.eqb_spec v ERR); [done|]. destruct Hv as [|[Hv Hr']]; [done|]. apply Hc; [done|].
  eapply reader_safe_weaken; [exact Hr'|lia].
Qed.

Lemma dynamic_tables_run k r :
  reader_safe inp k r ->
  run (dynamic_tables inp r) (fun '(lit, off, r') =>
    some_prepared NLITERALSYMS lit /\ some_prepared NOFFSETSYMS off /\ reader_safe inp k r') True.
Proof using inp_ok.
  intros Hr. unfold dynamic_tables.
  apply (get_count_run True 5 k r Hr); [lia|]. intros nl r1 Hnl H1. destruct (Z.ltb_spec NLITERALSYMS (nl + 257)) as [|Hl]; [done|].
  apply (get_count_run True 5 k r1 H1); [lia|]. intros no r2 Hno H2. destruct (Z.ltb_spec NOFFSETSYMS (no + 1)) as [|Ho]; [done|].
  apply (get_count_run True 4 k r2 H2); [lia|]. intros nc r3 Hnc H3. destruct (Z.ltb_spec NCODELENSYMS (nc + 4)) as [|Hc]; [done|].
  unfold NLITERALSYMS, NOFFSETSYMS, NCODELENSYMS in *. change (Z.to_nat (288 + 32)) with 320%nat.
  eapply run_bind; [apply (raw_lengths_run 320 (nc + 4) k); [lia|lia| |done]|].
  { split; [by rewrite length_replicate|]. apply Forall_replicate. lia. }
  intros [C1 r4] [[HC1 HC1n] H4].
  eapply run_bind; [apply (prepare_some 19); [done|lia|unfold MAX_SYMBOLS; lia]|]. intros [d rev] Hp.
  eapply run_bind.
  { replace rev with (map id rev) by apply map_id. apply (finalize_some id 19 (d, rev)); [done|done|unfold id; lia]. }
  intros t (CL & Ht & HCL).
  eapply run_bind; [apply (var_lengths_run CL t 320 _ _ k); [done|lia|done|done|lia]|].
  intros [C2 r5] [[HC2 HC2n] H5].
  eapply run_bind; [apply (prepare_some 288); [done|lia|unfold MAX_SYMBOLS; lia]|]. intros lit Hlit.
  eapply run_bind; [apply (prepare_some 32); [by apply Forall_drop|rewrite length_drop; lia|unfold MAX_SYMBOLS; lia]|].
  intros off Hoff. cbn. done.
Qed.

Lemma static_tables_run :
  run static_tables (fun '(lit, off) => some_prepared NLITERALSYMS lit /\ some_prepared NOFFSETSYMS off) True.
Proof.
  unfold static_tables, NLITERALSYMS, NOFFSETSYMS.
  eapply run_bind; [apply (prepare_some 288); [repeat constructor; lia|by cbn|unfold MAX_SYMBOLS; lia]|]. intros lit Hlit.
  eapply run_bind; [apply (prepare_some 32); [repeat constructor; lia|by cbn|unfold MAX_SYMBOLS; lia]|]. intros off Hoff.
  cbn. done.
Qed.

Lemma literal_entry_small s : 0 <= s < 288 -> 0 <= literal_entry s < 2 ^ 24.
Proof. intros H. pose proof (literal_entry_cases (Z.to_nat s) ltac:(lia)) as [Hr _]. by rewrite Z2Nat.id in Hr by lia. Qed.

Lemma offset_entry_small s : 0 <= s < 32 -> 0 <= offset_entry s < 2 ^ 24.
Proof. intros H. pose proof (offset_entry_cases (Z.to_nat s) ltac:(lia)) as [Hr _]. by rewrite Z2Nat.id in Hr by lia. Qed.

Lemma block_tables_run dyn k r :
  reader_safe inp k r ->
  run (block_tables inp dyn r) (fun '(l, o, r') => exists LL DL,
    decodes inp LL literal_entry l /\ (length LL <= 288)%nat
    /\ decodes inp DL offset_entry o /\ (length DL <= 32)%nat /\ reader_safe inp k r') True.
Proof using inp_ok.
  intros Hr. unfold block_tables. eapply run_bind with (Q := fun '(lit, off, r') =>
    some_prepared NLITERALSYMS lit /\ some_prepared NOFFSETSYMS off /\ reader_safe inp k r').
  { destruct dyn; [by apply dynamic_tables_run|].
    eapply run_bind; [apply static_tables_run|]. intros [lit off] [H1 H2]. cbn. done. }
  intros [[lit off] r'] (Hlit & Hoff & Hr').
  eapply run_bind; [apply (finalize_some literal_entry 288); [done|done|apply literal_entry_small]|]. intros l (LL & Hl & HLL).
  eapply run_bind; [apply (finalize_some offset_entry 32); [done|done|apply offset_entry_small]|]. intros o (DL & Ho & HDL).
  cbn. exists LL, DL. split; [done|]. split; [lia|]. split; [done|]. split; [lia|done].
Qed.

(** ** Blocks *)

(** What a block leaves: the buffer outside the room, and a reader. *)
Definition block_post (off room k : Z) (out : bytes) (x : option (Z * em_lsb_bitreader_t) * bytes) : Prop :=
  kept (off + room) out (snd x)
  /\ match fst x with Some (n, r') => 0 <= n <= room /\ reader_safe inp k r' | None => True end.

Lemma decompress_block_run dyn k r out off room F :
  reader_safe inp k r -> 0 <= off -> 0 <= room -> off + room <= Z.of_nat (length out) ->
  run (em_inflate_decompress_block inp r dyn out off room) (block_post off room k out) F.
Proof using inp_ok.
  intros Hr Ho Hm Hl. unfold em_inflate_decompress_block. pose proof (block_tables_run dyn k r Hr) as Ht.
  destruct (block_tables inp dyn r) as [[[lit of'] r1]| |]; cbn in Ht; [|cbn; split; [apply kept_refl|done]|done].
  destruct Ht as (LL & DL & H1 & H2 & H3 & H4 & H5).
  eapply run_bind; [apply (block_loop_run F LL DL lit of' (off + room) _ k); done || lia|].
  intros [e o] [Hk He]. destruct e as [[p r']|]; cbn; split; try done. cbn. destruct He. split; [lia|done].
Qed.

(** Defined, but for the two places where the source is not. *)
Definition tame {A} (m : res A) (Q : A -> Prop) : Prop :=
  match m with Ok a => Q a | Fail => False | Undef u => u = UbStored \/ u = UbBlockType end.

Lemma tame_run {A} (m : res A) Q : run m Q False -> tame m Q.
Proof. by destruct m. Qed.

Lemma tame_bind {A B} (m : res A) (c : A -> res B) Q R :
  tame m Q -> (forall a, Q a -> tame (c a) R) -> tame (m ≫= c) R.
Proof. destruct m; cbn; auto. Qed.

Lemma tame_mono {A} (m : res A) (Q R : A -> Prop) : tame m Q -> (forall a, Q a -> R a) -> tame m R.
Proof. destruct m; cbn; auto. Qed.

Lemma index_byte F p : 0 <= p < size -> run (index inp p) byte_ok F.
Proof using inp_ok.
  intros Hp. eapply run_mono; [by apply run_index| |done]. cbn. intros b Hb. exact (Forall_lookup_1 _ _ _ _ inp_ok Hb).
Qed.

Lemma read_u16_run F p : 0 <= p -> p + 2 <= size -> run (read_u16 inp p) (fun v => 0 <= v < 2 ^ 16) F.
Proof using inp_ok.
  intros Hp Hs. unfold read_u16. eapply run_bind; [apply index_byte; lia|]. intros a Ha.
  eapply run_bind; [apply index_byte; lia|]. intros b Hb. cbn [run]. unfold byte_ok in *.
  rewrite lor_shiftl by lia. lia.
Qed.

Lemma copy_stored_tame k r out off room :
  reader_safe inp k r -> 1 <= k -> 0 <= off -> 0 <= room -> off + room <= Z.of_nat (length out) ->
  tame (em_inflate_copy_stored inp r out off room) (block_post off room k out).
Proof using inp_ok.
  intros Hr Hk Ho Hm Hl. unfold em_inflate_copy_stored.
  assert (Hfail : block_post off room k out (None, out)) by (split; [apply kept_refl|done]).
  destruct (byte_align_safe inp k r Hr Hk) as (p & -> & Hp & Hpk). cbn [Z.ltb Z.compare].
  destruct (rs_pointers _ _ _ Hr) as (Hp0 & _ & Hpe). cbn [pInBlockEnd pInBlock].
  destruct (Z.ltb_spec (pInBlockEnd r) (p + 4)) as [|Hroom]; [exact Hfail|].
  eapply tame_bind; [apply tame_run, read_u16_run; lia|]. cbn beta. intros len Hlen.
  eapply tame_bind; [apply tame_run, read_u16_run; lia|]. cbn beta. intros neg Hneg.
  destruct (negb _); [exact Hfail|]. destruct (Z.ltb_spec room len); [exact Hfail|].
  cbn [pInBlock set_in]. unfold read_bytes.
  destruct ((0 <=? p + 4) && (p + 4 + len <=? size)) eqn:Hin; [|by left]. zbool. cbn [mbind res_bind].
  destruct (kept_write (off + room) out off (sub inp (Z.to_nat (p + 4)) (Z.to_nat len))) as (o & -> & Hko);
    [lia|rewrite length_sub; lia|done|intros _; by apply Forall_take, Forall_drop|]. cbn [mbind res_bind tame]. split; [done|]. cbn [fst]. split; [lia|].
  split; cbn; [split; cbn; lia|lia|lia|lia|]. destruct (_ =? _); lia.
Qed.

Lemma inflate_block_tame k nMax cur r out :
  reader_safe inp k r -> 0 <= k -> 0 <= cur <= nMax -> nMax <= Z.of_nat (length out) ->
  tame (inflate_block inp nMax cur r out) (fun '(_, e, out') => kept nMax out out' /\
    match e with
    | Some (n, r') => 0 <= n <= nMax - cur /\ reader_safe inp (k + 3) r' /\ k + 3 <= 8 * size + 8
    | None => True
    end).
Proof using inp_ok.
  intros Hr Hk Hc Hl. unfold inflate_block.
  destruct (get_bits_safe inp inp_ok k 1 r Hr ltac:(lia)) as (f & r1 & -> & _ & [(-> & -> & Hc1 & Hm)|(_ & H1 & _)]); cbn [mbind res_bind].
  { unfold em_lsb_bitreader_get_bits. rewrite Hm. destruct (Z.ltb_spec (nDecShifterBitCount r) 2); [|lia].
    cbn. by right. }
  destruct (get_bits_safe inp inp_ok (k + 1) 2 r1 H1 ltac:(lia)) as (ty & r2 & -> & _ & Hty); cbn [mbind res_bind].
  destruct Hty as [(-> & _)|(Hty & H2 & Hc2)]; [by right|]. specialize (Hc2 ltac:(lia)).
  rewrite <- Z.add_assoc in H2. change (1 + 2) with 3 in H2.
  assert (Hk3 : k + 3 <= 8 * size + 8).
  { destruct H2 as [(? & ? & ?) _ _ _ Hrd]. destruct (_ =? _) in Hrd; lia. }
  eapply tame_bind with (Q := block_post cur (nMax - cur) (k + 3) out).
  - destruct (Z.eqb_spec ty 0); [apply copy_stored_tame; done || lia|].
    destruct (Z.eqb_spec ty 1); [apply tame_run, decompress_block_run; done || lia|].
    destruct (Z.eqb_spec ty 2); [apply tame_run, decompress_block_run; done || lia|].
    destruct (Z.eqb_spec ty 3); [|by right]. split; [apply kept_refl|done].
  - intros [e o] [Hko He]. cbn [fst snd] in *. cbn [tame]. replace (cur + (nMax - cur)) with nMax in Hko by lia.
    split; [done|]. destruct e as [[n r']|]; [|done]. destruct He. done.
Qed.

Lemma inflate_loop_tame t nMax fuel : forall k cur sum r out,
  reader_safe inp k r -> 0 <= k -> 0 <= cur <= nMax -> nMax <= Z.of_nat (length out) ->
  (1 <= fuel)%nat -> 8 * size + 9 <= Z.of_nat fuel + k ->
  tame (inflate_loop inp fuel t nMax cur sum r out) (fun '(e, out') => kept nMax out out' /\
    match e with Some (n, _, r') => 0 <= n <= nMax /\ reader_safe inp 1 r' | None => True end).
Proof using inp_ok.
  induction fuel as [|fuel IH]; intros k cur sum r out Hr Hk Hc Hl Hf1 Hf; [lia|]. cbn [inflate_loop].
  eapply tame_bind; [by apply (inflate_block_tame k)|]. intros [[final e] o] [Hko He].
  destruct e as [[n r']|]; [|cbn; done]. destruct He as (Hn & Hr' & Hk3).
  destruct (truth final).
  - cbn [tame]. split; [done|]. split; [lia|]. eapply reader_safe_weaken; [exact Hr'|lia].
  - eapply tame_mono; [apply (IH (k + 3)); [exact Hr'|lia|lia|destruct Hko; lia|lia|lia]|].
    intros [e2 o2] [Hk2 He2]. split; [by eapply kept_trans|done].
Qed.

(** ** Headers and trailer *)

Lemma skip_string_run fuel : forall p,
  0 <= p -> size - p < Z.of_nat fuel -> p <= size ->
  run (skip_string inp fuel p size) (fun p' => 0 <= p' <= size) True.
Proof using inp_ok.
  induction fuel as [|fuel IH]; intros p Hp Hf Hs; [lia|]. cbn [skip_string].
  destruct (Z.leb_spec size p); [done|]. eapply run_bind; [apply index_byte; lia|]. intros b _.
  destruct (truth b); [apply IH; lia|cbn [run]; lia].
Qed.

Lemma guarded_skip c p n :
  0 <= p <= size -> 0 <= n ->
  run (if (c : bool) then if size <? p + n then Fail else Ok (p + n) else Ok p) (fun p' => 0 <= p' <= size) True.
Proof. intros Hp Hn. destruct c; [|cbn [run]; lia]. destruct (Z.ltb_spec size (p + n)); cbn [run]; [done|lia]. Qed.

Lemma gzip_header_run : run (gzip_header inp size) (fun p => 0 <= p <= size) True.
Proof using inp_ok.
  unfold gzip_header. cbv zeta. destruct (Z.ltb_spec size (2 + 8)) as [|Hs]; [done|].
  eapply run_bind; [apply index_byte; lia|]. intros m _. destruct (negb _); [done|].
  eapply run_bind; [apply index_byte; lia|]. intros flags _.
  eapply run_bind; [apply guarded_skip; lia|]. cbn beta. intros p1 H1.
  eapply run_bind with (Q := fun p => 0 <= p <= size).
  { destruct (truth _); [|cbn [run]; lia]. destruct (Z.ltb_spec size (p1 + 2)); [done|].
    eapply run_bind; [apply read_u16_run; lia|]. cbn beta. intros x Hx.
    apply (guarded_skip true); lia. }
  intros p2 H2. eapply run_bind with (Q := fun p => 0 <= p <= size).
  { destruct (truth _); [|cbn [run]; lia]. apply skip_string_run; lia. }
  intros p3 H3. eapply run_bind with (Q := fun p => 0 <= p <= size).
  { destruct (truth _); [|cbn [run]; lia]. apply skip_string_run; lia. }
  intros p4 H4. destruct (truth _); [done|exact H4].
Qed.

Lemma stream_header_run : run (stream_header inp size) (fun '(p, _) => 0 <= p <= size) True.
Proof using inp_ok.
  unfold stream_header. destruct (Z.ltb_spec size 2); [done|].
  eapply run_bind; [apply index_byte; lia|]. intros b0 _. eapply run_bind; [apply index_byte; lia|]. intros b1 _.
  destruct ((b0 =? 0x1f) && (b1 =? 0x8b)).
  { eapply run_bind; [apply gzip_header_run|]. intros p Hp. done. }
  destruct ((b0 .& 0x0f) =? 0x08); [|cbn [run]; lia].
  eapply run_bind with (Q := fun p => 0 <= p <= size); [|done].
  destruct (_ && _); [|cbn [run]; lia]. destruct (truth _); [|cbn [run]; lia].
  destruct (Z.ltb_spec size 6); cbn [run]; [done|lia].
Qed.

Lemma check_trailer_run t sum p : 0 <= p -> run (check_trailer inp t sum p size) (fun _ => True) True.
Proof using inp_ok.
  intros Hp. assert (H : run (if size <? p + 4 then (Fail : res unit) else
      b0 ← index inp p; b1 ← index inp (p + 1); b2 ← index inp (p + 2); b3 ← index inp (p + 3);
      if (match t with CHECKSUM_GZIP => b0 .| (b1 << 8) .| (b2 << 16) .| (b3 << 24)
          | _ => (b0 << 24) .| (b1 << 16) .| (b2 << 8) .| b3 end) =? sum then Ok tt else Fail) (fun _ => True) True).
  { destruct (Z.ltb_spec size (p + 4)); [done|].
    do 4 (eapply run_bind; [apply index_byte; lia|]; intros ? _). by destruct (_ =? _). }
  destruct t; [done|exact H|exact H].
Qed.
End safe.

Lemma em_inflate_safe inp out nMax :
  bytes_ok inp -> 0 <= nMax <= Z.of_nat (length out) ->
  match em_inflate inp (Z.of_nat (length inp)) out nMax with
  | Ok (n, out') => (n = SIZE_ERR \/ 0 <= n <= nMax) /\ kept nMax out out'
  | Fail => False
  | Undef u => u = UbStored \/ u = UbBlockType
  end.
Proof.
  intros Hi Hm. change (tame (em_inflate inp (Z.of_nat (length inp)) out nMax)
    (fun '(n, out') => (n = SIZE_ERR \/ 0 <= n <= nMax) /\ kept nMax out out')).
  unfold em_inflate. pose proof (stream_header_run inp Hi) as Hh.
  destruct (stream_header inp _) as [[p t]| |]; cbn in Hh; [|by split; [left|]|done].
  eapply tame_bind; [apply (inflate_loop_tame inp Hi t nMax _ 0)|].
  - split; [split; cbn; lia|cbn; lia|cbn; lia|cbn; lia|cbn; destruct (_ =? _); lia].
  - lia.
  - lia.
  - lia.
  - lia.
  - lia.
  - intros [e o] [Hk He]. destruct e as [[[n sum] r]|]; [|by split; [left|]]. destruct He as [Hn Hr].
    destruct (byte_align_safe inp 1 r Hr ltac:(lia)) as (q & -> & Hq & _). cbn [pInBlock].
    destruct (rs_pointers _ _ _ Hr) as (H0 & _ & _).
    pose proof (check_trailer_run inp Hi t sum q ltac:(lia)) as Hc.
    destruct (check_trailer inp t sum q _); [|by split; [left|]|done]. split; [by right|done].
Qed.

(** ** Theorems *)

(** C15: whatever the compressed data, [em_inflate] ends; it returns -1 or a size
    that fits the room it was given, writes no byte behind this room, and accesses
    neither an array outside its bounds nor shifts by a bad count.  The behaviour is
    undefined in two cases only: a stored block longer than the input, and an input
    that ends where a block type should stand. *)
Theorem inflate_safe inp out nMax :
  bytes_ok inp -> 0 <= nMax <= Z.of_nat (length out) ->
  match em_inflate inp (Z.of_nat (length inp)) out nMax with
  | Ok (n, out') => (n = SIZE_ERR \/ 0 <= n <= nMax) /\ kept nMax out out'
  | Fail => False
  | Undef u => u = UbStored \/ u = UbBlockType
  end.
Proof. apply em_inflate_safe. Qed.

(** ** Witnesses *)

(** zlib.compress(b'abc'), and a buffer of eight bytes of which four may be used. *)
Definition zlib_abc : bytes := [120; 156; 75; 76; 74; 6; 0; 2; 77; 1; 39].

Lemma inflate_safe_witness :
  em_inflate zlib_abc 11 (replicate 8 7) 4 = Ok (3, [97; 98; 99; 7; 7; 7; 7; 7])
  /\ kept 4 (replicate 8 7) [97; 98; 99; 7; 7; 7; 7; 7].
Proof.
  assert (E : em_inflate zlib_abc 11 (replicate 8 7) 4 = Ok (3, [97; 98; 99; 7; 7; 7; 7; 7])) by (vm_compute; reflexivity).
  split; [exact E|]. pose proof (inflate_safe zlib_abc (replicate 8 7) 4) as H.
  change (Z.of_nat (length zlib_abc)) with 11 in H. rewrite E in H. apply H; [repeat constructor; lia|cbn; lia].
Defined.

(** A stored block of five bytes at the end of the input: nothing checks that the
    bytes are there. *)
Lemma inflate_stored_overread :
  em_inflate [120; 1; 1; 5; 0; 250; 255] 7 (replicate 8 0) 8 = Undef UbStored.
Proof. vm_compute. reflexivity. Qed.

(** A stream that ends behind its header: the result of a block that was not read is used. *)
Lemma inflate_no_block_type : em_inflate [120; 156] 2 (replicate 8 0) 8 = Undef UbBlockType.
Proof. vm_compute. reflexivity. Qed.

(** Two bytes that are no zlib header are still taken for one when the trailer is checked. *)
Lemma bad_header_keeps_checksum : stream_header [120; 0; 0; 0] 4 = Ok (0, CHECKSUM_ZLIB).
Proof. reflexivity. Qed.

(** The symbols 286 and 287 of a static block stand for the literal 0. *)
Lemma reserved_literals_are_zero : literal_entry 286 = 0 /\ literal_entry 287 = 0.
Proof. done. Qed.
