(* ===== verification/Deflate.v ===== *)
(** The deflate format (RFC 1951) and its zlib and gzip wrappings (RFC 1950, 1952)
    as relations between bits and bytes, independent of the inflater.

    [items] is the body of a compressed block, [block] one block, [stream] a
    sequence of blocks up to the final one; [h] is the output before and [h'] the
    output after, and [rest] the bits that follow. *)
From S2P Require Import Prelude Checksum BitReader Huffman Canonical.

(** The low [n] bits of [v], least significant first. *)
Definition zbits (n : nat) (v : Z) : list bool := map (fun i => Z.testbit v (Z.of_nat i)) (seq 0 n).
Definition bytes_bits (bs : bytes) : list bool := mjoin (map (zbits 8) bs).

Lemma length_zbits n v : length (zbits n v) = n.
Proof. unfold zbits. by rewrite length_map, length_seq. Qed.

Lemma zbits_S n v : zbits (S n) v = zbits n v ++ [Z.testbit v (Z.of_nat n)].
Proof. unfold zbits. by rewrite seq_S, map_app. Qed.

Lemma length_bytes_bits bs : length (bytes_bits bs) = (8 * length bs)%nat.
Proof.
  unfold bytes_bits. induction bs as [|b bs IH]; [done|].
  cbn [map]. change (mjoin (zbits 8 b :: map (zbits 8) bs)) with (zbits 8 b ++ mjoin (map (zbits 8) bs)).
  rewrite length_app, length_zbits, IH. cbn [length]. lia.
Qed.

Lemma bytes_bits_app a b : bytes_bits (a ++ b) = bytes_bits a ++ bytes_bits b.
Proof. unfold bytes_bits. by rewrite map_app, join_app. Qed.

(** ** Matches *)

(** Base and extra bits of the length symbols 257, ..., 285 and the distance
    symbols 0, ..., 29 (RFC 1951, 3.2.5). *)
Definition with_extra (t : list (Z * Z)) : list (Z * nat) := map (fun '(b, n) => (b, Z.to_nat n)) t.
Definition length_codes : list (Z * nat) := with_extra
  [(3, 0); (4, 0); (5, 0); (6, 0); (7, 0); (8, 0); (9, 0); (10, 0); (11, 1); (13, 1); (15, 1); (17, 1);
   (19, 2); (23, 2); (27, 2); (31, 2); (35, 3); (43, 3); (51, 3); (59, 3); (67, 4); (83, 4); (99, 4); (115, 4);
   (131, 5); (163, 5); (195, 5); (227, 5); (258, 0)].
Definition distance_codes : list (Z * nat) := with_extra
  [(1, 0); (2, 0); (3, 0); (4, 0); (5, 1); (7, 1); (9, 2); (13, 2); (17, 3); (25, 3); (33, 4); (49, 4);
   (65, 5); (97, 5); (129, 6); (193, 6); (257, 7); (385, 7); (513, 8); (769, 8); (1025, 9); (1537, 9);
   (2049, 10); (3073, 10); (4097, 11); (6145, 11); (8193, 12); (12289, 12); (16385, 13); (24577, 13)].

(** One byte from [dist] back, and [len] of them; they may overlap. *)
Definition lz_byte (dist : nat) (h : bytes) : bytes := h ++ [nth (length h - dist) h 0].
Definition lz_copy (len dist : nat) (h : bytes) : bytes := Nat.iter len (lz_byte dist) h.

(** The symbols of a block with literal lengths [LL] and distance lengths [DL]. *)
Inductive items (LL DL : list Z) : bytes -> list bool -> bytes -> Prop :=
| items_end h c : code_of LL 256 = Some c -> items LL DL h c h
| items_lit h h' b c bits :
    (b < 256)%nat -> code_of LL b = Some c -> items LL DL (h ++ [Z.of_nat b]) bits h' ->
    items LL DL h (c ++ bits) h'
| items_match h h' s c base n e d dc dbase m f bits :
    length_codes !! s = Some (base, n) -> code_of LL (257 + s) = Some c -> 0 <= e < 2 ^ Z.of_nat n ->
    distance_codes !! d = Some (dbase, m) -> code_of DL d = Some dc -> 0 <= f < 2 ^ Z.of_nat m ->
    dbase + f <= Z.of_nat (length h) ->
    items LL DL (lz_copy (Z.to_nat (base + e)) (Z.to_nat (dbase + f)) h) bits h' ->
    items LL DL h (c ++ zbits n e ++ dc ++ zbits m f ++ bits) h'.

(** ** Code lengths of a dynamic block *)

(** The order of the code length codes (3.2.7). *)
Definition code_length_order : list nat := [16; 17; 18; 0; 8; 7; 9; 6; 10; 5; 11; 4; 12; 3; 13; 2; 14; 1; 15]%nat.

(** The 19 code lengths from the values transmitted in this order; the others are 0. *)
Fixpoint ordered (order : list nat) (vs : list Z) (acc : list Z) : list Z :=
  match order, vs with
  | o :: order, v :: vs => ordered order vs (<[o := v]> acc)
  | _, _ => acc
  end.
Definition code_lengths (vs : list Z) : list Z :=
  ordered code_length_order (vs ++ replicate (19 - length vs) 0) (replicate 19 0).

(** Run-length coded lengths; [prev] is the length before, if any. *)
Inductive coded (CL : list Z) : option Z -> list bool -> list Z -> Prop :=
| coded_nil prev : coded CL prev [] []
| coded_len prev l c bits ls :
    (l < 16)%nat -> code_of CL l = Some c -> coded CL (Some (Z.of_nat l)) bits ls ->
    coded CL prev (c ++ bits) (Z.of_nat l :: ls)
| coded_repeat p n c bits ls :
    (n < 4)%nat -> code_of CL 16 = Some c -> coded CL (Some p) bits ls ->
    coded CL (Some p) (c ++ zbits 2 (Z.of_nat n) ++ bits) (replicate (3 + n) p ++ ls)
| coded_zeros prev n c bits ls :
    (n < 8)%nat -> code_of CL 17 = Some c -> coded CL (Some 0) bits ls ->
    coded CL prev (c ++ zbits 3 (Z.of_nat n) ++ bits) (replicate (3 + n) 0 ++ ls)
| coded_many_zeros prev n c bits ls :
    (n < 128)%nat -> code_of CL 18 = Some c -> coded CL (Some 0) bits ls ->
    coded CL prev (c ++ zbits 7 (Z.of_nat n) ++ bits) (replicate (11 + n) 0 ++ ls).

(** ** Blocks *)

(** Code lengths of a block with fixed codes (3.2.6). *)
Definition fixed_literals : list Z := replicate 144 8 ++ replicate 112 9 ++ replicate 24 7 ++ replicate 8 8.
Definition fixed_distances : list Z := replicate 32 5.

Inductive block : bytes -> list bool -> bytes -> list bool -> Prop :=
| block_stored h pad data rest :
    (length pad < 8)%nat -> (length rest mod 8 = 0)%nat -> bytes_ok data -> Z.of_nat (length data) < 2 ^ 16 ->
    block h ([false; false] ++ pad ++ zbits 16 (Z.of_nat (length data))
             ++ zbits 16 (2 ^ 16 - 1 - Z.of_nat (length data)) ++ bytes_bits data ++ rest) (h ++ data) rest
| block_fixed h bits h' rest :
    items fixed_literals fixed_distances h bits h' -> block h ([true; false] ++ bits ++ rest) h' rest
| block_dynamic h nlit ndist vs lbits lens bits h' rest :
    (257 <= nlit <= 286)%nat -> (1 <= ndist <= 30)%nat -> (4 <= length vs <= 19)%nat ->
    Forall (fun v => 0 <= v < 8) vs -> complete_enough (code_lengths vs) ->
    coded (code_lengths vs) None lbits lens -> length lens = (nlit + ndist)%nat ->
    complete_enough (take nlit lens) -> complete_enough (drop nlit lens) ->
    items (take nlit lens) (drop nlit lens) h bits h' ->
    block h ([false; true] ++ zbits 5 (Z.of_nat nlit - 257) ++ zbits 5 (Z.of_nat ndist - 1)
             ++ zbits 4 (Z.of_nat (length vs) - 4) ++ mjoin (map (zbits 3) vs) ++ lbits ++ bits ++ rest) h' rest.

Inductive stream : bytes -> list bool -> bytes -> list bool -> Prop :=
| stream_last h bits h' rest : block h bits h' rest -> stream h (true :: bits) h' rest
| stream_more h bits h1 bits1 h' rest :
    block h bits h1 bits1 -> stream h1 bits1 h' rest -> stream h (false :: bits) h' rest.

(** ** Wrappings *)

(** A zlib stream without a preset dictionary. *)
Definition zlib_stream (data out : bytes) : Prop :=
  exists cmf flg body pad,
    data = [cmf; flg] ++ body ++ be_bytes 4 (adler_ref 1 out)
    /\ byte_ok cmf /\ byte_ok flg /\ bytes_ok body
    /\ cmf mod 16 = 8 /\ cmf / 16 <= 7 /\ (cmf * 256 + flg) mod 31 = 0 /\ Z.testbit flg 5 = false
    /\ (length pad < 8)%nat
    /\ stream [] (bytes_bits (body ++ be_bytes 4 (adler_ref 1 out))) out
         (pad ++ bytes_bits (be_bytes 4 (adler_ref 1 out))).

(** A gzip member without optional header fields. *)
Definition gzip_stream (data out : bytes) : Prop :=
  exists fields body pad,
    data = [0x1f; 0x8b; 8; 0] ++ fields ++ body ++ le_bytes 4 (crc_ref out 0) ++ le_bytes 4 (Z.of_nat (length out))
    /\ length fields = 6%nat /\ bytes_ok fields /\ bytes_ok body /\ (length pad < 8)%nat
    /\ stream [] (bytes_bits (body ++ le_bytes 4 (crc_ref out 0) ++ le_bytes 4 (Z.of_nat (length out)))) out
         (pad ++ bytes_bits (le_bytes 4 (crc_ref out 0) ++ le_bytes 4 (Z.of_nat (length out)))).

Lemma length_lz_copy n d h : length (lz_copy n d h) = (length h + n)%nat.
Proof. induction n as [|n IH]; [cbn; lia|]. change (lz_copy (S n) d h) with (lz_byte d (lz_copy n d h)). unfold lz_byte. rewrite length_app, IH. cbn. lia. Qed.

(** How much longer than its contents a block of the deflate format (Deflate) can be. *)

Lemma word_short L s c : code_of L s = Some c -> (length c <= 15)%nat.
Proof. unfold code_of. destruct (L !! s) as [l|]; [|done]. cbn. case_decide; [|done]. intros [= <-]. rewrite length_cbits. lia. Qed.

Lemma code_extra : (forall s base n, length_codes !! s = Some (base, n) -> 3 <= base /\ (n <= 5)%nat)
  /\ (forall d base m, distance_codes !! d = Some (base, m) -> 1 <= base /\ (m <= 13)%nat).
Proof.
  assert (G : Forall (fun '(b, n) => 3 <= b /\ (n <= 5)%nat) length_codes /\ Forall (fun '(b, m) => 1 <= b /\ (m <= 13)%nat) distance_codes).
  { split; repeat (apply Forall_cons_2; [cbn; lia|]); apply list.Forall_nil_2. }
  destruct G as [G1 G2]. rewrite list.Forall_lookup in G1, G2. split; intros k b n Hk; [apply (G1 _ _ Hk)|apply (G2 _ _ Hk)].
Qed.

(** A literal has at most 15 bits, a match of at least 3 bytes at most 48. *)
Lemma items_size LL DL h bits h' : items LL DL h bits h' -> (length h <= length h')%nat /\ (length bits <= 16 * (length h' - length h) + 15)%nat.
Proof.
  destruct code_extra as [HL HD]. induction 1 as [h c Hc|h h' b c bits Hb Hc _ [IH1 IH2]|h h' s c base n e d dc dbase m f bits Hs Hc He Hd Hdc Hf Hle _ [IH1 IH2]].
  - apply word_short in Hc. lia.
  - apply word_short in Hc. rewrite length_app in *. cbn [length] in *. lia.
  - apply word_short in Hc, Hdc. apply HL in Hs. apply HD in Hd. rewrite length_lz_copy in *. rewrite !length_app, !length_zbits. lia.
Qed.

Lemma coded_size CL prev bits ls : coded CL prev bits ls -> (length bits <= 22 * length ls)%nat.
Proof.
  induction 1 as [prev|prev l c bits ls Hl Hc _ IH|p n c bits ls Hn Hc _ IH|prev n c bits ls Hn Hc _ IH|prev n c bits ls Hn Hc _ IH];
    [done|apply word_short in Hc; rewrite ?length_app, ?length_zbits, ?length_replicate; cbn [length]; lia..].
Qed.

Definition block_overhead : nat := (8 * 1000)%nat.

Lemma block_size h bits h' rest : block h bits h' rest ->
  (length h <= length h')%nat /\ (length bits <= length rest + 16 * (length h' - length h) + block_overhead)%nat.
Proof.
  unfold block_overhead. intros [h0 pad data rest0 Hp _ _ _|h0 bits0 h1 rest0 Hi|h0 nlit ndist vs lbits lens bits0 h1 rest0 Hnl Hnd Hvs _ _ Hc Hlen _ _ Hi].
  - rewrite !length_app, !length_zbits, length_bytes_bits. cbn [length]. lia.
  - apply items_size in Hi as [H1 H2]. rewrite !length_app. cbn [length]. lia.
  - apply items_size in Hi as [H1 H2]. apply coded_size in Hc. rewrite !length_app, !length_zbits. cbn [length].
    assert (Hv : length (mjoin (map (zbits 3) vs)) = (3 * length vs)%nat).
    { clear. induction vs as [|v vs IH]; [done|]. cbn [map]. change (mjoin (?x :: ?l)) with (x ++ mjoin l). rewrite length_app, length_zbits, IH. cbn [length]. lia. }
    rewrite Hv. lia.
Qed.
