(* ===== verification/InflateCorrect.v ===== *)
(** The inflater decodes the deflate format: every stream of [Deflate] is inflated
    to the output it stands for ([inflate_zlib], [inflate_gzip]). *)
From S2P Require Import Prelude Checksum BitReader Huffman Canonical Inflate InflateSafe Deflate.

(** ** Bits *)

Lemma lsb_val_zbits n v : lsb_val (zbits n v) = v mod 2 ^ Z.of_nat n.
Proof.
  induction n as [|n IH]; [by rewrite Z.mod_1_r|].
  rewrite zbits_S, lsb_val_app, IH, length_zbits, mod_pow2_S. cbn [lsb_val]. lia.
Qed.

Lemma lsb_val_bytes bs : bytes_ok bs -> lsb_val (bytes_bits bs) = le_val bs.
Proof.
  induction 1 as [|b bs Hb _ IH]; [done|]. change (bytes_bits (b :: bs)) with (zbits 8 b ++ bytes_bits bs).
  rewrite lsb_val_app, IH, lsb_val_zbits, length_zbits. cbn [le_val]. rewrite Z.mod_small by exact Hb. done.
Qed.

Lemma bytes_bits_inj a b : bytes_ok a -> bytes_ok b -> bytes_bits a = bytes_bits b -> a = b.
Proof.
  intros Ha Hb E. assert (Hl : length a = length b).
  { apply (f_equal length) in E. rewrite !length_bytes_bits in E. lia. }
  rewrite <- (le_bytes_le_val a Ha), <- (le_bytes_le_val b Hb), Hl. f_equal.
  by rewrite <- !lsb_val_bytes, E.
Qed.

(** ** Copying *)

(** The buffer starts with the output [h]. *)
Definition holds (out h : bytes) : Prop := take (length h) out = h.

Lemma holds_length out h : holds out h -> (length h <= length out)%nat.
Proof. intros H. apply (f_equal length) in H. rewrite length_take in H. lia. Qed.

Lemma holds_store out h b :
  holds out h -> (length h < length out)%nat ->
  exists out', store out (Z.of_nat (length h)) b = Ok out' /\ length out' = length out /\ holds out' (h ++ [b]).
Proof.
  intros Hh Hl. rewrite store_ok by lia. eexists. split; [done|]. rewrite length_insert. split; [done|].
  unfold holds in *. rewrite Nat2Z.id, length_app. cbn [length]. rewrite Nat.add_1_r.
  rewrite (take_S_r _ _ b) by (by apply list_lookup_insert_eq). by rewrite take_insert_ge, Hh.
Qed.

Lemma holds_lookup out h i : holds out h -> (i < length h)%nat -> out !! i = h !! i.
Proof. unfold holds. intros Hh Hi. rewrite <- Hh. by rewrite lookup_take_lt. Qed.

Lemma holds_write out h src :
  holds out h -> (length h + length src <= length out)%nat ->
  exists out', write_bytes out (Z.of_nat (length h)) src = Ok out' /\ length out' = length out /\ holds out' (h ++ src).
Proof.
  intros Hh Hl. unfold write_bytes. rewrite (proj2 (Z.leb_le 0 _)), (proj2 (Z.leb_le _ _)) by lia. cbn [andb].
  eexists. split; [done|]. split; [apply length_overlay; lia|].
  unfold holds in *. rewrite Nat2Z.id. unfold overlay. rewrite Hh, app_assoc, take_app_length. done.
Qed.

Lemma lz_copy_S k dist h : lz_copy (S k) dist h = lz_copy k dist (lz_byte dist h).
Proof. unfold lz_copy. apply Nat.iter_succ_r. Qed.

Lemma lz_copy_add a b dist h : lz_copy (a + b) dist h = lz_copy a dist (lz_copy b dist h).
Proof. apply Nat.iter_add. Qed.

(** Without overlap a match is a slice. *)
Lemma lz_copy_slice k dist h : (k <= dist <= length h)%nat -> lz_copy k dist h = h ++ sub h (length h - dist) k.
Proof.
  intros Hd. induction k as [|k IH]; [by rewrite app_nil_r|].
  change (lz_copy (S k) dist h) with (lz_byte dist (lz_copy k dist h)). unfold lz_byte. rewrite length_lz_copy, IH by lia.
  rewrite <- app_assoc. f_equal. unfold sub. destruct (lookup_lt_is_Some_2 h (length h - dist + k)) as [x Hx]; [lia|].
  rewrite (take_S_r _ _ x) by (by rewrite lookup_drop). f_equal. f_equal. apply nth_lookup_Some.
  rewrite lookup_app_l by lia. by replace (length h + k - dist)%nat with (length h - dist + k)%nat by lia.
Qed.

Lemma copy_bytes_holds k dist : forall out h,
  holds out h -> (1 <= dist <= length h)%nat -> (length h + k <= length out)%nat ->
  exists out', copy_bytes k out (Z.of_nat (length h)) (Z.of_nat (length h) - Z.of_nat dist) = Ok out'
    /\ length out' = length out /\ holds out' (lz_copy k dist h).
Proof.
  induction k as [|k IH]; intros out h Hh Hd Hl; cbn [copy_bytes]; [by exists out|].
  destruct (lookup_lt_is_Some_2 h (length h - dist)) as [b Hb]; [lia|].
  rewrite (index_some out _ b); [|lia|].
  2: { replace (Z.to_nat _) with (length h - dist)%nat by lia. rewrite (holds_lookup out h) by (done || lia). done. }
  cbn [mbind res_bind]. destruct (holds_store out h b Hh ltac:(lia)) as (o & -> & Hlo & Ho). cbn [mbind res_bind].
  rewrite lz_copy_S. assert (E : lz_byte dist h = h ++ [b]) by (unfold lz_byte; do 2 f_equal; by apply nth_lookup_Some).
  rewrite E. destruct (IH o (h ++ [b]) Ho) as (o' & He & Hl' & Ho'); [rewrite length_app; cbn; lia|rewrite length_app; cbn; lia|].
  exists o'. split; [|by rewrite Hl', Hlo]. rewrite <- He. rewrite length_app. cbn [length]. f_equal; lia.
Qed.

Lemma copy16_holds dist stop fuel : forall out h,
  holds out h -> (16 <= dist <= length h)%nat -> (length h < stop)%nat -> (stop + 15 <= length out)%nat ->
  (stop - length h < fuel)%nat ->
  exists out', copy16 fuel out (Z.of_nat (length h)) (Z.of_nat (length h) - Z.of_nat dist) (Z.of_nat stop) = Ok out'
    /\ length out' = length out /\ holds out' (lz_copy (stop - length h) dist h).
Proof.
  induction fuel as [|fuel IH]; intros out h Hh Hd Hs Hl Hf; [lia|]. cbn [copy16].
  unfold read_bytes. rewrite (proj2 (Z.leb_le 0 _)), (proj2 (Z.leb_le _ _)) by lia. cbn [andb mbind res_bind].
  assert (E : sub out (Z.to_nat (Z.of_nat (length h) - Z.of_nat dist)) (Z.to_nat 16) = sub h (length h - dist) 16).
  { replace (Z.to_nat (Z.of_nat (length h) - Z.of_nat dist)) with (length h - dist)%nat by lia.
    change (Z.to_nat 16) with 16%nat. rewrite <- (take_drop (length h) out). rewrite Hh. apply sub_app_l. lia. }
  rewrite E. set (src := sub h _ 16). assert (Hsrc : length src = 16%nat) by (unfold src; rewrite length_sub; lia).
  destruct (holds_write out h src Hh) as (o & -> & Hlo & Ho); [lia|]. cbn [mbind res_bind].
  destruct (Z.ltb_spec (Z.of_nat (length h) + 16) (Z.of_nat stop)) as [Hmore|Hlast].
  - destruct (IH o (h ++ src) Ho) as (o' & He & Hl' & Ho'); rewrite ?length_app, ?Hsrc in *; [lia..|].
    exists o'. split; [rewrite <- He; f_equal; lia|]. split; [congruence|].
    assert (E16 : h ++ src = lz_copy 16 dist h) by (by rewrite lz_copy_slice by lia). rewrite E16 in Ho'.
    replace (stop - length h)%nat with (stop - (length h + 16) + 16)%nat by lia.
    rewrite lz_copy_add. exact Ho'.
  - exists o. split; [done|]. split; [done|]. rewrite lz_copy_slice by lia. unfold holds in *.
    rewrite length_app, length_sub by lia.
    assert (E2 : sub h (length h - dist) (stop - length h) = take (stop - length h) src).
    { unfold src, sub. rewrite take_take. f_equal. lia. }
    rewrite E2. rewrite length_app, Hsrc in Ho. rewrite <- (take_app_add h src (stop - length h)), <- Ho.
    rewrite take_take. f_equal. lia.
Qed.

Lemma copy_match_holds out h pEnd len dist :
  holds out h -> (1 <= dist <= length h)%nat -> (1 <= len)%nat ->
  Z.of_nat (length h + len) <= pEnd -> pEnd <= Z.of_nat (length out) ->
  exists out', copy_match out (Z.of_nat (length h)) pEnd (Z.of_nat len) (Z.of_nat dist) = Ok (Some out')
    /\ length out' = length out /\ holds out' (lz_copy len dist h).
Proof.
  intros Hh Hd Hlen Hroom Hl. unfold copy_match. rewrite (proj2 (Z.leb_le 0 _)) by lia.
  destruct ((16 <=? Z.of_nat dist) && (Z.of_nat (length h) + Z.of_nat len <=? pEnd - 15)) eqn:Hfast.
  - zbool. destruct (copy16_holds dist (length h + len) (S (Z.to_nat (Z.of_nat len))) out h Hh) as (o & He & Ho1 & Ho2); [lia..|].
    rewrite Nat2Z.inj_add in He. rewrite He. cbn. exists o. split; [done|]. split; [done|].
    by replace (length h + len - length h)%nat with len in Ho2 by lia.
  - destruct (Z.ltb_spec pEnd (Z.of_nat (length h) + Z.of_nat len)); [lia|]. rewrite Nat2Z.id.
    destruct (copy_bytes_holds len dist out h Hh Hd) as (o & -> & Ho1 & Ho2); [lia|]. cbn. by exists o.
Qed.

(** ** Compressed blocks *)

Definition length_entry_ok (s : nat) (base : Z) (n : nat) : bool :=
  let e := literal_entry (Z.of_nat (257 + s)) in
  (256 <? e) && negb (e =? ERR) && ((e >> 16) .& 15 =? Z.of_nat n) && (e .& 0x7fff =? base)
  && (3 <=? base) && (n <=? 5)%nat.
Definition distance_entry_ok (d : nat) (base : Z) (n : nat) : bool :=
  let e := offset_entry (Z.of_nat d) in
  negb (e =? ERR) && ((e >> 16) .& 15 =? Z.of_nat n) && (e .& 0x7fff =? base) && (1 <=? base) && (n <=? 13)%nat.

Lemma entries_check :
  forallb (fun s => let '(b, n) := nth s length_codes (0, 0%nat) in length_entry_ok s b n) (seq 0 29) = true
  /\ forallb (fun d => let '(b, n) := nth d distance_codes (0, 0%nat) in distance_entry_ok d b n) (seq 0 30) = true.
Proof. split; vm_compute; reflexivity. Qed.

Lemma length_entry s base n : length_codes !! s = Some (base, n) -> length_entry_ok s base n = true.
Proof.
  intros H. pose proof (proj1 entries_check) as Hc. rewrite forallb_forall in Hc.
  specialize (Hc s). apply lookup_lt_Some in H as Hs. rewrite (nth_lookup_Some _ _ (0, 0%nat) _ H) in Hc.
  apply Hc, in_seq. cbn in Hs. lia.
Qed.

Lemma distance_entry d base n : distance_codes !! d = Some (base, n) -> distance_entry_ok d base n = true.
Proof.
  intros H. pose proof (proj2 entries_check) as Hc. rewrite forallb_forall in Hc.
  specialize (Hc d). apply lookup_lt_Some in H as Hs. rewrite (nth_lookup_Some _ _ (0, 0%nat) _ H) in Hc.
  apply Hc, in_seq. cbn in Hs. lia.
Qed.

Lemma literal_entry_lit b : (b <= 256)%nat -> literal_entry (Z.of_nat b) = Z.of_nat b.
Proof. intros Hb. unfold literal_entry, NMATCHLENSYMSTART. destruct (Z.leb_spec 257 (Z.of_nat b)); [lia|done]. Qed.

Section correct.
Context (inp : bytes).
Hypothesis inp_ok : bytes_ok inp.

(** Extra bits in front of the stream. *)
Lemma read_bits n v r rest :
  represents inp r (zbits n v ++ rest) -> 0 <= v < 2 ^ Z.of_nat n -> (n <= 16)%nat -> (16 <= length rest)%nat ->
  exists r', em_lsb_bitreader_get_bits inp (Z.of_nat n) r = Ok (v, r') /\ represents inp r' rest /\ v <> ERR.
Proof using inp_ok.
  intros Hr Hv Hn Hl. destruct (get_bits_represents inp inp_ok (Z.of_nat n) r (zbits n v) rest Hr) as (r' & He & Hr');
    [by rewrite length_zbits|lia|done|]. rewrite lsb_val_zbits, Z.mod_small in He by done.
  exists r'. split; [done|]. split; [done|]. rewrite err_big.
  assert (2 ^ Z.of_nat n <= 2 ^ 16) by (apply Z.pow_le_mono_r; lia). lia.
Qed.

Lemma code_of_length L s c : code_of L s = Some c -> (1 <= length c <= 15)%nat.
Proof.
  unfold code_of. destruct (L !! s) as [l|]; [|done]. cbn. case_decide; [|done]. intros [= <-]. rewrite length_cbits. lia.
Qed.

Lemma read_match_correct DL off r cw base n e d dc dbase m f rest :
  decodes inp DL offset_entry off ->
  (cw >> 16) .& 15 = Z.of_nat n -> cw .& 0x7fff = base -> (n <= 5)%nat -> 0 <= e < 2 ^ Z.of_nat n ->
  distance_codes !! d = Some (dbase, m) -> code_of DL d = Some dc -> 0 <= f < 2 ^ Z.of_nat m ->
  (31 <= length rest)%nat -> represents inp r (zbits n e ++ dc ++ zbits m f ++ rest) ->
  exists r', read_match inp off cw r = Ok (Some (base + e, dbase + f, r')) /\ represents inp r' rest.
Proof using inp_ok.
  intros Hoff Hcn Hcb Hn He Hd Hdc Hf Hrest Hr. unfold read_match. rewrite Hcn, Hcb.
  pose proof (distance_entry _ _ _ Hd) as Hde. unfold distance_entry_ok in Hde. zbool.
  destruct Hde as [[[[Hne Hdn] Hdb] Hd1] Hm]. zbool. apply Nat.leb_le in Hm.
  destruct (read_bits n e r _ Hr He) as (r1 & -> & H1 & Hne1); [lia|rewrite !length_app; lia|]. cbn [mbind res_bind].
  rewrite (proj2 (Z.eqb_neq _ _) Hne1).
  destruct (dec_code _ _ _ _ Hoff d dc r1 (zbits m f ++ rest) Hdc) as (r2 & -> & H2); [rewrite length_app; lia|done|]. cbn [mbind res_bind].
  rewrite (proj2 (Z.eqb_neq _ _) Hne), Hdn, Hdb.
  destruct (read_bits m f r2 rest H2 Hf) as (r3 & -> & H3 & Hne3); [lia|lia|]. cbn [mbind res_bind].
  rewrite (proj2 (Z.eqb_neq _ _) Hne3). exists r3. split; [|done]. do 3 f_equal. f_equal; lia.
Qed.

Lemma items_grow LL DL h bits h' : items LL DL h bits h' -> (length h <= length h')%nat.
Proof.
  induction 1; [done| |]; [rewrite length_app in *; lia|]. rewrite length_lz_copy in *. lia.
Qed.

(** The body of a block is inflated behind the output so far. *)
Lemma block_loop_correct LL DL lit off pEnd h bits h' :
  items LL DL h bits h' ->
  decodes inp LL literal_entry lit -> decodes inp DL offset_entry off ->
  forall fuel r rest out,
  represents inp r (bits ++ rest) -> (31 <= length rest)%nat -> holds out h ->
  Z.of_nat (length h') <= pEnd -> pEnd <= Z.of_nat (length out) -> pEnd - Z.of_nat (length h) < Z.of_nat fuel ->
  exists r' out', block_loop inp fuel lit off (Z.of_nat (length h)) pEnd r out = Ok (Some (Z.of_nat (length h'), r'), out')
    /\ represents inp r' rest /\ length out' = length out /\ holds out' h'.
Proof using inp_ok.
  intros Hit Hlit Hoff.
  induction Hit as [h c Hc|h h' b c bits Hb Hc Hit IH|h h' s c base n e d dc dbase m f bits Hs Hc He Hd Hdc Hf Hdist Hit IH];
    intros fuel r rest out Hr Hrest Hh Hh' Hl Hfuel.
  - destruct fuel as [|fuel]; [lia|]. cbn [block_loop].
    destruct (dec_code _ _ _ _ Hlit 256 c r rest Hc Hrest Hr) as (r1 & -> & H1). cbn [mbind res_bind].
    rewrite literal_entry_lit by lia. cbn. by exists r1, out.
  - pose proof (items_grow _ _ _ _ _ Hit) as Hgrow. rewrite length_app in Hgrow. cbn [length] in Hgrow.
    destruct fuel as [|fuel]; [lia|]. cbn [block_loop]. rewrite <- app_assoc in Hr.
    destruct (dec_code _ _ _ _ Hlit b c r (bits ++ rest) Hc) as (r1 & -> & H1); [rewrite length_app; lia|done|]. cbn [mbind res_bind].
    rewrite literal_entry_lit by lia. rewrite (proj2 (Z.ltb_lt _ 256)), (proj2 (Z.ltb_lt _ pEnd)) by lia.
    destruct (holds_store out h (Z.of_nat b) Hh) as (o & -> & Hlo & Ho); [lia|]. cbn [mbind res_bind].
    destruct (IH fuel r1 rest o H1 Hrest Ho) as (r2 & o2 & E & H2 & Hl2 & Ho2); [lia|lia|rewrite length_app; cbn [length]; lia|].
    exists r2, o2. rewrite length_app in E. cbn [length] in E. rewrite Nat2Z.inj_add in E. split; [exact E|]. split; [done|]. split; [congruence|done].
  - pose proof (items_grow _ _ _ _ _ Hit) as Hgrow. rewrite length_lz_copy in Hgrow.
    pose proof (length_entry _ _ _ Hs) as Hle. unfold length_entry_ok in Hle. zbool.
    destruct Hle as [[[[[Hgt Hne] Hen] Heb] Hb3] Hn5]. zbool. apply Nat.leb_le in Hn5.
    pose proof (distance_entry _ _ _ Hd) as Hde. unfold distance_entry_ok in Hde. zbool. destruct Hde as [[_ Hd1] _]. zbool.
    destruct fuel as [|fuel]; [lia|]. cbn [block_loop]. rewrite <- !app_assoc in Hr.
    destruct (dec_code _ _ _ _ Hlit (257 + s) c r (zbits n e ++ dc ++ zbits m f ++ bits ++ rest) Hc) as (r1 & -> & H1);
      [rewrite !length_app; lia|done|]. cbn [mbind res_bind].
    destruct (Z.ltb_spec (literal_entry (Z.of_nat (257 + s))) 256); [lia|]. unfold NEODMARKERSYM.
    destruct (Z.eqb_spec (literal_entry (Z.of_nat (257 + s))) 256); [lia|]. rewrite (proj2 (Z.eqb_neq _ _) Hne).
    destruct (read_match_correct DL off r1 (literal_entry (Z.of_nat (257 + s))) base n e d dc dbase m f (bits ++ rest)) as (r2 & -> & H2);
      try done; [rewrite length_app; lia|]. cbn [mbind res_bind].
    destruct (copy_match_holds out h pEnd (Z.to_nat (base + e)) (Z.to_nat (dbase + f)) Hh) as (o & E & Hlo & Ho); [lia..|].
    rewrite !Z2Nat.id in E by lia. rewrite E. cbn [mbind res_bind].
    destruct (IH fuel r2 rest o H2 Hrest Ho) as (r3 & o2 & E2 & H3 & Hl2 & Ho2); [lia|lia|rewrite length_lz_copy; lia|].
    exists r3, o2. rewrite length_lz_copy, Nat2Z.inj_add, Z2Nat.id in E2 by lia. split; [exact E2|]. split; [done|]. split; [congruence|done].
Qed.

(** ** Stored blocks *)

(** [n] bytes in front of an aligned stream are the bytes of the input. *)
Lemma byte_reader_bytes p pEnd start bs rest :
  represents inp (BitReader 0 0 p pEnd start) (bytes_bits bs ++ rest) -> bytes_ok bs ->
  sub inp (Z.to_nat p) (length bs) = bs /\ p + Z.of_nat (length bs) <= pEnd /\ 0 <= p /\ pEnd = Z.of_nat (length inp)
  /\ represents inp (BitReader 0 0 (p + Z.of_nat (length bs)) pEnd start) rest.
Proof using inp_ok.
  intros [[(H0 & H1 & H2) Hc Hd Hl] Hv Hn Hw] Hbs. cbn in H0, H1, H2, Hl. unfold r_len in Hn. cbn in Hn.
  rewrite length_app, length_bytes_bits in Hn. unfold r_val, rest_bytes in Hv. cbn [nDecShifterData nDecShifterBitCount pInBlock pInBlockEnd] in Hv.
  rewrite lsb_val_app, lsb_val_bytes, length_bytes_bits in Hv by done.
  assert (Hsplit : sub inp (Z.to_nat p) (Z.to_nat (pEnd - p))
    = sub inp (Z.to_nat p) (length bs) ++ sub inp (Z.to_nat p + length bs) (Z.to_nat (pEnd - p) - length bs)).
  { rewrite <- sub_split. f_equal. lia. }
  rewrite Hsplit, le_val_app in Hv. set (a := sub inp (Z.to_nat p) (length bs)) in *.
  assert (La : length a = length bs) by (unfold a; rewrite length_sub; lia).
  assert (Hab : bytes_ok a) by (by apply bytes_ok_sub). rewrite La in Hv.
  pose proof (le_val_bound a Hab) as Ba. pose proof (le_val_bound bs Hbs) as Bb. rewrite La in Ba.
  assert (Ea : a = bs).
  { rewrite <- (le_bytes_le_val a Hab), <- (le_bytes_le_val bs Hbs), La. f_equal.
    rewrite Z.add_0_l, Z.mul_1_l in Hv.
    replace (Z.of_nat (8 * length bs)) with (8 * Z.of_nat (length bs)) in Hv by lia.
    apply (f_equal (fun z => z mod 2 ^ (8 * Z.of_nat (length bs)))) in Hv.
    rewrite !(Z.mul_comm (2 ^ (8 * _))), !Z.mod_add, !Z.mod_small in Hv by lia. done. }
  split; [done|]. split; [lia|]. split; [lia|]. split; [done|].
  apply byte_reader_represents; [done|lia|lia|done| |lia].
  unfold position in Hw. cbn [pInBlock pInBlockStart nDecShifterBitCount] in Hw. rewrite Z.sub_0_r in Hw.
  change (total inp (BitReader 0 0 (p + Z.of_nat (length bs)) pEnd start)) with (total inp (BitReader 0 0 p pEnd start)).
  replace (8 * (p + Z.of_nat (length bs) - start)) with (8 * (p - start) + Z.of_nat (8 * length bs)) by lia.
  rewrite Z.pow_add_r, <- Z.div_div, Hw by lia. rewrite <- length_bytes_bits. apply lsb_val_high.
Qed.

Lemma zbits_16_bytes v : zbits 16 v = bytes_bits [v mod 2 ^ 8; v / 2 ^ 8 mod 2 ^ 8].
Proof.
  apply lsb_val_inj; [done|]. rewrite lsb_val_zbits, lsb_val_bytes.
  - cbn [le_val]. change (2 ^ Z.of_nat 16) with (2 ^ 8 * 2 ^ 8). rewrite Z.rem_mul_r by lia. lia.
  - repeat constructor; apply Z.mod_pos_bound; lia.
Qed.

Lemma bytes_bits_pair a b : bytes_bits [a; b] = zbits 8 a ++ zbits 8 b.
Proof. reflexivity. Qed.

(** A 16-bit number in front of an aligned stream. *)
Lemma read_u16_correct p pEnd start v rest :
  represents inp (BitReader 0 0 p pEnd start) (zbits 16 v ++ rest) -> 0 <= v < 2 ^ 16 ->
  read_u16 inp p = Ok v /\ represents inp (BitReader 0 0 (p + 2) pEnd start) rest.
Proof using inp_ok.
  intros Hr Hv. rewrite zbits_16_bytes in Hr.
  destruct (byte_reader_bytes _ _ _ _ _ Hr) as (Hs & Hp & H0 & He & Hr').
  { repeat constructor; apply Z.mod_pos_bound; lia. }
  split; [|exact Hr']. cbn [length] in Hs, Hp. unfold read_u16.
  rewrite (index_some inp p (v mod 2 ^ 8)), (index_some inp (p + 1) (v / 2 ^ 8 mod 2 ^ 8)).
  - cbn [mbind res_bind]. f_equal. rewrite lor_shiftl by (lia || apply Z.mod_pos_bound; lia).
    change (2 ^ 16) with (2 ^ 8 * 2 ^ 8) in Hv. rewrite (Z.mod_small (v / 2 ^ 8)).
    + pose proof (Z.div_mod v (2 ^ 8) ltac:(lia)). lia.
    + split; [apply Z.div_pos; lia|apply Z.div_lt_upper_bound; lia].
  - lia.
  - replace (Z.to_nat (p + 1)) with (Z.to_nat p + 1)%nat by lia. apply (f_equal (fun l => l !! 1%nat)) in Hs.
    unfold sub in Hs. rewrite lookup_take_lt, lookup_drop in Hs by lia. exact Hs.
  - lia.
  - apply (f_equal (fun l => l !! 0%nat)) in Hs. unfold sub in Hs. rewrite lookup_take_lt, lookup_drop, Nat.add_0_r in Hs by lia. exact Hs.
Qed.

Lemma complement16 v : 0 <= v < 2 ^ 16 -> Z.lnot (2 ^ 16 - 1 - v) .& 0xffff = v.
Proof.
  intros Hv. change 0xffff with (Z.ones 16). rewrite land_ones_mod by lia. unfold Z.lnot, Z.pred.
  symmetry. apply (Z.mod_unique_pos _ _ (-1)); lia.
Qed.

Lemma copy_stored_correct r h pad data rest out nMax :
  represents inp r (pad ++ zbits 16 (Z.of_nat (length data)) ++ zbits 16 (2 ^ 16 - 1 - Z.of_nat (length data))
                    ++ bytes_bits data ++ rest) ->
  (length pad < 8)%nat -> (length rest mod 8 = 0)%nat -> bytes_ok data -> Z.of_nat (length data) < 2 ^ 16 ->
  holds out h -> Z.of_nat (length (h ++ data)) <= nMax -> nMax <= Z.of_nat (length out) ->
  exists r' out', em_inflate_copy_stored inp r out (Z.of_nat (length h)) (nMax - Z.of_nat (length h))
      = Ok (Some (Z.of_nat (length data), r'), out')
    /\ represents inp r' rest /\ length out' = length out /\ holds out' (h ++ data).
Proof using inp_ok.
  intros Hr Hpad Hmod Hdata Hlen Hh Hroom Hl. unfold em_inflate_copy_stored. rewrite length_app in Hroom.
  destruct (byte_align_represents inp inp_ok r _ Hr) as (r1 & -> & H1 & Hc1 & Hd1 & _). cbn [Z.ltb Z.compare].
  assert (Hp : (length (pad ++ zbits 16 (Z.of_nat (length data)) ++ zbits 16 (2 ^ 16 - 1 - Z.of_nat (length data))
                        ++ bytes_bits data ++ rest) mod 8 = length pad)%nat).
  { rewrite !length_app, !length_zbits, length_bytes_bits.
    pose proof (Nat.div_mod_eq (length rest) 8) as Hdm. rewrite Hmod in Hdm.
    replace (length pad + (16 + (16 + (8 * length data + length rest))))%nat
      with (length pad + (4 + length data + length rest / 8) * 8)%nat by lia.
    rewrite Nat.Div0.mod_add. by apply Nat.mod_small. }
  rewrite Hp, drop_app_length in H1. destruct r1 as [c1 d1 p pEnd start]. cbn in Hc1, Hd1. subst c1 d1.
  destruct (read_u16_correct p pEnd start _ _ H1) as [Hu1 H2]; [lia|].
  destruct (read_u16_correct (p + 2) pEnd start _ _ H2) as [Hu2 H3]; [lia|].
  destruct (byte_reader_bytes (p + 2 + 2) pEnd start data rest H3 Hdata) as (Hs & Hpe & Hp0 & Hend & H4).
  cbn [pInBlock pInBlockEnd]. destruct (Z.ltb_spec pEnd (p + 4)); [lia|].
  rewrite Hu1, Hu2. cbn [mbind res_bind]. rewrite complement16, Z.eqb_refl by lia. cbn [negb].
  destruct (Z.ltb_spec (nMax - Z.of_nat (length h)) (Z.of_nat (length data))); [lia|].
  cbn [pInBlock set_in pInBlockEnd pInBlockStart nDecShifterBitCount nDecShifterData]. unfold read_bytes.
  replace (p + 2 + 2) with (p + 4) in * by lia.
  rewrite (proj2 (Z.leb_le 0 _)), (proj2 (Z.leb_le _ _)) by lia. cbn [andb mbind res_bind]. rewrite Nat2Z.id, Hs.
  destruct (holds_write out h data Hh) as (o & -> & Hlo & Ho); [lia|]. cbn [mbind res_bind].
  eexists _, o. split; [reflexivity|]. split; [exact H4|]. split; [exact Hlo|exact Ho].
Qed.

(** ** Code lengths of a dynamic block *)

Lemma length_ordered order : forall vs acc, length (ordered order vs acc) = length acc.
Proof. induction order as [|o order IH]; intros [|v vs] acc; cbn [ordered]; try done. by rewrite IH, length_insert. Qed.

Lemma ordered_app order : forall vs ws acc, (length vs <= length order)%nat ->
  ordered order (vs ++ ws) acc = ordered (drop (length vs) order) ws (ordered order vs acc).
Proof.
  induction order as [|o order IH]; intros [|v vs] ws acc Hl; cbn [ordered app length drop] in *; try done; try lia.
  apply IH. lia.
Qed.

Lemma ordered_range P order : forall vs acc, Forall P vs -> Forall P acc -> Forall P (ordered order vs acc).
Proof.
  induction order as [|o order IH]; intros [|v vs] acc Hv Ha; cbn [ordered]; try done.
  apply Forall_cons_1 in Hv as [Hv Hvs]. apply IH; [done|]. by apply Forall_insert.
Qed.

Lemma code_len_order i o :
  code_length_order !! i = Some o ->
  index nCodeLenSymIndex (Z.of_nat i) = Ok (Z.of_nat o) /\ (o < 19)%nat
  /\ drop i code_length_order = o :: drop (S i) code_length_order.
Proof.
  intros Ho. split; [|split].
  - apply index_some; [lia|]. rewrite Nat2Z.id. change nCodeLenSymIndex with (map Z.of_nat code_length_order).
    by rewrite list_lookup_fmap, Ho.
  - assert (H : Forall (fun o => (o < 19)%nat) code_length_order) by (repeat constructor; lia).
    exact (Forall_lookup_1 _ _ _ _ H Ho).
  - by apply drop_S.
Qed.

Lemma store_front (acc tail : list Z) o v : (o < length acc)%nat ->
  store (acc ++ tail) (Z.of_nat o) v = Ok (<[o := v]> acc ++ tail).
Proof. intros Ho. rewrite store_ok by (rewrite length_app; lia). by rewrite Nat2Z.id, insert_app_l. Qed.

Lemma mjoin_cons {A} (x : list A) xs : mjoin (x :: xs) = x ++ mjoin xs.
Proof. reflexivity. Qed.

Lemma raw_values_loop tail vs : forall i acc r rest,
  represents inp r (mjoin (map (zbits 3) vs) ++ rest) -> Forall (fun v => 0 <= v < 8) vs ->
  (i + length vs <= 19)%nat -> (16 <= length rest)%nat -> length acc = 19%nat ->
  exists r', rfor (length vs) (Z.of_nat i) (fun i '(lens, r) =>
      '(nLength, r) ← em_lsb_bitreader_get_bits inp NCODELENBITS r;
      if nLength =? ERR then Fail
      else j ← index nCodeLenSymIndex i; lens ← store lens j (u8 nLength); Ok (lens, r)) (acc ++ tail, r)
    = Ok (ordered (drop i code_length_order) vs acc ++ tail, r') /\ represents inp r' rest.
Proof using inp_ok.
  induction vs as [|v vs IH]; intros i acc r rest Hr Hv Hi Hl Ha; cbn [rfor length].
  { exists r. split; [|done]. by destruct (drop i code_length_order). }
  apply Forall_cons_1 in Hv as [Hv Hvs]. cbn [map] in Hr. rewrite mjoin_cons, <- app_assoc in Hr.
  destruct (read_bits 3 v r _ Hr) as (r1 & E & H1 & Hne); [exact Hv|lia|rewrite length_app; lia|].
  change NCODELENBITS with (Z.of_nat 3). rewrite E. cbn [mbind res_bind]. rewrite (proj2 (Z.eqb_neq _ _) Hne).
  cbn [length] in Hi. destruct (lookup_lt_is_Some_2 code_length_order i) as [o Ho]; [cbn; lia|].
  destruct (code_len_order i o Ho) as (-> & Ho19 & ->). cbn [mbind res_bind].
  rewrite store_front by lia. cbn [mbind res_bind ordered]. rewrite u8_small by lia.
  replace (Z.of_nat i + 1) with (Z.of_nat (S i)) by lia.
  apply IH; [done|done|lia|done|by rewrite length_insert].
Qed.

Lemma raw_zeros_loop tail k : forall i acc, (i + k <= 19)%nat -> length acc = 19%nat ->
  rfor k (Z.of_nat i) (fun i lens => j ← index nCodeLenSymIndex i; store lens j 0) (acc ++ tail)
  = Ok (ordered (drop i code_length_order) (replicate k 0) acc ++ tail).
Proof.
  induction k as [|k IH]; intros i acc Hi Ha; cbn [rfor replicate]; [by destruct (drop i code_length_order)|].
  destruct (lookup_lt_is_Some_2 code_length_order i) as [o Ho]; [cbn; lia|].
  destruct (code_len_order i o Ho) as (-> & Ho19 & ->). cbn [mbind res_bind].
  rewrite store_front by lia. cbn [mbind res_bind ordered].
  replace (Z.of_nat i + 1) with (Z.of_nat (S i)) by lia. apply IH; [lia|by rewrite length_insert].
Qed.

Lemma raw_lengths_correct vs r rest tail :
  represents inp r (mjoin (map (zbits 3) vs) ++ rest) -> Forall (fun v => 0 <= v < 8) vs ->
  (4 <= length vs <= 19)%nat -> (16 <= length rest)%nat ->
  exists r', em_lsb_huffman_decoder_read_raw_lengths inp NCODELENBITS (Z.of_nat (length vs)) NCODELENSYMS
      (replicate 19 0 ++ tail) r = Ok (code_lengths vs ++ tail, r') /\ represents inp r' rest.
Proof using inp_ok.
  intros Hr Hv Hn Hl. unfold em_lsb_huffman_decoder_read_raw_lengths, NCODELENSYMS.
  replace (bad_counts (Z.of_nat (length vs)) 19) with false.
  2: { symmetry. unfold bad_counts, MAX_SYMBOLS. zbool. lia. }
  rewrite Nat2Z.id. destruct (raw_values_loop tail vs 0 (replicate 19 0) r rest Hr Hv) as (r' & E & Hr'); [lia|done|done|].
  change (Z.of_nat 0) with 0 in E. rewrite E. cbn [mbind res_bind].
  replace (Z.to_nat (19 - Z.of_nat (length vs))) with (19 - length vs)%nat by lia.
  rewrite raw_zeros_loop by (rewrite ?length_ordered; cbn; lia). cbn [mbind res_bind drop].
  exists r'. split; [|done]. do 3 f_equal. unfold code_lengths. rewrite ordered_app by (cbn; lia). done.
Qed.

(** The array of code lengths starts with those read so far. *)
Definition lens_hold (lens done : list Z) : Prop := holds lens done /\ Forall (fun x => 0 <= x) lens.

Lemma lens_hold_store lens ls v :
  lens_hold lens ls -> (length ls < length lens)%nat -> 0 <= v ->
  exists lens', store lens (Z.of_nat (length ls)) v = Ok lens' /\ length lens' = length lens /\ lens_hold lens' (ls ++ [v]).
Proof.
  intros [Hh Hn] Hl Hv. destruct (holds_store lens ls v Hh Hl) as (l' & E & Hl' & Hh').
  exists l'. split; [done|]. split; [done|]. split; [done|]. rewrite store_ok in E by lia. injection E as <-. by apply Forall_insert.
Qed.

Lemma fill_run_correct nRead v k : forall lens ls,
  lens_hold lens ls -> 0 <= v < 2 ^ 8 -> Z.of_nat (length ls + k) <= nRead -> nRead <= Z.of_nat (length lens) ->
  exists lens', fill_run k (Z.of_nat (length ls)) nRead v lens = Ok (Z.of_nat (length ls + k), lens')
    /\ length lens' = length lens /\ lens_hold lens' (ls ++ replicate k v).
Proof.
  induction k as [|k IH]; intros lens ls Hh Hv Hk Hl; cbn [fill_run replicate].
  { exists lens. rewrite Nat.add_0_r, app_nil_r. done. }
  rewrite (proj2 (Z.ltb_lt _ _)) by lia. rewrite u8_small by lia.
  destruct (lens_hold_store lens ls v Hh) as (l1 & -> & Hl1 & H1); [lia|lia|]. cbn [mbind res_bind].
  destruct (IH l1 (ls ++ [v]) H1 Hv) as (l2 & E & Hl2 & H2); [rewrite length_app; cbn; lia|lia|].
  exists l2. rewrite length_app in E. cbn [length] in E. rewrite <- app_assoc in H2. split; [|split; [congruence|done]].
  replace (Z.of_nat (length ls) + 1) with (Z.of_nat (length ls + 1)) by lia.
  by replace (length ls + S k)%nat with (length ls + 1 + k)%nat by lia.
Qed.

Lemma read_small s q rest CL t c :
  decodes inp CL id t -> code_of CL s = Some c -> (31 <= length rest)%nat -> represents inp q (c ++ rest) -> (s < 19)%nat ->
  exists q', em_lsb_huffman_decoder_read_value inp t q = Ok (Z.of_nat s, q') /\ represents inp q' rest /\ (Z.of_nat s =? ERR) = false.
Proof.
  intros Ht Hc Hl Hq Hs. destruct (dec_code _ _ _ _ Ht s c q rest Hc Hl Hq) as (q' & E & Hq'). exists q'.
  split; [done|]. split; [done|]. apply Z.eqb_neq. rewrite err_big. lia.
Qed.

(** One run of lengths, whatever its symbol. *)
Lemma run_correct CL t s c bits base n prev p k fuel nRead lens ls q rest :
  decodes inp CL id t -> code_of CL s = Some c -> (16 <= s < 19)%nat ->
  run_of (Z.of_nat s) prev = Some (Z.of_nat bits, Z.of_nat base, p) ->
  (n < 2 ^ bits)%nat -> (bits <= 7)%nat -> k = (base + n)%nat -> 0 <= p < 2 ^ 8 ->
  represents inp q (c ++ zbits bits (Z.of_nat n) ++ rest) -> (31 <= length rest)%nat ->
  lens_hold lens ls -> Z.of_nat (length ls + k) <= nRead -> (1 <= k)%nat -> nRead <= Z.of_nat (length lens) ->
  exists q' lens', var_lengths_loop inp (S fuel) t nRead (Z.of_nat (length ls)) prev lens q
      = var_lengths_loop inp fuel t nRead (Z.of_nat (length (ls ++ replicate k p))) p lens' q'
    /\ represents inp q' rest /\ length lens' = length lens /\ lens_hold lens' (ls ++ replicate k p).
Proof using inp_ok.
  intros Ht Hc Hs Hrun Hn Hb -> Hp Hq Hrest Hh Hk H1 Hl.
  destruct (read_small s q (zbits bits (Z.of_nat n) ++ rest) CL t c Ht Hc) as (q1 & E1 & Hq1 & Hne); [rewrite length_app; lia|done|lia|].
  cbn [var_lengths_loop]. rewrite (proj2 (Z.ltb_lt _ nRead)) by lia. rewrite E1. cbn [mbind res_bind].
  rewrite Hne, (proj2 (Z.ltb_ge _ 16)), Hrun by lia.
  assert (Hn2 : 0 <= Z.of_nat n < 2 ^ Z.of_nat bits).
  { split; [lia|]. assert (Z.of_nat (2 ^ bits) = 2 ^ Z.of_nat bits) by (by rewrite Nat2Z.inj_pow). lia. }
  destruct (read_bits bits (Z.of_nat n) q1 rest Hq1 Hn2) as (q2 & -> & Hq2 & Hne2); [lia|lia|]. cbn [mbind res_bind].
  rewrite (proj2 (Z.eqb_neq _ _) Hne2). cbn [mbind res_bind]. rewrite <- Nat2Z.inj_add, Nat2Z.id.
  destruct (fill_run_correct nRead p (base + n) lens ls Hh Hp Hk Hl) as (l' & -> & Hl' & Hh'). cbn [mbind res_bind].
  exists q2, l'. rewrite length_app, length_replicate. done.
Qed.

(** From any place of the table on, the loop reads [bits] as the lengths [ls']. *)
Definition reads_lengths (t : table) (nRead prev : Z) (bits : list bool) (ls' : list Z) : Prop :=
  forall fuel ls lens q rest,
  represents inp q (bits ++ rest) -> (31 <= length rest)%nat ->
  lens_hold lens ls -> nRead = Z.of_nat (length ls + length ls') -> nRead <= Z.of_nat (length lens) ->
  (length ls' < fuel)%nat ->
  exists q' lens', var_lengths_loop inp fuel t nRead (Z.of_nat (length ls)) prev lens q = Ok (lens', q')
    /\ represents inp q' rest /\ length lens' = length lens /\ lens_hold lens' (ls ++ ls')
    /\ Forall (fun x => 0 <= x < 16) ls'.

(** A run and what follows it. *)
Lemma reads_run CL t nRead s c b base n prev p k bits lt :
  decodes inp CL id t -> code_of CL s = Some c -> (16 <= s < 19)%nat ->
  run_of (Z.of_nat s) prev = Some (Z.of_nat b, Z.of_nat base, p) ->
  (n < 2 ^ b)%nat -> (b <= 7)%nat -> k = (base + n)%nat -> 0 <= p < 16 -> (1 <= k)%nat ->
  reads_lengths t nRead p bits lt ->
  reads_lengths t nRead prev (c ++ zbits b (Z.of_nat n) ++ bits) (replicate k p ++ lt).
Proof using inp_ok.
  intros Ht Hc Hs Hrun Hn Hb Hk Hp H1 IH fuel ls lens q rest Hq Hrest Hh HnR Hl Hf.
  rewrite <- !app_assoc in Hq. rewrite length_app, length_replicate in HnR, Hf. destruct fuel as [|fuel]; [lia|].
  destruct (run_correct CL t s c b base n prev p k fuel nRead lens ls q (bits ++ rest)) as (q1 & l1 & -> & Hq1 & Hl1 & Hh1);
    try done; [lia|rewrite length_app; lia|lia|].
  destruct (IH fuel (ls ++ replicate k p) l1 q1 rest Hq1 Hrest Hh1) as (q2 & l2 & E & Hq2 & Hl2 & Hh2 & Hr);
    [rewrite length_app, length_replicate; lia|lia|lia|].
  exists q2, l2. rewrite <- app_assoc in Hh2. split; [done|]. split; [done|]. split; [congruence|]. split; [done|].
  apply Forall_app. split; [by apply Forall_replicate|done].
Qed.

(** One length and what follows it. *)
Lemma reads_one CL t nRead l c prev bits lt :
  decodes inp CL id t -> code_of CL l = Some c -> (l < 16)%nat ->
  reads_lengths t nRead (Z.of_nat l) bits lt -> reads_lengths t nRead prev (c ++ bits) (Z.of_nat l :: lt).
Proof using inp_ok.
  intros Ht Hc Hl16 IH fuel ls lens q rest Hq Hrest Hh HnR Hlen Hf.
  rewrite <- app_assoc in Hq. cbn [length] in HnR, Hf. destruct fuel as [|fuel]; [lia|].
  destruct (read_small l q (bits ++ rest) CL t c Ht Hc) as (q1 & E1 & Hq1 & Hne); [rewrite length_app; lia|done|lia|].
  cbn [var_lengths_loop]. rewrite (proj2 (Z.ltb_lt _ nRead)) by lia. rewrite E1. cbn [mbind res_bind].
  rewrite Hne, (proj2 (Z.ltb_lt _ 16)) by lia. rewrite u8_small by lia.
  destruct (lens_hold_store lens ls (Z.of_nat l) Hh) as (l1 & -> & Hl1 & Hh1); [lia|lia|]. cbn [mbind res_bind].
  destruct (IH fuel (ls ++ [Z.of_nat l]) l1 q1 rest Hq1 Hrest Hh1) as (q2 & l2 & E & Hq2 & Hl2 & Hh2 & Hr);
    [rewrite length_app; cbn; lia|lia|lia|].
  exists q2, l2. rewrite length_app in E. cbn [length] in E.
  replace (Z.of_nat (length ls) + 1) with (Z.of_nat (length ls + 1)) by lia. split; [exact E|]. split; [done|].
  split; [congruence|]. rewrite <- app_assoc in Hh2. split; [done|]. constructor; [lia|done].
Qed.

Lemma var_lengths_correct CL t nRead prev bits ls' :
  coded CL prev bits ls' -> decodes inp CL id t -> (forall p, prev = Some p -> 0 <= p < 16) ->
  reads_lengths t nRead (default 0 prev) bits ls'.
Proof using inp_ok.
  intros Hco Ht.
  induction Hco as [prev|prev l c bits ls' Hl Hc Hco IH|p n c bits ls' Hn Hc Hco IH|prev n c bits ls' Hn Hc Hco IH|prev n c bits ls' Hn Hc Hco IH];
    intros Hprev.
  - intros fuel ls lens q rest Hq Hrest Hh HnR Hlen Hf. destruct fuel as [|fuel]; [lia|].
    cbn [var_lengths_loop]. cbn [length] in HnR. rewrite (proj2 (Z.ltb_ge _ nRead)) by lia.
    exists q, lens. rewrite app_nil_r. done.
  - eapply reads_one; [done..|]. apply IH. intros p [= <-]. lia.
  - assert (Hp := Hprev p eq_refl). eapply (reads_run CL t nRead 16 c 2 3 n p p); try done; try lia. by apply IH.
  - eapply (reads_run CL t nRead 17 c 3 3 n _ 0); try done; try lia. apply IH. intros p [= <-]. lia.
  - eapply (reads_run CL t nRead 18 c 7 11 n _ 0); try done; try lia. apply IH. intros p [= <-]. lia.
Qed.

(** ** Tables *)

Lemma not_too_long C n : Forall (fun x => x < 16) (take n C) -> ~ too_long C n.
Proof. intros H (x & Hx & H16). apply list_elem_of_lookup_1 in Hx as [j Hx]. pose proof (Forall_lookup_1 _ _ _ _ H Hx). cbn in *. lia. Qed.

(** A table from valid code lengths, prepared and finalized. *)
Lemma prepare_ok C n nSym :
  Forall (fun x => 0 <= x) C -> (n <= length C)%nat -> Z.of_nat n <= nSym <= MAX_SYMBOLS ->
  Forall (fun x => x < 16) (take n C) ->
  exists p, em_lsb_huffman_decoder_prepare_table (Z.of_nat n) nSym C = Ok p /\ prepared C n nSym (fst p) (snd p).
Proof.
  intros HC Hn Hs H16. pose proof (prepare_run C n nSym HC Hn False Hs (not_too_long C n H16)) as H.
  destruct (run_ok _ _ H) as ([d rev] & -> & Hp). by exists (d, rev).
Qed.

Lemma finalize_ok f C n nSym p :
  prepared C n nSym (fst p) (snd p) -> (n <= length C)%nat -> Z.of_nat n <= nSym <= MAX_SYMBOLS ->
  complete_enough (take n C) -> (forall s, 0 <= s < Z.of_nat n -> 0 <= f s < 2 ^ 24) ->
  exists t, em_lsb_huffman_decoder_finalize_table (fst p) (map f (snd p)) = Ok t /\ decodes inp (take n C) f t.
Proof using inp_ok.
  intros Hp Hn Hs Hc Hf. pose proof (finalize_prepared inp C n nSym f inp_ok Hn Hs Hf _ _ Hp) as H.
  apply not_oversubscribed in Hc.
  destruct (em_lsb_huffman_decoder_finalize_table (fst p) (map f (snd p))) as [t| |]; cbn in H; [exists t; split; [done|apply H]|by apply Hc in H|done].
Qed.

Lemma code_lengths_range vs : Forall (fun v => 0 <= v < 8) vs -> Forall (fun v => 0 <= v < 8) (code_lengths vs).
Proof.
  intros H. unfold code_lengths. apply ordered_range; [|apply Forall_replicate; lia].
  apply Forall_app. split; [done|apply Forall_replicate; lia].
Qed.

Lemma length_code_lengths vs : length (code_lengths vs) = 19%nat.
Proof. unfold code_lengths. by rewrite length_ordered. Qed.

Lemma Forall_weaken {A} (P Q : A -> Prop) l : (forall x, P x -> Q x) -> Forall P l -> Forall Q l.
Proof. intros. by eapply Forall_impl. Qed.

(** The table of the code lengths. *)
Lemma code_table_correct vs k :
  Forall (fun v => 0 <= v < 8) vs -> complete_enough (code_lengths vs) ->
  exists p t, em_lsb_huffman_decoder_prepare_table 19 19 (code_lengths vs ++ replicate k 0) = Ok p
    /\ em_lsb_huffman_decoder_finalize_table (fst p) (snd p) = Ok t /\ decodes inp (code_lengths vs) id t.
Proof using inp_ok.
  intros Hvs Hce. pose proof (code_lengths_range vs Hvs) as Hcr. pose proof (length_code_lengths vs) as Hcl.
  set (C := code_lengths vs ++ replicate k 0).
  assert (Ht19 : take 19 C = code_lengths vs) by (unfold C; by rewrite take_app_length').
  assert (Hlen : (19 <= length C)%nat) by (unfold C; rewrite length_app; lia).
  destruct (prepare_ok C 19 19) as (p & Ep & Hp).
  - unfold C. apply Forall_app. split; [eapply Forall_weaken; [|exact Hcr]; cbn; lia|apply Forall_replicate; lia].
  - done.
  - unfold MAX_SYMBOLS; lia.
  - rewrite Ht19. eapply Forall_weaken; [|exact Hcr]; cbn; lia.
  - destruct (finalize_ok id C 19 19 p Hp Hlen) as (t & Et & Ht); [unfold MAX_SYMBOLS; lia|by rewrite Ht19|unfold id; lia|].
    exists p, t. split; [exact Ep|]. rewrite Ht19 in Ht. split; [|done]. rewrite <- Et. f_equal. symmetry. apply map_id.
Qed.

(** Zeros behind the code lengths read. *)
Lemma zero_tail_correct k : forall i lens ls,
  lens_hold lens ls -> (length ls <= i)%nat -> (i + k <= length lens)%nat ->
  exists lens', rfor k (Z.of_nat i) (fun i lens => store lens i 0) lens = Ok lens'
    /\ length lens' = length lens /\ lens_hold lens' ls.
Proof.
  induction k as [|k IH]; intros i lens ls [Hh Hn] Hi Hk; cbn [rfor]; [by exists lens|].
  rewrite store_ok by lia. cbn [mbind res_bind]. rewrite Nat2Z.id. replace (Z.of_nat i + 1) with (Z.of_nat (S i)) by lia.
  destruct (IH (S i) (<[i := 0]> lens) ls) as (l' & E & Hl & Hh'); [|lia|rewrite length_insert; lia|].
  - split; [|by apply Forall_insert]. unfold holds in *. by rewrite take_insert_ge.
  - exists l'. rewrite length_insert in Hl. done.
Qed.

(** The code lengths of both tables. *)
Lemma read_var_lengths_correct CL t nRead nSym lbits ls lens q rest :
  coded CL None lbits ls -> decodes inp CL id t -> represents inp q (lbits ++ rest) -> (31 <= length rest)%nat ->
  nRead = Z.of_nat (length ls) -> nRead <= nSym <= Z.of_nat (length lens) -> Forall (fun x => 0 <= x) lens ->
  exists q' lens', em_lsb_huffman_decoder_read_var_lengths inp t nRead nSym lens q = Ok (lens', q')
    /\ represents inp q' rest /\ length lens' = length lens /\ lens_hold lens' ls /\ Forall (fun x => 0 <= x < 16) ls.
Proof using inp_ok.
  intros Hco Ht Hq Hrest HnR Hs Hn. unfold em_lsb_huffman_decoder_read_var_lengths.
  replace ((nRead <? 0) || (nSym <? 0) || (nSym <? nRead)) with false by (symmetry; zbool; lia).
  destruct (var_lengths_correct CL t nRead None lbits ls Hco Ht ltac:(done) (S (Z.to_nat nRead)) [] lens q rest) as (q1 & l1 & E & Hq1 & Hl1 & Hh1 & Hr1);
    try done; [lia|lia|]. change (Z.of_nat (length [])) with 0 in E. change (default 0 None) with 0 in E. rewrite E. cbn [mbind res_bind].
  rewrite HnR. destruct (zero_tail_correct (Z.to_nat (nSym - nRead)) (length ls) l1 ls Hh1) as (l2 & E2 & Hl2 & Hh2); [lia|lia|].
  rewrite <- HnR in E2 at 1. rewrite HnR in E2. rewrite E2. cbn [mbind res_bind]. exists q1, l2. split; [done|]. split; [done|]. split; [congruence|done].
Qed.

(** The header of a dynamic block: the tables are prepared from its code lengths. *)
Lemma dynamic_tables_correct r nlit ndist vs lbits lens rest :
  (257 <= nlit <= 286)%nat -> (1 <= ndist <= 30)%nat -> (4 <= length vs <= 19)%nat ->
  Forall (fun v => 0 <= v < 8) vs -> complete_enough (code_lengths vs) ->
  coded (code_lengths vs) None lbits lens -> length lens = (nlit + ndist)%nat -> (31 <= length rest)%nat ->
  represents inp r (zbits 5 (Z.of_nat nlit - 257) ++ zbits 5 (Z.of_nat ndist - 1)
     ++ zbits 4 (Z.of_nat (length vs) - 4) ++ mjoin (map (zbits 3) vs) ++ lbits ++ rest) ->
  exists lit off r' C1 C2, dynamic_tables inp r = Ok (lit, off, r') /\ represents inp r' rest
    /\ prepared C1 nlit NLITERALSYMS (fst lit) (snd lit) /\ take nlit C1 = take nlit lens /\ (nlit <= length C1)%nat
    /\ prepared C2 ndist NOFFSETSYMS (fst off) (snd off) /\ take ndist C2 = drop nlit lens /\ (ndist <= length C2)%nat.
Proof using inp_ok.
  intros Hnl Hnd Hnv Hvs Hce Hco Hlen Hrest Hr. unfold dynamic_tables, NLITERALSYMS, NOFFSETSYMS, NCODELENSYMS.
  destruct (read_bits 5 _ r _ Hr) as (r1 & E1 & H1 & Hne1); [lia|lia|rewrite !length_app; lia|].
  change (em_lsb_bitreader_get_bits inp 5) with (em_lsb_bitreader_get_bits inp (Z.of_nat 5)). rewrite E1. cbn [mbind res_bind].
  rewrite (proj2 (Z.eqb_neq _ _) Hne1). replace (Z.of_nat nlit - 257 + 257) with (Z.of_nat nlit) by lia.
  rewrite (proj2 (Z.ltb_ge 288 _)) by lia.
  destruct (read_bits 5 _ r1 _ H1) as (r2 & -> & H2 & Hne2); [lia|lia|rewrite !length_app; lia|]. cbn [mbind res_bind].
  rewrite (proj2 (Z.eqb_neq _ _) Hne2). replace (Z.of_nat ndist - 1 + 1) with (Z.of_nat ndist) by lia.
  rewrite (proj2 (Z.ltb_ge 32 _)) by lia.
  destruct (read_bits 4 _ r2 _ H2) as (r3 & E3 & H3 & Hne3); [lia|lia|rewrite !length_app; lia|].
  change (em_lsb_bitreader_get_bits inp 4) with (em_lsb_bitreader_get_bits inp (Z.of_nat 4)). rewrite E3. cbn [mbind res_bind].
  rewrite (proj2 (Z.eqb_neq _ _) Hne3). replace (Z.of_nat (length vs) - 4 + 4) with (Z.of_nat (length vs)) by lia.
  rewrite (proj2 (Z.ltb_ge 19 _)) by lia. change (Z.to_nat (288 + 32)) with (19 + 301)%nat. rewrite replicate_add.
  destruct (raw_lengths_correct vs r3 _ (replicate 301 0) H3 Hvs Hnv) as (r4 & E4 & H4); [rewrite length_app; lia|].
  unfold NCODELENSYMS in E4. rewrite E4. cbn [mbind res_bind].
  destruct (code_table_correct vs 301 Hvs Hce) as ([d rev] & t & -> & Et & Ht). cbn [mbind res_bind]. cbn [fst snd] in Et. rewrite Et. cbn [mbind res_bind].
  pose proof (length_code_lengths vs) as Hcl.
  destruct (read_var_lengths_correct (code_lengths vs) t (Z.of_nat nlit + Z.of_nat ndist) (288 + 32) lbits lens (code_lengths vs ++ replicate 301 0) r4 rest)
    as (r5 & A & -> & H5 & HlA & [HhA HnA] & Hr16); try done; [lia|rewrite length_app, length_replicate, Hcl; lia| |].
  { apply Forall_app. split; [eapply Forall_weaken; [|by apply code_lengths_range]; cbn; lia|apply Forall_replicate; lia]. }
  cbn [mbind res_bind]. rewrite length_app, length_replicate, Hcl in HlA. unfold holds in HhA.
  assert (T1 : take nlit A = take nlit lens) by (rewrite <- HhA, take_take; f_equal; lia).
  assert (T2 : take ndist (drop nlit A) = drop nlit lens) by (rewrite <- HhA, Hlen, skipn_firstn_comm; f_equal; lia).
  assert (R16 : Forall (fun x => x < 16) lens) by (eapply Forall_weaken; [|exact Hr16]; cbn; lia).
  destruct (prepare_ok A nlit 288 HnA) as (lit & -> & Hlit); [lia|unfold MAX_SYMBOLS; lia|rewrite T1; by apply Forall_take|]. cbn [mbind res_bind].
  rewrite Nat2Z.id. destruct (prepare_ok (drop nlit A) ndist 32) as (off & -> & Hoff);
    [by apply Forall_drop|rewrite length_drop; lia|unfold MAX_SYMBOLS; lia|rewrite T2; by apply Forall_drop|]. cbn [mbind res_bind].
  exists lit, off, r5, A, (drop nlit A). rewrite length_drop. repeat (split; [done || lia|]). lia.
Qed.

Lemma fixed_complete : complete_enough fixed_literals /\ complete_enough fixed_distances.
Proof.
  split; intros l Hl; do 16 (destruct l as [|l]; [try lia; vm_compute; discriminate|]); lia.
Qed.

(** The tables of a block decode its codes. *)
Definition tables_for (LL DL : list Z) (m : res (table * table * em_lsb_bitreader_t)) (rest : list bool) : Prop :=
  exists lit off r', m = Ok (lit, off, r') /\ decodes inp LL literal_entry lit /\ decodes inp DL offset_entry off
    /\ represents inp r' rest.

Lemma finalize_both C1 n1 C2 n2 LL DL lit off :
  prepared C1 n1 NLITERALSYMS (fst lit) (snd lit) -> take n1 C1 = LL -> (n1 <= length C1)%nat -> (n1 <= 288)%nat ->
  prepared C2 n2 NOFFSETSYMS (fst off) (snd off) -> take n2 C2 = DL -> (n2 <= length C2)%nat -> (n2 <= 32)%nat ->
  complete_enough LL -> complete_enough DL ->
  exists l o, em_lsb_huffman_decoder_finalize_table (fst lit) (map literal_entry (snd lit)) = Ok l
    /\ em_lsb_huffman_decoder_finalize_table (fst off) (map offset_entry (snd off)) = Ok o
    /\ decodes inp LL literal_entry l /\ decodes inp DL offset_entry o.
Proof using inp_ok.
  intros Hl <- Hn1 Hb1 Ho <- Hn2 Hb2 Hc1 Hc2. unfold NLITERALSYMS, NOFFSETSYMS in *.
  destruct (finalize_ok literal_entry C1 n1 288 lit Hl Hn1) as (l & El & Hdl);
    [unfold MAX_SYMBOLS; lia|done|intros s Hs; apply literal_entry_small; lia|].
  destruct (finalize_ok offset_entry C2 n2 32 off Ho Hn2) as (o & Eo & Hdo);
    [unfold MAX_SYMBOLS; lia|done|intros s Hs; apply offset_entry_small; lia|].
  by exists l, o.
Qed.

Lemma static_tables_correct r rest :
  represents inp r rest -> tables_for fixed_literals fixed_distances (block_tables inp false r) rest.
Proof using inp_ok.
  intros Hr. unfold block_tables, static_tables, NLITERALSYMS, NOFFSETSYMS.
  destruct (prepare_ok nFixedLiteralCodeLen 288 288) as (lit & El & Hlit);
    [repeat constructor; lia|by cbn|unfold MAX_SYMBOLS; lia|repeat constructor; lia|].
  destruct (prepare_ok nFixedOffsetCodeLen 32 32) as (off & Eo & Hoff);
    [repeat constructor; lia|by cbn|unfold MAX_SYMBOLS; lia|repeat constructor; lia|].
  change (Z.of_nat 288) with 288 in El. change (Z.of_nat 32) with 32 in Eo. rewrite El. cbn [mbind res_bind]. rewrite Eo. cbn [mbind res_bind].
  destruct fixed_complete as [Hc1 Hc2].
  assert (T1 : take 288 nFixedLiteralCodeLen = fixed_literals) by (vm_compute; reflexivity).
  assert (T2 : take 32 nFixedOffsetCodeLen = fixed_distances) by (vm_compute; reflexivity).
  destruct (finalize_both nFixedLiteralCodeLen 288 nFixedOffsetCodeLen 32 fixed_literals fixed_distances lit off
    Hlit T1 ltac:(by cbn) ltac:(lia) Hoff T2 ltac:(by cbn) ltac:(lia) Hc1 Hc2) as (l & o & -> & Eo' & Hl & Ho). cbn [mbind res_bind]. rewrite Eo'. cbn [mbind res_bind].
  exists l, o, r. split; [reflexivity|]. split; [exact Hl|]. split; [exact Ho|exact Hr].
Qed.

Lemma decompress_correct dyn LL DL h bits h' rest r out nMax :
  tables_for LL DL (block_tables inp dyn r) (bits ++ rest) -> items LL DL h bits h' -> (31 <= length rest)%nat ->
  holds out h -> Z.of_nat (length h') <= nMax -> nMax <= Z.of_nat (length out) ->
  exists r' out', em_inflate_decompress_block inp r dyn out (Z.of_nat (length h)) (nMax - Z.of_nat (length h))
      = Ok (Some (Z.of_nat (length h') - Z.of_nat (length h), r'), out')
    /\ represents inp r' rest /\ length out' = length out /\ holds out' h'.
Proof using inp_ok.
  intros (lit & off & r1 & E & Hlit & Hoff & H1) Hit Hrest Hh Hroom Hl. unfold em_inflate_decompress_block. rewrite E.
  pose proof (items_grow _ _ _ _ _ Hit) as Hg. replace (Z.of_nat (length h) + (nMax - Z.of_nat (length h))) with nMax by lia.
  destruct (block_loop_correct LL DL lit off nMax h bits h' Hit Hlit Hoff (S (Z.to_nat (nMax - Z.of_nat (length h)))) r1 rest out)
    as (r2 & o & -> & H2 & Hlo & Ho); try done; [lia|]. cbn [mbind res_bind]. by exists r2, o.
Qed.

(** ** Streams *)

Lemma inflate_block_correct b h bits h' rest r out nMax :
  block h bits h' rest -> represents inp r (b :: bits) -> (31 <= length rest)%nat ->
  holds out h -> Z.of_nat (length h') <= nMax -> nMax <= Z.of_nat (length out) ->
  exists r' out', inflate_block inp nMax (Z.of_nat (length h)) r out
      = Ok (b2z b, Some (Z.of_nat (length h') - Z.of_nat (length h), r'), out')
    /\ represents inp r' rest /\ length out' = length out /\ holds out' h'.
Proof using inp_ok.
  intros Hb Hr Hrest Hh Hroom Hl. unfold inflate_block.
  assert (T : forall ty tail, represents inp r ((b :: zbits 2 ty) ++ tail) -> 0 <= ty < 4 -> (16 <= length tail)%nat ->
    exists r2, represents inp r2 tail /\ forall B (k : Z -> Z -> em_lsb_bitreader_t -> res B),
      ('(f, r) ← em_lsb_bitreader_get_bits inp 1 r; '(t, r) ← em_lsb_bitreader_get_bits inp 2 r; k f t r) = k (b2z b) ty r2).
  { clear Hr. intros ty tail Hr Hty Htl.
    destruct (read_bits 1 (b2z b) r (zbits 2 ty ++ tail)) as (r1 & E1 & H1 & _);
      [by destruct b|by destruct b|lia|rewrite length_app; lia|].
    destruct (read_bits 2 ty r1 tail H1) as (r2 & E2 & H2 & _); [lia|lia|done|].
    exists r2. split; [done|]. intros B k. change 1 with (Z.of_nat 1). change 2 with (Z.of_nat 2).
    rewrite E1. cbn [mbind res_bind]. rewrite E2. done. }
  destruct Hb as [h pad data rest Hpad Hmod Hdata Hlen|h bits h' rest Hit|h nlit ndist vs lbits lens bits h' rest Hnl Hnd Hnv Hvs Hce Hco Hln Hc1 Hc2 Hit].
  - destruct (T 0 _ Hr) as (r2 & H2 & ->); [lia|rewrite !length_app; lia|]. cbn [Z.eqb].
    destruct (copy_stored_correct r2 h pad data rest out nMax) as (r3 & o & -> & H3 & Hlo & Ho); try done. cbn [mbind res_bind].
    exists r3, o. rewrite length_app. split; [|done]. do 4 f_equal. f_equal. lia.
  - destruct (T 1 _ Hr) as (r2 & H2 & ->); [lia|rewrite !length_app; lia|]. cbn [Z.eqb Pos.eqb].
    destruct (decompress_correct false fixed_literals fixed_distances h bits h' rest r2 out nMax
      (static_tables_correct r2 _ H2) Hit Hrest Hh Hroom Hl) as (r3 & o & -> & H3 & Hlo & Ho). cbn [mbind res_bind]. by exists r3, o.
  - destruct (T 2 _ Hr) as (r2 & H2 & ->); [lia|rewrite !length_app; lia|]. cbn [Z.eqb Pos.eqb].
    destruct (decompress_correct true (take nlit lens) (drop nlit lens) h bits h' rest r2 out nMax) as (r3 & o & -> & H3 & Hlo & Ho); try done.
    { destruct (dynamic_tables_correct r2 nlit ndist vs lbits lens (bits ++ rest)) as (lit & off & r4 & C1 & C2 & E & H4 & P1 & T1 & L1 & P2 & T2 & L2);
        try done; [rewrite length_app; lia|]. unfold block_tables. rewrite E. cbn [mbind res_bind].
      destruct (finalize_both C1 nlit C2 ndist (take nlit lens) (drop nlit lens) lit off) as (l & o & -> & Eo & Hl' & Ho'); try done; [lia|lia|].
      cbn [mbind res_bind]. rewrite Eo. cbn [mbind res_bind]. by exists l, o, r4. }
    cbn [mbind res_bind]. by exists r3, o.
Qed.

(** The output only grows, by bytes. *)
Definition extends (h h' : bytes) : Prop := exists d, h' = h ++ d /\ bytes_ok d.

Lemma extends_refl h : extends h h.
Proof. exists []. rewrite app_nil_r. split; [done|constructor]. Qed.

Lemma extends_trans a b c : extends a b -> extends b c -> extends a c.
Proof. intros (x & -> & Hx) (y & -> & Hy). exists (x ++ y). rewrite app_assoc. split; [done|by apply Forall_app]. Qed.

Lemma extends_ok h h' : bytes_ok h -> extends h h' -> bytes_ok h'.
Proof. intros Hh (d & -> & Hd). by apply Forall_app. Qed.

Lemma lz_extends dist k : forall h, bytes_ok h -> extends h (lz_copy k dist h).
Proof.
  induction k as [|k IH]; intros h Hh; [apply extends_refl|]. rewrite lz_copy_S.
  assert (E : extends h (lz_byte dist h)).
  { eexists. split; [reflexivity|]. constructor; [|constructor].
    destruct (nth_in_or_default (length h - dist) h 0) as [Hin| ->]; [|unfold byte_ok; lia].
    apply list_elem_of_In in Hin. apply list_elem_of_lookup_1 in Hin as [j Hj]. exact (Forall_lookup_1 _ _ _ _ Hh Hj). }
  eapply extends_trans; [exact E|]. apply IH. by eapply extends_ok.
Qed.

Lemma items_extends LL DL h bits h' : items LL DL h bits h' -> bytes_ok h -> extends h h'.
Proof.
  induction 1 as [h c Hc|h h' b c bits Hb Hc Hit IH|h h' s c base n e d dc dbase m f bits Hs Hc He Hd Hdc Hf Hdist Hit IH]; intros Hh.
  - apply extends_refl.
  - assert (E : extends h (h ++ [Z.of_nat b])) by (eexists; split; [reflexivity|]; constructor; [unfold byte_ok; lia|constructor]).
    eapply extends_trans; [exact E|]. apply IH. by eapply extends_ok.
  - assert (E := lz_extends (Z.to_nat (dbase + f)) (Z.to_nat (base + e)) h Hh).
    eapply extends_trans; [exact E|]. apply IH. by eapply extends_ok.
Qed.

Lemma block_extends h bits h' rest : block h bits h' rest -> bytes_ok h -> extends h h'.
Proof.
  intros [h0 pad data rest0 _ _ Hd _|h0 b h1 rest0 Hit|h0 nlit ndist vs lb lens b h1 rest0 _ _ _ _ _ _ _ _ _ Hit] Hh;
    [by exists data|by eapply items_extends|by eapply items_extends].
Qed.

Lemma stream_extends h bits h' rest : stream h bits h' rest -> bytes_ok h -> extends h h'.
Proof.
  induction 1 as [h bits h' rest Hb|h bits h1 bits1 h' rest Hb Hs IH]; intros Hh; [by eapply block_extends|].
  assert (E := block_extends _ _ _ _ Hb Hh). eapply extends_trans; [exact E|]. apply IH. by eapply extends_ok.
Qed.

Lemma stream_bits h bits h' rest : stream h bits h' rest -> (length rest < length bits)%nat.
Proof.
  assert (B : forall h bits h' rest, block h bits h' rest -> (length rest <= length bits)%nat).
  { intros ? ? ? ? []; cbn [app length]; rewrite ?length_app; lia. }
  induction 1 as [h bits h' rest Hb|h bits h1 bits1 h' rest Hb Hs IH]; cbn [length]; pose proof (B _ _ _ _ Hb); lia.
Qed.

(** ** Checksums along a stream *)

Definition sum_of (t : em_inflate_checksum_type_t) (h : bytes) : Z :=
  match t with CHECKSUM_NONE => 0 | CHECKSUM_GZIP => crc_ref h 0 | CHECKSUM_ZLIB => adler_ref 1 h end.

Lemma update_sum t h d : bytes_ok h -> bytes_ok d -> update_checksum t d (sum_of t h) = sum_of t (h ++ d).
Proof.
  intros Hh Hd. destruct t; cbn [update_checksum sum_of]; [done| |].
  - rewrite crc_refines by done. by apply crc_ref_app.
  - rewrite adler_refines by (try apply adler_ref_ok, adler_ok_1; done). apply adler_ref_app, adler_ok_1.
Qed.

Lemma holds_sub out h d : holds out (h ++ d) ->
  sub out (length h) (length (h ++ d) - length h) = d.
Proof.
  unfold holds, sub. intros Hh. apply (f_equal (drop (length h))) in Hh.
  rewrite skipn_firstn_comm, drop_app_length in Hh. exact Hh.
Qed.

Lemma inflate_loop_correct t nMax h bits h' rest :
  stream h bits h' rest -> forall fuel r out,
  represents inp r bits -> (31 <= length rest)%nat -> bytes_ok h -> holds out h ->
  Z.of_nat (length h') <= nMax -> nMax <= Z.of_nat (length out) -> (length bits <= fuel)%nat ->
  exists r' out', inflate_loop inp fuel t nMax (Z.of_nat (length h)) (sum_of t h) r out
      = Ok (Some (Z.of_nat (length h'), sum_of t h', r'), out')
    /\ represents inp r' rest /\ length out' = length out /\ holds out' h'.
Proof using inp_ok.
  assert (S : forall b h bits h1 rest1 fuel r out, block h bits h1 rest1 -> represents inp r (b :: bits) ->
    (31 <= length rest1)%nat -> bytes_ok h -> holds out h -> Z.of_nat (length h1) <= nMax -> nMax <= Z.of_nat (length out) ->
    exists r1 o1, represents inp r1 rest1 /\ length o1 = length out /\ holds o1 h1
      /\ inflate_loop inp (S fuel) t nMax (Z.of_nat (length h)) (sum_of t h) r out
         = if b then Ok (Some (Z.of_nat (length h1), sum_of t h1, r1), o1)
           else inflate_loop inp fuel t nMax (Z.of_nat (length h1)) (sum_of t h1) r1 o1).
  { intros b h0 bits0 h1 rest1 fuel r out Hb Hr Hrest Hok Hh Hroom Hl.
    destruct (inflate_block_correct b h0 bits0 h1 rest1 r out nMax Hb Hr Hrest Hh Hroom Hl) as (r1 & o1 & E & H1 & Hlo & Ho).
    exists r1, o1. split; [done|]. split; [done|]. split; [done|]. cbn [inflate_loop]. rewrite E. cbn [mbind res_bind].
    destruct (block_extends _ _ _ _ Hb Hok) as (d & -> & Hd).
    replace (Z.of_nat (length h0) + (Z.of_nat (length (h0 ++ d)) - Z.of_nat (length h0))) with (Z.of_nat (length (h0 ++ d))) by lia.
    rewrite Nat2Z.id. replace (Z.to_nat (Z.of_nat (length (h0 ++ d)) - Z.of_nat (length h0))) with (length (h0 ++ d) - length h0)%nat by lia.
    rewrite holds_sub by done. rewrite update_sum by done. by destruct b. }
  induction 1 as [h bits h' rest Hb|h bits h1 bits1 h' rest Hb Hs IH]; intros fuel r out Hr Hrest Hok Hh Hroom Hl Hf; cbn [length] in Hf;
    (destruct fuel as [|fuel]; [lia|]).
  - destruct (S true h bits h' rest fuel r out Hb Hr Hrest Hok Hh Hroom Hl) as (r1 & o1 & H1 & Hlo & Ho & ->). by exists r1, o1.
  - pose proof (stream_bits _ _ _ _ Hs) as Hbits. assert (E1 := block_extends _ _ _ _ Hb Hok). pose proof (extends_ok _ _ Hok E1) as Hok1.
    destruct (stream_extends _ _ _ _ Hs Hok1) as (d & Ed & _). assert (length h1 <= length h')%nat by (rewrite Ed, length_app; lia).
    destruct (S false h bits h1 bits1 fuel r out Hb Hr ltac:(lia) Hok Hh ltac:(lia) Hl) as (r1 & o1 & H1 & Hlo & Ho & ->).
    destruct (IH fuel r1 o1 H1 Hrest Hok1 Ho Hroom ltac:(lia)) as (r2 & o2 & -> & H2 & Hlo2 & Ho2).
    { assert (B : (length bits1 <= length bits)%nat) by (destruct Hb; cbn [app length]; rewrite ?length_app; lia). lia. }
    exists r2, o2. split; [done|]. split; [done|]. split; [congruence|done].
Qed.

(** ** Wrappings *)

(** A reader placed behind a prefix of the input reads the rest of it. *)
Lemma init_represents pre bs : inp = pre ++ bs ->
  represents inp (em_lsb_bitreader_init (Z.of_nat (length pre)) (Z.of_nat (length inp))) (bytes_bits bs).
Proof using inp_ok.
  intros E. assert (Hl : length inp = (length pre + length bs)%nat) by (rewrite E; apply length_app).
  assert (Hbs : bytes_ok bs) by (rewrite E in inp_ok; by apply Forall_app in inp_ok as [_ ?]).
  apply (byte_reader_represents inp inp_ok); try lia.
  - rewrite Z.sub_diag, Z.mul_0_r, Z.div_1_r, lsb_val_bytes by done. unfold total. cbn [pInBlockStart pInBlockEnd].
    f_equal. rewrite Nat2Z.id, Hl. replace (Z.to_nat (Z.of_nat (length pre + length bs) - Z.of_nat (length pre))) with (length bs) by lia.
    rewrite E. unfold sub. rewrite drop_app_length. apply take_ge. lia.
  - rewrite length_bytes_bits. lia.
Qed.

Lemma or4_le b0 b1 b2 b3 : bytes_ok [b0; b1; b2; b3] ->
  b0 .| (b1 << 8) .| (b2 << 16) .| (b3 << 24) = le_val [b0; b1; b2; b3].
Proof.
  intros H. apply Forall_cons_1 in H as [H0 H]. apply Forall_cons_1 in H as [H1 H]. apply Forall_cons_1 in H as [H2 H].
  apply Forall_cons_1 in H as [H3 _]. unfold byte_ok in *. cbn [le_val].
  rewrite (lor_shiftl b0) by lia. rewrite (lor_shiftl _ b2) by lia. rewrite (lor_shiftl _ b3) by lia. lia.
Qed.

Lemma or4_be b0 b1 b2 b3 : bytes_ok [b0; b1; b2; b3] ->
  (b0 << 24) .| (b1 << 16) .| (b2 << 8) .| b3 = be_val [b0; b1; b2; b3].
Proof.
  intros H. change (be_val [b0; b1; b2; b3]) with (le_val [b3; b2; b1; b0]). rewrite <- or4_le.
  - rewrite (Z.lor_comm _ b3), (Z.lor_comm _ (b2 << 8)), (Z.lor_comm (b0 << 24)). by rewrite !Z.lor_assoc.
  - do 4 (apply Forall_cons_1 in H as [? H]). do 4 (apply Forall_cons_2; [assumption|]). apply Forall_nil_2.
Qed.

(** Four bytes of the input, as the trailer reads them. *)
Lemma index_four {B} p bs (F : res B) (k : Z -> Z -> Z -> Z -> res B) :
  sub inp (Z.to_nat p) 4 = bs -> 0 <= p -> p + 4 <= Z.of_nat (length inp) ->
  (forall b0 b1 b2 b3, bs = [b0; b1; b2; b3] -> k b0 b1 b2 b3 = F) ->
  (b0 ← index inp p; b1 ← index inp (p + 1); b2 ← index inp (p + 2); b3 ← index inp (p + 3); k b0 b1 b2 b3) = F.
Proof.
  intros Hs H0 Hl Hk. assert (Hlen : length bs = 4%nat) by (rewrite <- Hs; apply length_sub; lia).
  destruct bs as [|b0 [|b1 [|b2 [|b3 [|]]]]]; try done.
  assert (I : forall j x, (j < 4)%nat -> [b0; b1; b2; b3] !! j = Some x -> index inp (p + Z.of_nat j) = Ok x).
  { intros j x Hj Hx. apply index_some; [lia|]. rewrite <- Hs in Hx. unfold sub in Hx.
    rewrite lookup_take_lt, lookup_drop in Hx by lia. rewrite <- Hx. f_equal. lia. }
  pose proof (I 0%nat b0 ltac:(lia) eq_refl) as I0. pose proof (I 1%nat b1 ltac:(lia) eq_refl) as I1.
  pose proof (I 2%nat b2 ltac:(lia) eq_refl) as I2. pose proof (I 3%nat b3 ltac:(lia) eq_refl) as I3.
  rewrite Z.add_0_r in I0. change (Z.of_nat 1) with 1 in I1. change (Z.of_nat 2) with 2 in I2. change (Z.of_nat 3) with 3 in I3.
  rewrite I0, I1, I2, I3. cbn [mbind res_bind]. by apply Hk.
Qed.

(** The trailer that a wrapping puts behind its blocks. *)
Definition trailer (t : em_inflate_checksum_type_t) (out : bytes) : bytes :=
  match t with
  | CHECKSUM_NONE => []
  | CHECKSUM_GZIP => le_bytes 4 (crc_ref out 0)
  | CHECKSUM_ZLIB => be_bytes 4 (adler_ref 1 out)
  end.

Lemma check_trailer_correct t p out :
  bytes_ok out -> sub inp (Z.to_nat p) (length (trailer t out)) = trailer t out -> 0 <= p ->
  p + Z.of_nat (length (trailer t out)) <= Z.of_nat (length inp) ->
  check_trailer inp t (sum_of t out) p (Z.of_nat (length inp)) = Ok tt.
Proof.
  intros Ho Hs H0 Hl. unfold check_trailer. destruct t; [done| |]; cbn [trailer sum_of] in *.
  - rewrite length_le_bytes in *. rewrite (proj2 (Z.ltb_ge _ _)) by lia.
    eapply index_four; [exact Hs|exact H0|exact Hl|]. intros b0 b1 b2 b3 E.
    assert (Hb : bytes_ok [b0; b1; b2; b3]) by (rewrite <- E; apply le_bytes_ok).
    rewrite or4_le, <- E, le_val_le_bytes by done. change (8 * Z.of_nat 4) with 32.
    rewrite Z.mod_small by apply not32_range. by rewrite Z.eqb_refl.
  - rewrite length_be_bytes in *. rewrite (proj2 (Z.ltb_ge _ _)) by lia.
    eapply index_four; [exact Hs|exact H0|exact Hl|]. intros b0 b1 b2 b3 E.
    assert (Hb : bytes_ok [b0; b1; b2; b3]) by (rewrite <- E; unfold be_bytes; apply Forall_reverse, le_bytes_ok).
    rewrite or4_be, <- E, be_val_be_bytes by done. change (8 * Z.of_nat 4) with 32.
    rewrite Z.mod_small by (apply (adler_ref_ok 1 out adler_ok_1)). by rewrite Z.eqb_refl.
Qed.

(** Behind a header that is recognised, a stream and its trailer are accepted. *)
Lemma em_inflate_correct t pre body extra pad out buf nMax :
  inp = pre ++ body ++ trailer t out ++ extra ->
  stream_header inp (Z.of_nat (length inp)) = Ok (Z.of_nat (length pre), t) -> t <> CHECKSUM_NONE ->
  (length pad < 8)%nat ->
  stream [] (bytes_bits (body ++ trailer t out ++ extra)) out (pad ++ bytes_bits (trailer t out ++ extra)) ->
  Z.of_nat (length out) <= nMax -> nMax <= Z.of_nat (length buf) ->
  exists buf', em_inflate inp (Z.of_nat (length inp)) buf nMax = Ok (Z.of_nat (length out), buf') /\ holds buf' out.
Proof using inp_ok.
  intros E Hh Ht Hpad Hs Hroom Hl. assert (Hok : bytes_ok out).
  { eapply extends_ok; [|by eapply stream_extends; [exact Hs|constructor]]. constructor. }
  assert (Htr : length (trailer t out) = 4%nat) by (destruct t; [done|apply length_le_bytes|apply length_be_bytes]).
  unfold em_inflate. rewrite Hh.
  assert (Hlast : (31 <= length (pad ++ bytes_bits (trailer t out ++ extra)))%nat).
  { rewrite length_app, length_bytes_bits, length_app, Htr. lia. }
  destruct (inflate_loop_correct t nMax [] _ out _ Hs (S (Z.to_nat (8 * Z.of_nat (length inp) + 8))) 
    (em_lsb_bitreader_init (Z.of_nat (length pre)) (Z.of_nat (length inp))) buf) as (r & o & El & Hr & Hlo & Ho).
  - by apply init_represents.
  - done.
  - constructor.
  - done.
  - done.
  - done.
  - rewrite length_bytes_bits. pose proof (f_equal length E) as El. rewrite length_app in El. lia.
  - change (Z.of_nat (length [])) with 0 in El.
    replace (match t with CHECKSUM_ZLIB => em_inflate_adler32_z 0 None | _ => 0 end) with (sum_of t []) by (by destruct t).
    rewrite El. cbn [mbind res_bind].
    destruct (byte_align_represents inp inp_ok r _ Hr) as (r1 & -> & H1 & Hc1 & Hd1 & _).
    assert (Hp : (length (pad ++ bytes_bits (trailer t out ++ extra)) mod 8 = length pad)%nat).
    { rewrite length_app, length_bytes_bits, (Nat.mul_comm 8), Nat.Div0.mod_add. by apply Nat.mod_small. }
    rewrite Hp, drop_app_length, bytes_bits_app in H1. destruct r1 as [c1 d1 p pEnd start]. cbn in Hc1, Hd1. subst c1 d1.
    assert (Hto : bytes_ok (trailer t out)) by (destruct t; [constructor|apply le_bytes_ok|apply Forall_reverse, le_bytes_ok]).
    destruct (byte_reader_bytes p pEnd start _ _ H1 Hto) as (Hsub & Hpe & Hp0 & Hend & _).
    cbn [pInBlock]. rewrite (check_trailer_correct t p out Hok Hsub Hp0) by lia. by exists o.
Qed.
End correct.

(** ** Headers *)

Lemma zlib_header cmf flg rest :
  byte_ok cmf -> byte_ok flg -> cmf mod 16 = 8 -> cmf / 16 <= 7 -> (cmf * 256 + flg) mod 31 = 0 ->
  Z.testbit flg 5 = false ->
  stream_header ([cmf; flg] ++ rest) (Z.of_nat (length ([cmf; flg] ++ rest))) = Ok (2, CHECKSUM_ZLIB).
Proof.
  intros Hc Hf Hm Hw Hk Hd. unfold byte_ok in *. unfold stream_header.
  rewrite (proj2 (Z.ltb_ge _ 2)) by (rewrite length_app; cbn [length]; lia).
  rewrite (index_some _ 0 cmf), (index_some _ 1 flg) by (done || lia). cbn [mbind res_bind].
  change 0x0f with (Z.ones 4). rewrite land_ones_mod by lia. change (2 ^ 4) with 16. rewrite Hm.
  assert (cmf <> 0x1f) by (intros ->; done). rewrite (proj2 (Z.eqb_neq cmf 0x1f)) by done. cbn [andb Z.eqb Pos.eqb].
  rewrite Z.shiftr_div_pow2 by lia. change (2 ^ 4) with 16. rewrite (proj2 (Z.leb_le _ 7)) by done.
  rewrite lor_shiftl by lia. replace (flg + 2 ^ 8 * cmf) with (cmf * 256 + flg) by lia. rewrite Hk. cbn [andb Z.eqb].
  replace (flg .& 0x20) with 0; [done|]. symmetry. apply Z.bits_inj'. intros n Hn. rewrite Z.land_spec, Z.bits_0.
  change 0x20 with (2 ^ 5). rewrite Z.pow2_bits_eqb by lia. destruct (Z.eqb_spec 5 n) as [<-|]; [by rewrite Hd|apply andb_false_r].
Qed.

Lemma gzip_header_plain fields rest :
  length fields = 6%nat ->
  stream_header ([0x1f; 0x8b; 8; 0] ++ fields ++ rest) (Z.of_nat (length ([0x1f; 0x8b; 8; 0] ++ fields ++ rest)))
  = Ok (10, CHECKSUM_GZIP).
Proof.
  intros Hf. assert (Hl : (10 <= length ([0x1f; 0x8b; 8; 0]%Z ++ fields ++ rest))%nat) by (rewrite !length_app; cbn [length]; lia).
  unfold stream_header. rewrite (proj2 (Z.ltb_ge _ 2)) by lia. unfold gzip_header. rewrite (proj2 (Z.ltb_ge _ (2 + 8))) by lia.
  reflexivity.
Qed.

Lemma zlib_inflated data out buf nMax :
  zlib_stream data out -> bytes_ok data -> Z.of_nat (length out) <= nMax <= Z.of_nat (length buf) ->
  exists buf', em_inflate data (Z.of_nat (length data)) buf nMax = Ok (Z.of_nat (length out), buf')
    /\ take (length out) buf' = out /\ kept nMax buf buf'.
Proof.
  intros (cmf & flg & body & pad & -> & Hc & Hf & Hb & Hm & Hw & Hk & Hd & Hpad & Hs) Hok Hn.
  set (data := [cmf; flg] ++ body ++ be_bytes 4 (adler_ref 1 out)) in *.
  destruct (em_inflate_correct data Hok CHECKSUM_ZLIB [cmf; flg] body [] pad out buf nMax) as (buf' & E & Ho).
  - cbn [trailer]. by rewrite app_nil_r.
  - by apply zlib_header.
  - done.
  - done.
  - cbn [trailer]. by rewrite app_nil_r.
  - lia.
  - lia.
  - exists buf'. split; [done|]. split; [exact Ho|].
    pose proof (em_inflate_safe data buf nMax Hok ltac:(lia)) as Hsafe. rewrite E in Hsafe. apply Hsafe.
Qed.

(** ** Theorems *)

(** C1: every zlib stream (RFC 1950 and 1951: stored, fixed and dynamic blocks,
    matches that overlap, several blocks) whose output fits the room is inflated to
    exactly this output; the size is returned and the checksum accepted. *)
Theorem inflate_zlib data out buf nMax :
  zlib_stream data out -> bytes_ok data -> Z.of_nat (length out) <= nMax <= Z.of_nat (length buf) ->
  exists buf', em_inflate data (Z.of_nat (length data)) buf nMax = Ok (Z.of_nat (length out), buf')
    /\ take (length out) buf' = out /\ kept nMax buf buf'.
Proof. apply zlib_inflated. Qed.

(** Every gzip member without optional header fields is inflated to its output. *)
Theorem inflate_gzip data out buf nMax :
  gzip_stream data out -> bytes_ok data -> Z.of_nat (length out) <= nMax <= Z.of_nat (length buf) ->
  exists buf', em_inflate data (Z.of_nat (length data)) buf nMax = Ok (Z.of_nat (length out), buf')
    /\ take (length out) buf' = out /\ kept nMax buf buf'.
Proof.
  intros (fields & body & pad & -> & Hfl & Hfo & Hb & Hpad & Hs) Hok Hn.
  set (data := [0x1f; 0x8b; 8; 0] ++ fields ++ body ++ le_bytes 4 (crc_ref out 0) ++ le_bytes 4 (Z.of_nat (length out))) in *.
  destruct (em_inflate_correct data Hok CHECKSUM_GZIP ([0x1f; 0x8b; 8; 0] ++ fields) body (le_bytes 4 (Z.of_nat (length out))) pad out buf nMax)
    as (buf' & E & Ho).
  - unfold data. cbn [trailer]. by rewrite <- app_assoc.
  - rewrite length_app, Hfl. by apply gzip_header_plain.
  - done.
  - done.
  - exact Hs.
  - lia.
  - lia.
  - exists buf'. split; [done|]. split; [exact Ho|].
    pose proof (em_inflate_safe data buf nMax Hok ltac:(lia)) as Hsafe. rewrite E in Hsafe. apply Hsafe.
Qed.

(** ** Witnesses *)

(** zlib.compress(b'aaaaaaaa'): two literals and a match of six bytes one back. *)
Definition zlib_sample : bytes := [120; 218; 75; 76; 132; 0; 0; 13; 172; 3; 9].
Definition sample_a : list bool := [true; false; false; true; false; false; false; true].
Definition sample_items : list bool :=
  sample_a ++ sample_a ++ [false; false; false; false; true; false; false] ++ zbits 0 0
  ++ [false; false; false; false; false] ++ zbits 0 0 ++ [false; false; false; false; false; false; false].

Lemma zlib_sample_stream : zlib_stream zlib_sample (replicate 8 97).
Proof.
  exists 120, 218, [75; 76; 132; 0; 0], (replicate 2 false).
  split; [vm_compute; reflexivity|]. split; [unfold byte_ok; lia|]. split; [unfold byte_ok; lia|].
  split; [repeat constructor; lia|]. do 5 (split; [done || (cbn; lia)|]).
  replace (bytes_bits _) with (true :: [true; false] ++ sample_items ++ replicate 2 false
    ++ bytes_bits (be_bytes 4 (adler_ref 1 (replicate 8 97)))) by (vm_compute; reflexivity).
  apply stream_last, block_fixed. unfold sample_items.
  apply (items_lit _ _ _ _ 97); [lia|vm_compute; reflexivity|].
  apply (items_lit _ _ _ _ 97); [lia|vm_compute; reflexivity|].
  apply (items_match _ _ _ _ 3 _ 6 0 0 0 _ 1 0 0); try (vm_compute; reflexivity || (split; [discriminate|reflexivity])).
  - vm_compute. discriminate.
  - apply items_end. vm_compute. reflexivity.
Qed.

Lemma inflate_zlib_witness :
  exists buf', em_inflate zlib_sample 11 (replicate 40 7) 32 = Ok (8, buf')
    /\ take 8 buf' = replicate 8 97 /\ kept 32 (replicate 40 7) buf'.
Proof.
  apply (inflate_zlib zlib_sample (replicate 8 97) (replicate 40 7) 32 zlib_sample_stream).
  - repeat constructor; lia.
  - cbn. lia.
Defined.

(** The gzip member of b'abc' in one stored block. *)
Definition gzip_sample : bytes :=
  [31; 139; 8; 0; 0; 0; 0; 0; 4; 3; 1; 3; 0; 252; 255; 97; 98; 99; 194; 65; 36; 53; 3; 0; 0; 0].

Lemma gzip_sample_stream : gzip_stream gzip_sample [97; 98; 99].
Proof.
  exists [0; 0; 0; 0; 4; 3], [1; 3; 0; 252; 255; 97; 98; 99], [].
  split; [vm_compute; reflexivity|]. split; [done|]. do 2 (split; [repeat constructor; lia|]). split; [cbn; lia|].
  replace (bytes_bits ([1; 3; 0; 252; 255; 97; 98; 99] ++ _)) with (true :: [false; false] ++ replicate 5 false
    ++ zbits 16 3 ++ zbits 16 (2 ^ 16 - 1 - 3) ++ bytes_bits [97; 98; 99]
    ++ bytes_bits (le_bytes 4 (crc_ref [97; 98; 99] 0) ++ le_bytes 4 3)) by (vm_compute; reflexivity).
  apply stream_last. apply (block_stored [] (replicate 5 false) [97; 98; 99]); [cbn; lia|done|repeat constructor; lia|cbn; lia].
Qed.

Lemma inflate_gzip_witness :
  exists buf', em_inflate gzip_sample 26 (replicate 8 7) 3 = Ok (3, buf')
    /\ take 3 buf' = [97; 98; 99] /\ kept 3 (replicate 8 7) buf'.
Proof.
  apply (inflate_gzip gzip_sample [97; 98; 99] (replicate 8 7) 3 gzip_sample_stream).
  - repeat constructor; lia.
  - cbn. lia.
Defined.
