(* ===== verification/LodeLz77.v ===== *)
(** deps/lodepng/lodepng.c, the LZ77 stage of the PNG encoder: [encodeLZ77] with
    its hash chains, [searchCodeIndex] and [addLengthDistance].

    Positions are [Z]; [None] is an access outside an object or a read of memory
    that was never written.  Allocations succeed: the error code 83 is left out, here
    and in the other files of the encoder.  The input is shorter than [2^31], so that
    no sum of positions wraps.  The theorem: the symbols stand for exactly the
    bytes of the block, for every window size, match limit and laziness. *)
From S2P Require Import Prelude Checksum BitReader Huffman Canonical Deflate.

(** ** Data *)

Definition at_ {X} (l : list X) (i : Z) : option X := if i <? 0 then None else l !! Z.to_nat i.
Definition put_at {X} (l : list X) (i : Z) (v : X) : option (list X) := if i <? 0 then None else store_at l (Z.to_nat i) v.

Lemma at_some {X} (l : list X) i : 0 <= i < Z.of_nat (length l) -> exists x, at_ l i = Some x.
Proof. intros H. unfold at_. rewrite (proj2 (Z.ltb_ge i 0)) by lia. apply lookup_lt_is_Some_2. lia. Qed.

Lemma at_range {X} (l : list X) i x : at_ l i = Some x -> 0 <= i < Z.of_nat (length l).
Proof. unfold at_. destruct (Z.ltb_spec i 0); [done|]. intros Hx%lookup_lt_Some. lia. Qed.

Lemma put_at_ok {X} (l : list X) i v : 0 <= i < Z.of_nat (length l) -> put_at l i v = Some (<[Z.to_nat i := v]> l).
Proof. intros H. unfold put_at, store_at. by rewrite (proj2 (Z.ltb_ge i 0)), (proj2 (Nat.ltb_lt _ _)) by lia. Qed.

Lemma at_insert {X} (l : list X) i j v : 0 <= i < Z.of_nat (length l) ->
  at_ (<[Z.to_nat i := v]> l) j = if decide (i = j) then Some v else at_ l j.
Proof.
  intros H. unfold at_. destruct (Z.ltb_spec j 0); [by rewrite decide_False by lia|].
  destruct (decide (i = j)) as [->|]; [by rewrite list_lookup_insert_eq by lia|].
  by rewrite list_lookup_insert_ne by lia.
Qed.

Definition FIRST_LENGTH_CODE_INDEX : Z := 257.
Definition MAX_SUPPORTED_DEFLATE_LENGTH : Z := 258.
Definition HASH_NUM_VALUES : Z := 65536.
Definition HASH_BIT_MASK : Z := 65535.

Definition LENGTHBASE : list Z :=
  [3; 4; 5; 6; 7; 8; 9; 10; 11; 13; 15; 17; 19; 23; 27; 31; 35; 43; 51; 59;
   67; 83; 99; 115; 131; 163; 195; 227; 258].
Definition LENGTHEXTRA : list Z :=
  [0; 0; 0; 0; 0; 0; 0; 0; 1; 1; 1; 1; 2; 2; 2; 2; 3; 3; 3; 3; 4; 4; 4; 4; 5; 5; 5; 5; 0].
Definition DISTANCEBASE : list Z :=
  [1; 2; 3; 4; 5; 7; 9; 13; 17; 25; 33; 49; 65; 97; 129; 193; 257; 385; 513;
   769; 1025; 1537; 2049; 3073; 4097; 6145; 8193; 12289; 16385; 24577].
Definition DISTANCEEXTRA : list Z :=
  [0; 0; 0; 0; 1; 1; 2; 2; 3; 3; 4; 4; 5; 5; 6; 6; 7; 7; 8; 8; 9; 9; 10; 10; 11; 11; 12; 12; 13; 13].

(** The search interval halves: six turns are enough for thirty entries. *)
Fixpoint search_code (fuel : nat) (array : list Z) (value left right : Z) : option Z :=
  match fuel with
  | O => None
  | S fuel =>
      if left <=? right then
        let mid := (left + right) >> 1 in
        x ← at_ array mid;
        if value <=? x then search_code fuel array value left (mid - 1) else search_code fuel array value (mid + 1) right
      else Some left
  end.

Definition searchCodeIndex (array : list Z) (value : Z) : option Z :=
  let array_size := Z.of_nat (length array) in
  left ← search_code (S (length array)) array value 1 (array_size - 1);
  if array_size <=? left then Some (left - 1)
  else x ← at_ array left; Some (if value <? x then left - 1 else left).

(** [values] with the four numbers at its end *)
Definition addLengthDistance (values : list Z) (length distance : Z) : option (list Z) :=
  length_code ← searchCodeIndex LENGTHBASE length;
  lbase ← at_ LENGTHBASE length_code;
  dist_code ← searchCodeIndex DISTANCEBASE distance;
  dbase ← at_ DISTANCEBASE dist_code;
  Some (values ++ [length_code + FIRST_LENGTH_CODE_INDEX; length - lbase; dist_code; distance - dbase]).

(** ** Hash chains *)

(** [zeros] comes from malloc: an entry is [None] until it is written. *)
Record Hash := mkHash {
  head : list Z; val : list Z; chain : list Z; headz : list Z; chainz : list Z; zeros : list (option Z)
}.

Definition hash_init (windowsize : Z) : Hash :=
  let n := Z.to_nat windowsize in
  mkHash (replicate (Z.to_nat HASH_NUM_VALUES) (-1)) (replicate n (-1)) (seqZ 0 windowsize)
    (replicate (Z.to_nat (MAX_SUPPORTED_DEFLATE_LENGTH + 1)) (-1)) (seqZ 0 windowsize) (replicate n None).

Fixpoint hash_rest (fuel : nat) (data : bytes) (pos i : Z) (result : Z) : option Z :=
  match fuel with
  | O => Some result
  | S fuel => x ← at_ data (pos + i); hash_rest fuel data pos (i + 1) (result .^ u32 (x << (i * 8)))
  end.

Definition getHash (data : bytes) (size pos : Z) : option Z :=
  result ← (if pos + 2 <? size then
              a ← at_ data pos; b ← at_ data (pos + 1); c ← at_ data (pos + 2);
              Some (a .^ (b << 4) .^ (c << 8))
            else if size <=? pos then Some 0
            else hash_rest (Z.to_nat (size - pos)) data pos 0 0);
  Some (result .& HASH_BIT_MASK).

Fixpoint count_zeros (fuel : nat) (data : bytes) (p : Z) : option Z :=
  match fuel with
  | O => Some 0
  | S fuel => x ← at_ data p; if x =? 0 then n ← count_zeros fuel data (p + 1); Some (n + 1) else Some 0
  end.

Definition countZeros (data : bytes) (size pos : Z) : option Z :=
  let end_ := pos + MAX_SUPPORTED_DEFLATE_LENGTH in
  let end_ := if size <? end_ then size else end_ in
  count_zeros (Z.to_nat (end_ - pos)) data pos.

Definition updateHashChain (h : Hash) (wpos hashval numzeros : Z) : option Hash :=
  val ← put_at (val h) wpos hashval;
  hd ← at_ (head h) hashval;
  chain ← (if negb (hd =? -1) then put_at (chain h) wpos hd else Some (chain h));
  head ← put_at (head h) hashval wpos;
  zeros ← put_at (zeros h) wpos (Some numzeros);
  hz ← at_ (headz h) numzeros;
  chainz ← (if negb (hz =? -1) then put_at (chainz h) wpos hz else Some (chainz h));
  headz ← put_at (headz h) numzeros wpos;
  Some (mkHash head val chain headz chainz zeros).

(** ** Searching *)

(** How far the bytes at [back] and [fore] agree, up to [last] *)
Fixpoint extend (fuel : nat) (data : bytes) (back fore last : Z) : option Z :=
  match fuel with
  | O => None
  | S fuel =>
      if fore =? last then Some fore
      else
        b ← at_ data back; f ← at_ data fore;
        if b =? f then extend fuel data (back + 1) (fore + 1) last else Some fore
  end.

(** The loop over the chain; [turns] is [maxchainlength - chainlength]. *)
Fixpoint search_chain (turns : nat) (data : bytes) (h : Hash) (windowsize nicematch pos wpos last hashval numzeros : Z)
    (hashpos prev_offset length offset : Z) : option (Z * Z) :=
  match turns with
  | O => Some (length, offset)
  | S turns =>
      let current_offset := if hashpos <=? wpos then wpos - hashpos else wpos - hashpos + windowsize in
      if current_offset <? prev_offset then Some (length, offset)
      else
        '(length, offset, done) ←
          (if 0 <? current_offset then
             skip ← (if 3 <=? numzeros then
                       z ← mjoin (at_ (zeros h) hashpos); Some (if numzeros <? z then numzeros else z)
                     else Some 0);
             fore ← extend (S (Z.to_nat (last - pos))) data (pos - current_offset + skip) (pos + skip) last;
             let current_length := fore - pos in
             Some (if length <? current_length
                   then (current_length, current_offset, nicematch <=? current_length)
                   else (length, offset, false))
           else Some (length, offset, false));
        if (done : bool) then Some (length, offset)
        else
          c ← at_ (chain h) hashpos;
          if hashpos =? c then Some (length, offset)
          else if (3 <=? numzeros) && (numzeros <? length) then
            hp ← at_ (chainz h) hashpos;
            z ← mjoin (at_ (zeros h) hp);
            if negb (z =? numzeros) then Some (length, offset)
            else search_chain turns data h windowsize nicematch pos wpos last hashval numzeros hp current_offset length offset
          else
            v ← at_ (val h) c;
            if negb (v =? hashval) then Some (length, offset)
            else search_chain turns data h windowsize nicematch pos wpos last hashval numzeros c current_offset length offset
  end.

(** ** The encoder *)

(** The run of zeros at [pos], from that at the position before *)
Definition next_zeros (data : bytes) (insize pos hashval numzeros : Z) : option Z :=
  if hashval =? 0 then
    if numzeros =? 0 then countZeros data insize pos
    else if insize <? pos + numzeros then Some (numzeros - 1)
    else x ← at_ data (pos + numzeros - 1); Some (if x =? 0 then numzeros else numzeros - 1)
  else Some 0.

(** Hash value, run of zeros and the update of the chains at [pos] *)
Definition visit (data : bytes) (insize windowsize pos numzeros : Z) (h : Hash) : option (Z * Z * Z * Hash) :=
  let wpos := pos .& (windowsize - 1) in
  hashval ← getHash data insize pos;
  numzeros ← next_zeros data insize pos hashval numzeros;
  h ← updateHashChain h wpos hashval numzeros;
  Some (wpos, hashval, numzeros, h).

(** The positions inside a match *)
Fixpoint skip_match (n : nat) (data : bytes) (insize windowsize pos numzeros : Z) (h : Hash) : option (Z * Z * Hash) :=
  match n with
  | O => Some (pos, numzeros, h)
  | S n =>
      '(_, _, numzeros, h) ← visit data insize windowsize (pos + 1) numzeros h;
      skip_match n data insize windowsize (pos + 1) numzeros h
  end.

Record lz_settings := LzSettings { windowsize : Z; minmatch : Z; nicematch : Z; lazymatching : bool }.

(** The match that is kept for the next byte, if there is one: [lazylength], [lazyoffset]. *)
Definition lazy_match : Type := option (Z * Z).

(** An error code, or the symbols and the chains *)
Definition lz_result : Type := Z + list Z * Hash.

(** A length/distance pair or a literal at [pos], then the rest of the loop *)
Definition encode_symbol (s : lz_settings) (data : bytes) (insize pos numzeros length offset : Z) (h : Hash) (out : list Z)
    (continue : Z -> Z -> Hash -> list Z -> option lz_result) : option lz_result :=
  if (3 <=? length) && (windowsize s <? offset) then Some (inl 86)
  else if (length <? 3) || (length <? minmatch s) || ((length =? 3) && (4096 <? offset)) then
    x ← at_ data pos;
    continue pos numzeros h (out ++ [x])
  else
    out ← addLengthDistance out length offset;
    '(pos, numzeros, h) ← skip_match (Z.to_nat (length - 1)) data insize (windowsize s) pos numzeros h;
    continue pos numzeros h out.

Fixpoint encode_loop (fuel : nat) (s : lz_settings) (data : bytes) (insize : Z)
    (pos numzeros : Z) (lazy : lazy_match) (h : Hash) (out : list Z) : option lz_result :=
  match fuel with
  | O => None
  | S fuel =>
      if insize <=? pos then Some (inr (out, h))
      else
        let ws := windowsize s in
        let maxchainlength := if 8192 <=? ws then ws else ws / 8 in
        let maxlazymatch := if 8192 <=? ws then MAX_SUPPORTED_DEFLATE_LENGTH else 64 in
        '(wpos, hashval, numzeros, h) ← visit data insize ws pos numzeros h;
        hashpos ← at_ (chain h) wpos;
        let last := if insize <? pos + MAX_SUPPORTED_DEFLATE_LENGTH then insize else pos + MAX_SUPPORTED_DEFLATE_LENGTH in
        '(length, offset) ← search_chain (Z.to_nat maxchainlength) data h ws (nicematch s) pos wpos last hashval numzeros hashpos 0 0 0;
        let emit pos numzeros length offset h out :=
          encode_symbol s data insize pos numzeros length offset h out
            (fun pos numzeros h out => encode_loop fuel s data insize (pos + 1) numzeros None h out) in
        if lazymatching s then
          match lazy with
          | None =>
              if (3 <=? length) && (length <=? maxlazymatch) && (length <? MAX_SUPPORTED_DEFLATE_LENGTH)
              then encode_loop fuel s data insize (pos + 1) numzeros (Some (length, offset)) h out
              else emit pos numzeros length offset h out
          | Some (lazylength, lazyoffset) =>
              if pos =? 0 then Some (inl 81)
              else if lazylength + 1 <? length then
                x ← at_ data (pos - 1);
                emit pos numzeros length offset h (out ++ [x])
              else
                hd ← put_at (head h) hashval (-1);
                hz ← put_at (headz h) numzeros (-1);
                emit (pos - 1) numzeros lazylength lazyoffset (mkHash hd (val h) (chain h) hz (chainz h) (zeros h)) out
          end
        else emit pos numzeros length offset h out
  end.

Definition encodeLZ77 (out : list Z) (h : Hash) (data : bytes) (inpos insize : Z) (s : lz_settings) : option lz_result :=
  let ws := windowsize s in
  if (ws =? 0) || (32768 <? ws) then Some (inl 60)
  else if negb ((ws .& (ws - 1)) =? 0) then Some (inl 90)
  else
    let nice := if MAX_SUPPORTED_DEFLATE_LENGTH <? nicematch s then MAX_SUPPORTED_DEFLATE_LENGTH else nicematch s in
    encode_loop (Z.to_nat (2 * (insize - inpos) + 2)) (LzSettings ws (minmatch s) nice (lazymatching s)) data insize inpos 0 None h out.
