(* ===== verification/LodeHuff.v ===== *)
(** deps/lodepng/lodepng.c, the Huffman codes of the PNG encoder: code lengths from
    frequencies by boundary package merge ([lodepng_huffman_code_lengths]), codes from
    lengths ([HuffmanTree_makeFromLengths2]) and the decoding table, which the
    encoder builds too and whose construction checks the code ([HuffmanTree_makeTable]).

    A pointer to a [BPMNode] is its index in the memory pool, NULL is [None]; a node is
    [None] until it is first created.  The triple (freelist, nextfree, numfree) is the
    list of the nodes still to be handed out.  The marks [in_use] are local to a garbage
    collection.  [None] is an access outside an object, a sum of weights that overflows
    [int], or, in [bpmnode_create], a pool without a free node. *)
From S2P Require Import Prelude Checksum BitReader Huffman Canonical Deflate LodeLz77.

(** ** Boundary package merge *)

Record BPMNode := mkNode { n_weight : Z; n_index : Z; n_tail : option nat }.

Record BPMLists := mkLists {
  memory : list (option BPMNode);
  freelist : list nat;
  chains0 : list (option nat);
  chains1 : list (option nat)
}.

Definition node_at (m : list (option BPMNode)) (p : option nat) : option BPMNode := q ← p; mjoin (m !! q).

(** Mark a chain, following the tails; a chain has at most as many nodes as the pool. *)
Fixpoint mark (fuel : nat) (m : list (option BPMNode)) (p : option nat) (in_use : list nat) : option (list nat) :=
  match p with
  | None => Some in_use
  | Some q =>
      match fuel with
      | O => None
      | S fuel => n ← node_at m p; mark fuel m (n_tail n) (q :: in_use)
      end
  end.

Fixpoint mark_all (m : list (option BPMNode)) (cs : list (option nat)) (in_use : list nat) : option (list nat) :=
  match cs with
  | [] => Some in_use
  | p :: cs => in_use ← mark (length m) m p in_use; mark_all m cs in_use
  end.

(** The nodes no chain needs, in the order of the pool *)
Definition collect (l : BPMLists) : option (list nat) :=
  in_use ← mark_all (memory l) (chains0 l ++ chains1 l) [];
  Some (filter (fun i => i ∉ in_use) (seq 0 (length (memory l)))).

Definition bpmnode_create (l : BPMLists) (weight index : Z) (tail : option nat) : option (nat * BPMLists) :=
  free ← (match freelist l with [] => collect l | f => Some f end);
  match free with
  | [] => None
  | q :: free =>
      m ← store_at (memory l) q (Some (mkNode weight index tail));
      Some (q, mkLists m free (chains0 l) (chains1 l))
  end.

(** One step of the merge sort: [b[k]] for the rest of a pair of runs *)
Fixpoint merge_run (fuel : nat) (a : list (Z * Z)) (i q j r : nat) : option (list (Z * Z)) :=
  match fuel with
  | O => Some []
  | S fuel =>
      left ← (if (i <? q)%nat then
                if (r <=? j)%nat then Some true
                else x ← a !! i; y ← a !! j; Some (fst x <=? fst y)
              else Some false);
      if (left : bool) then x ← a !! i; rest ← merge_run fuel a (S i) q j r; Some (x :: rest)
      else y ← a !! j; rest ← merge_run fuel a i q (S j) r; Some (y :: rest)
  end.

Definition cap (num x : nat) : nat := if (num <? x)%nat then num else x.

(** One pass, from the runs that start at [p] *)
Fixpoint merge_pass (fuel : nat) (a : list (Z * Z)) (num width p : nat) : option (list (Z * Z)) :=
  match fuel with
  | O => None
  | S fuel =>
      if (p <? num)%nat then
        let q := cap num (p + width) in
        let r := cap num (p + 2 * width) in
        run ← merge_run (r - p) a p q q r;
        rest ← merge_pass fuel a num width (p + 2 * width);
        Some (run ++ rest)
      else Some []
  end.

Fixpoint merge_passes (fuel : nat) (a : list (Z * Z)) (num width : nat) : option (list (Z * Z)) :=
  match fuel with
  | O => None
  | S fuel =>
      if (width <? num)%nat then a ← merge_pass (S num) a num width 0; merge_passes fuel a num (width * 2)
      else Some a
  end.

(** Leaves are pairs of weight and index; each pass doubles the width. *)
Definition bpmnode_sort (leaves : list (Z * Z)) : option (list (Z * Z)) :=
  merge_passes (S (length leaves)) leaves (length leaves) 1.

Definition set_chain0 (l : BPMLists) (c : nat) (p : option nat) : option BPMLists :=
  cs ← store_at (chains0 l) c p; Some (mkLists (memory l) (freelist l) cs (chains1 l)).
Definition set_chain1 (l : BPMLists) (c : nat) (p : option nat) : option BPMLists :=
  cs ← store_at (chains1 l) c p; Some (mkLists (memory l) (freelist l) (chains0 l) cs).

Definition chain_node (l : BPMLists) (cs : list (option nat)) (c : nat) : option BPMNode :=
  p ← cs !! c; node_at (memory l) p.

Fixpoint boundaryPM (c : nat) (l : BPMLists) (leaves : list (Z * Z)) (num : Z) : option BPMLists :=
  let numpresent := Z.of_nat (length leaves) in
  n ← chain_node l (chains1 l) c;
  let lastindex := n_index n in
  match c with
  | O =>
      if numpresent <=? lastindex then Some l
      else
        p ← chains1 l !! c;
        l ← set_chain0 l c p;
        leaf ← at_ leaves lastindex;
        '(q, l) ← bpmnode_create l (fst leaf) (lastindex + 1) None;
        set_chain1 l c (Some q)
  | S c' =>
      n0 ← chain_node l (chains0 l) c';
      n1 ← chain_node l (chains1 l) c';
      let sum := n_weight n0 + n_weight n1 in
      guard (sum < 2 ^ 31);;
      p ← chains1 l !! c;
      l ← set_chain0 l c p;
      take_leaf ← (if lastindex <? numpresent then leaf ← at_ leaves lastindex; Some (fst leaf <? sum) else Some false);
      if (take_leaf : bool) then
        leaf ← at_ leaves lastindex;
        '(q, l) ← bpmnode_create l (fst leaf) (lastindex + 1) (n_tail n);
        set_chain1 l c (Some q)
      else
        p' ← chains1 l !! c';
        '(q, l) ← bpmnode_create l sum lastindex p';
        l ← set_chain1 l c (Some q);
        if num + 1 <? 2 * numpresent - 2 then
          l ← boundaryPM c' l leaves num;
          boundaryPM c' l leaves num
        else Some l
  end.

(** The calls for [i = 2, ..., 2 * numpresent - 3] *)
Fixpoint package_loop (n : nat) (i : Z) (c : nat) (l : BPMLists) (leaves : list (Z * Z)) : option BPMLists :=
  match n with
  | O => Some l
  | S n => l ← boundaryPM c l leaves i; package_loop n (i + 1) c l leaves
  end.

(** [++lengths[leaves[i].index]] for the first [n] leaves *)
Fixpoint count_leaves (n : nat) (leaves : list (Z * Z)) (lengths : list Z) : option (list Z) :=
  match n with
  | O => Some lengths
  | S n =>
      match leaves with
      | [] => None
      | (_, s) :: leaves => x ← at_ lengths s; lengths ← put_at lengths s (x + 1); count_leaves n leaves lengths
      end
  end.

Fixpoint count_chain (fuel : nat) (m : list (option BPMNode)) (p : option nat) (leaves : list (Z * Z)) (lengths : list Z) : option (list Z) :=
  match p with
  | None => Some lengths
  | Some _ =>
      match fuel with
      | O => None
      | S fuel =>
          n ← node_at m p;
          lengths ← count_leaves (Z.to_nat (n_index n)) leaves lengths;
          count_chain fuel m (n_tail n) leaves lengths
      end
  end.

(** The symbols with a frequency above zero, in order, with their frequencies *)
Fixpoint present (i : Z) (frequencies : list Z) : list (Z * Z) :=
  match frequencies with
  | [] => []
  | f :: fs => if 0 <? f then (f, i) :: present (i + 1) fs else present (i + 1) fs
  end.

Definition package_lengths (leaves : list (Z * Z)) (maxbitlen : nat) (lengths : list Z) : option (list Z) :=
  leaves ← bpmnode_sort leaves;
  l0 ← leaves !! 0%nat; l1 ← leaves !! 1%nat;
  let memsize := (2 * maxbitlen * (maxbitlen + 1))%nat in
  let l := mkLists (replicate memsize None) (seq 0 memsize) [] [] in
  '(_, l) ← bpmnode_create l (fst l0) 1 None;
  '(_, l) ← bpmnode_create l (fst l1) 2 None;
  let l := mkLists (memory l) (freelist l) (replicate maxbitlen (Some 0%nat)) (replicate maxbitlen (Some 1%nat)) in
  l ← package_loop (2 * length leaves - 4) 2 (maxbitlen - 1) l leaves;
  p ← chains1 l !! (maxbitlen - 1)%nat;
  count_chain (length (memory l)) (memory l) p leaves lengths.

(** An error code or the lengths; [frequencies] has [numcodes] entries *)
Definition lodepng_huffman_code_lengths (frequencies : list Z) (maxbitlen : nat) : option (Z + list Z) :=
  let numcodes := Z.of_nat (length frequencies) in
  if numcodes =? 0 then Some (inl 80)
  else if 2 ^ Z.of_nat maxbitlen <? numcodes then Some (inl 80)
  else
    let leaves := present 0 frequencies in
    let lengths := replicate (length frequencies) 0 in
    match leaves with
    | [] => lengths ← put_at lengths 1 1; lengths ← put_at lengths 0 1; Some (inr lengths)
    | [(_, s)] => lengths ← put_at lengths s 1; lengths ← put_at lengths (if s =? 0 then 1 else 0) 1; Some (inr lengths)
    | _ => inr <$> package_lengths leaves maxbitlen lengths
    end.
