(* ===== verification/LodeTree.v ===== *)
(** deps/lodepng/lodepng.c, the codes of the PNG encoder: codes from lengths
    ([HuffmanTree_makeFromLengths2]), the decoding table, which the encoder builds too
    and whose construction checks the code ([HuffmanTree_makeTable]), trees from
    frequencies and the two fixed trees.

    Memory from malloc is [None] until it is written: the codes of the symbols without a
    code word are never written, and the table values only as the table is filled.  [None]
    as a result is an access outside an object or a use of memory never written; [inl] is
    an error code. *)
From S2P Require Import Prelude Checksum BitReader Huffman Canonical Deflate LodeLz77 LodeHuff.

Record HuffmanTree := mkTree {
  t_codes : list (option Z);
  t_lengths : list Z;
  t_table_len : list Z;
  t_table_value : list (option Z)
}.

Definition FIRSTBITS : Z := 9.
Definition INVALIDSYMBOL : Z := 65535.
Definition NUM_DEFLATE_CODE_SYMBOLS : nat := 288.
Definition NUM_DISTANCE_SYMBOLS : nat := 32.
Definition NUM_CODE_LENGTH_CODES : nat := 19.

Fixpoint reverse_loop (n : nat) (i bits num result : Z) : Z :=
  match n with
  | O => result
  | S n => reverse_loop n (i + 1) bits num (result .| (((bits >> (num - i - 1)) .& 1) << i))
  end.
Definition reverseBits (bits num : Z) : Z := reverse_loop (Z.to_nat num) 0 bits num 0.

(** ** The decoding table *)

Definition headsize : Z := 1 << FIRSTBITS.

(** The longest code behind each entry of the first table *)
Fixpoint maxlens_loop (codes : list (option Z)) (lengths : list Z) (maxlens : list Z) : option (list Z) :=
  match codes, lengths with
  | c :: codes, l :: lengths =>
      if l <=? FIRSTBITS then maxlens_loop codes lengths maxlens
      else
        symbol ← c;
        let index := reverseBits (symbol >> (l - FIRSTBITS)) FIRSTBITS in
        m ← at_ maxlens index;
        maxlens ← put_at maxlens index (Z.max m l);
        maxlens_loop codes lengths maxlens
  | _, _ => Some maxlens
  end.

Definition secondary (l : Z) : Z := if FIRSTBITS <? l then 1 << (l - FIRSTBITS) else 0.
Definition table_size (maxlens : list Z) : Z := foldl (fun size l => size + secondary l) headsize maxlens.

Fixpoint heads_loop (i : Z) (maxlens : list Z) (pointer : Z) (tl : list Z) (tv : list (option Z)) : option (list Z * list (option Z)) :=
  match maxlens with
  | [] => Some (tl, tv)
  | l :: maxlens =>
      if l <=? FIRSTBITS then heads_loop (i + 1) maxlens pointer tl tv
      else
        tl ← put_at tl i l;
        tv ← put_at tv i (Some (u16 pointer));
        heads_loop (i + 1) maxlens (pointer + (1 << (l - FIRSTBITS))) tl tv
  end.

(** The entries of a short symbol; [inl] when one of them is taken *)
Fixpoint fill_short (n : nat) (j reverse l i : Z) (tl : list Z) (tv : list (option Z)) : option (Z + list Z * list (option Z)) :=
  match n with
  | O => Some (inr (tl, tv))
  | S n =>
      let index := reverse .| (j << l) in
      x ← at_ tl index;
      if negb (x =? 16) then Some (inl 55)
      else
        tl ← put_at tl index l;
        tv ← put_at tv index (Some (u16 i));
        fill_short n (j + 1) reverse l i tl tv
  end.

(** The entries of a long symbol, in the secondary table at [start] *)
Fixpoint fill_long (n : nat) (j start reverse l i : Z) (tl : list Z) (tv : list (option Z)) : option (list Z * list (option Z)) :=
  match n with
  | O => Some (tl, tv)
  | S n =>
      let index2 := start + ((reverse >> FIRSTBITS) .| (j << (l - FIRSTBITS))) in
      tl ← put_at tl index2 l;
      tv ← put_at tv index2 (Some (u16 i));
      fill_long n (j + 1) start reverse l i tl tv
  end.

Definition fill_symbol (i l symbol : Z) (tl : list Z) (tv : list (option Z)) : option (Z + list Z * list (option Z)) :=
  let reverse := reverseBits symbol l in
  if l <=? FIRSTBITS then fill_short (Z.to_nat (1 << (FIRSTBITS - l))) 0 reverse l i tl tv
  else
    let index := reverse .& (headsize - 1) in
    maxlen ← at_ tl index;
    start ← mjoin (at_ tv index);
    let num := 1 << (maxlen - FIRSTBITS - (l - FIRSTBITS)) in
    if maxlen <? l then Some (inl 55)
    else inr <$> fill_long (Z.to_nat num) 0 start reverse l i tl tv.

Fixpoint fill_loop (i : Z) (codes : list (option Z)) (lengths : list Z) (numpresent : Z) (tl : list Z) (tv : list (option Z))
    : option (Z + Z * list Z * list (option Z)) :=
  match codes, lengths with
  | c :: codes, l :: lengths =>
      if l =? 0 then fill_loop (i + 1) codes lengths numpresent tl tv
      else
        symbol ← c;
        r ← fill_symbol i l symbol tl tv;
        match r with
        | inl e => Some (inl e)
        | inr (tl, tv) => fill_loop (i + 1) codes lengths (numpresent + 1) tl tv
        end
  | _, _ => Some (inr (numpresent, tl, tv))
  end.

(** The entries no symbol has, when there are fewer than two symbols *)
Definition invalid_entry (i : nat) (x : Z) (v : option Z) : Z * option Z :=
  if x =? 16 then (if Z.of_nat i <? headsize then 1 else FIRSTBITS + 1, Some INVALIDSYMBOL) else (x, v).

Definition HuffmanTree_makeTable (codes : list (option Z)) (lengths : list Z) : option (Z + list Z * list (option Z)) :=
  maxlens ← maxlens_loop codes lengths (replicate (Z.to_nat headsize) 0);
  let size := Z.to_nat (table_size maxlens) in
  '(tl, tv) ← heads_loop 0 maxlens headsize (replicate size 16) (replicate size None);
  r ← fill_loop 0 codes lengths 0 tl tv;
  match r with
  | inl e => Some (inl e)
  | inr (numpresent, tl, tv) =>
      if numpresent <? 2 then Some (inr (split (imap (fun i '(x, v) => invalid_entry i x v) (zip tl tv))))
      else if existsb (fun x => x =? 16) tl then Some (inl 55)
      else Some (inr (tl, tv))
  end.

(** ** Codes *)

Fixpoint count_codes (lengths : list Z) (blcount : list Z) : option (list Z) :=
  match lengths with
  | [] => Some blcount
  | l :: lengths => x ← at_ blcount l; blcount ← put_at blcount l (x + 1); count_codes lengths blcount
  end.

Fixpoint next_codes (n : nat) (bits : Z) (blcount nextcode : list Z) : option (list Z) :=
  match n with
  | O => Some nextcode
  | S n =>
      x ← at_ nextcode (bits - 1);
      b ← at_ blcount (bits - 1);
      nextcode ← put_at nextcode bits (u32 ((x + b) << 1));
      next_codes n (bits + 1) blcount nextcode
  end.

Fixpoint assign (lengths : list Z) (nextcode : list Z) : option (list (option Z)) :=
  match lengths with
  | [] => Some []
  | l :: lengths =>
      if l =? 0 then rest ← assign lengths nextcode; Some (None :: rest)
      else
        x ← at_ nextcode l;
        nextcode ← put_at nextcode l (u32 (x + 1));
        rest ← assign lengths nextcode;
        Some (Some (x .& ((1 << l) - 1)) :: rest)
  end.

Definition HuffmanTree_makeFromLengths2 (lengths : list Z) (maxbitlen : nat) : option (Z + HuffmanTree) :=
  blcount ← count_codes lengths (replicate (S maxbitlen) 0);
  nextcode ← next_codes maxbitlen 1 blcount (replicate (S maxbitlen) 0);
  codes ← assign lengths nextcode;
  r ← HuffmanTree_makeTable codes lengths;
  match r with
  | inl e => Some (inl e)
  | inr (tl, tv) => Some (inr (mkTree codes lengths tl tv))
  end.

Definition HuffmanTree_makeFromLengths (bitlen : list Z) (maxbitlen : nat) : option (Z + HuffmanTree) :=
  HuffmanTree_makeFromLengths2 bitlen maxbitlen.

(** [numcodes] without the symbols at the end that do not occur *)
Fixpoint trim_codes (numcodes : nat) (frequencies : list Z) (mincodes : nat) : option nat :=
  match numcodes with
  | O => None
  | S n =>
      f ← frequencies !! n;
      if (f =? 0) && (mincodes <? numcodes)%nat then trim_codes n frequencies mincodes else Some numcodes
  end.

Definition HuffmanTree_makeFromFrequencies (frequencies : list Z) (mincodes numcodes maxbitlen : nat) : option (Z + HuffmanTree) :=
  numcodes ← trim_codes numcodes frequencies mincodes;
  r ← lodepng_huffman_code_lengths (take numcodes frequencies) maxbitlen;
  match r with
  | inl e => Some (inl e)
  | inr lengths => HuffmanTree_makeFromLengths2 lengths maxbitlen
  end.

Definition generateFixedLitLenTree : option (Z + HuffmanTree) :=
  HuffmanTree_makeFromLengths (replicate 144 8 ++ replicate 112 9 ++ replicate 24 7 ++ replicate 8 8) 15.

Definition generateFixedDistanceTree : option (Z + HuffmanTree) :=
  HuffmanTree_makeFromLengths (replicate NUM_DISTANCE_SYMBOLS 5) 15.
