(* ===== verification/LodeDeflate.v ===== *)
(** deps/lodepng/lodepng.c, the deflate compressor of the PNG encoder: the bit writer, the
    three kinds of blocks, [lodepng_deflatev], Adler-32 and [lodepng_zlib_compress].

    A growing vector is the list of its elements.  [None] is an access outside an object,
    a use of memory never written or a division by zero; [inl] is an error code.  Errors
    leave no output: what was appended before one is not modelled. *)
From S2P Require Import Prelude Checksum BitReader Huffman Canonical Deflate LodeLz77 LodeHuff LodeTree.

(** ** The bit writer *)

Record LodePNGBitWriter := mkWriter { w_data : bytes; w_bp : Z }.

Definition WRITEBIT (w : LodePNGBitWriter) (bit : Z) : option LodePNGBitWriter :=
  let data := if (w_bp w .& 7) =? 0 then w_data w ++ [0] else w_data w in
  let last := Z.of_nat (length data) - 1 in
  x ← at_ data last;
  data ← put_at data last (u8 (x .| (bit << (w_bp w .& 7))));
  Some (mkWriter data (u8 (w_bp w + 1))).

Fixpoint write_loop (n : nat) (i : Z) (w : LodePNGBitWriter) (value : Z) : option LodePNGBitWriter :=
  match n with
  | O => Some w
  | S n => w ← WRITEBIT w ((value >> i) .& 1); write_loop n (i + 1) w value
  end.

Definition writeBits (w : LodePNGBitWriter) (value nbits : Z) : option LodePNGBitWriter :=
  if nbits =? 1 then WRITEBIT w value else write_loop (Z.to_nat nbits) 0 w value.

Fixpoint reversed_loop (n : nat) (w : LodePNGBitWriter) (value : Z) : option LodePNGBitWriter :=
  match n with
  | O => Some w
  | S n => w ← WRITEBIT w ((value >> Z.of_nat n) .& 1); reversed_loop n w value
  end.

(** The bits from [nbits - 1] down to 0 *)
Definition writeBitsReversed (w : LodePNGBitWriter) (value nbits : Z) : option LodePNGBitWriter :=
  reversed_loop (Z.to_nat nbits) w value.

(** [writeBitsReversed(writer, tree->codes[val], tree->lengths[val])] *)
Definition write_symbol (w : LodePNGBitWriter) (t : HuffmanTree) (val : Z) : option LodePNGBitWriter :=
  c ← mjoin (at_ (t_codes t) val);
  l ← at_ (t_lengths t) val;
  writeBitsReversed w c l.

(** ** Blocks *)

Record LodePNGCompressSettings := mkSettings {
  btype : Z;
  use_lz77 : bool;
  lz77 : lz_settings;
  custom_zlib : option (bytes -> Z + bytes);
  custom_deflate : option (bytes -> Z + bytes)
}.

Definition DEFAULT_WINDOWSIZE : Z := 2048.
Definition lodepng_default_compress_settings : LodePNGCompressSettings :=
  mkSettings 2 true (LzSettings DEFAULT_WINDOWSIZE 3 128 true) None None.
Definition lodepng_compress_settings_init : LodePNGCompressSettings := lodepng_default_compress_settings.

(** [datapos] is an unsigned int *)
Fixpoint stored_loop (n : nat) (out data : bytes) (datapos : Z) : bytes :=
  match n with
  | O => out
  | S n =>
      let datasize := Z.of_nat (length data) in
      let BFINAL := b2z (n =? 0)%nat in
      let LEN := if datasize - datapos <? 65535 then u32 (datasize - datapos) else 65535 in
      let NLEN := 65535 - LEN in
      stored_loop n (out ++ [BFINAL; LEN .& 255; LEN >> 8; NLEN .& 255; NLEN >> 8] ++ sub data (Z.to_nat datapos) (Z.to_nat LEN))
        data (u32 (datapos + LEN))
  end.

Definition deflateNoCompression (out data : bytes) : bytes :=
  stored_loop (Z.to_nat (u32 (Z.of_nat (length data) + 65534) / 65535)) out data 0.

Fixpoint writeLZ77data (w : LodePNGBitWriter) (syms : list Z) (tree_ll tree_d : HuffmanTree) : option LodePNGBitWriter :=
  match syms with
  | [] => Some w
  | val :: syms =>
      w ← write_symbol w tree_ll val;
      if 256 <? val then
        n_length ← at_ LENGTHEXTRA (val - FIRST_LENGTH_CODE_INDEX);
        match syms with
        | length_extra :: distance_code :: distance_extra :: syms =>
            n_distance ← at_ DISTANCEEXTRA distance_code;
            w ← writeBits w length_extra n_length;
            w ← write_symbol w tree_d distance_code;
            w ← writeBits w distance_extra n_distance;
            writeLZ77data w syms tree_ll tree_d
        | _ => None
        end
      else writeLZ77data w syms tree_ll tree_d
  end.

(** The symbols of a block: LZ77, or the bytes as they are *)
Definition block_symbols (s : LodePNGCompressSettings) (h : Hash) (data : bytes) (datapos dataend : Z) : option (Z + list Z * Hash) :=
  if use_lz77 s then encodeLZ77 [] h data datapos dataend (lz77 s)
  else Some (inr (sub data (Z.to_nat datapos) (Z.to_nat (dataend - datapos)), h)).

(** A block has at most 2^18 symbols, so the counters do not wrap around. *)
Definition bump (freqs : list Z) (i : Z) : option (list Z) := x ← at_ freqs i; put_at freqs i (x + 1).

Fixpoint count_symbols (syms : list Z) (ll d : list Z) : option (list Z * list Z) :=
  match syms with
  | [] => Some (ll, d)
  | symbol :: syms =>
      ll ← bump ll symbol;
      if 256 <? symbol then
        match syms with
        | _ :: dist :: _ :: syms => d ← bump d dist; count_symbols syms ll d
        | _ => None
        end
      else count_symbols syms ll d
  end.

(** How many of the next lengths equal [x] *)
Fixpoint repeats (x : Z) (ls : list Z) : nat :=
  match ls with
  | y :: ls => if y =? x then S (repeats x ls) else 0
  | [] => 0
  end.

(** [bitlen_lld_e[numcodes_lld_e++] = v]; the array has [cap] entries. *)
Definition push (cap : nat) (e : list Z) (v : Z) : option (list Z) := guard (length e < cap)%nat;; Some (e ++ [v]).

Fixpoint push_repeats (num cap : nat) (e : list Z) : option (list Z) :=
  match num with
  | O => Some e
  | S num => e ← push cap e 16; e ← push cap e (6 - 3); push_repeats num cap e
  end.

(** Run-length coding of the lengths [ls] that are left *)
Fixpoint rle_loop (fuel cap : nat) (ls : list Z) (e : list Z) : option (list Z) :=
  match fuel with
  | O => None
  | S fuel =>
      match ls with
      | [] => Some e
      | x :: rest =>
          let j := repeats x rest in
          if (x =? 0) && (2 <=? j)%nat then
            let j := S j in
            if (j <=? 10)%nat then
              e ← push cap e 17; e ← push cap e (Z.of_nat j - 3); rle_loop fuel cap (drop j ls) e
            else
              let j := if (138 <? j)%nat then 138%nat else j in
              e ← push cap e 18; e ← push cap e (Z.of_nat j - 11); rle_loop fuel cap (drop j ls) e
          else if (3 <=? j)%nat then
            let num := (j / 6)%nat in
            let more := (j mod 6)%nat in
            e ← push cap e x;
            e ← push_repeats num cap e;
            if (3 <=? more)%nat then
              e ← push cap e 16; e ← push cap e (Z.of_nat more - 3); rle_loop fuel cap (drop (S j) ls) e
            else rle_loop fuel cap (drop (S (j - more)) ls) e
          else e ← push cap e x; rle_loop fuel cap rest e
      end
  end.

Fixpoint count_coded (e : list Z) (freqs : list Z) : option (list Z) :=
  match e with
  | [] => Some freqs
  | v :: e =>
      freqs ← bump freqs v;
      if 16 <=? v then match e with _ :: e => count_coded e freqs | [] => Some freqs end
      else count_coded e freqs
  end.

Definition CLCL_ORDER : list Z := [16; 17; 18; 0; 8; 7; 9; 6; 10; 5; 11; 4; 12; 3; 13; 2; 14; 1; 15].

Definition clcl_length (t : HuffmanTree) (i : nat) : option Z := o ← CLCL_ORDER !! i; at_ (t_lengths t) o.

(** [numcodes_cl] without zeros at the end *)
Fixpoint trim_cl (numcodes_cl : nat) (t : HuffmanTree) : option nat :=
  match numcodes_cl with
  | O => Some 0%nat
  | S n =>
      if (4 <? numcodes_cl)%nat then
        l ← clcl_length t n;
        if l =? 0 then trim_cl n t else Some numcodes_cl
      else Some numcodes_cl
  end.

Fixpoint write_cl (n i : nat) (w : LodePNGBitWriter) (t : HuffmanTree) : option LodePNGBitWriter :=
  match n with
  | O => Some w
  | S n => l ← clcl_length t i; w ← writeBits w l 3; write_cl n (S i) w t
  end.

Fixpoint write_coded (w : LodePNGBitWriter) (e : list Z) (t : HuffmanTree) : option LodePNGBitWriter :=
  match e with
  | [] => Some w
  | v :: e =>
      w ← write_symbol w t v;
      match (if v =? 16 then Some 2 else if v =? 17 then Some 3 else if v =? 18 then Some 7 else None), e with
      | Some nbits, x :: e => w ← writeBits w x nbits; write_coded w e t
      | Some _, [] => None
      | None, e => write_coded w e t
      end
  end.

(** What follows the choice of the trees *)
Definition write_dynamic (w : LodePNGBitWriter) (BFINAL : Z) (syms : list Z) (tree_ll tree_d tree_cl : HuffmanTree)
    (bitlen_lld_e : list Z) : option (Z + LodePNGBitWriter) :=
  let numcodes_ll := Nat.min (length (t_lengths tree_ll)) 286 in
  let numcodes_d := Nat.min (length (t_lengths tree_d)) 30 in
  numcodes_cl ← trim_cl NUM_CODE_LENGTH_CODES tree_cl;
  w ← writeBits w BFINAL 1;
  w ← writeBits w 0 1;
  w ← writeBits w 1 1;
  w ← writeBits w (Z.of_nat numcodes_ll - 257) 5;
  w ← writeBits w (Z.of_nat numcodes_d - 1) 5;
  w ← writeBits w (Z.of_nat numcodes_cl - 4) 4;
  w ← write_cl numcodes_cl 0 w tree_cl;
  w ← write_coded w bitlen_lld_e tree_cl;
  w ← writeLZ77data w syms tree_ll tree_d;
  l256 ← at_ (t_lengths tree_ll) 256;
  if l256 =? 0 then Some (inl 64)
  else inr <$> write_symbol w tree_ll 256.

(** The writer, the chains, or an error *)
Definition block_result : Type := Z + LodePNGBitWriter * Hash.

Definition with_hash (h : Hash) (r : option (Z + LodePNGBitWriter)) : option block_result :=
  r ← r; Some (match r with inl e => inl e | inr w => inr (w, h) end).

(** Continue unless there was an error. *)
Definition unless_error {A B} (r : option (Z + A)) (k : A -> option (Z + B)) : option (Z + B) :=
  r ← r; match r with inl e => Some (inl e) | inr a => k a end.

Definition deflateDynamic (w : LodePNGBitWriter) (h : Hash) (data : bytes) (datapos dataend : Z)
    (s : LodePNGCompressSettings) (final : Z) : option block_result :=
  unless_error (block_symbols s h data datapos dataend) (fun '(syms, h) =>
  '(frequencies_ll, frequencies_d) ← count_symbols syms (replicate 286 0) (replicate 30 0);
  frequencies_ll ← put_at frequencies_ll 256 1;
  unless_error (HuffmanTree_makeFromFrequencies frequencies_ll 257 286 15) (fun tree_ll =>
  unless_error (HuffmanTree_makeFromFrequencies frequencies_d 2 30 15) (fun tree_d =>
  let bitlen_lld := take 286 (t_lengths tree_ll) ++ take 30 (t_lengths tree_d) in
  bitlen_lld_e ← rle_loop (S (length bitlen_lld)) (length bitlen_lld) bitlen_lld [];
  frequencies_cl ← count_coded bitlen_lld_e (replicate NUM_CODE_LENGTH_CODES 0);
  unless_error (HuffmanTree_makeFromFrequencies frequencies_cl NUM_CODE_LENGTH_CODES NUM_CODE_LENGTH_CODES 7) (fun tree_cl =>
  with_hash h (write_dynamic w final syms tree_ll tree_d tree_cl bitlen_lld_e))))).

Fixpoint write_literals (w : LodePNGBitWriter) (data : bytes) (t : HuffmanTree) : option LodePNGBitWriter :=
  match data with
  | [] => Some w
  | x :: data => w ← write_symbol w t x; write_literals w data t
  end.

Definition deflateFixed (w : LodePNGBitWriter) (h : Hash) (data : bytes) (datapos dataend : Z)
    (s : LodePNGCompressSettings) (final : Z) : option block_result :=
  unless_error generateFixedLitLenTree (fun tree_ll =>
  unless_error generateFixedDistanceTree (fun tree_d =>
  w ← writeBits w final 1;
  w ← writeBits w 1 1;
  w ← writeBits w 0 1;
  if use_lz77 s then
    unless_error (encodeLZ77 [] h data datapos dataend (lz77 s)) (fun '(syms, h) =>
    w ← writeLZ77data w syms tree_ll tree_d;
    with_hash h (inr <$> write_symbol w tree_ll 256))
  else
    w ← write_literals w (sub data (Z.to_nat datapos) (Z.to_nat (dataend - datapos))) tree_ll;
    with_hash h (inr <$> write_symbol w tree_ll 256))).

(** Blocks from [i] on *)
Fixpoint blocks_loop (n : nat) (i blocksize : Z) (w : LodePNGBitWriter) (h : Hash) (data : bytes) (s : LodePNGCompressSettings)
    : option (Z + LodePNGBitWriter) :=
  match n with
  | O => Some (inr w)
  | S n =>
      let insize := Z.of_nat (length data) in
      let final := b2z (n =? 0)%nat in
      let start := u32 (i * blocksize) in
      let end_ := u32 (start + blocksize) in
      let end_ := if insize <? end_ then insize else end_ in
      unless_error (if btype s =? 1 then deflateFixed w h data start end_ s final
                    else deflateDynamic w h data start end_ s final)
        (fun '(w, h) => blocks_loop n (i + 1) blocksize w h data s)
  end.

Definition lodepng_deflatev (out data : bytes) (s : LodePNGCompressSettings) : option (Z + bytes) :=
  let insize := Z.of_nat (length data) in
  if 2 <? btype s then Some (inl 61)
  else if btype s =? 0 then Some (inr (deflateNoCompression out data))
  else
    let blocksize :=
      if btype s =? 1 then insize
      else
        let blocksize := insize / 8 + 8 in
        let blocksize := if blocksize <? 65536 then 65536 else blocksize in
        if 262144 <? blocksize then 262144 else blocksize in
    guard (blocksize <> 0);;
    let numdeflateblocks := u32 (insize + blocksize - 1) / blocksize in
    let numdeflateblocks := if numdeflateblocks =? 0 then 1 else numdeflateblocks in
    unless_error (blocks_loop (Z.to_nat numdeflateblocks) 0 blocksize (mkWriter out 0) (hash_init (windowsize (lz77 s))) data s)
      (fun w => Some (inr (w_data w))).

Definition lodepng_deflate (out data : bytes) (s : LodePNGCompressSettings) : option (Z + bytes) := lodepng_deflatev out data s.

Definition deflate (out data : bytes) (s : LodePNGCompressSettings) : option (Z + bytes) :=
  match custom_deflate s with
  | Some f => Some (match f data with inl _ => inl 111 | inr r => inr r end)
  | None => lodepng_deflate out data s
  end.

(** ** Zlib *)

Fixpoint adler_sums (s : Z * Z) (data : bytes) : Z * Z :=
  match data with
  | [] => s
  | x :: data => let s1 := u32 (fst s + x) in adler_sums (s1, u32 (snd s + s1)) data
  end.

Fixpoint adler_loop (fuel : nat) (s : Z * Z) (data : bytes) : option (Z * Z) :=
  match data with
  | [] => Some s
  | _ =>
      match fuel with
      | O => None
      | S fuel =>
          let amount := Nat.min (length data) (Z.to_nat 5552) in
          let '(s1, s2) := adler_sums s (take amount data) in
          adler_loop fuel (s1 mod 65521, s2 mod 65521) (drop amount data)
      end
  end.

Definition update_adler32 (adler : Z) (data : bytes) : option Z :=
  '(s1, s2) ← adler_loop (length data) (adler .& 0xffff, (adler >> 16) .& 0xffff) data;
  Some (u32 (s2 << 16) .| s1).

Definition adler32 (data : bytes) : option Z := update_adler32 1 data.

Definition lodepng_set32bitInt (value : Z) : bytes :=
  [(value >> 24) .& 0xff; (value >> 16) .& 0xff; (value >> 8) .& 0xff; value .& 0xff].

(** The checksum is given the size as an unsigned int. *)
Definition lodepng_zlib_compress (data : bytes) (s : LodePNGCompressSettings) : option (Z + bytes) :=
  unless_error (deflate [] data s) (fun deflatedata =>
  ADLER32 ← adler32 (take (Z.to_nat (u32 (Z.of_nat (length data)))) data);
  let CMF := 120 in
  let CMFFLG := 256 * CMF + 0 * 32 + 0 * 64 in
  let FCHECK := 31 - CMFFLG mod 31 in
  let CMFFLG := CMFFLG + FCHECK in
  Some (inr ([u8 (CMFFLG >> 8); u8 (CMFFLG .& 255)] ++ deflatedata ++ lodepng_set32bitInt ADLER32))).

Definition zlib_compress (data : bytes) (s : LodePNGCompressSettings) : option (Z + bytes) :=
  match custom_zlib s with
  | Some f => Some (match f data with inl _ => inl 111 | inr r => inr r end)
  | None => lodepng_zlib_compress data s
  end.
