(* ===== verification/LodeColor.v ===== *)
(** deps/lodepng/lodepng.c, the colours of the PNG encoder: colour modes, reading and
    writing pixels, the tree of colours, the statistics of an image
    ([lodepng_compute_color_stats]), the choice of a colour mode ([auto_choose_color]) and
    the conversion ([lodepng_convert]).

    [None] is an access outside an object or through NULL; [inl] is an error code.  Memory
    whose contents the program has not set yet holds what [fresh] says.  Allocations
    succeed. *)
From S2P Require Import Prelude Checksum BitReader Huffman Canonical Deflate LodeLz77 LodeHuff LodeTree LodeDeflate.

(** ** Memory *)

(** The places where the encoder gets memory it has not written *)
Inductive site := StatsPalette | ModePalette | Converted | Scanlines | Padded | Attempt.

(** What [n] bytes of memory hold before they are written *)
Class Memory := fresh : site -> nat -> bytes.
Class MemoryOk (M : Memory) : Prop := {
  fresh_length s n : length (fresh s n) = n;
  fresh_bytes s n : bytes_ok (fresh s n)
}.

(** Assignments to consecutive elements *)
Fixpoint put_list (out : bytes) (i : Z) (vs : bytes) : option bytes :=
  match vs with
  | [] => Some out
  | v :: vs => out ← put_at out i v; put_list out (i + 1) vs
  end.

(** ** Colour modes *)

Inductive LodePNGColorType := LCT_GREY | LCT_RGB | LCT_PALETTE | LCT_GREY_ALPHA | LCT_RGBA | LCT_MAX_OCTET_VALUE.

#[export] Instance color_type_eq_dec : EqDecision LodePNGColorType.
Proof. solve_decision. Defined.

Definition lct_value (c : LodePNGColorType) : Z :=
  match c with LCT_GREY => 0 | LCT_RGB => 2 | LCT_PALETTE => 3 | LCT_GREY_ALPHA => 4 | LCT_RGBA => 6 | LCT_MAX_OCTET_VALUE => 255 end.

(** [m_palette]: [None] for NULL, otherwise 1024 bytes *)
Record LodePNGColorMode := mkMode {
  m_colortype : LodePNGColorType;
  m_bitdepth : Z;
  m_palette : option bytes;
  m_palettesize : Z;
  m_key_defined : bool;
  m_key_r : Z;
  m_key_g : Z;
  m_key_b : Z
}.

Definition checkColorValidity (colortype : LodePNGColorType) (bd : Z) : Z :=
  let one_of (l : list Z) := if existsb (Z.eqb bd) l then 0 else 37 in
  match colortype with
  | LCT_GREY => one_of [1; 2; 4; 8; 16]
  | LCT_RGB => one_of [8; 16]
  | LCT_PALETTE => one_of [1; 2; 4; 8]
  | LCT_GREY_ALPHA => one_of [8; 16]
  | LCT_RGBA => one_of [8; 16]
  | LCT_MAX_OCTET_VALUE => 31
  end.

Definition getNumColorChannels (colortype : LodePNGColorType) : Z :=
  match colortype with LCT_GREY => 1 | LCT_RGB => 3 | LCT_PALETTE => 1 | LCT_GREY_ALPHA => 2 | LCT_RGBA => 4 | LCT_MAX_OCTET_VALUE => 0 end.

Definition lodepng_get_bpp_lct (colortype : LodePNGColorType) (bitdepth : Z) : Z := u32 (getNumColorChannels colortype * bitdepth).
Definition lodepng_get_bpp (info : LodePNGColorMode) : Z := lodepng_get_bpp_lct (m_colortype info) (m_bitdepth info).
Definition lodepng_color_mode_init : LodePNGColorMode := mkMode LCT_RGBA 8 None 0 false 0 0 0.
Definition lodepng_color_mode_make (colortype : LodePNGColorType) (bitdepth : Z) : LodePNGColorMode := mkMode colortype bitdepth None 0 false 0 0 0.

Definition set_palette (info : LodePNGColorMode) (p : option bytes) (n : Z) : LodePNGColorMode :=
  mkMode (m_colortype info) (m_bitdepth info) p n (m_key_defined info) (m_key_r info) (m_key_g info) (m_key_b info).

Definition lodepng_palette_clear (info : LodePNGColorMode) : LodePNGColorMode := set_palette info None 0.

(** 256 times opaque black *)
Definition lodepng_color_mode_alloc_palette : bytes := mjoin (replicate 256 [0; 0; 0; 255]).

Definition lodepng_palette_add (info : LodePNGColorMode) (c : bytes) : option (Z + LodePNGColorMode) :=
  let palette := default lodepng_color_mode_alloc_palette (m_palette info) in
  if 256 <=? m_palettesize info then Some (inl 108)
  else palette ← put_list palette (4 * m_palettesize info) c; Some (inr (set_palette info (Some palette) (m_palettesize info + 1))).

(** The copy of a palette is 1024 bytes of which only the used ones are written. *)
Definition lodepng_color_mode_copy {M : Memory} (source : LodePNGColorMode) : option LodePNGColorMode :=
  match m_palette source with
  | None => Some source
  | Some p =>
      let n := Z.to_nat (4 * m_palettesize source) in
      guard (n <= length p)%nat;;
      q ← put_list (fresh ModePalette 1024) 0 (take n p);
      Some (set_palette source (Some q) (m_palettesize source))
  end.

Definition lodepng_color_mode_equal (a b : LodePNGColorMode) : option bool :=
  if negb (bool_decide (m_colortype a = m_colortype b)) then Some false
  else if negb (m_bitdepth a =? m_bitdepth b) then Some false
  else if negb (eqb (m_key_defined a) (m_key_defined b)) then Some false
  else if m_key_defined a && negb ((m_key_r a =? m_key_r b) && (m_key_g a =? m_key_g b) && (m_key_b a =? m_key_b b)) then Some false
  else if negb (m_palettesize a =? m_palettesize b) then Some false
  else if m_palettesize a =? 0 then Some true
  else
    let n := Z.to_nat (4 * m_palettesize a) in
    p ← m_palette a; q ← m_palette b;
    guard (n <= length p /\ n <= length q)%nat;;
    Some (bool_decide (take n p = take n q)).

Definition lodepng_is_greyscale_type (info : LodePNGColorMode) : bool :=
  bool_decide (m_colortype info = LCT_GREY) || bool_decide (m_colortype info = LCT_GREY_ALPHA).
Definition lodepng_is_alpha_type (info : LodePNGColorMode) : bool := negb ((lct_value (m_colortype info) .& 4) =? 0).

Fixpoint palette_alpha (n : nat) (i : Z) (p : bytes) : option bool :=
  match n with
  | O => Some false
  | S n => a ← at_ p (i * 4 + 3); if a <? 255 then Some true else palette_alpha n (i + 1) p
  end.
Definition lodepng_has_palette_alpha (info : LodePNGColorMode) : option bool :=
  if m_palettesize info =? 0 then Some false else p ← m_palette info; palette_alpha (Z.to_nat (m_palettesize info)) 0 p.
Definition lodepng_can_have_alpha (info : LodePNGColorMode) : option bool :=
  if m_key_defined info || lodepng_is_alpha_type info then Some true else lodepng_has_palette_alpha info.

Definition lodepng_get_raw_size_lct (w h : Z) (colortype : LodePNGColorType) (bitdepth : Z) : Z :=
  let bpp := lodepng_get_bpp_lct colortype bitdepth in
  let n := u32 (w * h) in
  u32 ((n / 8) * bpp + ((n .& 7) * bpp + 7) / 8).
Definition lodepng_get_raw_size (w h : Z) (color : LodePNGColorMode) : Z := lodepng_get_raw_size_lct w h (m_colortype color) (m_bitdepth color).

Definition lodepng_get_raw_size_idat (w h bpp : Z) : Z := u32 (h * ((w / 8) * bpp + 1 + ((w .& 7) * bpp + 7) / 8)).

(** ** Bits, most significant first *)

Definition readBitFromReversedStream (bp : Z) (s : bytes) : option Z := x ← at_ s (bp >> 3); Some ((x >> (7 - (bp .& 7))) .& 1).

Fixpoint bits_from (n : nat) (bp : Z) (s : bytes) (result : Z) : option Z :=
  match n with
  | O => Some result
  | S n => b ← readBitFromReversedStream bp s; bits_from n (bp + 1) s (u32 (result << 1) .| b)
  end.
Definition readBitsFromReversedStream (bp : Z) (s : bytes) (nbits : Z) : option Z := bits_from (Z.to_nat nbits) bp s 0.

Definition setBitOfReversedStream (bp : Z) (s : bytes) (bit : Z) : option bytes :=
  x ← at_ s (bp >> 3);
  put_at s (bp >> 3) (if bit =? 0 then x .& u8 (Z.lnot (1 << (7 - (bp .& 7)))) else x .| (1 << (7 - (bp .& 7)))).

Definition addColorBits (out : bytes) (index bits in_ : Z) : option bytes :=
  let m := if bits =? 1 then 7 else if bits =? 2 then 3 else 1 in
  let p := index .& m in
  let in_ := (in_ .& ((1 << bits) - 1)) << (bits * (m - p)) in
  if p =? 0 then put_at out (index * bits / 8) (u8 in_)
  else x ← at_ out (index * bits / 8); put_at out (index * bits / 8) (u8 (x .| in_)).

(** ** The tree of colours *)

(** A pointer to a node, NULL included *)
#[warnings="-register-all"] Inductive ColorTree := Null | Node (children : list ColorTree) (index : Z).
Definition color_tree_init : ColorTree := Node (replicate 16 Null) (-1).

Definition child_index (bit r g b a : Z) : nat :=
  Z.to_nat (8 * ((r >> bit) .& 1) + 4 * ((g >> bit) .& 1) + 2 * ((b >> bit) .& 1) + 1 * ((a >> bit) .& 1)).

Fixpoint tree_get (n : nat) (bit : Z) (t : ColorTree) (r g b a : Z) : Z :=
  match t with
  | Null => -1
  | Node children index =>
      match n with
      | O => index
      | S n => tree_get n (bit + 1) (default Null (children !! child_index bit r g b a)) r g b a
      end
  end.
Definition color_tree_get (t : ColorTree) (r g b a : Z) : Z := tree_get 8 0 t r g b a.
Definition color_tree_has (t : ColorTree) (r g b a : Z) : bool := 0 <=? color_tree_get t r g b a.

(** A missing node is made on the way. *)
Fixpoint tree_add (n : nat) (bit : Z) (t : ColorTree) (r g b a index : Z) : ColorTree :=
  match (match t with Null => color_tree_init | Node _ _ => t end) with
  | Null => Null
  | Node children i =>
      match n with
      | O => Node children index
      | S n =>
          let k := child_index bit r g b a in
          Node (<[k := tree_add n (bit + 1) (default Null (children !! k)) r g b a index]> children) i
      end
  end.
Definition color_tree_add (t : ColorTree) (r g b a index : Z) : ColorTree := tree_add 8 0 t r g b a index.

(** ** Pixels *)

Definition rgba8ToPixel (out : bytes) (i : Z) (mode : LodePNGColorMode) (tree : ColorTree) (r g b a : Z) : option (Z + bytes) :=
  let d := m_bitdepth mode in
  match m_colortype mode with
  | LCT_GREY =>
      inr <$> (if d =? 8 then put_at out i r
               else if d =? 16 then put_list out (i * 2) [r; r]
               else addColorBits out i d ((r >> (8 - d)) .& ((1 << d) - 1)))
  | LCT_RGB => inr <$> (if d =? 8 then put_list out (i * 3) [r; g; b] else put_list out (i * 6) [r; r; g; g; b; b])
  | LCT_PALETTE =>
      let index := color_tree_get tree r g b a in
      if index <? 0 then Some (inl 82)
      else inr <$> (if d =? 8 then put_at out i (u8 index) else addColorBits out i d index)
  | LCT_GREY_ALPHA =>
      inr <$> (if d =? 8 then put_list out (i * 2) [r; a]
               else if d =? 16 then put_list out (i * 4) [r; r; a; a]
               else Some out)
  | LCT_RGBA => inr <$> (if d =? 8 then put_list out (i * 4) [r; g; b; a] else put_list out (i * 8) [r; r; g; g; b; b; a; a])
  | LCT_MAX_OCTET_VALUE => Some (inr out)
  end.

Definition two_bytes_of (v : Z) : bytes := [(v >> 8) .& 255; v .& 255].

Definition rgba16ToPixel (out : bytes) (i : Z) (mode : LodePNGColorMode) (r g b a : Z) : option bytes :=
  match m_colortype mode with
  | LCT_GREY => put_list out (i * 2) (two_bytes_of r)
  | LCT_RGB => put_list out (i * 6) (two_bytes_of r ++ two_bytes_of g ++ two_bytes_of b)
  | LCT_GREY_ALPHA => put_list out (i * 4) (two_bytes_of r ++ two_bytes_of a)
  | LCT_RGBA => put_list out (i * 8) (two_bytes_of r ++ two_bytes_of g ++ two_bytes_of b ++ two_bytes_of a)
  | LCT_PALETTE | LCT_MAX_OCTET_VALUE => Some out
  end.

Definition rgba : Type := (Z * Z * Z * Z)%type.

Definition word_at (in_ : bytes) (i : Z) : option Z := x ← at_ in_ i; y ← at_ in_ (i + 1); Some (256 * x + y).

Definition palette_color (mode : LodePNGColorMode) (index : Z) : option rgba :=
  p ← m_palette mode;
  r ← at_ p (index * 4 + 0); g ← at_ p (index * 4 + 1); b ← at_ p (index * 4 + 2); a ← at_ p (index * 4 + 3);
  Some (r, g, b, a).

Definition getPixelColorRGBA8 (in_ : bytes) (i : Z) (mode : LodePNGColorMode) : option rgba :=
  let d := m_bitdepth mode in
  let key (c : bool) := if m_key_defined mode && c then 0 else 255 in
  match m_colortype mode with
  | LCT_GREY =>
      if d =? 8 then x ← at_ in_ i; Some (x, x, x, key (x =? m_key_r mode))
      else if d =? 16 then x ← at_ in_ (i * 2 + 0); v ← word_at in_ (i * 2 + 0); Some (x, x, x, key (v =? m_key_r mode))
      else
        let highest := (1 << d) - 1 in
        value ← readBitsFromReversedStream (i * d) in_ d;
        guard (highest <> 0);;
        let x := u8 (u32 (value * 255) / highest) in
        Some (x, x, x, key (value =? m_key_r mode))
  | LCT_RGB =>
      if d =? 8 then
        r ← at_ in_ (i * 3 + 0); g ← at_ in_ (i * 3 + 1); b ← at_ in_ (i * 3 + 2);
        Some (r, g, b, key ((r =? m_key_r mode) && (g =? m_key_g mode) && (b =? m_key_b mode)))
      else
        r ← at_ in_ (i * 6 + 0); g ← at_ in_ (i * 6 + 2); b ← at_ in_ (i * 6 + 4);
        x ← word_at in_ (i * 6 + 0); y ← word_at in_ (i * 6 + 2); z ← word_at in_ (i * 6 + 4);
        Some (r, g, b, key ((x =? m_key_r mode) && (y =? m_key_g mode) && (z =? m_key_b mode)))
  | LCT_PALETTE =>
      index ← (if d =? 8 then at_ in_ i else readBitsFromReversedStream (i * d) in_ d);
      palette_color mode index
  | LCT_GREY_ALPHA =>
      if d =? 8 then x ← at_ in_ (i * 2 + 0); a ← at_ in_ (i * 2 + 1); Some (x, x, x, a)
      else x ← at_ in_ (i * 4 + 0); a ← at_ in_ (i * 4 + 2); Some (x, x, x, a)
  | LCT_RGBA =>
      if d =? 8 then
        r ← at_ in_ (i * 4 + 0); g ← at_ in_ (i * 4 + 1); b ← at_ in_ (i * 4 + 2); a ← at_ in_ (i * 4 + 3); Some (r, g, b, a)
      else r ← at_ in_ (i * 8 + 0); g ← at_ in_ (i * 8 + 2); b ← at_ in_ (i * 8 + 4); a ← at_ in_ (i * 8 + 6); Some (r, g, b, a)
  | LCT_MAX_OCTET_VALUE => Some (0, 0, 0, 0)
  end.

Definition getPixelColorRGBA16 (in_ : bytes) (i : Z) (mode : LodePNGColorMode) : option rgba :=
  let key (c : bool) := if m_key_defined mode && c then 0 else 65535 in
  match m_colortype mode with
  | LCT_GREY => x ← word_at in_ (i * 2 + 0); Some (x, x, x, key (x =? m_key_r mode))
  | LCT_RGB =>
      r ← word_at in_ (i * 6 + 0); g ← word_at in_ (i * 6 + 2); b ← word_at in_ (i * 6 + 4);
      Some (r, g, b, key ((r =? m_key_r mode) && (g =? m_key_g mode) && (b =? m_key_b mode)))
  | LCT_GREY_ALPHA => x ← word_at in_ (i * 4 + 0); a ← word_at in_ (i * 4 + 2); Some (x, x, x, a)
  | LCT_RGBA =>
      r ← word_at in_ (i * 8 + 0); g ← word_at in_ (i * 8 + 2); b ← word_at in_ (i * 8 + 4); a ← word_at in_ (i * 8 + 6); Some (r, g, b, a)
  | LCT_PALETTE | LCT_MAX_OCTET_VALUE => Some (0, 0, 0, 0)
  end.

(** The loops over all pixels of [getPixelColorsRGBA8] and [getPixelColorsRGB8]: [f] gives
    the [ch] bytes of a pixel. *)
Fixpoint pixels_loop (n : nat) (i ch : Z) (f : Z -> option bytes) (buffer : bytes) : option bytes :=
  match n with
  | O => Some buffer
  | S n => v ← f i; buffer ← put_list buffer (i * ch) v; pixels_loop n (i + 1) ch f buffer
  end.

Definition copy_bytes_in (buffer in_ : bytes) (n : nat) : option bytes := guard (n <= length in_)%nat;; put_list buffer 0 (take n in_).

Definition getPixelColorsRGBA8 (buffer : bytes) (numpixels : Z) (in_ : bytes) (mode : LodePNGColorMode) : option bytes :=
  let d := m_bitdepth mode in
  let n := Z.to_nat numpixels in
  let key (c : bool) := if m_key_defined mode && c then 0 else 255 in
  match m_colortype mode with
  | LCT_GREY =>
      if d =? 8 then pixels_loop n 0 4 (fun i => x ← at_ in_ i; Some [x; x; x; key (x =? m_key_r mode)]) buffer
      else if d =? 16 then
        pixels_loop n 0 4 (fun i => x ← at_ in_ (i * 2); v ← word_at in_ (i * 2 + 0); Some [x; x; x; key (v =? m_key_r mode)]) buffer
      else
        pixels_loop n 0 4 (fun i =>
          let highest := (1 << d) - 1 in
          value ← readBitsFromReversedStream (i * d) in_ d;
          guard (highest <> 0);;
          let x := u8 (u32 (value * 255) / highest) in Some [x; x; x; key (value =? m_key_r mode)]) buffer
  | LCT_RGB =>
      if d =? 8 then
        pixels_loop n 0 4 (fun i =>
          r ← at_ in_ (i * 3 + 0); g ← at_ in_ (i * 3 + 1); b ← at_ in_ (i * 3 + 2);
          Some [r; g; b; key ((r =? m_key_r mode) && (g =? m_key_g mode) && (b =? m_key_b mode))]) buffer
      else
        pixels_loop n 0 4 (fun i =>
          r ← at_ in_ (i * 6 + 0); g ← at_ in_ (i * 6 + 2); b ← at_ in_ (i * 6 + 4);
          x ← word_at in_ (i * 6 + 0); y ← word_at in_ (i * 6 + 2); z ← word_at in_ (i * 6 + 4);
          Some [r; g; b; key ((x =? m_key_r mode) && (y =? m_key_g mode) && (z =? m_key_b mode))]) buffer
  | LCT_PALETTE =>
      pixels_loop n 0 4 (fun i =>
        index ← (if d =? 8 then at_ in_ i else readBitsFromReversedStream (i * d) in_ d);
        '(r, g, b, a) ← palette_color mode index; Some [r; g; b; a]) buffer
  | LCT_GREY_ALPHA =>
      if d =? 8 then pixels_loop n 0 4 (fun i => x ← at_ in_ (i * 2 + 0); a ← at_ in_ (i * 2 + 1); Some [x; x; x; a]) buffer
      else pixels_loop n 0 4 (fun i => x ← at_ in_ (i * 4 + 0); a ← at_ in_ (i * 4 + 2); Some [x; x; x; a]) buffer
  | LCT_RGBA =>
      if d =? 8 then copy_bytes_in buffer in_ (4 * n)
      else
        pixels_loop n 0 4 (fun i =>
          r ← at_ in_ (i * 8 + 0); g ← at_ in_ (i * 8 + 2); b ← at_ in_ (i * 8 + 4); a ← at_ in_ (i * 8 + 6); Some [r; g; b; a]) buffer
  | LCT_MAX_OCTET_VALUE => Some buffer
  end.

Definition getPixelColorsRGB8 (buffer : bytes) (numpixels : Z) (in_ : bytes) (mode : LodePNGColorMode) : option bytes :=
  let d := m_bitdepth mode in
  let n := Z.to_nat numpixels in
  match m_colortype mode with
  | LCT_GREY =>
      if d =? 8 then pixels_loop n 0 3 (fun i => x ← at_ in_ i; Some [x; x; x]) buffer
      else if d =? 16 then pixels_loop n 0 3 (fun i => x ← at_ in_ (i * 2); Some [x; x; x]) buffer
      else
        pixels_loop n 0 3 (fun i =>
          let highest := (1 << d) - 1 in
          value ← readBitsFromReversedStream (i * d) in_ d;
          guard (highest <> 0);;
          let x := u8 (u32 (value * 255) / highest) in Some [x; x; x]) buffer
  | LCT_RGB =>
      if d =? 8 then copy_bytes_in buffer in_ (3 * n)
      else pixels_loop n 0 3 (fun i => r ← at_ in_ (i * 6 + 0); g ← at_ in_ (i * 6 + 2); b ← at_ in_ (i * 6 + 4); Some [r; g; b]) buffer
  | LCT_PALETTE =>
      pixels_loop n 0 3 (fun i =>
        index ← (if d =? 8 then at_ in_ i else readBitsFromReversedStream (i * d) in_ d);
        '(r, g, b, _) ← palette_color mode index; Some [r; g; b]) buffer
  | LCT_GREY_ALPHA =>
      if d =? 8 then pixels_loop n 0 3 (fun i => x ← at_ in_ (i * 2 + 0); Some [x; x; x]) buffer
      else pixels_loop n 0 3 (fun i => x ← at_ in_ (i * 4 + 0); Some [x; x; x]) buffer
  | LCT_RGBA =>
      if d =? 8 then
        pixels_loop n 0 3 (fun i => r ← at_ in_ (i * 4 + 0); g ← at_ in_ (i * 4 + 1); b ← at_ in_ (i * 4 + 2); Some [r; g; b]) buffer
      else pixels_loop n 0 3 (fun i => r ← at_ in_ (i * 8 + 0); g ← at_ in_ (i * 8 + 2); b ← at_ in_ (i * 8 + 4); Some [r; g; b]) buffer
  | LCT_MAX_OCTET_VALUE => Some buffer
  end.

(** ** Conversion *)

(** The first [n] colours of a palette, from [i] on *)
Fixpoint palette_tree (n : nat) (i : Z) (p : bytes) (t : ColorTree) : option ColorTree :=
  match n with
  | O => Some t
  | S n =>
      r ← at_ p (i * 4 + 0); g ← at_ p (i * 4 + 1); b ← at_ p (i * 4 + 2); a ← at_ p (i * 4 + 3);
      palette_tree n (i + 1) p (color_tree_add t r g b a i)
  end.

Fixpoint convert16_loop (n : nat) (i : Z) (out in_ : bytes) (mode_out mode_in : LodePNGColorMode) : option bytes :=
  match n with
  | O => Some out
  | S n => '(r, g, b, a) ← getPixelColorRGBA16 in_ i mode_in; out ← rgba16ToPixel out i mode_out r g b a; convert16_loop n (i + 1) out in_ mode_out mode_in
  end.

Fixpoint convert8_loop (n : nat) (i : Z) (out in_ : bytes) (mode_out mode_in : LodePNGColorMode) (tree : ColorTree) : option (Z + bytes) :=
  match n with
  | O => Some (inr out)
  | S n =>
      '(r, g, b, a) ← getPixelColorRGBA8 in_ i mode_in;
      unless_error (rgba8ToPixel out i mode_out tree r g b a) (fun out => convert8_loop n (i + 1) out in_ mode_out mode_in tree)
  end.

(** The part behind the palette *)
Definition convert_pixels (out in_ : bytes) (mode_out mode_in : LodePNGColorMode) (numpixels : Z) (tree : ColorTree) : option (Z + bytes) :=
  let n := Z.to_nat numpixels in
  if (m_bitdepth mode_in =? 16) && (m_bitdepth mode_out =? 16) then inr <$> convert16_loop n 0 out in_ mode_out mode_in
  else if (m_bitdepth mode_out =? 8) && bool_decide (m_colortype mode_out = LCT_RGBA) then inr <$> getPixelColorsRGBA8 out numpixels in_ mode_in
  else if (m_bitdepth mode_out =? 8) && bool_decide (m_colortype mode_out = LCT_RGB) then inr <$> getPixelColorsRGB8 out numpixels in_ mode_in
  else convert8_loop n 0 out in_ mode_out mode_in tree.

Definition lodepng_convert (out in_ : bytes) (mode_out mode_in : LodePNGColorMode) (w h : Z) : option (Z + bytes) :=
  let numpixels := u32 (w * h) in
  if bool_decide (m_colortype mode_in = LCT_PALETTE) && bool_decide (m_palette mode_in = None) then Some (inl 107)
  else
    equal ← lodepng_color_mode_equal mode_out mode_in;
    let copy : option (Z + bytes) := inr <$> copy_bytes_in out in_ (Z.to_nat (lodepng_get_raw_size w h mode_in)) in
    if (equal : bool) then copy
    else if bool_decide (m_colortype mode_out = LCT_PALETTE) then
      let empty : bool := m_palettesize mode_out =? 0 in
      if empty && bool_decide (m_colortype mode_in = LCT_PALETTE) && (m_bitdepth mode_in =? m_bitdepth mode_out) then copy
      else
        let palettesize := if empty then m_palettesize mode_in else m_palettesize mode_out in
        let palette := if empty then m_palette mode_in else m_palette mode_out in
        let palsize := 1 << m_bitdepth mode_out in
        let palsize := if palettesize <? palsize then palettesize else palsize in
        tree ← (if palsize =? 0 then Some color_tree_init else p ← palette; palette_tree (Z.to_nat palsize) 0 p color_tree_init);
        convert_pixels out in_ mode_out mode_in numpixels tree
    else convert_pixels out in_ mode_out mode_in numpixels color_tree_init.

(** ** Statistics of an image *)

Record LodePNGColorStats := mkStats {
  s_colored : bool;
  s_key : bool;
  s_key_r : Z;
  s_key_g : Z;
  s_key_b : Z;
  s_alpha : bool;
  s_numcolors : Z;
  s_palette : bytes;
  s_bits : Z;
  s_numpixels : Z;
  s_allow_palette : bool;
  s_allow_greyscale : bool
}.

Definition lodepng_color_stats_init {M : Memory} : LodePNGColorStats :=
  mkStats false false 0 0 0 false 0 (fresh StatsPalette 1024) 1 0 true true.

Definition set_bits (b : Z) (s : LodePNGColorStats) : LodePNGColorStats :=
  mkStats (s_colored s) (s_key s) (s_key_r s) (s_key_g s) (s_key_b s) (s_alpha s) (s_numcolors s) (s_palette s) b (s_numpixels s)
    (s_allow_palette s) (s_allow_greyscale s).
Definition set_colored (s : LodePNGColorStats) : LodePNGColorStats :=
  mkStats true (s_key s) (s_key_r s) (s_key_g s) (s_key_b s) (s_alpha s) (s_numcolors s) (s_palette s) (s_bits s) (s_numpixels s)
    (s_allow_palette s) (s_allow_greyscale s).
Definition set_alpha (s : LodePNGColorStats) : LodePNGColorStats :=
  mkStats (s_colored s) false (s_key_r s) (s_key_g s) (s_key_b s) true (s_numcolors s) (s_palette s) (s_bits s) (s_numpixels s)
    (s_allow_palette s) (s_allow_greyscale s).
Definition set_key (key : bool) (r g b : Z) (s : LodePNGColorStats) : LodePNGColorStats :=
  mkStats (s_colored s) key r g b (s_alpha s) (s_numcolors s) (s_palette s) (s_bits s) (s_numpixels s) (s_allow_palette s) (s_allow_greyscale s).
Definition set_colors (n : Z) (p : bytes) (s : LodePNGColorStats) : LodePNGColorStats :=
  mkStats (s_colored s) (s_key s) (s_key_r s) (s_key_g s) (s_key_b s) (s_alpha s) n p (s_bits s) (s_numpixels s) (s_allow_palette s) (s_allow_greyscale s).
Definition add_pixels (n : Z) (s : LodePNGColorStats) : LodePNGColorStats :=
  mkStats (s_colored s) (s_key s) (s_key_r s) (s_key_g s) (s_key_b s) (s_alpha s) (s_numcolors s) (s_palette s) (s_bits s) (u32 (s_numpixels s + n))
    (s_allow_palette s) (s_allow_greyscale s).

Definition getValueRequiredBits (value : Z) : Z :=
  if (value =? 0) || (value =? 255) then 1
  else if value mod 17 =? 0 then (if value mod 85 =? 0 then 2 else 4)
  else 8.

(** The statistics so far, the tree and what needs no more work *)
Record scan := mkScan {
  sc_stats : LodePNGColorStats;
  sc_tree : ColorTree;
  sc_colored_done : bool;
  sc_alpha_done : bool;
  sc_numcolors_done : bool;
  sc_bits_done : bool
}.

(** [if(stats->bits < 8) stats->bits = 8] *)
Definition at_least_8 (s : LodePNGColorStats) : LodePNGColorStats := if s_bits s <? 8 then set_bits 8 s else s.

Definition bits_step (bpp r : Z) (c : scan) : scan :=
  let s := sc_stats c in
  let s := if negb (sc_bits_done c) && (s_bits s <? 8) then
             (if s_bits s <? getValueRequiredBits r then set_bits (getValueRequiredBits r) s else s) else s in
  mkScan s (sc_tree c) (sc_colored_done c) (sc_alpha_done c) (sc_numcolors_done c) (bpp <=? s_bits s).

(** [raise]: the colours have fewer than 16 bits, so the depth may grow. *)
Definition colored_step (raise : LodePNGColorStats -> LodePNGColorStats) (r g b : Z) (c : scan) : scan :=
  if negb (sc_colored_done c) && (negb (r =? g) || negb (r =? b)) then
    mkScan (raise (set_colored (sc_stats c))) (sc_tree c) true (sc_alpha_done c) (sc_numcolors_done c) (sc_bits_done c)
  else c.

Definition matches_key (s : LodePNGColorStats) (r g b : Z) : bool := (r =? s_key_r s) && (g =? s_key_g s) && (b =? s_key_b s).

(** [opaque]: the alpha of an opaque pixel *)
Definition alpha_step (raise : LodePNGColorStats -> LodePNGColorStats) (opaque r g b a : Z) (c : scan) : scan :=
  if sc_alpha_done c then c
  else
    let s := sc_stats c in
    let matchkey := matches_key s r g b in
    let to_alpha := mkScan (raise (set_alpha s)) (sc_tree c) (sc_colored_done c) true (sc_numcolors_done c) (sc_bits_done c) in
    if negb (a =? opaque) && (negb (a =? 0) || (s_key s && negb matchkey)) then to_alpha
    else if (a =? 0) && negb (s_alpha s) && negb (s_key s) then
      mkScan (set_key true r g b s) (sc_tree c) (sc_colored_done c) (sc_alpha_done c) (sc_numcolors_done c) (sc_bits_done c)
    else if (a =? opaque) && s_key s && matchkey then to_alpha
    else c.

Definition colors_step (maxnumcolors r g b a : Z) (c : scan) : option scan :=
  if sc_numcolors_done c then Some c
  else if color_tree_has (sc_tree c) r g b a then Some c
  else
    let s := sc_stats c in
    let n := s_numcolors s in
    p ← (if n <? 256 then put_list (s_palette s) (n * 4) [r; g; b; a] else Some (s_palette s));
    Some (mkScan (set_colors (n + 1) p s) (color_tree_add (sc_tree c) r g b a n) (sc_colored_done c) (sc_alpha_done c)
            (maxnumcolors <=? n + 1) (sc_bits_done c)).

Definition all_done (c : scan) : bool := sc_alpha_done c && sc_numcolors_done c && sc_colored_done c && sc_bits_done c.

Fixpoint scan8_loop (n : nat) (i : Z) (in_ : bytes) (mode : LodePNGColorMode) (bpp maxnumcolors : Z) (c : scan) : option scan :=
  match n with
  | O => Some c
  | S n =>
      '(r, g, b, a) ← getPixelColorRGBA8 in_ i mode;
      c ← colors_step maxnumcolors r g b a (alpha_step at_least_8 255 r g b a (colored_step at_least_8 r g b (bits_step bpp r c)));
      if all_done c then Some c else scan8_loop n (i + 1) in_ mode bpp maxnumcolors c
  end.

Fixpoint scan16_loop (n : nat) (i : Z) (in_ : bytes) (mode : LodePNGColorMode) (c : scan) : option scan :=
  match n with
  | O => Some c
  | S n =>
      '(r, g, b, a) ← getPixelColorRGBA16 in_ i mode;
      let c := alpha_step id 65535 r g b a (colored_step id r g b c) in
      if all_done c then Some c else scan16_loop n (i + 1) in_ mode c
  end.

(** A colour key is not possible when an opaque pixel has its colour. *)
Fixpoint key_loop (n : nat) (i : Z) (get : Z -> option rgba) (raise : LodePNGColorStats -> LodePNGColorStats) (s : LodePNGColorStats)
    : option LodePNGColorStats :=
  match n with
  | O => Some s
  | S n =>
      '(r, g, b, a) ← get i;
      key_loop n (i + 1) get raise (if negb (a =? 0) && matches_key s r g b then raise (set_alpha s) else s)
  end.

(** Whether a 16-bit image needs 16 bits *)
Fixpoint sixteen_loop (n : nat) (i : Z) (in_ : bytes) (mode : LodePNGColorMode) : option bool :=
  match n with
  | O => Some false
  | S n =>
      '(r, g, b, a) ← getPixelColorRGBA16 in_ i mode;
      let differs v := negb ((v .& 255) =? ((v >> 8) .& 255)) in
      if differs r || differs g || differs b || differs a then Some true else sixteen_loop n (i + 1) in_ mode
  end.

Definition double_key (s : LodePNGColorStats) : LodePNGColorStats :=
  set_key (s_key s) (u16 (s_key_r s + (s_key_r s << 8))) (u16 (s_key_g s + (s_key_g s << 8))) (u16 (s_key_b s + (s_key_b s << 8))) s.

Definition lodepng_compute_color_stats (stats : LodePNGColorStats) (in_ : bytes) (w h : Z) (mode_in : LodePNGColorMode) : option LodePNGColorStats :=
  let numpixels := u32 (w * h) in
  let n := Z.to_nat numpixels in
  can_alpha ← lodepng_can_have_alpha mode_in;
  let bpp := lodepng_get_bpp mode_in in
  let maxnumcolors := if bpp <=? 8 then Z.min 257 (s_numcolors stats + (1 << bpp)) else 257 in
  let stats := add_pixels numpixels stats in
  let colored_done := lodepng_is_greyscale_type mode_in || s_colored stats in
  let alpha_done := negb can_alpha || s_alpha stats in
  let numcolors_done := negb (s_allow_palette stats) || (s_bits stats =? 16) || (maxnumcolors <=? s_numcolors stats) in
  let bits_done := bpp <=? s_bits stats in
  tree ← (if numcolors_done then Some color_tree_init else palette_tree (Z.to_nat (s_numcolors stats)) 0 (s_palette stats) color_tree_init);
  sixteen ← (if m_bitdepth mode_in =? 16 then sixteen_loop n 0 in_ mode_in else Some false);
  if sixteen : bool then
    c ← scan16_loop n 0 in_ mode_in (mkScan (set_bits 16 stats) tree colored_done alpha_done true true);
    let s := sc_stats c in
    if s_key s && negb (s_alpha s) then key_loop n 0 (fun i => getPixelColorRGBA16 in_ i mode_in) id s else Some s
  else
    c ← scan8_loop n 0 in_ mode_in bpp maxnumcolors (mkScan stats tree colored_done alpha_done numcolors_done bits_done);
    let s := sc_stats c in
    s ← (if s_key s && negb (s_alpha s) then key_loop n 0 (fun i => getPixelColorRGBA8 in_ i mode_in) at_least_8 s else Some s);
    Some (double_key s).

(** ** The choice of a colour mode *)

(** [lodepng_palette_add] for the colours of the statistics *)
Fixpoint add_colors (n : nat) (i : Z) (p : bytes) (mode : LodePNGColorMode) : option (Z + LodePNGColorMode) :=
  match n with
  | O => Some (inr mode)
  | S n =>
      r ← at_ p (i * 4 + 0); g ← at_ p (i * 4 + 1); b ← at_ p (i * 4 + 2); a ← at_ p (i * 4 + 3);
      unless_error (lodepng_palette_add mode [r; g; b; a]) (add_colors n (i + 1) p)
  end.

Definition auto_choose_color {M : Memory} (mode_out mode_in : LodePNGColorMode) (stats : LodePNGColorStats) : option (Z + LodePNGColorMode) :=
  let numpixels := s_numpixels stats in
  let few := s_key stats && (numpixels <=? 16) in
  let alpha := s_alpha stats || few in
  let key := s_key stats && negb few in
  let bits := if few && (s_bits stats <? 8) then 8 else s_bits stats in
  let gray_ok := negb (s_colored stats) && s_allow_greyscale stats in
  let bits := if negb gray_ok && (bits <? 8) then 8 else bits in
  let n := s_numcolors stats in
  let palettebits := if n <=? 2 then 1 else if n <=? 4 then 2 else if n <=? 16 then 4 else 8 in
  let palette_ok := (n <=? 256) && (bits <=? 8) && negb (n =? 0) && negb (numpixels <? n * 2)
                    && negb (gray_ok && negb alpha && (bits <=? palettebits)) && s_allow_palette stats in
  if palette_ok then
    unless_error (add_colors (Z.to_nat n) 0 (s_palette stats) (lodepng_palette_clear mode_out)) (fun mode_out =>
    if bool_decide (m_colortype mode_in = LCT_PALETTE) && (m_palettesize mode_out <=? m_palettesize mode_in) && (m_bitdepth mode_in =? palettebits)
    then inr <$> lodepng_color_mode_copy mode_in
    else Some (inr (mkMode LCT_PALETTE palettebits (m_palette mode_out) (m_palettesize mode_out) false (m_key_r mode_out) (m_key_g mode_out) (m_key_b mode_out))))
  else
    let colortype := if alpha then (if gray_ok then LCT_GREY_ALPHA else LCT_RGBA) else (if gray_ok then LCT_GREY else LCT_RGB) in
    let mask := (1 << bits) - 1 in
    Some (inr (if key
               then mkMode colortype bits (m_palette mode_out) (m_palettesize mode_out) true (s_key_r stats .& mask) (s_key_g stats .& mask) (s_key_b stats .& mask)
               else mkMode colortype bits (m_palette mode_out) (m_palettesize mode_out) false (m_key_r mode_out) (m_key_g mode_out) (m_key_b mode_out))).
