(* ===== verification/LodeFilter.v ===== *)
(** deps/lodepng/lodepng.c, the scanlines of the PNG encoder: the five filters
    ([filterScanline]), the strategies that choose one for each line ([filter]), the bits
    that pad a line to bytes ([addPaddingBits]) and [preProcessScanlines] for images that
    are not interlaced. *)
From S2P Require Import Prelude Checksum BitReader Huffman Canonical Deflate LodeLz77 LodeHuff LodeTree LodeDeflate LodeColor.

Definition paethPredictor (a b c : Z) : Z :=
  let pa := s16 (Z.abs (b - c)) in
  let pb := s16 (Z.abs (a - c)) in
  let pc := s16 (Z.abs (a + b - c - c)) in
  let '(a, pa) := if pb <? pa then (b, pb) else (a, pa) in
  u8 (if pc <? pa then c else a).

(** ** One line *)

(** [out[i]] of a filtered line; [prevline] is [None] on the first line. *)
Definition filter_byte (scanline : bytes) (prevline : option bytes) (bytewidth : Z) (filterType : Z) (i : Z) : option Z :=
  x ← at_ scanline i;
  let left := at_ scanline (i - bytewidth) in
  match filterType with
  | 0 => Some x
  | 1 => if i <? bytewidth then Some x else l ← left; Some (u8 (x - l))
  | 2 => match prevline with Some p => u ← at_ p i; Some (u8 (x - u)) | None => Some x end
  | 3 =>
      match prevline with
      | Some p => u ← at_ p i; if i <? bytewidth then Some (u8 (x - (u >> 1))) else l ← left; Some (u8 (x - ((l + u) >> 1)))
      | None => if i <? bytewidth then Some x else l ← left; Some (u8 (x - (l >> 1)))
      end
  | _ =>
      match prevline with
      | Some p =>
          u ← at_ p i;
          if i <? bytewidth then Some (u8 (x - u))
          else l ← left; c ← at_ p (i - bytewidth); Some (u8 (x - paethPredictor l u c))
      | None => if i <? bytewidth then Some x else l ← left; Some (u8 (x - l))
      end
  end.

(** The filters that look to the left write [bytewidth] bytes first. *)
Definition filterScanline (out scanline : bytes) (prevline : option bytes) (length : nat) (bytewidth filterType : Z) : option bytes :=
  if (0 <=? filterType) && (filterType <=? 4) then
    guard ((filterType = 0 \/ filterType = 2) \/ bytewidth <= Z.of_nat length);;
    mapM (filter_byte scanline prevline bytewidth filterType) (seqZ 0 (Z.of_nat length))
  else Some out.

(** ** Strategies *)

Inductive LodePNGFilterStrategy := LFS_ZERO | LFS_ONE | LFS_TWO | LFS_THREE | LFS_FOUR | LFS_MINSUM | LFS_ENTROPY | LFS_BRUTE_FORCE | LFS_PREDEFINED.

Definition ilog2 (i : Z) : Z :=
  let '(result, i) := if 65536 <=? i then (16, i >> 16) else (0, i) in
  let '(result, i) := if 256 <=? i then (result + 8, i >> 8) else (result, i) in
  let '(result, i) := if 16 <=? i then (result + 4, i >> 4) else (result, i) in
  let '(result, i) := if 4 <=? i then (result + 2, i >> 2) else (result, i) in
  if 2 <=? i then result + 1 else result.

Definition ilog2i (i : Z) : Z :=
  if i =? 0 then 0 else let l := ilog2 i in u32 (i * l + ((i - (1 << l)) << 1)).

(** The sum LFS_MINSUM minimises *)
Definition abs_sum (type : Z) (attempt : bytes) : Z :=
  foldl (fun sum s => u32 (sum + (if type =? 0 then s else if s <? 128 then s else 255 - s))) 0 attempt.

(** The sum LFS_ENTROPY maximises *)
Fixpoint byte_counts (attempt : bytes) (count : list Z) : option (list Z) :=
  match attempt with
  | [] => Some count
  | x :: attempt => count ← bump count x; byte_counts attempt count
  end.
Definition entropy_sum (type : Z) (attempt : bytes) : option Z :=
  count ← byte_counts attempt (replicate 256 0);
  count ← bump count type; Some (foldl (fun sum c => u32 (sum + ilog2i c)) 0 count).

(** The size LFS_BRUTE_FORCE minimises; an error of the compressor leaves the size 0. *)
Definition deflated_size (s : LodePNGCompressSettings) (attempt : bytes) : option Z :=
  r ← zlib_compress attempt (mkSettings 1 (use_lz77 s) (lz77 s) None None);
  Some (match r with inl _ => 0 | inr out => Z.of_nat (length out) end).

(** The best of the five attempts so far, from [type] on: the type, its measure and the line *)
Fixpoint try_types (n : nat) (type : Z) (attempt : Z -> option bytes) (measure : Z -> bytes -> option Z) (better : Z -> Z -> bool)
    (best : option (Z * Z * bytes)) : option (option (Z * Z * bytes)) :=
  match n with
  | O => Some best
  | S n =>
      line ← attempt type;
      sum ← measure type line;
      let best := match best with
                  | None => Some (type, sum, line)
                  | Some (_, smallest, _) => if better sum smallest then Some (type, sum, line) else best
                  end in
      try_types n (type + 1) attempt measure better best
  end.

Section Filter.
Context {M : Memory}.

Record LodePNGEncoderSettings := mkEncoder {
  e_zlibsettings : LodePNGCompressSettings;
  e_auto_convert : bool;
  e_filter_palette_zero : bool;
  e_filter_strategy : LodePNGFilterStrategy;
  e_predefined_filters : option bytes;
  e_force_palette : bool
}.

Definition lodepng_encoder_settings_init : LodePNGEncoderSettings :=
  mkEncoder lodepng_compress_settings_init true true LFS_MINSUM None false.

(** The type and the filtered bytes of line [y] *)
Definition filtered_line (settings : LodePNGEncoderSettings) (strategy : LodePNGFilterStrategy) (y : nat) (out scanline : bytes) (prevline : option bytes)
    (bytewidth : Z) : option (Z * bytes) :=
  let n := length scanline in
  let fixed type := line ← filterScanline out scanline prevline n bytewidth type; Some (type, line) in
  let adaptive measure better :=
    best ← try_types 5 0 (filterScanline (fresh Attempt n) scanline prevline n bytewidth) measure better None;
    '(type, _, line) ← best; Some (type, line) in
  match strategy with
  | LFS_ZERO => fixed 0
  | LFS_ONE => fixed 1
  | LFS_TWO => fixed 2
  | LFS_THREE => fixed 3
  | LFS_FOUR => fixed 4
  | LFS_MINSUM => adaptive (fun type line => Some (abs_sum type line)) Z.ltb
  | LFS_ENTROPY => adaptive entropy_sum (fun sum best => best <? sum)
  | LFS_BRUTE_FORCE => adaptive (fun _ line => deflated_size (e_zlibsettings settings) line) Z.ltb
  | LFS_PREDEFINED => p ← e_predefined_filters settings; type ← p !! y; fixed type
  end.

(** The lines from [y] on *)
Fixpoint filter_loop (n y : nat) (settings : LodePNGEncoderSettings) (strategy : LodePNGFilterStrategy) (out in_ : bytes) (linebytes : nat)
    (bytewidth : Z) (prevline : option bytes) : option bytes :=
  match n with
  | O => Some out
  | S n =>
      guard ((y + 1) * linebytes <= length in_)%nat;;
      let scanline := sub in_ (y * linebytes) linebytes in
      let outindex := ((linebytes + 1) * y)%nat in
      '(type, line) ← filtered_line settings strategy y (sub out (outindex + 1) linebytes) scanline prevline bytewidth;
      out ← put_list out (Z.of_nat outindex) (type :: line);
      filter_loop n (S y) settings strategy out in_ linebytes bytewidth (Some scanline)
  end.

Definition filter (out in_ : bytes) (w h : Z) (color : LodePNGColorMode) (settings : LodePNGEncoderSettings) : option (Z + bytes) :=
  let bpp := lodepng_get_bpp color in
  let linebytes := Z.to_nat (lodepng_get_raw_size_idat w 1 bpp - 1) in
  let bytewidth := (bpp + 7) / 8 in
  let strategy := if e_filter_palette_zero settings && (bool_decide (m_colortype color = LCT_PALETTE) || (m_bitdepth color <? 8))
                  then LFS_ZERO else e_filter_strategy settings in
  if bpp =? 0 then Some (inl 31)
  else inr <$> filter_loop (Z.to_nat h) 0 settings strategy out in_ linebytes bytewidth None.

(** ** Padding *)

Fixpoint copy_bits (n : nat) (obp ibp : Z) (out in_ : bytes) : option bytes :=
  match n with
  | O => Some out
  | S n => bit ← readBitFromReversedStream ibp in_; out ← setBitOfReversedStream obp out bit; copy_bits n (obp + 1) (ibp + 1) out in_
  end.

Fixpoint zero_bits (n : nat) (obp : Z) (out : bytes) : option bytes :=
  match n with
  | O => Some out
  | S n => out ← setBitOfReversedStream obp out 0; zero_bits n (obp + 1) out
  end.

(** The lines from the bit pointers on *)
Fixpoint pad_loop (n : nat) (obp ibp : Z) (out in_ : bytes) (olinebits ilinebits : Z) : option bytes :=
  match n with
  | O => Some out
  | S n =>
      out ← copy_bits (Z.to_nat ilinebits) obp ibp out in_;
      out ← zero_bits (Z.to_nat (olinebits - ilinebits)) (obp + ilinebits) out;
      pad_loop n (obp + olinebits) (ibp + ilinebits) out in_ olinebits ilinebits
  end.
Definition addPaddingBits (out in_ : bytes) (olinebits ilinebits h : Z) : option bytes := pad_loop (Z.to_nat h) 0 0 out in_ olinebits ilinebits.

(** Images that are not interlaced *)
Definition preProcessScanlines (in_ : bytes) (w h : Z) (color : LodePNGColorMode) (settings : LodePNGEncoderSettings) : option (Z + bytes) :=
  let bpp := lodepng_get_bpp color in
  let line := u32 (u32 (w * bpp) + 7) / 8 in
  let outsize := u32 (h + u32 (h * line)) in
  let out := fresh Scanlines (Z.to_nat outsize) in
  if (bpp <? 8) && negb (u32 (w * bpp) =? u32 (line * 8)) then
    padded ← addPaddingBits (fresh Padded (Z.to_nat (u32 (h * line)))) in_ (u32 (line * 8)) (u32 (w * bpp)) h;
    filter out padded w h color settings
  else filter out in_ w h color settings.
End Filter.
