(* ===== verification/LodeEncode.v ===== *)
(** deps/lodepng/lodepng.c, the PNG file: CRC-32, chunks and [lodepng_encode] with the
    functions that call it, up to [lodepng_encode32_file], which takes the screenshots, and
    the texts of the errors.

    The state is what [lodepng_encode_memory] makes of it: no interlacing and no ancillary
    chunks (text, time, background, profiles, unknown chunks). *)
From S2P Require Import Prelude CLib Checksum BitReader Huffman Canonical Deflate LodeLz77 LodeHuff LodeTree LodeDeflate LodeColor LodeFilter.

(** ** CRC-32 *)

Definition lodepng_crc32_table : list Z :=
  [0; 1996959894; 3993919788; 2567524794; 124634137; 1886057615; 3915621685; 2657392035;
   249268274; 2044508324; 3772115230; 2547177864; 162941995; 2125561021; 3887607047; 2428444049;
   498536548; 1789927666; 4089016648; 2227061214; 450548861; 1843258603; 4107580753; 2211677639;
   325883990; 1684777152; 4251122042; 2321926636; 335633487; 1661365465; 4195302755; 2366115317;
   997073096; 1281953886; 3579855332; 2724688242; 1006888145; 1258607687; 3524101629; 2768942443;
   901097722; 1119000684; 3686517206; 2898065728; 853044451; 1172266101; 3705015759; 2882616665;
   651767980; 1373503546; 3369554304; 3218104598; 565507253; 1454621731; 3485111705; 3099436303;
   671266974; 1594198024; 3322730930; 2970347812; 795835527; 1483230225; 3244367275; 3060149565;
   1994146192; 31158534; 2563907772; 4023717930; 1907459465; 112637215; 2680153253; 3904427059;
   2013776290; 251722036; 2517215374; 3775830040; 2137656763; 141376813; 2439277719; 3865271297;
   1802195444; 476864866; 2238001368; 4066508878; 1812370925; 453092731; 2181625025; 4111451223;
   1706088902; 314042704; 2344532202; 4240017532; 1658658271; 366619977; 2362670323; 4224994405;
   1303535960; 984961486; 2747007092; 3569037538; 1256170817; 1037604311; 2765210733; 3554079995;
   1131014506; 879679996; 2909243462; 3663771856; 1141124467; 855842277; 2852801631; 3708648649;
   1342533948; 654459306; 3188396048; 3373015174; 1466479909; 544179635; 3110523913; 3462522015;
   1591671054; 702138776; 2966460450; 3352799412; 1504918807; 783551873; 3082640443; 3233442989;
   3988292384; 2596254646; 62317068; 1957810842; 3939845945; 2647816111; 81470997; 1943803523;
   3814918930; 2489596804; 225274430; 2053790376; 3826175755; 2466906013; 167816743; 2097651377;
   4027552580; 2265490386; 503444072; 1762050814; 4150417245; 2154129355; 426522225; 1852507879;
   4275313526; 2312317920; 282753626; 1742555852; 4189708143; 2394877945; 397917763; 1622183637;
   3604390888; 2714866558; 953729732; 1340076626; 3518719985; 2797360999; 1068828381; 1219638859;
   3624741850; 2936675148; 906185462; 1090812512; 3747672003; 2825379669; 829329135; 1181335161;
   3412177804; 3160834842; 628085408; 1382605366; 3423369109; 3138078467; 570562233; 1426400815;
   3317316542; 2998733608; 733239954; 1555261956; 3268935591; 3050360625; 752459403; 1541320221;
   2607071920; 3965973030; 1969922972; 40735498; 2617837225; 3943577151; 1913087877; 83908371;
   2512341634; 3803740692; 2075208622; 213261112; 2463272603; 3855990285; 2094854071; 198958881;
   2262029012; 4057260610; 1759359992; 534414190; 2176718541; 4139329115; 1873836001; 414664567;
   2282248934; 4279200368; 1711684554; 285281116; 2405801727; 4167216745; 1634467795; 376229701;
   2685067896; 3608007406; 1308918612; 956543938; 2808555105; 3495958263; 1231636301; 1047427035;
   2932959818; 3654703836; 1088359270; 936918000; 2847714899; 3736837829; 1202900863; 817233897;
   3183342108; 3401237130; 1404277552; 615818150; 3134207493; 3453421203; 1423857449; 601450431;
   3009837614; 3294710456; 1567103746; 711928724; 3020668471; 3272380065; 1510334235; 755167117].

Fixpoint lodepng_crc_loop (r : Z) (data : bytes) : option Z :=
  match data with
  | [] => Some r
  | x :: data => t ← at_ lodepng_crc32_table ((r .^ x) .& 0xff); lodepng_crc_loop (t .^ (r >> 8)) data
  end.

Definition lodepng_crc32 (data : bytes) : option Z := r ← lodepng_crc_loop 0xffffffff data; Some (r .^ 0xffffffff).

(** ** Chunks *)

(** [lodepng_addofl] reports a sum that does not fit a size_t. *)
Definition lodepng_addofl (a b : Z) : bool := 2 ^ 32 <=? a + b.

(** The length and the name of a chunk at the end of [out] *)
Definition lodepng_chunk_init (out : bytes) (len : Z) (type : string) : Z + bytes :=
  let size := Z.of_nat (length out) in
  if lodepng_addofl size len || lodepng_addofl (size + len) 12 then inl 77
  else inr (lodepng_set32bitInt len ++ bytes_of_string type).

(** [chunk] up to its checksum, which comes behind it *)
Definition lodepng_chunk_generate_crc (chunk : bytes) : option bytes := CRC ← lodepng_crc32 (drop 4 chunk); Some (chunk ++ lodepng_set32bitInt CRC).

(** [out] with a chunk at its end *)
Definition lodepng_chunk_createv (out : bytes) (type : string) (data : bytes) : option (Z + bytes) :=
  unless_error (Some (lodepng_chunk_init out (Z.of_nat (length data)) type)) (fun chunk =>
  chunk ← lodepng_chunk_generate_crc (chunk ++ data); Some (inr (out ++ chunk))).

Definition writeSignature (out : bytes) : bytes := out ++ [137; 80; 78; 71; 13; 10; 26; 10].

Definition addChunk_IHDR (out : bytes) (w h : Z) (colortype : LodePNGColorType) (bitdepth interlace_method : Z) : option (Z + bytes) :=
  lodepng_chunk_createv out "IHDR" (lodepng_set32bitInt w ++ lodepng_set32bitInt h ++ [u8 bitdepth; lct_value colortype; 0; 0; u8 interlace_method]).

(** The red, green and blue of [n] colours *)
Fixpoint plte_loop (n : nat) (i : Z) (p : bytes) : option bytes :=
  match n with
  | O => Some []
  | S n =>
      r ← at_ p (i * 4 + 0); g ← at_ p (i * 4 + 1); b ← at_ p (i * 4 + 2);
      rest ← plte_loop n (i + 1) p; Some (r :: g :: b :: rest)
  end.

Definition addChunk_PLTE (out : bytes) (info : LodePNGColorMode) : option (Z + bytes) :=
  let n := m_palettesize info in
  if (n =? 0) || (256 <? n) then Some (inl 68)
  else p ← m_palette info; data ← plte_loop (Z.to_nat n) 0 p; lodepng_chunk_createv out "PLTE" data.

(** How many colours have an alpha to write: those at the end that are opaque do not. *)
Fixpoint trns_amount (n : nat) (p : bytes) : option nat :=
  match n with
  | O => Some 0%nat
  | S k => a ← at_ p (4 * Z.of_nat k + 3); if negb (a =? 255) then Some n else trns_amount k p
  end.

Fixpoint alphas (n : nat) (i : Z) (p : bytes) : option bytes :=
  match n with
  | O => Some []
  | S n => a ← at_ p (4 * i + 3); rest ← alphas n (i + 1) p; Some (a :: rest)
  end.

Definition key_bytes (v : Z) : bytes := [u8 (v >> 8); v .& 255].

Definition addChunk_tRNS (out : bytes) (info : LodePNGColorMode) : option (Z + bytes) :=
  match m_colortype info with
  | LCT_PALETTE =>
      if m_palettesize info =? 0 then Some (inr out)
      else
        p ← m_palette info;
        amount ← trns_amount (Z.to_nat (m_palettesize info)) p;
        if (amount =? 0)%nat then Some (inr out)
        else data ← alphas amount 0 p; lodepng_chunk_createv out "tRNS" data
  | LCT_GREY => if m_key_defined info then lodepng_chunk_createv out "tRNS" (key_bytes (m_key_r info)) else Some (inr out)
  | LCT_RGB =>
      if m_key_defined info
      then lodepng_chunk_createv out "tRNS" (key_bytes (m_key_r info) ++ key_bytes (m_key_g info) ++ key_bytes (m_key_b info))
      else Some (inr out)
  | _ => Some (inr out)
  end.

Definition addChunk_IDAT (out data : bytes) (zlibsettings : LodePNGCompressSettings) : option (Z + bytes) :=
  unless_error (zlib_compress data zlibsettings) (lodepng_chunk_createv out "IDAT").

Definition addChunk_IEND (out : bytes) : option (Z + bytes) := lodepng_chunk_createv out "IEND" [].

(** ** The encoder *)

Section Encode.
Context {M : Memory}.

(** [info_raw], the colour mode of [info_png] and the settings *)
Record LodePNGState := mkState { info_raw : LodePNGColorMode; info_png_color : LodePNGColorMode; encoder : LodePNGEncoderSettings }.

Definition lodepng_state_init : LodePNGState := mkState lodepng_color_mode_init lodepng_color_mode_init lodepng_encoder_settings_init.

(** The colour mode of the file *)
Definition choose_color (image : bytes) (w h : Z) (state : LodePNGState) : option (Z + LodePNGColorMode) :=
  info ← lodepng_color_mode_copy (info_png_color state);
  if e_auto_convert (encoder state) then
    stats ← lodepng_compute_color_stats lodepng_color_stats_init image w h (info_raw state);
    unless_error (auto_choose_color lodepng_color_mode_init (info_raw state) stats) (fun auto_color =>
    if e_force_palette (encoder state) && negb (lodepng_is_greyscale_type info) && lodepng_is_greyscale_type auto_color then Some (inr info)
    else inr <$> lodepng_color_mode_copy auto_color)
  else Some (inr info).

(** The scanlines of the file *)
Definition encode_data (image : bytes) (w h : Z) (color : LodePNGColorMode) (state : LodePNGState) : option (Z + bytes) :=
  equal ← lodepng_color_mode_equal (info_raw state) color;
  if equal : bool then preProcessScanlines image w h color (encoder state)
  else
    let size := u32 (u32 (u32 (w * h) * lodepng_get_bpp color) + 7) / 8 in
    unless_error (lodepng_convert (fresh Converted (Z.to_nat size)) image color (info_raw state) w h) (fun converted =>
    preProcessScanlines converted w h color (encoder state)).

(** The chunks of the file *)
Definition encode_chunks (data : bytes) (w h : Z) (color : LodePNGColorMode) (state : LodePNGState) : option (Z + bytes) :=
  let outv := writeSignature [] in
  unless_error (addChunk_IHDR outv w h (m_colortype color) (m_bitdepth color) 0) (fun outv =>
  unless_error (if bool_decide (m_colortype color = LCT_PALETTE) then addChunk_PLTE outv color else Some (inr outv)) (fun outv =>
  unless_error (if e_force_palette (encoder state) && (bool_decide (m_colortype color = LCT_RGB) || bool_decide (m_colortype color = LCT_RGBA))
                then addChunk_PLTE outv color else Some (inr outv)) (fun outv =>
  unless_error (addChunk_tRNS outv color) (fun outv =>
  unless_error (addChunk_IDAT outv data (e_zlibsettings (encoder state))) addChunk_IEND)))).

Definition lodepng_encode (image : bytes) (w h : Z) (state : LodePNGState) : option (Z + bytes) :=
  let png := info_png_color state in
  if (bool_decide (m_colortype png = LCT_PALETTE) || e_force_palette (encoder state)) && ((m_palettesize png =? 0) || (256 <? m_palettesize png))
  then Some (inl 68)
  else if 2 <? btype (e_zlibsettings (encoder state)) then Some (inl 61)
  else
    let error := checkColorValidity (m_colortype png) (m_bitdepth png) in
    if negb (error =? 0) then Some (inl error)
    else
      let error := checkColorValidity (m_colortype (info_raw state)) (m_bitdepth (info_raw state)) in
      if negb (error =? 0) then Some (inl error)
      else
        unless_error (choose_color image w h state) (fun color =>
        unless_error (encode_data image w h color state) (fun data =>
        encode_chunks data w h color state)).

Definition lodepng_encode_memory (image : bytes) (w h : Z) (colortype : LodePNGColorType) (bitdepth : Z) : option (Z + bytes) :=
  let mode := lodepng_color_mode_make colortype bitdepth in
  lodepng_encode image w h (mkState mode mode (encoder lodepng_state_init)).

Definition lodepng_encode32 (image : bytes) (w h : Z) : option (Z + bytes) := lodepng_encode_memory image w h LCT_RGBA 8.
Definition lodepng_encode24 (image : bytes) (w h : Z) : option (Z + bytes) := lodepng_encode_memory image w h LCT_RGB 8.

(** The error code and the file written; [opens] is the success of fopen. *)
Definition lodepng_save_file (opens : bool) (buffer : bytes) : Z * option bytes := if opens then (0, Some buffer) else (79, None).

Definition lodepng_encode_file (opens : bool) (image : bytes) (w h : Z) (colortype : LodePNGColorType) (bitdepth : Z) : option (Z * option bytes) :=
  r ← lodepng_encode_memory image w h colortype bitdepth;
  Some (match r with inl error => (error, None) | inr buffer => lodepng_save_file opens buffer end).

Definition lodepng_encode32_file (opens : bool) (image : bytes) (w h : Z) : option (Z * option bytes) := lodepng_encode_file opens image w h LCT_RGBA 8.
Definition lodepng_encode24_file (opens : bool) (image : bytes) (w h : Z) : option (Z * option bytes) := lodepng_encode_file opens image w h LCT_RGB 8.
End Encode.

(** ** Error texts *)

Definition lodepng_error_texts : list (Z * string) :=
  [(0, "no error, everything went ok");
   (1, "nothing done yet");
   (10, "end of input memory reached without huffman end code");
   (11, "error in code tree made it jump outside of huffman tree");
   (13, "problem while processing dynamic deflate block");
   (14, "problem while processing dynamic deflate block");
   (15, "problem while processing dynamic deflate block");
   (16, "invalid code while processing dynamic deflate block");
   (17, "end of out buffer memory reached while inflating");
   (18, "invalid distance code while inflating");
   (19, "end of out buffer memory reached while inflating");
   (20, "invalid deflate block BTYPE encountered while decoding");
   (21, "NLEN is not ones complement of LEN in a deflate block");
   (22, "end of out buffer memory reached while inflating");
   (23, "end of in buffer memory reached while inflating");
   (24, "invalid FCHECK in zlib header");
   (25, "invalid compression method in zlib header");
   (26, "FDICT encountered in zlib header while it's not used for PNG");
   (27, "PNG file is smaller than a PNG header");
   (28, "incorrect PNG signature, it's no PNG or corrupted");
   (29, "first chunk is not the header chunk");
   (30, "chunk length too large, chunk broken off at end of file");
   (31, "illegal PNG color type or bpp");
   (32, "illegal PNG compression method");
   (33, "illegal PNG filter method");
   (34, "illegal PNG interlace method");
   (35, "chunk length of a chunk is too large or the chunk too small");
   (36, "illegal PNG filter type encountered");
   (37, "illegal bit depth for this color type given");
   (38, "the palette is too small or too big");
   (39, "tRNS chunk before PLTE or has more entries than palette size");
   (40, "tRNS chunk has wrong size for grayscale image");
   (41, "tRNS chunk has wrong size for RGB image");
   (42, "tRNS chunk appeared while it was not allowed for this color type");
   (43, "bKGD chunk has wrong size for palette image");
   (44, "bKGD chunk has wrong size for grayscale image");
   (45, "bKGD chunk has wrong size for RGB image");
   (48, "empty input buffer given to decoder. Maybe caused by non-existing file?");
   (49, "jumped past memory while generating dynamic huffman tree");
   (50, "jumped past memory while generating dynamic huffman tree");
   (51, "jumped past memory while inflating huffman block");
   (52, "jumped past memory while inflating");
   (53, "size of zlib data too small");
   (54, "repeat symbol in tree while there was no value symbol yet");
   (55, "jumped past tree while generating huffman tree");
   (56, "given output image colortype or bitdepth not supported for color conversion");
   (57, "invalid CRC encountered (checking CRC can be disabled)");
   (58, "invalid ADLER32 encountered (checking ADLER32 can be disabled)");
   (59, "requested color conversion not supported");
   (60, "invalid window size given in the settings of the encoder (must be 0-32768)");
   (61, "invalid BTYPE given in the settings of the encoder (only 0, 1 and 2 are allowed)");
   (62, "conversion from color to grayscale not supported");
   (63, "length of a chunk too long, max allowed for PNG is 2147483647 bytes per chunk");
   (64, "the length of the END symbol 256 in the Huffman tree is 0");
   (66, "the length of a text chunk keyword given to the encoder is longer than the maximum of 79 bytes");
   (67, "the length of a text chunk keyword given to the encoder is smaller than the minimum of 1 byte");
   (68, "tried to encode a PLTE chunk with a palette that has less than 1 or more than 256 colors");
   (69, "unknown chunk type with 'critical' flag encountered by the decoder");
   (71, "invalid interlace mode given to encoder (must be 0 or 1)");
   (72, "while decoding, invalid compression method encountering in zTXt or iTXt chunk (it must be 0)");
   (73, "invalid tIME chunk size");
   (74, "invalid pHYs chunk size");
   (75, "no null termination char found while decoding text chunk");
   (76, "iTXt chunk too short to contain required bytes");
   (77, "integer overflow in buffer size");
   (78, "failed to open file for reading");
   (79, "failed to open file for writing");
   (80, "tried creating a tree of 0 symbols");
   (81, "lazy matching at pos 0 is impossible");
   (82, "color conversion to palette requested while a color isn't in palette, or index out of bounds");
   (83, "memory allocation failed");
   (84, "given image too small to contain all pixels to be encoded");
   (86, "impossible offset in lz77 encoding (internal bug)");
   (87, "must provide custom zlib function pointer if LODEPNG_COMPILE_ZLIB is not defined");
   (88, "invalid filter strategy given for LodePNGEncoderSettings.filter_strategy");
   (89, "text chunk keyword too short or long: must have size 1-79");
   (90, "windowsize must be a power of two");
   (91, "invalid decompressed idat size");
   (92, "integer overflow due to too many pixels");
   (93, "zero width or height is invalid");
   (94, "header chunk must have a size of 13 bytes");
   (95, "integer overflow with combined idat chunk size");
   (96, "invalid gAMA chunk size");
   (97, "invalid cHRM chunk size");
   (98, "invalid sRGB chunk size");
   (99, "invalid sRGB rendering intent");
   (100, "invalid ICC profile color type, the PNG specification only allows RGB or GRAY");
   (101, "PNG specification does not allow RGB ICC profile on gray color types and vice versa");
   (102, "not allowed to set grayscale ICC profile with colored pixels by PNG specification");
   (103, "invalid palette index in bKGD chunk. Maybe it came before PLTE chunk?");
   (104, "invalid bKGD color while encoding (e.g. palette index out of range)");
   (105, "integer overflow of bitsize");
   (106, "PNG file must have PLTE chunk if color type is palette");
   (107, "color convert from palette mode requested without setting the palette data in it");
   (108, "tried to add more than 256 values to a palette");
   (109, "tried to decompress zlib or deflate data larger than desired max_output_size");
   (110, "custom zlib or inflate decompression failed");
   (111, "custom zlib or deflate compression failed");
   (112, "compressed text unreasonably large");
   (113, "ICC profile unreasonably large");
   (114, "sBIT chunk has wrong size for the color type of the image");
   (115, "sBIT value out of range")].

Definition lodepng_error_text (code : Z) : string :=
  match find (fun e => e.1 =? code) lodepng_error_texts with Some (_, text) => text | None => "unknown error code" end.
