(* ===== verification/Qcow2.v ===== *)
(** vdisk/qcow2.c: reading guest sectors of a qcow2 image through its L1 and L2
    tables, with one cached cluster.

    [vdisk_qcow2] is the driver state, [vdisk_init_qcow2] the header parser
    with its error branches, [qcow2_read_guest_sector] the lookup and
    [vdisk_qcow2_read] the callback.  [em_inflate] (Inflate.v) is called with the
    arguments of the source, whose first pair is the cache and whose second
    pair is the compressed data.  [None] is a behaviour the C standard leaves
    undefined: a read outside an array, or a use of memory no byte of which
    was ever set.
    The diagnostics written to stdout and stderr are left out. *)
From S2P Require Import Prelude BitReader Inflate InflateSafe CLib Io Disk.

Record vdisk_qcow2 := VdiskQcow2 {
  q_vdisk : vdisk;
  q_fd : option Posix.fdesc;
  cluster_bits : Z;
  cluster_size : Z;
  cluster : bytes;
  cmp_cluster : bytes;
  l1_table_offset : Z;
  l2_entry_cmp_x : Z;
  l2_entry_cmp_offset_mask : Z;
  l2_entry_cmp_sect_cnt_mask : Z;
  header_length : Z;
  refcount_order : Z;
  refcount_table_clusters : Z;
  refcount_table_offset : Z;
  l1_size : Z;
  sector_idx_mask : Z;
  l1 : list Z;
  prev_cluster_index : Z }.

Definition set_q_fd (f : option Posix.fdesc) (d : vdisk_qcow2) : vdisk_qcow2 :=
  VdiskQcow2 (q_vdisk d) f (cluster_bits d) (cluster_size d) (cluster d) (cmp_cluster d)
    (l1_table_offset d) (l2_entry_cmp_x d) (l2_entry_cmp_offset_mask d)
    (l2_entry_cmp_sect_cnt_mask d) (header_length d) (refcount_order d)
    (refcount_table_clusters d) (refcount_table_offset d) (l1_size d) (sector_idx_mask d)
    (l1 d) (prev_cluster_index d).
Definition set_cluster (c : bytes) (d : vdisk_qcow2) : vdisk_qcow2 :=
  VdiskQcow2 (q_vdisk d) (q_fd d) (cluster_bits d) (cluster_size d) c (cmp_cluster d)
    (l1_table_offset d) (l2_entry_cmp_x d) (l2_entry_cmp_offset_mask d)
    (l2_entry_cmp_sect_cnt_mask d) (header_length d) (refcount_order d)
    (refcount_table_clusters d) (refcount_table_offset d) (l1_size d) (sector_idx_mask d)
    (l1 d) (prev_cluster_index d).
Definition set_cmp_cluster (c : bytes) (d : vdisk_qcow2) : vdisk_qcow2 :=
  VdiskQcow2 (q_vdisk d) (q_fd d) (cluster_bits d) (cluster_size d) (cluster d) c
    (l1_table_offset d) (l2_entry_cmp_x d) (l2_entry_cmp_offset_mask d)
    (l2_entry_cmp_sect_cnt_mask d) (header_length d) (refcount_order d)
    (refcount_table_clusters d) (refcount_table_offset d) (l1_size d) (sector_idx_mask d)
    (l1 d) (prev_cluster_index d).
Definition set_prev (i : Z) (d : vdisk_qcow2) : vdisk_qcow2 :=
  VdiskQcow2 (q_vdisk d) (q_fd d) (cluster_bits d) (cluster_size d) (cluster d) (cmp_cluster d)
    (l1_table_offset d) (l2_entry_cmp_x d) (l2_entry_cmp_offset_mask d)
    (l2_entry_cmp_sect_cnt_mask d) (header_length d) (refcount_order d)
    (refcount_table_clusters d) (refcount_table_offset d) (l1_size d) (sector_idx_mask d)
    (l1 d) i.

Definition QCOW2_MAGIC : bytes := [81; 70; 73; 251].   (* "QFI\xfb" *)

Definition CLUSTER_FORMAT_STANDARD : Z := 0.
Definition L1_ENTRY_OFFSET_MASK : Z := 0x00ffffffffffff00.
Definition L2_ENTRY_STD_ZEROED : Z := 0x1.
Definition L2_ENTRY_STD_OFFSET : Z := 0x00ffffffffffff00.
Definition L2_ENTRY_FORMAT : Z := 0x4000000000000000.

(** [be32(p)] and [be64(p)] on the bytes at [p]. *)
Definition be32 (x : bytes) : Z :=
  match x with
  | x0 :: x1 :: x2 :: x3 :: _ => u32 ((x3 << 0) + (x2 << 8) + (x1 << 16) + (x0 << 24))
  | _ => 0
  end.
Definition be64 (x : bytes) : Z :=
  match x with
  | x0 :: x1 :: x2 :: x3 :: x4 :: x5 :: x6 :: x7 :: _ =>
      u64 ((x7 << 0) + (x6 << 8) + (x5 << 16) + (x4 << 24)
           + (x3 << 32) + (x2 << 40) + (x1 << 48) + (x0 << 56))
  | _ => 0
  end.

(** [struct qcow2_header]: the fields the code reads, at their offsets. *)
Definition HEADER_SIZE : nat := 104.
Definition h_magic (h : bytes) : bytes := sub h 0 4.
Definition h_version (h : bytes) : Z := be32 (sub h 4 4).
Definition h_cluster_bits (h : bytes) : Z := be32 (sub h 20 4).
Definition h_size (h : bytes) : Z := be64 (sub h 24 8).
Definition h_crypt_method (h : bytes) : Z := be32 (sub h 32 4).
Definition h_l1_size (h : bytes) : Z := be32 (sub h 36 4).
Definition h_l1_table_offset (h : bytes) : Z := be64 (sub h 40 8).
Definition h_refcount_table_offset (h : bytes) : Z := be64 (sub h 48 8).
Definition h_refcount_table_clusters (h : bytes) : Z := be32 (sub h 56 4).
Definition h_incompatible_features (h : bytes) : Z := be64 (sub h 72 8).
Definition h_refcount_order (h : bytes) : Z := be32 (sub h 96 4).
Definition h_header_length (h : bytes) : Z := be32 (sub h 100 4).

Section qcow2.
Context (running : Z).
Context (io_async_read : option Posix.fdesc -> Z -> Z * bytes * option Posix.fdesc).

Let rd := io_read io_async_read running.

(** [memcpy(buf, d->cluster + (sector & mask) * sect_size, sect_size)] *)
Definition copy_sector (d : vdisk_qcow2) (sector : Z) (buf : bytes) : option bytes :=
  let ss := sect_size (q_vdisk d) in
  let off := (sector .& sector_idx_mask d) * ss in
  if (off + ss <=? Z.of_nat (length (cluster d)))
  then Some (overlay 0 (sub (cluster d) (Z.to_nat off) (Z.to_nat ss)) buf)
  else None.

Definition clear_sector (d : vdisk_qcow2) (buf : bytes) : bytes :=
  overlay 0 (zeroes (Z.to_nat (sect_size (q_vdisk d)))) buf.

(** Fill the cluster cache from a standard or compressed L2 entry; [inl]: the
    function returns at once with the buffer as it was. *)
Definition load_standard (d : vdisk_qcow2) (l2_entry : Z) : vdisk_qcow2 + vdisk_qcow2 :=
  let cluster_offset := l2_entry .& L2_ENTRY_STD_OFFSET in
  let '(n, got, f) := rd (Posix.fd_lseek (q_fd d) (s64 cluster_offset)) (cluster_size d) in
  let d := set_q_fd f (set_cluster (overlay 0 got (cluster d)) d) in
  if n =? 0 then inl d else inr d.

(** [cmp_size], from the sector count of the entry. *)
Definition compressed_size (d : vdisk_qcow2) (l2_entry : Z) : Z :=
  let cmp_offset := l2_entry_cmp_offset_mask d .& l2_entry in
  let additional_sectors :=
    u32 ((l2_entry .& l2_entry_cmp_sect_cnt_mask d) >> l2_entry_cmp_x d) in
  u32 (512 - (cmp_offset .& 511) + additional_sectors * 512).

Definition load_compressed (d : vdisk_qcow2) (l2_entry : Z) : option (vdisk_qcow2 + vdisk_qcow2) :=
  let cmp_offset := l2_entry_cmp_offset_mask d .& l2_entry in
  let cmp_size := compressed_size d l2_entry in
  let '(n, got, f) := rd (Posix.fd_lseek (q_fd d) (s64 cmp_offset)) (cluster_size d) in
  let d := set_q_fd f (set_cmp_cluster (overlay 0 got (cmp_cluster d)) d) in
  if n =? 0 then Some (inl d)
  else
    let dest_size := cluster_size d in
    match em_inflate (cluster d) dest_size (cmp_cluster d) cmp_size with
    | Ok (_, out) => Some (inr (set_cmp_cluster out d))
    | _ => None
    end.

Definition qcow2_read_guest_sector (d : vdisk_qcow2) (sector : Z) (buf : bytes)
  : option (vdisk_qcow2 * bytes) :=
  let l2_entries := cluster_size d / 8 in
  let offset := u64 (sector * sect_size (q_vdisk d)) in
  let cluster_index := offset / cluster_size d in
  let l1_index := cluster_index / l2_entries in
  let l2_index := cluster_index mod l2_entries in
  l1_entry ← l1 d !! Z.to_nat l1_index;
  if cluster_index =? prev_cluster_index d
  then b ← copy_sector d sector buf; Some (d, b)
  else
    let d := set_prev cluster_index d in
    let l2_table_offset := l1_entry .& L1_ENTRY_OFFSET_MASK in
    if l2_table_offset =? 0 then Some (d, clear_sector d buf)
    else
      let '(n, got, f) := rd (Posix.fd_lseek (q_fd d) (s64 (l2_table_offset + l2_index * 8))) 8 in
      let d := set_q_fd f d in
      if n =? 0 then Some (d, buf)
      else if negb (n =? 8) then None   (* l2_entry is not, or not wholly, set *)
      else
        let l2_entry := be64 got in
        if (l2_entry .& L2_ENTRY_FORMAT) =? CLUSTER_FORMAT_STANDARD then
          if truth (l2_entry .& L2_ENTRY_STD_ZEROED) then Some (d, clear_sector d buf)
          else match load_standard d l2_entry with
               | inl d => Some (d, buf)
               | inr d => b ← copy_sector d sector buf; Some (d, b)
               end
        else match load_compressed d l2_entry with
             | None => None
             | Some (inl d) => Some (d, buf)
             | Some (inr d) => b ← copy_sector d sector buf; Some (d, b)
             end.

(** The loop of [vdisk_qcow2_read]: [buffer] advances by a sector. *)
Fixpoint read_sectors (n : nat) (d : vdisk_qcow2) (buffer : bytes) (sector : Z)
  : option (vdisk_qcow2 * bytes) :=
  match n with
  | O => Some (d, buffer)
  | S n =>
      '(d1, b1) ← qcow2_read_guest_sector d (u64 sector) buffer;
      let ss := Z.to_nat (sect_size (q_vdisk d)) in
      '(d2, b2) ← read_sectors n d1 (drop ss b1) (sector + 1);
      Some (d2, take ss b1 ++ b2)
  end.

Definition vdisk_qcow2_read (d : vdisk_qcow2) (buffer : bytes) (startsector numsectors : Z)
  : option (Z * bytes * vdisk_qcow2) :=
  '(d', b) ← read_sectors (Z.to_nat numsectors) d buffer startsector;
  Some (KOS_ERROR_SUCCESS, b, d').

(** Writing is not implemented. *)
Definition vdisk_qcow2_write (d : vdisk_qcow2) (buffer : bytes) (startsector numsectors : Z)
  : Z * vdisk_qcow2 := (KOS_ERROR_UNSUPPORTED_FS, d).

(** [vdisk_qcow2_close] closes the descriptor and frees the buffers. *)
Definition vdisk_qcow2_close (d : vdisk_qcow2) : option Posix.fdesc := None.

(** *** Opening an image *)

(** The branches on which [vdisk_init_qcow2] prints and returns NULL. *)
Inductive init_error :=
| CantAllocate | CantOpen | CantRead | BadSignature (magic : bytes) | BadVersion (v : Z)
| BadClusterBits (b : Z) | BadCryptMethod (m : Z) | UnsupportedFeatures (f : Z)
| BadRefcountOrder (o : Z).

(** [calloc_ok]: the driver state could be allocated; [alloc n] is
    [malloc(n)]: its indeterminate contents or NULL; [stack] is what the local
    [header] holds before it is read into. *)
Context (calloc_ok : bool) (alloc : Z -> option bytes) (stack : bytes).

Definition l1_entries_of (n : nat) (raw : bytes) : list Z :=
  map (fun i => be64 (sub raw (i * 8) 8)) (seq 0 n).

(** The tests of the header, in their order. *)
Definition check_header (h : bytes) : option init_error :=
  if negb (bool_decide (h_magic h = QCOW2_MAGIC)) then Some (BadSignature (h_magic h)) else
  if negb (h_version h =? 3) then Some (BadVersion (h_version h)) else
  if (h_cluster_bits h <? 9) || (21 <? h_cluster_bits h)
  then Some (BadClusterBits (h_cluster_bits h)) else
  if truth (h_crypt_method h) then Some (BadCryptMethod (h_crypt_method h)) else
  if truth (h_incompatible_features h)
  then Some (UnsupportedFeatures (h_incompatible_features h)) else
  if (h_refcount_order h <? 4) || (6 <? h_refcount_order h)
  then Some (BadRefcountOrder (h_refcount_order h))
  else None.

(** The fields computed from an accepted header [h], the allocations, and
    the L1 table: read at its offset, then swapped to host order in place. *)
Definition init_tables (f : option Posix.fdesc) (ss : Z) (h : bytes)
  : option (init_error + vdisk_qcow2) :=
  let cb := h_cluster_bits h in
  let cs := 1 << cb in
  let idx_mask := u64 (cs / ss - 1) in
  let cmp_x := 62 - (cb - 8) in
  let off_mask := (1 << cmp_x) - 1 in
  let cnt_mask := ((1 << 62) - 1) .^ off_mask in
  let l1sz := h_l1_size h in
  let l1off := h_l1_table_offset h in
  match alloc cs, alloc (u32 (cs * 2)), alloc (u32 (l1sz * 8)) with
  | Some cl, Some cmp, Some l1buf =>
      let '(n, got, f) := rd (Posix.fd_lseek f (s64 l1off)) (u32 (l1sz * 8)) in
      if n =? 0 then Some (inl CantRead)
      (* the swap loop runs over l1_size entries of the allocated block *)
      else if Z.of_nat (length l1buf) <? l1sz * 8 then None
      else Some (inr (VdiskQcow2 (Vdisk ss (h_size h / ss) 0 0) f cb cs cl cmp l1off cmp_x off_mask
                        cnt_mask (h_header_length h) (h_refcount_order h)
                        (h_refcount_table_clusters h)
                        (s64 (h_refcount_table_offset h)) l1sz idx_mask
                        (l1_entries_of (Z.to_nat l1sz) (overlay 0 got l1buf)) (2 ^ 64 - 1)))
  | _, _, _ => Some (inl CantAllocate)
  end.

Definition vdisk_init_qcow2 (open : string -> Z * option Posix.fdesc) (fname : string)
  : option (init_error + vdisk_qcow2) :=
  if negb calloc_ok then Some (inl CantAllocate) else
  let '(fd, f) := open fname in
  if fd =? -1 then Some (inl CantOpen) else
  let ss := sect_size_of_name fname in
  let '(n, got, f) := rd f (Z.of_nat HEADER_SIZE) in
  if n =? 0 then Some (inl CantRead) else
  let h := overlay 0 got stack in
  match check_header h with
  | Some e => Some (inl e)
  | None => init_tables f ss h
  end.

(** *** What the image says

    The meaning of the tables, without the cache.  An L2 entry without a host
    offset describes a cluster that was never allocated. *)
Inductive mapping := Hole | Zeroed | Unallocated | Data (off : Z) | Compressed (entry : Z).

Definition q_data (d : vdisk_qcow2) : bytes :=
  match q_fd d with Some f => Posix.fd_data f | None => [] end.

Definition mapping_of_l2 (e : Z) : mapping :=
  if (e .& L2_ENTRY_FORMAT) =? CLUSTER_FORMAT_STANDARD then
    if truth (e .& L2_ENTRY_STD_ZEROED) then Zeroed
    else if (e .& L2_ENTRY_STD_OFFSET) =? 0 then Unallocated
    else Data (e .& L2_ENTRY_STD_OFFSET)
  else Compressed e.

Definition cluster_of (d : vdisk_qcow2) (s : Z) : Z :=
  s * sect_size (q_vdisk d) / cluster_size d.

(** Where the L2 entry of a cluster is, 0 for no L2 table. *)
Definition l2_entry_offset (d : vdisk_qcow2) (ci : Z) : option Z :=
  let n := cluster_size d / 8 in
  e ← l1 d !! Z.to_nat (ci / n);
  let t := e .& L1_ENTRY_OFFSET_MASK in
  Some (if t =? 0 then 0 else t + ci mod n * 8).

Definition lookup_cluster (d : vdisk_qcow2) (ci : Z) : option mapping :=
  o ← l2_entry_offset d ci;
  if o =? 0 then Some Hole
  else if o + 8 <=? Z.of_nat (length (q_data d))
  then Some (mapping_of_l2 (be64 (sub (q_data d) (Z.to_nat o) 8)))
  else None.

(** The byte of sector [s] at which it starts inside its cluster. *)
Definition in_cluster (d : vdisk_qcow2) (s : Z) : Z :=
  s * sect_size (q_vdisk d) mod cluster_size d.

(** What the guest must see in sector [s], for uncompressed clusters. *)
Definition guest_sector (d : vdisk_qcow2) (s : Z) : option bytes :=
  m ← lookup_cluster d (cluster_of d s);
  match m with
  | Hole | Zeroed | Unallocated => Some (zeroes (Z.to_nat (sect_size (q_vdisk d))))
  | Data off => Some (sub (q_data d) (Z.to_nat (off + in_cluster d s))
                        (Z.to_nat (sect_size (q_vdisk d))))
  | Compressed _ => None
  end.

Definition sector_bytes (d : vdisk_qcow2) (s : Z) : bytes := default [] (guest_sector d s).

(** *** Invariant *)

(** The geometry [vdisk_init_qcow2] computes, for a cluster of at least one
    sector. *)
Record qcow2_ok (d : vdisk_qcow2) : Prop := {
  qo_open : is_Some (q_fd d);
  qo_ss : 0 < sect_size (q_vdisk d);
  qo_cs : 512 <= cluster_size d <= 2 ^ 21;
  qo_idx : exists k, 0 <= k /\ cluster_size d = 2 ^ k * sect_size (q_vdisk d)
                     /\ sector_idx_mask d = 2 ^ k - 1;
  qo_cluster : Z.of_nat (length (cluster d)) = cluster_size d;
  qo_off : Z.of_nat (length (q_data d)) < 2 ^ 62;
  qo_l1 : Forall (fun e => 0 <= e < 2 ^ 64) (l1 d) }.

(** The cache is empty or holds the data of the cluster it is marked with. *)
Definition cache_ok (d : vdisk_qcow2) : Prop :=
  prev_cluster_index d = 2 ^ 64 - 1
  \/ exists off, lookup_cluster d (prev_cluster_index d) = Some (Data off)
       /\ cluster d = sub (q_data d) (Z.to_nat off) (Z.to_nat (cluster_size d)).

(** Sector [s] lies in a cluster with data in the image. *)
Definition has_data (d : vdisk_qcow2) (s : Z) : Prop :=
  0 <= s /\ (s + 1) * sect_size (q_vdisk d) < 2 ^ 64
  /\ exists off, lookup_cluster d (cluster_of d s) = Some (Data off)
       /\ off + cluster_size d <= Z.of_nat (length (q_data d)).

(** Same image and geometry; the cache and the file position may differ. *)
Record same_image (d d' : vdisk_qcow2) : Prop := {
  si_vdisk : q_vdisk d' = q_vdisk d;
  si_data : q_data d' = q_data d;
  si_cs : cluster_size d' = cluster_size d;
  si_mask : sector_idx_mask d' = sector_idx_mask d;
  si_l1 : l1 d' = l1 d }.

Lemma same_image_lookup d d' ci : same_image d d' -> lookup_cluster d' ci = lookup_cluster d ci.
Proof. intros [? Hd Hc ? Hl]. unfold lookup_cluster, l2_entry_offset. by rewrite Hd, Hc, Hl. Qed.

Lemma same_image_sector d d' s : same_image d d' -> guest_sector d' s = guest_sector d s.
Proof.
  intros Hs. unfold guest_sector. unfold cluster_of, in_cluster.
  by rewrite (same_image_lookup _ _ _ Hs), (si_vdisk _ _ Hs), (si_cs _ _ Hs), (si_data _ _ Hs).
Qed.

Lemma same_image_has_data d d' s : same_image d d' -> has_data d s -> has_data d' s.
Proof.
  intros Hs. unfold has_data. unfold cluster_of.
  rewrite (same_image_lookup _ _ _ Hs), (si_vdisk _ _ Hs), (si_cs _ _ Hs), (si_data _ _ Hs). done.
Qed.

Lemma same_image_refl d : same_image d d.
Proof. by constructor. Qed.

Lemma same_image_trans a b c : same_image a b -> same_image b c -> same_image a c.
Proof. intros [] []. constructor; congruence. Qed.

(** [(sector & sector_idx_mask) * sect_size] is the offset in the cluster. *)
Lemma in_cluster_mask d s :
  qcow2_ok d -> 0 <= s -> (s .& sector_idx_mask d) * sect_size (q_vdisk d) = in_cluster d s.
Proof.
  intros Hok Hs. destruct (qo_idx _ Hok) as (k & Hk & Hcs & Hm). pose proof (qo_ss _ Hok).
  unfold in_cluster. rewrite Hm, Hcs.
  replace (2 ^ k - 1) with (Z.ones k) by (rewrite Z.ones_equiv; lia).
  rewrite Z.land_ones by lia. rewrite Z.mul_mod_distr_r by lia. done.
Qed.

Lemma in_cluster_fits d s :
  qcow2_ok d -> 0 <= s ->
  0 <= in_cluster d s /\ in_cluster d s + sect_size (q_vdisk d) <= cluster_size d.
Proof.
  intros Hok Hs. destruct (qo_idx _ Hok) as (k & Hk & Hcs & Hm). pose proof (qo_ss _ Hok).
  unfold in_cluster. rewrite Hcs, Z.mul_mod_distr_r by lia.
  pose proof (Z.mod_pos_bound s (2 ^ k)). nia.
Qed.

Lemma copy_sector_ok d s buf :
  qcow2_ok d -> 0 <= s ->
  copy_sector d s buf =
  Some (overlay 0 (sub (cluster d) (Z.to_nat (in_cluster d s)) (Z.to_nat (sect_size (q_vdisk d)))) buf).
Proof.
  intros Hok Hs. unfold copy_sector. rewrite in_cluster_mask by done.
  pose proof (in_cluster_fits _ _ Hok Hs). rewrite (qo_cluster _ Hok).
  by rewrite (proj2 (Z.leb_le _ _)) by lia.
Qed.

(** *** Reading *)

Hypothesis async_reads : reads_through running io_async_read.

Lemma rd_within d off cnt :
  is_Some (q_fd d) -> 0 <= off -> 0 <= cnt -> off + cnt <= Z.of_nat (length (q_data d)) ->
  exists f', rd (Posix.fd_lseek (q_fd d) off) cnt
             = (cnt, sub (q_data d) (Z.to_nat off) (Z.to_nat cnt), Some f')
             /\ Posix.fd_data f' = q_data d.
Proof using async_reads.
  intros [f Hf] Ho Hc Hl. unfold rd. rewrite (io_read_through _ _ _ _ async_reads).
  unfold q_data in *. rewrite Hf in *. rewrite Posix.read_at by lia. eauto.
Qed.

(** The L2 entry of a cluster that has one, as the code reads it. *)
Lemma l2_offset_bound d ci o :
  qcow2_ok d -> 0 <= ci -> l2_entry_offset d ci = Some o -> 0 <= o < 2 ^ 57.
Proof.
  intros Hok Hci H. unfold l2_entry_offset in H.
  destruct (l1 d !! _) as [e|] eqn:He; [|done]. simpl in H. injection H as <-.
  assert (0 <= e < 2 ^ 64) by (eapply Forall_lookup_1 in He; [exact He|apply (qo_l1 _ Hok)]).
  pose proof (land_bound e L1_ENTRY_OFFSET_MASK 56 ltac:(lia) ltac:(vm_compute; split; [discriminate|reflexivity]) ltac:(lia)).
  pose proof (qo_cs _ Hok).
  assert (0 < cluster_size d / 8 <= 2 ^ 18).
  { split; [apply Z.div_str_pos; lia|]. apply Z.div_le_upper_bound; lia. }
  pose proof (Z.mod_pos_bound ci (cluster_size d / 8)). split_tests; lia.
Qed.

Lemma mapping_data_bound e off :
  0 <= e -> mapping_of_l2 e = Data off ->
  ((e .& L2_ENTRY_FORMAT) =? CLUSTER_FORMAT_STANDARD) = true
  /\ truth (e .& L2_ENTRY_STD_ZEROED) = false
  /\ off = e .& L2_ENTRY_STD_OFFSET /\ 0 <= off < 2 ^ 56.
Proof.
  intros He. unfold mapping_of_l2. split_tests; try done. intros [= <-].
  split; [done|]. split; [done|]. split; [done|].
  apply land_bound; [done| |lia]. vm_compute. split; [discriminate|reflexivity].
Qed.

Lemma be64_range x : 0 <= be64 x < 2 ^ 64.
Proof.
  unfold be64. repeat (destruct x as [|? x]; [lia|]). apply u64_range.
Qed.

Lemma data_offset_nonneg d ci off : lookup_cluster d ci = Some (Data off) -> 0 <= off.
Proof.
  unfold lookup_cluster. destruct (l2_entry_offset d _); [|done]. simpl.
  destruct (_ =? 0); [done|]. destruct (_ <=? _); [|done]. intros [= Hm].
  apply mapping_data_bound in Hm; [lia|]. apply be64_range.
Qed.

Lemma cluster_index_u64 d s :
  qcow2_ok d -> 0 <= s -> (s + 1) * sect_size (q_vdisk d) < 2 ^ 64 ->
  u64 (s * sect_size (q_vdisk d)) / cluster_size d = cluster_of d s
  /\ 0 <= cluster_of d s < 2 ^ 64 - 1.
Proof.
  intros Hok Hs Hr. pose proof (qo_ss _ Hok). pose proof (qo_cs _ Hok).
  rewrite u64_small by nia. split; [done|]. unfold cluster_of.
  split; [apply Z.div_pos; nia|]. apply Z.div_lt_upper_bound; nia.
Qed.

(** The end of [qcow2_read_guest_sector], after the cache was filled. *)
Definition finish_read (s : Z) (buf : bytes) (r : vdisk_qcow2 + vdisk_qcow2)
  : option (vdisk_qcow2 * bytes) :=
  match r with
  | inl d => Some (d, buf)
  | inr d => b ← copy_sector d s buf; Some (d, b)
  end.

(** What the compressed branch uses of the state, its buffer first. *)
Definition compression (d : vdisk_qcow2) : bytes * Z * Z * Z * Z :=
  (cmp_cluster d, cluster_bits d, l2_entry_cmp_x d, l2_entry_cmp_offset_mask d,
   l2_entry_cmp_sect_cnt_mask d).

(** Only the mark of the cache and the file position have changed. *)
Definition marked (d d' : vdisk_qcow2) (ci : Z) : Prop :=
  same_image d d' /\ qcow2_ok d' /\ cluster d' = cluster d /\ prev_cluster_index d' = ci
  /\ compression d' = compression d.

Lemma marked_intro d f ci :
  qcow2_ok d -> Posix.fd_data f = q_data d -> marked d (set_q_fd (Some f) (set_prev ci d)) ci.
Proof.
  intros [] Hf. assert (Hd : q_data (set_q_fd (Some f) (set_prev ci d)) = q_data d) by exact Hf.
  split; [constructor; auto|]. split; [constructor; rewrite ?Hd; simpl; eauto|]. done.
Qed.

Lemma marked_prev d ci : qcow2_ok d -> marked d (set_prev ci d) ci.
Proof. intros []. split; [by constructor|]. split; [by constructor|]. done. Qed.

(** A cluster that is not cached, by what the tables say of it. *)
Lemma read_uncached d s buf m :
  qcow2_ok d -> 0 <= s -> (s + 1) * sect_size (q_vdisk d) < 2 ^ 64 ->
  cluster_of d s <> prev_cluster_index d -> lookup_cluster d (cluster_of d s) = Some m ->
  exists d1, marked d d1 (cluster_of d s)
  /\ match m with
     | Hole | Zeroed => qcow2_read_guest_sector d s buf = Some (d1, clear_sector d buf)
     | Compressed e => 0 <= e < 2 ^ 64
         /\ qcow2_read_guest_sector d s buf = load_compressed d1 e ≫= finish_read s buf
     | Unallocated | Data _ => exists e,
         0 <= e /\ e .& L2_ENTRY_STD_OFFSET = match m with Data off => off | _ => 0 end
         /\ qcow2_read_guest_sector d s buf = finish_read s buf (load_standard d1 e)
     end.
Proof using async_reads.
  intros Hok Hs Hr Hp Hlk. destruct (cluster_index_u64 d s Hok Hs Hr) as [Hci Hcib].
  unfold qcow2_read_guest_sector. rewrite Hci. unfold lookup_cluster in Hlk.
  destruct (l2_entry_offset d (cluster_of d s)) as [o|] eqn:Ho; [|done]. simpl in Hlk.
  pose proof (l2_offset_bound _ _ _ Hok (proj1 Hcib) Ho) as Hob.
  unfold l2_entry_offset in Ho.
  destruct (l1 d !! Z.to_nat (cluster_of d s / (cluster_size d / 8))) as [e1|] eqn:He1; [|done].
  simpl in Ho. simpl mbind. rewrite (proj2 (Z.eqb_neq _ _) Hp).
  destruct (Z.eqb_spec (e1 .& L1_ENTRY_OFFSET_MASK) 0) as [Ht|Ht].
  { injection Ho as <-. simpl in Hlk. injection Hlk as <-.
    eexists. split; [by apply marked_prev|]. reflexivity. }
  injection Ho as Ho. destruct (Z.eqb_spec o 0) as [->|Ho0].
  { assert (0 <= e1) by (eapply Forall_lookup_1 in He1; [|apply (qo_l1 _ Hok)]; simpl in He1; lia).
    assert (0 <= e1 .& L1_ENTRY_OFFSET_MASK) by (apply Z.land_nonneg; lia).
    pose proof (qo_cs _ Hok). assert (0 < cluster_size d / 8) by (apply Z.div_str_pos; lia).
    pose proof (Z.mod_pos_bound (cluster_of d s) (cluster_size d / 8)). lia. }
  destruct (Z.leb_spec (o + 8) (Z.of_nat (length (q_data d)))) as [Hl|]; [|done].
  injection Hlk as Hm. change (q_fd (set_prev (cluster_of d s) d)) with (q_fd d).
  rewrite Ho. unfold s64. rewrite signed_id by lia.
  destruct (rd_within d o 8 (qo_open _ Hok)) as (f' & -> & Hf'); [lia..|].
  simpl. exists (set_q_fd (Some f') (set_prev (cluster_of d s) d)).
  split; [by apply marked_intro|]. change (Z.to_nat 8) with 8%nat.
  pose proof (be64_range (sub (q_data d) (Z.to_nat o) 8)) as Hb.
  set (e := be64 _) in *. unfold mapping_of_l2 in Hm.
  destruct (_ =? CLUSTER_FORMAT_STANDARD);
    [|subst m; split; [done|by destruct (load_compressed _ e) as [[]|]]].
  destruct (truth _); [by subst m|].
  destruct (Z.eqb_spec (e .& L2_ENTRY_STD_OFFSET) 0); subst m; exists e; auto with lia.
Qed.

(** Loading a standard cluster that lies inside the image. *)
Lemma load_standard_ok d e :
  qcow2_ok d -> 0 <= e ->
  e .& L2_ENTRY_STD_OFFSET + cluster_size d <= Z.of_nat (length (q_data d)) ->
  exists d', load_standard d e = inr d' /\ same_image d d' /\ qcow2_ok d'
    /\ prev_cluster_index d' = prev_cluster_index d
    /\ cluster d' = sub (q_data d) (Z.to_nat (e .& L2_ENTRY_STD_OFFSET)) (Z.to_nat (cluster_size d)).
Proof using async_reads.
  intros Hok He Hl. pose proof (qo_cs _ Hok). pose proof (qo_off _ Hok).
  assert (0 <= e .& L2_ENTRY_STD_OFFSET) by (apply Z.land_nonneg; lia).
  unfold load_standard. unfold s64. rewrite signed_id by lia.
  destruct (rd_within d (e .& L2_ENTRY_STD_OFFSET) (cluster_size d) (qo_open _ Hok))
    as (f & -> & Hf); [lia..|].
  rewrite (proj2 (Z.eqb_neq _ _)) by lia. rewrite overlay_full.
  2: { rewrite length_sub by lia. pose proof (qo_cluster _ Hok). lia. }
  set (c := sub _ _ _). set (d' := set_q_fd _ _).
  assert (Hd : q_data d' = q_data d) by exact Hf.
  exists d'. destruct Hok. split; [done|]. split; [constructor; auto|].
  split; [|done]. constructor; rewrite ?Hd; simpl; eauto.
  unfold c. rewrite length_sub by lia. lia.
Qed.

(** A sector of a cluster that is in the cache, of any kind. *)
Lemma read_cached d s buf :
  qcow2_ok d -> 0 <= s -> (s + 1) * sect_size (q_vdisk d) < 2 ^ 64 ->
  cluster_of d s = prev_cluster_index d -> is_Some (lookup_cluster d (cluster_of d s)) ->
  qcow2_read_guest_sector d s buf =
  Some (d, overlay 0 (sub (cluster d) (Z.to_nat (in_cluster d s))
                        (Z.to_nat (sect_size (q_vdisk d)))) buf).
Proof.
  intros Hok Hs Hr Hp [m Hlk]. destruct (cluster_index_u64 d s Hok Hs Hr) as [Hci _].
  unfold qcow2_read_guest_sector. rewrite Hci. unfold lookup_cluster, l2_entry_offset in Hlk.
  destruct (l1 d !! Z.to_nat (cluster_of d s / (cluster_size d / 8))); [|done].
  simpl mbind. by rewrite (proj2 (Z.eqb_eq _ _) Hp), copy_sector_ok.
Qed.

(** One sector with data, whatever the cache holds. *)
Lemma read_guest_data d s buf :
  qcow2_ok d -> cache_ok d -> has_data d s ->
  exists d', qcow2_read_guest_sector d s buf =
    Some (d', overlay 0 (sector_bytes d s) buf)
    /\ qcow2_ok d' /\ cache_ok d' /\ same_image d d'.
Proof using async_reads.
  intros Hok Hc (Hs & Hr & off & Hlk & Hl).
  pose proof (in_cluster_fits _ _ Hok Hs) as Hin. pose proof (qo_ss _ Hok).
  destruct (cluster_index_u64 d s Hok Hs Hr) as [_ Hcib].
  pose proof (data_offset_nonneg _ _ _ Hlk) as Hoff.
  assert (Hsec : sector_bytes d s = sub (sub (q_data d) (Z.to_nat off) (Z.to_nat (cluster_size d)))
                   (Z.to_nat (in_cluster d s)) (Z.to_nat (sect_size (q_vdisk d)))).
  { unfold sector_bytes, guest_sector. rewrite Hlk. simpl. rewrite sub_sub by lia.
    f_equal; lia. }
  destruct (Z.eq_dec (cluster_of d s) (prev_cluster_index d)) as [Hp|Hp].
  - rewrite read_cached by eauto. exists d. split; [|auto using same_image_refl].
    destruct Hc as [Hc|(off' & Hlk' & Hcl)]; [lia|]. rewrite <- Hp, Hlk in Hlk'.
    injection Hlk' as <-. by rewrite Hcl, Hsec.
  - destruct (read_uncached d s buf _ Hok Hs Hr Hp Hlk) as (d1 & Hm & e & He & Hoe & ->).
    destruct Hm as (Hs1 & Hok1 & _ & Hp1 & _).
    destruct (load_standard_ok d1 e Hok1 He) as (d2 & -> & Hs2 & Hok2 & Hp2 & Hcl).
    { rewrite Hoe, (si_data _ _ Hs1), (si_cs _ _ Hs1). lia. }
    assert (Hsame : same_image d d2) by eauto using same_image_trans.
    simpl. rewrite copy_sector_ok by done. simpl. exists d2.
    rewrite Hoe, (si_data _ _ Hs1), (si_cs _ _ Hs1) in Hcl. split.
    + rewrite Hcl, Hsec. unfold in_cluster. by rewrite (si_vdisk _ _ Hsame), (si_cs _ _ Hsame).
    + split; [done|]. split; [|done]. right. exists off.
      rewrite (same_image_lookup _ _ _ Hsame), Hp2, Hp1, (si_data _ _ Hsame), (si_cs _ _ Hsame).
      done.
Qed.

Lemma length_sector_bytes d s :
  qcow2_ok d -> has_data d s -> length (sector_bytes d s) = Z.to_nat (sect_size (q_vdisk d)).
Proof.
  intros Hok (Hs & _ & off & Hlk & Hl). pose proof (in_cluster_fits _ _ Hok Hs).
  pose proof (data_offset_nonneg _ _ _ Hlk). pose proof (qo_ss _ Hok). unfold sector_bytes, guest_sector. rewrite Hlk. simpl. apply length_sub. lia.
Qed.

(** The sectors of a range all have data. *)
Definition q_range (d : vdisk_qcow2) (s n : Z) : Prop :=
  forall i, s <= i < s + n -> has_data d i.

Lemma same_image_sector_bytes d d' i : same_image d d' -> sector_bytes d' i = sector_bytes d i.
Proof. intros. unfold sector_bytes. by rewrite (same_image_sector d d'). Qed.

Lemma read_sectors_data n : forall d buf s,
  qcow2_ok d -> cache_ok d -> q_range d s (Z.of_nat n) ->
  (n * Z.to_nat (sect_size (q_vdisk d)) <= length buf)%nat ->
  exists d', read_sectors n d buf s =
    Some (d', overlay 0 (mjoin (map (sector_bytes d) (seqZ s (Z.of_nat n)))) buf)
    /\ qcow2_ok d' /\ cache_ok d' /\ same_image d d'.
Proof using async_reads.
  induction n as [|n IH]; intros d buf s Hok Hc Hr Hl.
  { exists d. simpl. rewrite overlay_0. auto using same_image_refl. }
  assert (Hd : has_data d s) by (apply Hr; lia).
  assert (0 <= s < 2 ^ 64).
  { destruct Hd as (Hs & Hb & _). pose proof (qo_ss _ Hok) as Hss.
    pose proof (Z.le_mul_diag_r (s + 1) (sect_size (q_vdisk d)) ltac:(lia)) as Hle.
    apply proj2 in Hle. lia. }
  cbn [read_sectors]. rewrite u64_small by lia.
  destruct (read_guest_data d s buf Hok Hc Hd) as (d1 & -> & Hok1 & Hc1 & Hs1). simpl mbind.
  pose proof (length_sector_bytes d s Hok Hd) as Hlen. rewrite overlay_0, <- Hlen.
  rewrite drop_app_length, take_app_length.
  destruct (IH d1 (drop (length (sector_bytes d s)) buf) (s + 1) Hok1 Hc1)
    as (d2 & -> & Hok2 & Hc2 & Hs2).
  { intros i Hi. eapply same_image_has_data; [done|]. apply Hr. lia. }
  { rewrite length_drop, (si_vdisk _ _ Hs1). lia. }
  cbn [mbind option_bind]. exists d2. split; [|eauto using same_image_trans].
  rewrite (seqZ_cons s) by lia. rewrite Nat2Z.inj_succ, Z.pred_succ. cbn [map].
  change (mjoin (?x :: ?l)) with (x ++ mjoin l). rewrite !overlay_0, length_app, <- drop_drop.
  rewrite (map_ext _ _ (fun i => same_image_sector_bytes d d1 i Hs1)), <- app_assoc.
  by rewrite Z.add_1_r.
Qed.

(** A qcow2 image fulfils the contract on the ranges that have data. *)
Program Instance qcow2_readable : ReadableDisk vdisk_qcow2 := {|
  rd_read := vdisk_qcow2_read;
  rd_size d := Z.to_nat (sect_size (q_vdisk d));
  rd_sector := sector_bytes;
  rd_ok d := qcow2_ok d /\ cache_ok d;
  rd_range := q_range |}.
Next Obligation. intros d s [Hok _] Hr. apply length_sector_bytes; [done|]. apply Hr. lia. Qed.
Next Obligation.
  intros d s n m _ Hn Hm Hr. split; intros i Hi; apply Hr; lia.
Qed.
Next Obligation.
  intros d buf s n [Hok Hc] Hn Hr Hl.
  destruct (read_sectors_data (Z.to_nat n) d buf s) as (d' & Hrd & Hok' & Hc' & Hs);
    rewrite ?Z2Nat.id by lia; auto.
  exists d'. unfold vdisk_qcow2_read. rewrite Hrd, Z2Nat.id by lia. split; [done|].
  split; [done|]. split; [by rewrite (si_vdisk _ _ Hs)|].
  split; [intros i; by apply same_image_sector_bytes|].
  intros i k Hik j Hj. eapply same_image_has_data; [done|]. by apply Hik.
Qed.
End qcow2.

(** ** Opening an image *)

(** What [vdisk_init_qcow2] demands of a header. *)
Definition valid_header (h : bytes) : bool :=
  bool_decide (h_magic h = QCOW2_MAGIC) && (h_version h =? 3)
  && (9 <=? h_cluster_bits h) && (h_cluster_bits h <=? 21)
  && (h_crypt_method h =? 0) && (h_incompatible_features h =? 0)
  && (4 <=? h_refcount_order h) && (h_refcount_order h <=? 6).

(** The fields computed from [cluster_bits]. *)
Record geometry (d : vdisk_qcow2) : Prop := {
  ge_bits : 9 <= cluster_bits d <= 21;
  ge_cs : cluster_size d = 2 ^ cluster_bits d;
  ge_x : l2_entry_cmp_x d = 70 - cluster_bits d;
  ge_off : l2_entry_cmp_offset_mask d = Z.ones (l2_entry_cmp_x d);
  ge_cnt : l2_entry_cmp_sect_cnt_mask d = Z.lxor (Z.ones 62) (l2_entry_cmp_offset_mask d) }.

Lemma be32_range x : 0 <= be32 x < 2 ^ 32.
Proof. unfold be32. repeat (destruct x as [|? x]; [lia|]). apply u32_range. Qed.

Lemma pow2_divides_cluster a b : 0 <= a <= b -> 2 ^ b = 2 ^ (b - a) * 2 ^ a.
Proof. intros. rewrite <- Z.pow_add_r by lia. f_equal. lia. Qed.

Lemma sect_size_pow fname : exists a, 9 <= a <= 12 /\ sect_size_of_name fname = 2 ^ a.
Proof.
  unfold sect_size_of_name. destruct (_ || _); [exists 12; done|].
  destruct (_ || _); [exists 11|exists 9]; done.
Qed.

(** [sector_idx_mask] for a sector that is not larger than a cluster. *)
Lemma idx_mask_ok a cb :
  0 <= a <= cb -> cb <= 21 ->
  exists k, 0 <= k /\ 2 ^ cb = 2 ^ k * 2 ^ a /\ u64 (2 ^ cb / 2 ^ a - 1) = 2 ^ k - 1.
Proof.
  intros Ha Hcb. exists (cb - a). pose proof (pow2_divides_cluster a cb ltac:(lia)) as Hp.
  split; [lia|]. split; [done|]. rewrite Hp, Z.div_mul by (pose proof (Z.pow_pos_nonneg 2 a); lia).
  apply u64_small. pose proof (Z.pow_pos_nonneg 2 (cb - a)).
  pose proof (Z.pow_le_mono_r 2 (cb - a) 21). lia.
Qed.

Section opening.
Context (running : Z) (io_async_read : option Posix.fdesc -> Z -> Z * bytes * option Posix.fdesc).
Context (alloc : Z -> option bytes) (stack : bytes).
Hypothesis async_reads : reads_through running io_async_read.
Hypothesis alloc_ok : forall n, 0 <= n -> exists b, alloc n = Some b /\ Z.of_nat (length b) = n.

(** The image as [open] gives it: at the start, shorter than off_t. *)
Record image_open (open : string -> Z * option Posix.fdesc) (fname : string) (data : bytes) : Prop := {
  im_open : exists fd w, fd <> -1 /\ open fname = (fd, Some (Posix.Fdesc data 0 w));
  im_len : Z.of_nat (length data) < 2 ^ 62;
  im_header : (HEADER_SIZE <= length data)%nat;
  im_stack : length stack = HEADER_SIZE }.

(** The L1 table of the header lies in the image. *)
Definition l1_inside (data : bytes) : Prop :=
  0 < h_l1_size (sub data 0 HEADER_SIZE) < 2 ^ 29
  /\ h_l1_table_offset (sub data 0 HEADER_SIZE) + h_l1_size (sub data 0 HEADER_SIZE) * 8
     <= Z.of_nat (length data).

Lemma io_read_reads f c : io_read io_async_read running f c = Posix.fd_read f c.
Proof using async_reads. by apply io_read_through. Qed.

(** The start of [vdisk_init_qcow2]: the header is read. *)
Lemma init_reads_header open fname data :
  image_open open fname data ->
  exists f, Posix.fd_data f = data /\
  vdisk_init_qcow2 running io_async_read true alloc stack open fname =
  match check_header (sub data 0 HEADER_SIZE) with
  | Some e => Some (inl e)
  | None => init_tables running io_async_read alloc (Some f) (sect_size_of_name fname)
              (sub data 0 HEADER_SIZE)
  end.
Proof using async_reads.
  intros [(fd & w & Hfd & Ho) Hl Hh Hst]. unfold vdisk_init_qcow2.
  rewrite Ho, (proj2 (Z.eqb_neq _ _) Hfd), io_read_reads. cbn -[HEADER_SIZE].
  rewrite Nat2Z.id.
  change (take HEADER_SIZE (drop (Z.to_nat 0) data)) with (sub data 0 HEADER_SIZE).
  rewrite length_sub by lia. rewrite overlay_full by (rewrite length_sub; lia).
  eexists (Posix.Fdesc data _ w). split; [done|]. reflexivity.
Qed.

Lemma check_header_valid h : check_header h = None <-> valid_header h = true.
Proof.
  unfold check_header, valid_header, truth.
  destruct (bool_decide _), (h_version h =? 3); try done. cbn [negb andb].
  destruct (Z.ltb_spec (h_cluster_bits h) 9), (Z.leb_spec 9 (h_cluster_bits h)); try done; try lia.
  destruct (Z.ltb_spec 21 (h_cluster_bits h)), (Z.leb_spec (h_cluster_bits h) 21); try done; try lia.
  destruct (h_crypt_method h =? 0), (h_incompatible_features h =? 0); try done. cbn.
  destruct (Z.ltb_spec (h_refcount_order h) 4), (Z.leb_spec 4 (h_refcount_order h)); try done; try lia.
  destruct (Z.ltb_spec 6 (h_refcount_order h)), (Z.leb_spec (h_refcount_order h) 6); try done; lia.
Qed.

(** The L1 table in host order. *)
Definition l1_of_image (data : bytes) : list Z :=
  let h := sub data 0 HEADER_SIZE in
  map (fun i => be64 (sub data (Z.to_nat (h_l1_table_offset h) + i * 8) 8))
      (seq 0 (Z.to_nat (h_l1_size h))).

Lemma l1_entries_of_image data off n l1buf :
  (off + n * 8 <= length data)%nat -> length l1buf = (n * 8)%nat ->
  l1_entries_of n (overlay 0 (sub data off (n * 8)) l1buf)
  = map (fun i => be64 (sub data (off + i * 8) 8)) (seq 0 n).
Proof.
  intros Hd Hl. rewrite overlay_full by (rewrite length_sub; lia).
  unfold l1_entries_of. apply map_ext_in. intros i Hi%in_seq. by rewrite sub_sub by lia.
Qed.

(** [lseek] then [read], wherever the file ends. *)
Lemma read_from f off count : 0 <= off ->
  Posix.fd_read (Posix.fd_lseek (Some f) off) count =
  (let g := sub (Posix.fd_data f) (Z.to_nat off) (Z.to_nat count) in
   (Z.of_nat (length g), g, Some (Posix.Fdesc (Posix.fd_data f) (off + Z.of_nat (length g)) (Posix.fd_writable f)))).
Proof. intros Ho. cbn -[Z.leb]. unfold Posix.lseek_set. by rewrite (proj2 (Z.leb_le _ _)) by lia. Qed.

(** A table of the usual size at an offset lseek takes: refused when no byte of it is
    in the file, used otherwise. *)
Definition l1_usual (data : bytes) : Prop :=
  h_l1_size (sub data 0 HEADER_SIZE) < 2 ^ 29 /\ h_l1_table_offset (sub data 0 HEADER_SIZE) < 2 ^ 63.

Definition l1_missing (data : bytes) : bool :=
  (h_l1_size (sub data 0 HEADER_SIZE) =? 0) || (Z.of_nat (length data) <=? h_l1_table_offset (sub data 0 HEADER_SIZE)).

Lemma init_tables_cases f ss :
  let data := Posix.fd_data f in let h := sub data 0 HEADER_SIZE in
  l1_usual data -> 9 <= h_cluster_bits h <= 21 ->
  if l1_missing data then init_tables running io_async_read alloc (Some f) ss h = Some (inl CantRead)
  else exists d l1buf, init_tables running io_async_read alloc (Some f) ss h = Some (inr d)
    /\ geometry d /\ q_vdisk d = Vdisk ss (h_size h / ss) 0 0
    /\ cluster_bits d = h_cluster_bits h
    /\ q_data d = data /\ is_Some (q_fd d) /\ prev_cluster_index d = 2 ^ 64 - 1
    /\ Z.of_nat (length (cluster d)) = cluster_size d
    /\ Z.of_nat (length (cmp_cluster d)) = 2 * cluster_size d
    /\ sector_idx_mask d = u64 (cluster_size d / ss - 1)
    /\ length l1buf = (Z.to_nat (h_l1_size h) * 8)%nat
    /\ l1 d = l1_entries_of (Z.to_nat (h_l1_size h))
                (overlay 0 (sub data (Z.to_nat (h_l1_table_offset h)) (Z.to_nat (h_l1_size h) * 8)) l1buf).
Proof using async_reads alloc_ok.
  intros data h [Hn Hoff] Hcb. fold h in Hn, Hoff. unfold init_tables, l1_missing. fold h.
  rewrite !Z.shiftl_mul_pow2, !Z.mul_1_l by lia.
  pose proof (Z.pow_pos_nonneg 2 (h_cluster_bits h)). pose proof (Z.pow_le_mono_r 2 (h_cluster_bits h) 21).
  assert (Hl1 : 0 <= h_l1_size h) by apply be32_range.
  assert (0 <= h_l1_table_offset h) by (unfold h_l1_table_offset; apply be64_range).
  rewrite !(u32_small (_ * _)) by lia.
  destruct (alloc_ok (2 ^ h_cluster_bits h)) as (cl & -> & Hcl); [lia|].
  destruct (alloc_ok (2 ^ h_cluster_bits h * 2)) as (cmp & -> & Hcmp); [lia|].
  destruct (alloc_ok (h_l1_size h * 8)) as (l1buf & -> & Hbuf); [lia|].
  unfold s64. rewrite io_read_reads, signed_id, read_from by lia. cbv zeta. fold data.
  replace (Z.to_nat (h_l1_size h * 8)) with (Z.to_nat (h_l1_size h) * 8)%nat by lia.
  assert (Hg : length (sub data (Z.to_nat (h_l1_table_offset h)) (Z.to_nat (h_l1_size h) * 8))
    = ((Z.to_nat (h_l1_size h) * 8) `min` (length data - Z.to_nat (h_l1_table_offset h)))%nat)
    by (unfold sub; by rewrite length_take, length_drop).
  destruct (Z.eqb_spec (h_l1_size h) 0) as [E0|E0]; cbn [orb]; [by rewrite (proj2 (Z.eqb_eq _ _)) by (rewrite Hg, E0; cbn; lia)|].
  destruct (Z.leb_spec (Z.of_nat (length data)) (h_l1_table_offset h)); [by rewrite (proj2 (Z.eqb_eq _ _)) by lia|].
  rewrite (proj2 (Z.eqb_neq _ _)), (proj2 (Z.ltb_ge _ _)) by lia.
  eexists _, l1buf. split; [reflexivity|]. repeat split; simpl; try lia; eauto. rewrite Z.ones_equiv. lia.
Qed.

Lemma init_tables_ok f ss :
  let h := sub (Posix.fd_data f) 0 HEADER_SIZE in
  l1_inside (Posix.fd_data f) -> Z.of_nat (length (Posix.fd_data f)) < 2 ^ 62 ->
  9 <= h_cluster_bits h <= 21 ->
  exists d, init_tables running io_async_read alloc (Some f) ss h = Some (inr d)
    /\ geometry d /\ q_vdisk d = Vdisk ss (h_size h / ss) 0 0
    /\ cluster_bits d = h_cluster_bits h
    /\ q_data d = Posix.fd_data f /\ is_Some (q_fd d)
    /\ l1 d = l1_of_image (Posix.fd_data f) /\ prev_cluster_index d = 2 ^ 64 - 1
    /\ Z.of_nat (length (cluster d)) = cluster_size d
    /\ Z.of_nat (length (cmp_cluster d)) = 2 * cluster_size d
    /\ sector_idx_mask d = u64 (cluster_size d / ss - 1).
Proof using async_reads alloc_ok.
  intros h [Hn Hin] Hlen Hcb. fold h in Hn, Hin. assert (0 <= h_l1_table_offset h) by (unfold h_l1_table_offset; apply be64_range).
  pose proof (init_tables_cases f ss) as H'. cbv zeta in H'. fold h in H'. unfold l1_usual, l1_missing in H'. fold h in H'.
  rewrite (proj2 (Z.eqb_neq _ _)), (proj2 (Z.leb_gt _ _)) in H' by lia. cbn [orb] in H'.
  destruct H' as (d & l1buf & E & Hg & Hv & Hb & Hd & Hf & Hp & Hc & Hm & Hx & Hl & Hl1); [lia|done|].
  exists d. split_and!; try done. rewrite Hl1. apply l1_entries_of_image; [lia|done].
Qed.

(** A valid image opens, with the invariant of an open disk. *)
Lemma init_opens open fname data :
  let h := sub data 0 HEADER_SIZE in
  image_open open fname data -> l1_inside data -> valid_header h = true ->
  exists d, vdisk_init_qcow2 running io_async_read true alloc stack open fname = Some (inr d)
    /\ geometry d /\ prev_cluster_index d = 2 ^ 64 - 1
    /\ q_vdisk d = Vdisk (sect_size_of_name fname) (h_size h / sect_size_of_name fname) 0 0
    /\ q_data d = data /\ l1 d = l1_of_image data /\ cluster_bits d = h_cluster_bits h
    /\ Z.of_nat (length (cmp_cluster d)) = 2 * cluster_size d
    /\ (sect_size_of_name fname <= 2 ^ h_cluster_bits h -> qcow2_ok d).
Proof using async_reads alloc_ok.
  intros h Him Hin Hv. destruct (init_reads_header open fname data Him) as (f & Hf & ->).
  fold h. rewrite (proj2 (check_header_valid h) Hv).
  assert (Hcb : 9 <= h_cluster_bits h <= 21).
  { unfold valid_header in Hv. rewrite !andb_true_iff in Hv. lia. }
  subst data. destruct (init_tables_ok f (sect_size_of_name fname) Hin (im_len _ _ _ Him) Hcb)
    as (d & Hi & Hg & Hvd & Hb & Hd & Ho & Hl1 & Hp & Hcl & Hcmp & Hm).
  exists d. do 8 (split; [done|]). intros Hss. destruct (sect_size_pow fname) as (a & Ha & Hsp).
  fold h in Hb. pose proof (ge_cs _ Hg) as Hcs. rewrite Hb in Hcs.
  assert (a <= h_cluster_bits h) by (rewrite Hsp in Hss; apply Z.pow_le_mono_r_iff in Hss; lia).
  constructor; rewrite ?Hvd, ?Hd, ?Hl1; simpl; auto.
  - rewrite Hsp. apply Z.pow_pos_nonneg; lia.
  - rewrite Hcs. pose proof (Z.pow_le_mono_r 2 9 (h_cluster_bits h)).
    pose proof (Z.pow_le_mono_r 2 (h_cluster_bits h) 21). lia.
  - rewrite Hm, Hcs, Hsp. apply idx_mask_ok; lia.
  - apply (im_len _ _ _ Him).
  - apply Forall_map, List.Forall_forall. intros. apply be64_range.
Qed.
End opening.

(** ** Compressed clusters *)

(** The two fields of a compressed entry share no bit and fill 62 bits. *)
Lemma cmp_masks_partition d :
  geometry d ->
  l2_entry_cmp_offset_mask d .& l2_entry_cmp_sect_cnt_mask d = 0
  /\ l2_entry_cmp_offset_mask d .| l2_entry_cmp_sect_cnt_mask d = Z.ones 62.
Proof.
  intros Hg. pose proof (ge_bits _ Hg) as Hb. rewrite (ge_cnt _ Hg), (ge_off _ Hg), (ge_x _ Hg).
  split; apply Z.bits_inj'; intros i Hi;
    rewrite ?Z.land_spec, ?Z.lor_spec, ?Z.lxor_spec, ?Z.bits_0, !Z.testbit_ones_nonneg by lia;
    destruct (Z.ltb_spec i 62), (Z.ltb_spec i (70 - cluster_bits d)); simpl; try done; lia.
Qed.

(** The sector count of a compressed entry, below 2^(cluster_bits - 8). *)
Lemma additional_sectors_bound d e :
  geometry d -> 0 <= e ->
  0 <= (e .& l2_entry_cmp_sect_cnt_mask d) >> l2_entry_cmp_x d < 2 ^ (cluster_bits d - 8).
Proof.
  intros Hg He. pose proof (ge_bits _ Hg). pose proof (ge_x _ Hg) as Hx.
  rewrite Z.shiftr_div_pow2 by lia. rewrite Hx.
  assert (Hm : 0 <= l2_entry_cmp_sect_cnt_mask d < 2 ^ 62).
  { rewrite (ge_cnt _ Hg), (ge_off _ Hg).
    assert (0 <= Z.ones 62 .^ Z.ones (l2_entry_cmp_x d)).
    { apply Z.lxor_nonneg. rewrite !Z.ones_equiv. pose proof (Z.pow_pos_nonneg 2 (l2_entry_cmp_x d)). lia. }
    split; [done|]. apply Z.bounded_iff_bits_nonneg; [lia|done|]. intros i Hi.
    rewrite Z.lxor_spec, !Z.testbit_ones_nonneg by lia.
    by rewrite !(proj2 (Z.ltb_ge _ _)) by lia. }
  pose proof (land_bound e _ 62 He Hm ltac:(lia)). split.
  - apply Z.div_pos; [lia|]. apply Z.pow_pos_nonneg; lia.
  - apply Z.div_lt_upper_bound; [apply Z.pow_pos_nonneg; lia|].
    rewrite <- Z.pow_add_r by lia. replace (70 - cluster_bits d + (cluster_bits d - 8)) with 62 by lia.
    lia.
Qed.

Lemma length_cmp_bound d :
  geometry d -> 2 ^ (cluster_bits d - 8) * 512 = 2 * cluster_size d.
Proof.
  intros Hg. pose proof (ge_bits _ Hg). rewrite (ge_cs _ Hg). change 512 with (2 ^ 9).
  rewrite <- Z.pow_add_r, <- Z.pow_succ_r by lia. f_equal. lia.
Qed.

(** The sector size of a disk is the one its name asks for. *)
Lemma init_sect_size running async calloc alloc stack open fname d :
  vdisk_init_qcow2 running async calloc alloc stack open fname = Some (inr d) ->
  sect_size (q_vdisk d) = sect_size_of_name fname.
Proof.
  unfold vdisk_init_qcow2. destruct (negb calloc); [done|]. destruct (open fname) as [fd f].
  destruct (fd =? -1); [done|]. destruct (io_read _ _ _ _) as [[n got] f1].
  destruct (n =? 0); [done|]. destruct (check_header _); [done|]. unfold init_tables.
  do 3 (destruct (alloc _); [|done]). destruct (io_read _ _ _ _) as [[n2 got2] f2].
  destruct (n2 =? 0); [done|]. destruct (_ <? _); [done|]. by intros [= <-].
Qed.

(** ** Claims *)

(** C18: what [vdisk_init_qcow2] does with every image whose L1 table has fewer than 2^29
    entries at an offset below 2^63 (allocations succeeding, reads having the effect
    of read).  A header that lacks the magic, version 3, cluster_bits in 9..21, no
    encryption, no incompatible feature or refcount_order in 4..6 is refused with the
    first failing check; one whose L1 table is empty or begins behind the end of the
    file is refused too; every other image is accepted, with the geometry of the
    header and an empty cache, and with the L1 table of the file in host order when
    all of it is in the file. *)
Theorem qcow2_init_accepts running async alloc stack open fname data :
  reads_through running async ->
  (forall n, 0 <= n -> exists b, alloc n = Some b /\ Z.of_nat (length b) = n) ->
  image_open stack open fname data -> l1_usual data ->
  let h := sub data 0 HEADER_SIZE in
  if negb (valid_header h) then
    exists e, vdisk_init_qcow2 running async true alloc stack open fname = Some (inl e) /\ check_header h = Some e
  else if l1_missing data then vdisk_init_qcow2 running async true alloc stack open fname = Some (inl CantRead)
  else
    exists d, vdisk_init_qcow2 running async true alloc stack open fname = Some (inr d)
      /\ geometry d /\ cluster_bits d = h_cluster_bits h /\ q_data d = data
      /\ (l1_inside data -> l1 d = l1_of_image data) /\ prev_cluster_index d = UINT64_MAX
      /\ q_vdisk d = Vdisk (sect_size_of_name fname) (h_size h / sect_size_of_name fname) 0 0.
Proof.
  intros Ha Hal Him Hu h. destruct (init_reads_header running async alloc stack Ha open fname data Him) as (f & Hf & E). fold h in E.
  destruct (valid_header h) eqn:Hv; cbn [negb].
  - rewrite (proj2 (check_header_valid h) Hv) in E. assert (Hcb : 9 <= h_cluster_bits h <= 21).
    { unfold valid_header in Hv. rewrite !andb_true_iff in Hv. lia. }
    pose proof (init_tables_cases running async alloc Ha Hal f (sect_size_of_name fname)) as H. cbv zeta in H. rewrite Hf in H. fold h in H.
    specialize (H Hu Hcb). rewrite E. destruct (l1_missing data); [exact H|].
    destruct H as (d & l1buf & Ed & Hg & Hq & Hb & Hd & _ & Hp & _ & _ & _ & Hl & Hl1). exists d. split_and!; try done.
    intros [Hn Hin]. fold h in Hn, Hin. rewrite Hl1. assert (0 <= h_l1_table_offset h) by (unfold h_l1_table_offset; apply be64_range).
    apply l1_entries_of_image; [lia|done].
  - rewrite E. destruct (check_header h) as [e|] eqn:He; [eauto|]. apply check_header_valid in He. congruence.
Qed.

(** One range of sectors, for every state of the driver whose cache holds the cluster it
    says. *)
Lemma read_range running async d buf s n :
  reads_through running async ->
  qcow2_ok d -> cache_ok d -> 0 <= n -> q_range d s n ->
  (Z.to_nat n * Z.to_nat (sect_size (q_vdisk d)) <= length buf)%nat ->
  exists d', vdisk_qcow2_read running async d buf s n =
    Some (KOS_ERROR_SUCCESS, overlay 0 (mjoin (map (sector_bytes d) (seqZ s n))) buf, d')
    /\ qcow2_ok d' /\ cache_ok d' /\ same_image d d'.
Proof.
  intros Ha Hok Hc Hn Hr Hl.
  destruct (read_sectors_data running async Ha (Z.to_nat n) d buf s) as (d' & Hrd & H);
    rewrite ?Z2Nat.id by lia; auto.
  exists d'. unfold vdisk_qcow2_read. rewrite Hrd, Z2Nat.id by lia. done.
Qed.

(** A sequence of reads, each of [snd r] sectors from [fst r] on into a buffer of its own. *)
Fixpoint read_ranges (running : Z) (async : option Posix.fdesc -> Z -> Z * bytes * option Posix.fdesc) (d : vdisk_qcow2) (rs : list (Z * Z)) :
    option (list (Z * bytes) * vdisk_qcow2) :=
  match rs with
  | [] => Some ([], d)
  | (s, n) :: rs =>
      '(err, buf, d) ← vdisk_qcow2_read running async d (zeroes (Z.to_nat n * Z.to_nat (sect_size (q_vdisk d)))) s n;
      '(bufs, d) ← read_ranges running async d rs;
      Some ((err, buf) :: bufs, d)
  end.

Definition guest_range (d : vdisk_qcow2) (r : Z * Z) : bytes := mjoin (map (sector_bytes d) (seqZ (fst r) (snd r))).

Lemma length_guest_range d s n : qcow2_ok d -> 0 <= n -> q_range d s n ->
  length (guest_range d (s, n)) = (Z.to_nat n * Z.to_nat (sect_size (q_vdisk d)))%nat.
Proof.
  intros Hok Hn. unfold guest_range. cbn [fst snd]. rewrite <- (Z2Nat.id n) at 1 2 by lia. generalize (Z.to_nat n) as k. clear n Hn. intros k.
  revert s. induction k as [|k IH]; intros s Hr; [done|]. rewrite (seqZ_cons s) by lia. rewrite Nat2Z.inj_succ, Z.pred_succ. cbn [map].
  change (mjoin (?x :: ?l)) with (x ++ mjoin l). rewrite length_app, length_sector_bytes, <- Z.add_1_r, IH; [lia| |done|].
  - intros i Hi. apply Hr. lia.
  - apply Hr. lia.
Qed.

Lemma read_ranges_ok running async rs : reads_through running async -> forall d,
  qcow2_ok d -> cache_ok d -> Forall (fun r => 0 <= snd r /\ q_range d (fst r) (snd r)) rs ->
  exists d', read_ranges running async d rs = Some (map (fun r => (KOS_ERROR_SUCCESS, guest_range d r)) rs, d').
Proof.
  intros Ha. induction rs as [|[s n] rs IH]; intros d Hok Hc Hrs; [by exists d|]. apply Forall_cons_1 in Hrs as [[Hn Hr] Hrs]. cbn [fst snd] in *.
  cbn [read_ranges]. destruct (read_range running async d (zeroes (Z.to_nat n * Z.to_nat (sect_size (q_vdisk d)))) s n Ha Hok Hc Hn Hr)
    as (d1 & -> & Hok1 & Hc1 & Hs1); [unfold zeroes; by rewrite length_replicate|]. cbn [mbind option_bind].
  destruct (IH d1 Hok1 Hc1) as (d2 & ->).
  { eapply Forall_impl; [|exact Hrs]. intros [s' n'] [Hn' Hr']. split; [done|]. intros i Hi. eapply same_image_has_data; [done|]. by apply Hr'. }
  cbn [mbind option_bind map]. exists d2. do 3 f_equal.
  - f_equal. rewrite overlay_0, drop_ge, app_nil_r; [done|]. unfold zeroes. rewrite length_replicate. change (mjoin (map (sector_bytes d) (seqZ s n))) with (guest_range d (s, n)). by rewrite length_guest_range.
  - apply map_ext. intros [s' n']. unfold guest_range. do 2 f_equal. apply map_ext. intros i. by apply same_image_sector_bytes.
Qed.

(** C6: an image with a valid header, whose L1 table is in the file and whose clusters are no
    smaller than a sector, is opened, and every sequence of reads of the disk then
    succeeds and fills each buffer with exactly the guest sectors the L1 and L2 tables
    of the file describe, in any order and however often, as long as the clusters
    of the ranges are standard ones, allocated inside the file.  Memory is assumed
    to be there, and reads to have the effect of read. *)
Theorem qcow2_read_refines running async alloc stack open fname data rs :
  reads_through running async ->
  (forall n, 0 <= n -> exists b, alloc n = Some b /\ Z.of_nat (length b) = n) ->
  image_open stack open fname data -> l1_inside data ->
  valid_header (sub data 0 HEADER_SIZE) = true ->
  sect_size_of_name fname <= 2 ^ h_cluster_bits (sub data 0 HEADER_SIZE) ->
  exists d, vdisk_init_qcow2 running async true alloc stack open fname = Some (inr d)
    /\ q_data d = data /\ l1 d = l1_of_image data /\ sect_size (q_vdisk d) = sect_size_of_name fname
    /\ (Forall (fun r => 0 <= snd r /\ q_range d (fst r) (snd r)) rs ->
        exists d', read_ranges running async d rs = Some (map (fun r => (KOS_ERROR_SUCCESS, guest_range d r)) rs, d')).
Proof.
  intros Ha Hal Him Hin Hv Hss.
  destruct (init_opens running async alloc stack Ha Hal open fname data Him Hin Hv) as (d & E & _ & Hp & Hq & Hd & Hl1 & _ & _ & Hok).
  exists d. split_and!; try done; [by rewrite Hq|]. intros Hrs. apply read_ranges_ok; auto. by left.
Qed.

(** The first sector read from a cluster without data (no L2 table, or the
    zero flag) is zeros, but the cluster is then marked as the cached one
    although nothing was loaded: every later sector of the same cluster, up to
    a read of another cluster, returns the bytes [cluster] happened to hold. *)
Theorem qcow2_hole_then_stale running async d s s' buf buf' m :
  reads_through running async ->
  qcow2_ok d -> 0 <= s -> 0 <= s' ->
  (s + 1) * sect_size (q_vdisk d) < 2 ^ 64 -> (s' + 1) * sect_size (q_vdisk d) < 2 ^ 64 ->
  cluster_of d s <> prev_cluster_index d -> cluster_of d s' = cluster_of d s ->
  lookup_cluster d (cluster_of d s) = Some m -> m = Hole \/ m = Zeroed ->
  exists d', qcow2_read_guest_sector running async d s buf =
      Some (d', overlay 0 (zeroes (Z.to_nat (sect_size (q_vdisk d)))) buf)
    /\ qcow2_read_guest_sector running async d' s' buf' =
      Some (d', overlay 0 (sub (cluster d) (Z.to_nat (in_cluster d s'))
                             (Z.to_nat (sect_size (q_vdisk d)))) buf').
Proof.
  intros Ha Hok Hs Hs' Hr Hr' Hp Heq Hlk Hm.
  destruct (read_uncached running async Ha d s buf m Hok Hs Hr Hp Hlk)
    as (d1 & (Hsame & Hok1 & Hcl & Hp1 & _) & Hrd).
  pose proof (si_vdisk _ _ Hsame) as Hv. pose proof (si_cs _ _ Hsame) as Hcs.
  exists d1. split; [by destruct Hm as [-> | ->]|].
  rewrite read_cached; unfold cluster_of, in_cluster in *; rewrite ?Hv, ?Hcs, ?Hcl; auto.
  - congruence.
  - rewrite (same_image_lookup _ _ _ Hsame), Heq, Hlk. eauto.
Qed.

(** A standard L2 entry whose host offset is 0 stands for a cluster that
    was never allocated, but the code does not test for it: the sector is
    taken from offset 0 of the file, so the guest sees the image header. *)
Theorem qcow2_unallocated_reads_header running async d s buf :
  reads_through running async ->
  qcow2_ok d -> 0 <= s -> (s + 1) * sect_size (q_vdisk d) < 2 ^ 64 ->
  cluster_of d s <> prev_cluster_index d ->
  lookup_cluster d (cluster_of d s) = Some Unallocated ->
  cluster_size d <= Z.of_nat (length (q_data d)) ->
  exists d', qcow2_read_guest_sector running async d s buf =
    Some (d', overlay 0 (sub (q_data d) (Z.to_nat (in_cluster d s))
                           (Z.to_nat (sect_size (q_vdisk d)))) buf).
Proof.
  intros Ha Hok Hs Hr Hp Hlk Hl. pose proof (in_cluster_fits _ _ Hok Hs). pose proof (qo_ss _ Hok).
  destruct (read_uncached running async Ha d s buf _ Hok Hs Hr Hp Hlk)
    as (d1 & (Hs1 & Hok1 & _ & _) & e & He & Hoe & ->).
  destruct (load_standard_ok running async Ha d1 e Hok1 He) as (d2 & -> & Hs2 & Hok2 & _ & Hcl).
  { rewrite Hoe, (si_data _ _ Hs1), (si_cs _ _ Hs1). lia. }
  pose proof (same_image_trans _ _ _ Hs1 Hs2) as Hsame.
  simpl. rewrite copy_sector_ok by done. simpl. exists d2.
  rewrite Hcl, Hoe, (si_data _ _ Hs1), (si_cs _ _ Hs1).
  unfold in_cluster in *. rewrite (si_vdisk _ _ Hsame), (si_cs _ _ Hsame).
  by rewrite sub_sub by lia.
Qed.

Lemma compressed_size_bounds d e :
  geometry d -> 0 <= e < 2 ^ 64 ->
  1 <= compressed_size d e <= 2 * cluster_size d
  /\ compressed_size d e =
     512 - (l2_entry_cmp_offset_mask d .& e) mod 512
     + ((e .& l2_entry_cmp_sect_cnt_mask d) >> l2_entry_cmp_x d) * 512.
Proof.
  intros Hg He. pose proof (additional_sectors_bound d e Hg ltac:(lia)) as Ha.
  pose proof (length_cmp_bound d Hg) as Hl. pose proof (ge_bits _ Hg).
  pose proof (Z.pow_le_mono_r 2 (cluster_bits d - 8) 13).
  unfold compressed_size. rewrite (u32_small (_ >> _)) by lia.
  change 511 with (Z.ones 9). rewrite Z.land_ones by lia. change (2 ^ 9) with 512.
  pose proof (Z.mod_pos_bound (l2_entry_cmp_offset_mask d .& e) 512).
  rewrite u32_small by lia. lia.
Qed.

(** The room em_inflate is given in [cmp_cluster] for a compressed cluster is
    at least one byte and never more than the two clusters allocated for it,
    for every entry; no 32-bit wrap occurs on the way. *)
Theorem qcow2_compressed_fits d e :
  geometry d -> 0 <= e < 2 ^ 64 ->
  1 <= compressed_size d e <= 2 * cluster_size d
  /\ compressed_size d e =
     512 - (l2_entry_cmp_offset_mask d .& e) mod 512
     + ((e .& l2_entry_cmp_sect_cnt_mask d) >> l2_entry_cmp_x d) * 512.
Proof. exact (compressed_size_bounds d e). Qed.

(** Loading a compressed cluster runs em_inflate on the bytes of the cache, so
    the cache keeps them; the inflated bytes land in [cmp_cluster]. *)
Lemma load_compressed_keeps running async d e :
  reads_through running async ->
  qcow2_ok d -> geometry d -> 0 <= e < 2 ^ 64 -> bytes_ok (cluster d) ->
  Z.of_nat (length (cmp_cluster d)) = 2 * cluster_size d ->
  (l2_entry_cmp_offset_mask d .& e) + cluster_size d <= Z.of_nat (length (q_data d)) ->
  load_compressed running async d e = None
  \/ exists d', load_compressed running async d e = Some (inr d')
       /\ cluster d' = cluster d /\ same_image d d' /\ qcow2_ok d'.
Proof.
  intros Ha Hok Hg He Hb Hlc Hl. pose proof (qo_cs _ Hok). pose proof (qo_off _ Hok).
  assert (Hoff : 0 <= l2_entry_cmp_offset_mask d .& e) by (apply Z.land_nonneg; lia).
  unfold load_compressed. unfold s64. rewrite signed_id by lia.
  destruct (rd_within running async Ha d _ (cluster_size d) (qo_open _ Hok) Hoff ltac:(lia) Hl) as (f & -> & Hf).
  rewrite (proj2 (Z.eqb_neq _ _)) by lia. cbv zeta. set (got := sub _ _ _). set (d' := set_q_fd _ _).
  pose proof (compressed_size_bounds d e Hg He) as Hsz.
  assert (Hroom : 0 <= compressed_size d e <= Z.of_nat (length (cmp_cluster d'))).
  { unfold d'. cbn. rewrite length_overlay; [lia|]. unfold got. rewrite length_sub; lia. }
  pose proof (em_inflate_safe (cluster d') (cmp_cluster d') _ Hb Hroom) as Hsafe.
  rewrite <- (qo_cluster _ Hok : _ = cluster_size d') in *. change (length (cluster d)) with (length (cluster d')).
  destruct (em_inflate (cluster d') _ _ _) as [[n out]| |]; [|by left..]. right.
  eexists. split; [done|]. split; [done|].
  assert (Hd : q_data (set_cmp_cluster out d') = q_data d) by exact Hf.
  destruct Hok. split; [by constructor|]. constructor; rewrite ?Hd; simpl; eauto.
Qed.

(** C34: a sector of a compressed cluster is never decompressed: em_inflate is
    called with source and destination exchanged.  Whenever the read is
    defined, the guest gets the bytes the cache held before, and the cache is
    left as it was but marked with this cluster. *)
Theorem qcow2_compressed_is_stale running async d s buf e :
  reads_through running async ->
  qcow2_ok d -> geometry d -> bytes_ok (cluster d) ->
  Z.of_nat (length (cmp_cluster d)) = 2 * cluster_size d ->
  0 <= s -> (s + 1) * sect_size (q_vdisk d) < 2 ^ 64 ->
  cluster_of d s <> prev_cluster_index d -> lookup_cluster d (cluster_of d s) = Some (Compressed e) ->
  (l2_entry_cmp_offset_mask d .& e) + cluster_size d <= Z.of_nat (length (q_data d)) ->
  forall d' b, qcow2_read_guest_sector running async d s buf = Some (d', b) ->
  cluster d' = cluster d
  /\ b = overlay 0 (sub (cluster d) (Z.to_nat (in_cluster d s)) (Z.to_nat (sect_size (q_vdisk d)))) buf.
Proof.
  intros Ha Hok Hg Hb Hlc Hs Hr Hp Hlk Hl d' b Hrd.
  destruct (read_uncached running async Ha d s buf _ Hok Hs Hr Hp Hlk)
    as (d1 & (Hs1 & Hok1 & Hcl & _ & [= E1 E2 E3 E4 E5]) & He & Heq).
  rewrite Heq in Hrd. pose proof (si_cs _ _ Hs1) as Hcs.
  destruct (load_compressed_keeps running async d1 e Ha Hok1) as [Hn|(d2 & H2 & Hc2 & Hs2 & Hok2)];
    rewrite ?E1, ?E4, ?Hcl, ?Hcs, ?(si_data _ _ Hs1); auto.
  - destruct Hg. constructor; congruence.
  - by rewrite Hn in Hrd.
  - rewrite H2 in Hrd. simpl in Hrd. rewrite copy_sector_ok in Hrd by done. injection Hrd as <- <-.
    pose proof (same_image_trans _ _ _ Hs1 Hs2) as Hsame. unfold in_cluster.
    by rewrite Hc2, Hcl, (si_vdisk _ _ Hsame), (si_cs _ _ Hsame).
Qed.

(** With an [l1_size] of 2^29 or more the byte count of the L1 table wraps
    in 32-bit size_t: the table is allocated and read too short, and the loop
    that swaps [l1_size] entries leaves the allocation ([L1_MAX_ENTRIES] is
    never tested). *)
Theorem qcow2_l1_overflow running async alloc f ss h cl cmp l1buf :
  reads_through running async ->
  9 <= h_cluster_bits h <= 21 -> 2 ^ 29 <= h_l1_size h ->
  alloc (1 << h_cluster_bits h) = Some cl ->
  alloc (u32 ((1 << h_cluster_bits h) * 2)) = Some cmp ->
  alloc (u32 (h_l1_size h * 8)) = Some l1buf ->
  Z.of_nat (length l1buf) = u32 (h_l1_size h * 8) ->
  fst (fst (Posix.fd_read (Posix.fd_lseek f (s64 (h_l1_table_offset h))) (u32 (h_l1_size h * 8)))) <> 0 ->
  init_tables running async alloc f ss h = None.
Proof.
  intros Ha Hcb Hbig Hc1 Hc2 Hc3 Hl Hn. unfold init_tables. rewrite Hc1, Hc2, Hc3, io_read_reads by done.
  destruct (Posix.fd_read _ _) as [[n got] f']. cbn [fst] in Hn.
  rewrite (proj2 (Z.eqb_neq _ _) Hn), (proj2 (Z.ltb_lt _ _)); [done|].
  rewrite Hl. pose proof (be32_range (sub h 36 4)). pose proof (u32_range (h_l1_size h * 8)). lia.
Qed.

(** ** Witnesses

    An image of four 1024-byte clusters: header, L1, L2 and one data cluster.
    Guest cluster 0 has data, 1 is zeroed, 2 has an empty L2 entry, and the
    second L1 entry is empty. *)
Definition sample_header : bytes :=
  QCOW2_MAGIC ++ be_bytes 4 3 ++ zeroes 12 ++ be_bytes 4 10 ++ be_bytes 8 262144
  ++ zeroes 4 ++ be_bytes 4 2 ++ be_bytes 8 1024 ++ zeroes 48 ++ be_bytes 4 4 ++ be_bytes 4 104.
Definition pad_cluster (b : bytes) : bytes := b ++ zeroes (1024 - length b).
Definition sample_image : bytes :=
  pad_cluster sample_header ++ pad_cluster (be_bytes 8 2048)
  ++ pad_cluster (be_bytes 8 3072 ++ be_bytes 8 1) ++ replicate 512 170 ++ replicate 512 187.
Definition sample_alloc (n : Z) : option bytes := Some (replicate (Z.to_nat n) 205).
Definition sample_open (fname : string) : Z * option Posix.fdesc :=
  (3, Some (Posix.Fdesc sample_image 0 false)).

Lemma sample_alloc_ok n : 0 <= n -> exists b, sample_alloc n = Some b /\ Z.of_nat (length b) = n.
Proof. intros. eexists. split; [done|]. rewrite length_replicate. lia. Qed.

Lemma sample_image_open : image_open (zeroes HEADER_SIZE) sample_open "a.qcow2" sample_image.
Proof.
  constructor; [exists 3, false; done|vm_compute; reflexivity| |vm_compute; reflexivity].
  apply Nat.leb_le. vm_compute. reflexivity.
Qed.

Lemma sample_l1_inside : l1_inside sample_image.
Proof. vm_compute. repeat split; discriminate. Qed.

Definition sample_disk : vdisk_qcow2 :=
  VdiskQcow2 (Vdisk 512 512 0 0) (Some (Posix.Fdesc sample_image 1040 false)) 10 1024
    (replicate 1024 205) (replicate 2048 205) 1024 60 (2 ^ 60 - 1) (3 * 2 ^ 60) 104 4 0 0 2 1
    [2048; 0] (2 ^ 64 - 1).

Lemma sample_ok_at f :
  (length (Posix.fd_data f) < 5000)%nat -> qcow2_ok (set_q_fd (Some f) sample_disk).
Proof.
  intros Hl. constructor.
  - by eexists.
  - done.
  - done.
  - exists 1. done.
  - vm_compute. reflexivity.
  - cbn. lia.
  - repeat constructor; vm_compute; done.
Qed.

Lemma sample_ok : qcow2_ok sample_disk /\ cache_ok sample_disk.
Proof.
  split; [|by left]. change sample_disk with (set_q_fd (Some (Posix.Fdesc sample_image 1040 false)) sample_disk).
  apply sample_ok_at. apply Nat.ltb_lt. vm_compute. reflexivity.
Qed.

Lemma sample_geometry : geometry sample_disk.
Proof. by constructor. Qed.

Lemma sample_l1_usual : l1_usual sample_image.
Proof. vm_compute. split; reflexivity. Qed.

Lemma qcow2_init_accepts_witness :
  exists d, vdisk_init_qcow2 UMKA_RUNNING_NEVER Posix.fd_read true sample_alloc (zeroes HEADER_SIZE)
              sample_open "a.qcow2" = Some (inr d) /\ cluster_bits d = 10 /\ l1 d = [2048; 0].
Proof.
  pose proof (qcow2_init_accepts UMKA_RUNNING_NEVER Posix.fd_read sample_alloc (zeroes HEADER_SIZE)
    sample_open "a.qcow2" sample_image (or_introl eq_refl) sample_alloc_ok sample_image_open
    sample_l1_usual) as H.
  cbv zeta in H.
  replace (valid_header (sub sample_image 0 HEADER_SIZE)) with true in H by (vm_compute; reflexivity).
  replace (l1_missing sample_image) with false in H by (vm_compute; reflexivity). cbn [negb] in H.
  destruct H as (d & Hd & _ & Hb & _ & Hl & _). exists d. split; [exact Hd|].
  rewrite Hb, (Hl sample_l1_inside). split; vm_compute; reflexivity.
Defined.

(** Both sectors of the only cluster with data, then the second one again. *)
Lemma qcow2_read_refines_witness :
  exists d d', vdisk_init_qcow2 UMKA_RUNNING_NEVER Posix.fd_read true sample_alloc (zeroes HEADER_SIZE) sample_open "a.qcow2" = Some (inr d)
    /\ read_ranges UMKA_RUNNING_NEVER Posix.fd_read d [(0, 2); (1, 1)]
       = Some ([(KOS_ERROR_SUCCESS, replicate 512 170 ++ replicate 512 187); (KOS_ERROR_SUCCESS, replicate 512 187)], d').
Proof.
  destruct (qcow2_read_refines UMKA_RUNNING_NEVER Posix.fd_read sample_alloc (zeroes HEADER_SIZE) sample_open "a.qcow2" sample_image [(0, 2); (1, 1)])
    as (d & Hd & _ & _ & _ & Hr).
  - by left.
  - apply sample_alloc_ok.
  - apply sample_image_open.
  - apply sample_l1_inside.
  - vm_compute. reflexivity.
  - vm_compute. discriminate.
  - assert (Ed : d = sample_disk) by (vm_compute in Hd; injection Hd as <-; vm_compute; reflexivity). subst d.
    assert (Hdata : forall i, i = 0 \/ i = 1 -> has_data sample_disk i).
    { intros i [-> | ->]; (split; [lia|split; [reflexivity|exists 3072; split; [vm_compute; reflexivity|apply Z.leb_le; vm_compute; reflexivity]]]). }
    destruct Hr as (d' & Hr); [repeat first [apply Forall_nil_2|apply Forall_cons_2; [split; [cbn; lia|intros i Hi; cbn in Hi; apply Hdata; lia]|]]|].
    exists sample_disk, d'. split; [exact Hd|]. rewrite Hr. vm_compute. reflexivity.
Defined.

Lemma qcow2_hole_then_stale_witness :
  exists d', qcow2_read_guest_sector UMKA_RUNNING_NEVER Posix.fd_read sample_disk 2
               (replicate 512 1) = Some (d', zeroes 512)
    /\ qcow2_read_guest_sector UMKA_RUNNING_NEVER Posix.fd_read d' 3 (replicate 512 1)
       = Some (d', replicate 512 205).
Proof.
  destruct (qcow2_hole_then_stale UMKA_RUNNING_NEVER Posix.fd_read sample_disk 2 3
    (replicate 512 1) (replicate 512 1) Zeroed (or_introl eq_refl) (proj1 sample_ok))
    as (d' & H1 & H2); [lia|lia|reflexivity|reflexivity|vm_compute; discriminate|reflexivity
    |vm_compute; reflexivity|by right|].
  exists d'. rewrite H1, H2. split; vm_compute; reflexivity.
Defined.

Lemma qcow2_unallocated_reads_header_witness :
  exists d', qcow2_read_guest_sector UMKA_RUNNING_NEVER Posix.fd_read sample_disk 4
               (zeroes 512) = Some (d', sample_header ++ zeroes 408).
Proof.
  destruct (qcow2_unallocated_reads_header UMKA_RUNNING_NEVER Posix.fd_read sample_disk 4
    (zeroes 512) (or_introl eq_refl) (proj1 sample_ok)) as (d' & H);
    [lia|reflexivity|vm_compute; discriminate|vm_compute; reflexivity
    |apply Z.leb_le; vm_compute; reflexivity|].
  exists d'. rewrite H. vm_compute. reflexivity.
Defined.

(** The sample image with a compressed entry for cluster 0, at offset 3072. *)
Definition compressed_image : bytes :=
  pad_cluster sample_header ++ pad_cluster (be_bytes 8 2048)
  ++ pad_cluster (be_bytes 8 (2 ^ 62 + 3072)) ++ replicate 1024 170.
Definition compressed_disk : vdisk_qcow2 :=
  set_q_fd (Some (Posix.Fdesc compressed_image 1040 false)) sample_disk.

Lemma qcow2_compressed_is_stale_witness :
  exists d', qcow2_read_guest_sector UMKA_RUNNING_NEVER Posix.fd_read compressed_disk 1 (zeroes 512)
             = Some (d', replicate 512 205) /\ cluster d' = replicate 1024 205.
Proof.
  assert (exists r, qcow2_read_guest_sector UMKA_RUNNING_NEVER Posix.fd_read compressed_disk 1 (zeroes 512)
            = Some r) as [[d' b] E] by (eexists; vm_compute; reflexivity).
  exists d'. rewrite E. eapply qcow2_compressed_is_stale in E.
  - destruct E as [-> ->]. split; [f_equal; f_equal; vm_compute; reflexivity|reflexivity].
  - by left.
  - apply sample_ok_at. apply Nat.ltb_lt. vm_compute. reflexivity.
  - constructor; vm_compute; try reflexivity. split; discriminate.
  - apply Forall_replicate. vm_compute. split; [discriminate|reflexivity].
  - vm_compute. reflexivity.
  - lia.
  - vm_compute. reflexivity.
  - vm_compute. discriminate.
  - vm_compute. reflexivity.
  - apply Z.leb_le. vm_compute. reflexivity.
Defined.

Lemma qcow2_compressed_fits_witness : compressed_size sample_disk (2 ^ 62 - 1) = 1537.
Proof.
  destruct (qcow2_compressed_fits sample_disk (2 ^ 62 - 1) sample_geometry) as [_ ->];
    [split; [discriminate|reflexivity]|].
  vm_compute. reflexivity.
Defined.

(** An L1 table of 2^29 + 1 entries: eight bytes are allocated. *)
Definition big_l1_header : bytes :=
  QCOW2_MAGIC ++ be_bytes 4 3 ++ zeroes 12 ++ be_bytes 4 10 ++ be_bytes 8 262144
  ++ zeroes 4 ++ be_bytes 4 (2 ^ 29 + 1) ++ be_bytes 8 0 ++ zeroes 48 ++ be_bytes 4 4 ++ be_bytes 4 104.

Lemma qcow2_l1_overflow_witness :
  check_header big_l1_header = None /\
  init_tables UMKA_RUNNING_NEVER Posix.fd_read sample_alloc
    (Some (Posix.Fdesc big_l1_header 104 false)) 512 big_l1_header = None.
Proof.
  split; [vm_compute; reflexivity|].
  apply (qcow2_l1_overflow UMKA_RUNNING_NEVER Posix.fd_read sample_alloc
    (Some (Posix.Fdesc big_l1_header 104 false)) 512 big_l1_header
    (replicate 1024 205) (replicate 2048 205) (replicate 8 205)); try (by left); try (vm_compute; reflexivity); try done.
Defined.
