(* ===== verification/Vdisk.v ===== *)
(** vdisk.c: the layer between the kernel's disk subsystem and the formats.

    [vdisk_init] chooses the driver by the file name's suffix and completes
    the function table; [vdisk_querymedia] and [vdisk_adjust_cache_size] are
    the callbacks all formats share.  [disk_read], [disk_write] and
    [disk_close] are the table entries of the chosen format.  A client of the table sees one [ReadableDisk]. *)
From S2P Require Import Prelude CLib Io Disk Raw Qcow2.

Definition RAW_SUFFIX : string := ".raw".
Definition ISO_SUFFIX : string := ".iso".
Definition QCOW2_SUFFIX : string := ".qcow2".

(** A [struct vdisk *]: the format's structure with its common part. *)
Inductive disk := DiskRaw (d : vdisk_raw) | DiskQcow2 (d : vdisk_qcow2).

Definition common (k : disk) : vdisk :=
  match k with DiskRaw d => raw_vdisk d | DiskQcow2 d => q_vdisk d end.

Definition set_common (v : vdisk) (k : disk) : disk :=
  match k with
  | DiskRaw d => DiskRaw (VdiskRaw v (raw_fdnum d) (raw_fd d))
  | DiskQcow2 d => DiskQcow2 (VdiskQcow2 v (q_fd d) (cluster_bits d) (cluster_size d) (cluster d)
      (cmp_cluster d) (l1_table_offset d) (l2_entry_cmp_x d) (l2_entry_cmp_offset_mask d)
      (l2_entry_cmp_sect_cnt_mask d) (header_length d) (refcount_order d)
      (refcount_table_clusters d) (refcount_table_offset d) (l1_size d) (sector_idx_mask d)
      (l1 d) (prev_cluster_index d))
  end.

Definition vdisk_querymedia (v : vdisk) : Z * diskmediainfo :=
  (KOS_ERROR_SUCCESS, MediaInfo 0 (sect_size v) (sect_cnt v)).

Definition vdisk_adjust_cache_size (v : vdisk) (suggested_size : Z) : Z :=
  if truth (adjust_cache_size v) then cache_size v else suggested_size.

(** [len > suffix_len && !strcmp(fname + len - suffix_len, suffix)] *)
Definition has_suffix (fname suffix : string) : bool :=
  (strlen suffix <? strlen fname)
  && streq (str_drop (String.length fname - String.length suffix) fname) suffix.

Section vdisk.
Context (running : Z).
Context (io_async_read : option Posix.fdesc -> Z -> Z * bytes * option Posix.fdesc).
Context (calloc_ok : bool) (alloc : Z -> option bytes) (stack : bytes).

(** [Some None] is a NULL result; [None] is undefined behaviour, which
    includes the writes through the pointer when the driver returned NULL. *)
Definition vdisk_init (open : string -> Z * option Posix.fdesc) (fname : string)
    (adjust cache : Z) : option (option disk) :=
  let finish (k : disk) :=
    Some (Some (set_common (Vdisk (sect_size (common k)) (sect_cnt (common k)) cache adjust) k)) in
  if has_suffix fname RAW_SUFFIX || has_suffix fname ISO_SUFFIX then
    match vdisk_init_raw open fname with
    | Some d => finish (DiskRaw d)
    | None => None
    end
  else if has_suffix fname QCOW2_SUFFIX then
    match vdisk_init_qcow2 running io_async_read calloc_ok alloc stack open fname with
    | Some (inr d) => finish (DiskQcow2 d)
    | Some (inl _) | None => None
    end
  else Some None.

(** The entries [read], [write] and [close] of the function table. *)
Definition disk_read (k : disk) (buffer : bytes) (startsector numsectors : Z)
  : option (Z * bytes * disk) :=
  match k with
  | DiskRaw d =>
      let '(st, b, d') := vdisk_raw_read running io_async_read d buffer startsector numsectors in
      Some (st, b, DiskRaw d')
  | DiskQcow2 d =>
      '(st, b, d') ← vdisk_qcow2_read running io_async_read d buffer startsector numsectors;
      Some (st, b, DiskQcow2 d')
  end.

Definition disk_write (k : disk) (buffer : bytes) (startsector numsectors : Z) : Z * disk :=
  match k with
  | DiskRaw d => let '(st, d') := vdisk_raw_write running d buffer startsector numsectors in (st, DiskRaw d')
  | DiskQcow2 d => let '(st, d') := vdisk_qcow2_write d buffer startsector numsectors in (st, DiskQcow2 d')
  end.

Hypothesis async_reads : reads_through running io_async_read.
#[local] Instance raw_rd : ReadableDisk vdisk_raw := raw_readable running io_async_read async_reads.
#[local] Instance qcow2_rd : ReadableDisk vdisk_qcow2 :=
  qcow2_readable running io_async_read async_reads.

(** The table of a disk of either format is a readable disk. *)
Program Instance disk_readable : ReadableDisk disk := {|
  rd_read := disk_read;
  rd_size k := match k with DiskRaw d => rd_size d | DiskQcow2 d => rd_size d end;
  rd_sector k s := match k with DiskRaw d => rd_sector d s | DiskQcow2 d => rd_sector d s end;
  rd_ok k := match k with DiskRaw d => rd_ok d | DiskQcow2 d => rd_ok d end;
  rd_range k s n := match k with DiskRaw d => rd_range d s n | DiskQcow2 d => rd_range d s n end |}.
Next Obligation. intros [d|d] s; apply rd_sector_length. Qed.
Next Obligation. intros [d|d] s n m; apply rd_range_split. Qed.
Next Obligation.
  intros [d|d] buf s n Hok Hn Hr Hl;
    destruct (rd_read_spec d buf s n Hok Hn Hr Hl) as (d' & Hrd & H1 & H2 & H3 & H4);
    cbn in Hrd.
  - exists (DiskRaw d'). cbn. destruct (vdisk_raw_read _ _ _ _ _ _) as [[st b] d1].
    injection Hrd as -> -> ->. split; [done|]. split; [exact H1|]. auto.
  - exists (DiskQcow2 d'). cbn. rewrite Hrd. split; [done|]. split; [exact H1|]. auto.
Qed.
End vdisk.

(** ** Clients of the contract *)
Section client.
Context `{ReadableDisk D}.

(** Reading [n + m] sectors is reading [n] and then [m]. *)
Lemma read_append d buf s n m :
  rd_ok d -> 0 <= n -> 0 <= m -> rd_range d s (n + m) ->
  (Z.to_nat (n + m) * rd_size d <= length buf)%nat ->
  let k := (Z.to_nat n * rd_size d)%nat in
  exists d1 d2 d3 b1 b2,
    rd_read d (take k buf) s n = Some (KOS_ERROR_SUCCESS, b1, d1)
    /\ rd_read d1 (drop k buf) (s + n) m = Some (KOS_ERROR_SUCCESS, b2, d2)
    /\ rd_read d buf s (n + m) = Some (KOS_ERROR_SUCCESS, b1 ++ b2, d3).
Proof.
  intros Hok Hn Hm Hr Hl k. destruct (rd_range_split d s n m Hok Hn Hm Hr) as [Hr1 Hr2].
  assert (Hk : (k + Z.to_nat m * rd_size d <= length buf)%nat).
  { unfold k. rewrite Z2Nat.inj_add in Hl by lia. nia. }
  destruct (rd_read_spec d (take k buf) s n Hok Hn Hr1) as (d1 & Hd1 & Hok1 & Hsz & Hsec & Hrg).
  { rewrite length_take. lia. }
  destruct (rd_read_spec d1 (drop k buf) (s + n) m Hok1 Hm (Hrg _ _ Hr2)) as (d2 & Hd2 & _).
  { rewrite length_drop, Hsz. lia. }
  destruct (rd_read_spec d buf s (n + m) Hok ltac:(lia) Hr Hl) as (d3 & Hd3 & _).
  exists d1, d2, d3. do 2 eexists. split; [exact Hd1|]. split; [exact Hd2|]. rewrite Hd3.
  do 3 f_equal. rewrite (map_ext _ _ (fun i => Hsec i)).
  pose proof (length_sectors d s n Hok Hn Hr1) as Hln. fold k in Hln.
  rewrite seqZ_app, map_app, join_app by lia.
  rewrite !overlay_0, length_app, Hln, (drop_ge (take k buf)), app_nil_r, <- drop_drop by (rewrite length_take; lia).
  by rewrite <- app_assoc.
Qed.
End client.

(** ** File name suffixes *)

(** A name has a suffix when something precedes it. *)
Lemma has_suffix_spec fname suffix :
  has_suffix fname suffix = true <-> exists p, p <> "" /\ fname = p +:+ suffix.
Proof.
  unfold has_suffix, strlen. rewrite andb_true_iff, Z.ltb_lt, streq_eq. split.
  - intros [Hl Hd]. exists (str_take (String.length fname - String.length suffix) fname).
    split; [|by rewrite <- Hd at 2; rewrite str_take_drop].
    destruct fname as [|c f]; simpl in *; [lia|].
    destruct (S (String.length f) - String.length suffix)%nat eqn:E; [lia|done].
  - intros (p & Hp & ->). rewrite string_length_app. split.
    + destruct p; [done|]. simpl. lia.
    + replace (String.length p + String.length suffix - String.length suffix)%nat
        with (String.length p) by lia. apply str_drop_app.
Qed.

(** ** Claims *)

(** Reading [n + m] sectors through the function table of a disk of either
    format gives what reading the first [n] and then the next [m] gives, and
    all three succeed, for every state the drivers can reach and every
    range they can read. *)
Theorem disk_read_append running async (Ha : reads_through running async)
    k buf s n m (R := disk_readable running async Ha) :
  rd_ok k -> 0 <= n -> 0 <= m -> rd_range k s (n + m) ->
  (Z.to_nat (n + m) * rd_size k <= length buf)%nat ->
  exists k1 k2 k3 b1 b2,
    disk_read running async k (take (Z.to_nat n * rd_size k) buf) s n
      = Some (KOS_ERROR_SUCCESS, b1, k1)
    /\ disk_read running async k1 (drop (Z.to_nat n * rd_size k) buf) (s + n) m
      = Some (KOS_ERROR_SUCCESS, b2, k2)
    /\ disk_read running async k buf s (n + m) = Some (KOS_ERROR_SUCCESS, b1 ++ b2, k3).
Proof. exact (read_append (D := disk) k buf s n m). Qed.

(** [vdisk_init] takes a name ending in .raw or .iso for a raw image and
    one ending in .qcow2 for a qcow2 image, something having to precede the
    suffix, and returns NULL for all other names; the disk reports the
    driver's geometry to the kernel and the caller's cache size. *)
Theorem vdisk_init_dispatch running async calloc alloc stack open fname adjust cache k :
  vdisk_init running async calloc alloc stack open fname adjust cache = Some k ->
  match k with
  | None => forall p, p <> "" ->
      fname <> p +:+ RAW_SUFFIX /\ fname <> p +:+ ISO_SUFFIX /\ fname <> p +:+ QCOW2_SUFFIX
  | Some k =>
      (exists p, p <> "" /\
        match k with
        | DiskRaw _ => fname = p +:+ RAW_SUFFIX \/ fname = p +:+ ISO_SUFFIX
        | DiskQcow2 _ => fname = p +:+ QCOW2_SUFFIX
        end)
      /\ vdisk_querymedia (common k) =
         (KOS_ERROR_SUCCESS, MediaInfo 0 (sect_size_of_name fname) (sect_cnt (common k)))
      /\ forall sug, vdisk_adjust_cache_size (common k) sug = if truth adjust then cache else sug
  end.
Proof.
  unfold vdisk_init. destruct (has_suffix fname RAW_SUFFIX || _) eqn:Hraw.
  - destruct (vdisk_init_raw open fname) as [d|] eqn:Hd; [|done]. intros [= <-].
    apply orb_prop in Hraw. rewrite !has_suffix_spec in Hraw. split.
    + destruct Hraw as [(p & ? & ?)|(p & ? & ?)]; eauto.
    + split; [|done]. unfold vdisk_querymedia. cbn. unfold vdisk_init_raw in Hd.
      destruct (open fname) as [fd f]. destruct (fd =? 0); [done|]. by injection Hd as <-.
  - apply orb_false_elim in Hraw as [Hr Hi]. destruct (has_suffix fname QCOW2_SUFFIX) eqn:Hq.
    + destruct (vdisk_init_qcow2 _ _ _ _ _ _ _) as [[e|d]|] eqn:Hd; try done. intros [= <-].
      apply has_suffix_spec in Hq. split; [done|]. split; [|done].
      unfold vdisk_querymedia. cbn. by rewrite (init_sect_size _ _ _ _ _ _ _ _ Hd).
    + intros [= <-] p Hp. repeat split; intros ->.
      * by rewrite (proj2 (has_suffix_spec _ _)) in Hr by eauto.
      * by rewrite (proj2 (has_suffix_spec _ _)) in Hi by eauto.
      * by rewrite (proj2 (has_suffix_spec _ _)) in Hq by eauto.
Qed.

(** When the qcow2 driver refuses an image, [vdisk_init] goes on to write
    the function table through the NULL it returned. *)
Theorem vdisk_init_null_deref running async calloc alloc stack open p adjust cache e :
  p <> "" ->
  vdisk_init_qcow2 running async calloc alloc stack open (p +:+ QCOW2_SUFFIX) = Some (inl e) ->
  vdisk_init running async calloc alloc stack open (p +:+ QCOW2_SUFFIX) adjust cache = None.
Proof.
  intros Hp He. unfold vdisk_init.
  assert (forall suf, String.length suf = 4%nat -> suf <> "cow2" ->
            has_suffix (p +:+ QCOW2_SUFFIX) suf = false) as Hno.
  { intros suf Hl Hs. unfold has_suffix. rewrite string_length_app, Hl.
    change (String.length QCOW2_SUFFIX) with 6%nat.
    replace (String.length p + 6 - 4)%nat with (String.length (p +:+ ".q"))
      by (rewrite string_length_app; simpl; lia).
    change QCOW2_SUFFIX with (".q" +:+ "cow2"). rewrite <- string_app_assoc, str_drop_app.
    apply andb_false_iff. right. apply streq_neq. congruence. }
  rewrite !Hno by done. cbn [orb].
  by rewrite (proj2 (has_suffix_spec _ _)), He by eauto.
Qed.

(** *** Witnesses *)

Lemma disk_read_append_witness :
  exists k3, disk_read UMKA_RUNNING_NEVER Posix.fd_read (DiskQcow2 sample_disk)
               (zeroes 1024) 0 (1 + 1)
             = Some (KOS_ERROR_SUCCESS, replicate 512 170 ++ replicate 512 187, k3).
Proof.
  destruct (disk_read_append UMKA_RUNNING_NEVER Posix.fd_read (or_introl eq_refl)
    (DiskQcow2 sample_disk) (zeroes 1024) 0 1 1) as (k1 & k2 & k3 & b1 & b2 & H1 & H2 & H3).
  - exact sample_ok.
  - lia.
  - lia.
  - intros i Hi. assert (i = 0 \/ i = 1) as [-> | ->] by lia;
      (split; [lia|split; [reflexivity|exists 3072; split; [vm_compute; reflexivity|
       apply Z.leb_le; vm_compute; reflexivity]]]).
  - apply Nat.leb_le. vm_compute. reflexivity.
  - exists k3. rewrite H3. vm_compute in H1. injection H1 as <- <-. vm_compute in H2.
    injection H2 as <- _. vm_compute. reflexivity.
Defined.

Lemma vdisk_init_dispatch_witness :
  exists k, vdisk_init UMKA_RUNNING_NEVER Posix.fd_read true sample_alloc (zeroes HEADER_SIZE)
              open_image "fat.raw" 1 4096 = Some (Some (DiskRaw k))
    /\ vdisk_adjust_cache_size (raw_vdisk k) 65536 = 4096.
Proof.
  set (r := vdisk_init UMKA_RUNNING_NEVER Posix.fd_read true sample_alloc (zeroes HEADER_SIZE)
              open_image "fat.raw" 1 4096).
  assert (exists k, r = Some (Some (DiskRaw k))) as [k Hk] by (vm_compute; eauto).
  exists k. split; [exact Hk|].
  destruct (vdisk_init_dispatch _ _ _ _ _ _ _ _ _ _ Hk) as (_ & _ & H). exact (H 65536).
Defined.

Lemma vdisk_init_null_deref_witness :
  vdisk_init UMKA_RUNNING_NEVER Posix.fd_read true sample_alloc (zeroes HEADER_SIZE)
    open_image ("nosuch" +:+ QCOW2_SUFFIX) 0 0 = None.
Proof.
  apply (vdisk_init_null_deref _ _ _ _ _ _ _ _ _ CantOpen); [done|]. vm_compute. reflexivity.
Defined.
