(* ===== verification/Umkart.v ===== *)
(** umkart.c: helpers of the tools, the devices.dat writer and the conversion
    of the emulated frame buffer to 32-bit pixels; and the pixel loop of
    [cmd_scrot] (shell.c), which uses it.

    The walk over the kernel's PCI tree ([kos_pci_walk_tree]) is represented by
    the list of nodes it visits.  Arrays are lists; [None] is an access outside
    one, or a dereference of NULL. *)
From S2P Require Import Prelude CLib.

(** ** devices.dat *)

(** The members of [struct pci_dev] the code reads; [parent_bus] is
    [node->parent->bus], [None] for the root. *)
Record pci_dev := PciDev {
  dev : Z; fun_ : Z; parent_bus : option Z; vendor_id : Z; device_id : Z; gsi : Z }.

(** [struct devices_dat_entry] as it lies in memory, 16 bytes. *)
Definition devices_dat_entry (dev fun_ bus vendor device irq : Z) : bytes :=
  [((fun_ mod 8) .| ((dev mod 32) << 3)); u8 bus; 0; 0]
  ++ le_bytes 2 (u16 vendor) ++ le_bytes 2 (u16 device) ++ le_bytes 4 (u32 irq) ++ [0; 0; 0; 0].

(** What one node adds to the file. *)
Definition dump_devices_dat_iter (n : pci_dev) : option bytes :=
  if truth (gsi n) then
    bus ← parent_bus n;
    Some (devices_dat_entry (dev n) (fun_ n) bus (vendor_id n) (device_id n) (gsi n))
  else Some [].

Fixpoint dump_nodes (nodes : list pci_dev) : option bytes :=
  match nodes with
  | [] => Some []
  | n :: nodes => b ← dump_devices_dat_iter n; bs ← dump_nodes nodes; Some (b ++ bs)
  end.

Definition dump_devices_dat (nodes : list pci_dev) : option bytes :=
  b ← dump_nodes nodes; Some (b ++ le_bytes 4 0xffffffff).

(** ** The frame buffer *)

(** The members of [kos_display] and the bytes at [kos_lfb_base]. *)
Record display := Display {
  width_ : nat; height_ : nat; bits_per_pixel : Z; lfb_pitch : nat; lfb_base : bytes }.

Definition rgb565 (p : Z) : Z :=
  ((p .& 0xf800) << 8) + ((p .& 0x7e0) << 5) + ((p .& 0x1f) << 3).

(** The 16-bit pixel at index i of kos_lfb_base. *)
Definition lfb16 (d : display) (i : nat) : option Z :=
  a ← lfb_base d !! (2 * i)%nat; b ← lfb_base d !! (2 * i + 1)%nat; Some (a + (b << 8)).

Definition copy_display_bpp16_to_rgb888 (d : display) (to : list Z) : option (list Z) :=
  ofold (fun y => ofold (fun x to =>
    p ← lfb16 d (y * width_ d + x);
    store_at to (y * lfb_pitch d / 2 + x) (rgb565 p)) 0 (width_ d)) 0 (height_ d) to.

Definition lfb24 (d : display) (i : nat) : option Z :=
  a ← lfb_base d !! (3 * i)%nat; b ← lfb_base d !! (3 * i + 1)%nat; c ← lfb_base d !! (3 * i + 2)%nat;
  Some ((a << 0) + (b << 8) + (c << 16)).

Definition copy_display_bpp24_to_rgb888 (d : display) (to : list Z) : option (list Z) :=
  ofold (fun y => ofold (fun x to =>
    p ← lfb24 d (y * width_ d + x);
    store_at to (y * width_ d + x) p) 0 (width_ d)) 0 (height_ d) to.

Definition lfb32 (d : display) (i : nat) : option Z :=
  if (4 * i + 4 <=? length (lfb_base d))%nat then Some (le32_at (lfb_base d) (4 * i)) else None.

(** [memcpy] of width*height words. *)
Definition copy_display_bpp32_to_rgb888 (d : display) (to : list Z) : option (list Z) :=
  ofold (fun i to => p ← lfb32 d i; store_at to i p) 0 (height_ d * width_ d) to.

Definition copy_display_to_rgb888 (d : display) (to : list Z) : option (list Z) :=
  if bits_per_pixel d =? 16 then copy_display_bpp16_to_rgb888 d to
  else if bits_per_pixel d =? 24 then copy_display_bpp24_to_rgb888 d to
  else if bits_per_pixel d =? 32 then copy_display_bpp32_to_rgb888 d to
  else Some to.

(** [cmd_scrot]: red and blue change places and alpha is set. *)
Definition swap_rgb (p : Z) : Z :=
  u32 ((u8 p << 16) + (u8 (p >> 8) << 8) + (u8 (p >> 16) << 0) + 0xff000000).

Definition scrot_pixels (d : display) (buf : list Z) : option (list Z) :=
  to ← copy_display_to_rgb888 d buf;
  ofold (fun y => ofold (fun x to =>
    p ← to !! (y * width_ d + x)%nat;
    store_at to (y * width_ d + x) (swap_rgb p)) 0 (width_ d)) 0 (height_ d) to.

(** ** Reading devices.dat

    What a reader must see: entries of 16 bytes up to the end mark. *)
Record dat_entry := DatEntry {
  de_dev : Z; de_fun : Z; de_bus : Z; de_vendor : Z; de_device : Z; de_irq : Z }.

Definition decode_entry (b : bytes) : dat_entry :=
  DatEntry (byte_at b 0 / 8) (byte_at b 0 mod 8) (byte_at b 1) (le16_at b 4) (le16_at b 6) (le32_at b 8).

Fixpoint parse_dat (fuel : nat) (b : bytes) : option (list dat_entry) :=
  match fuel with
  | O => None
  | S fuel =>
      if le32_at b 0 =? 0xffffffff then Some []
      else es ← parse_dat fuel (drop 16 b); Some (decode_entry b :: es)
  end.

(** A node as the hardware has it. *)
Definition node_ok (n : pci_dev) : Prop :=
  0 <= dev n < 32 /\ 0 <= fun_ n < 8 /\ (exists b, parent_bus n = Some b /\ 0 <= b < 256)
  /\ 0 <= vendor_id n < 2 ^ 16 /\ 0 <= device_id n < 2 ^ 16 /\ 0 <= gsi n < 2 ^ 32.

Definition entry_of (n : pci_dev) : dat_entry :=
  DatEntry (dev n) (fun_ n) (default 0 (parent_bus n)) (vendor_id n) (device_id n) (gsi n).

(** ** Lemmas *)

Lemma swap_byte p f : 0 <= p < 8 -> 0 <= f < 32 -> (p .| (f << 3)) = p + 8 * f.
Proof.
  intros Hp Hf. rewrite Z.shiftl_mul_pow2 by lia.
  pose proof (Z.add_lor_land p (f * 2 ^ 3)).
  enough (p .& (f * 2 ^ 3) = 0) by lia.
  apply Z.bits_inj'. intros i Hi. rewrite Z.land_spec, Z.bits_0, Z.mul_pow2_bits by lia.
  destruct (Z.ltb_spec i 3).
  - rewrite (Z.testbit_neg_r f) by lia. apply andb_false_r.
  - rewrite (Z.bits_above_log2 p i); [done|lia|].
    destruct (Z.eq_dec p 0) as [->|]; [simpl; lia|]. apply Z.log2_lt_pow2; [lia|].
    pose proof (Z.pow_le_mono_r 2 3 i). lia.
Qed.

Lemma le_val_u8s b : bytes_ok b -> 0 <= le_val b < 2 ^ (8 * Z.of_nat (length b)).
Proof.
  induction 1 as [|x b Hx _ IH]; simpl; [lia|].
  unfold byte_ok in Hx. replace (8 * Z.of_nat (S (length b))) with (8 + 8 * Z.of_nat (length b)) by lia.
  rewrite Z.pow_add_r by lia. lia.
Qed.

Lemma entry_parses n bus rest :
  node_ok n -> parent_bus n = Some bus ->
  let b := devices_dat_entry (dev n) (fun_ n) bus (vendor_id n) (device_id n) (gsi n) ++ rest in
  (le32_at b 0 =? 0xffffffff) = false /\ decode_entry b = entry_of n /\ drop 16 b = rest.
Proof.
  intros (Hd & Hf & (bus' & Hb & Hbus) & Hv & Hde & Hg) Hp b. rewrite Hp in Hb.
  injection Hb as <-. unfold b, devices_dat_entry.
  rewrite !Z.mod_small by lia. rewrite swap_byte by lia.
  rewrite u8_small, !u16_small, u32_small by lia.
  pose proof (le_val_le_bytes 2 (vendor_id n)) as Ev. pose proof (le_val_le_bytes 2 (device_id n)) as Ed.
  pose proof (le_val_le_bytes 4 (gsi n)) as Eg.
  rewrite Z.mod_small in Ev, Ed, Eg by (simpl; lia).
  split; [apply Z.eqb_neq; cbn; lia|]. split; [|reflexivity].
  unfold entry_of. rewrite Hp. unfold decode_entry, byte_at, le16_at, le32_at.
  cbn [sub drop take le_val default le_bytes app] in *.
  f_equal; cbn in *; Z.to_euclidean_division_equations; lia.
Qed.

Lemma parse_dat_more fuel : forall b es,
  parse_dat fuel b = Some es -> parse_dat (S fuel) b = Some es.
Proof.
  induction fuel as [|fuel IH]; intros b es H; [done|]. cbn [parse_dat] in H |- *.
  destruct (_ =? _); [done|].
  destruct (parse_dat fuel (drop 16 b)) as [es'|] eqn:E; [|done]. apply IH in E.
  cbn [parse_dat] in E. by rewrite E.
Qed.

Lemma dump_nodes_parses nodes : Forall node_ok nodes ->
  exists b, dump_nodes nodes = Some b /\
  parse_dat (S (length nodes)) (b ++ le_bytes 4 0xffffffff)
  = Some (map entry_of (filter (fun n => gsi n <> 0) nodes)).
Proof.
  induction 1 as [|n nodes Hn _ (b & Hb & IH)]; [by exists []|].
  unfold dump_nodes. fold dump_nodes. unfold dump_devices_dat_iter, truth.
  rewrite filter_cons. destruct (Z.eqb_spec (gsi n) 0) as [H0|H0]; cbn [negb].
  - exists b. rewrite Hb. split; [done|]. rewrite decide_False by lia.
    by apply parse_dat_more.
  - pose proof Hn as (_ & _ & (bus & Hbus & _) & _). rewrite Hbus, Hb. cbn [mbind option_bind].
    eexists. split; [reflexivity|]. rewrite decide_True by done. rewrite <- app_assoc.
    destruct (entry_parses n bus (b ++ le_bytes 4 0xffffffff) Hn Hbus) as (H1 & H2 & H3).
    cbn [parse_dat length]. rewrite H1, H2, H3. cbn [parse_dat length] in IH. by rewrite IH.
Qed.

(** *** Pixels *)

(** What a frame buffer shows at column [x] of row [y], from the layout of the mode: rows
    are [lfb_pitch] bytes apart, a pixel has two bytes of 5, 6 and 5 bits, or blue, green
    and red in one byte each. *)
Definition frame_color (d : display) (x y : nat) : Z * Z * Z :=
  let at_ := (y * lfb_pitch d + x * Z.to_nat (bits_per_pixel d / 8))%nat in
  if bits_per_pixel d =? 16 then
    let v := le16_at (lfb_base d) at_ in (v / 2048 mod 32 * 8, v / 32 mod 64 * 4, v mod 32 * 8)
  else (byte_at (lfb_base d) (at_ + 2), byte_at (lfb_base d) (at_ + 1), byte_at (lfb_base d) at_).

(** The rows of the display, one after another. *)
Definition frame (d : display) : list (Z * Z * Z) :=
  seq 0 (height_ d) ≫= fun y => map (fun x => frame_color d x y) (seq 0 (width_ d)).

(** A mode the code supports: rows follow each other without padding, and memory holds
    all of them. *)
Record plain_mode (d : display) : Prop := {
  pm_bpp : bits_per_pixel d ∈ [16; 24; 32];
  pm_pitch : lfb_pitch d = (width_ d * Z.to_nat (bits_per_pixel d / 8))%nat;
  pm_size : (height_ d * lfb_pitch d <= length (lfb_base d))%nat;
  pm_bytes : bytes_ok (lfb_base d) }.

(** The words of the copy, by the index of the pixel. *)
Definition pixel (d : display) (i : nat) : option Z :=
  if bits_per_pixel d =? 16 then rgb565 <$> lfb16 d i
  else if bits_per_pixel d =? 24 then lfb24 d i
  else lfb32 d i.

Definition pixels (d : display) : list Z :=
  map (fun i => default 0 (pixel d i)) (seq 0 (height_ d * width_ d)).

Lemma byte_at_lookup (b : bytes) i c : b !! i = Some c -> byte_at b i = c.
Proof. intros H. unfold byte_at, sub. rewrite (drop_S _ _ _ H). cbn. rewrite take_0. cbn. lia. Qed.

Lemma le16_lookup (b : bytes) i c e : b !! i = Some c -> b !! S i = Some e -> le16_at b i = c + 256 * e.
Proof. intros H H'. unfold le16_at, sub. rewrite (drop_S _ _ _ H), (drop_S _ _ _ H'). cbn. rewrite take_0. cbn. lia. Qed.

Lemma le32_lookup (b : bytes) i c0 c1 c2 c3 : b !! i = Some c0 -> b !! S i = Some c1 -> b !! S (S i) = Some c2 -> b !! S (S (S i)) = Some c3 ->
  le32_at b i = c0 + 256 * (c1 + 256 * (c2 + 256 * c3)).
Proof. intros H0 H1 H2 H3. unfold le32_at, sub. rewrite (drop_S _ _ _ H0), (drop_S _ _ _ H1), (drop_S _ _ _ H2), (drop_S _ _ _ H3). cbn. rewrite take_0. cbn. lia. Qed.

(** Red, green and blue of a word of the copy. *)
Definition word_color (p : Z) : Z * Z * Z := (u8 (p >> 16), u8 (p >> 8), u8 p).

(** A field of [n] bits at [k]. *)
Lemma land_field v k n : 0 <= k -> 0 <= n -> v .& (Z.ones n << k) = v / 2 ^ k mod 2 ^ n * 2 ^ k.
Proof.
  intros Hk Hn. rewrite <- Z.land_ones, <- Z.shiftr_div_pow2, <- Z.shiftl_mul_pow2 by lia. apply Z.bits_inj'. intros i Hi.
  rewrite Z.land_spec, !Z.shiftl_spec, Z.land_spec by lia. destruct (Z.ltb_spec i k).
  - rewrite (Z.testbit_neg_r (Z.ones n)) by lia. by rewrite !andb_false_r.
  - rewrite Z.shiftr_spec by lia. by replace (i - k + k) with i by lia.
Qed.

Lemma rgb565_color v : 0 <= v < 65536 -> word_color (rgb565 v) = (v / 2048 mod 32 * 8, v / 32 mod 64 * 4, v mod 32 * 8).
Proof.
  intros Hv. unfold rgb565, word_color, u8.
  change 0xf800 with (Z.ones 5 << 11). change 0x7e0 with (Z.ones 6 << 5). change 0x1f with (Z.ones 5 << 0). rewrite !land_field by lia.
  rewrite !Z.shiftl_mul_pow2, !Z.shiftr_div_pow2 by lia. change (2 ^ 11) with 2048. change (2 ^ 5) with 32. change (2 ^ 6) with 64.
  change (2 ^ 0) with 1. change (2 ^ 8) with 256. change (2 ^ 16) with 65536. change (2 ^ 3) with 8. rewrite Z.div_1_r, Z.mul_1_r.
  pose proof (Z.mod_pos_bound (v / 2048) 32 ltac:(lia)). pose proof (Z.mod_pos_bound (v / 32) 64 ltac:(lia)). pose proof (Z.mod_pos_bound v 32 ltac:(lia)).
  set (r := v / 2048 mod 32) in *. set (g := v / 32 mod 64) in *. set (b := v mod 32) in *. clearbody r g b.
  f_equal; [f_equal|]; Z.to_euclidean_division_equations; lia.
Qed.

Lemma word_color_bytes4 a b c e : byte_ok a -> byte_ok b -> byte_ok c -> byte_ok e ->
  word_color (a + 256 * (b + 256 * (c + 256 * e))) = (c, b, a).
Proof.
  unfold byte_ok, word_color, u8. intros Ha Hb Hc He. rewrite !Z.shiftr_div_pow2 by lia. change (2 ^ 8) with 256. change (2 ^ 16) with 65536.
  f_equal; [f_equal|]; Z.to_euclidean_division_equations; lia.
Qed.

Lemma word_color_bytes a b c : byte_ok a -> byte_ok b -> byte_ok c -> word_color ((a << 0) + (b << 8) + (c << 16)) = (c, b, a).
Proof.
  intros Ha Hb Hc. rewrite <- (word_color_bytes4 a b c 0) by done. f_equal. rewrite !Z.shiftl_mul_pow2 by lia. lia.
Qed.

(** Every pixel of a plain mode is read, and is the colour the mode shows there. *)
Lemma pixel_shown d x y : plain_mode d -> (x < width_ d)%nat -> (y < height_ d)%nat ->
  exists p, pixel d (y * width_ d + x) = Some p /\ word_color p = frame_color d x y.
Proof.
  intros [Hb Hp Hs Hok] Hx Hy. unfold frame_color, pixel. set (i := (y * width_ d + x)%nat). remember (Z.to_nat (bits_per_pixel d / 8)) as n eqn:En.
  assert (Ei : (y * lfb_pitch d + x * n = n * i)%nat) by (rewrite Hp; unfold i; lia). rewrite Ei.
  assert (Hi : (n * i + n <= length (lfb_base d))%nat).
  { assert (i + 1 <= height_ d * width_ d)%nat by (unfold i; nia). rewrite Hp in Hs. nia. }
  assert (Hget : forall k, (k < n)%nat -> exists c, lfb_base d !! (n * i + k)%nat = Some c /\ byte_ok c).
  { intros k Hk. destruct (lookup_lt_is_Some_2 (lfb_base d) (n * i + k)) as [c Hc]; [lia|]. exists c. split; [done|]. by eapply Forall_lookup_1. }
  clearbody i. rewrite !elem_of_cons, elem_of_nil in Hb. destruct Hb as [E|[E|[E|[]]]]; rewrite E in *; cbn [Z.eqb Pos.eqb] in *; vm_compute in En; subst n.
  - destruct (Hget 0%nat) as (a & Ha & Oa); [lia|]. destruct (Hget 1%nat) as (b & Hb & Ob); [lia|]. rewrite Nat.add_0_r in Ha.
    unfold lfb16. rewrite Ha, Hb. cbn [mbind option_bind fmap option_fmap option_map]. eexists. split; [done|]. rewrite (le16_lookup _ _ a b Ha) by (by rewrite <- Nat.add_1_r).
    unfold byte_ok in *. rewrite Z.shiftl_mul_pow2 by lia. replace (a + b * 2 ^ 8) with (a + 256 * b) by lia. apply rgb565_color. lia.
  - destruct (Hget 0%nat) as (a & Ha & Oa); [lia|]. destruct (Hget 1%nat) as (b & Hb & Ob); [lia|]. destruct (Hget 2%nat) as (c & Hc & Oc); [lia|].
    rewrite Nat.add_0_r in Ha. unfold lfb24. rewrite Ha, Hb, Hc. cbn [mbind option_bind]. eexists. split; [done|].
    rewrite (byte_at_lookup _ _ _ Ha), (byte_at_lookup _ _ _ Hb), (byte_at_lookup _ _ _ Hc). apply word_color_bytes; done.
  - destruct (Hget 0%nat) as (a & Ha & Oa); [lia|]. destruct (Hget 1%nat) as (b & Hb & Ob); [lia|]. destruct (Hget 2%nat) as (c & Hc & Oc); [lia|].
    destruct (Hget 3%nat) as (e & He & Oe); [lia|].
    rewrite Nat.add_0_r in Ha. unfold lfb32. rewrite (proj2 (Nat.leb_le _ _)) by lia. eexists. split; [done|].
    rewrite (byte_at_lookup _ _ _ Ha), (byte_at_lookup _ _ _ Hb), (byte_at_lookup _ _ _ Hc).
    rewrite (le32_lookup _ _ a b c e) by (rewrite <- ?Ha, <- ?Hb, <- ?Hc, <- ?He; f_equal; lia). by apply word_color_bytes4.
Qed.

Lemma pm_lfb d i : plain_mode d -> (i < height_ d * width_ d)%nat -> is_Some (pixel d i).
Proof.
  intros Hm Hi. assert (Hw : (0 < width_ d)%nat) by nia.
  destruct (pixel_shown d (i mod width_ d) (i / width_ d) Hm) as (p & E & _).
  - apply Nat.mod_upper_bound. lia.
  - apply Nat.Div0.div_lt_upper_bound; lia.
  - exists p. rewrite <- E. f_equal. pose proof (Nat.div_mod i (width_ d)). lia.
Qed.

Lemma map_rows_seq {A} (f : nat -> A) h w : map f (seq 0 (h * w)) = seq 0 h ≫= fun y => map (fun x => f (y * w + x)%nat) (seq 0 w).
Proof.
  induction h as [|h IH]; [done|]. rewrite seq_S, bind_app, <- IH. cbn [Nat.add]. replace (S h * w)%nat with (h * w + w)%nat by lia.
  rewrite seq_app, map_app. f_equal. cbn [mbind list_bind]. rewrite app_nil_r. cbn [Nat.add].
  rewrite <- (Nat.add_0_r (h * w)) at 1. rewrite <- fmap_add_seq, <- list_fmap_compose. done.
Qed.

Lemma bind_ext_in {A B} (f g : A -> list B) l : (forall x, x ∈ l -> f x = g x) -> l ≫= f = l ≫= g.
Proof.
  induction l as [|x l IH]; intros H; [done|]. cbn [mbind list_bind]. f_equal; [apply H; left|]. apply IH. intros y Hy. apply H. by right.
Qed.

(** The copy of a plain mode has the colours of the frame buffer. *)
Lemma pixels_frame d : plain_mode d -> map word_color (pixels d) = frame d.
Proof.
  intros Hm. unfold pixels, frame. rewrite map_map, map_rows_seq. apply bind_ext_in. intros y Hy%elem_of_seq.
  apply map_ext_in. intros x Hx%in_seq. destruct (pixel_shown d x y Hm) as (p & -> & E); [lia..|]. exact E.
Qed.

Lemma fill_rows (src : nat -> option Z) (w h : nat) (to : list Z) :
  (forall i, (i < h * w)%nat -> is_Some (src i)) -> length to = (h * w)%nat ->
  ofold (fun y => ofold (fun x to => p ← src (y * w + x)%nat; store_at to (y * w + x) p) 0 w) 0 h to
  = Some (map (fun i => default 0 (src i)) (seq 0 (h * w))).
Proof.
  intros Hs Hl. rewrite (ofold_rows (fun i to => p ← src i; store_at to i p)).
  rewrite (ofold_fill src (fun i => default 0 (src i))).
  - simpl. by rewrite drop_ge, app_nil_r by lia.
  - intros j Hj. destruct (Hs j) as [v ->]; [lia|]. done.
  - lia.
Qed.

Lemma copy_display_pixels d to :
  plain_mode d -> length to = (height_ d * width_ d)%nat ->
  copy_display_to_rgb888 d to = Some (pixels d).
Proof.
  intros Hm Hl. pose proof (fun i => pm_lfb _ i Hm) as Hp. pose proof (pm_bpp _ Hm) as Hb.
  unfold copy_display_to_rgb888, pixels, pixel in *.
  destruct (Z.eqb_spec (bits_per_pixel d) 16) as [E|].
  { unfold copy_display_bpp16_to_rgb888. rewrite (pm_pitch _ Hm), E. change (Z.to_nat (16 / 8)) with 2%nat.
    erewrite ofold_ext; [apply (fill_rows (fun i => rgb565 <$> lfb16 d i)); done|].
    intros y b. apply ofold_ext. intros x b'.
    rewrite Nat.mul_assoc, Nat.div_mul by lia.
    by destruct (lfb16 d _). }
  destruct (Z.eqb_spec (bits_per_pixel d) 24).
  { unfold copy_display_bpp24_to_rgb888. by apply (fill_rows (lfb24 d)). }
  destruct (Z.eqb_spec (bits_per_pixel d) 32); [|rewrite !elem_of_cons, elem_of_nil in Hb; lia].
  unfold copy_display_bpp32_to_rgb888.
  rewrite (ofold_fill (lfb32 d) (fun i => default 0 (lfb32 d i))).
  - simpl. by rewrite drop_ge, app_nil_r by lia.
  - intros j Hj. destruct (Hp j) as [v ->]; [lia|]. done.
  - lia.
Qed.

(** Replacing every element in place. *)
Lemma map_rows (g : Z -> Z) (w h : nat) (to : list Z) :
  length to = (h * w)%nat ->
  ofold (fun y => ofold (fun x to => p ← to !! (y * w + x)%nat; store_at to (y * w + x) (g p)) 0 w) 0 h to
  = Some (map g to).
Proof.
  intros Hl. rewrite (ofold_rows (fun i to => p ← to !! i; store_at to i (g p))).
  assert (forall n i a, (i + n)%nat = length a ->
    ofold (fun j to => p ← to !! j; store_at to j (g p)) i n a = Some (take i a ++ map g (drop i a)))
    as H.
  { induction n as [|n IH]; intros i a Ha; cbn [ofold].
    { rewrite drop_ge, take_ge by lia. by rewrite app_nil_r. }
    destruct (lookup_lt_is_Some_2 a i) as [v Hv]; [lia|]. rewrite Hv. simpl.
    unfold store_at. rewrite (proj2 (Nat.ltb_lt _ _)) by lia. simpl.
    rewrite IH by (rewrite length_insert; lia). f_equal.
    rewrite (take_S_r _ _ (g v)) by (apply list_lookup_insert_eq; lia).
    rewrite take_insert_ge, drop_insert_lt by lia.
    rewrite (drop_S a v i Hv). cbn [map]. by rewrite <- app_assoc. }
  rewrite H by (simpl; lia). done.
Qed.

(** ** Claims *)

(** C29: the devices.dat file written for a tree of PCI nodes parses back to
    exactly the nodes that have an interrupt, in order, with every field
    intact; the end mark cannot be mistaken for an entry. *)
Theorem devices_dat_roundtrip nodes :
  Forall node_ok nodes ->
  exists b, dump_devices_dat nodes = Some b
    /\ parse_dat (S (length nodes)) b = Some (map entry_of (filter (fun n => gsi n <> 0) nodes)).
Proof.
  intros Hn. destruct (dump_nodes_parses nodes Hn) as (b & Hb & Hp).
  unfold dump_devices_dat. rewrite Hb. eexists. by split.
Qed.

(** A screenshot holds, at every position, the pixel of the frame buffer
    with red and blue exchanged and opaque alpha, in the three supported
    depths, when the scan lines have no padding ([plain_mode], [pixels_frame]). *)
Theorem scrot_exact d buf :
  plain_mode d -> length buf = (height_ d * width_ d)%nat ->
  scrot_pixels d buf = Some (map swap_rgb (pixels d)).
Proof.
  intros Hm Hl. unfold scrot_pixels. rewrite copy_display_pixels by done. simpl.
  apply map_rows. unfold pixels. by rewrite length_map, length_seq.
Qed.

(** In a 16-bit mode whose scan lines are padded (pitch at least two bytes
    above 2 * width) the copy indexes the destination by the pitch and leaves
    the width * height words [cmd_scrot] allocates. *)
Theorem scrot_16bit_overflow d buf :
  bits_per_pixel d = 16 -> (2 <= height_ d)%nat -> (1 <= width_ d)%nat ->
  (2 * width_ d + 2 <= lfb_pitch d)%nat -> length buf = (height_ d * width_ d)%nat ->
  scrot_pixels d buf = None.
Proof.
  intros Hb Hh Hw Hp Hl. unfold scrot_pixels, copy_display_to_rgb888. rewrite Hb. simpl.
  destruct (copy_display_bpp16_to_rgb888 d buf) as [to|] eqn:E; [|done]. exfalso.
  unfold copy_display_bpp16_to_rgb888 in E.
  set (P := fun a : list Z => length a = (height_ d * width_ d)%nat).
  assert (Hin : forall y x a b, P a ->
    (p ← lfb16 d (y * width_ d + x); store_at a (y * lfb_pitch d / 2 + x) (rgb565 p)) = Some b ->
    P b /\ (y * lfb_pitch d / 2 + x < height_ d * width_ d)%nat).
  { intros y x a b Ha Hs. destruct (lfb16 d _); [|done]. cbn [mbind option_bind] in Hs.
    apply store_at_length in Hs as [H1 H2]. unfold P in *. lia. }
  assert (Hrow : forall y a b, P a ->
    ofold (fun x to => p ← lfb16 d (y * width_ d + x);
             store_at to (y * lfb_pitch d / 2 + x) (rgb565 p)) 0 (width_ d) a = Some b ->
    P b /\ forall x, (0 <= x < 0 + width_ d)%nat -> exists a' b', P a' /\
      (p ← lfb16 d (y * width_ d + x); store_at a' (y * lfb_pitch d / 2 + x) (rgb565 p)) = Some b').
  { intros y a b Ha Hy. eapply (ofold_turns P); [|exact Ha|exact Hy]. intros. by eapply Hin. }
  destruct (ofold_turns P _ _ _ _ _ (fun y a b Ha Hy => proj1 (Hrow y a b Ha Hy)) Hl E) as [_ Ht].
  destruct (Ht (height_ d - 1)%nat) as (x & y & Hx & Hy); [lia|].
  destruct (Hrow _ _ _ Hx Hy) as [_ Ht2].
  destruct (Ht2 (width_ d - 1)%nat) as (x2 & y2 & Hx2 & Hy2); [lia|].
  apply Hin in Hy2 as [_ Hlt]; [|done].
  assert ((height_ d - 1) * (width_ d + 1) <= (height_ d - 1) * lfb_pitch d / 2)%nat.
  { apply Nat.div_le_lower_bound; [lia|]. nia. }
  nia.
Qed.

(** *** Witnesses *)

Definition sample_nodes : list pci_dev :=
  [PciDev 0 0 (Some 0) 0x8086 0x1237 0; PciDev 3 1 (Some 0) 0x10ec 0x8139 19].

Lemma devices_dat_roundtrip_witness :
  exists b, dump_devices_dat sample_nodes = Some b /\ length b = 20%nat
    /\ parse_dat 3 b = Some [DatEntry 3 1 0 0x10ec 0x8139 19].
Proof.
  destruct (devices_dat_roundtrip sample_nodes) as (b & Hb & Hp).
  - repeat apply Forall_cons_2; try apply Forall_nil_2; unfold node_ok; cbn;
      (split; [lia|]; split; [lia|]; split; [eexists; split; [reflexivity|lia]|lia]).
  - exists b. split; [exact Hb|]. split; [|exact Hp]. vm_compute in Hb. by injection Hb as <-.
Defined.

(** Two rows of one pixel. *)
Definition display24 : display := Display 1 2 24 3 [1; 2; 3; 4; 5; 6].

Lemma scrot_exact_witness : scrot_pixels display24 [0; 0] = Some [0xff010203; 0xff040506].
Proof.
  rewrite (scrot_exact display24 [0; 0]); [reflexivity| |reflexivity].
  constructor; [set_solver|done|cbn; lia|by repeat constructor].
Defined.

Lemma scrot_16bit_overflow_witness :
  scrot_pixels (Display 1 2 16 4 (zeroes 8)) [0; 0] = None.
Proof. apply scrot_16bit_overflow; [reflexivity|cbn; lia..|reflexivity]. Defined.
