(* ===== verification/Vnet.v ===== *)
(** vnet.c, vnet/null.c, vnet/file.c and linux/vnet/tap.c: virtual network
    devices.

    A [vnet] is a device with its one-frame input buffer.  [vnet_init] chooses
    the back end; [vnet_input_monitor_step] is one turn of the thread that
    reads frames from the host, [vnet_input] the interrupt handler that hands
    the buffered frame to the kernel, [vnet_transmit_*] the drivers' output.
    The host calls that can fail (open, ioctl) are parameters; [None] is
    undefined behaviour. *)
From S2P Require Import Prelude CLib Io.

Definition NET_TYPE_ETH : Z := 1.
Definition ETH_LINK_DOWN : Z := 0x0.
Definition ETH_LINK_UNKNOWN : Z := 0x1.
Definition ETH_LINK_FD : Z := 0x2.
Definition ETH_LINK_10M : Z := 0x4.
Definition ETH_LINK_100M : Z := 0x8.
Definition ETH_LINK_1G : Z := 0xc.

Definition NET_BUFFER_SIZE : Z := 0x800.
(** [offsetof(net_buff_t, data)]: six 32-bit members precede it. *)
Definition net_buff_data : Z := 24.
Definition VNET_BUFIN_CAP : Z := NET_BUFFER_SIZE - net_buff_data.

Definition UMKA_IRQ_NETWORK : Z := 15.

(** The drivers a [net_device] can point to. *)
Inductive vnet_type := VNET_DEVTYPE_NULL | VNET_DEVTYPE_FILE | VNET_DEVTYPE_TAP.

Record net_stats := NetStats {
  link_state : Z; hwacc : Z; bytes_tx : Z; bytes_rx : Z;
  packets_tx : Z; packets_tx_err : Z; packets_tx_drop : Z; packets_tx_ovr : Z;
  packets_rx : Z; packets_rx_err : Z; packets_rx_drop : Z; packets_rx_ovr : Z }.

(** [struct net_device]; the members below [link_state] are indeterminate
    ([None]) until [vnet_init] sets them. *)
Record net_device := NetDevice {
  device_type : Z; mtu : Z; dev_name : string; driver : vnet_type; stats : option net_stats }.

Record eth_device := EthDevice { net : net_device; mac : bytes }.

(** [struct vnet]; the input buffer is indeterminate until the first read. *)
Record vnet := Vnet {
  eth : eth_device; bufin : bytes; bufin_len : option Z; fdin : Z; fdout : Z;
  input_processed : Z }.

(** [net_buff_t]: the data part with [length] and [offset]. *)
Record net_buff := NetBuff { nb_length : Z; nb_offset : Z; nb_data : bytes }.

Definition default_mac : bytes := [0x80; 0x2b; 0xf9; 0x3b; 0x6c; 0xca].

(** ** Back ends *)

Definition new_vnet (t : vnet_type) (name : string) (fin fout : Z) : vnet :=
  Vnet (EthDevice (NetDevice NET_TYPE_ETH 1514 (name +:+ fmt_d 0) t None) default_mac)
    [] None fin fout 1.

Definition vnet_init_null : vnet := new_vnet VNET_DEVTYPE_NULL "UMKNUL" 0 0.

Definition O_RDONLY : Z := 0.
Definition O_WRONLY : Z := 1.
Definition O_RDWR : Z := 2.

Inductive tap_request :=
| TUNSETIFF | SIOCSIFHWADDR | SIOCSIFADDR | SIOCSIFNETMASK | SIOCGIFFLAGS | SIOCSIFFLAGS.

Section host.
(** [open(path, flags)] and [ioctl(fd, request, &ifr)], -1 for failure. *)
Context (open : string -> Z -> Z) (ioctl : tap_request -> Z).

(** The device, and the descriptors left open. *)
Definition vnet_init_file : option vnet * list Z :=
  let fin := open "/path/to/fdin" O_RDONLY in
  if fin <? 0 then (None, []) else
  let fout := open "/path/to/fdin" O_WRONLY in
  if fout <? 0 then (None, [fin]) else
  (Some (new_vnet VNET_DEVTYPE_FILE "UMKFIL" fin fout), [fin; fout]).

(** Each request in turn; the first failure closes the device. *)
Fixpoint tap_requests (rs : list tap_request) : bool :=
  match rs with
  | [] => true
  | r :: rs => if ioctl r <? 0 then false else tap_requests rs
  end.

(** [sockfd] is opened after the first two requests and never closed. *)
Definition vnet_init_tap (sockfd : Z) : option vnet * list Z :=
  let fd := open "/dev/net/tun" O_RDWR in
  if fd <? 0 then (None, []) else
  if negb (tap_requests [TUNSETIFF; SIOCSIFHWADDR]) then (None, []) else
  if negb (tap_requests [SIOCSIFADDR; SIOCSIFNETMASK; SIOCGIFFLAGS; SIOCSIFFLAGS])
  then (None, [sockfd]) else
  (Some (new_vnet VNET_DEVTYPE_TAP "UMKTAP" fd fd), [fd; sockfd]).

Definition zero_stats : net_stats :=
  NetStats (ETH_LINK_FD + ETH_LINK_10M) 0 0 0 0 0 0 0 0 0 0 0.

(** The device with its statistics cleared, and whether the input monitor
    was started; the interrupt handler is attached in every case. *)
Definition vnet_init (type : vnet_type) (running sockfd : Z) : option (vnet * bool) :=
  let v := match type with
           | VNET_DEVTYPE_NULL => Some vnet_init_null
           | VNET_DEVTYPE_FILE => fst vnet_init_file
           | VNET_DEVTYPE_TAP => fst (vnet_init_tap sockfd)
           end in
  match v with
  | None => None
  | Some v =>
      let n := net (eth v) in
      let n' := NetDevice (device_type n) (mtu n) (dev_name n) (driver n) (Some zero_stats) in
      Some (Vnet (EthDevice n' (mac (eth v))) (bufin v) (bufin_len v) (fdin v) (fdout v)
              (input_processed v), negb (running =? UMKA_RUNNING_NEVER))
  end.
End host.

(** ** Input *)

(** One turn of [vnet_input_monitor] after read returned [nread] with [got] in
    the buffer: [bufin_len] is a size_t, so -1 becomes 2^32 - 1.  The network
    interrupt is raised afterwards. *)
Definition vnet_input_monitor_step (v : vnet) (nread : Z) (got : bytes) : vnet :=
  Vnet (eth v) (overlay 0 got (bufin v)) (Some (u32 nread)) (fdin v) (fdout v) 0.

(** [memcpy(dst, src, n)] between arrays of the given capacity. *)
Definition memcpy_within (cap n : Z) (src : bytes) : option bytes :=
  if n <=? cap then Some (take (Z.to_nat n) src) else None.

(** The interrupt handler: the buffer handed to [kos_eth_input], if one could
    be allocated.  The result is always 1 (acknowledged). *)
Definition vnet_input (alloc_ok : bool) (v : vnet) : option (option net_buff * vnet) :=
  if negb alloc_ok then Some (None, v) else
  match bufin_len v with
  | None => None
  | Some len =>
      match memcpy_within VNET_BUFIN_CAP len (bufin v) with
      | None => None
      | Some d =>
          Some (Some (NetBuff len net_buff_data d),
                Vnet (eth v) (bufin v) (bufin_len v) (fdin v) (fdout v) 1)
      end
  end.

(** ** Output *)

(** The buffer after the call, the bytes given to write(fdout, ...), and
    what is printed; the result is 0. *)
Definition vnet_transmit_null (b : net_buff) : net_buff := NetBuff 0 (nb_offset b) (nb_data b).

Definition dump_net_buff (b : net_buff) : string :=
  String.concat "" (map (fun x => fmt_x2 x +:+ " ") (take (Z.to_nat (nb_length b)) (nb_data b)))
  +:+ nl.

Definition vnet_transmit_file (b : net_buff) : net_buff * bytes * string :=
  (NetBuff 0 (nb_offset b) (nb_data b),
   take (Z.to_nat (nb_length b)) (nb_data b),
   "vnet_transmit: " +:+ fmt_d (s32 (nb_length b)) +:+ " bytes" +:+ nl
   +:+ dump_net_buff b +:+ "vnet_transmit: done" +:+ nl).

Definition vnet_transmit_tap (b : net_buff) : net_buff * bytes :=
  (NetBuff 0 (nb_offset b) (nb_data b), take (Z.to_nat (nb_length b)) (nb_data b)).

(** ** Claims *)

(** C38: a frame the host read into the input buffer reaches the kernel whole:
    after a read of [n] bytes, at most the buffer's capacity, the interrupt
    handler hands over exactly those bytes with their length and the data
    offset of a network buffer, and marks the frame processed. *)
Theorem vnet_frame_delivered v got :
  Z.of_nat (length (bufin v)) = VNET_BUFIN_CAP -> Z.of_nat (length got) <= VNET_BUFIN_CAP ->
  let v1 := vnet_input_monitor_step v (Z.of_nat (length got)) got in
  exists v2, vnet_input true v1 = Some (Some (NetBuff (Z.of_nat (length got)) net_buff_data got), v2)
    /\ input_processed v1 = 0 /\ input_processed v2 = 1 /\ length (bufin v2) = length (bufin v).
Proof.
  intros Hc Hl v1. unfold VNET_BUFIN_CAP, NET_BUFFER_SIZE, net_buff_data in Hc, Hl.
  assert (Hu : u32 (Z.of_nat (length got)) = Z.of_nat (length got)) by (apply u32_small; lia).
  eexists. unfold vnet_input, v1, vnet_input_monitor_step. cbn [negb bufin_len bufin].
  rewrite Hu. unfold memcpy_within, VNET_BUFIN_CAP, NET_BUFFER_SIZE, net_buff_data.
  rewrite (proj2 (Z.leb_le _ _)) by lia. rewrite Nat2Z.id, overlay_0, take_app_length.
  split; [done|]. split; [done|]. split; [done|]. cbn.
  rewrite length_app, length_drop. lia.
Qed.

(** When the host's read fails, its -1 is stored as the length of the
    frame and the next network interrupt copies 4 GiB out of the buffer. *)
Theorem vnet_read_error_overflows v :
  vnet_input true (vnet_input_monitor_step v (-1) []) = None.
Proof. done. Qed.

(** Initialisation fails without leaving a descriptor behind only when the
    very first open fails: if the second open of the file back end fails, the
    first descriptor stays open, and the tap back end keeps its socket on
    every path after it was made. *)
Theorem vnet_init_leaks open ioctl sockfd :
  (fst (vnet_init_file open) = None ->
   snd (vnet_init_file open) = if open "/path/to/fdin" O_RDONLY <? 0 then []
                               else [open "/path/to/fdin" O_RDONLY])
  /\ (tap_requests ioctl [TUNSETIFF; SIOCSIFHWADDR] = true -> 0 <= open "/dev/net/tun" O_RDWR ->
      sockfd ∈ snd (vnet_init_tap open ioctl sockfd)).
Proof.
  split.
  - unfold vnet_init_file. destruct (_ <? 0); [done|]. destruct (_ <? 0); [done|]. discriminate.
  - intros Ht Ho. unfold vnet_init_tap. rewrite (proj2 (Z.ltb_ge _ _)), Ht by lia. cbn [negb].
    destruct (negb _); simpl; set_solver.
Qed.

Definition sample_vnet : vnet :=
  Vnet (EthDevice (NetDevice NET_TYPE_ETH 1514 "UMKNUL0" VNET_DEVTYPE_NULL None) default_mac)
    (zeroes 2024) None 0 0 1.

Lemma vnet_frame_delivered_witness :
  exists v2, vnet_input true (vnet_input_monitor_step sample_vnet 3 [1; 2; 3])
             = Some (Some (NetBuff 3 24 [1; 2; 3]), v2).
Proof.
  destruct (vnet_frame_delivered sample_vnet [1; 2; 3]) as (v2 & H & _);
    [vm_compute; reflexivity|vm_compute; discriminate|].
  exists v2. exact H.
Defined.

Lemma vnet_init_leaks_witness :
  7 ∈ snd (vnet_init_tap (fun _ _ => 3) (fun _ => 0) 7).
Proof. apply (vnet_init_leaks (fun _ _ => 3) (fun _ => 0) 7); [reflexivity|lia]. Defined.
