(* ===== verification/Syscall.v ===== *)
(** umka.h: the C side of the KolibriOS system calls.

    Each [umka_sys_*] wrapper loads registers, calls the kernel's entry [i40]
    and decodes what the registers hold on return.  The kernel is assembly and
    a parameter: class [Kernel] gives its state and its reaction to a register
    file.  A register that carries a pointer is represented by what it points
    to ([val]); one the wrapper leaves alone is [None]. *)
From S2P Require Import Prelude CLib.

(** ** umka.h: constants and structures *)

Definition KF_READONLY : Z := 0x01.
Definition KF_HIDDEN : Z := 0x02.
Definition KF_SYSTEM : Z := 0x04.
Definition KF_LABEL : Z := 0x08.
Definition KF_FOLDER : Z := 0x10.
Definition KF_ATTR_CNT : nat := 5.

Definition F70 : Z := 70.
Definition F80 : Z := 80.

Definition DEFAULT_ENCODING : Z := 0.
Definition CP866 : Z := 1.
Definition UTF16 : Z := 2.
Definition UTF8 : Z := 3.
Definition INVALID_ENCODING : Z := 4.

Definition BDFE_LEN_CP866 : Z := 304.
Definition BDFE_LEN_UNICODE : Z := 560.

Definition KOS_LANG_FIRST : Z := 1.
Definition KOS_LANG_LAST : Z := 11.
Definition KOS_LAYOUT_SIZE : Z := 128.

Record point16s := Point16s { pt_y : Z; pt_x : Z }.
Record rect_t := Rect { left : Z; top : Z; right : Z; bottom : Z }.
Record box_t := Box { b_left : Z; b_top : Z; b_width : Z; b_height : Z }.

Record mouse_state := MouseState {
  bl_held : bool; br_held : bool; bm_held : bool; b4_held : bool; b5_held : bool }.
Record mouse_events := MouseEvents {
  bl_pressed : bool; br_pressed : bool; bm_pressed : bool;
  vscroll_used : bool; bl_released : bool; br_released : bool; bm_released : bool;
  hscroll_used : bool; bl_dbclick : bool }.
Record mouse_state_events := MouseStateEvents { ms_st : mouse_state; ms_ev : mouse_events }.

Record board_get_ret := BoardGetRet { bg_value : Z; bg_status : Z }.
Record f7080ret_t := F7080ret { f_status : Z; f_count : Z }.
Record f75ret_t := F75ret { f75_value : Z; f75_errorcode : Z }.
Record f76ret_t := F76ret { f76_eax : Z; f76_ebx : Z }.

(** The last member of the file system arguments: [u.f70] or [u.f80]. *)
Inductive fs_path := Path70 (path : string) | Path80 (path_encoding : Z) (path : string).

(** [f7080s0arg_t], [f7080s1arg_t], [f7080s5arg_t] and [f7080s7arg_t];
    [buf] is given by the number of bytes there is room for. *)
Inductive fs_arg :=
| S0arg (sf offset count buf : Z) (u : fs_path)
| S1arg (sf offset encoding size buf : Z) (u : fs_path)
| S5arg (sf flags buf : Z) (u : fs_path)
| S7arg (sf flags : Z) (params : option string) (u : fs_path).

(** ** Registers *)

(** What a register carries: a word, or a pointer to a string, to bytes the
    kernel reads, to a buffer of some size it may fill, to a file system
    argument, to the parameters of a blit, or NULL. *)
Inductive val :=
| W (z : Z) | Str (s : string) | Mem (b : bytes) | Out (size : Z) | Fs (a : fs_arg)
| Blit (rects : list Z) (image : bytes) (row_length : Z) | Null.

Record regs := Regs {
  eax : option val; ebx : option val; ecx : option val; edx : option val;
  esi : option val; edi : option val; ebp : option val }.

Definition regs0 : regs := Regs None None None None None None None.
Definition call1 (a : Z) : regs := Regs (Some (W a)) None None None None None None.
Definition call2 (a : Z) (b : val) : regs := Regs (Some (W a)) (Some b) None None None None None.
Definition call3 (a : Z) (b c : val) : regs :=
  Regs (Some (W a)) (Some b) (Some c) None None None None.
Definition call4 (a : Z) (b c d : val) : regs :=
  Regs (Some (W a)) (Some b) (Some c) (Some d) None None None.
Definition call5 (a : Z) (b c d s : val) : regs :=
  Regs (Some (W a)) (Some b) (Some c) (Some d) (Some s) None None.
Definition call6 (a : Z) (b c d s di : val) : regs :=
  Regs (Some (W a)) (Some b) (Some c) (Some d) (Some s) (Some di) None.

(** Registers on return, and the bytes written through an [Out] pointer. *)
Record ret := Ret { r_eax : Z; r_ebx : Z; r_edx : Z; r_mem : bytes }.

Class Kernel (K : Type) := i40 : regs -> K -> ret * K.

Section syscalls.
Context `{Kernel K}.

Definition void (r : regs) (k : K) : K := snd (i40 r k).
Definition returns {A} (f : ret -> A) (r : regs) (k : K) : A * K :=
  let '(o, k') := i40 r k in (f o, k').

Definition w (z : Z) : val := W (u32 z).
(** [(x << 16) + y] on 32-bit words *)
Definition pack (x y : Z) : val := w ((x << 16) + y).
Definition lnot (z : Z) : Z := b2z (z =? 0).

(** *** Windows and drawing *)

Definition umka_sys_draw_window (x xsize y ysize color has_caption client_relative fill_workarea
    gradient_fill movable style : Z) (caption : string) : K -> K :=
  void (call6 0 (pack x xsize) (pack y ysize)
    (w ((gradient_fill << 31) + (lnot fill_workarea << 30) + (client_relative << 29)
        + (has_caption << 28) + (style << 24) + color))
    (w (lnot movable << 24)) (Str caption)).

Definition umka_sys_set_pixel (x y color invert : Z) : K -> K :=
  void (call4 1 (w x) (w y) (w ((invert << 24) + color))).

Definition umka_get_key : K -> Z * K := returns r_eax (call1 2).

Definition umka_sys_write_text (x y color asciiz fill_background font_and_encoding draw_to_buffer
    scale_factor : Z) (str : string) (length background_color_or_buffer : Z) : K -> K :=
  void (call6 4 (pack x y)
    (w ((asciiz << 31) + (fill_background << 30) + (font_and_encoding << 28)
        + (draw_to_buffer << 27) + (scale_factor << 24) + color))
    (Str str) (w length) (w background_color_or_buffer)).

Definition umka_sys_csleep (cs : Z) : K -> K := void (call2 5 (w cs)).

Definition umka_sys_put_image (image : bytes) (xsize ysize x y : Z) : K -> K :=
  void (call4 7 (Mem image) (pack xsize ysize) (pack x y)).

Definition umka_sys_button (x xsize y ysize button_id draw_button draw_frame color : Z) : K -> K :=
  void (call5 8 (pack x xsize) (pack y ysize)
    (w ((lnot draw_button << 30) + (lnot draw_frame << 29) + button_id)) (w color)).

(** [param] is a [process_information_t] of 0x400 bytes. *)
Definition umka_sys_process_info (pid : Z) : K -> bytes * K :=
  returns r_mem (call3 9 (Out 0x400) (w pid)).

Definition umka_sys_wait_for_event : K -> Z * K := returns r_eax (call1 10).
Definition umka_sys_check_for_event : K -> Z * K := returns r_eax (call1 11).
Definition umka_sys_window_redraw (begin_end : Z) : K -> K := void (call2 12 (w begin_end)).

Definition umka_sys_draw_rect (x xsize y ysize color gradient : Z) : K -> K :=
  void (call4 13 (pack x xsize) (pack y ysize) (w ((gradient << 31) + color))).

Definition umka_sys_get_screen_size : K -> (Z * Z) * K :=
  returns (fun r => ((r_eax r >> 16) + 1, (r_eax r .& 0xffff) + 1)) (call1 14).

(** *** Background *)

Definition umka_sys_bg_set_size (xsize ysize : Z) : K -> K :=
  void (call4 15 (w 1) (w xsize) (w ysize)).
Definition umka_sys_bg_put_pixel (offset color : Z) : K -> K :=
  void (call4 15 (w 2) (w offset) (w color)).
Definition umka_sys_bg_redraw : K -> K := void (call2 15 (w 3)).
Definition umka_sys_bg_set_mode (mode : Z) : K -> K := void (call3 15 (w 4) (w mode)).
Definition umka_sys_bg_put_img (image : bytes) (offset size : Z) : K -> K :=
  void (call5 15 (w 5) (Mem image) (w offset) (w size)).
Definition umka_sys_bg_map : K -> Z * K := returns r_eax (call2 15 (w 6)).
Definition umka_sys_bg_unmap (addr : Z) : K -> Z * K := returns r_eax (call3 15 (w 7) (w addr)).

(** *** Mouse, keyboard, languages *)

(** [struct point16s] in a register: [y] below [x]. *)
Definition point_word (p : point16s) : Z := u16 (pt_y p) + (u16 (pt_x p) << 16).
Definition word_point (z : Z) : point16s := Point16s (s16 z) (s16 (z >> 16)).

Definition umka_sys_set_mouse_pos_screen (new_pos : point16s) : K -> K :=
  void (call4 18 (w 19) (w 4) (w (point_word new_pos))).

Definition umka_sys_set_keyboard_layout (type : Z) (layout : bytes) : K -> Z * K :=
  returns (fun r => s32 (r_eax r)) (call4 21 (w 2) (w type) (Mem layout)).
Definition umka_sys_set_keyboard_lang (lang_id : Z) : K -> Z * K :=
  returns (fun r => s32 (r_eax r)) (call4 21 (w 2) (w 9) (w lang_id)).
Definition umka_sys_set_system_lang (lang_id : Z) : K -> Z * K :=
  returns (fun r => s32 (r_eax r)) (call3 21 (w 5) (w lang_id)).
Definition umka_sys_get_keyboard_layout (type : Z) : K -> bytes * K :=
  returns r_mem (call4 26 (w 2) (w type) (Out KOS_LAYOUT_SIZE)).
Definition umka_sys_get_keyboard_lang : K -> Z * K :=
  returns (fun r => s32 (r_eax r)) (call3 26 (w 2) (w 9)).
Definition umka_sys_get_system_lang : K -> Z * K :=
  returns (fun r => s32 (r_eax r)) (call2 26 (w 5)).

Definition umka_sys_set_cwd (dir : string) : K -> K := void (call3 30 (w 1) (Str dir)).
Definition umka_sys_get_cwd (len : Z) : K -> bytes * K :=
  returns r_mem (call4 30 (w 2) (Out len) (w len)).

Definition umka_sys_get_mouse_pos_screen : K -> point16s * K :=
  returns (fun r => word_point (r_eax r)) (call2 37 (w 0)).
Definition umka_sys_get_mouse_pos_window : K -> point16s * K :=
  returns (fun r => word_point (r_eax r)) (call2 37 (w 1)).

Definition state_bits (z : Z) : mouse_state :=
  MouseState (Z.testbit z 0) (Z.testbit z 1) (Z.testbit z 2) (Z.testbit z 3) (Z.testbit z 4).
(** The bit fields of [struct mouse_events], three bytes. *)
Definition event_bits (z : Z) : mouse_events :=
  MouseEvents (Z.testbit z 0) (Z.testbit z 1) (Z.testbit z 2)
    (Z.testbit z 8) (Z.testbit z 9) (Z.testbit z 10) (Z.testbit z 11)
    (Z.testbit z 16) (Z.testbit z 17).

Definition umka_sys_get_mouse_buttons_state : K -> mouse_state * K :=
  returns (fun r => state_bits (r_eax r)) (call2 37 (w 2)).
Definition umka_sys_get_mouse_buttons_state_events : K -> mouse_state_events * K :=
  returns (fun r => MouseStateEvents (state_bits (r_eax r)) (event_bits (r_eax r >> 8)))
    (call2 37 (w 3)).

Definition umka_sys_load_cursor_from_file (fname : string) : K -> Z * K :=
  returns r_eax (call4 37 (w 4) (Str fname) (w 0)).
Definition umka_sys_load_cursor_from_mem (data : bytes) : K -> Z * K :=
  returns r_eax (call4 37 (w 4) (Mem data) (w 1)).
Definition umka_sys_set_cursor (handle : Z) : K -> Z * K :=
  returns r_eax (call3 37 (w 5) (w handle)).

Definition umka_sys_draw_line (x xend y yend color invert : Z) : K -> K :=
  void (call4 38 (pack x xend) (pack y yend) (w ((invert << 24) + color))).

Definition umka_sys_display_number (is_pointer base digits_to_display is_qword show_leading_zeros
    number_or_pointer x y color fill_background font draw_to_buffer scale_factor
    background_color_or_buffer : Z) : K -> K :=
  void (call6 47
    (w (is_pointer + (base << 8) + (digits_to_display << 16) + (is_qword << 30)
        + (show_leading_zeros << 31)))
    (w number_or_pointer) (pack x y)
    (w (color + (fill_background << 30) + (font << 28) + (draw_to_buffer << 27)
        + (scale_factor << 24)))
    (w background_color_or_buffer)).

(** *** Skin and style *)

Definition umka_sys_set_button_style (style : Z) : K -> K := void (call3 48 (w 1) (w style)).
Definition umka_sys_set_window_colors (colors : bytes) : K -> K :=
  void (call4 48 (w 2) (Mem colors) (w 40)).
Definition umka_sys_get_window_colors : K -> bytes * K :=
  returns r_mem (call4 48 (w 3) (Out 40) (w 40)).
Definition umka_sys_get_skin_height : K -> Z * K := returns r_eax (call2 48 (w 4)).

(** Two words of two halves each, as 48.5 and 48.7 return a rectangle. *)
Definition rect_of_words (a b : Z) : rect_t :=
  Rect (a >> 16) (b >> 16) (a .& 0xffff) (b .& 0xffff).
Definition umka_sys_get_screen_area : K -> rect_t * K :=
  returns (fun r => rect_of_words (r_eax r) (r_ebx r)) (call2 48 (w 5)).
Definition umka_sys_set_screen_area (wa : rect_t) : K -> K :=
  void (call4 48 (w 6) (pack (left wa) (right wa)) (pack (top wa) (bottom wa))).
Definition umka_sys_get_skin_margins : K -> rect_t * K :=
  returns (fun r => rect_of_words (r_eax r) (r_ebx r)) (call2 48 (w 7)).
Definition umka_sys_set_skin (path : string) : K -> Z * K :=
  returns (fun r => s32 (r_eax r)) (call3 48 (w 8) (Str path)).
Definition umka_sys_get_font_smoothing : K -> Z * K :=
  returns (fun r => s32 (r_eax r)) (call2 48 (w 9)).
Definition umka_sys_set_font_smoothing (type : Z) : K -> K := void (call3 48 (w 10) (w type)).
Definition umka_sys_get_font_size : K -> Z * K :=
  returns (fun r => s32 (r_eax r)) (call2 48 (w 11)).
Definition umka_sys_set_font_size (size : Z) : K -> K := void (call3 48 (w 12) (w size)).

(** *** Board, images, keyboard mode, memory *)

(** Only the low byte of ecx is defined. *)
Definition umka_sys_board_put (c : Z) : K -> K := void (call3 63 (w 1) (W (u8 c))).
Definition umka_sys_board_get : K -> board_get_ret * K :=
  returns (fun r => BoardGetRet (r_eax r) (r_ebx r)) (call2 63 (w 2)).

(** All seven registers, through [umka_i40]; a NULL palette is a word 0. *)
Definition umka_sys_put_image_palette (image : bytes) (xsize ysize x y bpp : Z) (palette : val)
    (row_offset : Z) : K -> K :=
  void (Regs (Some (W 65)) (Some (Mem image)) (Some (pack xsize ysize)) (Some (pack x y))
          (Some (w bpp)) (Some palette) (Some (w row_offset))).

Definition umka_sys_set_keyboard_mode (mode : Z) : K -> K := void (call3 66 (w 1) (w mode)).
Definition umka_sys_get_keyboard_mode : K -> Z * K :=
  returns (fun r => s32 (r_eax r)) (call2 66 (w 2)).
Definition umka_sys_move_window (x y xsize ysize : Z) : K -> K :=
  void (call5 67 (w x) (w y) (w xsize) (w ysize)).
Definition umka_sys_load_dll (fname : string) : K -> Z * K :=
  returns r_eax (call3 68 (w 19) (Str fname)).
Definition kos_sys_misc_init_heap : K -> Z * K := returns r_eax (call2 68 (w 11)).
Definition kos_sys_misc_load_file (fname : string) : K -> (Z * Z) * K :=
  returns (fun r => (r_eax r, r_edx r)) (call3 68 (w 27) (Str fname)).

(** The status, the count and what was stored through [buf]. *)
Definition umka_sys_lfn (arg : fs_arg) (f70or80 : Z) : K -> (f7080ret_t * bytes) * K :=
  returns (fun r => (F7080ret (s32 (r_eax r)) (r_ebx r), r_mem r)) (call2 f70or80 (Fs arg)).

Definition umka_sys_set_window_caption (caption : string) (encoding : Z) : K -> K :=
  void (call4 71 (w (if truth encoding then 2 else 1)) (Str caption) (w encoding)).

Definition umka_sys_blit_bitmap (operation background transparent client_relative : Z)
    (params : val) : K -> K :=
  void (call3 73
    (w ((client_relative << 29) + (transparent << 5) + (background << 4) + operation))
    params).

(** *** Network devices: [dev_num] is a uint8_t *)

Definition net_dev (dev_num sub : Z) : val := w ((u8 dev_num << 8) + sub).

Definition umka_sys_net_get_dev_count : K -> Z * K := returns r_eax (call2 74 (w 255)).
Definition umka_sys_net_get_dev_type (dev_num : Z) : K -> Z * K :=
  returns (fun r => s32 (r_eax r)) (call2 74 (net_dev dev_num 0)).
(** [name] is a buffer of [size] bytes. *)
Definition umka_sys_net_get_dev_name (dev_num size : Z) : K -> (Z * bytes) * K :=
  returns (fun r => (s32 (r_eax r), r_mem r)) (call3 74 (net_dev dev_num 1) (Out size)).
Definition umka_sys_net_dev_reset (dev_num : Z) : K -> Z * K :=
  returns (fun r => s32 (r_eax r)) (call2 74 (net_dev dev_num 2)).
Definition umka_sys_net_dev_stop (dev_num : Z) : K -> Z * K :=
  returns (fun r => s32 (r_eax r)) (call2 74 (net_dev dev_num 3)).
Definition umka_sys_net_get_dev (dev_num : Z) : K -> Z * K :=
  returns r_eax (call2 74 (net_dev dev_num 4)).
Definition umka_sys_net_get_packet_tx_count (dev_num : Z) : K -> Z * K :=
  returns r_eax (call2 74 (net_dev dev_num 6)).
Definition umka_sys_net_get_packet_rx_count (dev_num : Z) : K -> Z * K :=
  returns r_eax (call2 74 (net_dev dev_num 7)).
Definition umka_sys_net_get_byte_tx_count (dev_num : Z) : K -> Z * K :=
  returns r_eax (call2 74 (net_dev dev_num 8)).
Definition umka_sys_net_get_byte_rx_count (dev_num : Z) : K -> Z * K :=
  returns r_eax (call2 74 (net_dev dev_num 9)).
Definition umka_sys_net_get_link_status (dev_num : Z) : K -> Z * K :=
  returns r_eax (call2 74 (net_dev dev_num 10)).

(** *** Sockets *)

Definition f75 (r : ret) : f75ret_t := F75ret (r_eax r) (r_ebx r).

Definition umka_sys_net_open_socket (domain type protocol : Z) : K -> f75ret_t * K :=
  returns f75 (call5 75 (w 0) (w domain) (w type) (w protocol)).
Definition umka_sys_net_close_socket (fd : Z) : K -> f75ret_t * K :=
  returns f75 (call3 75 (w 1) (w fd)).
Definition umka_sys_net_bind (fd : Z) (sockaddr : bytes) (sockaddr_len : Z) : K -> f75ret_t * K :=
  returns f75 (call5 75 (w 2) (w fd) (Mem sockaddr) (w sockaddr_len)).
Definition umka_sys_net_listen (fd backlog : Z) : K -> f75ret_t * K :=
  returns f75 (call4 75 (w 3) (w fd) (w backlog)).
Definition umka_sys_net_connect (fd : Z) (sockaddr : bytes) (sockaddr_len : Z) : K -> f75ret_t * K :=
  returns f75 (call5 75 (w 4) (w fd) (Mem sockaddr) (w sockaddr_len)).
Definition umka_sys_net_accept (fd : Z) (sockaddr : bytes) (sockaddr_len : Z) : K -> f75ret_t * K :=
  returns f75 (call5 75 (w 5) (w fd) (Mem sockaddr) (w sockaddr_len)).
Definition umka_sys_net_send (fd : Z) (buf : bytes) (buf_len flags : Z) : K -> f75ret_t * K :=
  returns f75 (call6 75 (w 6) (w fd) (Mem buf) (w buf_len) (w flags)).
Definition umka_sys_net_receive (fd buf_len flags : Z) : K -> (f75ret_t * bytes) * K :=
  returns (fun r => (f75 r, r_mem r)) (call6 75 (w 7) (w fd) (Out buf_len) (w buf_len) (w flags)).

(** *** Protocols *)

Definition f76 (r : ret) : f76ret_t := F76ret (r_eax r) (r_ebx r).
Definition net_proto (proto dev_num sub : Z) : val := w ((proto << 16) + (dev_num << 8) + sub).

Definition umka_sys_net_eth_read_mac (dev_num : Z) : K -> f76ret_t * K :=
  returns f76 (call2 76 (net_proto 0 dev_num 0)).
Definition umka_sys_net_ipv4_get_addr (dev_num : Z) : K -> f76ret_t * K :=
  returns f76 (call2 76 (net_proto 1 dev_num 2)).
Definition umka_sys_net_ipv4_set_addr (dev_num addr : Z) : K -> f76ret_t * K :=
  returns f76 (call3 76 (net_proto 1 dev_num 3) (w addr)).
Definition umka_sys_net_ipv4_get_dns (dev_num : Z) : K -> f76ret_t * K :=
  returns f76 (call2 76 (net_proto 1 dev_num 4)).
Definition umka_sys_net_ipv4_set_dns (dev_num dns : Z) : K -> f76ret_t * K :=
  returns f76 (call3 76 (net_proto 1 dev_num 5) (w dns)).
Definition umka_sys_net_ipv4_get_subnet (dev_num : Z) : K -> f76ret_t * K :=
  returns f76 (call2 76 (net_proto 1 dev_num 6)).
Definition umka_sys_net_ipv4_set_subnet (dev_num subnet : Z) : K -> f76ret_t * K :=
  returns f76 (call3 76 (net_proto 1 dev_num 7) (w subnet)).
Definition umka_sys_net_ipv4_get_gw (dev_num : Z) : K -> f76ret_t * K :=
  returns f76 (call2 76 (net_proto 1 dev_num 8)).
Definition umka_sys_net_ipv4_set_gw (dev_num gw : Z) : K -> f76ret_t * K :=
  returns f76 (call3 76 (net_proto 1 dev_num 9) (w gw)).
Definition umka_sys_net_arp_get_count (dev_num : Z) : K -> f76ret_t * K :=
  returns f76 (call2 76 (net_proto 5 dev_num 2)).
(** [buf] is an [arp_entry_t] of 16 bytes. *)
Definition umka_sys_net_arp_get_entry (dev_num arp_num : Z) : K -> (f76ret_t * bytes) * K :=
  returns (fun r => (f76 r, r_mem r))
    (Regs (Some (W 76)) (Some (net_proto 5 dev_num 3)) (Some (w arp_num)) None None
          (Some (Out 16)) None).
Definition umka_sys_net_arp_add_entry (dev_num : Z) (buf : bytes) : K -> f76ret_t * K :=
  returns f76 (Regs (Some (W 76)) (Some (net_proto 5 dev_num 4)) None None (Some (Mem buf))
                 None None).
Definition umka_sys_net_arp_del_entry (dev_num arp_num : Z) : K -> f76ret_t * K :=
  returns f76 (call3 76 (net_proto 5 dev_num 5) (w arp_num)).

(** [umka_i40]: raw registers; eax and ebx are written back. *)
Definition umka_i40 (a b c d s di bp : Z) : K -> (Z * Z) * K :=
  returns (fun r => (r_eax r, r_ebx r))
    (Regs (Some (w a)) (Some (w b)) (Some (w c)) (Some (w d)) (Some (w s)) (Some (w di))
       (Some (w bp))).
End syscalls.
