(* ===== verification/SyscallProps.v ===== *)
(** Theorems about the system call wrappers (umka.h): the packed registers carry
    their fields, and getters undo setters. *)
From S2P Require Import Prelude CLib Syscall.

(** ** Fields of a word *)

Lemma shl_mul a n : 0 <= n -> a << n = a * 2 ^ n.
Proof. apply Z.shiftl_mul_pow2. Qed.
Lemma shr_div a n : 0 <= n -> a >> n = a / 2 ^ n.
Proof. apply Z.shiftr_div_pow2. Qed.

(** Bits [lo .. lo+len) of a word. *)
Definition field (lo len z : Z) : Z := (z / 2 ^ lo) mod 2 ^ len.

Lemma pack_word x y : 0 <= x < 2 ^ 16 -> 0 <= y < 2 ^ 16 -> pack x y = W (x * 2 ^ 16 + y).
Proof. intros. unfold pack, w. rewrite shl_mul by lia. by rewrite u32_small by lia. Qed.

Definition rect_ok (r : rect_t) : Prop :=
  0 <= left r < 2 ^ 16 /\ 0 <= top r < 2 ^ 16 /\ 0 <= right r < 2 ^ 16 /\ 0 <= bottom r < 2 ^ 16.

Lemma rect_of_packed r :
  rect_ok r ->
  rect_of_words (left r * 2 ^ 16 + right r) (top r * 2 ^ 16 + bottom r) = r.
Proof.
  destruct r as [l t r b]. intros (Hl & Ht & Hr & Hb). cbn in *. unfold rect_of_words.
  rewrite !shr_div by lia. change 0xffff with (Z.ones 16). rewrite !land_ones_mod by lia.
  f_equal; Z.to_euclidean_division_equations; lia.
Qed.

Lemma word_point_word p :
  - 2 ^ 15 <= pt_x p < 2 ^ 15 -> - 2 ^ 15 <= pt_y p < 2 ^ 15 -> word_point (point_word p) = p.
Proof.
  destruct p as [y x]. cbn [pt_x pt_y]. intros Hx Hy. unfold word_point, point_word. cbn [pt_x pt_y].
  rewrite shl_mul, shr_div by lia.
  pose proof (u16_range y). pose proof (u16_range x).
  replace ((u16 y + u16 x * 2 ^ 16) / 2 ^ 16) with (u16 x) by (Z.to_euclidean_division_equations; lia).
  assert (forall a b, a mod 2 ^ 16 = b mod 2 ^ 16 -> - 2 ^ 15 <= b < 2 ^ 15 -> s16 a = b) as Hs.
  { intros a b Hab Hb. unfold s16. rewrite <- (signed_id 16 b) by lia. unfold signed. by rewrite Hab. }
  f_equal; apply Hs; try lia; unfold u16.
  - rewrite Z.mod_add by lia. apply Zmod_mod.
  - apply Zmod_mod.
Qed.

Lemma u32_word z : 0 <= z < 2 ^ 32 -> w z = W z.
Proof. intros. unfold w. by rewrite u32_small by lia. Qed.

(** The wrapper's flags are C ints that mean 0 or 1. *)
Definition flag (z : Z) : Prop := 0 <= z <= 1.

Lemma lnot_flag z : flag z -> lnot z = 1 - z.
Proof. unfold flag, lnot. intros Hz. destruct (Z.eqb_spec z 0); simpl; lia. Qed.

(** ** Claims *)

(** The work area of the screen read after setting it is the one set, for
    a kernel that returns the two words it was given. *)
Theorem screen_area_roundtrip `{HK : Kernel K} (wa : rect_t) (k : K) :
  rect_ok wa ->
  (forall a b (k : K), let r := fst (i40 (call2 48 (w 5)) (snd (i40 (call4 48 (w 6) (W a) (W b)) k))) in
     r_eax r = a /\ r_ebx r = b) ->
  fst (umka_sys_get_screen_area (umka_sys_set_screen_area wa k)) = wa.
Proof.
  intros Hok Hk. pose proof Hok as (Hl & Ht & Hr & Hb).
  unfold umka_sys_set_screen_area, umka_sys_get_screen_area, void, returns.
  rewrite !pack_word by done.
  destruct (Hk (left wa * 2 ^ 16 + right wa) (top wa * 2 ^ 16 + bottom wa) k) as [Ha Hb'].
  destruct (i40 (call2 48 (w 5)) _) as [r k']. cbn [fst] in *. rewrite Ha, Hb'. by apply rect_of_packed.
Qed.

(** A kernel that keeps two words. *)
Definition two_words : Kernel (Z * Z) := fun r k =>
  match ebx r, ecx r, edx r with
  | Some (W 6), Some (W a), Some (W b) => (Ret 0 0 0 [], (a, b))
  | _, _, _ => (Ret (fst k) (snd k) 0 [], k)
  end.

Lemma screen_area_roundtrip_witness :
  fst (umka_sys_get_screen_area (H := two_words)
         (umka_sys_set_screen_area (H := two_words) (Rect 0 0 399 299) (0, 0))) = Rect 0 0 399 299.
Proof.
  apply (screen_area_roundtrip (HK := two_words)).
  - repeat split; cbn; lia.
  - intros a b k. split; reflexivity.
Defined.

(** The position of the mouse read after setting it is the one set, negative
    coordinates included, for a kernel that returns the word it was given. *)
Theorem mouse_pos_roundtrip `{HK : Kernel K} p (k : K) :
  - 2 ^ 15 <= pt_x p < 2 ^ 15 -> - 2 ^ 15 <= pt_y p < 2 ^ 15 ->
  (forall z (k : K), r_eax (fst (i40 (call2 37 (w 0)) (snd (i40 (call4 18 (w 19) (w 4) (W z)) k)))) = z) ->
  fst (umka_sys_get_mouse_pos_screen (umka_sys_set_mouse_pos_screen p k)) = p.
Proof.
  intros Hx Hy Hk. unfold umka_sys_set_mouse_pos_screen, umka_sys_get_mouse_pos_screen, void, returns.
  rewrite (u32_word (point_word p)).
  2: { unfold point_word. rewrite shl_mul by lia. pose proof (u16_range (pt_x p)). pose proof (u16_range (pt_y p)). lia. }
  specialize (Hk (point_word p) k).
  destruct (i40 (call2 37 (w 0)) _) as [r k']. cbn [fst] in *. rewrite Hk. by apply word_point_word.
Qed.

(** A kernel that keeps the word in edx. *)
Definition one_word : Kernel Z := fun r k =>
  match edx r with Some (W z) => (Ret 0 0 0 [], z) | _ => (Ret k 0 0 [], k) end.

Lemma mouse_pos_roundtrip_witness :
  fst (umka_sys_get_mouse_pos_screen (H := one_word)
         (umka_sys_set_mouse_pos_screen (H := one_word) (Point16s (-5) 40) 0)) = Point16s (-5) 40.
Proof. apply (mouse_pos_roundtrip (HK := one_word)); [cbn; lia|cbn; lia|reflexivity]. Defined.

(** The registers of [umka_sys_draw_window] carry the position and size in
    halves of ebx and ecx, and edx carries colour, style, caption, relative,
    no-fill and gradient in fields of their own, esi the not-movable bit. *)
Theorem draw_window_fields `{HK : Kernel K} x xsize y ysize color cap rel fill grad mov style caption (k : K) :
  0 <= x < 2 ^ 16 -> 0 <= xsize < 2 ^ 16 -> 0 <= y < 2 ^ 16 -> 0 <= ysize < 2 ^ 16 ->
  0 <= color < 2 ^ 24 -> 0 <= style < 2 ^ 4 ->
  flag cap -> flag rel -> flag fill -> flag grad -> flag mov ->
  exists b c d s,
    umka_sys_draw_window x xsize y ysize color cap rel fill grad mov style caption k
      = snd (i40 (call6 0 (W b) (W c) (W d) (W s) (Str caption)) k)
    /\ field 16 16 b = x /\ field 0 16 b = xsize /\ field 16 16 c = y /\ field 0 16 c = ysize
    /\ field 0 24 d = color /\ field 24 4 d = style /\ field 28 1 d = cap /\ field 29 1 d = rel
    /\ field 30 1 d = 1 - fill /\ field 31 1 d = grad /\ s = (1 - mov) * 2 ^ 24.
Proof.
  intros Hx Hxs Hy Hys Hc Hs Hcap Hrel Hfill Hgrad Hmov.
  unfold umka_sys_draw_window, void. rewrite !pack_word, !lnot_flag by done.
  unfold flag in *. rewrite !shl_mul by lia. rewrite !u32_word by lia.
  eexists _, _, _, _. split; [reflexivity|]. unfold field.
  repeat split; Z.to_euclidean_division_equations; lia.
Qed.

Lemma draw_window_fields_witness :
  exists b c d s,
    umka_sys_draw_window (H := one_word) 10 300 20 150 0xffffff 1 1 1 0 1 4 "hello" 0
      = snd (one_word (call6 0 (W b) (W c) (W d) (W s) (Str "hello")) 0)
    /\ field 16 16 b = 10 /\ field 0 16 b = 300 /\ field 16 16 c = 20 /\ field 0 16 c = 150
    /\ field 0 24 d = 0xffffff /\ field 24 4 d = 4 /\ field 28 1 d = 1 /\ field 29 1 d = 1
    /\ field 30 1 d = 1 - 1 /\ field 31 1 d = 0 /\ s = (1 - 1) * 2 ^ 24.
Proof. apply (draw_window_fields (HK := one_word)); unfold flag; lia. Defined.
