(* ===== verification/Optparse.v ===== *)
(** deps/optparse/optparse.h: the option parser the shell commands use.

    [optparse_t] is [struct optparse].  The argument vector is an array of
    slots; the parser rotates non-options behind the options it returns
    (permutation).  Where the C code would dereference a slot that does not
    hold a live string, or index outside the array, the result is [None]. *)
From S2P Require Import Prelude CLib.

(** An element of a [char *argv[]]: NULL, a live string, or a pointer into
    memory that was freed. *)
Inductive slot := SNull | SStr (s : string) | SDangling.

#[export] Instance slot_eq_dec : EqDecision slot.
Proof. solve_decision. Defined.

Record optparse_t := Optparse {
  o_argv : list slot; permute : bool; optind : nat; optopt : Z; optarg : option string;
  errmsg : string; subopt : nat }.

Definition OPTPARSE_MSG_INVALID : string := "invalid option".
Definition OPTPARSE_MSG_MISSING : string := "option requires an argument".

(** The message is cut so that it fits 64 bytes with quote and NUL. *)
Definition optparse_error (msg data : string) : string :=
  let head := msg +:+ " -- '" in
  head +:+ str_take (62 - String.length head) data +:+ "'".

Definition optparse_init (argv : list slot) : option optparse_t :=
  a ← argv !! 0%nat;
  Some (Optparse argv true (if decide (a = SNull) then 0 else 1) 0 None "" 0).

Definition optparse_is_dashdash (arg : string) : bool :=
  (char_at arg 0 =? 45) && (char_at arg 1 =? 45) && (char_at arg 2 =? 0).
Definition optparse_is_shortopt (arg : string) : bool :=
  (char_at arg 0 =? 45) && negb (char_at arg 1 =? 45) && negb (char_at arg 1 =? 0).

(** The loop moves the slots between [index] and [optind] down by one and puts
    the non-option behind them. *)
Definition optparse_permute (o : optparse_t) (index : nat) : list slot :=
  let seg := take (optind o - index) (drop index (o_argv o)) in
  take index (o_argv o) ++ drop 1 seg ++ take 1 seg ++ drop (optind o) (o_argv o).

(** -1 for an unknown option, else the number of colons after it. *)
Fixpoint argtype_scan (optstring : string) (c : Z) : Z :=
  match optstring with
  | "" => -1
  | String x rest =>
      if code x =? c
      then if char_at rest 0 =? 58 then (if char_at rest 1 =? 58 then 2 else 1) else 0
      else argtype_scan rest c
  end.
Definition optparse_argtype (optstring : string) (c : Z) : Z :=
  if c =? 58 then -1 else argtype_scan optstring c.

Definition char_str (c : Z) : string := if c =? 0 then "" else String (chr c) "".

(** An option found in the live string [arg] at [optind]. *)
Definition optparse_option (o : optparse_t) (optstring arg : string) : option (Z * optparse_t) :=
  if (String.length arg <? subopt o + 1)%nat then None else
  let option := str_drop (subopt o + 1) arg in
  let c := char_at option 0 in
  next ← o_argv o !! S (optind o);
  let mk i so oa msg := Optparse (o_argv o) (permute o) i (s8 c) oa msg so in
  let type := optparse_argtype optstring c in
  if type =? -1 then
    Some (63, mk (S (optind o)) (subopt o) None (optparse_error OPTPARSE_MSG_INVALID (char_str c)))
  else if type =? 0 then
    if char_at option 1 =? 0 then Some (s8 c, mk (S (optind o)) 0%nat None "")
    else Some (s8 c, mk (optind o) (S (subopt o)) None "")
  else if type =? 1 then
    if negb (char_at option 1 =? 0) then Some (s8 c, mk (S (optind o)) 0%nat (Some (str_drop 1 option)) "")
    else match next with
         | SNull => Some (63, mk (S (optind o)) 0%nat None
                                (optparse_error OPTPARSE_MSG_MISSING (char_str c)))
         | SStr a => Some (s8 c, mk (S (S (optind o))) 0%nat (Some a) "")
         | SDangling => None
         end
  else
    Some (s8 c, mk (S (optind o)) 0%nat
                  (if char_at option 1 =? 0 then None else Some (str_drop 1 option)) "").

(** [optparse]: the recursion over non-options ends at the latest at the end
    of the array, which bounds the fuel. *)
Fixpoint optparse_rec (fuel : nat) (o : optparse_t) (optstring : string) : option (Z * optparse_t) :=
  match fuel with
  | O => None
  | S fuel =>
      cur ← o_argv o !! optind o;
      let o := Optparse (o_argv o) (permute o) (optind o) 0 None "" (subopt o) in
      match cur with
      | SNull => Some (-1, o)
      | SDangling => None
      | SStr arg =>
          if optparse_is_dashdash arg then
            Some (-1, Optparse (o_argv o) (permute o) (S (optind o)) 0 None "" (subopt o))
          else if optparse_is_shortopt arg then optparse_option o optstring arg
          else if permute o then
            let index := optind o in
            '(r, o') ← optparse_rec fuel
                         (Optparse (o_argv o) (permute o) (S index) 0 None "" (subopt o)) optstring;
            Some (r, Optparse (optparse_permute o' index) (permute o') (optind o' - 1)
                       (optopt o') (optarg o') (errmsg o') (subopt o'))
          else Some (-1, o)
      end
  end.

Definition optparse (o : optparse_t) (optstring : string) : option (Z * optparse_t) :=
  optparse_rec (S (length (o_argv o))) o optstring.

(** The slot itself is returned: the caller may get NULL. *)
Definition optparse_arg (o : optparse_t) : option (slot * optparse_t) :=
  cur ← o_argv o !! optind o;
  Some (cur, Optparse (o_argv o) (permute o) (if decide (cur = SNull) then optind o else S (optind o))
               (optopt o) (optarg o) (errmsg o) 0).

(** ** Properties *)

Lemma permute_perm o index :
  (index <= optind o)%nat -> optparse_permute o index ≡ₚ o_argv o.
Proof.
  intros Hi. unfold optparse_permute.
  set (v := o_argv o). set (seg := take (optind o - index) (drop index v)).
  rewrite (app_assoc (drop 1 seg)), (Permutation_app_comm (drop 1 seg)), take_drop.
  rewrite <- (take_drop index v) at 3. apply Permutation_app_head.
  unfold seg. rewrite <- (take_drop (optind o - index) (drop index v)) at 2.
  apply Permutation_app_head. rewrite drop_drop. replace (index + (optind o - index))%nat with (optind o) by lia.
  done.
Qed.

(** The slots still to be read, and how much is left in them. *)
Definition slot_size (s : slot) : nat :=
  match s with SStr s => S (String.length s) | _ => 0 end.
Definition left_over (v : list slot) (i : nat) : nat := sum_list (map slot_size (drop i v)).

(** The sub-option index points into the next option: not past its last
    character. *)
Fixpoint sub_ok_in (l : list slot) (sub : nat) : Prop :=
  match l with
  | SStr a :: l =>
      if optparse_is_dashdash a then sub = 0%nat
      else if optparse_is_shortopt a then (S sub < String.length a)%nat
      else sub_ok_in l sub
  | _ => sub = 0%nat
  end.
Definition sub_ok (o : optparse_t) : Prop := sub_ok_in (drop (optind o) (o_argv o)) (subopt o).

Definition measure (o : optparse_t) : nat := left_over (o_argv o) (optind o) - subopt o.

(** What one call does to the state: nothing before [optind] changes, the
    slots are permuted, and an option consumes something. *)
Record step_ok (r : Z) (o o' : optparse_t) : Prop := {
  so_permute : permute o' = permute o;
  so_perm : o_argv o' ≡ₚ o_argv o;
  so_prefix : take (optind o) (o_argv o') = take (optind o) (o_argv o);
  so_ind : (optind o <= optind o' <= length (o_argv o))%nat;
  so_measure : r <> -1 -> (measure o' < measure o)%nat;
  so_sub : r <> -1 -> r <> 63 -> sub_ok o' }.

Lemma drop_lookup_cons {A} (v : list A) i x : v !! i = Some x -> drop i v = x :: drop (S i) v.
Proof. apply drop_S. Qed.

Lemma shortopt_length a : optparse_is_shortopt a = true -> (2 <= String.length a)%nat.
Proof.
  unfold optparse_is_shortopt, char_at. destruct a as [|c [|c' a]]; simpl; try done; [|lia].
  by destruct (_ =? 45).
Qed.

Lemma char_at_drop k s i : char_at (str_drop k s) i = char_at s (k + i).
Proof. revert s; induction k as [|k IH]; intros [|c s]; simpl; auto. Qed.

Lemma char_at_end s i : (String.length s <= i)%nat -> char_at s i = 0.
Proof.
  revert i; induction s as [|c s IH]; intros [|i] H; simpl in *; try lia; auto.
  apply IH. lia.
Qed.

(** Measures and invariants move past consumed slots. *)
Lemma left_over_cons v i x : v !! i = Some x -> left_over v i = (slot_size x + left_over v (S i))%nat.
Proof. intros H. unfold left_over. by rewrite (drop_lookup_cons _ _ _ H). Qed.

Lemma left_over_S v i : (left_over v (S i) <= left_over v i)%nat.
Proof.
  destruct (v !! i) as [x|] eqn:E; [rewrite (left_over_cons _ _ _ E); lia|].
  apply lookup_ge_None in E. unfold left_over. by rewrite !drop_ge by lia.
Qed.

Lemma sub_ok_zero l : (forall a, SStr a ∈ l -> optparse_is_shortopt a = true -> (1 < String.length a)%nat) ->
  sub_ok_in l 0.
Proof.
  induction l as [|[|a|] l IH]; intros H; simpl; try done.
  destruct (optparse_is_dashdash a); [done|]. destruct (optparse_is_shortopt a) eqn:E.
  - apply H; [set_solver|done].
  - apply IH. intros b Hb. apply H. set_solver.
Qed.

Lemma sub_ok_0 l : sub_ok_in l 0.
Proof. apply sub_ok_zero. intros a _ H. apply shortopt_length in H. lia. Qed.
#[export] Hint Resolve sub_ok_0 : umka.

(** Option characters are plain ASCII, so none of them reads as -1. *)
Fixpoint ascii_only (s : string) : bool :=
  match s with "" => true | String c s => (code c <? 128) && ascii_only s end.

Lemma argtype_ascii optstring c :
  ascii_only optstring = true -> 0 <= c -> optparse_argtype optstring c <> -1 -> 0 <= c < 128.
Proof.
  intros Ha Hc. unfold optparse_argtype. destruct (c =? 58); [done|].
  induction optstring as [|x s IH]; simpl in *; [done|].
  apply andb_prop in Ha as [Hx Ha]. destruct (Z.eqb_spec (code x) c); [lia|auto].
Qed.

Lemma char_at_range s i : 0 <= char_at s i < 256.
Proof. unfold char_at. destruct (String.get i s); [apply code_range|lia]. Qed.

Lemma option_step o optstring arg r o' :
  ascii_only optstring = true ->
  o_argv o !! optind o = Some (SStr arg) -> optparse_is_shortopt arg = true ->
  optparse_is_dashdash arg = false -> (S (subopt o) < String.length arg)%nat ->
  optparse_option o optstring arg = Some (r, o') -> step_ok r o o'.
Proof.
  intros Hasc Ha Hs Hd Hsub H. unfold optparse_option in H.
  destruct (_ <? _)%nat; [done|]. destruct (o_argv o !! S (optind o)) as [next|] eqn:Hn; [|done].
  cbn [mbind option_bind] in H. rewrite !char_at_drop, !Nat.add_0_r in H.
  set (c := char_at arg (subopt o + 1)) in *.
  pose proof (lookup_lt_Some _ _ _ Hn). pose proof (left_over_cons _ _ _ Ha) as HL. cbn [slot_size] in HL.
  assert (Hgen : forall i so c oa msg, (S (optind o) <= i <= S (S (optind o)))%nat ->
    (r <> 63 -> so = 0%nat) -> o' = Optparse (o_argv o) (permute o) i c oa msg so -> step_ok r o o').
  { intros i so c' oa msg Hi Hso ->. constructor; simpl; auto; try lia.
    - intros _. unfold measure. simpl.
      assert (left_over (o_argv o) i <= left_over (o_argv o) (S (optind o)))%nat.
      { destruct (decide (i = S (optind o))) as [->|]; [lia|].
        replace i with (S (S (optind o))) by lia. apply left_over_S. }
      lia.
    - intros _ H63. rewrite (Hso H63). unfold sub_ok. simpl. auto with umka. }
  destruct (Z.eqb_spec (optparse_argtype optstring c) (-1)) as [|Ht].
  { injection H as <- <-. eapply Hgen; [..|reflexivity]; [lia|by intros]. }
  pose proof (argtype_ascii optstring c Hasc (proj1 (char_at_range _ _)) Ht).
  assert (Hr : s8 c = c) by (unfold s8; rewrite signed_id; lia).
  rewrite Hr in H.
  destruct (_ =? 0).
  - destruct (Z.eqb_spec (char_at arg (subopt o + 1 + 1)) 0) as [|Hmore]; injection H as <- <-.
    + eapply Hgen; [..|reflexivity]; [lia|by intros].
    + assert (Hlen : (S (S (subopt o)) < String.length arg)%nat).
      { destruct (decide (S (S (subopt o)) < String.length arg)%nat); [done|].
        rewrite char_at_end in Hmore by lia. done. }
      constructor; simpl; auto; try lia.
      * unfold measure. simpl. rewrite HL. lia.
      * intros _ _. unfold sub_ok. simpl. rewrite (drop_lookup_cons _ _ _ Ha). simpl.
        by rewrite Hd, Hs.
  - destruct (_ =? 1).
    + destruct (negb _); [injection H as <- <-; eapply Hgen; [..|reflexivity]; [lia|by intros]|].
      destruct next; [| |done]; injection H as <- <-; (eapply Hgen; [..|reflexivity]; [lia|by intros]).
    + injection H as <- <-. eapply Hgen; [..|reflexivity]; [lia|by intros].
Qed.

(** The slots from [optind] on after a non-option was put behind. *)
Lemma permute_drop o index x :
  o_argv o !! index = Some x -> (index < optind o <= length (o_argv o))%nat ->
  drop (optind o - 1) (optparse_permute o index) = x :: drop (optind o) (o_argv o)
  /\ take index (optparse_permute o index) = take index (o_argv o).
Proof.
  intros Hx Hi. unfold optparse_permute.
  set (seg := take (optind o - index) (drop index (o_argv o))).
  assert (Hseg : seg = x :: take (optind o - index - 1) (drop (S index) (o_argv o))).
  { unfold seg. rewrite (drop_lookup_cons _ _ _ Hx).
    replace (optind o - index)%nat with (S (optind o - index - 1)) at 1 by lia. done. }
  assert (Hlen : length seg = (optind o - index)%nat).
  { unfold seg. rewrite length_take, length_drop. lia. }
  split.
  - rewrite (app_assoc (take index _)), drop_app_length'.
    + by rewrite Hseg.
    + rewrite length_app, length_take, length_drop, Hlen. lia.
  - by rewrite take_app_length' by (rewrite length_take; lia).
Qed.

Lemma optparse_rec_step fuel optstring : ascii_only optstring = true -> forall o r o',
  sub_ok o -> optparse_rec fuel o optstring = Some (r, o') -> step_ok r o o'.
Proof.
  intros Hasc. induction fuel as [|fuel IH]; intros o r o' Hsub H; [done|].
  cbn [optparse_rec] in H. destruct (o_argv o !! optind o) as [cur|] eqn:Hc; [|done].
  pose proof (lookup_lt_Some _ _ _ Hc) as Hlt. cbn [mbind option_bind] in H.
  unfold sub_ok in Hsub. rewrite (drop_lookup_cons _ _ _ Hc) in Hsub. cbn [sub_ok_in] in Hsub.
  destruct cur as [|arg|]; [|cbn [o_argv permute optind subopt] in H|done].
  { injection H as <- <-. constructor; simpl; auto; try lia; done. }
  destruct (optparse_is_dashdash arg) eqn:Hd.
  { injection H as <- <-. constructor; simpl; auto; try lia; done. }
  destruct (optparse_is_shortopt arg) eqn:Hs.
  { apply option_step in H; [|done..]. by destruct H. }
  destruct (permute o) eqn:Hp.
  2: { injection H as <- <-. constructor; simpl; auto; try lia; done. }
  destruct (optparse_rec _ _ _) as [[r1 o1]|] eqn:E; [|done]. cbn in H. injection H as <- <-.
  apply IH in E; [|exact Hsub]. destruct E as [E1 E2 E3 E4 E5 E6]. simpl in *.
  assert (Hx : o_argv o1 !! optind o = Some (SStr arg)).
  { rewrite <- (lookup_take_lt _ (S (optind o))), E3, lookup_take_lt by lia. done. }
  pose proof (Permutation_length E2) as Hlen.
  destruct (permute_drop o1 (optind o) (SStr arg) Hx) as [Hdr Htk]; [lia|].
  constructor; simpl.
  - congruence.
  - rewrite permute_perm by lia. done.
  - rewrite Htk. apply (f_equal (take (optind o))) in E3. rewrite !take_take in E3.
    by replace (optind o `min` S (optind o))%nat with (optind o) in E3 by lia.
  - lia.
  - intros Hr. specialize (E5 Hr). unfold measure, left_over in *. simpl in *. rewrite Hdr.
    rewrite (drop_lookup_cons _ _ _ Hc). cbn [map sum_list]. lia.
  - intros Hr H63. unfold sub_ok. simpl. rewrite Hdr. cbn [sub_ok_in]. rewrite Hd, Hs. by apply E6.
Qed.





(** The fuel of [optparse] is enough: more changes nothing. *)
Lemma optparse_rec_fuel optstring k : forall fuel o,
  (length (o_argv o) < optind o + fuel)%nat ->
  optparse_rec (fuel + k) o optstring = optparse_rec fuel o optstring.
Proof.
  induction fuel as [|fuel IH]; intros o Hf.
  - destruct k as [|k]; [done|]. cbn [optparse_rec Nat.add].
    by rewrite lookup_ge_None_2 by lia.
  - cbn [optparse_rec Nat.add]. destruct (o_argv o !! optind o) as [[|arg|]|]; try done. simpl.
    destruct (optparse_is_dashdash arg), (optparse_is_shortopt arg), (permute o); try done.
    rewrite IH by (simpl; lia). done.
Qed.

(** ** The loop [while ((opt = optparse(&opts, str)) != -1)]

    [h opt optarg a] is the body's switch: [None] when it prints the usage
    and returns. *)
Inductive opt_result (A : Type) :=
| OptDone (a : A) (o : optparse_t) | OptBad | OptUndef | OptFuel.
Arguments OptDone {A}. Arguments OptBad {A}. Arguments OptUndef {A}. Arguments OptFuel {A}.

Fixpoint opt_loop {A} (fuel : nat) (h : Z -> option string -> A -> option A) (optstring : string)
    (o : optparse_t) (a : A) : opt_result A :=
  match fuel with
  | O => OptFuel
  | S fuel =>
      match optparse o optstring with
      | None => OptUndef
      | Some (r, o') =>
          if r =? -1 then OptDone a o'
          else match h r (optarg o') a with
               | None => OptBad
               | Some a' => opt_loop fuel h optstring o' a'
               end
      end
  end.

Definition parse_options {A} (h : Z -> option string -> A -> option A) (optstring : string)
    (o : optparse_t) (a : A) : opt_result A :=
  opt_loop (S (measure o)) h optstring o a.

Lemma opt_loop_fuel {A} (h : Z -> option string -> A -> option A) optstring :
  ascii_only optstring = true -> (forall oa a, h 63 oa a = None) ->
  forall fuel o a, sub_ok o -> (measure o < fuel)%nat -> opt_loop fuel h optstring o a <> OptFuel.
Proof.
  intros Hasc Hh. induction fuel as [|fuel IH]; intros o a Hs Hm; [lia|].
  cbn [opt_loop]. destruct (optparse o optstring) as [[r o']|] eqn:E; [|done].
  apply optparse_rec_step in E; [|done..]. destruct (Z.eqb_spec r (-1)); [done|].
  destruct (decide (r = 63)) as [->|H63]; [by rewrite Hh|].
  destruct (h r _ _); [|done]. apply IH; [by apply (so_sub _ _ _ E)|].
  pose proof (so_measure _ _ _ E). lia.
Qed.

(** ** Claims *)


(** The option loop of every command ends: started on a fresh parser, with
    a body that stops at an error, the bound given by the arguments' total
    length is never reached. *)
Theorem option_loop_terminates {A} (h : Z -> option string -> A -> option A) optstring argv o a :
  ascii_only optstring = true -> (forall oa a, h 63 oa a = None) ->
  optparse_init argv = Some o -> parse_options h optstring o a <> OptFuel.
Proof.
  intros Ha Hh Hi. apply opt_loop_fuel; [done..| |lia].
  unfold optparse_init in Hi. destruct (argv !! 0%nat); [|done]. injection Hi as <-.
  unfold sub_ok. simpl. auto with umka.
Qed.

(** *** Witnesses: [mouse_move -lr 5 -x +3] *)

Definition sample_argv : list slot :=
  [SStr "mouse_move"; SStr "-lr"; SStr "5"; SStr "-x"; SStr "+3"; SNull].
Definition sample_opts : optparse_t := Optparse sample_argv true 1 0 None "" 0.
Definition collect (r : Z) (oa : option string) (a : list (Z * option string)) :=
  if r =? 63 then None else Some (a ++ [(r, oa)]).


Lemma option_loop_terminates_witness :
  exists o, parse_options collect "lmrx:y:h:v:" sample_opts []
    = OptDone [(108, None); (114, None); (120, Some "+3")] o
    /\ parse_options collect "lmrx:y:h:v:" sample_opts [] <> OptFuel.
Proof.
  eexists. split; [vm_compute; reflexivity|].
  apply (option_loop_terminates collect "lmrx:y:h:v:" sample_argv); reflexivity.
Defined.
