(* ===== verification/Usage.v ===== *)
(** shell.c: the usage texts of the shell commands, one per command, as the
    string constants of the source. *)
From S2P Require Import Prelude CLib.

(** Lines, each ended by a newline. *)
Definition text (ls : list string) : string :=
  foldr (fun l acc => l +:+ nl +:+ acc) "" ls.

Definition usage_var : string := text
  ["usage: var <$name>";
   "  $name            variable name, must start with $ sign"].
Definition usage_send_scancode : string := text
  ["usage: send_scancode <code>...";
   "  code             dec or hex number"].
Definition usage_umka_boot : string := text
  ["usage: umka_boot"].
Definition usage_umka_set_boot_params : string := text
  ["usage: umka_set_boot_params [--x_res <num>] [--y_res <num>]";
   "  --x_res <num>    screen width";
   "  --y_res <num>    screen height";
   "  --bpp <num>      screen bits per pixel";
   "  --pitch <num>    screen line length in bytes"].
Definition usage_csleep : string := text
  ["usage: csleep"].
Definition usage_wait_for_idle : string := text
  ["usage: wait_for_idle"].
Definition usage_wait_for_os_idle : string := text
  ["usage: wait_for_os_idle"].
Definition usage_wait_for_window : string := text
  ["usage: wait_for_window <window_title>"].
Definition usage_i40 : string := text
  ["usage: i40 <eax> [ebx [ecx [edx [esi [edi [ebp]]]]]]...";
   "  see '/kernel/docs/sysfuncs.txt' for details"].
Definition usage_ramdisk_init : string := text
  ["usage: ramdisk_init <file>";
   "  <file>           absolute or relative path"].
Definition usage_disk_add : string := text
  ["usage: disk_add <file> <name> [option]...";
   "  <file>           absolute or relative path";
   "  <name>           disk name, e.g. hd0 or rd";
   "  -c cache size    size of disk cache in bytes"].
Definition usage_disk_del : string := text
  ["usage: disk_del <name>";
   "  name             disk name, i.e. rd or hd0"].
Definition usage_pwd : string := text
  ["usage: pwd"].
Definition usage_set_pixel : string := text
  ["usage: set_pixel <x> <y> <color> [-i]";
   "  x                x window coordinate";
   "  y                y window coordinate";
   "  color            argb in hex";
   "  -i               inverted color"].
Definition usage_write_text : string := text
  ["usage: write_text <x> <y> <color> <string> <asciiz> <fill_bg> <font_and_enc> <draw_to_buf> <scale_factor> <length> <bg_color_or_buf>";
   "  x                x window coordinate";
   "  y                y window coordinate";
   "  color            argb in hex";
   "  string           escape spaces";
   "  asciiz           1 if the string is zero-terminated";
   "  fill_bg          fill text background with specified color";
   "  font_and_enc     font size and string encoding";
   "  draw_to_buf      draw to the buffer pointed to by the next param";
   "  length           length of the string if it is non-asciiz";
   "  bg_color_or_buf  argb or pointer"].
Definition usage_get_key : string := text
  ["usage: get_key"].
Definition usage_dump_key_buff : string := text
  ["usage: dump_key_buff [count]";
   "  count            how many items to dump (all by default)"].
Definition usage_dump_win_stack : string := text
  ["usage: dump_win_stack [count]";
   "  count            how many items to dump"].
Definition usage_dump_win_pos : string := text
  ["usage: dump_win_pos [count]";
   "  count            how many items to dump"].
Definition usage_dump_win_map : string := text
  ["usage: dump_win_map"].
Definition usage_dump_wdata : string := text
  ["usage: dump_wdata <index>";
   "  index            index into wdata array to dump";
   "  -p               print fields that are pointers"].
Definition usage_dump_appdata : string := text
  ["usage: dump_appdata <index> [-p]";
   "  index            index into appdata array to dump";
   "  -p               print fields that are pointers"].
Definition usage_switch_to_thread : string := text
  ["usage: switch_to_thread <tid>";
   "  <tid>          thread id to switch to"].
Definition usage_get : string := text
  ["usage: get <var>";
   "  <var>          variable to get"].
Definition usage_set : string := text
  ["usage: set <var> <value>";
   "  <var>          variable to set";
   "  <value>        decimal or hex value"].
Definition usage_new_sys_thread : string := text
  ["usage: new_sys_thread"].
Definition usage_mouse_move : string := text
  ["usage: mouse_move [-l] [-m] [-r] [-x {+|-|=}<value>] [-y {+|-|=}<value>] [-h {+|-}<value>] [-v {+|-}<value>]";
   "  -l             left button is held";
   "  -m             middle button is held";
   "  -r             right button is held";
   "  -x             increase, decrease or set x coordinate";
   "  -y             increase, decrease or set y coordinate";
   "  -h             scroll horizontally";
   "  -v             scroll vertically"].
Definition usage_process_info : string := text
  ["usage: process_info <pid>";
   "  pid              process id to dump, -1 for self"].
Definition usage_check_for_event : string := text
  ["usage: check_for_event"].
Definition usage_display_number : string := text
  ["usage: display_number <is_pointer> <base> <num_digits> <is_qword> <show_lead_zeros> <num_or_ptr> <x> <y> <color> <fill_bg> <font> <draw_to_buf> <scale_factor> <bg_color_or_buf>";
   "  is_pointer       if num_or_ptr argument is a pointer";
   "  base             0 - dec, 1 - hex, 2 - bin";
   "  num_digits       how many digits to print";
   "  is_qword         if 1, is_pointer = 1 and num_or_ptr is pointer";
   "  show_lead_zeros  0/1";
   "  num_or_ptr       number itself or a pointer to it";
   "  x                x window coord";
   "  y                y window coord";
   "  color            argb in hex";
   "  fill_bg          0/1";
   "  font             0 = 6x9, 1 = 8x16";
   "  draw_to_buf      0/1";
   "  scale_factor     0 = x1, ..., 7 = x8";
   "  bg_color_or_buf  depending on flags fill_bg and draw_to_buf"].
Definition usage_set_window_colors : string := text
  ["usage: set_window_colors <frame> <grab> <work_3d_dark> <work_3d_light> <grab_text> <work> <work_button> <work_button_text> <work_text> <work_graph>";
   "  *                all colors are in hex"].
Definition usage_get_window_colors : string := text
  ["usage: get_window_colors"].
Definition usage_get_skin_height : string := text
  ["usage: get_skin_height"].
Definition usage_get_screen_area : string := text
  ["usage: get_screen_area"].
Definition usage_set_screen_area : string := text
  ["usage: set_screen_area <left> <top> <right> <bottom>";
   "  left             left x coord";
   "  top              top y coord";
   "  right            right x coord (not length!)";
   "  bottom           bottom y coord"].
Definition usage_get_skin_margins : string := text
  ["usage: get_skin_margins"].
Definition usage_set_button_style : string := text
  ["usage: set_button_style <style>";
   "  style            0 - flat, 1 - 3d"].
Definition usage_set_skin : string := text
  ["usage: set_skin <path>";
   "  path             i.e. /rd/1/DEFAULT.SKN"].
Definition usage_get_keyboard_layout : string := text
  ["usage: get_keyboard_layout <-t type> [-f file]";
   "  -t type          layout type: 1 - normal, 2 - shift, 3 - alt";
   "  -f file          file name to save layout to"].
Definition usage_set_keyboard_layout : string := text
  ["usage: set_keyboard_layout <-t type> <-f file|code{128}>";
   "  -t type          layout type: 1 - normal, 2 - shift, 3 - alt";
   "  -f file          file name to read layout from";
   "  code             i-th ASCII code for the scancode i"].
Definition usage_get_keyboard_lang : string := text
  ["usage: get_keyboard_lang"].
Definition usage_get_system_lang : string := text
  ["usage: get_system_lang"].
Definition usage_set_keyboard_lang : string := text
  ["usage: set_keyboard_lang <lang_id>";
   "  lang_id          number or a two-digit code:";
   "                   1 - en, 2 - fi, 3 - ge, 4 - ru, 5 - fr, 6 - et,";
   "                   7 - ua, 8 - it, 9 - be, 10 - sp, 11 - ca"].
Definition usage_set_system_lang : string := text
  ["usage: set_system_lang <lang_id>";
   "  lang_id          number or a two-digit code:";
   "                   1 - en, 2 - fi, 3 - ge, 4 - ru, 5 - fr, 6 - et,";
   "                   7 - ua, 8 - it, 9 - be, 10 - sp, 11 - ca"].
Definition usage_get_keyboard_mode : string := text
  ["usage: get_keyboard_mode"].
Definition usage_set_keyboard_mode : string := text
  ["usage: set_keyboard_mode <mode>";
   "  mode             0 - ASCII, 1 - scancodes"].
Definition usage_get_font_smoothing : string := text
  ["usage: get_font_smoothing"].
Definition usage_set_font_smoothing : string := text
  ["usage: set_font_smoothing <mode>";
   "  mode             0 - off, 1 - gray AA, 2 - subpixel AA"].
Definition usage_get_font_size : string := text
  ["usage: get_font_size"].
Definition usage_set_font_size : string := text
  ["usage: set_font_size <size>";
   "  size             in pixels"].
Definition usage_set_mouse_pos_screen : string := text
  ["usage: set_mouse_pos_screen <x> <y>";
   "  x                in pixels";
   "  y                in pixels"].
Definition usage_get_mouse_pos_screen : string := text
  ["usage: get_mouse_pos_screen"].
Definition usage_get_mouse_pos_window : string := text
  ["usage: get_mouse_pos_window"].
Definition usage_get_mouse_buttons_state : string := text
  ["usage: get_mouse_buttons_state"].
Definition usage_get_mouse_buttons_state_events : string := text
  ["usage: get_mouse_buttons_state_events"].
Definition usage_button : string := text
  ["usage: button <x> <xsize> <y> <ysize> <id> <color> <draw_button> <draw_frame>";
   "  x                x";
   "  xsize            may be size-1, check it";
   "  y                y";
   "  ysize            may be size-1, check it";
   "  id               24-bit";
   "  color            hex";
   "  draw_button      0/1";
   "  draw_frame       0/1"].
Definition usage_kos_sys_misc_init_heap : string := text
  ["usage: kos_sys_misc_init_heap"].
Definition usage_kos_sys_misc_load_file : string := text
  ["usage: kos_sys_misc_load_file <filename> [-h] [-p]";
   "  file             file in kolibri fs, e.g. /sys/pew/blah";
   "  -h               dump bytes in hex";
   "  -p               print pointers"].
Definition usage_load_cursor_from_file : string := text
  ["usage: load_cursor_from_file <file>";
   "  file             file in .cur format in kolibri fs"].
Definition usage_load_cursor_from_mem : string := text
  ["usage: load_cursor_from_mem <file>";
   "  file             file in .cur format in host fs"].
Definition usage_set_cursor : string := text
  ["usage: set_cursor <handle>";
   "  handle           as returned by load_cursor* functions"].
Definition usage_put_image : string := text
  ["usage: put_image <file> <xsize> <ysize> <x> <y>";
   "  file             file with rgb triplets";
   "  xsize            x size";
   "  ysize            y size";
   "  x                x coord";
   "  y                y coord"].
Definition usage_put_image_palette : string := text
  ["usage: put_image_palette <file> <xsize> <ysize> <x> <y> <bpp> <row_offset>";
   "  file             path/to/file, contents according tp bpp argument";
   "  xsize            x size";
   "  ysize            y size";
   "  x                x coord";
   "  y                y coord";
   "  bpp              bits per pixel";
   "  row_offset       in bytes"].
Definition usage_draw_rect : string := text
  ["usage: draw_rect <x> <xsize> <y> <ysize> <color> [-g]";
   "  x                x coord";
   "  xsize            x size";
   "  y                y coord";
   "  ysize            y size";
   "  color            in hex";
   "  -g               0/1 - gradient"].
Definition usage_get_screen_size : string := text
  ["usage: get_screen_size"].
Definition usage_draw_line : string := text
  ["usage: draw_line <xbegin> <xend> <ybegin> <yend> <color> [-i]";
   "  xbegin           x left coord";
   "  xend             x right coord";
   "  ybegin           y top coord";
   "  yend             y bottom coord";
   "  color            hex";
   "  -i               inverted color"].
Definition usage_set_window_caption : string := text
  ["usage: set_window_caption <caption> <encoding>";
   "  caption          asciiz string";
   "  encoding         1 = cp866, 2 = UTF-16LE, 3 = UTF-8"].
Definition usage_draw_window : string := text
  ["usage: draw_window <x> <xsize> <y> <ysize> <color> <has_caption> <client_relative> <fill_workarea> <gradient_fill> <movable> <style> <caption>";
   "  x                x coord";
   "  xsize            x size";
   "  y                y coord";
   "  ysize            y size";
   "  color            hex";
   "  has_caption      0/1";
   "  client_relative  0/1";
   "  fill_workarea    0/1";
   "  gradient_fill    0/1";
   "  movable          0/1";
   "  style            1 - draw nothing, 3 - skinned, 4 - skinned fixed";
   "  caption          asciiz"].
Definition usage_window_redraw : string := text
  ["usage: window_redraw <1|2>";
   "  1                begin";
   "  2                end"].
Definition usage_move_window : string := text
  ["usage: move_window <x> <y> <xsize> <ysize>";
   "  x                new x coord";
   "  y                new y coord";
   "  xsize            x size -1";
   "  ysize            y size -1"].
Definition usage_blit_bitmap : string := text
  ["usage: blit_bitmap <dstx> <dsty> <dstxsize> <dstysize> <srcx> <srcy> <srcxsize> <srcysize> <operation> <background> <transparent> <client_relative> <row_length>";
   "  dstx             dst rect x offset, window-relative";
   "  dsty             dst rect y offset, window-relative";
   "  dstxsize         dst rect width";
   "  dstysize         dst rect height";
   "  srcx             src rect x offset, window-relative";
   "  srcy             src rect y offset, window-relative";
   "  srcxsize         src rect width";
   "  srcysize         src rect height";
   "  operation        0 - copy";
   "  background       0/1 - blit into background surface";
   "  transparent      0/1";
   "  client_relative  0/1";
   "  row_length       in bytes"].
Definition usage_write_devices_dat : string := text
  ["usage: write_devices_dat <file>";
   "  file             path/to/devices.dat"].
Definition usage_scrot : string := text
  ["usage: scrot <file>";
   "  file             path/to/file in png format"].
Definition usage_cd : string := text
  ["usage: cd <path>";
   "  path             path/to/dir"].
Definition usage_exec : string := text
  ["usage: exec <file>";
   "  file           executable to run"].
Definition usage_ls70 : string := text
  ["usage: ls70 [dir] [option]...";
   "  -f number        index of the first dir entry to read";
   "  -c number        number of dir entries to read";
   "  -e encoding      cp866|utf16|utf8";
   "                   return directory listing in this encoding"].
Definition usage_ls80 : string := text
  ["usage: ls80 [dir] [option]...";
   "  -f number        index of the first dir entry to read";
   "  -c number        number of dir entries to read";
   "  -e encoding      cp866|utf16|utf8";
   "                   return directory listing in this encoding";
   "  -p encoding      cp866|utf16|utf8";
   "                   path to dir is specified in this encoding"].
Definition usage_stat : string := text
  ["usage: stat <file> [-c] [-m] [-a]";
   "  file             path/to/file";
   "  [-c]             force show creation time";
   "  [-m]             force show modification time";
   "  [-a]             force show access time"].
Definition usage_read70 : string := text
  ["usage: read70 <file> <offset> <length> [-b] [-h]";
   "  file             path/to/file";
   "  offset           in bytes";
   "  length           in bytes";
   "  -b               dump bytes in hex";
   "  -h               print hash of data read"].
Definition usage_read80 : string := text
  ["usage: read80 <file> <offset> <length> [-b] [-h] [-e cp866|utf8|utf16]";
   "  file             path/to/file";
   "  offset           in bytes";
   "  length           in bytes";
   "  -b               dump bytes in hex";
   "  -h               print hash of data read";
   "  -e               encoding"].
Definition usage_acpi_preload_table : string := text
  ["usage: acpi_preload_table <file>";
   "  file             path/to/local/file.aml"].
Definition usage_acpi_enable : string := text
  ["usage: acpi_enable"].
Definition usage_acpi_get_node_cnt : string := text
  ["usage: acpi_get_node_cnt"].
Definition usage_acpi_get_node_alloc_cnt : string := text
  ["usage: acpi_get_node_alloc_cnt"].
Definition usage_acpi_get_node_free_cnt : string := text
  ["usage: acpi_get_node_free_cnt"].
Definition usage_acpi_set_usage : string := text
  ["usage: acpi_set_usage <num>";
   "  num            one of ACPI_USAGE_* constants"].
Definition usage_acpi_get_usage : string := text
  ["usage: acpi_get_usage"].
Definition usage_acpi_call : string := text
  ["usage: acpi_call <method> [args...]";
   "  method         name of acpi method to call, e.g. \_SB_PCI0_PRT"].
Definition usage_pci_set_path : string := text
  ["usage: pci_set_path <path>";
   "  path           where aaaa:bb:cc.d dirs are"].
Definition usage_pci_get_path : string := text
  ["usage: pci_get_path"].
Definition usage_load_dll : string := text
  ["usage: load_dll <path>";
   "  path           /path/to/library.obj in KolibriOS fs"].
Definition usage_stack_init : string := text
  ["usage: stack_init"].
Definition usage_net_add_device : string := text
  ["usage: net_add_device <devtype>";
   "  devtype          null, file or tap"].
Definition usage_net_get_dev_count : string := text
  ["usage: net_get_dev_count"].
Definition usage_net_get_dev_type : string := text
  ["usage: net_get_dev_type <dev_num>";
   "  dev_num        device number as returned by net_add_device"].
Definition usage_net_get_dev_name : string := text
  ["usage: net_get_dev_name <dev_num>";
   "  dev_num        device number as returned by net_add_device"].
Definition usage_net_dev_reset : string := text
  ["usage: net_dev_reset <dev_num>";
   "  dev_num        device number as returned by net_add_device"].
Definition usage_net_dev_stop : string := text
  ["usage: net_dev_stop <dev_num>";
   "  dev_num        device number as returned by net_add_device"].
Definition usage_net_get_dev : string := text
  ["usage: net_get_dev <dev_num>";
   "  dev_num        device number as returned by net_add_device"].
Definition usage_net_get_packet_tx_count : string := text
  ["usage: net_get_packet_tx_count <dev_num>";
   "  dev_num        device number as returned by net_add_device"].
Definition usage_net_get_packet_rx_count : string := text
  ["usage: net_get_packet_rx_count <dev_num>";
   "  dev_num        device number as returned by net_add_device"].
Definition usage_net_get_byte_tx_count : string := text
  ["usage: net_get_byte_tx_count <dev_num>";
   "  dev_num        device number as returned by net_add_device"].
Definition usage_net_get_byte_rx_count : string := text
  ["usage: net_get_byte_rx_count <dev_num>";
   "  dev_num        device number as returned by net_add_device"].
Definition usage_net_get_link_status : string := text
  ["usage: net_get_link_status <dev_num>";
   "  dev_num        device number as returned by net_add_device"].
Definition usage_net_open_socket : string := text
  ["usage: net_open_socket <domain> <type> <protocol>";
   "  domain         domain";
   "  type           type";
   "  protocol       protocol"].
Definition usage_net_close_socket : string := text
  ["usage: net_close_socket <socknum>";
   "  socknum        socket number"].
Definition usage_net_bind : string := text
  ["usage: net_bind <fd> <port> <ip>";
   "  fd             socket number";
   "  port           port";
   "  addr           addr"].
Definition usage_net_listen : string := text
  ["usage: net_listen <fd> <backlog>";
   "  fd             socket number";
   "  backlog        max queue length"].
Definition usage_net_connect : string := text
  ["usage: net_connect <fd> <port> <ip>";
   "  fd             socket number";
   "  port           port";
   "  addr           addr"].
Definition usage_net_accept : string := text
  ["usage: net_accept <fd> <port> <ip>";
   "  fd             socket number";
   "  port           port";
   "  addr           addr"].
Definition usage_net_eth_read_mac : string := text
  ["usage: net_eth_read_mac <dev_num>";
   "  dev_num        device number as returned by net_add_device"].
Definition usage_net_ipv4_get_addr : string := text
  ["usage: net_ipv4_get_addr <dev_num>";
   "  dev_num        device number as returned by net_add_device"].
Definition usage_net_ipv4_set_addr : string := text
  ["usage: net_ipv4_set_addr <dev_num> <addr>";
   "  dev_num        device number as returned by net_add_device";
   "  addr           a.b.c.d"].
Definition usage_net_ipv4_get_dns : string := text
  ["usage: net_ipv4_get_dns <dev_num>";
   "  dev_num        device number as returned by net_add_device"].
Definition usage_net_ipv4_set_dns : string := text
  ["usage: net_ipv4_set_dns <dev_num> <dns>";
   "  dev_num        device number as returned by net_add_device";
   "  dns            a.b.c.d"].
Definition usage_net_ipv4_get_subnet : string := text
  ["usage: net_ipv4_get_subnet <dev_num>";
   "  dev_num        device number as returned by net_add_device"].
Definition usage_net_ipv4_set_subnet : string := text
  ["usage: net_ipv4_set_subnet <dev_num> <subnet>";
   "  dev_num        device number as returned by net_add_device";
   "  subnet         a.b.c.d"].
Definition usage_net_ipv4_get_gw : string := text
  ["usage: net_ipv4_get_gw <dev_num>";
   "  dev_num        device number as returned by net_add_device"].
Definition usage_net_ipv4_set_gw : string := text
  ["usage: net_ipv4_set_gw <dev_num> <gw>";
   "  dev_num        device number as returned by net_add_device";
   "  gw             a.b.c.d"].
Definition usage_net_arp_get_count : string := text
  ["usage: net_arp_get_count <dev_num>";
   "  dev_num        device number as returned by net_add_device"].
Definition usage_net_arp_get_entry : string := text
  ["usage: net_arp_get_entry <dev_num> <arp_num>";
   "  dev_num        device number as returned by net_add_device";
   "  arp_num        arp number as returned by net_add_device"].
Definition usage_net_arp_add_entry : string := text
  ["usage: net_arp_add_entry <dev_num> <addr> <mac> <status> <ttl>";
   "  dev_num        device number as returned by net_add_device";
   "  addr           IP addr";
   "  mac            ethernet addr";
   "  status         see ARP.inc";
   "  ttl            Time to live"].
Definition usage_net_arp_del_entry : string := text
  ["usage: net_arp_del_entry <dev_num> <arp_num>";
   "  dev_num        device number as returned by net_add_device";
   "  arp_num        arp number as returned by net_add_device"].
Definition usage_osloop : string := text
  ["usage: osloop"].
Definition usage_bg_set_size : string := text
  ["usage: bg_set_size <xsize> <ysize>";
   "  xsize          in pixels";
   "  ysize          in pixels"].
Definition usage_bg_put_pixel : string := text
  ["usage: bg_put_pixel <offset> <color>";
   "  offset         in bytes, (x+y*xsize)*3";
   "  color          in hex"].
Definition usage_bg_redraw : string := text
  ["usage: bg_redraw"].
Definition usage_bg_set_mode : string := text
  ["usage: bg_set_mode <mode>";
   "  mode           1 = tile, 2 = stretch"].
Definition usage_bg_put_img : string := text
  ["usage: bg_put_img <image> <offset>";
   "  image          file";
   "  offset         in bytes, (x+y*xsize)*3"].
Definition usage_board_get : string := text
  ["usage: board_get [<-l|-a>] [-n]"].
Definition usage_board_put : string := text
  ["usage: board_put <char>"].
Definition usage_bg_map : string := text
  ["usage: bg_map"].
Definition usage_bg_unmap : string := text
  ["usage: bg_unmap <addr>";
   "  addr           return value of bg_map"].
Definition usage_help : string := text
  ["usage: help [command]";
   "  command        help on this command usage"].
