(* ===== verification/Shell.v ===== *)
(** shell.c and shell.h: the state of the shell, its variables, its command
    slot, and the helpers the commands share.

    A command is a computation [M A] over [world]: the output stream, the
    kernel, the shell's variables and static data, and the host's files.
    [Undef] is behaviour the C standard leaves undefined (NULL or freed
    pointers, indices outside an array, indeterminate values), [NoFuel] marks a
    loop whose bound was not enough.  The emulated kernel ([ShellKernel]) and
    the host ([Host]) are parameters.  The coverage switches are left out, and
    so are pointers that are only freed. *)
From S2P Require Import LodeColor Prelude CLib Io Disk Raw Qcow2 Vdisk Umkart Vnet Syscall Optparse.

Definition MAX_COMMAND_ARGS : nat := 42.
Definition PRINT_BYTES_PER_LINE : nat := 32.
Definition MAX_DIRENTS_TO_READ : Z := 100.
Definition PATH_MAX : Z := 4096.
Definition RAMDISK_MAX_LEN : Z := 2880 * 512.
Definition DEFAULT_READDIR_ENCODING : Z := UTF8.
Definition DEFAULT_PATH_ENCODING : Z := UTF8.
Definition HASH_SIZE : nat := 32.

(** ** The kernel as the shell sees it *)

(** Scalar variables of the kernel and of [kos_boot] and [kos_display]. *)
Inductive kvar :=
| RedrawBackground | KeyCount | Syslang | Keyboard | KeyboardMode | CurrentSlotIdx
| AcpiUsage | AcpiAllocCnt | AcpiFreeCnt | AcpiSsdtCnt | IdleScheduled | OsScheduled
| BootXres | BootYres | BootBpp | BootPitch.

Definition kwidth (v : kvar) : Z :=
  match v with
  | RedrawBackground | KeyCount | KeyboardMode | BootBpp => 8
  | BootXres | BootYres | BootPitch => 16
  | _ => 32
  end.

(** Arrays: [kos_key_buff], [kos_win_stack], [kos_win_pos], [win_map]. *)
Inductive karray := KeyBuff | WinStack | WinPos | WinMap.

(** The members of [wdata_t] and [appdata_t] the shell prints; strings may be
    NULL, [wd_thread] and the list links are addresses. *)
Record wdata := WData {
  wd_caption_encoding : Z; wd_caption : option string; wd_clientbox : box_t;
  wd_draw_bgr_x : Z; wd_draw_bgr_y : Z; wd_thread : Z; wd_cursor : Z }.
Record appdata := AppData {
  ad_app_name : string; ad_process : Z; ad_fpu_state : Z; ad_exc_handler : Z; ad_except_mask : Z;
  ad_pl0_stack : Z; ad_fd_ev : Z; ad_bk_ev : Z; ad_fd_obj : Z; ad_bk_obj : Z; ad_saved_esp : Z;
  ad_dbg_state : Z; ad_cur_dir : option string; ad_event_mask : Z; ad_tid : Z; ad_state : Z;
  ad_wnd_number : Z; ad_terminate_protection : Z; ad_keyboard_mode : Z;
  ad_exec_params : option string; ad_priority : Z; ad_sched_prev : Z; ad_sched_next : Z }.

(** [fs_user_functions]: the file systems the shell can name. *)
Inductive fs_kind := FsXfs | FsExt | FsFat | FsExfat | FsNtfs | FsIso9660 | FsOther.
Record partition_t := Partition { p_first_sector : Z; p_length : Z; p_fs : fs_kind }.
Record disk_t := DiskT {
  d_name : string; d_sector_size : Z; d_capacity : Z; d_partitions : list partition_t }.

Class ShellKernel (K : Type) := {
  sk_kernel :: Kernel K;
  kget : kvar -> K -> Z;
  kset : kvar -> Z -> K -> K;
  karr : karray -> K -> list Z;
  kos_window_data : Z -> K -> option wdata;
  kos_slot_base : K -> Z;
  kos_slot : Z -> K -> option appdata;
  (** memory at a kernel address *)
  kmem : Z -> Z -> K -> bytes;
  umka_boot : K -> K;
  kos_new_sys_threads : K -> Z * K;
  umka_new_sys_threads : string -> K -> Z * K;   (* with a thread name *)
  kos_wait_events : (K -> bool) -> K -> option K;
  kos_set_mouse_data : Z -> Z -> Z -> Z -> Z -> K -> K;
  kos_set_keyboard_data : Z -> K -> K;
  kos_osloop : K -> K;
  kos_stack_init : K -> K;
  kos_enable_acpi : K -> K;
  kos_acpi_call_name : string -> K -> K;
  kos_acpi_count_nodes : K -> Z * K;
  kos_acpi_preload : Z -> bytes -> K -> K;
  kos_net_add_device : eth_device -> K -> Z * K;
  kos_ramdisk_init : bytes -> K -> Z * K;
  kos_disk_add : disk -> string -> K -> Z * K;
  kos_disk_media_changed : Z -> Z -> K -> K;
  kos_disk_del : Z -> K -> K;
  disk_list : K -> list Z;
  kdisk : Z -> K -> disk_t;
  kos_display : K -> display;
  kos_pci_tree : K -> list pci_dev }.

(** Library and host calls whose results the shell only passes on. *)
Class Host := {
  strerror : string -> string;             (* of a failed open of a file *)
  inet_addr : string -> Z;
  hash_oneshot : bytes -> bytes;
  local_time : bytes -> Z * Z * Z * (Z * Z * Z);   (* kos_time_to_epoch and localtime *)
  mac_junk : bytes;                        (* six bytes of the stack *)
  host_addr : Z;                           (* address of a local variable *)
  h_memory : Memory;                       (* memory before it is written *)
  can_write : string -> bool;              (* fopen for writing succeeds *)
  h_open : string -> Z * option Posix.fdesc;
  h_net_open : string -> Z -> Z;
  h_ioctl : tap_request -> Z;
  h_calloc_ok : bool;
  h_alloc : Z -> option bytes;
  h_stack : bytes;
  h_async_read : option Posix.fdesc -> Z -> Z * bytes * option Posix.fdesc }.

#[export] Instance host_memory {H : Host} : Memory := h_memory.

(** ** The shell's state *)

Inductive shell_var_type := SHELL_VAR_SINT | SHELL_VAR_UINT | SHELL_VAR_POINTER.

Definition SHELL_VAR_NAME_LEN : Z := 16.

(** [struct shell_var]; the union holds one 32-bit word. *)
Record shell_var := ShellVar { v_type : shell_var_type; v_name : string; v_value : Z }.

Definition UMKA_CMD_NONE : Z := 0.
Definition UMKA_CMD_SET_MOUSE_DATA : Z := 1.
Definition UMKA_CMD_WAIT_FOR_IDLE : Z := 2.
Definition UMKA_CMD_WAIT_FOR_OS_IDLE : Z := 3.
Definition UMKA_CMD_WAIT_FOR_WINDOW : Z := 4.
Definition UMKA_CMD_SYS_CSLEEP : Z := 5.
Definition UMKA_CMD_SYS_PROCESS_INFO : Z := 6.
Definition UMKA_CMD_SYS_GET_MOUSE_POS_SCREEN : Z := 7.
Definition UMKA_CMD_SYS_LFN : Z := 8.
Definition UMKA_CMD_SEND_SCANCODE : Z := 9.

Definition SHELL_CMD_STATUS_EMPTY : Z := 0.
Definition SHELL_CMD_STATUS_READY : Z := 1.
Definition SHELL_CMD_STATUS_DONE : Z := 2.

(** The union of [struct umka_cmd]. *)
Inductive cmd_arg :=
| ArgNone
| ArgMouse (btn_state xmoving ymoving vscroll hscroll : Z)
| ArgScancode (scancode : Z)
| ArgWindow (wnd_title : string)
| ArgCsleep (csec : Z)
| ArgLfn (f70or80 : Z) (bufptr : fs_arg).

(** [umka_cmd_buf[0]]; [uc_lfn] is where the lfn argument's [r] and buffer
    pointers lead. *)
Record umka_cmd := UmkaCmd {
  uc_status : Z; uc_type : Z; uc_arg : cmd_arg; uc_lfn : f7080ret_t * bytes }.

(** [cur_dir], the offset of [last_dir] in it, [cur_dir_changed]. *)
Record dirs := Dirs { cur_dir : bytes; last_dir : nat; cur_dir_changed : bool }.

(** What does not change while commands run. *)
Record conf := Conf { reproducible : bool; running : Z; booted : bool }.

Record world (K : Type) := World {
  w_out : string; w_k : K; w_vars : list shell_var; w_cmd : umka_cmd; w_dirs : dirs;
  w_files : gmap string bytes; w_pci_path : string; w_conf : conf }.
Arguments World {K}. Arguments w_out {K}. Arguments w_k {K}. Arguments w_vars {K}.
Arguments w_cmd {K}. Arguments w_dirs {K}. Arguments w_files {K}. Arguments w_pci_path {K}.
Arguments w_conf {K}.

Definition set_out {K} (s : string) (w : world K) : world K :=
  World s (w_k w) (w_vars w) (w_cmd w) (w_dirs w) (w_files w) (w_pci_path w) (w_conf w).
Definition set_k {K} (k : K) (w : world K) : world K :=
  World (w_out w) k (w_vars w) (w_cmd w) (w_dirs w) (w_files w) (w_pci_path w) (w_conf w).
Definition set_vars {K} (v : list shell_var) (w : world K) : world K :=
  World (w_out w) (w_k w) v (w_cmd w) (w_dirs w) (w_files w) (w_pci_path w) (w_conf w).
Definition set_cmd {K} (c : umka_cmd) (w : world K) : world K :=
  World (w_out w) (w_k w) (w_vars w) c (w_dirs w) (w_files w) (w_pci_path w) (w_conf w).
Definition set_dirs {K} (d : dirs) (w : world K) : world K :=
  World (w_out w) (w_k w) (w_vars w) (w_cmd w) d (w_files w) (w_pci_path w) (w_conf w).
Definition set_files {K} (f : gmap string bytes) (w : world K) : world K :=
  World (w_out w) (w_k w) (w_vars w) (w_cmd w) (w_dirs w) f (w_pci_path w) (w_conf w).
Definition set_pci_path {K} (p : string) (w : world K) : world K :=
  World (w_out w) (w_k w) (w_vars w) (w_cmd w) (w_dirs w) (w_files w) p (w_conf w).

(** ** Computations *)

Inductive outcome (K A : Type) := Done (a : A) (w : world K) | Undef | NoFuel.
Arguments Done {K A}. Arguments Undef {K A}. Arguments NoFuel {K A}.

Definition M (K A : Type) : Type := world K -> outcome K A.

#[export] Instance M_ret {K} : MRet (M K) := fun A a w => Done a w.
#[export] Instance M_bind {K} : MBind (M K) := fun A B f m w =>
  match m w with Done a w' => f a w' | Undef => Undef | NoFuel => NoFuel end.

Section monad.
Context {K : Type}.

Definition skip : M K unit := mret tt.
Definition undef {A} : M K A := fun _ => Undef.
Definition nofuel {A} : M K A := fun _ => NoFuel.
Definition get {A} (f : world K -> A) : M K A := fun w => Done (f w) w.
Definition modify (f : world K -> world K) : M K unit := fun w => Done tt (f w).

(** [fputs(s, ctx->fout)] and the like; [ctx->fout] is stdout. *)
Definition put (s : string) : M K unit := fun w => Done tt (set_out (w_out w +:+ s) w).
Definition putl (l : list string) : M K unit := put (foldr String.append "" l).
Definition line (l : list string) : M K unit := putl (l ++ [nl]).

(** A call of the kernel, with or without a result. *)
Definition sys {A} (f : K -> A * K) : M K A := fun w =>
  let '(a, k) := f (w_k w) in Done a (set_k k w).
Definition sys_ (f : K -> K) : M K unit := fun w => Done tt (set_k (f (w_k w)) w).
Definition peek {A} (f : K -> A) : M K A := fun w => Done (f (w_k w)) w.

Definition need {A} (o : option A) : M K A := match o with Some a => mret a | None => undef end.

(** [argv[i]] as a pointer, and as a string that is read. *)
Definition argp (argv : option (list slot)) (i : nat) : M K slot :=
  match argv with Some v => need (v !! i) | None => undef end.
Definition str_of (s : slot) : M K string :=
  match s with SStr s => mret s | _ => undef end.
Definition arg (argv : option (list slot)) (i : nat) : M K string :=
  s ← argp argv i; str_of s.
(** [strtoul(argv[i], NULL, base)] and [strtol] *)
Definition num (argv : option (list slot)) (i : nat) (base : Z) : M K Z :=
  s ← arg argv i; mret (strtoul s base).
Definition snum (argv : option (list slot)) (i : nat) (base : Z) : M K Z :=
  s ← arg argv i; mret (strtol s base).

Fixpoint each {A} (f : A -> M K unit) (l : list A) : M K unit :=
  match l with [] => skip | a :: l => f a ;; each f l end.

(** The usage is printed when the number of arguments is wrong. *)
Definition usage_unless (ok : bool) (usage : string) (m : M K unit) : M K unit :=
  if ok then m else put usage.

(** The option loop of a command; [usage] is printed at a bad option. *)
Definition with_options {A} (usage optstring : string) (h : Z -> option string -> A -> option A)
    (o : optparse_t) (a : A) (cont : A -> M K unit) : M K unit :=
  match parse_options h optstring o a with
  | OptDone a _ => cont a
  | OptBad => put usage
  | OptUndef => undef
  | OptFuel => nofuel
  end.

(** [fopen(name, "rb")], fseek, ftell, fread: the whole file. *)
Definition read_file (fname : string) : M K (option bytes) := get (fun w => w_files w !! fname).
End monad.

(** printf conversions *)
Definition fmt_p (z : Z) : string := if z =? 0 then "(nil)" else "0x" +:+ fmt_x z.
Definition fmt_s (s : option string) : string := match s with Some s => s | None => "(null)" end.
Definition fmt_c (z : Z) : string := String (chr z) "".

Section helpers.
Context `{Kn : ShellKernel K} `{Ho : Host}.
Abbreviation M := (M K).

(** *** Status and attributes *)

Definition f70_status_name : list string :=
  ["success"; "disk_base"; "unsupported_fs"; "unknown_fs"; "partition"; "file_not_found";
   "end_of_file"; "memory_pointer"; "disk_full"; "fs_fail"; "access_denied"; "device";
   "out_of_memory"].

Definition get_f70_status_name (s : Z) : string :=
  if (0 <=? s) && (s <=? KOS_ERROR_OUT_OF_MEMORY)
  then default "unknown" (f70_status_name !! Z.to_nat s) else "unknown".

Definition convert_f70_file_attr (attr : Z) : string :=
  let flag m c := if truth (attr .& m) then c else "-" in
  flag KF_READONLY "r" +:+ flag KF_HIDDEN "h" +:+ flag KF_SYSTEM "s" +:+ flag KF_LABEL "l"
  +:+ flag KF_FOLDER "f".

Definition print_f70_status (r : f7080ret_t) (use_ebx : bool) : M unit :=
  putl (["status = "; fmt_d (f_status r); " "; get_f70_status_name (f_status r)]
        ++ (if use_ebx && ((f_status r =? KOS_ERROR_SUCCESS) || (f_status r =? KOS_ERROR_END_OF_FILE))
            then [", count = "; fmt_d (s32 (f_count r))] else []) ++ [nl]).

(** *** Numbers *)

Definition parse_uintmax (str : string) : Z * bool :=
  (strtoumax str 0, negb (streq str (strto_end str 0)) && streq (strto_end str 0) "").

Definition parse_uint32 (str : string) : M (option Z) :=
  let '(x, ok) := parse_uintmax str in
  if ok && (x <=? UINT32_MAX) then mret (Some x)
  else line ["invalid number: "; str] ;; mret None.

Definition parse_uint64 (str : string) : M (option Z) :=
  let '(x, ok) := parse_uintmax str in
  if ok && (x <=? UINT64_MAX) then mret (Some x)
  else line ["invalid number: "; str] ;; mret None.

(** *** Variables *)

Fixpoint shell_var_get (vars : list shell_var) (name : string) : option shell_var :=
  match vars with
  | [] => None
  | v :: vars => if streq (v_name v) name then Some v else shell_var_get vars name
  end.

(** [None]: the value is left as it was. *)
Definition shell_parse_sint (s : string) : M (option Z) :=
  if char_at s 0 =? 36
  then get (fun w => (fun v => s32 (v_value v)) <$> shell_var_get (w_vars w) s)
  else mret (Some (strtol s 0)).
Definition shell_parse_uint (s : string) : M (option Z) :=
  if char_at s 0 =? 36
  then get (fun w => (fun v => u32 (v_value v)) <$> shell_var_get (w_vars w) s)
  else mret (Some (strtoul s 0)).
Definition shell_parse_ptr (s : string) : M (option Z) :=
  if char_at s 0 =? 36
  then get (fun w => (fun v => u32 (v_value v)) <$> shell_var_get (w_vars w) s)
  else mret (Some (strtoul s 0)).

(** The newest variable gets its name once. *)
Definition shell_var_name (name : string) (vars : list shell_var) : bool * list shell_var :=
  match vars with
  | [] => (false, vars)
  | v :: vs =>
      if negb (streq (v_name v) "") then (false, vars)
      else if negb (char_at name 0 =? 36) || (SHELL_VAR_NAME_LEN <=? strlen name) then (false, vars)
      else (true, ShellVar (v_type v) name (v_value v) :: vs)
  end.

(** [shell_var_add] and the assignment of type and value by its callers: an
    unnamed newest variable is used again. *)
Definition shell_var_add (t : shell_var_type) (value : Z) (vars : list shell_var) : list shell_var :=
  match vars with
  | v :: vs => if streq (v_name v) "" then ShellVar t "" (u32 value) :: vs
               else ShellVar t "" (u32 value) :: vars
  | [] => [ShellVar t "" (u32 value)]
  end.
Definition shell_var_add_sint (value : Z) : M unit :=
  modify (fun w => set_vars (shell_var_add SHELL_VAR_SINT value (w_vars w)) w).
Definition shell_var_add_uint (value : Z) : M unit :=
  modify (fun w => set_vars (shell_var_add SHELL_VAR_UINT value (w_vars w)) w).
Definition shell_var_add_ptr (value : Z) : M unit :=
  modify (fun w => set_vars (shell_var_add SHELL_VAR_POINTER value (w_vars w)) w).

(** *** Dumps *)

(** Byte [i] is preceded by a newline when a line is full. *)
Fixpoint bytes_text (i : nat) (x : bytes) : string :=
  match x with
  | [] => ""
  | b :: x =>
      (if ((i mod PRINT_BYTES_PER_LINE =? 0) && negb (i =? 0))%nat then nl else "")
      +:+ fmt_x2 b +:+ bytes_text (S i) x
  end.

(** [len] bytes of an array [x]. *)
Definition print_bytes (x : bytes) (len : Z) : M unit :=
  if Z.of_nat (length x) <? len then undef
  else put (bytes_text 0 (take (Z.to_nat len) x) +:+ nl).

Definition print_hash (x : bytes) (len : Z) : M unit :=
  if Z.of_nat (length x) <? len then undef
  else line (map fmt_x2 (take HASH_SIZE (hash_oneshot (take (Z.to_nat len) x)))).

(** *** Directories *)

(** The offset of the last component: of the slash itself for the root. *)
Definition get_last_dir (path : string) : nat :=
  match strrchr path "/"%char with
  | None => 0
  | Some last =>
      let off := (String.length path - String.length last)%nat in
      if negb (off =? 0)%nat || negb (char_at last 1 =? 0) then S off else off
  end.

Definition load_cwd : M unit :=
  b ← sys (umka_sys_get_cwd PATH_MAX);
  modify (fun w => let d := w_dirs w in
    set_dirs (Dirs (overlay 0 b (cur_dir d)) (last_dir d) (cur_dir_changed d)) w).

Definition last_dir_text (d : dirs) : string := cstring (drop (last_dir d) (cur_dir d)).

Definition prompt : M unit :=
  changed ← get (fun w => cur_dir_changed (w_dirs w));
  (if changed : bool then
     b ← get (fun w => booted (w_conf w));
     (if b : bool then load_cwd else skip) ;;
     modify (fun w => let d := w_dirs w in
       set_dirs (Dirs (cur_dir d) (get_last_dir (cstring (cur_dir d))) false) w)
   else skip) ;;
  d ← get w_dirs;
  putl [last_dir_text d; "> "].

(** *** The command slot *)

Definition umka_wait_for_idle_test (k : K) : bool := truth (kget IdleScheduled k).
Definition umka_wait_for_os_test (k : K) : bool := truth (kget OsScheduled k).

(** [kos_wait_events] returns when the test holds; [None]: never. *)
Definition wait_events (test : K -> bool) : M unit := fun w =>
  match kos_wait_events test (w_k w) with Some k => Done tt (set_k k w) | None => NoFuel end.

Definition umka_wait_for_idle : M unit :=
  sys_ (kset IdleScheduled 0) ;; wait_events umka_wait_for_idle_test.
Definition umka_wait_for_os_idle : M unit :=
  sys_ (kset OsScheduled 0) ;; wait_events umka_wait_for_os_test ;;
  sys_ (kset IdleScheduled 0) ;; wait_events umka_wait_for_idle_test.

(** A slot that is not free has a window of that title, among the 256. *)
Definition KOS_TSTATE_FREE : Z := 9.
Definition umka_wait_for_window_test (title : string) (k : K) : bool :=
  existsb (fun i =>
    match kos_slot i k, kos_window_data i k with
    | Some a, Some wd =>
        negb (ad_state a =? KOS_TSTATE_FREE)
        && match wd_caption wd with Some c => streq c title | None => false end
    | _, _ => false
    end) (seqZ 0 256).
Definition umka_wait_for_window (title : string) : M unit :=
  wait_events (umka_wait_for_window_test title).

Definition set_status (s : Z) : M unit :=
  modify (fun w => let c := w_cmd w in
    set_cmd (UmkaCmd s (uc_type c) (uc_arg c) (uc_lfn c)) w).

(** The first word of the union, the member [send_scancode.arg.scancode]; the
    static slot starts as zeros.  A title is a pointer, whose value is unknown. *)
Definition first_word (a : cmd_arg) : option Z :=
  match a with
  | ArgNone => Some 0
  | ArgMouse b _ _ _ _ => Some (s32 b)
  | ArgScancode s => Some s
  | ArgWindow _ => None
  | ArgCsleep c => Some (s32 c)
  | ArgLfn f _ => Some (s32 f)
  end.

Definition umka_set_keyboard_data (scancode : Z) : M unit := sys_ (kos_set_keyboard_data (u32 scancode)).

(** The switch on the type of the slot. *)
Definition run_slot : M unit :=
  c ← get w_cmd;
  if uc_type c =? UMKA_CMD_WAIT_FOR_IDLE then umka_wait_for_idle
  else if uc_type c =? UMKA_CMD_WAIT_FOR_OS_IDLE then umka_wait_for_os_idle
  else if uc_type c =? UMKA_CMD_WAIT_FOR_WINDOW then
    match uc_arg c with ArgWindow t => umka_wait_for_window t | _ => undef end
  else if uc_type c =? UMKA_CMD_SYS_CSLEEP then
    match uc_arg c with ArgCsleep cs => sys_ (umka_sys_csleep cs) | _ => undef end
  else if uc_type c =? UMKA_CMD_SET_MOUSE_DATA then
    match uc_arg c with
    | ArgMouse b x y v h => sys_ (kos_set_mouse_data b x y v h)
    | _ => undef
    end
  else if uc_type c =? UMKA_CMD_SEND_SCANCODE then
    s ← need (first_word (uc_arg c)); umka_set_keyboard_data s
  else if uc_type c =? UMKA_CMD_SYS_LFN then
    match uc_arg c with
    | ArgLfn f a =>
        r ← sys (umka_sys_lfn a f);
        modify (fun w => let c := w_cmd w in
          set_cmd (UmkaCmd (uc_status c) (uc_type c) (uc_arg c) r) w)
    | _ => undef
    end
  else line ["[!] unknown command: "; fmt_u (uc_type c)].

(** The handler of the slot, run by the shell itself or by [cmd_runner]. *)
Definition shell_run_cmd_sync : M unit := run_slot ;; set_status SHELL_CMD_STATUS_DONE.

(** The slot is marked ready.  While the system is not running the shell
    executes it; otherwise it waits for [cmd_runner], which executes the same
    handler on the kernel's side and signals.  [Runner] has the two threads and
    shows that a hand-over that returns has had this effect. *)
Definition shell_run_cmd : M unit := set_status SHELL_CMD_STATUS_READY ;; shell_run_cmd_sync.

Definition shell_clear_cmd : M unit := set_status SHELL_CMD_STATUS_EMPTY.

(** A command stored in the slot, run, and cleared; with [None] the caller
    leaves the arguments in the slot as they are. *)
Definition store_cmd (type : Z) (a : option cmd_arg) : M unit :=
  modify (fun w => let c := w_cmd w in
    set_cmd (UmkaCmd (uc_status c) type (default (uc_arg c) a) (uc_lfn c)) w).
Definition submit (type : Z) (a : option cmd_arg) : M unit :=
  store_cmd type a ;; shell_run_cmd ;; shell_clear_cmd.
End helpers.

(** ** Running computations *)
Section run.
Context {K : Type}.

Lemma bind_done {A B} (m : M K A) (f : A -> M K B) w a w' :
  m w = Done a w' -> (m ≫= f) w = f a w'.
Proof. intros H. unfold mbind, M_bind. by rewrite H. Qed.

Lemma bind_undef {A B} (m : M K A) (f : A -> M K B) w :
  m w = Undef -> (m ≫= f) w = Undef.
Proof. intros H. unfold mbind, M_bind. by rewrite H. Qed.

Lemma arg_str v i s (w : world K) : v !! i = Some (SStr s) -> arg (Some v) i w = Done s w.
Proof. intros H. unfold arg, mbind, M_bind, argp. by rewrite H. Qed.

Lemma arg_bad v i (w : world K) :
  (forall s, v !! i <> Some (SStr s)) -> arg (Some v) i w = Undef.
Proof.
  intros H. unfold arg, mbind, M_bind, argp. destruct (v !! i) as [[|s|]|] eqn:E; try done.
  by destruct (H s).
Qed.

Lemma each_done {A} (f : A -> M K unit) (g : A -> string) l : forall w,
  (forall a w, a ∈ l -> f a w = Done tt (set_out (w_out w +:+ g a) w)) ->
  each f l w = Done tt (set_out (w_out w +:+ foldr String.append "" (map g l)) w).
Proof.
  induction l as [|a l IH]; intros w Hf.
  { simpl. rewrite string_app_nil_r. by destruct w. }
  cbn [each]. rewrite (bind_done _ _ _ _ _ (Hf a w ltac:(set_solver))).
  rewrite IH by (intros; apply Hf; set_solver). simpl. by rewrite string_app_assoc.
Qed.

Lemma each_undef {A} (f : A -> M K unit) l a : forall w,
  (forall a w, f a w = Undef \/ exists w', f a w = Done tt w') ->
  a ∈ l -> (forall w, f a w = Undef) -> each f l w = Undef.
Proof.
  induction l as [|b l IH]; intros w Hf Hin Ha; [by apply elem_of_nil in Hin|].
  cbn [each]. destruct (Hf b w) as [H|[w' H]]; [by apply bind_undef|].
  rewrite (bind_done _ _ _ _ _ H). apply elem_of_cons in Hin as [->|Hin]; [by rewrite Ha in H|].
  by apply IH.
Qed.
End run.
