(* ===== verification/Sample.v ===== *)
(** A small kernel and host that satisfy the interfaces of the shell, for
    evaluating commands on concrete inputs.  The kernel keeps its scalar
    variables and the list of calls made, and answers a call by a prepared
    function of its registers. *)
From S2P Require Import Prelude CLib Io Disk Raw Qcow2 Vdisk Umkart Vnet Syscall Optparse Shell.

#[export] Instance kvar_eq_dec : EqDecision kvar.
Proof. solve_decision. Defined.

Record small := Small { sm_vars : kvar -> Z; sm_calls : list regs; sm_reply : regs -> ret }.

#[export] Instance small_kernel : Kernel small | 1000 := fun r k =>
  (sm_reply k r, Small (sm_vars k) (r :: sm_calls k) (sm_reply k)).

Definition small_set (v : kvar) (z : Z) (k : small) : small :=
  Small (fun x => if decide (x = v) then z else sm_vars k x) (sm_calls k) (sm_reply k).

#[export] Instance small_shell_kernel : ShellKernel small | 1000 := {|
  sk_kernel := small_kernel;
  kget := fun v k => sm_vars k v;
  kset := small_set;
  karr := fun _ _ => [];
  kos_window_data := fun _ _ => None;
  kos_slot_base := fun _ => 0;
  kos_slot := fun _ _ => None;
  kmem := fun _ _ _ => [];
  umka_boot := id;
  kos_new_sys_threads := pair 2;
  umka_new_sys_threads := fun _ => pair 2;
  kos_wait_events := fun test k => if test k then Some k else None;
  kos_set_mouse_data := fun _ _ _ _ _ => id;
  kos_set_keyboard_data := fun _ => id;
  kos_osloop := id;
  kos_stack_init := id;
  kos_enable_acpi := id;
  kos_acpi_call_name := fun _ => id;
  kos_acpi_count_nodes := pair 0;
  kos_acpi_preload := fun _ _ => id;
  kos_net_add_device := fun _ => pair 0;
  kos_ramdisk_init := fun _ => pair 1;
  kos_disk_add := fun _ _ => pair 1;
  kos_disk_media_changed := fun _ _ => id;
  kos_disk_del := fun _ => id;
  disk_list := fun _ => [];
  kdisk := fun _ _ => DiskT "rd" 512 2880 [];
  kos_display := fun _ => display24;
  kos_pci_tree := fun _ => [] |}.

#[export] Instance small_host : Host | 1000 := {|
  strerror := fun _ => "No such file or directory";
  inet_addr := fun _ => 0;
  hash_oneshot := fun _ => [];
  local_time := fun _ => (70, 0, 1, (0, 0, 0));
  mac_junk := [];
  host_addr := 0;
  h_memory := fun _ n => replicate n 0;
  can_write := fun _ => true;
  h_open := fun _ => (-1, None);
  h_net_open := fun _ _ => -1;
  h_ioctl := fun _ => -1;
  h_calloc_ok := true;
  h_alloc := fun n => Some (replicate (Z.to_nat n) 0);
  h_stack := [];
  h_async_read := fun fd _ => (0, [], fd) |}.

Definition small_world (vars : list shell_var) (reply : regs -> ret) : world small :=
  World "" (Small (fun _ => 0) [] reply) vars (UmkaCmd 0 0 ArgNone (F7080ret 0 0, []))
    (Dirs [] 0 false) ∅ "" (Conf true 0 false).

(** The same answer to every call. *)
Definition always (a b : Z) : regs -> ret := fun _ => Ret a b 0 [].

(** A kernel given by its system calls alone, everything else at rest. *)
Definition idle_shell_kernel {K} (i : Kernel K) : ShellKernel K := {|
  sk_kernel := i;
  kget := fun _ _ => 0; kset := fun _ _ => id; karr := fun _ _ => [];
  kos_window_data := fun _ _ => None; kos_slot_base := fun _ => 0; kos_slot := fun _ _ => None;
  kmem := fun _ _ _ => []; umka_boot := id;
  kos_new_sys_threads := pair 2; umka_new_sys_threads := fun _ => pair 2;
  kos_wait_events := fun test k => if test k then Some k else None;
  kos_set_mouse_data := fun _ _ _ _ _ => id; kos_set_keyboard_data := fun _ => id;
  kos_osloop := id; kos_stack_init := id; kos_enable_acpi := id;
  kos_acpi_call_name := fun _ => id; kos_acpi_count_nodes := pair 0; kos_acpi_preload := fun _ _ => id;
  kos_net_add_device := fun _ => pair 0; kos_ramdisk_init := fun _ => pair 1;
  kos_disk_add := fun _ _ => pair 1; kos_disk_media_changed := fun _ _ => id; kos_disk_del := fun _ => id;
  disk_list := fun _ => []; kdisk := fun _ _ => DiskT "rd" 512 2880 [];
  kos_display := fun _ => Display 0 0 32 0 []; kos_pci_tree := fun _ => [] |}.

Definition idle_world {K} (k : K) : world K :=
  World "" k [] (UmkaCmd 0 0 ArgNone (F7080ret 0 0, [])) (Dirs [] 0 false) ∅ "" (Conf true 0 false).
