(* ===== verification/CmdSys.v ===== *)
(** shell.c: the commands about the emulator, threads, kernel variables, ACPI,
    PCI and the debug board.

    Every command takes [argc] and [argv]; [None] for [argv] is the NULL that
    [cmd_help] passes. *)
From S2P Require Import Prelude CLib Io Syscall Optparse Usage Shell.

Section commands.
Context `{Kn : ShellKernel K} `{Ho : Host}.
Abbreviation M := (M K).
Abbreviation args := (option (list slot)).

(** An assignment to a kernel variable of its width. *)
Definition kstore (v : kvar) (z : Z) : M unit := sys_ (kset v (z mod 2 ^ kwidth v)).

Definition cmd_var (argc : Z) (argv : args) : M unit :=
  usage_unless (argc =? 2) usage_var (
    name ← arg argv 1;
    status ← get (fun w => fst (shell_var_name name (w_vars w)));
    modify (fun w => set_vars (snd (shell_var_name name (w_vars w))) w) ;;
    if status : bool then skip else line ["fail"]).

(** *** The command slot *)

Fixpoint scancodes (n i : nat) (argv : args) : M unit :=
  match n with
  | O => skip
  | S n =>
      s ← arg argv i;
      if streq (strto_end s 0) "" then
        submit UMKA_CMD_SEND_SCANCODE (Some (ArgScancode (s32 (strtoul s 0)))) ;;
        scancodes n (S i) argv
      else line ["not an integer: "; s] ;; put usage_send_scancode
  end.

Definition cmd_send_scancode (argc : Z) (argv : args) : M unit :=
  usage_unless (2 <=? argc) usage_send_scancode (
    store_cmd UMKA_CMD_SEND_SCANCODE None ;; scancodes (Z.to_nat (argc - 1)) 1 argv).

Definition cmd_umka_boot (argc : Z) (argv : args) : M unit :=
  usage_unless (argc =? 1) usage_umka_boot (
    sys_ umka_boot ;;
    r ← get (fun w => running (w_conf w));
    if r =? UMKA_RUNNING_NEVER then skip
    else _ ← sys (umka_new_sys_threads "cmd_runner"); skip).

(** [kos_boot.pitch = kos_boot.x_res * kos_boot.bpp/8] *)
Definition boot_pitch : M unit :=
  x ← peek (kget BootXres); b ← peek (kget BootBpp); kstore BootPitch (x * b / 8).

(** [n] arguments are left from [argv[i]] on. *)
Fixpoint boot_params (fuel : nat) (n : Z) (i : nat) (argv : args) : M unit :=
  match fuel with
  | O => nofuel
  | S fuel =>
      if n =? 0 then skip else
      a ← arg argv i;
      if streq a "--x_res" && (1 <? n) then
        v ← num argv (S i) 0; kstore BootXres v ;; boot_pitch ;;
        boot_params fuel (n - 2) (S (S i)) argv
      else if streq a "--y_res" && (1 <? n) then
        v ← num argv (S i) 0; kstore BootYres v ;; boot_params fuel (n - 2) (S (S i)) argv
      else if streq a "--bpp" && (1 <? n) then
        v ← num argv (S i) 0; kstore BootBpp v ;; boot_pitch ;;
        boot_params fuel (n - 2) (S (S i)) argv
      else if streq a "--pitch" && (1 <? n) then
        v ← num argv (S i) 0; kstore BootPitch v ;; boot_params fuel (n - 2) (S (S i)) argv
      else line ["bad option: "; a] ;; put usage_umka_set_boot_params
  end.

Definition cmd_umka_set_boot_params (argc : Z) (argv : args) : M unit :=
  boot_params (S (Z.to_nat argc)) (argc - 1) 1 argv.

Definition cmd_csleep (argc : Z) (argv : args) : M unit :=
  usage_unless (argc =? 2) usage_csleep (
    cs ← num argv 1 0; submit UMKA_CMD_SYS_CSLEEP (Some (ArgCsleep cs))).

Definition cmd_wait_for_idle (argc : Z) (argv : args) : M unit :=
  usage_unless (argc =? 1) usage_wait_for_idle (submit UMKA_CMD_WAIT_FOR_IDLE None).
Definition cmd_wait_for_os_idle (argc : Z) (argv : args) : M unit :=
  usage_unless (argc =? 1) usage_wait_for_os_idle (submit UMKA_CMD_WAIT_FOR_OS_IDLE None).
Definition cmd_wait_for_window (argc : Z) (argv : args) : M unit :=
  usage_unless (argc =? 2) usage_wait_for_window (
    t ← arg argv 1; submit UMKA_CMD_WAIT_FOR_WINDOW (Some (ArgWindow t))).

(** [if (argv[i]) reg = strtoul(argv[i], NULL, 0)] *)
Definition opt_reg (argv : args) (i : nat) : M Z :=
  s ← argp argv i;
  match s with SNull => mret 0 | _ => s ← str_of s; mret (strtoul s 0) end.

Definition reg_line (name : string) (z : Z) : list string :=
  [name; " = "; fmt_x8 z; "  "; fmt_u z; "  "; fmt_d (s32 z); nl].

Definition cmd_i40 (argc : Z) (argv : args) : M unit :=
  usage_unless ((2 <=? argc) && (argc <=? 8)) usage_i40 (
    a ← opt_reg argv 1; b ← opt_reg argv 2; c ← opt_reg argv 3; d ← opt_reg argv 4;
    s ← opt_reg argv 5; di ← opt_reg argv 6; bp ← opt_reg argv 7;
    r ← sys (umka_i40 a b c d s di bp);
    putl (reg_line "eax" (fst r) ++ reg_line "ebx" (snd r))).

(** *** Kernel variables and tables *)

Definition cmd_get_key (argc : Z) (argv : args) : M unit :=
  usage_unless (argc <=? 1) usage_get_key (
    k ← sys umka_get_key; line ["0x"; fmt_x8 k]).

Definition cmd_dump_key_buff (argc : Z) (argv : args) : M unit :=
  usage_unless (argc <=? 2) usage_dump_key_buff (
    count ← (if 1 <? argc then snum argv 1 0 else mret (2 ^ 31 - 1));
    kc ← peek (kget KeyCount); buf ← peek (karr KeyBuff);
    each (fun i =>
      a ← need (buf !! i); b ← need (buf !! (120 + 2 + i)%nat);
      line [width 3 (fmt_d (Z.of_nat i)); " 0x"; fmt_x2 a; " 0x"; fmt_x2 b])
      (seq 0 (Z.to_nat (Z.min count kc)))).

Definition dump_table (arr : karray) (depth : Z) : M unit :=
  t ← peek (karr arr);
  each (fun i => v ← need (t !! i); line [width 3 (fmt_d (Z.of_nat i)); ": "; width 3 (fmt_u v)])
    (seq 0 (Z.to_nat depth)).

Definition cmd_dump_win_stack (argc : Z) (argv : args) : M unit :=
  usage_unless (argc <=? 2) usage_dump_win_stack (
    depth ← (if 1 <? argc then snum argv 1 0 else mret 5); dump_table WinStack depth).
Definition cmd_dump_win_pos (argc : Z) (argv : args) : M unit :=
  usage_unless (1 <=? argc) usage_dump_win_pos (
    depth ← (if 1 <? argc then snum argv 1 0 else mret 5); dump_table WinPos depth).

Definition cmd_dump_win_map (argc : Z) (argv : args) : M unit :=
  usage_unless (0 <=? argc) usage_dump_win_map (
    d ← peek kos_display; m ← peek (karr WinMap);
    each (fun y =>
      each (fun x => v ← need (m !! (y * Umkart.width_ d + x)%nat); put (fmt_c (v + 48)))
        (seq 0 (Umkart.width_ d)) ;; put nl)
      (seq 0 (Umkart.height_ d))).

Definition box_text (b : box_t) : list string :=
  [fmt_u (b_left b); " "; fmt_u (b_top b); " "; fmt_u (b_width b); " "; fmt_u (b_height b); nl].

(** [ptr - kos_slot_base] in slots of 256 bytes, printed unsigned. *)
Definition slot_index (base ptr : Z) : string := fmt_u (u32 ((ptr - base) / 256)).

Definition cmd_dump_wdata (argc : Z) (argv : args) : M unit :=
  usage_unless (2 <=? argc) usage_dump_wdata (
    idx ← snum argv 1 0;
    p ← (if 2 <? argc then s ← arg argv 2; mret (streq s "-p") else mret false);
    wd ← peek (kos_window_data idx); wd ← need wd; base ← peek kos_slot_base;
    line ["captionEncoding: "; fmt_u (wd_caption_encoding wd)] ;;
    line ["caption: "; fmt_s (wd_caption wd)] ;;
    putl ("clientbox (ltwh): " :: box_text (wd_clientbox wd)) ;;
    line ["draw_bgr_x: "; fmt_u (wd_draw_bgr_x wd)] ;;
    line ["draw_bgr_y: "; fmt_u (wd_draw_bgr_y wd)] ;;
    line ["thread: "; slot_index base (wd_thread wd)] ;;
    if p : bool then line ["thread: "; fmt_p (wd_thread wd)] ;; line ["cursor: "; fmt_p (wd_cursor wd)]
    else skip).

Definition cmd_dump_appdata (argc : Z) (argv : args) : M unit :=
  usage_unless (2 <=? argc) usage_dump_appdata (
    idx ← snum argv 1 0;
    p ← (if 2 <? argc then s ← arg argv 2; mret (streq s "-p") else mret false);
    a ← peek (kos_slot idx); a ← need a; base ← peek kos_slot_base;
    let ptr (name : string) (z : Z) : M unit := if p : bool then line [name; ": "; fmt_p z] else skip in
    line ["app_name: "; ad_app_name a] ;;
    ptr "process" (ad_process a) ;; ptr "fpu_state" (ad_fpu_state a) ;;
    ptr "exc_handler" (ad_exc_handler a) ;;
    line ["except_mask: "; fmt_x (ad_except_mask a)] ;;
    ptr "pl0_stack" (ad_pl0_stack a) ;; ptr "fd_ev" (ad_fd_ev a) ;; ptr "bk_ev" (ad_bk_ev a) ;;
    ptr "fd_obj" (ad_fd_obj a) ;; ptr "bk_obj" (ad_bk_obj a) ;; ptr "saved_esp" (ad_saved_esp a) ;;
    line ["dbg_state: "; fmt_u (ad_dbg_state a)] ;;
    line ["cur_dir: "; fmt_s (ad_cur_dir a)] ;;
    line ["event_mask: "; fmt_x (ad_event_mask a)] ;;
    line ["tid: "; fmt_d (s32 (ad_tid a))] ;;
    line ["state: 0x"; fmt_x (ad_state a)] ;;
    line ["wnd_number: "; fmt_u (ad_wnd_number a)] ;;
    line ["terminate_protection: "; fmt_u (ad_terminate_protection a)] ;;
    line ["keyboard_mode: "; fmt_u (ad_keyboard_mode a)] ;;
    line ["exec_params: "; fmt_s (ad_exec_params a)] ;;
    line ["priority: "; fmt_u (ad_priority a)] ;;
    put "in_schedule: prev" ;;
    (if p : bool then putl [" "; fmt_p (ad_sched_prev a)] else skip) ;;
    putl [" ("; slot_index base (ad_sched_prev a); "), next"] ;;
    (if p : bool then putl [" "; fmt_p (ad_sched_next a)] else skip) ;;
    line [" ("; slot_index base (ad_sched_next a); ")"]).

Definition cmd_switch_to_thread (argc : Z) (argv : args) : M unit :=
  usage_unless (argc =? 2) usage_switch_to_thread (
    tid ← num argv 1 0; kstore CurrentSlotIdx (u8 tid)).

Definition cmd_get (argc : Z) (argv : args) : M unit :=
  usage_unless (argc =? 2) usage_get (
    v ← arg argv 1;
    let show (k : kvar) : M unit := z ← peek (kget k); line [fmt_d (s32 z)] in
    if streq v "redraw_background" then show RedrawBackground
    else if streq v "key_count" then show KeyCount
    else if streq v "syslang" then show Syslang
    else if streq v "keyboard" then show Keyboard
    else if streq v "keyboard_mode" then show KeyboardMode
    else line ["no such variable: "; v] ;; put usage_get).

Definition cmd_set (argc : Z) (argv : args) : M unit :=
  usage_unless (argc =? 3) usage_set (
    v ← arg argv 1; val_str ← arg argv 2;
    let value := strtol val_str 0 in
    if negb (streq (strto_end val_str 0) "") then line ["integer required: "; val_str]
    else if streq v "redraw_background" then kstore RedrawBackground value
    else if streq v "syslang" then kstore Syslang value
    else if streq v "keyboard" then kstore Keyboard value
    else if streq v "keyboard_mode" then kstore KeyboardMode value
    else line ["bad option: "; v] ;; put usage_set).

Definition cmd_new_sys_thread (argc : Z) (argv : args) : M unit :=
  usage_unless (truth argc) usage_new_sys_thread (
    tid ← sys kos_new_sys_threads; line ["tid: "; fmt_u tid]).

(** *** Processes and events *)

(** [process_information_t], packed. *)
Definition process_lines (i : bytes) : list string :=
  let u32_ off := fmt_u (le32_at i off) in
  let box off := [u32_ off; " "; u32_ (off + 4)%nat; " "; u32_ (off + 8)%nat; " ";
                  u32_ (off + 12)%nat; nl] in
  ["cpu_usage: "; u32_ 0%nat; nl;
   "window_stack_position: "; fmt_u (le16_at i 4); nl;
   "window_stack_value: "; fmt_u (le16_at i 6); nl;
   "process_name: "; cstring (drop 10 i); nl;
   "memory_start: 0x"; fmt_x8 (le32_at i 22); nl;
   "used_memory: "; u32_ 26%nat; " (0x"; fmt_x (le32_at i 26); ")"; nl;
   "pid: "; u32_ 30%nat; nl; "box: "] ++ box 34%nat
  ++ ["slot_state: "; fmt_u (le16_at i 50); nl; "client_box: "] ++ box 54%nat
  ++ ["wnd_state: 0x"; fmt_x2 (byte_at i 70); nl].

(** A name without a variable leaves [pid] indeterminate. *)
Definition cmd_process_info (argc : Z) (argv : args) : M unit :=
  usage_unless (argc =? 2) usage_process_info (
    s ← arg argv 1; pid ← shell_parse_sint s; pid ← need pid;
    info ← sys (umka_sys_process_info pid); putl (process_lines info)).

Definition cmd_check_for_event (argc : Z) (argv : args) : M unit :=
  usage_unless (argc =? 1) usage_check_for_event (
    e ← sys umka_sys_check_for_event; line [fmt_u e]).

(** *** ACPI and PCI *)

(** [kos_acpi_preload n table]: base and size of table number [n] are
    stored in the kernel's arrays, whose bound is not tested. *)
Definition cmd_acpi_preload_table (argc : Z) (argv : args) : M unit :=
  usage_unless (argc =? 2) usage_acpi_preload_table (
    fname ← arg argv 1; f ← read_file fname;
    match f with
    | None => line ["[umka] can't open file: "; fname]
    | Some table =>
        n ← peek (kget AcpiSsdtCnt);
        line ["table #"; fmt_u n] ;;
        sys_ (kos_acpi_preload n table) ;; kstore AcpiSsdtCnt (n + 1)
    end).

Definition cmd_acpi_enable (argc : Z) (argv : args) : M unit :=
  usage_unless (argc =? 1) usage_acpi_enable (sys_ kos_enable_acpi).
Definition cmd_acpi_get_node_cnt (argc : Z) (argv : args) : M unit :=
  usage_unless (argc =? 1) usage_acpi_get_node_cnt (
    n ← sys kos_acpi_count_nodes; line ["nodes in namespace: "; fmt_u n]).
Definition cmd_acpi_get_node_alloc_cnt (argc : Z) (argv : args) : M unit :=
  usage_unless (argc =? 1) usage_acpi_get_node_alloc_cnt (
    n ← peek (kget AcpiAllocCnt); line ["nodes allocated: "; fmt_u n]).
Definition cmd_acpi_get_node_free_cnt (argc : Z) (argv : args) : M unit :=
  usage_unless (argc =? 1) usage_acpi_get_node_free_cnt (
    n ← peek (kget AcpiFreeCnt); line ["nodes freed: "; fmt_u n]).
Definition cmd_acpi_set_usage (argc : Z) (argv : args) : M unit :=
  usage_unless (argc =? 2) usage_acpi_set_usage (n ← num argv 1 0; kstore AcpiUsage n).
Definition cmd_acpi_get_usage (argc : Z) (argv : args) : M unit :=
  usage_unless (argc =? 1) usage_acpi_get_usage (
    n ← peek (kget AcpiUsage); line ["ACPI usage: "; fmt_u n]).

Definition cmd_acpi_call (argc : Z) (argv : args) : M unit :=
  if 2 <? argc then
    line ["arguments are not supported / not implemented!"] ;; put usage_acpi_call
  else if argc <? 2 then put usage_acpi_call
  else
    m ← arg argv 1;
    line ["calling acpi method: '"; m; "'"] ;; sys_ (kos_acpi_call_name m) ;;
    line ["acpi method returned"].

(** [pci_path] has PATH_MAX bytes. *)
Definition cmd_pci_set_path (argc : Z) (argv : args) : M unit :=
  usage_unless (argc =? 2) usage_pci_set_path (
    p ← arg argv 1;
    if PATH_MAX <=? strlen p then undef else modify (set_pci_path p)).
Definition cmd_pci_get_path (argc : Z) (argv : args) : M unit :=
  usage_unless (argc =? 1) usage_pci_get_path (
    p ← get w_pci_path; line ["pci path: "; p]).

Definition cmd_load_dll (argc : Z) (argv : args) : M unit :=
  usage_unless (argc =? 2) usage_load_dll (
    f ← arg argv 1; e ← sys (umka_sys_load_dll f); line ["### export: "; fmt_p e]).
Definition cmd_stack_init (argc : Z) (argv : args) : M unit :=
  usage_unless (argc =? 1) usage_stack_init (sys_ kos_stack_init).
Definition cmd_osloop (argc : Z) (argv : args) : M unit :=
  usage_unless (argc =? 1) usage_osloop (sys_ kos_osloop).

(** *** The debug board *)

Record board_opts := BoardOpts { bo_flush : bool; bo_line : bool; bo_newline : bool }.

Definition board_switch (opt : Z) (oa : option string) (o : board_opts) : option board_opts :=
  if opt =? 102 then Some (BoardOpts true true (bo_newline o))            (* f *)
  else if opt =? 108 then Some (BoardOpts (bo_flush o) true (bo_newline o)) (* l *)
  else if opt =? 110 then Some (BoardOpts (bo_flush o) (bo_line o) true)    (* n *)
  else None.

(** The do-while loop; the kernel's buffer bounds it. *)
Fixpoint board_loop (fuel : nat) (flush : bool) : M unit :=
  match fuel with
  | O => nofuel
  | S fuel =>
      c ← sys umka_sys_board_get;
      (if truth (bg_status c) && negb (bg_value c =? 13) then put (fmt_c (bg_value c)) else skip) ;;
      if truth (bg_status c) && (negb (bg_value c =? 10) || flush) then board_loop fuel flush
      else skip
  end.

Definition cmd_board_get (fuel : nat) (argc : Z) (argv : args) : M unit :=
  usage_unless (argc <=? 2) usage_board_get (
    v ← need argv; o ← need (optparse_init v);
    with_options usage_board_get "fln" board_switch o (BoardOpts false false false) (fun b =>
      if negb (bo_line b) then
        c ← sys umka_sys_board_get;
        if bg_status c =? 0 then line ["(empty)"] else line [fmt_c (bg_value c)]
      else
        board_loop fuel (bo_flush b) ;; if bo_newline b then put nl else skip)).

Definition cmd_board_put (argc : Z) (argv : args) : M unit :=
  usage_unless (argc =? 2) usage_board_put (
    s ← arg argv 1;
    let c := char_at s 0 in
    if c =? 92 then
      let e := char_at s 1 in
      if e =? 110 then sys_ (umka_sys_board_put 10)
      else if e =? 114 then sys_ (umka_sys_board_put 13)
      else if e =? 116 then sys_ (umka_sys_board_put 9)
      else line ["unknown escape symbol: '"; fmt_c e; "'"] ;; sys_ (umka_sys_board_put 63)
    else sys_ (umka_sys_board_put c)).
End commands.
