(* ===== verification/CmdGui.v ===== *)
(** shell.c: the commands about drawing, windows, skins, fonts, languages, the
    keyboard, the mouse, cursors, images and the background. *)
From S2P Require Import LodeEncode Prelude CLib Syscall Optparse Umkart Usage Shell.

Section commands.
Context `{Kn : ShellKernel K} `{Ho : Host}.
Abbreviation M := (M K).
Abbreviation args := (option (list slot)).

(** [(argc == n) && !strcmp(argv[n-1], flag)] *)
Definition last_flag (argc n : Z) (argv : args) (flag : string) : M Z :=
  if argc =? n then s ← arg argv (Z.to_nat (n - 1)); mret (b2z (streq s flag)) else mret 0.

(** *** Drawing *)

Definition cmd_set_pixel (argc : Z) (argv : args) : M unit :=
  usage_unless (4 <=? argc) usage_set_pixel (
    x ← num argv 1 0; y ← num argv 2 0; color ← num argv 3 16;
    invert ← last_flag argc 5 argv "-i";
    sys_ (umka_sys_set_pixel x y color invert)).

Definition cmd_write_text (argc : Z) (argv : args) : M unit :=
  usage_unless (argc =? 12) usage_write_text (
    x ← num argv 1 0; y ← num argv 2 0; color ← num argv 3 16; string ← arg argv 4;
    asciiz ← num argv 5 0; fill ← num argv 6 0; font ← num argv 7 0; tobuf ← num argv 8 0;
    scale ← num argv 9 0; length ← num argv 10 0; bg ← num argv 11 0;
    sys_ (umka_sys_write_text x y color asciiz fill font tobuf scale string length bg)).

(** 10, 16 and 2 are renamed; anything else is decimal. *)
Definition number_base (b : Z) : Z := if b =? 16 then 1 else if b =? 2 then 2 else 0.

Definition cmd_display_number (argc : Z) (argv : args) : M unit :=
  usage_unless (argc =? 15) usage_display_number (
    is_pointer ← num argv 1 0; base ← num argv 2 0; digits ← num argv 3 0; qword ← num argv 4 0;
    zeros ← num argv 5 0; number ← num argv 6 0; x ← num argv 7 0; y ← num argv 8 0;
    color ← num argv 9 16; fill ← num argv 10 0; font ← num argv 11 0; tobuf ← num argv 12 0;
    scale ← num argv 13 0; bg ← num argv 14 16;
    sys_ (umka_sys_display_number is_pointer (number_base base) digits qword zeros number x y color
            fill font tobuf scale bg)).

Definition cmd_button (argc : Z) (argv : args) : M unit :=
  usage_unless (argc =? 9) usage_button (
    s ← arg argv 1; x ← shell_parse_uint s;
    xsize ← num argv 2 0; y ← num argv 3 0; ysize ← num argv 4 0; button_id ← num argv 5 0;
    color ← num argv 6 16; draw_button ← num argv 7 0; draw_frame ← num argv 8 0;
    x ← need x;
    sys_ (umka_sys_button x xsize y ysize button_id draw_button draw_frame color)).

Definition cmd_draw_rect (argc : Z) (argv : args) : M unit :=
  usage_unless (6 <=? argc) usage_draw_rect (
    x ← num argv 1 0; xsize ← num argv 2 0; y ← num argv 3 0; ysize ← num argv 4 0;
    color ← num argv 5 16; gradient ← last_flag argc 7 argv "-g";
    sys_ (umka_sys_draw_rect x xsize y ysize color gradient)).

Definition cmd_draw_line (argc : Z) (argv : args) : M unit :=
  usage_unless (6 <=? argc) usage_draw_line (
    x ← num argv 1 0; xend ← num argv 2 0; y ← num argv 3 0; yend ← num argv 4 0;
    color ← num argv 5 16; invert ← last_flag argc 7 argv "-i";
    sys_ (umka_sys_draw_line x xend y yend color invert)).

Definition cmd_get_screen_size (argc : Z) (argv : args) : M unit :=
  usage_unless (argc =? 1) usage_get_screen_size (
    s ← sys umka_sys_get_screen_size; line [fmt_u (fst s); "x"; fmt_u (snd s)]).

Definition cmd_set_window_caption (argc : Z) (argv : args) : M unit :=
  usage_unless (argc =? 3) usage_set_window_caption (
    caption ← arg argv 1; encoding ← num argv 2 0;
    sys_ (umka_sys_set_window_caption caption encoding)).

Definition cmd_draw_window (argc : Z) (argv : args) : M unit :=
  usage_unless (argc =? 13) usage_draw_window (
    x ← num argv 1 0; xsize ← num argv 2 0; y ← num argv 3 0; ysize ← num argv 4 0;
    color ← num argv 5 16; has_caption ← num argv 6 0; client_relative ← num argv 7 0;
    fill_workarea ← num argv 8 0; gradient_fill ← num argv 9 0; movable ← num argv 10 0;
    style ← num argv 11 0; caption ← arg argv 12;
    sys_ (umka_sys_draw_window x xsize y ysize color has_caption client_relative fill_workarea
            gradient_fill movable style caption)).

Definition cmd_window_redraw (argc : Z) (argv : args) : M unit :=
  usage_unless (argc =? 2) usage_window_redraw (
    b ← num argv 1 0; sys_ (umka_sys_window_redraw b)).

Definition cmd_move_window (argc : Z) (argv : args) : M unit :=
  usage_unless (argc =? 5) usage_move_window (
    x ← num argv 1 0; y ← num argv 2 0; xsize ← snum argv 3 0; ysize ← snum argv 4 0;
    sys_ (umka_sys_move_window x y xsize ysize)).

(** *** Files as images: a file that does not open is read through NULL *)

Definition load_image (argv : args) (i : nat) : M bytes :=
  fname ← arg argv i; f ← read_file fname; need f.

Definition cmd_put_image (argc : Z) (argv : args) : M unit :=
  usage_unless (argc =? 6) usage_put_image (
    image ← load_image argv 1;
    xsize ← num argv 2 0; ysize ← num argv 3 0; x ← num argv 4 0; y ← num argv 5 0;
    sys_ (umka_sys_put_image image xsize ysize x y)).

Definition cmd_put_image_palette (argc : Z) (argv : args) : M unit :=
  usage_unless (argc =? 8) usage_put_image_palette (
    image ← load_image argv 1;
    xsize ← num argv 2 0; ysize ← num argv 3 0; x ← num argv 4 0; y ← num argv 5 0;
    bpp ← num argv 6 0; row_offset ← num argv 7 0;
    sys_ (umka_sys_put_image_palette image xsize ysize x y bpp Null row_offset)).

Definition cmd_blit_bitmap (argc : Z) (argv : args) : M unit :=
  usage_unless (argc =? 15) usage_blit_bitmap (
    fname ← arg argv 1; f ← read_file fname;
    match f with
    | None => line ["[!] can't open file '"; fname; "': "; strerror fname]
    | Some image =>
        dstx ← num argv 2 0; dsty ← num argv 3 0; dstxs ← num argv 4 0; dstys ← num argv 5 0;
        srcx ← num argv 6 0; srcy ← num argv 7 0; srcxs ← num argv 8 0; srcys ← num argv 9 0;
        operation ← num argv 10 0; background ← num argv 11 0; transparent ← num argv 12 0;
        client_relative ← num argv 13 0; row_length ← num argv 14 0;
        sys_ (umka_sys_blit_bitmap operation background transparent client_relative
                (Blit [dstx; dsty; dstxs; dstys; srcx; srcy; srcxs; srcys] image row_length))
    end).

(** The file is opened for writing before the tree is walked. *)
Definition cmd_write_devices_dat (argc : Z) (argv : args) : M unit :=
  usage_unless (argc =? 2) usage_write_devices_dat (
    fname ← arg argv 1;
    if negb (can_write fname) then skip else
    nodes ← peek kos_pci_tree; b ← need (dump_devices_dat nodes);
    modify (fun w => set_files (<[fname := b]> (w_files w)) w)).

(** [malloc] leaves the pixels indeterminate until they are copied. *)
Definition cmd_scrot (argc : Z) (argv : args) : M unit :=
  usage_unless (argc =? 2) usage_scrot (
    fname ← arg argv 1; d ← peek kos_display;
    px ← need (scrot_pixels d (replicate (height_ d * width_ d) 0));
    '(error, png) ← need (lodepng_encode32_file (can_write fname) (mjoin (map (le_bytes 4) px)) (Z.of_nat (width_ d)) (Z.of_nat (height_ d)));
    (match png with
     | Some b => modify (fun w => set_files (<[fname := b]> (w_files w)) w)
     | None => skip
     end) ;;
    if truth error then line ["error "; fmt_u error; ": "; lodepng_error_text error] else skip).

(** *** Colours, skin, fonts *)

Definition cmd_set_window_colors (argc : Z) (argv : args) : M unit :=
  usage_unless (argc =? 11) usage_set_window_colors (
    frame ← num argv 1 16; grab ← num argv 2 16; dark ← num argv 3 16; light ← num argv 4 16;
    grab_text ← num argv 5 16; work ← num argv 6 16; button ← num argv 7 16;
    button_text ← num argv 8 16; work_text ← num argv 9 16; graph ← num argv 10 16;
    sys_ (umka_sys_set_window_colors (mjoin (map (le_bytes 4)
            [frame; grab; dark; light; grab_text; work; button; button_text; work_text; graph])))).

Definition color_names : list string :=
  ["frame"; "grab"; "work_3d_dark"; "work_3d_light"; "grab_text"; "work"; "work_button";
   "work_button_text"; "work_text"; "work_graph"].

(** Bytes the kernel does not store keep the value 0xaa. *)
Definition cmd_get_window_colors (argc : Z) (argv : args) : M unit :=
  usage_unless (argc =? 1) usage_get_window_colors (
    b ← sys umka_sys_get_window_colors;
    let colors := overlay 0 b (replicate 40 0xaa) in
    each (fun p => line ["0x"; fmt_x8 (le32_at colors (4 * fst p)); " "; snd p])
      (zip (seq 0 10) color_names)).

Definition cmd_get_skin_height (argc : Z) (argv : args) : M unit :=
  usage_unless (argc =? 1) usage_get_skin_height (
    h ← sys umka_sys_get_skin_height; line [fmt_u h]).

Definition rect_lines (r : rect_t) : M unit :=
  line [fmt_u (left r); " left"] ;; line [fmt_u (top r); " top"] ;;
  line [fmt_u (right r); " right"] ;; line [fmt_u (bottom r); " bottom"].

Definition cmd_get_screen_area (argc : Z) (argv : args) : M unit :=
  usage_unless (argc =? 1) usage_get_screen_area (
    r ← sys umka_sys_get_screen_area; rect_lines r).
Definition cmd_set_screen_area (argc : Z) (argv : args) : M unit :=
  usage_unless (argc =? 5) usage_set_screen_area (
    l ← num argv 1 0; t ← num argv 2 0; r ← num argv 3 0; b ← num argv 4 0;
    sys_ (umka_sys_set_screen_area (Rect l t r b))).
Definition cmd_get_skin_margins (argc : Z) (argv : args) : M unit :=
  usage_unless (argc =? 1) usage_get_skin_margins (
    r ← sys umka_sys_get_skin_margins; rect_lines r).
Definition cmd_set_button_style (argc : Z) (argv : args) : M unit :=
  usage_unless (argc =? 2) usage_set_button_style (
    style ← num argv 1 0; sys_ (umka_sys_set_button_style style)).
Definition cmd_set_skin (argc : Z) (argv : args) : M unit :=
  usage_unless (argc =? 2) usage_set_skin (
    path ← arg argv 1; status ← sys (umka_sys_set_skin path); line ["status: "; fmt_d status]).

(** The index into [names] is not tested. *)
Definition cmd_get_font_smoothing (argc : Z) (argv : args) : M unit :=
  usage_unless (argc =? 1) usage_get_font_smoothing (
    type ← sys umka_sys_get_font_smoothing;
    name ← (if 0 <=? type then need (["off"; "anti-aliasing"; "subpixel"] !! Z.to_nat type) else undef);
    line ["font smoothing: "; fmt_d type; " - "; name]).
Definition cmd_set_font_smoothing (argc : Z) (argv : args) : M unit :=
  usage_unless (argc =? 2) usage_set_font_smoothing (
    type ← snum argv 1 0; sys_ (umka_sys_set_font_smoothing type)).
Definition cmd_get_font_size (argc : Z) (argv : args) : M unit :=
  usage_unless (argc =? 1) usage_get_font_size (
    size ← sys umka_sys_get_font_size; line [fmt_u (u32 size); "px"]).
Definition cmd_set_font_size (argc : Z) (argv : args) : M unit :=
  usage_unless (argc =? 2) usage_set_font_size (
    size ← num argv 1 0; sys_ (umka_sys_set_font_size size)).

(** *** Languages *)

Definition lang_id_map : list string :=
  ["en"; "fi"; "ge"; "ru"; "fr"; "et"; "ua"; "it"; "be"; "sp"; "ca"].

Definition show_lang (lang : Z) : M unit :=
  if (KOS_LANG_FIRST <=? lang) && (lang <=? KOS_LANG_LAST)
  then name ← need (lang_id_map !! Z.to_nat (lang - KOS_LANG_FIRST));
       line [fmt_d lang; " - "; name]
  else line ["invalid lang: "; fmt_d lang].

Definition cmd_get_keyboard_lang (argc : Z) (argv : args) : M unit :=
  usage_unless (argc =? 1) usage_get_keyboard_lang (
    lang ← sys umka_sys_get_keyboard_lang; show_lang lang ;; shell_var_add_sint lang).
Definition cmd_get_system_lang (argc : Z) (argv : args) : M unit :=
  usage_unless (argc =? 1) usage_get_system_lang (
    lang ← sys umka_sys_get_system_lang; show_lang lang ;; shell_var_add_uint lang).

(** A number as it is, or the one-based position of a two-letter code. *)
Fixpoint lang_index (l : list string) (i : Z) (s : string) : option Z :=
  match l with
  | [] => None
  | x :: l => if streq s x then Some i else lang_index l (i + 1) s
  end.
Definition parse_lang (s : string) : option Z :=
  if streq (strto_end s 0) "" then Some (strtol s 0)
  else lang_index lang_id_map KOS_LANG_FIRST s.

Definition set_lang (usage : string) (argc : Z) (argv : args) (set : Z -> K -> Z * K) : M unit :=
  usage_unless (argc =? 2) usage (
    s ← arg argv 1;
    match parse_lang s with
    | Some lang => _ ← sys (set lang); skip
    | None => line ["no such lang: "; s] ;; put usage
    end).
Definition cmd_set_keyboard_lang (argc : Z) (argv : args) : M unit :=
  set_lang usage_set_keyboard_lang argc argv umka_sys_set_keyboard_lang.
Definition cmd_set_system_lang (argc : Z) (argv : args) : M unit :=
  set_lang usage_set_system_lang argc argv umka_sys_set_system_lang.

(** *** Keyboard *)

(** The type given with -t: a number or a name; [None] for another word. *)
Definition layout_type (s : string) : option Z :=
  if streq (strto_end s 0) "" then Some (strtol s 0)
  else if streq s "normal" then Some 1
  else if streq s "shift" then Some 2
  else if streq s "alt" then Some 3
  else None.

Definition layout_rows (layout : bytes) : M unit :=
  each (fun row =>
    each (fun col => v ← need (layout !! (row * 16 + col)%nat); putl [" 0x"; fmt_x2 v]) (seq 0 16) ;;
    put nl) (seq 0 8).

Definition cmd_get_keyboard_layout (argc : Z) (argv : args) : M unit :=
  usage_unless (3 <=? argc) usage_get_keyboard_layout (
    a1 ← arg argv 1;
    t ← (if streq a1 "-t" then s ← arg argv 2; mret (layout_type s, s) else mret (Some (-1), ""));
    match fst t with
    | None => line ["no such layout type: "; snd t] ;; put usage_get_keyboard_layout
    | Some type =>
        layout ← sys (umka_sys_get_keyboard_layout type);
        if argc =? 3 then layout_rows layout
        else
          f ← (if argc =? 5 then a3 ← arg argv 3; mret (streq a3 "-f") else mret false);
          if f : bool then
            fname ← arg argv 4;
            if negb (can_write fname)
            then line ["can't open file for writing: "; fname] ;; put usage_get_keyboard_layout
            else modify (fun w => set_files (<[fname := layout]> (w_files w)) w)
          else put usage_get_keyboard_layout
    end).

(** The codes are taken from [argv + 4] on. *)
Fixpoint layout_codes (n i : nat) (argv : args) (acc : bytes) (cont : bytes -> M unit) : M unit :=
  match n with
  | O => cont acc
  | S n =>
      s ← arg argv i;
      let code := strtol s 0 in
      if negb (streq (strto_end s 0) "") || (0xff <? code)
      then line ["bad number: "; s] ;; put usage_set_keyboard_layout
      else layout_codes n (S i) argv (acc ++ [u8 code]) cont
  end.

(** The layout from a file or from the arguments; [t] is the type given with
    -t and the word it was given by.  Without -t the type is indeterminate. *)
Definition set_layout (t : option (option Z * string)) (argc : Z) (argv : args) : M unit :=
  match t with
  | Some (None, s) => line ["no such layout type: "; s] ;; put usage_set_keyboard_layout
  | _ =>
      let finish (layout : bytes) : M unit :=
        type ← need (t ≫= fst);
        status ← sys (umka_sys_set_keyboard_layout type layout);
        line ["status: "; fmt_d status] in
      a3 ← arg argv 3;
      if streq a3 "-f" && (argc =? 5) then
        fname ← arg argv 4; f ← read_file fname;
        match f with
        | None => line ["can't open file: "; fname] ;; put usage_set_keyboard_layout
        | Some b =>
            let layout := take (Z.to_nat KOS_LAYOUT_SIZE) b in
            if negb (Z.of_nat (length layout) =? KOS_LAYOUT_SIZE)
            then line ["can't read "; fmt_d KOS_LAYOUT_SIZE; " bytes of layout, only ";
                       fmt_d (Z.of_nat (length layout))] ;; put usage_set_keyboard_layout
            else finish layout
        end
      else layout_codes (Z.to_nat KOS_LAYOUT_SIZE) 4 argv [] finish
  end.

Definition cmd_set_keyboard_layout (argc : Z) (argv : args) : M unit :=
  usage_unless ((argc =? 5) || (argc =? 131)) usage_set_keyboard_layout (
    a1 ← arg argv 1;
    t ← (if streq a1 "-t" then s ← arg argv 2; mret (Some (layout_type s, s)) else mret None);
    set_layout t argc argv).

(** A negative mode would index before the array. *)
Definition cmd_get_keyboard_mode (argc : Z) (argv : args) : M unit :=
  usage_unless (argc =? 1) usage_get_keyboard_mode (
    type ← sys umka_sys_get_keyboard_mode;
    name ← (if type <? 2 then
              if 0 <=? type then need (["ASCII"; "scancodes"] !! Z.to_nat type) else undef
            else mret "invalid!");
    line ["keyboard_mode: "; fmt_d type; " - "; name]).
Definition cmd_set_keyboard_mode (argc : Z) (argv : args) : M unit :=
  usage_unless (argc =? 2) usage_set_keyboard_mode (
    type ← snum argv 1 0; sys_ (umka_sys_set_keyboard_mode type)).

(** *** Mouse *)

Record mouse_opts := MouseOpts {
  mo_l : Z; mo_m : Z; mo_r : Z; mo_xabs : Z; mo_yabs : Z;
  mo_x : Z; mo_y : Z; mo_h : Z; mo_v : Z }.

(** "=", "+" or "-" and a number: absolute flag (if set) and value. *)
Definition move_arg (s : string) (abs : Z) : option (Z * Z) :=
  let c := char_at s 0 in
  let v := strtol (str_drop 1 s) 0 in
  if c =? 61 then Some (1, v) else if c =? 43 then Some (abs, v)
  else if c =? 45 then Some (abs, s32 (- v)) else None.

Definition scroll_arg (s : string) : option Z :=
  let c := char_at s 0 in
  if (c =? 43) || (c =? 45) then Some (strtol s 0) else None.

Definition mouse_switch (opt : Z) (oa : option string) (o : mouse_opts) : option mouse_opts :=
  let '(MouseOpts l m r xa ya x y h v) := o in
  if opt =? 108 then Some (MouseOpts 1 m r xa ya x y h v)
  else if opt =? 109 then Some (MouseOpts l 1 r xa ya x y h v)
  else if opt =? 114 then Some (MouseOpts l m 1 xa ya x y h v)
  else if opt =? 120 then s ← oa; '(a, z) ← move_arg s xa; Some (MouseOpts l m r a ya z y h v)
  else if opt =? 121 then s ← oa; '(a, z) ← move_arg s ya; Some (MouseOpts l m r xa a x z h v)
  else if opt =? 104 then s ← oa; z ← scroll_arg s; Some (MouseOpts l m r xa ya x y z v)
  else if opt =? 118 then s ← oa; z ← scroll_arg s; Some (MouseOpts l m r xa ya x y h z)
  else None.

Definition btn_state (o : mouse_opts) : Z :=
  u32 (mo_l o + (mo_r o << 1) + (mo_m o << 2) + (mo_yabs o << 30) + (mo_xabs o << 31)).

Definition cmd_mouse_move (argc : Z) (argv : args) : M unit :=
  usage_unless (truth argc) usage_mouse_move (
    v ← need argv; o ← need (optparse_init v);
    with_options usage_mouse_move "lmrx:y:h:v:" mouse_switch o (MouseOpts 0 0 0 0 0 0 0 0 0) (fun m =>
      submit UMKA_CMD_SET_MOUSE_DATA (Some (ArgMouse (btn_state m) (mo_x m) (mo_y m) (mo_v m) (mo_h m))))).

Definition cmd_set_mouse_pos_screen (argc : Z) (argv : args) : M unit :=
  usage_unless (argc =? 3) usage_set_mouse_pos_screen (
    x ← snum argv 1 0; y ← snum argv 2 0;
    sys_ (umka_sys_set_mouse_pos_screen (Point16s (s16 y) (s16 x)))).
Definition point_line (p : point16s) : M unit := line ["x y: "; fmt_d (pt_x p); " "; fmt_d (pt_y p)].
Definition cmd_get_mouse_pos_screen (argc : Z) (argv : args) : M unit :=
  usage_unless (argc =? 1) usage_get_mouse_pos_screen (
    p ← sys umka_sys_get_mouse_pos_screen; point_line p).
Definition cmd_get_mouse_pos_window (argc : Z) (argv : args) : M unit :=
  usage_unless (argc =? 1) usage_get_mouse_pos_window (
    p ← sys umka_sys_get_mouse_pos_window;
    point_line (if pt_y p <? 0 then Point16s (pt_y p) (s16 (pt_x p + 1)) else p)).

Definition bit (b : bool) : string := fmt_u (b2z b).
Definition state_line (m : mouse_state) : M unit :=
  line ["buttons held (left right middle 4th 5th): "; bit (bl_held m); " "; bit (br_held m); " ";
        bit (bm_held m); " "; bit (b4_held m); " "; bit (b5_held m)].
Definition cmd_get_mouse_buttons_state (argc : Z) (argv : args) : M unit :=
  usage_unless (argc =? 1) usage_get_mouse_buttons_state (
    m ← sys umka_sys_get_mouse_buttons_state; state_line m).
Definition cmd_get_mouse_buttons_state_events (argc : Z) (argv : args) : M unit :=
  usage_unless (argc =? 1) usage_get_mouse_buttons_state_events (
    m ← sys umka_sys_get_mouse_buttons_state_events;
    let e := ms_ev m in
    state_line (ms_st m) ;;
    line ["buttons pressed (left right middle): "; bit (bl_pressed e); " "; bit (br_pressed e); " ";
          bit (bm_pressed e)] ;;
    line ["buttons released (left right middle): "; bit (bl_released e); " "; bit (br_released e);
          " "; bit (bm_released e)] ;;
    line ["left button double click: "; bit (bl_dbclick e)] ;;
    line ["scrolls used (vertical horizontal): "; bit (vscroll_used e); " "; bit (hscroll_used e)]).

(** *** Cursors *)

Definition handle_line (name : string) (z : Z) : M unit :=
  line [name; " = "; if truth z then "non-zero" else "0"].

Definition cmd_load_cursor_from_file (argc : Z) (argv : args) : M unit :=
  usage_unless (argc =? 2) usage_load_cursor_from_file (
    f ← arg argv 1; h ← sys (umka_sys_load_cursor_from_file f);
    handle_line "handle" h ;; shell_var_add_ptr h).
Definition host_load_file (fname : string) : M (option bytes) := read_file fname.
Definition cmd_load_cursor_from_mem (argc : Z) (argv : args) : M unit :=
  usage_unless (argc =? 2) usage_load_cursor_from_mem (
    fname ← arg argv 1; f ← host_load_file fname;
    match f with
    | None => line ["[umka] Can't load file: "; fname]
    | Some b =>
        h ← sys (umka_sys_load_cursor_from_mem b);
        handle_line "handle" h ;; shell_var_add_ptr h
    end).
Definition cmd_set_cursor (argc : Z) (argv : args) : M unit :=
  usage_unless (argc =? 2) usage_set_cursor (
    s ← arg argv 1; h ← shell_parse_ptr s; h ← need h;
    p ← sys (umka_sys_set_cursor h);
    handle_line "prev handle" p ;; shell_var_add_ptr p).

(** *** Background *)

Definition cmd_bg_set_size (argc : Z) (argv : args) : M unit :=
  usage_unless (argc =? 3) usage_bg_set_size (
    x ← num argv 1 0; y ← num argv 2 0; sys_ (umka_sys_bg_set_size x y)).
Definition cmd_bg_put_pixel (argc : Z) (argv : args) : M unit :=
  usage_unless (argc =? 3) usage_bg_put_pixel (
    offset ← num argv 1 0; color ← num argv 2 0; sys_ (umka_sys_bg_put_pixel offset color)).
Definition cmd_bg_redraw (argc : Z) (argv : args) : M unit :=
  usage_unless (argc =? 1) usage_bg_redraw (sys_ umka_sys_bg_redraw).
Definition cmd_bg_set_mode (argc : Z) (argv : args) : M unit :=
  usage_unless (argc =? 3) usage_bg_set_mode (
    mode ← num argv 1 0; sys_ (umka_sys_bg_set_mode mode)).
Definition cmd_bg_put_img (argc : Z) (argv : args) : M unit :=
  usage_unless (argc =? 4) usage_bg_put_img (
    image ← load_image argv 1; offset ← num argv 2 0;
    sys_ (umka_sys_bg_put_img image offset (Z.of_nat (length image)))).
Definition cmd_bg_map (argc : Z) (argv : args) : M unit :=
  usage_unless (argc =? 1) usage_bg_map (a ← sys umka_sys_bg_map; line [fmt_p a]).
Definition cmd_bg_unmap (argc : Z) (argv : args) : M unit :=
  usage_unless (argc =? 2) usage_bg_unmap (
    a ← num argv 1 0; status ← sys (umka_sys_bg_unmap a); line ["status = "; fmt_d (s32 status)]).
End commands.
