(* ===== verification/CmdFs.v ===== *)
(** shell.c: the commands about disks, directories and files. *)
From S2P Require Import Prelude CLib Io Disk Vdisk Syscall Optparse Usage Shell.

(** ** Sizes for people *)

(** [lldiv(x, 1024)] takes a signed 64-bit number and truncates. *)
Definition lldiv_1024 (x : Z) : Z * Z := (Z.quot (s64 x) 1024, Z.rem (s64 x) 1024).

Fixpoint kmgtpe_from (units : list string) (unit : string) (x : Z) : Z * string :=
  match units with
  | [] => (x, unit)
  | next :: units =>
      let '(q, r) := lldiv_1024 x in
      if truth r then (x, unit) else kmgtpe_from units next (u64 q)
  end.

Definition bytes_to_kmgtpe (x : Z) : Z * string :=
  if x =? 0 then (x, "B") else kmgtpe_from ["kiB"; "MiB"; "GiB"; "TiB"; "PiB"; "EiB"] "B" x.

Section commands.
Context `{Kn : ShellKernel K} `{Ho : Host}.
Abbreviation M := (M K).
Abbreviation args := (option (list slot)).

(** ** Disks *)

Definition fs_name (f : fs_kind) : string :=
  match f with
  | FsXfs => "xfs" | FsExt => "ext" | FsFat => "fat" | FsExfat => "exfat" | FsNtfs => "ntfs"
  | FsIso9660 => "iso9660" | FsOther => "???"
  end.

Definition size_text (sector_size sectors : Z) : string :=
  let '(n, unit) := bytes_to_kmgtpe (u64 (sector_size * sectors)) in
  "(" +:+ fmt_u n +:+ " " +:+ unit +:+ ")".

Definition disk_list_partitions (d : disk_t) : M unit :=
  line ["/"; d_name d; ": sector_size="; fmt_u (d_sector_size d); ", capacity=";
        fmt_u (d_capacity d); " "; size_text (d_sector_size d) (d_capacity d);
        ", num_partitions="; fmt_u (Z.of_nat (length (d_partitions d)))] ;;
  each (fun ip : nat * partition_t => let p := snd ip in
    putl ["/"; d_name d; "/"; fmt_d (Z.of_nat (fst ip) + 1); ": fs="; fs_name (p_fs p);
          ", start="; fmt_u (p_first_sector p); " ";
          size_text (d_sector_size d) (p_first_sector p)] ;;
    line [", length="; fmt_u (p_length p); " "; size_text (d_sector_size d) (p_length p)])
    (zip (seq 0 (length (d_partitions d))) (d_partitions d)).

Definition cmd_ramdisk_init (argc : Z) (argv : args) : M unit :=
  usage_unless (argc =? 2) usage_ramdisk_init (
    fname ← arg argv 1; f ← read_file fname;
    match f with
    | None => line ["[!] can't open file '"; fname; "': "; strerror fname]
    | Some b =>
        if RAMDISK_MAX_LEN <? Z.of_nat (length b)
        then line ["[!] file '"; fname; "' is too big, max size is "; fmt_d RAMDISK_MAX_LEN; " bytes"]
        else
          h ← sys (kos_ramdisk_init b); d ← peek (kdisk h); disk_list_partitions d
    end).

Definition cache_switch (opt : Z) (oa : option string) (c : Z * Z) : option (Z * Z) :=
  if opt =? 99 then s ← oa; Some (1, strtoul s 0) else None.

Definition cmd_disk_add (argc : Z) (argv : args) : M unit :=
  usage_unless (3 <=? argc) usage_disk_add (
    v ← need argv; o ← need (optparse_init v);
    fo ← need (optparse_arg o); file_name ← str_of (fst fo);
    no ← need (optparse_arg (snd fo)); disk_name ← str_of (fst no);
    with_options usage_disk_add "c:" cache_switch (snd no) (0, 0) (fun '(adjust, cache) =>
      r ← get (fun w => running (w_conf w));
      let fail := line ["umka: can't add file '"; file_name; "' as disk '"; disk_name; "'"] in
      k ← need (vdisk_init r h_async_read h_calloc_ok h_alloc h_stack h_open file_name adjust cache);
      match k with
      | None => fail
      | Some k =>
          h ← sys (kos_disk_add k disk_name);
          if truth h then
            sys_ (kos_disk_media_changed h 1) ;; d ← peek (kdisk h); disk_list_partitions d
          else fail
      end)).

Fixpoint find_disk (name : string) (hs : list Z) (k : K) : option Z :=
  match hs with
  | [] => None
  | h :: hs => if streq (d_name (kdisk h k)) name then Some h else find_disk name hs k
  end.

Definition disk_del_by_name (name : string) : M unit :=
  h ← peek (fun k => find_disk name (disk_list k) k);
  match h with
  | Some h => sys_ (kos_disk_del h)
  | None => line ["umka: can't find disk '"; name; "'"]
  end.

Definition cmd_disk_del (argc : Z) (argv : args) : M unit :=
  usage_unless (argc =? 2) usage_disk_del (name ← arg argv 1; disk_del_by_name name).

(** ** The current directory *)

Definition cmd_pwd (argc : Z) (argv : args) : M unit :=
  usage_unless (argc =? 1) usage_pwd (
    load_cwd ;; d ← get w_dirs; line [cstring (cur_dir d)]).

Definition cmd_cd (argc : Z) (argv : args) : M unit :=
  usage_unless (argc =? 2) usage_cd (
    p ← arg argv 1; sys_ (umka_sys_set_cwd p) ;;
    modify (fun w => let d := w_dirs w in set_dirs (Dirs (cur_dir d) (last_dir d) true) w)).

(** ** Listing *)

(** [f7080s1info_t]: [cnt] at 4, [total_cnt] at 8, the entries from 32 on; an
    entry has its attributes at 0 and its name at 40. *)
Definition dir_cnt (buf : bytes) : Z := le32_at buf 4.
Definition dir_total (buf : bytes) : Z := le32_at buf 8.

Definition ls_entries (buf : bytes) (bdfe_len : nat) : M unit :=
  each (fun i =>
    let off := (32 + i * bdfe_len)%nat in
    if (length buf <? off + 41)%nat then undef
    else line [convert_f70_file_attr (le32_at buf off); " "; cstring (drop (off + 40) buf)])
    (seq 0 (Z.to_nat (dir_cnt buf))).

(** The stride the listing uses. *)
Definition bdfe_stride (encoding : Z) : nat :=
  Z.to_nat (if encoding =? CP866 then BDFE_LEN_CP866 else BDFE_LEN_UNICODE).

(** [ok]: the reply is one the loop goes on with. *)
Definition reply_ok (r : f7080ret_t) (size cnt : Z) : bool :=
  (f_count r <=? size) && (cnt =? f_count r)
  && (((f_status r =? KOS_ERROR_SUCCESS) && (f_count r =? size))
      || ((f_status r =? KOS_ERROR_END_OF_FILE) && (f_count r <? size))).

(** [for (; requested; requested -= size)]; [buf] is the directory buffer. *)
Fixpoint ls_range_loop (fuel : nat) (offset enc size requested : Z) (u : fs_path) (f70or80 : Z)
    (buf : bytes) : M unit :=
  match fuel with
  | O => nofuel
  | S fuel =>
      if requested =? 0 then skip else
      let size := if requested <? size then requested else size in
      rm ← sys (umka_sys_lfn (S1arg 1 offset enc size (Z.of_nat (length buf)) u) f70or80);
      let '(r, m) := rm in
      let buf := overlay 0 m buf in
      print_f70_status r true ;;
      if negb (reply_ok r size (dir_cnt buf)) then skip else
      ls_entries buf (bdfe_stride enc) ;;
      if f_status r =? KOS_ERROR_END_OF_FILE then skip
      else ls_range_loop fuel (u32 (offset + size)) enc size (requested - size) u f70or80 buf
  end.

Definition ls_range (offset enc count : Z) (u : fs_path) (f70or80 : Z) (buf : bytes) : M unit :=
  ls_range_loop (S (Z.to_nat count)) offset enc
    (if MAX_DIRENTS_TO_READ <? count then MAX_DIRENTS_TO_READ else count) count u f70or80 buf.

(** [while (true)]: the replies of the kernel end it. *)
Fixpoint ls_all (fuel : nat) (offset enc size : Z) (u : fs_path) (f70or80 : Z) (buf : bytes) : M unit :=
  match fuel with
  | O => nofuel
  | S fuel =>
      submit UMKA_CMD_SYS_LFN (Some (ArgLfn f70or80 (S1arg 1 offset enc size (Z.of_nat (length buf)) u))) ;;
      rm ← get (fun w => uc_lfn (w_cmd w));
      let '(r, m) := rm in
      let buf := overlay 0 m buf in
      print_f70_status r true ;;
      if negb (reply_ok r size (dir_cnt buf)) then skip else
      line ["total = "; fmt_d (s32 (dir_total buf))] ;;
      ls_entries buf (bdfe_stride enc) ;;
      if f_status r =? KOS_ERROR_END_OF_FILE then skip
      else ls_all fuel (u32 (offset + dir_cnt buf)) enc size u f70or80 buf
  end.

Definition parse_encoding (str : string) : Z :=
  if streq str "default" then DEFAULT_ENCODING
  else if streq str "cp866" then CP866
  else if streq str "utf16" then UTF16
  else if streq str "utf8" then UTF8
  else INVALID_ENCODING.

(** [f7080s7arg_t] with the parameters "test". *)
Definition cmd_exec (argc : Z) (argv : args) : M unit :=
  usage_unless (truth argc) usage_exec (
    path ← arg argv 1;
    rm ← sys (umka_sys_lfn (S7arg 7 0 (Some "test") (Path70 path)) F70);
    let r := fst rm in
    if f_status r <? 0 then print_f70_status (F7080ret (s32 (- f_status r)) (f_count r)) true
    else line ["pid: "; fmt_u (f_status r)] ;; print_f70_status (F7080ret 0 (f_count r)) true).

Record ls_opts := LsOpts { lo_from : Z; lo_count : Z; lo_enc : Z; lo_penc : Z }.

Definition ls_switch (opt : Z) (oa : option string) (o : ls_opts) : option ls_opts :=
  let '(LsOpts f c e p) := o in
  if opt =? 102 then s ← oa; Some (LsOpts (strtoul s 0) c e p)
  else if opt =? 99 then s ← oa; Some (LsOpts f (strtoul s 0) e p)
  else if opt =? 101 then s ← oa; Some (LsOpts f c (parse_encoding s) p)
  else if opt =? 112 then s ← oa; Some (LsOpts f c e (parse_encoding s))
  else None.

(** The size of the buffer [cmd_ls] allocates. *)
Definition ls_buffer (enc : Z) : Z :=
  32 + (if enc <=? CP866 then BDFE_LEN_CP866 else BDFE_LEN_UNICODE) * MAX_DIRENTS_TO_READ.

Definition cmd_ls (fuel : nat) (argc : Z) (argv : args) (usage : string) (f70or80 : Z) : M unit :=
  usage_unless (truth argc) usage (
    v ← need argv; o ← need (optparse_init v);
    po ← (if 1 <? argc then
            a1 ← arg argv 1;
            if negb (char_at a1 0 =? 45)
            then so ← need (optparse_arg o); p ← str_of (fst so); mret (p, snd so)
            else mret (".", o)
          else mret (".", o));
    let optstring := if f70or80 =? F70 then "f:c:e:" else "f:c:e:p:" in
    with_options usage optstring ls_switch (snd po)
      (LsOpts 0 MAX_DIRENTS_TO_READ DEFAULT_READDIR_ENCODING DEFAULT_PATH_ENCODING) (fun l =>
      buf ← need (h_alloc (ls_buffer (lo_enc l)));
      let u := if f70or80 =? F70 then Path70 (fst po) else Path80 (lo_penc l) (fst po) in
      if negb (lo_count l =? MAX_DIRENTS_TO_READ)
      then ls_range (lo_from l) (lo_enc l) (lo_count l) u f70or80 buf
      else ls_all fuel (lo_from l) (lo_enc l) (lo_count l) u f70or80 buf)).

Definition cmd_ls70 (fuel : nat) (argc : Z) (argv : args) : M unit := cmd_ls fuel argc argv usage_ls70 F70.
Definition cmd_ls80 (fuel : nat) (argc : Z) (argv : args) : M unit := cmd_ls fuel argc argv usage_ls80 F80.

(** ** Attributes and times *)

Definition time_line (name : string) (t : bytes) : M unit :=
  let '(y, mo, d, (h, mi, s)) := local_time t in
  line [name; ": "; fmt_d_prec 4 (y + 1900); "."; fmt_d_prec 2 (mo + 1); "."; fmt_d_prec 2 d; " ";
        fmt_d_prec 2 h; ":"; fmt_d_prec 2 mi; ":"; fmt_d_prec 2 s].

Record stat_opts := StatOpts { so_c : bool; so_m : bool; so_a : bool }.
Definition stat_switch (opt : Z) (oa : option string) (o : stat_opts) : option stat_opts :=
  if opt =? 99 then Some (StatOpts true (so_m o) (so_a o))
  else if opt =? 109 then Some (StatOpts (so_c o) true (so_a o))
  else if opt =? 97 then Some (StatOpts (so_c o) (so_m o) true)
  else None.

(** [bdfe_t]: attr 0, ctime 8, atime 16, mtime 24, size 32; 1952 bytes. *)
Definition cmd_stat (argc : Z) (argv : args) (f70or80 : Z) : M unit :=
  usage_unless (2 <=? argc) usage_stat (
    v ← need argv; o ← need (optparse_init v);
    po ← need (optparse_arg o); path ← str_of (fst po);
    let u := if f70or80 =? F70 then Path70 path else Path80 DEFAULT_PATH_ENCODING path in
    rm ← sys (umka_sys_lfn (S5arg 5 0 1952 u) f70or80);
    let '(r, file) := rm in
    print_f70_status r false ;;
    if negb (f_status r =? KOS_ERROR_SUCCESS) then skip else
    let attr := le32_at file 0 in
    line ["attr: "; convert_f70_file_attr attr] ;;
    (if (attr .& KF_FOLDER) =? 0 then line ["size: "; fmt_u (le64_at file 32)] else skip) ;;
    with_options usage_stat "cma" stat_switch (snd po) (StatOpts false false false) (fun s =>
      rep ← get (fun w => reproducible (w_conf w));
      (if negb rep || so_a s then time_line "atime" (sub file 16 8) else skip) ;;
      (if negb rep || so_m s then time_line "mtime" (sub file 24 8) else skip) ;;
      (if negb rep || so_c s then time_line "ctime" (sub file 8 8) else skip))).

Definition cmd_stat70 (argc : Z) (argv : args) : M unit := cmd_stat argc argv F70.
Definition cmd_stat80 (argc : Z) (argv : args) : M unit := cmd_stat argc argv F80.

(** ** Reading *)

(** The flags after the length: dump bytes, dump hash; [None] after a message. *)
Fixpoint read_flags (n i : nat) (argv : args) (f70or80 : Z) (db dh : bool) : M (option (bool * bool)) :=
  match n with
  | O => mret (Some (db, dh))
  | S n =>
      s ← arg argv i;
      if streq s "-b" then read_flags n (S i) argv f70or80 true dh
      else if streq s "-h" then read_flags n (S i) argv f70or80 db true
      else if streq s "-e" then
        if f70or80 =? F70
        then line ["f70 doesn't accept encoding parameter, use f80"] ;; mret None
        else read_flags n (S i) argv f70or80 db dh
      else line ["invalid option: '"; s; "'"] ;; mret None
  end.

Definition cmd_read (argc : Z) (argv : args) (f70or80 : Z) (usage : string) : M unit :=
  usage_unless (3 <=? argc) usage (
    path ← arg argv 1;
    let u := if f70or80 =? F70 then Path70 path else Path80 DEFAULT_PATH_ENCODING path in
    a2 ← arg argv 2; offset ← parse_uint64 a2;
    match offset with
    | None => skip
    | Some offset =>
        if argc <=? 3 then skip else
        a3 ← arg argv 3; count ← parse_uint32 a3;
        match count with
        | None => skip
        | Some count =>
            fl ← read_flags (Z.to_nat (argc - 4)) 4 argv f70or80 false false;
            match fl with
            | None => skip
            | Some (db, dh) =>
                buf ← need (h_alloc count);
                rm ← sys (umka_sys_lfn (S0arg 0 offset count count u) f70or80);
                let '(r, m) := rm in
                let buf := overlay 0 m buf in
                print_f70_status r true ;;
                if (f_status r =? KOS_ERROR_SUCCESS) || (f_status r =? KOS_ERROR_END_OF_FILE) then
                  (if db : bool then print_bytes buf (f_count r) else skip) ;;
                  (if dh : bool then print_hash buf (f_count r) else skip)
                else skip
            end
        end
    end).

Definition cmd_read70 (argc : Z) (argv : args) : M unit := cmd_read argc argv F70 usage_read70.
Definition cmd_read80 (argc : Z) (argv : args) : M unit := cmd_read argc argv F80 usage_read80.

(** ** Function 68 *)

Definition cmd_kos_sys_misc_init_heap (argc : Z) (argv : args) : M unit :=
  usage_unless (argc =? 1) usage_kos_sys_misc_init_heap (
    n ← sys kos_sys_misc_init_heap; line ["heap size = "; fmt_u n]).

Definition load_switch (opt : Z) (oa : option string) (o : bool * bool) : option (bool * bool) :=
  if opt =? 104 then Some (true, snd o) else if opt =? 112 then Some (fst o, true) else None.

(** The parser starts at [argv + 1]: the file name is its program name. *)
Definition cmd_kos_sys_misc_load_file (argc : Z) (argv : args) : M unit :=
  usage_unless (2 <=? argc) usage_kos_sys_misc_load_file (
    fname ← arg argv 1; v ← need argv; o ← need (optparse_init (drop 1 v));
    with_options usage_kos_sys_misc_load_file "hp" load_switch o (false, false) (fun '(hash, ptrs) =>
      ret ← sys (kos_sys_misc_load_file fname);
      let '(fdata, fsize) := ret in
      (if ptrs : bool then line ["file data = "; fmt_p fdata]
       else line ["file data = "; if truth fdata then "non-zero" else "0"]) ;;
      (if hash : bool then b ← peek (kmem fdata fsize); print_hash b fsize else skip) ;;
      line ["file size = "; fmt_u fsize] ;;
      shell_var_add_ptr fdata)).
End commands.
