(* ===== verification/CmdNet.v ===== *)
(** shell.c: the commands about network devices, sockets and protocols. *)
From S2P Require Import Prelude CLib Io Vnet Syscall Optparse Usage Shell.

Section commands.
Context `{Kn : ShellKernel K} `{Ho : Host}.
Abbreviation M := (M K).
Abbreviation args := (option (list slot)).

(** *** Devices *)

(** [argv[1]] is read whatever [argc] is.  A device that could not be made is
    passed on as a pointer into NULL. *)
Definition cmd_net_add_device (argc : Z) (argv : args) : M unit :=
  usage_unless (argc <=? 2) usage_net_add_device (
    a ← argp argv 1;
    t ← match a with
        | SNull => mret (Some VNET_DEVTYPE_NULL)
        | _ =>
            s ← str_of a;
            if streq s "null" then mret (Some VNET_DEVTYPE_NULL)
            else if streq s "file" then mret (Some VNET_DEVTYPE_FILE)
            else if streq s "tap" then mret (Some VNET_DEVTYPE_TAP)
            else line ["bad device type: "; s] ;; mret None
        end;
    match t with
    | None => skip
    | Some t =>
        r ← get (fun w => running (w_conf w));
        v ← need (vnet_init h_net_open h_ioctl t r 0);
        n ← sys (kos_net_add_device (eth (fst v)));
        line ["device number: "; fmt_d n]
    end).

Definition cmd_net_get_dev_count (argc : Z) (argv : args) : M unit :=
  usage_unless (argc =? 1) usage_net_get_dev_count (
    n ← sys umka_sys_net_get_dev_count; line ["active network devices: "; fmt_u n]).

Definition status_line (fail : bool) : M unit :=
  line ["status: "; if fail then "fail" else "ok"].

Definition cmd_net_get_dev_type (argc : Z) (argv : args) : M unit :=
  usage_unless (argc =? 2) usage_net_get_dev_type (
    n ← num argv 1 0; let dev_num := u8 n in
    t ← sys (umka_sys_net_get_dev_type dev_num);
    status_line (t =? -1) ;;
    if t =? -1 then skip
    else line ["type of network device #"; fmt_u dev_num; ": "; fmt_d t]).

(** A name of up to 64 bytes; what the kernel leaves alone is indeterminate. *)
Definition cmd_net_get_dev_name (argc : Z) (argv : args) : M unit :=
  usage_unless (argc =? 2) usage_net_get_dev_name (
    n ← num argv 1 0; let dev_num := u8 n in
    sm ← sys (umka_sys_net_get_dev_name dev_num 64);
    status_line (fst sm =? -1) ;;
    if fst sm =? -1 then skip
    else line ["name of network device #"; fmt_u dev_num; ": "; cstring (snd sm)]).

Definition cmd_net_dev_reset (argc : Z) (argv : args) : M unit :=
  usage_unless (argc =? 2) usage_net_dev_reset (
    n ← num argv 1 0; s ← sys (umka_sys_net_dev_reset (u8 n)); status_line (s =? -1)).
Definition cmd_net_dev_stop (argc : Z) (argv : args) : M unit :=
  usage_unless (argc =? 2) usage_net_dev_stop (
    n ← num argv 1 0; s ← sys (umka_sys_net_dev_stop (u8 n)); status_line (s =? -1)).

Definition cmd_net_get_dev (argc : Z) (argv : args) : M unit :=
  usage_unless (argc =? 2) usage_net_get_dev (
    n ← num argv 1 0; let dev_num := u8 n in
    dev ← sys (umka_sys_net_get_dev dev_num);
    let fail := s32 dev =? -1 in
    status_line fail ;;
    rep ← get (fun w => reproducible (w_conf w));
    if negb rep && negb fail
    then line ["address of net dev #"; fmt_u dev_num; ": 0x"; fmt_x (u32 dev)] else skip).

(** The four counters: UINT32_MAX is a failure. *)
Definition counter (usage what : string) (argc : Z) (argv : args) (f : Z -> K -> Z * K) : M unit :=
  usage_unless (argc =? 2) usage (
    n ← num argv 1 0; let dev_num := u8 n in
    count ← sys (f dev_num);
    status_line (count =? UINT32_MAX) ;;
    if count =? UINT32_MAX then skip
    else line [what; " count of net dev #"; fmt_u dev_num; ": "; fmt_u count]).

Definition cmd_net_get_packet_tx_count (argc : Z) (argv : args) : M unit :=
  counter usage_net_get_packet_tx_count "packet tx" argc argv umka_sys_net_get_packet_tx_count.
Definition cmd_net_get_packet_rx_count (argc : Z) (argv : args) : M unit :=
  counter usage_net_get_packet_rx_count "packet rx" argc argv umka_sys_net_get_packet_rx_count.
Definition cmd_net_get_byte_tx_count (argc : Z) (argv : args) : M unit :=
  counter usage_net_get_byte_tx_count "byte tx" argc argv umka_sys_net_get_byte_tx_count.
Definition cmd_net_get_byte_rx_count (argc : Z) (argv : args) : M unit :=
  counter usage_net_get_byte_rx_count "byte rx" argc argv umka_sys_net_get_byte_rx_count.

Definition link_status_names (status : Z) : string :=
  (let low := status .& 3 in
   if low =? ETH_LINK_DOWN then "ETH_LINK_DOWN"
   else if low =? ETH_LINK_UNKNOWN then "ETH_LINK_UNKNOWN"
   else if low =? ETH_LINK_FD then "ETH_LINK_FD"
   else "ERROR")
  +:+
  (let high := status .& (2 ^ 32 - 4) in
   if high =? ETH_LINK_1G then " + ETH_LINK_1G"
   else if high =? ETH_LINK_100M then " + ETH_LINK_100M"
   else if high =? ETH_LINK_10M then " + ETH_LINK_10M"
   else " + UNKNOWN").
Definition print_link_status_names (status : Z) : M unit := put (link_status_names status).

Definition cmd_net_get_link_status (argc : Z) (argv : args) : M unit :=
  usage_unless (argc =? 2) usage_net_get_link_status (
    n ← num argv 1 0; let dev_num := u8 n in
    status ← sys (umka_sys_net_get_link_status dev_num);
    status_line (status =? UINT32_MAX) ;;
    if status =? UINT32_MAX then skip
    else putl ["link status of net dev #"; fmt_u dev_num; ": "; fmt_u status; " "] ;;
         print_link_status_names status ;; put nl).

(** *** Sockets *)

Definition f75_lines (r : f75ret_t) : M unit :=
  line ["value: 0x"; fmt_x (f75_value r)] ;; line ["errorcode: 0x"; fmt_x (f75_errorcode r)].

Definition cmd_net_open_socket (argc : Z) (argv : args) : M unit :=
  usage_unless (argc =? 4) usage_net_open_socket (
    domain ← num argv 1 0; type ← num argv 2 0; protocol ← num argv 3 0;
    r ← sys (umka_sys_net_open_socket domain type protocol); f75_lines r).
Definition cmd_net_close_socket (argc : Z) (argv : args) : M unit :=
  usage_unless (argc =? 2) usage_net_close_socket (
    fd ← num argv 1 0; r ← sys (umka_sys_net_close_socket fd); f75_lines r).

(** [struct sockaddr_in]: family, port in network order, address, zeros. *)
Definition AF_INET4 : Z := 2.
Definition sockaddr_in (port addr : Z) : bytes :=
  le_bytes 2 AF_INET4 ++ be_bytes 2 (u16 port) ++ le_bytes 4 (u32 addr) ++ zeroes 8.

Definition with_sockaddr (usage : string) (argc : Z) (argv : args)
    (f : Z -> bytes -> Z -> K -> f75ret_t * K) : M unit :=
  usage_unless (argc =? 4) usage (
    fd ← num argv 1 0; port ← num argv 2 0; addr ← arg argv 3;
    line ["sockaddr at "; fmt_p host_addr] ;;
    r ← sys (f fd (sockaddr_in port (inet_addr addr)) 16); f75_lines r).

Definition cmd_net_bind (argc : Z) (argv : args) : M unit :=
  with_sockaddr usage_net_bind argc argv umka_sys_net_bind.
Definition cmd_net_connect (argc : Z) (argv : args) : M unit :=
  with_sockaddr usage_net_connect argc argv umka_sys_net_connect.
Definition cmd_net_accept (argc : Z) (argv : args) : M unit :=
  with_sockaddr usage_net_accept argc argv umka_sys_net_accept.
Definition cmd_net_listen (argc : Z) (argv : args) : M unit :=
  usage_unless (argc =? 3) usage_net_listen (
    fd ← num argv 1 0; backlog ← num argv 2 0;
    r ← sys (umka_sys_net_listen fd backlog); f75_lines r).

(** *** Addresses *)

Definition fail_line : M unit := line ["status: fail"].
Definition f76_failed (r : f76ret_t) : bool := f76_eax r =? UINT32_MAX.

Definition byte_of (z sh : Z) : Z := u8 (z >> sh).
Definition mac_text (r : f76ret_t) : string :=
  fmt_x2 (byte_of (f76_ebx r) 0) +:+ ":" +:+ fmt_x2 (byte_of (f76_ebx r) 8) +:+ ":"
  +:+ fmt_x2 (byte_of (f76_eax r) 0) +:+ ":" +:+ fmt_x2 (byte_of (f76_eax r) 8) +:+ ":"
  +:+ fmt_x2 (byte_of (f76_eax r) 16) +:+ ":" +:+ fmt_x2 (byte_of (f76_eax r) 24).
Definition ip_text (z : Z) : string :=
  fmt_d (byte_of z 0) +:+ "." +:+ fmt_d (byte_of z 8) +:+ "." +:+ fmt_d (byte_of z 16) +:+ "."
  +:+ fmt_d (byte_of z 24).

Definition cmd_net_eth_read_mac (argc : Z) (argv : args) : M unit :=
  usage_unless (argc =? 2) usage_net_eth_read_mac (
    n ← num argv 1 0; r ← sys (umka_sys_net_eth_read_mac n);
    if f76_failed r then fail_line else line [mac_text r]).

Definition ipv4_get (usage : string) (argc : Z) (argv : args) (f : Z -> K -> f76ret_t * K) : M unit :=
  usage_unless (argc =? 2) usage (
    n ← num argv 1 0; r ← sys (f n);
    if f76_failed r then fail_line else line [ip_text (f76_eax r)]).
Definition ipv4_set (usage : string) (argc : Z) (argv : args) (f : Z -> Z -> K -> f76ret_t * K) : M unit :=
  usage_unless (argc =? 3) usage (
    n ← num argv 1 0; a ← arg argv 2; r ← sys (f n (inet_addr a));
    if f76_failed r then fail_line else line ["status: ok"]).

Definition cmd_net_ipv4_get_addr (argc : Z) (argv : args) : M unit :=
  ipv4_get usage_net_ipv4_get_addr argc argv umka_sys_net_ipv4_get_addr.
Definition cmd_net_ipv4_set_addr (argc : Z) (argv : args) : M unit :=
  ipv4_set usage_net_ipv4_set_addr argc argv umka_sys_net_ipv4_set_addr.
Definition cmd_net_ipv4_get_dns (argc : Z) (argv : args) : M unit :=
  ipv4_get usage_net_ipv4_get_dns argc argv umka_sys_net_ipv4_get_dns.
Definition cmd_net_ipv4_set_dns (argc : Z) (argv : args) : M unit :=
  ipv4_set usage_net_ipv4_set_dns argc argv umka_sys_net_ipv4_set_dns.
Definition cmd_net_ipv4_get_subnet (argc : Z) (argv : args) : M unit :=
  ipv4_get usage_net_ipv4_get_subnet argc argv umka_sys_net_ipv4_get_subnet.
Definition cmd_net_ipv4_set_subnet (argc : Z) (argv : args) : M unit :=
  ipv4_set usage_net_ipv4_set_subnet argc argv umka_sys_net_ipv4_set_subnet.
Definition cmd_net_ipv4_get_gw (argc : Z) (argv : args) : M unit :=
  ipv4_get usage_net_ipv4_get_gw argc argv umka_sys_net_ipv4_get_gw.
Definition cmd_net_ipv4_set_gw (argc : Z) (argv : args) : M unit :=
  ipv4_set usage_net_ipv4_set_gw argc argv umka_sys_net_ipv4_set_gw.

(** *** ARP *)

Definition cmd_net_arp_get_count (argc : Z) (argv : args) : M unit :=
  usage_unless (argc =? 2) usage_net_arp_get_count (
    n ← num argv 1 0; r ← sys (umka_sys_net_arp_get_count n);
    if f76_failed r then fail_line else line [fmt_d (s32 (f76_eax r))]).

(** [arp_entry_t]: ip 0, mac 4, status 10, ttl 12; the MAC is printed with
    decimal conversions of at least two digits. *)
Definition arp_text (arp_num : Z) (a : bytes) : list string :=
  let ip := le32_at a 0 in
  let m i := prec 2 (fmt_u (byte_at a (4 + i))) in
  ["arp #"; fmt_u arp_num; ": IP "; ip_text ip; ", mac "; m 0%nat; ":"; m 1%nat; ":"; m 2%nat; ":";
   m 3%nat; ":"; m 4%nat; ":"; m 5%nat; ", status "; fmt_u (le16_at a 10); ", ttl ";
   fmt_u (le16_at a 12)].

Definition cmd_net_arp_get_entry (argc : Z) (argv : args) : M unit :=
  usage_unless (argc =? 3) usage_net_arp_get_entry (
    n ← num argv 1 0; arp_num ← num argv 2 0;
    rm ← sys (umka_sys_net_arp_get_entry n arp_num);
    if f76_failed (fst rm) then fail_line else line (arp_text arp_num (snd rm))).

(** sscanf with six %hhu conversions separated by colons: the fields that
    were converted, decimal; it stops at the first mismatch. *)
Fixpoint scan_fields (n : nat) (s : string) : bytes :=
  match n with
  | O => []
  | S n =>
      let r := strto_scan 10 s in
      if st_conv r then
        u8 (strtoul s 10) ::
        match st_end r with
        | String c rest => if code c =? 58 then scan_fields n rest else []
        | "" => []
        end
      else []
  end.

(** The two bytes of padding at the end of [arp_entry_t] are left out. *)
Definition cmd_net_arp_add_entry (argc : Z) (argv : args) : M unit :=
  usage_unless (argc =? 6) usage_net_arp_add_entry (
    n ← num argv 1 0; ip ← arg argv 2; mac ← arg argv 3; status ← num argv 4 0; ttl ← num argv 5 0;
    r ← sys (umka_sys_net_arp_add_entry n
          (le_bytes 4 (u32 (inet_addr ip)) ++ overlay 0 (scan_fields 6 mac) mac_junk ++ le_bytes 2 (u16 status)
           ++ le_bytes 2 (u16 ttl)));
    if f76_failed r then fail_line else skip).

Definition cmd_net_arp_del_entry (argc : Z) (argv : args) : M unit :=
  usage_unless (argc =? 3) usage_net_arp_del_entry (
    n ← num argv 1 0; arp_num ← num argv 2 0;
    r ← sys (umka_sys_net_arp_del_entry n (s32 arp_num));
    if f76_failed r then fail_line else skip).
End commands.
