(* ===== verification/ShellMain.v ===== *)
(** shell.c: the command table, the help command, splitting of a line and the
    read loop. *)
From S2P Require Import Prelude CLib Io Syscall Optparse Usage Shell CmdSys CmdGui CmdFs CmdNet.

Definition is_blank (c : ascii) : bool :=
  (code c =? 32) || (code c =? 9) || (code c =? 10) || (code c =? 13).

(** [argv[i] = v]; [None]: a store outside the array. *)
Definition store_slot (argv : list slot) (i : nat) (v : slot) : option (list slot) :=
  if (i <? length argv)%nat then Some (<[i := v]> argv) else None.

(** The loop of [split_args]: one call of [strtok] and one store a turn, no
    test of [argc]; what lies behind the NULL is left from earlier lines.  A
    turn that finds a word shortens the rest, so the length bounds the turns. *)
Fixpoint split_loop (fuel argc : nat) (s : string) (argv : list slot) : option (Z * list slot) :=
  match fuel with
  | O => Some (-1, argv)
  | S fuel =>
      let '(tok, s) := strtok is_blank s in
      argv ← store_slot argv argc (match tok with Some t => SStr t | None => SNull end);
      match tok with
      | Some _ => split_loop fuel (S argc) s argv
      | None => Some (Z.of_nat argc, argv)
      end
  end.
Definition split_args (s : string) (argv : list slot) : option (Z * list slot) :=
  split_loop (S (String.length s)) 0 s argv.

(** [free(line)]: the pointers into it stay in the array. *)
Definition free_line (argv : list slot) : list slot :=
  map (fun s => match s with SNull => SNull | _ => SDangling end) argv.

Section shell.
Context `{Kn : ShellKernel K} `{Ho : Host}.
(** The bound for the loops that only the kernel's replies end. *)
Context (fuel : nat).
Abbreviation M := (M K).
Abbreviation args := (option (list slot)).

Definition command : Type := Z -> args -> M unit.

(** [cmd_cmds], with the entry for help given. *)
Definition cmd_table (help : command) : list (string * command) :=
  [("send_scancode", cmd_send_scancode);
   ("umka_boot", cmd_umka_boot);
   ("umka_set_boot_params", cmd_umka_set_boot_params);
   ("acpi_call", cmd_acpi_call);
   ("acpi_enable", cmd_acpi_enable);
   ("acpi_get_usage", cmd_acpi_get_usage);
   ("acpi_preload_table", cmd_acpi_preload_table);
   ("acpi_set_usage", cmd_acpi_set_usage);
   ("acpi_get_node_alloc_cnt", cmd_acpi_get_node_alloc_cnt);
   ("acpi_get_node_free_cnt", cmd_acpi_get_node_free_cnt);
   ("acpi_get_node_cnt", cmd_acpi_get_node_cnt);
   ("board_get", cmd_board_get fuel);
   ("board_put", cmd_board_put);
   ("bg_map", cmd_bg_map);
   ("bg_put_img", cmd_bg_put_img);
   ("bg_put_pixel", cmd_bg_put_pixel);
   ("bg_redraw", cmd_bg_redraw);
   ("bg_set_mode", cmd_bg_set_mode);
   ("bg_set_size", cmd_bg_set_size);
   ("bg_unmap", cmd_bg_unmap);
   ("blit_bitmap", cmd_blit_bitmap);
   ("button", cmd_button);
   ("cd", cmd_cd);
   ("set", cmd_set);
   ("get", cmd_get);
   ("get_key", cmd_get_key);
   ("disk_add", cmd_disk_add);
   ("disk_del", cmd_disk_del);
   ("display_number", cmd_display_number);
   ("draw_line", cmd_draw_line);
   ("draw_rect", cmd_draw_rect);
   ("draw_window", cmd_draw_window);
   ("dump_appdata", cmd_dump_appdata);
   ("dump_key_buff", cmd_dump_key_buff);
   ("dump_wdata", cmd_dump_wdata);
   ("dump_win_pos", cmd_dump_win_pos);
   ("dump_win_stack", cmd_dump_win_stack);
   ("dump_win_map", cmd_dump_win_map);
   ("exec", cmd_exec);
   ("get_font_size", cmd_get_font_size);
   ("get_font_smoothing", cmd_get_font_smoothing);
   ("get_keyboard_lang", cmd_get_keyboard_lang);
   ("get_keyboard_layout", cmd_get_keyboard_layout);
   ("get_keyboard_mode", cmd_get_keyboard_mode);
   ("get_mouse_buttons_state", cmd_get_mouse_buttons_state);
   ("get_mouse_buttons_state_events", cmd_get_mouse_buttons_state_events);
   ("get_mouse_pos_screen", cmd_get_mouse_pos_screen);
   ("get_mouse_pos_window", cmd_get_mouse_pos_window);
   ("get_screen_area", cmd_get_screen_area);
   ("get_screen_size", cmd_get_screen_size);
   ("get_skin_height", cmd_get_skin_height);
   ("get_skin_margins", cmd_get_skin_margins);
   ("get_system_lang", cmd_get_system_lang);
   ("get_window_colors", cmd_get_window_colors);
   ("help", help);
   ("i40", cmd_i40);
   ("kos_sys_misc_init_heap", cmd_kos_sys_misc_init_heap);
   ("kos_sys_misc_load_file", cmd_kos_sys_misc_load_file);
   ("load_cursor_from_file", cmd_load_cursor_from_file);
   ("load_cursor_from_mem", cmd_load_cursor_from_mem);
   ("load_dll", cmd_load_dll);
   ("ls70", cmd_ls70 fuel);
   ("ls80", cmd_ls80 fuel);
   ("move_window", cmd_move_window);
   ("mouse_move", cmd_mouse_move);
   ("stack_init", cmd_stack_init);
   ("net_accept", cmd_net_accept);
   ("net_add_device", cmd_net_add_device);
   ("net_arp_add_entry", cmd_net_arp_add_entry);
   ("net_arp_del_entry", cmd_net_arp_del_entry);
   ("net_arp_get_count", cmd_net_arp_get_count);
   ("net_arp_get_entry", cmd_net_arp_get_entry);
   ("net_bind", cmd_net_bind);
   ("net_close_socket", cmd_net_close_socket);
   ("net_connect", cmd_net_connect);
   ("net_dev_reset", cmd_net_dev_reset);
   ("net_dev_stop", cmd_net_dev_stop);
   ("net_eth_read_mac", cmd_net_eth_read_mac);
   ("net_get_byte_rx_count", cmd_net_get_byte_rx_count);
   ("net_get_byte_tx_count", cmd_net_get_byte_tx_count);
   ("net_get_dev", cmd_net_get_dev);
   ("net_get_dev_count", cmd_net_get_dev_count);
   ("net_get_dev_name", cmd_net_get_dev_name);
   ("net_get_dev_type", cmd_net_get_dev_type);
   ("net_get_link_status", cmd_net_get_link_status);
   ("net_get_packet_rx_count", cmd_net_get_packet_rx_count);
   ("net_get_packet_tx_count", cmd_net_get_packet_tx_count);
   ("net_ipv4_get_addr", cmd_net_ipv4_get_addr);
   ("net_ipv4_get_dns", cmd_net_ipv4_get_dns);
   ("net_ipv4_get_gw", cmd_net_ipv4_get_gw);
   ("net_ipv4_get_subnet", cmd_net_ipv4_get_subnet);
   ("net_ipv4_set_addr", cmd_net_ipv4_set_addr);
   ("net_ipv4_set_dns", cmd_net_ipv4_set_dns);
   ("net_ipv4_set_gw", cmd_net_ipv4_set_gw);
   ("net_ipv4_set_subnet", cmd_net_ipv4_set_subnet);
   ("net_listen", cmd_net_listen);
   ("net_open_socket", cmd_net_open_socket);
   ("osloop", cmd_osloop);
   ("pci_get_path", cmd_pci_get_path);
   ("pci_set_path", cmd_pci_set_path);
   ("process_info", cmd_process_info);
   ("put_image", cmd_put_image);
   ("put_image_palette", cmd_put_image_palette);
   ("pwd", cmd_pwd);
   ("ramdisk_init", cmd_ramdisk_init);
   ("read70", cmd_read70);
   ("read80", cmd_read80);
   ("scrot", cmd_scrot);
   ("write_devices_dat", cmd_write_devices_dat);
   ("set_button_style", cmd_set_button_style);
   ("set_cursor", cmd_set_cursor);
   ("set_cwd", cmd_cd);
   ("set_font_size", cmd_set_font_size);
   ("set_font_smoothing", cmd_set_font_smoothing);
   ("set_keyboard_lang", cmd_set_keyboard_lang);
   ("set_keyboard_layout", cmd_set_keyboard_layout);
   ("set_keyboard_mode", cmd_set_keyboard_mode);
   ("set_mouse_pos_screen", cmd_set_mouse_pos_screen);
   ("set_pixel", cmd_set_pixel);
   ("set_screen_area", cmd_set_screen_area);
   ("set_skin", cmd_set_skin);
   ("set_system_lang", cmd_set_system_lang);
   ("set_window_caption", cmd_set_window_caption);
   ("set_window_colors", cmd_set_window_colors);
   ("csleep", cmd_csleep);
   ("stat70", cmd_stat70);
   ("stat80", cmd_stat80);
   ("var", cmd_var);
   ("check_for_event", cmd_check_for_event);
   ("wait_for_idle", cmd_wait_for_idle);
   ("wait_for_os_idle", cmd_wait_for_os_idle);
   ("wait_for_window", cmd_wait_for_window);
   ("window_redraw", cmd_window_redraw);
   ("write_text", cmd_write_text);
   ("switch_to_thread", cmd_switch_to_thread);
   ("new_sys_thread", cmd_new_sys_thread)].

Fixpoint find_cmd (t : list (string * command)) (name : string) : option command :=
  match t with
  | [] => None
  | (n, f) :: t => if streq n name then Some f else find_cmd t name
  end.

(** [cmd_help]; the command it explains is called with no arguments and a
    NULL vector. *)
Definition help_body (table : list (string * command)) (argc : Z) (argv : args) : M unit :=
  if argc =? 1 then
    put usage_help ;; put (nl +:+ "available commands:" +:+ nl +:+ nl) ;;
    each (fun nf : string * command => line ["  "; fst nf]) table
  else if argc =? 2 then
    name ← arg argv 1;
    match find_cmd table name with
    | Some f => f 0 None
    | None => line ["no such command: "; name]
    end
  else put usage_help.

(** The table holds help itself; "help help" goes one level down. *)
Fixpoint cmd_help (n : nat) : command :=
  match n with
  | O => fun _ _ => nofuel
  | S n => help_body (cmd_table (cmd_help n))
  end.
Definition cmd_cmds : list (string * command) := cmd_table (cmd_help 2).

(** *** The read loop *)

(** One command line: the array after it. *)
Definition run_command (s : string) (argv : list slot) : M (list slot) :=
  match split_args s argv with
  | None => undef
  | Some (argc, argv') =>
      name ← arg (Some argv') 0;
      (match find_cmd cmd_cmds name with
       | Some f => f argc (Some argv')
       | None => line ["unknown command: "; name]
       end) ;;
      mret (free_line argv')
  end.

(** What ic_readline returned: a line, or NULL before the end of input.  The
    result tells whether the loop goes on. *)
Definition run_input (is_tty : bool) (inp : option string) (argv : list slot)
  : M (bool * list slot) :=
  (if is_tty then skip else prompt ;; line [default "" inp]) ;;
  match inp with
  | None => mret (true, argv)
  | Some s =>
      if streq s "" then mret (false, argv)
      else if streq s "X" || streq s "q" then mret (false, argv)
      else if (char_at s 0 =? 35) || (char_at s 0 =? 10) || (char_at s 0 =? 13)
      then mret (true, argv)
      else argv' ← run_command s argv; mret (true, argv')
  end.

Fixpoint run_inputs (is_tty : bool) (inputs : list (option string)) (argv : list slot) : M unit :=
  match inputs with
  | [] => skip
  | i :: inputs =>
      r ← run_input is_tty i argv;
      if fst r : bool then run_inputs is_tty inputs (snd r) else skip
  end.

(** [run_test]: the array is calloc'ed once for all lines. *)
Definition empty_argv : list slot := replicate (MAX_COMMAND_ARGS + 1) SNull.
Definition run_test (is_tty : bool) (inputs : list (option string)) : M unit :=
  run_inputs is_tty inputs empty_argv.

(** [shell_init] with the initial values of the static data. *)
Definition shell_init (repro : bool) (running_ : Z) (booted_ : bool) (k : K)
    (files : gmap string bytes) : world K :=
  World "" k [] (UmkaCmd 0 0 ArgNone (F7080ret 0 0, []))
    (Dirs (47 :: zeroes (Z.to_nat PATH_MAX - 1)) 0 true) files "." (Conf repro running_ booted_).
End shell.
