(* ===== verification/ShellProps.v ===== *)
(** Theorems about the shell (shell.c): the command table and its usage texts,
    help, the argument vector and the i40 command. *)
From S2P Require Import Prelude CLib Io Disk Syscall Optparse Usage Shell Sample CmdSys CmdGui CmdFs CmdNet ShellMain.

(** ** The guards of the commands

    For each entry of [cmd_cmds], in order: the numbers of arguments its first
    test refuses, and the usage text printed then. *)
Definition guard : Type := string * (Z -> bool) * string.
Definition g_name (g : guard) : string := fst (fst g).
Definition g_refuses (g : guard) : Z -> bool := snd (fst g).
Definition g_usage (g : guard) : string := snd g.

Definition guards : list guard :=
  [("send_scancode", (fun argc => (argc <? 2)), usage_send_scancode);
   ("umka_boot", (fun argc => negb (argc =? 1)), usage_umka_boot);
   ("umka_set_boot_params", (fun argc => false), usage_umka_set_boot_params);
   ("acpi_call", (fun argc => argc <? 2), usage_acpi_call);
   ("acpi_enable", (fun argc => negb (argc =? 1)), usage_acpi_enable);
   ("acpi_get_usage", (fun argc => negb (argc =? 1)), usage_acpi_get_usage);
   ("acpi_preload_table", (fun argc => negb (argc =? 2)), usage_acpi_preload_table);
   ("acpi_set_usage", (fun argc => negb (argc =? 2)), usage_acpi_set_usage);
   ("acpi_get_node_alloc_cnt", (fun argc => negb (argc =? 1)), usage_acpi_get_node_alloc_cnt);
   ("acpi_get_node_free_cnt", (fun argc => negb (argc =? 1)), usage_acpi_get_node_free_cnt);
   ("acpi_get_node_cnt", (fun argc => negb (argc =? 1)), usage_acpi_get_node_cnt);
   ("board_get", (fun argc => (2 <? argc)), usage_board_get);
   ("board_put", (fun argc => negb (argc =? 2)), usage_board_put);
   ("bg_map", (fun argc => negb (argc =? 1)), usage_bg_map);
   ("bg_put_img", (fun argc => negb (argc =? 4)), usage_bg_put_img);
   ("bg_put_pixel", (fun argc => negb (argc =? 3)), usage_bg_put_pixel);
   ("bg_redraw", (fun argc => negb (argc =? 1)), usage_bg_redraw);
   ("bg_set_mode", (fun argc => negb (argc =? 3)), usage_bg_set_mode);
   ("bg_set_size", (fun argc => negb (argc =? 3)), usage_bg_set_size);
   ("bg_unmap", (fun argc => negb (argc =? 2)), usage_bg_unmap);
   ("blit_bitmap", (fun argc => negb (argc =? 15)), usage_blit_bitmap);
   ("button", (fun argc => negb (argc =? 9)), usage_button);
   ("cd", (fun argc => negb (argc =? 2)), usage_cd);
   ("set", (fun argc => negb (argc =? 3)), usage_set);
   ("get", (fun argc => negb (argc =? 2)), usage_get);
   ("get_key", (fun argc => (1 <? argc)), usage_get_key);
   ("disk_add", (fun argc => (argc <? 3)), usage_disk_add);
   ("disk_del", (fun argc => negb (argc =? 2)), usage_disk_del);
   ("display_number", (fun argc => negb (argc =? 15)), usage_display_number);
   ("draw_line", (fun argc => (argc <? 6)), usage_draw_line);
   ("draw_rect", (fun argc => (argc <? 6)), usage_draw_rect);
   ("draw_window", (fun argc => negb (argc =? 13)), usage_draw_window);
   ("dump_appdata", (fun argc => (argc <? 2)), usage_dump_appdata);
   ("dump_key_buff", (fun argc => (2 <? argc)), usage_dump_key_buff);
   ("dump_wdata", (fun argc => (argc <? 2)), usage_dump_wdata);
   ("dump_win_pos", (fun argc => (argc <? 1)), usage_dump_win_pos);
   ("dump_win_stack", (fun argc => (2 <? argc)), usage_dump_win_stack);
   ("dump_win_map", (fun argc => (argc <? 0)), usage_dump_win_map);
   ("exec", (fun argc => argc =? 0), usage_exec);
   ("get_font_size", (fun argc => negb (argc =? 1)), usage_get_font_size);
   ("get_font_smoothing", (fun argc => negb (argc =? 1)), usage_get_font_smoothing);
   ("get_keyboard_lang", (fun argc => negb (argc =? 1)), usage_get_keyboard_lang);
   ("get_keyboard_layout", (fun argc => (argc <? 3)), usage_get_keyboard_layout);
   ("get_keyboard_mode", (fun argc => negb (argc =? 1)), usage_get_keyboard_mode);
   ("get_mouse_buttons_state", (fun argc => negb (argc =? 1)), usage_get_mouse_buttons_state);
   ("get_mouse_buttons_state_events", (fun argc => negb (argc =? 1)), usage_get_mouse_buttons_state_events);
   ("get_mouse_pos_screen", (fun argc => negb (argc =? 1)), usage_get_mouse_pos_screen);
   ("get_mouse_pos_window", (fun argc => negb (argc =? 1)), usage_get_mouse_pos_window);
   ("get_screen_area", (fun argc => negb (argc =? 1)), usage_get_screen_area);
   ("get_screen_size", (fun argc => negb (argc =? 1)), usage_get_screen_size);
   ("get_skin_height", (fun argc => negb (argc =? 1)), usage_get_skin_height);
   ("get_skin_margins", (fun argc => negb (argc =? 1)), usage_get_skin_margins);
   ("get_system_lang", (fun argc => negb (argc =? 1)), usage_get_system_lang);
   ("get_window_colors", (fun argc => negb (argc =? 1)), usage_get_window_colors);
   ("help", (fun argc => negb (argc =? 1) && negb (argc =? 2)), usage_help);
   ("i40", (fun argc => (argc <? 2) || (8 <? argc)), usage_i40);
   ("kos_sys_misc_init_heap", (fun argc => negb (argc =? 1)), usage_kos_sys_misc_init_heap);
   ("kos_sys_misc_load_file", (fun argc => (argc <? 2)), usage_kos_sys_misc_load_file);
   ("load_cursor_from_file", (fun argc => negb (argc =? 2)), usage_load_cursor_from_file);
   ("load_cursor_from_mem", (fun argc => negb (argc =? 2)), usage_load_cursor_from_mem);
   ("load_dll", (fun argc => negb (argc =? 2)), usage_load_dll);
   ("ls70", (fun argc => argc =? 0), usage_ls70);
   ("ls80", (fun argc => argc =? 0), usage_ls80);
   ("move_window", (fun argc => negb (argc =? 5)), usage_move_window);
   ("mouse_move", (fun argc => argc =? 0), usage_mouse_move);
   ("stack_init", (fun argc => negb (argc =? 1)), usage_stack_init);
   ("net_accept", (fun argc => negb (argc =? 4)), usage_net_accept);
   ("net_add_device", (fun argc => (2 <? argc)), usage_net_add_device);
   ("net_arp_add_entry", (fun argc => negb (argc =? 6)), usage_net_arp_add_entry);
   ("net_arp_del_entry", (fun argc => negb (argc =? 3)), usage_net_arp_del_entry);
   ("net_arp_get_count", (fun argc => negb (argc =? 2)), usage_net_arp_get_count);
   ("net_arp_get_entry", (fun argc => negb (argc =? 3)), usage_net_arp_get_entry);
   ("net_bind", (fun argc => negb (argc =? 4)), usage_net_bind);
   ("net_close_socket", (fun argc => negb (argc =? 2)), usage_net_close_socket);
   ("net_connect", (fun argc => negb (argc =? 4)), usage_net_connect);
   ("net_dev_reset", (fun argc => negb (argc =? 2)), usage_net_dev_reset);
   ("net_dev_stop", (fun argc => negb (argc =? 2)), usage_net_dev_stop);
   ("net_eth_read_mac", (fun argc => negb (argc =? 2)), usage_net_eth_read_mac);
   ("net_get_byte_rx_count", (fun argc => negb (argc =? 2)), usage_net_get_byte_rx_count);
   ("net_get_byte_tx_count", (fun argc => negb (argc =? 2)), usage_net_get_byte_tx_count);
   ("net_get_dev", (fun argc => negb (argc =? 2)), usage_net_get_dev);
   ("net_get_dev_count", (fun argc => negb (argc =? 1)), usage_net_get_dev_count);
   ("net_get_dev_name", (fun argc => negb (argc =? 2)), usage_net_get_dev_name);
   ("net_get_dev_type", (fun argc => negb (argc =? 2)), usage_net_get_dev_type);
   ("net_get_link_status", (fun argc => negb (argc =? 2)), usage_net_get_link_status);
   ("net_get_packet_rx_count", (fun argc => negb (argc =? 2)), usage_net_get_packet_rx_count);
   ("net_get_packet_tx_count", (fun argc => negb (argc =? 2)), usage_net_get_packet_tx_count);
   ("net_ipv4_get_addr", (fun argc => negb (argc =? 2)), usage_net_ipv4_get_addr);
   ("net_ipv4_get_dns", (fun argc => negb (argc =? 2)), usage_net_ipv4_get_dns);
   ("net_ipv4_get_gw", (fun argc => negb (argc =? 2)), usage_net_ipv4_get_gw);
   ("net_ipv4_get_subnet", (fun argc => negb (argc =? 2)), usage_net_ipv4_get_subnet);
   ("net_ipv4_set_addr", (fun argc => negb (argc =? 3)), usage_net_ipv4_set_addr);
   ("net_ipv4_set_dns", (fun argc => negb (argc =? 3)), usage_net_ipv4_set_dns);
   ("net_ipv4_set_gw", (fun argc => negb (argc =? 3)), usage_net_ipv4_set_gw);
   ("net_ipv4_set_subnet", (fun argc => negb (argc =? 3)), usage_net_ipv4_set_subnet);
   ("net_listen", (fun argc => negb (argc =? 3)), usage_net_listen);
   ("net_open_socket", (fun argc => negb (argc =? 4)), usage_net_open_socket);
   ("osloop", (fun argc => negb (argc =? 1)), usage_osloop);
   ("pci_get_path", (fun argc => negb (argc =? 1)), usage_pci_get_path);
   ("pci_set_path", (fun argc => negb (argc =? 2)), usage_pci_set_path);
   ("process_info", (fun argc => negb (argc =? 2)), usage_process_info);
   ("put_image", (fun argc => negb (argc =? 6)), usage_put_image);
   ("put_image_palette", (fun argc => negb (argc =? 8)), usage_put_image_palette);
   ("pwd", (fun argc => negb (argc =? 1)), usage_pwd);
   ("ramdisk_init", (fun argc => negb (argc =? 2)), usage_ramdisk_init);
   ("read70", (fun argc => (argc <? 3)), usage_read70);
   ("read80", (fun argc => (argc <? 3)), usage_read80);
   ("scrot", (fun argc => negb (argc =? 2)), usage_scrot);
   ("write_devices_dat", (fun argc => negb (argc =? 2)), usage_write_devices_dat);
   ("set_button_style", (fun argc => negb (argc =? 2)), usage_set_button_style);
   ("set_cursor", (fun argc => negb (argc =? 2)), usage_set_cursor);
   ("set_cwd", (fun argc => negb (argc =? 2)), usage_cd);
   ("set_font_size", (fun argc => negb (argc =? 2)), usage_set_font_size);
   ("set_font_smoothing", (fun argc => negb (argc =? 2)), usage_set_font_smoothing);
   ("set_keyboard_lang", (fun argc => negb (argc =? 2)), usage_set_keyboard_lang);
   ("set_keyboard_layout", (fun argc => negb (argc =? 5) && negb (argc =? 131)), usage_set_keyboard_layout);
   ("set_keyboard_mode", (fun argc => negb (argc =? 2)), usage_set_keyboard_mode);
   ("set_mouse_pos_screen", (fun argc => negb (argc =? 3)), usage_set_mouse_pos_screen);
   ("set_pixel", (fun argc => (argc <? 4)), usage_set_pixel);
   ("set_screen_area", (fun argc => negb (argc =? 5)), usage_set_screen_area);
   ("set_skin", (fun argc => negb (argc =? 2)), usage_set_skin);
   ("set_system_lang", (fun argc => negb (argc =? 2)), usage_set_system_lang);
   ("set_window_caption", (fun argc => negb (argc =? 3)), usage_set_window_caption);
   ("set_window_colors", (fun argc => negb (argc =? 11)), usage_set_window_colors);
   ("csleep", (fun argc => negb (argc =? 2)), usage_csleep);
   ("stat70", (fun argc => (argc <? 2)), usage_stat);
   ("stat80", (fun argc => (argc <? 2)), usage_stat);
   ("var", (fun argc => negb (argc =? 2)), usage_var);
   ("check_for_event", (fun argc => negb (argc =? 1)), usage_check_for_event);
   ("wait_for_idle", (fun argc => negb (argc =? 1)), usage_wait_for_idle);
   ("wait_for_os_idle", (fun argc => negb (argc =? 1)), usage_wait_for_os_idle);
   ("wait_for_window", (fun argc => negb (argc =? 2)), usage_wait_for_window);
   ("window_redraw", (fun argc => negb (argc =? 2)), usage_window_redraw);
   ("write_text", (fun argc => negb (argc =? 12)), usage_write_text);
   ("switch_to_thread", (fun argc => negb (argc =? 2)), usage_switch_to_thread);
   ("new_sys_thread", (fun argc => argc =? 0), usage_new_sys_thread)].
(** The command only prints [u]. *)
Definition only_prints {K} (m : M K unit) (u : string) : Prop :=
  forall w, m w = Done tt (set_out (w_out w +:+ u) w).

Ltac head_of t := lazymatch t with ?f _ => head_of f | _ => t end.

(** Unfold a command down to its first test and decide it by the guard. *)
Ltac refused :=
  intros argc argv Hr w; cbv beta iota delta [g_refuses snd fst] in Hr; cbn [snd fst g_usage];
  repeat lazymatch goal with
    | |- usage_unless _ _ _ _ = _ => fail
    | |- (if _ then _ else _) _ = _ => fail
    | |- ?t = _ => let h := head_of t in progress unfold h
    end;
  unfold usage_unless;
  repeat (match goal with |- context [if ?b then _ else _] => destruct b eqn:? end;
          first [reflexivity | exfalso; unfold truth in *; zbool; lia | idtac]).

Section table.
Context `{Kn : ShellKernel K} `{Ho : Host}.
Context (fuel : nat).

Definition respects (nf : string * command (K := K)) (g : guard) : Prop :=
  fst nf = g_name g
  /\ forall argc argv, g_refuses g argc = true -> only_prints (snd nf argc argv) (g_usage g).

Lemma table_respects_guards n : Forall2 respects (cmd_table fuel (cmd_help fuel (S n))) guards.
Proof.
  unfold cmd_table, guards.
  repeat (apply Forall2_cons; [split; [reflexivity|]|]); [refused..|].
  apply Forall2_nil_2.
Qed.

(** Names are unique, so a search by name finds the entry. *)
Lemma find_respects t gs g :
  Forall2 respects t gs -> NoDup (map g_name gs) -> g ∈ gs ->
  exists f, find_cmd t (g_name g) = Some f /\ respects (g_name g, f) g.
Proof.
  induction 1 as [|[n f] g' t gs Hr HF IH]; intros Hnd Hin; [by apply elem_of_nil in Hin|].
  inversion Hnd as [|? ? Hni Hnd' Heq']; subst; clear Hnd; rename Hnd' into Hnd. pose proof (proj1 Hr) as Hn. simpl in Hn. subst n.
  cbn [find_cmd]. apply elem_of_cons in Hin as [->|Hin].
  - rewrite streq_refl. eauto.
  - rewrite (proj2 (streq_neq _ _)); [by apply IH|].
    intros Heq. apply Hni. rewrite Heq. apply list_elem_of_fmap. eauto.
Qed.

Lemma guards_nodup : NoDup (map g_name guards).
Proof. apply (bool_decide_unpack _). vm_compute. reflexivity. Qed.

Lemma find_table_respects n g : g ∈ guards ->
  exists f, find_cmd (cmd_table fuel (cmd_help fuel (S n))) (g_name g) = Some f
    /\ respects (g_name g, f) g.
Proof. intros Hg. apply (find_respects _ guards); [apply table_respects_guards|apply guards_nodup|done]. Qed.
End table.

(** The commands whose guard lets a call without arguments pass. *)
Definition unguarded : list string :=
  map g_name (List.filter (fun g => negb (g_refuses g 0)) guards).

(** Decide that a guard is in the table. *)
Ltac in_guards := unfold guards; repeat (first [apply list_elem_of_here | apply list_elem_of_further]).

(** ** What the usage lines say

    The first line of a usage text is "usage:", the command and its parameters:
    <name> is one argument, <name>... at least one; a line that has anything
    else (an option, a bracketed part) leaves the number open upwards. *)
Definition is_space (c : ascii) : bool := code c =? 32.
Definition is_newline (c : ascii) : bool := code c =? 10.
Definition parameters (u : string) : list string :=
  match tokens is_newline u with l :: _ => drop 2 (tokens is_space l) | [] => [] end.
Definition one_argument (p : string) : bool :=
  (char_at p 0 =? 60) && (char_at p (String.length p - 1) =? 62).
Definition some_arguments (p : string) : bool := (char_at p 0 =? 60) && bool_decide (is_Some (strstr p ">...")).

(** The least number of words, the command included, and whether more may follow. *)
Definition arity (u : string) : Z * bool :=
  (1 + Z.of_nat (length (List.filter (fun p => one_argument p || some_arguments p) (parameters u))),
   negb (forallb one_argument (parameters u))).
Definition documented (u : string) (argc : Z) : bool :=
  let '(n, open) := arity u in if open : bool then n <=? argc else argc =? n.

(** The commands with their texts, and those that run with a number of words
    their text does not allow. *)
Definition usages : list (string * string) := map (fun g => (g_name g, g_usage g)) guards.
Definition lax : list string :=
  ["bg_put_img"; "bg_set_mode"; "blit_bitmap"; "dump_wdata"; "dump_win_map"; "exec"; "net_add_device";
   "read70"; "read80"; "csleep"; "new_sys_thread"].

Ltac documented_guard :=
  intros Hl argc H1 Hd;
  first
    [ exfalso; apply Hl; apply (bool_decide_unpack _); vm_compute; reflexivity
    | unfold documented in Hd;
      lazymatch type of Hd with context [arity ?u] =>
        let r := eval vm_compute in (arity u) in change (arity u) with r in Hd end;
      cbv beta iota in Hd; cbv beta iota delta [g_refuses snd fst]; zbool; lia ].

Lemma guards_documented :
  Forall (fun g => g_name g ∉ lax -> forall argc, 1 <= argc -> documented (g_usage g) argc = false ->
    g_refuses g argc = true) guards.
Proof. unfold guards. repeat (apply Forall_cons; [documented_guard|]). apply Forall_nil. Qed.

(** ** Claims about the table *)

(** C17: each of the 136 commands except the eleven of [lax], called with a
    number of words that its usage line does not allow, prints exactly its
    usage text; the kernel, the variables, the files and the command slot are
    untouched.  What is allowed is read off the text: one argument for each
    <parameter>, and more only when the line has a bracketed or repeated part. *)
Theorem usage_on_bad_argc `{Kn : ShellKernel K} `{Ho : Host} fuel name u argc argv :
  (name, u) ∈ usages -> name ∉ lax -> 1 <= argc -> documented u argc = false ->
  exists f : command (K := K), find_cmd (cmd_cmds fuel) name = Some f /\ only_prints (f argc argv) u.
Proof.
  intros (g & [= -> ->] & Hg)%list_elem_of_fmap Hl H1 Hd.
  destruct (find_table_respects fuel 1 g Hg) as (f & Hf & _ & Hp). exists f. split; [done|].
  apply Hp. by eapply (proj1 (List.Forall_forall _ _) guards_documented g); [apply list_elem_of_In|..].
Qed.

Lemma usage_on_bad_argc_witness :
  documented usage_cd 3 = false
  /\ exists f : command (K := small), find_cmd (cmd_cmds 0) "cd" = Some f /\ only_prints (f 3 None) usage_cd.
Proof.
  split; [reflexivity|].
  apply (usage_on_bad_argc 0 "cd" usage_cd 3 None); [|by apply (bool_decide_unpack _)|lia|reflexivity].
  by apply (bool_decide_unpack _).
Defined.

(** "help name" prints the usage of the command and does nothing else, for
    every command whose guard refuses a call with no arguments. *)
Theorem help_prints_usage `{Kn : ShellKernel K} `{Ho : Host} fuel g argv :
  g ∈ guards -> g_refuses g 0 = true -> argv !! 1%nat = Some (SStr (g_name g)) ->
  only_prints (K := K) (cmd_help fuel 2 2 (Some argv)) (g_usage g).
Proof.
  intros Hg Hr Ha w. destruct (find_table_respects fuel 0 g Hg) as (f & Hf & _ & Hp).
  change (cmd_help fuel 2) with (help_body (cmd_table fuel (cmd_help fuel 1))).
  unfold help_body. cbn [Z.eqb Pos.eqb].
  rewrite (bind_done _ _ _ _ _ (arg_str _ _ _ w Ha)), Hf. by apply Hp.
Qed.

Lemma help_prints_usage_witness :
  only_prints (K := small) (cmd_help 0 2 2 (Some [SStr "help"; SStr "cd"])) usage_cd.
Proof.
  apply (help_prints_usage 0 ("cd", (fun argc => negb (argc =? 2)), usage_cd)); [|reflexivity..].
  in_guards.
Defined.

(** Help calls the command itself with argc 0 and a NULL vector, and seven
    commands do not refuse that: three of them dereference the NULL, the other
    four are executed instead of explained. *)
Theorem help_runs_unguarded `{Kn : ShellKernel K} `{Ho : Host} fuel name argv (w : world K) :
  name ∈ ["umka_set_boot_params"; "board_get"; "net_add_device"] ->
  argv !! 1%nat = Some (SStr name) ->
  unguarded = ["umka_set_boot_params"; "board_get"; "get_key"; "dump_key_buff"; "dump_win_stack";
               "dump_win_map"; "net_add_device"]
  /\ cmd_help fuel 2 2 (Some argv) w = Undef.
Proof.
  intros Hn Ha. split; [reflexivity|].
  change (cmd_help fuel 2) with (help_body (cmd_table fuel (cmd_help fuel 1))).
  unfold help_body. cbn [Z.eqb Pos.eqb]. rewrite (bind_done _ _ _ _ _ (arg_str _ _ _ w Ha)).
  rewrite !elem_of_cons, elem_of_nil in Hn. destruct Hn as [->|[->|[->|[]]]]; reflexivity.
Qed.

Lemma help_runs_unguarded_witness :
  cmd_help 0 2 2 (Some [SStr "help"; SStr "board_get"]) (small_world [] (always 0 0)) = Undef.
Proof.
  apply (help_runs_unguarded 0 "board_get"); [|reflexivity].
  apply list_elem_of_further, list_elem_of_here.
Defined.

(** ** The argument vector *)

(** The loop stores the words from [argc] on and then NULL, unless it comes to
    the end of the array first. *)
Lemma split_loop_tokens fuel : forall argc s argv,
  (String.length s < fuel)%nat ->
  split_loop fuel argc s argv =
  let n := (argc + length (tokens is_blank s))%nat in
  if (n <? length argv)%nat
  then Some (Z.of_nat n, take argc argv ++ map SStr (tokens is_blank s) ++ SNull :: drop (S n) argv)
  else None.
Proof.
  induction fuel as [|fuel IH]; intros argc s argv Hf; [lia|]. cbn [split_loop]. cbv zeta.
  destruct (strtok_tokens is_blank s) as [[-> ->]|(w & rest & -> & -> & Hl)]; unfold store_slot.
  - cbn [length map]. rewrite Nat.add_0_r. destruct (Nat.ltb_spec argc (length argv)) as [H|H]; [|done].
    cbn [mbind option_bind]. by rewrite insert_take_drop.
  - cbn [length map]. destruct (Nat.ltb_spec argc (length argv)) as [H|H]; cbn [mbind option_bind].
    2: { by rewrite (proj2 (Nat.ltb_ge _ _)) by lia. }
    rewrite IH by lia. cbv zeta. rewrite length_insert, Nat.add_succ_comm.
    destruct (Nat.ltb_spec (argc + S (length (tokens is_blank rest))) (length argv)); [|done].
    rewrite drop_insert_lt by lia. rewrite insert_take_drop by done.
    rewrite take_app, length_take, Nat.min_l, take_ge by (rewrite ?length_take; lia).
    replace (S argc - argc)%nat with 1%nat by lia. simpl. by rewrite <- app_assoc.
Qed.

Lemma split_args_tokens s argv :
  split_args s argv =
  let n := length (tokens is_blank s) in
  if (n <? length argv)%nat
  then Some (Z.of_nat n, map SStr (tokens is_blank s) ++ SNull :: drop (S n) argv)
  else None.
Proof. unfold split_args. rewrite split_loop_tokens by lia. done. Qed.

Lemma split_args_slots s argv n argv' :
  split_args s argv = Some (n, argv') ->
  n = Z.of_nat (length (tokens is_blank s)) /\ length argv' = length argv
  /\ (forall i t, tokens is_blank s !! i = Some t -> argv' !! i = Some (SStr t))
  /\ argv' !! length (tokens is_blank s) = Some SNull
  /\ (forall i, (length (tokens is_blank s) < i)%nat -> argv' !! i = argv !! i).
Proof.
  rewrite split_args_tokens. set (toks := tokens is_blank s). cbv zeta. destruct (Nat.ltb_spec (length toks) (length argv)); [|done].
  intros [= <- <-]. split; [done|]. split.
  { rewrite length_app, length_map. simpl. rewrite length_drop. lia. }
  split; [|split].
  - intros i t Hi. rewrite lookup_app_l by (rewrite length_map; by eapply lookup_lt_Some).
    change (map SStr toks) with (SStr <$> toks). by rewrite list_lookup_fmap, Hi.
  - rewrite lookup_app_r by (rewrite length_map; lia). by rewrite length_map, Nat.sub_diag.
  - intros i Hi. rewrite lookup_app_r by (rewrite length_map; lia). rewrite length_map.
    destruct (i - length toks)%nat eqn:E; [lia|]. simpl. rewrite lookup_drop. f_equal. lia.
Qed.

Section vector.
Context `{Kn : ShellKernel K} `{Ho : Host}.

(** Reading an optional register never changes anything. *)
Lemma opt_reg_cases v i (w : world K) :
  opt_reg (Some v) i w = Undef \/ exists z, opt_reg (Some v) i w = Done z w.
Proof.
  unfold opt_reg, mbind, M_bind, argp. destruct (v !! i) as [[|s|]|]; simpl; auto.
  - right. by exists 0.
  - right. by exists (strtoul s 0).
Qed.

Lemma opt_reg_null v i (w : world K) : v !! i = Some SNull -> opt_reg (Some v) i w = Done 0 w.
Proof. intros H. unfold opt_reg, mbind, M_bind, argp. by rewrite H. Qed.
Lemma opt_reg_str v i s (w : world K) :
  v !! i = Some (SStr s) -> opt_reg (Some v) i w = Done (strtoul s 0) w.
Proof. intros H. unfold opt_reg, mbind, M_bind, argp. by rewrite H. Qed.
Lemma opt_reg_dangling v i (w : world K) : v !! i = Some SDangling -> opt_reg (Some v) i w = Undef.
Proof. intros H. unfold opt_reg, mbind, M_bind, argp. by rewrite H. Qed.

Lemma i40_stale v argc j (w : world K) :
  2 <= argc <= 8 -> (1 <= j <= 7)%nat -> v !! j = Some SDangling -> cmd_i40 argc (Some v) w = Undef.
Proof.
  intros Hc Hj Hs. unfold cmd_i40, usage_unless.
  rewrite (proj2 (Z.leb_le 2 _)), (proj2 (Z.leb_le _ 8)) by lia. cbn [andb].
  pose proof (opt_reg_dangling v j w Hs) as Hd.
  repeat match goal with
    | |- (opt_reg (Some v) ?i ≫= _) w = Undef =>
        let H := fresh "H" in let z := fresh "z" in
        destruct (opt_reg_cases v i w) as [H|[z H]];
        [by rewrite (bind_undef _ _ _ H) | rewrite (bind_done _ _ _ _ _ H)]
    end.
  exfalso. assert (j ∈ [1; 2; 3; 4; 5; 6; 7]%nat) as Hin by (rewrite !elem_of_cons; lia).
  rewrite !elem_of_cons, elem_of_nil in Hin.
  destruct Hin as [->|[->|[->|[->|[->|[->|[->|[]]]]]]]]; congruence.
Qed.

(** The register given by token [i], 0 when there is none. *)
Definition token_reg (toks : list string) (i : nat) : Z :=
  match toks !! i with Some t => strtoul t 0 | None => 0 end.

Lemma i40_regs v toks (w : world K) :
  (2 <= length toks <= 8)%nat ->
  (forall i t, toks !! i = Some t -> v !! i = Some (SStr t)) ->
  (forall i, (length toks <= i <= 7)%nat -> v !! i = Some SNull) ->
  cmd_i40 (Z.of_nat (length toks)) (Some v) w =
  (let r := token_reg toks in
   let '(ab, k) := umka_i40 (r 1%nat) (r 2%nat) (r 3%nat) (r 4%nat) (r 5%nat) (r 6%nat) (r 7%nat) (w_k w) in
   putl (reg_line "eax" (fst ab) ++ reg_line "ebx" (snd ab)) (set_k k w)).
Proof.
  intros Hl Ht Hn.
  assert (Hreg : forall i, (1 <= i <= 7)%nat -> opt_reg (Some v) i w = Done (token_reg toks i) w).
  { intros i Hi. unfold token_reg. destruct (toks !! i) as [t|] eqn:E.
    - by apply opt_reg_str, Ht.
    - apply opt_reg_null, Hn. apply lookup_ge_None in E. lia. }
  unfold cmd_i40, usage_unless.
  rewrite (proj2 (Z.leb_le 2 _)), (proj2 (Z.leb_le _ 8)) by lia. cbn [andb].
  do 7 (erewrite bind_done by (apply Hreg; lia)).
  unfold mbind, M_bind, sys. by destruct (umka_i40 _ _ _ _ _ _ _ (w_k w)).
Qed.
End vector.

(** C40: A line of at most 42 words is split into exactly its words, followed by
    NULL, and the vector keeps its size; a longer line is written past the
    vector's end. *)
Theorem split_args_capacity s argv :
  length argv = (MAX_COMMAND_ARGS + 1)%nat ->
  if (length (tokens is_blank s) <=? MAX_COMMAND_ARGS)%nat
  then exists argv', split_args s argv = Some (Z.of_nat (length (tokens is_blank s)), argv')
    /\ length argv' = length argv
    /\ take (length (tokens is_blank s) + 1) argv' = map SStr (tokens is_blank s) ++ [SNull]
  else split_args s argv = None.
Proof.
  unfold MAX_COMMAND_ARGS. intros Hl. set (n := length (tokens is_blank s)).
  destruct (Nat.leb_spec n 42).
  - assert (Hsp : split_args s argv
      = Some (Z.of_nat n, map SStr (tokens is_blank s) ++ SNull :: drop (S n) argv)).
    { rewrite split_args_tokens. fold n. cbv zeta. by rewrite (proj2 (Nat.ltb_lt _ _)) by lia. }
    eexists. split; [exact Hsp|]. split; [by apply split_args_slots in Hsp as (_ & ? & _)|].
    rewrite take_app, take_ge by (rewrite length_map; lia). rewrite length_map. fold n.
    replace (n + 1 - n)%nat with 1%nat by lia. done.
  - rewrite split_args_tokens. fold n. cbv zeta. by rewrite (proj2 (Nat.ltb_ge _ _)) by lia.
Qed.

Lemma split_args_capacity_witness :
  length (replicate 43 SNull) = (MAX_COMMAND_ARGS + 1)%nat
  /\ exists argv', split_args "ls80 /rd/1" (replicate 43 SNull) = Some (2, argv')
       /\ length argv' = 43%nat /\ take 3 argv' = [SStr "ls80"; SStr "/rd/1"; SNull].
Proof. split; [reflexivity|]. exact (split_args_capacity "ls80 /rd/1" (replicate 43 SNull) eq_refl). Defined.

(** The i40 command puts the numbers of the line into the registers in
    order, zero where the line has none, and prints the registers the kernel
    returned; provided the rest of the vector is NULL. *)
Theorem i40_passes_registers `{Kn : ShellKernel K} `{Ho : Host} fuel s argv (w : world K) :
  tokens is_blank s !! 0%nat = Some "i40" -> (2 <= length (tokens is_blank s) <= 8)%nat ->
  (9 <= length argv)%nat ->
  (forall i, (length (tokens is_blank s) < i <= 7)%nat -> argv !! i = Some SNull) ->
  exists argv',
    run_command fuel s argv w =
    let r := token_reg (tokens is_blank s) in
    let '(ab, k) := umka_i40 (r 1%nat) (r 2%nat) (r 3%nat) (r 4%nat) (r 5%nat) (r 6%nat) (r 7%nat) (w_k w) in
    Done argv' (set_out (w_out w +:+ foldr String.append "" (reg_line "eax" (fst ab) ++ reg_line "ebx" (snd ab)))
                  (set_k k w)).
Proof.
  intros H0 Hl Ha Hn. unfold run_command.
  destruct (split_args s argv) as [[n argv']|] eqn:E.
  2: { rewrite split_args_tokens in E. cbv zeta in E. destruct (Nat.ltb_spec (length (tokens is_blank s)) (length argv)); [done|lia]. }
  apply split_args_slots in E as (-> & Hlen & Ht & Hnull & Hrest).
  rewrite (bind_done _ _ _ _ _ (arg_str _ _ _ w (Ht _ _ H0))).
  change (find_cmd (cmd_cmds fuel) "i40") with (Some (cmd_i40 (K := K))).
  exists (free_line argv'). pose proof (i40_regs argv' (tokens is_blank s) w Hl Ht) as Hi.
  cbv zeta in *. destruct (umka_i40 _ _ _ _ _ _ _ (w_k w)) as [ab k].
  rewrite (bind_done _ _ _ _ _ (Hi ltac:(intros i Hi'; destruct (decide (i = length (tokens is_blank s)))
    as [->|]; [done|]; rewrite Hrest by lia; apply Hn; lia))).
  reflexivity.
Qed.

Lemma i40_passes_registers_witness :
  exists argv', run_command 0 "i40 48 4" (replicate 43 SNull) (small_world [] (always 22 0))
    = Done argv' (set_out ("" +:+ foldr String.append "" (reg_line "eax" 22 ++ reg_line "ebx" 0))
        (set_k (Small (fun _ => 0)
           [Regs (Some (W 48)) (Some (W 4)) (Some (W 0)) (Some (W 0)) (Some (W 0)) (Some (W 0)) (Some (W 0))]
           (always 22 0)) (small_world [] (always 22 0)))).
Proof.
  destruct (i40_passes_registers 0 "i40 48 4" (replicate 43 SNull) (small_world [] (always 22 0)))
    as [argv' H]; [reflexivity|vm_compute; lia|vm_compute; lia| |].
  - intros i Hi. apply lookup_replicate_2. vm_compute in Hi. lia.
  - exists argv'. rewrite H. vm_compute. reflexivity.
Defined.

(** I40 tests for NULL all seven slots whatever argc is, and slots behind
    the terminating NULL still hold pointers into earlier lines: after a line
    with more words it reads freed memory. *)
Theorem i40_reads_stale_arguments `{Kn : ShellKernel K} `{Ho : Host} fuel s argv j (w : world K) :
  tokens is_blank s !! 0%nat = Some "i40" -> (2 <= length (tokens is_blank s))%nat ->
  (length (tokens is_blank s) < j <= 7)%nat -> argv !! j = Some SDangling ->
  run_command fuel s argv w = Undef.
Proof.
  intros H0 Hl Hj Hs. unfold run_command.
  destruct (split_args s argv) as [[n argv']|] eqn:E; [|done].
  apply split_args_slots in E as (-> & _ & Ht & _ & Hrest).
  rewrite (bind_done _ _ _ _ _ (arg_str _ _ _ w (Ht _ _ H0))).
  change (find_cmd (cmd_cmds fuel) "i40") with (Some (cmd_i40 (K := K))).
  apply bind_undef, (i40_stale _ _ j); [lia..|]. by rewrite Hrest by lia.
Qed.

Lemma i40_reads_stale_arguments_witness :
  run_command 0 "i40 48 4" (replicate 43 SDangling) (small_world [] (always 22 0)) = Undef.
Proof.
  apply (i40_reads_stale_arguments 0 "i40 48 4" (replicate 43 SDangling) 4); [reflexivity|vm_compute; lia..|reflexivity].
Defined.

(** A line of blanks is neither skipped nor reported: the empty list of
    words leaves NULL as the command name, which is then compared. *)
Theorem blank_line_crashes `{Kn : ShellKernel K} `{Ho : Host} fuel s argv (w : world K) :
  tokens is_blank s = [] -> s <> "" -> char_at s 0 <> 10 -> char_at s 0 <> 13 ->
  run_input fuel true (Some s) argv w = Undef.
Proof.
  intros Ht Hne H10 H13. unfold run_input. erewrite bind_done by reflexivity.
  rewrite (proj2 (streq_neq s "")) by done.
  assert (Hx : forall x, tokens is_blank x <> [] -> streq s x = false).
  { intros x Hx. apply streq_neq. intros ->. done. }
  rewrite !Hx by (vm_compute; discriminate). cbn [orb].
  assert (char_at s 0 <> 35) as H35.
  { destruct s as [|c s]; [done|]. intros Hc. change (code c = 35) in Hc.
    apply (tokens_head is_blank c s); [|done]. unfold is_blank. by rewrite Hc. }
  rewrite !(proj2 (Z.eqb_neq _ _)) by done. cbn [orb].
  apply bind_undef. unfold run_command.
  destruct (split_args s argv) as [[n argv']|] eqn:E; [|done].
  apply split_args_slots in E as (_ & _ & _ & Hnull & _). rewrite Ht in Hnull.
  apply bind_undef, arg_bad. intros x Hx'. simpl in Hnull. congruence.
Qed.

Lemma blank_line_crashes_witness :
  run_input 0 true (Some "  ") (replicate 43 SNull) (small_world [] (always 0 0)) = Undef.
Proof. apply (blank_line_crashes 0 "  "); [reflexivity|discriminate|vm_compute; discriminate..]. Defined.
