(* ===== verification/ShellData.v ===== *)
(** Theorems about the shell's data (shell.c): variables, numbers, sizes, hex
    dumps, kernel variables and keyboard layouts. *)
From S2P Require Import Prelude CLib Io Disk Syscall Optparse Usage Shell Sample CmdSys CmdGui CmdFs.

(** ** Variables *)

(** A name [shell_var_name] accepts. *)
Definition var_name_ok (name : string) : bool :=
  (char_at name 0 =? 36) && (strlen name <? SHELL_VAR_NAME_LEN).

(** Only the newest variable may be without a name. *)
Definition vars_ok (vars : list shell_var) : Prop :=
  match vars with
  | [] => True
  | v :: vs => (v_name v = "" \/ var_name_ok (v_name v) = true)
               /\ Forall (fun v => var_name_ok (v_name v) = true) vs
  end.

Lemma var_add_head t z vars :
  vars_ok vars -> exists vs, shell_var_add t z vars = ShellVar t "" (u32 z) :: vs
    /\ Forall (fun v => var_name_ok (v_name v) = true) vs
    /\ (forall name, name <> "" -> shell_var_get vs name = shell_var_get vars name).
Proof.
  unfold shell_var_add. destruct vars as [|v vs]; [intros _; by exists []|].
  intros [Hv Hvs]. destruct (streq (v_name v) "") eqn:E.
  - exists vs. split; [done|]. split; [done|]. intros name Hn. cbn [shell_var_get].
    apply streq_eq in E. by rewrite E, (proj2 (streq_neq _ _)) by congruence.
  - exists (v :: vs). split; [done|]. split; [|done]. constructor; [|done].
    apply streq_neq in E. by destruct Hv.
Qed.

Lemma name_accepts name v vs :
  v_name v = "" -> var_name_ok name = true ->
  shell_var_name name (v :: vs) = (true, ShellVar (v_type v) name (v_value v) :: vs).
Proof.
  intros Hv Hn. unfold shell_var_name. rewrite Hv, streq_refl. cbn [negb].
  unfold var_name_ok in Hn. apply andb_prop in Hn as [H1 H2]. rewrite H1. cbn [negb orb].
  by rewrite (proj2 (Z.leb_gt _ _)) by lia.
Qed.

Lemma char_at_nonempty s c : c <> 0 -> char_at s 0 = c -> s <> "".
Proof. intros Hc H ->. by cbn in H. Qed.

(** A value stored under a fresh variable and named with the var command is
    what "$name" stands for from then on; other names keep their values, only
    the newest variable can be without a name, and nothing else changes. *)
Theorem var_roundtrip `{Kn : ShellKernel K} `{Ho : Host} z name argv (w : world K) :
  vars_ok (w_vars w) -> var_name_ok name = true -> argv !! 1%nat = Some (SStr name) ->
  exists w',
    (shell_var_add_ptr z ;; cmd_var 2 (Some argv)) w = Done tt w'
    /\ shell_parse_ptr name w' = Done (Some (u32 z)) w'
    /\ (forall other, other <> "" -> other <> name ->
          shell_var_get (w_vars w') other = shell_var_get (w_vars w) other)
    /\ vars_ok (w_vars w') /\ w' = set_vars (w_vars w') w.
Proof.
  intros Hok Hn Ha. destruct (var_add_head SHELL_VAR_POINTER z _ Hok) as (vs & Hadd & Hvs & Hget).
  erewrite bind_done by reflexivity. rewrite Hadd.
  unfold cmd_var, usage_unless. cbn [Z.eqb Pos.eqb].
  rewrite (bind_done _ _ _ _ _ (arg_str _ _ _ _ Ha)). erewrite bind_done by reflexivity.
  erewrite bind_done by reflexivity. cbn [w_vars set_vars].
  rewrite name_accepts by done. cbn [fst snd v_type v_value].
  eexists. split; [reflexivity|]. cbn [w_vars set_vars].
  assert (char_at name 0 = 36) as Hc by (unfold var_name_ok in Hn; lia).
  split; [|split; [|split; [|done]]].
  - unfold shell_parse_ptr. rewrite Hc. unfold get. cbn [w_vars set_vars Z.eqb Pos.eqb shell_var_get].
    cbn [v_name]. rewrite (streq_refl name). cbn. unfold u32. by rewrite Zmod_mod.
  - intros other Hne Hother. cbn [shell_var_get v_name].
    rewrite (proj2 (streq_neq name other)) by congruence. by apply Hget.
  - split; [by right|done].
Qed.

Lemma var_roundtrip_witness :
  var_name_ok "$h" = true /\
  exists w', (shell_var_add_ptr 0x1234 ;; cmd_var 2 (Some [SStr "var"; SStr "$h"]))
               (small_world [ShellVar SHELL_VAR_SINT "$x" 5] (always 0 0)) = Done tt w'
    /\ shell_parse_ptr "$h" w' = Done (Some 0x1234) w'
    /\ shell_var_get (w_vars w') "$x" = Some (ShellVar SHELL_VAR_SINT "$x" 5).
Proof.
  split; [reflexivity|].
  destruct (var_roundtrip 0x1234 "$h" [SStr "var"; SStr "$h"]
    (small_world [ShellVar SHELL_VAR_SINT "$x" 5] (always 0 0))) as (w' & H1 & H2 & H3 & _);
    [|reflexivity|reflexivity|].
  - split; [by right|constructor].
  - exists w'. split; [exact H1|]. split; [exact H2|]. by rewrite H3 by discriminate.
Defined.

(** ** Numbers *)

Lemma parse_uintmax_fmt n :
  0 <= n -> parse_uintmax (fmt_u n) = (Z.min n (2 ^ 64 - 1), true).
Proof.
  intros Hn. unfold parse_uintmax, strtoumax, strto_end. rewrite strto_scan_fmt_u by done.
  unfold strto_unsigned. cbn [st_mag st_neg st_end]. f_equal.
  - destruct (Z.ltb_spec (2 ^ 64 - 1) n); lia.
  - destruct (fmt_base_head 10 n) as (d & t & He & _); [lia..|]. unfold fmt_u. by rewrite He.
Qed.

(** A printed number is read back exactly; [parse_uint32] refuses one that
    does not fit, with a message, while [parse_uint64] silently answers the
    largest 64-bit number for every larger one. *)
Theorem numbers_read_back `{Kn : ShellKernel K} n (w : world K) :
  0 <= n ->
  parse_uint32 (fmt_u n) w =
    (if n <=? UINT32_MAX then Done (Some n) w
     else Done None (set_out (w_out w +:+ ("invalid number: " +:+ fmt_u n +:+ nl)) w))
  /\ parse_uint64 (fmt_u n) w = Done (Some (Z.min n UINT64_MAX)) w.
Proof.
  intros Hn. unfold parse_uint32, parse_uint64. rewrite parse_uintmax_fmt by done. cbn [andb].
  change UINT32_MAX with (2 ^ 32 - 1). change UINT64_MAX with (2 ^ 64 - 1). split.
  - destruct (Z.leb_spec n (2 ^ 32 - 1)).
    + rewrite (proj2 (Z.leb_le _ _)) by lia. by rewrite Z.min_l by lia.
    + rewrite (proj2 (Z.leb_gt _ _)) by lia. unfold line, putl. simpl foldr.
      by rewrite string_app_nil_r.
  - rewrite (proj2 (Z.leb_le _ _)) by lia. done.
Qed.

Lemma numbers_read_back_witness :
  parse_uint32 (fmt_u (2 ^ 32)) (small_world [] (always 0 0)) =
    Done None (set_out ("" +:+ ("invalid number: " +:+ "4294967296" +:+ nl)) (small_world [] (always 0 0)))
  /\ parse_uint64 (fmt_u (2 ^ 70)) (small_world [] (always 0 0)) =
    Done (Some (2 ^ 64 - 1)) (small_world [] (always 0 0)).
Proof.
  split.
  - exact (proj1 (numbers_read_back (2 ^ 32) (small_world [] (always 0 0)) ltac:(lia))).
  - exact (proj2 (numbers_read_back (2 ^ 70) (small_world [] (always 0 0)) ltac:(lia))).
Defined.

(** ** Sizes *)

Definition units : list string := ["B"; "kiB"; "MiB"; "GiB"; "TiB"; "PiB"; "EiB"].

Lemma kmgtpe_from_exact us : forall unit x,
  0 < x < 2 ^ 63 ->
  exists k, (k <= length us)%nat /\ (unit :: us) !! k = Some (snd (kmgtpe_from us unit x))
    /\ fst (kmgtpe_from us unit x) * 1024 ^ Z.of_nat k = x
    /\ ((k < length us)%nat -> fst (kmgtpe_from us unit x) mod 1024 <> 0).
Proof.
  induction us as [|next us IH]; intros unit x Hx.
  { exists O. simpl. repeat split; try done; lia. }
  cbn [kmgtpe_from]. unfold lldiv_1024, s64. rewrite signed_id by lia.
  rewrite Z.quot_div_nonneg, Z.rem_mod_nonneg by lia. unfold truth.
  destruct (Z.eqb_spec (x mod 1024) 0) as [E|E]; cbn [negb].
  - assert (Hq : x = 1024 * (x / 1024)) by (apply Z.div_exact; lia).
    rewrite u64_small by lia.
    destruct (IH next (x / 1024)) as (k & Hk & Hu & Hv & Hm); [lia|].
    exists (S k). split; [simpl; lia|]. split; [exact Hu|]. split.
    + rewrite Nat2Z.inj_succ, Z.pow_succ_r by lia.
      transitivity (1024 * (fst (kmgtpe_from us next (x / 1024)) * 1024 ^ Z.of_nat k)); [ring|].
      rewrite Hv. lia.
    + intros Hlt. apply Hm. simpl in Hlt. lia.
  - exists O. simpl. repeat split; try done; lia.
Qed.

(** A size below 2^63 is printed exactly: the number times a power of 1024,
    the power its unit names, and no larger unit would divide it. *)
Theorem bytes_to_kmgtpe_exact x :
  0 < x < 2 ^ 63 ->
  exists k, units !! k = Some (snd (bytes_to_kmgtpe x))
    /\ fst (bytes_to_kmgtpe x) * 1024 ^ Z.of_nat k = x
    /\ ((k < 6)%nat -> fst (bytes_to_kmgtpe x) mod 1024 <> 0).
Proof.
  intros Hx. unfold bytes_to_kmgtpe. rewrite (proj2 (Z.eqb_neq x 0)) by lia.
  destruct (kmgtpe_from_exact ["kiB"; "MiB"; "GiB"; "TiB"; "PiB"; "EiB"] "B" x Hx)
    as (k & _ & Hu & Hv & Hm). exists k. auto.
Qed.

Lemma bytes_to_kmgtpe_exact_witness :
  bytes_to_kmgtpe (2880 * 512) = (1440, "kiB")
  /\ exists k, units !! k = Some "kiB" /\ 1440 * 1024 ^ Z.of_nat k = 2880 * 512
     /\ ((k < 6)%nat -> 1440 mod 1024 <> 0).
Proof.
  split; [reflexivity|]. apply (bytes_to_kmgtpe_exact (2880 * 512)). lia.
Defined.

(** The division is signed: from 2^63 on the number is wrong. *)
Lemma bytes_to_kmgtpe_signed : bytes_to_kmgtpe (2 ^ 63) = (2 ^ 64 - 8, "EiB").
Proof. reflexivity. Qed.

(** ** Dumps *)

(** Reading a dump back: pairs of digits, newlines skipped. *)
Fixpoint undump (s : string) : option bytes :=
  match s with
  | "" => Some []
  | String c s =>
      if code c =? 10 then undump s else
      match s with
      | String d s =>
          h ← digit_val c; l ← digit_val d; r ← undump s; Some (h * 16 + l :: r)
      | "" => None
      end
  end.

Lemma digit_char_not_nl d : 0 <= d < 16 -> code (digit_char d) <> 10.
Proof.
  intros Hd.
  assert (Forall (fun d => code (digit_char d) <> 10) (seqZ 0 16)) as H
    by (apply (bool_decide_unpack _); vm_compute; reflexivity).
  rewrite List.Forall_forall in H. apply H, list_elem_of_In, elem_of_seqZ. lia.
Qed.

Lemma undump_bytes x : forall i rest r,
  bytes_ok x -> undump rest = Some r -> undump (bytes_text i x +:+ rest) = Some (x ++ r).
Proof.
  induction x as [|b x IH]; intros i rest r Hx Hr; [done|].
  inversion Hx as [|? ? Hb Hx']; subst. unfold byte_ok in Hb.
  assert (Hbyte : forall t tr, undump t = Some tr -> undump (fmt_x2 b +:+ t) = Some (b :: tr)).
  { intros t tr Ht. rewrite fmt_x2_byte by lia. rewrite !string_app_cons. cbn [undump].
    rewrite (proj2 (Z.eqb_neq _ _)) by (apply digit_char_not_nl; Z.to_euclidean_division_equations; lia).
    rewrite !digit_val_char by (Z.to_euclidean_division_equations; lia).
    change ("" +:+ t) with t. rewrite Ht. simpl. do 2 f_equal. Z.to_euclidean_division_equations; lia. }
  cbn [bytes_text]. destruct (_ && _)%nat.
  - unfold nl. rewrite !string_app_assoc, string_app_cons. cbn [undump].
    rewrite code_chr. change (u8 10 =? 10) with true. cbv iota. apply Hbyte, IH; auto.
  - change ("" +:+ ?a) with a. rewrite !string_app_assoc. apply Hbyte, IH; auto.
Qed.

(** A dump printed by [print_bytes] is the bytes: reading the hexadecimal
    digits back, newlines aside, gives the first [len] of them. *)
Theorem print_bytes_roundtrip {K} x len (w : world K) :
  bytes_ok x -> 0 <= len <= Z.of_nat (length x) ->
  exists text, print_bytes x len w = Done tt (set_out (w_out w +:+ text) w)
    /\ undump text = Some (take (Z.to_nat len) x).
Proof.
  intros Hx Hl. unfold print_bytes. rewrite (proj2 (Z.ltb_ge _ _)) by lia.
  eexists. split; [reflexivity|]. rewrite <- (app_nil_r (take _ x)) at 2.
  apply undump_bytes; [by apply Forall_take|]. reflexivity.
Qed.

Lemma print_bytes_roundtrip_witness :
  exists text, print_bytes [0xde; 0xad; 1] 2 (small_world [] (always 0 0))
      = Done tt (set_out ("" +:+ text) (small_world [] (always 0 0)))
    /\ undump text = Some [0xde; 0xad].
Proof.
  apply (print_bytes_roundtrip [0xde; 0xad; 1] 2 (small_world [] (always 0 0))); [|cbn; lia].
  repeat constructor; cbn; lia.
Defined.

(** ** Kernel variables *)

(** The variables "set" and "get" both know. *)
Definition settable : list (string * kvar) :=
  [("redraw_background", RedrawBackground); ("syslang", Syslang); ("keyboard", Keyboard);
   ("keyboard_mode", KeyboardMode)].

Lemma strtol_fmt_u n : 0 <= n < 2 ^ 31 -> strtol (fmt_u n) 0 = n.
Proof.
  intros Hn. unfold strtol. rewrite strto_scan_fmt_u by lia.
  unfold strto_signed. cbn [st_neg st_mag]. lia.
Qed.

(** "set name n" stores [n], cut to the width of the variable, and "get
    name" prints what was stored, for a kernel whose variables keep what is
    assigned to them. *)
Theorem set_get_variable `{Kn : ShellKernel K} `{Ho : Host} name v n sargv gargv (w : world K) :
  (forall z k, kget v (kset v z k) = z) ->
  (name, v) ∈ settable -> 0 <= n < 2 ^ 31 ->
  sargv !! 1%nat = Some (SStr name) -> sargv !! 2%nat = Some (SStr (fmt_u n)) ->
  gargv !! 1%nat = Some (SStr name) ->
  (cmd_set 3 (Some sargv) ;; cmd_get 2 (Some gargv)) w =
  Done tt (set_out (w_out w +:+ (fmt_u (n mod 2 ^ kwidth v) +:+ nl)) (set_k (kset v (n mod 2 ^ kwidth v) (w_k w)) w)).
Proof.
  intros Hlens Hin Hn Hs1 Hs2 Hg1.
  assert (cmd_set 3 (Some sargv) w = Done tt (set_k (kset v (n mod 2 ^ kwidth v) (w_k w)) w)) as Hset.
  { unfold cmd_set, usage_unless. cbn [Z.eqb Pos.eqb].
    rewrite (bind_done _ _ _ _ _ (arg_str _ _ _ _ Hs1)), (bind_done _ _ _ _ _ (arg_str _ _ _ _ Hs2)).
    cbv zeta. rewrite strtol_fmt_u by done. unfold strto_end. rewrite strto_scan_fmt_u by lia.
    cbn [st_end]. rewrite streq_refl. cbn [negb]. unfold settable in Hin.
    rewrite !elem_of_cons, elem_of_nil in Hin. by destruct Hin as [[= -> ->]|[[= -> ->]|[[= -> ->]|[[= -> ->]|[]]]]]. }
  rewrite (bind_done _ _ _ _ _ Hset). unfold cmd_get, usage_unless. cbn [Z.eqb Pos.eqb].
  rewrite (bind_done _ _ _ _ _ (arg_str _ _ _ _ Hg1)).
  assert (s32 (n mod 2 ^ kwidth v) = n mod 2 ^ kwidth v) as H32.
  { assert (0 < 2 ^ kwidth v) by (destruct v; reflexivity).
    pose proof (Z.mod_pos_bound n (2 ^ kwidth v) ltac:(lia)).
    pose proof (Z.mod_le n (2 ^ kwidth v) ltac:(lia) ltac:(lia)). apply s32_id. lia. }
  assert (forall w', peek (kget v) (set_k (kset v (n mod 2 ^ kwidth v) (w_k w)) w')
            = Done (n mod 2 ^ kwidth v) (set_k (kset v (n mod 2 ^ kwidth v) (w_k w)) w')) as Hpeek.
  { intros w'. unfold peek. cbn [w_k set_k]. by rewrite Hlens. }
  assert (forall z, 0 <= z -> fmt_d z = fmt_u z) as Hd
    by (intros z Hz; unfold fmt_d; by rewrite (proj2 (Z.ltb_ge z 0)) by lia).
  unfold settable in Hin. rewrite !elem_of_cons, elem_of_nil in Hin.
  destruct Hin as [[= -> ->]|[[= -> ->]|[[= -> ->]|[[= -> ->]|[]]]]]; cbn [streq String.eqb Ascii.eqb Bool.eqb].
  all: cbv zeta; rewrite (bind_done _ _ _ _ _ (Hpeek w)), H32, Hd by (apply Z.mod_pos_bound; reflexivity).
  all: unfold line, putl, put; cbn [foldr app]; rewrite string_app_nil_r; reflexivity.
Qed.

Lemma set_get_variable_witness :
  exists w', (cmd_set 3 (Some [SStr "set"; SStr "keyboard_mode"; SStr "257"]) ;;
              cmd_get 2 (Some [SStr "get"; SStr "keyboard_mode"])) (small_world [] (always 0 0)) = Done tt w'
    /\ w_out w' = "" +:+ (fmt_u 1 +:+ nl).
Proof.
  eexists. split.
  - apply (set_get_variable "keyboard_mode" KeyboardMode 257 [SStr "set"; SStr "keyboard_mode"; SStr "257"]
             [SStr "get"; SStr "keyboard_mode"] (small_world [] (always 0 0))).
    + reflexivity.
    + do 3 apply list_elem_of_further. apply list_elem_of_here.
    + lia.
    + reflexivity.
    + reflexivity.
    + reflexivity.
  - reflexivity.
Defined.

(** ** Keyboard layouts *)

Section layout.
Context `{Kn : ShellKernel K} `{Ho : Host}.

(** Output only, or undefined behaviour. *)
Definition changes_nothing (m : M K unit) (w : world K) : Prop :=
  m w = Undef \/ exists text, m w = Done tt (set_out (w_out w +:+ text) w).

(** A slot that is NULL among those read stops the loop before it ends. *)
Lemma layout_codes_null n : forall i v acc cont j (w : world K),
  (i <= j < i + n)%nat -> v !! j = Some SNull ->
  changes_nothing (layout_codes n i (Some v) acc cont) w.
Proof.
  induction n as [|n IH]; intros i v acc cont j w Hj Hv; [lia|]. cbn [layout_codes].
  destruct (decide (j = i)) as [->|Hne].
  { left. apply bind_undef, arg_bad. congruence. }
  destruct (v !! i) as [[|s|]|] eqn:E.
  2: { unfold changes_nothing. rewrite (bind_done _ _ _ _ _ (arg_str _ _ _ w E)). cbv zeta.
       destruct (_ || _); [|apply (IH _ _ _ _ j); [lia|done]].
       right. eexists. unfold mbind, M_bind, line, putl, put. cbn [set_out w_out].
       rewrite string_app_assoc. reflexivity. }
  all: left; apply bind_undef, arg_bad; congruence.
Qed.
Lemma arg_cases v i (w : world K) :
  arg (Some v) i w = Undef \/ exists s, v !! i = Some (SStr s) /\ arg (Some v) i w = Done s w.
Proof.
  destruct (v !! i) as [[|s|]|] eqn:E; [|right; exists s; by split; [|apply arg_str]| |].
  all: left; apply arg_bad; congruence.
Qed.

Lemma set_layout_null t v (w : world K) :
  v !! 131%nat = Some SNull -> changes_nothing (set_layout t 131 (Some v)) w.
Proof.
  intros Hn. unfold changes_nothing, set_layout.
  destruct t as [[[type|] s]|]; cbv zeta.
  2: { right. eexists. unfold mbind, M_bind, line, putl, put. cbn [set_out w_out].
       rewrite string_app_assoc. reflexivity. }
  all: destruct (arg_cases v 3 w) as [H|(a3 & _ & H)]; [left; by apply bind_undef|].
  all: rewrite (bind_done _ _ _ _ _ H), andb_false_r; apply (layout_codes_null _ _ _ _ _ 131); [|done].
  all: change (Z.to_nat KOS_LAYOUT_SIZE) with 128%nat; lia.
Qed.
End layout.

(** The form "set_keyboard_layout -t type code0 ... code127" never sets a
    layout: with the 131 arguments the command insists on, the codes are
    looked for one place too far, and the last of them is the NULL behind the
    arguments. *)
Theorem set_layout_codes_unusable `{Kn : ShellKernel K} `{Ho : Host} v (w : world K) :
  v !! 131%nat = Some SNull -> changes_nothing (cmd_set_keyboard_layout 131 (Some v)) w.
Proof.
  intros Hn. unfold cmd_set_keyboard_layout, usage_unless. cbn [Z.eqb Pos.eqb orb].
  unfold changes_nothing.
  destruct (arg_cases v 1 w) as [H|(a1 & _ & H)]; [left; by apply bind_undef|].
  rewrite (bind_done _ _ _ _ _ H). destruct (streq a1 "-t").
  - destruct (arg_cases v 2 w) as [H2|(s & _ & H2)]; [left; by do 2 apply bind_undef|].
    erewrite bind_done by (rewrite (bind_done _ _ _ _ _ H2); reflexivity). by apply set_layout_null.
  - erewrite bind_done by reflexivity. by apply set_layout_null.
Qed.

Lemma set_layout_codes_unusable_witness :
  changes_nothing (cmd_set_keyboard_layout 131
    (Some ([SStr "set_keyboard_layout"; SStr "-t"; SStr "normal"] ++ replicate 128 (SStr "0x20") ++ [SNull])))
    (small_world [] (always 0 0)).
Proof. apply set_layout_codes_unusable. reflexivity. Defined.
