(* ===== verification/Listing.v ===== *)
(** Theorems about directory listings (shell.c, cmd_ls and its helpers).

    A directory is a list of entries.  [DirServer] states what the listing
    relies on of the kernel's function 70.1 / 80.1, and the paging loop is
    proved to print a directory exactly against that interface. *)
From S2P Require Import Prelude CLib Io Disk Syscall Optparse Shell Sample CmdFs.

Record dirent := Dirent { de_attr : Z; de_name : string }.

(** ** The reply of the kernel *)

(** The buffer [buf] holds the entries [es], one every [stride] bytes. *)
Definition holds (buf : bytes) (stride : nat) (es : list dirent) : Prop :=
  dir_cnt buf = Z.of_nat (length es)
  /\ forall i e, es !! i = Some e ->
       (32 + i * stride + 41 <= length buf)%nat
       /\ le32_at buf (32 + i * stride) = de_attr e
       /\ cstring (drop (32 + i * stride + 40) buf) = de_name e.

(** The answer to a request for [size] entries from [off] on. *)
Definition page (dir : list dirent) (off size : Z) : list dirent :=
  take (Z.to_nat size) (drop (Z.to_nat off) dir).
Definition page_status (dir : list dirent) (off size : Z) : Z :=
  if Z.of_nat (length (page dir off size)) =? size then KOS_ERROR_SUCCESS else KOS_ERROR_END_OF_FILE.

(** Functions 70.1 and 80.1 on a directory, for a buffer with enough room: the
    count in ebx and in the header, the status "end of file" when there are
    fewer entries than asked for.  [serving] describes the states in which the
    kernel answers so. *)
Class DirServer `{Kernel K} (serving : K -> Prop) (dir : list dirent) (enc f70or80 : Z) (u : fs_path) :=
  dir_serves : forall k off size (buf : bytes),
    serving k -> 0 <= off -> 0 < size -> 32 + size * Z.of_nat (bdfe_stride enc) <= Z.of_nat (length buf) ->
    exists m k',
      umka_sys_lfn (S1arg 1 off enc size (Z.of_nat (length buf)) u) f70or80 k
        = (F7080ret (page_status dir off size) (Z.of_nat (length (page dir off size))), m, k')
      /\ (length m <= length buf)%nat
      /\ holds (overlay 0 m buf) (bdfe_stride enc) (page dir off size)
      /\ serving k'.

(** ** What is printed *)

Definition status_text (r : f7080ret_t) : string :=
  foldr String.append "" (["status = "; fmt_d (f_status r); " "; get_f70_status_name (f_status r)]
    ++ (if (f_status r =? KOS_ERROR_SUCCESS) || (f_status r =? KOS_ERROR_END_OF_FILE)
        then [", count = "; fmt_d (s32 (f_count r))] else []) ++ [nl]).

Definition entry_text (e : dirent) : string :=
  convert_f70_file_attr (de_attr e) +:+ " " +:+ de_name e +:+ nl.
Definition listing (es : list dirent) : string := foldr String.append "" (map entry_text es).

(** One reply as printed: [ls_all] shows the total number of entries too. *)
Record shown := Shown { sh_status : Z; sh_total : option Z; sh_entries : list dirent }.
Definition page_text (p : shown) : string :=
  status_text (F7080ret (sh_status p) (Z.of_nat (length (sh_entries p))))
  +:+ match sh_total p with Some t => "total = " +:+ fmt_d t +:+ nl | None => "" end
  +:+ listing (sh_entries p).

Lemma concat_texts_app (a b : list string) :
  foldr String.append "" (a ++ b) = foldr String.append "" a +:+ foldr String.append "" b.
Proof. induction a as [|x a IH]; [done|]. simpl. by rewrite IH, string_app_assoc. Qed.

Lemma page_length dir off size :
  0 <= size -> Z.of_nat (length (page dir off size)) <= size.
Proof. intros. unfold page. rewrite length_take. lia. Qed.

(** The reply of a server is one the loop accepts. *)
Lemma reply_ok_page dir off size cnt :
  0 < size -> cnt = Z.of_nat (length (page dir off size)) ->
  reply_ok (F7080ret (page_status dir off size) (Z.of_nat (length (page dir off size)))) size cnt = true.
Proof.
  intros Hs ->. pose proof (page_length dir off size ltac:(lia)).
  unfold reply_ok, page_status. cbn [f_status f_count].
  set (n := Z.of_nat (length (page dir off size))) in *. rewrite Z.eqb_refl.
  rewrite (proj2 (Z.leb_le n size)) by lia. unfold KOS_ERROR_SUCCESS, KOS_ERROR_END_OF_FILE.
  destruct (Z.eqb_spec n size); [done|]. cbn. apply Z.ltb_lt. lia.
Qed.

(** A request is the first page and what follows it. *)
Lemma page_full dir off size n :
  0 <= off -> 0 < size <= n ->
  page dir off n = page dir off size ++ page dir (off + size) (n - size).
Proof.
  intros Ho Hs. unfold page.
  rewrite Z2Nat.inj_add, Z2Nat.inj_sub by lia. rewrite <- drop_drop.
  rewrite take_take_drop. f_equal. lia.
Qed.

Lemma page_short dir off size n :
  0 < size <= n -> Z.of_nat (length (page dir off size)) <> size -> page dir off n = page dir off size.
Proof.
  intros Hs Hne. unfold page in *. rewrite length_take in Hne.
  rewrite !take_ge; [done|lia..].
Qed.

Section printing.
Context `{Kn : ShellKernel K} `{Ho : Host}.

Lemma print_status r (w : world K) :
  print_f70_status r true w = Done tt (set_out (w_out w +:+ status_text r) w).
Proof. reflexivity. Qed.

Lemma ls_entries_prints buf stride es (w : world K) :
  holds buf stride es ->
  ls_entries buf stride w = Done tt (set_out (w_out w +:+ listing es) w).
Proof.
  intros [Hc He]. unfold ls_entries. rewrite Hc, Nat2Z.id.
  rewrite (each_done _ (fun i => entry_text (default (Dirent 0 "") (es !! i)))).
  - unfold listing. do 4 f_equal. apply list_eq. intros i.
    change (map ?f ?l) with (f <$> l). rewrite !list_lookup_fmap.
    destruct (es !! i) as [e|] eqn:E.
    + rewrite lookup_seq_lt by (by eapply lookup_lt_Some). simpl. by rewrite E.
    + rewrite lookup_seq_ge by (by apply lookup_ge_None in E). done.
  - intros i w' Hi. apply elem_of_seq in Hi.
    destruct (lookup_lt_is_Some_2 es i) as [e E]; [lia|]. rewrite E.
    destruct (He i e E) as (Hl & Ha & Hn). rewrite (proj2 (Nat.ltb_ge _ _)) by lia.
    unfold line, putl, put. cbn [foldr app]. rewrite Ha, Hn, string_app_nil_r. done.
Qed.
End printing.

(** ** Paging *)
Section paging.
Context `{Kn : ShellKernel K} `{Ho : Host}.
Context (serving : K -> Prop) (dir : list dirent) (enc f70or80 : Z) (u : fs_path).
Context {Hserver : DirServer serving dir enc f70or80 u}.

(** The text of a list of pages that together are [es]. *)
Definition printed (w w' : world K) (es : list dirent) : Prop :=
  exists pages, mjoin (map sh_entries pages) = es
    /\ Forall (fun p => Z.of_nat (length (sh_entries p)) <= MAX_DIRENTS_TO_READ) pages
    /\ w_out w' = w_out w +:+ foldr String.append "" (map page_text pages).

Lemma printed_nil w : printed w w [].
Proof. exists []. repeat split; [constructor|]. simpl. by rewrite string_app_nil_r. Qed.

Lemma printed_cons w w1 w2 st t p es :
  Z.of_nat (length p) <= MAX_DIRENTS_TO_READ ->
  w_out w1 = w_out w +:+ page_text (Shown st t p) -> printed w1 w2 es -> printed w w2 (p ++ es).
Proof.
  intros Hp H1 (pages & <- & HF & H2). exists (Shown st t p :: pages). split; [done|].
  split; [by constructor|]. rewrite H2, H1. simpl. by rewrite string_app_assoc.
Qed.

Lemma ls_range_loop_prints fuel : forall offset size requested buf w,
  serving (w_k w) -> 0 <= offset -> offset + requested < 2 ^ 32 ->
  0 <= requested < Z.of_nat fuel -> 0 <= size <= MAX_DIRENTS_TO_READ -> (0 < requested -> 0 < size) ->
  32 + MAX_DIRENTS_TO_READ * Z.of_nat (bdfe_stride enc) <= Z.of_nat (length buf) ->
  exists w', ls_range_loop fuel offset enc size requested u f70or80 buf w = Done tt w'
    /\ printed w w' (page dir offset requested) /\ serving (w_k w').
Proof.
  induction fuel as [|fuel IH]; intros offset size0 requested buf w Hs Hoff Hw Hf Hsz Hpos Hb; [lia|].
  cbn [ls_range_loop]. destruct (Z.eqb_spec requested 0) as [->|Hr].
  { exists w. split; [done|]. split; [|done]. rewrite (eq_refl : page dir offset 0 = []).
    apply printed_nil. }
  set (size := if requested <? size0 then requested else size0).
  assert (0 < size <= requested /\ size <= MAX_DIRENTS_TO_READ) as [Hsize Hmax].
  { subst size. destruct (Z.ltb_spec requested size0); lia. }
  destruct (dir_serves (w_k w) offset size buf) as (m & k' & He & Hm & Hh & Hk); [done|done|lia|nia|].
  erewrite bind_done by (unfold sys; rewrite He; reflexivity). cbv beta iota zeta.
  rewrite (bind_done _ _ _ _ _ (print_status _ _)).
  rewrite (reply_ok_page dir offset size (dir_cnt (overlay 0 m buf))) by (apply Hh || lia).
  cbn [negb]. rewrite (bind_done _ _ _ _ _ (ls_entries_prints _ _ _ _ Hh)). cbn [f_status].
  set (w1 := set_out _ _).
  assert (w_out w1 = w_out w +:+ page_text (Shown (page_status dir offset size) None (page dir offset size))) as Hout.
  { subst w1. unfold page_text. simpl. by rewrite string_app_assoc. }
  pose proof (page_length dir offset size ltac:(lia)) as Hpl.
  unfold page_status in *. destruct (Z.eqb_spec (Z.of_nat (length (page dir offset size))) size) as [E|E].
  - change (KOS_ERROR_SUCCESS =? KOS_ERROR_END_OF_FILE) with false. cbv iota.
    rewrite u32_small by lia.
    destruct (IH (offset + size) size (requested - size) (overlay 0 m buf) w1) as (w' & Hr' & Hp & Hk');
      [done|lia..| |].
    { rewrite length_overlay by (simpl; lia). lia. }
    exists w'. split; [exact Hr'|]. split; [|done].
    rewrite (page_full dir offset size requested) by lia.
    eapply printed_cons; [lia|exact Hout|exact Hp].
  - change (KOS_ERROR_END_OF_FILE =? KOS_ERROR_END_OF_FILE) with true. cbv iota.
    exists w1. split; [done|]. split; [|done]. rewrite (page_short dir offset size requested) by lia.
    rewrite <- (app_nil_r (page dir offset size)).
    eapply printed_cons; [lia|exact Hout|apply printed_nil].
Qed.

(** The file system call through the command slot: the slot is free again. *)
Lemma submit_lfn a r k' (w : world K) :
  umka_sys_lfn a f70or80 (w_k w) = (r, k') ->
  submit UMKA_CMD_SYS_LFN (Some (ArgLfn f70or80 a)) w =
  Done tt (set_cmd (UmkaCmd SHELL_CMD_STATUS_EMPTY UMKA_CMD_SYS_LFN (ArgLfn f70or80 a) r) (set_k k' w)).
Proof.
  intros He. unfold submit, store_cmd, shell_run_cmd, shell_run_cmd_sync, run_slot, shell_clear_cmd, set_status.
  unfold mbind, M_bind, modify, get, sys. cbn -[umka_sys_lfn]. by rewrite He.
Qed.

(** One round of [ls_all]: a page is printed, and the loop goes on exactly
    when it was full. *)
Lemma ls_all_round fuel offset buf w :
  serving (w_k w) -> 0 <= offset ->
  32 + MAX_DIRENTS_TO_READ * Z.of_nat (bdfe_stride enc) <= Z.of_nat (length buf) ->
  let p := page dir offset MAX_DIRENTS_TO_READ in
  exists w1 buf1 t, serving (w_k w1) /\ uc_status (w_cmd w1) = SHELL_CMD_STATUS_EMPTY
    /\ length buf1 = length buf
    /\ w_out w1 = w_out w +:+ page_text (Shown (page_status dir offset MAX_DIRENTS_TO_READ) (Some t) p)
    /\ ls_all (S fuel) offset enc MAX_DIRENTS_TO_READ u f70or80 buf w =
       if Z.of_nat (length p) =? MAX_DIRENTS_TO_READ
       then ls_all fuel (u32 (offset + MAX_DIRENTS_TO_READ)) enc MAX_DIRENTS_TO_READ u f70or80 buf1 w1
       else Done tt w1.
Proof.
  intros Hs Hoff Hb p. cbn [ls_all].
  destruct (dir_serves (w_k w) offset MAX_DIRENTS_TO_READ buf) as (m & k' & He & Hm & Hh & Hk);
    [done|done|done|lia|].
  rewrite (bind_done _ _ _ _ _ (submit_lfn _ _ _ _ He)). erewrite bind_done by reflexivity.
  cbn [w_cmd set_cmd uc_lfn]. rewrite (bind_done _ _ _ _ _ (print_status _ _)).
  rewrite (reply_ok_page dir offset _ (dir_cnt (overlay 0 m buf))) by (apply Hh || done).
  cbn [negb]. erewrite bind_done by reflexivity.
  rewrite (bind_done _ _ _ _ _ (ls_entries_prints _ _ _ _ Hh)). cbn [f_status].
  match goal with |- context [(if _ then skip else _) ?w1] =>
    exists w1, (overlay 0 m buf), (s32 (dir_total (overlay 0 m buf))) end.
  split; [exact Hk|]. split; [done|]. split; [apply length_overlay; simpl; lia|]. split.
  { unfold page_text, line, putl. cbn [sh_status sh_total sh_entries foldr app].
    cbn [set_out set_k set_cmd w_out]. rewrite !string_app_assoc. reflexivity. }
  rewrite (proj1 Hh). unfold page_status. fold p.
  destruct (Z.eqb_spec (Z.of_nat (length p)) MAX_DIRENTS_TO_READ) as [E|E]; [by rewrite E|done].
Qed.

Lemma ls_all_prints n : forall offset buf w,
  serving (w_k w) -> 0 <= offset -> Z.of_nat (length dir) < 2 ^ 32 ->
  Z.of_nat (length dir) - offset < MAX_DIRENTS_TO_READ * Z.of_nat n ->
  32 + MAX_DIRENTS_TO_READ * Z.of_nat (bdfe_stride enc) <= Z.of_nat (length buf) ->
  exists w', ls_all (S n) offset enc MAX_DIRENTS_TO_READ u f70or80 buf w = Done tt w'
    /\ printed w w' (drop (Z.to_nat offset) dir) /\ serving (w_k w')
    /\ uc_status (w_cmd w') = SHELL_CMD_STATUS_EMPTY.
Proof.
  unfold MAX_DIRENTS_TO_READ.
  induction n as [|n IH]; intros offset buf w Hs Hoff Hw Hf Hb.
  all: destruct (ls_all_round ltac:(first [exact (S n) | exact O]) offset buf w Hs Hoff Hb)
    as (w1 & buf1 & t & Hk & Hc & Hl & Hout & Hrun); unfold MAX_DIRENTS_TO_READ in *; rewrite Hrun; clear Hrun.
  all: pose proof (page_length dir offset 100 ltac:(done)) as Hpl.
  all: assert (length (page dir offset 100) = Nat.min 100 (length dir - Z.to_nat offset))
    as Hlen by (unfold page; by rewrite length_take, length_drop).
  all: destruct (Z.eqb_spec (Z.of_nat (length (page dir offset 100))) 100) as [E|E].
  1: lia.
  2: rewrite u32_small by lia;
     destruct (IH (offset + 100) buf1 w1) as (w' & Hr & Hp & Hk' & Hc'); [done|lia|done|lia|rewrite Hl; lia|];
     exists w'; split; [done|]; split; [|done].
  2: rewrite <- (take_drop 100 (drop (Z.to_nat offset) dir)), drop_drop;
     eapply printed_cons; [exact Hpl|exact Hout|];
     replace (Z.to_nat offset + 100)%nat with (Z.to_nat (offset + 100)) by lia; exact Hp.
  all: exists w1; split; [done|]; split; [|done].
  all: rewrite <- (app_nil_r (drop _ dir)), <- (take_ge (drop (Z.to_nat offset) dir) 100)
    by (rewrite length_drop; lia).
  all: eapply printed_cons; [exact Hpl|exact Hout|apply printed_nil].
Qed.
End paging.

(** The buffer [cmd_ls] allocates has room for a full page, unless the encoding
    is the default one. *)
Lemma ls_buffer_room enc :
  enc <> DEFAULT_ENCODING -> 0 <= enc ->
  ls_buffer enc = 32 + MAX_DIRENTS_TO_READ * Z.of_nat (bdfe_stride enc).
Proof.
  unfold DEFAULT_ENCODING, ls_buffer, bdfe_stride, CP866. intros Hne Hge.
  destruct (Z.eqb_spec enc 1) as [->|H1]; [done|]. rewrite (proj2 (Z.leb_gt enc 1)) by lia. done.
Qed.

(** ** A kernel that serves a directory *)

Definition entry_bytes (stride : nat) (e : dirent) : bytes :=
  le_bytes 4 (de_attr e) ++ zeroes 36 ++ bytes_of_string (de_name e)
  ++ zeroes (stride - 40 - String.length (de_name e)).

Definition dir_bytes (stride : nat) (total : Z) (es : list dirent) : bytes :=
  le_bytes 4 1 ++ le_bytes 4 (Z.of_nat (length es)) ++ le_bytes 4 total ++ zeroes 20
  ++ mjoin (map (entry_bytes stride) es).

(** Names are C strings that leave room for their terminator. *)
Definition entry_ok (stride : nat) (e : dirent) : Prop :=
  0 <= de_attr e < 2 ^ 32 /\ (41 + String.length (de_name e) <= stride)%nat
  /\ no_nul (de_name e).

Lemma entry_bytes_length stride e : entry_ok stride e -> length (entry_bytes stride e) = stride.
Proof.
  intros (_ & Hl & _). unfold entry_bytes, zeroes.
  rewrite !length_app, length_le_bytes, !length_replicate, length_bytes_of_string. lia.
Qed.

Lemma entries_length stride es :
  Forall (entry_ok stride) es -> length (mjoin (map (entry_bytes stride) es)) = (length es * stride)%nat.
Proof.
  induction 1 as [|e es He _ IH]; [done|]. cbn [map]. change (mjoin (?a :: ?l)) with (a ++ mjoin l).
  rewrite length_app, entry_bytes_length by done. rewrite IH. cbn [length]. lia.
Qed.

Lemma entries_at stride es i e :
  Forall (entry_ok stride) es -> es !! i = Some e ->
  exists rest, drop (i * stride) (mjoin (map (entry_bytes stride) es)) = entry_bytes stride e ++ rest.
Proof.
  intros HF. revert i. induction HF as [|e' es He _ IH]; intros i Hi; [done|].
  cbn [map]. change (mjoin (?a :: ?l)) with (a ++ mjoin l).
  destruct i as [|i]; simpl in Hi.
  - injection Hi as ->. by eexists.
  - destruct (IH i Hi) as [rest Hr]. exists rest. rewrite <- Hr.
    rewrite drop_app_ge by (rewrite entry_bytes_length by done; lia).
    rewrite entry_bytes_length by done. f_equal. lia.
Qed.

Lemma dir_bytes_length stride total es :
  Forall (entry_ok stride) es -> length (dir_bytes stride total es) = (32 + length es * stride)%nat.
Proof.
  intros H. unfold dir_bytes, zeroes.
  rewrite !length_app, !length_le_bytes, length_replicate, entries_length by done. lia.
Qed.

(** Such a reply holds the entries, whatever was in the buffer. *)
Lemma dir_bytes_holds stride total es buf :
  Forall (entry_ok stride) es -> Z.of_nat (length es) < 2 ^ 32 ->
  (32 + length es * stride <= length buf)%nat ->
  holds (overlay 0 (dir_bytes stride total es) buf) stride es.
Proof.
  intros HF Hn Hl. pose proof (dir_bytes_length stride total es HF) as Hlen.
  split.
  - unfold dir_cnt, le32_at. rewrite overlay_0. unfold dir_bytes. rewrite <- !app_assoc.
    rewrite (sub_skip _ _ 0 4 4) by apply length_le_bytes. rewrite sub_here by apply length_le_bytes.
    rewrite le_val_le_bytes, Z.mod_small; lia.
  - intros i e Hi. rewrite length_overlay by (rewrite Hlen; lia).
    pose proof (lookup_lt_Some _ _ _ Hi). pose proof (Forall_lookup_1 _ _ _ _ HF Hi) as (Ha & Hs & Hc).
    destruct (entries_at stride es i e HF Hi) as [rest Hr].
    assert (S i * stride <= length es * stride)%nat as Hmul by (apply Nat.mul_le_mono_r; lia).
    simpl in Hmul.
    assert (exists rest', drop (32 + i * stride) (overlay 0 (dir_bytes stride total es) buf)
              = entry_bytes stride e ++ rest') as [rest' Hd].
    { exists (rest ++ drop (length (dir_bytes stride total es)) buf).
      rewrite overlay_0, drop_app_le by (rewrite Hlen; lia). rewrite app_assoc, <- Hr. f_equal.
    }
    split; [lia|]. split.
    + unfold le32_at, sub. rewrite Hd. unfold entry_bytes. rewrite <- !app_assoc.
      rewrite take_app_le, take_ge by (rewrite length_le_bytes; lia).
      rewrite le_val_le_bytes, Z.mod_small; lia.
    + rewrite <- drop_drop, Hd. unfold entry_bytes. rewrite (app_assoc (le_bytes 4 _)), <- !app_assoc.
      change (drop 40 (le_bytes 4 (de_attr e) ++ zeroes 36 ++ ?l)) with l.
      destruct (stride - 40 - String.length (de_name e))%nat as [|z] eqn:E; [lia|].
      cbn [zeroes replicate app]. rewrite cstring_app by done. apply string_app_nil_r.
Qed.

Definition serve (dir : list dirent) : regs -> ret := fun r =>
  match ebx r with
  | Some (Fs (S1arg _ off enc size _ _)) =>
      let es := page dir off size in
      Ret (page_status dir off size) (Z.of_nat (length es)) 0
        (dir_bytes (bdfe_stride enc) (Z.of_nat (length dir)) es)
  | _ => Ret 0 0 0 []
  end.

Lemma serve_dir_server dir enc f u :
  Forall (entry_ok (bdfe_stride enc)) dir -> Z.of_nat (length dir) < 2 ^ 32 ->
  DirServer (fun k : small => sm_reply k = serve dir) dir enc f u.
Proof.
  intros HF Hd k off size buf Hk Ho Hs Hb.
  pose proof (page_length dir off size ltac:(lia)) as Hp.
  assert (Forall (entry_ok (bdfe_stride enc)) (page dir off size)) as HFp
    by (unfold page; by apply Forall_take, Forall_drop).
  assert (length (page dir off size) <= length dir)%nat
    by (unfold page; rewrite length_take, length_drop; lia).
  assert (32 + length (page dir off size) * bdfe_stride enc <= length buf)%nat by nia.
  eexists (dir_bytes (bdfe_stride enc) (Z.of_nat (length dir)) (page dir off size)), _. split; [|split; [|split]].
  - unfold umka_sys_lfn, returns, i40. cbn [sk_kernel small_shell_kernel small_kernel].
    unfold small_kernel. rewrite Hk. cbn [serve ebx call2 r_eax r_ebx r_mem].
    unfold page_status. destruct (_ =? size); reflexivity.
  - rewrite dir_bytes_length by done. lia.
  - apply dir_bytes_holds; [done|lia|done].
  - reflexivity.
Qed.

Definition two_files : list dirent := [Dirent 16 "lib"; Dirent 1 "kernel.mnt"].

Lemma two_files_ok : Forall (entry_ok (bdfe_stride UTF8)) two_files.
Proof. repeat constructor; first [vm_compute; discriminate | vm_compute; lia]. Qed.

(** ** Claims *)

(** C11: "ls80 path" prints every entry of the directory exactly once and in
    order, in pages of at most 100 preceded by their status, and terminates,
    for a kernel that serves the directory; the command slot ends free. *)
Theorem ls80_lists_directory `{Kn : ShellKernel K} `{Ho : Host} serving dir path cmd rest n buf (w : world K) :
  DirServer serving dir UTF8 F80 (Path80 UTF8 path) -> serving (w_k w) ->
  Z.of_nat (length dir) < 2 ^ 32 -> Z.of_nat (length dir) < 100 * Z.of_nat n ->
  char_at path 0 <> 45 -> h_alloc (ls_buffer UTF8) = Some buf -> Z.of_nat (length buf) = ls_buffer UTF8 ->
  exists w', cmd_ls80 (S n) 2 (Some (SStr cmd :: SStr path :: SNull :: rest)) w = Done tt w'
    /\ printed w w' dir /\ uc_status (w_cmd w') = SHELL_CMD_STATUS_EMPTY.
Proof.
  intros Hserve Hs Hd Hn Hp Ha Hb.
  destruct (ls_all_prints serving dir UTF8 F80 (Path80 UTF8 path) n 0 buf w) as (w' & Hr & Hpr & _ & Hc);
    [done|done|done|unfold MAX_DIRENTS_TO_READ; lia|by rewrite Hb, <- ls_buffer_room|].
  exists w'. split; [|done]. rewrite <- Hr.
  unfold cmd_ls80, cmd_ls, usage_unless. cbn [truth Z.eqb negb].
  do 2 (erewrite bind_done by reflexivity). cbn [Z.ltb Z.compare Pos.compare Pos.compare_cont].
  erewrite bind_done.
  2: { erewrite bind_done by (by apply arg_str). rewrite (proj2 (Z.eqb_neq _ _)) by done. reflexivity. }
  unfold with_options. 
  match goal with |- context [parse_options ?h ?s ?o ?a] =>
    assert (parse_options h s o a = OptDone a (Optparse (o_argv o) true 2 0 None "" 0)) as -> by reflexivity end.
  cbn [lo_enc lo_count lo_from lo_penc]. unfold DEFAULT_READDIR_ENCODING, DEFAULT_PATH_ENCODING. rewrite Ha. reflexivity.
Qed.

Lemma ls80_lists_directory_witness :
  exists w', cmd_ls80 2 2 (Some [SStr "ls80"; SStr "/sys"; SNull]) (small_world [] (serve two_files)) = Done tt w'
    /\ printed (small_world [] (serve two_files)) w' two_files
    /\ uc_status (w_cmd w') = SHELL_CMD_STATUS_EMPTY.
Proof.
  apply (ls80_lists_directory (fun k => sm_reply k = serve two_files) two_files "/sys" "ls80" [] 1
           (zeroes (Z.to_nat (ls_buffer UTF8)))).
  - apply serve_dir_server; [apply two_files_ok|vm_compute; reflexivity].
  - reflexivity.
  - vm_compute. reflexivity.
  - vm_compute. reflexivity.
  - vm_compute. discriminate.
  - reflexivity.
  - vm_compute. reflexivity.
Defined.

(** [ls_range] prints exactly the entries from [offset] on, at most
    [count], and terminates, in every encoding but the default one. *)
Theorem ls_range_lists `{Kn : ShellKernel K} `{Ho : Host} serving dir enc f u offset count buf (w : world K) :
  DirServer serving dir enc f u -> serving (w_k w) -> enc <> DEFAULT_ENCODING -> 0 <= enc ->
  0 <= offset -> 0 <= count -> offset + count < 2 ^ 32 -> Z.of_nat (length buf) = ls_buffer enc ->
  exists w', ls_range offset enc count u f buf w = Done tt w' /\ printed w w' (page dir offset count).
Proof.
  intros Hserve Hs Hne Hge Ho0 Hc Hw Hb. unfold ls_range.
  destruct (ls_range_loop_prints serving dir enc f u (S (Z.to_nat count)) offset
    (if MAX_DIRENTS_TO_READ <? count then MAX_DIRENTS_TO_READ else count) count buf w)
    as (w' & Hr & Hp & _); [done|done|done|lia| | |by rewrite Hb, <- ls_buffer_room|].
  - unfold MAX_DIRENTS_TO_READ. destruct (Z.ltb_spec 100 count); lia.
  - unfold MAX_DIRENTS_TO_READ. destruct (Z.ltb_spec 100 count); lia.
  - by exists w'.
Qed.

Lemma ls_range_lists_witness :
  exists w', ls_range 1 UTF8 3 (Path80 UTF8 "/sys") F80 (zeroes (Z.to_nat (ls_buffer UTF8)))
      (small_world [] (serve two_files)) = Done tt w'
    /\ printed (small_world [] (serve two_files)) w' [Dirent 1 "kernel.mnt"].
Proof.
  apply (ls_range_lists (fun k => sm_reply k = serve two_files) two_files UTF8 F80).
  - apply serve_dir_server; [apply two_files_ok|vm_compute; reflexivity].
  - reflexivity.
  - discriminate.
  - vm_compute. discriminate.
  - lia.
  - lia.
  - lia.
  - vm_compute. reflexivity.
Defined.

(** With "-e default" the buffer is sized for 304-byte entries and read in
    steps of 560: 56 entries or more are read past its end. *)
Theorem ls_default_overflows `{Kn : ShellKernel K} buf (w : world K) :
  Z.of_nat (length buf) = ls_buffer DEFAULT_ENCODING -> 56 <= dir_cnt buf ->
  ls_entries buf (bdfe_stride DEFAULT_ENCODING) w = Undef.
Proof.
  intros Hl Hc. change (ls_buffer DEFAULT_ENCODING) with 30432 in Hl.
  change (bdfe_stride DEFAULT_ENCODING) with 560%nat.
  unfold ls_entries. apply (each_undef _ _ 55%nat).
  - intros i w'. cbv zeta. destruct (_ <? _)%nat; [by left|]. right. eexists. reflexivity.
  - apply elem_of_seq. lia.
  - intros w'. cbv zeta. by rewrite (proj2 (Nat.ltb_lt _ _)) by lia.
Qed.

Lemma ls_default_overflows_witness :
  56 <= dir_cnt (le_bytes 4 1 ++ le_bytes 4 60 ++ zeroes (Z.to_nat 30424))
  /\ ls_entries (le_bytes 4 1 ++ le_bytes 4 60 ++ zeroes (Z.to_nat 30424)) (bdfe_stride DEFAULT_ENCODING)
       (small_world [] (always 0 0)) = Undef.
Proof.
  split; [vm_compute; discriminate|].
  apply ls_default_overflows; [vm_compute; reflexivity|vm_compute; discriminate].
Defined.
