(* ===== verification/Runner.v ===== *)
(** shell.c: how a command gets from the shell to the kernel while the system is
    running ([shell_run_cmd], [thread_cmd_runner], [shell_run_cmd_sync]).

    The shell is a host thread.  It stores a command in [umka_cmd_buf[0]], marks
    it ready and waits on the condition [cmd_done].  The kernel thread
    [cmd_runner] waits for a ready slot, executes it, marks it done and signals
    the condition.  The two threads are a step relation over the world; the
    relation has a variant in which a wait on a condition may end without a
    signal, which POSIX allows. *)
From S2P Require Import Prelude CLib Io Syscall Shell Sample.

Section runner.
Context `{Kn : ShellKernel K}.

(** What a command stores in the slot before it calls [shell_run_cmd]. *)
Definition submission : Type := Z * option cmd_arg.

(** Program points of the shell, with the submissions that follow. *)
Inductive host_pc :=
| Next (cs : list submission)      (** between commands *)
| Stored (cs : list submission)    (** type and arguments are in the slot *)
| Entering (cs : list submission)  (** ready, about to call [pthread_cond_wait] *)
| Blocked (cs : list submission)   (** waiting for the condition *)
| Woken (cs : list submission).    (** the wait is over *)

(** Program points of [thread_cmd_runner]. *)
Inductive runner_pc :=
| Polling     (** in [kos_wait_events(shell_run_cmd_wait_test)] *)
| Running     (** in [shell_run_cmd_sync], before the switch *)
| Finished    (** before the store of the status *)
| Signalling. (** before [pthread_cond_signal] *)

Record state := State { st_w : world K; host : host_pc; runner : runner_pc }.

Definition shell_run_cmd_wait_test (c : umka_cmd) : bool := uc_status c =? SHELL_CMD_STATUS_READY.

(** The world after a computation that ends. *)
Definition exec (m : M K unit) (w : world K) : option (world K) :=
  match m w with Done _ w' => Some w' | _ => None end.

(** The shell: the body of a command around [shell_run_cmd], in the branch taken
    while the system runs. *)
Definition host_step (s : state) : option state :=
  let w := st_w s in
  match host s with
  | Next [] => None
  | Next ((t, a) :: cs) => w' ← exec (store_cmd t a) w; Some (State w' (Stored cs) (runner s))
  | Stored cs => w' ← exec (set_status SHELL_CMD_STATUS_READY) w; Some (State w' (Entering cs) (runner s))
  | Entering cs => Some (State w (Blocked cs) (runner s))
  | Blocked _ => None
  | Woken cs => w' ← exec shell_clear_cmd w; Some (State w' (Next cs) (runner s))
  end.

(** [cmd_runner]: a signal reaches a thread that waits, and is lost otherwise. *)
Definition runner_step (s : state) : option state :=
  let w := st_w s in
  match runner s with
  | Polling => if shell_run_cmd_wait_test (w_cmd w) then Some (State w (host s) Running) else None
  | Running => w' ← exec run_slot w; Some (State w' (host s) Finished)
  | Finished => w' ← exec (set_status SHELL_CMD_STATUS_DONE) w; Some (State w' (host s) Signalling)
  | Signalling =>
      Some (State w (match host s with Blocked cs => Woken cs | h => h end) Polling)
  end.

Inductive step (spurious : bool) : state -> state -> Prop :=
| step_host s s' : host_step s = Some s' -> step spurious s s'
| step_runner s s' : runner_step s = Some s' -> step spurious s s'
| step_spurious w cs r : spurious = true -> step spurious (State w (Blocked cs) r) (State w (Woken cs) r).

(** The same commands with nothing running: the shell executes the slot. *)
Definition run_all (cs : list submission) : M K unit :=
  each (fun c : submission => submit (fst c) (snd c)) cs.

(** ** Refinement *)

(** What is left to do in a state, as a computation of the shell alone. *)
Definition finish (cs : list submission) : M K unit := shell_clear_cmd ;; run_all cs.
Definition left_over (s : state) : M K unit :=
  match host s with
  | Next cs => run_all cs
  | Stored cs => set_status SHELL_CMD_STATUS_READY ;; run_slot ;; set_status SHELL_CMD_STATUS_DONE ;; finish cs
  | Entering cs | Blocked cs =>
      match runner s with
      | Polling => if shell_run_cmd_wait_test (w_cmd (st_w s))
                   then run_slot ;; set_status SHELL_CMD_STATUS_DONE ;; finish cs else finish cs
      | Running => run_slot ;; set_status SHELL_CMD_STATUS_DONE ;; finish cs
      | Finished => set_status SHELL_CMD_STATUS_DONE ;; finish cs
      | Signalling => finish cs
      end
  | Woken cs => finish cs
  end.

Definition ready (s : state) : bool := shell_run_cmd_wait_test (w_cmd (st_w s)).

(** The runner works only while the shell waits, and leaves the slot done. *)
Definition consistent (s : state) : Prop :=
  match host s with
  | Next _ | Stored _ | Woken _ => runner s = Polling /\ ready s = false
  | Entering _ | Blocked _ => runner s = Signalling -> ready s = false
  end.

Lemma then_at (m n : M K unit) w w' : exec m w = Some w' -> (m ;; n) w = n w'.
Proof. unfold exec, mbind, M_bind. by destruct (m w) as [[]| |]; intros [= ->]. Qed.

Lemma then_assoc (m n p : M K unit) w : ((m ;; n) ;; p) w = (m ;; n ;; p) w.
Proof. unfold mbind, M_bind. by destruct (m w) as [[]| |]. Qed.

Lemma run_all_cons t a cs w :
  run_all ((t, a) :: cs) w =
  (store_cmd t a ;; set_status SHELL_CMD_STATUS_READY ;; run_slot ;; set_status SHELL_CMD_STATUS_DONE ;;
   finish cs) w.
Proof.
  cbn [run_all each fst snd]. unfold submit, finish, shell_run_cmd, shell_run_cmd_sync.
  unfold mbind, M_bind. cbn. by destruct (run_slot _).
Qed.

Lemma host_step_keeps s s' :
  consistent s -> host_step s = Some s' ->
  consistent s' /\ left_over s' (st_w s') = left_over s (st_w s).
Proof.
  destruct s as [w h r]. unfold consistent, left_over, ready, host_step. simpl.
  destruct h as [[|[t a] cs]|cs|cs|cs|cs]; intros Hc Hs; simplify_eq; simpl in *.
  - destruct Hc as [-> Hr]. split; [split; [done|]; exact Hr|]. by rewrite run_all_cons.
  - destruct Hc as [-> Hr]. split; done.
  - split; [exact Hc|]. by destruct r.
  - destruct Hc as [-> _]. split; done.
Qed.

Lemma runner_step_keeps s s' :
  consistent s -> runner_step s = Some s' ->
  consistent s' /\ left_over s' (st_w s') = left_over s (st_w s).
Proof.
  destruct s as [w h r]. unfold consistent, left_over, ready, runner_step. simpl.
  destruct r.
  - destruct (shell_run_cmd_wait_test (w_cmd w)) eqn:Hr; [|done]. intros Hc [= <-]. simpl.
    destruct h; simpl in *; try (by destruct Hc); by rewrite Hr.
  - destruct (exec run_slot w) as [w'|] eqn:Hw; [|done]. intros Hc [= <-]. simpl.
    destruct h; simpl in *; try (by destruct Hc); (split; [done|]); by rewrite (then_at _ _ _ _ Hw).
  - intros Hc [= <-]. simpl. destruct h; simpl in *; try (by destruct Hc); done.
  - intros Hc [= <-]. simpl. destruct h; simpl in *; try (by destruct Hc); specialize (Hc eq_refl);
      rewrite ?Hc; done.
Qed.

Lemma steps_keep s s' :
  star (step false) s s' -> consistent s ->
  consistent s' /\ left_over s' (st_w s') = left_over s (st_w s).
Proof.
  induction 1 as [|s1 s2 s3 H12 _ IH]; [done|]. intros Hc.
  destruct H12 as [s s' H|s s' H|]; [|..|done].
  - destruct (host_step_keeps _ _ Hc H) as [Hc' He]. rewrite <- He. by apply IH.
  - destruct (runner_step_keeps _ _ Hc H) as [Hc' He]. rewrite <- He. by apply IH.
Qed.
(** ** Runs *)

Lemma go_host sp s s' s'' : host_step s = Some s' -> star (step sp) s' s'' -> star (step sp) s s''.
Proof. eauto using star_step, step_host. Qed.
Lemma go_runner sp s s' s'' : runner_step s = Some s' -> star (step sp) s' s'' -> star (step sp) s s''.
Proof. eauto using star_step, step_runner. Qed.

(** The slot stored and marked ready. *)
Definition ready_world (t : Z) (a : option cmd_arg) (w : world K) : world K :=
  set_cmd (UmkaCmd SHELL_CMD_STATUS_READY t (default (uc_arg (w_cmd w)) a) (uc_lfn (w_cmd w))) w.
Definition with_status (z : Z) (w : world K) : world K :=
  let c := w_cmd w in set_cmd (UmkaCmd z (uc_type c) (uc_arg c) (uc_lfn c)) w.

Lemma submit_runs t a w w1 :
  submit t a w = Done tt w1 ->
  exists w2, exec run_slot (ready_world t a w) = Some w2 /\ w1 = with_status SHELL_CMD_STATUS_EMPTY w2.
Proof.
  change (submit t a w) with ((shell_run_cmd_sync ;; shell_clear_cmd) (ready_world t a w)).
  unfold shell_run_cmd_sync. rewrite then_assoc. unfold exec, mbind, M_bind.
  destruct (run_slot (ready_world t a w)) as [[] w2| |]; [|done..].
  intros [= <-]. by exists w2.
Qed.

Lemma run_step t a w w2 h :
  exec run_slot (ready_world t a w) = Some w2 ->
  runner_step (State (ready_world t a w) h Running) = Some (State w2 h Finished).
Proof. intros H. unfold runner_step. cbn [runner st_w]. by rewrite H. Qed.

(** The shell blocks before the runner has finished: the command returns. *)
Lemma round_trip t a cs w w1 :
  submit t a w = Done tt w1 ->
  star (step false) (State w (Next ((t, a) :: cs)) Polling) (State w1 (Next cs) Polling).
Proof.
  intros (w2 & Hrun & ->)%submit_runs.
  do 3 (eapply go_host; [reflexivity|]). eapply go_runner; [reflexivity|].
  eapply go_runner; [exact (run_step t a w w2 _ Hrun)|].
  do 2 (eapply go_runner; [reflexivity|]). eapply go_host; [reflexivity|]. apply star_refl.
Qed.

Lemma run_all_trip cs : forall w w',
  run_all cs w = Done tt w' ->
  star (step false) (State w (Next cs) Polling) (State w' (Next []) Polling).
Proof.
  induction cs as [|[t a] cs IH]; intros w w' H; [injection H as <-; apply star_refl|].
  cbn [run_all each fst snd] in H. unfold mbind, M_bind in H.
  destruct (submit t a w) as [[] w1| |] eqn:E; [|done..].
  eapply star_trans; [exact (round_trip _ _ _ _ _ E)|by apply IH].
Qed.

(** The runner signals before the shell blocks: nothing can wake the shell. *)
Lemma early_signal t a cs w w2 :
  exec run_slot (ready_world t a w) = Some w2 ->
  star (step false) (State w (Next ((t, a) :: cs)) Polling)
    (State (with_status SHELL_CMD_STATUS_DONE w2) (Blocked cs) Polling).
Proof.
  intros Hrun. do 2 (eapply go_host; [reflexivity|]). eapply go_runner; [reflexivity|].
  eapply go_runner; [exact (run_step t a w w2 _ Hrun)|].
  do 2 (eapply go_runner; [reflexivity|]). eapply go_host; [reflexivity|]. apply star_refl.
Qed.

Lemma no_step w h :
  shell_run_cmd_wait_test (w_cmd w) = false -> host_step (State w h Polling) = None ->
  forall s', ~ step false (State w h Polling) s'.
Proof.
  intros Hr Hh s' Hs. inversion Hs as [? ? H|? ? H|]; subst; [by rewrite Hh in H| |done].
  unfold runner_step in H. simpl in H. by rewrite Hr in H.
Qed.
End runner.

(** ** Theorems *)

(** C10: while the system runs, commands handed to the kernel thread have exactly
    the effect they have when the shell executes them itself: whatever the
    interleaving, when the last of them returns the world is the one the
    synchronous run ends in, each command executed once and in order. *)
Theorem handover_refines `{Kn : ShellKernel K} cs (w w' : world K) r :
  uc_status (w_cmd w) <> SHELL_CMD_STATUS_READY ->
  star (step false) (State w (Next cs) Polling) (State w' (Next []) r) ->
  run_all cs w = Done tt w' /\ r = Polling.
Proof.
  intros Hs H. destruct (steps_keep _ _ H) as [[Hr _] He].
  - split; [done|]. by apply Z.eqb_neq.
  - split; [by symmetry|done].
Qed.

(** Such a run exists whenever the synchronous run ends. *)
Theorem handover_completes `{Kn : ShellKernel K} cs (w w' : world K) :
  run_all cs w = Done tt w' ->
  star (step false) (State w (Next cs) Polling) (State w' (Next []) Polling).
Proof. apply run_all_trip. Qed.

(** C35: the wait has no predicate and the signal is sent without the mutex: if the
    kernel thread finishes between the store of the status and the wait, the
    command has been executed but the shell waits for ever. *)
Theorem handover_lost_wakeup `{Kn : ShellKernel K} t a cs (w w1 : world K) :
  submit t a w = Done tt w1 ->
  exists s, star (step false) (State w (Next ((t, a) :: cs)) Polling) s
    /\ host s = Blocked cs /\ w_k (st_w s) = w_k w1 /\ forall s', ~ step false s s'.
Proof.
  intros (w2 & Hrun & ->)%submit_runs. eexists. split; [exact (early_signal t a cs w w2 Hrun)|].
  do 2 (split; [done|]). by apply no_step.
Qed.

(** Where a wait may end without a signal, a command can return that was never
    executed. *)
Theorem handover_spurious `{Kn : ShellKernel K} t a (w : world K) :
  exists w', star (step true) (State w (Next [(t, a)]) Polling) (State w' (Next []) Polling)
    /\ w_k w' = w_k w /\ w_out w' = w_out w /\ (forall s', ~ step true (State w' (Next []) Polling) s').
Proof.
  eexists. split; [|split; [|split]].
  - do 3 (eapply go_host; [reflexivity|]). eapply star_step; [by apply step_spurious|].
    eapply go_host; [reflexivity|]. apply star_refl.
  - done.
  - done.
  - intros s' Hs. inversion Hs; simplify_eq.
Qed.

(** ** Concrete runs *)

(** Two commands on the small kernel. *)
Definition two_submissions : list submission :=
  [(UMKA_CMD_SYS_CSLEEP, Some (ArgCsleep 5)); (UMKA_CMD_SEND_SCANCODE, Some (ArgScancode 30))].
Definition small_start : world small := small_world [] (always 0 0).
Definition small_end : world small :=
  match run_all two_submissions small_start with Done _ w => w | _ => small_start end.

Lemma small_run : run_all two_submissions small_start = Done tt small_end.
Proof. vm_compute. reflexivity. Qed.

Lemma handover_completes_witness :
  star (step false) (State small_start (Next two_submissions) Polling) (State small_end (Next []) Polling).
Proof. apply (handover_completes two_submissions small_start small_end), small_run. Defined.

Lemma handover_refines_witness :
  run_all two_submissions small_start = Done tt small_end /\ Polling = Polling.
Proof.
  apply (handover_refines two_submissions small_start small_end Polling); [done|].
  apply run_all_trip, small_run.
Defined.

(** After the first command alone. *)
Definition small_mid : world small :=
  match submit UMKA_CMD_SYS_CSLEEP (Some (ArgCsleep 5)) small_start with Done _ w => w | _ => small_start end.

Lemma handover_lost_wakeup_witness :
  length (sm_calls (w_k small_mid)) = 1%nat
  /\ exists s, star (step false) (State small_start (Next two_submissions) Polling) s
    /\ host s = Blocked [(UMKA_CMD_SEND_SCANCODE, Some (ArgScancode 30))]
    /\ w_k (st_w s) = w_k small_mid /\ forall s', ~ step false s s'.
Proof.
  split; [reflexivity|].
  apply (handover_lost_wakeup UMKA_CMD_SYS_CSLEEP (Some (ArgCsleep 5))
           [(UMKA_CMD_SEND_SCANCODE, Some (ArgScancode 30))] small_start small_mid). reflexivity.
Defined.
