(* ===== verification/Pci.v ===== *)
(** linux/pci.c and linux/thread.c: the PCI configuration space the kernel
    reads from files of the host, and the flag by which the emulated interrupt
    state is kept.

    The host's files are a map from names to contents; [pci_path] is the
    directory set by the pci_set_path command. *)
From S2P Require Import Prelude CLib Io Shell.

(** [sprintf(path, "%s/%4.4x:%2.2x:%2.2x.%u/config", pci_path, 0, bus, dev, fun)],
    or with underscores for the colons. *)
Definition config_path (sep pci_path : string) (bus dev fun_ : Z) : string :=
  pci_path +:+ ("/" +:+ (prec 4 (fmt_x 0) +:+ (sep +:+ (fmt_x2 bus +:+ (sep +:+ (fmt_x2 dev +:+
    ("." +:+ (fmt_u fun_ +:+ "/config")))))))).

(** lseek and read into the four bytes of [value]; [None]: more is stored. *)
Definition read_config (data : bytes) (offset len : Z) : option Z :=
  let got := fst (Posix.read (Posix.lseek_set (Posix.Fdesc data 0 false) offset) len) in
  if (4 <? length got)%nat then None else Some (le_val (overlay 0 got (zeroes 4))).

(** Both names are printed into buffers of 2 * PATH_MAX bytes. *)
Definition pci_read (fs : gmap string bytes) (pci_path : string) (bus dev fun_ offset len : Z) : option Z :=
  let path_colon := config_path ":" pci_path bus dev fun_ in
  let path_underscore := config_path "_" pci_path bus dev fun_ in
  if (2 * PATH_MAX <=? strlen path_colon) || (2 * PATH_MAX <=? strlen path_underscore) then None else
  match fs !! path_colon with
  | Some data => read_config data offset len
  | None =>
      match fs !! path_underscore with
      | Some data => read_config data offset len
      | None => Some UINT32_MAX
      end
  end.

(** [get_fake_if]: bit 21 (ID) of the saved flags stands for a cleared IF. *)
Definition get_fake_if (eflags : Z) : Z := b2z (negb (truth (eflags .& (1 << 21)))).

(** ** Paths *)

Lemma fmt_x2_length b : 0 <= b < 256 -> String.length (fmt_x2 b) = 2%nat.
Proof. intros Hb. by rewrite fmt_x2_byte. Qed.

Lemma fmt_x2_inj a b : 0 <= a < 256 -> 0 <= b < 256 -> fmt_x2 a = fmt_x2 b -> a = b.
Proof.
  intros Ha Hb. rewrite !fmt_x2_byte by done. intros [= H1 H2].
  apply (f_equal digit_val) in H1. apply (f_equal digit_val) in H2.
  rewrite !digit_val_char in H1, H2 by (Z.to_euclidean_division_equations; lia).
  injection H1 as H1. injection H2 as H2. Z.to_euclidean_division_equations; lia.
Qed.

Lemma fmt_u_inj_before a b c s : 0 <= a -> 0 <= b -> ends_number c = true ->
  fmt_u a +:+ String c s = fmt_u b +:+ String c s -> a = b.
Proof.
  intros Ha Hb Hc H. apply (f_equal (fun s => st_mag (strto_scan 0 s))) in H.
  by rewrite !strto_scan_fmt_u_rest in H.
Qed.

Definition slot_ok (bus dev fun_ : Z) : Prop := 0 <= bus < 256 /\ 0 <= dev < 32 /\ 0 <= fun_ < 8.

Lemma config_path_inj sep p bus dev f bus' dev' f' :
  slot_ok bus dev f -> slot_ok bus' dev' f' ->
  config_path sep p bus dev f = config_path sep p bus' dev' f' -> bus = bus' /\ dev = dev' /\ f = f'.
Proof.
  intros (Hb & Hd & Hf) (Hb' & Hd' & Hf') H. unfold config_path in H.
  do 4 apply string_app_inj_l in H.
  assert (bus = bus') as <-.
  { apply fmt_x2_inj; [lia..|]. eapply string_app_eq; [|exact H]. by rewrite !fmt_x2_length by lia. }
  do 2 apply string_app_inj_l in H.
  assert (dev = dev') as <-.
  { apply fmt_x2_inj; [lia..|]. eapply string_app_eq; [|exact H]. by rewrite !fmt_x2_length by lia. }
  do 2 apply string_app_inj_l in H.
  by apply fmt_u_inj_before in H; [|lia|lia|].
Qed.

(** ** Reading *)

Lemma le_val_zeroes n : le_val (zeroes n) = 0.
Proof. unfold zeroes. induction n as [|n IH]; [done|]. cbn [replicate le_val]. by rewrite IH. Qed.

Lemma read_config_inside data off len :
  0 <= off -> 0 <= len <= 4 -> off + len <= Z.of_nat (length data) ->
  read_config data off len = Some (le_val (sub data (Z.to_nat off) (Z.to_nat len))).
Proof.
  intros Ho Hl Hd. unfold read_config, Posix.lseek_set. rewrite (proj2 (Z.leb_le 0 off)) by done.
  cbn [Posix.read fst Posix.fd_data Posix.fd_pos]. fold (sub data (Z.to_nat off) (Z.to_nat len)).
  assert (length (sub data (Z.to_nat off) (Z.to_nat len)) = Z.to_nat len) as Hlen by (apply length_sub; lia).
  rewrite Hlen. rewrite (proj2 (Nat.ltb_ge 4 _)) by lia. f_equal.
  rewrite overlay_0, le_val_app, Hlen. unfold zeroes. rewrite drop_replicate. fold (zeroes (4 - Z.to_nat len)).
  rewrite le_val_zeroes. lia.
Qed.

Lemma config_path_length sep p bus dev f :
  slot_ok bus dev f -> strlen sep = 1 -> strlen (config_path sep p bus dev f) = strlen p + 20.
Proof.
  intros (Hb & Hd & Hf) Hs. unfold config_path, strlen in *. rewrite !string_length_app.
  rewrite !fmt_x2_length by lia.
  assert (String.length (fmt_u f) = 1%nat) as ->.
  { assert (f = 0 \/ f = 1 \/ f = 2 \/ f = 3 \/ f = 4 \/ f = 5 \/ f = 6 \/ f = 7) as Hcases by lia.
    destruct_or! Hcases; subst; reflexivity. }
  cbn [String.length]. change (String.length (prec 4 (fmt_x 0))) with 4%nat. lia.
Qed.

Lemma paths_fit p bus dev f :
  slot_ok bus dev f -> strlen p < PATH_MAX ->
  (2 * PATH_MAX <=? strlen (config_path ":" p bus dev f))
  || (2 * PATH_MAX <=? strlen (config_path "_" p bus dev f)) = false.
Proof.
  intros Hs Hp. unfold PATH_MAX in *. rewrite !config_path_length by done.
  apply orb_false_iff. split; apply Z.leb_gt; lia.
Qed.

(** ** Theorems *)

(** The configuration file of a function, by either name. *)
Definition config_of (fs : gmap string bytes) (p : string) (bus dev f : Z) : option bytes :=
  match fs !! config_path ":" p bus dev f with
  | Some data => Some data
  | None => fs !! config_path "_" p bus dev f
  end.

Lemma pci_read_of fs p bus dev f off len :
  slot_ok bus dev f -> strlen p < PATH_MAX ->
  pci_read fs p bus dev f off len =
  match config_of fs p bus dev f with Some data => read_config data off len | None => Some UINT32_MAX end.
Proof. intros Hs Hp. unfold pci_read, config_of. rewrite paths_fit by done. by destruct (fs !! _). Qed.

(** A read of one to four bytes inside the configuration file of a function
    returns those bytes as a little-endian number, and a double word is the two
    words it consists of; a function without a file reads as all ones. *)
Theorem pci_read_config fs p bus dev f off :
  slot_ok bus dev f -> strlen p < PATH_MAX -> 0 <= off ->
  match config_of fs p bus dev f with
  | Some data =>
      (forall len, 0 <= len <= 4 -> off + len <= Z.of_nat (length data) ->
         pci_read fs p bus dev f off len = Some (le_val (sub data (Z.to_nat off) (Z.to_nat len))))
      /\ (off + 4 <= Z.of_nat (length data) ->
          exists lo hi, pci_read fs p bus dev f off 2 = Some lo
            /\ pci_read fs p bus dev f (off + 2) 2 = Some hi
            /\ pci_read fs p bus dev f off 4 = Some (lo + 2 ^ 16 * hi))
  | None => forall len, pci_read fs p bus dev f off len = Some UINT32_MAX
  end.
Proof.
  intros Hs Hp Ho. destruct (config_of fs p bus dev f) as [data|] eqn:Hc;
    [split|]; intros; rewrite ?pci_read_of, ?Hc by done; [by apply read_config_inside| |done].
  do 2 eexists.
  do 2 (split; [apply read_config_inside; lia|]). rewrite read_config_inside by lia. f_equal.
  change (Z.to_nat 4) with (2 + 2)%nat. rewrite sub_split, le_val_app, length_sub by lia.
  do 2 f_equal. by rewrite Z2Nat.inj_add by lia.
Qed.

(** The configuration of a function does not depend on the files of the other
    functions. *)
Theorem pci_functions_isolated fs p bus dev f bus' dev' f' sep data off len :
  slot_ok bus dev f -> slot_ok bus' dev' f' -> strlen p < PATH_MAX -> sep = ":" \/ sep = "_" ->
  (bus, dev, f) <> (bus', dev', f') ->
  pci_read (<[config_path sep p bus' dev' f' := data]> fs) p bus dev f off len = pci_read fs p bus dev f off len.
Proof.
  intros Hs Hs' Hp Hsep Hne. rewrite !pci_read_of by done. unfold config_of.
  assert (forall sep', sep' = ":" \/ sep' = "_" ->
            config_path sep p bus' dev' f' <> config_path sep' p bus dev f) as Hpath.
  { intros sep' Hsep' He. destruct (decide (sep = sep')) as [<-|Hd].
    - apply Hne. by destruct (config_path_inj _ _ _ _ _ _ _ _ Hs' Hs He) as (-> & -> & ->).
    - unfold config_path in He. do 3 apply string_app_inj_l in He. by destruct Hsep as [->| ->], Hsep' as [->| ->]. }
  rewrite !lookup_insert_ne by (apply Hpath; auto). done.
Qed.

(** A length of more than four bytes leaves [value]. *)
Lemma pci_read_overflow fs p bus dev f data off len :
  slot_ok bus dev f -> strlen p < PATH_MAX -> config_of fs p bus dev f = Some data ->
  0 <= off -> 4 < len -> off + len <= Z.of_nat (length data) ->
  pci_read fs p bus dev f off len = None.
Proof.
  intros Hs Hp Hc Ho Hl Hd. rewrite pci_read_of, Hc by done. unfold read_config, Posix.lseek_set.
  rewrite (proj2 (Z.leb_le 0 off)) by done. cbn [Posix.read fst Posix.fd_data Posix.fd_pos].
  rewrite length_take, length_drop. by rewrite (proj2 (Nat.ltb_lt 4 _)) by lia.
Qed.

(** ** Concrete inputs *)

(** A function 00:1f.2 with vendor 8086 and device 2922. *)
Definition sample_fs : gmap string bytes :=
  {[ "/sys/bus/pci/devices/0000:00:1f.2/config" := [0x86; 0x80; 0x22; 0x29] ]}.

Lemma pci_read_config_witness :
  pci_read sample_fs "/sys/bus/pci/devices" 0 0x1f 2 0 2 = Some 0x8086
  /\ exists lo hi, pci_read sample_fs "/sys/bus/pci/devices" 0 0x1f 2 0 2 = Some lo
       /\ pci_read sample_fs "/sys/bus/pci/devices" 0 0x1f 2 2 2 = Some hi
       /\ pci_read sample_fs "/sys/bus/pci/devices" 0 0x1f 2 0 4 = Some (lo + 2 ^ 16 * hi).
Proof.
  destruct (pci_read_config sample_fs "/sys/bus/pci/devices" 0 0x1f 2 0) as [H1 H2];
    [repeat split; lia|reflexivity|lia|].
  split; [exact (H1 2 ltac:(lia) ltac:(simpl; lia))|exact (H2 ltac:(simpl; lia))].
Defined.

Lemma pci_functions_isolated_witness :
  pci_read (<[config_path "_" "/sys/bus/pci/devices" 0 0x1f 3 := []]> sample_fs) "/sys/bus/pci/devices" 0 0x1f 2 0 4
  = pci_read sample_fs "/sys/bus/pci/devices" 0 0x1f 2 0 4.
Proof.
  apply (pci_functions_isolated sample_fs "/sys/bus/pci/devices" 0 0x1f 2 0 0x1f 3 "_" [] 0 4);
    [repeat split; lia|repeat split; lia|reflexivity|auto|done].
Defined.
