(* ===== verification/Board.v ===== *)
(** The debug board: the commands board_put and board_get of shell.c and the
    logging thread of umka_os.c ([umka_thread_board]).

    [BoardQueue] is what they rely on of the kernel: characters put on the board
    come out in order, and an empty board says so. *)
From S2P Require Import Prelude CLib Io Syscall Optparse Usage Shell Sample CmdSys.

Class BoardQueue `{Kernel K} (queue : K -> list Z) := {
  board_put_queue c k : queue (umka_sys_board_put c k) = queue k ++ [u8 c];
  board_get_queue k :
    match queue k with
    | [] => bg_status (fst (umka_sys_board_get k)) = 0 /\ queue (snd (umka_sys_board_get k)) = []
    | c :: q => fst (umka_sys_board_get k) = BoardGetRet c 1 /\ queue (snd (umka_sys_board_get k)) = q
    end;
  board_sleep_queue cs k : queue (umka_sys_csleep cs k) = queue k }.

(** ** The logging thread *)

(** One round of [umka_thread_board]: the text written to the log. *)
Definition umka_thread_board_step `{Kernel K} (k : K) : string * K :=
  let '(c, k) := umka_sys_board_get k in
  if truth (bg_status c) then (fmt_c (bg_value c), k) else ("", umka_sys_csleep 50 k).

Fixpoint umka_thread_board `{Kernel K} (rounds : nat) (k : K) : string * K :=
  match rounds with
  | O => ("", k)
  | S n => let '(s, k) := umka_thread_board_step k in
           let '(t, k) := umka_thread_board n k in (s +:+ t, k)
  end.

Lemma thread_board_logs `{BoardQueue K queue} n : forall k,
  fst (umka_thread_board n k) = string_of_bytes (take n (queue k))
  /\ queue (snd (umka_thread_board n k)) = drop n (queue k).
Proof.
  induction n as [|n IH]; intros k; [done|]. cbn [umka_thread_board].
  unfold umka_thread_board_step. pose proof (board_get_queue k) as Hg.
  destruct (umka_sys_board_get k) as [c k1]. simpl in Hg.
  destruct (queue k) as [|x q] eqn:Hq.
  - destruct Hg as [-> Hg]. cbn [truth Z.eqb negb]. specialize (IH (umka_sys_csleep 50 k1)).
    rewrite board_sleep_queue, Hg in IH. destruct (umka_thread_board n _). simpl in *.
    by rewrite take_nil, drop_nil in *.
  - destruct Hg as [-> Hg]. cbn [truth Z.eqb negb bg_status bg_value]. specialize (IH k1). rewrite Hg in IH.
    destruct (umka_thread_board n k1). simpl in *. destruct IH as [-> ->]. done.
Qed.

(** ** board_get -l and -f *)

(** What the loop prints of a board, and what it leaves there. *)
Fixpoint board_out (flush : bool) (q : list Z) : list Z * list Z :=
  match q with
  | [] => ([], [])
  | c :: q =>
      let out := if c =? 13 then [] else [c] in
      if (c =? 10) && negb flush then (out, q)
      else let '(o, r) := board_out flush q in (out ++ o, r)
  end.

Lemma string_of_bytes_app a b : string_of_bytes (a ++ b) = string_of_bytes a +:+ string_of_bytes b.
Proof. unfold string_of_bytes. induction a as [|x a IH]; [done|]. cbn. by rewrite IH. Qed.

Section board.
Context `{Kn : ShellKernel K} (queue : K -> list Z) `{HQ : !BoardQueue queue}.

Lemma print_char x (w : world K) :
  (if negb (x =? 13) then put (fmt_c x) else skip) w =
  Done tt (set_out (w_out w +:+ string_of_bytes (if x =? 13 then [] else [x])) w).
Proof.
  destruct (x =? 13); [|done]. unfold skip, mret, M_ret. f_equal. change (string_of_bytes []) with "".
  rewrite string_app_nil_r. by destruct w.
Qed.

Lemma board_loop_prints flush fuel : forall w : world K,
  (length (queue (w_k w)) < fuel)%nat ->
  exists k', board_loop fuel flush w =
      Done tt (set_out (w_out w +:+ string_of_bytes (fst (board_out flush (queue (w_k w))))) (set_k k' w))
    /\ queue k' = snd (board_out flush (queue (w_k w))).
Proof.
  induction fuel as [|fuel IH]; intros w Hf; [lia|]. cbn [board_loop].
  pose proof (board_get_queue (w_k w)) as Hg.
  destruct (umka_sys_board_get (w_k w)) as [c k1] eqn:Hget. cbn [fst snd] in Hg.
  erewrite bind_done by (unfold sys; rewrite Hget; reflexivity).
  destruct (queue (w_k w)) as [|x q] eqn:Hq.
  - destruct Hg as [-> Hg]. exists k1. split; [|done]. simpl. rewrite string_app_nil_r. by destruct w.
  - destruct Hg as [-> Hg]. cbn [bg_status bg_value]. change (truth 1) with true. cbn [andb].
    erewrite bind_done by apply print_char. cbn [board_out].
    destruct (IH (set_out (w_out (set_k k1 w) +:+ string_of_bytes (if x =? 13 then [] else [x])) (set_k k1 w)))
      as (k' & He & Hk'); [simpl in *; rewrite Hg; lia|].
    change (w_k (set_out _ (set_k k1 w))) with k1 in He, Hk'. rewrite Hg in He, Hk'.
    destruct ((x =? 10) && negb flush) eqn:Hstop.
    + apply andb_true_iff in Hstop as [Hx Hfl]. apply negb_true_iff in Hfl. rewrite Hx, Hfl. by exists k1.
    + replace (negb (x =? 10) || flush) with true by (by destruct (x =? 10), flush).
      rewrite He. destruct (board_out flush q) as [o r]. exists k'. split; [|done].
      cbn [fst]. rewrite string_of_bytes_app. f_equal. unfold set_out, set_k. cbn. by rewrite string_app_assoc.
Qed.
End board.

(** A command line that puts one character. *)
Definition put_argv (c : ascii) : option (list slot) := Some [SStr "board_put"; SStr (String c ""); SNull].
Definition get_argv (flag : string) : option (list slot) := Some [SStr "board_get"; SStr flag; SNull].

Section roundtrip.
Context `{Kn : ShellKernel K} (queue : K -> list Z) `{HQ : !BoardQueue queue}.

Lemma board_get_runs flag flush fuel (w : world K) :
  (flag, flush) ∈ [("-l", false); ("-f", true)] ->
  cmd_board_get fuel 2 (get_argv flag) w = (board_loop fuel flush ;; skip) w.
Proof. intros [[= -> ->]|[[= -> ->]|[]%elem_of_nil]%elem_of_cons]%elem_of_cons; reflexivity. Qed.

Lemma put_one c (w : world K) :
  c <> "\"%char ->
  exists k', cmd_board_put 2 (put_argv c) w = Done tt (set_k k' w) /\ queue k' = queue (w_k w) ++ [code c].
Proof.
  intros Hc. exists (umka_sys_board_put (code c) (w_k w)). split.
  - unfold cmd_board_put, usage_unless. change (2 =? 2) with true. cbv iota.
    erewrite bind_done by (by apply arg_str).
    change (char_at (String c "") 0) with (code c).
    rewrite (proj2 (Z.eqb_neq (code c) 92)); [done|]. intros H. apply Hc. by apply code_inj.
  - rewrite board_put_queue, u8_small by apply code_range. done.
Qed.

Lemma put_all cs : forall w : world K,
  Forall (fun c => c <> "\"%char) cs ->
  exists k', each (fun c => cmd_board_put 2 (put_argv c)) cs w = Done tt (set_k k' w)
    /\ queue k' = queue (w_k w) ++ map code cs.
Proof.
  induction cs as [|c cs IH]; intros w Hcs.
  { exists (w_k w). rewrite app_nil_r. by destruct w. }
  apply Forall_cons_1 in Hcs as [Hc Hcs]. cbn [each]. destruct (put_one c w Hc) as (k1 & Hp & Hq1).
  erewrite bind_done by exact Hp. destruct (IH (set_k k1 w) Hcs) as (k2 & Hr & Hq2).
  exists k2. split; [exact Hr|]. rewrite Hq2. simpl. rewrite Hq1. by rewrite <- app_assoc.
Qed.
End roundtrip.

Lemma board_out_flush q : board_out true q = (filter (fun c => c <> 13) q, []).
Proof.
  induction q as [|c q IH]; [done|]. cbn [board_out negb]. rewrite andb_false_r, IH, filter_cons.
  destruct (Z.eqb_spec c 13); destruct (decide (c <> 13)); done.
Qed.

(** ** Theorems *)

(** C36: characters put on the board one by one with board_put are printed by
    "board_get -f" after what the board held before, in order, carriage returns
    left out, and the board is empty afterwards; the loop ends. *)
Theorem board_roundtrip `{Kn : ShellKernel K} queue cs fuel (w : world K) :
  BoardQueue queue -> Forall (fun c => c <> "\"%char) cs ->
  (length (queue (w_k w)) + length cs < fuel)%nat ->
  exists k',
    (each (fun c => cmd_board_put 2 (put_argv c)) cs ;; cmd_board_get fuel 2 (get_argv "-f")) w =
    Done tt (set_out (w_out w +:+ string_of_bytes (filter (fun c => c <> 13) (queue (w_k w) ++ map code cs)))
               (set_k k' w))
    /\ queue k' = [].
Proof.
  intros HQ Hcs Hf. destruct (put_all queue cs w Hcs) as (k1 & H1 & Hq1).
  erewrite bind_done by exact H1. rewrite (board_get_runs "-f" true) by set_solver.
  destruct (board_loop_prints queue true fuel (set_k k1 w)) as (k2 & H2 & Hq2).
  { simpl. rewrite Hq1, length_app, length_map. lia. }
  change (w_k (set_k k1 w)) with k1 in H2, Hq2. rewrite board_out_flush, Hq1 in *.
  exists k2. split; [|done]. erewrite bind_done by exact H2. done.
Qed.

(** The logging thread of umka_os writes the characters of the board in order
    and loses none, whatever the pauses. *)
Theorem board_log_complete `{HK : Kernel K} queue n (k : K) :
  BoardQueue queue -> (length (queue k) <= n)%nat ->
  fst (umka_thread_board n k) = string_of_bytes (queue k) /\ queue (snd (umka_thread_board n k)) = [].
Proof.
  intros HQ Hn. destruct (thread_board_logs n k) as [H1 H2]. by rewrite take_ge in H1; [rewrite drop_ge in H2|].
Qed.

(** ** A kernel with a board *)

#[local] Instance board_kernel : Kernel (list Z) := fun r q =>
  match eax r, ebx r, ecx r with
  | Some (W 63), Some (W 1), Some (W c) => (Ret 0 0 0 [], q ++ [u8 c])
  | Some (W 63), Some (W 2), _ =>
      match q with [] => (Ret 0 0 0 [], []) | c :: q => (Ret c 1 0 [], q) end
  | _, _, _ => (Ret 0 0 0 [], q)
  end.
#[local] Instance board_shell_kernel : ShellKernel (list Z) := idle_shell_kernel board_kernel.

#[local] Instance board_queue : BoardQueue (K := list Z) id.
Proof.
  split.
  - intros c k. unfold umka_sys_board_put, void. cbn. f_equal. unfold u8. by rewrite Z.mod_mod.
  - intros [|c q]; [done|]. done.
  - done.
Qed.

Lemma board_roundtrip_witness :
  exists k',
    (each (fun c => cmd_board_put 2 (put_argv c)) ["h"; "i"]%char ;; cmd_board_get 10 2 (get_argv "-f"))
      (idle_world [13; 62]) =
    Done tt (set_out ">hi" (set_k k' (idle_world [13; 62]))) /\ k' = [].
Proof.
  destruct (board_roundtrip id ["h"; "i"]%char 10 (idle_world [13; 62]) _) as (k' & H1 & H2).
  - by repeat constructor.
  - cbn. lia.
  - exists k'. split; [exact H1|exact H2].
Defined.

Lemma board_log_complete_witness :
  fst (umka_thread_board 5 [72; 105; 10]) = string_of_bytes [72; 105; 10]
  /\ snd (umka_thread_board 5 [72; 105; 10]) = [].
Proof. apply (board_log_complete id 5 [72; 105; 10] _). cbn. lia. Defined.
