(* ===== verification/Os.v ===== *)
(** umka_shell.c and umka_os.c: the command lines of the two front ends, the
    display thread that turns window events into input of the kernel, and the
    signal handler through which applications make system calls.

    Files the commands see are those of the shell's world.  Reading lines
    (isocline) and the table the branch tracer fills are parameters; so are the
    constants of SDL.  Every window event is one step of the display thread;
    [Runner] shows that a command handed over to the running system has the
    effect of [submit]. *)
From S2P Require Import Prelude CLib Io Umkart Syscall Optparse Usage Shell Sample ShellMain.

(** ** umka_shell: command line *)

Record shell_opts := ShellOpts {
  so_infile : option string; so_outfile : option string; so_reproducible : bool;
  so_covfile : option string }.

Definition no_opts : shell_opts := ShellOpts None None false None.

Definition COVFILE_SIZE : nat := 64.

(** The switch on one option: the options so far, or the status of [exit].
    [None]: sprintf writes past the end of [covfile]. *)
Definition shell_option (pid opt : Z) (optarg : option string) (a : shell_opts) : option (shell_opts + Z) :=
  let '(ShellOpts i o r c) := a in
  if opt =? 105 (* i *) then Some (inl (ShellOpts optarg o r c))
  else if opt =? 111 (* o *) then Some (inl (ShellOpts i optarg r c))
  else if opt =? 114 (* r *) then Some (inl (ShellOpts i o true c))
  else if opt =? 99 (* c *) then
    let name := fmt_s optarg +:+ "." +:+ fmt_d pid in
    if (String.length name <? COVFILE_SIZE)%nat then Some (inl (ShellOpts i o r (Some name))) else None
  else if opt =? 104 (* h *) then Some (inr 0)
  else Some (inr 1).

Fixpoint shell_options (fuel : nat) (pid : Z) (o : optparse_t) (a : shell_opts) : option (shell_opts + Z) :=
  match fuel with
  | O => None
  | S fuel =>
      '(opt, o) ← optparse o "i:o:rc:";
      if opt =? -1 then Some (inl a)
      else r ← shell_option pid opt (optarg o) a;
           match r with
           | inl a => shell_options fuel pid o a
           | inr code => Some (inr code)
           end
  end.

Definition shell_args (pid : Z) (argv : list slot) : option (shell_opts + Z) :=
  o ← optparse_init argv; shell_options (S (measure o)) pid o no_opts.

Section shell_main.
Context `{Kn : ShellKernel K} `{Ho : Host}.
(** The bound of the unbounded command loops ([ShellMain]); the lines read
    from a file, or from stdin; whether the input is a
    terminal; the process id; the table written with [-c]. *)
Context (fuel : nat).
Context (readline : option bytes -> list (option string)) (is_tty : bool) (pid : Z) (coverage_table : bytes).

(** How the process ends: by [exit], by returning from [main] with the output in
    a file or on stdout, or not at all. *)
Inductive shell_run := Exited (code : Z) | Returned (out : option string) (w : world K) | Undefined | Waits.

Definition umka_shell_init (reproducible : bool) (k : K) (files : gmap string bytes) : world K :=
  shell_init reproducible UMKA_RUNNING_NEVER false k files.

(** [fopen(infile, "r")]: the contents, [None] for stdin *)
Definition open_input (infile : option string) (files : gmap string bytes) : option (option bytes) :=
  match infile with None => Some None | Some f => Some <$> files !! f end.

(** [freopen(outfile, "w", stdout)]: the file is emptied. *)
Definition open_output (outfile : option string) (files : gmap string bytes) : option (gmap string bytes) :=
  match outfile with
  | None => Some files
  | Some f => if can_write f then Some (<[f := []]> files) else None
  end.

(** The shell with its files open; the coverage is written at the end. *)
Definition shell_session (a : shell_opts) (fin : option bytes) (k : K) (files : gmap string bytes) : shell_run :=
  match run_test fuel is_tty (readline fin) (umka_shell_init (so_reproducible a) k files) with
  | Undef => Undefined
  | NoFuel => Waits
  | Done _ w =>
      match so_covfile a with
      | None => Returned (so_outfile a) w
      | Some c => if can_write c then Returned (so_outfile a) (set_files (<[c := coverage_table]> (w_files w)) w)
                  else Undefined
      end
  end.

Definition shell_main (argv : list slot) (k : K) (files : gmap string bytes) : shell_run :=
  match shell_args pid argv with
  | None => Undefined
  | Some (inr code) => Exited code
  | Some (inl a) =>
      match open_input (so_infile a) files with
      | None => Exited 1
      | Some fin =>
          match open_output (so_outfile a) files with
          | None => Exited 1
          | Some files => shell_session a fin k files
          end
      end
  end.
End shell_main.
Arguments shell_run : clear implicits.

(** ** umka_os: command line *)

Record os_opts := OsOpts {
  oo_boardlog : option string; oo_covfile : option string; oo_display : bool;
  oo_infile : option string; oo_outfile : option string; oo_startup : option string }.

Definition os_option (opt : Z) (optarg : option string) (a : os_opts) : option os_opts :=
  let '(OsOpts b c d i o s) := a in
  if opt =? 98 (* b *) then Some (OsOpts optarg c d i o s)
  else if opt =? 99 (* c *) then Some (OsOpts b optarg d i o s)
  else if opt =? 100 (* d *) then Some (OsOpts b c true i o s)
  else if opt =? 105 (* i *) then Some (OsOpts b c d optarg o s)
  else if opt =? 111 (* o *) then Some (OsOpts b c d i optarg s)
  else if opt =? 115 (* s *) then Some (OsOpts b c d i o optarg)
  else None.

Definition os_options (argv : list slot) : option (opt_result os_opts) :=
  o ← optparse_init argv;
  Some (parse_options os_option "b:c:di:o:s:" o (OsOpts None None false None None None)).

(** ** umka_os: window events *)

(** The events the switch tells apart, with the members it reads; a wheel event
    also has the buttons [SDL_GetMouseState] reports. *)
Inductive sdl_event :=
| SDL_QUIT | SDL_WINDOWEVENT
| SDL_MOUSEBUTTONDOWN (state : Z) | SDL_MOUSEBUTTONUP (state : Z)
| SDL_MOUSEMOTION (xrel yrel : Z)
| SDL_MOUSEWHEEL (x y btn_state : Z)
| SDL_KEYDOWN (scancode mod_ : Z) | SDL_KEYUP | SDL_TEXTINPUT
| SDL_OTHER (type : Z).

(** [input_grabbed] and the pixels of the window's surface *)
Record window := Window { input_grabbed : bool; w_pixels : list Z }.
Definition set_grabbed (g : bool) (s : window) : window := Window g (w_pixels s).

Section display.
Context `{Kn : ShellKernel K}.
Context (SDL_SCANCODE_G KMOD_CTRL KMOD_ALT SDL_BUTTON_LMASK : Z).
(** The surface has the pixel format SDL_PIXELFORMAT_RGB888; for any other one
    the pointer [copy_display] stays NULL. *)
Context (rgb888 : bool).
Abbreviation M := (M K).

Definition update_display (s : window) : M window :=
  if rgb888 then
    d ← peek kos_display;
    p ← need (copy_display_to_rgb888 d (w_pixels s));
    mret (Window (input_grabbed s) p)
  else undef.

Definition send_mouse (b x y v h : Z) : M unit :=
  submit UMKA_CMD_SET_MOUSE_DATA (Some (ArgMouse b x y v h)).

Definition grab_key (scancode mod_ : Z) : bool :=
  (scancode =? SDL_SCANCODE_G) && truth (mod_ .& KMOD_CTRL) && truth (mod_ .& KMOD_ALT).

(** The switch of [umka_display].  A key press sends the slot as it is: the
    scancode is not stored. *)
Definition handle_event (e : sdl_event) (s : window) : M window :=
  match e with
  | SDL_QUIT | SDL_WINDOWEVENT => mret s
  | SDL_MOUSEBUTTONDOWN state | SDL_MOUSEBUTTONUP state =>
      if negb (input_grabbed s) then mret s else send_mouse state 0 0 0 0 ;; mret s
  | SDL_MOUSEMOTION xrel yrel =>
      if negb (input_grabbed s) then mret s
      else if yrel =? - 2 ^ 31 then undef
      else send_mouse 0 xrel (- yrel) 0 0 ;; mret s
  | SDL_MOUSEWHEEL x y btn_state =>
      if negb (input_grabbed s) then mret s
      else send_mouse (if truth (btn_state .& SDL_BUTTON_LMASK) then 0x01 else 0) 0 0 y x ;; mret s
  | SDL_KEYDOWN scancode mod_ =>
      let s := if grab_key scancode mod_ then set_grabbed (negb (input_grabbed s)) s else s in
      if negb (input_grabbed s) then mret s else submit UMKA_CMD_SEND_SCANCODE None ;; mret s
  | SDL_KEYUP | SDL_TEXTINPUT => mret s
  | SDL_OTHER _ => update_display s
  end.

(** One turn of the loop; [None]: no event within a second. *)
Definition display_turn (e : option sdl_event) (s : window) : M window :=
  s ← update_display s;
  match e with None => update_display s | Some e => handle_event e s end.

Fixpoint umka_display (events : list (option sdl_event)) (s : window) : M window :=
  match events with
  | [] => mret s
  | e :: events => s ← display_turn e s; umka_display events s
  end.
End display.

(** ** umka_os: system calls of applications *)

(** glibc's indices into [uc_mcontext.__gregs]; [pushad_t] has the layout of the
    eight words from [REG_EDI] on. *)
Definition REG_EDI : nat := 4.
Definition REG_EAX : nat := 11.
Definition REG_EIP : nat := 14.
Definition NGREG : nat := 19.

Section traps.
Context {K : Type} (umka_i40 : list Z -> K -> list Z * K).
(** the two bytes at an address, little endian *)
Context (fetch16 : Z -> Z).

Definition handle_i40 (gregs : list Z) (k : K) : option (list Z * string * K) :=
  ip ← gregs !! REG_EIP;
  eax ← gregs !! REG_EAX;
  let gregs := if fetch16 ip =? 0x40cd then <[REG_EIP := u32 (ip + 2)]> gregs else gregs in
  let '(regs, k) := umka_i40 (sub gregs REG_EDI 8) k in
  Some (overlay REG_EDI regs gregs, "i40: " +:+ fmt_d (s32 eax) +:+ " " +:+ fmt_p ip +:+ nl, k).
End traps.

Record idt_entry := IdtEntry { addr_lo : Z; segment : Z; flags : Z; addr_hi : Z }.
Definition UMKA_IRQ_BASE : Z := 0x20.

(** [hw_int]: the handler entered for interrupt [irq]; a read outside the table
    is undefined. *)
Definition hw_int {K} (kos_idts : list idt_entry) (enter : Z -> K -> K) (umka_sti : K -> K) (irq : Z) (k : K) : option K :=
  e ← kos_idts !! Z.to_nat (UMKA_IRQ_BASE + irq);
  Some (umka_sti (enter (u32 ((addr_hi e << 16) + addr_lo e)) k)).

(** ** What the display thread promises

    Grabbed or not, the first word of the command slot, and the kernel. *)
Record input_spec (K : Type) := InputSpec { is_grabbed : bool; is_word : Z; is_kernel : K }.
Arguments InputSpec {K}. Arguments is_grabbed {K}. Arguments is_word {K}. Arguments is_kernel {K}.

Section display_spec.
Context `{Kn : ShellKernel K}.
Context (SDL_SCANCODE_G KMOD_CTRL KMOD_ALT SDL_BUTTON_LMASK : Z).

Definition mouse_input (b x y v h : Z) (a : input_spec K) : input_spec K :=
  if is_grabbed a then InputSpec true (s32 b) (kos_set_mouse_data b x y v h (is_kernel a)) else a.

Definition event_input (e : sdl_event) (a : input_spec K) : input_spec K :=
  match e with
  | SDL_MOUSEBUTTONDOWN b | SDL_MOUSEBUTTONUP b => mouse_input b 0 0 0 0 a
  | SDL_MOUSEMOTION x y => mouse_input 0 x (- y) 0 0 a
  | SDL_MOUSEWHEEL x y b => mouse_input (if truth (b .& SDL_BUTTON_LMASK) then 1 else 0) 0 0 y x a
  | SDL_KEYDOWN sc m =>
      let g := xorb (grab_key SDL_SCANCODE_G KMOD_CTRL KMOD_ALT sc m) (is_grabbed a) in
      InputSpec g (is_word a)
        (if g then kos_set_keyboard_data (u32 (is_word a)) (is_kernel a) else is_kernel a)
  | _ => a
  end.

Definition turn_input (e : option sdl_event) (a : input_spec K) : input_spec K :=
  match e with None => a | Some e => event_input e a end.

Definition events_input (es : list (option sdl_event)) (a : input_spec K) : input_spec K :=
  fold_left (fun a e => turn_input e a) es a.

(** A motion whose vertical part can be negated in an int. *)
Definition event_ok (e : option sdl_event) : Prop :=
  match e with Some (SDL_MOUSEMOTION _ y) => y <> - 2 ^ 31 | _ => True end.

(** Every mode the kernel may be in is one the copy handles, of [n] pixels. *)
Context (n : nat).
Hypothesis modes : forall k : K, plain_mode (kos_display k) /\ (height_ (kos_display k) * width_ (kos_display k))%nat = n.

(** The window and the world [w] stand for [a]; [o] is the shell's output. *)
Record shows (o : string) (s : window) (w : world K) (a : input_spec K) : Prop := {
  sh_grabbed : input_grabbed s = is_grabbed a;
  sh_pixels : length (w_pixels s) = n;
  sh_kernel : w_k w = is_kernel a;
  sh_word : first_word (uc_arg (w_cmd w)) = Some (is_word a);
  sh_out : w_out w = o }.

Lemma update_display_shows o s w a :
  shows o s w a ->
  update_display true s w = Done (Window (input_grabbed s) (pixels (kos_display (is_kernel a)))) w
  /\ shows o (Window (input_grabbed s) (pixels (kos_display (is_kernel a)))) w a.
Proof using modes.
  intros [H1 H2 H3 H4 H5]. destruct (modes (w_k w)) as [Hm Hn].
  unfold update_display, mbind, M_bind, peek, need.
  rewrite copy_display_pixels by (done || lia). rewrite <- H3. split; [done|].
  constructor; try done. unfold pixels. cbn. by rewrite length_map, length_seq.
Qed.

Lemma send_mouse_shows o s w a b x y v h :
  shows o s w a -> is_grabbed a = true ->
  exists w', send_mouse b x y v h w = Done tt w' /\ shows o s w' (mouse_input b x y v h a).
Proof. intros [H1 H2 H3 H4 H5] Hg. eexists. split; [reflexivity|]. unfold mouse_input. rewrite Hg. constructor; simpl; congruence. Qed.

Lemma send_key_shows o s w a :
  shows o s w a -> is_grabbed a = true ->
  exists w', submit UMKA_CMD_SEND_SCANCODE None w = Done tt w'
    /\ shows o s w' (InputSpec true (is_word a) (kos_set_keyboard_data (u32 (is_word a)) (is_kernel a))).
Proof.
  intros [H1 H2 H3 H4 H5] Hg. unfold submit, store_cmd, shell_run_cmd, shell_run_cmd_sync, run_slot, set_status.
  unfold mbind, M_bind, modify, get. cbn. rewrite H4. cbn. eexists. split; [reflexivity|].
  constructor; simpl; congruence.
Qed.

Lemma handle_event_shows o s w a e :
  shows o s w a -> event_ok (Some e) ->
  exists s' w', handle_event SDL_SCANCODE_G KMOD_CTRL KMOD_ALT SDL_BUTTON_LMASK true e s w = Done s' w'
    /\ shows o s' w' (event_input e a).
Proof using modes.
  intros Hs He. pose proof (sh_grabbed _ _ _ _ Hs) as Hg.
  assert (Hm : forall b x y v h, exists w',
    (if negb (input_grabbed s) then mret s else send_mouse b x y v h ;; mret s) w = Done s w'
    /\ shows o s w' (mouse_input b x y v h a)).
  { intros b x y v h. rewrite Hg. destruct (is_grabbed a) eqn:Ea; cbn [negb].
    - destruct (send_mouse_shows o s w a b x y v h Hs Ea) as (w' & Hw & Hs').
      exists w'. rewrite (bind_done _ _ _ _ _ Hw). done.
    - exists w. unfold mouse_input. rewrite Ea. done. }
  destruct e; cbn [handle_event event_input]; try (by exists s, w); try (exists s; apply Hm).
  - cbn in He. rewrite (proj2 (Z.eqb_neq _ _) He). exists s. apply Hm.
  - set (g := grab_key _ _ _ _ _). set (s1 := if g then _ else s).
    assert (Hg1 : input_grabbed s1 = xorb g (is_grabbed a))
      by (unfold s1; destruct g; simpl; rewrite Hg; by destruct (is_grabbed a)).
    assert (Hs1 : shows o s1 w (InputSpec (xorb g (is_grabbed a)) (is_word a) (is_kernel a))).
    { destruct Hs. constructor; [exact Hg1|unfold s1; by destruct g|done..]. }
    rewrite Hg1. destruct (xorb g (is_grabbed a)) eqn:Ex; cbn [negb]; [|by exists s1, w].
    destruct (send_key_shows o s1 w _ Hs1 eq_refl) as (w' & Hw & Hs').
    exists s1, w'. rewrite (bind_done _ _ _ _ _ Hw). done.
  - destruct (update_display_shows o s w a Hs) as [Hu Hs']. eauto.
Qed.

Lemma display_turn_shows o s w a e :
  shows o s w a -> event_ok e ->
  exists s' w', display_turn SDL_SCANCODE_G KMOD_CTRL KMOD_ALT SDL_BUTTON_LMASK true e s w = Done s' w'
    /\ shows o s' w' (turn_input e a)
    /\ (e = None -> w_pixels s' = pixels (kos_display (is_kernel a))).
Proof using modes.
  intros Hs He. unfold display_turn. destruct (update_display_shows o s w a Hs) as [Hu Hs1].
  rewrite (bind_done _ _ _ _ _ Hu). destruct e as [e|].
  - destruct (handle_event_shows o _ w a e Hs1 He) as (s' & w' & Hh & Hs').
    exists s', w'. by split.
  - destruct (update_display_shows o _ w a Hs1) as [Hu2 Hs2]. eexists _, w. eauto.
Qed.

Lemma umka_display_shows es : forall o s w a,
  shows o s w a -> Forall event_ok es ->
  exists s' w', umka_display SDL_SCANCODE_G KMOD_CTRL KMOD_ALT SDL_BUTTON_LMASK true es s w = Done s' w'
    /\ shows o s' w' (events_input es a)
    /\ (es !! pred (length es) = Some None -> w_pixels s' = pixels (kos_display (is_kernel (events_input es a)))).
Proof using modes.
  induction es as [|e es IH]; intros o s w a Hs He; [by exists s, w|].
  apply Forall_cons_1 in He as [He Hes]. cbn [umka_display].
  destruct (display_turn_shows o s w a e Hs He) as (s1 & w1 & Ht & Hs1 & Hp).
  rewrite (bind_done _ _ _ _ _ Ht). destruct (IH o s1 w1 _ Hs1 Hes) as (s2 & w2 & Hr & Hs2 & Hp2).
  exists s2, w2. split; [done|]. split; [done|]. destruct es as [|e' es]; [|exact Hp2].
  intros [= ->]. cbn in Hr. injection Hr as <- <-. by apply Hp.
Qed.
End display_spec.

(** ** Command lines *)

(** The arguments that ask for the options [a], with the name the coverage
    file has before the process id. *)
Definition render_opt (flag : string) (v : option string) : list slot :=
  match v with None => [] | Some v => [SStr flag; SStr v] end.
Definition render_opts (a : shell_opts) : list slot :=
  SStr "umka_shell" :: render_opt "-i" (so_infile a) ++ render_opt "-o" (so_outfile a)
  ++ (if so_reproducible a then [SStr "-r"] else []) ++ render_opt "-c" (so_covfile a) ++ [SNull].

Definition with_pid (pid : Z) (a : shell_opts) : shell_opts :=
  ShellOpts (so_infile a) (so_outfile a) (so_reproducible a)
    ((fun c => c +:+ "." +:+ fmt_d pid) <$> so_covfile a).

(** The name of the coverage file fits its buffer. *)
Definition cov_fits (pid : Z) (a : shell_opts) : Prop :=
  match so_covfile a with
  | None => True
  | Some c => (String.length (c +:+ "." +:+ fmt_d pid) < COVFILE_SIZE)%nat
  end.

(** What is left to read, with no sub-option pending. *)
Definition at_rest (o : optparse_t) (rest : list slot) : Prop :=
  drop (optind o) (o_argv o) = rest /\ subopt o = 0%nat.

Lemma at_rest_next o x rest :
  at_rest o (x :: rest) -> o_argv o !! optind o = Some x /\ drop (S (optind o)) (o_argv o) = rest.
Proof.
  intros [H _]. split.
  - rewrite <- (Nat.add_0_r (optind o)), <- lookup_drop, H. done.
  - rewrite <- Nat.add_1_r, <- drop_drop, H. done.
Qed.

(** The bound [S (measure o)] is enough: a loop that ends within any number of
    turns ends within it. *)
Lemma shell_options_fuel pid fuel : forall fuel' o a r,
  sub_ok o -> (measure o < fuel)%nat -> shell_options fuel' pid o a = Some r ->
  shell_options fuel pid o a = Some r.
Proof.
  induction fuel as [|fuel IH]; intros fuel' o a r Hs Hm H; [lia|].
  destruct fuel' as [|fuel']; [done|]. cbn [shell_options] in *.
  destruct (optparse o "i:o:rc:") as [[opt o']|] eqn:E; [|done]. cbn [mbind option_bind] in *.
  apply optparse_rec_step in E; [|done..]. destruct (Z.eqb_spec opt (-1)); [done|].
  destruct (shell_option pid opt (optarg o') a) as [[a'|code]|] eqn:Eo; [|done..].
  cbn [mbind option_bind] in *. assert (opt <> 63).
  { intros ->. destruct a. discriminate Eo. }
  eapply IH; [by apply (so_sub _ _ _ E)| |exact H]. pose proof (so_measure _ _ _ E). lia.
Qed.

(** The options are read from what is left, in some number of turns. *)
Definition reads (pid : Z) (rest : list slot) (a : shell_opts) (r : shell_opts + Z) : Prop :=
  forall o, at_rest o rest -> exists fuel, shell_options fuel pid o a = Some r.

Lemma reads_end pid a : reads pid [SNull] a (inl a).
Proof.
  intros o Hr. pose proof (at_rest_next _ _ _ Hr) as [H1 _]. exists 1%nat.
  cbn [shell_options]. unfold optparse. cbn [optparse_rec]. by rewrite H1.
Qed.

(** An option with a value in the next argument. *)
Lemma value_turn fl c v pid rest a o :
  (fl, c) ∈ [("-i", 105); ("-o", 111); ("-c", 99)] -> at_rest o (SStr fl :: SStr v :: rest) ->
  exists o', at_rest o' rest /\ forall n, shell_options (S n) pid o a =
    (r ← shell_option pid c (Some v) a;
     match r with inl a => shell_options n pid o' a | inr code => Some (inr code) end).
Proof.
  intros Hf Hr. pose proof (at_rest_next _ _ _ Hr) as [H1 H2]. destruct Hr as [_ Hs].
  assert (H3 : o_argv o !! S (optind o) = Some (SStr v))
    by (rewrite <- (Nat.add_0_r (S (optind o))), <- lookup_drop, H2; done).
  exists (Optparse (o_argv o) (permute o) (S (S (optind o))) (s8 c) (Some v) "" 0).
  split; [split; [cbn|done]; rewrite <- Nat.add_1_r, <- drop_drop, H2; done|].
  intros n. cbn [shell_options]. unfold optparse. cbn [optparse_rec]. rewrite H1. cbn [mbind option_bind].
  unfold optparse_option. cbn [subopt o_argv optind permute]. rewrite H3, Hs.
  rewrite !elem_of_cons, elem_of_nil in Hf.
  destruct Hf as [[= -> ->]|[[= -> ->]|[[= -> ->]|[]]]]; reflexivity.
Qed.

Lemma reads_value fl c v pid rest a a' r :
  (fl, c) ∈ [("-i", 105); ("-o", 111); ("-c", 99)] -> shell_option pid c (Some v) a = Some (inl a') ->
  reads pid rest a' r -> reads pid (SStr fl :: SStr v :: rest) a r.
Proof.
  intros Hf Ha Hrest o Hr. destruct (value_turn fl c v pid rest a o Hf Hr) as (o' & Ho' & E).
  destruct (Hrest o' Ho') as [n Hn]. exists (S n). by rewrite E, Ha.
Qed.

Lemma reads_opt fl c v pid rest a a' r :
  (fl, c) ∈ [("-i", 105); ("-o", 111); ("-c", 99)] ->
  match v with None => a' = a | Some v => shell_option pid c (Some v) a = Some (inl a') end ->
  reads pid rest a' r -> reads pid (render_opt fl v ++ rest) a r.
Proof. intros Hf Hv Hr. destruct v; cbn; [by eapply reads_value|by subst a']. Qed.

Lemma reads_r pid x rest i o c r :
  reads pid (x :: rest) (ShellOpts i o true c) r -> reads pid (SStr "-r" :: x :: rest) (ShellOpts i o false c) r.
Proof.
  intros Hrest op Hr. pose proof (at_rest_next _ _ _ Hr) as [H1 H2]. destruct Hr as [_ Hs].
  assert (H3 : o_argv op !! S (optind op) = Some x)
    by (rewrite <- (Nat.add_0_r (S (optind op))), <- lookup_drop, H2; done).
  destruct (Hrest (Optparse (o_argv op) (permute op) (S (optind op)) (s8 114) None "" 0)) as [n Hn]; [by split|].
  exists (S n). cbn [shell_options]. unfold optparse. cbn [optparse_rec]. rewrite H1. cbn [mbind option_bind].
  unfold optparse_option. cbn [subopt o_argv optind permute]. rewrite H3, Hs. exact Hn.
Qed.

Lemma reads_rendered pid a :
  cov_fits pid a -> reads pid (drop 1 (render_opts a)) no_opts (inl (with_pid pid a)).
Proof.
  intros Hc. destruct a as [i o r c]. unfold render_opts, with_pid. cbn [drop so_infile so_outfile so_reproducible so_covfile].
  eapply (reads_opt "-i" 105) with (a' := ShellOpts i None false None); [set_solver|by destruct i|].
  eapply (reads_opt "-o" 111) with (a' := ShellOpts i o false None); [set_solver|by destruct o|].
  assert (H : reads pid (render_opt "-c" c ++ [SNull]) (ShellOpts i o r None)
    (inl (ShellOpts i o r ((fun c => c +:+ "." +:+ fmt_d pid) <$> c)))).
  { eapply (reads_opt "-c" 99); [set_solver| |apply reads_end]. destruct c as [c|]; [|done].
    unfold shell_option. cbn [fmt_s Z.eqb Pos.eqb]. by rewrite (proj2 (Nat.ltb_lt _ _) Hc). }
  destruct r; [|exact H]. destruct (render_opt "-c" c ++ [SNull]) eqn:E; [by destruct c|].
  by apply reads_r.
Qed.

Ltac reg_lia := unfold REG_EDI, REG_EAX, REG_EIP, NGREG in *; lia.

(** *** Overlays *)

Lemma overlay_lookup_out {A} off (src dst : list A) j :
  (j < off \/ off + length src <= j)%nat -> (off + length src <= length dst)%nat ->
  overlay off src dst !! j = dst !! j.
Proof.
  intros Hj Hl. unfold overlay. destruct Hj as [Hj|Hj].
  - rewrite lookup_app_l by (rewrite length_take; lia). by rewrite lookup_take_lt by lia.
  - rewrite lookup_app_r, length_take by (rewrite length_take; lia).
    rewrite lookup_app_r, lookup_drop by lia. f_equal. lia.
Qed.

Lemma sub_overlay off (src dst : bytes) n :
  length src = n -> (off + n <= length dst)%nat -> sub (overlay off src dst) off n = src.
Proof.
  intros <- Hl. unfold sub, overlay. rewrite drop_app_length' by (rewrite length_take; lia).
  by rewrite take_app_length.
Qed.

(** ** Claims *)

(** Every choice of input file, output file, reproducible mode and coverage
    file can be asked for, whatever characters the names have: the options
    umka_shell reads from the command line are the ones it was built from (the
    coverage file with the process id appended). *)
Theorem shell_options_roundtrip pid a :
  cov_fits pid a -> shell_args pid (render_opts a) = Some (inl (with_pid pid a)).
Proof.
  intros Hc. unfold shell_args. cbn [optparse_init render_opts lookup list_lookup mbind option_bind].
  set (o := Optparse _ _ _ _ _ _ _). destruct (reads_rendered pid a Hc o) as [n Hn]; [done|].
  eapply shell_options_fuel; [|lia|exact Hn]. unfold sub_ok. cbn [o optind o_argv subopt]. auto with umka.
Qed.

(** The command line runtests gives starts a reproducible shell that reads
    run.us, writes to out.log and is never handed to a running system: what
    umka_shell then does is exactly the read loop on the lines of run.us, from
    the initial state. *)
Theorem runtests_command_line `{Kn : ShellKernel K} `{Ho : Host} fuel readline is_tty pid table (k : K) files run_us :
  files !! "run.us" = Some run_us -> can_write "out.log" = true ->
  shell_main fuel readline is_tty pid table
    (map SStr ["../../umka_shell"; "-ri"; "run.us"; "-o"; "out.log"] ++ [SNull]) k files
  = match run_test fuel is_tty (readline (Some run_us))
            (shell_init true UMKA_RUNNING_NEVER false k (<["out.log" := []]> files)) with
    | Done _ w => Returned (Some "out.log") w
    | Undef => Undefined
    | NoFuel => Waits
    end.
Proof.
  intros Hf Hw. unfold shell_main. set (r := shell_args pid _).
  assert (r = Some (inl (ShellOpts (Some "run.us") (Some "out.log") true None))) as -> by (vm_compute; reflexivity).
  cbn [open_input so_infile open_output so_outfile]. rewrite Hf. cbn [fmap option_fmap option_map].
  rewrite Hw. unfold shell_session. cbn [so_reproducible so_covfile so_outfile]. done.
Qed.

(** A name of the coverage file that leaves no room for a dot, the process
    id and the end of the string in 64 bytes is written past the buffer. *)
Theorem covfile_overflow `{Kn : ShellKernel K} `{Ho : Host} fuel readline is_tty pid table (k : K) files c :
  (COVFILE_SIZE <= String.length (c +:+ "." +:+ fmt_d pid))%nat ->
  shell_main fuel readline is_tty pid table [SStr "umka_shell"; SStr "-c"; SStr c; SNull] k files = Undefined.
Proof.
  intros Hl. unfold shell_main. set (r := shell_args pid _).
  assert (r = None) as ->; [|done].
  assert (shell_option pid 99 (Some c) no_opts = None) as Hn.
  { unfold shell_option, no_opts. cbn [fmt_s Z.eqb Pos.eqb]. by rewrite (proj2 (Nat.ltb_ge _ _) Hl). }
  unfold r, shell_args. cbn [optparse_init lookup list_lookup mbind option_bind]. set (o := Optparse _ _ _ _ _ _ _).
  destruct (value_turn "-c" 99 c pid [SNull] no_opts o) as (o' & _ & E); [set_solver|done|].
  by rewrite E, Hn.
Qed.

(** The usage text lists [-h]; the option string does not have it. *)
Lemma shell_h_refused pid : shell_args pid [SStr "umka_shell"; SStr "-h"; SNull] = Some (inr 1).
Proof. vm_compute. reflexivity. Qed.

(** The display thread on any sequence of window events and idle seconds never
    gets stuck and does for each event what [event_input] says of it, only while
    the input is grabbed; it prints nothing, and after an idle second the window
    shows the frame buffer (of an unpadded mode).  [event_input] keeps what the
    handler does: the word sent for a key is the one left in the slot, not the
    scancode ([key_scancode_lost]), and a button is sent without its number. *)
Theorem display_refines `{Kn : ShellKernel K} G CTRL ALT LMASK n es o s w a :
  (forall k : K, plain_mode (kos_display k) /\ (height_ (kos_display k) * width_ (kos_display k))%nat = n) ->
  shows n o s w a -> Forall event_ok es ->
  exists s' w', umka_display G CTRL ALT LMASK true es s w = Done s' w'
    /\ shows n o s' w' (events_input G CTRL ALT LMASK es a)
    /\ (es !! pred (length es) = Some None ->
        w_pixels s' = pixels (kos_display (is_kernel (events_input G CTRL ALT LMASK es a)))).
Proof. intros Hm Hs He. by apply umka_display_shows. Qed.

(** The key that is pressed never reaches the kernel: away from the grab key,
    two presses with different scancodes and modifiers do the same, from any
    state. *)
Theorem key_scancode_lost `{Kn : ShellKernel K} G CTRL ALT LMASK rgb sc sc' m m' s (w : world K) :
  grab_key G CTRL ALT sc m = false -> grab_key G CTRL ALT sc' m' = false ->
  handle_event G CTRL ALT LMASK rgb (SDL_KEYDOWN sc m) s w
  = handle_event G CTRL ALT LMASK rgb (SDL_KEYDOWN sc' m') s w.
Proof. intros H H'. cbn [handle_event]. by rewrite H, H'. Qed.

(** C23: a trap leaves the interrupted program with the eight general registers
    the kernel returned and everything else as it was, except that the program
    counter steps over the two bytes of [int 0x40]; at any other faulting
    instruction it stays, so the same instruction faults again. *)
Theorem i40_trap {K} (i40 : list Z -> K -> list Z * K) fetch16 gregs k ip :
  (forall r k, length r = 8%nat -> length (fst (i40 r k)) = 8%nat) ->
  length gregs = NGREG -> gregs !! REG_EIP = Some ip ->
  exists gregs' log k', handle_i40 i40 fetch16 gregs k = Some (gregs', log, k')
    /\ (sub gregs' REG_EDI 8, k') = i40 (sub gregs REG_EDI 8) k
    /\ gregs' !! REG_EIP = Some (if fetch16 ip =? 0x40cd then u32 (ip + 2) else ip)
    /\ (forall j, j <> REG_EIP -> (j < REG_EDI \/ REG_EDI + 8 <= j)%nat -> gregs' !! j = gregs !! j).
Proof.
  intros Hi Hl Hip. unfold handle_i40. rewrite Hip. cbn [mbind option_bind].
  destruct (lookup_lt_is_Some_2 gregs REG_EAX) as [eax ->]; [rewrite Hl; reg_lia|].
  cbn [mbind option_bind]. set (g := if fetch16 ip =? 0x40cd then _ else _).
  assert (Hlg : length g = NGREG) by (unfold g; destruct (_ =? _); by rewrite ?length_insert).
  assert (Hsub : sub g REG_EDI 8 = sub gregs REG_EDI 8).
  { unfold g. destruct (_ =? _); [|done]. unfold sub. rewrite !take_drop_commute. cbn [Nat.add REG_EDI]. by rewrite take_insert_ge by (reg_lia). }
  rewrite Hsub. pose proof (Hi (sub gregs REG_EDI 8) k) as Hr.
  rewrite length_sub in Hr by (rewrite Hl; reg_lia). specialize (Hr eq_refl).
  destruct (i40 (sub gregs REG_EDI 8) k) as [r k']. cbn [fst] in Hr.
  eexists _, _, k'. split; [reflexivity|]. split; [f_equal; apply sub_overlay; [done|rewrite Hlg; reg_lia]|]. split.
  - rewrite overlay_lookup_out by (rewrite Hr, ?Hlg; reg_lia).
    unfold g. destruct (_ =? _); [|done]. apply list_lookup_insert_eq. rewrite Hl. reg_lia.
  - intros j Hj Hout. rewrite overlay_lookup_out by (rewrite Hr, ?Hlg; reg_lia).
    unfold g. destruct (_ =? _); [|done]. by apply list_lookup_insert_ne.
Qed.

(** *** Witnesses *)

Lemma shell_options_roundtrip_witness :
  shell_args 7 (map SStr ["umka_shell"; "-i"; "-o"; "-r"; "-c"; "cov"] ++ [SNull])
  = Some (inl (ShellOpts (Some "-o") None true (Some "cov.7"))).
Proof.
  apply (shell_options_roundtrip 7 (ShellOpts (Some "-o") None true (Some "cov"))).
  apply Nat.ltb_lt. reflexivity.
Defined.

(** One line, [X], in run.us. *)
Lemma runtests_command_line_witness :
  exists w, shell_main 2 (fun _ => [Some "X"]) false 7 []
    (map SStr ["../../umka_shell"; "-ri"; "run.us"; "-o"; "out.log"] ++ [SNull])
    (Small (fun _ => 0) [] (always 0 0)) {["run.us" := [88; 10]]} = Returned (Some "out.log") w
    /\ w_out w = "/> X" +:+ nl /\ reproducible (w_conf w) = true.
Proof.
  rewrite (runtests_command_line 2 (fun _ => [Some "X"]) false 7 [] (Small (fun _ => 0) [] (always 0 0))
    {["run.us" := [88; 10]]} [88; 10]) by reflexivity.
  eexists. split; [reflexivity|]. split; vm_compute; reflexivity.
Defined.

Lemma covfile_overflow_witness :
  shell_main 2 (fun _ => []) false 7 []
    [SStr "umka_shell"; SStr "-c"; SStr (string_of_bytes (replicate 62 97)); SNull]
    (Small (fun _ => 0) [] (always 0 0)) ∅ = Undefined.
Proof. apply covfile_overflow. apply Nat.leb_le. reflexivity. Defined.

(** A kernel that records its input and has two pixels on the screen. *)
Definition two_pixels : display := Display 1 2 32 4 [1; 0; 0; 0; 2; 0; 0; 0].
#[export] Instance recorder : ShellKernel (list (list Z)) | 1000 := {|
  sk_kernel := fun _ k => (Ret 0 0 0 [], k);
  kget := fun _ _ => 0; kset := fun _ _ => id; karr := fun _ _ => [];
  kos_window_data := fun _ _ => None; kos_slot_base := fun _ => 0; kos_slot := fun _ _ => None;
  kmem := fun _ _ _ => []; umka_boot := id;
  kos_new_sys_threads := pair 2; umka_new_sys_threads := fun _ => pair 2;
  kos_wait_events := fun test k => if test k then Some k else None;
  kos_set_mouse_data := fun b x y v h k => k ++ [[b; x; y; v; h]];
  kos_set_keyboard_data := fun c k => k ++ [[c]];
  kos_osloop := id; kos_stack_init := id; kos_enable_acpi := id;
  kos_acpi_call_name := fun _ => id; kos_acpi_count_nodes := pair 0; kos_acpi_preload := fun _ _ => id;
  kos_net_add_device := fun _ => pair 0; kos_ramdisk_init := fun _ => pair 1;
  kos_disk_add := fun _ _ => pair 1; kos_disk_media_changed := fun _ _ => id; kos_disk_del := fun _ => id;
  disk_list := fun _ => []; kdisk := fun _ _ => DiskT "rd" 512 2880 [];
  kos_display := fun _ => two_pixels; kos_pci_tree := fun _ => [] |}.

Lemma two_pixels_plain : plain_mode two_pixels.
Proof.
  constructor; [set_solver|done|cbn; lia|by repeat constructor].
Qed.

(** Motion before the grab, Ctrl-Alt-g, a button, an ordinary key, motion, an
    idle second.  The key sends the state of the button. *)
Definition sample_events : list (option sdl_event) :=
  [Some (SDL_MOUSEMOTION 1 1); Some (SDL_KEYDOWN 10 0x140); Some (SDL_MOUSEBUTTONDOWN 1);
   Some (SDL_KEYDOWN 4 0); Some (SDL_MOUSEMOTION 3 2); None].

Lemma display_refines_witness :
  exists s' w', umka_display 10 0xc0 0x300 1 true sample_events (Window false [0; 0]) (idle_world []) = Done s' w'
    /\ w_k w' = [[0]; [1; 0; 0; 0; 0]; [1]; [0; 3; -2; 0; 0]] /\ w_pixels s' = [1; 2].
Proof.
  destruct (display_refines (K := list (list Z)) 10 0xc0 0x300 1 2 sample_events "" (Window false [0; 0]) (idle_world [])
    (InputSpec false 0 [])) as (s' & w' & Hr & Hs & Hp).
  - intros k. split; [exact two_pixels_plain|reflexivity].
  - constructor; reflexivity.
  - repeat (apply Forall_cons_2; [simpl; done || lia|]). apply Forall_nil_2.
  - exists s', w'. split; [exact Hr|]. rewrite (sh_kernel _ _ _ _ _ Hs), Hp by reflexivity.
    split; vm_compute; reflexivity.
Defined.

Lemma key_scancode_lost_witness :
  handle_event (K := list (list Z)) 10 0xc0 0x300 1 true (SDL_KEYDOWN 4 0) (Window true []) (idle_world [])
  = handle_event 10 0xc0 0x300 1 true (SDL_KEYDOWN 5 1) (Window true []) (idle_world []).
Proof. apply key_scancode_lost; reflexivity. Defined.

Definition sample_gregs : list Z := seqZ 0 14 ++ [0x1000; 15; 16; 17; 18].
Lemma i40_trap_witness :
  exists g log k, handle_i40 (fun r k => (map (Z.add 100) r, k + 1)) (fun _ => 0x40cd) sample_gregs 0 = Some (g, log, k)
    /\ g !! REG_EIP = Some 0x1002 /\ sub g REG_EDI 8 = seqZ 104 8.
Proof.
  destruct (i40_trap (fun r k => (map (Z.add 100) r, k + 1)) (fun _ => 0x40cd) sample_gregs 0 0x1000)
    as (g & log & k & H & He & Hip & _); [intros r k0 Hr; cbn [fst]; by rewrite length_map|reflexivity|reflexivity|].
  exists g, log, k. split; [exact H|]. split; [exact Hip|]. by injection He as -> ->.
Defined.
