(* ===== verification/Fuse.v ===== *)
(** umka_fuse.c: the file system operations that FUSE calls, on top of the
    kernel's file system calls.  The kernel and its conversion of times are
    parameters; a buffer the code leaves uninitialised is given. *)
From S2P Require Import Prelude CLib Io Disk Syscall Optparse Shell CmdFs Sample Listing.

Definition DIRENTS_TO_READ : Z := 100.

Definition S_IFDIR : Z := 0x4000.
Definition O_ACCMODE : Z := 3.
Definition O_RDONLY : Z := 0.
Definition EACCES : Z := 13.

(** The members of [struct stat] that are set. *)
Record stat := Stat {
  st_mode : Z; st_nlink : Z; st_size : Z; st_atime : Z; st_mtime : Z; st_ctime : Z }.

Section fuse.
Context `{HK : Kernel K}.
(** [kos_time_to_epoch] *)
Context (epoch : bytes -> Z).

(** [bdfe_t]: attr 0, ctime 8, atime 16, mtime 24, size 32.  The test is of
    the pointer [st], not of the attributes; [None]: a store through NULL. *)
Definition bdfe_to_stat (kf : bytes) (st : option stat) : option stat :=
  s ← st;
  Some (Stat (S_IFDIR .| 0x1ed) 2 (st_size s)
          (epoch (sub kf 16 8)) (epoch (sub kf 24 8)) (epoch (sub kf 8 8))).

(** The result, the attributes, the kernel. *)
Definition fs_getattr (path : string) (stbuf : option stat) (junk : bytes) (k : K) : option (Z * stat) * K :=
  let '((_, m), k) := umka_sys_lfn (S5arg 5 0 (Z.of_nat (length junk)) (Path80 UTF8 path)) F80 k in
  (s ← bdfe_to_stat (overlay 0 m junk) stbuf; Some (0, s), k).

(** The names passed to [filler]; [None]: an entry outside the buffer. *)
Fixpoint fill_names (n i : nat) (dir : bytes) : option (list string) :=
  match n with
  | O => Some []
  | S n =>
      let off := (32 + i * Z.to_nat BDFE_LEN_UNICODE)%nat in
      if (length dir <? off + 41)%nat then None
      else rest ← fill_names n (S i) dir; Some (cstring (drop (off + 40) dir) :: rest)
  end.

(** [dir] is the allocated buffer, 32 + 560 * 100 bytes. *)
Definition fs_readdir (path : string) (dir : bytes) (k : K) : option (Z * list string) * K :=
  let '((_, m), k) :=
    umka_sys_lfn (S1arg 1 0 UTF8 DIRENTS_TO_READ (Z.of_nat (length dir)) (Path80 UTF8 path)) F80 k in
  let dir := overlay 0 m dir in
  (names ← fill_names (Z.to_nat (dir_cnt dir)) 0 dir; Some (0, names), k).

Definition fs_open (flags : Z) : Z := if negb ((flags .& O_ACCMODE) =? O_RDONLY) then - EACCES else 0.

(** The result and the buffer; the status of the call is not looked at. *)
Definition fs_read (path : string) (buf : bytes) (size offset : Z) (k : K) : Z * bytes * K :=
  let '((_, m), k) := umka_sys_lfn (S0arg 0 offset size (Z.of_nat (length buf)) (Path80 UTF8 path)) F80 k in
  (size, overlay 0 m buf, k).
End fuse.

Lemma fill_names_holds dir n : forall i es,
  (forall j e, es !! j = Some e ->
     (32 + (i + j) * Z.to_nat BDFE_LEN_UNICODE + 41 <= length dir)%nat
     /\ cstring (drop (32 + (i + j) * Z.to_nat BDFE_LEN_UNICODE + 40) dir) = de_name e) ->
  length es = n -> fill_names n i dir = Some (map de_name es).
Proof.
  induction n as [|n IH]; intros i es He Hl; [by destruct es|].
  destruct es as [|e es]; [done|]. destruct (He 0%nat e eq_refl) as [Hr Hn]. rewrite Nat.add_0_r in *.
  cbn [fill_names]. cbv zeta. rewrite (proj2 (Nat.ltb_ge _ _)) by lia.
  rewrite (IH (S i) es); [cbn [mbind option_bind map]; by rewrite Hn| |by injection Hl].
  intros j e' Hj. replace (S i + j)%nat with (i + S j)%nat by lia. by apply He.
Qed.

(** Readdir gives FUSE exactly the names of the first 100 entries of the
    directory, in order, for a kernel that serves it; what follows the first
    page is never asked for. *)
Theorem fuse_readdir_first_page `{HK : Kernel K} serving dir path buf (k : K) :
  DirServer serving dir UTF8 F80 (Path80 UTF8 path) -> serving k -> length buf = Z.to_nat (32 + 560 * 100) ->
  exists k', fs_readdir path buf k = (Some (0, map de_name (take 100 dir)), k').
Proof.
  intros Hserve Hk Hb. destruct (dir_serves k 0 DIRENTS_TO_READ buf) as (m & k' & He & Hm & [Hc Hh] & _);
    [done|lia|done|rewrite Hb; vm_compute; congruence|].
  exists k'. unfold fs_readdir. rewrite He. f_equal.
  rewrite Hc, Nat2Z.id. rewrite (fill_names_holds _ _ 0 (page dir 0 DIRENTS_TO_READ)); [done| |done].
  intros j e Hj. destruct (Hh j e Hj) as (H1 & _ & H3). by split.
Qed.

Lemma fuse_readdir_first_page_witness :
  exists k', fs_readdir "/sys" (zeroes (Z.to_nat (32 + 560 * 100))) (w_k (small_world [] (serve two_files)))
    = (Some (0, ["lib"; "kernel.mnt"]), k').
Proof.
  apply (fuse_readdir_first_page (fun k => sm_reply k = serve two_files) two_files "/sys").
  - apply serve_dir_server; [apply two_files_ok|vm_compute; reflexivity].
  - reflexivity.
  - apply length_replicate.
Defined.

(** Everything is reported as a directory with two links, whatever its
    attributes, and the status of the call is lost. *)
Lemma fuse_getattr_directory `{HK : Kernel K} epoch path st junk (k : K) :
  exists s k', fs_getattr epoch path (Some st) junk k = (Some (0, s), k')
    /\ st_mode s = S_IFDIR .| 0x1ed /\ st_nlink s = 2 /\ st_size s = st_size st.
Proof.
  unfold fs_getattr. destruct (umka_sys_lfn _ _ _) as [[r m] k'].
  eexists _, k'. split; [reflexivity|]. done.
Qed.

(** A read reports the size asked for, even at the end of the file. *)
Lemma fuse_read_size `{HK : Kernel K} path buf size offset (k : K) :
  exists b k', fs_read path buf size offset k = (size, b, k').
Proof. unfold fs_read. destruct (umka_sys_lfn _ _ _) as [[r m] k']. eauto. Qed.
