(* ===== verification/SameHash.v ===== *)
(** tools/gensamehash.c and tools/mksamehash.c: the XFS directory hash, the
    counter that enumerates names, and the tool that fills a directory with
    names of one hash. *)
From S2P Require Import Prelude CLib.

(** ** The hash (gensamehash.c) *)

Definition rol32 (x y : Z) : Z := u32 (x << y) .| (x >> (32 - y)).

(** A [char] shifted into an [int] and converted to [uint32_t]. *)
Definition ch (c k : Z) : Z := u32 (s8 c << k).

(** [xfs_da_hashname]: four characters at a time, then the rest. *)
Fixpoint hash_loop (hash : Z) (name : bytes) : Z :=
  match name with
  | a :: b :: c :: d :: name =>
      hash_loop (ch a 21 .^ ch b 14 .^ ch c 7 .^ ch d 0 .^ rol32 hash (7 * 4)) name
  | [a; b; c] => ch a 14 .^ ch b 7 .^ ch c 0 .^ rol32 hash (7 * 3)
  | [a; b] => ch a 7 .^ ch b 0 .^ rol32 hash (7 * 2)
  | [a] => ch a 0 .^ rol32 hash (7 * 1)
  | [] => hash
  end.
Definition xfs_da_hashname (name : bytes) : Z := hash_loop 0 name.

(** The hash as XFS defines it: one character at a time. *)
Definition hash_step (hash c : Z) : Z := rol32 hash 7 .^ c.
Definition hash_ref (hash : Z) (name : bytes) : Z := fold_left hash_step name hash.

(** *** Rotation, bit by bit *)

Lemma testbit_high x n i : 0 <= x < 2 ^ n -> 0 <= n <= i -> Z.testbit x i = false.
Proof.
  intros Hx Hn. destruct (decide (x = 0)) as [->|]; [apply Z.bits_0|].
  apply Z.bits_above_log2; [lia|]. apply Z.log2_lt_pow2; [lia|].
  apply Z.lt_le_trans with (2 ^ n); [lia|]. apply Z.pow_le_mono_r; lia.
Qed.

Lemma u32_testbit x i : 0 <= i -> Z.testbit (u32 x) i = (i <? 32) && Z.testbit x i.
Proof.
  intros Hi. unfold u32. destruct (Z.ltb_spec i 32).
  - by rewrite Z.mod_pow2_bits_low by lia.
  - by rewrite Z.mod_pow2_bits_high by lia.
Qed.

Lemma rol32_testbit x n i :
  0 <= x < 2 ^ 32 -> 0 <= n < 32 -> 0 <= i ->
  Z.testbit (rol32 x n) i = (i <? 32) && Z.testbit x ((i - n) mod 32).
Proof.
  intros Hx Hn Hi. unfold rol32. rewrite Z.lor_spec, u32_testbit, Z.shiftl_spec, Z.shiftr_spec by lia.
  destruct (Z.ltb_spec i 32); cbn [andb].
  - destruct (Z.le_gt_cases n i).
    + rewrite Z.mod_small by lia. rewrite (testbit_high x 32 (i + (32 - n))) by lia. apply orb_false_r.
    + rewrite (Z.testbit_neg_r x (i - n)) by lia. cbn [orb]. f_equal.
      apply (Z.mod_unique _ _ (-1)); lia.
  - rewrite (testbit_high x 32) by lia. done.
Qed.

Lemma rol32_range x n : 0 <= x < 2 ^ 32 -> 0 <= n < 32 -> 0 <= rol32 x n < 2 ^ 32.
Proof.
  intros Hx Hn. assert (u32 (rol32 x n) = rol32 x n) as <-; [|apply u32_range].
  apply Z.bits_inj'. intros i Hi. rewrite u32_testbit, rol32_testbit by lia.
  by destruct (i <? 32).
Qed.

Lemma rol32_lxor a b n :
  0 <= a < 2 ^ 32 -> 0 <= b < 2 ^ 32 -> 0 <= n < 32 -> rol32 (a .^ b) n = rol32 a n .^ rol32 b n.
Proof.
  intros Ha Hb Hn. apply Z.bits_inj'. intros i Hi. pose proof (lxor_range a b 32 ltac:(lia) Ha Hb).
  rewrite Z.lxor_spec, !rol32_testbit, Z.lxor_spec by lia. by destruct (i <? 32).
Qed.

Lemma rol32_rol32 x m n :
  0 <= x < 2 ^ 32 -> 0 <= m -> 0 <= n -> m + n < 32 -> rol32 (rol32 x m) n = rol32 x (m + n).
Proof.
  intros Hx Hm Hn Hmn. apply Z.bits_inj'. intros i Hi.
  pose proof (rol32_range x m Hx ltac:(lia)). pose proof (Z.mod_pos_bound (i - n) 32 ltac:(lia)).
  rewrite !rol32_testbit by lia. rewrite (proj2 (Z.ltb_lt ((i - n) mod 32) 32)) by lia.
  rewrite Zminus_mod_idemp_l. by replace (i - n - m) with (i - (m + n)) by lia.
Qed.

(** A seven-bit character moved by less than a word. *)
Lemma rol32_char c n : 0 <= c < 2 ^ 7 -> 0 <= n <= 21 -> rol32 c n = ch c n.
Proof.
  intros Hc Hn. unfold rol32, ch. replace (s8 c) with c by (symmetry; apply signed_id; lia).
  rewrite (Z.shiftr_div_pow2 c) by lia. rewrite Z.div_small, Z.lor_0_r; [done|].
  split; [lia|]. apply Z.lt_le_trans with (2 ^ 7); [lia|]. apply Z.pow_le_mono_r; lia.
Qed.

Definition seven_bit (name : bytes) : Prop := Forall (fun c => 0 <= c < 2 ^ 7) name.

Lemma hash_step_range h c : 0 <= h < 2 ^ 32 -> 0 <= c < 2 ^ 7 -> 0 <= hash_step h c < 2 ^ 32.
Proof. intros Hh Hc. apply lxor_range; [lia|apply rol32_range; lia|lia]. Qed.

Lemma hash_ref_range name : forall h, 0 <= h < 2 ^ 32 -> seven_bit name -> 0 <= hash_ref h name < 2 ^ 32.
Proof.
  induction name as [|c name IH]; intros h Hh Hn; [done|]. inversion Hn; subst.
  apply IH; [by apply hash_step_range|done].
Qed.

(** *** The loop computes the reference *)

Ltac in_word := repeat first [apply lxor_range | apply rol32_range]; lia.
Ltac xor_perm :=
  apply Z.bits_inj'; intros i Hi; rewrite !Z.lxor_spec, ?Z.bits_0;
  repeat match goal with |- context [Z.testbit ?x i] => destruct (Z.testbit x i) end; reflexivity.

(** Rotations moved to the characters and the old hash. *)
Ltac unroll_hash :=
  change (7 * 2) with 14; change (7 * 3) with 21; change (7 * 4) with 28; unfold hash_step;
  repeat (rewrite rol32_lxor by in_word);
  repeat match goal with |- context [rol32 (rol32 ?x ?m) ?n] =>
    let k := eval vm_compute in (m + n) in
    rewrite (rol32_rol32 x m n : _ -> _ -> _ -> _ -> _ = rol32 x k) by (lia || in_word) end;
  repeat match goal with |- context [rol32 ?x ?n] => rewrite (rol32_char x n) by lia end.

Lemma ch_0 c : 0 <= c < 2 ^ 7 -> ch c 0 = c.
Proof.
  intros Hc. unfold ch. rewrite Z.shiftl_0_r. replace (s8 c) with c by (symmetry; apply signed_id; lia).
  apply u32_small. lia.
Qed.

Lemma hash_loop_step1 h a :
  0 <= h < 2 ^ 32 -> 0 <= a < 2 ^ 7 -> hash_step h a = ch a 0 .^ rol32 h (7 * 1).
Proof. intros. rewrite ch_0 by lia. apply Z.lxor_comm. Qed.

Lemma hash_loop_step2 h a b :
  0 <= h < 2 ^ 32 -> 0 <= a < 2 ^ 7 -> 0 <= b < 2 ^ 7 ->
  hash_step (hash_step h a) b = ch a 7 .^ ch b 0 .^ rol32 h (7 * 2).
Proof. intros. rewrite ch_0 by lia. unroll_hash. xor_perm. Qed.

Lemma hash_loop_step3 h a b c :
  0 <= h < 2 ^ 32 -> 0 <= a < 2 ^ 7 -> 0 <= b < 2 ^ 7 -> 0 <= c < 2 ^ 7 ->
  hash_step (hash_step (hash_step h a) b) c = ch a 14 .^ ch b 7 .^ ch c 0 .^ rol32 h (7 * 3).
Proof. intros. rewrite ch_0 by lia. unroll_hash. xor_perm. Qed.

Lemma hash_loop_step4 h a b c d :
  0 <= h < 2 ^ 32 -> 0 <= a < 2 ^ 7 -> 0 <= b < 2 ^ 7 -> 0 <= c < 2 ^ 7 -> 0 <= d < 2 ^ 7 ->
  hash_step (hash_step (hash_step (hash_step h a) b) c) d
  = ch a 21 .^ ch b 14 .^ ch c 7 .^ ch d 0 .^ rol32 h (7 * 4).
Proof. intros. rewrite ch_0 by lia. unroll_hash. xor_perm. Qed.

Lemma hash_loop_ref n : forall name h,
  (length name <= n)%nat -> 0 <= h < 2 ^ 32 -> seven_bit name -> hash_loop h name = hash_ref h name.
Proof.
  induction n as [|n IH]; intros name h Hl Hh Hn.
  { destruct name; [done|simpl in Hl; lia]. }
  destruct name as [|a [|b [|c [|d name]]]]; unfold seven_bit in Hn;
    repeat match goal with H : Forall _ (_ :: _) |- _ => apply Forall_cons_1 in H; destruct H end.
  - done.
  - cbn [hash_loop]. unfold hash_ref. cbn [fold_left]. by rewrite hash_loop_step1.
  - cbn [hash_loop]. unfold hash_ref. cbn [fold_left]. by rewrite hash_loop_step2.
  - cbn [hash_loop]. unfold hash_ref. cbn [fold_left]. by rewrite hash_loop_step3.
  - cbn [hash_loop]. rewrite <- hash_loop_step4 by done. rewrite IH; [done| | |done].
    + simpl in Hl. lia.
    + by repeat apply hash_step_range.
Qed.

Lemma xfs_hash_ref name : seven_bit name -> xfs_da_hashname name = hash_ref 0 name.
Proof. intros H. apply (hash_loop_ref (length name)); [lia|lia|done]. Qed.

(** *** Names of the same hash *)

(** The hash of a name from [h] on is that from 0, and a rotation of [h]. *)
Lemma hash_ref_from name : forall h g,
  0 <= h < 2 ^ 32 -> 0 <= g < 2 ^ 32 -> seven_bit name ->
  hash_ref h name .^ hash_ref g name = hash_ref (h .^ g) (map (fun _ => 0) name).
Proof.
  induction name as [|c name IH]; intros h g Hh Hg Hn; [done|]. inversion Hn; subst.
  cbn [map]. change (hash_ref ?x (?c :: ?l)) with (hash_ref (hash_step x c) l). rewrite IH by (auto using hash_step_range). f_equal.
  unfold hash_step. rewrite rol32_lxor by (done || lia). xor_perm.
Qed.

(** Two names of one length and one hash hash alike after any prefix. *)
Lemma hash_ref_congr a b h :
  0 <= h < 2 ^ 32 -> seven_bit a -> seven_bit b -> length a = length b ->
  hash_ref 0 a = hash_ref 0 b -> hash_ref h a = hash_ref h b.
Proof.
  intros Hh Ha Hb Hl Heq.
  assert (forall x y, x .^ y = 0 -> x = y) as Hx by (intros; by apply Z.lxor_eq).
  apply Hx. transitivity ((hash_ref h a .^ hash_ref 0 a) .^ (hash_ref h b .^ hash_ref 0 b)).
  - rewrite Heq. xor_perm.
  - rewrite !hash_ref_from by (done || lia).
    replace (map (fun _ => 0) b) with (map (fun _ : Z => 0) a); [apply Z.lxor_nilpotent|].
    clear -Hl. revert b Hl. induction a as [|x a IH]; intros [|y b] Hl; try done.
    simpl. f_equal. apply IH. simpl in Hl. lia.
Qed.

(** ** The table of segments (mksamehash.c) *)

Definition XFS_NAMES_CNT : nat := 1000.
Definition XFS_NAME_SEGMENT_LEN : nat := 12.
Definition xfs_samehash : list string :=
  [
   "000000000000"; "000000100008"; "000001000080"; "000001100088"; "000010000800"; "000010100808";
   "000011000880"; "000011100888"; "000100008000"; "000100108008"; "000101008080"; "000101108088";
   "000110008800"; "000110108808"; "000111008880"; "000111108888"; "001000080000"; "001000180008";
   "001001080080"; "001001180088"; "001010080800"; "001010180808"; "001011080880"; "001011180888";
   "001100088000"; "001100188008"; "001101088080"; "001101188088"; "001110088800"; "001110188808";
   "001111088880"; "001111188888"; "002000000001"; "002000100009"; "002001000081"; "002001100089";
   "002010000801"; "002010100809"; "002011000881"; "002011100889"; "002100008001"; "002100108009";
   "002101008081"; "002101108089"; "002110008801"; "002110108809"; "002111008881"; "002111108889";
   "003000080001"; "003000180009"; "003001080081"; "003001180089"; "003010080801"; "003010180809";
   "003011080881"; "003011180889"; "003100088001"; "003100188009"; "003101088081"; "003101188089";
   "003110088801"; "003110188809"; "003111088881"; "003111188889"; "004000000002"; "004001000082";
   "004010000802"; "004011000882"; "004100008002"; "004101008082"; "004110008802"; "004111008882";
   "005000080002"; "005001080082"; "005010080802"; "005011080882"; "005100088002"; "005101088082";
   "005110088802"; "005111088882"; "006000000003"; "006001000083"; "006010000803"; "006011000883";
   "006100008003"; "006101008083"; "006110008803"; "006111008883"; "007000080003"; "007001080083";
   "007010080803"; "007011080883"; "007100088003"; "007101088083"; "007110088803"; "007111088883";
   "008000000004"; "008001000084"; "008010000804"; "008011000884"; "008100008004"; "008101008084";
   "008110008804"; "008111008884"; "009000080004"; "009001080084"; "009010080804"; "009011080884";
   "009100088004"; "009101088084"; "009110088804"; "009111088884"; "010000800000"; "010000900008";
   "010001800080"; "010001900088"; "010010800800"; "010010900808"; "010011800880"; "010011900888";
   "010100808000"; "010100908008"; "010101808080"; "010101908088"; "010110808800"; "010110908808";
   "010111808880"; "010111908888"; "011000880000"; "011000980008"; "011001880080"; "011001980088";
   "011010880800"; "011010980808"; "011011880880"; "011011980888"; "011100888000"; "011100988008";
   "011101888080"; "011101988088"; "011110888800"; "011110988808"; "011111888880"; "011111988888";
   "012000800001"; "012000900009"; "012001800081"; "012001900089"; "012010800801"; "012010900809";
   "012011800881"; "012011900889"; "012100808001"; "012100908009"; "012101808081"; "012101908089";
   "012110808801"; "012110908809"; "012111808881"; "012111908889"; "013000880001"; "013000980009";
   "013001880081"; "013001980089"; "013010880801"; "013010980809"; "013011880881"; "013011980889";
   "013100888001"; "013100988009"; "013101888081"; "013101988089"; "013110888801"; "013110988809";
   "013111888881"; "013111988889"; "014000800002"; "014001800082"; "014010800802"; "014011800882";
   "014100808002"; "014101808082"; "014110808802"; "014111808882"; "015000880002"; "015001880082";
   "015010880802"; "015011880882"; "015100888002"; "015101888082"; "015110888802"; "015111888882";
   "016000800003"; "016001800083"; "016010800803"; "016011800883"; "016100808003"; "016101808083";
   "016110808803"; "016111808883"; "017000880003"; "017001880083"; "017010880803"; "017011880883";
   "017100888003"; "017101888083"; "017110888803"; "017111888883"; "018000800004"; "018001800084";
   "018010800804"; "018011800884"; "018100808004"; "018101808084"; "018110808804"; "018111808884";
   "019000880004"; "019001880084"; "019010880804"; "019011880884"; "019100888004"; "019101888084";
   "019110888804"; "019111888884"; "020000000010"; "020000100018"; "020001000090"; "020001100098";
   "020010000810"; "020010100818"; "020011000890"; "020011100898"; "020100008010"; "020100108018";
   "020101008090"; "020101108098"; "020110008810"; "020110108818"; "020111008890"; "020111108898";
   "021000080010"; "021000180018"; "021001080090"; "021001180098"; "021010080810"; "021010180818";
   "021011080890"; "021011180898"; "021100088010"; "021100188018"; "021101088090"; "021101188098";
   "021110088810"; "021110188818"; "021111088890"; "021111188898"; "022000000011"; "022000100019";
   "022001000091"; "022001100099"; "022010000811"; "022010100819"; "022011000891"; "022011100899";
   "022100008011"; "022100108019"; "022101008091"; "022101108099"; "022110008811"; "022110108819";
   "022111008891"; "022111108899"; "023000080011"; "023000180019"; "023001080091"; "023001180099";
   "023010080811"; "023010180819"; "023011080891"; "023011180899"; "023100088011"; "023100188019";
   "023101088091"; "023101188099"; "023110088811"; "023110188819"; "023111088891"; "023111188899";
   "024000000012"; "024001000092"; "024010000812"; "024011000892"; "024100008012"; "024101008092";
   "024110008812"; "024111008892"; "025000080012"; "025001080092"; "025010080812"; "025011080892";
   "025100088012"; "025101088092"; "025110088812"; "025111088892"; "026000000013"; "026001000093";
   "026010000813"; "026011000893"; "026100008013"; "026101008093"; "026110008813"; "026111008893";
   "027000080013"; "027001080093"; "027010080813"; "027011080893"; "027100088013"; "027101088093";
   "027110088813"; "027111088893"; "028000000014"; "028001000094"; "028010000814"; "028011000894";
   "028100008014"; "028101008094"; "028110008814"; "028111008894"; "029000080014"; "029001080094";
   "029010080814"; "029011080894"; "029100088014"; "029101088094"; "029110088814"; "029111088894";
   "030000800010"; "030000900018"; "030001800090"; "030001900098"; "030010800810"; "030010900818";
   "030011800890"; "030011900898"; "030100808010"; "030100908018"; "030101808090"; "030101908098";
   "030110808810"; "030110908818"; "030111808890"; "030111908898"; "031000880010"; "031000980018";
   "031001880090"; "031001980098"; "031010880810"; "031010980818"; "031011880890"; "031011980898";
   "031100888010"; "031100988018"; "031101888090"; "031101988098"; "031110888810"; "031110988818";
   "031111888890"; "031111988898"; "032000800011"; "032000900019"; "032001800091"; "032001900099";
   "032010800811"; "032010900819"; "032011800891"; "032011900899"; "032100808011"; "032100908019";
   "032101808091"; "032101908099"; "032110808811"; "032110908819"; "032111808891"; "032111908899";
   "033000880011"; "033000980019"; "033001880091"; "033001980099"; "033010880811"; "033010980819";
   "033011880891"; "033011980899"; "033100888011"; "033100988019"; "033101888091"; "033101988099";
   "033110888811"; "033110988819"; "033111888891"; "033111988899"; "034000800012"; "034001800092";
   "034010800812"; "034011800892"; "034100808012"; "034101808092"; "034110808812"; "034111808892";
   "035000880012"; "035001880092"; "035010880812"; "035011880892"; "035100888012"; "035101888092";
   "035110888812"; "035111888892"; "036000800013"; "036001800093"; "036010800813"; "036011800893";
   "036100808013"; "036101808093"; "036110808813"; "036111808893"; "037000880013"; "037001880093";
   "037010880813"; "037011880893"; "037100888013"; "037101888093"; "037110888813"; "037111888893";
   "038000800014"; "038001800094"; "038010800814"; "038011800894"; "038100808014"; "038101808094";
   "038110808814"; "038111808894"; "039000880014"; "039001880094"; "039010880814"; "039011880894";
   "039100888014"; "039101888094"; "039110888814"; "039111888894"; "040000000020"; "040000100028";
   "040010000820"; "040010100828"; "040100008020"; "040100108028"; "040110008820"; "040110108828";
   "041000080020"; "041000180028"; "041010080820"; "041010180828"; "041100088020"; "041100188028";
   "041110088820"; "041110188828"; "042000000021"; "042000100029"; "042010000821"; "042010100829";
   "042100008021"; "042100108029"; "042110008821"; "042110108829"; "043000080021"; "043000180029";
   "043010080821"; "043010180829"; "043100088021"; "043100188029"; "043110088821"; "043110188829";
   "044000000022"; "044010000822"; "044100008022"; "044110008822"; "045000080022"; "045010080822";
   "045100088022"; "045110088822"; "046000000023"; "046010000823"; "046100008023"; "046110008823";
   "047000080023"; "047010080823"; "047100088023"; "047110088823"; "048000000024"; "048010000824";
   "048100008024"; "048110008824"; "049000080024"; "049010080824"; "049100088024"; "049110088824";
   "050000800020"; "050000900028"; "050010800820"; "050010900828"; "050100808020"; "050100908028";
   "050110808820"; "050110908828"; "051000880020"; "051000980028"; "051010880820"; "051010980828";
   "051100888020"; "051100988028"; "051110888820"; "051110988828"; "052000800021"; "052000900029";
   "052010800821"; "052010900829"; "052100808021"; "052100908029"; "052110808821"; "052110908829";
   "053000880021"; "053000980029"; "053010880821"; "053010980829"; "053100888021"; "053100988029";
   "053110888821"; "053110988829"; "054000800022"; "054010800822"; "054100808022"; "054110808822";
   "055000880022"; "055010880822"; "055100888022"; "055110888822"; "056000800023"; "056010800823";
   "056100808023"; "056110808823"; "057000880023"; "057010880823"; "057100888023"; "057110888823";
   "058000800024"; "058010800824"; "058100808024"; "058110808824"; "059000880024"; "059010880824";
   "059100888024"; "059110888824"; "060000000030"; "060000100038"; "060010000830"; "060010100838";
   "060100008030"; "060100108038"; "060110008830"; "060110108838"; "061000080030"; "061000180038";
   "061010080830"; "061010180838"; "061100088030"; "061100188038"; "061110088830"; "061110188838";
   "062000000031"; "062000100039"; "062010000831"; "062010100839"; "062100008031"; "062100108039";
   "062110008831"; "062110108839"; "063000080031"; "063000180039"; "063010080831"; "063010180839";
   "063100088031"; "063100188039"; "063110088831"; "063110188839"; "064000000032"; "064010000832";
   "064100008032"; "064110008832"; "065000080032"; "065010080832"; "065100088032"; "065110088832";
   "066000000033"; "066010000833"; "066100008033"; "066110008833"; "067000080033"; "067010080833";
   "067100088033"; "067110088833"; "068000000034"; "068010000834"; "068100008034"; "068110008834";
   "069000080034"; "069010080834"; "069100088034"; "069110088834"; "070000800030"; "070000900038";
   "070010800830"; "070010900838"; "070100808030"; "070100908038"; "070110808830"; "070110908838";
   "071000880030"; "071000980038"; "071010880830"; "071010980838"; "071100888030"; "071100988038";
   "071110888830"; "071110988838"; "072000800031"; "072000900039"; "072010800831"; "072010900839";
   "072100808031"; "072100908039"; "072110808831"; "072110908839"; "073000880031"; "073000980039";
   "073010880831"; "073010980839"; "073100888031"; "073100988039"; "073110888831"; "073110988839";
   "074000800032"; "074010800832"; "074100808032"; "074110808832"; "075000880032"; "075010880832";
   "075100888032"; "075110888832"; "076000800033"; "076010800833"; "076100808033"; "076110808833";
   "077000880033"; "077010880833"; "077100888033"; "077110888833"; "078000800034"; "078010800834";
   "078100808034"; "078110808834"; "079000880034"; "079010880834"; "079100888034"; "079110888834";
   "080000000040"; "080000100048"; "080010000840"; "080010100848"; "080100008040"; "080100108048";
   "080110008840"; "080110108848"; "081000080040"; "081000180048"; "081010080840"; "081010180848";
   "081100088040"; "081100188048"; "081110088840"; "081110188848"; "082000000041"; "082000100049";
   "082010000841"; "082010100849"; "082100008041"; "082100108049"; "082110008841"; "082110108849";
   "083000080041"; "083000180049"; "083010080841"; "083010180849"; "083100088041"; "083100188049";
   "083110088841"; "083110188849"; "084000000042"; "084010000842"; "084100008042"; "084110008842";
   "085000080042"; "085010080842"; "085100088042"; "085110088842"; "086000000043"; "086010000843";
   "086100008043"; "086110008843"; "087000080043"; "087010080843"; "087100088043"; "087110088843";
   "088000000044"; "088010000844"; "088100008044"; "088110008844"; "089000080044"; "089010080844";
   "089100088044"; "089110088844"; "090000800040"; "090000900048"; "090010800840"; "090010900848";
   "090100808040"; "090100908048"; "090110808840"; "090110908848"; "091000880040"; "091000980048";
   "091010880840"; "091010980848"; "091100888040"; "091100988048"; "091110888840"; "091110988848";
   "092000800041"; "092000900049"; "092010800841"; "092010900849"; "092100808041"; "092100908049";
   "092110808841"; "092110908849"; "093000880041"; "093000980049"; "093010880841"; "093010980849";
   "093100888041"; "093100988049"; "093110888841"; "093110988849"; "094000800042"; "094010800842";
   "094100808042"; "094110808842"; "095000880042"; "095010880842"; "095100888042"; "095110888842";
   "096000800043"; "096010800843"; "096100808043"; "096110808843"; "097000880043"; "097010880843";
   "097100888043"; "097110888843"; "098000800044"; "098010800844"; "098100808044"; "098110808844";
   "099000880044"; "099010880844"; "099100888044"; "099110888844"; "100008000000"; "100008100008";
   "100009000080"; "100009100088"; "100018000800"; "100018100808"; "100019000880"; "100019100888";
   "100108008000"; "100108108008"; "100109008080"; "100109108088"; "100118008800"; "100118108808";
   "100119008880"; "100119108888"; "101008080000"; "101008180008"; "101009080080"; "101009180088";
   "101018080800"; "101018180808"; "101019080880"; "101019180888"; "101108088000"; "101108188008";
   "101109088080"; "101109188088"; "101118088800"; "101118188808"; "101119088880"; "101119188888";
   "102008000001"; "102008100009"; "102009000081"; "102009100089"; "102018000801"; "102018100809";
   "102019000881"; "102019100889"; "102108008001"; "102108108009"; "102109008081"; "102109108089";
   "102118008801"; "102118108809"; "102119008881"; "102119108889"; "103008080001"; "103008180009";
   "103009080081"; "103009180089"; "103018080801"; "103018180809"; "103019080881"; "103019180889";
   "103108088001"; "103108188009"; "103109088081"; "103109188089"; "103118088801"; "103118188809";
   "103119088881"; "103119188889"; "104008000002"; "104009000082"; "104018000802"; "104019000882";
   "104108008002"; "104109008082"; "104118008802"; "104119008882"; "105008080002"; "105009080082";
   "105018080802"; "105019080882"; "105108088002"; "105109088082"; "105118088802"; "105119088882";
   "106008000003"; "106009000083"; "106018000803"; "106019000883"; "106108008003"; "106109008083";
   "106118008803"; "106119008883"; "107008080003"; "107009080083"; "107018080803"; "107019080883";
   "107108088003"; "107109088083"; "107118088803"; "107119088883"; "108008000004"; "108009000084";
   "108018000804"; "108019000884"; "108108008004"; "108109008084"; "108118008804"; "108119008884";
   "109008080004"; "109009080084"; "109018080804"; "109019080884"; "109108088004"; "109109088084";
   "109118088804"; "109119088884"; "110008800000"; "110008900008"; "110009800080"; "110009900088";
   "110018800800"; "110018900808"; "110019800880"; "110019900888"; "110108808000"; "110108908008";
   "110109808080"; "110109908088"; "110118808800"; "110118908808"; "110119808880"; "110119908888";
   "111008880000"; "111008980008"; "111009880080"; "111009980088"; "111018880800"; "111018980808";
   "111019880880"; "111019980888"; "111108888000"; "111108988008"; "111109888080"; "111109988088";
   "111118888800"; "111118988808"; "111119888880"; "111119988888"; "112008800001"; "112008900009";
   "112009800081"; "112009900089"; "112018800801"; "112018900809"; "112019800881"; "112019900889";
   "112108808001"; "112108908009"; "112109808081"; "112109908089"; "112118808801"; "112118908809";
   "112119808881"; "112119908889"; "113008880001"; "113008980009"; "113009880081"; "113009980089";
   "113018880801"; "113018980809"; "113019880881"; "113019980889"; "113108888001"; "113108988009";
   "113109888081"; "113109988089"; "113118888801"; "113118988809"; "113119888881"; "113119988889";
   "114008800002"; "114009800082"; "114018800802"; "114019800882"; "114108808002"; "114109808082";
   "114118808802"; "114119808882"; "115008880002"; "115009880082"; "115018880802"; "115019880882";
   "115108888002"; "115109888082"; "115118888802"; "115119888882"; "116008800003"; "116009800083";
   "116018800803"; "116019800883"; "116108808003"; "116109808083"; "116118808803"; "116119808883";
   "117008880003"; "117009880083"; "117018880803"; "117019880883"; "117108888003"; "117109888083";
   "117118888803"; "117119888883"; "118008800004"; "118009800084"; "118018800804"; "118019800884";
   "118108808004"; "118109808084"; "118118808804"; "118119808884"
  ].

Definition segment_ok (s : string) : bool :=
  let b := bytes_of_string s in
  Nat.eqb (length b) XFS_NAME_SEGMENT_LEN && (hash_ref 0 b =? 912971179)
  && forallb (fun c => (48 <=? c) && (c <? 128)) b.

Lemma samehash_ok : forallb segment_ok xfs_samehash = true.
Proof. vm_compute. reflexivity. Qed.

(** The table is in order of its entries read as numbers. *)
Definition key (s : string) : Z := fold_left (fun n c => n * 128 + c) (bytes_of_string s) 0.

Fixpoint increasing (l : list Z) : bool :=
  match l with
  | a :: l => match l with b :: _ => (a <? b) && increasing l | [] => true end
  | [] => true
  end.

Lemma increasing_cons a l : increasing (a :: l) = true -> Forall (Z.lt a) l /\ increasing l = true.
Proof.
  revert a; induction l as [|b l IH]; intros a H; [by split|].
  cbn [increasing] in H. apply andb_prop in H as [Hab H]. split; [|done].
  destruct (IH b H) as [HF _]. constructor; [lia|].
  apply (List.Forall_impl (P := Z.lt b)); [intros c Hc; lia|exact HF].
Qed.

Lemma increasing_nodup {A} (f : A -> Z) l : increasing (map f l) = true -> NoDup l.
Proof.
  induction l as [|a l IH]; intros H; [constructor|].
  cbn [map] in H. apply increasing_cons in H as [HF H]. constructor; [|by apply IH].
  intros Ha. rewrite List.Forall_forall in HF. specialize (HF (f a)).
  assert (f a < f a); [|lia]. apply HF, in_map, list_elem_of_In, Ha.
Qed.

Lemma samehash_nodup : NoDup xfs_samehash.
Proof. apply (increasing_nodup key). vm_compute. reflexivity. Qed.

Lemma samehash_length : length xfs_samehash = XFS_NAMES_CNT.
Proof. reflexivity. Qed.

#[local] Opaque xfs_samehash.

(** ** mksamehash *)

(** The name buffer, the number of directories still to make, and those made. *)
Record mk := Mk { mk_dirname : bytes; mk_left : Z; mk_made : list string }.

Definition seg_offset (cidx : nat) : nat := 2 + (1 + XFS_NAME_SEGMENT_LEN) * cidx.

Section mksamehash.
(** The names the directory already has. *)
Context (present : string -> bool).

(** [mkdirat]: fails for a name that exists; the tool then exits. *)
Definition mkdirat (name : string) (st : mk) : option mk :=
  if present name || existsb (streq name) (mk_made st) then None
  else Some (Mk (mk_dirname st) (mk_left st - 1) (mk_made st ++ [name])).

Definition put_segment (cidx : nat) (seg : string) (st : mk) : mk :=
  Mk (overlay (seg_offset cidx) (bytes_of_string seg) (mk_dirname st)) (mk_left st) (mk_made st).

(** The loop of the last level, and of the others. *)
Fixpoint last_level (cidx : nat) (segs : list string) (st : mk) : option mk :=
  match segs with
  | [] => Some st
  | s :: segs =>
      let st := put_segment cidx s st in
      if mk_left st =? 0 then Some st
      else st ← mkdirat (cstring (mk_dirname st)) st; last_level cidx segs st
  end.
Fixpoint upper_level (next : mk -> option mk) (cidx : nat) (segs : list string) (st : mk) : option mk :=
  match segs with
  | [] => Some st
  | s :: segs => st ← next (put_segment cidx s st); upper_level next cidx segs st
  end.

(** [below] levels follow level [cidx]: [ccnt = cidx + 1 + below]. *)
Fixpoint xfs_iterate_name_segment (below cidx : nat) (st : mk) : option mk :=
  match below with
  | O => last_level cidx xfs_samehash st
  | S below => upper_level (xfs_iterate_name_segment below (S cidx)) cidx xfs_samehash st
  end.

(** The number of segments: the powers of 1000 are 64-bit numbers. *)
Fixpoint count_segments (fuel : nat) (last_name left : Z) (ccnt : nat) : option nat :=
  match fuel with
  | O => None
  | S fuel =>
      if last_name <? left
      then count_segments fuel (u64 (last_name * Z.of_nat XFS_NAMES_CNT)) left (S ccnt)
      else Some ccnt
  end.

Definition dirname_init : bytes :=
  bytes_of_string "d_____________________________________________" ++ zeroes 82.

(** [main] after its arguments are parsed and the directory is open. *)
Definition mksamehash (left : Z) : option mk :=
  ccnt ← count_segments 64 (Z.of_nat XFS_NAMES_CNT) left 1;
  xfs_iterate_name_segment (ccnt - 1) 0
    (Mk (overlay (1 + (1 + XFS_NAME_SEGMENT_LEN) * ccnt) [0] dirname_init) left []).

(** *** The names, in order *)

Definition with_segment (prefix s : string) : string := prefix +:+ "_" +:+ s.

Fixpoint names_from (prefix : string) (below : nat) : list string :=
  match below with
  | O => map (with_segment prefix) xfs_samehash
  | S below => xfs_samehash ≫= fun s => names_from (with_segment prefix s) below
  end.
End mksamehash.

(** ** Proofs *)

Lemma bytes_of_string_inj a b : bytes_of_string a = bytes_of_string b -> a = b.
Proof.
  revert b; induction a as [|c a IH]; intros [|d b] H; try done.
  injection H as Hc H. apply code_inj in Hc. f_equal; [done|]. by apply IH.
Qed.

Lemma segment_facts s :
  s ∈ xfs_samehash ->
  String.length s = 12%nat /\ hash_ref 0 (bytes_of_string s) = 912971179
  /\ Forall (fun c => 48 <= c < 128) (bytes_of_string s).
Proof.
  intros Hs. pose proof samehash_ok as Hok. rewrite forallb_forall in Hok.
  apply list_elem_of_In in Hs. specialize (Hok s Hs). unfold segment_ok in Hok.
  apply andb_prop in Hok as [Hok H3]. apply andb_prop in Hok as [H1 H2].
  apply Nat.eqb_eq in H1. rewrite length_bytes_of_string in H1. split; [done|]. split; [lia|].
  rewrite forallb_forall in H3. apply List.Forall_forall. intros c Hc. specialize (H3 c Hc). lia.
Qed.

(** A name of [cidx] segments. *)
Definition plain (cidx : nat) (p : string) : Prop :=
  String.length p = (1 + 13 * cidx)%nat /\ Forall (fun c => 48 <= c < 128) (bytes_of_string p).

Lemma plain_with_segment cidx p s : plain cidx p -> s ∈ xfs_samehash -> plain (S cidx) (with_segment p s).
Proof.
  intros [Hl Hp] Hs. destruct (segment_facts s Hs) as (Hsl & _ & Hc). unfold with_segment. split.
  - rewrite !string_length_app. simpl. lia.
  - rewrite !bytes_of_string_app. apply Forall_app_2, Forall_app_2; [done| |done].
    constructor; [vm_compute; split; congruence|constructor].
Qed.

Lemma names_plain below : forall cidx p n,
  plain cidx p -> n ∈ names_from p below -> plain (cidx + S below) n.
Proof.
  induction below as [|below IH]; intros cidx p n Hp Hn; cbn [names_from] in Hn.
  - apply list_elem_of_fmap in Hn as (s & -> & Hs). rewrite Nat.add_1_r. by apply plain_with_segment.
  - apply list_elem_of_bind in Hn as (s & Hn & Hs).
    replace (cidx + S (S below))%nat with (S cidx + S below)%nat by lia.
    apply (IH _ (with_segment p s)); [by apply plain_with_segment|done].
Qed.

Lemma names_prefix below : forall p n, n ∈ names_from p below -> exists t, n = p +:+ t.
Proof.
  induction below as [|below IH]; intros p n Hn; cbn [names_from] in Hn.
  - apply list_elem_of_fmap in Hn as (s & -> & Hs). by eexists.
  - apply list_elem_of_bind in Hn as (s & Hn & Hs). apply IH in Hn as [t ->].
    unfold with_segment. rewrite string_app_assoc. by eexists.
Qed.

Lemma names_nodup below : forall p, NoDup (names_from p below).
Proof.
  induction below as [|below IH]; intros p; cbn [names_from].
  - apply NoDup_fmap_2; [|apply samehash_nodup]. intros a b H. unfold with_segment in H.
    by apply string_app_inj_l, string_app_inj_l in H.
  - apply NoDup_bind; [|auto|apply samehash_nodup]. intros a b y Ha Hb Hya Hyb.
    apply names_prefix in Hya as [t ->]. apply names_prefix in Hyb as [u Hu].
    unfold with_segment in Hu. rewrite !string_app_assoc in Hu.
    apply string_app_inj_l, string_app_inj_l in Hu.
    apply (string_app_eq _ _ t u); [|done].
    destruct (segment_facts a Ha) as (-> & _). by destruct (segment_facts b Hb) as (-> & _).
Qed.

Lemma length_bind_const {A B} (f : A -> list B) k l :
  (forall a, length (f a) = k) -> length (l ≫= f) = (length l * k)%nat.
Proof.
  intros Hf. induction l as [|a l IH]; [done|]. change ((a :: l) ≫= f) with (f a ++ (l ≫= f)).
  rewrite length_app, IH, Hf. reflexivity.
Qed.

Lemma names_length below : forall p, length (names_from p below) = (XFS_NAMES_CNT ^ S below)%nat.
Proof.
  induction below as [|below IH]; intros p; cbn [names_from].
  - by rewrite length_map, samehash_length, Nat.pow_1_r.
  - rewrite (length_bind_const _ (XFS_NAMES_CNT ^ S below)) by auto.
    by rewrite samehash_length, (Nat.pow_succ_r' _ (S below)).
Qed.

(** Prefixes of one length and hash give names of one hash. *)
Lemma names_hash below : forall cidx p q n m,
  plain cidx p -> plain cidx q -> hash_ref 0 (bytes_of_string p) = hash_ref 0 (bytes_of_string q) ->
  n ∈ names_from p below -> m ∈ names_from q below ->
  hash_ref 0 (bytes_of_string n) = hash_ref 0 (bytes_of_string m).
Proof.
  assert (Hstep : forall p q s t cidx, plain cidx p -> plain cidx q ->
    hash_ref 0 (bytes_of_string p) = hash_ref 0 (bytes_of_string q) -> s ∈ xfs_samehash -> t ∈ xfs_samehash ->
    hash_ref 0 (bytes_of_string (with_segment p s)) = hash_ref 0 (bytes_of_string (with_segment q t))).
  { intros p q s t cidx [Hpl Hp] [Hql Hq] Heq Hs Ht.
    destruct (segment_facts s Hs) as (Hsl & Hsh & Hsc), (segment_facts t Ht) as (Htl & Hth & Htc).
    assert (forall l : bytes, Forall (fun c => 48 <= c < 128) l -> seven_bit l) as H7.
    { intros l. apply List.Forall_impl. intros. lia. }
    unfold with_segment. rewrite !bytes_of_string_app. unfold hash_ref in *. rewrite !fold_left_app, Heq.
    apply hash_ref_congr; [|by apply H7..|by rewrite !length_bytes_of_string, Hsl|unfold hash_ref; congruence].
    apply (hash_ref_range (bytes_of_string "_")); [|repeat constructor; vm_compute; congruence].
    apply hash_ref_range; [lia|by apply H7]. }
  induction below as [|below IH]; intros cidx p q n m Hp Hq Heq Hn Hm; cbn [names_from] in *.
  - apply list_elem_of_fmap in Hn as (s & -> & Hs). apply list_elem_of_fmap in Hm as (t & -> & Ht).
    by apply (Hstep p q s t cidx).
  - apply list_elem_of_bind in Hn as (s & Hn & Hs). apply list_elem_of_bind in Hm as (t & Hm & Ht).
    apply (IH (S cidx) (with_segment p s) (with_segment q t)); try done.
    + by apply plain_with_segment.
    + by apply plain_with_segment.
    + by apply (Hstep p q s t cidx).
Qed.

(** *** The buffer *)

Record buf_ok (ccnt cidx : nat) (prefix : string) (d : bytes) : Prop := {
  bo_length : length d = 128%nat;
  bo_level : (cidx <= ccnt)%nat;
  bo_room : (1 + 13 * ccnt < 128)%nat;
  bo_prefix : take (1 + 13 * cidx) d = bytes_of_string prefix;
  bo_sep : forall j, (cidx <= j < ccnt)%nat -> d !! (1 + 13 * j)%nat = Some 95;
  bo_end : d !! (1 + 13 * ccnt)%nat = Some 0 }.

Lemma overlay_lookup_r {A} off (src dst : list A) i :
  (off + length src <= i)%nat -> (off <= length dst)%nat -> overlay off src dst !! i = dst !! i.
Proof.
  intros Hi Hd. unfold overlay. rewrite lookup_app_r by (rewrite length_take; lia).
  rewrite length_take, lookup_app_r by lia. rewrite lookup_drop. f_equal. lia.
Qed.

Lemma overlay_take {A} off (src dst : list A) n :
  (n <= off <= length dst)%nat -> take n (overlay off src dst) = take n dst.
Proof. intros H. unfold overlay. rewrite take_app_le by (rewrite length_take; lia). rewrite take_take. f_equal. lia. Qed.

Lemma overlay_lookup_l {A} off (src dst : list A) i :
  (i < off <= length dst)%nat -> overlay off src dst !! i = dst !! i.
Proof.
  intros H. unfold overlay. rewrite lookup_app_l by (rewrite length_take; lia).
  apply lookup_take_lt. lia.
Qed.

Section segment.
Context (ccnt cidx : nat) (p s : string) (d : bytes).
Context (Hb : buf_ok ccnt cidx p d) (Hlt : (cidx < ccnt)%nat) (Hs : s ∈ xfs_samehash).

Lemma segment_length : length (bytes_of_string s) = 12%nat.
Proof. rewrite length_bytes_of_string. apply (segment_facts s Hs). Qed.

Lemma segment_inside : (seg_offset cidx + 12 <= 1 + 13 * ccnt)%nat.
Proof. unfold seg_offset, XFS_NAME_SEGMENT_LEN. lia. Qed.

(** The outer prefix survives, so the next segment can be put in its place. *)
Lemma put_keeps : buf_ok ccnt cidx p (overlay (seg_offset cidx) (bytes_of_string s) d).
Proof.
  destruct Hb as [Hl Hc Hr Hp Hsep He]. pose proof segment_length. pose proof segment_inside as Hi.
  unfold seg_offset, XFS_NAME_SEGMENT_LEN in *. constructor; try done.
  - rewrite length_overlay; lia.
  - rewrite overlay_take by lia. done.
  - intros j Hj. destruct (decide (j = cidx)) as [->|].
    + rewrite overlay_lookup_l by lia. apply Hsep. lia.
    + rewrite overlay_lookup_r by lia. apply Hsep. lia.
  - rewrite overlay_lookup_r by lia. done.
Qed.

Lemma put_extends : buf_ok ccnt (S cidx) (with_segment p s) (overlay (seg_offset cidx) (bytes_of_string s) d).
Proof.
  destruct put_keeps as [Hl Hc Hr Hp Hsep He]. pose proof segment_length as Hsl. pose proof segment_inside as Hi.
  constructor; try done.
  - unfold with_segment. rewrite !bytes_of_string_app, <- Hp.
    replace (1 + 13 * S cidx)%nat with (S (1 + 13 * cidx) + 12)%nat by lia.
    rewrite <- take_take_drop, (take_S_r _ _ 95) by (apply Hsep; lia). rewrite <- app_assoc.
    do 2 f_equal. unfold overlay, seg_offset, XFS_NAME_SEGMENT_LEN.
    rewrite drop_app_ge by (rewrite length_take; destruct Hb; lia).
    rewrite length_take. destruct Hb as [Hbl _ _ _ _ _].
    replace (S (1 + 13 * cidx) - (2 + (1 + 12) * cidx) `min` length d)%nat with 0%nat by lia.
    rewrite drop_0, take_app_le, take_ge by lia. done.
  - intros j Hj. apply Hsep. lia.
Qed.
End segment.

Lemma cstring_take d n bs :
  take n d = bs -> d !! n = Some 0 -> Forall (fun c => 48 <= c < 128) bs ->
  cstring d = string_of_bytes bs.
Proof.
  intros <- Hz. revert d Hz. induction n as [|n IH]; intros [|b d] Hz HF; try done.
  { simpl in Hz. injection Hz as ->. done. }
  simpl in *. inversion HF; subst. rewrite (proj2 (Z.eqb_neq b 0)) by lia. unfold string_of_bytes. simpl.
  f_equal. by apply IH.
Qed.

Lemma string_of_bytes_of_string s : string_of_bytes (bytes_of_string s) = s.
Proof.
  unfold string_of_bytes, bytes_of_string. induction s as [|c s IH]; [done|].
  simpl. rewrite chr_code. by f_equal.
Qed.

(** The name that is made. *)
Lemma full_name ccnt p d : buf_ok ccnt ccnt p d -> plain ccnt p -> cstring d = p.
Proof.
  intros [_ _ _ Hp _ He] [_ Hc]. rewrite (cstring_take d _ _ Hp He Hc). apply string_of_bytes_of_string.
Qed.

(** What a level leaves behind is still a buffer of the level above. *)
Lemma buf_ok_outer ccnt cidx p s d :
  plain cidx p -> buf_ok ccnt (S cidx) (with_segment p s) d -> buf_ok ccnt cidx p d.
Proof.
  intros [Hpl Hpc] [Hl Hc Hr Hp Hsep He].
  unfold with_segment in Hp. rewrite !bytes_of_string_app in Hp.
  assert (length (bytes_of_string p) = (1 + 13 * cidx)%nat) as Hbl by by rewrite length_bytes_of_string.
  constructor; try done; try lia.
  - assert (take (1 + 13 * cidx) (take (1 + 13 * S cidx) d) = bytes_of_string p) as H.
    { rewrite Hp, take_app_le, take_ge by lia. done. }
    rewrite take_take in H. rewrite <- H. f_equal. lia.
  - intros j Hj. destruct (decide (j = cidx)) as [->|]; [|apply Hsep; lia].
    rewrite <- (lookup_take_lt d (1 + 13 * S cidx)) by lia. rewrite Hp.
    rewrite lookup_app_r by lia. by rewrite Hbl, Nat.sub_diag.
Qed.

Section making.
Context (present : string -> bool).

Definition fresh (st : mk) (names : list string) : Prop :=
  NoDup (mk_made st ++ names) /\ Forall (fun n => present n = false) names /\ 0 <= mk_left st.

(** From [st] to [st'] the first names of the list were made. *)
Definition makes (st st' : mk) (names : list string) : Prop :=
  mk_left st' = mk_left st - Z.min (mk_left st) (Z.of_nat (length names))
  /\ mk_made st' = mk_made st ++ take (Z.to_nat (mk_left st)) names.

Lemma makes_app st st1 st2 a b :
  0 <= mk_left st -> makes st st1 a -> makes st1 st2 b -> makes st st2 (a ++ b).
Proof.
  intros H0 [Hl1 Hm1] [Hl2 Hm2]. split.
  - rewrite length_app. lia.
  - rewrite Hm2, Hm1, take_app, app_assoc. do 2 f_equal. lia.
Qed.

Lemma fresh_app st st1 a b :
  fresh st (a ++ b) -> makes st st1 a -> fresh st a /\ fresh st1 b.
Proof.
  intros (Hnd & HF & H0) [Hl Hm]. apply Forall_app in HF as [HFa HFb]. split.
  - split; [|done]. rewrite app_assoc in Hnd. by apply list.NoDup_app in Hnd as [? _].
  - split; [|split; [done|lia]]. rewrite Hm. eapply sublist_NoDup; [exact Hnd|].
    rewrite <- app_assoc. apply sublist_app, sublist_app; [done| |done]. apply sublist_take.
Qed.

Lemma mkdirat_fresh st n :
  fresh st [n] -> mkdirat present n st = Some (Mk (mk_dirname st) (mk_left st - 1) (mk_made st ++ [n])).
Proof.
  intros (Hnd & HF & _). unfold mkdirat. inversion HF as [|? ? Hp _]; subst. rewrite Hp. cbn [orb].
  destruct (existsb (streq n) (mk_made st)) eqn:E; [|done].
  apply existsb_exists in E as (m & Hm & He). apply streq_eq in He as <-.
  apply list.NoDup_app in Hnd as (_ & Hd & _). destruct (Hd n); [by apply list_elem_of_In|set_solver].
Qed.

Lemma last_level_makes cidx p segs : forall st,
  plain cidx p -> Forall (fun s => s ∈ xfs_samehash) segs -> buf_ok (S cidx) cidx p (mk_dirname st) ->
  fresh st (map (with_segment p) segs) ->
  exists st', last_level present cidx segs st = Some st' /\ makes st st' (map (with_segment p) segs)
    /\ buf_ok (S cidx) cidx p (mk_dirname st').
Proof.
  induction segs as [|s segs IH]; intros st Hp Hin Hb Hf.
  { exists st. split; [done|]. split; [|done]. split; simpl; [destruct Hf as (_ & _ & ?); lia|].
    by rewrite take_nil, app_nil_r. }
  inversion Hin as [|? ? Hs Hin']; subst. pose proof Hf as (_ & _ & H0).
  pose proof (put_keeps (S cidx) cidx p s _ Hb ltac:(lia) Hs) as Hk.
  pose proof (put_extends (S cidx) cidx p s _ Hb ltac:(lia) Hs) as He.
  cbn [last_level map]. cbv zeta. cbn [put_segment mk_left mk_dirname].
  rewrite (full_name (S cidx) (with_segment p s)) by (done || by apply plain_with_segment).
  destruct (Z.eqb_spec (mk_left st) 0) as [E|E].
  { eexists. split; [reflexivity|]. split; [|done]. split; cbn [put_segment mk_left mk_made]; rewrite E; [lia|].
    by rewrite app_nil_r. }
  set (st1 := put_segment cidx s st).
  set (st2 := Mk (mk_dirname st1) (mk_left st1 - 1) (mk_made st1 ++ [with_segment p s])).
  assert (makes st st2 [with_segment p s]) as Hm.
  { split; [simpl; lia|]. simpl. destruct (Z.to_nat (mk_left st)) as [|[]] eqn:Hn; [lia|done|done]. }
  destruct (fresh_app st st2 [with_segment p s] _ Hf Hm) as [Hf1 Hf2].
  rewrite (mkdirat_fresh st1) by exact Hf1. cbn [mbind option_bind].
  destruct (IH st2 Hp Hin' Hk Hf2) as (st' & Hr & Hm' & Hb').
  exists st'. split; [exact Hr|]. split; [|done].
  by apply (makes_app st st2 st' [with_segment p s]).
Qed.

Lemma upper_level_makes ccnt cidx p below next segs :
  (cidx < ccnt)%nat -> plain cidx p ->
  (forall s st, s ∈ xfs_samehash -> buf_ok ccnt (S cidx) (with_segment p s) (mk_dirname st) ->
     fresh st (names_from (with_segment p s) below) ->
     exists st', next st = Some st' /\ makes st st' (names_from (with_segment p s) below)
       /\ buf_ok ccnt (S cidx) (with_segment p s) (mk_dirname st')) ->
  forall st, Forall (fun s => s ∈ xfs_samehash) segs -> buf_ok ccnt cidx p (mk_dirname st) ->
  fresh st (segs ≫= fun s => names_from (with_segment p s) below) ->
  exists st', upper_level next cidx segs st = Some st'
    /\ makes st st' (segs ≫= fun s => names_from (with_segment p s) below)
    /\ buf_ok ccnt cidx p (mk_dirname st').
Proof.
  intros Hlt Hp Hnext. induction segs as [|s segs IH]; intros st Hin Hb Hf.
  { exists st. split; [done|]. split; [|done]. split; simpl; [destruct Hf as (_ & _ & ?); lia|].
    by rewrite take_nil, app_nil_r. }
  inversion Hin as [|? ? Hs Hin']; subst. pose proof Hf as (_ & _ & H0).
  change ((s :: segs) ≫= ?f) with (f s ++ (segs ≫= f)) in *.
  pose proof (put_extends ccnt cidx p s _ Hb Hlt Hs) as He.
  assert (fresh (put_segment cidx s st) (names_from (with_segment p s) below)) as Hf1.
  { destruct Hf as (Hnd & HF & _). apply Forall_app in HF as [HF _]. split; [|done].
    rewrite app_assoc in Hnd. by apply list.NoDup_app in Hnd as [? _]. }
  destruct (Hnext s (put_segment cidx s st) Hs He Hf1) as (st1 & Hr1 & Hm1 & Hb1).
  cbn [upper_level]. rewrite Hr1. cbn [mbind option_bind].
  destruct (fresh_app st st1 _ _ Hf Hm1) as [_ Hf2].
  destruct (IH st1 Hin' (buf_ok_outer _ _ _ _ _ Hp Hb1) Hf2) as (st' & Hr & Hm & Hb').
  exists st'. split; [exact Hr|]. split; [|done]. by apply (makes_app st st1 st').
Qed.

Lemma iterate_makes ccnt below : forall cidx p st,
  ccnt = (cidx + S below)%nat -> plain cidx p -> buf_ok ccnt cidx p (mk_dirname st) ->
  fresh st (names_from p below) ->
  exists st', xfs_iterate_name_segment present below cidx st = Some st'
    /\ makes st st' (names_from p below) /\ buf_ok ccnt cidx p (mk_dirname st').
Proof.
  assert (Forall (fun s => s ∈ xfs_samehash) xfs_samehash) as Hall by (by apply list.Forall_forall).
  induction below as [|below IH]; intros cidx p st -> Hp Hb Hf; cbn [xfs_iterate_name_segment names_from] in *.
  - rewrite Nat.add_1_r in *. by apply last_level_makes.
  - apply upper_level_makes; try done; [lia|]. intros s st1 Hs Hb1 Hf1.
    apply IH; [lia|by apply plain_with_segment|done|done].
Qed.
End making.

(** The number of segments is enough for the names asked for. *)
Lemma count_segments_step fuel last_name left ccnt :
  count_segments (S fuel) last_name left ccnt =
  if last_name <? left then count_segments fuel (u64 (last_name * 1000)) left (S ccnt) else Some ccnt.
Proof. reflexivity. Qed.

Lemma count_segments_enough left :
  0 <= left <= 1000 ^ 4 ->
  exists ccnt, count_segments 64 1000 left 1 = Some ccnt /\ (1 <= ccnt <= 4)%nat
    /\ left <= 1000 ^ Z.of_nat ccnt.
Proof.
  change (1000 ^ 4) with 1000000000000. intros Hl. rewrite count_segments_step.
  destruct (Z.ltb_spec 1000 left); [|exists 1%nat; split; [done|]; split; [lia|done]].
  rewrite count_segments_step. change (u64 (1000 * 1000)) with 1000000.
  destruct (Z.ltb_spec 1000000 left); [|exists 2%nat; split; [done|]; split; [lia|done]].
  rewrite count_segments_step. change (u64 (1000000 * 1000)) with 1000000000.
  destruct (Z.ltb_spec 1000000000 left); [|exists 3%nat; split; [done|]; split; [lia|done]].
  rewrite count_segments_step. change (u64 (1000000000 * 1000)) with 1000000000000.
  destruct (Z.ltb_spec 1000000000000 left); [lia|exists 4%nat; split; [done|]; split; [lia|done]].
Qed.

Lemma dirname_init_ok ccnt :
  (1 <= ccnt <= 4)%nat -> buf_ok ccnt 0 "d" (overlay (1 + 13 * ccnt) [0] dirname_init).
Proof.
  intros Hc. assert (ccnt = 1 \/ ccnt = 2 \/ ccnt = 3 \/ ccnt = 4)%nat as Hcases by lia.
  destruct Hcases as [-> | [-> | [-> | ->]]]; constructor; try reflexivity; try (vm_compute; lia).
  all: intros j Hj; assert (j = 0 \/ j = 1 \/ j = 2 \/ j = 3)%nat as Hcases by lia.
  all: destruct Hcases as [-> | [-> | [-> | ->]]]; first [reflexivity | lia].
Qed.

(** ** The counter of gensamehash *)

Definition NUM_LEN : nat := 10.

(** [increment] from the last digit back: '9' is followed by 'A', 'Z' by 'a',
    and 'z' by '0' with a carry.  The digits are given last first. *)
Fixpoint increment_rev (ds : bytes) : bytes :=
  match ds with
  | [] => []
  | d :: ds =>
      if d =? 57 then 65 :: ds
      else if d =? 90 then 97 :: ds
      else if d =? 122 then 48 :: increment_rev ds
      else u8 (d + 1) :: ds
  end.
Definition increment (num : bytes) : bytes := reverse (increment_rev (reverse num)).

(** The value of a digit, in the order 0-9, A-Z, a-z. *)
Definition digit62 (d : Z) : option Z :=
  if (48 <=? d) && (d <=? 57) then Some (d - 48)
  else if (65 <=? d) && (d <=? 90) then Some (d - 65 + 10)
  else if (97 <=? d) && (d <=? 122) then Some (d - 97 + 36)
  else None.
Fixpoint value_rev (ds : bytes) : option Z :=
  match ds with
  | [] => Some 0
  | d :: ds => x ← digit62 d; v ← value_rev ds; Some (x + 62 * v)
  end.
Definition value62 (num : bytes) : option Z := value_rev (reverse num).

Lemma digit62_range d x : digit62 d = Some x -> 0 <= x < 62.
Proof.
  unfold digit62. repeat (match goal with |- context [if ?b then _ else _] => destruct b eqn:? end);
    intros [= <-]; zbool; lia.
Qed.

Lemma value_rev_range ds : forall v, value_rev ds = Some v -> 0 <= v < 62 ^ Z.of_nat (length ds).
Proof.
  induction ds as [|d ds IH]; intros v H; cbn [value_rev] in H; [injection H as <-; simpl; lia|].
  destruct (digit62 d) as [x|] eqn:Hd; [|done]. destruct (value_rev ds) as [u|]; [|done].
  injection H as <-. apply digit62_range in Hd. specialize (IH u eq_refl).
  cbn [length]. rewrite Nat2Z.inj_succ, Z.pow_succ_r by lia. lia.
Qed.

Lemma increment_rev_value ds : forall v,
  value_rev ds = Some v ->
  value_rev (increment_rev ds) = Some ((v + 1) mod 62 ^ Z.of_nat (length ds)).
Proof.
  induction ds as [|d ds IH]; intros v H; cbn [value_rev] in H.
  { injection H as <-. done. }
  destruct (digit62 d) as [x|] eqn:Hd; [|done]. destruct (value_rev ds) as [u|] eqn:Hu; [|done].
  injection H as <-. pose proof (digit62_range d x Hd) as Hx. pose proof (value_rev_range ds u Hu) as Hr.
  cbn [length]. rewrite Nat2Z.inj_succ, Z.pow_succ_r by lia.
  set (m := 62 ^ Z.of_nat (length ds)) in *.
  destruct (decide (d = 122)) as [->|H122].
  - cbn [increment_rev Z.eqb Pos.eqb value_rev]. vm_compute in Hd. injection Hd as <-.
    rewrite (IH u eq_refl). cbn. f_equal.
    replace (61 + 62 * u + 1) with (62 * (u + 1)) by lia. rewrite Z.mul_mod_distr_l by lia. lia.
  - assert (exists d', increment_rev (d :: ds) = d' :: ds /\ digit62 d' = Some (x + 1)) as (d' & Hi & Hd').
    { cbn [increment_rev]. revert Hd. unfold digit62. rewrite (proj2 (Z.eqb_neq d 122)) by done.
      destruct (Z.eqb_spec d 57) as [->|]; [intros [= <-]; by eexists|].
      destruct (Z.eqb_spec d 90) as [->|]; [intros [= <-]; by eexists|].
      intros Hd. exists (u8 (d + 1)). split; [done|]. revert Hd.
      repeat (match goal with |- context [if ?b then _ else _] => destruct b eqn:? end); intros [= <-];
        zbool; rewrite u8_small in * by lia; try (f_equal; lia); lia. }
    rewrite Hi. cbn [value_rev]. rewrite Hd', Hu. cbn. f_equal.
    pose proof (digit62_range _ _ Hd'). rewrite Z.mod_small; lia.
Qed.

(** ** Claims *)

(** The hash computed four characters at a time is the XFS hash, one
    rotation and exclusive or per character, for every name of seven-bit
    characters. *)
Theorem xfs_hash_correct name : seven_bit name -> xfs_da_hashname name = hash_ref 0 name.
Proof. apply xfs_hash_ref. Qed.

Lemma xfs_hash_correct_witness :
  xfs_da_hashname (bytes_of_string "kernel.mnt") = hash_ref 0 (bytes_of_string "kernel.mnt").
Proof.
  apply xfs_hash_correct. repeat constructor; vm_compute; congruence.
Defined.

(** C28: mksamehash, asked for up to 10^12 directories in an empty place, makes
    exactly that many, all different and all with one and the same hash. *)
Theorem mksamehash_correct present left :
  0 <= left <= 1000 ^ 4 -> (forall n, present n = false) ->
  exists st, mksamehash present left = Some st
    /\ Z.of_nat (length (mk_made st)) = left /\ NoDup (mk_made st)
    /\ forall n m, n ∈ mk_made st -> m ∈ mk_made st ->
         xfs_da_hashname (bytes_of_string n) = xfs_da_hashname (bytes_of_string m).
Proof.
  intros Hl Hp. destruct (count_segments_enough left Hl) as (ccnt & Hc & H14 & Hen).
  unfold mksamehash. change (Z.of_nat XFS_NAMES_CNT) with 1000. rewrite Hc. cbn [mbind option_bind].
  assert (plain 0 "d") as Hd by (split; [done|]; constructor; [vm_compute; split; congruence|constructor]).
  set (st0 := Mk _ left []).
  destruct (iterate_makes present ccnt (ccnt - 1) 0 "d" st0) as (st & Hr & [Hleft Hmade] & _).
  { lia. }
  { done. }
  { by apply dirname_init_ok. }
  { split; [apply names_nodup|]. split; [by apply list.Forall_forall|]. simpl. lia. }
  assert (Hlen : Z.of_nat (length (names_from "d" (ccnt - 1))) = 1000 ^ Z.of_nat ccnt).
  { rewrite names_length. replace (S (ccnt - 1)) with ccnt by lia. rewrite Nat2Z.inj_pow. done. }
  simpl in Hmade. exists st. split; [exact Hr|]. rewrite Hmade. split; [|split].
  - rewrite length_take. lia.
  - eapply sublist_NoDup; [apply (names_nodup (ccnt - 1) "d")|apply sublist_take].
  - intros n m Hn Hm. apply elem_of_take in Hn as (i & Hn & _). apply elem_of_take in Hm as (j & Hm & _).
    apply list_elem_of_lookup_2 in Hn, Hm.
    assert (forall x, x ∈ names_from "d" (ccnt - 1) -> seven_bit (bytes_of_string x)) as H7.
    { intros x Hx. destruct (names_plain _ _ _ _ Hd Hx) as [_ HF]. revert HF. apply List.Forall_impl. intros; lia. }
    rewrite !xfs_hash_ref by auto.
    by apply (names_hash (ccnt - 1) 0 "d" "d").
Qed.

Lemma mksamehash_correct_witness :
  exists st, mksamehash (fun _ => false) 1500 = Some st
    /\ Z.of_nat (length (mk_made st)) = 1500 /\ NoDup (mk_made st)
    /\ forall n m, n ∈ mk_made st -> m ∈ mk_made st ->
         xfs_da_hashname (bytes_of_string n) = xfs_da_hashname (bytes_of_string m).
Proof. apply (mksamehash_correct (fun _ => false) 1500); [lia|reflexivity]. Defined.

(** [increment] counts: it adds one to the number the ten characters spell
    in base 62, and starts again from zero at the end. *)
Theorem increment_counts num v :
  value62 num = Some v -> value62 (increment num) = Some ((v + 1) mod 62 ^ Z.of_nat (length num)).
Proof.
  intros H. unfold value62, increment. rewrite reverse_involutive.
  rewrite <- (length_reverse num). by apply increment_rev_value.
Qed.

Lemma increment_counts_witness :
  value62 (bytes_of_string "000000009z") = Some 619
  /\ value62 (increment (bytes_of_string "000000009z")) = Some ((619 + 1) mod 62 ^ Z.of_nat 10).
Proof. split; [reflexivity|]. apply (increment_counts (bytes_of_string "000000009z") 619). reflexivity. Defined.

