(* ===== verification/TestFiles.v ===== *)
(** tools/mkfilepattern.c, tools/mkdirrange.c, tools/mkdoubledirs.c and
    tools/randdir.c: the tools that prepare file system images for the tests. *)
From S2P Require Import Prelude CLib.

(** ** mkfilepattern *)
Module Pattern.

Definition BUF_LEN : Z := 0x10.

(** The item stored at file position [p]: the position itself, in as many bytes
    as it needs. *)
Definition item (p : Z) : bytes :=
  if p <? 0x100 then le_bytes 1 p
  else if p <? 0x10000 then le_bytes 2 p
  else if p <? 0x100000000 then le_bytes 4 p
  else le_bytes 8 p.

(** [while (off < count)]; a store beyond the [BUF_LEN + 7] bytes is [None]. *)
Fixpoint fill (fuel : nat) (pos off count : Z) (buf : bytes) : option bytes :=
  match fuel with
  | O => None
  | S fuel =>
      if off <? count then
        let it := item (pos + off) in
        if Z.of_nat (length buf) <? off + Z.of_nat (length it) then None
        else fill fuel pos (off + Z.of_nat (length it)) count (overlay (Z.to_nat off) it buf)
      else Some buf
  end.

(** The outer loop: what is written, from file position [pos] on. *)
Fixpoint chunks (fuel : nat) (pos stop count : Z) (buf : bytes) : option bytes :=
  match fuel with
  | O => None
  | S fuel =>
      if pos <? stop then
        let count := if stop - pos <? count then stop - pos else count in
        buf ← fill (S (Z.to_nat count)) pos 0 count buf;
        rest ← chunks fuel (pos + count) stop count buf;
        Some (take (Z.to_nat count) buf ++ rest)
      else Some []
  end.

(** [main] after its arguments are parsed; [junk] is the uninitialised buffer. *)
Definition mkfilepattern (offset len : Z) (junk : bytes) : option bytes :=
  chunks (S (Z.to_nat len)) offset (offset + len) BUF_LEN junk.

Lemma item_length p : (1 <= length (item p) <= 8)%nat.
Proof.
  unfold item. repeat (match goal with |- context [if ?b then _ else _] => destruct b end);
    rewrite length_le_bytes; lia.
Qed.

(** The buffer is large enough for every position, and the loop ends; the
    bytes already filled in stay. *)
Lemma fill_total fuel : forall pos off count buf,
  length buf = 23%nat -> 0 <= off -> count <= BUF_LEN -> count - off < Z.of_nat fuel -> (0 < fuel)%nat ->
  exists buf', fill fuel pos off count buf = Some buf' /\ length buf' = 23%nat
    /\ take (Z.to_nat off) buf' = take (Z.to_nat off) buf.
Proof.
  induction fuel as [|fuel IH]; intros pos off count buf Hl Ho Hc Hf H0; [lia|]. cbn [fill].
  destruct (Z.ltb_spec off count); [|by exists buf].
  pose proof (item_length (pos + off)) as Hi. cbv zeta. rewrite Hl. unfold BUF_LEN in Hc.
  rewrite (proj2 (Z.ltb_ge _ _)) by lia.
  set (it := item (pos + off)) in *.
  destruct (IH pos (off + Z.of_nat (length it)) count (overlay (Z.to_nat off) it buf)) as (buf' & Hr & Hl' & Ht);
    [rewrite length_overlay; lia|lia|done|lia|lia|].
  exists buf'. split; [exact Hr|]. split; [done|].
  apply (f_equal (take (Z.to_nat off))) in Ht. rewrite !take_take in Ht.
  rewrite Nat.min_l in Ht by lia. rewrite Ht. unfold overlay.
  rewrite take_app_le by (rewrite length_take; lia). rewrite take_take. f_equal. lia.
Qed.

(** Items of one width [w] lie side by side. *)
Lemma fill_items fuel w : forall pos off count buf buf',
  length buf = 23%nat -> 0 <= off -> count <= BUF_LEN -> count - off < Z.of_nat fuel ->
  (forall j, off <= j < count -> item (pos + j) = le_bytes w (pos + j)) -> (0 < w <= 8)%nat ->
  fill fuel pos off count buf = Some buf' ->
  forall k, off + k * Z.of_nat w < count -> 0 <= k ->
    sub buf' (Z.to_nat (off + k * Z.of_nat w)) w = le_bytes w (pos + (off + k * Z.of_nat w)).
Proof.
  induction fuel as [|fuel IH]; intros pos off count buf buf' Hl Ho Hc Hf Hit Hw Hfill k Hk Hk0; [done|].
  cbn [fill] in Hfill. rewrite (proj2 (Z.ltb_lt off count)) in Hfill by lia. cbv zeta in Hfill.
  rewrite (Hit off), length_le_bytes in Hfill by lia.
  destruct (Z.ltb_spec (Z.of_nat (length buf)) (off + Z.of_nat w)) as [|Hroom]; [done|].
  set (buf1 := overlay (Z.to_nat off) (le_bytes w (pos + off)) buf) in *.
  assert (length buf1 = 23%nat) as Hl1 by (unfold buf1; rewrite length_overlay; rewrite ?length_le_bytes; lia).
  destruct (decide (k = 0)) as [->|Hne].
  - replace (off + 0 * Z.of_nat w) with off by lia.
    assert (take (Z.to_nat (off + Z.of_nat w)) buf' = take (Z.to_nat (off + Z.of_nat w)) buf1) as Ht.
    { destruct (decide (0 < fuel)%nat) as [H0|]; [|destruct fuel; [done|lia]].
      destruct (fill_total fuel pos (off + Z.of_nat w) count buf1) as (b & Hb & _ & Ht); [lia..|].
      congruence. }
    replace (Z.to_nat (off + Z.of_nat w)) with (Z.to_nat off + w)%nat in Ht by lia.
    unfold sub. apply (f_equal (drop (Z.to_nat off))) in Ht. rewrite !skipn_firstn_comm in Ht.
    replace (Z.to_nat off + w - Z.to_nat off)%nat with w in Ht by lia. rewrite Ht. unfold buf1, overlay.
    rewrite drop_app_ge by (rewrite length_take; lia). rewrite length_take.
    replace (Z.to_nat off - Z.to_nat off `min` length buf)%nat with 0%nat by lia.
    rewrite drop_0, take_app_le, take_ge by (rewrite length_le_bytes; lia). done.
  - replace (off + k * Z.of_nat w) with (off + Z.of_nat w + (k - 1) * Z.of_nat w) by lia.
    apply (IH pos (off + Z.of_nat w) count buf1); try done; try lia. intros j Hj. apply Hit. lia.
Qed.

(** The number of bytes of an item. *)
Definition width (p : Z) : nat :=
  if p <? 0x100 then 1 else if p <? 0x10000 then 2 else if p <? 0x100000000 then 4 else 8.

Lemma item_width p : item p = le_bytes (width p) p.
Proof. unfold item, width. by repeat (match goal with |- context [if ?b then _ else _] => destruct b end). Qed.

Lemma width_divides p : (width p = 1 \/ width p = 2 \/ width p = 4 \/ width p = 8)%nat.
Proof. unfold width. repeat (match goal with |- context [if ?b then _ else _] => destruct b end); auto. Qed.

(** Within a chunk that starts at a multiple of 16 the width is constant. *)
Lemma width_chunk q j : 0 <= j < 16 -> width (16 * q + j) = width (16 * q).
Proof.
  intros Hj. unfold width.
  repeat (match goal with |- context [?a <? ?b] => destruct (Z.ltb_spec a b) end); lia || done.
Qed.

Definition pattern_at (pos stop : Z) (data : bytes) : Prop :=
  forall a, pos <= a -> a mod Z.of_nat (width a) = 0 -> a + Z.of_nat (width a) <= stop ->
    sub data (Z.to_nat (a - pos)) (width a) = le_bytes (width a) a.

(** An aligned position inside a chunk is a whole number of items from its
    start, and its item ends inside the chunk. *)
Lemma aligned_in_chunk q a :
  16 * q <= a < 16 * q + 16 -> a mod Z.of_nat (width a) = 0 ->
  width a = width (16 * q) /\ a + Z.of_nat (width a) <= 16 * q + 16
  /\ exists k, a - 16 * q = k * Z.of_nat (width a) /\ 0 <= k.
Proof.
  intros Ha Hmod.
  assert (width a = width (16 * q)) as Hw
    by (replace a with (16 * q + (a - 16 * q)) by lia; apply width_chunk; lia).
  split; [done|]. set (w := Z.of_nat (width a)) in *.
  assert (0 < w /\ 16 mod w = 0) as [Hw0 Hw16].
  { subst w. destruct (width_divides a) as [->|[->|[->| ->]]]; split; done || lia. }
  assert (Hk : (a - 16 * q) mod w = 0).
  { rewrite Zminus_mod, Hmod, Z.mul_comm, Z.mul_mod, Hw16 by lia. rewrite Z.mul_0_r, Zmod_0_l. done. }
  set (k := (a - 16 * q) / w). assert (a - 16 * q = k * w /\ 0 <= k) as [Hk1 Hk0].
  { subst k. pose proof (Z.div_mod (a - 16 * q) w). pose proof (Z.div_pos (a - 16 * q) w). lia. }
  split; [|by exists k].
  assert (exists m, 16 = w * m) as [m Hm] by (exists (16 / w); apply Z.div_exact; lia).
  assert (k < m) by nia. nia.
Qed.

(** A chunk of items, cut to [count], and the rest of the file. *)
Lemma chunk_then_rest q stop count buf rest :
  (Z.to_nat count <= length buf)%nat -> 0 < count <= 16 -> count <= stop - 16 * q ->
  (count < 16 -> count = stop - 16 * q) ->
  (forall k, k * Z.of_nat (width (16 * q)) < count -> 0 <= k ->
     sub buf (Z.to_nat (k * Z.of_nat (width (16 * q)))) (width (16 * q))
     = le_bytes (width (16 * q)) (16 * q + k * Z.of_nat (width (16 * q)))) ->
  (count = 16 -> pattern_at (16 * (q + 1)) stop rest) ->
  pattern_at (16 * q) stop (take (Z.to_nat count) buf ++ rest).
Proof.
  intros Hl Hc Hcs Hlast Hit Hrest a Ha Hmod Hs.
  destruct (Z.lt_ge_cases a (16 * q + 16)) as [Hin|Hout].
  - destruct (aligned_in_chunk q a) as (Hw & Hend & k & Hk & Hk0); [lia|done|].
    pose proof (width_divides a).
    rewrite sub_app_l by (rewrite length_take; lia).
    rewrite Hw in *. specialize (Hit k ltac:(lia) Hk0). rewrite <- Hk in Hit.
    replace (16 * q + (a - 16 * q)) with a in Hit by lia. rewrite <- Hit.
    unfold sub. rewrite skipn_firstn_comm, take_take. f_equal. lia.
  - assert (count = 16) as E by lia. rewrite sub_app_r by (rewrite length_take; lia). rewrite length_take.
    replace (Z.to_nat (a - 16 * q) - Z.to_nat count `min` length buf)%nat
      with (Z.to_nat (a - 16 * (q + 1))) by lia.
    apply Hrest; [done|lia|done|done].
Qed.

Lemma chunks_pattern fuel : forall q stop buf,
  length buf = 23%nat -> stop - 16 * q < Z.of_nat fuel -> (0 < fuel)%nat ->
  exists data, chunks fuel (16 * q) stop BUF_LEN buf = Some data
    /\ Z.of_nat (length data) = Z.max 0 (stop - 16 * q) /\ pattern_at (16 * q) stop data.
Proof.
  induction fuel as [|fuel IH]; intros q stop buf Hl Hf H0; [lia|]. cbn [chunks].
  destruct (Z.ltb_spec (16 * q) stop).
  2: { exists []. split; [done|]. split; [simpl; lia|]. intros a Ha _ Hs. destruct (width_divides a); lia. }
  set (count := if stop - 16 * q <? BUF_LEN then stop - 16 * q else BUF_LEN).
  assert (0 < count <= 16 /\ count <= stop - 16 * q /\ (count < 16 -> count = stop - 16 * q)) as (Hc & Hcs & Hlast).
  { subst count. unfold BUF_LEN. destruct (Z.ltb_spec (stop - 16 * q) 16); lia. }
  destruct (fill_total (S (Z.to_nat count)) (16 * q) 0 count buf) as (buf' & Hfill & Hl' & _);
    [done|lia|unfold BUF_LEN; lia|lia|lia|].
  cbv zeta. rewrite Hfill. cbn [mbind option_bind].
  assert (exists rest, chunks fuel (16 * q + count) stop count buf' = Some rest
    /\ Z.of_nat (length rest) = stop - 16 * q - count
    /\ (count = 16 -> pattern_at (16 * (q + 1)) stop rest)) as (rest & -> & Hlr & Hpr).
  { destruct (decide (count = 16)) as [E|E].
    - destruct (IH (q + 1) stop buf') as (rest & Hr & Hlr & Hp); [done|lia|lia|].
      exists rest. rewrite E. replace (16 * q + 16) with (16 * (q + 1)) by lia. split; [exact Hr|].
      split; [lia|]. by intros _.
    - exists []. destruct fuel as [|fuel]; [lia|]. cbn [chunks].
      rewrite (proj2 (Z.ltb_ge _ _)) by lia. split; [done|]. split; [simpl; lia|lia]. }
  cbn [mbind option_bind]. eexists. split; [reflexivity|]. split.
  { rewrite length_app, length_take, Hl'. lia. }
  apply chunk_then_rest; [lia|lia|lia|lia| |done]. intros k Hk Hk0.
  apply (fill_items (S (Z.to_nat count)) (width (16 * q)) (16 * q) 0 count buf buf'); try done; try lia.
  - unfold BUF_LEN. lia.
  - intros j Hj. rewrite item_width. f_equal. apply width_chunk. lia.
  - destruct (width_divides (16 * q)); lia.
Qed.
End Pattern.

(** ** mkdirrange *)
Module Range.

(** [sprintf(dirname, "d%10.10u_", current)] into the 256 bytes that are
    otherwise 'x', then the end of the string at [length]; [None]: a division
    by zero or an index outside the buffer. *)
Definition head (current : Z) : string := "d" +:+ prec 10 (fmt_u current) +:+ "_".

Definition dir_name (pat_min pat_max current : Z) : option string :=
  if u32 pat_max =? 0 then None else
  let length := s32 (strlen (head current) + (u32 pat_min + current mod u32 pat_max)) in
  if (0 <=? length) && (length <? 256)
  then Some (str_take (Z.to_nat length) (head current +:+ str_repeat 256 "x"%char)) else None.

(** The names of the [n] directories from [current] on, in order; where mkdirat
    refuses one the program exits, with the directories before it made. *)
Fixpoint mkdirrange (n : nat) (current pat_min pat_max : Z) : option (list string) :=
  match n with
  | O => Some []
  | S n => d ← dir_name pat_min pat_max current; ds ← mkdirrange n (current + 1) pat_min pat_max; Some (d :: ds)
  end.

Lemma digits_length fuel : forall n acc k,
  0 <= n < 10 ^ Z.of_nat k -> (1 <= k)%nat ->
  (String.length (digits_fuel fuel 10 n acc) <= k + String.length acc)%nat.
Proof.
  induction fuel as [|fuel IH]; intros n acc k Hn Hk; simpl; [lia|].
  destruct (Z.ltb_spec n 10); simpl; [lia|].
  destruct k as [|[|k]]; [lia|simpl in Hn; lia|].
  specialize (IH (n / 10) (String (digit_char (n mod 10)) acc) (S k)).
  rewrite (Nat2Z.inj_succ (S k)), Z.pow_succ_r in Hn by lia. simpl String.length in IH.
  assert (0 <= n / 10 < 10 ^ Z.of_nat (S k)) by (split; [apply Z.div_pos; lia|apply Z.div_lt_upper_bound; lia]).
  specialize (IH ltac:(done) ltac:(lia)). lia.
Qed.

Lemma str_repeat_length n c : String.length (str_repeat n c) = n.
Proof. induction n; simpl; auto. Qed.

Lemma head_length n : 0 <= n < 2 ^ 32 -> strlen (head n) = 12.
Proof.
  intros Hn. unfold strlen, head, prec. rewrite !string_length_app, str_repeat_length.
  assert (String.length (fmt_u n) <= 10 + 0)%nat.
  { unfold fmt_u, fmt_base. apply (digits_length _ n "" 10); [|lia].
    change (10 ^ Z.of_nat 10) with 10000000000. lia. }
  simpl String.length. lia.
Qed.

Lemma scan_zeros k : forall s, scan_digits 10 0 (str_repeat k (chr 48) +:+ s) = scan_digits 10 0 s.
Proof. induction k as [|k IH]; intros s; [done|]. cbn [str_repeat]. rewrite string_app_cons. apply IH. Qed.

(** The number can be read back from a name that starts so. *)
Lemma head_injective a b s t : 0 <= a -> 0 <= b -> head a +:+ s = head b +:+ t -> a = b.
Proof.
  intros Ha Hb H.
  assert (Hscan : forall n s, 0 <= n -> scan_digits 10 0 (str_drop 1 (head n +:+ s)) = (n, "_" +:+ s)).
  { intros n u Hn. unfold head. rewrite !string_app_assoc, string_app_cons. cbn [str_drop].
    change ("" +:+ ?x) with x. unfold prec. rewrite string_app_assoc, scan_zeros.
    unfold fmt_u, fmt_base. rewrite digits_fuel_append. change ("" +:+ ?x) with x.
    rewrite scan_fmt_base by lia. done. }
  apply (f_equal (fun x => fst (scan_digits 10 0 (str_drop 1 x)))) in H. by rewrite !Hscan in H.
Qed.

Lemma str_take_app n a b : str_take (String.length a + n) (a +:+ b) = a +:+ str_take n b.
Proof. induction a as [|c a IH]; [done|]. rewrite !string_app_cons. simpl. by rewrite IH. Qed.

Lemma str_take_repeat n m c : (n <= m)%nat -> str_take n (str_repeat m c) = str_repeat n c.
Proof. revert m; induction n as [|n IH]; intros [|m] H; simpl; try done; [lia|]. f_equal. apply IH. lia. Qed.

Lemma dir_name_spec pat_min pat_max n :
  0 <= pat_min -> 0 < pat_max -> pat_min + pat_max <= 244 -> 0 <= n < 2 ^ 32 ->
  dir_name pat_min pat_max n = Some (head n +:+ str_repeat (Z.to_nat (pat_min + n mod pat_max)) "x"%char).
Proof.
  intros Hmin Hmax Hsum Hn. unfold dir_name. rewrite !u32_small by lia.
  rewrite (proj2 (Z.eqb_neq pat_max 0)) by lia. cbv zeta. rewrite head_length by done.
  pose proof (Z.mod_pos_bound n pat_max ltac:(lia)). rewrite s32_id by lia.
  rewrite (proj2 (Z.leb_le 0 _)), (proj2 (Z.ltb_lt _ 256)) by lia. cbn [andb]. f_equal.
  pose proof (head_length n Hn) as Hl. unfold strlen in Hl.
  replace (Z.to_nat (12 + (pat_min + n mod pat_max)))
    with (String.length (head n) + Z.to_nat (pat_min + n mod pat_max))%nat by lia.
  rewrite str_take_app, str_take_repeat by lia. done.
Qed.

Lemma mkdirrange_names n : forall current pat_min pat_max,
  0 <= pat_min -> 0 < pat_max -> pat_min + pat_max <= 244 -> 0 <= current -> current + Z.of_nat n <= 2 ^ 32 ->
  mkdirrange n current pat_min pat_max =
  Some (map (fun c => head c +:+ str_repeat (Z.to_nat (pat_min + c mod pat_max)) "x"%char) (seqZ current (Z.of_nat n))).
Proof.
  induction n as [|n IH]; intros current pat_min pat_max Hmin Hmax Hs Hc Hn; [done|].
  cbn [mkdirrange]. rewrite dir_name_spec by lia. cbn [mbind option_bind].
  rewrite IH by lia. cbn [mbind option_bind]. rewrite (seqZ_cons current) by lia.
  cbn [map]. do 3 f_equal. f_equal. lia.
Qed.
End Range.

(** ** mkdoubledirs *)
Module Double.

(** [sprintf] into 256 bytes; the same name is made inside the directory.  The
    program exits where mkdirat refuses a name. *)
Definition dir_name (prefix : string) (cur : Z) : option string :=
  let name := prefix +:+ prec 10 (fmt_u cur) in
  if strlen name <? 256 then Some name else None.

Fixpoint mkdoubledirs (n : nat) (prefix : string) (cur : Z) : option (list (string * string)) :=
  match n with
  | O => Some []
  | S n => d ← dir_name prefix cur; ds ← mkdoubledirs n prefix (cur + 1); Some ((d, d +:+ "/" +:+ d) :: ds)
  end.
End Double.

(** ** randdir *)
Module Random.

(** The 26 letters and the NUL of the literal: [sizeof] counts it. *)
Definition printables : bytes := bytes_of_string "ABCDEFGHIJKLMNOPQRSTUVWXYZ" ++ [0].
Definition printables_cnt : Z := 27.

Definition uint_hash (x : Z) : Z :=
  let x := u32 (((x >> 16) .^ x) * 0x45d9f3b) in
  let x := u32 (((x >> 16) .^ x) * 0x45d9f3b) in
  (x >> 16) .^ x.

Definition header : bytes := bytes_of_string "<FILE>".
Definition footer : bytes := bytes_of_string "</FILE>".

(** Byte [i] of the data: [path] is not empty. *)
Definition data_byte (path : string) (seed i : Z) : Z :=
  u8 (uint_hash i .^ char_at path (Z.to_nat (i mod strlen path)) .^ seed).

Definition store (off : Z) (src dst : bytes) : option bytes :=
  if off + Z.of_nat (length src) <=? Z.of_nat (length dst)
  then Some (overlay (Z.to_nat off) src dst) else None.

(** The contents of a file; sizes are [size_t], 64 bits.  [None]: division by
    zero, or a store outside the allocated bytes. *)
Definition create_file (path : string) (max_size seed : Z) : option bytes :=
  if (max_size =? 0) || (strlen path =? 0) then None else
  let data_size := seed mod max_size in
  let data_size := if max_size <? data_size + 13 then u64 (max_size - 13) else data_size in
  let stop := u64 (6 + data_size) in
  contents ← store 0 header (zeroes (Z.to_nat (u64 (data_size + 13))));
  if Z.of_nat (length contents) <? stop then None else
  contents ← store 6 (map (data_byte path seed) (seqZ 6 (stop - 6))) contents;
  store stop footer contents.

Definition path_go_back (path : string) : string :=
  match strrchr path "/"%char with
  | Some last => str_take (String.length path - String.length last) path
  | None => path
  end.

Definition name_char (seed i : Z) : Z :=
  default 0 (printables !! Z.to_nat (u32 (seed .^ u32 (139 * i)) mod printables_cnt)).

Definition path_append_impl (path : string) (path_max name_max seed : Z) : option string :=
  if name_max =? 0 then None else
  let name_len := if seed mod name_max =? 0 then 1 else seed mod name_max in
  if path_max <=? strlen path + 1 + name_len then Some path
  else Some (path +:+ "/" +:+ cstring (map (name_char seed) (seqZ 0 name_len))).

Section tree.
(** The directory tree on the host: what exists, [mkdirat], and creating a
    file; [None] is a failure, after which the tool exits. *)
Context {T : Type} (exists_ : T -> string -> bool) (mkdir : T -> string -> option T)
  (create : T -> string -> bytes -> option T).

Fixpoint path_append (fuel : nat) (t : T) (path : string) (path_max name_max seed : Z) : option string :=
  match fuel with
  | O => None
  | S fuel =>
      path ← path_append_impl path path_max name_max seed;
      if exists_ t path then path_append fuel t (path_go_back path) path_max name_max (uint_hash seed)
      else Some path
  end.

Definition in_range (v begin end_ : Z) : bool := (begin <=? v) && (v <=? end_).

(** One round of the loop in [main]. *)
Definition round (fuel : nat) (path_max name_max file_size_max i : Z) (s : T * string) : option (T * string) :=
  let '(t, path) := s in
  let h := uint_hash i in
  if in_range (h mod 100) 85 99 then
    path ← path_append fuel t path path_max name_max h;
    t ← mkdir t path; Some (t, path)
  else
    let path := if in_range (h mod 100) 0 14 then path_go_back path else path in
    path ← path_append fuel t path path_max name_max h;
    b ← create_file path file_size_max h;
    t ← create t path b; Some (t, path_go_back path).

Fixpoint randdir (n : nat) (fuel : nat) (path_max name_max file_size_max i : Z) (s : T * string)
  : option (T * string) :=
  match n with
  | O => Some s
  | S n => s ← round fuel path_max name_max file_size_max i s;
           randdir n fuel path_max name_max file_size_max (i + 1) s
  end.
End tree.

Lemma store_append (a b c : bytes) :
  store (Z.of_nat (length a)) b (a ++ zeroes (length b + length c)) = Some (a ++ b ++ zeroes (length c)).
Proof.
  unfold store, zeroes. rewrite length_app, length_replicate. rewrite (proj2 (Z.leb_le _ _)) by lia. f_equal.
  unfold overlay. rewrite Nat2Z.id. rewrite take_app_le, take_ge by lia. do 2 f_equal.
  rewrite drop_app_ge by lia. rewrite replicate_add.
  replace (length a + length b - length a)%nat with (length (replicate (length b) 0)) by (rewrite length_replicate; lia).
  apply drop_app_length.
Qed.

(** The layout of a file: header, data, footer. *)
Definition data_of (max_size seed : Z) : Z := Z.min (seed mod max_size) (max_size - 13).

Lemma create_file_parts path max_size seed :
  13 <= max_size < 2 ^ 63 -> 0 <= seed -> path <> "" ->
  create_file path max_size seed =
  Some (header ++ map (data_byte path seed) (seqZ 6 (data_of max_size seed)) ++ footer).
Proof.
  intros Hm Hs Hp. unfold create_file, data_of.
  assert (strlen path <> 0) as Hpl by (unfold strlen; destruct path; [done|simpl; lia]).
  rewrite (proj2 (Z.eqb_neq max_size 0)), (proj2 (Z.eqb_neq (strlen path) 0)) by lia. cbn [orb].
  pose proof (Z.mod_pos_bound seed max_size ltac:(lia)) as Hr.
  set (d := if max_size <? seed mod max_size + 13 then u64 (max_size - 13) else seed mod max_size).
  assert (d = Z.min (seed mod max_size) (max_size - 13)) as Hd.
  { subst d. destruct (Z.ltb_spec max_size (seed mod max_size + 13)); [rewrite u64_small|]; lia. }
  cbv zeta. rewrite <- Hd. assert (0 <= d <= max_size - 13) by lia.
  rewrite !u64_small by lia. replace (6 + d - 6) with d by lia.
  set (data := map (data_byte path seed) (seqZ 6 d)).
  assert (length data = Z.to_nat d) as Hld by (subst data; rewrite length_map, length_seqZ; lia).
  replace (Z.to_nat (d + 13)) with (length header + length (data ++ footer))%nat
    by (rewrite length_app, Hld; cbn [length header footer]; simpl; lia).
  pose proof (store_append [] header (data ++ footer)) as E1. cbn [length app] in E1.
  change (Z.of_nat 0) with 0 in E1. rewrite E1. cbn [mbind option_bind].
  rewrite !length_app. unfold zeroes at 1. rewrite length_replicate, (proj2 (Z.ltb_ge _ _))
    by (rewrite Hld; simpl; lia).
  pose proof (store_append header data footer) as E2. change (Z.of_nat (length header)) with 6 in E2.
  rewrite E2. cbn [mbind option_bind].
  pose proof (store_append (header ++ data) footer []) as E3.
  rewrite <- !app_assoc, length_app, Hld, Nat.add_0_r in E3. cbn [zeroes replicate length] in E3.
  rewrite !app_nil_r in E3. rewrite <- E3. f_equal. simpl. lia.
Qed.

(** [path_buf] has [path_max + 1] bytes. *)
Definition path_fits (path_max : Z) (path : string) : Prop := strlen path <= Z.max 1 (path_max - 1).

Lemma str_take_length n s : (String.length (str_take n s) <= String.length s)%nat.
Proof. revert s; induction n as [|n IH]; intros [|c s]; simpl; try lia. specialize (IH s). lia. Qed.

Lemma cstring_length bs : (String.length (cstring bs) <= length bs)%nat.
Proof. induction bs as [|b bs IH]; simpl; [lia|]. destruct (b =? 0); simpl; lia. Qed.

Lemma go_back_fits path_max path : path_fits path_max path -> path_fits path_max (path_go_back path).
Proof.
  unfold path_fits, path_go_back, strlen. destruct (strrchr path _); [|done].
  pose proof (str_take_length (String.length path - String.length s) path). lia.
Qed.

Lemma append_impl_fits path path_max name_max seed path' :
  0 < name_max -> 0 <= seed -> path_fits path_max path ->
  path_append_impl path path_max name_max seed = Some path' -> path_fits path_max path'.
Proof.
  unfold path_append_impl, path_fits. intros Hn Hs Hp. rewrite (proj2 (Z.eqb_neq name_max 0)) by lia.
  cbv zeta. set (len := if seed mod name_max =? 0 then 1 else seed mod name_max).
  assert (1 <= len) as Hlen.
  { pose proof (Z.mod_pos_bound seed name_max ltac:(lia)). subst len.
    destruct (Z.eqb_spec (seed mod name_max) 0); lia. }
  destruct (Z.leb_spec path_max (strlen path + 1 + len)); intros [= <-]; [done|].
  unfold strlen in *. rewrite !string_length_app.
  pose proof (cstring_length (map (name_char seed) (seqZ 0 len))) as Hc.
  rewrite length_map, length_seqZ in Hc. simpl String.length. lia.
Qed.

Lemma uint_hash_range x : 0 <= x -> 0 <= uint_hash x.
Proof.
  intros Hx. unfold uint_hash. cbv zeta.
  set (y := u32 _). pose proof (u32_range (((y >> 16) .^ y) * 0x45d9f3b)).
  apply Z.lxor_nonneg. split; intros; [|apply Z.shiftr_nonneg]; apply u32_range || apply Z.shiftr_nonneg, u32_range.
Qed.

Section bounded.
Context {T : Type} (exists_ : T -> string -> bool) (mkdir : T -> string -> option T)
  (create : T -> string -> bytes -> option T).
Context (path_max name_max file_size_max : Z) (Hname : 0 < name_max).

Lemma append_fits fuel t : forall path seed path',
  0 <= seed -> path_fits path_max path ->
  path_append exists_ fuel t path path_max name_max seed = Some path' -> path_fits path_max path'.
Proof.
  induction fuel as [|fuel IH]; intros path seed path' Hs Hp H; [done|]. cbn [path_append] in H.
  destruct (path_append_impl path path_max name_max seed) as [p|] eqn:E; [|done]. cbn [mbind option_bind] in H.
  apply append_impl_fits in E; [|done..].
  destruct (exists_ t p); [|by injection H as <-].
  apply (IH _ _ _ (uint_hash_range _ Hs) (go_back_fits _ _ E) H).
Qed.

Lemma round_fits fuel i t path t' path' :
  0 <= i -> path_fits path_max path ->
  round exists_ mkdir create fuel path_max name_max file_size_max i (t, path) = Some (t', path') ->
  path_fits path_max path'.
Proof.
  intros Hi Hp H. pose proof (uint_hash_range i Hi) as Hh. unfold round in H. cbv zeta in H.
  destruct (in_range (uint_hash i mod 100) 85 99).
  - destruct (path_append _ _ _ _ _ _ _) as [p|] eqn:E; [|done]. cbn [mbind option_bind] in H.
    destruct (mkdir t p); [|done]. injection H as <- <-. by apply append_fits in E.
  - set (path1 := if in_range _ 0 14 then path_go_back path else path) in H.
    assert (path_fits path_max path1) by (subst path1; destruct (in_range _ 0 14); auto using go_back_fits).
    destruct (path_append _ _ _ _ _ _ _) as [p|] eqn:E; [|done]. cbn [mbind option_bind] in H.
    destruct (create_file _ _ _) as [b|]; [|done]. cbn [mbind option_bind] in H.
    destruct (create t p b) as [t2|]; [|done]. injection H as <- <-. apply go_back_fits. by apply append_fits in E.
Qed.

Lemma randdir_fits n fuel : forall i t path t' path',
  0 <= i -> path_fits path_max path ->
  randdir exists_ mkdir create n fuel path_max name_max file_size_max i (t, path) = Some (t', path') ->
  path_fits path_max path'.
Proof.
  induction n as [|n IH]; intros i t path t' path' Hi Hp H; cbn [randdir] in H.
  { by injection H as <- <-. }
  destruct (round _ _ _ _ _ _ _ _ _) as [[t1 p1]|] eqn:E; [|done]. cbn [mbind option_bind] in H.
  apply round_fits in E; [|done..]. by apply (IH (i + 1) t1 p1 t' path'); [lia| |].
Qed.
End bounded.
End Random.

(** ** Claims *)

(** Mkfilepattern never writes outside its 23-byte buffer, writes exactly
    the length asked for, and from an offset that is a multiple of 16 stores at
    every aligned position the position itself, in 1, 2, 4 or 8 bytes. *)
Theorem mkfilepattern_correct q len junk :
  0 <= len -> length junk = 23%nat ->
  exists data, Pattern.mkfilepattern (16 * q) len junk = Some data
    /\ Z.of_nat (length data) = len /\ Pattern.pattern_at (16 * q) (16 * q + len) data.
Proof.
  intros Hl Hj. destruct (Pattern.chunks_pattern (S (Z.to_nat len)) q (16 * q + len) junk) as (data & Hd & Hlen & Hp);
    [done|lia|lia|]. exists data. split; [exact Hd|]. split; [lia|done].
Qed.

Lemma mkfilepattern_correct_witness :
  exists data, Pattern.mkfilepattern (16 * 0xfff) 40 (zeroes 23) = Some data
    /\ Z.of_nat (length data) = 40 /\ Pattern.pattern_at (16 * 0xfff) (16 * 0xfff + 40) data.
Proof. apply (mkfilepattern_correct 0xfff 40 (zeroes 23)); [lia|reflexivity]. Defined.

(** With pat_min + pat_max <= 244, as its usage asks, mkdirrange stays
    inside its buffer and makes one directory per number, with different names
    of at most 255 characters. *)
Theorem mkdirrange_correct begin n pat_min pat_max :
  0 <= pat_min -> 0 < pat_max -> pat_min + pat_max <= 244 -> 0 <= begin -> begin + Z.of_nat n <= 2 ^ 32 ->
  exists names, Range.mkdirrange n begin pat_min pat_max = Some names
    /\ length names = n /\ NoDup names /\ Forall (fun d => 12 <= strlen d <= 255) names.
Proof.
  intros Hmin Hmax Hs Hb Hn. eexists. split; [by apply Range.mkdirrange_names|].
  split; [rewrite length_map, length_seqZ; lia|]. split.
  - apply NoDup_fmap_2_strong; [|apply NoDup_seqZ].
    intros a b Ha Hb' H. apply elem_of_seqZ in Ha, Hb'. by apply Range.head_injective in H; [|lia..].
  - apply list.Forall_fmap, list.Forall_forall. intros c Hc. apply elem_of_seqZ in Hc. unfold compose.
    pose proof (Range.head_length c ltac:(lia)) as Hh. pose proof (Z.mod_pos_bound c pat_max ltac:(lia)).
    unfold strlen in *. rewrite string_length_app, Range.str_repeat_length. lia.
Qed.

Lemma mkdirrange_correct_witness :
  exists names, Range.mkdirrange 3 99 10 5 = Some names
    /\ length names = 3%nat /\ NoDup names /\ Forall (fun d => 12 <= strlen d <= 255) names.
Proof. apply mkdirrange_correct; lia. Defined.

(** The path randdir builds never outgrows its buffer, whatever the tree
    answers and however many things are made. *)
Theorem randdir_path_fits {T} exists_ mkdir create n fuel path_max name_max file_size_max (t t' : T) path' :
  0 < name_max ->
  Random.randdir exists_ mkdir create n fuel path_max name_max file_size_max 0 (t, ".") = Some (t', path') ->
  Random.path_fits path_max path'.
Proof.
  intros Hn H. apply (Random.randdir_fits exists_ mkdir create path_max name_max file_size_max Hn n fuel 0 t "." t' path');
    [lia| |done]. unfold Random.path_fits, strlen. simpl. lia.
Qed.

Lemma randdir_path_fits_witness :
  exists path', Random.randdir (fun _ _ => false) (fun t _ => Some t) (fun t _ _ => Some t) 12 1 30 9 100 0 (tt, ".")
      = Some (tt, path') /\ Random.path_fits 30 path'.
Proof.
  eexists. split; [vm_compute; reflexivity|].
  apply (randdir_path_fits (fun _ _ => false) (fun t _ => Some t) (fun t _ _ => Some t) 12 1 30 9 100 tt tt); [lia|].
  vm_compute. reflexivity.
Defined.

(** A file made by randdir is a header, data and a footer, of at most the
    size allowed, when that is at least the 13 bytes of header and footer. *)
Theorem create_file_layout path max_size seed :
  13 <= max_size < 2 ^ 63 -> 0 <= seed -> path <> "" ->
  exists data, Random.create_file path max_size seed = Some (Random.header ++ data ++ Random.footer)
    /\ Z.of_nat (length (Random.header ++ data ++ Random.footer)) <= max_size.
Proof.
  intros Hm Hs Hp. eexists. split; [by apply Random.create_file_parts|].
  rewrite !length_app, length_map, length_seqZ. unfold Random.data_of.
  pose proof (Z.mod_pos_bound seed max_size ltac:(lia)). simpl. lia.
Qed.

Lemma create_file_layout_witness :
  exists data, Random.create_file "./A" 20 12345 = Some (Random.header ++ data ++ Random.footer)
    /\ Z.of_nat (length (Random.header ++ data ++ Random.footer)) <= 20.
Proof. apply (create_file_layout "./A" 20 12345); [lia|lia|discriminate]. Defined.
