(* ===== verification/Runtests.v ===== *)
(** runtests.c: which directories are tests, how artefacts are compared with
    their references, the time limit of a test, and the report.

    The host's files are a map from names to contents; the processes a test
    starts are a parameter (the status [waitpid] yields for the test). *)
From S2P Require Import Prelude CLib.

Definition CMPFILE_BUF_LEN : nat := Z.to_nat 0x100000.
Definition TIMEOUT_STR_MAX_LEN : nat := 16.

(** ** Files *)

Abbreviation files := (gmap string bytes).

Definition path2 (dir name : string) : string := dir +:+ "/" +:+ name.

(** [name[0] != 't'], then the loop over [i] that looks at [name[1]]. *)
Definition is_valid_test (fs : files) (name : string) : bool :=
  (char_at name 0 =? 116)
  && forallb (fun _ => (48 <=? char_at name 1) && (char_at name 1 <=? 57))
       (seq 1 (Nat.min 3 (String.length name - 1)))
  && bool_decide (is_Some (fs !! path2 name "run.us")).

(** [fread] of [n] bytes: what was read, what is left, and [feof]. *)
Definition fread (n : nat) (f : bytes) : bytes * bytes * bool :=
  (take n f, drop n f, (length f <? n)%nat).

(** The loop of [cmpfiles]: 0 when the files match. *)
Fixpoint cmp_loop (fuel len : nat) (a b : bytes) : option Z :=
  match fuel with
  | O => None
  | S fuel =>
      let '(ra, a', ea) := fread len a in
      let '(rb, b', eb) := fread len b in
      if negb (length ra =? length rb)%nat || negb (bool_decide (ra = rb)) then Some (-1)
      else if ea && eb then Some 0
      else cmp_loop fuel len a' b'
  end.

Definition cmpfiles (fs : files) (fnamea fnameb : string) : option Z :=
  match fs !! fnamea, fs !! fnameb with
  | Some a, Some b => cmp_loop (S (length a)) CMPFILE_BUF_LEN a b
  | _, _ => Some (-1)
  end.

(** ** Artefacts *)

(** The name an artefact has: "ref" at offset [off] becomes "out". *)
Definition out_name (off : nat) (name : string) : string :=
  str_take off name +:+ "out" +:+ str_drop (off + 3) name.

(** [check_test_artefacts] over the entries of the test's directory. *)
Fixpoint check_entries (fs : files) (testname : string) (entries : list string) : option Z :=
  match entries with
  | [] => Some 0
  | d :: entries =>
      match strstr d "ref." with
      | None => check_entries fs testname entries
      | Some off =>
          r ← cmpfiles fs (path2 testname d) (path2 testname (out_name off d));
          if truth r then Some (-1) else check_entries fs testname entries
      end
  end.

(** [None] for [entries]: the directory does not open. *)
Definition check_test_artefacts (fs : files) (testname : string) (entries : option (list string)) : option Z :=
  match entries with None => Some (-1) | Some l => check_entries fs testname l end.

(** ** The time limit *)

(** The 16 bytes of [str]: the file's, then what the stack held. *)
Definition timeout_text (file stack : bytes) : bytes :=
  take TIMEOUT_STR_MAX_LEN file ++ drop (length (take TIMEOUT_STR_MAX_LEN file)) stack.

(** [strtoul] with a 32-bit result; the string ends at the first NUL.  0 for a
    file that does not open or another unit. *)
Definition parse_timeout (str : string) : Z :=
  let n := strtoul str 0 in
  let end_ := strto_end str 0 in
  if char_at end_ 0 =? 115 then n
  else if char_at end_ 0 =? 109 then u32 (n * 60 + strtoul (str_drop 1 end_) 0)
  else 0.

Definition get_test_timeout (fs : files) (testname : string) (stack : bytes) : Z :=
  match fs !! path2 testname "timeout.txt" with
  | None => 0
  | Some f => parse_timeout (cstring (timeout_text f stack))
  end.

(** ** Running *)

(** The result of [run_test] in the parent: the status of the wait, which
    [pthread_join] stores last; [killed] tells whether the child was killed at
    the time limit. *)
Record run := Run { killed : bool; run_status : Z }.

Definition SIGKILL : Z := 9.

(** [exit_status]: how the child ends by itself; [in_time]: before the limit. *)
Definition run_test (exit_status : Z) (in_time : bool) : run :=
  if in_time then Run false exit_status else Run true SIGKILL.

Section report.
Context (fs : files) (entries : string -> option (list string)) (child : string -> Z * bool).
Context (silent_success : bool).

(** [run_test(testname) || check_test_artefacts(testname)] *)
Definition test_fails (testname : string) : option bool :=
  let '(st, tm) := child testname in
  if truth (run_status (run_test st tm)) then Some true
  else r ← check_test_artefacts fs testname (entries testname); Some (truth r).

(** [thread_run_test] over the directory: the lines it writes. *)
Fixpoint thread_run_test (dirents : list string) : option (list string) :=
  match dirents with
  | [] => Some []
  | d :: dirents =>
      if negb (is_valid_test fs d) then thread_run_test dirents
      else
        f ← test_fails d; rest ← thread_run_test dirents;
        Some (["running test " +:+ d]
              ++ (if f : bool then ["[!] test " +:+ d +:+ " failed"]
                  else if silent_success then [] else ["test " +:+ d +:+ " ok"])
              ++ rest)
  end.
End report.

(** ** Proofs *)

(** A file is read whole and then its end is seen. *)
Lemma cmp_loop_spec fuel len : forall a b,
  (0 < len)%nat -> (length a < fuel)%nat ->
  cmp_loop fuel len a b = Some (if bool_decide (a = b) then 0 else -1).
Proof.
  induction fuel as [|fuel IH]; intros a b Hl Hf; [lia|]. cbn [cmp_loop fread].
  destruct (decide (take len a = take len b)) as [E|E].
  - rewrite E, Nat.eqb_refl. rewrite bool_decide_eq_true_2 by done. cbn [negb orb].
    assert (Hlen : length (take len a) = length (take len b)) by congruence. rewrite !length_take in Hlen.
    destruct (Nat.ltb_spec (length a) len), (Nat.ltb_spec (length b) len); cbn [andb]; try lia.
    + rewrite !take_ge in E by lia. by rewrite bool_decide_eq_true_2.
    + rewrite IH by (rewrite ?length_drop; lia).
      rewrite (bool_decide_ext (drop len a = drop len b) (a = b)); [done|]. split.
      * intros Hd. rewrite <- (take_drop len a), <- (take_drop len b). congruence.
      * by intros ->.
  - rewrite (bool_decide_eq_false_2 (take len a = take len b)) by done. rewrite orb_true_r.
    rewrite bool_decide_eq_false_2; [done|]. congruence.
Qed.

Lemma cmpfiles_spec fs x y :
  cmpfiles fs x y = Some (if decide (is_Some (fs !! x) /\ fs !! x = fs !! y) then 0 else -1).
Proof.
  unfold cmpfiles. destruct (fs !! x) as [a|] eqn:Ex, (fs !! y) as [b|] eqn:Ey.
  - rewrite cmp_loop_spec; [|unfold CMPFILE_BUF_LEN; lia|lia]. f_equal.
    destruct (decide _) as [[_ [= ->]]|Hn]; [by rewrite bool_decide_eq_true_2|].
    rewrite bool_decide_eq_false_2; [done|]. intros ->. by apply Hn.
  - by destruct (decide _) as [[_ [=]]|].
  - by destruct (decide _) as [[[? [=]] _]|].
  - by destruct (decide _) as [[[? [=]] _]|].
Qed.

(** [name] is [pre], "ref." for the first time, and [post]. *)
Definition reference_name (name pre post : string) : Prop :=
  name = pre +:+ "ref." +:+ post
  /\ forall pre' post', name = pre' +:+ "ref." +:+ post' -> (String.length pre <= String.length pre')%nat.

(** [strstr] finds the first occurrence, and [out_name] replaces it. *)
Lemma strstr_reference name off :
  strstr name "ref." = Some off <-> exists pre post, reference_name name pre post /\ off = String.length pre.
Proof.
  split.
  - intros H. destruct (strstr_sound _ _ _ H) as [Hl [post Hd]].
    exists (str_take off name), post. rewrite length_str_take by done. split; [|done]. split.
    + by rewrite <- Hd, str_take_drop.
    + intros pre' post' ->. rewrite length_str_take by done. by eapply strstr_first.
  - intros (pre & post & [-> Hmin] & ->).
    destruct (strstr_complete pre "ref." post) as [off Ho]. rewrite Ho. f_equal.
    pose proof (strstr_first pre "ref." post off Ho).
    destruct (strstr_sound _ _ _ Ho) as [Hl [t Hd]].
    assert (String.length pre <= off)%nat; [|lia].
    rewrite <- (length_str_take off (pre +:+ "ref." +:+ post)) by done. apply (Hmin _ t).
    by rewrite <- Hd, str_take_drop.
Qed.

Lemma reference_name_unique name pre post pre' post' :
  reference_name name pre post -> reference_name name pre' post' -> pre = pre' /\ post = post'.
Proof.
  intros [-> H1] [E H2]. specialize (H1 _ _ E). specialize (H2 _ _ eq_refl).
  assert (pre = pre') as -> by (eapply string_app_eq; [lia|done]).
  split; [done|]. by apply string_app_inj_l, string_app_inj_l in E.
Qed.

Lemma out_name_reference name pre post :
  reference_name name pre post -> out_name (String.length pre) name = pre +:+ "out." +:+ post.
Proof.
  intros [-> _]. unfold out_name. rewrite str_take_prefix, (Nat.add_comm _ 3), str_drop_add, str_drop_app. done.
Qed.

(** A reference has its output: both files are there, with the same bytes. *)
Definition output_matches (fs : files) (dir name : string) : Prop :=
  forall pre post, reference_name name pre post ->
  exists content, fs !! (dir +:+ "/" +:+ name) = Some content
    /\ fs !! (dir +:+ "/" +:+ pre +:+ "out." +:+ post) = Some content.

Lemma cmpfiles_output fs dir name off :
  strstr name "ref." = Some off ->
  exists r, cmpfiles fs (path2 dir name) (path2 dir (out_name off name)) = Some r
    /\ (r = 0 <-> output_matches fs dir name).
Proof.
  intros H. apply strstr_reference in H as (pre & post & Hr & ->). rewrite cmpfiles_spec.
  eexists. split; [done|]. rewrite (out_name_reference name pre post) by done. unfold path2, output_matches.
  destruct (decide _) as [[[c Hc] He]|Hn]; (split; [|done || intros H]).
  - intros _ pre' post' Hr'. destruct (reference_name_unique _ _ _ _ _ Hr Hr') as [<- <-].
    exists c. by rewrite <- He.
  - done.
  - destruct (H pre post Hr) as (c & Hx & Hy). exfalso. apply Hn. split; [by exists c|congruence].
Qed.

Lemma check_entries_spec fs testname entries :
  exists r, check_entries fs testname entries = Some r
    /\ (r = 0 <-> Forall (output_matches fs testname) entries).
Proof.
  induction entries as [|d entries IH]; cbn [check_entries].
  { exists 0. split; [done|]. split; [constructor|done]. }
  destruct IH as (r & Hr & Hiff). setoid_rewrite List.Forall_cons_iff.
  destruct (strstr d "ref.") as [off|] eqn:Es.
  - destruct (cmpfiles_output fs testname d off Es) as (x & -> & Hx). cbn [mbind option_bind]. unfold truth.
    destruct (Z.eqb_spec x 0) as [->|Hn]; cbn [negb].
    + exists r. split; [done|]. rewrite Hiff. split; [split; [by apply Hx|done]|by intros []].
    + exists (-1). split; [done|]. split; [done|]. intros [Hm _]. by apply Hx in Hm.
  - exists r. split; [done|]. rewrite Hiff. split; [|by intros []]. intros HF. split; [|done].
    intros pre post Href. assert (strstr d "ref." = Some (String.length pre)); [|congruence].
    apply strstr_reference. eauto.
Qed.

(** *** The time limit *)

Lemma parse_seconds s rest : 0 <= s < 2 ^ 32 -> parse_timeout (fmt_u s +:+ "s" +:+ rest) = s.
Proof.
  intros Hs. unfold parse_timeout, strtoul, strto_end. rewrite string_app_cons. change ("" +:+ rest) with rest.
  rewrite strto_scan_fmt_u_rest by (done || lia). unfold strto_unsigned. cbn [st_mag st_neg st_end].
  rewrite (proj2 (Z.ltb_ge _ _)) by lia. done.
Qed.

Lemma parse_minutes m s rest :
  0 <= m -> 0 <= s -> m * 60 + s < 2 ^ 32 ->
  parse_timeout (fmt_u m +:+ "m" +:+ (fmt_u s +:+ "s" +:+ rest)) = m * 60 + s.
Proof.
  intros Hm Hs Hr. unfold parse_timeout, strtoul, strto_end. rewrite (string_app_cons "m").
  change ("" +:+ ?x) with x. rewrite strto_scan_fmt_u_rest by (done || lia).
  unfold strto_unsigned at 1 2. cbn [st_mag st_neg st_end].
  rewrite (proj2 (Z.ltb_ge _ _)) by lia. change (char_at (String "m" ?x) 0) with 109. cbn [Z.eqb Pos.eqb str_drop].
  change (char_at (String "m" ?x) 0 =? 115) with false. cbv iota. 
  rewrite (string_app_cons "s"). change ("" +:+ ?x) with x. rewrite strto_scan_fmt_u_rest by (done || lia).
  unfold strto_unsigned. cbn [st_mag st_neg]. rewrite (proj2 (Z.ltb_ge _ _)) by lia.
  apply u32_small. lia.
Qed.

(** ** Claims *)

(** C37: the check of a test's artefacts always ends, and it passes exactly when
    for every file of the directory whose name is <pre>ref.<post>, taken at the
    first "ref.", both that file and <pre>out.<post> of the same directory are
    there with the same bytes.  Other files do not matter. *)
Theorem artefacts_checked fs testname entries :
  exists r, check_test_artefacts fs testname (Some entries) = Some r
    /\ (r = 0 <-> forall name pre post, name ∈ entries -> reference_name name pre post ->
         exists content, fs !! (testname +:+ "/" +:+ name) = Some content
           /\ fs !! (testname +:+ "/" +:+ pre +:+ "out." +:+ post) = Some content).
Proof.
  destruct (check_entries_spec fs testname entries) as (r & Hr & Hiff). exists r. split; [done|].
  rewrite Hiff, List.Forall_forall. split.
  - intros H name pre post Hin. by apply H, list_elem_of_In.
  - intros H name Hin pre post. by apply H, list_elem_of_In.
Qed.

(** An output that differs, and a missing output, fail the test. *)
Example artefacts_differ :
  let fs := {[ "t001/ref.log" := [1; 2]; "t001/out.log" := [1; 3]; "t002/1ref.png" := [7] ]} : files in
  check_test_artefacts fs "t001" (Some ["run.us"; "ref.log"; "out.log"]) = Some (-1)
  /\ check_test_artefacts fs "t002" (Some ["1ref.png"]) = Some (-1)
  /\ check_test_artefacts (<[ "t002/1out.png" := [7] ]> fs) "t002" (Some ["1ref.png"; "1out.png"]) = Some 0.
Proof. vm_compute. auto. Qed.

(** The time limit written as minutes and seconds is the one that is used,
    whatever the unused part of the 16-byte buffer holds. *)
Theorem timeout_read fs testname m s stack :
  0 <= m -> 0 <= s -> m * 60 + s < 2 ^ 32 -> (String.length (fmt_u m +:+ "m" +:+ (fmt_u s +:+ "s")) <= 16)%nat ->
  fs !! path2 testname "timeout.txt" = Some (bytes_of_string (fmt_u m +:+ "m" +:+ (fmt_u s +:+ "s"))) ->
  get_test_timeout fs testname stack = m * 60 + s.
Proof.
  intros Hm Hs Hr Hl Hf. unfold get_test_timeout, timeout_text, TIMEOUT_STR_MAX_LEN. rewrite Hf.
  set (text := fmt_u m +:+ "m" +:+ (fmt_u s +:+ "s")) in *.
  pose proof (length_bytes_of_string text) as Hbl.
  rewrite take_ge by lia. rewrite cstring_app.
  - unfold text. rewrite !string_app_assoc. by apply parse_minutes.
  - unfold text. repeat apply no_nul_app; try apply no_nul_fmt_u; repeat constructor; vm_compute; congruence.
Qed.

Lemma timeout_read_witness :
  get_test_timeout {[ "t001/timeout.txt" := bytes_of_string "1m30s" ]} "t001" (replicate 16 0xcc) = 90.
Proof.
  apply (timeout_read {[ "t001/timeout.txt" := bytes_of_string "1m30s" ]} "t001" 1 30);
    [lia|lia|lia|vm_compute; lia|reflexivity].
Defined.
