(* ===== verification/GenDevices.v ===== *)
(** umka_gen_devices_dat.c: reading the host's ACPI objects and building the
    part of the ACPI tree from which the kernel computes PCI interrupts.

    The kernel's ACPI tree is a parameter; a node is named by the list of names
    on the way from the root. *)
From S2P Require Import Prelude CLib.

Definition ACPI_BUF_SIZE : Z := 0x1000.
Definition PATH_MAX : Z := 4096.

(** ** Text *)

Fixpoint strcnt (s : string) (c : ascii) : Z :=
  match s with
  | "" => 0
  | String x s => (if Ascii.eqb x c then 1 else 0) + strcnt s c
  end.

Definition is_filler (c : ascii) : bool :=
  (code c =? 91) || (code c =? 93) || (code c =? 32) || (code c =? 44).

Fixpoint skip_filler (s : string) : string :=
  match s with
  | String c s' => if is_filler c then skip_filler s' else s
  | "" => ""
  end.

(** The number and where the next one is looked for. *)
Definition acpi_get_next_number (str : string) : Z * string :=
  let r := strto_scan 16 (skip_filler str) in
  (strto_unsigned 64 r, st_end r).

(** ** Objects *)

(** What [acpi_get] makes of a reply: an integer, a package of packages of
    four integers; NULL; [exit(1)]. *)
Inductive acpi_object := AInt (value : Z) | APkg (elements : list (list Z)) | ANull | AExit.

Definition get_four (str : string) : list Z * string :=
  let '(a, str) := acpi_get_next_number str in
  let '(b, str) := acpi_get_next_number str in
  let '(c, str) := acpi_get_next_number str in
  let '(d, str) := acpi_get_next_number str in
  ([a; b; c; d], str).

Fixpoint get_elements (n : nat) (str : string) : list (list Z) :=
  match n with
  | O => []
  | S n => let '(e, str) := get_four str in e :: get_elements n str
  end.

(** [acpi_get] of the text in [acpi_value]. *)
Definition acpi_parse (value : string) : acpi_object :=
  if char_at value 0 =? 48 then AInt (strto_unsigned 64 (strto_scan 16 value))
  else if char_at value 0 =? 91 then
    if negb (strcnt value "["%char =? strcnt value "]"%char) then AExit
    else APkg (get_elements (Z.to_nat (strcnt value "["%char - 1)) value)
  else ANull.

(** The reply of /proc/acpi/call: up to [ACPI_BUF_SIZE] bytes, of which the last
    is replaced by the terminator; an empty reply would store before the
    buffer. *)
Definition acpi_get (reply : bytes) : option acpi_object :=
  let got := take (Z.to_nat ACPI_BUF_SIZE) reply in
  match got with
  | [] => None
  | _ => Some (acpi_parse (cstring (take (length got - 1) got)))
  end.

(** ** Paths *)

(** [acpi_get_at]: the path is written from its end; [names] are those of the
    node and its ancestors below the root, the node's first. *)
Fixpoint path_before (names : list string) (tail : string) : string :=
  match names with
  | [] => tail
  | n :: names => path_before names ("." +:+ n +:+ tail)
  end.

(** The leading dot becomes a backslash; [None]: the buffer is too small. *)
Definition acpi_path (names : list string) (name : string) : option string :=
  if PATH_MAX - 6 <? 5 * Z.of_nat (length names) then None
  else Some ("\" +:+ str_drop 1 (path_before names ("." +:+ name))).

(** The four-character names of a path such as "\_SB_.PCI0": the loop goes on
    while [name] is before the last character. *)
Fixpoint path_names (fuel : nat) (rest : string) : list string :=
  match fuel with
  | O => []
  | S fuel =>
      if (String.length rest <=? 1)%nat then []
      else str_take 4 rest :: path_names fuel (str_drop 5 rest)
  end.

Section tree.
Context {T : Type}.
(** [kos_acpi_lookup_node] below a node, and [kos_aml_attach] of a device node
    and of an object, with the reply of the host for a path. *)
Context (lookup : T -> list string -> string -> bool) (attach_dev : list string -> string -> T -> T)
  (attach_obj : list string -> string -> acpi_object -> T -> T) (host : string -> bytes).

(** [acpi_get_at] and the attachment of its result: a NULL is dereferenced. *)
Definition attach_at (node : list string) (name : string) (t : T) : option T :=
  p ← acpi_path (reverse node) name; o ← acpi_get (host p);
  match o with ANull | AExit => None | _ => Some (attach_obj node name o t) end.

Fixpoint process_names (parent names : list string) (t : T) : option T :=
  match names with
  | [] => Some t
  | n :: names =>
      let node := parent ++ [n] in
      t ← (if lookup t parent n then Some t
           else
             let t := attach_dev parent n t in
             t ← attach_at node "_ADR" t;
             match names with [] => Some t | _ => attach_at node "_PRT" t end);
      process_names node names t
  end.

Definition acpi_process_dev (path : string) (t : T) : option T :=
  process_names [] (path_names (String.length path) (str_drop 1 path)) t.
End tree.

(** ** Packages as the host prints them *)

Definition print_number (n : Z) : string := "0x" +:+ fmt_x n.
Fixpoint join (sep : string) (l : list string) : string :=
  match l with [] => "" | [s] => s | s :: l => s +:+ sep +:+ join sep l end.
Definition print_element (e : list Z) : string := "[" +:+ join ", " (map print_number e) +:+ "]".
Definition print_package (es : list (list Z)) : string := "[" +:+ join ", " (map print_element es) +:+ "]".

Definition element_ok (e : list Z) : Prop := length e = 4%nat /\ Forall (fun n => 0 <= n < 2 ^ 64) e.

(** *** Hexadecimal numbers *)

Lemma digit_char_facts d : 0 <= d < 16 ->
  is_digit_of 16 (digit_char d) = true /\ is_filler (digit_char d) = false.
Proof.
  intros Hd.
  assert (Forall (fun d => is_digit_of 16 (digit_char d) = true /\ is_filler (digit_char d) = false) (seqZ 0 16))
    as H by (apply (bool_decide_unpack _); vm_compute; reflexivity).
  rewrite List.Forall_forall in H. apply H, list_elem_of_In, elem_of_seqZ. lia.
Qed.

Lemma scan_hex n c rest :
  0 <= n -> is_digit_of 16 c = false ->
  strto_scan 16 (print_number n +:+ String c rest) = Strto false n (String c rest) true.
Proof.
  intros Hn Hc. destruct (fmt_base_head 16 n) as (d & t & He & Hd & _); [lia..|].
  destruct (digit_char_facts d) as [Hdig _]; [lia|].
  unfold print_number, fmt_x. rewrite He, string_app_assoc, !string_app_cons. change ("" +:+ ?x) with x.
  unfold strto_scan.
  change (take_sign (skip_space (String "0" ?x))) with (false, String "0" x). cbv beta iota.
  assert (take_base 16 (String "0" (String "x" (String (digit_char d) (t +:+ String c rest))))
          = (16, String (digit_char d) (t +:+ String c rest))) as ->.
  { unfold take_base. rewrite Hdig. reflexivity. }
  rewrite <- string_app_cons, <- He. unfold fmt_base.
  assert (scan_digits 16 0 (digits_fuel (S (Z.to_nat (Z.log2 n))) 16 n "" +:+ String c rest)
          = (n, String c rest)) as ->.
  { rewrite digits_fuel_append, scan_fmt_base by lia. change ("" +:+ ?x) with x. simpl.
    unfold is_digit_of in Hc. destruct (digit_val c) as [x|]; [|done]. by rewrite Hc. }
  change (digits_fuel _ 16 n "") with (fmt_base 16 n). rewrite He, string_app_cons.
  assert ((String.length (String c rest) =? String.length (String (digit_char d) (t +:+ String c rest)))%nat = false)
    as ->; [|done].
  apply Nat.eqb_neq. cbn [String.length]. rewrite string_length_app. simpl. lia.
Qed.

(** Characters between the numbers. *)
Fixpoint filler (s : string) : bool :=
  match s with "" => true | String c s => is_filler c && filler s end.

Lemma skip_filler_app f s : filler f = true -> skip_filler (f +:+ s) = skip_filler s.
Proof.
  induction f as [|c f IH]; intros H; [done|]. cbn [filler] in H. apply andb_prop in H as [Hc H].
  rewrite string_app_cons. simpl. rewrite Hc. by apply IH.
Qed.

Definition starts_plain (t : string) : Prop :=
  match t with String c _ => is_digit_of 16 c = false | "" => False end.

Lemma next_number f n t :
  filler f = true -> 0 <= n < 2 ^ 64 -> starts_plain t ->
  acpi_get_next_number (f +:+ print_number n +:+ t) = (n, t).
Proof.
  intros Hf Hn Hc. destruct t as [|c rest]; [done|].
  unfold acpi_get_next_number. rewrite skip_filler_app by done.
  assert (skip_filler (print_number n +:+ String c rest) = print_number n +:+ String c rest) as -> by reflexivity.
  rewrite scan_hex by (done || lia). unfold strto_unsigned. cbn [st_mag st_neg st_end].
  by rewrite (proj2 (Z.ltb_ge _ _)) by lia.
Qed.

Lemma get_four_element f e rest :
  filler f = true -> element_ok e -> get_four (f +:+ print_element e +:+ rest) = (e, "]" +:+ rest).
Proof.
  intros Hf [Hl He]. destruct e as [|a [|b [|c [|d []]]]]; try done.
  repeat match goal with H : Forall _ (_ :: _) |- _ => apply Forall_cons_1 in H; destruct H end.
  unfold get_four, print_element. cbn [map join]. rewrite !string_app_assoc.
  rewrite <- (string_app_assoc f).
  assert (filler (f +:+ "[") = true) as Hf'.
  { clear -Hf. induction f as [|x f IH]; [done|]. cbn [filler] in Hf. apply andb_prop in Hf as [Hx Hf].
    rewrite string_app_cons. simpl. by rewrite Hx, IH. }
  repeat (rewrite next_number by done; cbv beta iota). done.
Qed.

Lemma get_elements_package es : forall f tail,
  filler f = true -> Forall element_ok es ->
  get_elements (length es) (f +:+ join ", " (map print_element es) +:+ tail) = es.
Proof.
  induction es as [|e es IH]; intros f tail Hf HF; [done|]. inversion HF as [|? ? He HF']; subst.
  cbn [length get_elements map].
  destruct es as [|e' es].
  - cbn [map join]. by rewrite get_four_element.
  - change (join ", " (print_element e :: map print_element (e' :: es)))
      with (print_element e +:+ ", " +:+ join ", " (map print_element (e' :: es))).
    rewrite !string_app_assoc, get_four_element by done. f_equal.
    change ("]" +:+ ", " +:+ ?x) with ("], " +:+ x). by apply IH.
Qed.

(** *** Brackets *)

Lemma strcnt_app a b c : strcnt (a +:+ b) c = strcnt a c + strcnt b c.
Proof. induction a as [|x a IH]; [done|]. rewrite string_app_cons. cbn [strcnt]. rewrite IH. lia. Qed.

Lemma strcnt_digits c fuel : is_filler c = true -> forall n acc,
  strcnt (digits_fuel fuel 16 n acc) c = strcnt acc c.
Proof.
  intros Hc. induction fuel as [|fuel IH]; intros n acc; [done|]. cbn [digits_fuel]. cbv zeta.
  assert (strcnt (String (digit_char (n mod 16)) acc) c = strcnt acc c) as E.
  { cbn [strcnt]. pose proof (Z.mod_pos_bound n 16 ltac:(lia)).
    destruct (digit_char_facts (n mod 16)) as [_ Hd]; [lia|].
    destruct (Ascii.eqb_spec (digit_char (n mod 16)) c) as [<-|]; [congruence|]. lia. }
  destruct (n <? 16); [done|]. by rewrite IH.
Qed.

Lemma strcnt_number c n : (c = "[" \/ c = "]")%char -> strcnt (print_number n) c = 0.
Proof.
  intros Hc. unfold print_number. rewrite strcnt_app. unfold fmt_x, fmt_base. rewrite strcnt_digits.
  - by destruct Hc as [-> | ->].
  - by destruct Hc as [-> | ->].
Qed.

Lemma strcnt_join c l k :
  (c = "[" \/ c = "]")%char -> Forall (fun s => strcnt s c = k) l ->
  strcnt (join ", " l) c = k * Z.of_nat (length l).
Proof.
  intros Hc. induction 1 as [|s l Hs HF IH]; [simpl; lia|].
  destruct l as [|s' l]; [cbn [join length]; rewrite Hs; lia|].
  change (join ", " (s :: s' :: l)) with (s +:+ ", " +:+ join ", " (s' :: l)).
  rewrite !strcnt_app, IH, Hs. cbn [length].
  assert (strcnt ", " c = 0) as -> by (by destruct Hc as [-> | ->]). lia.
Qed.

Lemma strcnt_package c es :
  (c = "[" \/ c = "]")%char -> strcnt (print_package es) c = 1 + Z.of_nat (length es).
Proof.
  intros Hc.
  assert (Hb : strcnt "[" c + strcnt "]" c = 1) by (by destruct Hc as [-> | ->]).
  unfold print_package. rewrite !strcnt_app, (strcnt_join c _ 1), length_map; [lia|done|].
  apply List.Forall_map, List.Forall_forall. intros e _. unfold print_element. rewrite !strcnt_app.
  rewrite (strcnt_join c _ 0); [lia|done|]. apply List.Forall_map, List.Forall_forall. intros n _.
  by apply strcnt_number.
Qed.

Lemma no_nul_join l : Forall no_nul l -> no_nul (join ", " l).
Proof.
  induction 1 as [|s l Hs HF IH]; [constructor|]. destruct l as [|s' l]; [done|].
  change (join ", " (s :: s' :: l)) with (s +:+ ", " +:+ join ", " (s' :: l)).
  apply no_nul_app, no_nul_app; [done| |done]. repeat constructor; vm_compute; congruence.
Qed.

Lemma no_nul_brackets s : no_nul s -> no_nul ("[" +:+ s +:+ "]").
Proof. intros Hs. apply no_nul_app, no_nul_app; [|done|]; repeat constructor; vm_compute; congruence. Qed.

Lemma no_nul_package es : no_nul (print_package es).
Proof.
  apply no_nul_brackets, no_nul_join, List.Forall_map, List.Forall_forall. intros e _.
  apply no_nul_brackets, no_nul_join, List.Forall_map, List.Forall_forall. intros n _.
  apply no_nul_app; [repeat constructor; vm_compute; congruence|apply no_nul_digits; [lia|constructor]].
Qed.

Lemma acpi_path_total names name :
  5 * Z.of_nat (length names) <= PATH_MAX - 6 -> is_Some (acpi_path names name).
Proof. intros Hl. unfold acpi_path. rewrite (proj2 (Z.ltb_ge _ _)) by lia. by eexists. Qed.

#[local] Opaque acpi_get acpi_path.

(** ** The tree *)
Section devices.
Context {T : Type} (lookup : T -> list string -> string -> bool) (attach_dev : list string -> string -> T -> T)
  (attach_obj : list string -> string -> acpi_object -> T -> T) (host : string -> bytes).

(** What the kernel's tree does: a node that was attached is found, and
    attaching removes nothing. *)
Class AcpiTree := {
  lookup_attached : forall t p n, lookup (attach_dev p n t) p n = true;
  dev_keeps : forall t p n q m, lookup t q m = true -> lookup (attach_dev p n t) q m = true;
  obj_keeps : forall t p n o q m, lookup t q m = true -> lookup (attach_obj p n o t) q m = true }.

Context `{AcpiTree}.

(** Every device on the way is in the tree. *)
Fixpoint present (t : T) (parent names : list string) : Prop :=
  match names with
  | [] => True
  | n :: names => lookup t parent n = true /\ present t (parent ++ [n]) names
  end.

Definition keeps (t t' : T) : Prop := forall q m, lookup t q m = true -> lookup t' q m = true.

Lemma attach_at_keeps node name t t' :
  attach_at attach_obj host node name t = Some t' -> keeps t t'.
Proof.
  unfold attach_at. intros (p & _ & (o & _ & Ho)%bind_Some)%bind_Some.
  destruct o; try discriminate; injection Ho as <-; intros q m Hq; by apply obj_keeps.
Qed.

Lemma process_present names : forall parent t t',
  process_names lookup attach_dev attach_obj host parent names t = Some t' ->
  keeps t t' /\ present t' parent names.
Proof.
  induction names as [|n names IH]; intros parent t t' H0; cbn [process_names] in H0.
  { injection H0 as <-. split; [by intros q m|done]. }
  cbv zeta in H0.
  assert (Hstep : forall t1, keeps t t1 -> lookup t1 parent n = true ->
    process_names lookup attach_dev attach_obj host (parent ++ [n]) names t1 = Some t' ->
    keeps t t' /\ present t' parent (n :: names)).
  { intros t1 Hk Hn Hp. apply IH in Hp as [Hk' Hpr]. split; [|split; [by apply Hk'|done]].
    intros q m Hq. by apply Hk', Hk. }
  destruct (lookup t parent n) eqn:El; cbn [mbind option_bind] in H0.
  { apply (Hstep t); [by intros q m|done|done]. }
  pose proof (lookup_attached t parent n) as Hnew.
  assert (keeps t (attach_dev parent n t)) as Hk0 by (intros q m Hq; by apply dev_keeps).
  destruct (attach_at _ _ _ "_ADR" _) as [t1|] eqn:E1; [|done]. cbn [mbind option_bind] in H0.
  apply attach_at_keeps in E1.
  destruct names as [|n' names]; cbn [mbind option_bind] in H0.
  { apply (Hstep t1); [|by apply E1|done]. intros q m Hq. by apply E1, Hk0. }
  destruct (attach_at _ _ _ "_PRT" _) as [t2|] eqn:E2; [|done]. cbn [mbind option_bind] in H0.
  apply attach_at_keeps in E2.
  apply (Hstep t2); [|by apply E2, E1|done]. intros q m Hq. by apply E2, E1, Hk0.
Qed.

Lemma process_again names : forall parent t,
  present t parent names -> process_names lookup attach_dev attach_obj host parent names t = Some t.
Proof.
  induction names as [|n names IH]; intros parent t Hp; [done|]. destruct Hp as [Hn Hp].
  cbn [process_names]. cbv zeta. rewrite Hn. cbn [mbind option_bind]. by apply IH.
Qed.

(** The host knows the object that is asked for. *)
Definition host_answers : Prop :=
  forall p, exists o, acpi_get (host p) = Some o /\ o <> ANull /\ o <> AExit.

Lemma attach_at_total node name t :
  host_answers -> 5 * Z.of_nat (length node) <= PATH_MAX - 6 ->
  exists t', attach_at attach_obj host node name t = Some t'.
Proof using Type.
  intros Hh Hl. unfold attach_at.
  destruct (acpi_path_total (reverse node) name) as [p ->]; [by rewrite length_reverse|].
  destruct (Hh p) as (o & Ho & Hn & Hx). exists (attach_obj node name o t).
  apply bind_Some. exists p. split; [done|]. apply bind_Some. exists o. split; [done|].
  destruct o; done.
Qed.

Lemma process_total (Hh : host_answers) names : forall parent t,
  5 * Z.of_nat (length parent + length names) <= PATH_MAX - 6 ->
  exists t', process_names lookup attach_dev attach_obj host parent names t = Some t'.
Proof using Type.
  induction names as [|n names IH]; intros parent t Hl; cbn [process_names]; [by eexists|]. cbv zeta.
  cbn [length] in Hl.
  assert (Hnode : 5 * Z.of_nat (length (parent ++ [n])) <= PATH_MAX - 6) by (rewrite length_app; cbn [length]; lia).
  assert (Hrest : 5 * Z.of_nat (length (parent ++ [n]) + length names) <= PATH_MAX - 6)
    by (rewrite length_app; cbn [length]; lia).
  destruct (lookup t parent n); cbn [mbind option_bind]; [by apply IH|].
  destruct (attach_at_total (parent ++ [n]) "_ADR" (attach_dev parent n t)) as [t1 ->]; [done..|].
  cbn [mbind option_bind]. destruct names as [|n' names]; [by eexists|].
  destruct (attach_at_total (parent ++ [n]) "_PRT" t1) as [t2 ->]; [done..|].
  cbn [mbind option_bind]. by apply IH.
Qed.
End devices.

(** The loop of [acpi_process_dev] finds every name of a path. *)
Lemma path_names_join names : forall fuel,
  Forall (fun n => String.length n = 4%nat) names -> (length names < fuel)%nat ->
  path_names fuel (join "." names) = names.
Proof.
  induction names as [|n names IH]; intros fuel HF Hf; (destruct fuel as [|fuel]; [simpl in Hf; lia|]); [done|].
  inversion HF as [|? ? Hn HF']; subst. cbn [length] in Hf.
  destruct n as [|a [|b [|c [|d []]]]]; try done.
  destruct names as [|n' names].
  - simpl. by destruct fuel.
  - change (join "." (?a :: ?b :: ?l)) with (a +:+ "." +:+ join "." (b :: l)).
    rewrite !string_app_cons. cbn [path_names String.length Nat.leb str_take str_drop]. f_equal.
    apply IH; [done|lia].
Qed.

Lemma join_length names :
  Forall (fun n => String.length n = 4%nat) names -> (length names <= String.length (join "." names))%nat.
Proof.
  induction 1 as [|n l Hn HF IH]; [done|]. destruct l as [|n' l]; [cbn [join length]; lia|].
  change (join "." (n :: n' :: l)) with (n +:+ "." +:+ join "." (n' :: l)).
  rewrite !string_length_app. cbn [length] in *. simpl (String.length "."). lia.
Qed.

Lemma process_path names :
  Forall (fun n => String.length n = 4%nat) names ->
  path_names (String.length ("\" +:+ join "." names)) (str_drop 1 ("\" +:+ join "." names)) = names.
Proof.
  intros HF. pose proof (join_length names HF). rewrite string_app_cons. cbn [str_drop].
  change ("" +:+ ?x) with x. apply path_names_join; [done|]. cbn [String.length]. lia.
Qed.

#[local] Transparent acpi_get acpi_path.

(** ** Claims *)

(** A package of four-number entries, printed the way the host prints it,
    is read back as it was: the bracket count gives the number of entries and
    the scanner finds every number. *)
Theorem acpi_package_roundtrip es last :
  Forall element_ok es -> Z.of_nat (String.length (print_package es)) < ACPI_BUF_SIZE ->
  acpi_get (bytes_of_string (print_package es) ++ [last]) = Some (APkg es).
Proof.
  intros HF Hl. unfold acpi_get. set (text := print_package es) in *.
  pose proof (length_bytes_of_string text) as Hbl.
  rewrite take_ge by (rewrite length_app; cbn [length]; unfold ACPI_BUF_SIZE in *; lia). cbv zeta.
  assert (take (length (bytes_of_string text ++ [last]) - 1) (bytes_of_string text ++ [last]) = bytes_of_string text)
    as ->.
  { replace (length (bytes_of_string text ++ [last]) - 1)%nat with (length (bytes_of_string text))
      by (rewrite length_app; cbn [length]; lia). apply take_app_length. }
  rewrite (cstring_bytes_of_string text) by apply no_nul_package.
  assert (acpi_parse text = APkg es) as ->.
  2: { by destruct (bytes_of_string text). }
  unfold acpi_parse. assert (char_at text 0 = 91) as -> by reflexivity. cbn [Z.eqb Pos.eqb].
  unfold text. rewrite !strcnt_package by auto. rewrite Z.eqb_refl. cbn [negb].
  replace (Z.to_nat (1 + Z.of_nat (length es) - 1)) with (length es) by lia.
  f_equal. unfold print_package. by apply (get_elements_package es "[" "]").
Qed.

Lemma acpi_package_roundtrip_witness :
  acpi_get (bytes_of_string "[[0xffff, 0x0, 0x0, 0x10], [0x1ffff, 0x1, 0x0, 0x11]]" ++ [10])
  = Some (APkg [[0xffff; 0; 0; 0x10]; [0x1ffff; 1; 0; 0x11]]).
Proof.
  apply (acpi_package_roundtrip [[0xffff; 0; 0; 0x10]; [0x1ffff; 1; 0; 0x11]]).
  - repeat constructor; lia.
  - vm_compute. reflexivity.
Defined.

(** C39: a device whose path is "\", then its four-character names with dots
    between them, is processed whenever the host answers every query with a
    number or a package and the path fits PATH_MAX: afterwards each name of the
    path, the last one included, is in the tree below the one before it, no
    node was lost, and processing the device again changes nothing. *)
Theorem process_dev_idempotent {T} lookup attach_dev attach_obj host (t : T) names :
  AcpiTree lookup attach_dev attach_obj -> host_answers host ->
  Forall (fun n => String.length n = 4%nat) names -> 5 * Z.of_nat (length names) <= PATH_MAX - 6 ->
  exists t', acpi_process_dev lookup attach_dev attach_obj host ("\" +:+ join "." names) t = Some t'
    /\ keeps lookup t t' /\ present lookup t' [] names
    /\ acpi_process_dev lookup attach_dev attach_obj host ("\" +:+ join "." names) t' = Some t'.
Proof.
  intros HT Hh HF Hl. unfold acpi_process_dev. rewrite process_path by done.
  destruct (process_total lookup attach_dev attach_obj host Hh names [] t) as [t' Ht'].
  { change (length []) with O. lia. }
  exists t'. destruct (process_present lookup attach_dev attach_obj host names [] t t' Ht') as [Hk Hp].
  split; [done|]. split; [done|]. split; [done|]. by apply process_again.
Qed.

(** A tree that is the list of its devices. *)
Definition sample_lookup (t : list (list string)) (p : list string) (n : string) : bool :=
  bool_decide (p ++ [n] ∈ t).
Definition sample_dev (p : list string) (n : string) (t : list (list string)) := (p ++ [n]) :: t.
Definition sample_obj (p : list string) (n : string) (o : acpi_object) (t : list (list string)) := t.

#[export] Instance sample_tree : AcpiTree sample_lookup sample_dev sample_obj.
Proof.
  split; unfold sample_lookup, sample_dev, sample_obj; intros; apply bool_decide_eq_true_2.
  - apply list_elem_of_here.
  - apply list_elem_of_further. by eapply bool_decide_eq_true_1.
  - by eapply bool_decide_eq_true_1.
Qed.

Definition sample_host (path : string) : bytes := bytes_of_string "0x1f0000" ++ [10].

Lemma process_dev_idempotent_witness :
  exists t, acpi_process_dev sample_lookup sample_dev sample_obj sample_host "\_SB_.PCI0" [] = Some t
    /\ keeps sample_lookup [] t /\ present sample_lookup t [] ["_SB_"; "PCI0"]
    /\ acpi_process_dev sample_lookup sample_dev sample_obj sample_host "\_SB_.PCI0" t = Some t.
Proof.
  apply (process_dev_idempotent sample_lookup sample_dev sample_obj sample_host [] ["_SB_"; "PCI0"]).
  - exact sample_tree.
  - intros p. exists (AInt 0x1f0000). split; [vm_compute; reflexivity|]. split; discriminate.
  - repeat constructor.
  - vm_compute. discriminate.
Defined.

Example process_dev_runs :
  acpi_process_dev sample_lookup sample_dev sample_obj sample_host "\_SB_.PCI0" []
  = Some [["_SB_"; "PCI0"]; ["_SB_"]].
Proof. vm_compute. reflexivity. Qed.
