(* ===== verification/Coverage.v ===== *)
(** trace_lbr.c, trace.c and tools/covpreproc.c: branch coverage.

    While tracing is on, the processor traps at every taken branch and the
    handler counts, per code byte, the branches that leave it and that arrive
    at it.  covpreproc adds up such tables and turns them into execution counts
    of the instructions of a listing. *)
From S2P Require Import Prelude CLib.

Definition COVERAGE_TABLE_SIZE : nat := Z.to_nat (512 * 1024).
Lemma table_size : Z.of_nat COVERAGE_TABLE_SIZE = 524288.
Proof. unfold COVERAGE_TABLE_SIZE. by rewrite Z2Nat.id by lia. Qed.
#[global] Opaque COVERAGE_TABLE_SIZE.

Record coverage_branch := CoverageBranch { to_cnt : Z; from_cnt : Z }.

(** ** Collecting (trace_lbr.c) *)
Module Lbr.

Definition MSR_IA32_DEBUGCTL_LBR : Z := 1.
Definition MSR_IA32_DEBUGCTL_BTF : Z := 2.

(** [coverage], the descriptor [msrfd], the debug control register, the trap
    flag, and the table; tables are indexed by the distance from
    [coverage_begin]. *)
Record tracer := Tracer {
  coverage : Z; msrfd : Z; debugctl : Z; eflags_tf : bool; table : list coverage_branch }.

Section collecting.
Context (coverage_begin coverage_end : Z).
(** [open("/dev/cpu/0/msr")] and whether the register can be written; the
    program exits when either fails ([None]). *)
Context (open_msr : Z) (can_write : bool).

Definition wrmsr_debugctl (data : Z) (t : tracer) : option tracer :=
  if can_write then Some (Tracer (coverage t) (msrfd t) data (eflags_tf t) (table t)) else None.

(** An index outside the table is [None]. *)
Definition count (f : coverage_branch -> coverage_branch) (addr : Z) (tab : list coverage_branch)
  : option (list coverage_branch) :=
  if (coverage_begin <=? addr) && (addr <? coverage_end) then
    b ← tab !! Z.to_nat (addr - coverage_begin);
    Some (<[Z.to_nat (addr - coverage_begin) := f b]> tab)
  else Some tab.

Definition inc_from (b : coverage_branch) := CoverageBranch (to_cnt b) (u64 (from_cnt b + 1)).
Definition inc_to (b : coverage_branch) := CoverageBranch (u64 (to_cnt b + 1)) (from_cnt b).

(** The trap after a branch from [from] to [to]. *)
Definition handle_sigtrap (from to : Z) (t : tracer) : option tracer :=
  tab ← count inc_from from (table t);
  tab ← count inc_to to tab;
  wrmsr_debugctl (MSR_IA32_DEBUGCTL_LBR + MSR_IA32_DEBUGCTL_BTF)
    (Tracer (coverage t) (msrfd t) (debugctl t) (eflags_tf t) tab).

Definition trace_lbr_enable (t : tracer) : option tracer :=
  t ← wrmsr_debugctl (MSR_IA32_DEBUGCTL_LBR + MSR_IA32_DEBUGCTL_BTF)
        (Tracer 1 (msrfd t) (debugctl t) (eflags_tf t) (table t));
  if open_msr <? 0 then None
  else Some (Tracer (coverage t) open_msr (debugctl t) (eflags_tf t) (table t)).
Definition trace_lbr_disable (t : tracer) : option tracer := wrmsr_debugctl 0 t.
Definition trace_lbr_on (t : tracer) : tracer :=
  Tracer (coverage t) (msrfd t) (debugctl t) (truth (coverage t)) (table t).
Definition trace_lbr_off (t : tracer) : tracer :=
  Tracer (coverage t) (msrfd t) (debugctl t) false (table t).

(** trace.c: the tracer the program is built with *)
Definition trace_enable : tracer -> option tracer := trace_lbr_enable.
Definition trace_disable : tracer -> option tracer := trace_lbr_disable.
Definition trace_on : tracer -> tracer := trace_lbr_on.
Definition trace_off : tracer -> tracer := trace_lbr_off.
End collecting.
End Lbr.

(** ** Evaluating (covpreproc.c) *)
Module Preproc.

Definition coverage_begin : Z := 0x34.

(** [read_coverage_file]: the counters of a file are added. *)
Definition add_branch (b c : coverage_branch) : coverage_branch :=
  CoverageBranch (u64 (to_cnt b + to_cnt c)) (u64 (from_cnt b + from_cnt c)).
Definition branch_at (file : bytes) (i : nat) : coverage_branch :=
  CoverageBranch (le64_at file (16 * i)) (le64_at file (16 * i + 8)).
Definition read_coverage_file (file : bytes) (branches : list coverage_branch) : list coverage_branch :=
  zip_with add_branch branches (map (branch_at file) (seq 0 (length branches))).

(** [fgets] into a buffer of 1024 bytes: what is behind the terminator stays. *)
Definition set_line (line : string) (tmp : bytes) : bytes := overlay 0 (bytes_of_string line ++ [0]) tmp.

Definition count_line_bytes (s : bytes) : nat :=
  length (fst (foldl (fun '(l, go) i =>
    if go && negb (byte_at s i =? 32) then (i :: l, true) else (l, false)) ([], true)
    [10; 13; 16; 19; 22; 25; 28; 31; 34; 37; 40; 43; 46; 49; 52; 55; 58]%nat)).

Definition is_hex_upper (c : ascii) : bool :=
  ((48 <=? code c) && (code c <=? 57)) || ((65 <=? code c) && (code c <=? 70)).
Fixpoint strspn_hex (s : string) : nat :=
  match s with String c s => if is_hex_upper c then S (strspn_hex s) else O | "" => O end.
Fixpoint skip_blanks (s : string) : string :=
  match s with
  | String c s' => if (code c =? 32) || (code c =? 9) then skip_blanks s' else s
  | "" => ""
  end.

(** The lines that continue an instruction. *)
Fixpoint block_rest (lines : list string) (tmp : bytes) : nat :=
  match lines with
  | [] => 0
  | l :: lines =>
      let tmp := set_line l tmp in
      if (byte_at tmp 0 =? 32) && negb (byte_at tmp 10 =? 32)
      then (count_line_bytes tmp + block_rest lines tmp)%nat else 0
  end.

(** From the current line on; [junk] is the local buffer. *)
Definition count_block_bytes (lines : list string) (junk : bytes) : nat :=
  match lines with
  | [] => 0
  | l :: lines =>
      if (strspn_hex l =? 8)%nat
      then (count_line_bytes (set_line l junk) + block_rest lines (set_line l junk))%nat else 0
  end.

Definition cond_jumps : list string :=
  ["jo"; "jno"; "js"; "jns"; "je"; "jne"; "jz"; "jnz"; "jb"; "jnb"; "jc"; "jnc"; "jae"; "jnae"; "jbe";
   "jna"; "ja"; "jnbe"; "jl"; "jnge"; "jge"; "jnl"; "jle"; "jng"; "jg"; "jnle"; "jp"; "jpe"; "jnp"; "jpo";
   "loop"; "jcxz"; "jecxz"].
Definition is_cond_jump (s : string) : bool := existsb (fun p => prefix_of p (skip_blanks s)) cond_jumps.

(** The sum of a counter over the bytes of an instruction. *)
Definition total (f : coverage_branch -> Z) (branches : list coverage_branch) (pos : Z) (len : nat) : Z :=
  foldl (fun n i =>
    let a := pos + Z.of_nat i in
    if (coverage_begin <=? a) && (a <? coverage_begin + Z.of_nat COVERAGE_TABLE_SIZE)
    then u64 (n + match branches !! Z.to_nat (a - coverage_begin) with Some b => f b | None => 0 end)
    else n) 0 (seq 0 len).

(** The count shown for an instruction, and the one carried on. *)
Definition shown (branches : list coverage_branch) (pos : Z) (len : nat) (cur : Z) : Z :=
  u64 (cur + total to_cnt branches pos len).
Definition carried (branches : list coverage_branch) (pos : Z) (len : nat) (cur : Z) : Z :=
  u64 (shown branches pos len cur - total from_cnt branches pos len).

Definition spaces (n : nat) : string := str_repeat n (chr 32).

(** What is printed before the text of a line with an instruction. *)
Definition columns (branches : list coverage_branch) (is_cond : bool) (pos : Z) (len : nat) (cur : Z) : string :=
  let cur := shown branches pos len cur in
  let taken := total from_cnt branches pos len in
  let not_taken := u64 (cur - taken) in
  (if is_cond then if truth taken && truth not_taken then " " else "-" else " ")
  +:+ (if truth cur then " " else "-")
  +:+ (if is_cond then
         let t := width 10 (fmt_u taken) +:+ "/" +:+ fmt_u not_taken in
         t +:+ spaces (19 - String.length t)
       else spaces 19)
  +:+ " " +:+ width 10 (fmt_u cur).

(** The main loop over the lines [fgets] returns. *)
Fixpoint annotate (branches : list coverage_branch) (lines : list string) (tmp junk : bytes) (cur : Z) : string :=
  match lines with
  | [] => ""
  | l :: rest =>
      let tmp := set_line l tmp in
      let text := cstring (drop 64 tmp) in
      if (strspn_hex l =? 8)%nat then
        let len := count_block_bytes lines junk in
        let pos := strto_unsigned 64 (strto_scan 16 l) in
        columns branches (is_cond_jump text) pos len cur +:+ " : " +:+ text
        +:+ annotate branches rest tmp junk (carried branches pos len cur)
      else spaces 32 +:+ " : " +:+ text +:+ annotate branches rest tmp junk cur
  end.

(** [main]: the coverage files are added to the zeroed table, then the listing
    is gone through; [tmp] and [junk] are the two uninitialised buffers. *)
Definition no_branches : list coverage_branch := replicate COVERAGE_TABLE_SIZE (CoverageBranch 0 0).
Definition covpreproc (files : list bytes) (lines : list string) (tmp junk : bytes) : string :=
  annotate (foldl (fun branches file => read_coverage_file file branches) no_branches files) lines tmp junk 0.
End Preproc.

(** ** What the counts mean *)

(** A straight run of instructions: entered by a branch at the first, left by a
    branch at the last; both as distances from [coverage_begin]. *)
Abbreviation run := (nat * nat)%type.

(** How many runs execute the instruction at [i], and how many are left by a
    branch from it. *)
Definition visits (runs : list run) (i : nat) : Z :=
  Z.of_nat (length (List.filter (fun r => (fst r <=? i) && (i <=? snd r))%nat runs)).

Definition times (l : list nat) (i : nat) : Z := Z.of_nat (length (List.filter (Nat.eqb i) l)).
Definition below (l : list nat) (i : nat) : Z := Z.of_nat (length (List.filter (fun x => x <? i)%nat l)).

(** *** Counting *)

Lemma below_S l i : below l (S i) = below l i + times l i.
Proof.
  unfold below, times. induction l as [|x l IH]; [done|]. cbn [List.filter].
  destruct (Nat.ltb_spec x (S i)), (Nat.ltb_spec x i), (Nat.eqb_spec i x); cbn [length]; try lia.
Qed.

(** Nothing in between: the bytes of an instruction after its first. *)
Lemma below_gap l i n :
  Forall (fun x => ~ (i < x < i + n)%nat) l -> (0 < n)%nat -> below l (i + n) = below l (S i).
Proof.
  intros HF Hn. unfold below. induction HF as [|x l Hx _ IH]; [done|]. cbn [List.filter].
  destruct (Nat.ltb_spec x (i + n)), (Nat.ltb_spec x (S i)); cbn [length]; try lia.
Qed.

(** Runs entered up to [i] less those left before [i] are those that pass it. *)
Lemma visits_flow runs i :
  Forall (fun r => fst r <= snd r)%nat runs ->
  visits runs i = below (map fst runs) (S i) - below (map snd runs) i.
Proof.
  unfold visits, below. induction 1 as [|[a b] runs Hr _ IH]; [done|]. cbn [List.filter map fst snd] in *.
  destruct (Nat.leb_spec a i), (Nat.leb_spec i b), (Nat.ltb_spec a (S i)), (Nat.ltb_spec b i);
    cbn [andb length]; lia.
Qed.

(** The sum of a counter over the bytes of an instruction. *)
Lemma total_times f branches l pos len :
  (forall i, (i < COVERAGE_TABLE_SIZE)%nat -> exists b, branches !! i = Some b /\ f b = times l i) ->
  Z.of_nat (length l) < 2 ^ 64 -> (pos + len <= COVERAGE_TABLE_SIZE)%nat ->
  Preproc.total f branches (Preproc.coverage_begin + Z.of_nat pos) len = below l (pos + len) - below l pos.
Proof.
  intros Hb Hl. unfold Preproc.total.
  assert (Hbel : forall i, 0 <= below l i <= Z.of_nat (length l)).
  { intros i. unfold below. pose proof (List.filter_length_le (fun x => x <? i)%nat l). lia. }
  induction len as [|len IH]; intros Hs; [rewrite Nat.add_0_r; cbn; lia|].
  rewrite seq_S, foldl_app, IH by lia. cbn [foldl Nat.add]. cbv zeta. unfold Preproc.coverage_begin.
  rewrite (proj2 (Z.leb_le _ _)), (proj2 (Z.ltb_lt _ _)) by lia. cbn [andb].
  replace (Z.to_nat (52 + Z.of_nat pos + Z.of_nat len - 52)) with (pos + len)%nat by lia.
  destruct (Hb (pos + len)%nat) as (b & -> & ->); [lia|].
  rewrite Nat.add_succ_r, below_S. pose proof (Hbel (S (pos + len))). rewrite below_S in H.
  pose proof (Hbel pos). rewrite u64_small; [lia|].
  assert (below l pos <= below l (pos + len)); [|assert (0 <= times l (pos + len)) by (unfold times; lia); lia].
  clear -l. induction len as [|len IH]; [rewrite Nat.add_0_r; lia|].
  rewrite Nat.add_succ_r, below_S. unfold times in *. lia.
Qed.

(** *** From the trace to the table *)
Section trace.
Context (cb ce open_msr : Z).
Abbreviation trap := (Lbr.handle_sigtrap cb ce true).

(** The branches of an execution, in order. *)
Fixpoint collect (ev : list (Z * Z)) (t : Lbr.tracer) : option Lbr.tracer :=
  match ev with
  | [] => Some t
  | (from, to) :: ev => t ← trap from to t; collect ev t
  end.

Definition inside (a : Z) : bool := (cb <=? a) && (a <? ce).
Definition places (l : list Z) : list nat := map (fun a => Z.to_nat (a - cb)) (List.filter inside l).

Lemma times_cons_place a l i :
  times (places (a :: l)) i =
  (if inside a && (i =? Z.to_nat (a - cb))%nat then 1 else 0) + times (places l) i.
Proof.
  unfold times, places. cbn [List.filter]. destruct (inside a); cbn [andb map List.filter]; [|lia].
  destruct (Nat.eqb_spec i (Z.to_nat (a - cb))); cbn [length]; lia.
Qed.

(** One counter is incremented, when the address is in the traced code. *)
Lemma count_spec f a tab :
  ce - cb <= Z.of_nat (length tab) ->
  exists tab', Lbr.count cb ce f a tab = Some tab' /\ length tab' = length tab
    /\ forall i b, tab !! i = Some b ->
         tab' !! i = Some (if inside a && (i =? Z.to_nat (a - cb))%nat then f b else b).
Proof.
  intros Hl. unfold Lbr.count. fold (inside a). destruct (inside a) eqn:Ea; cbn [andb]; [|eauto].
  unfold inside in Ea. destruct (lookup_lt_is_Some_2 tab (Z.to_nat (a - cb))) as [b Hb]; [lia|].
  rewrite Hb. cbn [mbind option_bind]. eexists. split; [reflexivity|]. split; [apply length_insert|].
  intros i b' Hi. destruct (Nat.eqb_spec i (Z.to_nat (a - cb))) as [->|Hne].
  - rewrite list_lookup_insert_eq by (by eapply lookup_lt_Some). congruence.
  - by rewrite list_lookup_insert_ne by congruence.
Qed.

Lemma u64_add_l x y : u64 (u64 x + y) = u64 (x + y).
Proof. unfold u64. apply Zplus_mod_idemp_l. Qed.

Lemma collect_counts ev : forall t,
  ce - cb <= Z.of_nat (length (Lbr.table t)) ->
  (forall i b, Lbr.table t !! i = Some b -> 0 <= to_cnt b < 2 ^ 64 /\ 0 <= from_cnt b < 2 ^ 64) ->
  exists t', collect ev t = Some t' /\ length (Lbr.table t') = length (Lbr.table t)
    /\ forall i b, Lbr.table t !! i = Some b ->
         Lbr.table t' !! i = Some (CoverageBranch (u64 (to_cnt b + times (places (map snd ev)) i))
                                                  (u64 (from_cnt b + times (places (map fst ev)) i))).
Proof.
  induction ev as [|[from to] ev IH]; intros t Hl Hok.
  { exists t. split; [done|]. split; [done|]. intros i b Hi. destruct (Hok i b Hi). unfold times.
    cbn [map places List.filter length]. rewrite !Z.add_0_r, !u64_small by done. by destruct b. }
  cbn [collect map fst snd]. unfold Lbr.handle_sigtrap.
  destruct (count_spec Lbr.inc_from from (Lbr.table t) Hl) as (tab1 & -> & Hl1 & H1). cbn [mbind option_bind].
  destruct (count_spec Lbr.inc_to to tab1) as (tab2 & -> & Hl2 & H2); [by rewrite Hl1|]. cbn [mbind option_bind].
  unfold Lbr.wrmsr_debugctl. cbn [mbind option_bind].
  set (t1 := Lbr.Tracer _ _ _ _ _).
  assert (Hstep : forall i b, Lbr.table t !! i = Some b -> Lbr.table t1 !! i = Some (CoverageBranch
    (u64 (to_cnt b + if inside to && (i =? Z.to_nat (to - cb))%nat then 1 else 0))
    (u64 (from_cnt b + if inside from && (i =? Z.to_nat (from - cb))%nat then 1 else 0)))).
  { intros i b Hi. destruct (Hok i b Hi). unfold t1. cbn [Lbr.table]. rewrite (H2 _ _ (H1 _ _ Hi)). f_equal.
    destruct (inside to && _), (inside from && _); unfold Lbr.inc_to, Lbr.inc_from; cbn [to_cnt from_cnt];
      rewrite ?Z.add_0_r, ?(u64_small (to_cnt b)), ?(u64_small (from_cnt b)) by done; by destruct b. }
  destruct (IH t1) as (t' & Hr & Hl' & Hc).
  { unfold t1. cbn [Lbr.table]. lia. }
  { intros i b Hi. destruct (lookup_lt_is_Some_2 (Lbr.table t) i) as [b0 Hb0].
    { apply lookup_lt_Some in Hi. unfold t1 in Hi. cbn [Lbr.table] in Hi. lia. }
    rewrite (Hstep _ _ Hb0) in Hi. injection Hi as <-. cbn [to_cnt from_cnt]. split; apply u64_range. }
  exists t'. split; [exact Hr|]. split; [rewrite Hl'; unfold t1; cbn [Lbr.table]; lia|].
  intros i b Hi. rewrite (Hc _ _ (Hstep _ _ Hi)). cbn [to_cnt from_cnt].
  rewrite !u64_add_l, !times_cons_place, !Z.add_assoc. done.
Qed.
End trace.

(** *** Listings

    A line of the listing of an instruction has eight hexadecimal digits of its
    address, ": ", its bytes, and its text from column 64 on; other lines are
    blank up to there. *)
Definition hex_upper (d : Z) : ascii := chr (if d <? 10 then 48 + d else 55 + d).
Fixpoint hex_digits (k : nat) (a : Z) : string :=
  match k with O => "" | S k => String (hex_upper (a / 16 ^ Z.of_nat k mod 16)) (hex_digits k a) end.
Definition hex_bytes (bs : bytes) : string := foldr (fun b acc => hex_digits 2 b +:+ " " +:+ acc) "" bs.
Definition pad_to (n : nat) (s : string) : string := s +:+ Preproc.spaces (n - String.length s).

(** The instruction with bytes [opcode] at distance [pos] from the start of the
    code. *)
Inductive entry := Instr (pos : nat) (opcode : bytes) (text : string) | Other (text : string).

Definition listing_line (e : entry) : string :=
  match e with
  | Instr pos opcode text =>
      pad_to 64 (hex_digits 8 (Preproc.coverage_begin + Z.of_nat pos) +:+ ": " +:+ hex_bytes opcode) +:+ text
  | Other text => Preproc.spaces 64 +:+ text
  end.

(** An instruction has its bytes on one line, and a line fits the buffer. *)
Definition text_ok (text : string) : Prop := no_nul text /\ (String.length text <= 959)%nat.
Definition entry_ok (e : entry) : Prop :=
  match e with
  | Instr _ opcode text => (0 < length opcode <= 17)%nat /\ text_ok text
  | Other text => text_ok text
  end.

Definition instrs (es : list entry) : list (nat * nat) :=
  omap (fun e => match e with Instr pos opcode _ => Some (pos, length opcode) | Other _ => None end) es.

(** What is to be printed for a line: how often the instruction was executed,
    and how often a conditional jump was taken and not taken. *)
Definition report_line (runs : list run) (e : entry) : string :=
  match e with
  | Other text => Preproc.spaces 32 +:+ " : " +:+ text
  | Instr pos _ text =>
      let executed := visits runs pos in
      let taken := times (map snd runs) pos in
      let not_taken := executed - taken in
      (if Preproc.is_cond_jump text then if (0 <? taken) && (0 <? not_taken) then " " else "-" else " ")
      +:+ (if executed =? 0 then "-" else " ")
      +:+ (if Preproc.is_cond_jump text
           then pad_to 19 (width 10 (fmt_u taken) +:+ "/" +:+ fmt_u not_taken)
           else Preproc.spaces 19)
      +:+ " " +:+ width 10 (fmt_u executed) +:+ " : " +:+ text
  end.
Definition report (runs : list run) (es : list entry) : string :=
  foldr (fun e acc => report_line runs e +:+ acc) "" es.

(** Hexadecimal digits *)

Lemma hex_upper_facts d : 0 <= d < 16 ->
  digit_val (hex_upper d) = Some d /\ Preproc.is_hex_upper (hex_upper d) = true
  /\ isspace (hex_upper d) = false /\ code (hex_upper d) <> 32 /\ code (hex_upper d) <> 43
  /\ code (hex_upper d) <> 45 /\ code (hex_upper d) <> 88 /\ code (hex_upper d) <> 120.
Proof.
  intros Hd.
  assert (Forall (fun d => digit_val (hex_upper d) = Some d /\ Preproc.is_hex_upper (hex_upper d) = true
    /\ isspace (hex_upper d) = false /\ code (hex_upper d) <> 32 /\ code (hex_upper d) <> 43
    /\ code (hex_upper d) <> 45 /\ code (hex_upper d) <> 88 /\ code (hex_upper d) <> 120) (seqZ 0 16))
    as H by (apply (bool_decide_unpack _); vm_compute; reflexivity).
  rewrite List.Forall_forall in H. apply H, list_elem_of_In, elem_of_seqZ. lia.
Qed.

Lemma hex_digit_range a k : 0 <= a / 16 ^ Z.of_nat k mod 16 < 16.
Proof. apply Z.mod_pos_bound. lia. Qed.

Lemma length_hex_digits k a : String.length (hex_digits k a) = k.
Proof. induction k as [|k IH]; [done|]. simpl. by rewrite IH. Qed.

Lemma scan_hex_digits k a c rest : digit_val c = None -> 0 <= a -> forall acc,
  scan_digits 16 acc (hex_digits k a +:+ String c rest) = (acc * 16 ^ Z.of_nat k + a mod 16 ^ Z.of_nat k, String c rest).
Proof.
  intros Hc Ha. induction k as [|k IH]; intros acc; cbn [hex_digits].
  { change ("" +:+ ?x) with x. cbn [scan_digits]. rewrite Hc, Z.mod_1_r. f_equal. lia. }
  rewrite string_app_cons. cbn [scan_digits].
  destruct (hex_upper_facts _ (hex_digit_range a k)) as [-> _]. pose proof (hex_digit_range a k).
  rewrite (proj2 (Z.ltb_lt _ _)), IH by lia. f_equal.
  pose proof (Z.pow_pos_nonneg 16 (Z.of_nat k) ltac:(lia) ltac:(lia)).
  rewrite Nat2Z.inj_succ, Z.pow_succ_r, (Z.mul_comm 16), Z.rem_mul_r by lia. nia.
Qed.

Lemma strspn_hex_digits k a c rest :
  Preproc.is_hex_upper c = false -> Preproc.strspn_hex (hex_digits k a +:+ String c rest) = k.
Proof.
  intros Hc. induction k as [|k IH]; cbn [hex_digits].
  { change ("" +:+ ?x) with x. cbn [Preproc.strspn_hex]. by rewrite Hc. }
  rewrite string_app_cons. cbn [Preproc.strspn_hex].
  destruct (hex_upper_facts _ (hex_digit_range a k)) as (_ & -> & _). by rewrite IH.
Qed.

(** The address at the start of a line. *)
Lemma scan_address a rest :
  0 <= a < 2 ^ 32 -> strto_unsigned 64 (strto_scan 16 (hex_digits 8 a +:+ ": " +:+ rest)) = a.
Proof.
  intros Ha. set (text := hex_digits 8 a +:+ ": " +:+ rest).
  assert (Hs : scan_digits 16 0 text = (a, String ":" (" " +:+ rest))).
  { unfold text. change (": " +:+ rest) with (String ":" (" " +:+ rest)). rewrite scan_hex_digits by (done || lia).
    rewrite Z.mul_0_l, Z.add_0_l, Z.mod_small; [done|]. change (16 ^ Z.of_nat 8) with (2 ^ 32). lia. }
  pose proof (hex_upper_facts _ (hex_digit_range a 7)) as (_ & _ & Hsp & _ & H43 & H45 & _).
  pose proof (hex_upper_facts _ (hex_digit_range a 6)) as (_ & _ & _ & _ & _ & _ & H88 & H120).
  unfold strto_scan.
  assert (skip_space text = text) as -> by (unfold text; cbn [hex_digits]; rewrite string_app_cons; simpl; by rewrite Hsp).
  assert (take_sign text = (false, text)) as ->.
  { unfold text. cbn [hex_digits]. rewrite string_app_cons. unfold take_sign.
    by rewrite (proj2 (Z.eqb_neq _ _) H45), (proj2 (Z.eqb_neq _ _) H43). }
  assert (take_base 16 text = (16, text)) as ->.
  { unfold text. cbn [hex_digits]. rewrite !string_app_cons. unfold take_base.
    rewrite (proj2 (Z.eqb_neq _ _) H88), (proj2 (Z.eqb_neq _ _) H120). by rewrite !andb_false_r. }
  rewrite Hs, (proj2 (Nat.eqb_neq _ _)).
  - unfold strto_unsigned. cbn [st_mag st_neg]. by rewrite (proj2 (Z.ltb_ge _ _)) by lia.
  - unfold text. rewrite !string_length_app, length_hex_digits. cbn [String.length].
    rewrite ?string_length_app. cbn [String.length]. lia.
Qed.

(** Characters of a line in the buffer. *)

Lemma byte_at_skip (a b : bytes) i : byte_at (a ++ b) (length a + i) = byte_at b i.
Proof. unfold byte_at. by rewrite (sub_skip a b i 1 (length a)). Qed.

Lemma byte_at_chars a b i : byte_at (bytes_of_string (a +:+ b)) (String.length a + i) = byte_at (bytes_of_string b) i.
Proof. rewrite bytes_of_string_app, <- (length_bytes_of_string a). apply byte_at_skip. Qed.

Lemma byte_at_char c s r : byte_at (bytes_of_string (String c s) ++ r) 0 = code c.
Proof. change (le_val [code c] = code c). cbn [le_val]. lia. Qed.

Lemma byte_at_prefix (a b : bytes) i : (i < length a)%nat -> byte_at (a ++ b) i = byte_at a i.
Proof. intros Hi. unfold byte_at. by rewrite sub_app_l by lia. Qed.

Lemma length_spaces n : String.length (Preproc.spaces n) = n.
Proof. unfold Preproc.spaces. induction n as [|n IH]; [done|]. simpl. by rewrite IH. Qed.

Lemma byte_at_spaces n i s : (i < n)%nat -> byte_at (bytes_of_string (Preproc.spaces n +:+ s)) i = 32.
Proof.
  revert i. unfold Preproc.spaces. induction n as [|n IH]; intros i Hi; [lia|]. cbn [str_repeat]. rewrite string_app_cons.
  destruct i as [|i].
  - rewrite <- (app_nil_r (bytes_of_string _)), byte_at_char. reflexivity.
  - change (bytes_of_string (String ?c ?x)) with ([code c] ++ bytes_of_string x).
    change (S i) with (length [code (chr 32)] + i)%nat. rewrite byte_at_skip. apply IH. lia.
Qed.

(** The digit of byte [i] is at column 3 * i, a blank is behind the last. *)
Lemma byte_at_hex_bytes opcode s i :
  byte_at (bytes_of_string (hex_bytes opcode +:+ Preproc.spaces (S i) +:+ s)) (3 * length opcode) = 32
  /\ forall j, (j < length opcode)%nat ->
       byte_at (bytes_of_string (hex_bytes opcode +:+ s)) (3 * j) <> 32.
Proof.
  assert (Hshift : forall b rest j, byte_at (bytes_of_string ((hex_digits 2 b +:+ " " +:+ hex_bytes rest) +:+ j)) =
                                    byte_at (bytes_of_string ((hex_digits 2 b +:+ " ") +:+ hex_bytes rest +:+ j))).
  { intros. by rewrite !string_app_assoc. }
  assert (Hlen : forall b, String.length (hex_digits 2 b +:+ " ") = 3%nat) by done.
  induction opcode as [|b opcode [IH1 IH2]]; cbn [hex_bytes foldr length].
  { split; [|lia]. change ("" +:+ ?x) with x. apply byte_at_spaces. lia. }
  fold (hex_bytes opcode). rewrite !Hshift. split.
  - replace (3 * S (length opcode))%nat with (String.length (hex_digits 2 b +:+ " ") + 3 * length opcode)%nat
      by (rewrite Hlen; lia). by rewrite byte_at_chars.
  - intros [|j] Hj.
    + rewrite <- (app_nil_r (bytes_of_string _)). cbn [hex_digits]. rewrite !string_app_cons, byte_at_char.
      apply (hex_upper_facts _ (hex_digit_range b 1)).
    + replace (3 * S j)%nat with (String.length (hex_digits 2 b +:+ " ") + 3 * j)%nat by (rewrite Hlen; lia).
      rewrite byte_at_chars. apply IH2. lia.
Qed.

(** Instructions follow each other from [p] on, inside the table. *)
Fixpoint contiguous (p : nat) (instrs : list (nat * nat)) : Prop :=
  match instrs with
  | [] => (p <= COVERAGE_TABLE_SIZE)%nat
  | (s, n) :: instrs => s = p /\ (0 < n)%nat /\ contiguous (p + n) instrs
  end.

Lemma contiguous_starts p instrs :
  contiguous p instrs ->
  (p <= COVERAGE_TABLE_SIZE)%nat /\ Forall (fun i => p <= fst i /\ fst i + snd i <= COVERAGE_TABLE_SIZE)%nat instrs.
Proof.
  revert p; induction instrs as [|[s n] instrs IH]; intros p H; [by split; [|constructor]|].
  destruct H as (-> & Hn & H). destruct (IH _ H) as [Hp HF]. split; [lia|]. constructor; [simpl; lia|].
  eapply List.Forall_impl; [|exact HF]. simpl. lia.
Qed.

(** A start of an instruction is never inside another one. *)
Lemma contiguous_apart p instrs s n x :
  contiguous p instrs -> (s, n) ∈ instrs -> x ∈ map fst instrs -> ~ (s < x < s + n)%nat.
Proof.
  revert p; induction instrs as [|[s0 n0] instrs IH]; intros p H Hs Hx; [by apply elem_of_nil in Hs|].
  destruct H as (-> & Hn & H). destruct (contiguous_starts _ _ H) as [_ HF].
  rewrite List.Forall_forall in HF. cbn [map fst] in Hx.
  apply elem_of_cons in Hs as [[= -> ->]|Hs], Hx as [->|Hx]; try lia.
  - apply list_elem_of_fmap in Hx as ([s' n'] & -> & Hin). apply list_elem_of_In, HF in Hin. simpl in *. lia.
  - apply list_elem_of_In, HF in Hs. simpl in Hs. lia.
  - by apply (IH (p + n0)%nat).
Qed.

#[export] Instance filter_perm {A} (f : A -> bool) : Proper (Permutation ==> Permutation) (List.filter f).
Proof.
  induction 1 as [|x l l' Hp IH|x y l|l l' l'' _ IH1 _ IH2]; cbn [List.filter]; try done.
  - destruct (f x); [by constructor|done].
  - destruct (f x), (f y); try done. by constructor.
  - by transitivity (List.filter f l').
Qed.

Lemma below_le runs i :
  Forall (fun r => fst r <= snd r)%nat runs -> below (map snd runs) i <= below (map fst runs) i.
Proof.
  unfold below. induction 1 as [|[a b] runs Hr _ IH]; [done|]. cbn [List.filter map fst snd] in *.
  destruct (Nat.ltb_spec a i), (Nat.ltb_spec b i); cbn [length]; lia.
Qed.

(** A line in the buffer *)

Definition text_of (e : entry) : string := match e with Instr _ _ t | Other t => t end.
Definition margin (e : entry) : string :=
  match e with
  | Instr pos opcode _ => pad_to 64 (hex_digits 8 (Preproc.coverage_begin + Z.of_nat pos) +:+ ": " +:+ hex_bytes opcode)
  | Other _ => Preproc.spaces 64
  end.

Lemma listing_line_margin e : listing_line e = margin e +:+ text_of e.
Proof. by destruct e. Qed.

Lemma length_hex_bytes opcode : String.length (hex_bytes opcode) = (3 * length opcode)%nat.
Proof.
  induction opcode as [|b opcode IH]; [done|]. cbn [hex_bytes foldr length]. fold (hex_bytes opcode).
  rewrite !string_length_app, length_hex_digits, IH. cbn [String.length]. lia.
Qed.

Lemma length_pad_to n s : (String.length s <= n)%nat -> String.length (pad_to n s) = n.
Proof. intros H. unfold pad_to. rewrite string_length_app, length_spaces. lia. Qed.

Lemma length_margin e : entry_ok e -> String.length (margin e) = 64%nat.
Proof.
  destruct e as [pos opcode text|text]; intros He; [|apply length_spaces].
  destruct He as [Ho _]. apply length_pad_to.
  rewrite !string_length_app, length_hex_digits, length_hex_bytes. cbn [String.length]. lia.
Qed.

Lemma entry_text_ok e : entry_ok e -> text_ok (text_of e).
Proof. destruct e; simpl; tauto. Qed.

Lemma set_line_app l tmp : exists r, Preproc.set_line l tmp = bytes_of_string l ++ 0 :: r.
Proof. unfold Preproc.set_line. rewrite overlay_0, <- app_assoc. by eexists. Qed.

Lemma length_set_line e tmp : entry_ok e -> length tmp = 1024%nat -> length (Preproc.set_line (listing_line e) tmp) = 1024%nat.
Proof.
  intros He Ht. destruct (entry_text_ok e He) as [_ Hl]. unfold Preproc.set_line. rewrite length_overlay; [done|].
  rewrite length_app, length_bytes_of_string, listing_line_margin, string_length_app, length_margin by done. simpl. lia.
Qed.

(** The text is what lies from column 64 on. *)
Lemma line_text e tmp : entry_ok e -> cstring (drop 64 (Preproc.set_line (listing_line e) tmp)) = text_of e.
Proof.
  intros He. destruct (entry_text_ok e He) as [Hn _]. destruct (set_line_app (listing_line e) tmp) as [r ->].
  rewrite listing_line_margin, bytes_of_string_app, <- app_assoc.
  rewrite drop_app_length' by (by rewrite length_bytes_of_string, length_margin).
  rewrite cstring_app by done. apply string_app_nil_r.
Qed.

Lemma line_byte l tmp i : (i < String.length l)%nat -> byte_at (Preproc.set_line l tmp) i = byte_at (bytes_of_string l) i.
Proof.
  intros Hi. destruct (set_line_app l tmp) as [r ->]. apply byte_at_prefix. by rewrite length_bytes_of_string.
Qed.

(** The columns of the bytes are counted up to the first blank one. *)
Lemma count_columns (P : nat -> bool) l1 l2 :
  Forall (fun i => P i = true) l1 -> match l2 with [] => True | x :: _ => P x = false end ->
  length (fst (foldl (fun '(l, go) i => if go && P i then (i :: l, true) else (l, false)) ([], true) (l1 ++ l2)))
  = length l1.
Proof.
  intros H1 H2. rewrite foldl_app.
  assert (Hstop : forall l acc, foldl (fun '(l, go) i => if go && P i then (i :: l, true) else (l, false)) (acc, false) l
                    = (acc, false)) by (induction l as [|x l IH]; intros acc; [done|]; simpl; apply IH).
  assert (Hrun : forall acc, foldl (fun '(l, go) i => if go && P i then (i :: l, true) else (l, false)) (acc, true) l1
                    = (reverse l1 ++ acc, true)).
  { clear H2 Hstop. induction H1 as [|x l1 Hx _ IH]; intros acc; [done|]. cbn [foldl]. rewrite Hx. cbn [andb].
    by rewrite IH, reverse_cons, <- app_assoc. }
  rewrite Hrun, app_nil_r. destruct l2 as [|x l2]; cbn [foldl fst]; [by rewrite length_reverse|].
  rewrite H2. cbn [andb]. rewrite Hstop. cbn [fst]. by rewrite length_reverse.
Qed.

Definition byte_columns : list nat := map (fun i => 10 + 3 * i)%nat (seq 0 17).

Lemma count_line_instr pos opcode text tmp :
  entry_ok (Instr pos opcode text) ->
  Preproc.count_line_bytes (Preproc.set_line (listing_line (Instr pos opcode text)) tmp) = length opcode.
Proof.
  intros He. pose proof (length_margin _ He) as Hm. destruct He as [Ho _].
  set (line := listing_line _). set (addr := hex_digits 8 (Preproc.coverage_begin + Z.of_nat pos) +:+ ": ").
  assert (Ha : String.length addr = 10%nat) by done.
  assert (Hpad : pad_to 64 (addr +:+ hex_bytes opcode)
                 = addr +:+ hex_bytes opcode +:+ Preproc.spaces (S (53 - 3 * length opcode))).
  { unfold pad_to. rewrite string_app_assoc, string_length_app, Ha, length_hex_bytes.
    by replace (64 - (10 + 3 * length opcode))%nat with (S (53 - 3 * length opcode)) by lia. }
  assert (Hline : line = addr +:+ hex_bytes opcode +:+ Preproc.spaces (S (53 - 3 * length opcode)) +:+ text).
  { unfold line, listing_line. rewrite <- string_app_assoc. fold addr. by rewrite Hpad, !string_app_assoc. }
  assert (Hlen : (64 <= String.length line)%nat).
  { unfold line. rewrite listing_line_margin, string_length_app, Hm. lia. }
  assert (Hbyte : forall i, (i <= 17)%nat -> byte_at (Preproc.set_line line tmp) (10 + 3 * i) =
    byte_at (bytes_of_string (hex_bytes opcode +:+ Preproc.spaces (S (53 - 3 * length opcode)) +:+ text)) (3 * i)).
  { intros i Hi. rewrite line_byte by lia. rewrite Hline. rewrite <- Ha at 1. apply byte_at_chars. }
  destruct (byte_at_hex_bytes opcode text (53 - 3 * length opcode)) as [Hend _].
  destruct (byte_at_hex_bytes opcode (Preproc.spaces (S (53 - 3 * length opcode)) +:+ text) 0) as [_ Hdig].
  unfold Preproc.count_line_bytes. change [10; 13; 16; 19; 22; 25; 28; 31; 34; 37; 40; 43; 46; 49; 52; 55; 58]%nat
    with byte_columns.
  unfold byte_columns. replace 17%nat with (length opcode + (17 - length opcode))%nat by lia.
  rewrite seq_app, map_app, (count_columns (fun i => negb (byte_at (Preproc.set_line line tmp) i =? 32))).
  - by rewrite length_map, length_seq.
  - apply List.Forall_map, List.Forall_forall. intros i Hi%in_seq. rewrite Hbyte by lia.
    apply negb_true_iff, Z.eqb_neq, Hdig. lia.
  - destruct (17 - length opcode)%nat; [done|]. cbn [seq map]. rewrite Hbyte by lia.
    rewrite Nat.add_0_l, Hend. done.
Qed.

(** The next line of the listing does not continue the instruction. *)
Lemma block_rest_listing es tmp : Forall entry_ok es -> Preproc.block_rest (map listing_line es) tmp = 0%nat.
Proof.
  destruct es as [|e es]; intros HF; [done|]. inversion HF as [|? ? He _]; subst. cbn [map Preproc.block_rest].
  pose proof (length_margin e He) as Hm.
  assert (64 <= String.length (listing_line e))%nat by (rewrite listing_line_margin, string_length_app; lia).
  rewrite !line_byte by lia. destruct e as [pos opcode text|text]; cbn [listing_line].
  - rewrite <- (app_nil_r (bytes_of_string _)). unfold pad_to. cbn [hex_digits]. rewrite !string_app_cons, byte_at_char.
    rewrite (proj2 (Z.eqb_neq _ _)); [done|]. apply (hex_upper_facts _ (hex_digit_range _ 7)).
  - rewrite !byte_at_spaces by lia. done.
Qed.

Lemma count_block_instr pos opcode text es junk :
  entry_ok (Instr pos opcode text) -> Forall entry_ok es ->
  Preproc.count_block_bytes (map listing_line (Instr pos opcode text :: es)) junk = length opcode.
Proof.
  intros He HF. cbn [map]. unfold Preproc.count_block_bytes. rewrite count_line_instr by done.
  rewrite block_rest_listing by done. unfold listing_line at 1, pad_to. rewrite !string_app_assoc.
  change (": " +:+ ?x) with (String ":" (" " +:+ x)). rewrite strspn_hex_digits by done. cbn [Nat.eqb]. lia.
Qed.

(** *** From the table to the counts *)
Section flow.
Context (branches : list coverage_branch) (runs : list run).
Context (Hruns : Forall (fun r => fst r <= snd r)%nat runs) (Hmany : Z.of_nat (length runs) < 2 ^ 64).
Context (Hto : forall i, (i < COVERAGE_TABLE_SIZE)%nat ->
          exists b, branches !! i = Some b /\ to_cnt b = times (map fst runs) i).
Context (Hfrom : forall i, (i < COVERAGE_TABLE_SIZE)%nat ->
          exists b, branches !! i = Some b /\ from_cnt b = times (map snd runs) i).

(** What is carried into the instruction at [p]: the runs entered before it and
    not left before it. *)
Definition entering (p : nat) : Z := below (map fst runs) p - below (map snd runs) p.

Lemma below_bounds (f : nat * nat -> nat) i : 0 <= below (map f runs) i <= Z.of_nat (length runs).
Proof.
  unfold below. pose proof (List.filter_length_le (fun x => x <? i)%nat (map f runs)). rewrite length_map in *. lia.
Qed.

(** One instruction: the counts of its bytes, and what it shows and carries. *)
Lemma instruction_flow p n :
  (0 < n)%nat -> (p + n <= COVERAGE_TABLE_SIZE)%nat ->
  Forall (fun x => ~ (p < x < p + n)%nat) (map fst runs) -> Forall (fun x => ~ (p < x < p + n)%nat) (map snd runs) ->
  let pos := Preproc.coverage_begin + Z.of_nat p in
  Preproc.total from_cnt branches pos n = times (map snd runs) p
  /\ Preproc.shown branches pos n (entering p) = visits runs p
  /\ Preproc.carried branches pos n (entering p) = entering (p + n)
  /\ 0 <= times (map snd runs) p <= visits runs p /\ visits runs p < 2 ^ 64.
Proof.
  intros Hn Hp Hf Hs. cbv zeta.
  pose proof (below_gap _ p n Hf Hn) as G1. pose proof (below_gap _ p n Hs Hn) as G2.
  pose proof (visits_flow runs p Hruns) as Hv. rewrite <- G1 in Hv.
  pose proof (below_S (map snd runs) p) as Hsucc. rewrite <- G2 in Hsucc.
  pose proof (below_bounds fst (p + n)). pose proof (below_bounds snd (p + n)).
  pose proof (below_bounds fst p). pose proof (below_bounds snd p). pose proof (below_le runs (p + n) Hruns).
  assert (0 <= times (map snd runs) p) by (unfold times; lia).
  assert (Hfr : Preproc.total from_cnt branches (Preproc.coverage_begin + Z.of_nat p) n = times (map snd runs) p).
  { rewrite (total_times _ _ (map snd runs)) by (rewrite ?length_map; auto). lia. }
  assert (Hsh : Preproc.shown branches (Preproc.coverage_begin + Z.of_nat p) n (entering p) = visits runs p).
  { unfold Preproc.shown, entering. rewrite (total_times _ _ (map fst runs)) by (rewrite ?length_map; auto).
    rewrite u64_small; lia. }
  split; [done|]. split; [done|]. unfold Preproc.carried. rewrite Hsh, Hfr. unfold entering.
  split; [rewrite u64_small; lia|]. lia.
Qed.

(** The columns of an instruction. *)
Lemma columns_report p n opcode text rest :
  (0 < n)%nat -> (p + n <= COVERAGE_TABLE_SIZE)%nat ->
  Forall (fun x => ~ (p < x < p + n)%nat) (map fst runs) -> Forall (fun x => ~ (p < x < p + n)%nat) (map snd runs) ->
  Preproc.columns branches (Preproc.is_cond_jump text) (Preproc.coverage_begin + Z.of_nat p) n (entering p)
    +:+ " : " +:+ text +:+ rest
  = report_line runs (Instr p opcode text) +:+ rest.
Proof.
  intros Hn Hp Hf Hs. destruct (instruction_flow p n Hn Hp Hf Hs) as (Ht & Hsh & _ & Hr & Hlt).
  unfold Preproc.columns, report_line, pad_to. cbv zeta. rewrite Ht, Hsh, u64_small by lia. rewrite !string_app_assoc.
  assert (Htr : forall x, 0 <= x -> truth x = (0 <? x)).
  { intros x Hx. unfold truth. destruct (Z.eqb_spec x 0), (Z.ltb_spec 0 x); (done || lia). }
  rewrite !Htr by lia.
  replace (visits runs p =? 0) with (negb (0 <? visits runs p)) 
    by (destruct (Z.ltb_spec 0 (visits runs p)), (Z.eqb_spec (visits runs p) 0); (done || lia)).
  by destruct (0 <? visits runs p).
Qed.

Lemma annotate_report es : forall p tmp junk,
  Forall entry_ok es -> length tmp = 1024%nat -> contiguous p (instrs es) ->
  (forall s n x, (s, n) ∈ instrs es -> x ∈ map fst runs ++ map snd runs -> ~ (s < x < s + n)%nat) ->
  Preproc.annotate branches (map listing_line es) tmp junk (entering p) = report runs es.
Proof.
  induction es as [|e es IH]; intros p tmp junk HF Ht Hc Hap; [done|].
  inversion HF as [|? ? He HF']; subst. pose proof (length_set_line e tmp He Ht) as Ht'.
  cbn [map Preproc.annotate]. cbv zeta. rewrite (line_text e tmp He). change (listing_line e :: map listing_line es)
    with (map listing_line (e :: es)).
  cbn [report foldr]. fold (report runs es). destruct e as [pos opcode text|text].
  - cbn [instrs omap list_omap] in Hc, Hap. fold (instrs es) in Hc, Hap. destruct Hc as (-> & Hn & Hc).
    destruct (contiguous_starts _ _ Hc) as [Hp _].
    assert (Happ : forall f, f ∈ [fst; snd] ->
      Forall (fun x => ~ (p < x < p + length opcode)%nat) (map f runs)).
    { intros f Hf. apply List.Forall_forall. intros x Hx%list_elem_of_In. apply (Hap p (length opcode) x); [apply list_elem_of_here|].
      apply elem_of_app. rewrite !elem_of_cons, elem_of_nil in Hf. destruct Hf as [->|[->|[]]]; auto. }
    assert (Hspn : Preproc.strspn_hex (listing_line (Instr p opcode text)) = 8%nat).
    { unfold listing_line, pad_to. rewrite !string_app_assoc. change (": " +:+ ?x) with (String ":" (" " +:+ x)).
      by apply strspn_hex_digits. }
    assert (Hpos : strto_unsigned 64 (strto_scan 16 (listing_line (Instr p opcode text)))
                   = Preproc.coverage_begin + Z.of_nat p).
    { unfold listing_line, pad_to. rewrite !string_app_assoc. apply scan_address.
      pose proof table_size. unfold Preproc.coverage_begin. lia. }
    rewrite Hspn, Hpos, count_block_instr by done. cbn [Nat.eqb text_of].
    rewrite (columns_report p (length opcode) opcode text) by (try done; apply Happ; repeat constructor). f_equal.
    destruct (instruction_flow p (length opcode)) as (_ & _ & -> & _); [done|done|apply Happ; repeat constructor..|].
    apply IH; [done|done|done|]. intros s n x Hs Hx. apply (Hap s n x); [by apply list_elem_of_further|done].
  - assert (Preproc.strspn_hex (listing_line (Other text)) = 0%nat) as -> by reflexivity. cbn [Nat.eqb text_of].
    cbn [report_line]. rewrite !string_app_assoc. do 3 f_equal. by apply IH.
Qed.
End flow.

(** *** The coverage files *)

(** A table as it is written: two 64-bit counters an entry. *)
Definition coverage_file (tab : list coverage_branch) : bytes :=
  concat (map (fun b => le_bytes 8 (to_cnt b) ++ le_bytes 8 (from_cnt b)) tab).

Definition counters_ok (b : coverage_branch) : Prop := 0 <= to_cnt b < 2 ^ 64 /\ 0 <= from_cnt b < 2 ^ 64.

Lemma branch_at_file tab : forall i b,
  tab !! i = Some b -> counters_ok b -> Preproc.branch_at (coverage_file tab) i = b.
Proof.
  induction tab as [|x tab IH]; intros i b Hi Hb; [done|]. unfold coverage_file. cbn [map concat]. fold (coverage_file tab).
  destruct i as [|i].
  - injection Hi as ->. destruct Hb as [H1 H2]. unfold Preproc.branch_at, le64_at. rewrite <- app_assoc.
    rewrite (sub_skip _ _ 0 8 8) by apply length_le_bytes. rewrite !sub_here by apply length_le_bytes.
    rewrite !le_val_le_bytes, !Z.mod_small by done. by destruct b.
  - rewrite <- (IH i b Hi Hb). unfold Preproc.branch_at, le64_at. f_equal; f_equal.
    + replace (16 * S i)%nat with (16 + 16 * i)%nat by lia. apply sub_skip. by rewrite length_app, !length_le_bytes.
    + replace (16 * S i + 8)%nat with (16 + (16 * i + 8))%nat by lia. apply sub_skip.
      by rewrite length_app, !length_le_bytes.
Qed.

Lemma read_file_lookup tab branches i b c :
  length branches = length tab -> tab !! i = Some c -> counters_ok c -> branches !! i = Some b ->
  Preproc.read_coverage_file (coverage_file tab) branches !! i = Some (Preproc.add_branch b c).
Proof.
  intros Hl Hc Hok Hb. unfold Preproc.read_coverage_file. rewrite lookup_zip_with, Hb. cbn [mbind option_bind].
  change (map (Preproc.branch_at (coverage_file tab)) (seq 0 (length branches)))
    with (Preproc.branch_at (coverage_file tab) <$> seq 0 (length branches)).
  rewrite list_lookup_fmap, lookup_seq_lt by (rewrite Hl; by eapply lookup_lt_Some).
  cbn [fmap option_fmap option_map mbind option_bind]. by rewrite Nat.add_0_l, (branch_at_file tab i c).
Qed.

(** Coverage files of several executions, read one after the other. *)
Section files.
Context (cb ce : Z) (t0 : Lbr.tracer).
Context (Hsize : ce - cb <= Z.of_nat COVERAGE_TABLE_SIZE) (Ht0 : Lbr.table t0 = Preproc.no_branches).

(** The file of the execution with branches [ev]. *)
Definition traced (ev : list (Z * Z)) (file : bytes) : Prop :=
  exists t, collect cb ce ev t0 = Some t /\ file = coverage_file (Lbr.table t).

Lemma traced_counts ev : exists t, collect cb ce ev t0 = Some t /\ length (Lbr.table t) = COVERAGE_TABLE_SIZE
  /\ forall i, (i < COVERAGE_TABLE_SIZE)%nat ->
       Lbr.table t !! i = Some (CoverageBranch (u64 (times (places cb ce (map snd ev)) i))
                                               (u64 (times (places cb ce (map fst ev)) i))).
Proof using Hsize Ht0.
  assert (length Preproc.no_branches = COVERAGE_TABLE_SIZE) as Hl0 by apply length_replicate.
  destruct (collect_counts cb ce ev t0) as (t & Hr & Hl & Hcount).
  { by rewrite Ht0, Hl0. }
  { intros i b Hi. rewrite Ht0 in Hi. apply lookup_replicate_1 in Hi as [-> _]. simpl. lia. }
  exists t. split; [done|]. split; [by rewrite Hl, Ht0|]. intros i Hi.
  apply (Hcount i (CoverageBranch 0 0)). rewrite Ht0. by apply lookup_replicate_2.
Qed.

Lemma u64_add_inner x y z : u64 (u64 (x + u64 y) + z) = u64 (x + (y + z)).
Proof.
  rewrite u64_add_l. replace (x + u64 y + z) with (u64 y + (x + z)) by lia. rewrite u64_add_l. f_equal. lia.
Qed.

Lemma times_app l l' i : times (l ++ l') i = times l i + times l' i.
Proof. unfold times. rewrite List.filter_app, length_app. lia. Qed.

Lemma places_app l l' : places cb ce (l ++ l') = places cb ce l ++ places cb ce l'.
Proof. unfold places. by rewrite List.filter_app, map_app. Qed.

Lemma files_counts evs : forall branches,
  length branches = COVERAGE_TABLE_SIZE ->
  exists files, Forall2 traced evs files
    /\ forall i b, branches !! i = Some b -> counters_ok b ->
         foldl (fun br file => Preproc.read_coverage_file file br) branches files !! i
         = Some (CoverageBranch (u64 (to_cnt b + times (places cb ce (map snd (concat evs))) i))
                                (u64 (from_cnt b + times (places cb ce (map fst (concat evs))) i))).
Proof using Hsize Ht0.
  induction evs as [|ev evs IH]; intros branches Hl.
  { exists []. split; [constructor|]. intros i b Hi [H1 H2]. unfold times. cbn [concat map places List.filter length foldl].
    rewrite !Z.add_0_r, !u64_small by done. rewrite Hi. by destruct b. }
  destruct (traced_counts ev) as (t & Hc & Hlt & Hcount).
  destruct (IH (Preproc.read_coverage_file (coverage_file (Lbr.table t)) branches)) as (files & HF & Hfold).
  { unfold Preproc.read_coverage_file. rewrite length_zip_with, length_map, length_seq. lia. }
  exists (coverage_file (Lbr.table t) :: files). split; [constructor; [by exists t|done]|].
  intros i b Hi Hb. pose proof (lookup_lt_Some _ _ _ Hi) as Hlen. rewrite Hl in Hlen.
  assert (counters_ok (CoverageBranch (u64 (times (places cb ce (map snd ev)) i)) (u64 (times (places cb ce (map fst ev)) i))))
    as Hok by (split; apply u64_range).
  pose proof (read_file_lookup (Lbr.table t) branches i b _ ltac:(lia) (Hcount i Hlen) Hok Hi) as Hread.
  cbn [foldl]. rewrite (Hfold i _ Hread) by (split; apply u64_range).
  unfold Preproc.add_branch. cbn [to_cnt from_cnt concat]. rewrite !map_app, !places_app, !times_app.
  by rewrite !u64_add_inner.
Qed.
End files.

(** ** Claims *)

(** C14: coverage counts executions.  Let any number of executions of the traced
    code each be a sequence of straight runs between taken branches, every
    branch trapping, and let the listing have the instructions of the code one
    after the other with any other lines between them.  Then every table is
    collected, and covpreproc, given the coverage files, prints for each
    instruction how many times all executions together passed it, for each
    conditional jump how often it was taken and not taken, flags the
    instructions that were never reached and the jumps that always went one
    way, and keeps the other lines. *)
Theorem coverage_counts_visits cb ce evs runs es t tmp junk :
  ce - cb <= Z.of_nat COVERAGE_TABLE_SIZE -> Lbr.table t = Preproc.no_branches ->
  Forall (fun r => fst r <= snd r)%nat runs -> Z.of_nat (length runs) < 2 ^ 64 ->
  places cb ce (map snd (concat evs)) ≡ₚ map fst runs -> places cb ce (map fst (concat evs)) ≡ₚ map snd runs ->
  Forall entry_ok es -> contiguous 0 (instrs es) -> length tmp = 1024%nat ->
  Forall (fun r => fst r ∈ map fst (instrs es) /\ snd r ∈ map fst (instrs es)) runs ->
  exists files, Forall2 (traced cb ce t) evs files
    /\ Preproc.covpreproc files (map listing_line es) tmp junk = report runs es.
Proof.
  intros Hsize Ht Hruns Hmany Hd Hs Hes Hc Htmp Hends.
  destruct (files_counts cb ce t Hsize Ht evs Preproc.no_branches) as (files & HF & Hcount); [apply length_replicate|].
  exists files. split; [done|]. unfold Preproc.covpreproc.
  assert (Hzero : forall i, (i < COVERAGE_TABLE_SIZE)%nat -> Preproc.no_branches !! i = Some (CoverageBranch 0 0))
    by (intros i Hi; by apply lookup_replicate_2).
  assert (Htimes : forall l f i, l ≡ₚ map f runs -> u64 (0 + times l i) = times (map f runs) i).
  { intros l f i Hp. unfold times. rewrite Hp. pose proof (List.filter_length_le (Nat.eqb i) (map f runs)).
    rewrite length_map in *. apply u64_small. lia. }
  assert (entering runs 0 = 0) as <-.
  { unfold entering, below. clear. induction runs as [|[a b] runs IH]; [done|]. cbn [map List.filter fst snd].
    rewrite !(proj2 (Nat.ltb_ge _ 0)) by lia. exact IH. }
  apply annotate_report; try done.
  - intros i Hi. eexists. split; [by apply (Hcount i _ (Hzero i Hi))|]. by apply Htimes.
  - intros i Hi. eexists. split; [by apply (Hcount i _ (Hzero i Hi))|]. by apply Htimes.
  - intros s n x Hin Hx. apply (contiguous_apart 0 (instrs es)); [done|done|].
    rewrite list.Forall_forall in Hends. apply elem_of_app in Hx as [Hx|Hx];
      apply list_elem_of_fmap in Hx as (r & -> & Hr'); by apply Hends in Hr' as [? ?].
Qed.

(** A loop whose conditional jump is taken once in one execution and never in
    the other. *)
Definition sample_listing : list entry :=
  [Other ("again:" +:+ nl); Instr 0 [0x49; 0x90] ("    dec ecx" +:+ nl); Instr 2 [0x75; 0xfc] ("    jnz again" +:+ nl);
   Instr 4 [0xc3] ("    ret" +:+ nl); Instr 5 [0xcc] ("    int3" +:+ nl)].

Lemma coverage_counts_visits_witness :
  exists files, Forall2 (traced 0x1000 0x1010 (Lbr.Tracer 1 3 3 true Preproc.no_branches))
      [[(0x10, 0x1000); (0x1002, 0x1000); (0x1004, 0x20)]; [(0x10, 0x1000); (0x1004, 0x20)]] files
    /\ Preproc.covpreproc files (map listing_line sample_listing) (replicate 1024 0xcc) (replicate 1024 0xdd)
       = foldr String.append ""
           ["                                 : again:" +:+ nl;
            "                               3 :     dec ecx" +:+ nl;
            "           1/2                 3 :     jnz again" +:+ nl;
            "                               2 :     ret" +:+ nl;
            " -                             0 :     int3" +:+ nl].
Proof.
  destruct (coverage_counts_visits 0x1000 0x1010
    [[(0x10, 0x1000); (0x1002, 0x1000); (0x1004, 0x20)]; [(0x10, 0x1000); (0x1004, 0x20)]]
    [(0, 2); (0, 4); (0, 4)]%nat sample_listing (Lbr.Tracer 1 3 3 true Preproc.no_branches)
    (replicate 1024 0xcc) (replicate 1024 0xdd)) as (files & H1 & H2).
  - pose proof table_size. lia.
  - reflexivity.
  - repeat constructor.
  - cbn; lia.
  - reflexivity.
  - reflexivity.
  - repeat constructor; vm_compute; (lia || congruence).
  - cbn. pose proof table_size. lia.
  - apply length_replicate.
  - apply (bool_decide_unpack _). vm_compute. reflexivity.
  - exists files. split; [exact H1|]. rewrite H2. vm_compute. reflexivity.
Defined.
