(* ===== verification/Unicode.v ===== *)
(** deps/isocline/src/common.c and wcwidth.c: the encoding of the line editor
    and the column width of a character.

    isocline keeps its input as UTF-8 in which a byte that is not part of a valid
    sequence stands for itself, as a code point of a "raw plane".  [None] is a
    read outside the string.  The table lookup of [mk_wcwidth] is a binary
    search, shown to be membership in the table. *)
From S2P Require Import Prelude CLib.

(** ** Raw bytes *)

Definition IC_UNICODE_RAW : Z := 0xEE000.

Definition unicode_from_raw (c : Z) : Z := IC_UNICODE_RAW + c.

Definition unicode_is_raw (u : Z) : option Z :=
  if (IC_UNICODE_RAW <=? u) && (u <=? IC_UNICODE_RAW + 0xFF) then Some (u - IC_UNICODE_RAW) else None.

(** ** Encoding *)

(** The five bytes of [buf]. *)
Definition unicode_to_qutf8 (u : Z) : bytes :=
  if u <=? 0x7F then [u8 u; 0; 0; 0; 0]
  else if u <=? 0x07FF then
    [0xC0 .| u8 (u >> 6); 0x80 .| (u8 u .& 0x3F); 0; 0; 0]
  else if u <=? 0xFFFF then
    [0xE0 .| u8 (u >> 12); 0x80 .| (u8 (u >> 6) .& 0x3F); 0x80 .| (u8 u .& 0x3F); 0; 0]
  else if u <=? 0x10FFFF then
    match unicode_is_raw u with
    | Some c => [c; 0; 0; 0; 0]
    | None => [0xF0 .| u8 (u >> 18); 0x80 .| (u8 (u >> 12) .& 0x3F);
               0x80 .| (u8 (u >> 6) .& 0x3F); 0x80 .| (u8 u .& 0x3F); 0]
    end
  else [0; 0; 0; 0; 0].

Definition utf8_is_cont (c : Z) : bool := (c .& 0xC0) =? 0x80.

(** ** Decoding *)

(** [s[i]] tested, where the tests before it hold *)
Definition test_at (s : bytes) (i : nat) (p : Z -> bool) (rest : option bool) : option bool :=
  b ← s !! i; if p b then rest else Some false.

Definition between (a b x : Z) : bool := (a <=? x) && (x <=? b).

Definition two_bytes (s : bytes) (len c0 : Z) : option bool :=
  if (c0 <=? 0xDF) && (2 <=? len) then test_at s 1 utf8_is_cont (Some true) else Some false.

Definition three_bytes (s : bytes) (len c0 : Z) : option bool :=
  if negb (3 <=? len) then Some false
  else if c0 =? 0xE0 then test_at s 1 (between 0xA0 0xBF) (test_at s 2 utf8_is_cont (Some true))
  else if between 0xE1 0xEC c0 then test_at s 1 utf8_is_cont (test_at s 2 utf8_is_cont (Some true))
  else Some false.

Definition four_bytes (s : bytes) (len c0 : Z) : option bool :=
  let tail := test_at s 2 utf8_is_cont (test_at s 3 utf8_is_cont (Some true)) in
  if negb (4 <=? len) then Some false
  else if c0 =? 0xF0 then test_at s 1 (between 0x90 0xBF) tail
  else if between 0xF1 0xF3 c0 then test_at s 1 utf8_is_cont tail
  else if c0 =? 0xF4 then test_at s 1 (between 0x80 0x8F) tail
  else Some false.

(** The code point and the number of bytes read; the tests have read the bytes [low] takes. *)
Definition unicode_from_qutf8 (s : bytes) (len : Z) : option (Z * Z) :=
  c0 ← s !! 0%nat;
  let fail := Some (unicode_from_raw c0, 1) in
  let low i := default 0 (s !! i) .& 0x3F in
  if len <=? 0 then fail
  else if c0 <=? 0x7F then Some (c0, 1)
  else if c0 <=? 0xC1 then fail
  else
    t2 ← two_bytes s len c0;
    if (t2 : bool) then Some (((c0 .& 0x1F) << 6) .| low 1%nat, 2)
    else
      t3 ← three_bytes s len c0;
      if (t3 : bool) then Some (((c0 .& 0x0F) << 12) .| (low 1%nat << 6) .| low 2%nat, 3)
      else
        t4 ← four_bytes s len c0;
        if (t4 : bool) then
          Some (((c0 .& 0x07) << 18) .| (low 1%nat << 12) .| (low 2%nat << 6) .| low 3%nat, 4)
        else fail.

(** ** Column width *)

(** Tables of [struct interval], the first and the last code point.
    [mk_is_wide_char]: the East Asian wide characters *)
Definition wide : list (Z * Z) :=
  [(0x1100, 0x115f); (0x231a, 0x231b); (0x2329, 0x232a); (0x23e9, 0x23ec); (0x23f0, 0x23f0);
   (0x23f3, 0x23f3); (0x25fd, 0x25fe); (0x2614, 0x2615); (0x2648, 0x2653); (0x267f, 0x267f);
   (0x2693, 0x2693); (0x26a1, 0x26a1); (0x26aa, 0x26ab); (0x26bd, 0x26be); (0x26c4, 0x26c5);
   (0x26ce, 0x26ce); (0x26d4, 0x26d4); (0x26ea, 0x26ea); (0x26f2, 0x26f3); (0x26f5, 0x26f5);
   (0x26fa, 0x26fa); (0x26fd, 0x26fd); (0x2705, 0x2705); (0x270a, 0x270b); (0x2728, 0x2728);
   (0x274c, 0x274c); (0x274e, 0x274e); (0x2753, 0x2755); (0x2757, 0x2757); (0x2795, 0x2797);
   (0x27b0, 0x27b0); (0x27bf, 0x27bf); (0x2b1b, 0x2b1c); (0x2b50, 0x2b50); (0x2b55, 0x2b55);
   (0x2e80, 0x2fdf); (0x2ff0, 0x303e); (0x3040, 0x3247); (0x3250, 0x4dbf); (0x4e00, 0xa4cf);
   (0xa960, 0xa97f); (0xac00, 0xd7a3); (0xf900, 0xfaff); (0xfe10, 0xfe19); (0xfe30, 0xfe6f);
   (0xff01, 0xff60); (0xffe0, 0xffe6); (0x16fe0, 0x16fe1); (0x17000, 0x18aff); (0x1b000, 0x1b12f);
   (0x1b170, 0x1b2ff); (0x1f004, 0x1f004); (0x1f0cf, 0x1f0cf); (0x1f18e, 0x1f18e);
   (0x1f191, 0x1f19a); (0x1f200, 0x1f202); (0x1f210, 0x1f23b); (0x1f240, 0x1f248);
   (0x1f250, 0x1f251); (0x1f260, 0x1f265); (0x1f300, 0x1f320); (0x1f32d, 0x1f335);
   (0x1f337, 0x1f37c); (0x1f37e, 0x1f393); (0x1f3a0, 0x1f3ca); (0x1f3cf, 0x1f3d3);
   (0x1f3e0, 0x1f3f0); (0x1f3f4, 0x1f3f4); (0x1f3f8, 0x1f43e); (0x1f440, 0x1f440);
   (0x1f442, 0x1f4fc); (0x1f4ff, 0x1f53d); (0x1f54b, 0x1f54e); (0x1f550, 0x1f567);
   (0x1f57a, 0x1f57a); (0x1f595, 0x1f596); (0x1f5a4, 0x1f5a4); (0x1f5fb, 0x1f64f);
   (0x1f680, 0x1f6c5); (0x1f6cc, 0x1f6cc); (0x1f6d0, 0x1f6d2); (0x1f6eb, 0x1f6ec);
   (0x1f6f4, 0x1f6f8); (0x1f910, 0x1f93e); (0x1f940, 0x1f94c); (0x1f950, 0x1f96b);
   (0x1f980, 0x1f997); (0x1f9c0, 0x1f9c0); (0x1f9d0, 0x1f9e6); (0x20000, 0x2fffd);
   (0x30000, 0x3fffd)].

(** [mk_wcwidth]: the non-spacing characters *)
Definition combining : list (Z * Z) :=
  [(0x00ad, 0x00ad); (0x0300, 0x036f); (0x0483, 0x0489); (0x0591, 0x05bd); (0x05bf, 0x05bf);
   (0x05c1, 0x05c2); (0x05c4, 0x05c5); (0x05c7, 0x05c7); (0x0610, 0x061a); (0x061c, 0x061c);
   (0x064b, 0x065f); (0x0670, 0x0670); (0x06d6, 0x06dc); (0x06df, 0x06e4); (0x06e7, 0x06e8);
   (0x06ea, 0x06ed); (0x0711, 0x0711); (0x0730, 0x074a); (0x07a6, 0x07b0); (0x07eb, 0x07f3);
   (0x0816, 0x0819); (0x081b, 0x0823); (0x0825, 0x0827); (0x0829, 0x082d); (0x0859, 0x085b);
   (0x08d4, 0x08e1); (0x08e3, 0x0902); (0x093a, 0x093a); (0x093c, 0x093c); (0x0941, 0x0948);
   (0x094d, 0x094d); (0x0951, 0x0957); (0x0962, 0x0963); (0x0981, 0x0981); (0x09bc, 0x09bc);
   (0x09c1, 0x09c4); (0x09cd, 0x09cd); (0x09e2, 0x09e3); (0x0a01, 0x0a02); (0x0a3c, 0x0a3c);
   (0x0a41, 0x0a42); (0x0a47, 0x0a48); (0x0a4b, 0x0a4d); (0x0a51, 0x0a51); (0x0a70, 0x0a71);
   (0x0a75, 0x0a75); (0x0a81, 0x0a82); (0x0abc, 0x0abc); (0x0ac1, 0x0ac5); (0x0ac7, 0x0ac8);
   (0x0acd, 0x0acd); (0x0ae2, 0x0ae3); (0x0afa, 0x0aff); (0x0b01, 0x0b01); (0x0b3c, 0x0b3c);
   (0x0b3f, 0x0b3f); (0x0b41, 0x0b44); (0x0b4d, 0x0b4d); (0x0b56, 0x0b56); (0x0b62, 0x0b63);
   (0x0b82, 0x0b82); (0x0bc0, 0x0bc0); (0x0bcd, 0x0bcd); (0x0c00, 0x0c00); (0x0c3e, 0x0c40);
   (0x0c46, 0x0c48); (0x0c4a, 0x0c4d); (0x0c55, 0x0c56); (0x0c62, 0x0c63); (0x0c81, 0x0c81);
   (0x0cbc, 0x0cbc); (0x0cbf, 0x0cbf); (0x0cc6, 0x0cc6); (0x0ccc, 0x0ccd); (0x0ce2, 0x0ce3);
   (0x0d00, 0x0d01); (0x0d3b, 0x0d3c); (0x0d41, 0x0d44); (0x0d4d, 0x0d4d); (0x0d62, 0x0d63);
   (0x0dca, 0x0dca); (0x0dd2, 0x0dd4); (0x0dd6, 0x0dd6); (0x0e31, 0x0e31); (0x0e34, 0x0e3a);
   (0x0e47, 0x0e4e); (0x0eb1, 0x0eb1); (0x0eb4, 0x0eb9); (0x0ebb, 0x0ebc); (0x0ec8, 0x0ecd);
   (0x0f18, 0x0f19); (0x0f35, 0x0f35); (0x0f37, 0x0f37); (0x0f39, 0x0f39); (0x0f71, 0x0f7e);
   (0x0f80, 0x0f84); (0x0f86, 0x0f87); (0x0f8d, 0x0f97); (0x0f99, 0x0fbc); (0x0fc6, 0x0fc6);
   (0x102d, 0x1030); (0x1032, 0x1037); (0x1039, 0x103a); (0x103d, 0x103e); (0x1058, 0x1059);
   (0x105e, 0x1060); (0x1071, 0x1074); (0x1082, 0x1082); (0x1085, 0x1086); (0x108d, 0x108d);
   (0x109d, 0x109d); (0x1160, 0x11ff); (0x135d, 0x135f); (0x1712, 0x1714); (0x1732, 0x1734);
   (0x1752, 0x1753); (0x1772, 0x1773); (0x17b4, 0x17b5); (0x17b7, 0x17bd); (0x17c6, 0x17c6);
   (0x17c9, 0x17d3); (0x17dd, 0x17dd); (0x180b, 0x180e); (0x1885, 0x1886); (0x18a9, 0x18a9);
   (0x1920, 0x1922); (0x1927, 0x1928); (0x1932, 0x1932); (0x1939, 0x193b); (0x1a17, 0x1a18);
   (0x1a1b, 0x1a1b); (0x1a56, 0x1a56); (0x1a58, 0x1a5e); (0x1a60, 0x1a60); (0x1a62, 0x1a62);
   (0x1a65, 0x1a6c); (0x1a73, 0x1a7c); (0x1a7f, 0x1a7f); (0x1ab0, 0x1abe); (0x1b00, 0x1b03);
   (0x1b34, 0x1b34); (0x1b36, 0x1b3a); (0x1b3c, 0x1b3c); (0x1b42, 0x1b42); (0x1b6b, 0x1b73);
   (0x1b80, 0x1b81); (0x1ba2, 0x1ba5); (0x1ba8, 0x1ba9); (0x1bab, 0x1bad); (0x1be6, 0x1be6);
   (0x1be8, 0x1be9); (0x1bed, 0x1bed); (0x1bef, 0x1bf1); (0x1c2c, 0x1c33); (0x1c36, 0x1c37);
   (0x1cd0, 0x1cd2); (0x1cd4, 0x1ce0); (0x1ce2, 0x1ce8); (0x1ced, 0x1ced); (0x1cf4, 0x1cf4);
   (0x1cf8, 0x1cf9); (0x1dc0, 0x1df9); (0x1dfb, 0x1dff); (0x200b, 0x200f); (0x202a, 0x202e);
   (0x2060, 0x2064); (0x2066, 0x206f); (0x20d0, 0x20f0); (0x2cef, 0x2cf1); (0x2d7f, 0x2d7f);
   (0x2de0, 0x2dff); (0x302a, 0x302d); (0x3099, 0x309a); (0xa66f, 0xa672); (0xa674, 0xa67d);
   (0xa69e, 0xa69f); (0xa6f0, 0xa6f1); (0xa802, 0xa802); (0xa806, 0xa806); (0xa80b, 0xa80b);
   (0xa825, 0xa826); (0xa8c4, 0xa8c5); (0xa8e0, 0xa8f1); (0xa926, 0xa92d); (0xa947, 0xa951);
   (0xa980, 0xa982); (0xa9b3, 0xa9b3); (0xa9b6, 0xa9b9); (0xa9bc, 0xa9bc); (0xa9e5, 0xa9e5);
   (0xaa29, 0xaa2e); (0xaa31, 0xaa32); (0xaa35, 0xaa36); (0xaa43, 0xaa43); (0xaa4c, 0xaa4c);
   (0xaa7c, 0xaa7c); (0xaab0, 0xaab0); (0xaab2, 0xaab4); (0xaab7, 0xaab8); (0xaabe, 0xaabf);
   (0xaac1, 0xaac1); (0xaaec, 0xaaed); (0xaaf6, 0xaaf6); (0xabe5, 0xabe5); (0xabe8, 0xabe8);
   (0xabed, 0xabed); (0xfb1e, 0xfb1e); (0xfe00, 0xfe0f); (0xfe20, 0xfe2f); (0xfeff, 0xfeff);
   (0xfff9, 0xfffb); (0x101fd, 0x101fd); (0x102e0, 0x102e0); (0x10376, 0x1037a);
   (0x10a01, 0x10a03); (0x10a05, 0x10a06); (0x10a0c, 0x10a0f); (0x10a38, 0x10a3a);
   (0x10a3f, 0x10a3f); (0x10ae5, 0x10ae6); (0x11001, 0x11001); (0x11038, 0x11046);
   (0x1107f, 0x11081); (0x110b3, 0x110b6); (0x110b9, 0x110ba); (0x11100, 0x11102);
   (0x11127, 0x1112b); (0x1112d, 0x11134); (0x11173, 0x11173); (0x11180, 0x11181);
   (0x111b6, 0x111be); (0x111ca, 0x111cc); (0x1122f, 0x11231); (0x11234, 0x11234);
   (0x11236, 0x11237); (0x1123e, 0x1123e); (0x112df, 0x112df); (0x112e3, 0x112ea);
   (0x11300, 0x11301); (0x1133c, 0x1133c); (0x11340, 0x11340); (0x11366, 0x1136c);
   (0x11370, 0x11374); (0x11438, 0x1143f); (0x11442, 0x11444); (0x11446, 0x11446);
   (0x114b3, 0x114b8); (0x114ba, 0x114ba); (0x114bf, 0x114c0); (0x114c2, 0x114c3);
   (0x115b2, 0x115b5); (0x115bc, 0x115bd); (0x115bf, 0x115c0); (0x115dc, 0x115dd);
   (0x11633, 0x1163a); (0x1163d, 0x1163d); (0x1163f, 0x11640); (0x116ab, 0x116ab);
   (0x116ad, 0x116ad); (0x116b0, 0x116b5); (0x116b7, 0x116b7); (0x1171d, 0x1171f);
   (0x11722, 0x11725); (0x11727, 0x1172b); (0x11a01, 0x11a06); (0x11a09, 0x11a0a);
   (0x11a33, 0x11a38); (0x11a3b, 0x11a3e); (0x11a47, 0x11a47); (0x11a51, 0x11a56);
   (0x11a59, 0x11a5b); (0x11a8a, 0x11a96); (0x11a98, 0x11a99); (0x11c30, 0x11c36);
   (0x11c38, 0x11c3d); (0x11c3f, 0x11c3f); (0x11c92, 0x11ca7); (0x11caa, 0x11cb0);
   (0x11cb2, 0x11cb3); (0x11cb5, 0x11cb6); (0x11d31, 0x11d36); (0x11d3a, 0x11d3a);
   (0x11d3c, 0x11d3d); (0x11d3f, 0x11d45); (0x11d47, 0x11d47); (0x16af0, 0x16af4);
   (0x16b30, 0x16b36); (0x16f8f, 0x16f92); (0x1bc9d, 0x1bc9e); (0x1bca0, 0x1bca3);
   (0x1d167, 0x1d169); (0x1d173, 0x1d182); (0x1d185, 0x1d18b); (0x1d1aa, 0x1d1ad);
   (0x1d242, 0x1d244); (0x1da00, 0x1da36); (0x1da3b, 0x1da6c); (0x1da75, 0x1da75);
   (0x1da84, 0x1da84); (0x1da9b, 0x1da9f); (0x1daa1, 0x1daaf); (0x1e000, 0x1e006);
   (0x1e008, 0x1e018); (0x1e01b, 0x1e021); (0x1e023, 0x1e024); (0x1e026, 0x1e02a);
   (0x1e8d0, 0x1e8d6); (0x1e944, 0x1e94a); (0xe0001, 0xe0001); (0xe0020, 0xe007f);
   (0xe0100, 0xe01ef)].

(** The loop of [bisearch]; [max - min + 1] turns are enough. *)
Fixpoint bisearch_loop (fuel : nat) (ucs : Z) (table : list (Z * Z)) (min max : Z) : option bool :=
  match fuel with
  | O => None
  | S fuel =>
      if min <=? max then
        let mid := Z.quot (min + max) 2 in
        '(first, last) ← table !! Z.to_nat mid;
        if last <? ucs then bisearch_loop fuel ucs table (mid + 1) max
        else if ucs <? first then bisearch_loop fuel ucs table min (mid - 1)
        else Some true
      else Some false
  end.

Definition bisearch (ucs : Z) (table : list (Z * Z)) (max : Z) : option bool :=
  '(first, _) ← table !! 0%nat;
  '(_, last) ← table !! Z.to_nat max;
  if (ucs <? first) || (last <? ucs) then Some false
  else bisearch_loop (S (Z.to_nat (max + 1))) ucs table 0 max.

Definition mk_is_wide_char (ucs : Z) : option bool := bisearch ucs wide (Z.of_nat (length wide) - 1).

Definition mk_wcwidth (ucs : Z) : option Z :=
  if ucs =? 0 then Some 0
  else if (ucs <? 32) || ((0x7f <=? ucs) && (ucs <? 0xa0)) then Some (-1)
  else
    c ← bisearch ucs combining (Z.of_nat (length combining) - 1);
    if (c : bool) then Some 0
    else w ← mk_is_wide_char ucs; Some (if (w : bool) then 2 else 1).

(** ** Arithmetic of the bit fields *)

Lemma pack_fields n a b : 0 <= n -> 0 <= b < 2 ^ n -> (a << n) .| b = 2 ^ n * a + b.
Proof. intros Hn Hb. rewrite Z.lor_comm, lor_shiftl by done. lia. Qed.

Lemma land_3F x : x .& 0x3F = x mod 64.
Proof. exact (land_ones_mod x 6 ltac:(lia)). Qed.

Lemma low6 x : 0 <= x mod 64 < 64.
Proof. apply Z.mod_pos_bound. lia. Qed.

Lemma cont_byte x : 0x80 .| (u8 x .& 0x3F) = 0x80 + x mod 64.
Proof.
  rewrite land_3F. unfold u8. change (2 ^ 8) with (64 * 4). rewrite Z.rem_mul_r by lia.
  rewrite Z.mul_comm, Z.mod_add, Z.mod_mod by lia.
  exact (pack_fields 6 2 (x mod 64) ltac:(lia) (low6 x)).
Qed.

Lemma lead_byte n a x : 0 <= n -> 0 <= x < 2 ^ n -> 2 ^ n <= 256 -> (a << n) .| u8 x = (a << n) + x.
Proof.
  intros Hn Hx H8. unfold u8. rewrite Z.mod_small by lia. rewrite pack_fields by done.
  rewrite Z.shiftl_mul_pow2 by done. lia.
Qed.

Lemma cont_range c : byte_ok c -> utf8_is_cont c = between 0x80 0xBF c.
Proof.
  intros Hc. assert (H : forallb (fun c => Bool.eqb (utf8_is_cont c) (between 0x80 0xBF c)) (seqZ 0 256) = true)
    by (vm_compute; reflexivity).
  rewrite forallb_forall in H. apply Bool.eqb_prop, H. apply list_elem_of_In, elem_of_seqZ.
  unfold byte_ok in Hc. lia.
Qed.

(** The sequences of the four lengths. *)
Definition utf8_seq (u : Z) : bytes :=
  if u <=? 0x7F then [u]
  else if u <=? 0x7FF then [0xC0 + u / 64; 0x80 + u mod 64]
  else if u <=? 0xFFFF then [0xE0 + u / 4096; 0x80 + u / 64 mod 64; 0x80 + u mod 64]
  else [0xF0 + u / 262144; 0x80 + u / 4096 mod 64; 0x80 + u / 64 mod 64; 0x80 + u mod 64].

(** What is stored for a code point: its sequence, or the raw byte. *)
Definition qutf8 (u : Z) : bytes :=
  match unicode_is_raw u with Some c => [c] | None => utf8_seq u end.

Lemma shr_pow2 x n : 0 <= n -> x >> n = x / 2 ^ n.
Proof. apply Z.shiftr_div_pow2. Qed.

Lemma is_raw_spec u : unicode_is_raw u = if decide (0xEE000 <= u <= 0xEE0FF) then Some (u - 0xEE000) else None.
Proof.
  unfold unicode_is_raw, IC_UNICODE_RAW. destruct (decide _) as [H|H].
  - by rewrite !(proj2 (Z.leb_le _ _)) by lia.
  - destruct ((0xEE000 <=? u) && (u <=? 0xEE000 + 0xFF)) eqn:E; [zbool; lia|done].
Qed.

(** The five bytes are the sequence, filled up with zeros. *)
Lemma to_qutf8_seq u : 0 <= u <= 0x10FFFF ->
  unicode_to_qutf8 u = qutf8 u ++ zeroes (5 - length (qutf8 u)).
Proof.
  intros Hu. unfold unicode_to_qutf8, qutf8, utf8_seq. rewrite is_raw_spec.
  rewrite !cont_byte, !shr_pow2 by lia.
  destruct (Z.leb_spec u 0x7F).
  { rewrite decide_False by lia. unfold u8. by rewrite Z.mod_small by lia. }
  destruct (Z.leb_spec u 0x7FF).
  { rewrite decide_False by lia. change 0xC0 with (6 << 5).
    rewrite lead_byte by (Z.to_euclidean_division_equations; lia). done. }
  destruct (Z.leb_spec u 0xFFFF).
  { rewrite decide_False by lia. change 0xE0 with (14 << 4).
    rewrite lead_byte by (Z.to_euclidean_division_equations; lia). done. }
  rewrite (proj2 (Z.leb_le u 0x10FFFF)) by lia. destruct (decide _); [done|].
  change 0xF0 with (30 << 3). rewrite lead_byte by (Z.to_euclidean_division_equations; lia). done.
Qed.

(** The value of a sequence. *)
Lemma fields2 a b : (a << 6) .| (b .& 0x3F) = 64 * a + b mod 64.
Proof. rewrite land_3F. exact (pack_fields 6 a _ ltac:(lia) (low6 b)). Qed.

Lemma fields3 a b c : (a << 12) .| ((b .& 0x3F) << 6) .| (c .& 0x3F) = 64 * (64 * a + b mod 64) + c mod 64.
Proof.
  rewrite <- fields2. f_equal. change 12 with (6 + 6). rewrite <- Z.shiftl_shiftl, <- Z.shiftl_lor by lia.
  by rewrite fields2.
Qed.

Lemma fields4 a b c d :
  (a << 18) .| ((b .& 0x3F) << 12) .| ((c .& 0x3F) << 6) .| (d .& 0x3F)
  = 64 * (64 * (64 * a + b mod 64) + c mod 64) + d mod 64.
Proof.
  rewrite <- fields3. f_equal. change 18 with (6 + 12). change 12 with (6 + 6) at 2.
  rewrite <- !(Z.shiftl_shiftl _ 6) by lia. change (6 + 6) with 12. f_equal.
  rewrite <- fields2. rewrite !Z.shiftl_lor. done.
Qed.

(** ** What the tests accept *)

Lemma test_at_true s i p rest x :
  s !! i = Some x -> test_at s i p rest = if p x then rest else Some false.
Proof. intros H. unfold test_at. by rewrite H. Qed.

Ltac cont_facts :=
  repeat match goal with
  | H : utf8_is_cont _ = true |- _ => rewrite cont_range in H by done
  | H : between _ _ _ = true |- _ => unfold between in H; zbool; zbool
  end.

Lemma two_bytes_spec s c0 : bytes_ok s ->
  exists b, two_bytes s (Z.of_nat (length s)) c0 = Some b
    /\ (b = true -> exists a s1 r, s = a :: s1 :: r /\ c0 <= 0xDF /\ 0x80 <= s1 <= 0xBF).
Proof.
  intros Hs. unfold two_bytes. destruct ((c0 <=? 0xDF) && _) eqn:E; [|by exists false]. zbool; zbool.
  destruct s as [|a [|s1 r]]; [cbn in E; lia|cbn in E; lia|].
  rewrite (test_at_true _ 1 _ _ s1) by done. apply Forall_cons_1 in Hs as [_ Hs]. apply Forall_cons_1 in Hs as [H1 _].
  destruct (utf8_is_cont s1) eqn:Hc; [|by exists false]. exists true. split; [done|]. intros _.
  cont_facts. exists a, s1, r. split; [done|lia].
Qed.

Lemma three_bytes_spec s c0 : bytes_ok s ->
  exists b, three_bytes s (Z.of_nat (length s)) c0 = Some b
    /\ (b = true -> exists a s1 s2 r, s = a :: s1 :: s2 :: r /\ 0xE0 <= c0 <= 0xEC /\ 0x80 <= s1 <= 0xBF
          /\ 0x80 <= s2 <= 0xBF /\ (c0 = 0xE0 -> 0xA0 <= s1)).
Proof.
  intros Hs. unfold three_bytes. destruct (negb _) eqn:E; [by exists false|]. zbool; zbool.
  destruct s as [|a [|s1 [|s2 r]]]; [cbn in E; lia..|].
  rewrite !(test_at_true _ 2 _ _ s2), !(test_at_true _ 1 _ _ s1) by done.
  apply Forall_cons_1 in Hs as [_ Hs]. apply Forall_cons_1 in Hs as [H1 Hs]. apply Forall_cons_1 in Hs as [H2 _].
  destruct (Z.eqb_spec c0 0xE0).
  - destruct (between 0xA0 0xBF s1) eqn:Hb; [|by exists false].
    destruct (utf8_is_cont s2) eqn:Hc; [|by exists false]. exists true. split; [done|]. intros _.
    cont_facts. exists a, s1, s2, r. split; [done|lia].
  - destruct (between 0xE1 0xEC c0) eqn:Hr; [|by exists false].
    destruct (utf8_is_cont s1) eqn:Hb; [|by exists false].
    destruct (utf8_is_cont s2) eqn:Hc; [|by exists false]. exists true. split; [done|]. intros _.
    cont_facts. exists a, s1, s2, r. split; [done|lia].
Qed.

Lemma four_bytes_spec s c0 : bytes_ok s ->
  exists b, four_bytes s (Z.of_nat (length s)) c0 = Some b
    /\ (b = true -> exists a s1 s2 s3 r, s = a :: s1 :: s2 :: s3 :: r /\ 0xF0 <= c0 <= 0xF4 /\ 0x80 <= s1 <= 0xBF
          /\ 0x80 <= s2 <= 0xBF /\ 0x80 <= s3 <= 0xBF /\ (c0 = 0xF0 -> 0x90 <= s1) /\ (c0 = 0xF4 -> s1 <= 0x8F)).
Proof.
  intros Hs. unfold four_bytes. destruct (negb _) eqn:E; [by exists false|]. zbool; zbool.
  destruct s as [|a [|s1 [|s2 [|s3 r]]]]; [cbn in E; lia..|].
  rewrite !(test_at_true _ 3 _ _ s3), !(test_at_true _ 2 _ _ s2), !(test_at_true _ 1 _ _ s1) by done.
  apply Forall_cons_1 in Hs as [_ Hs]. apply Forall_cons_1 in Hs as [H1 Hs]. apply Forall_cons_1 in Hs as [H2 Hs].
  apply Forall_cons_1 in Hs as [H3 _].
  assert (T : forall P : Prop, (0x80 <= s2 <= 0xBF -> 0x80 <= s3 <= 0xBF -> P) ->
    exists b, (if utf8_is_cont s2 then if utf8_is_cont s3 then Some true else Some false else Some false) = Some b
      /\ (b = true -> P)).
  { intros P HP. destruct (utf8_is_cont s2) eqn:Hc2; [|by exists false].
    destruct (utf8_is_cont s3) eqn:Hc3; [|by exists false]. exists true. split; [done|]. intros _.
    cont_facts. apply HP; lia. }
  destruct (Z.eqb_spec c0 0xF0); [|destruct (between 0xF1 0xF3 c0) eqn:Hr; [|destruct (Z.eqb_spec c0 0xF4); [|by exists false]]].
  - destruct (between 0x90 0xBF s1) eqn:Hb; [|by exists false]. apply T. intros. cont_facts.
    exists a, s1, s2, s3, r. split; [done|lia].
  - destruct (utf8_is_cont s1) eqn:Hb; [|by exists false]. apply T. intros. cont_facts.
    exists a, s1, s2, s3, r. split; [done|lia].
  - destruct (between 0x80 0x8F s1) eqn:Hb; [|by exists false]. apply T. intros. cont_facts.
    exists a, s1, s2, s3, r. split; [done|lia].
Qed.

(** ** Lossless decoding *)

Lemma field_div x y : 0 <= y < 64 -> (64 * x + y) / 64 = x.
Proof. intros H. Z.to_euclidean_division_equations. lia. Qed.

Lemma field_mod x y : 0 <= y < 64 -> (64 * x + y) mod 64 = y.
Proof. intros H. Z.to_euclidean_division_equations. lia. Qed.

Lemma cont_low b : 0x80 <= b <= 0xBF -> 0 <= b mod 64 < 64 /\ 0x80 + b mod 64 = b.
Proof. intros H. Z.to_euclidean_division_equations. lia. Qed.

Lemma lead_low n k a c0 : 0 <= n -> k = Z.ones n -> 0 <= c0 - 2 ^ n * a < 2 ^ n -> c0 .& k = c0 - 2 ^ n * a.
Proof.
  intros Hn -> H. rewrite land_ones_mod by lia. symmetry. apply (Z.mod_unique_pos _ _ a); lia.
Qed.

Lemma div_4096 x : x / 4096 = x / 64 / 64.
Proof. by rewrite Z.div_div by lia. Qed.

Lemma div_262144 x : x / 262144 = x / 64 / 64 / 64.
Proof. by rewrite !Z.div_div by lia. Qed.

Ltac seq_cases := unfold utf8_seq;
  repeat match goal with |- context [?u <=? ?k] => destruct (Z.leb_spec u k); [try lia|try lia] end.

Ltac seq_fields := rewrite ?div_262144, ?div_4096, ?field_div, ?field_mod by lia; repeat (f_equal; try lia).

Lemma seq2 c0 b : 0xC1 < c0 <= 0xDF -> 0x80 <= b <= 0xBF ->
  utf8_seq (64 * (c0 .& 0x1F) + b mod 64) = [c0; b] /\ 0 <= 64 * (c0 .& 0x1F) + b mod 64 < 0x800.
Proof.
  intros Hc Hb. destruct (cont_low b Hb). rewrite (lead_low 5 _ 6) by (try done; lia). change (2 ^ 5 * 6) with 0xC0.
  split; [seq_cases; seq_fields|lia].
Qed.

Lemma seq3 c0 b c : 0xE0 <= c0 <= 0xEC -> 0x80 <= b <= 0xBF -> 0x80 <= c <= 0xBF -> (c0 = 0xE0 -> 0xA0 <= b) ->
  utf8_seq (64 * (64 * (c0 .& 0x0F) + b mod 64) + c mod 64) = [c0; b; c]
  /\ 0 <= 64 * (64 * (c0 .& 0x0F) + b mod 64) + c mod 64 < 0xD000.
Proof.
  intros Hc Hb Hd He. destruct (cont_low b Hb), (cont_low c Hd). rewrite (lead_low 4 _ 14) by (try done; lia).
  change (2 ^ 4 * 14) with 0xE0. split; [seq_cases; seq_fields|lia].
Qed.

Lemma seq4 c0 b c d : 0xF0 <= c0 <= 0xF4 -> 0x80 <= b <= 0xBF -> 0x80 <= c <= 0xBF -> 0x80 <= d <= 0xBF ->
  (c0 = 0xF0 -> 0x90 <= b) -> (c0 = 0xF4 -> b <= 0x8F) ->
  utf8_seq (64 * (64 * (64 * (c0 .& 0x07) + b mod 64) + c mod 64) + d mod 64) = [c0; b; c; d]
  /\ 0x10000 <= 64 * (64 * (64 * (c0 .& 0x07) + b mod 64) + c mod 64) + d mod 64 <= 0x10FFFF.
Proof.
  intros Hc Hb Hd He H0 H4. destruct (cont_low b Hb), (cont_low c Hd), (cont_low d He).
  rewrite (lead_low 3 _ 30) by (try done; lia). change (2 ^ 3 * 30) with 0xF0. split; [seq_cases; seq_fields|lia].
Qed.

Lemma qutf8_small u : u < 0xEE000 -> qutf8 u = utf8_seq u.
Proof. intros H. unfold qutf8. rewrite is_raw_spec. by rewrite decide_False by lia. Qed.

(** One code point: between one and four bytes are read, and they are what the
    code point is written as, unless four bytes spell a code point of the raw
    plane. *)
Lemma decode_one s : bytes_ok s -> s <> [] ->
  exists u n, unicode_from_qutf8 s (Z.of_nat (length s)) = Some (u, Z.of_nat n)
    /\ (1 <= n <= 4)%nat /\ (n <= length s)%nat /\ 0 <= u <= 0x10FFFF
    /\ ((n < 4)%nat \/ unicode_is_raw u = None -> take n s = qutf8 u).
Proof.
  intros Hs Hn. assert (exists c0 t, s = c0 :: t) as (c0 & t & Es) by (destruct s; by eauto).
  assert (Hc0 : byte_ok c0) by (rewrite Es in Hs; by apply Forall_cons_1 in Hs as [? _]). unfold byte_ok in Hc0.
  assert (Hfail : 0x80 <= c0 -> exists u n, Some (unicode_from_raw c0, 1) = Some (u, Z.of_nat n) /\ (1 <= n <= 4)%nat /\ (n <= length s)%nat
    /\ 0 <= u <= 0x10FFFF /\ ((n < 4)%nat \/ unicode_is_raw u = None -> take n s = qutf8 u)).
  { intros H80. exists (unicode_from_raw c0), 1%nat. unfold unicode_from_raw, IC_UNICODE_RAW. split; [done|]. split; [lia|].
    split; [rewrite Es; cbn; lia|]. split; [lia|]. intros _. unfold qutf8. rewrite is_raw_spec, decide_True by lia.
    rewrite Es. cbn. f_equal. lia. }
  unfold unicode_from_qutf8. assert (E0 : s !! 0%nat = Some c0) by (by rewrite Es). rewrite E0. cbn [mbind option_bind].
  rewrite (proj2 (Z.leb_gt _ 0)) by (rewrite Es; cbn; lia).
  destruct (Z.leb_spec c0 0x7F).
  { exists c0, 1%nat. split; [done|]. split; [lia|]. split; [rewrite Es; cbn; lia|]. split; [lia|]. intros _.
    rewrite qutf8_small by lia. unfold utf8_seq. rewrite (proj2 (Z.leb_le _ _)) by lia. by rewrite Es. }
  destruct (Z.leb_spec c0 0xC1); [apply Hfail; lia|].
  destruct (two_bytes_spec s c0 Hs) as ([] & -> & H2); cbn [mbind option_bind].
  { destruct (H2 eq_refl) as (a & s1 & r & E & Hle & H1). rewrite E in Es. injection Es as -> Et.
    rewrite E. cbn [lookup list_lookup default from_option id]. rewrite fields2.
    destruct (seq2 c0 s1 ltac:(lia) H1) as [Hq Hr]. eexists _, 2%nat. split; [done|]. split; [lia|]. split; [cbn; lia|].
    split; [lia|]. intros _. rewrite qutf8_small, Hq by lia. done. }
  destruct (three_bytes_spec s c0 Hs) as ([] & -> & H3); cbn [mbind option_bind].
  { destruct (H3 eq_refl) as (a & s1 & s2 & r & E & Hle & H1 & Hs2 & He). rewrite E in Es. injection Es as -> Et.
    rewrite E. cbn [lookup list_lookup default from_option id]. rewrite fields3.
    destruct (seq3 c0 s1 s2 Hle H1 Hs2 He) as [Hq Hr]. eexists _, 3%nat. split; [done|]. split; [lia|]. split; [cbn; lia|].
    split; [lia|]. intros _. rewrite qutf8_small, Hq by lia. done. }
  destruct (four_bytes_spec s c0 Hs) as ([] & -> & H4); cbn [mbind option_bind]; [|apply Hfail; lia].
  destruct (H4 eq_refl) as (a & s1 & s2 & s3 & r & E & Hle & H1 & Hs2 & Hs3 & He & Hf). rewrite E in Es. injection Es as -> Et.
  rewrite E. cbn [lookup list_lookup default from_option id]. rewrite fields4.
  destruct (seq4 c0 s1 s2 s3 Hle H1 Hs2 Hs3 He Hf) as [Hq Hr]. eexists _, 4%nat. split; [done|]. split; [lia|]. split; [cbn; lia|].
  split; [lia|]. intros [Hl|Hl]; [lia|]. unfold qutf8. rewrite Hl, Hq. done.
Qed.

(** All the code points of a string; every turn reads at least one byte. *)
Fixpoint code_points (fuel : nat) (s : bytes) : option (list Z) :=
  match fuel, s with
  | _, [] => Some []
  | O, _ => None
  | S fuel, _ =>
      '(u, n) ← unicode_from_qutf8 s (Z.of_nat (length s));
      us ← code_points fuel (drop (Z.to_nat n) s);
      Some (u :: us)
  end.

(** The bytes from each code point are kept: only a four-byte spelling of the raw plane is changed. *)
Definition spells_raw (s : bytes) : Prop :=
  exists i u, unicode_from_qutf8 (drop i s) (Z.of_nat (length s - i)) = Some (u, 4) /\ unicode_is_raw u <> None.

Lemma code_points_lossless fuel s :
  bytes_ok s -> (length s <= fuel)%nat -> ~ spells_raw s ->
  exists us, code_points fuel s = Some us /\ us ≫= qutf8 = s /\ Forall (fun u => 0 <= u <= 0x10FFFF) us.
Proof.
  revert s. induction fuel as [|fuel IH]; intros s Hs Hl Hr.
  { destruct s; [|cbn in Hl; lia]. exists []. repeat split; constructor. }
  destruct (decide (s = [])) as [->|Hn]; [exists []; repeat split; constructor|].
  destruct (decode_one s Hs Hn) as (u & n & Hd & Hn4 & Hnl & Hu & Hq).
  destruct (IH (drop n s)) as (us & Hus & Hb & Hf).
  { by apply Forall_drop. }
  { rewrite length_drop. lia. }
  { intros (i & v & Hv & Hraw). apply Hr. exists (n + i)%nat, v. rewrite drop_drop, length_drop in Hv.
    split; [|done]. rewrite <- Hv. do 2 f_equal. lia. }
  exists (u :: us). split; [|split].
  - destruct s as [|c t]; [done|]. cbn [code_points]. rewrite Hd. cbn [mbind option_bind].
    by rewrite Nat2Z.id, Hus.
  - cbn [mbind list_bind]. rewrite Hb, <- Hq; [apply take_drop|].
    destruct (decide (n < 4)%nat); [by left|]. right. destruct (unicode_is_raw u) eqn:E; [|done].
    exfalso. apply Hr. exists 0%nat, u. rewrite drop_0, Nat.sub_0_r, Hd, E. split; [|done]. do 2 f_equal. lia.
  - by constructor.
Qed.

(** The line editor may take any bytes for its input: decoding them and
    writing the code points back gives the same bytes, valid UTF-8 or not,
    except where four bytes spell a code point of the raw plane. *)
Theorem qutf8_lossless s :
  bytes_ok s -> ~ spells_raw s ->
  exists us, code_points (length s) s = Some us
    /\ Forall (fun u => unicode_to_qutf8 u = qutf8 u ++ zeroes (5 - length (qutf8 u))) us
    /\ us ≫= qutf8 = s.
Proof.
  intros Hs Hr. destruct (code_points_lossless (length s) s Hs (le_n _) Hr) as (us & Hus & Hb & Hf).
  exists us. split; [done|]. split; [|done]. eapply Forall_impl; [exact to_qutf8_seq|exact Hf].
Qed.

(** ** Decoding what was encoded *)

Lemma is_cont_low x : utf8_is_cont (0x80 + x mod 64) = true.
Proof.
  pose proof (low6 x). rewrite cont_range by (unfold byte_ok; lia). unfold between.
  by rewrite !(proj2 (Z.leb_le _ _)) by lia.
Qed.

Lemma between_true a b x : a <= x <= b -> between a b x = true.
Proof. intros. unfold between. by rewrite !(proj2 (Z.leb_le _ _)) by lia. Qed.

Lemma between_false a b x : x < a \/ b < x -> between a b x = false.
Proof. intros H. unfold between. destruct (Z.leb_spec a x), (Z.leb_spec x b); try done; lia. Qed.

Lemma back_low x : (0x80 + x mod 64) mod 64 = x mod 64.
Proof. change 0x80 with (2 * 64). by rewrite Z.add_comm, Z.mod_add, Z.mod_mod by lia. Qed.

Ltac leb_solve := repeat match goal with |- context [?a <=? ?b] =>
  first [ rewrite (proj2 (Z.leb_le a b)) by (cbn [length]; lia) | rewrite (proj2 (Z.leb_gt a b)) by (cbn [length]; lia) ] end.

Section Decode.
Context (r : bytes) (u : Z).

Definition decoded (x : bytes) : option (Z * Z) := unicode_from_qutf8 x (Z.of_nat (length x)).

Lemma decode1 : 0 <= u <= 0x7F -> decoded (utf8_seq u ++ r) = Some (u, 1).
Proof.
  intros Hu. assert (Hs : utf8_seq u = [u]) by (seq_cases; done). rewrite Hs.
  unfold decoded, unicode_from_qutf8. cbn [app lookup list_lookup mbind option_bind length].
  by leb_solve.
Qed.

Lemma decode2 : 0x80 <= u <= 0x7FF -> decoded (utf8_seq u ++ r) = Some (u, 2).
Proof.
  intros Hu. assert (Hs : utf8_seq u = [0xC0 + u / 64; 0x80 + u mod 64]) by (seq_cases; done). rewrite Hs.
  assert (2 <= u / 64 < 32) by (Z.to_euclidean_division_equations; lia).
  unfold decoded, unicode_from_qutf8, two_bytes, test_at. cbn [app lookup list_lookup mbind option_bind].
  leb_solve. rewrite is_cont_low. cbn [andb mbind option_bind default from_option id].
  rewrite fields2, back_low, (lead_low 5 _ 6) by (try done; lia). do 2 f_equal.
  change (2 ^ 5 * 6) with 0xC0. pose proof (Z.div_mod u 64). lia.
Qed.

Lemma seq_long : 0x800 <= u <= 0xFFFF ->
  utf8_seq u = [0xE0 + u / 64 / 64; 0x80 + u / 64 mod 64; 0x80 + u mod 64]
  /\ 0 <= u / 64 / 64 < 16 /\ (u / 64 / 64 = 0 -> 32 <= u / 64 mod 64)
  /\ u = 64 * (64 * (u / 64 / 64) + u / 64 mod 64) + u mod 64.
Proof.
  intros Hu. split; [seq_cases; by rewrite div_4096|].
  pose proof (Z.div_mod u 64 ltac:(lia)). pose proof (Z.div_mod (u / 64) 64 ltac:(lia)).
  pose proof (low6 u). pose proof (low6 (u / 64)). lia.
Qed.

Lemma decode3 : 0x800 <= u < 0xD000 -> decoded (utf8_seq u ++ r) = Some (u, 3).
Proof.
  intros Hu. destruct (seq_long ltac:(lia)) as (Hs & H16 & H0 & Hv). rewrite Hs.
  pose proof (low6 u). pose proof (low6 (u / 64)).
  unfold decoded, unicode_from_qutf8, two_bytes, three_bytes, test_at. cbn [app lookup list_lookup mbind option_bind].
  leb_solve.
  rewrite !is_cont_low. cbn [andb negb mbind option_bind default from_option id].
  destruct (Z.eqb_spec (0xE0 + u / 64 / 64) 0xE0);
    [rewrite between_true by lia|rewrite between_true by lia]; cbn [mbind option_bind];
    rewrite fields3, !back_low, (lead_low 4 _ 14) by (try done; lia); do 2 f_equal;
    change (2 ^ 4 * 14) with 0xE0; lia.
Qed.

Lemma decode3_raw : 0xD000 <= u <= 0xFFFF ->
  decoded (utf8_seq u ++ r) = Some (unicode_from_raw (0xE0 + u / 4096), 1).
Proof.
  intros Hu. destruct (seq_long ltac:(lia)) as (Hs & H16 & H0 & Hv). rewrite Hs, div_4096.
  pose proof (low6 u). pose proof (low6 (u / 64)).
  unfold decoded, unicode_from_qutf8, two_bytes, three_bytes, four_bytes. cbn [app lookup list_lookup mbind option_bind].
  leb_solve.
  rewrite !(proj2 (Z.eqb_neq _ _)), !between_false by lia. cbn [andb negb mbind option_bind].
  by destruct (negb (4 <=? _)).
Qed.

Lemma decode4 : 0x10000 <= u <= 0x10FFFF -> decoded (utf8_seq u ++ r) = Some (u, 4).
Proof.
  intros Hu. pose proof (low6 u). pose proof (low6 (u / 64)). pose proof (low6 (u / 64 / 64)).
  pose proof (Z.div_mod u 64 ltac:(lia)). pose proof (Z.div_mod (u / 64) 64 ltac:(lia)).
  pose proof (Z.div_mod (u / 64 / 64) 64 ltac:(lia)).
  assert (Hs : utf8_seq u = [0xF0 + u / 64 / 64 / 64; 0x80 + u / 64 / 64 mod 64; 0x80 + u / 64 mod 64; 0x80 + u mod 64])
    by (seq_cases; by rewrite div_262144, div_4096).
  rewrite Hs. unfold decoded, unicode_from_qutf8, two_bytes, three_bytes, four_bytes, test_at.
  cbn [app lookup list_lookup mbind option_bind].
  leb_solve.
  rewrite !is_cont_low, (proj2 (Z.eqb_neq _ 0xE0)), (between_false 0xE1) by lia.
  cbn [andb negb mbind option_bind default from_option id].
  rewrite fields4, !back_low, (lead_low 3 _ 30) by (try done; lia).
  destruct (Z.eqb_spec (0xF0 + u / 64 / 64 / 64) 0xF0); [|destruct (Z.eqb_spec (0xF0 + u / 64 / 64 / 64) 0xF4)];
    rewrite ?(between_false 0xF1), ?between_true by lia; cbn [mbind option_bind]; do 2 f_equal;
    change (2 ^ 3 * 30) with 0xF0; lia.
Qed.
End Decode.

(** Decoding is the inverse of encoding, whatever follows in the string, but
    for the code points U+D000 to U+FFFF: [unicode_from_qutf8] knows no lead byte
    above 0xEC, takes the first byte for a raw byte and reads only that one. *)
Theorem qutf8_decode_encode u r :
  0 <= u <= 0x10FFFF -> unicode_is_raw u = None ->
  unicode_from_qutf8 (qutf8 u ++ r) (Z.of_nat (length (qutf8 u ++ r)))
  = Some (if decide (0xD000 <= u <= 0xFFFF) then (unicode_from_raw (0xE0 + u / 4096), 1)
          else (u, Z.of_nat (length (qutf8 u)))).
Proof.
  intros Hu Hr. unfold qutf8. rewrite Hr. fold (decoded (utf8_seq u ++ r)). destruct (decide _); [by apply decode3_raw|].
  assert (u <= 0x7F \/ 0x80 <= u <= 0x7FF \/ 0x800 <= u < 0xD000 \/ 0x10000 <= u) as [H|[H|[H|H]]] by lia.
  - rewrite decode1 by lia. by replace (length (utf8_seq u)) with 1%nat by (by seq_cases).
  - rewrite decode2 by lia. by replace (length (utf8_seq u)) with 2%nat by (by seq_cases).
  - rewrite decode3 by lia. by replace (length (utf8_seq u)) with 3%nat by (by seq_cases).
  - rewrite decode4 by lia. by replace (length (utf8_seq u)) with 4%nat by (by seq_cases).
Qed.

Lemma qutf8_decode_encode_witness :
  unicode_from_qutf8 [0xE2; 0x82; 0xAC; 65] 4 = Some (0x20AC, 3)
  /\ unicode_from_qutf8 [0xEA; 0xB0; 0x80] 3 = Some (0xAC00, 3)
  /\ unicode_from_qutf8 [0xED; 0x95; 0x9C] 3 = Some (unicode_from_raw 0xED, 1).
Proof.
  split; [exact (qutf8_decode_encode 0x20AC [65] ltac:(lia) eq_refl)|].
  split; [exact (qutf8_decode_encode 0xAC00 [] ltac:(lia) eq_refl)|].
  exact (qutf8_decode_encode 0xD55C [] ltac:(lia) eq_refl).
Defined.

(** ** The width tables *)

(** The intervals are in order and do not overlap. *)
Fixpoint ordered (from : Z) (table : list (Z * Z)) : bool :=
  match table with
  | [] => true
  | (first, last) :: table => (from <=? first) && (first <=? last) && ordered (last + 1) table
  end.

Definition in_table (ucs : Z) (table : list (Z * Z)) : bool :=
  existsb (fun '(first, last) => (first <=? ucs) && (ucs <=? last)) table.

Lemma ordered_lookup from table i first last :
  ordered from table = true -> table !! i = Some (first, last) -> from <= first <= last.
Proof.
  revert from i. induction table as [|[f l] table IH]; intros from i Ho Hi; [done|].
  cbn in Ho. zbool; zbool. destruct i as [|i]; [injection Hi as -> ->; lia|].
  destruct Ho as [[? ?] Ho]. specialize (IH _ _ Ho Hi). lia.
Qed.

Lemma ordered_lt from table i j f1 l1 f2 l2 :
  ordered from table = true -> table !! i = Some (f1, l1) -> table !! j = Some (f2, l2) -> (i < j)%nat -> l1 < f2.
Proof.
  revert from i j. induction table as [|[f l] table IH]; intros from i j Ho Hi Hj Hij; [done|].
  cbn in Ho. zbool; zbool. destruct j as [|j]; [lia|]. destruct Ho as [_ Ho]. destruct i as [|i].
  - injection Hi as -> ->. pose proof (ordered_lookup _ _ _ _ _ Ho Hj). lia.
  - exact (IH _ i j Ho Hi Hj ltac:(lia)).
Qed.

Lemma in_table_spec ucs table :
  in_table ucs table = true <-> exists i first last, table !! i = Some (first, last) /\ first <= ucs <= last.
Proof.
  unfold in_table. rewrite existsb_exists. split.
  - intros ([f l] & Hin & H). zbool. apply list_elem_of_In, list_elem_of_lookup_1 in Hin as [i Hi].
    exists i, f, l. split; [done|lia].
  - intros (i & f & l & Hi & H). exists (f, l). split; [by eapply list_elem_of_In, list_elem_of_lookup_2|].
    by rewrite !(proj2 (Z.leb_le _ _)) by lia.
Qed.

Lemma lookup_Z (table : list (Z * Z)) i : 0 <= i < Z.of_nat (length table) ->
  exists first last, table !! Z.to_nat i = Some (first, last).
Proof.
  intros H. destruct (lookup_lt_is_Some_2 table (Z.to_nat i) ltac:(lia)) as [[f l] Hx]. by exists f, l.
Qed.

Lemma bisearch_loop_correct ucs table from fuel min max :
  ordered from table = true -> 0 <= min -> max < Z.of_nat (length table) -> (Z.to_nat (max - min + 1) < fuel)%nat ->
  (forall i first last, table !! i = Some (first, last) -> first <= ucs <= last -> min <= Z.of_nat i <= max) ->
  bisearch_loop fuel ucs table min max = Some (in_table ucs table).
Proof.
  intros Ho. revert min max. induction fuel as [|fuel IH]; intros min max Hmin Hmax Hf Hin; [lia|]. cbn [bisearch_loop].
  destruct (Z.leb_spec min max) as [Hle|Hgt].
  2:{ f_equal. symmetry. apply not_true_iff_false. rewrite in_table_spec.
      intros (i & f & l & Hi & Hu). specialize (Hin i f l Hi Hu). lia. }
  rewrite Z.quot_div_nonneg by lia. pose proof (Z.div_mod (min + max) 2 ltac:(lia)).
  pose proof (Z.mod_pos_bound (min + max) 2 ltac:(lia)). set (mid := (min + max) / 2) in *.
  destruct (lookup_Z table mid ltac:(lia)) as (f & l & Hm). rewrite Hm. cbn [mbind option_bind].
  destruct (Z.ltb_spec l ucs).
  { apply IH; [lia..|]. intros i f' l' Hi Hu. pose proof (Hin i f' l' Hi Hu). destruct (decide (Z.of_nat i < mid)).
    - pose proof (ordered_lt _ _ _ _ _ _ _ _ Ho Hi Hm ltac:(lia)). pose proof (ordered_lookup _ _ _ _ _ Ho Hm). lia.
    - destruct (decide (i = Z.to_nat mid)) as [->|]; [rewrite Hm in Hi; injection Hi as -> ->; lia|lia]. }
  destruct (Z.ltb_spec ucs f).
  { apply IH; [lia..|]. intros i f' l' Hi Hu. pose proof (Hin i f' l' Hi Hu). destruct (decide (mid < Z.of_nat i)).
    - pose proof (ordered_lt _ _ _ _ _ _ _ _ Ho Hm Hi ltac:(lia)). pose proof (ordered_lookup _ _ _ _ _ Ho Hm). lia.
    - destruct (decide (i = Z.to_nat mid)) as [->|]; [rewrite Hm in Hi; injection Hi as -> ->; lia|lia]. }
  f_equal. symmetry. apply in_table_spec. exists (Z.to_nat mid), f, l. split; [done|lia].
Qed.

Lemma bisearch_correct ucs table from :
  ordered from table = true -> table <> [] ->
  bisearch ucs table (Z.of_nat (length table) - 1) = Some (in_table ucs table).
Proof.
  intros Ho Hn. assert (0 < Z.of_nat (length table)) by (destruct table; [done|cbn; lia]). unfold bisearch.
  destruct (lookup_Z table 0 ltac:(lia)) as (f0 & l0 & H0). change (Z.to_nat 0) with 0%nat in H0. rewrite H0.
  destruct (lookup_Z table (Z.of_nat (length table) - 1) ltac:(lia)) as (fm & lm & Hm). rewrite Hm.
  cbn [mbind option_bind].
  assert (Hb : forall i f l, table !! i = Some (f, l) -> 0 <= Z.of_nat i <= Z.of_nat (length table) - 1 /\ f0 <= f /\ l <= lm).
  { intros i f l Hi. pose proof (lookup_lt_Some _ _ _ Hi). pose proof (ordered_lookup _ _ _ _ _ Ho Hi).
    pose proof (ordered_lookup _ _ _ _ _ Ho H0). pose proof (ordered_lookup _ _ _ _ _ Ho Hm). split; [lia|]. split.
    - destruct i as [|i]; [assert (f = f0) by congruence; lia|].
      pose proof (ordered_lt _ _ _ _ _ _ _ _ Ho H0 Hi ltac:(lia)). lia.
    - destruct (decide (i = Z.to_nat (Z.of_nat (length table) - 1))) as [->|];
        [assert (l = lm) by congruence; lia|].
      pose proof (ordered_lt _ _ _ _ _ _ _ _ Ho Hi Hm ltac:(lia)). lia. }
  destruct ((ucs <? f0) || (lm <? ucs)) eqn:E.
  - f_equal. symmetry. apply not_true_iff_false. rewrite in_table_spec. intros (i & f & l & Hi & Hu).
    specialize (Hb i f l Hi). zbool; lia.
  - apply (bisearch_loop_correct _ _ from); [done|lia..|]. intros i f l Hi _. by apply (Hb i f l).
Qed.

Lemma tables_ordered : ordered 0 wide = true /\ ordered 0 combining = true.
Proof. split; vm_compute; reflexivity. Qed.

(** The binary searches answer membership in the two tables, for every 32-bit
    code point and with no read outside a table: the width is 0, 1, 2, or -1
    for a control character.  The soft hyphen is in the table of non-spacing
    characters. *)
Theorem wcwidth_reference ucs :
  mk_wcwidth ucs
  = Some (if ucs =? 0 then 0
          else if (ucs <? 32) || ((0x7f <=? ucs) && (ucs <? 0xa0)) then -1
          else if in_table ucs combining then 0
          else if in_table ucs wide then 2 else 1)
  /\ mk_wcwidth 0x00AD = Some 0 /\ mk_wcwidth 0x4E2D = Some 2 /\ mk_wcwidth 0x301 = Some 0.
Proof.
  split; [|by vm_compute]. destruct tables_ordered as [Hw Hc]. unfold mk_wcwidth, mk_is_wide_char.
  rewrite (bisearch_correct ucs combining 0 Hc), (bisearch_correct ucs wide 0 Hw) by done.
  cbn [mbind option_bind]. by repeat case_match.
Qed.
