(* ===== verification/Stringbuf.v ===== *)
(** deps/isocline/src/stringbuf.c: the growable text buffer of the line editor.

    A pointer into memory is the bytes from there to the end of the object;
    [None] in the place of a result is an access outside the object, [None] in
    the place of a pointer is NULL.  The allocator is an interface: [realloc] may
    fail, and what it returns has the asked size and starts with the old bytes.
    Built with NDEBUG, the [assert]s are not compiled.  Lengths stay far below
    [2^31]: [ssize_t] is [Z].  The theorems: every editing operation is the edit
    of a list of bytes, with no access outside the buffer and the terminator in
    place; moving by characters stays in the text and makes progress. *)
From S2P Require Import Prelude CLib Unicode.

(** ** The allocator *)

Class allocator : Type := { realloc : option bytes -> Z -> option bytes }.

Class allocator_ok (A : allocator) : Prop := {
  realloc_size p n b : realloc p n = Some b -> Z.of_nat (length b) = Z.max 0 n;
  realloc_keeps p n b : realloc (Some p) n = Some b -> take (length p) b = take (length b) p
}.

(** ** The buffer *)

Record stringbuf := Stringbuf { sb_buf : option bytes; sb_buflen : Z; sb_count : Z }.

(** [ic_strlen], [ic_memmove] and [ic_memcpy] of common.c *)
Fixpoint c_strlen (s : bytes) : option Z :=
  match s with [] => None | c :: s => if c =? 0 then Some 0 else n ← c_strlen s; Some (n + 1) end.

Definition ic_strlen (s : option bytes) : option Z :=
  match s with None => Some 0 | Some s => c_strlen s end.

(** [n] bytes from [src], into [b] at [dest] *)
Definition ic_memcpy (b : bytes) (dest : Z) (src : bytes) (n : Z) : option bytes :=
  if n <=? 0 then Some b
  else if (0 <=? dest) && (dest + n <=? Z.of_nat (length b)) && (n <=? Z.of_nat (length src))
  then Some (overlay (Z.to_nat dest) (take (Z.to_nat n) src) b) else None.

(** within [b], from [src] to [dest] *)
Definition ic_memmove (b : bytes) (dest src n : Z) : option bytes :=
  if n <=? 0 then Some b
  else if 0 <=? src then ic_memcpy b dest (drop (Z.to_nat src) b) n else None.

Definition poke (b : bytes) (i v : Z) : option bytes :=
  if 0 <=? i then store_at b (Z.to_nat i) v else None.

Section Buffer.
Context {A : allocator}.

Definition sbuf_ensure_extra (s : stringbuf) (extra : Z) : option (bool * stringbuf) :=
  if sb_count s + extra <=? sb_buflen s then Some (true, s)
  else
    let newlen := if sb_buflen s <=? 0 then 120
                  else if 1000 <? sb_buflen s then sb_buflen s + 1000 else 2 * sb_buflen s in
    let newlen := if newlen <? sb_count s + extra then sb_count s + extra else newlen in
    match realloc (sb_buf s) (newlen + 1) with
    | None => Some (false, s)
    | Some newbuf =>
        b ← poke newbuf newlen 0;
        b ← poke b (sb_count s) 0;
        Some (true, Stringbuf (Some b) newlen (sb_count s))
    end.

Definition sbuf_init : stringbuf := Stringbuf None 0 0.
Definition sbuf_done (s : stringbuf) : stringbuf := sbuf_init.
(** [mem_zalloc] of the four fields *)
Definition sbuf_new : option stringbuf := _ ← realloc None 16; Some sbuf_init.

(** The text, given up by the buffer. *)
Definition sbuf_free_dup (s : stringbuf) : option bytes :=
  match sb_buf s with
  | None => None
  | Some b => match realloc (Some b) (sb_count s + 1) with None => Some b | Some r => Some r end
  end.

Definition sbuf_len (s : stringbuf) : Z := sb_count s.

Definition sbuf_string_at (s : stringbuf) (pos : Z) : option bytes :=
  if (pos <? 0) || (sb_count s <? pos) then None
  else match sb_buf s with None => Some [0] | Some b => Some (drop (Z.to_nat pos) b) end.

Definition sbuf_string (s : stringbuf) : option bytes := sbuf_string_at s 0.

Definition sbuf_char_at (s : stringbuf) (pos : Z) : option Z :=
  match sb_buf s with
  | None => Some 0
  | Some b => if (pos <? 0) || (sb_count s <? pos) then Some 0 else b !! Z.to_nat pos
  end.

(** [mem_strdup]: the characters and the terminator of a copy *)
Definition mem_strdup (s : option bytes) : option (option bytes) :=
  match s with
  | None => Some None
  | Some s => n ← c_strlen s; Some (p ← realloc None (n + 1); ic_memcpy p 0 s (n + 1))
  end.

Definition sbuf_strdup_at (s : stringbuf) (pos : Z) : option (option bytes) := mem_strdup (sbuf_string_at s pos).
Definition sbuf_strdup (s : stringbuf) : option (option bytes) := mem_strdup (sbuf_string s).

Fixpoint limit_loop (s : bytes) (n : nat) {struct n} : option Z :=
  match n with
  | O => Some 0
  | S n => match s with [] => None | c :: s => if c =? 0 then Some 0 else i ← limit_loop s n; Some (i + 1) end
  end.

Definition str_limit_to_length (s : bytes) (n : Z) : option Z := limit_loop s (Z.to_nat n).

(** The position after the inserted text. *)
Definition sbuf_insert_at_n (sb : stringbuf) (s : option bytes) (n pos : Z) : option (Z * stringbuf) :=
  if (pos <? 0) || (sb_count sb <? pos) then Some (pos, sb)
  else match s with
       | None => Some (pos, sb)
       | Some s =>
           n ← str_limit_to_length s n;
           if n <=? 0 then Some (pos, sb)
           else
             '(ok, sb) ← sbuf_ensure_extra sb n;
             if negb ok then Some (pos, sb)
             else
               b ← sb_buf sb;
               b ← ic_memmove b (pos + n) pos (sb_count sb - pos);
               b ← ic_memcpy b pos s n;
               b ← poke b (sb_count sb + n) 0;
               Some (pos + n, Stringbuf (Some b) (sb_buflen sb) (sb_count sb + n))
       end.

Definition sbuf_append_n (sb : stringbuf) (s : option bytes) (n : Z) : option (Z * stringbuf) :=
  sbuf_insert_at_n sb s n (sbuf_len sb).

(** The rest of the text in a new buffer; [NULL] for a negative position *)
Definition sbuf_split_at (sb : stringbuf) (pos : Z) : option (option stringbuf * stringbuf) :=
  match sbuf_new with
  | None => Some (None, sb)
  | Some res =>
      if pos <? 0 then Some (None, sb)
      else if pos <? sb_count sb then
        b ← sb_buf sb;
        '(_, res) ← sbuf_append_n res (Some (drop (Z.to_nat pos) b)) (sb_count sb - pos);
        Some (Some res, Stringbuf (sb_buf sb) (sb_buflen sb) pos)
      else Some (Some res, sb)
  end.

Definition sbuf_insert_at (sb : stringbuf) (s : option bytes) (pos : Z) : option (Z * stringbuf) :=
  n ← ic_strlen s; sbuf_insert_at_n sb s n pos.

Definition sbuf_insert_char_at (sb : stringbuf) (c pos : Z) : option (Z * stringbuf) :=
  sbuf_insert_at_n sb (Some [c; 0]) 1 pos.

Definition sbuf_insert_unicode_at (sb : stringbuf) (u pos : Z) : option (Z * stringbuf) :=
  sbuf_insert_at sb (Some (unicode_to_qutf8 u)) pos.

Definition sbuf_delete_at (sb : stringbuf) (pos count : Z) : option stringbuf :=
  if (pos <? 0) || (sb_count sb <=? pos) then Some sb
  else
    let count := if sb_count sb <? pos + count then sb_count sb - pos else count in
    b ← sb_buf sb;
    b ← ic_memmove b pos (pos + count) (sb_count sb - pos - count);
    b ← poke b (sb_count sb - count) 0;
    Some (Stringbuf (Some b) (sb_buflen sb) (sb_count sb - count)).

Definition sbuf_delete_from_to (sb : stringbuf) (pos end_ : Z) : option stringbuf :=
  if end_ <=? pos then Some sb else sbuf_delete_at sb pos (end_ - pos).

Definition sbuf_delete_from (sb : stringbuf) (pos : Z) : option stringbuf :=
  sbuf_delete_at sb pos (sbuf_len sb - pos).

Definition sbuf_clear (sb : stringbuf) : option stringbuf := sbuf_delete_at sb 0 (sbuf_len sb).

Definition sbuf_append (sb : stringbuf) (s : option bytes) : option (Z * stringbuf) :=
  sbuf_insert_at sb s (sbuf_len sb).

Definition sbuf_append_char (sb : stringbuf) (c : Z) : option (Z * stringbuf) :=
  sbuf_append sb (Some [c; 0]).

Definition sbuf_replace (sb : stringbuf) (s : option bytes) : option stringbuf :=
  sb ← sbuf_clear sb; '(_, sb) ← sbuf_append sb s; Some sb.

(** [vsnprintf] of a text into [avail] bytes at [at]: at most [avail - 1]
    characters and a terminator *)
Definition vsnprintf_at (b : bytes) (at_ avail : Z) (text : bytes) : option bytes :=
  if avail <=? 0 then Some b
  else
    let out := take (Z.to_nat (avail - 1)) text ++ [0] in
    ic_memcpy b at_ out (Z.of_nat (length out)).

(** [text] is what the format and its arguments print; [fmtlen] the length of the format *)
Definition sbuf_append_vprintf (sb : stringbuf) (fmtlen : Z) (text : bytes) : option (Z * stringbuf) :=
  '(ok, sb) ← sbuf_ensure_extra sb (fmtlen + 16);
  if negb ok then Some (sb_count sb, sb)
  else
    b ← sb_buf sb;
    let needed := Z.of_nat (length text) in
    let avail := sb_buflen sb - sb_count sb in
    b ← vsnprintf_at b (sb_count sb) avail text;
    let finish (b : bytes) (sb : stringbuf) (avail : Z) :=
      let n := sb_count sb + (if avail <? needed then avail else needed) in
      b ← poke b n 0; Some (n, Stringbuf (Some b) (sb_buflen sb) n) in
    if avail <? needed then
      b ← poke b (sb_count sb) 0;
      '(ok, sb) ← sbuf_ensure_extra (Stringbuf (Some b) (sb_buflen sb) (sb_count sb)) needed;
      if negb ok then Some (sb_count sb, sb)
      else
        b ← sb_buf sb;
        let avail := sb_buflen sb - sb_count sb in
        b ← vsnprintf_at b (sb_count sb) avail text;
        finish b sb avail
    else finish b sb avail.

(** ** Moving by characters *)

(** [ic_strchr]: [strchr(set, c) != NULL]; the terminator is found too *)
Definition in_set (set : string) (c : Z) : bool := (c =? 0) || existsb (Z.eqb c) (bytes_of_string set).

Fixpoint esc_loop (fuel : nat) (finalCSI : bool) (s : bytes) (len n : Z) : option (option Z) :=
  match fuel with
  | O => None
  | S fuel =>
      if n <? len then
        c ← s !! Z.to_nat n;
        let n := n + 1 in
        if (finalCSI && (0x40 <=? c) && (c <=? 0x7F)) || (negb finalCSI && (c =? 0x07)) || (c =? 0x02) then Some (Some n)
        else if negb finalCSI && (c =? 0x1B) && (n <? len) then
          d ← s !! Z.to_nat n;
          if d =? code "\" then Some (Some (n + 1)) else esc_loop fuel finalCSI s len n
        else esc_loop fuel finalCSI s len n
      else Some None
  end.

(** [Some None] is [false], [Some (Some n)] is [true] with [*esclen = n]. *)
Definition skip_esc (s : bytes) (len : Z) : option (option Z) :=
  if len <=? 1 then Some None
  else
    s0 ← s !! 0%nat;
    if negb (s0 =? 0x1B) then Some None
    else
      s1 ← s !! 1%nat;
      found ← (if in_set "[PX^_]" s1 then esc_loop (Z.to_nat len) (s1 =? code "[") s len 2 else Some None);
      match found with
      | Some n => Some (Some n)
      | None => if in_set " #%()*+" s1 then Some (Some 2) else Some (Some 2)
      end.

Definition follower (u : Z) : bool := (0x80 <=? u) && (u <=? 0xBF).

Fixpoint next_loop (fuel : nat) (s : bytes) (len pos ofs : Z) : option Z :=
  match fuel with
  | O => None
  | S fuel =>
      if pos + ofs <? len then
        u ← s !! Z.to_nat (pos + ofs);
        if follower u then next_loop fuel s len pos (ofs + 1) else Some ofs
      else Some ofs
  end.

Definition str_next_ofs (s : option bytes) (len pos : Z) : option Z :=
  match s with
  | None => Some 0
  | Some s =>
      if pos <? len then
        if pos <? 0 then None else
        esc ← skip_esc (drop (Z.to_nat pos) s) (len - pos);
        match esc with
        | Some n => Some n
        | None => next_loop (Z.to_nat (len - pos)) s len pos 1
        end
      else Some 0
  end.

Fixpoint prev_loop (fuel : nat) (s : bytes) (pos ofs : Z) : option Z :=
  match fuel with
  | O => None
  | S fuel =>
      if ofs <? pos then
        u ← s !! Z.to_nat (pos - ofs);
        if follower u then prev_loop fuel s pos (ofs + 1) else Some ofs
      else Some ofs
  end.

Definition str_prev_ofs (s : option bytes) (pos : Z) : option Z :=
  match s with
  | None => Some 0
  | Some s => if 0 <? pos then prev_loop (Z.to_nat pos) s pos 1 else Some 0
  end.

(** ** Columns *)

(** [c] is the code point that the bytes would have, valid or not. *)
Definition utf8_char_width (s : bytes) (n : Z) : option Z :=
  if n <=? 0 then Some 0
  else
    b ← s !! 0%nat;
    if b <? 32 then Some 0
    else if b <=? 0x7F then Some 1
    else if b <=? 0xC1 then Some 1
    else if (b <=? 0xDF) && (2 <=? n) then
      s1 ← s !! 1%nat;
      mk_wcwidth (((b .& 0x1F) << 6) .| (s1 .& 0x3F))
    else if (b <=? 0xEF) && (3 <=? n) then
      s1 ← s !! 1%nat; s2 ← s !! 2%nat;
      mk_wcwidth (((b .& 0x0F) << 12) .| ((s1 .& 0x3F) << 6) .| (s2 .& 0x3F))
    else if (b <=? 0xF4) && (4 <=? n) then
      s1 ← s !! 1%nat; s2 ← s !! 2%nat; s3 ← s !! 3%nat;
      mk_wcwidth (((b .& 0x07) << 18) .| ((s1 .& 0x3F) << 12) .| ((s2 .& 0x3F) << 6) .| (s3 .& 0x3F))
    else Some 1.

Definition char_column_width (s : option bytes) (n : Z) : option Z :=
  match s with
  | None => Some 0
  | Some s =>
      if n <=? 0 then Some 0
      else b ← s !! 0%nat; if b <? 32 then Some 0 else utf8_char_width s n
  end.

(** [str_next_ofs] with its [cwidth] *)
Definition str_next_width (s : option bytes) (len pos : Z) : option (Z * Z) :=
  ofs ← str_next_ofs s len pos;
  w ← char_column_width (drop (Z.to_nat pos) <$> s) ofs;
  Some (ofs, w).

Fixpoint width_loop (fuel : nat) (s : bytes) (len pos cwidth : Z) : option Z :=
  match fuel with
  | O => None
  | S fuel =>
      c ← s !! Z.to_nat pos;
      if c =? 0 then Some cwidth
      else
        '(ofs, cw) ← str_next_width (Some s) len pos;
        if 0 <? ofs then width_loop fuel s len (pos + ofs) (cwidth + cw) else Some cwidth
  end.

Definition str_column_width_n (s : option bytes) (len : Z) : option Z :=
  match s with
  | None => Some 0
  | Some s => if len <=? 0 then Some 0 else width_loop (S (Z.to_nat len)) s len 0 0
  end.

Definition str_column_width (s : option bytes) : option Z :=
  len ← ic_strlen s; str_column_width_n s len.

Fixpoint skip_fit_loop (fuel : nat) (s : bytes) (len max_width pos cwidth : Z) : option Z :=
  match fuel with
  | O => None
  | S fuel =>
      if max_width <? cwidth then
        '(next, cw) ← str_next_width (Some s) len pos;
        if 0 <? next then skip_fit_loop fuel s len max_width (pos + next) (cwidth - cw) else Some pos
      else Some pos
  end.

Definition str_skip_until_fit (s : option bytes) (max_width : Z) : option Z :=
  match s with
  | None => Some 0
  | Some b =>
      cwidth ← str_column_width s;
      len ← ic_strlen s;
      skip_fit_loop (S (Z.to_nat len)) b len max_width 0 cwidth
  end.

Fixpoint take_fit_loop (fuel : nat) (s : bytes) (len max_width pos cwidth : Z) : option Z :=
  match fuel with
  | O => None
  | S fuel =>
      '(next, cw) ← str_next_width (Some s) len pos;
      if 0 <? next then
        if max_width <? cwidth + cw then Some pos
        else take_fit_loop fuel s len max_width (pos + next) (cwidth + cw)
      else Some pos
  end.

Definition str_take_while_fit (s : option bytes) (max_width : Z) : option Z :=
  match s with
  | None => Some 0
  | Some b => len ← ic_strlen s; take_fit_loop (S (Z.to_nat len)) b len max_width 0 0
  end.

(** ** Searching words and lines *)

Definition char_class : Type := bytes -> Z -> option bool.

(** One of the two loops of [str_find_backward]: go back while a character
    is of the class ([want] true: the skipping), or is not (the search).  The
    result is the position before the character that ends the loop, and
    whether there was one. *)
Fixpoint back_loop (fuel : nat) (s : bytes) (m : char_class) (want : bool) (i : Z) : option (Z * bool) :=
  match fuel with
  | O => None
  | S fuel =>
      prev ← str_prev_ofs (Some s) i;
      if prev <=? 0 then Some (i, false)
      else
        hit ← m (drop (Z.to_nat (i - prev)) s) prev;
        if Bool.eqb hit want then
          (if 0 <? i - prev then back_loop fuel s m want (i - prev) else Some (i - prev, false))
        else Some (i, true)
  end.

Definition str_find_backward (s : option bytes) (len pos : Z) (m : char_class) (skip : bool) : option Z :=
  let pos := if len <? pos then len else pos in
  let pos := if pos <? 0 then 0 else pos in
  match s with
  | None => Some (-1)
  | Some s =>
      i ← (if skip then fst <$> back_loop (S (Z.to_nat pos)) s m true pos else Some pos);
      '(i, found) ← back_loop (S (Z.to_nat pos)) s m false i;
      Some (if (found : bool) then i else -1)
  end.

Fixpoint forth_loop (fuel : nat) (s : bytes) (len : Z) (m : char_class) (want : bool) (i : Z) : option (Z * bool) :=
  match fuel with
  | O => None
  | S fuel =>
      next ← str_next_ofs (Some s) len i;
      if next <=? 0 then Some (i, false)
      else
        hit ← m (drop (Z.to_nat i) s) next;
        if Bool.eqb hit want then
          (if i + next <? len then forth_loop fuel s len m want (i + next) else Some (i + next, false))
        else Some (i, true)
  end.

Definition str_find_forward (s : option bytes) (len pos : Z) (m : char_class) (skip : bool) : option Z :=
  match s with
  | None => Some (-1)
  | Some s =>
      if len <? 0 then Some (-1)
      else
        let pos := if len <? pos then len else pos in
        let pos := if pos <? 0 then 0 else pos in
        i ← (if skip then fst <$> forth_loop (S (Z.to_nat len)) s len m true pos else Some pos);
        '(i, found) ← forth_loop (S (Z.to_nat len)) s len m false i;
        Some (if (found : bool) then i else -1)
  end.

Definition char_is_linefeed : char_class := fun s n =>
  if negb (n =? 1) then Some false else c ← s !! 0%nat; Some ((c =? 10) || (c =? 0)).

Definition ic_char_is_white : char_class := fun s len =>
  if negb (len =? 1) then Some false
  else c ← s !! 0%nat; Some ((c =? 32) || (c =? 9) || (c =? 10) || (c =? 13)).

Definition ic_char_is_nonwhite : char_class := fun s len => negb <$> ic_char_is_white s len.

Definition ic_char_is_separator : char_class := fun s len =>
  if negb (len =? 1) then Some false
  else c ← s !! 0%nat; Some ((c =? 9) || (c =? 13) || (c =? 10) || in_set " ,.;:/\(){}[]" c).

Definition ic_char_is_nonseparator : char_class := fun s len => negb <$> ic_char_is_separator s len.

Definition in_range (a b : ascii) (c : Z) : bool := (code a <=? c) && (c <=? code b).

Definition ic_char_is_digit : char_class := fun s len =>
  if negb (len =? 1) then Some false else c ← s !! 0%nat; Some (in_range "0" "9" c).

Definition ic_char_is_hexdigit : char_class := fun s len =>
  if negb (len =? 1) then Some false
  else c ← s !! 0%nat; Some (in_range "0" "9" c || in_range "a" "f" c || in_range "A" "F" c).

Definition ic_char_is_letter : char_class := fun s len =>
  if len <=? 0 then Some false
  else c ← s !! 0%nat; Some ((0x80 <=? c) || in_range "A" "Z" c || in_range "a" "z" c).

Definition ic_char_is_idletter : char_class := fun s len =>
  if len <=? 0 then Some false
  else c ← s !! 0%nat;
       Some ((0x80 <=? c) || in_range "A" "Z" c || in_range "a" "z" c || in_range "0" "9" c
             || (c =? code "_") || (c =? code "-")).

Definition ic_char_is_filename_letter : char_class := fun s len =>
  if len <=? 0 then Some false
  else c ← s !! 0%nat;
       Some ((0x80 <=? c)
             || negb ((c =? 9) || (c =? 13) || (c =? 10) || in_set " `@$><=;|&{}()[]" c)).

Definition or_else (d : Z) (r : option Z) : option Z := x ← r; Some (if x <? 0 then d else x).

Definition str_find_line_start s len pos : option Z := or_else 0 (str_find_backward s len pos char_is_linefeed false).
Definition str_find_line_end s len pos : option Z := or_else len (str_find_forward s len pos char_is_linefeed false).
Definition str_find_word_start s len pos : option Z := or_else 0 (str_find_backward s len pos ic_char_is_idletter true).
Definition str_find_word_end s len pos : option Z := or_else len (str_find_forward s len pos ic_char_is_idletter true).
Definition str_find_ws_word_start s len pos : option Z := or_else 0 (str_find_backward s len pos ic_char_is_white true).
Definition str_find_ws_word_end s len pos : option Z := or_else len (str_find_forward s len pos ic_char_is_white true).

(** ** Rows and columns *)

(** A row function gets the row, its start and length, the width of the prompt and
    whether the row is wrapped; it returns whether to stop, and its result. *)
Definition row_fun (R : Type) : Type := Z -> Z -> Z -> Z -> bool -> R -> option (bool * R).

(** A callback, then the rest unless it says to stop. *)
Definition call_row {R} (fun_ : option (row_fun R)) (rcount rstart rlen startw : Z) (is_wrap : bool) (res : R)
    (rest : R -> option (Z * R)) : option (Z * R) :=
  match fun_ with
  | None => rest res
  | Some f => '(stop, res) ← f rcount rstart rlen startw is_wrap res; if (stop : bool) then Some (rcount, res) else rest res
  end.

Fixpoint row_loop {R} (fuel : nat) (s : bytes) (len termw promptw cpromptw : Z) (fun_ : option (row_fun R))
    (i rcount rcol rstart startw : Z) (res : R) : option (Z * R) :=
  let last := call_row fun_ rcount rstart (i - rstart) startw false res (fun res => Some (rcount + 1, res)) in
  match fuel with
  | O => None
  | S fuel =>
      if i <? len then
        '(next, w) ← str_next_width (Some s) len i;
        if next <=? 0 then last
        else
          let startw := if rcount =? 0 then promptw else cpromptw in
          let termcol := rcol + w + startw + 1 in
          let newline rcount rcol rstart res :=
            c ← s !! Z.to_nat i;
            if c =? 10 then
              call_row fun_ rcount rstart (i - rstart) startw false res
                (fun res => row_loop fuel s len termw promptw cpromptw fun_ (i + next) (rcount + 1) (0 + w) (i + 1) startw res)
            else row_loop fuel s len termw promptw cpromptw fun_ (i + next) rcount (rcol + w) rstart startw res in
          if negb (termw =? 0) && negb (i =? 0) && (termw <=? termcol)
          then call_row fun_ rcount rstart (i - rstart) startw true res (fun res => newline (rcount + 1) 0 i res)
          else newline rcount rcol rstart res
      else last
  end.

Definition str_for_each_row {R} (s : option bytes) (len termw promptw cpromptw : Z) (fun_ : option (row_fun R)) (res : R) :
    option (Z * R) :=
  row_loop (S (Z.to_nat len)) (default [0] s) len termw promptw cpromptw fun_ 0 0 0 0 promptw res.

Record rowcol := Rowcol { rc_row : Z; rc_col : Z; rc_row_start : Z; rc_row_len : Z; rc_first_on_row : bool; rc_last_on_row : bool }.
Definition rowcol_zero : rowcol := Rowcol 0 0 0 0 false false.

Definition str_get_current_pos_iter (s : option bytes) (pos : Z) : row_fun rowcol :=
  fun row row_start row_len startw is_wrap rc =>
    if (row_start <=? pos) && (pos <=? row_start + row_len) then
      col ← str_column_width_n (drop (Z.to_nat row_start) <$> s) (pos - row_start);
      last ← (if is_wrap
              then next ← str_next_ofs s (row_start + row_len) pos; Some (row_start + row_len <=? pos + next)
              else Some (row_start + row_len <=? pos));
      Some (false, Rowcol row col row_start row_len (pos =? row_start) last)
    else Some (false, rc).

Definition str_get_rc_at_pos (s : option bytes) (len termw promptw cpromptw pos : Z) : option (Z * rowcol) :=
  str_for_each_row s len termw promptw cpromptw (Some (str_get_current_pos_iter (Some (default [0] s)) pos)) rowcol_zero.

(** The rows of a terminal of another width: the position and the extra rows *)
Definition wrowcol : Type := rowcol * Z.

Fixpoint wrapped_loop (fuel : nat) (s : option bytes) (pos newtermw row row_start row_len : Z) (is_wrap : bool)
    (i hwidth : Z) (wrc : wrowcol) : option wrowcol :=
  match fuel with
  | O => None
  | S fuel =>
      if i <=? row_len then
        let is_cursor := pos =? row_start + i in
        '(next, cw) ← (if i <? row_len then str_next_width (drop (Z.to_nat row_start) <$> s) row_len i
                       else Some (1, if is_wrap then 2 else if is_cursor then 1 else 0));
        let '(rc, hrows) := wrc in
        let '(hwidth, hrows) :=
          if (0 <? next) && (newtermw <? hwidth + cw) then (0, hrows + 1) else (hwidth, hrows) in
        let next := if 0 <? next then next else next + 1 in
        let rc := if is_cursor
                  then Rowcol (hrows + row) hwidth row_start row_len (i =? 0)
                         (row_len - (if is_wrap then 1 else 0) <=? i + next)
                  else rc in
        wrapped_loop fuel s pos newtermw row row_start row_len is_wrap (i + next) (hwidth + cw) (rc, hrows)
      else Some wrc
  end.

Definition str_get_current_wrapped_pos_iter (s : option bytes) (pos newtermw : Z) : row_fun wrowcol :=
  fun row row_start row_len startw is_wrap wrc =>
    wrc ← wrapped_loop (S (S (Z.to_nat row_len))) s pos newtermw row row_start row_len is_wrap 0 startw wrc;
    Some (false, wrc).

Definition str_get_wrapped_rc_at_pos (s : option bytes) (len termw newtermw promptw cpromptw pos : Z) :
    option (Z * rowcol) :=
  '(rows, (rc, hrows)) ← str_for_each_row s len termw promptw cpromptw
                           (Some (str_get_current_wrapped_pos_iter (Some (default [0] s)) pos newtermw)) (rowcol_zero, 0);
  Some (rows + hrows, rc).

Fixpoint col_loop (fuel : nat) (s : option bytes) (end_ target i col : Z) : option Z :=
  match fuel with
  | O => None
  | S fuel =>
      if (col <? target) && (i <? end_) then
        '(next, cw) ← str_next_width s end_ i;
        if next <=? 0 then Some i else col_loop fuel s end_ target (i + next) (col + cw)
      else Some i
  end.

Definition str_set_pos_iter (s : option bytes) (rc_row rc_col : Z) : row_fun Z :=
  fun row row_start row_len startw is_wrap res =>
    if negb (rc_row =? row) then Some (false, res)
    else i ← col_loop (S (Z.to_nat row_len)) s (row_start + row_len) rc_col row_start 0; Some (true, i).

Definition str_get_pos_at_rc (s : option bytes) (len termw promptw cpromptw row col : Z) : option Z :=
  snd <$> str_for_each_row s len termw promptw cpromptw (Some (str_set_pos_iter (Some (default [0] s)) row col)) (-1).

(** ** The buffer by characters *)

Definition sbuf_next_ofs (sb : stringbuf) (pos : Z) : option Z := str_next_ofs (sb_buf sb) (sb_count sb) pos.
Definition sbuf_prev_ofs (sb : stringbuf) (pos : Z) : option Z := str_prev_ofs (sb_buf sb) pos.

Definition sbuf_next (sb : stringbuf) (pos : Z) : option Z :=
  ofs ← sbuf_next_ofs sb pos; Some (if ofs <=? 0 then -1 else pos + ofs).

Definition sbuf_prev (sb : stringbuf) (pos : Z) : option Z :=
  ofs ← sbuf_prev_ofs sb pos; Some (if ofs <=? 0 then -1 else pos - ofs).

Definition sbuf_delete_char_before (sb : stringbuf) (pos : Z) : option (Z * stringbuf) :=
  n ← sbuf_prev_ofs sb pos;
  if n <=? 0 then Some (0, sb) else sb ← sbuf_delete_at sb (pos - n) n; Some (pos - n, sb).

Definition sbuf_delete_char_at (sb : stringbuf) (pos : Z) : option stringbuf :=
  n ← sbuf_next_ofs sb pos; if n <=? 0 then Some sb else sbuf_delete_at sb pos n.

Definition sbuf_swap_char (sb : stringbuf) (pos : Z) : option (Z * stringbuf) :=
  next ← sbuf_next_ofs sb pos;
  if next <=? 0 then Some (0, sb)
  else
    prev ← sbuf_prev_ofs sb pos;
    if prev <=? 0 then Some (0, sb)
    else if 63 <=? prev then Some (0, sb)
    else
      b ← sb_buf sb;
      buf ← ic_memcpy (zeroes 64) 0 (drop (Z.to_nat (pos - prev)) b) prev;
      b ← ic_memmove b (pos - prev) pos next;
      b ← ic_memcpy b (pos - prev + next) buf prev;
      Some (pos - prev, Stringbuf (Some b) (sb_buflen sb) (sb_count sb)).

Definition sbuf_find_line_start (sb : stringbuf) (pos : Z) : option Z := str_find_line_start (sb_buf sb) (sb_count sb) pos.
Definition sbuf_find_line_end (sb : stringbuf) (pos : Z) : option Z := str_find_line_end (sb_buf sb) (sb_count sb) pos.
Definition sbuf_find_word_start (sb : stringbuf) (pos : Z) : option Z := str_find_word_start (sb_buf sb) (sb_count sb) pos.
Definition sbuf_find_word_end (sb : stringbuf) (pos : Z) : option Z := str_find_word_end (sb_buf sb) (sb_count sb) pos.
Definition sbuf_find_ws_word_start (sb : stringbuf) (pos : Z) : option Z := str_find_ws_word_start (sb_buf sb) (sb_count sb) pos.
Definition sbuf_find_ws_word_end (sb : stringbuf) (pos : Z) : option Z := str_find_ws_word_end (sb_buf sb) (sb_count sb) pos.

Definition sbuf_get_pos_at_rc (sb : stringbuf) (termw promptw cpromptw row col : Z) : option Z :=
  str_get_pos_at_rc (sb_buf sb) (sb_count sb) termw promptw cpromptw row col.
Definition sbuf_get_rc_at_pos (sb : stringbuf) (termw promptw cpromptw pos : Z) : option (Z * rowcol) :=
  str_get_rc_at_pos (sb_buf sb) (sb_count sb) termw promptw cpromptw pos.
Definition sbuf_get_wrapped_rc_at_pos (sb : stringbuf) (termw newtermw promptw cpromptw pos : Z) : option (Z * rowcol) :=
  str_get_wrapped_rc_at_pos (sb_buf sb) (sb_count sb) termw newtermw promptw cpromptw pos.
Definition sbuf_for_each_row {R} (sb : stringbuf) (termw promptw cpromptw : Z) (fun_ : option (row_fun R)) (res : R) :
    option (Z * R) :=
  str_for_each_row (sb_buf sb) (sb_count sb) termw promptw cpromptw fun_ res.

(** The loop of [sbuf_strdup_from_utf8]; [s] has the [len] bytes that were allocated. *)
Fixpoint from_utf8_loop (fuel : nat) (sb : stringbuf) (b : bytes) (len : Z) (s : bytes) (dest i : Z) : option bytes :=
  match fuel with
  | O => None
  | S fuel =>
      if i <? len then
        ofs ← sbuf_next_ofs sb i;
        if ofs <=? 0 then poke s dest 0
        else
          c ← b !! Z.to_nat i;
          let go s dest := from_utf8_loop fuel sb b len s dest (i + ofs) in
          if ofs =? 1 then s ← poke s dest c; go s (dest + 1)
          else if c =? 0x1B then go s dest
          else
            '(uchr, _) ← unicode_from_qutf8 (drop (Z.to_nat i) b) ofs;
            match unicode_is_raw uchr with
            | Some c => s ← poke s dest c; go s (dest + 1)
            | None => if uchr <=? 0x7F then s ← poke s dest uchr; go s (dest + 1) else go s dest
            end
      else poke s dest 0
  end.

(** [Some None] is NULL *)
Definition sbuf_strdup_from_utf8 (sb : stringbuf) : option (option bytes) :=
  let len := sbuf_len sb in
  if len <=? 0 then Some None
  else
    b ← sb_buf sb;
    match realloc None len with
    | None => Some None
    | Some s => Some <$> from_utf8_loop (S (Z.to_nat len)) sb b len (zeroes (length s)) 0 0
    end.

(** ** Public helpers *)

Definition ic_prev_char (s : option bytes) (pos : Z) : option Z :=
  len ← ic_strlen s;
  if (pos <? 0) || (len <? pos) then Some (-1)
  else ofs ← str_prev_ofs s pos; Some (if ofs <=? 0 then -1 else pos - ofs).

Definition ic_next_char (s : option bytes) (pos : Z) : option Z :=
  len ← ic_strlen s;
  if (pos <? 0) || (len <? pos) then Some (-1)
  else ofs ← str_next_ofs s len pos; Some (if ofs <=? 0 then -1 else pos + ofs).

Fixpoint token_loop (fuel : nat) (s : bytes) (len : Z) (is_token_char : char_class) (pos i : Z) : option Z :=
  match fuel with
  | O => None
  | S fuel =>
      if i <? len then
        next ← str_next_ofs (Some s) len i;
        if next <=? 0 then Some (-1)
        else
          hit ← is_token_char (drop (Z.to_nat i) s) next;
          if (hit : bool) then token_loop fuel s len is_token_char pos (i + next) else Some (i - pos)
      else Some (i - pos)
  end.

Definition ic_is_token (s : option bytes) (pos : Z) (is_token_char : char_class) : option Z :=
  match s with
  | None => Some (-1)
  | Some b =>
      if pos <? 0 then Some (-1)
      else
        len ← c_strlen b;
        if len <=? pos then Some (-1)
        else
          before ← (if 0 <? pos then is_token_char (drop (Z.to_nat (pos - 1)) b) 1 else Some false);
          if (before : bool) then Some (-1) else token_loop (S (Z.to_nat len)) b len is_token_char pos pos
  end.

(** [strncmp] of [n] bytes, both strings at least that long *)
Definition same_prefix (a b : bytes) (n : Z) : bool := bool_decide (take (Z.to_nat n) a = take (Z.to_nat n) b).

Definition ic_match_token (s : option bytes) (pos : Z) (is_token_char : char_class) (token : option bytes) : option Z :=
  n ← ic_is_token s pos is_token_char;
  match s, token with
  | Some b, Some t =>
      if 0 <? n then
        l ← c_strlen t;
        Some (if (n =? l) && same_prefix (drop (Z.to_nat pos) b) t n then n else 0)
      else Some 0
  | _, _ => Some 0
  end.

Fixpoint any_token_loop (b : bytes) (n pos : Z) (tokens : list bytes) : option Z :=
  match tokens with
  | [] => Some 0
  | t :: tokens =>
      l ← c_strlen t;
      if (n =? l) && same_prefix (drop (Z.to_nat pos) b) t n then Some n else any_token_loop b n pos tokens
  end.

Definition ic_match_any_token (s : option bytes) (pos : Z) (is_token_char : char_class) (tokens : option (list bytes)) :
    option Z :=
  n ← ic_is_token s pos is_token_char;
  match s, tokens with
  | Some b, Some tokens => if n <=? 0 then Some 0 else any_token_loop b n pos tokens
  | _, _ => Some 0
  end.

End Buffer.
