(* ===== verification/SbufEdit.v ===== *)
(** The editing operations of the text buffer (Stringbuf) refine edits of a
    list of bytes.

    [sbuf_repr sb t]: the buffer holds the text [t], which has no NUL, with its
    terminator, and [buflen] is one less than the size of the object.  An
    operation either does the edit, or, when memory runs out, leaves the text as it
    is; it never accesses memory outside the buffer. *)
From S2P Require Import Prelude CLib Unicode Stringbuf.

Definition text_ok (t : bytes) : Prop := Forall (fun c => c <> 0) t.

Definition sbuf_repr (sb : stringbuf) (t : bytes) : Prop :=
  text_ok t /\ sb_count sb = Z.of_nat (length t)
  /\ match sb_buf sb with
     | None => t = [] /\ sb_buflen sb = 0
     | Some b => exists rest, b = t ++ 0 :: rest /\ sb_buflen sb + 1 = Z.of_nat (length b)
     end.

(** ** Memory *)

Lemma memcpy_ok b dest src n :
  0 <= n -> 0 <= dest -> dest + n <= Z.of_nat (length b) -> n <= Z.of_nat (length src) ->
  ic_memcpy b dest src n = Some (overlay (Z.to_nat dest) (take (Z.to_nat n) src) b).
Proof.
  intros. unfold ic_memcpy. destruct (Z.leb_spec n 0).
  - replace n with 0 by lia. unfold overlay. cbn [Z.to_nat]. rewrite take_0. cbn [app length].
    by rewrite Nat.add_0_r, take_drop.
  - by rewrite !(proj2 (Z.leb_le _ _)) by lia.
Qed.

Lemma memmove_ok b dest src n :
  0 <= n -> 0 <= dest -> 0 <= src -> dest + n <= Z.of_nat (length b) -> src + n <= Z.of_nat (length b) ->
  ic_memmove b dest src n = Some (overlay (Z.to_nat dest) (sub b (Z.to_nat src) (Z.to_nat n)) b).
Proof.
  intros. unfold ic_memmove, sub. rewrite <- memcpy_ok by (rewrite ?length_drop; lia). destruct (Z.leb_spec n 0).
  - unfold ic_memcpy. by rewrite (proj2 (Z.leb_le n 0)) by lia.
  - by rewrite (proj2 (Z.leb_le 0 src)) by lia.
Qed.

Lemma poke_app (t : bytes) x rest i v : i = Z.of_nat (length t) -> poke (t ++ x :: rest) i v = Some (t ++ v :: rest).
Proof.
  intros ->. unfold poke, store_at. rewrite (proj2 (Z.leb_le _ _)), (proj2 (Nat.ltb_lt _ _)) by (rewrite ?length_app; cbn; lia).
  rewrite Nat2Z.id, insert_app_r_alt by lia. by rewrite Nat.sub_diag.
Qed.

Lemma poke_some b i v : 0 <= i < Z.of_nat (length b) -> poke b i v = Some (<[Z.to_nat i := v]> b).
Proof. intros. unfold poke, store_at. by rewrite (proj2 (Z.leb_le _ _)), (proj2 (Nat.ltb_lt _ _)) by lia. Qed.

(** ** Strings *)

Definition cstr (c : bytes) : bytes := c ++ [0].

Lemma c_strlen_app c rest : text_ok c -> c_strlen (c ++ 0 :: rest) = Some (Z.of_nat (length c)).
Proof.
  induction 1 as [|x c Hx Hc IH]; [done|]. cbn [app c_strlen]. rewrite (proj2 (Z.eqb_neq x 0)), IH by done.
  cbn [mbind option_bind length]. f_equal. lia.
Qed.

(** The text up to a NUL or to [n] bytes. *)
Lemma limit_loop_app c rest n : text_ok c -> (length c <= n)%nat -> (length c = n \/ head rest = Some 0) ->
  limit_loop (c ++ rest) n = Some (Z.of_nat (length c)).
Proof.
  intros Hc. revert n. induction Hc as [|x c Hx Hc IH]; intros n Hl Hn.
  - destruct n as [|n]; [done|]. destruct Hn as [Hn|Hn]; [discriminate Hn|]. destruct rest as [|y rest]; [discriminate Hn|].
    by injection Hn as ->.
  - destruct n as [|n]; [cbn in Hl; lia|]. cbn [app limit_loop]. rewrite (proj2 (Z.eqb_neq x 0)) by done.
    rewrite IH by (cbn in *; destruct Hn; [lia|auto with lia]).
    cbn [mbind option_bind length]. f_equal. lia.
Qed.

(** ** Growing *)

Section Edit.
Context `{A : allocator, !allocator_ok A}.

(** A request failed. *)
Definition exhausted : Prop := exists p n, 0 <= n /\ realloc p n = None.

Lemma realloc_prefix t rest n nb :
  realloc (Some (t ++ rest)) n = Some nb -> Z.of_nat (length t) <= n -> take (length t) nb = t.
Proof.
  intros Hr Hn. pose proof (realloc_size _ _ _ Hr). apply realloc_keeps in Hr.
  apply (f_equal (take (length t))) in Hr. rewrite !take_take, length_app in Hr.
  rewrite !Nat.min_l in Hr by lia. by rewrite take_app_length in Hr.
Qed.

Lemma ensure_extra_repr sb t extra :
  sbuf_repr sb t -> 0 <= extra ->
  (sbuf_ensure_extra sb extra = Some (false, sb) /\ exhausted)
  \/ exists sb', sbuf_ensure_extra sb extra = Some (true, sb') /\ sbuf_repr sb' t
       /\ Z.of_nat (length t) + extra <= sb_buflen sb' /\ (0 < extra -> sb_buf sb' <> None).
Proof.
  intros (Ht & Hc & Hb) He. unfold sbuf_ensure_extra. rewrite Hc.
  destruct (Z.leb_spec (Z.of_nat (length t) + extra) (sb_buflen sb)).
  { right. exists sb. split; [done|]. split; [done|]. split; [lia|]. destruct (sb_buf sb); [done|lia]. }
  set (n0 := if sb_buflen sb <=? 0 then _ else _). set (newlen := if n0 <? _ then _ else _).
  assert (Hn : Z.of_nat (length t) + extra <= newlen) by (unfold newlen; destruct (Z.ltb_spec n0 (Z.of_nat (length t) + extra)); lia).
  destruct (realloc (sb_buf sb) (newlen + 1)) as [nb|] eqn:Hr; [right|left; split; [done|]; eexists _, _; split; [|exact Hr]; lia].
  pose proof (realloc_size _ _ _ Hr) as Hs.
  assert (Hp : take (length t) nb = t).
  { destruct (sb_buf sb) as [b|]; [destruct Hb as (rest & -> & _)|by destruct Hb as [-> _]].
    apply (realloc_prefix _ _ _ _ Hr). lia. }
  rewrite poke_some by lia. cbn [mbind option_bind].
  rewrite poke_some by (rewrite length_insert; lia). cbn [mbind option_bind].
  eexists. split; [done|]. split; [|cbn; split; [lia|done]]. split; [done|]. split; [done|]. cbn.
  rewrite !length_insert. rewrite Nat2Z.id. exists (drop (S (length t)) (<[Z.to_nat newlen:=0]> nb)). split; [|lia].
  rewrite <- (take_drop_middle (<[length t:=0]> (<[Z.to_nat newlen:=0]> nb)) (length t) 0) at 1
    by (apply list_lookup_insert_eq; rewrite length_insert; lia).
  rewrite take_insert_ge, take_insert_ge, Hp by lia. by rewrite drop_insert_lt by lia.
Qed.

(** ** Inserting *)

Lemma overlay_app {X} (p x q src : list X) :
  length src = length x -> overlay (length p) src (p ++ x ++ q) = p ++ src ++ q.
Proof.
  intros Hl. unfold overlay. rewrite take_app_length, Hl. f_equal. f_equal.
  rewrite app_assoc, <- length_app. by rewrite drop_app_length.
Qed.

Lemma split_hole (b : bytes) n m :
  (n + m < length b)%nat -> exists x w y r, b = x ++ w ++ y :: r /\ length x = n /\ length w = m.
Proof.
  intros H. destruct (drop (n + m) b) as [|y r] eqn:Ed;
    [apply (f_equal length) in Ed; rewrite length_drop in Ed; cbn in Ed; lia|].
  exists (take n b), (take m (drop n b)), y, r. rewrite <- Ed, <- (drop_drop b m n), !take_drop.
  rewrite !length_take, length_drop. split; [done|lia].
Qed.

(** The hole for the new text, then the new text. *)
Lemma insert_bytes (t1 t2 c more gap : bytes) z :
  (length c <= length gap)%nat ->
  exists rest,
    (b ← ic_memmove (t1 ++ t2 ++ z :: gap) (Z.of_nat (length t1) + Z.of_nat (length c)) (Z.of_nat (length t1)) (Z.of_nat (length t2));
     b ← ic_memcpy b (Z.of_nat (length t1)) (c ++ more) (Z.of_nat (length c));
     poke b (Z.of_nat (length t1 + length t2) + Z.of_nat (length c)) 0)
    = Some ((t1 ++ c ++ t2) ++ 0 :: rest) /\ (length rest = length gap - length c)%nat.
Proof.
  intros Hg. rewrite memmove_ok by (rewrite ?length_app; cbn [length]; lia). cbn [mbind option_bind].
  rewrite !Nat2Z.id, (Z2Nat.inj_add (Z.of_nat _) (Z.of_nat _)), !Nat2Z.id by lia.
  unfold sub. rewrite drop_app_length, take_app_length.
  destruct (split_hole (t2 ++ z :: gap) (length c) (length t2)) as (x & w & y & r & Hb & Hx & Hw);
    [rewrite length_app; cbn [length]; lia|].
  assert (Hr : (length r = length gap - length c)%nat)
    by (apply (f_equal length) in Hb; rewrite !length_app in Hb; cbn [length] in Hb; lia).
  rewrite Hb. rewrite (app_assoc t1 x), <- Hx, <- (length_app t1 x), overlay_app by done. rewrite <- app_assoc.
  rewrite memcpy_ok by (rewrite ?length_app; cbn [length]; lia). cbn [mbind option_bind].
  rewrite !Nat2Z.id, Hx, take_app_length, overlay_app by done.
  exists r. split; [|done]. rewrite !(app_assoc _ t2), (app_assoc t1). rewrite poke_app by (rewrite !length_app; lia).
  by rewrite !app_assoc.
Qed.

Lemma text_ok_app a b : text_ok (a ++ b) <-> text_ok a /\ text_ok b.
Proof. apply Forall_app. Qed.

(** Text [c] at the pointer, up to [n] bytes or to a NUL. *)
Definition points_to (s : bytes) (n : Z) (c : bytes) : Prop :=
  text_ok c /\ exists more, s = c ++ more /\ Z.of_nat (length c) <= n /\ (Z.of_nat (length c) = n \/ head more = Some 0).

Lemma insert_at_n_repr sb t s n c pos :
  sbuf_repr sb t -> points_to s n c -> 0 <= pos <= Z.of_nat (length t) ->
  (sbuf_insert_at_n sb (Some s) n pos = Some (pos, sb) /\ exhausted)
  \/ exists sb', sbuf_insert_at_n sb (Some s) n pos = Some (pos + Z.of_nat (length c), sb')
       /\ sbuf_repr sb' (take (Z.to_nat pos) t ++ c ++ drop (Z.to_nat pos) t).
Proof.
  intros Hr (Hc & more & -> & Hn & Hm) Hp. unfold sbuf_insert_at_n. pose proof Hr as (Ht & Hcount & _).
  rewrite Hcount. rewrite (proj2 (Z.ltb_ge pos 0)), (proj2 (Z.ltb_ge (Z.of_nat (length t)) pos)) by lia. cbn [orb].
  unfold str_limit_to_length. rewrite limit_loop_app by (solve [done | lia | destruct Hm; auto with lia]). cbn [mbind option_bind].
  destruct (Z.leb_spec (Z.of_nat (length c)) 0).
  { right. exists sb. destruct c; [|cbn in *; lia]. cbn [length app]. rewrite take_drop. split; [|done]. do 2 f_equal. lia. }
  destruct (ensure_extra_repr sb t (Z.of_nat (length c)) Hr ltac:(lia)) as [[-> Hx]|(sb1 & -> & Hr1 & Hlen & Hnn)]; [by left|].
  right. cbn [mbind option_bind negb]. destruct Hr1 as (_ & Hc1 & Hb1). destruct (sb_buf sb1) as [b|]; [|by destruct (Hnn H)].
  destruct Hb1 as (gap & -> & Hbl). cbn [mbind option_bind]. rewrite Hc1.
  rewrite length_app in Hbl. cbn [length] in Hbl.
  set (t1 := take (Z.to_nat pos) t). set (t2 := drop (Z.to_nat pos) t).
  assert (Ht12 : t = t1 ++ t2) by (symmetry; apply take_drop).
  assert (H1 : pos = Z.of_nat (length t1)) by (unfold t1; rewrite length_take; lia).
  assert (H2 : Z.of_nat (length t) - pos = Z.of_nat (length t2)) by (unfold t2; rewrite length_drop; lia).
  destruct (insert_bytes t1 t2 c more gap 0 ltac:(lia)) as (rest & Hi & Hrest).
  clearbody t1 t2. rewrite H2. clear Hp H2 Hr. subst t pos. rewrite <- app_assoc, !(length_app t1 t2). rewrite length_app in Hbl, Hlen.
  revert Hi. set (m := ic_memmove _ _ _ _). destruct m as [b1|]; [|done]. cbn [mbind option_bind].
  destruct (ic_memcpy b1 _ _ _) as [b2|]; [|done]. cbn [mbind option_bind]. intros ->. cbn [mbind option_bind].
  eexists. split; [done|]. split; [|split].
  - apply text_ok_app in Ht as [? ?]. by rewrite !text_ok_app.
  - cbn. rewrite !length_app. lia.
  - cbn. exists rest. split; [done|]. rewrite !length_app. cbn [length]. lia.
Qed.

(** ** Deleting *)

Definition ins (t : bytes) (pos : Z) (c : bytes) : bytes := take (Z.to_nat pos) t ++ c ++ drop (Z.to_nat pos) t.
Definition del (t : bytes) (pos n : Z) : bytes := take (Z.to_nat pos) t ++ drop (Z.to_nat (pos + n)) t.

Lemma delete_bytes (t1 d t2 rest : bytes) :
  exists rest',
    (b ← ic_memmove (t1 ++ d ++ t2 ++ 0 :: rest) (Z.of_nat (length t1)) (Z.of_nat (length t1 + length d)) (Z.of_nat (length t2));
     poke b (Z.of_nat (length t1 + length t2)) 0)
    = Some ((t1 ++ t2) ++ 0 :: rest') /\ (length rest' = length rest + length d)%nat.
Proof.
  rewrite memmove_ok by (rewrite ?length_app; cbn [length]; lia). rewrite !Nat2Z.id. unfold sub.
  assert (Hs : take (length t2) (drop (length t1 + length d) (t1 ++ d ++ t2 ++ 0 :: rest)) = t2).
  { rewrite <- length_app, (app_assoc t1 d), drop_app_length. apply take_app_length. }
  rewrite Hs. cbn [mbind option_bind].
  destruct (split_hole (d ++ t2 ++ 0 :: rest) 0 (length t2)) as (x & w & y & r & Hb & Hx & Hw);
    [rewrite !length_app; cbn [length]; lia|]. destruct x; [|done]. cbn [app] in Hb.
  rewrite Hb, overlay_app by done. exists r. rewrite app_assoc, poke_app by (rewrite length_app; lia). split; [done|].
  apply (f_equal length) in Hb. rewrite !length_app in Hb. cbn [length] in Hb. lia.
Qed.

Lemma delete_at_repr sb t pos n :
  sbuf_repr sb t -> 0 <= n ->
  exists sb', sbuf_delete_at sb pos n = Some sb'
    /\ sbuf_repr sb' (if (0 <=? pos) && (pos <? Z.of_nat (length t)) then del t pos n else t).
Proof.
  intros Hr Hn. unfold sbuf_delete_at. pose proof Hr as (Ht & Hcount & Hb). rewrite Hcount.
  destruct (Z.ltb_spec pos 0); [rewrite (proj2 (Z.leb_gt 0 pos)) by lia; by exists sb|].
  destruct (Z.leb_spec (Z.of_nat (length t)) pos);
    [rewrite (proj2 (Z.ltb_ge pos _)), andb_false_r by lia; by exists sb|].
  rewrite (proj2 (Z.leb_le 0 pos)), (proj2 (Z.ltb_lt pos _)) by lia. cbn [orb andb].
  set (k := if Z.of_nat (length t) <? pos + n then _ else n).
  assert (Hk : 0 <= k <= n /\ pos + k <= Z.of_nat (length t) /\ del t pos n = del t pos k).
  { unfold k. destruct (Z.ltb_spec (Z.of_nat (length t)) (pos + n)); [|split; [lia|done]]. split; [lia|]. split; [lia|].
    unfold del. by rewrite !drop_ge by lia. }
  destruct Hk as (Hk0 & Hk & ->). destruct (sb_buf sb) as [b|]; [|destruct Hb as [-> _]; cbn in *; lia].
  destruct Hb as (rest & -> & Hbl). cbn [mbind option_bind]. rewrite length_app in Hbl. cbn [length] in Hbl. unfold del.
  set (t1 := take (Z.to_nat pos) t). set (t2 := drop (Z.to_nat (pos + k)) t). set (d := take (Z.to_nat k) (drop (Z.to_nat pos) t)).
  assert (Ht3 : t = t1 ++ d ++ t2).
  { unfold t1, d, t2. rewrite Z2Nat.inj_add, <- drop_drop by lia. by rewrite !take_drop. }
  assert (H1 : pos = Z.of_nat (length t1)) by (unfold t1; rewrite length_take; lia).
  assert (H2 : k = Z.of_nat (length d)) by (unfold d; rewrite length_take, length_drop; lia).
  clearbody t1 t2 d k. clear Hr. subst t k pos. rewrite !length_app in *. rewrite <- !app_assoc.
  destruct (delete_bytes t1 d t2 rest) as (rest' & Hd & Hl). revert Hd.
  replace (Z.of_nat (length t1 + (length d + length t2)) - Z.of_nat (length t1) - Z.of_nat (length d)) with (Z.of_nat (length t2)) by lia.
  replace (Z.of_nat (length t1 + (length d + length t2)) - Z.of_nat (length d)) with (Z.of_nat (length t1 + length t2)) by lia.
  replace (Z.of_nat (length t1) + Z.of_nat (length d)) with (Z.of_nat (length t1 + length d)) by lia.
  destruct (ic_memmove _ _ _ _) as [b1|]; [|done]. cbn [mbind option_bind]. intros ->. cbn [mbind option_bind].
  eexists. split; [done|]. split; [|split].
  - rewrite !text_ok_app in Ht. rewrite text_ok_app. by destruct Ht as (? & ? & ?).
  - cbn. rewrite length_app. lia.
  - cbn. exists rest'. split; [done|]. rewrite !length_app. cbn [length]. lia.
Qed.
End Edit.
