(* ===== verification/SbufNav.v ===== *)
(** Moving in the text buffer (Stringbuf) by characters: the moves read only the
    text, stay in it and make progress; the buffer operations that are built on
    them; and the searches for lines and words. *)
From S2P Require Import Prelude CLib Unicode Stringbuf SbufEdit.

(** ** One character forward *)

Lemma lookup_in (t r : bytes) i : 0 <= i < Z.of_nat (length t) ->
  exists c, (t ++ r) !! Z.to_nat i = Some c /\ t !! Z.to_nat i = Some c.
Proof.
  intros H. destruct (lookup_lt_is_Some_2 t (Z.to_nat i) ltac:(lia)) as [c Hc]. exists c.
  by rewrite lookup_app_l by lia.
Qed.

Lemma esc_loop_bounds csi (t r : bytes) fuel n :
  2 <= n -> (Z.to_nat (Z.of_nat (length t) - n) < fuel)%nat ->
  exists o, esc_loop fuel csi (t ++ r) (Z.of_nat (length t)) n = Some o
    /\ esc_loop fuel csi t (Z.of_nat (length t)) n = Some o
    /\ (forall k, o = Some k -> n < k <= Z.of_nat (length t)).
Proof.
  revert n. induction fuel as [|fuel IH]; intros n Hn Hf; [lia|]. cbn [esc_loop].
  destruct (Z.ltb_spec n (Z.of_nat (length t))); [|by exists None].
  destruct (lookup_in t r n ltac:(lia)) as (c & -> & ->). cbn [mbind option_bind].
  destruct (_ || (c =? 0x02)); [exists (Some (n + 1)); split; [done|]; split; [done|]; intros k [= <-]; lia|].
  destruct (IH (n + 1) ltac:(lia) ltac:(lia)) as (o & Ho & Ho' & Hb).
  assert (Hrec : exists o, esc_loop fuel csi (t ++ r) (Z.of_nat (length t)) (n + 1) = Some o
    /\ esc_loop fuel csi t (Z.of_nat (length t)) (n + 1) = Some o /\ (forall k, o = Some k -> n < k <= Z.of_nat (length t))).
  { exists o. split; [done|]. split; [done|]. intros k Hk. specialize (Hb k Hk). lia. }
  destruct (negb csi && (c =? 0x1B) && (n + 1 <? Z.of_nat (length t))) eqn:E; [|done].
  destruct (lookup_in t r (n + 1) ltac:(zbool; lia)) as (d & -> & ->). cbn [mbind option_bind].
  destruct (d =? code "\"); [|done].
  exists (Some (n + 1 + 1)). split; [done|]. split; [done|]. intros k [= <-]. zbool; lia.
Qed.

Lemma skip_esc_bounds (t r : bytes) :
  exists o, skip_esc (t ++ r) (Z.of_nat (length t)) = Some o /\ skip_esc t (Z.of_nat (length t)) = Some o
    /\ (forall k, o = Some k -> 2 <= k <= Z.of_nat (length t)) /\ (o <> None -> t !! 0%nat = Some 0x1B).
Proof.
  unfold skip_esc. destruct (Z.leb_spec (Z.of_nat (length t)) 1); [by exists None|].
  destruct (lookup_in t r 0 ltac:(lia)) as (c & H0 & H0'). change (Z.to_nat 0) with 0%nat in *. rewrite H0, H0'. cbn [mbind option_bind].
  destruct (Z.eqb_spec c 0x1B) as [->|]; [|by exists None]. cbn [negb].
  destruct (lookup_in t r 1 ltac:(lia)) as (d & H1 & H1'). change (Z.to_nat 1) with 1%nat in *. rewrite H1, H1'. cbn [mbind option_bind].
  assert (H2 : exists o, Some o = (if in_set " #%()*+" d then Some (Some 2) else Some (Some 2))
    /\ (forall k, o = Some k -> 2 <= k <= Z.of_nat (length t)) /\ (o <> None -> Some 0x1B = Some 0x1B)).
  { exists (Some 2). split; [by destruct (in_set _ _)|]. split; [|done]. intros k [= <-]. lia. }
  destruct (in_set "[PX^_]" d); cbn [mbind option_bind]; [|destruct H2 as (o & <- & ?); by exists o].
  destruct (esc_loop_bounds (d =? code "[") t r (Z.to_nat (Z.of_nat (length t))) 2 ltac:(lia) ltac:(lia)) as (o & -> & -> & Hb).
  cbn [mbind option_bind]. destruct o as [k|]; [|destruct H2 as (o & <- & ?); by exists o].
  exists (Some k). split; [done|]. split; [done|]. split; [|done]. intros k' [= <-]. specialize (Hb k eq_refl). lia.
Qed.

Lemma next_loop_bounds (t r : bytes) pos fuel ofs :
  0 <= pos -> 1 <= ofs -> pos + ofs <= Z.of_nat (length t) -> (Z.to_nat (Z.of_nat (length t) - pos - ofs) < fuel)%nat ->
  exists o, next_loop fuel (t ++ r) (Z.of_nat (length t)) pos ofs = Some o
    /\ next_loop fuel t (Z.of_nat (length t)) pos ofs = Some o /\ ofs <= o /\ pos + o <= Z.of_nat (length t)
    /\ (forall i c, pos + ofs <= i < pos + o -> t !! Z.to_nat i = Some c -> follower c = true)
    /\ (forall c, t !! Z.to_nat (pos + o) = Some c -> follower c = false).
Proof.
  intros Hp. revert ofs. induction fuel as [|fuel IH]; intros ofs Ho Hl Hf; [lia|]. cbn [next_loop].
  destruct (Z.ltb_spec (pos + ofs) (Z.of_nat (length t))).
  - destruct (lookup_in t r (pos + ofs) ltac:(lia)) as (c & -> & Hc). rewrite Hc. cbn [mbind option_bind].
    destruct (follower c) eqn:Efol.
    + destruct (IH (ofs + 1) ltac:(lia) ltac:(lia) ltac:(lia)) as (o & H1 & H2 & H3 & H4 & H5 & H6). exists o.
      split; [done|]. split; [done|]. split; [lia|]. split; [done|]. split; [|done].
      intros i c' Hi Hc'. destruct (decide (i = pos + ofs)) as [->|]; [congruence|]. apply (H5 i); [lia|done].
    + exists ofs. split; [done|]. split; [done|]. split; [lia|]. split; [lia|]. split; [intros; lia|]. intros c' Hc'. congruence.
  - exists ofs. split; [done|]. split; [done|]. split; [lia|]. split; [lia|]. split; [intros; lia|].
    intros c Hc. apply lookup_lt_Some in Hc. lia.
Qed.

Lemma str_next_ofs_bounds (t r : bytes) pos :
  0 <= pos < Z.of_nat (length t) ->
  exists o, str_next_ofs (Some (t ++ r)) (Z.of_nat (length t)) pos = Some o
    /\ str_next_ofs (Some t) (Z.of_nat (length t)) pos = Some o
    /\ 1 <= o /\ pos + o <= Z.of_nat (length t)
    /\ (t !! Z.to_nat pos <> Some 0x1B ->
        (forall i c, pos < i < pos + o -> t !! Z.to_nat i = Some c -> follower c = true)
        /\ (forall c, t !! Z.to_nat (pos + o) = Some c -> follower c = false)).
Proof.
  intros Hp. unfold str_next_ofs. rewrite (proj2 (Z.ltb_lt pos (Z.of_nat _))), (proj2 (Z.ltb_ge pos 0)) by lia.
  rewrite drop_app_le by lia.
  destruct (skip_esc_bounds (drop (Z.to_nat pos) t) r) as (o & H1 & H2 & H3 & H4).
  rewrite length_drop in *. replace (Z.of_nat (length t - Z.to_nat pos)) with (Z.of_nat (length t) - pos) in * by lia.
  rewrite H1, H2. cbn [mbind option_bind]. rewrite lookup_drop, Nat.add_0_r in H4. destruct o as [k|].
  - specialize (H3 k eq_refl). exists k. split; [done|]. split; [done|]. split; [lia|]. split; [lia|].
    intros Hne. by destruct Hne, H4.
  - destruct (next_loop_bounds t r pos (Z.to_nat (Z.of_nat (length t) - pos)) 1 ltac:(lia) ltac:(lia) ltac:(lia) ltac:(lia))
      as (o & Ho & Ho' & ? & ? & Hf & Hn).
    exists o. split; [done|]. split; [done|]. split; [lia|]. split; [lia|]. intros _. split; [|done].
    intros i c Hi. apply Hf. lia.
Qed.

Lemma str_next_ofs_end s len pos : len <= pos -> str_next_ofs (Some s) len pos = Some 0.
Proof. intros H. unfold str_next_ofs. by rewrite (proj2 (Z.ltb_ge _ _)) by lia. Qed.

(** ** One character back *)

Lemma prev_loop_bounds (t r : bytes) pos fuel ofs :
  pos <= Z.of_nat (length t) -> 1 <= ofs <= pos -> (Z.to_nat (pos - ofs) < fuel)%nat ->
  exists o, prev_loop fuel (t ++ r) pos ofs = Some o /\ prev_loop fuel t pos ofs = Some o /\ ofs <= o <= pos
    /\ (forall i c, pos - o < i <= pos - ofs -> t !! Z.to_nat i = Some c -> follower c = true)
    /\ (o < pos -> forall c, t !! Z.to_nat (pos - o) = Some c -> follower c = false).
Proof.
  intros Hl. revert ofs. induction fuel as [|fuel IH]; intros ofs Ho Hf; [lia|]. cbn [prev_loop].
  destruct (Z.ltb_spec ofs pos).
  - destruct (lookup_in t r (pos - ofs) ltac:(lia)) as (c & -> & Hc). rewrite Hc. cbn [mbind option_bind].
    destruct (follower c) eqn:Efol.
    + destruct (IH (ofs + 1) ltac:(lia) ltac:(lia)) as (o & H1 & H2 & H3 & H4 & H5). exists o.
      split; [done|]. split; [done|]. split; [lia|]. split; [|done].
      intros i c' Hi Hc'. destruct (decide (i = pos - ofs)) as [->|]; [congruence|]. apply (H4 i); [lia|done].
    + exists ofs. split; [done|]. split; [done|]. split; [lia|]. split; [intros; lia|]. intros _ c' Hc'. congruence.
  - exists ofs. split; [done|]. split; [done|]. split; [lia|]. split; [intros; lia|]. lia.
Qed.

Lemma str_prev_ofs_bounds (t r : bytes) pos :
  0 < pos <= Z.of_nat (length t) ->
  exists o, str_prev_ofs (Some (t ++ r)) pos = Some o /\ str_prev_ofs (Some t) pos = Some o /\ 1 <= o <= pos
    /\ (forall i c, pos - o < i < pos -> t !! Z.to_nat i = Some c -> follower c = true)
    /\ (o < pos -> forall c, t !! Z.to_nat (pos - o) = Some c -> follower c = false).
Proof.
  intros Hp. unfold str_prev_ofs. rewrite (proj2 (Z.ltb_lt 0 pos)) by lia.
  destruct (prev_loop_bounds t r pos (Z.to_nat pos) 1 ltac:(lia) ltac:(lia) ltac:(lia)) as (o & H1 & H2 & H3 & H4 & H5).
  exists o. split; [done|]. split; [done|]. split; [lia|]. split; [|done]. intros i c Hi. apply H4. lia.
Qed.

(** Going to the next character and back returns to where one was, from the
    start of a character that is not an escape sequence. *)
Lemma prev_after_next (t : bytes) pos c :
  0 <= pos -> t !! Z.to_nat pos = Some c -> c <> 0x1B -> pos = 0 \/ follower c = false ->
  exists o, str_next_ofs (Some t) (Z.of_nat (length t)) pos = Some o /\ 1 <= o /\ pos + o <= Z.of_nat (length t)
    /\ str_prev_ofs (Some t) (pos + o) = Some o.
Proof.
  intros Hp Hc Hesc Hb. pose proof (lookup_lt_Some _ _ _ Hc).
  destruct (str_next_ofs_bounds t [] pos ltac:(lia)) as (o & _ & Hn & Ho1 & Ho2 & Hf).
  exists o. split; [done|]. split; [done|]. split; [done|]. destruct Hf as [Hf He]; [congruence|].
  destruct (str_prev_ofs_bounds t [] (pos + o) ltac:(lia)) as (o' & _ & -> & Ho' & Hf' & He').
  destruct (Z.lt_trichotomy o' o) as [Hlt|[->|Hgt]]; [exfalso|done|exfalso].
  - destruct (lookup_lt_is_Some_2 t (Z.to_nat (pos + o - o')) ltac:(lia)) as [d Hd].
    pose proof (He' ltac:(lia) d Hd). pose proof (Hf (pos + o - o') d ltac:(lia) Hd). congruence.
  - destruct Hb as [->|Hb]; [lia|]. by rewrite (Hf' pos c ltac:(lia) Hc) in Hb.
Qed.

(** ** The editing operations *)

Section Edits.
Context `{A : allocator, !allocator_ok A}.

(** The length of the character after, or before, a position. *)
Definition next_len (t : bytes) (pos : Z) : Z := default 0 (str_next_ofs (Some t) (Z.of_nat (length t)) pos).
Definition prev_len (t : bytes) (pos : Z) : Z := default 0 (str_prev_ofs (Some t) pos).

Lemma sbuf_next_repr sb t pos :
  sbuf_repr sb t -> 0 <= pos -> sbuf_next_ofs sb pos = Some (next_len t pos)
  /\ 0 <= next_len t pos /\ (pos < Z.of_nat (length t) -> 1 <= next_len t pos /\ pos + next_len t pos <= Z.of_nat (length t)).
Proof.
  intros (Ht & Hc & Hb) Hp. unfold sbuf_next_ofs, next_len. rewrite Hc.
  destruct (decide (pos < Z.of_nat (length t))).
  - destruct (sb_buf sb) as [b|]; [|destruct Hb as [-> _]; cbn in *; lia]. destruct Hb as (rest & -> & _).
    destruct (str_next_ofs_bounds t (0 :: rest) pos ltac:(lia)) as (o & -> & -> & ? & ? & _). cbn. split; [done|lia].
  - rewrite str_next_ofs_end by lia. cbn. split; [|lia]. destruct (sb_buf sb); [by rewrite str_next_ofs_end by lia|done].
Qed.

Lemma sbuf_prev_repr sb t pos :
  sbuf_repr sb t -> 0 <= pos <= Z.of_nat (length t) -> sbuf_prev_ofs sb pos = Some (prev_len t pos)
  /\ 0 <= prev_len t pos <= pos /\ (0 < pos -> 1 <= prev_len t pos).
Proof.
  intros (Ht & Hc & Hb) Hp. unfold sbuf_prev_ofs, prev_len. destruct (decide (0 < pos)).
  - destruct (sb_buf sb) as [b|]; [|destruct Hb as [-> _]; cbn in *; lia]. destruct Hb as (rest & -> & _).
    destruct (str_prev_ofs_bounds t (0 :: rest) pos ltac:(lia)) as (o & -> & -> & ? & _). cbn. split; [done|lia].
  - replace pos with 0 by lia. cbn. split; [by destruct (sb_buf sb)|lia].
Qed.

(** What is asked of the buffer. *)
Inductive edit : Type :=
  | InsertAt (c : bytes) (pos : Z) | InsertAtN (c more : bytes) (pos : Z) | InsertCharAt (c pos : Z) | InsertUnicodeAt (u pos : Z)
  | DeleteAt (pos n : Z) | DeleteFromTo (pos end_ : Z) | DeleteFrom (pos : Z) | Clear
  | Append (c : bytes) | AppendChar (c : Z) | Replace (c : bytes)
  | DeleteCharBefore (pos : Z) | DeleteCharAt (pos : Z) | SwapChar (pos : Z).

Definition edit_run (sb : stringbuf) (e : edit) : option stringbuf :=
  match e with
  | InsertAt c pos => snd <$> sbuf_insert_at sb (Some (cstr c)) pos
  | InsertAtN c more pos => snd <$> sbuf_insert_at_n sb (Some (c ++ more)) (Z.of_nat (length c)) pos
  | InsertCharAt c pos => snd <$> sbuf_insert_char_at sb c pos
  | InsertUnicodeAt u pos => snd <$> sbuf_insert_unicode_at sb u pos
  | DeleteAt pos n => sbuf_delete_at sb pos n
  | DeleteFromTo pos end_ => sbuf_delete_from_to sb pos end_
  | DeleteFrom pos => sbuf_delete_from sb pos
  | Clear => sbuf_clear sb
  | Append c => snd <$> sbuf_append sb (Some (cstr c))
  | AppendChar c => snd <$> sbuf_append_char sb c
  | Replace c => sbuf_replace sb (Some (cstr c))
  | DeleteCharBefore pos => snd <$> sbuf_delete_char_before sb pos
  | DeleteCharAt pos => sbuf_delete_char_at sb pos
  | SwapChar pos => snd <$> sbuf_swap_char sb pos
  end.

(** The texts have no NUL, a deletion has no negative length, a move starts in the text. *)
Definition edit_ok (t : bytes) (e : edit) : Prop :=
  match e with
  | InsertAt c _ | InsertAtN c _ _ | Append c | Replace c => text_ok c
  | InsertCharAt c _ | AppendChar c => c <> 0
  | InsertUnicodeAt u _ => 0 <= u <= 0x10FFFF /\ text_ok (qutf8 u)
  | DeleteAt _ n => 0 <= n
  | DeleteCharBefore pos | DeleteCharAt pos | SwapChar pos => 0 <= pos <= Z.of_nat (length t)
  | _ => True
  end.

Definition ins_in (t : bytes) (pos : Z) (c : bytes) : bytes :=
  if (0 <=? pos) && (pos <=? Z.of_nat (length t)) then ins t pos c else t.
Definition del_in (t : bytes) (pos n : Z) : bytes :=
  if (0 <=? pos) && (pos <? Z.of_nat (length t)) then del t pos n else t.

(** The same edit of a list. *)
Definition edit_spec (t : bytes) (e : edit) : bytes :=
  match e with
  | InsertAt c pos | InsertAtN c _ pos => ins_in t pos c
  | InsertCharAt c pos => ins_in t pos [c]
  | InsertUnicodeAt u pos => ins_in t pos (qutf8 u)
  | DeleteAt pos n => del_in t pos n
  | DeleteFromTo pos end_ => if end_ <=? pos then t else del_in t pos (end_ - pos)
  | DeleteFrom pos => if 0 <=? pos then take (Z.to_nat pos) t else t
  | Clear => []
  | Append c => t ++ c
  | AppendChar c => t ++ [c]
  | Replace c => c
  | DeleteCharBefore pos => del t (pos - prev_len t pos) (prev_len t pos)
  | DeleteCharAt pos => del t pos (next_len t pos)
  | SwapChar pos =>
      let n := next_len t pos in let p := prev_len t pos in
      if (0 <? n) && (0 <? p) && (p <? 63)
      then take (Z.to_nat (pos - p)) t ++ sub t (Z.to_nat pos) (Z.to_nat n) ++ sub t (Z.to_nat (pos - p)) (Z.to_nat p)
           ++ drop (Z.to_nat (pos + n)) t
      else t
  end.

(** What is left when memory runs out. *)
Definition edit_failed (t : bytes) (e : edit) : bytes := match e with Replace _ => [] | _ => t end.

(** The outcome of an operation on a buffer that holds [t]: the text is [t'], or
    memory was exhausted and it is [t0]. *)
Definition edits_to (r : option stringbuf) (t' t0 : bytes) : Prop :=
  exists sb', r = Some sb' /\ (sbuf_repr sb' t' \/ (exhausted /\ sbuf_repr sb' t0)).

Lemma insert_n_edits sb t s n c pos :
  sbuf_repr sb t -> points_to s n c -> edits_to (snd <$> sbuf_insert_at_n sb (Some s) n pos) (ins_in t pos c) t.
Proof.
  intros Hr Hp. unfold ins_in. destruct ((0 <=? pos) && (pos <=? Z.of_nat (length t))) eqn:E.
  - destruct (insert_at_n_repr sb t s n c pos Hr Hp ltac:(zbool; lia)) as [[-> Hx]|(sb' & -> & Hr')].
    + exists sb. split; [done|]. by right.
    + exists sb'. split; [done|]. by left.
  - exists sb. split; [|by left]. unfold sbuf_insert_at_n. destruct Hr as (_ & -> & _).
    destruct (Z.ltb_spec pos 0), (Z.ltb_spec (Z.of_nat (length t)) pos); try done. zbool; lia.
Qed.

Lemma points_to_cstr c more : text_ok c -> points_to (c ++ 0 :: more) (Z.of_nat (length c)) c.
Proof. intros Hc. split; [done|]. exists (0 :: more). split; [done|]. split; [lia|]. by right. Qed.

Lemma insert_edits sb t c more pos :
  sbuf_repr sb t -> text_ok c -> edits_to (snd <$> sbuf_insert_at sb (Some (c ++ 0 :: more)) pos) (ins_in t pos c) t.
Proof.
  intros Hr Hc. unfold sbuf_insert_at, ic_strlen. rewrite c_strlen_app by done. cbn [mbind option_bind].
  apply insert_n_edits; [done|]. by apply points_to_cstr.
Qed.

Lemma delete_edits sb t pos n :
  sbuf_repr sb t -> 0 <= n -> edits_to (sbuf_delete_at sb pos n) (del_in t pos n) t.
Proof. intros Hr Hn. destruct (delete_at_repr sb t pos n Hr Hn) as (sb' & -> & H). exists sb'. split; [done|]. by left. Qed.

Lemma del_all t pos : 0 <= pos -> del_in t pos (Z.of_nat (length t) - pos) = take (Z.to_nat pos) t.
Proof.
  intros Hp. unfold del_in. rewrite (proj2 (Z.leb_le 0 pos)) by done. cbn [andb].
  destruct (Z.ltb_spec pos (Z.of_nat (length t))); [|by rewrite take_ge by lia].
  unfold del. by rewrite (drop_ge t), app_nil_r by lia.
Qed.

Lemma delete_from_edits sb t pos :
  sbuf_repr sb t -> edits_to (sbuf_delete_from sb pos) (if 0 <=? pos then take (Z.to_nat pos) t else t) t.
Proof.
  intros Hr. pose proof Hr as (_ & Hc & _). unfold sbuf_delete_from, sbuf_len. rewrite Hc.
  destruct (Z.leb_spec 0 pos) as [Hp|Hp].
  - destruct (decide (pos <= Z.of_nat (length t))).
    + rewrite <- del_all by done. apply delete_edits; [done|lia].
    + rewrite take_ge by lia. exists sb. split; [|by left]. unfold sbuf_delete_at. rewrite Hc.
      by rewrite (proj2 (Z.leb_le _ pos)), orb_true_r by lia.
  - exists sb. split; [|by left]. unfold sbuf_delete_at. by rewrite (proj2 (Z.ltb_lt pos 0)) by lia.
Qed.

Lemma clear_edits sb t : sbuf_repr sb t -> exists sb', sbuf_clear sb = Some sb' /\ sbuf_repr sb' [].
Proof.
  intros Hr. pose proof Hr as (_ & Hc & _). unfold sbuf_clear, sbuf_len. rewrite Hc.
  destruct (delete_at_repr sb t 0 (Z.of_nat (length t)) Hr ltac:(lia)) as (sb' & -> & H). exists sb'. split; [done|].
  pose proof (del_all t 0 ltac:(lia)) as Hd. unfold del_in in Hd. rewrite Z.sub_0_r in Hd. by rewrite Hd in H.
Qed.

Lemma ins_end t c : ins_in t (Z.of_nat (length t)) c = t ++ c.
Proof.
  unfold ins_in, ins. rewrite !(proj2 (Z.leb_le _ _)) by lia. cbn [andb].
  rewrite Nat2Z.id, take_ge, drop_ge, app_nil_r by lia. done.
Qed.

Lemma append_edits sb t c more :
  sbuf_repr sb t -> text_ok c -> edits_to (snd <$> sbuf_append sb (Some (c ++ 0 :: more))) (t ++ c) t.
Proof.
  intros Hr Hc. unfold sbuf_append, sbuf_len. pose proof Hr as (_ & Hcount & _). rewrite Hcount, <- (ins_end t c).
  by apply insert_edits.
Qed.

Lemma swap_bytes (t1 p n q : bytes) :
  (length p < 63)%nat ->
  (buf ← ic_memcpy (zeroes 64) 0 (p ++ n ++ q) (Z.of_nat (length p));
   b ← ic_memmove (t1 ++ p ++ n ++ q) (Z.of_nat (length t1)) (Z.of_nat (length t1 + length p)) (Z.of_nat (length n));
   ic_memcpy b (Z.of_nat (length t1 + length n)) buf (Z.of_nat (length p)))
  = Some (t1 ++ n ++ p ++ q).
Proof.
  intros Hp. rewrite memcpy_ok by (rewrite ?length_app; unfold zeroes; rewrite ?length_replicate; lia). cbn [mbind option_bind].
  rewrite Nat2Z.id, take_app_length. change (Z.to_nat 0) with 0%nat. rewrite overlay_0.
  rewrite memmove_ok by (rewrite ?length_app; lia). cbn [mbind option_bind]. rewrite !Nat2Z.id. unfold sub.
  assert (Hs : take (length n) (drop (length t1 + length p) (t1 ++ p ++ n ++ q)) = n)
    by (rewrite <- length_app, (app_assoc t1 p), drop_app_length; apply take_app_length).
  rewrite Hs. unfold overlay at 1. rewrite take_app_length.
  rewrite memcpy_ok by (rewrite ?length_app, ?length_drop, ?length_app; lia).
  rewrite !Nat2Z.id, take_app_length. unfold overlay. rewrite <- length_app, (app_assoc t1 n), take_app_length.
  f_equal. rewrite <- app_assoc. do 3 f_equal. rewrite <- drop_drop, drop_app_length, drop_drop.
  rewrite <- (drop_app_length (t1 ++ p ++ n) q) at 2. rewrite !app_assoc. f_equal. rewrite !length_app. lia.
Qed.

Lemma text_ok_swap (t1 p n q : bytes) : text_ok (t1 ++ p ++ n ++ q) -> text_ok (t1 ++ n ++ p ++ q).
Proof. rewrite !text_ok_app. intuition. Qed.

Lemma swap_edits sb t pos :
  sbuf_repr sb t -> 0 <= pos <= Z.of_nat (length t) -> edits_to (snd <$> sbuf_swap_char sb pos) (edit_spec t (SwapChar pos)) t.
Proof.
  intros Hr Hpos. unfold sbuf_swap_char. destruct (sbuf_next_repr sb t pos Hr ltac:(lia)) as (-> & Hn0 & Hn1).
  destruct (sbuf_prev_repr sb t pos Hr Hpos) as (-> & Hp0 & _). cbn [mbind option_bind edit_spec].
  assert (Hlt : 0 < next_len t pos -> pos < Z.of_nat (length t)).
  { intros Hn. destruct (decide (pos < Z.of_nat (length t))); [done|]. unfold next_len in Hn. rewrite str_next_ofs_end in Hn by lia.
    cbn in Hn. lia. }
  set (n := next_len t pos) in *. set (p := prev_len t pos) in *. clearbody n p.
  assert (Hno : edits_to (Some sb) t t) by (exists sb; split; [done|]; by left).
  destruct (Z.leb_spec n 0); [by rewrite (proj2 (Z.ltb_ge 0 n)) by lia|].
  destruct (Z.leb_spec p 0); [by rewrite (proj2 (Z.ltb_ge 0 p)), andb_false_r by lia|].
  destruct (Z.leb_spec 63 p); [by rewrite (proj2 (Z.ltb_ge p 63)), andb_false_r by lia|].
  rewrite !(proj2 (Z.ltb_lt _ _)) by lia. cbn [andb].
  specialize (Hn1 (Hlt H)). pose proof Hr as (Ht & Hc & Hb).
  destruct (sb_buf sb) as [b|]; [|destruct Hb as [-> _]; cbn in *; lia]. destruct Hb as (rest & -> & Hbl).
  set (t1 := take (Z.to_nat (pos - p)) t). set (tp := sub t (Z.to_nat (pos - p)) (Z.to_nat p)).
  set (tn := sub t (Z.to_nat pos) (Z.to_nat n)). set (t2 := drop (Z.to_nat (pos + n)) t).
  assert (Ht4 : t = t1 ++ tp ++ tn ++ t2).
  { unfold t1, tp, tn, t2, sub. rewrite (Z2Nat.inj_add pos n), <- (drop_drop t (Z.to_nat n)), take_drop by lia.
    replace (Z.to_nat pos) with (Z.to_nat (pos - p) + Z.to_nat p)%nat by lia. rewrite <- drop_drop, take_drop. by rewrite take_drop. }
  assert (E1 : pos - p = Z.of_nat (length t1)) by (unfold t1; rewrite length_take; lia).
  assert (E2 : p = Z.of_nat (length tp)) by (unfold tp; rewrite length_sub by lia; lia).
  assert (E3 : n = Z.of_nat (length tn)) by (unfold tn; rewrite length_sub by lia; lia).
  clearbody t1 tp tn t2. cbn [mbind option_bind].
  pose proof (swap_bytes t1 tp tn (t2 ++ 0 :: rest) ltac:(lia)) as Hsw. revert Hsw.
  rewrite Ht4, <- !app_assoc, E1, Nat2Z.id, drop_app_length.
  replace pos with (Z.of_nat (length t1 + length tp)) by lia. rewrite E3, <- Nat2Z.inj_add, E2.
  destruct (ic_memcpy (zeroes 64) _ _ _) as [x|]; [|done]. cbn [mbind option_bind].
  destruct (ic_memmove _ _ _ _) as [y|]; [|done]. cbn [mbind option_bind]. intros ->. cbn [mbind option_bind fmap option_fmap option_map snd].
  eexists. split; [done|]. left. split; [|split].
  - rewrite Ht4 in Ht. by apply text_ok_swap.
  - cbn. rewrite Hc, Ht4, !length_app. lia.
  - cbn. exists rest. rewrite <- !app_assoc. split; [done|]. rewrite Hbl, Ht4, !length_app. cbn [length]. lia.
Qed.

(** [Forall] over the encoded bytes of a code point, and what is after them. *)
Lemma unicode_cstr u : 0 <= u <= 0x10FFFF -> exists more, unicode_to_qutf8 u = qutf8 u ++ 0 :: more.
Proof.
  intros Hu. rewrite to_qutf8_seq by done. assert (Hl : (length (qutf8 u) <= 4)%nat).
  { unfold qutf8, utf8_seq. destruct (unicode_is_raw u); [cbn; lia|]. by repeat case_match; cbn; lia. }
  destruct (5 - length (qutf8 u))%nat as [|k] eqn:E; [lia|]. by exists (zeroes k).
Qed.

Lemma del_char_in t pos n : 0 <= pos -> 0 <= n -> (n = 0 \/ pos < Z.of_nat (length t)) ->
  del_in t pos n = del t pos n.
Proof.
  intros Hp Hn Hc. unfold del_in. destruct (Z.leb_spec 0 pos); [|lia]. destruct (Z.ltb_spec pos (Z.of_nat (length t))); [done|].
  destruct Hc as [->|]; [|lia]. unfold del. by rewrite Z.add_0_r, take_drop.
Qed.

Lemma replace_edits sb t c :
  sbuf_repr sb t -> text_ok c -> edits_to (sbuf_replace sb (Some (cstr c))) c [].
Proof.
  intros Hr Hc. unfold sbuf_replace. destruct (clear_edits sb t Hr) as (sb1 & -> & Hr1). cbn [mbind option_bind].
  destruct (append_edits sb1 [] c [] Hr1 Hc) as (sb2 & Hs & H2). unfold cstr.
  destruct (sbuf_append sb1 _) as [[k sb3]|]; [|done]. injection Hs as ->. by exists sb2.
Qed.

Lemma edit_refines sb t e : sbuf_repr sb t -> edit_ok t e -> edits_to (edit_run sb e) (edit_spec t e) (edit_failed t e).
Proof.
  intros Hr Hok. destruct e; cbn [edit_run edit_spec edit_failed edit_ok] in *.
  - by apply insert_edits.
  - apply insert_n_edits; [done|]. split; [done|]. exists more. split; [done|]. split; [lia|]. by left.
  - apply (insert_n_edits _ _ _ 1 [c]); [done|]. apply (points_to_cstr [c] []). by constructor.
  - destruct Hok as [Hu Ht]. destruct (unicode_cstr u Hu) as [more Hm]. unfold sbuf_insert_unicode_at. rewrite Hm. by apply insert_edits.
  - by apply delete_edits.
  - unfold sbuf_delete_from_to. destruct (Z.leb_spec end_ pos); [exists sb; split; [done|]; by left|]. apply delete_edits; [done|lia].
  - by apply delete_from_edits.
  - destruct (clear_edits sb t Hr) as (sb' & -> & H). exists sb'. split; [done|]. by left.
  - by apply append_edits.
  - apply (append_edits _ _ [c] []); [done|]. by constructor.
  - by apply (replace_edits _ t).
  - destruct (sbuf_prev_repr sb t pos Hr Hok) as (Hp & Hb & H1). unfold sbuf_delete_char_before. rewrite Hp. cbn [mbind option_bind].
    destruct (Z.leb_spec (prev_len t pos) 0).
    + exists sb. split; [done|]. left. replace (prev_len t pos) with 0 by lia. unfold del. by rewrite Z.add_0_r, take_drop.
    + rewrite <- del_char_in by lia. destruct (delete_edits sb t (pos - prev_len t pos) (prev_len t pos) Hr ltac:(lia)) as (sb' & -> & H').
      by exists sb'.
  - destruct (sbuf_next_repr sb t pos Hr ltac:(lia)) as (Hn & H0 & H1). unfold sbuf_delete_char_at. rewrite Hn. cbn [mbind option_bind].
    destruct (Z.leb_spec (next_len t pos) 0).
    + exists sb. split; [done|]. left. replace (next_len t pos) with 0 by lia. unfold del. by rewrite Z.add_0_r, take_drop.
    + rewrite <- del_char_in; [by apply delete_edits|lia..|].
      destruct (decide (pos < Z.of_nat (length t))); [by right|]. left. unfold next_len. by rewrite str_next_ofs_end by lia.
  - by apply swap_edits.
Qed.

(** ** Sequences of edits *)

Fixpoint edits_run (sb : stringbuf) (es : list edit) : option stringbuf :=
  match es with [] => Some sb | e :: es => sb ← edit_run sb e; edits_run sb es end.

(** The texts that may result: an edit may fail only when memory ran out. *)
Inductive edited : bytes -> list edit -> bytes -> Prop :=
  | edited_nil t : edited t [] t
  | edited_done t e es t' : edit_ok t e -> edited (edit_spec t e) es t' -> edited t (e :: es) t'
  | edited_failed t e es t' : edit_ok t e -> exhausted -> edited (edit_failed t e) es t' -> edited t (e :: es) t'.

(** The edits are in order at every text that may be reached. *)
Fixpoint edits_ok (t : bytes) (es : list edit) : Prop :=
  match es with
  | [] => True
  | e :: es => edit_ok t e /\ edits_ok (edit_spec t e) es /\ (exhausted -> edits_ok (edit_failed t e) es)
  end.

(** C21: The text buffer refines a list of bytes: whatever sequence of insertions,
    deletions and swaps is asked of a new buffer, none accesses memory outside the
    buffer, and afterwards the buffer holds, with its terminator, the text that the
    same edits of a list give; an edit that could not get memory left the text as
    it was. *)
Theorem sbuf_refines es :
  edits_ok [] es ->
  exists sb t, edits_run sbuf_init es = Some sb /\ edited [] es t /\ sbuf_repr sb t
    /\ (~ exhausted -> t = foldl edit_spec [] es).
Proof.
  assert (Hinit : sbuf_repr sbuf_init []) by (split; [constructor|]; done).
  revert Hinit. generalize sbuf_init. generalize (@nil Z). induction es as [|e es IH]; intros t sb Hr Hok.
  { exists sb, t. split; [done|]. split; [constructor|]. done. }
  destruct Hok as (He & Hn & Hx). destruct (edit_refines sb t e Hr He) as (sb1 & Hrun & H1). cbn [edits_run]. rewrite Hrun. cbn [mbind option_bind].
  destruct H1 as [Hr1|[Hex Hr1]].
  - destruct (IH _ sb1 Hr1 Hn) as (sb2 & t2 & ? & ? & ? & ?). exists sb2, t2. split; [done|]. split; [by apply edited_done|]. done.
  - destruct (IH _ sb1 Hr1 (Hx Hex)) as (sb2 & t2 & ? & ? & ? & _). exists sb2, t2. split; [done|]. split; [by apply edited_failed|]. done.
Qed.
End Edits.
