(* ===== verification/SbufProps.v ===== *)
(** Theorems on the text buffer of the line editor: formatted output
    ([sbuf_append_vprintf]), the copy for terminals without UTF-8
    ([sbuf_strdup_from_utf8]), [sbuf_split_at], and the searches for lines and
    words. *)
From S2P Require Import Prelude CLib Unicode Stringbuf SbufEdit SbufNav.

(** ** An allocator that never fails *)

(** New bytes are zero. *)
#[export] Instance heap : allocator :=
  {| realloc p n := Some (take (Z.to_nat n) (default [] p ++ zeroes (Z.to_nat n))) |}.

#[export] Instance heap_ok : allocator_ok heap.
Proof.
  split.
  - intros p n b [= <-]. rewrite length_take, length_app. unfold zeroes. rewrite length_replicate. lia.
  - intros p n b [= <-]. cbn [default from_option id]. rewrite length_take, take_take, length_app.
    unfold zeroes. rewrite length_replicate. rewrite (Nat.min_l (Z.to_nat n)) by lia.
    destruct (Nat.min_spec (length p) (Z.to_nat n)) as [[? ->]|[? ->]].
    + rewrite take_app_length. by rewrite take_ge by lia.
    + by rewrite take_app_le by lia.
Qed.

Lemma heap_lasts : ~ exhausted.
Proof. intros (p & n & _ & H). discriminate H. Qed.

Definition sample_edits : list edit :=
  [InsertAt (bytes_of_string "lod") 0; InsertCharAt 99 0; InsertUnicodeAt 0x20AC 2; SwapChar 2; DeleteCharBefore 1; DeleteAt 2 0].

Lemma sbuf_refines_witness :
  exists sb t, edits_run sbuf_init sample_edits = Some sb /\ sbuf_repr sb t
    /\ t = [0xE2; 0x82; 0xAC; 108; 111; 100] /\ sbuf_len sb = 6.
Proof.
  assert (Hok : edits_ok [] sample_edits).
  { repeat (split; [|split; [|intros Hx; by destruct (heap_lasts Hx)]]); try done; cbn [edit_ok];
      first [ vm_compute; by repeat constructor | split; [lia|vm_compute; by repeat constructor] | lia | vm_compute; split; discriminate ]. }
  destruct (sbuf_refines sample_edits Hok) as (sb & t & Hr & _ & Hrepr & Ht). specialize (Ht heap_lasts).
  exists sb, t. split; [exact Hr|]. split; [exact Hrepr|]. rewrite Ht. split; [vm_compute; reflexivity|].
  destruct Hrepr as (_ & Hc & _). unfold sbuf_len. rewrite Hc, Ht. vm_compute. reflexivity.
Defined.

(** ** Formatted output *)

Section Format.
Context `{A : allocator, !allocator_ok A}.

(** [vsnprintf] has room for [avail - 1] characters and the terminator. *)
Lemma vsnprintf_app t rest avail text :
  avail = Z.of_nat (length rest) -> 0 < avail ->
  exists rest', vsnprintf_at (t ++ 0 :: rest) (Z.of_nat (length t)) avail text
    = Some (t ++ (take (Z.to_nat (avail - 1)) text ++ [0]) ++ rest')
    /\ (length (take (Z.to_nat (avail - 1)) text) + 1 + length rest' = S (length rest))%nat.
Proof.
  intros -> Ha. unfold vsnprintf_at. rewrite (proj2 (Z.leb_gt _ 0)) by lia. set (o := take _ text ++ [0]).
  assert (Ho : (length o <= length rest)%nat) by (unfold o; rewrite length_app, length_take; cbn; lia).
  exists (drop (length o) (0 :: rest)). split.
  - rewrite memcpy_ok by (rewrite ?length_app; cbn [length]; lia). rewrite !Nat2Z.id, take_ge by lia. f_equal.
    rewrite <- (take_drop (length o) (0 :: rest)) at 1. apply overlay_app. rewrite length_take. cbn [length]. lia.
  - rewrite length_drop. unfold o in *. rewrite length_app, length_take in *. cbn [length] in *. lia.
Qed.

(** What the buffer holds of a text that was printed where there was room for [avail] bytes. *)
Definition printed (text : bytes) (avail : Z) : bytes :=
  if Z.of_nat (length text) =? avail then take (length text - 1) text ++ [0] else text.

Lemma vprintf_room t rest text avail :
  avail = Z.of_nat (length rest) -> 0 < avail -> Z.of_nat (length text) <= avail ->
  exists rest', (b ← vsnprintf_at (t ++ 0 :: rest) (Z.of_nat (length t)) avail text;
                 poke b (Z.of_nat (length t) + Z.of_nat (length text)) 0)
    = Some ((t ++ printed text avail) ++ 0 :: rest') /\ (length rest' + length text = length rest)%nat.
Proof.
  intros Ha Hp Hn. destruct (vsnprintf_app t rest avail text Ha Hp) as (r & -> & Hr). cbn [mbind option_bind].
  unfold printed. destruct (Z.eqb_spec (Z.of_nat (length text)) avail) as [He|Hne].
  - replace (Z.to_nat (avail - 1)) with (length text - 1)%nat in * by lia. rewrite length_take in Hr.
    destruct r as [|y r]; [cbn in Hr; lia|]. exists r. split; [|cbn in Hr; lia].
    rewrite app_assoc, poke_app; [done|]. rewrite !length_app, length_take. cbn. lia.
  - rewrite take_ge in * by lia. exists r. split; [|lia]. rewrite <- !app_assoc. rewrite (app_assoc t). cbn [app].
    rewrite poke_app by (rewrite length_app; lia). by rewrite <- ?app_assoc.
Qed.

(** Formatted output appends the text, and the buffer counts all of it; but when
    the text fills the room exactly, its last character is lost and a NUL is in its
    place. *)
Theorem vprintf_exact_fit sb t fmtlen text :
  sbuf_repr sb t -> 0 <= fmtlen -> ~ exhausted ->
  exists sb' avail rest, sbuf_append_vprintf sb fmtlen text = Some (sb_count sb', sb')
    /\ sb_count sb' = Z.of_nat (length t + length text)
    /\ avail = sb_buflen sb' - Z.of_nat (length t) /\ Z.of_nat (length text) <= avail
    /\ sb_buf sb' = Some (t ++ printed text avail ++ 0 :: rest).
Proof.
  intros Hr Hf Hx. unfold sbuf_append_vprintf.
  destruct (ensure_extra_repr sb t (fmtlen + 16) Hr ltac:(lia)) as [[_ ?]|(sb1 & -> & Hr1 & Hl1 & Hn1)]; [done|].
  cbn [mbind option_bind negb]. pose proof Hr1 as (Ht & Hc1 & Hb1).
  destruct sb1 as [[b1|] bl1 c1]; cbn [sb_buf sb_buflen sb_count] in *; [|by destruct Hn1; [lia|]].
  destruct Hb1 as (rest1 & -> & Hbl1). rewrite length_app in Hbl1. cbn [length] in Hbl1. cbn [mbind option_bind]. subst c1.
  destruct (Z.ltb_spec (bl1 - Z.of_nat (length t)) (Z.of_nat (length text))).
  - destruct (vsnprintf_app t rest1 (bl1 - Z.of_nat (length t)) text ltac:(lia) ltac:(lia)) as (r & Hv & Hlr).
    set (k := take _ text) in *. rewrite Hv. cbn [mbind option_bind].
    destruct (k ++ [0]) as [|y ys] eqn:Ek; [by apply app_nil in Ek as [_ ?]|]. cbn [app]. rewrite poke_app by done. cbn [mbind option_bind].
    apply (f_equal length) in Ek. rewrite length_app in Ek. cbn [length] in Ek.
    destruct (ensure_extra_repr (Stringbuf (Some (t ++ 0 :: ys ++ r)) bl1 (Z.of_nat (length t))) t (Z.of_nat (length text)))
      as [[_ ?]|(sb2 & -> & Hr2 & Hl2 & Hn2)]; [|lia|done|].
    { split; [done|]. split; [done|]. cbn. exists (ys ++ r). split; [done|]. rewrite !length_app. cbn [length]. rewrite length_app. lia. }
    cbn [mbind option_bind negb]. destruct Hr2 as (_ & Hc2 & Hb2).
    destruct sb2 as [[b2|] bl2 c2]; cbn [sb_buf sb_buflen sb_count] in *; [|by destruct Hn2; [lia|]].
    destruct Hb2 as (rest2 & -> & Hbl2). rewrite length_app in Hbl2. cbn [length] in Hbl2. cbn [mbind option_bind]. subst c2.
    rewrite (proj2 (Z.ltb_ge (bl2 - Z.of_nat (length t)) _)) by lia.
    destruct (vprintf_room t rest2 text (bl2 - Z.of_nat (length t)) ltac:(lia) ltac:(lia) ltac:(lia)) as (rest & Hp & _). revert Hp.
    set (m := vsnprintf_at (t ++ 0 :: rest2) _ _ _). destruct m; [|done]. cbn [mbind option_bind]. intros ->. cbn [mbind option_bind].
    eexists (Stringbuf _ _ _), _, rest. cbn [sb_buf sb_buflen sb_count]. split; [reflexivity|]. split; [lia|]. split; [done|]. split; [lia|]. by rewrite <- app_assoc.
  - destruct (vprintf_room t rest1 text (bl1 - Z.of_nat (length t)) ltac:(lia) ltac:(lia) ltac:(lia)) as (rest & Hp & _). revert Hp.
    set (m := vsnprintf_at (t ++ 0 :: rest1) _ _ _). destruct m; [|done]. cbn [mbind option_bind]. intros ->. cbn [mbind option_bind].
    eexists (Stringbuf _ _ _), _, rest. cbn [sb_buf sb_buflen sb_count]. split; [reflexivity|]. split; [lia|]. split; [done|]. split; [lia|]. by rewrite <- app_assoc.
Qed.
End Format.

(** ** Lines *)

(** No line feed is followed by a byte that would belong to the same character. *)
Definition lines_plain (t : bytes) : Prop :=
  forall i c, t !! i = Some 10 -> t !! S i = Some c -> follower c = false.

Lemma back_line t rest pos :
  lines_plain t -> 0 <= pos <= Z.of_nat (length t) ->
  forall fuel i, 0 <= i <= pos -> (Z.to_nat i < fuel)%nat -> (forall j, i <= j < pos -> t !! Z.to_nat j <> Some 10) -> text_ok t ->
  exists r found, back_loop fuel (t ++ rest) char_is_linefeed false i = Some (r, found) /\ 0 <= r <= pos
    /\ (if (found : bool) then 0 < r /\ t !! Z.to_nat (r - 1) = Some 10 else r = 0)
    /\ forall j, r <= j < pos -> t !! Z.to_nat j <> Some 10.
Proof.
  intros Hpl Hpos. induction fuel as [|fuel IH]; intros i Hi Hf Hno Htx; [lia|]. cbn [back_loop].
  destruct (decide (0 < i)) as [Hgt|Hz].
  2:{ replace i with 0 in * by lia. cbn. exists 0, false. split; [done|]. split; [lia|]. split; [done|]. intros j Hj. by apply Hno. }
  destruct (str_prev_ofs_bounds t rest i ltac:(lia)) as (o & -> & _ & Ho & Hfol & Hstart). cbn [mbind option_bind].
  rewrite (proj2 (Z.leb_gt o 0)) by lia.
  destruct (lookup_in t rest (i - o) ltac:(lia)) as (c & Hc & Hct).
  assert (Hcl : char_is_linefeed (drop (Z.to_nat (i - o)) (t ++ rest)) o = Some ((o =? 1) && (c =? 10))).
  { unfold char_is_linefeed. destruct (Z.eqb_spec o 1); cbn [negb andb]; [|done]. rewrite lookup_drop, Nat.add_0_r, Hc. cbn [mbind option_bind].
    rewrite (proj2 (Z.eqb_neq c 0)), orb_false_r; [done|]. by apply (Forall_lookup_1 _ _ _ _ Htx Hct). }
  rewrite Hcl. cbn [mbind option_bind].
  destruct ((o =? 1) && (c =? 10)) eqn:Ehit; cbn [Bool.eqb].
  { apply andb_true_iff in Ehit as [E1 E2]. apply Z.eqb_eq in E1, E2. subst o c. exists i, true. split; [done|]. split; [lia|]. split; [|done]. split; [lia|done]. }
  assert (Hno' : forall j, i - o <= j < pos -> t !! Z.to_nat j <> Some 10).
  { intros j Hj Hj10. destruct (decide (i <= j)); [by apply (Hno j); [lia|]|]. destruct (decide (j = i - o)) as [->|].
    - assert (c = 10) as -> by congruence. destruct (decide (o = 1)) as [->|]; [done|].
      destruct (lookup_lt_is_Some_2 t (Z.to_nat (i - o + 1)) ltac:(lia)) as [d Hd].
      pose proof (Hfol (i - o + 1) d ltac:(lia) Hd). replace (Z.to_nat (i - o + 1)) with (S (Z.to_nat (i - o))) in Hd by lia.
      pose proof (Hpl _ _ Hct Hd). congruence.
    - by pose proof (Hfol j 10 ltac:(lia) Hj10). }
  destruct (Z.ltb_spec 0 (i - o)); [apply IH; [lia|lia|done|done]|].
  exists (i - o), false. split; [done|]. split; [lia|]. split; [lia|]. done.
Qed.

Lemma forth_line t rest pos :
  lines_plain t -> Forall (fun c => c <> 0x1B) t -> 0 <= pos <= Z.of_nat (length t) -> text_ok t ->
  forall fuel i, pos <= i <= Z.of_nat (length t) -> (Z.to_nat (Z.of_nat (length t) - i) < fuel)%nat ->
  (forall j, pos <= j < i -> t !! Z.to_nat j <> Some 10) ->
  exists r found, forth_loop fuel (t ++ rest) (Z.of_nat (length t)) char_is_linefeed false i = Some (r, found) /\ pos <= r <= Z.of_nat (length t)
    /\ (if (found : bool) then t !! Z.to_nat r = Some 10 else r = Z.of_nat (length t))
    /\ forall j, pos <= j < r -> t !! Z.to_nat j <> Some 10.
Proof.
  intros Hpl Hesc Hpos Htx. induction fuel as [|fuel IH]; intros i Hi Hf Hno; [lia|]. cbn [forth_loop].
  destruct (decide (i < Z.of_nat (length t))) as [Hlt|Hz].
  2:{ rewrite str_next_ofs_end by lia. cbn. exists i, false. split; [done|]. split; [lia|]. split; [lia|]. intros j Hj. apply Hno. lia. }
  destruct (lookup_in t rest i ltac:(lia)) as (c & Hc & Hct).
  destruct (str_next_ofs_bounds t rest i ltac:(lia)) as (o & -> & _ & Ho1 & Ho2 & Hplain). cbn [mbind option_bind].
  destruct Hplain as [Hfol Hend].
  { rewrite Hct. intros [= ->]. by apply (Forall_lookup_1 _ _ _ _ Hesc Hct). }
  rewrite (proj2 (Z.leb_gt o 0)) by lia.
  assert (Hcl : char_is_linefeed (drop (Z.to_nat i) (t ++ rest)) o = Some ((o =? 1) && (c =? 10))).
  { unfold char_is_linefeed. destruct (Z.eqb_spec o 1); cbn [negb andb]; [|done]. rewrite lookup_drop, Nat.add_0_r, Hc. cbn [mbind option_bind].
    rewrite (proj2 (Z.eqb_neq c 0)), orb_false_r; [done|]. by apply (Forall_lookup_1 _ _ _ _ Htx Hct). }
  rewrite Hcl. cbn [mbind option_bind].
  destruct ((o =? 1) && (c =? 10)) eqn:Ehit; cbn [Bool.eqb].
  { apply andb_true_iff in Ehit as [E1 E2]. apply Z.eqb_eq in E1, E2. subst o c. exists i, true. split; [done|]. split; [lia|]. done. }
  assert (Hno' : forall j, pos <= j < i + o -> t !! Z.to_nat j <> Some 10).
  { intros j Hj Hj10. destruct (decide (j < i)); [by apply (Hno j); [lia|]|]. destruct (decide (j = i)) as [->|].
    - assert (c = 10) as -> by congruence. destruct (decide (o = 1)) as [->|]; [done|].
      destruct (lookup_lt_is_Some_2 t (Z.to_nat (i + 1)) ltac:(lia)) as [d Hd].
      pose proof (Hfol (i + 1) d ltac:(lia) Hd). replace (Z.to_nat (i + 1)) with (S (Z.to_nat i)) in Hd by lia.
      pose proof (Hpl _ _ Hct Hd). congruence.
    - by pose proof (Hfol j 10 ltac:(lia) Hj10). }
  destruct (Z.ltb_spec (i + o) (Z.of_nat (length t))); [apply IH; [lia|lia|done]|].
  exists (i + o), false. split; [done|]. split; [lia|]. split; [lia|]. done.
Qed.

(** The line of a position: [sbuf_find_line_start] and [sbuf_find_line_end] are
    the ends of the longest stretch around it without a line feed. *)
Theorem line_of_position sb t pos :
  sbuf_repr sb t -> lines_plain t -> Forall (fun c => c <> 0x1B) t -> 0 <= pos <= Z.of_nat (length t) ->
  exists a b, sbuf_find_line_start sb pos = Some a /\ sbuf_find_line_end sb pos = Some b
    /\ 0 <= a <= pos /\ pos <= b <= Z.of_nat (length t)
    /\ (a = 0 \/ t !! Z.to_nat (a - 1) = Some 10) /\ (b = Z.of_nat (length t) \/ t !! Z.to_nat b = Some 10)
    /\ forall j, a <= j < b -> t !! Z.to_nat j <> Some 10.
Proof.
  intros (Htx & Hc & Hb) Hpl Hesc Hpos. unfold sbuf_find_line_start, sbuf_find_line_end, str_find_line_start, str_find_line_end. rewrite Hc.
  destruct (sb_buf sb) as [b|].
  2:{ destruct Hb as [-> _]. cbn in Hpos. replace pos with 0 by lia. exists 0, 0. cbn.
      repeat split; [lia..|by left|by left|]. intros j Hj. lia. }
  destruct Hb as (rest & -> & _). unfold str_find_backward, str_find_forward.
  rewrite (proj2 (Z.ltb_ge (Z.of_nat (length t)) pos)), (proj2 (Z.ltb_ge pos 0)), (proj2 (Z.ltb_ge (Z.of_nat (length t)) 0)) by lia.
  cbn [mbind option_bind].
  destruct (back_line t (0 :: rest) pos Hpl Hpos (S (Z.to_nat pos)) pos ltac:(lia) ltac:(lia) ltac:(intros; lia) Htx)
    as (a & fa & -> & Ha & Hfa & Hna).
  destruct (forth_line t (0 :: rest) pos Hpl Hesc Hpos Htx (S (Z.to_nat (Z.of_nat (length t)))) pos ltac:(lia) ltac:(lia) ltac:(intros; lia))
    as (e & fe & -> & He & Hfe & Hne).
  cbn [mbind option_bind or_else]. exists a, e.
  split; [destruct fa; [by rewrite (proj2 (Z.ltb_ge a 0)) by lia|by rewrite Hfa]|].
  split; [destruct fe; [by rewrite (proj2 (Z.ltb_ge e 0)) by lia|by rewrite Hfe]|].
  split; [done|]. split; [done|]. split; [destruct fa; [by right; destruct Hfa|by left]|]. split; [destruct fe; [by right|by left]|].
  intros j Hj. destruct (decide (j < pos)); [apply Hna; lia|apply Hne; lia].
Qed.

(** ** The copy for other character sets *)

Lemma ascii_next t rest i : Forall (fun c => 0 < c < 0x80 /\ c <> 0x1B) t -> 0 <= i < Z.of_nat (length t) ->
  str_next_ofs (Some (t ++ rest)) (Z.of_nat (length t)) i = Some 1.
Proof.
  intros Ht Hi. destruct (str_next_ofs_bounds t rest i Hi) as (o & -> & _ & Ho1 & Ho2 & Hf).
  destruct (lookup_in t [] i Hi) as (c & _ & Hc). destruct Hf as [Hf _].
  { intros Hx. destruct (Forall_lookup_1 _ _ _ _ Ht Hx) as [_ ?]. done. }
  destruct (decide (o = 1)) as [->|]; [done|]. destruct (lookup_in t [] (i + 1) ltac:(lia)) as (d & _ & Hd).
  specialize (Hf (i + 1) d ltac:(lia) Hd). destruct (Forall_lookup_1 _ _ _ _ Ht Hd) as [? _]. unfold follower in Hf. zbool; lia.
Qed.

Lemma from_utf8_overflow sb t rest fuel s i :
  sb_buf sb = Some (t ++ rest) -> sb_count sb = Z.of_nat (length t) ->
  Forall (fun c => 0 < c < 0x80 /\ c <> 0x1B) t -> length s = length t -> 0 <= i <= Z.of_nat (length t) ->
  from_utf8_loop fuel sb (t ++ rest) (Z.of_nat (length t)) s i i = None.
Proof.
  intros Hb Hc Ht. revert s i. induction fuel as [|fuel IH]; intros s i Hs Hi; [done|]. cbn [from_utf8_loop].
  destruct (Z.ltb_spec i (Z.of_nat (length t))).
  - unfold sbuf_next_ofs. rewrite Hb, Hc, ascii_next by (done || lia). cbn [mbind option_bind]. cbn [Z.leb Z.compare].
    destruct (lookup_in t rest i ltac:(lia)) as (c & -> & _). cbn [mbind option_bind].
    change (1 =? 1) with true. rewrite poke_some by lia. cbn [mbind option_bind]. apply IH; [by rewrite length_insert|lia].
  - unfold poke, store_at. rewrite (proj2 (Z.leb_le 0 i)), (proj2 (Nat.ltb_ge _ _)) by lia. done.
Qed.

(** [sbuf_strdup_from_utf8] allocates as many bytes as the text has: for every
    plain ASCII line the terminator is written after the end of the object. *)
Theorem strdup_from_utf8_overflows `{A : allocator, !allocator_ok A} sb t :
  sbuf_repr sb t -> t <> [] -> Forall (fun c => 0 < c < 0x80 /\ c <> 0x1B) t -> ~ exhausted ->
  sbuf_strdup_from_utf8 sb = None.
Proof.
  intros (Htx & Hc & Hb) Hn Ht Hx. unfold sbuf_strdup_from_utf8, sbuf_len. rewrite Hc.
  assert (0 < Z.of_nat (length t)) by (destruct t; [done|cbn; lia]). rewrite (proj2 (Z.leb_gt _ 0)) by lia.
  destruct (sb_buf sb) as [b|] eqn:Eb; [|by destruct Hb as [-> _]]. destruct Hb as (rest & -> & _). cbn [mbind option_bind].
  destruct (realloc None (Z.of_nat (length t))) as [s|] eqn:Hr; [|destruct Hx; exists None, (Z.of_nat (length t)); split; [lia|done]].
  pose proof (realloc_size _ _ _ Hr). rewrite (from_utf8_overflow sb t (0 :: rest)); [done|done|done|done| |lia].
  unfold zeroes. rewrite length_replicate. lia.
Qed.

(** ** Examples *)

Definition text_buffer (s : string) : stringbuf :=
  let t := bytes_of_string s in Stringbuf (Some (t ++ [0])) (Z.of_nat (length t)) (Z.of_nat (length t)).

Lemma text_buffer_repr s : text_ok (bytes_of_string s) -> sbuf_repr (text_buffer s) (bytes_of_string s).
Proof.
  intros H. split; [done|]. split; [done|]. cbn. exists []. split; [done|]. rewrite length_app. cbn. lia.
Qed.

Lemma strdup_from_utf8_overflows_witness : sbuf_strdup_from_utf8 (text_buffer "ls") = None.
Proof.
  apply (strdup_from_utf8_overflows (text_buffer "ls") (bytes_of_string "ls")).
  - apply text_buffer_repr. vm_compute. by repeat constructor.
  - discriminate.
  - vm_compute. by repeat constructor.
  - exact heap_lasts.
Defined.

Lemma vprintf_exact_fit_witness :
  exists sb rest, sbuf_append_vprintf sbuf_init 2 (replicate 300 120) = Some (300, sb)
    /\ sb_buf sb = Some (replicate 299 120 ++ 0 :: 0 :: rest).
Proof.
  destruct (vprintf_exact_fit sbuf_init [] 2 (replicate 300 120)) as (sb & avail & rest & H & Hc & Ha & _ & Hb).
  - split; [constructor|done].
  - lia.
  - exact heap_lasts.
  - exists sb, rest. assert (Hl : sbuf_append_vprintf sbuf_init 2 (replicate 300 120)
      = Some (300, Stringbuf (Some (replicate 299 120 ++ [0; 0])) 300 300)) by (vm_compute; reflexivity).
    rewrite Hl in H. injection H as _ <-. split; [exact Hl|]. rewrite Hb, Ha. vm_compute. reflexivity.
Defined.

Lemma line_of_position_witness :
  sbuf_find_line_start (text_buffer ("ab" +:+ nl +:+ "cd" +:+ nl)) 4 = Some 3
  /\ sbuf_find_line_end (text_buffer ("ab" +:+ nl +:+ "cd" +:+ nl)) 4 = Some 5.
Proof.
  destruct (line_of_position (text_buffer ("ab" +:+ nl +:+ "cd" +:+ nl)) (bytes_of_string ("ab" +:+ nl +:+ "cd" +:+ nl)) 4)
    as (a & b & Ha & Hb & _).
  - apply text_buffer_repr. vm_compute. by repeat constructor.
  - intros [|[|[|[|[|[|i]]]]]] c H1 H2; vm_compute in H1, H2; simplify_eq; done.
  - vm_compute. by repeat constructor.
  - vm_compute. split; discriminate.
  - split; vm_compute; reflexivity.
Defined.

(** "Word start" from the end of the second word is the end of the first one,
    and "word end" from the start of the first word is the start of the second. *)
Theorem word_search_inverted :
  sbuf_find_word_start (text_buffer "hello world") 11 = Some 5
  /\ sbuf_find_word_end (text_buffer "hello world") 0 = Some 6
  /\ sbuf_find_ws_word_start (text_buffer "hello world") 11 = Some 6
  /\ sbuf_find_ws_word_end (text_buffer "hello world") 0 = Some 5.
Proof. by vm_compute. Qed.

(** After [sbuf_split_at] the first part has no terminator: its string is still
    the whole text. *)
Theorem split_keeps_text :
  exists first second, sbuf_split_at (text_buffer "abcd") 2 = Some (Some second, first)
    /\ sbuf_len first = 2 /\ sbuf_string first = Some [97; 98; 99; 100; 0]
    /\ sbuf_len second = 2.
Proof. eexists _, _. by vm_compute. Qed.

(** A C1 control character has width -1. *)
Theorem control_width_negative : char_column_width (Some [0xC2; 0x85; 0]) 2 = Some (-1).
Proof. by vm_compute. Qed.

(** [ESC % G] is skipped as two bytes. *)
Theorem escape_of_three_skips_two : skip_esc [0x1B; code "%"; code "G"; 0] 3 = Some (Some 2).
Proof. by vm_compute. Qed.

(** deps/isocline/src/stringbuf.c: the searches for words and lines and the rows of
    a wrapped text never read outside the text, end, and give positions in it. *)

(** ** Words and lines *)

(** A test that only looks at its first byte. *)
Definition class_total (m : char_class) : Prop := forall c s n, exists b, m (c :: s) n = Some b.

Lemma linefeed_total : class_total char_is_linefeed.
Proof. intros c s n. unfold char_is_linefeed. destruct (negb _); by eexists. Qed.
Lemma white_total : class_total ic_char_is_white.
Proof. intros c s n. unfold ic_char_is_white. destruct (negb _); by eexists. Qed.
Lemma idletter_total : class_total ic_char_is_idletter.
Proof. intros c s n. unfold ic_char_is_idletter. destruct (n <=? 0); by eexists. Qed.

Lemma class_at m (t r : bytes) i n : class_total m -> 0 <= i < Z.of_nat (length t) -> exists b, m (drop (Z.to_nat i) (t ++ r)) n = Some b.
Proof.
  intros Hm Hi. destruct (lookup_lt_is_Some_2 (t ++ r) (Z.to_nat i)) as [c Hc]; [rewrite length_app; lia|].
  rewrite (drop_S _ _ _ Hc). apply Hm.
Qed.

Lemma back_loop_ok m want (t r : bytes) : class_total m -> forall fuel i, 0 <= i <= Z.of_nat (length t) -> (Z.to_nat i < fuel)%nat ->
  exists i' b, back_loop fuel (t ++ r) m want i = Some (i', b) /\ 0 <= i' <= i.
Proof.
  intros Hm. induction fuel as [|fuel IH]; intros i Hi Hf; [lia|]. cbn [back_loop]. destruct (decide (i = 0)) as [->|].
  { exists 0, false. split; [done|lia]. }
  destruct (str_prev_ofs_bounds t r i ltac:(lia)) as (o & -> & _ & Ho & _). cbn [mbind option_bind]. rewrite (proj2 (Z.leb_gt o 0)) by lia.
  destruct (class_at m t r (i - o) o Hm ltac:(lia)) as [b ->]. cbn [mbind option_bind].
  destruct (Bool.eqb b want); [|exists i, true; split; [done|lia]]. destruct (Z.ltb_spec 0 (i - o)).
  - destruct (IH (i - o) ltac:(lia) ltac:(lia)) as (i' & b' & E & Hi'). exists i', b'. split; [done|lia].
  - exists (i - o), false. split; [done|lia].
Qed.

Lemma forth_loop_ok m want (t r : bytes) : class_total m -> forall fuel i, 0 <= i <= Z.of_nat (length t) -> (Z.to_nat (Z.of_nat (length t) - i) < fuel)%nat ->
  exists i' b, forth_loop fuel (t ++ r) (Z.of_nat (length t)) m want i = Some (i', b) /\ i <= i' <= Z.of_nat (length t).
Proof.
  intros Hm. induction fuel as [|fuel IH]; intros i Hi Hf; [lia|]. cbn [forth_loop]. destruct (decide (i = Z.of_nat (length t))) as [->|].
  { rewrite str_next_ofs_end by lia. eexists _, _. split; [done|lia]. }
  destruct (str_next_ofs_bounds t r i ltac:(lia)) as (o & -> & _ & Ho & Hl & _). cbn [mbind option_bind]. rewrite (proj2 (Z.leb_gt o 0)) by lia.
  destruct (class_at m t r i o Hm ltac:(lia)) as [b ->]. cbn [mbind option_bind].
  destruct (Bool.eqb b want); [|exists i, true; split; [done|lia]]. destruct (Z.ltb_spec (i + o) (Z.of_nat (length t))).
  - destruct (IH (i + o) ltac:(lia) ltac:(lia)) as (i' & b' & E & Hi'). exists i', b'. split; [done|lia].
  - exists (i + o), false. split; [done|lia].
Qed.

Section Finds.
Context (sb : stringbuf) (t : bytes) (repr : sbuf_repr sb t).

Lemma find_backward_ok m skip pos : class_total m -> 0 <= pos <= Z.of_nat (length t) ->
  exists x, str_find_backward (sb_buf sb) (sb_count sb) pos m skip = Some x /\ -1 <= x <= pos.
Proof.
  intros Hm Hp. destruct repr as (_ & Hc & Hb). unfold str_find_backward. rewrite Hc, (proj2 (Z.ltb_ge _ pos)), (proj2 (Z.ltb_ge pos 0)) by lia.
  destruct (sb_buf sb) as [b|]; [|exists (-1); split; [done|lia]]. destruct Hb as (rest & -> & _).
  assert (H1 : exists i, (if skip then fst <$> back_loop (S (Z.to_nat pos)) (t ++ 0 :: rest) m true pos else Some pos) = Some i /\ 0 <= i <= pos).
  { destruct skip; [|exists pos; split; [done|lia]]. destruct (back_loop_ok m true t (0 :: rest) Hm (S (Z.to_nat pos)) pos Hp ltac:(lia)) as (i & b & -> & Hi). by exists i. }
  destruct H1 as (i & -> & Hi). cbn [mbind option_bind].
  destruct (back_loop_ok m false t (0 :: rest) Hm (S (Z.to_nat pos)) i ltac:(lia) ltac:(lia)) as (i' & b & -> & Hi'). cbn [mbind option_bind].
  eexists. split; [done|]. destruct b; lia.
Qed.

Lemma find_forward_ok m skip pos : class_total m -> 0 <= pos <= Z.of_nat (length t) ->
  exists x, str_find_forward (sb_buf sb) (sb_count sb) pos m skip = Some x /\ (x = -1 \/ pos <= x <= Z.of_nat (length t)).
Proof.
  intros Hm Hp. destruct repr as (_ & Hc & Hb). unfold str_find_forward.
  destruct (sb_buf sb) as [b|]; [|exists (-1); split; [done|by left]]. destruct Hb as (rest & -> & _).
  rewrite Hc, !(proj2 (Z.ltb_ge (Z.of_nat _) _)), (proj2 (Z.ltb_ge pos 0)) by lia. rewrite Nat2Z.id.
  assert (H1 : exists i, (if skip then fst <$> forth_loop (S (length t)) (t ++ 0 :: rest) (Z.of_nat (length t)) m true pos else Some pos) = Some i
    /\ pos <= i <= Z.of_nat (length t)).
  { destruct skip; [|exists pos; split; [done|lia]].
    destruct (forth_loop_ok m true t (0 :: rest) Hm (S (length t)) pos Hp ltac:(lia)) as (i & b & -> & Hi). by exists i. }
  destruct H1 as (i & -> & Hi). cbn [mbind option_bind].
  destruct (forth_loop_ok m false t (0 :: rest) Hm (S (length t)) i ltac:(lia) ltac:(lia)) as (i' & b & -> & Hi'). cbn [mbind option_bind].
  eexists. split; [done|]. destruct b; [right; lia|by left].
Qed.

(** The start is at or before the cursor, the end at or after it. *)
Lemma find_start_ok m skip pos : class_total m -> 0 <= pos <= Z.of_nat (length t) ->
  exists x, or_else 0 (str_find_backward (sb_buf sb) (sb_count sb) pos m skip) = Some x /\ 0 <= x <= pos.
Proof.
  intros Hm Hp. destruct (find_backward_ok m skip pos Hm Hp) as (x & E & Hx). unfold or_else. rewrite E. cbn. eexists. split; [done|].
  destruct (Z.ltb_spec x 0); lia.
Qed.

Lemma find_end_ok m skip pos : class_total m -> 0 <= pos <= Z.of_nat (length t) ->
  exists x, or_else (sb_count sb) (str_find_forward (sb_buf sb) (sb_count sb) pos m skip) = Some x /\ pos <= x <= Z.of_nat (length t).
Proof.
  intros Hm Hp. destruct (find_forward_ok m skip pos Hm Hp) as (x & E & Hx). unfold or_else. rewrite E. cbn. eexists. split; [done|].
  destruct repr as (_ & -> & _). destruct (Z.ltb_spec x 0); lia.
Qed.
End Finds.

(** ** Rows *)

Lemma wcwidth_total u : exists w, mk_wcwidth u = Some w.
Proof.
  destruct tables_ordered as [Hw Hc]. unfold mk_wcwidth, mk_is_wide_char.
  rewrite (bisearch_correct u combining 0 Hc), (bisearch_correct u wide 0 Hw) by done.
  cbn [mbind option_bind]. repeat case_match; by eexists.
Qed.

(** The width of a character of [n] bytes that are all there. *)
Lemma char_width_ok s n : n <= Z.of_nat (length s) -> exists w, char_column_width (Some s) n = Some w.
Proof.
  intros Hn. unfold char_column_width, utf8_char_width. destruct (Z.leb_spec n 0) as [|Hpos]; [by eexists|].
  assert (H : forall k, Z.of_nat k < n -> exists b, s !! k = Some b) by (intros k Hk; apply lookup_lt_is_Some_2; lia).
  destruct (H 0%nat ltac:(lia)) as [b ->]. cbn [mbind option_bind]. destruct (b <? 32); [by eexists|].
  destruct (b <=? 0x7F); [by eexists|]. destruct (b <=? 0xC1); [by eexists|].
  destruct ((b <=? 0xDF) && (2 <=? n)) eqn:E2.
  { destruct (H 1%nat ltac:(lia)) as [s1 ->]. apply wcwidth_total. }
  destruct ((b <=? 0xEF) && (3 <=? n)) eqn:E3.
  { destruct (H 1%nat ltac:(lia)) as [s1 ->], (H 2%nat ltac:(lia)) as [s2 ->]. apply wcwidth_total. }
  destruct ((b <=? 0xF4) && (4 <=? n)) eqn:E4; [|by eexists].
  destruct (H 1%nat ltac:(lia)) as [s1 ->], (H 2%nat ltac:(lia)) as [s2 ->], (H 3%nat ltac:(lia)) as [s3 ->]. apply wcwidth_total.
Qed.

Lemma next_width_ok (t r : bytes) i : 0 <= i <= Z.of_nat (length t) ->
  exists o w, str_next_width (Some (t ++ r)) (Z.of_nat (length t)) i = Some (o, w)
    /\ 0 <= o /\ i + o <= Z.of_nat (length t) /\ (i < Z.of_nat (length t) -> 1 <= o).
Proof.
  intros Hi. unfold str_next_width. destruct (decide (i = Z.of_nat (length t))) as [->|].
  - rewrite str_next_ofs_end by lia. cbn. eexists _, _. split; [done|lia].
  - destruct (str_next_ofs_bounds t r i ltac:(lia)) as (o & -> & _ & Ho & Hl & _). cbn [mbind option_bind fmap option_fmap option_map].
    destruct (char_width_ok (drop (Z.to_nat i) (t ++ r)) o) as [w ->]; [rewrite length_drop, length_app; lia|].
    exists o, w. split; [done|lia].
Qed.

(** The text of a row, as a prefix of what is there. *)
Lemma next_width_in (s : bytes) len i : 0 <= i <= len -> len <= Z.of_nat (length s) ->
  exists o w, str_next_width (Some s) len i = Some (o, w) /\ 0 <= o /\ i + o <= len /\ (i < len -> 1 <= o).
Proof.
  intros Hi Hl. destruct (next_width_ok (take (Z.to_nat len) s) (drop (Z.to_nat len) s) i) as (o & w & E & Ho);
    rewrite length_take, Nat.min_l, Z2Nat.id in * by lia; [lia|]. rewrite take_drop in E. by exists o, w.
Qed.

Lemma column_width_ok (s : bytes) len : len < Z.of_nat (length s) -> exists w, str_column_width_n (Some s) len = Some w.
Proof.
  intros Hl. unfold str_column_width_n. destruct (Z.leb_spec len 0) as [|Hpos]; [by eexists|].
  assert (H : forall fuel pos cw, 0 <= pos <= len -> (Z.to_nat (len - pos) < fuel)%nat -> exists w, width_loop fuel s len pos cw = Some w).
  { induction fuel as [|fuel IH]; intros pos cw Hp Hf; [lia|]. cbn [width_loop].
    destruct (lookup_lt_is_Some_2 s (Z.to_nat pos) ltac:(lia)) as [c ->]. cbn [mbind option_bind]. destruct (c =? 0); [by eexists|].
    destruct (next_width_in s len pos Hp ltac:(lia)) as (o & w & -> & Ho & Hl' & _). cbn [mbind option_bind].
    destruct (Z.ltb_spec 0 o); [apply IH; lia|by eexists]. }
  apply H; lia.
Qed.

(** A row function that stays total and keeps [P]. *)
Definition row_ok {R} (len : Z) (P : R -> Prop) (f : row_fun R) : Prop :=
  forall row start rlen startw wrap res, 0 <= start -> 0 <= rlen -> start + rlen <= len -> P res ->
    exists stop res', f row start rlen startw wrap res = Some (stop, res') /\ P res'.

Lemma row_loop_ok {R} (P : R -> Prop) (f : row_fun R) (s : bytes) len termw promptw cpromptw :
  len < Z.of_nat (length s) -> row_ok len P f -> forall fuel i rcount rcol rstart startw res,
  0 <= rstart <= i -> i <= len -> (Z.to_nat (len - i) < fuel)%nat -> P res ->
  exists n res', row_loop fuel s len termw promptw cpromptw (Some f) i rcount rcol rstart startw res = Some (n, res') /\ P res'.
Proof.
  intros Hs Hf. induction fuel as [|fuel IH]; intros i rcount rcol rstart startw res Hr Hi Hfu HP; [lia|]. cbn [row_loop].
  assert (Hcall : forall rc sw wrap res (k : R -> option (Z * R)), P res -> (forall res, P res -> exists n res', k res = Some (n, res') /\ P res') ->
    exists n res', call_row (Some f) rc rstart (i - rstart) sw wrap res k = Some (n, res') /\ P res').
  { intros rc sw wrap res0 k HP0 Hk. unfold call_row.
    destruct (Hf rc rstart (i - rstart) sw wrap res0 ltac:(lia) ltac:(lia) ltac:(lia) HP0) as (stop & res1 & -> & HP1). cbn [mbind option_bind].
    destruct stop; [by eexists _, _|by apply Hk]. }
  assert (Hlast : exists n res', call_row (Some f) rcount rstart (i - rstart) startw false res (fun res => Some (rcount + 1, res)) = Some (n, res') /\ P res').
  { apply Hcall; [done|]. intros res0 ?. by eexists _, _. }
  destruct (Z.ltb_spec i len) as [Hlt|]; [|exact Hlast].
  destruct (next_width_in s len i ltac:(lia) ltac:(lia)) as (o & w & -> & Ho & Hl & Ho1). cbn [mbind option_bind].
  rewrite (proj2 (Z.leb_gt o 0)) by lia. cbv zeta. destruct (lookup_lt_is_Some_2 s (Z.to_nat i) ltac:(lia)) as [c Hc]. rewrite Hc.
  cbn [mbind option_bind].
  assert (Hrec : forall rc rcl rs sw res, 0 <= rs <= i + o -> P res ->
    exists n res', row_loop fuel s len termw promptw cpromptw (Some f) (i + o) rc rcl rs sw res = Some (n, res') /\ P res').
  { intros. apply IH; done || lia. }
  destruct (negb (termw =? 0) && _ && _).
  - apply Hcall; [done|]. intros res0 HP0. destruct (c =? 10); [|apply Hrec; done || lia].
    unfold call_row. replace (i - i) with 0 by lia.
    destruct (Hf (rcount + 1) i 0 (if rcount =? 0 then promptw else cpromptw) false res0 ltac:(lia) ltac:(lia) ltac:(lia) HP0) as (stop & res1 & -> & HP1).
    cbn [mbind option_bind]. destruct stop; [by eexists _, _|apply Hrec; done || lia].
  - destruct (c =? 10); [|apply Hrec; done || lia]. apply Hcall; [done|]. intros res0 HP0. apply Hrec; done || lia.
Qed.

Lemma current_pos_ok (s : bytes) len pos : len < Z.of_nat (length s) -> 0 <= pos <= len ->
  row_ok len (fun _ => True) (str_get_current_pos_iter (Some s) pos).
Proof.
  intros Hs Hp row start rlen startw wrap res H0 H1 H2 _. unfold str_get_current_pos_iter.
  destruct ((start <=? pos) && (pos <=? start + rlen)) eqn:E; [|by eexists _, _]. cbn [fmap option_fmap option_map].
  destruct (column_width_ok (drop (Z.to_nat start) s) (pos - start)) as [w ->]; [rewrite length_drop; lia|]. cbn [mbind option_bind].
  destruct wrap; [|cbn [mbind option_bind]; by eexists _, _].
  destruct (next_width_in s (start + rlen) pos ltac:(lia) ltac:(lia)) as (o & cw & En & _). unfold str_next_width in En.
  destruct (str_next_ofs (Some s) (start + rlen) pos); [|done]. cbn [mbind option_bind]. by eexists _, _.
Qed.

Lemma set_pos_ok (s : bytes) len row col : len < Z.of_nat (length s) ->
  row_ok len (fun x => -1 <= x <= len) (str_set_pos_iter (Some s) row col).
Proof.
  intros Hs row' start rlen startw wrap res H0 H1 H2 HP. unfold str_set_pos_iter. destruct (negb _); [by eexists _, _|].
  assert (H : forall fuel i c, start <= i <= start + rlen -> (Z.to_nat (start + rlen - i) < fuel)%nat ->
    exists x, col_loop fuel (Some s) (start + rlen) col i c = Some x /\ start <= x <= start + rlen).
  { induction fuel as [|fuel IH]; intros i c Hi Hf; [lia|]. cbn [col_loop].
    destruct ((c <? col) && (i <? start + rlen)) eqn:E; [|by exists i].
    destruct (next_width_in s (start + rlen) i ltac:(lia) ltac:(lia)) as (o & w & -> & Ho & Hl & Ho1). cbn [mbind option_bind].
    rewrite (proj2 (Z.leb_gt o 0)) by lia. apply IH; lia. }
  destruct (H (S (Z.to_nat rlen)) start 0 ltac:(lia) ltac:(lia)) as (x & -> & Hx). cbn [mbind option_bind].
  eexists _, _. split; [done|lia].
Qed.

Lemma get_rc_ok sb t termw promptw cpromptw pos : sbuf_repr sb t -> 0 <= pos <= Z.of_nat (length t) ->
  exists rows rc, sbuf_get_rc_at_pos sb termw promptw cpromptw pos = Some (rows, rc).
Proof.
  intros (_ & Hc & Hb) Hp. unfold sbuf_get_rc_at_pos, str_get_rc_at_pos, str_for_each_row.
  assert (Hs : sb_count sb < Z.of_nat (length (default [0] (sb_buf sb)))).
  { destruct (sb_buf sb) as [b|]; [destruct Hb as (r & -> & _); cbn; rewrite length_app; cbn; lia|]. destruct Hb as [-> _]. cbn in *. lia. }
  rewrite <- Hc in Hp.
  destruct (row_loop_ok (fun _ => True) _ _ _ termw promptw cpromptw Hs (current_pos_ok _ _ pos Hs Hp)
    (S (Z.to_nat (sb_count sb))) 0 0 0 0 promptw rowcol_zero) as (n & rc & E & _); [lia|lia|lia|done|]. by exists n, rc.
Qed.

Lemma get_pos_ok sb t termw promptw cpromptw row col : sbuf_repr sb t ->
  exists x, sbuf_get_pos_at_rc sb termw promptw cpromptw row col = Some x /\ -1 <= x <= Z.of_nat (length t).
Proof.
  intros (_ & Hc & Hb). unfold sbuf_get_pos_at_rc, str_get_pos_at_rc, str_for_each_row.
  assert (Hs : sb_count sb < Z.of_nat (length (default [0] (sb_buf sb)))).
  { destruct (sb_buf sb) as [b|]; [destruct Hb as (r & -> & _); cbn; rewrite length_app; cbn; lia|]. destruct Hb as [-> _]. cbn in *. lia. }
  destruct (row_loop_ok _ _ _ _ termw promptw cpromptw Hs (set_pos_ok _ _ row col Hs)
    (S (Z.to_nat (sb_count sb))) 0 0 0 0 promptw (-1)) as (n & x & E & Hx); [lia|lia|lia|lia|]. rewrite E. exists x. split; [done|lia].
Qed.
