(* ===== verification/History.v ===== *)
(** deps/isocline/src/history.c and undo.c: the history of input lines and its file,
    and the stack of editor states.

    An entry is a C string; [elems] has [len] slots, of which [count] are in use,
    the oldest first.  A file that is read is its remaining bytes and the end-of-file
    flag; [None] is an access outside an object or through NULL. *)
From S2P Require Import Prelude CLib Unicode Stringbuf SbufEdit SbufNav.

Section History.
Context {A : allocator}.

Definition IC_MAX_HISTORY : Z := 200.

Record history := History {
  h_count : Z; h_len : Z; h_elems : list (option bytes); h_fname : option bytes; h_allow_duplicates : bool
}.

Definition history_new : history := History 0 0 [] None false.

Definition history_enable_duplicates (h : history) (enable : bool) : bool * history :=
  (h_allow_duplicates h, History (h_count h) (h_len h) (h_elems h) (h_fname h) enable).

Definition history_count (h : history) : Z := h_count h.

Definition set_elems (h : history) (count : Z) (elems : list (option bytes)) : history :=
  History count (h_len h) elems (h_fname h) (h_allow_duplicates h).

(** ** Entries *)

Definition history_delete_at (h : history) (idx : Z) : option history :=
  if (idx <? 0) || (h_count h <=? idx) then Some h
  else
    elems ← ofold (fun i elems => x ← elems !! i; store_at elems (i - 1) x)
              (S (Z.to_nat idx)) (Z.to_nat (h_count h - idx - 1)) (h_elems h);
    Some (set_elems h (h_count h - 1) elems).

(** [strcmp(a, b) == 0] *)
Fixpoint strcmp_eq (a b : bytes) : option bool :=
  match a, b with
  | x :: a, y :: b => if x =? y then if x =? 0 then Some true else strcmp_eq a b else Some false
  | _, _ => None
  end.

(** The loop over [i]; at most [count] turns. *)
Fixpoint remove_duplicates (fuel : nat) (h : history) (entry : bytes) (i : Z) : option history :=
  match fuel with
  | O => None
  | S fuel =>
      if i <? h_count h then
        e ← mjoin (h_elems h !! Z.to_nat i);
        same ← strcmp_eq e entry;
        h ← (if (same : bool) then history_delete_at h i else Some h);
        remove_duplicates fuel h entry (i + 1)
      else Some h
  end.

Definition history_push (h : history) (entry : option bytes) : option (bool * history) :=
  match entry with
  | None => Some (false, h)
  | Some entry =>
      if h_len h <=? 0 then Some (false, h)
      else
        h ← (if negb (h_allow_duplicates h) then remove_duplicates (S (Z.to_nat (h_count h))) h entry 0 else Some h);
        h ← (if h_count h =? h_len h then history_delete_at h 0 else Some h);
        e ← mem_strdup (Some entry);
        if h_count h <? 0 then None else
        elems ← store_at (h_elems h) (Z.to_nat (h_count h)) e;
        Some (true, set_elems h (h_count h + 1) elems)
  end.

Definition history_remove_last_n (h : history) (n : Z) : history :=
  if n <=? 0 then h
  else let n := if h_count h <? n then h_count h else n in set_elems h (h_count h - n) (h_elems h).

Definition history_remove_last (h : history) : history := history_remove_last_n h 1.
Definition history_clear (h : history) : history := history_remove_last_n h (h_count h).

Definition history_update (h : history) (entry : option bytes) : option (bool * history) :=
  match entry with
  | None => Some (false, h)
  | Some _ => '(_, h) ← history_push (history_remove_last h) entry; Some (true, h)
  end.

(** [n] back from the newest; [Some None] is NULL *)
Definition history_get (h : history) (n : Z) : option (option bytes) :=
  if (n <? 0) || (h_count h <=? n) then Some None else h_elems h !! Z.to_nat (h_count h - n - 1).

(** The bytes before the terminator. *)
Fixpoint c_text (s : bytes) : option bytes :=
  match s with [] => None | c :: s => if c =? 0 then Some [] else t ← c_text s; Some (c :: t) end.

Fixpoint is_prefix (p s : bytes) : bool :=
  match p, s with [], _ => true | x :: p, y :: s => (x =? y) && is_prefix p s | _ :: _, [] => false end.

Fixpoint find_text (s p : bytes) : option nat :=
  if is_prefix p s then Some 0%nat else match s with [] => None | _ :: s => S <$> find_text s p end.

(** [strstr(history_get(h, i), search)] *)
Definition search_at (h : history) (search : bytes) (i : Z) : option (option nat) :=
  e ← history_get h i; e ← e; t ← c_text e; Some (find_text t search).

Fixpoint search_loop (fuel : nat) (h : history) (search : bytes) (backward : bool) (i : Z) : option (option (Z * Z)) :=
  match fuel with
  | O => None
  | S fuel =>
      if (if backward then i <? h_count h else 0 <=? i) then
        p ← search_at h search i;
        match p with
        | Some k => Some (Some (i, Z.of_nat k))
        | None => search_loop fuel h search backward (if backward then i + 1 else i - 1)
        end
      else Some None
  end.

(** [Some (hidx, hpos)], or [None] where the result is false *)
Definition history_search (h : history) (from : Z) (search : bytes) (backward : bool) : option (option (Z * Z)) :=
  search_loop (S (Z.to_nat (if backward then h_count h - from else from + 1))) h search backward from.

(** ** The file *)

Definition from_xdigit (c : Z) : Z :=
  if (48 <=? c) && (c <=? 57) then c - 48
  else if (65 <=? c) && (c <=? 70) then 10 + (c - 65)
  else if (97 <=? c) && (c <=? 102) then 10 + (c - 97)
  else 0.

Definition to_xdigit (c : Z) : Z :=
  if c <=? 9 then c + 48 else if (10 <=? c) && (c <=? 15) then c - 10 + 65 else 48.

Definition ic_isxdigit (c : Z) : bool :=
  ((97 <=? c) && (c <=? 102)) || ((65 <=? c) && (c <=? 70)) || ((48 <=? c) && (c <=? 57)).

Definition file : Type := bytes * bool.
Definition EOF : Z := -1.

Definition fgetc (f : file) : Z * file :=
  match f with (c :: rest, eof) => (c, (rest, eof)) | ([], _) => (EOF, ([], true)) end.

Definition append_str (sb : stringbuf) (s : string) : option stringbuf :=
  snd <$> sbuf_append sb (Some (cstr (bytes_of_string s))).
Definition append_char (sb : stringbuf) (c : Z) : option stringbuf := snd <$> sbuf_append_char sb c.

(** The loop of [history_read_entry]; [false] is its early [return false]. *)
Fixpoint read_loop (fuel : nat) (f : file) (sb : stringbuf) : option (bool * file * stringbuf) :=
  match fuel with
  | O => None
  | S fuel =>
      if snd f then Some (true, f, sb)
      else
        let '(c, f) := fgetc f in
        if (c =? EOF) || (c =? 10) then Some (true, f, sb)
        else if c =? code "\" then
          let '(c, f) := fgetc f in
          if c =? code "n" then sb ← append_str sb nl; read_loop fuel f sb
          else if c =? code "r" then read_loop fuel f sb
          else if c =? code "t" then sb ← append_str sb (String (chr 9) ""); read_loop fuel f sb
          else if c =? code "\" then sb ← append_str sb "\"; read_loop fuel f sb
          else if c =? code "x" then
            let '(c1, f) := fgetc f in
            let '(c2, f) := fgetc f in
            if ic_isxdigit c1 && ic_isxdigit c2
            then sb ← append_char sb (u8 (from_xdigit c1 * 16 + from_xdigit c2)); read_loop fuel f sb
            else Some (false, f, sb)
          else Some (false, f, sb)
        else sb ← append_char sb (u8 c); read_loop fuel f sb
  end.

Definition history_read_entry (h : history) (f : file) (sb : stringbuf) : option (bool * history * file * stringbuf) :=
  sb ← sbuf_clear sb;
  '(ok, f, sb) ← read_loop (S (S (length (fst f)))) f sb;
  if negb ok then Some (false, h, f, sb)
  else if sbuf_len sb =? 0 then Some (true, h, f, sb)
  else
    s ← sbuf_string sb;
    c ← s !! 0%nat;
    if c =? code "#" then Some (true, h, f, sb)
    else '(ok, h) ← history_push h (Some s); Some (ok, h, f, sb).

(** One character of an entry, as it is written. *)
Definition write_char (sb : stringbuf) (c : Z) : option stringbuf :=
  if c =? code "\" then append_str sb "\\"
  else if c =? 10 then append_str sb "\n"
  else if c =? 13 then Some sb
  else if c =? 9 then append_str sb "\t"
  else if (s8 c <? 32) || (code "~" <? s8 c) || (c =? code "#") then
    sb ← append_str sb "\x";
    sb ← append_char sb (to_xdigit (c / 16));
    append_char sb (to_xdigit (c mod 16))
  else append_char sb c.

Fixpoint write_loop (sb : stringbuf) (entry : bytes) : option stringbuf :=
  match entry with
  | [] => None
  | c :: entry => if c =? 0 then Some sb else sb ← write_char sb c; write_loop sb entry
  end.

(** The file gets the bytes at its end. *)
Definition history_write_entry (entry : option bytes) (out : bytes) (sb : stringbuf) : option (bytes * stringbuf) :=
  sb ← sbuf_clear sb;
  sb ← (match entry with None => Some sb | Some e => write_loop sb e end);
  if 0 <? sbuf_len sb then
    sb ← append_str sb nl;
    s ← sbuf_string sb;
    t ← c_text s;
    Some (out ++ t, sb)
  else Some (out, sb).

Fixpoint load_loop (fuel : nat) (h : history) (f : file) (sb : stringbuf) : option history :=
  match fuel with
  | O => None
  | S fuel =>
      if snd f then Some h
      else
        '(ok, h, f, sb) ← history_read_entry h f sb;
        if (ok : bool) then load_loop fuel h f sb else Some h
  end.

(** [content] is what [fopen] finds under the name *)
Definition history_load (h : history) (content : option bytes) : option history :=
  match h_fname h, content with
  | Some _, Some content =>
      match sbuf_new with
      | None => Some h
      | Some sb => load_loop (S (S (length content))) h (content, false) sb
      end
  | _, _ => Some h
  end.

Fixpoint save_loop (es : list (option bytes)) (out : bytes) (sb : stringbuf) : option bytes :=
  match es with
  | [] => Some out
  | e :: es => '(out, sb) ← history_write_entry e out sb; save_loop es out sb
  end.

(** What is in the file afterwards, which can be opened; [Some None]: without a
    file name nothing is written. *)
Definition history_save (h : history) : option (option bytes) :=
  match h_fname h with
  | None => Some None
  | Some _ =>
      match sbuf_new with
      | None => Some (Some [])
      | Some sb => Some <$> save_loop (take (Z.to_nat (h_count h)) (h_elems h)) [] sb
      end
  end.

Definition history_load_from (h : history) (fname : option bytes) (max_entries : Z) (content : option bytes) : option history :=
  let h := history_clear h in
  fname ← mem_strdup fname;
  let h := History (h_count h) (h_len h) (h_elems h) fname (h_allow_duplicates h) in
  if max_entries =? 0 then Some h
  else
    let max_entries := if (max_entries <? 0) || (IC_MAX_HISTORY <? max_entries) then IC_MAX_HISTORY else max_entries in
    match realloc None (max_entries * 4) with
    | None => Some (set_elems h (h_count h) [])
    | Some _ =>
        history_load (History (h_count h) max_entries (replicate (Z.to_nat max_entries) None) fname (h_allow_duplicates h)) content
    end.

(** ** undo.c *)

(** The list of captured states, the last one first. *)
Definition editstate : Type := list (bytes * Z).

Definition editstate_init : editstate := [].
Definition editstate_done (es : editstate) : editstate := [].

Definition editstate_capture (es : editstate) (input : option bytes) (pos : Z) : option editstate :=
  match realloc None 12 with
  | None => Some es
  | Some _ =>
      copy ← mem_strdup (Some (default [0] input));
      match copy with None => Some es | Some s => Some ((s, pos) :: es) end
  end.

Definition editstate_restore (es : editstate) : option (bytes * Z) * editstate :=
  match es with [] => (None, []) | e :: es => (Some e, es) end.
End History.
