(* ===== verification/HistoryProps.v ===== *)
(** Theorems on the history of input lines (History): pushing is the queue without
    duplicates of bounded length, and the file of a history gives it back, but for
    carriage returns and the lines that start with a hash sign. *)
From S2P Require Import Prelude CLib Unicode Stringbuf SbufEdit SbufNav SbufProps History.

(** The entries of a history, the oldest first. *)
Definition hist_ok (h : history) (es : list bytes) : Prop :=
  Forall text_ok es /\ h_count h = Z.of_nat (length es) /\ Z.of_nat (length (h_elems h)) = h_len h
  /\ exists junk, h_elems h = map (fun e => Some (cstr e)) es ++ junk.

(** Pushing as it is meant: an older duplicate goes, then the oldest entry if there is no room. *)
Definition hist_push (dups : bool) (len : nat) (es : list bytes) (e : bytes) : list bytes :=
  let es := if dups then es else filter (fun x => x <> e) es in
  (if decide (length es = len) then tail es else es) ++ [e].

(** ** Deleting an entry *)

Lemma shift_down {X} (b : list X) : forall a x c,
  exists y, ofold (fun i l => v ← l !! i; store_at l (i - 1) v) (S (length a)) (length b) (a ++ x :: b ++ c) = Some (a ++ b ++ y :: c).
Proof.
  induction b as [|v b IH]; intros a x c; [by exists x|]. cbn [length ofold].
  assert (Hl : (a ++ x :: (v :: b) ++ c) !! S (length a) = Some v).
  { rewrite lookup_app_r by lia. by replace (S (length a) - length a)%nat with 1%nat by lia. }
  rewrite Hl. cbn [mbind option_bind]. unfold store_at. rewrite (proj2 (Nat.ltb_lt _ _)) by (rewrite length_app; cbn; lia).
  cbn [mbind option_bind]. replace (S (length a) - 1)%nat with (length a + 0)%nat by lia. rewrite insert_app_r.
  cbn [app insert list_insert]. destruct (IH (a ++ [v]) v c) as [y Hy]. rewrite length_app in Hy. cbn [length] in Hy.
  rewrite <- app_assoc in Hy. cbn [app] in Hy. replace (length a + 1)%nat with (S (length a)) in Hy by lia. exists y.
  etransitivity; [exact Hy|]. by rewrite <- app_assoc.
Qed.

Lemma delete_at_ok h es i x :
  hist_ok h es -> es !! i = Some x ->
  exists h', history_delete_at h (Z.of_nat i) = Some h' /\ hist_ok h' (take i es ++ drop (S i) es)
    /\ h_len h' = h_len h /\ h_allow_duplicates h' = h_allow_duplicates h.
Proof.
  intros (Ht & Hc & Hl & junk & Hj) Hx. pose proof (lookup_lt_Some _ _ _ Hx). unfold history_delete_at.
  rewrite Hc, (proj2 (Z.ltb_ge _ 0)), (proj2 (Z.leb_gt _ (Z.of_nat i))) by lia. cbn [orb].
  rewrite Nat2Z.id, Hj. set (f := fun e => Some (cstr e)).
  assert (Hm : map f es = map f (take i es) ++ f x :: map f (drop (S i) es))
    by (change (f x :: ?l) with (map f [x] ++ l); rewrite <- (take_drop_middle es i x Hx) at 1; by rewrite map_app).
  rewrite Hm, <- app_assoc. cbn [app].
  destruct (shift_down (map f (drop (S i) es)) (map f (take i es)) (f x) junk) as [y Hy].
  rewrite !length_map, length_take, length_drop, Nat.min_l in Hy by lia.
  replace (Z.to_nat (Z.of_nat (length es) - Z.of_nat i - 1)) with (length es - S i)%nat by lia.
  rewrite Hy. cbn [mbind option_bind]. eexists. split; [done|]. split; [|done]. split; [|split; [|split]].
  - apply Forall_app. split; [by apply Forall_take|by apply Forall_drop].
  - cbn. rewrite length_app, length_take, length_drop. lia.
  - cbn. rewrite <- Hl, Hj, !length_app. cbn [length]. rewrite !length_map, length_take, length_drop. lia.
  - cbn. exists (y :: junk). by rewrite map_app, <- app_assoc.
Qed.

(** ** Comparing *)

Lemma strcmp_cstr a b r r' : text_ok a -> text_ok b -> strcmp_eq (a ++ 0 :: r) (b ++ 0 :: r') = Some (bool_decide (a = b)).
Proof.
  intros Ha. revert b. induction Ha as [|x a Hx Ha IH]; intros b Hb.
  - destruct b as [|y b]; [by rewrite bool_decide_true by done|]. apply Forall_cons_1 in Hb as [Hy _]. cbn [app strcmp_eq].
    rewrite (proj2 (Z.eqb_neq 0 y)) by lia. by rewrite bool_decide_false by done.
  - destruct b as [|y b]; cbn [app strcmp_eq].
    { rewrite (proj2 (Z.eqb_neq x 0)) by done. by rewrite bool_decide_false by done. }
    apply Forall_cons_1 in Hb as [Hy Hb]. destruct (Z.eqb_spec x y) as [->|Hne].
    + rewrite (proj2 (Z.eqb_neq y 0)), IH by done. f_equal. apply bool_decide_ext. naive_solver.
    + rewrite bool_decide_false by naive_solver. done.
Qed.

Lemma filter_absent (e : bytes) (es : list bytes) : e ∉ es -> filter (fun x => x <> e) es = es.
Proof.
  induction es as [|x es IH]; intros H; [done|]. apply not_elem_of_cons in H as [Hx H].
  rewrite filter_cons_True by done. by rewrite IH.
Qed.

Lemma remove_duplicates_ok e r fuel h es i :
  hist_ok h es -> NoDup es -> text_ok e -> (length es - i < fuel)%nat ->
  exists h', remove_duplicates fuel h (e ++ 0 :: r) (Z.of_nat i) = Some h'
    /\ hist_ok h' (take i es ++ filter (fun x => x <> e) (drop i es))
    /\ h_len h' = h_len h /\ h_allow_duplicates h' = h_allow_duplicates h.
Proof.
  intros Hh Hnd He. revert h es i Hh Hnd. induction fuel as [|fuel IH]; intros h es i Hh Hnd Hf; [lia|]. cbn [remove_duplicates].
  pose proof Hh as (Ht & Hc & _ & junk & Hj). rewrite Hc.
  destruct (Z.ltb_spec (Z.of_nat i) (Z.of_nat (length es))).
  2:{ exists h. rewrite take_ge, drop_ge, app_nil_r by lia. done. }
  destruct (lookup_lt_is_Some_2 es i ltac:(lia)) as [x Hx]. rewrite Nat2Z.id.
  assert (Hl : h_elems h !! i = Some (Some (cstr x))).
  { rewrite Hj, lookup_app_l by (rewrite length_map; lia). rewrite list_lookup_fmap, Hx. done. }
  rewrite Hl. cbn [mjoin option_join mbind option_bind]. unfold cstr.
  rewrite strcmp_cstr by (done || by apply (Forall_lookup_1 _ _ _ _ Ht Hx)). cbn [mbind option_bind].
  rewrite (drop_S es x i Hx). replace (Z.of_nat i + 1) with (Z.of_nat (S i)) by lia. destruct (decide (x = e)) as [->|Hne].
  - rewrite bool_decide_true by done. destruct (delete_at_ok h es i e Hh Hx) as (h1 & -> & Hh1 & Hlen1 & Had1). cbn [mbind option_bind].
    assert (Hsub : es = take i es ++ e :: drop (S i) es) by (symmetry; by apply take_drop_middle).
    assert (Hnd1 : NoDup (take i es ++ drop (S i) es) /\ e ∉ take i es ++ drop (S i) es).
    { assert (Hp : NoDup (e :: take i es ++ drop (S i) es)) by (by rewrite Permutation_middle, <- Hsub).
      by inversion Hp. }
    destruct Hnd1 as [Hnd1 Hni].
    destruct (IH h1 _ (S i) Hh1 Hnd1) as (h' & -> & Hh' & Hlen' & Had').
    { rewrite length_app, length_take, length_drop. lia. }
    exists h'. split; [done|]. split; [|split; congruence]. revert Hh'.
    rewrite filter_absent by (intros Hin; apply Hni; rewrite <- (take_drop (S i)); apply elem_of_app; by right).
    rewrite take_drop, filter_cons_False by (intros ?; done). by rewrite filter_absent by (intros ?; apply Hni; apply elem_of_app; by right).
  - rewrite bool_decide_false by done. cbn [mbind option_bind].
    destruct (IH h es (S i) Hh Hnd ltac:(lia)) as (h' & -> & Hh' & Hrest).
    exists h'. split; [done|]. split; [|done]. rewrite filter_cons_True by done.
    rewrite (take_S_r es i x Hx), <- app_assoc in Hh'. done.
Qed.

(** ** Pushing *)

Section Push.
Context `{A : allocator, !allocator_ok A}.
Hypothesis Hmem : ~ exhausted.

Lemma realloc_total p n : 0 <= n -> exists b, realloc p n = Some b /\ Z.of_nat (length b) = n.
Proof.
  intros Hn. destruct (realloc p n) as [b|] eqn:E; [|destruct Hmem; by exists p, n].
  exists b. split; [done|]. apply realloc_size in E. lia.
Qed.

Lemma strdup_ok c r : text_ok c -> mem_strdup (Some (c ++ 0 :: r)) = Some (Some (cstr c)).
Proof.
  intros Hc. unfold mem_strdup. rewrite c_strlen_app by done. cbn [mbind option_bind].
  destruct (realloc_total None (Z.of_nat (length c) + 1) ltac:(lia)) as (b & -> & Hb). cbn [mbind option_bind]. f_equal.
  rewrite memcpy_ok by (rewrite ?length_app; cbn [length]; lia).
  replace (Z.to_nat (Z.of_nat (length c) + 1)) with (length (cstr c)) by (unfold cstr; rewrite length_app; cbn; lia).
  replace (c ++ 0 :: r) with (cstr c ++ r) by (unfold cstr; by rewrite <- app_assoc). rewrite take_app_length.
  change (Z.to_nat 0) with 0%nat. rewrite overlay_full; [done|]. unfold cstr. rewrite length_app. cbn [length]. lia.
Qed.

Lemma drop_oldest h es :
  hist_ok h es -> es <> [] -> exists h', history_delete_at h 0 = Some h' /\ hist_ok h' (tail es)
    /\ h_len h' = h_len h /\ h_allow_duplicates h' = h_allow_duplicates h.
Proof.
  intros Hh Hn. destruct es as [|e es]; [done|]. exact (delete_at_ok h (e :: es) 0 e Hh eq_refl).
Qed.

Lemma push_ok h es e r :
  hist_ok h es -> 0 < h_len h -> text_ok e -> (h_allow_duplicates h = false -> NoDup es) ->
  exists h', history_push h (Some (e ++ 0 :: r)) = Some (true, h')
    /\ hist_ok h' (hist_push (h_allow_duplicates h) (Z.to_nat (h_len h)) es e)
    /\ h_len h' = h_len h /\ h_allow_duplicates h' = h_allow_duplicates h.
Proof.
  intros Hh Hlen He Hnd. unfold history_push, hist_push. rewrite (proj2 (Z.leb_gt _ 0)) by lia.
  set (es1 := if h_allow_duplicates h then es else _).
  assert (H1 : exists h1, (if negb (h_allow_duplicates h) then remove_duplicates (S (Z.to_nat (h_count h))) h (e ++ 0 :: r) 0 else Some h)
    = Some h1 /\ hist_ok h1 es1 /\ h_len h1 = h_len h /\ h_allow_duplicates h1 = h_allow_duplicates h).
  { unfold es1. destruct (h_allow_duplicates h) eqn:Ed; cbn [negb]; [by exists h|].
    pose proof Hh as (_ & Hc & _). rewrite Hc, Nat2Z.id. rewrite <- Ed.
    destruct (remove_duplicates_ok e r (S (length es)) h es 0 Hh (Hnd eq_refl) He ltac:(lia)) as (h1 & H1). by exists h1. }
  destruct H1 as (h1 & -> & Hh1 & Hl1 & Had1). cbn [mbind option_bind]. pose proof Hh1 as (_ & Hc1 & Hel1 & _).
  set (es2 := if decide _ then tail es1 else es1).
  assert (H2 : exists h2, (if h_count h1 =? h_len h1 then history_delete_at h1 0 else Some h1) = Some h2 /\ hist_ok h2 es2
    /\ h_len h2 = h_len h /\ h_allow_duplicates h2 = h_allow_duplicates h /\ Z.of_nat (length es2) < h_len h).
  { unfold es2. destruct Hh1 as (Ht1 & _ & _ & junk & Hj1). assert (Z.of_nat (length es1) <= h_len h).
    { rewrite <- Hl1, <- Hel1, Hj1, length_app, length_map. lia. }
    rewrite Hc1, Hl1. destruct (Z.eqb_spec (Z.of_nat (length es1)) (h_len h)) as [Heq|Hne].
    - rewrite decide_True by lia. destruct (drop_oldest h1 es1) as (h2 & -> & Hh2 & Hl2 & Had2).
      { split; [done|]. split; [done|]. split; [done|]. by exists junk. }
      { destruct es1; [cbn in *; lia|done]. }
      exists h2. split; [done|]. split; [done|]. split; [congruence|]. split; [congruence|].
      destruct es1 as [|x es1]; cbn [tail length] in *; lia.
    - rewrite decide_False by lia. exists h1. split; [done|]. split; [|split; [done|split; [done|lia]]].
      split; [done|]. split; [done|]. split; [done|]. by exists junk. }
  destruct H2 as (h2 & -> & Hh2 & Hl2 & Had2 & Hroom). cbn [mbind option_bind]. rewrite strdup_ok by done. cbn [mbind option_bind].
  destruct Hh2 as (Ht2 & Hc2 & Hel2 & junk & Hj2). rewrite Hc2, (proj2 (Z.ltb_ge _ 0)), Nat2Z.id by lia.
  unfold store_at. rewrite (proj2 (Nat.ltb_lt _ _)) by lia. cbn [mbind option_bind]. eexists. split; [done|].
  assert (Hjl : junk <> []) by (intros ->; rewrite Hj2, app_nil_r, length_map in Hel2; lia).
  destruct junk as [|y junk]; [done|]. split; [|done]. split; [|split; [|split]].
  - apply Forall_app. split; [done|]. by constructor.
  - cbn. rewrite length_app. cbn. lia.
  - cbn. rewrite length_insert. congruence.
  - cbn. exists junk. rewrite Hj2. replace (length es2) with (length (map (fun e => Some (cstr e)) es2) + 0)%nat by (rewrite length_map; lia).
    rewrite insert_app_r. cbn [insert list_insert]. by rewrite map_app, <- app_assoc.
Qed.

Lemma hist_push_nodup dups len es e : (dups = false -> NoDup es) -> dups = false -> NoDup (hist_push dups len es e).
Proof.
  intros Hnd ->. unfold hist_push. specialize (Hnd eq_refl).
  assert (H : NoDup (filter (fun x => x <> e) es) /\ e ∉ filter (fun x => x <> e) es).
  { split; [by apply list.NoDup_filter|]. intros Hin. by apply list_elem_of_filter in Hin as [? _]. }
  destruct H as [H1 H2]. apply list.NoDup_app. destruct (decide _).
  - destruct (filter _ es) as [|x l]; [split; [constructor|]; split; [set_solver|apply NoDup_singleton]|].
    cbn [tail]. inversion H1; subst. split; [done|]. split; [set_solver|apply NoDup_singleton].
  - split; [done|]. split; [set_solver|apply NoDup_singleton].
Qed.
End Push.

(** ** The file *)

(** An entry as it is written. *)
Definition enc_char (c : Z) : bytes :=
  if c =? 92 then [92; 92]
  else if c =? 10 then [92; 110]
  else if c =? 13 then []
  else if c =? 9 then [92; 116]
  else if (s8 c <? 32) || (126 <? s8 c) || (c =? 35) then [92; 120; to_xdigit (c / 16); to_xdigit (c mod 16)]
  else [c].

Definition enc (e : bytes) : bytes := e ≫= enc_char.

Definition line (e : bytes) : bytes := match enc e with [] => [] | l => l ++ [10] end.

(** What comes back of it. *)
Definition strip_cr (e : bytes) : bytes := filter (fun c => c <> 13) e.

Definition kept (e : bytes) : Prop := strip_cr e <> [] /\ head (strip_cr e) <> Some 35.

#[export] Instance kept_dec e : Decision (kept e).
Proof. unfold kept. apply _. Defined.

Definition entry_ok (e : bytes) : Prop := Forall (fun c => 0 < c < 256) e.

Lemma entry_text e : entry_ok e -> text_ok e.
Proof. apply Forall_impl. lia. Qed.

Lemma xdigit_facts d : 0 <= d < 16 ->
  ic_isxdigit (to_xdigit d) = true /\ from_xdigit (to_xdigit d) = d /\ to_xdigit d <> 0.
Proof.
  intros Hd. assert (H : forallb (fun d => ic_isxdigit (to_xdigit d) && (from_xdigit (to_xdigit d) =? d) && negb (to_xdigit d =? 0)) (seqZ 0 16) = true)
    by (vm_compute; reflexivity).
  rewrite forallb_forall in H. specialize (H d). zbool. destruct H as [[H1 H2] H3]; [apply list_elem_of_In, elem_of_seqZ; lia|]. split; [exact H1|]. split; [by apply Z.eqb_eq|by apply Z.eqb_neq].
Qed.

(** Pushing an entry of the file, if it is kept. *)
Definition load_entry (dups : bool) (len : nat) (es : list bytes) (e : bytes) : list bytes :=
  if decide (kept e) then hist_push dups len es (strip_cr e) else es.

Section File.
Context `{A : allocator, !allocator_ok A}.
Hypothesis Hmem : ~ exhausted.

Lemma append_str_ok sb t s : sbuf_repr sb t -> text_ok (bytes_of_string s) ->
  exists sb', append_str sb s = Some sb' /\ sbuf_repr sb' (t ++ bytes_of_string s).
Proof.
  intros Hr Hs. destruct (append_edits sb t (bytes_of_string s) [] Hr Hs) as (sb' & Hrun & [Hr'|[Hx _]]); [|by destruct (Hmem Hx)].
  exists sb'. split; [exact Hrun|exact Hr'].
Qed.

Lemma append_char_ok sb t c : sbuf_repr sb t -> c <> 0 ->
  exists sb', append_char sb c = Some sb' /\ sbuf_repr sb' (t ++ [c]).
Proof.
  intros Hr Hc. destruct (append_edits sb t [c] [] Hr ltac:(by constructor)) as (sb' & Hrun & [Hr'|[Hx _]]); [|by destruct (Hmem Hx)].
  exists sb'. split; [exact Hrun|exact Hr'].
Qed.

Lemma write_char_ok sb t c : sbuf_repr sb t -> 0 < c < 256 ->
  exists sb', write_char sb c = Some sb' /\ sbuf_repr sb' (t ++ enc_char c).
Proof.
  intros Hr Hc. unfold write_char, enc_char. change (code "\") with 92. change (code "~") with 126. change (code "#") with 35.
  destruct (Z.eqb_spec c 92); [by apply (append_str_ok sb t "\\"); [|vm_compute; repeat constructor]|].
  destruct (Z.eqb_spec c 10); [by apply (append_str_ok sb t "\n"); [|vm_compute; repeat constructor]|].
  destruct (Z.eqb_spec c 13); [exists sb; by rewrite app_nil_r|].
  destruct (Z.eqb_spec c 9); [by apply (append_str_ok sb t "\t"); [|vm_compute; repeat constructor]|].
  destruct (_ || (c =? 35)); [|apply append_char_ok; [done|lia]].
  destruct (append_str_ok sb t "\x" Hr) as (sb1 & -> & Hr1); [vm_compute; by repeat constructor|]. cbn [mbind option_bind].
  destruct (xdigit_facts (c / 16)) as (_ & _ & Hd1); [Z.to_euclidean_division_equations; lia|].
  destruct (xdigit_facts (c mod 16)) as (_ & _ & Hd2); [apply Z.mod_pos_bound; lia|].
  destruct (append_char_ok sb1 _ _ Hr1 Hd1) as (sb2 & -> & Hr2). cbn [mbind option_bind].
  destruct (append_char_ok sb2 _ _ Hr2 Hd2) as (sb3 & -> & Hr3). exists sb3. split; [done|].
  rewrite <- !app_assoc in Hr3. exact Hr3.
Qed.

Lemma write_loop_ok e r : entry_ok e -> forall sb t, sbuf_repr sb t ->
  exists sb', write_loop sb (e ++ 0 :: r) = Some sb' /\ sbuf_repr sb' (t ++ enc e).
Proof.
  induction 1 as [|c e Hc He IH]; intros sb t Hr; [exists sb; by rewrite app_nil_r|]. cbn [app write_loop].
  rewrite (proj2 (Z.eqb_neq c 0)) by lia. destruct (write_char_ok sb t c Hr Hc) as (sb1 & -> & Hr1). cbn [mbind option_bind].
  destruct (IH sb1 _ Hr1) as (sb2 & -> & Hr2). exists sb2. split; [done|]. by rewrite <- app_assoc in Hr2.
Qed.

Lemma c_text_app t r : text_ok t -> c_text (t ++ 0 :: r) = Some t.
Proof. induction 1 as [|x t Hx Ht IH]; [done|]. cbn [app c_text]. by rewrite (proj2 (Z.eqb_neq x 0)), IH by done. Qed.

Lemma string_of_repr sb t : sbuf_repr sb t -> exists r, sbuf_string sb = Some (t ++ 0 :: r).
Proof.
  intros (_ & Hc & Hb). unfold sbuf_string, sbuf_string_at. rewrite Hc.
  rewrite (proj2 (Z.ltb_ge (Z.of_nat (length t)) 0)) by lia. cbn [orb Z.ltb Z.compare].
  destruct (sb_buf sb) as [b|]; [destruct Hb as (r & -> & _); by exists r|]. destruct Hb as [-> _]. by exists [].
Qed.

Lemma write_entry_ok e out sb t : entry_ok e -> sbuf_repr sb t ->
  exists sb' t', history_write_entry (Some (cstr e)) out sb = Some (out ++ line e, sb') /\ sbuf_repr sb' t'.
Proof.
  intros He Hr. unfold history_write_entry. destruct (clear_edits sb t Hr) as (sb1 & -> & Hr1). cbn [mbind option_bind].
  destruct (write_loop_ok e [] He sb1 [] Hr1) as (sb2 & Hw & Hr2). unfold cstr. rewrite Hw. cbn [mbind option_bind]. cbn [app] in Hr2.
  unfold sbuf_len, line. pose proof Hr2 as (Ht2 & Hc2 & _). rewrite Hc2. destruct (enc e) as [|x l] eqn:E.
  { exists sb2, []. rewrite app_nil_r. split; [done|exact Hr2]. }
  rewrite (proj2 (Z.ltb_lt 0 _)) by (cbn; lia). destruct (append_str_ok sb2 _ nl Hr2) as (sb3 & -> & Hr3); [vm_compute; by repeat constructor|].
  cbn [mbind option_bind]. destruct (string_of_repr _ _ Hr3) as (r & ->). cbn [mbind option_bind].
  rewrite c_text_app by (by destruct Hr3). by eexists _, _.
Qed.

Lemma save_loop_ok es : Forall entry_ok es -> forall out sb t, sbuf_repr sb t ->
  save_loop (map (fun e => Some (cstr e)) es) out sb = Some (out ++ (es ≫= line)).
Proof.
  induction 1 as [|e es He Hes IH]; intros out sb t Hr; [cbn; by rewrite app_nil_r|]. cbn [map save_loop].
  destruct (write_entry_ok e out sb t He Hr) as (sb' & t' & -> & Hr'). cbn [mbind option_bind].
  rewrite (IH _ _ _ Hr'). cbn [list_bind mbind]. by rewrite <- app_assoc.
Qed.

(** ** Reading it back *)

Ltac read_step := cbn [app read_loop fgetc snd];
  cbn -[append_str append_char to_xdigit from_xdigit ic_isxdigit Z.div Z.modulo u8 read_loop].

(** One character: one turn of the loop. *)
Lemma read_char_ok c f fuel sb t :
  0 < c < 256 -> c <> 13 -> sbuf_repr sb t ->
  exists sb', read_loop (S fuel) (enc_char c ++ f, false) sb = read_loop fuel (f, false) sb' /\ sbuf_repr sb' (t ++ [c]).
Proof.
  intros Hc H13 Hr. unfold enc_char. destruct (Z.eqb_spec c 92) as [->|H92].
  { destruct (append_str_ok sb t "\" Hr) as (sb1 & Hs & Hr1); [vm_compute; by repeat constructor|].
    exists sb1. split; [|exact Hr1]. read_step. by rewrite Hs. }
  destruct (Z.eqb_spec c 10) as [->|H10].
  { destruct (append_str_ok sb t nl Hr) as (sb1 & Hs & Hr1); [vm_compute; by repeat constructor|].
    exists sb1. split; [|exact Hr1]. read_step. by rewrite Hs. }
  rewrite (proj2 (Z.eqb_neq c 13)) by done. destruct (Z.eqb_spec c 9) as [->|H9].
  { destruct (append_str_ok sb t (String (chr 9) "") Hr) as (sb1 & Hs & Hr1); [vm_compute; by repeat constructor|].
    exists sb1. split; [|exact Hr1]. read_step. by rewrite Hs. }
  destruct (append_char_ok sb t c Hr ltac:(lia)) as (sb1 & Hs & Hr1). exists sb1. split; [|exact Hr1].
  destruct (_ || (c =? 35)).
  - destruct (xdigit_facts (c / 16)) as (X1 & F1 & _); [Z.to_euclidean_division_equations; lia|].
    destruct (xdigit_facts (c mod 16)) as (X2 & F2 & _); [apply Z.mod_pos_bound; lia|].
    read_step. rewrite X1, X2, F1, F2. cbn [andb].
    replace (c / 16 * 16 + c mod 16) with c by (pose proof (Z.div_mod c 16); lia).
    rewrite u8_small by lia. by rewrite Hs.
  - cbn [app read_loop fgetc snd]. unfold EOF. change (code "\") with 92.
    rewrite (proj2 (Z.eqb_neq c (-1))), (proj2 (Z.eqb_neq c 10)), (proj2 (Z.eqb_neq c 92)) by lia. cbn [orb].
    rewrite u8_small by lia. by rewrite Hs.
Qed.

Lemma strip_cons c e : strip_cr (c :: e) = if decide (c = 13) then strip_cr e else c :: strip_cr e.
Proof. unfold strip_cr. rewrite filter_cons. by destruct (decide (c = 13)), (decide (c <> 13)). Qed.

Lemma read_line_ok e rest : entry_ok e -> forall fuel sb t, sbuf_repr sb t -> (length (strip_cr e) < fuel)%nat ->
  exists sb', read_loop fuel (enc e ++ 10 :: rest, false) sb = Some (true, (rest, false), sb') /\ sbuf_repr sb' (t ++ strip_cr e).
Proof.
  induction 1 as [|c e Hc He IH]; intros fuel sb t Hr Hf.
  { destruct fuel as [|fuel]; [cbn in Hf; lia|]. exists sb. split; [done|]. by rewrite app_nil_r. }
  rewrite strip_cons in *. change (enc (c :: e)) with (enc_char c ++ enc e). rewrite <- app_assoc. destruct (decide (c = 13)) as [->|Hne].
  - change (enc_char 13) with (@nil Z). cbn [app]. apply IH; [done|lia].
  - cbn [length] in Hf. destruct fuel as [|fuel]; [lia|]. destruct (read_char_ok c (enc e ++ 10 :: rest) fuel sb t Hc Hne Hr) as (sb1 & -> & Hr1).
    destruct (IH fuel sb1 _ Hr1 ltac:(lia)) as (sb2 & -> & Hr2). exists sb2. split; [done|]. by rewrite <- app_assoc in Hr2.
Qed.

Lemma enc_nil e : entry_ok e -> (enc e = [] <-> strip_cr e = []).
Proof.
  induction 1 as [|c e Hc He IH]; [done|]. change (enc (c :: e)) with (enc_char c ++ enc e). rewrite strip_cons.
  destruct (decide (c = 13)) as [->|Hne]; [exact IH|]. split; [|done]. intros [H _]%app_nil. exfalso. revert H.
  unfold enc_char. rewrite (proj2 (Z.eqb_neq c 13)) by done. by repeat case_match.
Qed.

Lemma enc_length e : entry_ok e -> (length (strip_cr e) <= length (enc e))%nat.
Proof.
  induction 1 as [|c e Hc He IH]; [done|]. change (enc (c :: e)) with (enc_char c ++ enc e). rewrite strip_cons, length_app.
  destruct (decide (c = 13)) as [->|Hne]; [done|]. cbn [length]. enough (1 <= length (enc_char c))%nat by lia.
  unfold enc_char. rewrite (proj2 (Z.eqb_neq c 13)) by done. repeat case_match; cbn; lia.
Qed.

(** Reading what was written for an entry. *)
Lemma read_entry_ok h es e rest sb t :
  hist_ok h es -> 0 < h_len h -> (h_allow_duplicates h = false -> NoDup es) -> entry_ok e -> enc e <> [] -> sbuf_repr sb t ->
  exists h' sb' t', history_read_entry h (enc e ++ 10 :: rest, false) sb = Some (true, h', (rest, false), sb') /\ sbuf_repr sb' t'
    /\ hist_ok h' (load_entry (h_allow_duplicates h) (Z.to_nat (h_len h)) es e)
    /\ h_len h' = h_len h /\ h_allow_duplicates h' = h_allow_duplicates h.
Proof.
  intros Hh Hl Hnd He Hne Hr. unfold history_read_entry. destruct (clear_edits sb t Hr) as (sb1 & -> & Hr1). cbn [mbind option_bind fst].
  pose proof (enc_length e He). destruct (read_line_ok e rest He (S (S (length (enc e ++ 10 :: rest)))) sb1 [] Hr1) as (sb2 & -> & Hr2).
  { rewrite length_app. lia. }
  cbn [mbind option_bind negb app] in *. unfold load_entry. rewrite (enc_nil e He) in Hne. pose proof Hr2 as (Ht2 & Hc2 & _).
  unfold sbuf_len. rewrite Hc2. destruct (strip_cr e) as [|x l] eqn:Es; [done|]. rewrite (proj2 (Z.eqb_neq _ 0)) by (cbn; lia).
  destruct (string_of_repr sb2 _ Hr2) as (r & ->). cbn [mbind option_bind app lookup list_lookup]. change (code "#") with 35.
  destruct (Z.eqb_spec x 35) as [->|Hx].
  - rewrite decide_False by (unfold kept; rewrite Es; by intros [_ ?]). by exists h, sb2, (35 :: l).
  - rewrite decide_True by (unfold kept; rewrite Es; cbn; split; congruence).
    destruct (push_ok Hmem h es (x :: l) r Hh Hl Ht2 Hnd) as (h' & Hp & Hh' & ? & ?). cbn [app] in Hp. rewrite Hp. cbn [mbind option_bind].
    by exists h', sb2, (x :: l).
Qed.

Lemma load_entry_nodup dups len es e : (dups = false -> NoDup es) -> dups = false -> NoDup (load_entry dups len es e).
Proof. intros Hnd Hd. unfold load_entry. destruct (decide (kept e)); [by apply hist_push_nodup|by apply Hnd]. Qed.

Lemma kept_enc e : entry_ok e -> kept e -> enc e <> [].
Proof. intros He [Hk _] H. by apply enc_nil in H. Qed.

Lemma load_loop_ok ws : Forall entry_ok ws -> forall fuel h es sb t,
  hist_ok h es -> 0 < h_len h -> (h_allow_duplicates h = false -> NoDup es) -> sbuf_repr sb t -> (length (ws ≫= line) + 1 < fuel)%nat ->
  exists h', load_loop fuel h (ws ≫= line, false) sb = Some h'
    /\ hist_ok h' (foldl (load_entry (h_allow_duplicates h) (Z.to_nat (h_len h))) es ws)
    /\ h_len h' = h_len h /\ h_allow_duplicates h' = h_allow_duplicates h.
Proof.
  induction 1 as [|e ws He Hws IH]; intros fuel h es sb t Hh Hl Hnd Hr Hf.
  { destruct fuel as [|[|fuel]]; [cbn in Hf; lia..|]. cbn [load_loop snd]. unfold history_read_entry.
    destruct (clear_edits sb t Hr) as (sb1 & -> & Hr1). cbn. unfold sbuf_len. destruct Hr1 as (_ & -> & _). cbn. by exists h. }
  change ((e :: ws) ≫= line) with (line e ++ (ws ≫= line)) in *. rewrite length_app in Hf. unfold line at 1 in Hf. unfold line at 1.
  destruct (enc e) as [|x l] eqn:E.
  { cbn [app]. destruct (IH fuel h es sb t Hh Hl Hnd Hr ltac:(cbn [length] in Hf; lia)) as (h' & -> & Hh' & Hrest). exists h'. split; [done|].
    split; [|done]. cbn [foldl]. unfold load_entry at 2. rewrite decide_False; [done|]. intros Hk. by apply (kept_enc e He Hk). }
  rewrite length_app in Hf. cbn [length] in Hf. destruct fuel as [|fuel]; [lia|]. cbn [load_loop snd]. rewrite <- E.
  destruct (read_entry_ok h es e (ws ≫= line) sb t Hh Hl Hnd He ltac:(by rewrite E) Hr) as (h1 & sb1 & t1 & H1 & Hr1 & Hh1 & Hl1 & Had1).
  rewrite <- app_assoc. cbn [app]. rewrite H1. cbn [mbind option_bind].
  destruct (IH fuel h1 _ sb1 t1 Hh1 ltac:(lia)) as (h' & -> & Hh' & Hl' & Had'); [|done|lia|].
  { rewrite Had1. intros Hd. by apply load_entry_nodup. }
  exists h'. split; [done|]. rewrite Hl1, Had1 in Hh'. split; [exact Hh'|]. split; congruence.
Qed.

(** Entries that the file keeps, that are all different and for which there is room. *)
Lemma load_all dups len ws : forall es,
  Forall (fun e => kept e /\ strip_cr e = e) ws -> NoDup (es ++ ws) -> (length (es ++ ws) <= len)%nat ->
  foldl (load_entry dups len) es ws = es ++ ws.
Proof.
  induction ws as [|e ws IH]; intros es Hk Hnd Hl; [by rewrite app_nil_r|]. apply Forall_cons_1 in Hk as [[Hk Hs] Hks]. cbn [foldl].
  assert (He : load_entry dups len es e = es ++ [e]).
  { unfold load_entry. rewrite decide_True by done. rewrite Hs. unfold hist_push. rewrite filter_absent.
    - rewrite length_app in Hl. cbn in Hl. destruct dups; by rewrite decide_False by lia.
    - apply list.NoDup_app in Hnd as (_ & Hd & _). intros Hin. apply (Hd e Hin). by left. }
  rewrite He, IH; rewrite <- ?app_assoc; done.
Qed.

(** C22: The history file: what [history_save] writes (nothing when the history has
    no file name), [history_load_from] reads back, entry for entry and in order, with carriage returns removed; an entry that is empty
    without them, or that starts with a hash sign, does not come back.  When no entry is
    of that kind, they are different and there is room, the history is the same. *)
Theorem history_file_roundtrip h ws fname max dups :
  hist_ok h ws -> Forall entry_ok ws -> text_ok fname -> 0 < max <= IC_MAX_HISTORY ->
  exists content h', history_save h = Some (match h_fname h with None => None | Some _ => Some content end)
    /\ history_load_from (snd (history_enable_duplicates history_new dups)) (Some (cstr fname)) max (Some content) = Some h'
    /\ hist_ok h' (foldl (load_entry dups (Z.to_nat max)) [] ws)
    /\ (Forall (fun e => kept e /\ strip_cr e = e) ws -> NoDup ws -> Z.of_nat (length ws) <= max ->
        hist_ok h' ws).
Proof.
  intros (Ht & Hc & Hel & junk & Hj) Hws Hfn Hmax. exists (ws ≫= line).
  assert (Hnew : exists sb, sbuf_new = Some sb /\ sbuf_repr sb []).
  { unfold sbuf_new. destruct (realloc_total Hmem None 16 ltac:(lia)) as (b & -> & _). cbn [mbind option_bind].
    exists sbuf_init. split; [done|]. split; [constructor|done]. }
  destruct Hnew as (sb & Hsb & Hr).
  assert (Hsave : history_save h = Some (match h_fname h with None => None | Some _ => Some (ws ≫= line) end)).
  { unfold history_save. destruct (h_fname h); [|done]. rewrite Hsb, Hc, Hj, Nat2Z.id.
    rewrite <- (length_map (fun e => Some (cstr e)) ws), take_app_length. by rewrite (save_loop_ok ws Hws [] sb [] Hr). }
  unfold history_load_from. cbn [history_enable_duplicates history_new snd history_clear h_count history_remove_last_n Z.leb Z.compare].
  unfold cstr. rewrite (strdup_ok Hmem) by done. cbn [mbind option_bind h_count h_len h_elems h_fname h_allow_duplicates].
  rewrite (proj2 (Z.eqb_neq max 0)), (proj2 (Z.ltb_ge max 0)), (proj2 (Z.ltb_ge _ max)) by lia. cbn [orb].
  destruct (realloc_total Hmem None (max * 4) ltac:(lia)) as (b & -> & _). cbn [history_load h_fname]. rewrite Hsb.
  set (h0 := History _ _ _ _ _).
  assert (Hh0 : hist_ok h0 []).
  { split; [constructor|]. split; [done|]. split; [cbn; rewrite length_replicate; lia|]. by eexists. }
  destruct (load_loop_ok ws Hws (S (S (length (ws ≫= line)))) h0 [] sb [] Hh0) as (h' & Hload & Hh' & _);
    [cbn; lia|intros _; constructor|done|lia|].
  exists h'. split; [done|]. split; [exact Hload|]. split; [exact Hh'|].
  intros Hk Hnd Hl. cbn [h0 h_len h_allow_duplicates] in Hh'. rewrite load_all in Hh'; [done|done|done|cbn; lia].
Qed.
End File.

Definition sample_lines : list bytes := [bytes_of_string "ls /sys"; bytes_of_string "# note"; bytes_of_string "csleep 1"].

Definition sample_history : history :=
  History 3 4 (map (fun e => Some (cstr e)) sample_lines ++ [None]) (Some (bytes_of_string "hist" ++ [0])) false.

Lemma history_file_roundtrip_witness :
  exists content h', history_save sample_history = Some (Some content)
    /\ history_load_from history_new (Some (cstr (bytes_of_string "h"))) 200 (Some content) = Some h'
    /\ hist_ok h' [bytes_of_string "ls /sys"; bytes_of_string "csleep 1"].
Proof.
  destruct (history_file_roundtrip heap_lasts sample_history sample_lines (bytes_of_string "h") 200 false)
    as (content & h' & Hs & Hl & Hh & _).
  - split; [vm_compute; by repeat constructor|]. split; [done|]. split; [done|]. by exists [None].
  - vm_compute. by repeat constructor.
  - vm_compute. by repeat constructor.
  - unfold IC_MAX_HISTORY. lia.
  - exists content, h'. split; [exact Hs|]. split; [exact Hl|]. revert Hh. vm_compute (foldl _ _ _). exact (fun x => x).
Defined.



(** The loop that removes duplicates skips the entry after a removed one: with
    two equal entries in a row, one of them stays. *)
Theorem adjacent_duplicate_stays :
  let e := cstr (bytes_of_string "ls") in
  snd <$> history_push (History 2 4 [Some e; Some e; None; None] None false) (Some e)
  = Some (History 2 4 [Some e; Some e; None; None] None false).
Proof. by vm_compute. Qed.

(** The undo stack: a captured state is restored, the last one first. *)
Theorem editstate_lifo `{A : allocator, !allocator_ok A} es t pos r :
  ~ exhausted -> text_ok t ->
  exists es', editstate_capture es (Some (t ++ 0 :: r)) pos = Some es'
    /\ editstate_restore es' = (Some (cstr t, pos), es).
Proof.
  intros Hmem Ht. unfold editstate_capture. destruct (realloc_total Hmem None 12 ltac:(lia)) as (b & -> & _). cbn [default from_option id].
  rewrite strdup_ok by done. cbn [mbind option_bind]. by eexists.
Qed.
