(* ===== verification/Tty.v ===== *)
(** deps/isocline/src/tty.h, tty.c and tty_esc.c: the keyboard of the line editor.

    A key is a 32-bit code: a code point, a virtual key or an event, with
    modifiers in the top bits.  Bytes come from the push-back buffer of the
    terminal or from the operating system, whose answers to one read are a
    [wait]; [env] gives them in the order they are asked for.  The operations are
    a state monad over the terminal; [None] is an access outside one of the two
    buffers or fuel that ran out (assertions are compiled out by the makefile). *)
From S2P Require Import Prelude CLib Unicode Stringbuf.

(** ** Key codes *)

Definition KEY_MOD_SHIFT : Z := 0x10000000.
Definition KEY_MOD_ALT : Z := 0x20000000.
Definition KEY_MOD_CTRL : Z := 0x40000000.
Definition KEY_NO_MODS (k : Z) : Z := k .& 0x0FFFFFFF.
Definition KEY_MODS (k : Z) : Z := k .& 0xF0000000.
Definition WITH_SHIFT (x : Z) : Z := x .| KEY_MOD_SHIFT.
Definition WITH_ALT (x : Z) : Z := x .| KEY_MOD_ALT.
Definition WITH_CTRL (x : Z) : Z := x .| KEY_MOD_CTRL.

Definition KEY_NONE : Z := 0.
Definition KEY_CTRL_A : Z := 1.
Definition KEY_CTRL_B : Z := 2.
Definition KEY_CTRL_C : Z := 3.
Definition KEY_CTRL_D : Z := 4.
Definition KEY_CTRL_E : Z := 5.
Definition KEY_CTRL_F : Z := 6.
Definition KEY_BELL : Z := 7.
Definition KEY_BACKSP : Z := 8.
Definition KEY_TAB : Z := 9.
Definition KEY_LINEFEED : Z := 10.
Definition KEY_CTRL_K : Z := 11.
Definition KEY_CTRL_L : Z := 12.
Definition KEY_ENTER : Z := 13.
Definition KEY_CTRL_N : Z := 14.
Definition KEY_CTRL_P : Z := 16.
Definition KEY_CTRL_R : Z := 18.
Definition KEY_CTRL_S : Z := 19.
Definition KEY_CTRL_T : Z := 20.
Definition KEY_CTRL_U : Z := 21.
Definition KEY_CTRL_W : Z := 23.
Definition KEY_CTRL_Y : Z := 25.
Definition KEY_CTRL_Z : Z := 26.
Definition KEY_ESC : Z := 27.
Definition KEY_SPACE : Z := 32.
Definition KEY_RUBOUT : Z := 127.
Definition KEY_UNICODE_MAX : Z := 0x10FFFF.

Definition KEY_VIRT : Z := 0x01000000.
Definition KEY_UP : Z := KEY_VIRT + 0.
Definition KEY_DOWN : Z := KEY_VIRT + 1.
Definition KEY_LEFT : Z := KEY_VIRT + 2.
Definition KEY_RIGHT : Z := KEY_VIRT + 3.
Definition KEY_HOME : Z := KEY_VIRT + 4.
Definition KEY_END : Z := KEY_VIRT + 5.
Definition KEY_DEL : Z := KEY_VIRT + 6.
Definition KEY_PAGEUP : Z := KEY_VIRT + 7.
Definition KEY_PAGEDOWN : Z := KEY_VIRT + 8.
Definition KEY_INS : Z := KEY_VIRT + 9.
Definition KEY_F (n : Z) : Z := KEY_VIRT + 11 + n - 1.

Definition KEY_EVENT_BASE : Z := 0x02000000.
Definition KEY_EVENT_RESIZE : Z := KEY_EVENT_BASE + 1.
Definition KEY_EVENT_AUTOTAB : Z := KEY_EVENT_BASE + 2.
Definition KEY_EVENT_STOP : Z := KEY_EVENT_BASE + 3.
Definition KEY_SHIFT_TAB : Z := WITH_SHIFT KEY_TAB.

(** The character, where the code is one. *)
Definition code_is_ascii_char (c : Z) : option Z := if (32 <=? c) && (c <=? 0x7F) then Some c else None.
Definition code_is_unicode (c : Z) : option Z := if c <=? KEY_UNICODE_MAX then Some c else None.
Definition code_is_virt_key (c : Z) : bool := (KEY_NO_MODS c <=? 0x20) || (KEY_VIRT <=? KEY_NO_MODS c).

(** Keys that terminals report differently become one code. *)
Definition modify_code (code : Z) : Z :=
  let key := KEY_NO_MODS code in
  let mods := KEY_MODS code in
  let '(key, code) :=
    if key =? KEY_RUBOUT then (key, KEY_BACKSP .| mods)
    else if (key =? 0x1F) && (mods .& KEY_MOD_ALT =? 0) then (95, WITH_CTRL 95)
    else if (key =? KEY_ENTER) && ((mods =? KEY_MOD_SHIFT) || (mods =? KEY_MOD_ALT) || (mods =? KEY_MOD_CTRL))
      then (key, KEY_LINEFEED)
    else if code =? WITH_CTRL KEY_TAB then (key, KEY_SHIFT_TAB)
    else if (code =? WITH_ALT KEY_DOWN) || (code =? WITH_ALT 62) || (code =? WITH_CTRL KEY_END) then (key, KEY_PAGEDOWN)
    else if (code =? WITH_ALT KEY_UP) || (code =? WITH_ALT 60) || (code =? WITH_CTRL KEY_HOME) then (key, KEY_PAGEUP)
    else (key, code) in
  if (key <? 32) && negb (mods .& KEY_MOD_CTRL =? 0) then code .& 0xBFFFFFFF else code.

(** ** The terminal *)

Definition TTY_PUSH_MAX : Z := 32.

Record tty := Tty {
  raw_enabled : bool; is_utf8 : bool; has_term_resize_event : bool; term_resize_event : bool;
  pushbuf : list Z; push_count : Z; cpushbuf : bytes; cpush_count : Z;
  esc_initial_timeout : Z; esc_timeout : Z;
  waits : nat (** the reads asked of the system so far *)
}.

Definition set_push (t : tty) (buf : list Z) (count : Z) : tty :=
  Tty (raw_enabled t) (is_utf8 t) (has_term_resize_event t) (term_resize_event t) buf count (cpushbuf t) (cpush_count t)
    (esc_initial_timeout t) (esc_timeout t) (waits t).
Definition set_cpush (t : tty) (buf : bytes) (count : Z) : tty :=
  Tty (raw_enabled t) (is_utf8 t) (has_term_resize_event t) (term_resize_event t) (pushbuf t) (push_count t) buf count
    (esc_initial_timeout t) (esc_timeout t) (waits t).
Definition set_raw (t : tty) (raw : bool) : tty :=
  Tty raw (is_utf8 t) (has_term_resize_event t) (term_resize_event t) (pushbuf t) (push_count t) (cpushbuf t) (cpush_count t)
    (esc_initial_timeout t) (esc_timeout t) (waits t).
Definition set_resize (t : tty) (event : bool) : tty :=
  Tty (raw_enabled t) (is_utf8 t) (has_term_resize_event t) event (pushbuf t) (push_count t) (cpushbuf t) (cpush_count t)
    (esc_initial_timeout t) (esc_timeout t) (waits t).
Definition asked (t : tty) : tty :=
  Tty (raw_enabled t) (is_utf8 t) (has_term_resize_event t) (term_resize_event t) (pushbuf t) (push_count t) (cpushbuf t)
    (cpush_count t) (esc_initial_timeout t) (esc_timeout t) (S (waits t)).

(** [mem_zalloc] and the initial timeouts; [fd_in] is part of the environment. *)
Definition tty_new (utf8 resize_events : bool) : tty :=
  Tty false utf8 resize_events false (replicate 32 0) 0 (replicate 32 0) 0 100 10 0.

Definition tty_term_resize_event (t : tty) : bool * tty :=
  if has_term_resize_event t then if negb (term_resize_event t) then (false, t) else (true, set_resize t false) else (true, t).

Definition clamp_delay (ms : Z) : Z := if ms <? 0 then 0 else if 1000 <? ms then 1000 else ms.
Definition tty_set_esc_delay (t : tty) (initial_delay_ms followup_delay_ms : Z) : tty :=
  Tty (raw_enabled t) (is_utf8 t) (has_term_resize_event t) (term_resize_event t) (pushbuf t) (push_count t) (cpushbuf t)
    (cpush_count t) (clamp_delay initial_delay_ms) (clamp_delay followup_delay_ms) (waits t).

(** [tcsetattr_ok]: the system accepts the new settings. *)
Definition tty_start_raw (t : tty) (tcsetattr_ok : bool) : bool * tty :=
  if raw_enabled t then (true, t) else if negb tcsetattr_ok then (false, t) else (true, set_raw t true).
Definition tty_end_raw (t : tty) (tcsetattr_ok : bool) : tty :=
  if negb (raw_enabled t) then t
  else let t := set_cpush t (cpushbuf t) 0 in if negb tcsetattr_ok then t else set_raw t false.

(** The first two statements of [sig_handler], by signal. *)
Definition sig_handler (t : tty) (sigwinch : bool) : tty :=
  if sigwinch then set_resize t true else if raw_enabled t then set_raw t false else t.

(** ** The monad *)

Definition tty_m (A : Type) : Type := tty -> option (A * tty).
#[export] Instance tty_ret : MRet tty_m := fun _ a t => Some (a, t).
#[export] Instance tty_bind : MBind tty_m := fun _ _ k m t => '(a, t) ← m t; k a t.

Definition lift {A} (o : option A) : tty_m A := fun t => a ← o; Some (a, t).
Definition gets {A} (f : tty -> A) : tty_m A := fun t => Some (f t, t).

Definition modify (f : tty -> tty) : tty_m unit := fun t => Some (tt, f t).

Lemma bind_unfold {A B} (m : tty_m A) (k : A -> tty_m B) t :
  (m ≫= k) t = match m t with Some (a, t') => k a t' | None => None end.
Proof. unfold mbind at 1, tty_bind. by destruct (m t) as [[]|]. Qed.

(** ** Push-back buffers *)

Definition tty_code_pop (code : Z) : tty_m (bool * Z) := fun t =>
  if push_count t <=? 0 then Some ((false, code), t)
  else
    code ← pushbuf t !! Z.to_nat (push_count t - 1);
    Some ((true, code), set_push t (pushbuf t) (push_count t - 1)).

Definition tty_code_pushback (c : Z) : tty_m unit := fun t =>
  if TTY_PUSH_MAX <=? push_count t then Some (tt, t)
  else
    buf ← poke (pushbuf t) (push_count t) c;
    Some (tt, set_push t buf (push_count t + 1)).

(** The flag and [*c], unchanged when there is nothing to pop. *)
Definition tty_cpop (c : Z) : tty_m (bool * Z) := fun t =>
  if cpush_count t <=? 0 then Some ((false, c), t)
  else
    c ← cpushbuf t !! Z.to_nat (cpush_count t - 1);
    Some ((true, c), set_cpush t (cpushbuf t) (cpush_count t - 1)).

Definition cpush_step (s : bytes) (len count : Z) (i : nat) (buf : bytes) : option bytes :=
  c ← s !! Z.to_nat (len - Z.of_nat i - 1); poke buf (count + Z.of_nat i) c.

(** The guard tests [push_count], the count of the other buffer. *)
Definition tty_cpush (s : bytes) : tty_m unit := fun t =>
  len ← c_strlen s;
  if TTY_PUSH_MAX <? push_count t + len then Some (tt, t)
  else
    buf ← ofold (cpush_step s len (cpush_count t)) 0 (Z.to_nat len) (cpushbuf t);
    Some (tt, set_cpush t buf (cpush_count t + len)).

(** [vsnprintf] into [TTY_PUSH_MAX] bytes. *)
Definition tty_cpushf (text : bytes) : tty_m unit := tty_cpush (take 31 text ++ [0]).

Definition tty_cpush_char (c : Z) : tty_m unit := tty_cpush [c; 0].

Definition csi_mods (mods : Z) : Z :=
  1 + (if mods .& KEY_MOD_SHIFT =? 0 then 0 else 1) + (if mods .& KEY_MOD_ALT =? 0 then 0 else 2)
    + (if mods .& KEY_MOD_CTRL =? 0 then 0 else 4).

Definition number (n : Z) : bytes := bytes_of_string (fmt_u n).

Definition tty_cpush_csi_vt (mods vtcode : Z) : tty_m unit :=
  tty_cpushf ([27; 91] ++ number vtcode ++ [59] ++ number (csi_mods mods) ++ [126]).

Definition tty_cpush_csi_xterm (mods xcode : Z) : tty_m unit :=
  tty_cpushf ([27; 91; 49; 59] ++ number (csi_mods mods) ++ [xcode]).

Definition tty_cpush_csi_unicode (mods unicode : Z) : tty_m unit :=
  if ((unicode <? 0x80) && (mods =? 0))
     || ((mods =? KEY_MOD_CTRL) && (unicode <? 32) && negb (unicode =? KEY_TAB) && negb (unicode =? KEY_ENTER)
         && negb (unicode =? KEY_LINEFEED) && negb (unicode =? KEY_BACKSP))
     || ((mods =? KEY_MOD_SHIFT) && (32 <=? unicode) && (unicode <=? KEY_RUBOUT))
  then tty_cpush_char (u8 unicode)
  else tty_cpushf ([27; 91] ++ number unicode ++ [59] ++ number (csi_mods mods) ++ [117]).

(** deps/isocline/src/tty.c and tty_esc.c: reading a key.

    The bytes of one key press are put together again: UTF-8 sequences, and the
    escape sequences of the terminal families the table at the top of tty_esc.c
    describes. *)

(** What the system answers during one read: the number of bytes [FIONREAD]
    reports ([None] when the call fails), the result of [select], and the byte
    [read] returns ([None] when it does not return one). *)
Record wait := Wait { w_fionread : option Z; w_select : Z; w_read : option Z }.

Section Read.
Context (env : nat -> wait).

(** ** Bytes *)

(** [w] is the answer of the system; [*c] is cleared before [read]. *)
Definition tty_readc_blocking (w : wait) (c : Z) : tty_m (bool * Z) :=
  '(ok, c) ← tty_cpop c;
  if (ok : bool) then mret (true, c)
  else match w_read w with Some b => mret (true, b) | None => mret (false, 0) end.

Definition next_wait : tty_m wait := fun t => Some (env (waits t), asked t).

Definition tty_readc_noblock (c timeout_ms : Z) : tty_m (bool * Z) :=
  '(ok, c) ← tty_cpop c;
  if (ok : bool) then mret (true, c)
  else
    w ← next_wait;
    if timeout_ms <? 0 then tty_readc_blocking w c
    else
      let select := if w_select w =? 1 then tty_readc_blocking w c else mret (false, c) in
      match w_fionread w with
      | Some navail =>
          if 1 <=? navail then tty_readc_blocking w c else if timeout_ms =? 0 then mret (false, c) else select
      | None => select
      end.

(** ** Escape sequences *)

Definition esc_decode_vt (vt_code : Z) : Z :=
  match vt_code with
  | 1 => KEY_HOME
  | 2 => KEY_INS
  | 3 => KEY_DEL
  | 4 => KEY_END
  | 5 => KEY_PAGEUP
  | 6 => KEY_PAGEDOWN
  | 7 => KEY_HOME
  | 8 => KEY_END
  | _ =>
      if (10 <=? vt_code) && (vt_code <=? 15) then KEY_F (1 + (vt_code - 10))
      else if vt_code =? 16 then KEY_F 5
      else if (17 <=? vt_code) && (vt_code <=? 21) then KEY_F (6 + (vt_code - 17))
      else if (23 <=? vt_code) && (vt_code <=? 26) then KEY_F (11 + (vt_code - 23))
      else if (28 <=? vt_code) && (vt_code <=? 29) then KEY_F (15 + (vt_code - 28))
      else if (31 <=? vt_code) && (vt_code <=? 34) then KEY_F (17 + (vt_code - 31))
      else KEY_NONE
  end.

Definition esc_decode_xterm (xcode : Z) : Z :=
  match chr xcode with
  | "A" => KEY_UP
  | "B" => KEY_DOWN
  | "C" => KEY_RIGHT
  | "D" => KEY_LEFT
  | "E" => 53
  | "F" => KEY_END
  | "H" => KEY_HOME
  | "Z" => KEY_TAB .| KEY_MOD_SHIFT
  | "I" => KEY_PAGEUP
  | "L" => KEY_INS
  | "M" => KEY_F 1
  | "N" => KEY_F 2
  | "O" => KEY_F 3
  | "P" => KEY_F 4
  | "Q" => KEY_F 5
  | "R" => KEY_F 6
  | "S" => KEY_F 7
  | "T" => KEY_F 8
  | "U" => KEY_PAGEDOWN
  | "V" => KEY_PAGEUP
  | "W" => KEY_F 11
  | "X" => KEY_F 12
  | "Y" => KEY_END
  | _ => KEY_NONE
  end%char.

Definition esc_decode_ss3 (ss3_code : Z) : Z :=
  match chr ss3_code with
  | "A" => KEY_UP
  | "B" => KEY_DOWN
  | "C" => KEY_RIGHT
  | "D" => KEY_LEFT
  | "E" => 53
  | "F" => KEY_END
  | "H" => KEY_HOME
  | "I" => KEY_TAB
  | "Z" => KEY_TAB .| KEY_MOD_SHIFT
  | "M" => KEY_LINEFEED
  | "P" => KEY_F 1
  | "Q" => KEY_F 2
  | "R" => KEY_F 3
  | "S" => KEY_F 4
  | "T" => KEY_F 5
  | "U" => KEY_F 6
  | "V" => KEY_F 7
  | "W" => KEY_F 8
  | "X" => KEY_F 9
  | "Y" => KEY_F 10
  | "a" => KEY_UP
  | "b" => KEY_DOWN
  | "c" => KEY_RIGHT
  | "d" => KEY_LEFT
  | "j" => code "*"
  | "k" => code "+"
  | "l" => code ","
  | "m" => code "-"
  | "n" => KEY_DEL
  | "o" => code "/"
  | "p" => KEY_INS
  | "q" => KEY_END
  | "r" => KEY_DOWN
  | "s" => KEY_PAGEDOWN
  | "t" => KEY_LEFT
  | "u" => 53
  | "v" => KEY_RIGHT
  | "w" => KEY_HOME
  | "x" => KEY_UP
  | "y" => KEY_PAGEUP
  | _ => KEY_NONE
  end%char.

(** The loop of [tty_read_csi_num], at most [more] more digits; the number of
    digits, their value and the byte after them.  A digit after which nothing
    comes is not counted. *)
Fixpoint csi_digits (more : nat) (esc_timeout count i peek : Z) : tty_m (Z * Z * Z) :=
  match more with
  | O => mret (count, i, peek)
  | S more =>
      if (48 <=? peek) && (peek <=? 57) then
        '(ok, next) ← tty_readc_noblock peek esc_timeout;
        if (ok : bool) then csi_digits more esc_timeout (count + 1) (u32 (10 * i + (peek - 48))) next
        else mret (count, i, next)
      else mret (count, i, peek)
  end.

(** The number, 1 by default, and the byte after it. *)
Definition tty_read_csi_num (peek esc_timeout : Z) : tty_m (Z * Z) :=
  '(count, i, peek) ← csi_digits 16 esc_timeout 0 0 peek;
  mret (if 0 <? count then i else 1, peek).

(** The translation of a parsed sequence: the special cases of rxvt, Mach, Eterm
    and Haiku made regular, the modifiers of the second parameter, the tables. *)
Definition csi_code (c1 num1 num2 final mods0 : Z) : Z :=
  let '(num1, final, modifiers) :=
    if ((final =? code "@") || (final =? code "9")) && (c1 =? code "[") && (num1 =? 1) then
      (if final =? code "@" then 3 else 2, code "~", mods0)
    else if (final =? code "^") || (final =? code "$") || (final =? code "@") then
      let m := if final =? code "^" then mods0 .| KEY_MOD_CTRL else mods0 in
      let m := if final =? code "$" then m .| KEY_MOD_SHIFT else m in
      let m := if final =? code "@" then m .| (KEY_MOD_SHIFT .| KEY_MOD_CTRL) else m in
      (num1, code "~", m)
    else if (c1 =? code "[") && (code "a" <=? final) && (final <=? code "d") then
      (num1, code "A" + (final - code "a"), mods0 .| KEY_MOD_SHIFT)
    else (num1, final, mods0) in
  let '(num1, num2) :=
    if ((c1 =? code "O") || ((c1 =? code "[") && negb (final =? code "~") && negb (final =? code "u")))
       && ((num2 =? 1) && (1 <? num1) && (num1 <=? 8))
    then (1, num1) else (num1, num2) in
  let modifiers :=
    if (1 <? num2) && (num2 <=? 9) then
      let n := (if num2 =? 9 then 3 else num2) - 1 in
      let m := if n .& 1 =? 0 then modifiers else modifiers .| KEY_MOD_SHIFT in
      let m := if n .& 2 =? 0 then m else m .| KEY_MOD_ALT in
      if n .& 4 =? 0 then m else m .| KEY_MOD_CTRL
    else modifiers in
  let key :=
    if final =? code "~" then esc_decode_vt num1
    else if (c1 =? code "[") && (final =? code "u") then num1
    else if (c1 =? code "O") && (((code "A" <=? final) && (final <=? code "Z")) || ((code "a" <=? final) && (final <=? code "z")))
      then esc_decode_ss3 final
    else if (num1 =? 1) && (code "A" <=? final) && (final <=? code "Z") then esc_decode_xterm final
    else KEY_NONE in
  if negb (key =? KEY_NONE) then key .| modifiers else KEY_NONE.

(** The second parameter, where there is one; [None]: nothing comes after ';'. *)
Definition csi_second (peek esc_timeout : Z) : tty_m (option (Z * Z)) :=
  if peek =? code ";" then
    '(ok, peek) ← tty_readc_noblock peek esc_timeout;
    if negb ok then mret None
    else '(num2, peek) ← tty_read_csi_num peek esc_timeout; mret (Some (num2, peek))
  else mret (Some (1, peek)).

Definition tty_read_csi (c1 peek mods0 esc_timeout : Z) : tty_m Z :=
  '(c1, peek) ←
    (if (c1 =? code "[") && in_set "[Oo" peek then
       let cx := peek in
       '(ok, peek) ← tty_readc_noblock peek esc_timeout;
       mret (if (ok : bool) then cx else c1, peek)
     else mret (c1, peek));
  '(go, special, peek) ←
    (if in_set ":<=>?" peek then
       let special := peek in
       '(ok, peek) ← tty_readc_noblock peek esc_timeout;
       mret (ok, special, peek)
     else mret (true, 0, peek));
  if negb go then
    _ ← tty_cpush_char special;
    mret (c1 .| KEY_MOD_ALT)
  else
    '(num1, peek) ← tty_read_csi_num peek esc_timeout;
    second ← csi_second peek esc_timeout;
    match second with
    | None => mret KEY_NONE
    | Some (num2, final) => mret (csi_code c1 num1 num2 final mods0)
    end.

(** Operating system commands are skipped up to their end. *)
Fixpoint tty_read_osc (fuel : nat) (peek esc_timeout : Z) : tty_m Z :=
  match fuel with
  | O => fun _ => None
  | S fuel =>
      let next :=
        '(ok, peek) ← tty_readc_noblock peek esc_timeout;
        if (ok : bool) then tty_read_osc fuel peek esc_timeout else mret KEY_NONE in
      if peek <=? 7 then
        if negb (peek =? 7) then _ ← tty_cpush_char peek; mret KEY_NONE else mret KEY_NONE
      else if peek =? 27 then
        '(ok, c1) ← tty_readc_noblock 0 esc_timeout;
        if negb ok then mret KEY_NONE
        else if c1 =? code "\" then mret KEY_NONE
        else _ ← tty_cpush_char c1; next
      else next
  end.

Definition alt_char (peek : Z) : Z := peek .| KEY_MOD_ALT.

Definition tty_read_esc (fuel : nat) (esc_initial_timeout esc_timeout : Z) : tty_m Z :=
  '(ok, peek) ← tty_readc_noblock 0 esc_initial_timeout;
  if negb ok then mret KEY_ESC
  else
    '(go, mods, peek) ←
      (if peek =? KEY_ESC then
         '(ok, peek) ← tty_readc_noblock peek esc_timeout;
         mret (ok, if (ok : bool) then KEY_MOD_ALT else 0, peek)
       else mret (true, 0, peek));
    if negb go then mret (alt_char peek)
    else if peek =? code "[" then
      '(ok, peek) ← tty_readc_noblock peek esc_timeout;
      if negb ok then mret (alt_char peek) else tty_read_csi (code "[") peek mods esc_timeout
    else if (peek =? code "O") || (peek =? code "o") || (peek =? code "?") then
      let c1 := peek in
      '(ok, peek) ← tty_readc_noblock peek esc_timeout;
      if negb ok then mret (alt_char peek)
      else tty_read_csi (code "O") peek (if c1 =? code "o" then mods .| KEY_MOD_CTRL else mods) esc_timeout
    else if peek =? code "]" then
      '(ok, peek) ← tty_readc_noblock peek esc_timeout;
      if negb ok then mret (alt_char peek) else tty_read_osc fuel peek esc_timeout
    else mret (alt_char peek).

(** ** Keys *)

(** The bytes read after [c0], as many as it may need; [buf] has the bytes so far. *)
Fixpoint utf8_more (more : list bool) (buf : bytes) : tty_m bytes :=
  match more with
  | true :: more =>
      timeout ← gets esc_timeout;
      '(ok, c) ← tty_readc_noblock 0 timeout;
      if (ok : bool) then utf8_more more (buf ++ [c]) else mret buf
  | _ => mret buf
  end.

(** [buf[count-1]] down to [buf[read]] go back. *)
Fixpoint push_back (cs : bytes) : tty_m unit :=
  match cs with [] => mret tt | c :: cs => _ ← push_back cs; tty_cpush_char c end.

Definition tty_read_utf8 (c0 : Z) : tty_m Z :=
  buf ← utf8_more [0x7F <? c0; 0xDF <? c0; 0xEF <? c0] [c0];
  '(code, read) ← lift (unicode_from_qutf8 (buf ++ [0]) (Z.of_nat (length buf)));
  _ ← push_back (drop (Z.to_nat read) buf);
  mret code.

(** [return code] on the first path returns the pointer, which is true. *)
Definition tty_read_timeout (fuel : nat) (timeout_ms code : Z) : tty_m (bool * Z) :=
  '(ok, code) ← tty_code_pop code;
  if (ok : bool) then mret (true, code)
  else
    '(ok, c) ← tty_readc_noblock 0 timeout_ms;
    if negb ok then mret (false, code)
    else
      code ←
        (if c =? KEY_ESC then
           initial ← gets esc_initial_timeout;
           follow ← gets esc_timeout;
           tty_read_esc fuel initial follow
         else if c <=? 0x7F then mret c
         else
           utf8 ← gets is_utf8;
           if (utf8 : bool) then tty_read_utf8 c else mret (unicode_from_raw c));
      mret (true, modify_code code).

Definition tty_read (fuel : nat) : tty_m Z :=
  '(ok, code) ← tty_read_timeout fuel (-1) 0;
  mret (if negb ok then KEY_NONE else code).

(** ** Answers to queries *)

(** The loop of [tty_read_esc_response]: [None] in the result for a failed read.
    Every turn stores a byte or ends, so [buflen] turns are enough. *)
Fixpoint response_loop (turns : nat) (final_st : bool) (buf : bytes) (len : Z) : tty_m (option (bytes * Z)) :=
  match turns with
  | O => mret (Some (buf, len))
  | S turns =>
      timeout ← gets esc_timeout;
      '(ok, c) ← tty_readc_noblock 0 timeout;
      let store := buf ← lift (poke buf len c); response_loop turns final_st buf (len + 1) in
      if negb ok then mret None
      else if (final_st : bool) then
        if (c =? 7) || (c =? 2) then mret (Some (buf, len))
        else if c =? 27 then
          '(ok, c1) ← tty_readc_noblock 0 timeout;
          if negb ok then mret None
          else if c1 =? code "\" then mret (Some (buf, len))
          else _ ← tty_cpush_char c1; store
        else store
      else if c =? 2 then mret (Some (buf, len))
      else if negb (((48 <=? c) && (c <=? 57)) || in_set "<=>?;:" c) then
        buf ← lift (poke buf len c); mret (Some (buf, len + 1))
      else store
  end.

(** [buf] is the caller's array; its content when the answer is not read is not used. *)
Definition tty_read_esc_response (esc_start : Z) (final_st : bool) (buf : bytes) (buflen : Z) : tty_m (option bytes) :=
  buf ← lift (poke buf 0 0);
  initial ← gets esc_initial_timeout;
  timeout ← gets esc_timeout;
  '(ok, c) ← tty_readc_noblock 0 (2 * initial);
  if negb ok || negb (c =? 27) then mret None
  else
    '(ok, c) ← tty_readc_noblock c timeout;
    if negb ok || negb (c =? esc_start) then mret None
    else
      r ← response_loop (Z.to_nat buflen) final_st buf 0;
      match r with
      | None => mret None
      | Some (buf, len) => buf ← lift (poke buf len 0); mret (Some buf)
      end.

End Read.

(** The system with [bs] typed, then nothing. *)
Definition typed (bs : bytes) : nat -> wait := fun n =>
  match bs !! n with Some b => Wait (Some 1) 1 (Some b) | None => Wait (Some 0) 0 None end.
