(* ===== verification/TtyProps.v ===== *)
(** deps/isocline/src/tty.c and tty_esc.c: what reading a key does.

    A terminal is described by the bytes that were pushed back and the number of
    reads asked of the system ([tty_at]).  Reading a key returns, keeps at most
    three bytes pushed back and so stays inside the buffers, although the guard
    of [tty_cpush] tests the count of the other buffer.  Text that is typed is
    read back as the code points that spell it, valid UTF-8 or not, and the
    escape sequences that are pushed for a key are read back as that key. *)
From S2P Require Import Prelude CLib Unicode Stringbuf SbufEdit Tty.

(** ** Total correctness of the monad *)

Definition wp {A} (m : tty_m A) (Q : A -> tty -> Prop) (t : tty) : Prop := exists a t', m t = Some (a, t') /\ Q a t'.

Section Wp.
Context {A B : Type}.

Lemma wp_bind (m : tty_m A) (k : A -> tty_m B) Q t : wp m (fun a => wp (k a) Q) t -> wp (m ≫= k) Q t.
Proof. intros (a & t' & E & b & t'' & E' & H). exists b, t''. rewrite bind_unfold, E. done. Qed.

Lemma wp_ret (a : A) (Q : A -> tty -> Prop) t : Q a t -> wp (mret a) Q t.
Proof. by exists a, t. Qed.

Lemma wp_gets (f : tty -> A) (Q : A -> tty -> Prop) t : Q (f t) t -> wp (gets f) Q t.
Proof. by exists (f t), t. Qed.

Lemma wp_lift (o : option A) a (Q : A -> tty -> Prop) t : o = Some a -> Q a t -> wp (lift o) Q t.
Proof. intros -> H. by exists a, t. Qed.

Lemma wp_mono (m : tty_m A) (P Q : A -> tty -> Prop) t : wp m P t -> (forall a t', P a t' -> Q a t') -> wp m Q t.
Proof. intros (a & t' & E & H) HPQ. exists a, t'. auto. Qed.

End Wp.

(** ** The state of the terminal *)

Definition pushed (t : tty) : bytes := reverse (take (Z.to_nat (cpush_count t)) (cpushbuf t)).

(** What no operation of a read changes. *)
Record same_settings (t t' : tty) : Prop := {
  same_utf8 : is_utf8 t' = is_utf8 t; same_initial : esc_initial_timeout t' = esc_initial_timeout t;
  same_follow : esc_timeout t' = esc_timeout t; same_raw : raw_enabled t' = raw_enabled t;
  same_codes : pushbuf t' = pushbuf t; same_count : push_count t' = push_count t
}.

#[export] Instance same_settings_po : PreOrder same_settings.
Proof. split; [by intros t|]. intros a b c [] []. split; congruence. Qed.

Record tty_at (p : bytes) (k : nat) (t : tty) : Prop := {
  at_len : length (cpushbuf t) = 32%nat; at_count : 0 <= cpush_count t <= 32; at_pushed : pushed t = p; at_waits : waits t = k
}.

Lemma at_length p k t : tty_at p k t -> cpush_count t = Z.of_nat (length p).
Proof. intros [Hl Hc <- _]. unfold pushed. rewrite length_reverse, length_take. lia. Qed.

(** The answer of the system to a read. *)
Definition reply (w : wait) (c timeout_ms : Z) : bool * Z :=
  let got := match w_read w with Some b => (true, b) | None => (false, 0) end in
  let select := if w_select w =? 1 then got else (false, c) in
  if timeout_ms <? 0 then got
  else match w_fionread w with
       | Some n => if 1 <=? n then got else if timeout_ms =? 0 then (false, c) else select
       | None => select
       end.

Lemma cpop_pushed x p k t c : tty_at (x :: p) k t ->
  exists t', tty_cpop c t = Some ((true, x), t') /\ tty_at p k t' /\ same_settings t t'.
Proof.
  intros H. pose proof (at_length _ _ _ H) as Hc. destruct H as [Hl Hb Hp Hw]. cbn in Hc. unfold tty_cpop.
  rewrite (proj2 (Z.leb_gt _ _)) by lia.
  assert (E : take (S (length p)) (cpushbuf t) = reverse p ++ [x]).
  { apply (inj reverse). rewrite reverse_app, reverse_involutive. unfold pushed in Hp. rewrite Hc in Hp.
    by rewrite Nat2Z.id in Hp. }
  replace (Z.to_nat (cpush_count t - 1)) with (length p) by lia.
  assert (Ex : cpushbuf t !! length p = Some x).
  { rewrite <- (lookup_take_lt _ (S (length p))), E by lia. rewrite lookup_app_r by (rewrite length_reverse; lia).
    by rewrite length_reverse, Nat.sub_diag. }
  rewrite Ex. cbn. eexists. split; [done|]. split; [|done].
  split; cbn; [done|lia| |done]. unfold pushed. cbn. replace (Z.to_nat (cpush_count t - 1)) with (length p) by lia.
  rewrite (take_S_r _ _ x Ex) in E. apply app_inj_tail in E as [-> _]. apply reverse_involutive.
Qed.

Lemma cpop_empty k t c : tty_at [] k t -> tty_cpop c t = Some ((false, c), t).
Proof. intros H. pose proof (at_length _ _ _ H) as Hc. unfold tty_cpop. by rewrite Hc. Qed.

Lemma cpush_buffer s r (b : bytes) (n : nat) count :
  count = Z.of_nat n -> (n + length s <= length b)%nat ->
  ofold (cpush_step (s ++ r) (Z.of_nat (length s)) count) 0 (length s) b
  = Some (take n b ++ reverse s ++ drop (n + length s) b).
Proof.
  intros -> Hb.
  assert (H : forall m b, (m <= length s)%nat -> (n + length s <= length b)%nat ->
    ofold (cpush_step (s ++ r) (Z.of_nat (length s)) (Z.of_nat n)) (length s - m) m b
    = Some (take (n + (length s - m)) b ++ reverse (take m s) ++ drop (n + length s) b)).
  { clear b Hb. induction m as [|m IH]; intros b Hm Hb; cbn [ofold].
    - rewrite Nat.sub_0_r, take_0, reverse_nil. cbn [app]. by rewrite take_drop.
    - unfold cpush_step at 2. replace (Z.to_nat (Z.of_nat (length s) - Z.of_nat (length s - S m) - 1)) with m by lia.
      destruct (lookup_lt_is_Some_2 s m ltac:(lia)) as [x Ex]. rewrite (lookup_app_l_Some _ _ _ _ Ex). cbn [mbind option_bind].
      rewrite poke_some by lia. replace (Z.to_nat (Z.of_nat n + Z.of_nat (length s - S m))) with (n + (length s - S m))%nat by lia.
      cbn [mbind option_bind]. replace (S (length s - S m)) with (length s - m)%nat by lia. rewrite IH by (rewrite ?length_insert; lia).
      f_equal. rewrite (take_S_r s m x Ex), reverse_snoc.
      replace (n + (length s - m))%nat with (S (n + (length s - S m))) by lia.
      rewrite (take_S_r (<[_ := x]> b) _ x) by (apply list_lookup_insert_eq; lia).
      rewrite take_insert_ge by lia. rewrite drop_insert_lt by lia. by rewrite <- !app_assoc. }
  specialize (H (length s) b ltac:(lia) Hb). rewrite Nat.sub_diag, Nat.add_0_r, (take_ge s) in H by lia. exact H.
Qed.

Lemma cpush_at s r p k t : tty_at p k t -> text_ok s -> push_count t + Z.of_nat (length s) <= 32 -> (length p + length s <= 32)%nat ->
  exists t', tty_cpush (s ++ 0 :: r) t = Some (tt, t') /\ tty_at (s ++ p) k t' /\ same_settings t t'.
Proof.
  intros H Hs Hp Hl. pose proof (at_length _ _ _ H) as Hc. destruct H as [Hb Hn Hq Hw]. unfold tty_cpush.
  rewrite c_strlen_app by done. cbn [mbind option_bind]. unfold TTY_PUSH_MAX. rewrite (proj2 (Z.ltb_ge _ _)) by lia.
  rewrite Nat2Z.id, (cpush_buffer s (0 :: r) _ (length p)) by (done || lia). cbn. eexists. split; [done|]. split; [|done].
  split; cbn; [rewrite !length_app, length_reverse, length_take, length_drop; lia|lia| |done].
  unfold pushed in Hq |- *. cbn. rewrite Hc, Nat2Z.id in Hq.
  replace (Z.to_nat (cpush_count t + Z.of_nat (length s))) with (length p + length s)%nat by lia.
  rewrite take_app, take_take, length_take, (Nat.min_r (length p + length s)), (Nat.min_l (length p) (length (cpushbuf t))) by lia.
  rewrite take_app_le, (take_ge (reverse s)) by (rewrite length_reverse; lia). by rewrite reverse_app, reverse_involutive, Hq.
Qed.

(** A NUL byte is not pushed back. *)
Definition back (c : Z) : bytes := if c =? 0 then [] else [c].

Lemma cpush_char_at c p k t : tty_at p k t -> push_count t <= 31 -> (length p <= 31)%nat ->
  exists t', tty_cpush_char c t = Some (tt, t') /\ tty_at (back c ++ p) k t' /\ same_settings t t'.
Proof.
  intros H Hp Hl. unfold tty_cpush_char, back. destruct (Z.eqb_spec c 0) as [->|Hc].
  - apply (cpush_at [] [0]); [done|constructor|cbn; lia|cbn; lia].
  - apply (cpush_at [c] []); [done|by repeat constructor|cbn; lia|cbn; lia].
Qed.

Section Reading.
Context (env : nat -> wait).

Lemma readc_pushed x p k t c timeout : tty_at (x :: p) k t ->
  exists t', tty_readc_noblock env c timeout t = Some ((true, x), t') /\ tty_at p k t' /\ same_settings t t'.
Proof.
  intros H. destruct (cpop_pushed _ _ _ _ c H) as (t' & E & H' & S'). exists t'. unfold tty_readc_noblock.
  rewrite bind_unfold, E. done.
Qed.

Lemma readc_system k t c timeout : tty_at [] k t ->
  exists t', tty_readc_noblock env c timeout t = Some (reply (env k) c timeout, t') /\ tty_at [] (S k) t' /\ same_settings t t'.
Proof.
  intros H. exists (asked t). assert (H' : tty_at [] (S k) (asked t)) by (destruct H as [? ? ? <-]; split; done). split; [|done].
  unfold tty_readc_noblock. rewrite bind_unfold, (cpop_empty k) by done. cbn [fst snd].
  rewrite bind_unfold. unfold next_wait. cbn -[tty_readc_blocking]. destruct H as [_ _ _ Hw]. rewrite Hw.
  assert (Hb : forall w, tty_readc_blocking w c (asked t) = Some (match w_read w with Some b => (true, b) | None => (false, 0) end, asked t)).
  { intros w. unfold tty_readc_blocking. rewrite bind_unfold, (cpop_empty (S k)) by done. by destruct (w_read w). }
  unfold reply. destruct (timeout <? 0); [apply Hb|].
  destruct (w_fionread (env k)) as [n|]; [destruct (1 <=? n); [apply Hb|]; destruct (timeout =? 0); [done|]|];
    destruct (w_select (env k) =? 1); done || apply Hb.
Qed.

(** One read, from either side. *)
Definition reads (p : bytes) (k : nat) (c timeout : Z) (r : bool * Z) (p' : bytes) (k' : nat) : Prop :=
  match p with x :: p0 => r = (true, x) /\ p' = p0 /\ k' = k | [] => r = reply (env k) c timeout /\ p' = [] /\ k' = S k end.

Lemma wp_readc p k t c timeout (Q : bool * Z -> tty -> Prop) : tty_at p k t ->
  (forall r p' k' t', reads p k c timeout r p' k' -> tty_at p' k' t' -> same_settings t t' -> Q r t') ->
  wp (tty_readc_noblock env c timeout) Q t.
Proof.
  intros H HQ. destruct p as [|x p].
  - destruct (readc_system k t c timeout H) as (t' & E & H' & S'). exists (reply (env k) c timeout), t'. split; [done|].
    by apply (HQ _ [] (S k)).
  - destruct (readc_pushed x p k t c timeout H) as (t' & E & H' & S'). exists (true, x), t'. split; [done|]. by apply (HQ _ p k).
Qed.

Lemma wp_cpush_char c p k t (Q : unit -> tty -> Prop) : tty_at p k t -> push_count t <= 31 -> (length p <= 31)%nat ->
  (forall t', tty_at (back c ++ p) k t' -> same_settings t t' -> Q tt t') -> wp (tty_cpush_char c) Q t.
Proof. intros H H1 H2 HQ. destruct (cpush_char_at c p k t H H1 H2) as (t' & E & H' & S'). exists tt, t'. auto. Qed.

End Reading.

(** ** Decoding a prefix *)

(** The bytes [tty_read_utf8] asks for after a first byte. *)
Definition need (c0 : Z) : nat := if c0 <=? 0x7F then 1 else if c0 <=? 0xDF then 2 else if c0 <=? 0xEF then 3 else 4.

(** Decoding looks no further than the bytes it needs, nor than the length. *)
Lemma decode_prefix c0 s r n : Z.of_nat (length (c0 :: s)) <= n -> (need c0 <= length (c0 :: s))%nat \/ n = Z.of_nat (length (c0 :: s)) ->
  unicode_from_qutf8 ((c0 :: s) ++ r) n = unicode_from_qutf8 (c0 :: s) (Z.of_nat (length (c0 :: s))).
Proof.
  intros Hn Hd. unfold need in Hd. unfold unicode_from_qutf8. cbn [app lookup list_lookup mbind option_bind].
  destruct (Z.leb_spec n 0); [cbn in Hn; lia|]. rewrite (proj2 (Z.leb_gt (Z.of_nat _) 0)) by (cbn; lia).
  destruct (Z.leb_spec c0 0x7F); [done|]. destruct (Z.leb_spec c0 0xC1); [done|].
  unfold two_bytes, three_bytes, four_bytes, between.
  destruct (Z.leb_spec c0 0xDF), (Z.leb_spec c0 0xEF), (Z.eqb_spec c0 0xE0), (Z.eqb_spec c0 0xF0), (Z.eqb_spec c0 0xF4),
    (Z.leb_spec 0xE1 c0), (Z.leb_spec c0 0xEC), (Z.leb_spec 0xF1 c0), (Z.leb_spec c0 0xF3); try lia;
  destruct s as [|c1 [|c2 [|c3 s]]]; cbn [length] in Hd, Hn |- *; cbn [andb negb];
  try (assert (n = 1) as -> by lia; done); try (assert (n = 2) as -> by lia; done); try (assert (n = 3) as -> by lia; done).
  all: try lia.
  all: repeat (rewrite (proj2 (Z.leb_le 2 _)) by lia); repeat (rewrite (proj2 (Z.leb_le 3 _)) by lia);
    repeat (rewrite (proj2 (Z.leb_le 4 _)) by lia); try (rewrite (proj2 (Z.leb_gt 3 (Z.of_nat _))) by lia);
    try (rewrite (proj2 (Z.leb_gt 4 (Z.of_nat _))) by lia); unfold test_at; cbn; repeat case_match; done.
Qed.

(** ** A read is safe and ends *)

Section Safe.
Context (env : nat -> wait) (env_ok : forall k b, w_read (env k) = Some b -> byte_ok b).
Context (t0 : tty) (no_codes : push_count t0 = 0).

(** At most [n] bytes are pushed back. *)
Definition calm (n : nat) (t : tty) : Prop :=
  exists p k, tty_at p k t /\ bytes_ok p /\ (length p <= n)%nat /\ same_settings t0 t.

Lemma calm_weaken n n' t : (n <= n')%nat -> calm n t -> calm n' t.
Proof. intros H (p & k & ? & ? & ? & ?). exists p, k. split_and!; [done|done|lia|done]. Qed.

Lemma reply_ok k c timeout : byte_ok c -> byte_ok (snd (reply (env k) c timeout)).
Proof.
  intros Hc. unfold reply. destruct (w_read (env k)) as [b|] eqn:E; [pose proof (env_ok _ _ E)|assert (byte_ok 0) by done];
    repeat case_match; done.
Qed.

Lemma reads_ok p k c timeout r p' k' : reads env p k c timeout r p' k' -> bytes_ok p -> byte_ok c -> bytes_ok p' /\ byte_ok (snd r).
Proof.
  unfold reads. destruct p as [|x p]; intros (-> & -> & ->) Hp Hc; [split; [constructor|by apply reply_ok]|].
  apply Forall_cons_1 in Hp as [? ?]. done.
Qed.

Lemma wp_calm n c timeout t (Q : bool * Z -> tty -> Prop) : calm n t -> byte_ok c ->
  (forall ok x t', calm (n - 1) t' -> byte_ok x -> (ok = false -> calm 0 t') -> Q (ok, x) t') ->
  wp (tty_readc_noblock env c timeout) Q t.
Proof.
  intros (p & k & H & Hb & Hl & Hs) Hc HQ. apply (wp_readc _ p k); [done|]. intros [ok x] p' k' t' Hr H' Hs'.
  destruct (reads_ok _ _ _ _ _ _ _ Hr Hb Hc) as [Hp' Hx]. apply HQ; [|done|].
  - exists p', k'. split; [done|]. split; [done|]. split; [|by etrans].
    destruct p; destruct Hr as (_ & -> & _); cbn in *; lia.
  - intros ->. exists p', k'. split; [done|]. split; [done|]. split; [|by etrans].
    destruct p; destruct Hr as (E & -> & _); [cbn; lia|done].
Qed.

Lemma wp_calm_push n c t (Q : unit -> tty -> Prop) : calm n t -> byte_ok c -> (n <= 31)%nat ->
  (forall t', calm (S n) t' -> Q tt t') -> wp (tty_cpush_char c) Q t.
Proof.
  intros (p & k & H & Hb & Hl & Hs) Hc Hn HQ.
  apply (wp_cpush_char c p k); [done|rewrite (same_count _ _ Hs); lia|lia|]. intros t' H' Hs'. apply HQ.
  exists (back c ++ p), k. unfold back in *. split; [done|]. split; [|split; [|by etrans]].
  - apply Forall_app. split; [|done]. destruct (c =? 0); [apply Forall_nil_2|by apply Forall_singleton].
  - destruct (c =? 0); cbn; lia.
Qed.

Lemma csi_digits_calm more n timeout count i peek t : calm n t -> byte_ok peek ->
  wp (csi_digits env more timeout count i peek) (fun '(_, _, peek) t' => calm n t' /\ byte_ok peek) t.
Proof.
  revert count i peek t. induction more as [|more IH]; intros count i peek t H Hp; cbn [csi_digits]; [by apply wp_ret|].
  destruct (_ && _); [|by apply wp_ret]. apply wp_bind, (wp_calm n); [done|done|]. intros ok x t' Hc Hx _.
  apply (calm_weaken _ n) in Hc; [|lia]. destruct ok; [by apply IH|by apply wp_ret].
Qed.

Lemma csi_num_calm n peek timeout t : calm n t -> byte_ok peek ->
  wp (tty_read_csi_num env peek timeout) (fun '(_, peek) t' => calm n t' /\ byte_ok peek) t.
Proof.
  intros H Hp. apply wp_bind. eapply wp_mono; [by apply csi_digits_calm|]. intros [[? ?] ?] t' ?. by apply wp_ret.
Qed.

Lemma csi_second_calm n peek timeout t : calm n t -> byte_ok peek ->
  wp (csi_second env peek timeout) (fun _ t' => calm n t') t.
Proof.
  intros H Hp. unfold csi_second. destruct (peek =? code ";"); [|by apply wp_ret].
  apply wp_bind, (wp_calm n); [done|done|]. intros ok x t' Hc Hx _. apply (calm_weaken _ n) in Hc; [|lia].
  destruct ok; [|by apply wp_ret]. apply wp_bind. eapply wp_mono; [by apply csi_num_calm|].
  intros [? ?] t'' [? ?]. by apply wp_ret.
Qed.

Lemma read_csi_calm n c1 peek mods timeout t : (1 <= n <= 3)%nat -> calm n t -> byte_ok peek ->
  wp (tty_read_csi env c1 peek mods timeout) (fun _ t' => calm n t') t.
Proof.
  intros Hn H Hp. apply wp_bind, (wp_mono _ (fun '(_, peek) t' => calm n t' /\ byte_ok peek)).
  { destruct (_ && _); [|by apply wp_ret]. apply wp_bind, (wp_calm n); [done|done|]. intros ok x t' Hc Hx _.
    apply (calm_weaken _ n) in Hc; [|lia]. by apply wp_ret. }
  clear t H peek Hp. intros [c peek] t [H Hp].
  apply wp_bind, (wp_mono _ (fun '(go, special, peek) t' =>
    calm n t' /\ byte_ok peek /\ byte_ok special /\ (go = false -> calm 0 t'))).
  { destruct (in_set _ _); [|by apply wp_ret]. apply wp_bind, (wp_calm n); [done|done|]. intros ok x t' Hc Hx Hf.
    apply (calm_weaken _ n) in Hc; [|lia]. by apply wp_ret. }
  clear t H peek Hp. intros [[go special] peek] t (H & Hp & Hs & Hf). destruct go; cbn [negb].
  - apply wp_bind. eapply wp_mono; [by apply csi_num_calm|]. intros [num1 x] t' [H' Hx].
    apply wp_bind. eapply wp_mono; [by apply csi_second_calm|]. intros [[num2 final]|] t'' H''; by apply wp_ret.
  - apply wp_bind, (wp_calm_push 0); [by apply Hf|done|lia|]. intros t' H'. apply wp_ret. by apply (calm_weaken 1); [lia|].
Qed.

(** ** Keys of several bytes *)

Lemma utf8_more_calm more n buf t : calm n t -> bytes_ok buf ->
  wp (utf8_more env more buf)
    (fun buf' t' => exists s, buf' = buf ++ s /\ bytes_ok s /\ (length s <= length more)%nat /\ calm (n - length s) t') t.
Proof.
  revert n buf t. induction more as [|m more IH]; intros n buf t H Hb;
    assert (Hstop : forall more t', calm n t' ->
      exists s, buf = buf ++ s /\ bytes_ok s /\ (length s <= more)%nat /\ calm (n - length s) t') by
      (intros more0 t' ?; exists []; cbn [length]; rewrite app_nil_r, Nat.sub_0_r; split_and!; [done|apply Forall_nil_2|lia|done]);
    cbn [utf8_more]; [by apply wp_ret, Hstop|].
  destruct m; [|by apply wp_ret, Hstop].
  apply wp_bind, wp_gets, wp_bind, (wp_calm n); [done|done|]. intros ok x t' Hc Hx Hf. destruct ok.
  - eapply wp_mono; [apply (IH (n - 1)%nat); [done|apply Forall_app; split; [done|by apply Forall_singleton]]|].
    intros buf' t'' (s & -> & Hs & Hl & H''). exists (x :: s). rewrite <- app_assoc. split_and!; [done|by constructor|cbn; lia|].
    cbn [length]. by replace (n - S (length s))%nat with (n - 1 - length s)%nat by lia.
  - apply wp_ret, Hstop. apply (calm_weaken 0); [lia|]. by apply Hf.
Qed.

Lemma push_back_calm cs n t : calm n t -> bytes_ok cs -> (n + length cs <= 32)%nat ->
  wp (push_back cs) (fun _ t' => calm (n + length cs) t') t.
Proof.
  intros H. induction cs as [|c cs IH]; intros Hb Hn; cbn [push_back].
  { apply wp_ret. by rewrite Nat.add_0_r. }
  apply Forall_cons_1 in Hb as [Hc Hb]. apply wp_bind. eapply wp_mono; [apply IH; [done|cbn in Hn; lia]|]. intros [] t' H'.
  apply (wp_calm_push (n + length cs)); [done|done|cbn in Hn; lia|]. intros t'' ?. cbn. by rewrite Nat.add_succ_r.
Qed.

Lemma read_utf8_calm c0 t : calm 3 t -> byte_ok c0 -> wp (tty_read_utf8 env c0) (fun _ t' => calm 3 t') t.
Proof.
  intros H Hc. apply wp_bind. eapply wp_mono; [apply (utf8_more_calm _ 3); [done|by apply Forall_singleton]|].
  intros buf t' (s & -> & Hs & Hl & H'). cbn [length app] in *. apply wp_bind.
  destruct (decode_one (c0 :: s)) as (u & k & E & Hk & Hk' & _); [by constructor|done|].
  eapply wp_lift; [rewrite (decode_prefix c0 s [0]) by (done || lia || (right; done)); exact E|].
  cbn beta iota. rewrite Nat2Z.id. apply wp_bind.
  assert (Hd : (length (drop k (c0 :: s)) <= length s)%nat) by (rewrite length_drop; cbn; lia).
  eapply wp_mono; [apply (push_back_calm _ _ _ H')|].
  - apply Forall_drop. by constructor.
  - lia.
  - intros [] t'' H''. apply wp_ret, (calm_weaken (3 - length s + length (drop k (c0 :: s)))); [lia|done].
Qed.

(** ** Sequences that are skipped *)

(** Nothing comes within the delay. *)
Definition pause (w : wait) : Prop := w_read w = None \/ (w_select w <> 1 /\ forall n, w_fionread w = Some n -> n < 1).

Lemma pause_silent w c timeout : pause w -> 0 <= timeout -> fst (reply w c timeout) = false.
Proof.
  intros Hw Ht. unfold reply. rewrite (proj2 (Z.ltb_ge _ _)) by done.
  destruct Hw as [->|[Hs Hn]]; [by repeat case_match|]. rewrite (proj2 (Z.eqb_neq (w_select w) 1)) by done.
  destruct (w_fionread w) as [n|]; [|done]. rewrite (proj2 (Z.leb_gt 1 n)) by (by apply Hn). by destruct (timeout =? 0).
Qed.

Context (j : nat) (pause_at : pause (env j)).

(** At most [m] bytes are read before the pause. *)
Definition ahead (n m : nat) (t : tty) : Prop :=
  exists p k, tty_at p k t /\ bytes_ok p /\ (length p <= n)%nat /\ (k <= j)%nat /\ (length p + (j - k) <= m)%nat /\ same_settings t0 t.

Lemma ahead_calm n m t : ahead n m t -> calm n t.
Proof. intros (p & k & ? & ? & ? & _ & _ & ?). by exists p, k. Qed.

Lemma wp_ahead n m c timeout t (Q : bool * Z -> tty -> Prop) : ahead n m t -> byte_ok c -> 0 <= timeout ->
  (forall x t', (1 <= m)%nat -> ahead (n - 1) (m - 1) t' -> byte_ok x -> Q (true, x) t') ->
  (forall x t', calm 0 t' -> byte_ok x -> Q (false, x) t') ->
  wp (tty_readc_noblock env c timeout) Q t.
Proof.
  intros (p & k & H & Hb & Hl & Hk & Hm & Hs) Hc Ht HQ HF. apply (wp_readc _ p k); [done|]. intros [ok x] p' k' t' Hr H' Hs'.
  destruct (reads_ok _ _ _ _ _ _ _ Hr Hb Hc) as [Hp' Hx]. destruct p as [|y p]; destruct Hr as (E & -> & ->).
  - destruct ok; [|apply HF; [|done]; exists [], (S k); split_and!; [done|done|done|by etrans]].
    assert (k <> j). { intros ->. pose proof (pause_silent _ c timeout pause_at Ht) as F. by rewrite <- E in F. }
    cbn in Hm. apply HQ; [lia| |done]. exists [], (S k). split_and!; [done|done|cbn; lia|lia|cbn; lia|by etrans].
  - injection E as -> ->. cbn in Hm, Hl. apply HQ; [lia| |done]. exists p, k. split_and!; [done|done|lia|lia|lia|by etrans].
Qed.

Lemma wp_ahead_push n m c t (Q : unit -> tty -> Prop) : ahead n m t -> byte_ok c -> (n <= 31)%nat ->
  (forall t', ahead (S n) (S m) t' -> Q tt t') -> wp (tty_cpush_char c) Q t.
Proof.
  intros (p & k & H & Hb & Hl & Hk & Hm & Hs) Hc Hn HQ.
  apply (wp_cpush_char c p k); [done|rewrite (same_count _ _ Hs); lia|lia|]. intros t' H' Hs'. apply HQ.
  exists (back c ++ p), k. unfold back in *. split_and!; [done| | |done| |by etrans].
  - apply Forall_app. split; [|done]. destruct (c =? 0); [apply Forall_nil_2|by apply Forall_singleton].
  - destruct (c =? 0); cbn; lia.
  - destruct (c =? 0); cbn; lia.
Qed.

Lemma ahead_weaken n n' m m' t : (n <= n')%nat -> (m <= m')%nat -> ahead n m t -> ahead n' m' t.
Proof. intros ? ? (p & k & ? & ? & ? & ? & ? & ?). exists p, k. split_and!; by (done || lia). Qed.

Lemma read_osc_ends timeout : 0 <= timeout -> forall m fuel peek t, (m < fuel)%nat -> ahead 0 m t -> byte_ok peek ->
  wp (tty_read_osc env fuel peek timeout) (fun _ t' => calm 3 t') t.
Proof.
  intros Ht m fuel. revert m. induction fuel as [|fuel IH]; intros m peek t Hf H Hp; [lia|]. cbn [tty_read_osc].
  assert (H3 : forall n t, (n <= 3)%nat -> calm n t -> calm 3 t) by (intros; by eapply calm_weaken).
  assert (Hnext : forall t', ahead 1 m t' -> wp ('(ok, peek) ← tty_readc_noblock env peek timeout;
    if (ok : bool) then tty_read_osc env fuel peek timeout else mret KEY_NONE) (fun _ t' => calm 3 t') t').
  { intros t' H'. apply wp_bind, (wp_ahead 1 m); [done|done|done| |].
    - intros x t'' Hm H'' Hx. apply (IH (m - 1)%nat); [lia|done|done].
    - intros x t'' H'' Hx. apply wp_ret, (H3 0%nat); [lia|done]. }
  destruct (peek <=? 7).
  { destruct (negb _); [|apply wp_ret, (H3 0%nat); [lia|by eapply ahead_calm]].
    apply wp_bind, (wp_calm_push 0); [by eapply ahead_calm|done|lia|]. intros t' ?. apply wp_ret, (H3 1%nat); [lia|done]. }
  destruct (peek =? 27).
  - apply wp_bind, (wp_ahead 0 m); [done|done|done| |]; [|intros; apply wp_ret, (H3 0%nat); [lia|done]].
    intros c1 t' Hm H' Hc. cbn [negb]. destruct (c1 =? _); [apply wp_ret, (H3 0%nat); [lia|by eapply ahead_calm]|].
    apply wp_bind, (wp_ahead_push 0 (m - 1)); [done|done|lia|]. intros t'' H''. apply Hnext.
    by replace m with (S (m - 1)) by lia.
  - apply Hnext. eapply ahead_weaken; [| |done]; lia.
Qed.

Lemma read_esc_ends fuel m initial timeout t : 0 <= initial -> 0 <= timeout -> (m < fuel)%nat -> ahead 2 m t ->
  wp (tty_read_esc env fuel initial timeout) (fun _ t' => calm 3 t') t.
Proof.
  intros Hi Ht Hf H.
  assert (H3 : forall n t, (n <= 3)%nat -> calm n t -> calm 3 t) by (intros; by eapply calm_weaken).
  assert (Hfail : forall x t, calm 0 t -> byte_ok x -> wp (mret x) (fun _ t' => calm 3 t') t)
    by (intros; apply wp_ret, (H3 0%nat); [lia|done]).
  apply wp_bind, (wp_ahead 2 m); [done|done|done| |]; [|intros; apply wp_ret, (H3 0%nat); [lia|done]].
  clear t H. intros peek t Hm H Hp. cbn [negb].
  apply wp_bind, (wp_mono _ (fun '(go, mods, peek) t' => byte_ok peek /\ if (go : bool) then ahead 1 m t' else calm 0 t')).
  { destruct (peek =? KEY_ESC); [|apply wp_ret; split; [done|]; eapply ahead_weaken; [| |done]; lia].
    apply wp_bind, (wp_ahead 1 (m - 1)); [done|done|done| |]; intros; apply wp_ret; (split; [done|]); [|done].
    eapply ahead_weaken; [| |done]; lia. }
  clear t H peek Hp Hm. intros [[go mods] peek] t [Hp H]. destruct go; cbn [negb]; [|apply wp_ret, (H3 0%nat); [lia|done]].
  assert (Hread : forall k : Z -> tty_m Z, (forall x t', ahead 0 m t' -> byte_ok x -> wp (k x) (fun _ t' => calm 3 t') t') ->
    wp ('(ok, x) ← tty_readc_noblock env peek timeout; if negb ok then mret (alt_char x) else k x) (fun _ t' => calm 3 t') t).
  { intros k Hk. apply wp_bind, (wp_ahead 1 m); [done|done|done| |]; [|intros; apply wp_ret, (H3 0%nat); [lia|done]].
    intros x t' Hm H' Hx. apply Hk; [|done]. eapply ahead_weaken; [| |done]; lia. }
  assert (Hcsi : forall c1 mods x t', ahead 0 m t' -> byte_ok x -> wp (tty_read_csi env c1 x mods timeout) (fun _ t' => calm 3 t') t').
  { intros c1 mods' x t' H' Hx. apply (read_csi_calm 3); [lia| |done]. eapply H3; [|by eapply ahead_calm]. lia. }
  destruct (peek =? code "["); [apply (Hread (fun x => tty_read_csi env (code "[") x mods timeout)), Hcsi|].
  destruct (_ || _); [apply (Hread (fun x => tty_read_csi env (code "O") x _ timeout)), Hcsi|].
  destruct (peek =? code "]"); [apply (Hread (fun x => tty_read_osc env fuel x timeout)); intros; by apply (read_osc_ends timeout Ht m)|].
  apply wp_ret, (H3 1%nat); [lia|by eapply ahead_calm].
Qed.

End Safe.

(** ** The invariant of the terminal *)

(** Both buffers are whole, at most three bytes are pushed back, the delays are
    not negative. *)
Record tty_ok (t : tty) : Prop := {
  ok_pushbuf : length (pushbuf t) = 32%nat; ok_push : 0 <= push_count t <= 32; ok_delays : 0 <= esc_initial_timeout t /\ 0 <= esc_timeout t;
  ok_cpushbuf : length (cpushbuf t) = 32%nat; ok_cpush : 0 <= cpush_count t <= 3; ok_bytes : bytes_ok (pushed t)
}.

Lemma tty_ok_at t : tty_ok t -> tty_at (pushed t) (waits t) t /\ (length (pushed t) <= 3)%nat.
Proof.
  intros []. split; [split; done || lia|]. unfold pushed. rewrite length_reverse, length_take. lia.
Qed.

Lemma calm_ok t t' : tty_ok t -> calm t 3 t' -> tty_ok t'.
Proof.
  intros [] (p & k & H & Hb & Hl & []). pose proof (at_length _ _ _ H) as Hc. destruct H as [Hlen _ Hp _]. split.
  - congruence.
  - lia.
  - lia.
  - done.
  - lia.
  - by rewrite Hp.
Qed.

Lemma new_tty_ok utf8 resize : tty_ok (tty_new utf8 resize).
Proof. split; first [reflexivity | cbn; lia | apply Forall_nil_2]. Qed.

Lemma pushback_ok c t : tty_ok t -> exists t', tty_code_pushback c t = Some (tt, t') /\ tty_ok t'.
Proof.
  intros []. unfold tty_code_pushback, TTY_PUSH_MAX. destruct (Z.leb_spec 32 (push_count t)); [by eexists|].
  rewrite poke_some by lia. eexists. split; [done|]. split; cbn; rewrite ?length_insert; done || lia.
Qed.

(** A key is always read. *)
Lemma read_timeout_ok env fuel timeout c t j :
  (forall k b, w_read (env k) = Some b -> byte_ok b) -> tty_ok t ->
  (waits t < j)%nat -> pause (env j) -> (3 + (j - waits t) < fuel)%nat ->
  exists ok key t', tty_read_timeout env fuel timeout c t = Some ((ok, key), t') /\ tty_ok t'.
Proof.
  intros He Hok Hj Hp Hf. destruct (tty_ok_at t Hok) as [Hat Hl].
  assert (Hwp : wp (tty_read_timeout env fuel timeout c) (fun _ t' => tty_ok t') t);
    [|destruct Hwp as ([ok key] & t' & E & H'); by exists ok, key, t'].
  apply wp_bind. destruct (Z.leb_spec (push_count t) 0) as [H0|H0].
  - exists (false, c), t. split; [unfold tty_code_pop; by rewrite (proj2 (Z.leb_le _ _)) by done|]. assert (Hnc : push_count t = 0) by (pose proof (ok_push t Hok); lia).
    apply wp_bind, (wp_readc env (pushed t) (waits t)); [done|]. intros [ok x] p' k' t' Hr H' Hs.
    destruct (reads_ok env He _ _ _ _ _ _ _ Hr (ok_bytes t Hok)) as [Hb' Hx]; [done|].
    assert (Hpk : (length p' <= 2)%nat /\ (k' <= j)%nat /\ (length p' + (j - k') <= 3 + (j - waits t))%nat)
      by (destruct (pushed t); destruct Hr as (_ & -> & ->); cbn in *; lia).
    assert (Hah : ahead t j 2 (3 + (j - waits t)) t') by (exists p', k'; split_and!; done || lia).
    assert (Hc : calm t 3 t') by (apply (calm_weaken t 2); [lia|by eapply ahead_calm]).
    destruct ok; cbn [negb]; [|by apply wp_ret, (calm_ok t)].
    apply wp_bind, (wp_mono _ (fun _ t' => calm t 3 t')); [|intros ? t'' ?; by apply wp_ret, (calm_ok t)].
    destruct (x =? KEY_ESC).
    + apply wp_bind, wp_gets, wp_bind, wp_gets. destruct (ok_delays t Hok) as [Hd1 Hd2].
      apply (read_esc_ends env He t Hnc j Hp fuel (3 + (j - waits t))); [by rewrite (same_initial _ _ Hs)|by rewrite (same_follow _ _ Hs)|done|done].
    + destruct (x <=? 0x7F); [by apply wp_ret|]. apply wp_bind, wp_gets. destruct (is_utf8 t'); [|by apply wp_ret].
      by apply (read_utf8_calm env He t Hnc).
  - destruct (lookup_lt_is_Some_2 (pushbuf t) (Z.to_nat (push_count t - 1))) as [key E]; [destruct Hok; lia|].
    eexists _, _. split; [unfold tty_code_pop; rewrite (proj2 (Z.leb_gt _ _)), E by done; done|]. apply wp_ret. destruct Hok. split; cbn; done || lia.
Qed.

(** deps/isocline/src/tty.c and tty_esc.c: typed text and pushed keys.

    Where the system serves the bytes [bs], a terminal is described by the bytes
    that are still to be read ([left_to_read]), wherever they are. *)

(** A byte that is neither a control character nor the start of a sequence. *)
Definition plain (c : Z) : Prop := 32 <= c /\ c <> 127.

Lemma mods_small u : 0 <= u < 2 ^ 28 -> KEY_NO_MODS u = u /\ KEY_MODS u = 0.
Proof.
  intros H. unfold KEY_NO_MODS, KEY_MODS. change 0x0FFFFFFF with (Z.ones 28). change 0xF0000000 with (Z.ones 4 << 28).
  rewrite land_ones_mod by lia. split; [by apply Z.mod_small|]. by apply land_shiftl_disjoint.
Qed.

Lemma modify_plain u : plain u -> u <= 0x10FFFF -> modify_code u = u.
Proof.
  intros [H1 H2] H3. unfold modify_code. destruct (mods_small u ltac:(lia)) as [-> ->]. unfold KEY_RUBOUT, KEY_ENTER.
  change (WITH_CTRL KEY_TAB) with 0x40000009. change (WITH_ALT KEY_DOWN) with 0x21000001. change (WITH_ALT 62) with 0x2000003E.
  change (WITH_CTRL KEY_END) with 0x41000005. change (WITH_ALT KEY_UP) with 0x21000000. change (WITH_ALT 60) with 0x2000003C.
  change (WITH_CTRL KEY_HOME) with 0x41000004.
  repeat (rewrite (proj2 (Z.eqb_neq u _)) by lia). cbn. by rewrite andb_false_r.
Qed.

Section Typed.
Context (env : nat -> wait) (bs : bytes) (served : forall k x c timeout, bs !! k = Some x -> reply (env k) c timeout = (true, x)).
Context (t0 : tty) (no_codes : push_count t0 = 0) (delay_ok : 0 <= esc_timeout t0).

Definition left_to_read (n : nat) (rest : bytes) (t : tty) : Prop :=
  exists p k, tty_at p k t /\ p ++ drop k bs = rest /\ (length p <= n)%nat /\ same_settings t0 t.

Lemma left_weaken n n' rest t : (n <= n')%nat -> left_to_read n rest t -> left_to_read n' rest t.
Proof. intros ? (p & k & ? & ? & ? & ?). exists p, k. split_and!; by (done || lia). Qed.

Lemma wp_left n x rest c timeout t (Q : bool * Z -> tty -> Prop) : left_to_read n (x :: rest) t ->
  (forall t', left_to_read (n - 1) rest t' -> Q (true, x) t') -> wp (tty_readc_noblock env c timeout) Q t.
Proof.
  intros (p & k & H & Hr & Hl & Hs) HQ. apply (wp_readc _ p k); [done|]. intros [ok y] p' k' t' Hrd H' Hs'.
  destruct p as [|z p]; destruct Hrd as (E & -> & ->); cbn [app] in Hr.
  - assert (Ex : bs !! k = Some x) by (rewrite <- (Nat.add_0_r k), <- lookup_drop, Hr; done).
    rewrite (served _ _ _ _ Ex) in E. injection E as -> ->. apply HQ. exists [], (S k). split_and!; [done| |cbn; lia|by etrans].
    rewrite (drop_S _ _ _ Ex) in Hr. by injection Hr.
  - injection E as -> ->. injection Hr as -> Hr. apply HQ. exists p, k. cbn in Hl. split_and!; [done|done|lia|by etrans].
Qed.

Lemma wp_left_push n c rest t (Q : unit -> tty -> Prop) : left_to_read n rest t -> c <> 0 -> (n <= 31)%nat ->
  (forall t', left_to_read (S n) (c :: rest) t' -> Q tt t') -> wp (tty_cpush_char c) Q t.
Proof.
  intros (p & k & H & Hr & Hl & Hs) Hc Hn HQ.
  apply (wp_cpush_char c p k); [done|rewrite (same_count _ _ Hs); lia|lia|]. intros t' H' Hs'. apply HQ.
  unfold back in H'. rewrite (proj2 (Z.eqb_neq c 0)) in H' by done. exists (c :: p), k.
  split_and!; [done|by rewrite <- Hr|cbn; lia|by etrans].
Qed.

Lemma push_back_left cs n rest t : left_to_read n rest t -> text_ok cs -> (n + length cs <= 32)%nat ->
  wp (push_back cs) (fun _ t' => left_to_read (n + length cs) (cs ++ rest) t') t.
Proof.
  intros H. induction cs as [|c cs IH]; intros Hb Hn; cbn [push_back].
  { apply wp_ret. by rewrite Nat.add_0_r. }
  apply Forall_cons_1 in Hb as [Hc Hb]. apply wp_bind. eapply wp_mono; [apply IH; [done|cbn in Hn; lia]|]. intros [] t' H'.
  apply (wp_left_push (n + length cs) _ (cs ++ rest)); [done|done|cbn in Hn; lia|]. intros t'' ?. cbn. by rewrite Nat.add_succ_r.
Qed.

(** A key of one byte. *)
Lemma read_ascii_left fuel timeout code c rest t : left_to_read 3 (c :: rest) t -> 0 <= c <= 0x7F -> c <> KEY_ESC ->
  wp (tty_read_timeout env fuel timeout code) (fun '(ok, key) t' => ok = true /\ key = modify_code c /\ left_to_read 3 rest t') t.
Proof.
  intros H Hc Hesc. apply wp_bind. exists (false, code), t.
  assert (Hp : push_count t = 0) by (destruct H as (? & ? & _ & _ & _ & Hs); by rewrite (same_count _ _ Hs)).
  split; [unfold tty_code_pop; by rewrite Hp|]. apply wp_bind. eapply wp_left; [done|]. intros t' H'. cbn [negb].
  rewrite (proj2 (Z.eqb_neq c KEY_ESC)), (proj2 (Z.leb_le c 0x7F)) by lia. apply wp_bind, wp_ret, wp_ret. split_and!; [done..|].
  by eapply left_weaken; [|done]; lia.
Qed.

Context (silent : forall k c timeout, bs !! k = None -> fst (reply (env k) c timeout) = false).

Lemma wp_left_end n c timeout t (Q : bool * Z -> tty -> Prop) : left_to_read n [] t ->
  (forall y t', left_to_read 0 [] t' -> Q (false, y) t') -> wp (tty_readc_noblock env c timeout) Q t.
Proof.
  intros (p & k & H & Hr & Hl & Hs) HQ. apply app_nil in Hr as [-> Hr]. apply (wp_readc _ [] k); [done|].
  intros [ok y] p' k' t' (E & -> & ->) H' Hs'.
  assert (Ex : bs !! k = None). { apply lookup_ge_None_2. apply (f_equal length) in Hr. rewrite length_drop in Hr. cbn in Hr. lia. }
  assert (ok = false) as ->. { pose proof (silent k c timeout Ex) as F. by rewrite <- E in F. }
  apply HQ. exists [], (S k). split_and!; [done| |done|by etrans]. cbn. apply drop_ge.
  apply lookup_ge_None in Ex. lia.
Qed.

(** As many bytes as are asked for and there are. *)
Lemma utf8_more_left more : forall k n rest buf t, left_to_read n rest t -> (forall i, more !! i = Some true <-> (i < k)%nat) ->
  wp (utf8_more env more buf)
    (fun buf' t' => buf' = buf ++ take k rest /\ left_to_read (n - length (take k rest)) (drop k rest) t') t.
Proof.
  induction more as [|m more IH]; intros k n rest buf t H Hm; cbn [utf8_more].
  - assert (k = 0%nat) as ->. { destruct k; [done|]. by pose proof (proj2 (Hm 0%nat) ltac:(lia)). }
    apply wp_ret. rewrite take_0, drop_0, app_nil_r, Nat.sub_0_r. done.
  - destruct k as [|k].
    + assert (m = false) as ->. { destruct m; [|done]. pose proof (proj1 (Hm 0%nat) eq_refl). lia. }
      apply wp_ret. rewrite take_0, drop_0, app_nil_r, Nat.sub_0_r. done.
    + assert (m = true) as -> by (pose proof (proj2 (Hm 0%nat) ltac:(lia)) as F; by injection F).
      apply wp_bind, wp_gets, wp_bind. destruct rest as [|x rest].
      * eapply wp_left_end; [done|]. intros y t' H'. apply wp_ret. rewrite take_nil, drop_nil, app_nil_r. split; [done|].
        by eapply left_weaken; [|done]; lia.
      * eapply wp_left; [done|]. intros t' H'. eapply wp_mono; [apply (IH k); [exact H'|]|].
        -- intros i. specialize (Hm (S i)). cbn in Hm. rewrite Hm. lia.
        -- intros buf' t'' [-> H'']. cbn [take drop length]. rewrite <- app_assoc. split; [done|].
           by replace (n - S (length (take k rest)))%nat with (n - 1 - length (take k rest))%nat by lia.
Qed.

Lemma read_utf8_left c0 rest t : left_to_read 3 rest t -> bytes_ok (c0 :: rest) -> text_ok (c0 :: rest) -> 0x7F < c0 ->
  wp (tty_read_utf8 env c0)
    (fun u t' => exists n, unicode_from_qutf8 (c0 :: rest) (Z.of_nat (length (c0 :: rest))) = Some (u, Z.of_nat n)
      /\ left_to_read 3 (drop n (c0 :: rest)) t') t.
Proof.
  intros H Hb Ht Hc. set (k := (need c0 - 1)%nat). assert (Hk : (k <= 3)%nat) by (unfold k, need; repeat case_match; lia).
  apply wp_bind. eapply wp_mono.
  { apply (utf8_more_left _ k); [done|]. intros i. unfold k, need. rewrite (proj2 (Z.leb_gt c0 0x7F)) by done.
    rewrite (proj2 (Z.ltb_lt 0x7F c0)) by done.
    destruct (Z.leb_spec c0 0xDF); [rewrite (proj2 (Z.ltb_ge _ c0)) by lia|rewrite (proj2 (Z.ltb_lt _ c0)) by lia];
      (destruct (Z.leb_spec c0 0xEF); [rewrite (proj2 (Z.ltb_ge _ c0)) by lia|rewrite (proj2 (Z.ltb_lt _ c0)) by lia]); try lia;
      destruct i as [|[|[|[|i]]]]; cbn; split; intros; by (done || lia). }
  intros buf t' [-> H']. cbn [app]. apply wp_bind.
  destruct (decode_one (c0 :: rest) Hb) as (u & n & E & Hn & Hnl & _ & _); [done|].
  assert (Hpre : unicode_from_qutf8 (c0 :: take k rest) (Z.of_nat (length (c0 :: take k rest))) = Some (u, Z.of_nat n)).
  { pose proof (decode_prefix c0 (take k rest) (drop k rest) (Z.of_nat (length (c0 :: rest)))) as D. cbn [app] in D.
    rewrite take_drop in D. rewrite <- E. symmetry. apply D; cbn [length]; rewrite length_take; [lia|].
    destruct (decide (k <= length rest)%nat); [left; unfold k in *; lia|right; lia]. }
  eapply wp_lift; [rewrite (decode_prefix c0 (take k rest) [0]) by (done || lia || (right; done)); exact Hpre|].
  cbn beta iota. rewrite Nat2Z.id.
  assert (Hn' : (n <= length (c0 :: take k rest))%nat).
  { destruct (decode_one (c0 :: take k rest)) as (u' & n' & E' & _ & Hnl' & _); [by apply Forall_cons_1 in Hb as [? ?]; constructor; [|apply Forall_take]|done|].
    rewrite Hpre in E'. injection E' as _ E'. lia. }
  assert (Hd : (length (drop n (c0 :: take k rest)) <= length (take k rest))%nat) by (rewrite length_drop; cbn [length]; lia).
  assert (Htk : (length (take k rest) <= 3)%nat) by (rewrite length_take; lia).
  apply wp_bind. eapply wp_mono; [apply (push_back_left _ _ _ _ H'); [|lia]|].
  - apply Forall_drop. apply Forall_cons_1 in Ht as [? ?]. constructor; [done|by apply Forall_take].
  - intros [] t'' H''. apply wp_ret. exists n. split; [done|].
    apply (left_weaken _ 3) in H''; [|lia].
    replace (drop n (c0 :: rest)) with (drop n (c0 :: take k rest) ++ drop k rest); [done|].
    rewrite <- (drop_app_le (c0 :: take k rest)) by done. cbn [app]. by rewrite take_drop.
Qed.

Context (utf8 : is_utf8 t0 = true).

(** A key of the text: the code point at its start. *)
Lemma read_key_left fuel timeout code c rest t (s := c :: rest) : left_to_read 3 s t -> bytes_ok s -> text_ok s -> plain c ->
  wp (tty_read_timeout env fuel timeout code)
    (fun '(ok, key) t' => ok = true /\ plain key /\ 0 <= key <= 0x10FFFF /\ exists n, unicode_from_qutf8 s (Z.of_nat (length s)) = Some (key, Z.of_nat n)
      /\ left_to_read 3 (drop n s) t') t.
Proof.
  intros H Hb Htx Hc. unfold s in *. clear s.
  pose proof Hb as [Hc' _]%Forall_cons_1. pose proof Hc as [Hc1 Hc2]. unfold byte_ok in Hc'.
  destruct (decode_one (c :: rest) Hb ltac:(done)) as (u & n & E & Hn & Hnl & Hu & Hq).
  destruct (decide (c <= 0x7F)) as [Hasc|Hasc].
  - eapply wp_mono; [apply (read_ascii_left _ _ _ c rest); [done|lia|unfold KEY_ESC; lia]|].
    intros [ok key] t' (-> & -> & H'). rewrite modify_plain by (done || lia). split_and!; [done|done|lia|lia|].
    exists 1%nat. split; [|done]. unfold unicode_from_qutf8. cbn [lookup list_lookup mbind option_bind].
    rewrite (proj2 (Z.leb_gt _ 0)) by (cbn; lia). by rewrite (proj2 (Z.leb_le _ _)) by lia.
  - assert (Hpu : plain u).
    { assert (0x80 <= u); [|split; lia]. destruct (decide (0x80 <= u)); [done|]. exfalso.
      assert (Hr : unicode_is_raw u = None) by (rewrite is_raw_spec, decide_False by lia; done).
      specialize (Hq (or_intror Hr)). rewrite qutf8_small in Hq by lia. unfold utf8_seq in Hq.
      rewrite (proj2 (Z.leb_le _ _)) in Hq by lia. destruct n; [lia|]. injection Hq as -> _. lia. }
    apply wp_bind. exists (false, code), t.
    assert (Hp : push_count t = 0) by (destruct H as (? & ? & _ & _ & _ & Hs); by rewrite (same_count _ _ Hs)).
    split; [unfold tty_code_pop; by rewrite Hp|]. apply wp_bind. eapply wp_left; [done|]. intros t' H'. cbn [negb].
    rewrite (proj2 (Z.eqb_neq c KEY_ESC)), (proj2 (Z.leb_gt c 0x7F)) by (unfold KEY_ESC; lia). apply wp_bind, wp_bind, wp_gets.
    assert (is_utf8 t' = true) as -> by (destruct H' as (? & ? & _ & _ & _ & Hs); by rewrite (same_utf8 _ _ Hs)).
    eapply wp_mono; [apply (read_utf8_left c rest t'); [by eapply left_weaken; [|done]; lia|done|done|lia]|].
    intros key t'' (n' & E' & H''). rewrite E in E'. injection E' as <- <-%Nat2Z.inj. apply wp_ret.
    rewrite modify_plain by (done || lia). split_and!; [done|done|lia|lia|]. by exists n.
Qed.

End Typed.
