(* ===== verification/TtyKeys.v ===== *)
(** deps/isocline/src/tty.c and tty_esc.c: text that is typed and keys that are
    pushed as escape sequences, read back. *)
From S2P Require Import Prelude CLib Unicode Stringbuf SbufEdit Tty TtyProps.

(** ** Typed text *)

Lemma typed_served bs k x c timeout : bs !! k = Some x -> reply (typed bs k) c timeout = (true, x).
Proof. intros E. unfold reply, typed. rewrite E. cbn. by destruct (timeout <? 0). Qed.

Lemma typed_silent bs k c timeout : bs !! k = None -> fst (reply (typed bs k) c timeout) = false.
Proof. intros E. unfold reply, typed. rewrite E. cbn. by repeat case_match. Qed.

Lemma plain_text s : Forall plain s -> text_ok s.
Proof. intros H. eapply Forall_impl; [|exact H]. intros x [? ?]. lia. Qed.

Fixpoint tty_read_n (env : nat -> wait) (fuel n : nat) : tty_m (list Z) :=
  match n with
  | O => mret []
  | S n => u ← tty_read env fuel; us ← tty_read_n env fuel n; mret (u :: us)
  end.

Lemma new_left bs utf8 resize : left_to_read bs (tty_new utf8 resize) 3 bs (tty_new utf8 resize).
Proof. exists [], 0%nat. split_and!; [by split|done|cbn; lia|done]. Qed.

Lemma read_n_left bs t0 fuel : push_count t0 = 0 -> is_utf8 t0 = true -> forall f us s t,
  left_to_read bs t0 3 s t -> bytes_ok s -> Forall plain s -> code_points f s = Some us ->
  wp (tty_read_n (typed bs) fuel (length us)) (fun us' t' => us' = us /\ left_to_read bs t0 3 [] t') t.
Proof.
  intros H0 Hu f. induction f as [|f IH]; intros us s t H Hb Hp Hus.
  { destruct s; [|done]. injection Hus as <-. by apply wp_ret. }
  destruct (decide (s = [])) as [->|Hne]; [injection Hus as <-; by apply wp_ret|].
  assert (Hus' : ('(u, n) ← unicode_from_qutf8 s (Z.of_nat (length s)); us ← code_points f (drop (Z.to_nat n) s); Some (u :: us)) = Some us)
    by (by destruct s). clear Hus.
  destruct (unicode_from_qutf8 s (Z.of_nat (length s))) as [[u n]|] eqn:E; [|done]. cbn [mbind option_bind] in Hus'.
  destruct (code_points f (drop (Z.to_nat n) s)) as [us'|] eqn:Eus; [|done]. injection Hus' as <-. cbn [length tty_read_n].
  destruct s as [|c0 s]; [done|]. apply wp_bind, wp_bind. eapply wp_mono.
  { apply (read_key_left (typed bs) bs (typed_served bs) t0 H0 (typed_silent bs) Hu); [exact H|done| |].
    - by apply plain_text.
    - by apply Forall_cons_1 in Hp as [? _]. }
  intros [ok key] t' (-> & _ & _ & n' & E' & H'). rewrite E in E'. injection E' as <- ->. rewrite Nat2Z.id in Eus.
  apply wp_ret. cbn [negb]. apply wp_bind. eapply wp_mono; [apply (IH us' (drop n' (c0 :: s))); [exact H'|by apply Forall_drop|by apply Forall_drop|done]|].
  intros us'' t'' [-> H'']. by apply wp_ret.
Qed.

(** Whatever bytes are typed that are not control characters, UTF-8 or not,
    the keys that are read spell exactly these bytes again, and then nothing is
    left: [tty_read_utf8] may read three bytes too many, and pushes back what the
    decoder did not use in the right order.  (Four bytes that spell a code point
    of the raw plane are the exception.) *)
Theorem typed_text_is_read bs fuel resize :
  bytes_ok bs -> Forall plain bs -> ~ spells_raw bs ->
  exists us t' t'', tty_read_n (typed bs) fuel (length us) (tty_new true resize) = Some (us, t')
    /\ us ≫= qutf8 = bs /\ tty_read_timeout (typed bs) fuel 0 0 t' = Some ((false, 0), t'').
Proof.
  intros Hb Hp Hr. destruct (code_points_lossless (length bs) bs Hb (le_n _) Hr) as (us & Hus & Hq & _).
  destruct (read_n_left bs (tty_new true resize) fuel eq_refl eq_refl (length bs) us bs _ (new_left bs true resize) Hb Hp Hus)
    as (us' & t' & E & -> & H').
  assert (W : wp (tty_read_timeout (typed bs) fuel 0 0) (fun r _ => r = (false, 0)) t').
  { apply wp_bind. exists (false, 0), t'. split.
    - unfold tty_code_pop. destruct H' as (? & ? & _ & _ & _ & Hs). by rewrite (same_count _ _ Hs).
    - apply wp_bind. eapply (wp_left_end (typed bs) bs); [apply typed_silent|exact H'|]. intros y t'' _. by apply wp_ret. }
  destruct W as (r & t'' & E' & ->). by exists us, t', t''.
Qed.

Lemma typed_text_is_read_witness :
  exists us t' t'', tty_read_n (typed [108; 0xE2; 115; 0xC3; 0xA9; 0xFF]) 1 (length us) (tty_new true false) = Some (us, t')
    /\ us ≫= qutf8 = [108; 0xE2; 115; 0xC3; 0xA9; 0xFF]
    /\ tty_read_timeout (typed [108; 0xE2; 115; 0xC3; 0xA9; 0xFF]) 1 0 0 t' = Some ((false, 0), t'').
Proof.
  apply typed_text_is_read.
  - by repeat constructor.
  - repeat constructor; lia.
  - intros (i & u & E & _). do 7 (destruct i as [|i]; [by vm_compute in E|]). by rewrite drop_ge in E by (cbn; lia).
Defined.

(** ** Numbers in decimal *)

Definition digit (c : Z) : Prop := 48 <= c <= 57.
Definition digits_val (i : Z) (ds : bytes) : Z := foldl (fun i d => u32 (10 * i + (d - 48))) i ds.

Lemma digits_fuel_spec fuel n acc : 0 <= n < 2 ^ 32 -> n < 2 ^ Z.of_nat fuel -> (0 < fuel)%nat ->
  exists ds, bytes_of_string (digits_fuel fuel 10 n acc) = ds ++ bytes_of_string acc
    /\ Forall digit ds /\ digits_val 0 ds = n /\ ds <> [] /\ forall k, (1 <= k)%nat -> n < 10 ^ Z.of_nat k -> (length ds <= k)%nat.
Proof.
  revert n acc. induction fuel as [|fuel IH]; intros n acc Hn Hf Hp; [lia|]. cbn [digits_fuel].
  assert (Hm : 0 <= n mod 10 < 10) by (by apply Z.mod_pos_bound).
  assert (Hd : n = 10 * (n / 10) + n mod 10) by (by apply Z.div_mod).
  assert (Hlast : forall acc, bytes_of_string (String (digit_char (n mod 10)) acc) = [48 + n mod 10] ++ bytes_of_string acc).
  { intros a. unfold bytes_of_string. cbn [String.list_ascii_of_string map app]. by rewrite digit_char_code. }
  assert (Hdig : Forall digit [48 + n mod 10]) by (apply Forall_singleton; unfold digit; lia).
  destruct (Z.ltb_spec n 10) as [Hlt|Hge].
  - exists [48 + n mod 10]. split_and!; [apply Hlast|done| |done|cbn; lia]. cbn. rewrite u32_small by lia. lia.
  - assert (Hq : 1 <= n / 10 < n) by lia. rewrite Nat2Z.inj_succ, Z.pow_succ_r in Hf by lia.
    destruct (IH (n / 10) (String (digit_char (n mod 10)) acc)) as (ds & E & Hds & Hv & Hne & Hl); [lia|lia|destruct fuel; [cbn in Hf; lia|lia]|].
    exists (ds ++ [48 + n mod 10]). split_and!.
    + by rewrite E, Hlast, <- app_assoc.
    + by apply Forall_app.
    + unfold digits_val in *. rewrite foldl_snoc, Hv, u32_small by lia. lia.
    + by destruct ds.
    + intros k Hk Hlt. rewrite length_app. cbn. destruct k as [|[|k]]; [lia|cbn in Hlt; lia|].
      rewrite Nat2Z.inj_succ, Z.pow_succ_r in Hlt by lia. specialize (Hl (S k) ltac:(lia) ltac:(lia)). lia.
Qed.

Lemma number_spec n : 0 <= n < 2 ^ 32 ->
  exists d ds, number n = d :: ds /\ digit d /\ Forall digit ds /\ digits_val 0 (d :: ds) = n /\ (length ds <= 9)%nat.
Proof.
  intros Hn. unfold number, fmt_u, fmt_base. destruct (digits_fuel_spec (S (Z.to_nat (Z.log2 n))) n "") as (ds & E & Hd & Hv & Hne & Hl).
  - done.
  - apply log2_fuel. lia.
  - lia.
  - destruct ds as [|d ds]; [done|]. exists d, ds. cbn [bytes_of_string] in E. rewrite E, app_nil_r.
    apply Forall_cons_1 in Hd as [? ?]. split_and!; [done..|]. specialize (Hl 10%nat ltac:(lia) ltac:(lia)). cbn in Hl. lia.
Qed.

(** ** Pushed keys *)

Section Csi.
Context (env : nat -> wait) (t0 : tty) (no_codes : push_count t0 = 0).

(** The bytes pushed back; nothing is asked of the system. *)
Local Definition in_buffer := left_to_read [] t0.

Lemma nothing_served k x c timeout : @nil Z !! k = Some x -> reply (env k) c timeout = (true, x).
Proof. done. Qed.

Lemma csi_digits_left more timeout f rest : ~ digit f -> forall ds n count i x t,
  in_buffer n (ds ++ f :: rest) t -> digit x -> Forall digit ds -> (length ds < more)%nat ->
  wp (csi_digits env more timeout count i x)
    (fun '(c, v, peek) t' => c = count + Z.of_nat (length (x :: ds)) /\ v = digits_val i (x :: ds) /\ peek = f /\ in_buffer n rest t') t.
Proof.
  intros Hf. induction more as [|more IH]; intros ds n count i x t H Hx Hds Hl; [lia|]. cbn [csi_digits].
  rewrite (proj2 (Z.leb_le 48 x)), (proj2 (Z.leb_le x 57)) by (unfold digit in Hx; lia). cbn [andb].
  apply wp_bind. destruct ds as [|d ds]; cbn [app] in H; (eapply wp_left; [apply nothing_served|exact H|]); intros t' H';
    apply (left_weaken _ _ _ n) in H'; try lia.
  - destruct more as [|more]; [apply wp_ret; cbn; split_and!; by (done || lia)|]. cbn [csi_digits].
    assert ((48 <=? f) && (f <=? 57) = false) as ->.
    { unfold digit in Hf. destruct (Z.leb_spec 48 f), (Z.leb_spec f 57); done || lia. }
    apply wp_ret. cbn. split_and!; by (done || lia).
  - apply Forall_cons_1 in Hds as [Hd Hds]. cbn in Hl.
    eapply wp_mono; [apply (IH ds n); [done|done|done|lia]|]. intros [[c v] peek] t'' (-> & -> & -> & H'').
    split_and!; [cbn; lia|done|done|done].
Qed.

Lemma csi_num_left timeout f rest n a d ds t : number a = d :: ds -> 0 <= a < 2 ^ 32 -> ~ digit f -> in_buffer n (ds ++ f :: rest) t ->
  wp (tty_read_csi_num env d timeout) (fun r t' => r = (a, f) /\ in_buffer n rest t') t.
Proof.
  intros E Ha Hf H. destruct (number_spec a Ha) as (d' & ds' & E' & Hd & Hds & Hv & Hl). rewrite E in E'. injection E' as <- <-.
  apply wp_bind. eapply wp_mono; [apply (csi_digits_left _ _ f rest Hf ds n); [done|done|done|lia]|].
  intros [[c v] peek] t' (-> & -> & -> & H'). apply wp_ret. rewrite (proj2 (Z.ltb_lt 0 _)) by (cbn; lia). by rewrite Hv.
Qed.

Lemma digit_not_set d : digit d -> in_set "[Oo" d = false /\ in_set ":<=>?" d = false.
Proof.
  intros H. assert (E : forall k, (k < 10)%nat -> in_set "[Oo" (48 + Z.of_nat k) = false /\ in_set ":<=>?" (48 + Z.of_nat k) = false)
    by (intros k Hk; do 10 (destruct k as [|k]; [done|]); lia).
  specialize (E (Z.to_nat (d - 48))). unfold digit in H. rewrite Z2Nat.id in E by lia. replace (48 + (d - 48)) with d in E by lia.
  apply E. lia.
Qed.

(** ESC [ a ; b f *)
Lemma read_csi_left fuel timeout k0 a b f n rest t : 0 <= a < 2 ^ 32 -> 0 <= b < 2 ^ 32 -> ~ digit f ->
  in_buffer n ([27; 91] ++ number a ++ [59] ++ number b ++ f :: rest) t ->
  wp (tty_read_timeout env fuel timeout k0)
    (fun r t' => r = (true, modify_code (csi_code 91 a b f 0)) /\ in_buffer n rest t') t.
Proof.
  intros Ha Hb Hf H.
  destruct (number_spec a Ha) as (da & dsa & Ea & Hda & _). destruct (number_spec b Hb) as (db & dsb & Eb & Hdb & _).
  rewrite Ea, Eb in H. cbn [app] in H.
  assert (Hw : forall s t, in_buffer (n - 1) s t -> in_buffer n s t) by (intros ? ? ?; eapply left_weaken; [|done]; lia).
  apply wp_bind. exists (false, k0), t. split.
  { unfold tty_code_pop. destruct H as (? & ? & _ & _ & _ & Hs). by rewrite (same_count _ _ Hs), no_codes. }
  apply wp_bind. eapply wp_left; [apply nothing_served|exact H|]. intros t1 H1%Hw. cbn [negb]. cbn [Z.eqb KEY_ESC Pos.eqb].
  apply wp_bind, wp_bind, wp_gets, wp_bind, wp_gets.
  apply wp_bind. eapply wp_left; [apply nothing_served|exact H1|]. intros t2 H2%Hw. cbn [negb]. cbn [Z.eqb KEY_ESC Pos.eqb].
  apply wp_bind, wp_ret. cbn [negb]. change (91 =? code "[") with true. cbn iota.
  apply wp_bind. eapply wp_left; [apply nothing_served|exact H2|]. intros t3 H3%Hw. cbn [negb].
  destruct (digit_not_set da Hda) as [F1 F2]. change (code "[") with 91.
  apply wp_bind. rewrite F1, andb_false_r. apply wp_ret, wp_bind. rewrite F2. apply wp_ret. cbn [negb].
  apply wp_bind. eapply wp_mono; [apply (csi_num_left _ 59 (db :: dsb ++ f :: rest) n a da dsa); [exact Ea|exact Ha|unfold digit; lia|exact H3]|].
  intros r t4 [-> H4]. apply wp_bind, wp_bind. eapply wp_left; [apply nothing_served|exact H4|]. intros t5 H5%Hw. cbn [negb].
  apply wp_bind. eapply wp_mono; [apply (csi_num_left _ f rest n b db dsb); [exact Eb|exact Hb|exact Hf|exact H5]|].
  intros r t6 [-> H6]. apply wp_ret, wp_ret, wp_ret. done.
Qed.

End Csi.

(** The three ways a key is pushed. *)
Inductive pushed_key : Type :=
  | Vt (vtcode : Z)
  | Xterm (xcode : Z)
  | Unicode (u : Z).

Definition mods_of (shift alt ctrl : bool) : Z :=
  (if shift then KEY_MOD_SHIFT else 0) .| (if alt then KEY_MOD_ALT else 0) .| (if ctrl then KEY_MOD_CTRL else 0).

Definition push_key (mods : Z) (k : pushed_key) : tty_m unit :=
  match k with
  | Vt vtcode => tty_cpush_csi_vt mods vtcode
  | Xterm xcode => tty_cpush_csi_xterm mods xcode
  | Unicode u => tty_cpush_csi_unicode mods u
  end.

(** Codes and letters the sequences have room for; a lone ESC or NUL would be a raw byte. *)
Definition key_ok (k : pushed_key) : Prop :=
  match k with
  | Vt vtcode => 0 <= vtcode < 2 ^ 32
  | Xterm xcode => 65 <= xcode <= 90
  | Unicode u => 0 < u < 2 ^ 32 /\ u <> KEY_ESC
  end.

Definition with_mods (key mods : Z) : Z := if negb (key =? KEY_NONE) then key .| mods else KEY_NONE.

(** The key that was meant; shift is part of a printable character. *)
Definition key_meant (shift alt ctrl : bool) (k : pushed_key) : Z :=
  match k with
  | Vt vtcode => with_mods (esc_decode_vt vtcode) (mods_of shift alt ctrl)
  | Xterm xcode => with_mods (esc_decode_xterm xcode) (mods_of shift alt ctrl)
  | Unicode u => if shift && negb alt && negb ctrl && (32 <=? u) && (u <=? 127) then u else with_mods u (mods_of shift alt ctrl)
  end.

Lemma csi_mods_range shift alt ctrl : 1 <= csi_mods (mods_of shift alt ctrl) <= 8.
Proof. by destruct shift, alt, ctrl. Qed.

Lemma csi_code_vt shift alt ctrl n : csi_code 91 n (csi_mods (mods_of shift alt ctrl)) 126 0 = with_mods (esc_decode_vt n) (mods_of shift alt ctrl).
Proof. destruct shift, alt, ctrl; reflexivity. Qed.

Lemma csi_code_unicode shift alt ctrl n : csi_code 91 n (csi_mods (mods_of shift alt ctrl)) 117 0 = with_mods n (mods_of shift alt ctrl).
Proof. destruct shift, alt, ctrl; reflexivity. Qed.

Lemma csi_code_xterm shift alt ctrl x : 65 <= x <= 90 ->
  csi_code 91 1 (csi_mods (mods_of shift alt ctrl)) x 0 = with_mods (esc_decode_xterm x) (mods_of shift alt ctrl).
Proof.
  intros Hx. replace x with (65 + Z.of_nat (Z.to_nat (x - 65))) by lia. assert (Hn : (Z.to_nat (x - 65) < 26)%nat) by lia.
  generalize dependent (Z.to_nat (x - 65)). clear x Hx. intros n Hn.
  do 26 (destruct n as [|n]; [destruct shift, alt, ctrl; reflexivity|]). lia.
Qed.

Lemma mods_tests shift alt ctrl :
  (mods_of shift alt ctrl =? 0) = negb shift && negb alt && negb ctrl
  /\ (mods_of shift alt ctrl =? KEY_MOD_CTRL) = negb shift && negb alt && ctrl
  /\ (mods_of shift alt ctrl =? KEY_MOD_SHIFT) = shift && negb alt && negb ctrl.
Proof. by destruct shift, alt, ctrl. Qed.

Section Pushed.
Context (env : nat -> wait) (fuel : nat) (t : tty).
Context (t_ok : tty_ok t) (no_code : push_count t = 0) (nothing_pushed : pushed t = []).

Lemma cpush_in_buffer s r : text_ok s -> (length s <= 32)%nat ->
  exists t', tty_cpush (s ++ 0 :: r) t = Some (tt, t') /\ in_buffer t 32 s t'.
Proof.
  intros Hs Hl. destruct (tty_ok_at t t_ok) as [Hat _]. rewrite nothing_pushed in Hat.
  destruct (cpush_at s r [] (waits t) t Hat Hs) as (t' & E & H' & Ss); [lia|cbn; lia|]. exists t'. split; [done|].
  rewrite app_nil_r in H'. exists s, (waits t). split_and!; [done|by rewrite drop_nil, app_nil_r|done|done].
Qed.

Lemma digits_text ds : Forall digit ds -> text_ok ds.
Proof. intros H. eapply Forall_impl; [|exact H]. unfold digit. lia. Qed.

(** A sequence that is pushed and read. *)
Lemma push_csi_read a b f : 0 <= a < 2 ^ 32 -> 1 <= b <= 8 -> ~ digit f -> f <> 0 ->
  exists t' t'', tty_cpushf ([27; 91] ++ number a ++ [59] ++ number b ++ [f]) t = Some (tt, t')
    /\ tty_read env fuel t' = Some (modify_code (csi_code 91 a b f 0), t'') /\ pushed t'' = [].
Proof.
  intros Ha Hb Hf Hf0. destruct (number_spec a Ha) as (da & dsa & Ea & Hda & Hdsa & _ & Hla).
  assert (Hb' : 0 <= b < 2 ^ 32) by lia. assert (Eb : number b = [48 + b]).
  { replace b with (1 + Z.of_nat (Z.to_nat (b - 1))) by lia. assert (Hn : (Z.to_nat (b - 1) < 8)%nat) by lia.
    generalize dependent (Z.to_nat (b - 1)). clear. intros n Hn. do 8 (destruct n as [|n]; [reflexivity|]). lia. }
  set (s := [27; 91] ++ number a ++ [59] ++ number b ++ [f]).
  assert (Hlen : (length s <= 31)%nat) by (unfold s; rewrite Ea, Eb, !length_app; cbn; lia).
  assert (Hs : text_ok s).
  { unfold s. rewrite Ea, Eb. apply text_ok_app. split; [by repeat constructor|]. apply text_ok_app. split; [apply digits_text; by constructor|].
    repeat constructor; lia. }
  destruct (cpush_in_buffer s [] Hs ltac:(lia)) as (t' & E & H'). exists t'.
  assert (W : wp (tty_read env fuel) (fun r t'' => r = modify_code (csi_code 91 a b f 0) /\ in_buffer t 32 [] t'') t').
  { apply wp_bind. eapply wp_mono; [apply (read_csi_left env t no_code fuel (-1) 0 a b f 32 [] t' Ha Hb' Hf H')|].
    intros r t'' [-> H'']. by apply wp_ret. }
  destruct W as (r & t'' & Er & -> & p & k & Hp & Hnil & _). exists t''. split_and!; [|done|].
  - unfold tty_cpushf. rewrite take_ge by lia. exact E.
  - apply app_nil in Hnil as [-> _]. apply (at_pushed _ _ _ Hp).
Qed.

(** A byte that is pushed and read. *)
Lemma push_char_read c : 0 < c <= 127 -> c <> KEY_ESC ->
  exists t' t'', tty_cpush_char c t = Some (tt, t') /\ tty_read env fuel t' = Some (modify_code c, t'') /\ pushed t'' = [].
Proof.
  intros Hc He. destruct (cpush_in_buffer [c] [] ltac:(apply Forall_singleton; lia) ltac:(cbn; lia)) as (t' & E & H'). exists t'.
  assert (H3 : left_to_read [] t 3 [c] t').
  { destruct H' as (p & k & H1 & H2 & H3 & H4). exists p, k. split_and!; [done|done| |done].
    rewrite drop_nil, app_nil_r in H2. subst p. cbn. lia. }
  assert (W : wp (tty_read env fuel) (fun r t'' => r = modify_code c /\ left_to_read [] t 3 [] t'') t').
  { apply wp_bind. eapply wp_mono; [apply (read_ascii_left env [] ltac:(done) t no_code fuel (-1) 0 c [] t' H3 ltac:(lia) He)|].
    intros [ok key] t'' (-> & -> & H''). by apply wp_ret. }
  destruct W as (r & t'' & Er & -> & p & k & Hp & Hnil & _). exists t''. split_and!; [done|done|].
  apply app_nil in Hnil as [-> _]. apply (at_pushed _ _ _ Hp).
Qed.

Lemma ctrl_control u : 0 < u < 32 -> u <> KEY_TAB -> u <> KEY_ENTER -> modify_code u = modify_code (with_mods u KEY_MOD_CTRL).
Proof.
  unfold KEY_TAB, KEY_ENTER. intros Hu H1 H2. replace u with (Z.of_nat (Z.to_nat u)) in * by lia.
  assert (Hn : (Z.to_nat u < 32)%nat) by lia. generalize dependent (Z.to_nat u). clear u. intros n Hu H1 H2 Hn.
  do 32 (destruct n as [|n]; [by (lia || reflexivity)|]). lia.
Qed.

(** A key that is pushed as an escape sequence (or as a byte, where that is
    shorter) is decoded to what the tables and [modify_code] make of it. *)
Lemma pushed_key_decoded shift alt ctrl k :
  key_ok k ->
  exists t' t'', push_key (mods_of shift alt ctrl) k t = Some (tt, t')
    /\ tty_read env fuel t' = Some (modify_code (key_meant shift alt ctrl k), t'') /\ pushed t'' = [].
Proof.
  pose proof (csi_mods_range shift alt ctrl) as Hm. destruct k as [n|x|u]; cbn [key_ok push_key key_meant].
  - intros Hn. rewrite <- csi_code_vt. apply push_csi_read; [done|done|unfold digit; lia|lia].
  - intros Hx. rewrite <- csi_code_xterm by done. apply (push_csi_read 1); [lia|done|unfold digit; lia|lia].
  - intros [Hu Hesc]. unfold tty_cpush_csi_unicode.
    assert (Hcsi : exists t' t'', tty_cpushf ([27; 91] ++ number u ++ [59] ++ number (csi_mods (mods_of shift alt ctrl)) ++ [117]) t = Some (tt, t')
      /\ tty_read env fuel t' = Some (modify_code (with_mods u (mods_of shift alt ctrl)), t'') /\ pushed t'' = []).
    { rewrite <- csi_code_unicode. apply push_csi_read; [lia|done|unfold digit; lia|lia]. }
    assert (Hch : 0 < u <= 127 -> exists t' t'', tty_cpush_char (u8 u) t = Some (tt, t') /\ tty_read env fuel t' = Some (modify_code u, t'') /\ pushed t'' = []).
    { intros Hu'. rewrite u8_small by lia. by apply push_char_read. }
    assert (Hw0 : with_mods u 0 = u) by (unfold with_mods, KEY_NONE; rewrite (proj2 (Z.eqb_neq u 0)) by lia; apply Z.lor_0_r).
    destruct (mods_tests shift alt ctrl) as (-> & -> & ->).
    destruct shift, alt, ctrl; cbn [andb orb negb]; rewrite ?andb_false_r, ?andb_true_r, ?orb_false_r; try exact Hcsi.
    + destruct ((32 <=? u) && (u <=? KEY_RUBOUT)) eqn:E; unfold KEY_RUBOUT in E; rewrite E; [apply Hch; lia|exact Hcsi].
    + destruct (((u <? 32) && negb (u =? KEY_TAB) && negb (u =? KEY_ENTER) && negb (u =? KEY_LINEFEED) && negb (u =? KEY_BACKSP))) eqn:E;
        [|exact Hcsi]. change (mods_of false false true) with KEY_MOD_CTRL. unfold KEY_TAB, KEY_ENTER, KEY_LINEFEED, KEY_BACKSP in E.
      rewrite <- ctrl_control by (unfold KEY_TAB, KEY_ENTER; lia). apply Hch. lia.
    + destruct (u <? 128) eqn:E; [|exact Hcsi]. change (mods_of false false false) with 0. rewrite Hw0. apply Hch. lia.
Qed.
End Pushed.

(** ** The documented keys

    The tables of tty_esc.c:76-101 as they are written there, less vt 10 to 15
    (six codes for F1 to F5, see [f5_is_read_as_f6]) and xterm Z (shift+Tab, a
    key with a modifier of its own). *)
Definition vt_keys : list (Z * Z) :=
  [(1, KEY_HOME); (2, KEY_INS); (3, KEY_DEL); (4, KEY_END); (5, KEY_PAGEUP); (6, KEY_PAGEDOWN); (7, KEY_HOME); (8, KEY_END);
   (16, KEY_F 5); (17, KEY_F 6); (18, KEY_F 7); (19, KEY_F 8); (20, KEY_F 9); (21, KEY_F 10);
   (23, KEY_F 11); (24, KEY_F 12); (25, KEY_F 13); (26, KEY_F 14); (28, KEY_F 15); (29, KEY_F 16);
   (31, KEY_F 17); (32, KEY_F 18); (33, KEY_F 19); (34, KEY_F 20)].
Definition xterm_keys : list (ascii * Z) :=
  [("A", KEY_UP); ("B", KEY_DOWN); ("C", KEY_RIGHT); ("D", KEY_LEFT); ("E", 53); ("F", KEY_END); ("H", KEY_HOME);
   ("I", KEY_PAGEUP); ("L", KEY_INS); ("M", KEY_F 1); ("N", KEY_F 2); ("O", KEY_F 3); ("P", KEY_F 4); ("Q", KEY_F 5);
   ("R", KEY_F 6); ("S", KEY_F 7); ("T", KEY_F 8); ("U", KEY_PAGEDOWN); ("V", KEY_PAGEUP); ("W", KEY_F 11);
   ("X", KEY_F 12); ("Y", KEY_END)]%char.

(** The key a sequence stands for; as a code point, any that is no control
    character. *)
Definition stands_for (k : pushed_key) (key : Z) : Prop :=
  match k with
  | Vt n => (n, key) ∈ vt_keys
  | Xterm x => exists c, (c, key) ∈ xterm_keys /\ x = code c
  | Unicode u => 32 <= u <= KEY_UNICODE_MAX /\ u <> KEY_RUBOUT /\ key = u
  end.

(** What is read for it: alt+Down, alt+'>' and control+End are PageDown, alt+Up,
    alt+'<' and control+Home are PageUp; shift belongs to a printable ASCII
    character; otherwise it is the key with its modifiers. *)
Definition read_as (shift alt ctrl : bool) (k : pushed_key) (key : Z) : Z :=
  let only_alt := alt && negb shift && negb ctrl in
  let only_ctrl := ctrl && negb shift && negb alt in
  let only_shift := shift && negb alt && negb ctrl in
  if only_alt && ((key =? KEY_DOWN) || (key =? 62)) || only_ctrl && (key =? KEY_END) then KEY_PAGEDOWN
  else if only_alt && ((key =? KEY_UP) || (key =? 60)) || only_ctrl && (key =? KEY_HOME) then KEY_PAGEUP
  else if only_shift && match k with Unicode _ => key <=? 127 | _ => false end then key
  else key .| mods_of shift alt ctrl.

Lemma vt_table : Forall (fun p => forall shift alt ctrl,
  modify_code (key_meant shift alt ctrl (Vt (fst p))) = read_as shift alt ctrl (Vt (fst p)) (snd p)) vt_keys.
Proof. repeat (apply Forall_cons; [intros [] [] []; reflexivity|]). apply Forall_nil. Qed.

Lemma xterm_table : Forall (fun p => forall shift alt ctrl,
  modify_code (key_meant shift alt ctrl (Xterm (code (fst p)))) = read_as shift alt ctrl (Xterm (code (fst p))) (snd p)) xterm_keys.
Proof. repeat (apply Forall_cons; [intros [] [] []; reflexivity|]). apply Forall_nil. Qed.

(** A key and its modifiers are in different bits. *)
Lemma key_split u shift alt ctrl : 0 <= u < 2 ^ 28 ->
  KEY_NO_MODS (u .| mods_of shift alt ctrl) = u /\ KEY_MODS (u .| mods_of shift alt ctrl) = mods_of shift alt ctrl.
Proof.
  intros Hu. assert (E : u = u .& Z.ones 28) by (rewrite Z.land_ones by lia; rewrite Z.mod_small; lia).
  unfold KEY_NO_MODS, KEY_MODS. rewrite !Z.land_lor_distr_l. split.
  - assert (mods_of shift alt ctrl .& 0x0FFFFFFF = 0) as -> by (by destruct shift, alt, ctrl).
    rewrite Z.lor_0_r. change 0x0FFFFFFF with (Z.ones 28). by rewrite <- E.
  - assert (u .& 0xF0000000 = 0) as -> by (rewrite E, <- Z.land_assoc; change (Z.ones 28 .& 0xF0000000) with 0; apply Z.land_0_r).
    rewrite Z.lor_0_l. by destruct shift, alt, ctrl.
Qed.

(** Two keys with modifiers are equal when both parts are. *)
Lemma key_eqb u k shift alt ctrl shift' alt' ctrl' : 0 <= u < 2 ^ 28 -> 0 <= k < 2 ^ 28 ->
  (u .| mods_of shift alt ctrl =? k .| mods_of shift' alt' ctrl')
  = (u =? k) && (mods_of shift alt ctrl =? mods_of shift' alt' ctrl').
Proof.
  intros Hu Hk. destruct (key_split u shift alt ctrl Hu) as [U1 U2]. destruct (key_split k shift' alt' ctrl' Hk) as [K1 K2].
  destruct (Z.eqb_spec u k) as [->|Hn]; cbn [andb].
  - destruct (Z.eqb_spec (mods_of shift alt ctrl) (mods_of shift' alt' ctrl')) as [->|Hn]; [apply Z.eqb_refl|].
    apply Z.eqb_neq. intros E. apply Hn. by rewrite <- U2, <- K2, E.
  - apply Z.eqb_neq. intros E. apply Hn. by rewrite <- U1, <- K1, E.
Qed.

Lemma unicode_read u shift alt ctrl : 32 <= u <= KEY_UNICODE_MAX -> u <> KEY_RUBOUT ->
  modify_code (key_meant shift alt ctrl (Unicode u)) = read_as shift alt ctrl (Unicode u) u.
Proof.
  unfold KEY_UNICODE_MAX, KEY_RUBOUT. intros Hu Hr.
  assert (Hw : forall m, with_mods u m = u .| m) by (intros m; unfold with_mods; by rewrite (proj2 (Z.eqb_neq u KEY_NONE)) by (unfold KEY_NONE; lia)).
  assert (Hm : forall s a c, modify_code (u .| mods_of s a c) =
    if a && negb s && negb c && (u =? 62) then KEY_PAGEDOWN else if a && negb s && negb c && (u =? 60) then KEY_PAGEUP
    else u .| mods_of s a c).
  { intros s a c. destruct (key_split u s a c ltac:(lia)) as [K1 K2]. unfold modify_code. rewrite K1, K2. cbv zeta.
    unfold KEY_RUBOUT, KEY_ENTER.
    rewrite (proj2 (Z.eqb_neq u 127)), (proj2 (Z.eqb_neq u 31)), (proj2 (Z.eqb_neq u 13)) by lia. cbn [andb].
    assert (Hc : forall k, WITH_CTRL k = k .| mods_of false false true) by done.
    assert (Ha : forall k, WITH_ALT k = k .| mods_of false true false) by done.
    rewrite !Hc, !Ha.
    rewrite !key_eqb by (unfold KEY_TAB, KEY_DOWN, KEY_END, KEY_UP, KEY_HOME, KEY_VIRT; lia).
    unfold KEY_TAB, KEY_DOWN, KEY_END, KEY_UP, KEY_HOME, KEY_VIRT.
    rewrite (proj2 (Z.eqb_neq u 9)), !(proj2 (Z.eqb_neq u (_ + _))) by lia. cbn [andb orb].
    destruct (Z.eqb_spec u 62) as [->|]; [by destruct s, a, c|]. destruct (Z.eqb_spec u 60) as [->|]; [by destruct s, a, c|].
    cbn [andb orb]. rewrite (proj2 (Z.ltb_ge u 32)) by lia. by rewrite !andb_false_r. }
  unfold key_meant, read_as. cbv zeta. rewrite Hw, (proj2 (Z.leb_le 32 u)) by lia.
  unfold KEY_DOWN, KEY_END, KEY_UP, KEY_HOME, KEY_VIRT. rewrite !(proj2 (Z.eqb_neq u (_ + _))) by lia.
  rewrite !orb_false_l, !andb_false_r, !orb_false_r, andb_true_r.
  destruct (shift && negb alt && negb ctrl && (u <=? 127)) eqn:E.
  - rewrite <- (Z.lor_0_r u) at 1. change 0 with (mods_of false false false) at 1. rewrite Hm. cbn [andb]. rewrite Z.lor_0_r.
    by destruct shift, alt, ctrl.
  - apply Hm.
Qed.

(** C12: a key that is pushed as an escape sequence, or as a byte where that is
    shorter, is read back as the key the tables of tty_esc.c document for it,
    with its modifiers, whatever the system would have answered: every vt code
    (but 10 to 15) and every xterm letter (but Z) of the tables and every code
    point that is no control character, under every combination of shift, alt
    and control.  Nothing else is pushed back before or after. *)
Theorem pushed_key_is_read env fuel t shift alt ctrl k key :
  tty_ok t -> push_count t = 0 -> pushed t = [] -> stands_for k key ->
  exists t' t'', push_key (mods_of shift alt ctrl) k t = Some (tt, t')
    /\ tty_read env fuel t' = Some (read_as shift alt ctrl k key, t'') /\ pushed t'' = [].
Proof.
  intros Ht Hc Hp Hk.
  assert (key_ok k /\ modify_code (key_meant shift alt ctrl k) = read_as shift alt ctrl k key) as [Hok <-].
  { destruct k as [n|x|u]; cbn [stands_for key_ok] in *.
    - split; [|by apply (proj1 (List.Forall_forall _ _) vt_table (n, key)), list_elem_of_In].
      assert (Forall (fun p => 0 <= fst p < 2 ^ 32) vt_keys) as H by (by repeat constructor).
      by apply (proj1 (List.Forall_forall _ _) H (n, key)), list_elem_of_In.
    - destruct Hk as (c & Hin & ->). split; [|by apply (proj1 (List.Forall_forall _ _) xterm_table (c, key)), list_elem_of_In].
      assert (Forall (fun p => 65 <= code (fst p) <= 90) xterm_keys) as H by (by repeat constructor).
      by apply (proj1 (List.Forall_forall _ _) H (c, key)), list_elem_of_In.
    - destruct Hk as (Hu & Hr & ->). unfold KEY_UNICODE_MAX, KEY_ESC in *. split; [lia|by apply unicode_read]. }
  by apply pushed_key_decoded.
Qed.

Lemma pushed_key_is_read_witness :
  exists t' t'', push_key (mods_of true false true) (Vt 23) (tty_new true false) = Some (tt, t')
    /\ tty_read (typed []) 1 t' = Some (KEY_F 11 .| KEY_MOD_SHIFT .| KEY_MOD_CTRL, t'') /\ pushed t'' = [].
Proof.
  apply (pushed_key_is_read (typed []) 1 (tty_new true false) true false true (Vt 23) (KEY_F 11));
    [apply new_tty_ok|reflexivity|reflexivity|].
  cbn [stands_for]. apply (bool_decide_unpack _). vm_compute. reflexivity.
Defined.

(** C30: A key is always read, and the terminal keeps its invariant: whatever the
    system answers, once it pauses after the first byte, [tty_read_timeout]
    returns, and at most three bytes are pushed back when it does.  The byte
    buffer has room for 32, so the guard of [tty_cpush], which tests the count of
    the other buffer, is never needed. *)
Theorem tty_read_keeps_invariant env fuel timeout code t j :
  (forall k b, w_read (env k) = Some b -> byte_ok b) -> tty_ok t ->
  (waits t < j)%nat -> pause (env j) -> (3 + (j - waits t) < fuel)%nat ->
  exists ok key t', tty_read_timeout env fuel timeout code t = Some ((ok, key), t') /\ tty_ok t'.
Proof. apply read_timeout_ok. Qed.

Lemma tty_read_keeps_invariant_witness :
  exists ok key t', tty_read_timeout (typed [27; 93; 48; 59; 27; 92]) 20 (-1) 0 (tty_new true false) = Some ((ok, key), t') /\ tty_ok t'.
Proof.
  apply (tty_read_keeps_invariant _ 20 (-1) 0 _ 6).
  - intros k b. unfold typed. do 6 (destruct k as [|k]; [intros [= <-]; done|]). done.
  - apply new_tty_ok.
  - cbn. lia.
  - by left.
  - cbn. lia.
Defined.

(** ESC [ 15 ~ and ESC [ [ 15 ~ are F5 (tty_esc.c:242); the table makes them F6. *)
Theorem f5_is_read_as_f6 :
  fst <$> tty_read (typed [27; 91; 49; 53; 126]) 1 (tty_new true false) = Some (KEY_F 6)
  /\ fst <$> tty_read (typed [27; 91; 91; 49; 53; 126]) 1 (tty_new true false) = Some (KEY_F 6)
  /\ fst <$> tty_read (typed [27; 91; 49; 49; 126]) 1 (tty_new true false) = Some (KEY_F 2).
Proof. by vm_compute. Qed.

(** rxvt's ESC [ 3 @ is shift+ctrl, not alt as the table says. *)
Theorem at_sign_is_shift_ctrl :
  fst <$> tty_read (typed [27; 91; 51; 64]) 1 (tty_new true false) = Some (KEY_DEL .| KEY_MOD_SHIFT .| KEY_MOD_CTRL).
Proof. by vm_compute. Qed.

(** An answer of 128 digits: the terminating NUL is written behind [char buf[128]]. *)
Theorem esc_response_overflows :
  tty_read_esc_response (typed ([27; 91] ++ replicate 130 49)) 91 false (replicate 128 0) 128 (tty_new true false) = None
  /\ tty_read_esc_response (typed ([27; 91] ++ replicate 130 49)) 91 false (replicate 129 0) 128 (tty_new true false) <> None.
Proof. by vm_compute. Qed.

(** A NUL byte that was read ahead is dropped: [tty_cpush_char] pushes a string. *)
Theorem nul_is_not_pushed_back :
  fst <$> tty_read_n (typed [0xE2; 0; 65]) 1 2 (tty_new true false) = Some [unicode_from_raw 0xE2; 65].
Proof. by vm_compute. Qed.

Definition full_codes : tty := Tty false true false false (replicate 32 65) 32 (replicate 32 0) 0 100 10 0.
Definition full_bytes : tty := Tty false true false false (replicate 32 0) 0 (replicate 32 65) 32 100 10 0.

(** The guard of [tty_cpush] looks at the wrong buffer: it drops a byte when 32
    keys are pushed back, and lets a 33rd byte be written. *)
Theorem cpush_guard_tests_other_buffer :
  tty_cpush_char 65 full_codes = Some (tt, full_codes) /\ tty_cpush_char 65 full_bytes = None
  /\ (push_count full_codes + 1 <=? TTY_PUSH_MAX) = false /\ (push_count full_bytes + 1 <=? TTY_PUSH_MAX) = true.
Proof. by vm_compute. Qed.
