(* ===== verification/EditLine.v ===== *)
(** deps/isocline/src/editline.c and highlight.c: the line editor.

    An editor is its text buffer, the cursor, the undo and redo stacks and the
    history it moves through.  What is drawn is left out: [edit_refresh] and its
    helpers write to the terminal and change only the rows they remember.  The
    completer of the shell adds no completions, so there is never a hint and the
    completion menu never opens.  [None] is an access outside an object. *)
From S2P Require Import Prelude CLib Unicode Stringbuf SbufEdit SbufNav History Tty.

(** ** Settings and state *)

(** [env]: what [run_test] and [ic_env_create] set, and the widths of the terminal
    and the prompts. *)
Record settings := Settings {
  singleline_only : bool; multiline_eol : Z; no_autobrace : bool; auto_braces : bytes; match_braces : bytes;
  termw : Z; promptw : Z; cpromptw : Z
}.

Definition default_match_braces : bytes := bytes_of_string "()[]{}".
Definition default_auto_braces : bytes := default_match_braces ++ [34; 34; 39; 39].

(** The shell's settings on a terminal [w] wide, with a prompt [p] wide. *)
Definition shell_settings (w p : Z) : settings := Settings true 92 false default_auto_braces default_match_braces w p p.

Record editor := Editor {
  ed_input : stringbuf; ed_pos : Z; ed_modified : bool; ed_disable_undo : bool; ed_history_idx : Z;
  ed_undo : editstate; ed_redo : editstate; ed_history : history
}.

Definition with_input (e : editor) (input : stringbuf) (pos : Z) : editor :=
  Editor input pos (ed_modified e) (ed_disable_undo e) (ed_history_idx e) (ed_undo e) (ed_redo e) (ed_history e).
Definition with_pos (e : editor) (pos : Z) : editor := with_input e (ed_input e) pos.
Definition with_modified (e : editor) (m : bool) : editor :=
  Editor (ed_input e) (ed_pos e) m (ed_disable_undo e) (ed_history_idx e) (ed_undo e) (ed_redo e) (ed_history e).
Definition with_undo (e : editor) (undo redo : editstate) : editor :=
  Editor (ed_input e) (ed_pos e) (ed_modified e) (ed_disable_undo e) (ed_history_idx e) undo redo (ed_history e).
Definition with_disable_undo (e : editor) (d : bool) : editor :=
  Editor (ed_input e) (ed_pos e) (ed_modified e) d (ed_history_idx e) (ed_undo e) (ed_redo e) (ed_history e).
Definition with_history (e : editor) (idx : Z) (h : history) : editor :=
  Editor (ed_input e) (ed_pos e) (ed_modified e) (ed_disable_undo e) idx (ed_undo e) (ed_redo e) h.

Section Editor.
Context {A : allocator} (env : settings).

(** ** Undo and redo *)

Definition editor_capture (eb : editor) (es : editstate) : option editstate :=
  if ed_disable_undo eb then Some es else editstate_capture es (sbuf_string (ed_input eb)) (ed_pos eb).

Definition editor_undo_capture (eb : editor) : option editor :=
  undo ← editor_capture eb (ed_undo eb); Some (with_undo eb undo (ed_redo eb)).

Definition editor_undo_forget (eb : editor) : editor :=
  if ed_disable_undo eb then eb else with_undo eb (snd (editstate_restore (ed_undo eb))) (ed_redo eb).

(** The state on top of [undo] becomes the input; [redo]: the input is captured there. *)
Definition editor_undo_restore (eb : editor) (with_redo : bool) : option editor :=
  if ed_disable_undo eb then Some eb
  else match ed_undo eb with
       | [] => Some eb
       | (s, pos) :: undo =>
           redo ← (if with_redo then editor_capture eb (ed_redo eb) else Some (ed_redo eb));
           input ← sbuf_replace (ed_input eb) (Some s);
           Some (with_modified (with_undo (with_input eb input pos) undo redo) false)
       end.

Definition editor_redo_restore (eb : editor) : option editor :=
  if ed_disable_undo eb then Some (with_modified eb false)
  else match ed_redo eb with
       | [] => Some (with_modified eb false)
       | (s, pos) :: redo =>
           undo ← editor_capture eb (ed_undo eb);
           input ← sbuf_replace (ed_input eb) (Some s);
           Some (with_modified (with_undo (with_input eb input pos) undo redo) false)
       end.

Definition editor_start_modify (eb : editor) : option editor :=
  eb ← editor_undo_capture eb;
  Some (with_modified (with_undo eb (ed_undo eb) (editstate_done (ed_redo eb))) true).

Definition editor_pos_is_at_end (eb : editor) : bool := ed_pos eb =? sbuf_len (ed_input eb).

(** ** Moving the cursor *)

(** [x < 0] leaves the cursor. *)
Definition move_to (eb : editor) (x : option Z) : option editor :=
  x ← x; Some (if x <? 0 then eb else with_pos eb x).

Definition edit_get_rowcol (eb : editor) : option (Z * rowcol) :=
  sbuf_get_rc_at_pos (ed_input eb) (termw env) (promptw env) (cpromptw env) (ed_pos eb).
Definition edit_set_pos_at_rowcol (eb : editor) (row col : Z) : option editor :=
  move_to eb (sbuf_get_pos_at_rc (ed_input eb) (termw env) (promptw env) (cpromptw env) row col).
Definition edit_pos_is_at_row_end (eb : editor) : option bool := rc_last_on_row ∘ snd <$> edit_get_rowcol eb.

Definition edit_cursor_left (eb : editor) : option editor := move_to eb (sbuf_prev (ed_input eb) (ed_pos eb)).
Definition edit_cursor_right (eb : editor) : option editor := move_to eb (sbuf_next (ed_input eb) (ed_pos eb)).
Definition edit_cursor_line_end (eb : editor) : option editor := move_to eb (sbuf_find_line_end (ed_input eb) (ed_pos eb)).
Definition edit_cursor_line_start (eb : editor) : option editor := move_to eb (sbuf_find_line_start (ed_input eb) (ed_pos eb)).
Definition edit_cursor_next_word (eb : editor) : option editor := move_to eb (sbuf_find_word_end (ed_input eb) (ed_pos eb)).
Definition edit_cursor_prev_word (eb : editor) : option editor := move_to eb (sbuf_find_word_start (ed_input eb) (ed_pos eb)).
Definition edit_cursor_to_start (eb : editor) : option editor := Some (with_pos eb 0).
Definition edit_cursor_to_end (eb : editor) : option editor := Some (with_pos eb (sbuf_len (ed_input eb))).

(** ** Braces *)

Definition MAX_NESTING : nat := 64.

(** The partner of [c] where [c] opens a pair, and whether it closes one. *)
Fixpoint opens (braces : bytes) (c : Z) : option Z :=
  match braces with
  | o :: k :: braces => if c =? o then Some k else opens braces c
  | [o] => if c =? o then Some 0 else None
  | [] => None
  end.
Fixpoint closes (braces : bytes) (c : Z) : bool :=
  match braces with _ :: k :: braces => (c =? k) || closes braces c | _ => false end.

Record brace_scan := BraceScan { bs_open : list (Z * bool * Z); bs_balanced : bool; bs_match : Z }.

(** The loop over [s] from [i]; [None]: too deep. *)
Fixpoint scan_braces (braces : bytes) (cursor_pos : Z) (s : bytes) (i : Z) (st : brace_scan) : option brace_scan :=
  match s with
  | [] => Some st
  | c :: s =>
      match opens braces c with
      | Some close =>
          if (MAX_NESTING <=? length (bs_open st))%nat then None
          else scan_braces braces cursor_pos s (i + 1)
                 (BraceScan ((close, i =? cursor_pos - 1, i) :: bs_open st) (bs_balanced st) (bs_match st))
      | None =>
          let st :=
            if closes braces c then
              match bs_open st with
              | [] => BraceScan [] false (bs_match st)
              | (close, at_cursor, pos) :: open =>
                  if negb (close =? c) then BraceScan (bs_open st) false (bs_match st)
                  else BraceScan open (bs_balanced st)
                         (if i =? cursor_pos - 1 then pos + 1 else if (at_cursor : bool) then i + 1 else bs_match st)
              end
            else st in
          scan_braces braces cursor_pos s (i + 1) st
      end
  end.

(** The position after the matching brace, or -1, and whether all of [s] is balanced. *)
Definition find_matching_brace (s : bytes) (cursor_pos : Z) (braces : bytes) : Z * bool :=
  match scan_braces braces cursor_pos s 0 (BraceScan [] true (-1)) with
  | None => (-1, false)
  | Some st => (bs_match st, bs_balanced st && match bs_open st with [] => true | _ => false end)
  end.

(** The text of the input. *)
Definition input_text (eb : editor) : option bytes := s ← sbuf_string (ed_input eb); c_text s.

Definition edit_cursor_match_brace (eb : editor) : option editor :=
  s ← input_text eb; move_to eb (Some (fst (find_matching_brace s (ed_pos eb) (match_braces env)))).

(** The loop over the pairs of [braces]; [c] was typed before the cursor. *)
Fixpoint auto_brace_loop (braces : bytes) (eb : editor) (c : Z) : option editor :=
  match braces with
  | [] => Some eb
  | o :: rest =>
      let close := default 0 (head rest) in
      if o =? c then
        '(_, input) ← sbuf_insert_char_at (ed_input eb) close (ed_pos eb);
        let eb := with_input eb input (ed_pos eb) in
        s ← input_text eb;
        if negb (snd (find_matching_brace s (ed_pos eb) (auto_braces env))) then
          input ← sbuf_delete_char_at (ed_input eb) (ed_pos eb); Some (with_input eb input (ed_pos eb))
        else Some eb
      else if close =? c then
        here ← sbuf_char_at (ed_input eb) (ed_pos eb);
        if here =? c then input ← sbuf_delete_char_at (ed_input eb) (ed_pos eb); Some (with_input eb input (ed_pos eb))
        else Some eb
      else match rest with [] => Some eb | _ :: braces => auto_brace_loop braces eb c end
  end.

Definition edit_auto_brace (eb : editor) (c : Z) : option editor :=
  if no_autobrace env then Some eb else auto_brace_loop (auto_braces env) eb c.

(** [pre] before the newline and [post] after it; the assertion holds where the
    newline was just inserted. *)
Definition editor_auto_indent (eb : editor) (pre post : bytes) : option editor :=
  s ← input_text eb;
  let at_ := Z.to_nat (ed_pos eb) in
  if negb ((0 <? ed_pos eb) && (default 0 (s !! (at_ - 1)%nat) =? 10)) then None
  else if (length pre =? 0)%nat then Some eb
  else if (at_ - 1 <? length pre)%nat then Some eb
  else if negb (is_prefix pre (drop (at_ - 1 - length pre) s)) then Some eb
  else if negb (is_prefix post (drop at_ s)) then Some eb
  else
    '(pos, input) ← sbuf_insert_at (ed_input eb) (Some [32; 32; 0]) (ed_pos eb);
    '(_, input) ← sbuf_insert_char_at input 10 pos;
    Some (with_input eb input pos).

(** ** Deleting *)

(** [editor_start_modify], then the edit of the buffer. *)
Definition edit_input (eb : editor) (edit : editor -> option (stringbuf * Z)) : option editor :=
  eb ← editor_start_modify eb; '(input, pos) ← edit eb; Some (with_input eb input pos).

Definition edit_backspace (eb : editor) : option editor :=
  if ed_pos eb <=? 0 then Some eb
  else edit_input eb (fun eb => '(pos, input) ← sbuf_delete_char_before (ed_input eb) (ed_pos eb); Some (input, pos)).

Definition edit_delete_char (eb : editor) : option editor :=
  if sbuf_len (ed_input eb) <=? ed_pos eb then Some eb
  else edit_input eb (fun eb => input ← sbuf_delete_char_at (ed_input eb) (ed_pos eb); Some (input, ed_pos eb)).

Definition edit_delete_all (eb : editor) : option editor :=
  if sbuf_len (ed_input eb) <=? 0 then Some eb
  else edit_input eb (fun eb => input ← sbuf_clear (ed_input eb); Some (input, 0)).

(** The bounds of the line; a negative one ends the operation. *)
Definition on_line (eb : editor) (k : Z -> Z -> option editor) : option editor :=
  start ← sbuf_find_line_start (ed_input eb) (ed_pos eb);
  if start <? 0 then Some eb
  else
    end_ ← sbuf_find_line_end (ed_input eb) (ed_pos eb);
    if end_ <? 0 then Some eb else k start end_.

Definition edit_delete_to_end_of_line (eb : editor) : option editor :=
  on_line eb (fun start end_ =>
    edit_input eb (fun eb =>
      here ← sbuf_char_at (ed_input eb) end_;
      before ← sbuf_char_at (ed_input eb) (start - 1);
      let '(pos, end_) :=
        if (start =? end_) && (here =? 10) then (ed_pos eb, end_ + 1)
        else if (start =? end_) && (before =? 10) then (ed_pos eb - 1, end_)
        else (ed_pos eb, end_) in
      input ← sbuf_delete_from_to (ed_input eb) pos end_;
      Some (input, pos))).

(** The cursor steps over the newline that starts the next line. *)
Definition go_right (right : bool) (eb : editor) : option editor := if right then edit_cursor_right eb else Some eb.

Definition edit_delete_to_start_of_line (eb : editor) : option editor :=
  on_line eb (fun start end_ =>
    before ← sbuf_char_at (ed_input eb) (start - 1);
    let goright := (0 <? start) && (before =? 10) && (start =? end_) in
    let start := if goright then start - 1 else start in
    eb ← edit_input eb (fun eb => input ← sbuf_delete_from_to (ed_input eb) start (ed_pos eb); Some (input, start));
    go_right goright eb).

Definition edit_delete_to_start_of_word (eb : editor) : option editor :=
  start ← sbuf_find_word_start (ed_input eb) (ed_pos eb);
  if start <? 0 then Some eb
  else edit_input eb (fun eb => input ← sbuf_delete_from_to (ed_input eb) start (ed_pos eb); Some (input, start)).

Definition edit_delete_to_end_of_word (eb : editor) : option editor :=
  end_ ← sbuf_find_word_end (ed_input eb) (ed_pos eb);
  if end_ <? 0 then Some eb
  else edit_input eb (fun eb => input ← sbuf_delete_from_to (ed_input eb) (ed_pos eb) end_; Some (input, ed_pos eb)).

Definition edit_delete_to_start_of_ws_word (eb : editor) : option editor :=
  start ← sbuf_find_ws_word_start (ed_input eb) (ed_pos eb);
  if start <? 0 then Some eb
  else edit_input eb (fun eb => input ← sbuf_delete_from_to (ed_input eb) start (ed_pos eb); Some (input, start)).

Definition edit_swap_char (eb : editor) : option editor :=
  if (ed_pos eb <=? 0) || (ed_pos eb =? sbuf_len (ed_input eb)) then Some eb
  else edit_input eb (fun eb => '(pos, input) ← sbuf_swap_char (ed_input eb) (ed_pos eb); Some (input, pos)).

(** ** Inserting *)

Definition edit_multiline_eol (eb : editor) : option editor :=
  if ed_pos eb <=? 0 then Some eb
  else
    s ← sbuf_string (ed_input eb);
    c ← s !! Z.to_nat (ed_pos eb - 1);
    if negb (c =? multiline_eol env) then Some eb
    else edit_input eb (fun eb =>
      input ← sbuf_delete_at (ed_input eb) (ed_pos eb - 1) 1;
      '(_, input) ← sbuf_insert_at input (Some [10; 0]) (ed_pos eb - 1);
      Some (input, ed_pos eb)).

(** [nextpos < 0] leaves the cursor. *)
Definition insert_text (ins : stringbuf -> Z -> option (Z * stringbuf)) (eb : editor) : option editor :=
  edit_input eb (fun eb =>
    '(nextpos, input) ← ins (ed_input eb) (ed_pos eb);
    Some (input, if 0 <=? nextpos then nextpos else ed_pos eb)).

Definition edit_insert_unicode (eb : editor) (u : Z) : option editor :=
  insert_text (fun input pos => sbuf_insert_unicode_at input u pos) eb.

Definition edit_insert_char (eb : editor) (c : Z) : option editor :=
  eb ← insert_text (fun input pos => sbuf_insert_char_at input c pos) eb;
  eb ← edit_auto_brace eb c;
  if c =? 10 then editor_auto_indent eb [123] [125] else Some eb.

(** A key that is a character, or [None]. *)
Definition edit_insert_code (eb : editor) (c : Z) : option (option editor) :=
  match code_is_ascii_char c with
  | Some chr => Some <$> edit_insert_char eb chr
  | None =>
      match code_is_unicode c with
      | Some u => Some <$> edit_insert_unicode eb u
      | None => Some None
      end
  end.

(** ** History *)

(** The entry of the line that is edited is brought up to date. *)
Definition update_history (eb : editor) : option editor :=
  if ed_modified eb then
    '(_, h) ← history_update (ed_history eb) (sbuf_string (ed_input eb));
    Some (with_modified (with_history eb 0 h) false)
  else Some eb.

Definition edit_history_at (eb : editor) (ofs : Z) : option editor :=
  eb ← update_history eb;
  entry ← history_get (ed_history eb) (ed_history_idx eb + ofs);
  match entry with
  | None => Some eb
  | Some entry =>
      input ← sbuf_replace (ed_input eb) (Some entry);
      let eb := with_history (with_input eb input (ed_pos eb)) (ed_history_idx eb + ofs) (ed_history eb) in
      if 0 <? ofs then
        end_ ← sbuf_find_line_end (ed_input eb) 0; Some (with_pos eb (if end_ <? 0 then 0 else end_))
      else Some (with_pos eb (sbuf_len (ed_input eb)))
  end.

Definition edit_history_prev (eb : editor) : option editor := edit_history_at eb 1.
Definition edit_history_next (eb : editor) : option editor := edit_history_at eb (-1).

Definition edit_cursor_row_up (eb : editor) : option editor :=
  '(_, rc) ← edit_get_rowcol eb;
  if rc_row rc =? 0 then edit_history_prev eb else edit_set_pos_at_rowcol eb (rc_row rc - 1) (rc_col rc).
Definition edit_cursor_row_down (eb : editor) : option editor :=
  '(rows, rc) ← edit_get_rowcol eb;
  if rows <=? rc_row rc + 1 then edit_history_next eb else edit_set_pos_at_rowcol eb (rc_row rc + 1) (rc_col rc).

(** ** Searching the history *)

(** The state of a search, and the stack that undoes it step by step. *)
Record match_state := MatchState { m_hidx : Z; m_pos : Z; m_len : Z }.
Record hsearch := Hsearch { hs_state : match_state; hs_cinsert : bool }.

(** The letters of [initial], searched for one by one. *)
Fixpoint search_initial (fuel : nat) (h : history) (initial : bytes) (ipos : Z) (m : match_state) (hs : list hsearch) :
    option (match_state * list hsearch * Z) :=
  match fuel with
  | O => None
  | S fuel =>
      let len := Z.of_nat (length initial) in
      if ipos <? len then
        next ← str_next_ofs (Some (cstr initial)) len ipos;
        if next <? 0 then Some (m, hs, ipos)
        else
          let hs := Hsearch m true :: hs in
          found ← history_search h (m_hidx m) (take (Z.to_nat (ipos + next)) initial) true;
          let m := match found with Some (hidx, pos) => MatchState hidx pos (ipos + next) | None => m end in
          search_initial fuel h initial (ipos + next) m hs
      else Some (m, hs, ipos)
  end.

Definition start_search (eb : editor) (initial : option bytes) : option (editor * match_state * list hsearch) :=
  eb ← update_history eb;
  eb ← editor_undo_capture eb;
  let eb := with_disable_undo eb true in
  let m := MatchState 1 0 0 in
  match initial with
  | Some initial =>
      '(m, hs, ipos) ← search_initial (S (length initial)) (ed_history eb) initial 0 m [];
      input ← sbuf_replace (ed_input eb) (Some (cstr initial));
      Some (with_input eb input ipos, m, hs)
  | None => input ← sbuf_clear (ed_input eb); Some (with_input eb input 0, m, [])
  end.

(** One key of the search; the last component is false when the search ends. *)
Definition search_key (c : Z) (hentry : option bytes) (eb : editor) (m : match_state) (hs : list hsearch) :
    option (editor * match_state * list hsearch * bool) :=
  let text_search := fun eb from backward => s ← input_text eb; history_search (ed_history eb) from s backward in
  if (c =? KEY_ESC) || (c =? KEY_BELL) || (c =? KEY_CTRL_C) then
    eb ← editor_undo_restore (with_disable_undo eb false) false; Some (eb, m, hs, false)
  else if c =? KEY_ENTER then
    let eb := editor_undo_forget eb in
    input ← sbuf_replace (ed_input eb) hentry;
    let eb := with_modified (with_input eb input (sbuf_len input)) false in
    Some (with_history eb (m_hidx m) (ed_history eb), m, hs, false)
  else if (c =? KEY_BACKSP) || (c =? KEY_CTRL_Z) then
    match hs with
    | [] => Some (eb, m, hs, true)
    | h :: hs => eb ← (if hs_cinsert h then edit_backspace eb else Some eb); Some (eb, hs_state h, hs, true)
    end
  else if (c =? KEY_CTRL_R) || (c =? KEY_TAB) || (c =? KEY_UP) then
    found ← text_search eb (m_hidx m + 1) true;
    Some (match found with
          | Some (hidx, pos) => (eb, MatchState hidx pos (m_len m), Hsearch m false :: hs, true)
          | None => (eb, m, hs, true)
          end)
  else if (c =? KEY_CTRL_S) || (c =? KEY_SHIFT_TAB) || (c =? KEY_DOWN) then
    found ← text_search eb (m_hidx m - 1) false;
    Some (match found with
          | Some (hidx, pos) => (eb, MatchState hidx pos (m_len m), Hsearch m false :: hs, true)
          | None => (eb, m, hs, true)
          end)
  else if c =? KEY_F 1 then Some (eb, m, hs, true)
  else
    r ← edit_insert_code eb c;
    match r with
    | None => Some (eb, m, hs, true)
    | Some eb =>
        let hs := Hsearch m true :: hs in
        found ← text_search eb (m_hidx m) true;
        Some (eb, match found with Some (hidx, pos) => MatchState hidx pos (sbuf_len (ed_input eb)) | None => m end, hs, true)
    end.
End Editor.

(** deps/isocline/src/editline.c, editline_history.c and isocline.c: the loop of
    the line editor, and reading a line.

    The keys come from the terminal ([Tty]); [sys] is the system.  A change of the
    width of the terminal while a line is edited is not modelled: its event is
    taken note of, the width stays.  The loops over
    keys take fuel, one unit for every key. *)

Section Main.
Context {A : allocator} (sys : nat -> wait) (tty_fuel : nat) (env : settings).

(** ** Searching the history *)

Fixpoint search_keys (fuel : nat) (eb : editor) (m : match_state) (hs : list hsearch) : tty_m editor :=
  match fuel with
  | O => fun _ => None
  | S fuel =>
      hentry ← lift (history_get (ed_history eb) (m_hidx m));
      c ← match hentry with None => mret KEY_ESC | Some _ => tty_read sys tty_fuel end;
      _ ← modify (snd ∘ tty_term_resize_event);
      '(eb, m, hs, again) ← lift (search_key env c hentry eb m hs);
      if (again : bool) then search_keys fuel eb m hs else mret (with_disable_undo eb false)
  end.

Definition edit_history_search (fuel : nat) (eb : editor) (initial : option bytes) : tty_m editor :=
  if history_count (ed_history eb) <=? 0 then mret eb
  else '(eb, m, hs) ← lift (start_search eb initial); search_keys fuel eb m hs.

(** The word before the cursor; [NULL] where there is none. *)
Definition current_word (eb : editor) : option (option bytes) :=
  start ← sbuf_find_word_start (ed_input eb) (ed_pos eb);
  if start <? 0 then Some None
  else
    next ← sbuf_next (ed_input eb) start;
    s ← sbuf_string (ed_input eb);
    letter ← ic_char_is_idletter (drop (Z.to_nat start) s) (next - start);
    let start := if negb letter then next else start in
    Some (if (0 <=? start) && (start <? ed_pos eb) then Some (sub s (Z.to_nat start) (Z.to_nat (ed_pos eb - start))) else None).

Definition edit_history_search_with_current_word (fuel : nat) (eb : editor) : tty_m editor :=
  initial ← lift (current_word eb); edit_history_search fuel eb initial.

(** ** Completions *)

(** shell.c: the completions the shell adds. *)
Definition completer (prefix : bytes) : list bytes := [].

Definition completions_generate (input : option bytes) (pos : Z) : option Z :=
  match input with
  | None => Some 0
  | Some s => n ← c_strlen s; Some (if n <? pos then 0 else Z.of_nat (length (completer (take (Z.to_nat pos) s))))
  end.

(** With one completion it is applied, with more there is a menu: neither happens. *)
Definition edit_generate_completions (eb : editor) : option editor :=
  if ed_pos eb <? 0 then Some eb
  else
    count ← completions_generate (sbuf_string (ed_input eb)) (ed_pos eb);
    if count <=? 0 then Some eb else None.

(** ** Keys *)

Definition at_end_or (eb : editor) (move : editor -> option editor) : option editor :=
  if ed_pos eb =? sbuf_len (ed_input eb) then edit_generate_completions eb else move eb.

(** The editing operations: the switch of [edit_line].  Redrawing (ctrl+L, F1, resize) changes nothing here. *)
Definition edit_operation (fuel : nat) (c : Z) (eb : editor) : tty_m editor :=
  let any := existsb (Z.eqb c) in
  if any [KEY_EVENT_RESIZE; KEY_CTRL_L; KEY_F 1] then mret eb
  else if any [KEY_EVENT_AUTOTAB; KEY_TAB; WITH_ALT (code "?")] then lift (edit_generate_completions eb)
  else if any [KEY_CTRL_R; KEY_CTRL_S] then edit_history_search_with_current_word fuel eb
  else if any [KEY_CTRL_P] then lift (edit_history_prev eb)
  else if any [KEY_CTRL_N] then lift (edit_history_next eb)
  else if any [KEY_CTRL_Z; WITH_CTRL (code "_")] then lift (editor_undo_restore eb true)
  else if any [KEY_CTRL_Y] then lift (editor_redo_restore eb)
  else if any [KEY_LEFT; KEY_CTRL_B] then lift (edit_cursor_left eb)
  else if any [KEY_RIGHT; KEY_CTRL_F] then lift (at_end_or eb edit_cursor_right)
  else if any [KEY_UP] then lift (edit_cursor_row_up env eb)
  else if any [KEY_DOWN] then lift (edit_cursor_row_down env eb)
  else if any [KEY_HOME; KEY_CTRL_A] then lift (edit_cursor_line_start eb)
  else if any [KEY_END; KEY_CTRL_E] then lift (edit_cursor_line_end eb)
  else if any [WITH_CTRL KEY_LEFT; WITH_SHIFT KEY_LEFT; WITH_ALT (code "b")] then lift (edit_cursor_prev_word eb)
  else if any [WITH_CTRL KEY_RIGHT; WITH_SHIFT KEY_RIGHT; WITH_ALT (code "f")] then lift (at_end_or eb edit_cursor_next_word)
  else if any [WITH_CTRL KEY_HOME; WITH_SHIFT KEY_HOME; KEY_PAGEUP; WITH_ALT (code "<")] then lift (edit_cursor_to_start eb)
  else if any [WITH_CTRL KEY_END; WITH_SHIFT KEY_END; KEY_PAGEDOWN; WITH_ALT (code ">")] then lift (edit_cursor_to_end eb)
  else if any [WITH_ALT (code "m")] then lift (edit_cursor_match_brace env eb)
  else if any [KEY_BACKSP] then lift (edit_backspace eb)
  else if any [KEY_DEL] then lift (edit_delete_char eb)
  else if any [WITH_ALT (code "d")] then lift (edit_delete_to_end_of_word eb)
  else if any [KEY_CTRL_W] then lift (edit_delete_to_start_of_ws_word eb)
  else if any [WITH_ALT KEY_DEL; WITH_ALT KEY_BACKSP] then lift (edit_delete_to_start_of_word eb)
  else if any [KEY_CTRL_U] then lift (edit_delete_to_start_of_line eb)
  else if any [KEY_CTRL_K] then lift (edit_delete_to_end_of_line eb)
  else if any [KEY_CTRL_T] then lift (edit_swap_char eb)
  else if any [KEY_SHIFT_TAB; KEY_LINEFEED] then
    lift (if negb (singleline_only env) then edit_insert_char env eb 10 else Some eb)
  else r ← lift (edit_insert_code env eb c); mret (default eb r).

(** A key that ends the line, or is an editing operation; the flag tells that the line ended. *)
Definition edit_key (fuel : nat) (c : Z) (eb : editor) : tty_m (bool * editor) :=
  let empty := (ed_pos eb =? 0) && editor_pos_is_at_end eb in
  if c =? KEY_ENTER then
    continued ← lift (
      if negb (singleline_only env) && (0 <? ed_pos eb) then
        s ← sbuf_string (ed_input eb);
        last ← s !! Z.to_nat (ed_pos eb - 1);
        if last =? multiline_eol env then edit_pos_is_at_row_end env eb else Some false
      else Some false);
    if (continued : bool) then eb ← lift (edit_multiline_eol env eb); mret (false, eb) else mret (true, eb)
  else if c =? KEY_CTRL_D then
    if empty then mret (true, eb) else eb ← lift (edit_delete_char eb); mret (false, eb)
  else if (c =? KEY_CTRL_C) || (c =? KEY_EVENT_STOP) then mret (true, eb)
  else if c =? KEY_ESC then
    if empty then mret (true, eb) else eb ← lift (edit_delete_all eb); mret (false, eb)
  else if c =? KEY_BELL then eb ← lift (edit_delete_all eb); mret (true, eb)
  else eb ← edit_operation fuel c eb; mret (false, eb).

(** The last key and the editor. *)
Fixpoint edit_keys (fuel : nat) (eb : editor) : tty_m (Z * editor) :=
  match fuel with
  | O => fun _ => None
  | S fuel =>
      c ← tty_read sys tty_fuel;
      _ ← modify (snd ∘ tty_term_resize_event);
      '(finished, eb) ← edit_key fuel c eb;
      if (finished : bool) then mret (c, eb) else edit_keys fuel eb
  end.

(** ** A line *)

(** The line, [None] for NULL, the history and what is written to its file. *)
Definition edit_line (fuel : nat) (h : history) : tty_m (option bytes * history * option bytes) :=
  input ← lift sbuf_new;
  '(_, h) ← lift (history_push h (Some [0]));
  '(c, eb) ← edit_keys fuel (Editor input 0 false false 0 editstate_init editstate_init h);
  utf8 ← gets is_utf8;
  let len := sbuf_len (ed_input eb) in
  res ← lift (if ((c =? KEY_CTRL_D) && (len =? 0)) || (c =? KEY_CTRL_C) || (c =? KEY_EVENT_STOP) then Some None
              else if negb utf8 then sbuf_strdup_from_utf8 (ed_input eb) else sbuf_strdup (ed_input eb));
  '(_, h) ← lift (history_update (ed_history eb) (sbuf_string (ed_input eb)));
  let h := if (match res with None => true | Some _ => false end) || (len <=? 1) then history_remove_last h else h in
  file ← lift (history_save h);
  mret (res, h, file).

(** [raw_ok] and [end_ok]: the system accepts the raw mode and its end. *)
Definition ic_editline (fuel : nat) (raw_ok end_ok : bool) (h : history) : tty_m (option bytes * history * option bytes) :=
  _ ← modify (fun t => snd (tty_start_raw t raw_ok));
  r ← edit_line fuel h;
  _ ← modify (fun t => tty_end_raw t end_ok);
  mret r.

End Main.

(** ** Without a terminal *)

Section Getline.
Context {A : allocator}.

(** The bytes of a line go to the buffer; the rest of the input, and whether its end was met. *)
Fixpoint getline_loop (input : bytes) (sb : stringbuf) : option (stringbuf * bytes * bool) :=
  match input with
  | [] => Some (sb, [], true)
  | c :: input => if c =? 10 then Some (sb, input, false) else '(_, sb) ← sbuf_append_char sb c; getline_loop input sb
  end.

(** The line, NULL when it has no byte. *)
Definition ic_getline (input : bytes) : option (option bytes * bytes * bool) :=
  sb ← sbuf_new; '(sb, rest, eof) ← getline_loop input sb; Some (sbuf_free_dup sb, rest, eof).

(** [while ((line = ic_readline(prompt_line)) || !feof(stdin))], one element for
    every turn of the loop; one byte or the end of the input goes with each call. *)
Fixpoint read_lines (fuel : nat) (input : bytes) : option (list (option bytes)) :=
  match fuel with
  | O => None
  | S fuel =>
      '(line, rest, eof) ← ic_getline input;
      match line with
      | None => if (eof : bool) then Some [] else ls ← read_lines fuel rest; Some (None :: ls)
      | Some _ => ls ← read_lines fuel rest; Some (line :: ls)
      end
  end.
End Getline.
