(* ===== verification/EditProps.v ===== *)
(** deps/isocline/src/editline.c: what the operations of the editor do to the text.

    [ed_at eb t pos]: the editor shows the text [t] with the cursor at [pos], and
    the stacks and the history hold texts.  While there is memory, an edit of the
    text ([edit_input]) is undone and redone exactly, and a key of text inserts
    what it spells. *)
From S2P Require Import Prelude CLib Unicode Stringbuf SbufEdit SbufNav SbufProps History HistoryProps Tty TtyProps TtyKeys EditLine.

(** A captured state. *)
Definition state_ok (s : bytes * Z) : Prop :=
  exists t, fst s = cstr t /\ text_ok t /\ 0 <= snd s <= Z.of_nat (length t).

Definition hist_inv (h : history) : Prop :=
  0 <= h_len h /\ exists es, hist_ok h es /\ (h_allow_duplicates h = false -> NoDup es).

Record ed_at (eb : editor) (t : bytes) (pos : Z) : Prop := {
  ed_repr : sbuf_repr (ed_input eb) t; ed_cursor : ed_pos eb = pos; ed_inside : 0 <= pos <= Z.of_nat (length t);
  ed_undo_ok : Forall state_ok (ed_undo eb); ed_redo_ok : Forall state_ok (ed_redo eb); ed_hist : hist_inv (ed_history eb)
}.

Section Props.
Context `{A : allocator, !allocator_ok A} (enough : ~ exhausted) (env : settings).

Lemma edits_now r t' t0 : edits_to r t' t0 -> exists sb, r = Some sb /\ sbuf_repr sb t'.
Proof. intros (sb & E & [H|[H _]]); [by exists sb|done]. Qed.

Lemma input_string eb t pos : ed_at eb t pos -> exists r, sbuf_string (ed_input eb) = Some (t ++ 0 :: r).
Proof. intros []. by apply string_of_repr. Qed.

Lemma input_text_at eb t pos : ed_at eb t pos -> input_text eb = Some t.
Proof.
  intros H. destruct (input_string eb t pos H) as [r E]. unfold input_text. rewrite E. cbn [mbind option_bind].
  destruct H as [(Ht & _ & _)]. by apply c_text_app.
Qed.

Lemma input_len eb t pos : ed_at eb t pos -> sbuf_len (ed_input eb) = Z.of_nat (length t).
Proof. by intros [(_ & ? & _)]. Qed.

(** ** Undo *)

Lemma capture_at eb t pos es : ed_at eb t pos ->
  editor_capture eb es = Some (if ed_disable_undo eb then es else (cstr t, pos) :: es).
Proof.
  intros H. unfold editor_capture. destruct (ed_disable_undo eb); [done|]. destruct (input_string eb t pos H) as [r ->].
  destruct H as [(Ht & _ & _) -> _ _ _ _]. unfold editstate_capture. destruct (realloc_total enough None 12 ltac:(lia)) as (b & -> & _).
  cbn [default from_option id]. by rewrite (strdup_ok enough).
Qed.

Lemma start_modify_at eb t pos : ed_at eb t pos ->
  exists eb', editor_start_modify eb = Some eb' /\ ed_at eb' t pos /\ ed_modified eb' = true
    /\ ed_undo eb' = (if ed_disable_undo eb then ed_undo eb else (cstr t, pos) :: ed_undo eb) /\ ed_redo eb' = []
    /\ ed_disable_undo eb' = ed_disable_undo eb /\ ed_history eb' = ed_history eb /\ ed_history_idx eb' = ed_history_idx eb.
Proof.
  intros H. unfold editor_start_modify, editor_undo_capture. rewrite (capture_at _ _ _ _ H). cbn [mbind option_bind].
  eexists. split; [done|]. split; [|done]. destruct H as [Hr Hp Hi Hu Hd Hh]. split; try done; cbn.
  destruct (ed_disable_undo eb); [done|]. constructor; [|done]. exists t. by destruct Hr.
Qed.

(** What an edit of the text may do: a result that is again a text with a cursor in it. *)
Definition edits_input (f : editor -> option (stringbuf * Z)) (t : bytes) (pos : Z) (t' : bytes) (pos' : Z) : Prop :=
  forall eb, ed_at eb t pos -> exists input, f eb = Some (input, pos') /\ sbuf_repr input t' /\ 0 <= pos' <= Z.of_nat (length t').

Lemma edit_input_at eb f t pos t' pos' : ed_at eb t pos -> edits_input f t pos t' pos' ->
  exists eb', edit_input eb f = Some eb' /\ ed_at eb' t' pos' /\ ed_modified eb' = true
    /\ ed_undo eb' = (if ed_disable_undo eb then ed_undo eb else (cstr t, pos) :: ed_undo eb) /\ ed_redo eb' = []
    /\ ed_disable_undo eb' = ed_disable_undo eb /\ ed_history eb' = ed_history eb /\ ed_history_idx eb' = ed_history_idx eb.
Proof.
  intros H Hf. destruct (start_modify_at eb t pos H) as (eb1 & E1 & H1 & Hm & Hu & Hr & Hd & Hh & Hx). unfold edit_input. rewrite E1.
  cbn [mbind option_bind]. destruct (Hf eb1 H1) as (input & E & Hin & Hp). rewrite E. cbn [mbind option_bind].
  eexists. split; [done|]. split; [|done]. destruct H1. by split.
Qed.

Lemma replace_input sb t c r : sbuf_repr sb t -> text_ok c -> exists sb', sbuf_replace sb (Some (c ++ 0 :: r)) = Some sb' /\ sbuf_repr sb' c.
Proof.
  intros Hr Hc. unfold sbuf_replace. destruct (clear_edits sb t Hr) as (sb1 & -> & Hr1). cbn [mbind option_bind].
  destruct (edits_now _ _ _ (append_edits sb1 [] c r Hr1 Hc)) as (sb2 & E & H2).
  destruct (sbuf_append sb1 _) as [[k sb3]|]; [|done]. injection E as ->. by exists sb2.
Qed.

Lemma replace_cstr sb t c : sbuf_repr sb t -> text_ok c -> exists sb', sbuf_replace sb (Some (cstr c)) = Some sb' /\ sbuf_repr sb' c.
Proof. apply replace_input. Qed.

Lemma undo_restore_at eb t pos t0 p0 us redo : ed_at eb t pos -> ed_disable_undo eb = false -> ed_undo eb = (cstr t0, p0) :: us ->
  exists eb', editor_undo_restore eb redo = Some eb' /\ ed_at eb' t0 p0 /\ ed_undo eb' = us
    /\ ed_redo eb' = (if redo then (cstr t, pos) :: ed_redo eb else ed_redo eb) /\ ed_disable_undo eb' = false.
Proof.
  intros H Hd Hu. unfold editor_undo_restore. rewrite Hd, Hu.
  assert (E : (if redo then editor_capture eb (ed_redo eb) else Some (ed_redo eb)) = Some (if redo then (cstr t, pos) :: ed_redo eb else ed_redo eb))
    by (destruct redo; [rewrite (capture_at _ _ _ _ H), Hd|]; done).
  rewrite E. cbn [mbind option_bind]. pose proof (ed_undo_ok _ _ _ H) as Hus. rewrite Hu in Hus. apply Forall_cons_1 in Hus as [(t1 & E1 & Ht1 & Hp1) Hus].
  cbn in E1, Hp1. apply app_inv_tail in E1 as <-. destruct (replace_cstr _ _ t0 (ed_repr _ _ _ H) Ht1) as (sb & -> & Hsb). cbn [mbind option_bind].
  eexists. split; [done|]. split; [|done]. destruct H as [Hr Hp Hi _ Hre Hh]. split; try done. cbn. destruct redo; [|done].
  constructor; [|done]. exists t. by destruct Hr.
Qed.

Lemma redo_restore_at eb t pos t0 p0 rs : ed_at eb t pos -> ed_disable_undo eb = false -> ed_redo eb = (cstr t0, p0) :: rs ->
  exists eb', editor_redo_restore eb = Some eb' /\ ed_at eb' t0 p0 /\ ed_redo eb' = rs
    /\ ed_undo eb' = (cstr t, pos) :: ed_undo eb /\ ed_disable_undo eb' = false.
Proof.
  intros H Hd Hr. unfold editor_redo_restore. rewrite Hd, Hr, (capture_at _ _ _ _ H), Hd. cbn [mbind option_bind].
  pose proof (ed_redo_ok _ _ _ H) as Hrs. rewrite Hr in Hrs. apply Forall_cons_1 in Hrs as [(t1 & E1 & Ht1 & Hp1) Hrs].
  cbn in E1, Hp1. apply app_inv_tail in E1 as <-. destruct (replace_cstr _ _ t0 (ed_repr _ _ _ H) Ht1) as (sb & -> & Hsb). cbn [mbind option_bind].
  eexists. split; [done|]. split; [|done]. destruct H as [Hre Hp Hi Hus _ Hh]. split; try done. cbn.
  constructor; [|done]. exists t. by destruct Hre.
Qed.

(** C13: Undo takes back an edit exactly, and redo brings it back: after any edit of
    the text, undo shows the text and the cursor there were before, with the undo
    stack as it was, and redo then shows what the edit had made. *)
Theorem undo_redo_inverse eb f t pos t' pos' :
  ed_at eb t pos -> ed_disable_undo eb = false -> edits_input f t pos t' pos' ->
  exists eb1 eb2 eb3, edit_input eb f = Some eb1 /\ ed_at eb1 t' pos'
    /\ editor_undo_restore eb1 true = Some eb2 /\ ed_at eb2 t pos /\ ed_undo eb2 = ed_undo eb
    /\ editor_redo_restore eb2 = Some eb3 /\ ed_at eb3 t' pos' /\ ed_undo eb3 = ed_undo eb1 /\ ed_redo eb3 = [].
Proof.
  intros H Hd Hf. destruct (edit_input_at eb f t pos t' pos' H Hf) as (eb1 & E1 & H1 & _ & Hu1 & Hr1 & Hd1 & _). rewrite Hd in Hu1, Hd1.
  destruct (undo_restore_at eb1 t' pos' t pos (ed_undo eb) true H1 Hd1 Hu1) as (eb2 & E2 & H2 & Hu2 & Hr2 & Hd2). rewrite Hr1 in Hr2.
  destruct (redo_restore_at eb2 t pos t' pos' [] H2 Hd2 Hr2) as (eb3 & E3 & H3 & Hr3 & Hu3 & _).
  exists eb1, eb2, eb3. split_and!; try done. by rewrite Hu3, Hu2, Hu1.
Qed.

(** ** Typing *)

Lemma insert_n_now sb t s n c pos : sbuf_repr sb t -> points_to s n c -> 0 <= pos <= Z.of_nat (length t) ->
  exists sb', sbuf_insert_at_n sb (Some s) n pos = Some (pos + Z.of_nat (length c), sb') /\ sbuf_repr sb' (ins t pos c).
Proof. intros Hr Hp Hi. destruct (insert_at_n_repr sb t s n c pos Hr Hp Hi) as [[_ Hx]|H]; [done|exact H]. Qed.

Lemma length_ins t pos c : 0 <= pos <= Z.of_nat (length t) -> length (ins t pos c) = (length t + length c)%nat.
Proof. intros H. unfold ins. rewrite !length_app, length_take, length_drop. lia. Qed.

Lemma insert_text_at eb t pos f c : ed_at eb t pos ->
  (forall sb, sbuf_repr sb t -> exists sb', f sb pos = Some (pos + Z.of_nat (length c), sb') /\ sbuf_repr sb' (ins t pos c)) ->
  exists eb', insert_text f eb = Some eb' /\ ed_at eb' (ins t pos c) (pos + Z.of_nat (length c)) /\ ed_history eb' = ed_history eb.
Proof.
  intros H Hf. pose proof (ed_inside _ _ _ H) as Hi.
  destruct (edit_input_at eb (fun eb => '(nextpos, input) ← f (ed_input eb) (ed_pos eb); Some (input, if 0 <=? nextpos then nextpos else ed_pos eb))
    t pos (ins t pos c) (pos + Z.of_nat (length c)) H) as (eb' & E & H' & _ & _ & _ & _ & Hh & _); [|by exists eb'].
  intros eb1 [Hr -> _ _ _ _]. destruct (Hf _ Hr) as (sb' & E & H'). rewrite E. cbn [mbind option_bind].
  rewrite (proj2 (Z.leb_le _ _)) by lia. eexists. split; [done|]. split; [done|]. rewrite length_ins by done. lia.
Qed.

(** Characters that are not auto-inserted braces. *)
Definition not_brace (c : Z) : Prop := no_autobrace env = true \/ c ∉ auto_braces env.

Lemma auto_brace_none eb c : not_brace c -> c <> 0 -> edit_auto_brace env eb c = Some eb.
Proof.
  intros [E|Hc] H0; unfold edit_auto_brace; [by rewrite E|]. destruct (no_autobrace env); [done|].
  revert Hc. generalize (auto_braces env) as bs. intros bs. remember (length bs) as n eqn:Hn. revert bs Hn.
  induction (lt_wf n) as [n _ IH]. intros [|o rest] -> Hc; cbn [auto_brace_loop]; [done|].
  rewrite (proj2 (Z.eqb_neq o c)) by set_solver.
  assert (default 0 (head rest) <> c) by (destruct rest; cbn; set_solver). rewrite (proj2 (Z.eqb_neq _ c)) by done.
  destruct rest as [|k rest]; [done|]. apply (IH (length rest)); [cbn; lia|done|set_solver].
Qed.

Lemma qutf8_ascii u : 0 <= u <= 0x7F -> qutf8 u = [u].
Proof. intros H. rewrite qutf8_small by lia. unfold utf8_seq. by rewrite (proj2 (Z.leb_le _ _)) by lia. Qed.

Lemma seq_high u : 0x80 <= u <= 0x10FFFF -> Forall (fun c => 0x80 <= c) (utf8_seq u).
Proof.
  intros H. unfold utf8_seq. rewrite (proj2 (Z.leb_gt u 0x7F)) by lia.
  assert (0 <= u / 64 /\ 0 <= u / 4096 /\ 0 <= u / 262144) as (? & ? & ?) by (split_and!; apply Z.div_pos; lia).
  pose proof (Z.mod_pos_bound u 64 ltac:(lia)). pose proof (Z.mod_pos_bound (u / 64) 64 ltac:(lia)).
  pose proof (Z.mod_pos_bound (u / 4096) 64 ltac:(lia)).
  repeat case_match; repeat constructor; lia.
Qed.

Lemma insert_code_at eb t pos u : ed_at eb t pos -> plain u -> 0 <= u <= 0x10FFFF -> (u <= 0x7F -> not_brace u) -> text_ok (qutf8 u) ->
  exists eb', edit_insert_code env eb u = Some (Some eb') /\ ed_at eb' (ins t pos (qutf8 u)) (pos + Z.of_nat (length (qutf8 u)))
    /\ ed_history eb' = ed_history eb.
Proof.
  intros H [Hp Hp'] Hu Hb Ht. pose proof (ed_inside _ _ _ H) as Hi. unfold edit_insert_code, code_is_ascii_char.
  rewrite (proj2 (Z.leb_le 32 u)) by done. destruct (Z.leb_spec u 0x7F) as [Ha|Ha]; cbn [andb].
  - destruct (insert_text_at eb t pos (fun input pos => sbuf_insert_char_at input u pos) [u] H) as (eb' & E & H' & Hh).
    { intros sb Hr. apply (insert_n_now sb t _ 1 [u]); [done| |done]. apply (points_to_cstr [u] []). by constructor; [lia|]. }
    exists eb'. unfold edit_insert_char. rewrite E. cbn [mbind option_bind]. rewrite auto_brace_none by (auto || lia).
    cbn [mbind option_bind]. rewrite (proj2 (Z.eqb_neq u 10)) by lia. rewrite qutf8_ascii by lia. done.
  - unfold code_is_unicode, KEY_UNICODE_MAX. rewrite (proj2 (Z.leb_le u _)) by lia.
    destruct (insert_text_at eb t pos (fun input pos => sbuf_insert_unicode_at input u pos) (qutf8 u) H) as (eb' & E & H' & Hh).
    { intros sb Hr. unfold sbuf_insert_unicode_at, sbuf_insert_at, ic_strlen. destruct (unicode_cstr u Hu) as [more ->].
      rewrite c_strlen_app by done. cbn [mbind option_bind]. apply insert_n_now; [done|by apply points_to_cstr|done]. }
    exists eb'. unfold edit_insert_unicode. by rewrite E.
Qed.

(** ** Keys of text *)

Lemma not_a_key u ks : plain u -> u <= 0x10FFFF -> forallb (fun k => (k <? 32) || (0x10FFFF <? k)) ks = true -> existsb (Z.eqb u) ks = false.
Proof.
  intros [H1 H2] H3 Hk. apply not_true_iff_false. rewrite existsb_exists. intros (k & Hin & E).
  rewrite forallb_forall in Hk. specialize (Hk k Hin). apply Z.eqb_eq in E. subst k. apply orb_true_iff in Hk. lia.
Qed.

Lemma edit_operation_text sys tf fuel u eb : plain u -> u <= 0x10FFFF ->
  edit_operation sys tf env fuel u eb = (r ← lift (edit_insert_code env eb u); mret (default eb r)).
Proof.
  intros Hu Hm. unfold edit_operation. cbv zeta. do 27 (rewrite not_a_key by (done || reflexivity)). done.
Qed.

Lemma edit_key_text sys tf fuel u eb t pos : ed_at eb t pos -> plain u -> 0 <= u <= 0x10FFFF -> (u <= 0x7F -> not_brace u) -> text_ok (qutf8 u) ->
  exists eb', (forall s, edit_key sys tf env fuel u eb s = Some ((false, eb'), s))
    /\ ed_at eb' (ins t pos (qutf8 u)) (pos + Z.of_nat (length (qutf8 u))) /\ ed_history eb' = ed_history eb.
Proof.
  intros H Hp Hu Hb Ht. destruct (insert_code_at eb t pos u H Hp Hu Hb Ht) as (eb' & E & H' & Hh). exists eb'. split; [|done].
  intros s. unfold edit_key. pose proof Hp as [Hp1 Hp2]. unfold KEY_ENTER, KEY_CTRL_D, KEY_CTRL_C, KEY_EVENT_STOP, KEY_EVENT_BASE, KEY_ESC, KEY_BELL.
  rewrite !(proj2 (Z.eqb_neq u _)) by lia. cbn [orb]. rewrite edit_operation_text by (done || lia).
  rewrite bind_unfold, bind_unfold. unfold lift. rewrite E. done.
Qed.

Context (one_line : singleline_only env = true).

(** The bytes the first code point takes are all of the text before the end of line. *)
Lemma decode_before_enter c s u n : bytes_ok (c :: s) -> plain c -> plain u -> 0 <= u <= 0x10FFFF ->
  take n ((c :: s) ++ [13]) = qutf8 u -> (1 <= n)%nat -> (n <= length ((c :: s) ++ [13%Z]))%nat -> (n <= length (c :: s))%nat.
Proof.
  intros Hb Hc Hu Hm Hq Hn Hl. rewrite length_app in Hl. cbn [length] in *. destruct (decide (n = S (S (length s)))) as [->|]; [|lia].
  exfalso. rewrite take_ge in Hq by (rewrite length_app; cbn; lia).
  assert (H13 : 13 ∈ qutf8 u) by (rewrite <- Hq; apply elem_of_app; right; by apply list_elem_of_singleton).
  unfold qutf8 in Hq, H13. destruct (unicode_is_raw u) as [r|].
  - apply (f_equal length) in Hq. rewrite length_app in Hq. cbn in Hq. lia.
  - destruct (decide (u <= 0x7F)).
    + unfold utf8_seq in H13. rewrite (proj2 (Z.leb_le _ _)) in H13 by lia. apply list_elem_of_singleton in H13. destruct Hu. lia.
    + pose proof (seq_high u ltac:(lia)) as Hs. rewrite Forall_forall in Hs. specialize (Hs 13). apply list_elem_of_In in H13. specialize (Hs H13). lia.
Qed.

Lemma spells_drop n s : ~ spells_raw s -> ~ spells_raw (drop n s).
Proof.
  intros H (i & v & E & Hr). apply H. exists (n + i)%nat, v. rewrite drop_drop, length_drop in E. split; [|done].
  rewrite <- E. do 2 f_equal. lia.
Qed.

Lemma ins_at_end t c : ins t (Z.of_nat (length t)) c = t ++ c.
Proof. unfold ins. rewrite Nat2Z.id, take_ge, drop_ge, app_nil_r by lia. done. Qed.

(** Taking note of a resize leaves the bytes to be read. *)
Lemma resized_settings t : same_settings t (snd (tty_term_resize_event t)).
Proof. unfold tty_term_resize_event. destruct (has_term_resize_event t), (term_resize_event t); by split. Qed.

Lemma resized_at p k t : tty_at p k t -> tty_at p k (snd (tty_term_resize_event t)).
Proof. intros [? ? ? ?]. unfold tty_term_resize_event. destruct (has_term_resize_event t), (term_resize_event t); by split. Qed.

Lemma resized_left bs t0 n rest t : left_to_read bs t0 n rest t -> left_to_read bs t0 n rest (snd (tty_term_resize_event t)).
Proof.
  intros (p & k & H & E & Hn & Hs). exists p, k. split_and!; [by apply resized_at|done|done|].
  etransitivity; [exact Hs|apply resized_settings].
Qed.

Lemma wp_modify f (Q : unit -> tty -> Prop) t : Q tt (f t) -> wp (modify f) Q t.
Proof. intros H. by exists tt, (f t). Qed.

(** A line that is typed, then Enter. *)
Lemma edit_keys_text sys bs t0 tf : (forall k x c timeout, bs !! k = Some x -> reply (sys k) c timeout = (true, x)) ->
  (forall k c timeout, bs !! k = None -> fst (reply (sys k) c timeout) = false) ->
  push_count t0 = 0 -> is_utf8 t0 = true -> forall fuel s t eb st,
  (length s < fuel)%nat -> left_to_read bs t0 3 (s ++ [13]) st -> bytes_ok s -> Forall plain s -> Forall not_brace s ->
  ~ spells_raw (s ++ [13]) -> ed_at eb t (Z.of_nat (length t)) ->
  wp (edit_keys sys tf env fuel eb) (fun '(c, eb') st' => c = KEY_ENTER /\ ed_at eb' (t ++ s) (Z.of_nat (length (t ++ s)))
    /\ ed_history eb' = ed_history eb /\ left_to_read bs t0 3 [] st') st.
Proof.
  intros Hserve Hsil H0 Hutf. induction fuel as [|fuel IH]; intros s t eb st Hf Hl Hb Hp Hnb Hraw He; [lia|]. cbn [edit_keys].
  apply wp_bind, wp_bind. destruct s as [|c s].
  { cbn [app] in Hl. eapply wp_mono; [apply (read_ascii_left sys bs Hserve t0 H0); [exact Hl|lia|done]|].
    intros [ok key] st' (-> & -> & H'%resized_left). apply wp_ret. cbn [negb]. apply wp_bind, wp_modify. change (modify_code 13) with KEY_ENTER.
    apply wp_bind. unfold edit_key. cbn [Z.eqb KEY_ENTER Pos.eqb]. rewrite one_line. cbn [negb andb].
    apply wp_bind. eapply wp_lift; [done|]. apply wp_ret, wp_ret. by rewrite app_nil_r. }
  pose proof Hp as [Hpc _]%Forall_cons_1. pose proof Hb as [Hbc _]%Forall_cons_1.
  assert (Hb' : bytes_ok ((c :: s) ++ [13])) by (apply Forall_app; split; [done|by apply Forall_singleton]).
  eapply wp_mono; [apply (read_key_left sys bs Hserve t0 H0 Hsil Hutf _ _ _ c (s ++ [13])); [exact Hl|exact Hb'| |done]|].
  { apply (Forall_app _ (c :: s)). split; [by apply plain_text|by apply Forall_singleton]. }
  intros [ok u] st' (-> & Hpu & Hu & n & E & H'%resized_left). apply wp_ret. cbn [negb]. apply wp_bind, wp_modify.
  destruct (decode_one ((c :: s) ++ [13]) Hb' ltac:(done)) as (u' & n' & E' & Hn & Hnl & _ & Hq). cbn [app] in E'. rewrite E in E'.
  injection E' as <- <-%Nat2Z.inj.
  assert (Hq' : take n ((c :: s) ++ [13]) = qutf8 u).
  { apply Hq. destruct (decide (n < 4)%nat); [by left|]. right. destruct (unicode_is_raw u) eqn:Er; [|done]. exfalso. apply Hraw.
    exists 0%nat, u. rewrite drop_0, Nat.sub_0_r. cbn [app]. rewrite E, Er. split; [|done]. do 2 f_equal. lia. }
  pose proof (decode_before_enter c s u n Hb Hpc Hpu Hu Hq' ltac:(lia) Hnl) as Hns. rewrite take_app_le in Hq' by done.
  destruct (edit_key_text sys tf fuel u eb t (Z.of_nat (length t)) He Hpu Hu) as (eb' & Ek & He' & Hh').
  { intros Ha. rewrite qutf8_ascii in Hq' by lia. destruct n; [lia|]. injection Hq' as -> _. by apply Forall_cons_1 in Hnb as [? _]. }
  { rewrite <- Hq'. apply Forall_take. by apply plain_text. }
  apply wp_bind. eexists (false, eb'), _. split; [apply Ek|]. rewrite ins_at_end in He'. rewrite <- Nat2Z.inj_add, <- length_app in He'.
  assert (Hlen : (length (drop n (c :: s)) < fuel)%nat) by (rewrite length_drop; cbn [length] in Hf |- *; lia).
  eapply wp_mono; [apply (IH (drop n (c :: s)) (t ++ qutf8 u) eb'); [exact Hlen| | | | | |exact He']|].
  - rewrite <- drop_app_le by done. exact H'.
  - by apply Forall_drop.
  - by apply Forall_drop.
  - by apply Forall_drop.
  - rewrite <- drop_app_le by done. by apply spells_drop.
  - intros [k eb''] st'' (-> & H'' & Hh'' & Hl''). rewrite <- app_assoc, <- Hq', take_drop in H''. split_and!; [done|done|congruence|done].
Qed.

(** ** The history of a line *)

Lemma remove_last_ok h es : hist_ok h es -> hist_ok (history_remove_last h) (take (length es - 1) es).
Proof.
  intros (Ht & Hc & Hel & junk & Hj). unfold history_remove_last, history_remove_last_n. cbn [Z.leb Z.compare].
  split; [by apply Forall_take|]. cbn. rewrite Hc. split; [rewrite length_take; destruct (Z.ltb_spec (Z.of_nat (length es)) 1); lia|].
  split; [done|]. rewrite Hj. exists (map (fun e => Some (cstr e)) (drop (length es - 1) es) ++ junk).
  by rewrite app_assoc, <- map_app, take_drop.
Qed.

Lemma history_delete_fname h i h' : history_delete_at h i = Some h' -> h_fname h' = h_fname h.
Proof. unfold history_delete_at. destruct (_ || _); [by intros [= <-]|]. destruct (ofold _ _ _ _); [|done]. cbn. by intros [= <-]. Qed.

Lemma history_push_fname h e b h' : history_push h e = Some (b, h') -> h_fname h' = h_fname h.
Proof.
  assert (Hd : forall fuel h e i h', remove_duplicates fuel h e i = Some h' -> h_fname h' = h_fname h).
  { induction fuel as [|fuel IH]; intros h0 e0 i h0'; cbn [remove_duplicates]; [done|]. destruct (i <? h_count h0); [|by intros [= <-]].
    destruct (mjoin _) as [x|]; [|done]. cbn [mbind option_bind]. destruct (strcmp_eq x e0) as [[]|]; [| |done]; cbn [mbind option_bind].
    - destruct (history_delete_at h0 i) as [h1|] eqn:E; [|done]. cbn [mbind option_bind]. intros H%IH. by rewrite H, (history_delete_fname _ _ _ E).
    - by intros ?%IH. }
  unfold history_push. destruct e as [e|]; [|by intros [= _ <-]]. destruct (h_len h <=? 0); [by intros [= _ <-]|].
  destruct (if negb _ then _ else _) as [h1|] eqn:E1; [|done]. cbn [mbind option_bind].
  assert (F1 : h_fname h1 = h_fname h) by (destruct (negb (h_allow_duplicates h)); [by eapply Hd|congruence]).
  destruct (if h_count h1 =? h_len h1 then _ else _) as [h2|] eqn:E2; [|done]. cbn [mbind option_bind].
  assert (F2 : h_fname h2 = h_fname h) by (destruct (h_count h1 =? h_len h1); [apply history_delete_fname in E2|]; congruence).
  destruct (mem_strdup _) as [s|]; [|done]. cbn [mbind option_bind]. destruct (h_count h2 <? 0); [done|].
  destruct (store_at _ _ _) as [l|]; [|done]. cbn. by intros [= _ <-].
Qed.

(** Pushing, with the history that keeps nothing ([len] is 0). *)
Definition hist_add (dups : bool) (len : nat) (es : list bytes) (e : bytes) : list bytes :=
  if (len =? 0)%nat then es else hist_push dups len es e.

Lemma push_any h es e r : hist_ok h es -> 0 <= h_len h -> text_ok e -> (h_allow_duplicates h = false -> NoDup es) ->
  exists b h', history_push h (Some (e ++ 0 :: r)) = Some (b, h')
    /\ hist_ok h' (hist_add (h_allow_duplicates h) (Z.to_nat (h_len h)) es e)
    /\ h_len h' = h_len h /\ h_allow_duplicates h' = h_allow_duplicates h /\ h_fname h' = h_fname h.
Proof.
  intros Hh Hl He Hnd. unfold hist_add. destruct (decide (h_len h = 0)) as [E|E].
  - rewrite E. cbn. unfold history_push. rewrite E. cbn. by exists false, h.
  - rewrite (proj2 (Nat.eqb_neq _ 0)) by lia. destruct (push_ok enough h es e r Hh ltac:(lia) He Hnd) as (h' & Ep & Hh' & Hl' & Hd').
    exists true, h'. split_and!; [done..|]. by eapply history_push_fname.
Qed.

(** What a line leaves in the history: the empty entry that was pushed for it is
    replaced by the line, and taken away again when the line has at most one byte. *)
Definition hist_line (dups : bool) (len : nat) (es : list bytes) (line : bytes) : list bytes :=
  let es1 := hist_add dups len es [] in
  let es2 := hist_add dups len (take (length es1 - 1) es1) line in
  if (length line <=? 1)%nat then take (length es2 - 1) es2 else es2.

Lemma add_nodup dups len es e : (dups = false -> NoDup es) -> dups = false -> NoDup (hist_add dups len es e).
Proof. intros H Hd. unfold hist_add. destruct (len =? 0)%nat; [by apply H|]. by apply (hist_push_nodup enough). Qed.

Lemma take_nodup {X} n (l : list X) : NoDup l -> NoDup (take n l).
Proof. intros H. rewrite <- (take_drop n l) in H. by apply list.NoDup_app in H as [? _]. Qed.

Context (typed_bytes : bytes) (bytes_typed : bytes_ok typed_bytes) (plain_typed : Forall plain typed_bytes).
Context (no_braces : Forall not_brace typed_bytes) (no_raw : ~ spells_raw (typed_bytes ++ [13])).

Lemma edit_line_text tf fuel h es t : hist_ok h es -> 0 <= h_len h -> (h_allow_duplicates h = false -> NoDup es) -> h_fname h = None ->
  tty_ok t -> is_utf8 t = true -> push_count t = 0 -> pushed t = [] -> waits t = 0%nat -> (length typed_bytes < fuel)%nat ->
  exists h' t', edit_line (typed (typed_bytes ++ [13])) tf env fuel h t = Some ((Some (cstr typed_bytes), h', None), t')
    /\ hist_ok h' (hist_line (h_allow_duplicates h) (Z.to_nat (h_len h)) es typed_bytes)
    /\ left_to_read (typed_bytes ++ [13]) t 3 [] t'.
Proof.
  intros Hh Hl Hnd Hfn Hok Hu Hp Hps Hw Hf. set (bs := typed_bytes ++ [13]).
  destruct (push_any h es [] [] Hh Hl ltac:(constructor) Hnd) as (b1 & h1 & E1 & Hh1 & Hl1 & Hd1 & Hf1).
  set (es1 := hist_add _ _ es []) in Hh1. destruct (realloc_total enough None 16 ltac:(lia)) as (b0 & Eb0 & _).
  assert (Hleft : left_to_read bs t 3 bs t).
  { destruct (tty_ok_at t Hok) as [Hat _]. rewrite Hps, Hw in Hat. exists [], 0%nat. split_and!; [done|done|cbn; lia|done]. }
  set (eb0 := Editor sbuf_init 0 false false 0 editstate_init editstate_init h1).
  assert (He0 : ed_at eb0 [] 0).
  { split; try done; [by split; [constructor|]|]. split; [cbn; lia|]. exists es1. split; [done|]. cbn. rewrite Hd1. by apply add_nodup. }
  assert (W : wp (edit_line (typed bs) tf env fuel h) (fun '(res, h', file) t' => res = Some (cstr typed_bytes) /\ file = None
    /\ hist_ok h' (hist_line (h_allow_duplicates h) (Z.to_nat (h_len h)) es typed_bytes) /\ left_to_read bs t 3 [] t') t);
    [|destruct W as ([[res h'] file] & t' & E & -> & -> & Hh' & Hl'); by exists h', t'].
  apply wp_bind. eapply wp_lift; [unfold sbuf_new; rewrite Eb0; done|]. apply wp_bind. eapply wp_lift; [exact E1|].
  apply wp_bind. eapply wp_mono; [apply (edit_keys_text _ bs t tf (typed_served bs) (typed_silent bs) Hp Hu fuel typed_bytes [] eb0 t Hf Hleft
    bytes_typed plain_typed no_braces no_raw He0)|].
  intros [c eb] t' (-> & He & Hheb & Hl'). cbn [app] in He. apply wp_bind, wp_gets.
  assert (is_utf8 t' = true) as -> by (destruct Hl' as (? & ? & _ & _ & _ & Hs); by rewrite (same_utf8 _ _ Hs)).
  apply wp_bind. cbn [Z.eqb KEY_ENTER KEY_CTRL_D KEY_CTRL_C KEY_EVENT_STOP KEY_EVENT_BASE Pos.eqb andb orb negb Z.add].
  destruct (input_string eb typed_bytes _ He) as [r Er]. pose proof (plain_text _ plain_typed) as Htx.
  eapply wp_lift; [unfold sbuf_strdup; rewrite Er, (strdup_ok enough) by done; reflexivity|].
  apply wp_bind. rewrite Hheb. cbn [ed_history eb0].
  destruct (push_any (history_remove_last h1) (take (length es1 - 1) es1) typed_bytes r (remove_last_ok _ _ Hh1)) as (b2 & h2 & E2 & Hh2 & Hl2 & Hd2 & Hf2).
  { cbn. lia. } { done. }
  { intros Hd. apply take_nodup, add_nodup; [done|]. cbn in Hd. congruence. }
  cbn [h_len h_allow_duplicates history_remove_last history_remove_last_n set_elems h_fname] in Hh2, Hl2, Hd2, Hf2.
  eapply wp_lift; [unfold history_update; rewrite Er, E2; reflexivity|]. rewrite (input_len _ _ _ He).
  cbn [orb]. change (h_fname (history_remove_last h1)) with (h_fname h1) in Hf2. cbn in Hf2.
  assert (Hlast : forall b : bool, h_fname (if b then history_remove_last h2 else h2) = None).
  { intros []; cbn; congruence. }
  apply wp_bind. eapply wp_lift; [unfold history_save; by rewrite Hlast|]. apply wp_ret. split_and!; [done|done| |done].
  unfold hist_line. fold es1. cbn in Hh2. rewrite Hl1, Hd1 in Hh2.
  destruct (Z.leb_spec (Z.of_nat (length typed_bytes)) 1), (Nat.leb_spec (length typed_bytes) 1); try lia; [by apply remove_last_ok|done].
Qed.
End Props.

(** Theorems on the line editor as the shell uses it: a line that is typed is the
    line that is returned, and cases in which text is lost or the loop goes on for
    ever. *)

(** C7: From the keyboard to the line, with the editor as the shell sets it up (a
    UTF-8 terminal, one line, no history file): the bytes typed before Enter,
    valid UTF-8 or not, are the line [ic_editline] returns, byte for byte, when
    there are no control characters, none of the braces that are closed
    automatically, and no four bytes that spell a code point of the raw plane
    (these come back as one byte, [raw_plane_is_lost]).  The history afterwards
    is what [hist_line] says: a line of more than one byte is pushed on it as on
    a bounded queue; the shell's history has length 0 and keeps nothing.  The terminal, the decoder, the key table, the text
    buffer, the undo stack and the history work together on this path. *)
Theorem typed_line_is_returned `{A : allocator, !allocator_ok A} env bs h es fuel tf resize end_ok :
  ~ exhausted -> singleline_only env = true ->
  bytes_ok bs -> Forall plain bs -> Forall (not_brace env) bs -> ~ spells_raw (bs ++ [13]) ->
  hist_ok h es -> 0 <= h_len h -> (h_allow_duplicates h = false -> NoDup es) -> h_fname h = None ->
  (length bs < fuel)%nat ->
  exists h' t', ic_editline (typed (bs ++ [13])) tf env fuel true end_ok h (tty_new true resize) = Some ((Some (cstr bs), h', None), t')
    /\ hist_ok h' (hist_line (h_allow_duplicates h) (Z.to_nat (h_len h)) es bs).
Proof.
  intros Hmem Hone Hb Hp Hnb Hr Hh Hl Hnd Hfn Hf. set (t := set_raw (tty_new true resize) true).
  assert (Hok : tty_ok t) by (destruct (new_tty_ok true resize); by split).
  destruct (edit_line_text Hmem env Hone bs Hb Hp Hnb Hr tf fuel h es t Hh Hl Hnd Hfn Hok eq_refl eq_refl eq_refl eq_refl Hf)
    as (h' & t' & E & Hh' & _).
  exists h', (tty_end_raw t' end_ok). split; [|done]. unfold ic_editline. rewrite bind_unfold. unfold modify at 1.
  change (snd (tty_start_raw (tty_new true resize) true)) with t. rewrite bind_unfold, E. done.
Qed.

Lemma typed_line_is_returned_witness :
  exists h' t', ic_editline (typed (bytes_of_string "ls /sys" ++ [13])) 1 (shell_settings 80 6) 9 true true history_new (tty_new true true)
    = Some ((Some (cstr (bytes_of_string "ls /sys")), h', None), t') /\ hist_ok h' [].
Proof.
  apply (typed_line_is_returned (shell_settings 80 6) (bytes_of_string "ls /sys") history_new [] 9 1 true true heap_lasts eq_refl).
  - vm_compute. by repeat constructor.
  - repeat constructor; vm_compute; congruence.
  - assert (F : forallb (fun c => bool_decide (c ∉ default_auto_braces)) (bytes_of_string "ls /sys") = true) by (by vm_compute).
    rewrite forallb_forall in F. apply Forall_forall. intros c Hc. right. apply (bool_decide_unpack _). by rewrite F.
  - intros (i & u & E & _). do 9 (destruct i as [|i]; [by vm_compute in E|]). by rewrite drop_ge in E by (cbn; lia).
  - split; [constructor|]. split; [done|]. split; [done|]. by exists [].
  - done.
  - intros _. constructor.
  - done.
  - cbn. lia.
Defined.

(** U+EE0C1, the UTF-8 sequence F3 AE 83 81, comes back as the byte C1. *)
Theorem raw_plane_is_lost :
  (fun r => fst (fst (fst r))) <$> ic_editline (typed [0xF3; 0xAE; 0x83; 0x81; 13]) 1 (shell_settings 80 6) 9 true true history_new (tty_new true true)
  = Some (Some (cstr [0xC1])).
Proof. by vm_compute. Qed.

(** A buffer that holds "ab". *)
Definition ab_buffer : stringbuf := Stringbuf (Some [97; 98; 0; 0]) 3 2.

(** "ab" with the cursor at its end: backspace, undo, redo. *)
Lemma undo_redo_inverse_witness : exists eb1 eb2 eb3,
  edit_backspace (Editor ab_buffer 2 false false 0 [] [] history_new) = Some eb1 /\ ed_at eb1 [97] 1
  /\ editor_undo_restore eb1 true = Some eb2 /\ ed_at eb2 [97; 98] 2 /\ editor_redo_restore eb2 = Some eb3 /\ ed_at eb3 [97] 1.
Proof.
  destruct (undo_redo_inverse heap_lasts (Editor ab_buffer 2 false false 0 [] [] history_new)
    (fun eb => '(pos, input) ← sbuf_delete_char_before (ed_input eb) (ed_pos eb); Some (input, pos)) [97; 98] 2 [97] 1)
    as (eb1 & eb2 & eb3 & E1 & H1 & E2 & H2 & _ & E3 & H3 & _).
  - split; try done; try constructor; cbn; try done.
    + repeat constructor; done.
    + split; [done|]. by exists [0].
    + exists []. split; [|intros _; constructor]. split; [constructor|]. split; [done|]. split; [done|]. by exists [].
  - done.
  - intros eb [Hr -> Hi _ _ _].
    destruct (edits_now heap_lasts _ _ _ (edit_refines _ [97; 98] (DeleteCharBefore 2) Hr Hi)) as (sb & E & Hs). cbn [edit_run] in E.
    destruct (sbuf_prev_repr _ [97; 98] 2 Hr Hi) as (Hp & _). change (prev_len [97; 98] 2) with 1 in Hp.
    unfold sbuf_delete_char_before in *. rewrite Hp in *. cbn [mbind option_bind] in *.
    destruct (sbuf_delete_at _ _ _) as [sb'|]; [|done]. cbn in E. injection E as ->. exists sb. split_and!; [done|exact Hs|done|done].
  - by exists eb1, eb2, eb3.
Defined.

(** ** What the loop does wrong *)

(** A terminal that hung up: [select] reports input, [read] returns nothing. *)
Definition hung_up : nat -> wait := fun _ => Wait (Some 0) 1 None.

Lemma read_hung_up tf t k : tty_at [] k t -> push_count t = 0 ->
  exists t', tty_read hung_up tf t = Some (KEY_NONE, t') /\ tty_at [] (S k) t' /\ push_count t' = 0.
Proof.
  intros H Hp. destruct (readc_system hung_up k t 0 (-1) H) as (t' & E & H' & Hs). exists t'. unfold tty_read, tty_read_timeout.
  rewrite bind_unfold, bind_unfold. unfold tty_code_pop. rewrite Hp. cbn [Z.leb Z.compare]. rewrite bind_unfold, E. cbn.
  split_and!; [done|done|]. by rewrite (same_count _ _ Hs).
Qed.

(** After the terminal has hung up the editor never returns: [tty_read] gives
    KEY_NONE, which is taken for the code point 0 and inserted, as nothing, again
    and again, each time with a copy of the line on the undo stack. *)
Theorem hang_up_never_ends `{A : allocator, !allocator_ok A} env tf fuel eb t pos st k :
  ~ exhausted -> ed_at eb t pos -> tty_at [] k st -> push_count st = 0 ->
  edit_keys hung_up tf env fuel eb st = None.
Proof.
  intros Hmem. revert eb st k. induction fuel as [|fuel IH]; intros eb st k He Hat Hp; [done|]. cbn [edit_keys].
  destruct (read_hung_up tf st k Hat Hp) as (st' & E & Hat' & Hp'). rewrite bind_unfold, E, bind_unfold. cbn [modify compose]. rewrite bind_unfold.
  set (st1 := snd (tty_term_resize_event st')). assert (H1 : tty_at [] (S k) st1) by by apply resized_at.
  assert (Hp1 : push_count st1 = 0) by (unfold st1; by rewrite (same_count _ _ (resized_settings st'))).
  destruct (insert_text_at Hmem eb t pos (fun input pos => sbuf_insert_unicode_at input 0 pos) [] He) as (eb' & Ei & He' & _).
  { intros sb Hr. pose proof Hr as (_ & Hc & _). pose proof (ed_inside _ _ _ He) as Hi. unfold sbuf_insert_unicode_at, sbuf_insert_at.
    apply (insert_n_now Hmem sb t (unicode_to_qutf8 0) 0 []); [done| |done]. split; [constructor|]. exists [0; 0; 0; 0; 0]. split_and!; done || (cbn; lia) || by left. }
  assert (Ek : edit_key hung_up tf env fuel KEY_NONE eb st1 = Some ((false, eb'), st1)).
  { change (edit_key hung_up tf env fuel KEY_NONE eb)
      with (eb ← (r ← lift (Some <$> edit_insert_unicode eb 0); mret (default eb r) : tty_m editor); mret (false, eb) : tty_m (bool * editor)).
    unfold edit_insert_unicode. rewrite Ei. done. }
  rewrite Ek. cbn [fst snd]. unfold ins in He'. cbn [app length] in He'. rewrite take_drop, Z.add_0_r in He'. by apply (IH eb' st1 (S k)).
Qed.

Definition one_entry (len : Z) (es : list string) : history :=
  History (Z.of_nat (length es)) len (map (fun s => Some (cstr (bytes_of_string s))) es ++ replicate (Z.to_nat len - length es) None) None false.

(** The line and the history after the keys [bs]. *)
Definition line_of (bs : bytes) (h : history) : option (option bytes * history) :=
  '((r, h, _), _) ← ic_editline (typed bs) 9 (shell_settings 80 6) 99 true true h (tty_new true true); Some (r, h).

(** Undo marks the line as unmodified, so going up and down the history does not
    keep it: "ab" is left after the undo, and the empty line comes back. *)
Theorem undo_then_history_loses_line :
  fst <$> line_of ([97; 98; 99; 26] ++ [27; 91; 65] ++ [27; 91; 66] ++ [13]) (one_entry 4 ["ls"]) = Some (Some (cstr []))
  /\ fst <$> line_of ([97; 98; 99; 127] ++ [27; 91; 65] ++ [27; 91; 66] ++ [13]) (one_entry 4 ["ls"]) = Some (Some (cstr [97; 98])).
Proof. by vm_compute. Qed.

(** A line that is not kept still takes a place in a full history: the oldest
    entry is lost to an empty line. *)
Theorem empty_line_drops_oldest :
  snd <$> line_of [13] (one_entry 2 ["ls"; "cd"]) = Some (set_elems (one_entry 2 ["ls"; "cd"]) 1
    [Some (cstr (bytes_of_string "cd")); Some (cstr [])]).
Proof. by vm_compute. Qed.

(** A quote is in the default pairs that are closed automatically, but the search for
    its partner takes every quote for an opening one: the second quote is taken
    out again.  A bracket is closed. *)
Theorem quotes_are_not_closed :
  fst <$> line_of [34; 13] (one_entry 4 []) = Some (Some (cstr [34])) /\ fst <$> line_of [40; 13] (one_entry 4 []) = Some (Some (cstr [40; 41])).
Proof. by vm_compute. Qed.
