(* ===== verification/Getline.v ===== *)
(** deps/isocline/src/isocline.c: lines read without a terminal ([ic_getline]), as
    [run_test] asks for them when its input is a script, and what the shell makes
    of them. *)
From S2P Require Import Prelude CLib Io Syscall Optparse Usage Shell Sample ShellMain ShellProps Os Unicode Stringbuf SbufEdit SbufNav SbufProps.
From S2P Require Import History HistoryProps Tty EditLine.

(** The lines of a text; the last one may lack its newline. *)
Fixpoint split_nl (line s : bytes) : list bytes :=
  match s with
  | [] => match line with [] => [] | _ => [line] end
  | c :: s => if c =? 10 then line :: split_nl [] s else split_nl (line ++ [c]) s
  end.

(** What [ic_readline] returns for a line: NULL for an empty one. *)
Definition as_line (l : bytes) : option bytes := match l with [] => None | _ => Some (cstr l) end.

Section Lines.
Context `{A : allocator, !allocator_ok A} (enough : ~ exhausted).

(** The line up to the newline, or to the end of the input. *)
Definition line_end (input line rest : bytes) (eof : bool) : Prop :=
  if eof then input = line /\ rest = [] else input = line ++ 10 :: rest.

Lemma getline_loop_ok input : forall sb t, text_ok input -> sbuf_repr sb t ->
  exists sb' line rest eof, getline_loop input sb = Some (sb', rest, eof) /\ sbuf_repr sb' (t ++ line)
    /\ line_end input line rest eof /\ Forall (fun c => c <> 10) line /\ (line = [] -> sb' = sb).
Proof.
  induction input as [|c input IH]; intros sb t Ht Hr; cbn [getline_loop].
  - exists sb, [], [], true. rewrite app_nil_r. by split_and!.
  - apply Forall_cons_1 in Ht as [Hc Ht]. destruct (Z.eqb_spec c 10) as [->|Hnl].
    + exists sb, [], input, false. rewrite app_nil_r. by split_and!.
    + destruct (append_char_ok enough sb t c Hr Hc) as (sb1 & E1 & H1). unfold append_char in E1.
      destruct (sbuf_append_char sb c) as [[k sb2]|]; [|done]. injection E1 as ->. cbn [mbind option_bind].
      destruct (IH sb1 (t ++ [c]) Ht H1) as (sb' & line & rest & eof & E & H' & Hl & Hn & _).
      exists sb', (c :: line), rest, eof. rewrite <- app_assoc in H'. split_and!; [done|done| |by constructor|done].
      destruct eof; cbn in *; [destruct Hl as [-> ->]|rewrite Hl]; done.
Qed.

Lemma free_dup_ok sb t : sbuf_repr sb t -> t <> [] -> sbuf_free_dup sb = Some (cstr t).
Proof.
  intros (Ht & Hc & Hb) Hne. unfold sbuf_free_dup. destruct (sb_buf sb) as [b|]; [|by destruct Hb]. destruct Hb as (rest & -> & _).
  destruct (realloc (Some _) _) as [r|] eqn:E; [|destruct enough; eexists _, _; split; [|exact E]; lia].
  pose proof (realloc_size _ _ _ E) as Hs. rewrite Hc in E, Hs.
  replace (t ++ 0 :: rest) with (cstr t ++ rest) in E by (unfold cstr; by rewrite <- app_assoc).
  assert (Hl : length (cstr t) = (length t + 1)%nat) by (unfold cstr; by rewrite length_app).
  apply realloc_prefix in E; [|lia]. rewrite take_ge in E by lia. by rewrite E.
Qed.

Lemma getline_ok input : text_ok input ->
  exists line rest eof, ic_getline input = Some (as_line line, rest, eof) /\ line_end input line rest eof /\ Forall (fun c => c <> 10) line.
Proof.
  intros Ht. unfold ic_getline, sbuf_new. destruct (realloc_total enough None 16 ltac:(lia)) as (b & -> & _). cbn [mbind option_bind].
  assert (Hr : sbuf_repr sbuf_init []) by (by split; [constructor|]).
  destruct (getline_loop_ok input sbuf_init [] Ht Hr) as (sb & line & rest & eof & E & H & Hl & Hn & He).
  rewrite E. cbn [mbind option_bind]. exists line, rest, eof. split_and!; [|done|done]. do 3 f_equal.
  destruct line as [|c line]; [by rewrite He|]. by apply (free_dup_ok sb).
Qed.

Lemma split_line line s rest acc : Forall (fun c => c <> 10) line -> s = line ++ 10 :: rest -> split_nl acc s = (acc ++ line) :: split_nl [] rest.
Proof.
  intros Hn ->. revert acc. induction line as [|c line IH]; intros acc; cbn [app split_nl].
  - cbn. by rewrite app_nil_r.
  - apply Forall_cons_1 in Hn as [Hc Hn]. rewrite (proj2 (Z.eqb_neq c 10)), IH by done. by rewrite <- app_assoc.
Qed.

Lemma split_last line acc : Forall (fun c => c <> 10) line -> split_nl acc line = match acc ++ line with [] => [] | l => [l] end.
Proof.
  intros Hn. revert acc. induction line as [|c line IH]; intros acc; cbn [split_nl]; [by rewrite app_nil_r; destruct acc|].
  apply Forall_cons_1 in Hn as [Hc Hn]. rewrite (proj2 (Z.eqb_neq c 10)), IH by done. by rewrite <- app_assoc.
Qed.

Lemma read_lines_step fuel input line rest eof : ic_getline input = Some (line, rest, eof) ->
  read_lines (S fuel) input = match line with
    | None => if (eof : bool) then Some [] else ls ← read_lines fuel rest; Some (None :: ls)
    | Some _ => ls ← read_lines fuel rest; Some (line :: ls)
    end.
Proof. intros E. cbn [read_lines]. by rewrite E. Qed.

Lemma read_lines_ok fuel input : text_ok input -> (length input < fuel)%nat ->
  read_lines (S fuel) input = Some (map as_line (split_nl [] input)).
Proof.
  revert input. induction fuel as [|fuel IH]; intros input Ht Hf; [lia|].
  destruct (getline_ok input Ht) as (line & rest & eof & E & Hl & Hn). rewrite (read_lines_step _ _ _ _ _ E). destruct eof; cbn in Hl.
  - destruct Hl as [-> ->]. rewrite split_last by done. cbn [app]. destruct line as [|c line]; [done|]. cbn [as_line map].
    destruct (getline_ok [] ltac:(constructor)) as (l0 & r0 & e0 & E0 & Hl0 & _).
    assert (l0 = [] /\ e0 = true) as [-> ->] by (destruct e0; cbn in Hl0; [by destruct Hl0|by destruct l0]).
    by rewrite (read_lines_step _ _ _ _ _ E0).
  - rewrite (split_line line input rest []) by done. cbn [app map].
    assert (Hr : text_ok rest) by (subst input; apply text_ok_app in Ht as [_ Ht]; by apply Forall_cons_1 in Ht as [_ ?]).
    assert (Hlen : (length rest < fuel)%nat) by (subst input; rewrite length_app in Hf; cbn in Hf; lia).
    rewrite IH by done. by destruct line.
Qed.

(** A script is read line by line: the loop of [run_test] sees every line of
    its input, the last one also without a newline, and stops at the end of the
    input and not before.  An empty line is NULL and not the empty string, so the
    test for an empty line in the loop never ends a script. *)
Theorem script_is_read input :
  text_ok input -> read_lines (S (S (length input))) input = Some (map as_line (split_nl [] input)).
Proof. intros Ht. by apply read_lines_ok; [|lia]. Qed.
End Lines.

Lemma script_is_read_witness :
  read_lines 13 (bytes_of_string ("ls" +:+ nl +:+ nl +:+ "cd /sys")) =
  Some [Some (cstr (bytes_of_string "ls")); None; Some (cstr (bytes_of_string "cd /sys"))].
Proof. apply (script_is_read heap_lasts (bytes_of_string ("ls" +:+ nl +:+ nl +:+ "cd /sys"))). vm_compute. by repeat constructor. Defined.

(** From the file of a test to the commands that run: umka_shell.c, isocline.c and
    shell.c together.

    [Os] takes the lines that are read as a parameter; here they are what
    [ic_readline] makes of the bytes of the file, which is not a terminal. *)

(** The lines of a file, as the loop of [run_test] gets them; two turns more than
    there are bytes are enough, and no access is outside the buffer ([read_lines_ok]). *)
Definition read_script {A : allocator} (fin : option bytes) : list (option string) :=
  match fin with
  | None => []
  | Some input => match read_lines (S (S (length input))) input with Some ls => map (option_map cstring) ls | None => [] end
  end.

(** A script is written line by line. *)
Definition script_of (ls : list string) : bytes := ls ≫= fun l => bytes_of_string l ++ [10].

(** A line of a script: no newline, and no NUL. *)
Definition line_ok (l : string) : Prop := Forall (fun c => code c <> 0 /\ code c <> 10) (String.list_ascii_of_string l).

(** NULL for an empty line. *)
Definition line_read (l : string) : option string := match l with "" => None | _ => Some l end.

Lemma line_bytes l : line_ok l -> Forall (fun c => c <> 0 /\ c <> 10) (bytes_of_string l).
Proof. intros H. unfold bytes_of_string. by apply Forall_fmap. Qed.

Lemma script_text ls : Forall line_ok ls -> text_ok (script_of ls).
Proof.
  induction 1 as [|l ls Hl _ IH]; [constructor|]. unfold script_of. cbn [mbind list_bind]. apply Forall_app. split; [|exact IH].
  apply Forall_app. split; [|by constructor]. eapply Forall_impl; [|exact (line_bytes l Hl)]. cbn. tauto.
Qed.

Lemma script_split ls : Forall line_ok ls -> split_nl [] (script_of ls) = map bytes_of_string ls.
Proof.
  induction 1 as [|l ls Hl _ IH]; [done|]. unfold script_of. cbn [mbind list_bind map].
  rewrite <- (app_assoc _ [10]). rewrite (split_line (bytes_of_string l) _ (script_of ls) []); [by rewrite IH| |done].
  eapply Forall_impl; [|exact (line_bytes l Hl)]. cbn. tauto.
Qed.

Lemma as_line_read l : line_ok l -> option_map cstring (as_line (bytes_of_string l)) = line_read l.
Proof.
  intros Hl. destruct l as [|c l]; [done|].
  change (Some (cstring (cstr (bytes_of_string (String c l)))) = Some (String c l)). f_equal. unfold cstr.
  rewrite cstring_app by (eapply Forall_impl; [|exact Hl]; cbn; tauto). apply string_app_nil_r.
Qed.

Lemma read_script_lines `{A : allocator, !allocator_ok A} ls : ~ exhausted -> Forall line_ok ls ->
  read_script (Some (script_of ls)) = map line_read ls.
Proof.
  intros Hmem Hls. unfold read_script. rewrite (read_lines_ok Hmem) by (by apply script_text || lia). rewrite script_split by done.
  rewrite !map_map. induction Hls as [|l ls Hl _ IH]; [done|].
  cbn [map]. by rewrite as_line_read, IH.
Qed.

(** ** What a script means

    The shell takes the lines one after the other, threading the argument vector
    and the state; [w] is the state before and [w'] the state after. *)
Section scripts.
Context `{Kn : ShellKernel K} `{Ho : Host} (fuel : nat).

(** The prompt and the line are written to the log. *)
Definition echoed (l : string) (w w' : world K) : Prop :=
  exists w1, prompt w = Done tt w1 /\ w' = set_out (w_out w1 +:+ l +:+ nl) w1.

Definition quits (l : string) : Prop := l = "X" \/ l = "q".
Definition ignored (l : string) : Prop := l = "" \/ char_at l 0 = 35 \/ char_at l 0 = 13.

(** The vector for the words of a line: the words, NULL, and what was behind. *)
Definition vector (words : list string) (argv : list slot) : list slot :=
  map SStr words ++ SNull :: drop (S (length words)) argv.

(** One line that does not end the script. *)
Inductive executes (l : string) (argv : list slot) (w : world K) : list slot -> world K -> Prop :=
| executes_nothing w1 : ignored l -> echoed l w w1 -> executes l argv w argv w1
| executes_command name args f w1 w2 :
    ~ ignored l -> ~ quits l -> tokens is_blank l = name :: args -> (length (name :: args) <= MAX_COMMAND_ARGS)%nat ->
    find_cmd (cmd_cmds fuel) name = Some f -> echoed l w w1 ->
    f (Z.of_nat (length (name :: args))) (Some (vector (name :: args) argv)) w1 = Done tt w2 ->
    executes l argv w (free_line (vector (name :: args) argv)) w2
| executes_unknown name args w1 :
    ~ ignored l -> ~ quits l -> tokens is_blank l = name :: args -> (length (name :: args) <= MAX_COMMAND_ARGS)%nat ->
    find_cmd (cmd_cmds fuel) name = None -> echoed l w w1 ->
    executes l argv w (free_line (vector (name :: args) argv)) (set_out (w_out w1 +:+ "unknown command: " +:+ name +:+ nl) w1).

(** The lines up to the end or to a line that quits. *)
Inductive script_runs : list string -> list slot -> world K -> world K -> Prop :=
| script_ends argv w : script_runs [] argv w w
| script_quits l ls argv w w1 : quits l -> echoed l w w1 -> script_runs (l :: ls) argv w w1
| script_goes_on l ls argv w argv1 w1 w2 :
    executes l argv w argv1 w1 -> script_runs ls argv1 w1 w2 -> script_runs (l :: ls) argv w w2.

(** *** The read loop implements it *)

Lemma bind_done_inv {A B} (m : M K A) (f : A -> M K B) w b w2 :
  (m ≫= f) w = Done b w2 -> exists a w1, m w = Done a w1 /\ f a w1 = Done b w2.
Proof. unfold mbind, M_bind. destruct (m w) as [a w1| |]; [|done..]. eauto. Qed.

Lemma echo_line l w w1 : (prompt ;; Shell.line [l] : M K unit) w = Done tt w1 <-> echoed l w w1.
Proof.
  unfold echoed, Shell.line, putl. cbn [app foldr]. rewrite string_app_nil_r. split.
  - intros ([] & w2 & H1 & H2)%bind_done_inv. exists w2. split; [done|]. by injection H2 as <-.
  - intros (w2 & H1 & ->). by rewrite (bind_done _ _ _ _ _ H1).
Qed.

Lemma run_command_done l argv w argv1 w1 :
  length argv = (MAX_COMMAND_ARGS + 1)%nat ->
  run_command fuel l argv w = Done argv1 w1 <->
  exists name args, tokens is_blank l = name :: args /\ (length (name :: args) <= MAX_COMMAND_ARGS)%nat
    /\ argv1 = free_line (vector (name :: args) argv)
    /\ match find_cmd (cmd_cmds fuel) name with
       | Some f => f (Z.of_nat (length (name :: args))) (Some (vector (name :: args) argv)) w = Done tt w1
       | None => w1 = set_out (w_out w +:+ "unknown command: " +:+ name +:+ nl) w
       end.
Proof.
  intros Hl. unfold run_command. rewrite split_args_tokens. cbv zeta. rewrite Hl.
  destruct (Nat.ltb_spec (length (tokens is_blank l)) (MAX_COMMAND_ARGS + 1)) as [Hlt|Hge].
  2: { split; [done|]. intros (name & args & Ht & Hn & _). rewrite Ht in Hge. lia. }
  fold (vector (tokens is_blank l) argv). destruct (tokens is_blank l) as [|name args] eqn:Ht.
  { split; [|by intros (? & ? & ? & _)]. rewrite bind_undef; [done|]. by apply arg_bad. }
  rewrite (bind_done _ _ _ name w) by (by apply arg_str). split.
  - intros ([] & w2 & H1 & [= <- <-])%bind_done_inv. exists name, args.
    split; [done|]. split; [lia|]. split; [done|]. destruct (find_cmd _ name); [done|].
    unfold Shell.line, putl in H1. cbn [app foldr] in H1. rewrite string_app_nil_r in H1. by injection H1 as <-.
  - intros (name' & args' & [= <- <-] & _ & -> & H).
    erewrite bind_done; [reflexivity|]. destruct (find_cmd _ name) as [f|]; [exact H|]. subst w1.
    unfold Shell.line, putl. cbn [app foldr]. by rewrite string_app_nil_r.
Qed.

Lemma length_vector words argv :
  (length words < length argv)%nat -> length (free_line (vector words argv)) = length argv.
Proof.
  intros H. unfold free_line, vector. rewrite length_map, length_app, length_map. cbn [length]. rewrite length_drop. lia.
Qed.

Lemma executes_length l argv w argv1 w1 :
  length argv = (MAX_COMMAND_ARGS + 1)%nat -> executes l argv w argv1 w1 -> length argv1 = (MAX_COMMAND_ARGS + 1)%nat.
Proof. intros Hl H. destruct H; [done|rewrite length_vector; lia..]. Qed.

(** One turn of the loop. *)
Lemma run_input_done l argv w go argv1 w1 :
  length argv = (MAX_COMMAND_ARGS + 1)%nat -> line_ok l ->
  run_input fuel false (line_read l) argv w = Done (go, argv1) w1 <->
  (if go : bool then executes l argv w argv1 w1 else quits l /\ argv1 = argv /\ echoed l w w1).
Proof.
  intros Hl Hok. unfold run_input.
  assert (Hd : default "" (line_read l) = l) by (by destruct l). rewrite Hd.
  assert (Hnl : char_at l 0 <> 10).
  { destruct l as [|c l]; [discriminate|]. inversion Hok; subst. unfold char_at. cbn. tauto. }
  assert (Hbind : forall (m : M K (bool * list slot)) r, ((prompt ;; Shell.line [l]) ;; m : M K _) w = Done r w1
    <-> exists w2, echoed l w w2 /\ m w2 = Done r w1).
  { intros m r. split.
    - intros ([] & w2 & H1 & H2)%bind_done_inv. exists w2. split; [by apply echo_line|done].
    - intros (w2 & H1%echo_line & H2). by rewrite (bind_done _ _ _ _ _ H1). }
  rewrite Hbind. clear Hbind.
  destruct (decide (quits l)) as [Hq|Hq].
  { assert (line_read l = Some l /\ streq l "" = false /\ streq l "X" || streq l "q" = true) as (-> & -> & ->)
      by (destruct Hq as [-> | ->]; done).
    split; [intros (w2 & He & [= <- <- <-]); done|]. destruct go.
    - intros H. exfalso. destruct H as [w2 Hi _|? ? ? ? ? _ Hn|? ? ? _ Hn]; [|done..].
      destruct Hq as [-> | ->]; destruct Hi as [?|[?|?]]; discriminate.
    - intros (_ & -> & He). by exists w1. }
  destruct (decide (ignored l)) as [Hi|Hi].
  { assert (Hm : forall w2, match line_read l with
      | None => mret (true, argv)
      | Some s => if streq s "" then mret (false, argv) else if streq s "X" || streq s "q" then mret (false, argv)
          else if (char_at s 0 =? 35) || (char_at s 0 =? 10) || (char_at s 0 =? 13) then mret (true, argv)
          else argv' ← run_command fuel s argv; mret (true, argv')
      end w2 = Done (true, argv) w2).
    { intros w2. destruct l as [|c l]; [done|]. cbn [line_read].
      rewrite (proj2 (streq_neq (String c l) "")) by done.
      rewrite !(proj2 (streq_neq (String c l) _)) by (intros E; apply Hq; unfold quits; rewrite E; auto). cbn [orb].
      destruct Hi as [?|[-> | ->]]; [done|..]; reflexivity. }
    split.
    - intros (w2 & He & Hr). rewrite Hm in Hr. injection Hr as <- <- <-. by constructor.
    - destruct go; [|by intros []]. intros H. destruct H as [w2 _ He|? ? ? ? ? Hn|? ? ? Hn]; [|done..].
      exists w2. split; [done|]. apply Hm. }
  destruct l as [|c l]; [destruct Hi; by left|]. cbn [line_read]. set (s := String c l) in *.
  rewrite (proj2 (streq_neq s "")) by done.
  rewrite !(proj2 (streq_neq s _)) by (intros E; apply Hq; unfold quits; rewrite E; auto).
  rewrite !(proj2 (Z.eqb_neq _ _)) by (try done; intros E; apply Hi; unfold ignored; auto). cbn [orb]. split.
  - intros (w2 & He & (argv2 & w3 & Hr & [= <- <- <-])%bind_done_inv).
    apply run_command_done in Hr as (name & args & Ht & Hn & -> & Hc); [|done].
    destruct (find_cmd _ name) as [f|] eqn:Hf; [by eapply executes_command|]. subst w3. by eapply executes_unknown.
  - destruct go; [|by intros []]. intros H. destruct H as [w2 Hn _|name args f w2 w3 _ _ Ht Hn Hf He Hc|name args w2 _ _ Ht Hn Hf He]; [done|..].
    + exists w2. split; [done|]. erewrite bind_done; [reflexivity|]. apply run_command_done; [done|].
      exists name, args. rewrite Hf. done.
    + exists w2. split; [done|]. erewrite bind_done; [reflexivity|]. apply run_command_done; [done|].
      exists name, args. rewrite Hf. done.
Qed.

Lemma run_inputs_script ls : forall argv w w1,
  length argv = (MAX_COMMAND_ARGS + 1)%nat -> Forall line_ok ls ->
  run_inputs fuel false (map line_read ls) argv w = Done tt w1 <-> script_runs ls argv w w1.
Proof.
  induction ls as [|l ls IH]; intros argv w w1 Hl HF; cbn [map run_inputs].
  { split; [intros [= <-]; constructor|]. intros H. by inversion H. }
  inversion HF as [|? ? Hok HF']; subst. split.
  - intros ([go argv1] & w2 & H1 & H2)%bind_done_inv. apply run_input_done in H1; [|done..]. cbn [fst snd] in H2.
    destruct go.
    + eapply script_goes_on; [done|]. apply IH; [by eapply executes_length|done|done].
    + injection H2 as <-. destruct H1 as (Hq & _ & He). by apply script_quits.
  - intros H. inversion H as [|? ? ? ? ? Hq He|? ? ? ? argv1 w2 ? Hx Hs]; subst.
    + rewrite (bind_done _ _ _ (false, argv) w1); [done|]. by apply run_input_done.
    + rewrite (bind_done _ _ _ (true, argv1) w2) by (by apply run_input_done). cbn [fst snd].
      apply IH; [by eapply executes_length|done|done].
Qed.
End scripts.

(** C33: A test is run as it is written.  When run.us holds the lines [ls], the
    command line runtests gives makes umka_shell end in the state [w] exactly
    when the lines, taken one after the other from the initial state, lead to
    [w]: each line is logged behind the prompt; an empty line and a line that
    starts with a hash sign or a carriage return does nothing; X and q end the
    script; of any other line the first word names the command, which is run on
    the words of the line, or reported as unknown.  The output is that of
    out.log.  The option parser, the line reader of isocline with its buffer and
    the read loop of the shell work together here. *)
Theorem test_script_runs `{A : allocator, !allocator_ok A} `{Kn : ShellKernel K} `{Ho : Host} fuel pid table (k : K) files ls w :
  ~ exhausted -> Forall line_ok ls -> files !! "run.us" = Some (script_of ls) -> can_write "out.log" = true ->
  shell_main fuel read_script false pid table
    (map SStr ["../../umka_shell"; "-ri"; "run.us"; "-o"; "out.log"] ++ [SNull]) k files = Returned (Some "out.log") w
  <-> script_runs fuel ls (replicate (MAX_COMMAND_ARGS + 1) SNull)
        (shell_init true UMKA_RUNNING_NEVER false k (<["out.log" := []]> files)) w.
Proof.
  intros Hmem Hls Hf Hw. rewrite (runtests_command_line fuel read_script false pid table k files _ Hf Hw), read_script_lines by done.
  rewrite <- run_inputs_script by (done || apply length_replicate). unfold run_test. fold empty_argv.
  destruct (run_inputs _ _ _ _ _) as [[] w1| |]; [|split; discriminate..].
  split; [by intros [= ->]|by intros [= ->]].
Qed.

(** A test of a comment, an empty line, an unknown command, the end, and a line
    behind it. *)
Lemma test_script_runs_witness :
  exists w, script_runs 2 ["# test"; ""; "frob 1"; "X"; "pwd"] (replicate 43 SNull)
      (shell_init true UMKA_RUNNING_NEVER false (Small (fun _ => 0) [] (always 0 0))
         (<["out.log" := []]> {["run.us" := script_of ["# test"; ""; "frob 1"; "X"; "pwd"]]})) w
    /\ w_out w = "/> # test" +:+ nl +:+ "/> " +:+ nl +:+ "/> frob 1" +:+ nl +:+ "unknown command: frob" +:+ nl +:+ "/> X" +:+ nl.
Proof.
  eexists. split.
  - apply (test_script_runs 2 7 [] (Small (fun _ => 0) [] (always 0 0))
      {["run.us" := script_of ["# test"; ""; "frob 1"; "X"; "pwd"]]} ["# test"; ""; "frob 1"; "X"; "pwd"] _ heap_lasts);
      [|reflexivity|reflexivity|vm_compute; reflexivity].
    repeat constructor; vm_compute; congruence.
  - vm_compute. reflexivity.
Defined.
