(* ===== verification/EditSafe.v ===== *)
(** deps/isocline/src/editline.c: the invariant of the editor.

    Every editing operation returns, reads and writes only inside its buffers, and
    leaves a text with the cursor in it. *)
From S2P Require Import Prelude CLib Unicode Stringbuf SbufEdit SbufNav SbufProps History HistoryProps.
From S2P Require Import Tty TtyProps TtyKeys EditLine EditProps.

Definition ed_ok (eb : editor) : Prop := exists t pos, ed_at eb t pos.

(** The operation returns an editor that keeps the invariant. *)
Definition keeps (r : option editor) : Prop := exists eb', r = Some eb' /\ ed_ok eb'.

Section Safe.
Context `{A : allocator, !allocator_ok A} (enough : ~ exhausted) (env : settings).

Lemma keeps_same eb : ed_ok eb -> keeps (Some eb).
Proof. intros H. by exists eb. Qed.

(** ** Moves *)

Lemma move_keeps eb t pos r x : ed_at eb t pos -> r = Some x -> x <= Z.of_nat (length t) -> keeps (move_to eb r).
Proof.
  intros H -> Hx. unfold move_to. cbn [mbind option_bind]. destruct (Z.ltb_spec x 0); [apply keeps_same; by exists t, pos|].
  eexists. split; [done|]. exists t, x. destruct H. split; done || lia.
Qed.

Lemma pos_keeps eb t pos x : ed_at eb t pos -> 0 <= x <= Z.of_nat (length t) -> ed_ok (with_pos eb x).
Proof. intros [] Hx. exists t, x. by split. Qed.

Lemma left_keeps eb : ed_ok eb -> keeps (edit_cursor_left eb).
Proof.
  intros (t & pos & H). pose proof (ed_inside _ _ _ H) as Hi. unfold edit_cursor_left, sbuf_prev. rewrite (ed_cursor _ _ _ H).
  destruct (sbuf_prev_repr _ t pos (ed_repr _ _ _ H) Hi) as (-> & Hp & _). cbn [mbind option_bind].
  eapply move_keeps; [exact H|done|]. destruct (_ <=? 0); lia.
Qed.

Lemma right_keeps eb : ed_ok eb -> keeps (edit_cursor_right eb).
Proof.
  intros (t & pos & H). pose proof (ed_inside _ _ _ H) as Hi. unfold edit_cursor_right, sbuf_next. rewrite (ed_cursor _ _ _ H).
  destruct (sbuf_next_repr _ t pos (ed_repr _ _ _ H) ltac:(lia)) as (-> & Hn & Hn'). cbn [mbind option_bind].
  eapply move_keeps; [exact H|done|]. destruct (Z.leb_spec (next_len t pos) 0); [lia|].
  destruct (decide (pos < Z.of_nat (length t))); [by apply Hn'|]. unfold next_len in *. rewrite str_next_ofs_end in * by lia. cbn in *. lia.
Qed.

Lemma start_at eb t pos m skip : ed_at eb t pos -> class_total m ->
  exists x, or_else 0 (str_find_backward (sb_buf (ed_input eb)) (sb_count (ed_input eb)) (ed_pos eb) m skip) = Some x /\ 0 <= x <= pos.
Proof. intros H Hm. rewrite (ed_cursor _ _ _ H). apply (find_start_ok _ t (ed_repr _ _ _ H)); [done|apply (ed_inside _ _ _ H)]. Qed.

Lemma end_at eb t pos m skip : ed_at eb t pos -> class_total m ->
  exists x, or_else (sb_count (ed_input eb)) (str_find_forward (sb_buf (ed_input eb)) (sb_count (ed_input eb)) (ed_pos eb) m skip) = Some x
    /\ pos <= x <= Z.of_nat (length t).
Proof. intros H Hm. rewrite (ed_cursor _ _ _ H). apply (find_end_ok _ t (ed_repr _ _ _ H)); [done|apply (ed_inside _ _ _ H)]. Qed.

Lemma move_start_keeps eb m skip : ed_ok eb -> class_total m ->
  keeps (move_to eb (or_else 0 (str_find_backward (sb_buf (ed_input eb)) (sb_count (ed_input eb)) (ed_pos eb) m skip))).
Proof.
  intros (t & pos & H) Hm. destruct (start_at eb t pos m skip H Hm) as (x & E & Hx). pose proof (ed_inside _ _ _ H).
  eapply move_keeps; [exact H|exact E|lia].
Qed.

Lemma move_end_keeps eb m skip : ed_ok eb -> class_total m ->
  keeps (move_to eb (or_else (sb_count (ed_input eb)) (str_find_forward (sb_buf (ed_input eb)) (sb_count (ed_input eb)) (ed_pos eb) m skip))).
Proof.
  intros (t & pos & H) Hm. destruct (end_at eb t pos m skip H Hm) as (x & E & Hx). eapply move_keeps; [exact H|exact E|lia].
Qed.

Lemma set_rowcol_keeps eb row col : ed_ok eb -> keeps (edit_set_pos_at_rowcol env eb row col).
Proof.
  intros (t & pos & H). unfold edit_set_pos_at_rowcol.
  destruct (get_pos_ok (ed_input eb) t (termw env) (promptw env) (cpromptw env) row col (ed_repr _ _ _ H)) as (x & E & Hx).
  eapply move_keeps; [exact H|exact E|lia].
Qed.

(** ** Braces *)

Lemma scan_braces_match braces cur s : forall i st st', scan_braces braces cur s i st = Some st' ->
  0 <= i -> bs_match st <= i -> Forall (fun b => snd b < i) (bs_open st) -> bs_match st' <= i + Z.of_nat (length s).
Proof.
  induction s as [|c s IH]; intros i st st' E Hi Hm Ho; cbn [scan_braces] in E; [injection E as <-; cbn; lia|].
  assert (Hrec : forall st1, scan_braces braces cur s (i + 1) st1 = Some st' -> bs_match st1 <= i + 1 -> Forall (fun b => snd b < i + 1) (bs_open st1) ->
    bs_match st' <= i + Z.of_nat (length (c :: s))).
  { intros st1 E1 Hm1 Ho1. specialize (IH _ _ _ E1 ltac:(lia) Hm1 Ho1). cbn [length]. lia. }
  assert (Ho' : Forall (fun b : Z * bool * Z => snd b < i + 1) (bs_open st)) by (eapply Forall_impl; [|exact Ho]; cbn; lia).
  destruct (opens braces c) as [close|].
  - destruct (_ <=? _)%nat; [done|]. eapply Hrec; [exact E|cbn; lia|]. cbn. constructor; [cbn; lia|done].
  - eapply Hrec; [exact E| |]; destruct (closes braces c); try (done || lia); destruct (bs_open st) as [|[[close atc] p] open]; cbn; try (done || lia);
      (destruct (negb (close =? c)); cbn; [done || lia|]); apply Forall_cons_1 in Ho' as [Hp Ho']; cbn in Hp; [|done].
    destruct (i =? cur - 1); [lia|]. destruct atc; lia.
Qed.

Lemma match_brace_keeps eb : ed_ok eb -> keeps (edit_cursor_match_brace env eb).
Proof.
  intros (t & pos & H). unfold edit_cursor_match_brace. rewrite (input_text_at _ _ _ H). cbn [mbind option_bind].
  eapply move_keeps; [exact H|done|]. unfold find_matching_brace.
  destruct (scan_braces _ _ t 0 _) as [st|] eqn:E; cbn; [|lia]. apply scan_braces_match in E; cbn in *; try lia. constructor.
Qed.

Lemma delete_char_at_input eb t pos : ed_at eb t pos ->
  exists input, sbuf_delete_char_at (ed_input eb) (ed_pos eb) = Some input /\ sbuf_repr input (del t pos (next_len t pos))
    /\ pos <= Z.of_nat (length (del t pos (next_len t pos))).
Proof.
  intros H. rewrite (ed_cursor _ _ _ H). pose proof (ed_inside _ _ _ H) as Hi.
  destruct (edits_now enough _ _ _ (edit_refines _ t (DeleteCharAt pos) (ed_repr _ _ _ H) ltac:(cbn; lia))) as (sb & E & Hr).
  exists sb. split; [exact E|]. split; [exact Hr|]. unfold del. rewrite length_app, length_take. lia.
Qed.

Lemma input_keeps eb t pos input t' pos' : ed_at eb t pos -> sbuf_repr input t' -> 0 <= pos' <= Z.of_nat (length t') -> ed_at (with_input eb input pos') t' pos'.
Proof. intros [] Hr Hp. by split. Qed.

Lemma auto_brace_keeps braces : forall eb c, ed_ok eb -> keeps (auto_brace_loop env braces eb c).
Proof.
  remember (length braces) as n eqn:Hn. revert braces Hn. induction (lt_wf n) as [n _ IH]. intros [|o rest] -> eb c He; cbn [auto_brace_loop].
  { by apply keeps_same. }
  pose proof He as (t & pos & H). pose proof (ed_inside _ _ _ H) as Hi. destruct (o =? c).
  - set (k := default 0 (head rest)).
    assert (Hins : exists p input t', sbuf_insert_char_at (ed_input eb) k (ed_pos eb) = Some (p, input) /\ sbuf_repr input t' /\ pos <= Z.of_nat (length t')).
    { rewrite (ed_cursor _ _ _ H). destruct (decide (k = 0)) as [->|Hk].
      - destruct (insert_n_now enough _ t [0; 0] 1 [] pos (ed_repr _ _ _ H)) as (sb & E & Hr); [|done|].
        { split; [constructor|]. exists [0; 0]. split_and!; [done|cbn; lia|by right]. }
        eexists _, _, _. split; [exact E|]. split; [exact Hr|]. rewrite length_ins by done. lia.
      - destruct (insert_n_now enough _ t [k; 0] 1 [k] pos (ed_repr _ _ _ H)) as (sb & E & Hr); [|done|].
        { apply (points_to_cstr [k] []). by constructor. }
        eexists _, _, _. split; [exact E|]. split; [exact Hr|]. rewrite length_ins by done. lia. }
    destruct Hins as (p & input & t' & -> & Hr & Hl). cbn [mbind option_bind].
    assert (H' : ed_at (with_input eb input (ed_pos eb)) t' pos) by (rewrite (ed_cursor _ _ _ H); eapply input_keeps; [exact H|done|lia]).
    rewrite (input_text_at _ _ _ H'). cbn [mbind option_bind]. destruct (negb _); [|apply keeps_same; by exists t', pos].
    destruct (delete_char_at_input _ _ _ H') as (sb & E & Hr2 & Hl2). rewrite E. cbn [mbind option_bind]. eexists. split; [done|].
    rewrite (ed_cursor _ _ _ H'). eexists _, _. eapply input_keeps; [exact H'|exact Hr2|lia].
  - destruct (default 0 (head rest) =? c).
    + assert (Hch : exists h, sbuf_char_at (ed_input eb) (ed_pos eb) = Some h).
      { unfold sbuf_char_at. destruct (ed_repr _ _ _ H) as (_ & Hc & Hb). destruct (sb_buf (ed_input eb)) as [b|]; [|by eexists].
        destruct Hb as (r & -> & _). rewrite (ed_cursor _ _ _ H), Hc. destruct (_ || _); [by eexists|]. apply lookup_lt_is_Some_2. rewrite length_app. cbn. lia. }
      destruct Hch as [h ->]. cbn [mbind option_bind]. destruct (h =? c); [|by apply keeps_same].
      destruct (delete_char_at_input _ _ _ H) as (sb & E & Hr2 & Hl2). rewrite E. cbn [mbind option_bind]. eexists. split; [done|].
      rewrite (ed_cursor _ _ _ H). eexists _, _. eapply input_keeps; [exact H|exact Hr2|lia].
    + destruct rest as [|k rest]; [by apply keeps_same|]. apply (IH (length rest)); [cbn; lia|done|done].
Qed.

(** ** Edits *)

Lemma edit_keeps eb t pos f t' pos' : ed_at eb t pos -> edits_input f t pos t' pos' -> keeps (edit_input eb f).
Proof. intros H Hf. destruct (edit_input_at enough eb f t pos t' pos' H Hf) as (eb' & E & H' & _). exists eb'. split; [done|]. by exists t', pos'. Qed.

Lemma del_in_length t a n : 0 <= a <= Z.of_nat (length t) -> a <= Z.of_nat (length (del_in t a n)).
Proof. intros H. unfold del_in, del. destruct (_ && _); [|lia]. rewrite length_app, length_take. lia. Qed.

(** The text from [a] to [b] goes, the cursor is at [a]. *)
Lemma delete_range sb t x y : sbuf_repr sb t -> 0 <= x <= Z.of_nat (length t) ->
  exists t', (forall sb, sbuf_repr sb t -> exists sb', sbuf_delete_from_to sb x y = Some sb' /\ sbuf_repr sb' t') /\ x <= Z.of_nat (length t').
Proof.
  intros _ Hx. exists (edit_spec t (DeleteFromTo x y)). split.
  - intros sb' Hr. exact (edits_now enough _ _ _ (edit_refines sb' t (DeleteFromTo x y) Hr I)).
  - cbn [edit_spec]. destruct (_ <=? _); [lia|]. by apply del_in_length.
Qed.

Lemma delete_range_keeps eb t pos x y : ed_at eb t pos -> 0 <= x <= Z.of_nat (length t) ->
  keeps (edit_input eb (fun eb => input ← sbuf_delete_from_to (ed_input eb) x y; Some (input, x))).
Proof.
  intros H Hx. destruct (delete_range _ t x y (ed_repr _ _ _ H) Hx) as (t' & Hd & Hl). eapply (edit_keeps eb t pos _ t' x H).
  intros eb1 H1. destruct (Hd _ (ed_repr _ _ _ H1)) as (sb & -> & Hr). exists sb. split_and!; [done|done|lia|lia].
Qed.

Lemma backspace_keeps eb : ed_ok eb -> keeps (edit_backspace eb).
Proof.
  intros (t & pos & H). pose proof (ed_inside _ _ _ H) as Hi. unfold edit_backspace. rewrite (ed_cursor _ _ _ H).
  destruct (Z.leb_spec pos 0); [apply keeps_same; by exists t, pos|].
  apply (edit_keeps eb t pos _ (del t (pos - prev_len t pos) (prev_len t pos)) (pos - prev_len t pos) H). intros eb1 H1. rewrite (ed_cursor _ _ _ H1).
  destruct (sbuf_prev_repr _ t pos (ed_repr _ _ _ H1) Hi) as (Hp & Hb & Hb1). specialize (Hb1 ltac:(lia)).
  destruct (edits_now enough _ _ _ (edit_refines _ t (DeleteCharBefore pos) (ed_repr _ _ _ H1) Hi)) as (sb & E & Hr). cbn [edit_run] in E.
  unfold sbuf_delete_char_before in *. rewrite Hp in *. cbn [mbind option_bind] in *. rewrite (proj2 (Z.leb_gt _ 0)) in * by lia.
  destruct (sbuf_delete_at _ _ _) as [sb'|]; [|done]. cbn in *. injection E as ->. exists sb. split_and!; [done|exact Hr|lia|].
  unfold del. rewrite length_app, length_take. lia.
Qed.

Lemma delete_char_keeps eb : ed_ok eb -> keeps (edit_delete_char eb).
Proof.
  intros (t & pos & H). pose proof (ed_inside _ _ _ H) as Hi. unfold edit_delete_char.
  destruct (_ <=? _); [apply keeps_same; by exists t, pos|]. apply (edit_keeps eb t pos _ (del t pos (next_len t pos)) pos H). intros eb1 H1.
  destruct (delete_char_at_input _ _ _ H1) as (sb & -> & Hr & Hl). rewrite (ed_cursor _ _ _ H1). exists sb. split_and!; [done|done|lia|lia].
Qed.

Lemma delete_all_keeps eb : ed_ok eb -> keeps (edit_delete_all eb).
Proof.
  intros (t & pos & H). unfold edit_delete_all. destruct (_ <=? _); [apply keeps_same; by exists t, pos|].
  apply (edit_keeps eb t pos _ [] 0 H). intros eb1 H1. destruct (clear_edits _ t (ed_repr _ _ _ H1)) as (sb & -> & Hr). exists sb. split_and!; done.
Qed.

(** Where swapping leaves the cursor. *)
Definition swap_pos (t : bytes) (pos : Z) : Z :=
  if (0 <? next_len t pos) && (0 <? prev_len t pos) && (prev_len t pos <? 63) then pos - prev_len t pos else 0.

Lemma swap_moves sb t pos : sbuf_repr sb t -> 0 <= pos <= Z.of_nat (length t) ->
  exists sb', sbuf_swap_char sb pos = Some (swap_pos t pos, sb') /\ sbuf_repr sb' (edit_spec t (SwapChar pos)) /\ sb_count sb' = sb_count sb.
Proof.
  intros Hr Hi. destruct (edits_now enough _ _ _ (swap_edits sb t pos Hr Hi)) as (sb' & E & Hr').
  destruct (sbuf_prev_repr sb t pos Hr Hi) as (Hp & Hb & _). destruct (sbuf_next_repr sb t pos Hr ltac:(lia)) as (Hn & Hn0 & _).
  unfold sbuf_swap_char, swap_pos in *. rewrite Hp, Hn in *. cbn [mbind option_bind] in *.
  destruct (Z.leb_spec (next_len t pos) 0); [rewrite (proj2 (Z.ltb_ge 0 (next_len t pos))) by lia; injection E as ->; by exists sb'|].
  destruct (Z.leb_spec (prev_len t pos) 0); [rewrite (proj2 (Z.ltb_ge 0 (prev_len t pos))), andb_false_r by lia; injection E as ->; by exists sb'|].
  destruct (Z.leb_spec 63 (prev_len t pos)); [rewrite (proj2 (Z.ltb_ge (prev_len t pos) 63)), andb_false_r by lia; injection E as ->; by exists sb'|].
  rewrite !(proj2 (Z.ltb_lt _ _)) by lia. cbn [andb]. destruct (sb_buf sb) as [b|]; [|done]. cbn [mbind option_bind] in *.
  destruct (ic_memcpy (zeroes 64) _ _ _) as [x|]; [|done]. cbn [mbind option_bind] in *.
  destruct (ic_memmove _ _ _ _) as [y|]; [|done]. cbn [mbind option_bind] in *.
  destruct (ic_memcpy y _ _ _) as [z|]; [|done]. cbn [mbind option_bind] in *. injection E as <-. by eexists.
Qed.

Lemma swap_keeps eb : ed_ok eb -> keeps (edit_swap_char eb).
Proof.
  intros (t & pos & H). pose proof (ed_inside _ _ _ H) as Hi. unfold edit_swap_char. destruct (_ || _); [apply keeps_same; by exists t, pos|].
  apply (edit_keeps eb t pos _ (edit_spec t (SwapChar pos)) (swap_pos t pos) H). intros eb1 H1. rewrite (ed_cursor _ _ _ H1).
  destruct (swap_moves _ t pos (ed_repr _ _ _ H1) Hi) as (sb & -> & Hr & Hc). exists sb. split; [done|]. split; [done|].
  pose proof Hr as (_ & Hc' & _). pose proof (ed_repr _ _ _ H1) as (_ & Hc1 & _). rewrite <- Hc', Hc, Hc1.
  destruct (sbuf_prev_repr _ t pos (ed_repr _ _ _ H1) Hi) as (_ & Hb & _). unfold swap_pos. destruct (_ && _); lia.
Qed.

(** ** Lines and words *)

Lemma delete_to_start_keeps eb m skip : ed_ok eb -> class_total m ->
  keeps (start ← or_else 0 (str_find_backward (sb_buf (ed_input eb)) (sb_count (ed_input eb)) (ed_pos eb) m skip);
         if start <? 0 then Some eb
         else edit_input eb (fun eb => input ← sbuf_delete_from_to (ed_input eb) start (ed_pos eb); Some (input, start))).
Proof.
  intros (t & pos & H) Hm. pose proof (ed_inside _ _ _ H) as Hi. destruct (start_at eb t pos m skip H Hm) as (x & -> & Hx). cbn [mbind option_bind].
  rewrite (proj2 (Z.ltb_ge x 0)) by lia.
  destruct (delete_range _ t x pos (ed_repr _ _ _ H) ltac:(lia)) as (t' & Hd & Hl). apply (edit_keeps eb t pos _ t' x H).
  intros eb1 H1. rewrite (ed_cursor _ _ _ H1). destruct (Hd _ (ed_repr _ _ _ H1)) as (sb & -> & Hr). exists sb. split_and!; [done|done|lia|lia].
Qed.

Lemma delete_to_end_keeps eb m skip : ed_ok eb -> class_total m ->
  keeps (end_ ← or_else (sb_count (ed_input eb)) (str_find_forward (sb_buf (ed_input eb)) (sb_count (ed_input eb)) (ed_pos eb) m skip);
         if end_ <? 0 then Some eb
         else edit_input eb (fun eb => input ← sbuf_delete_from_to (ed_input eb) (ed_pos eb) end_; Some (input, ed_pos eb))).
Proof.
  intros (t & pos & H) Hm. pose proof (ed_inside _ _ _ H) as Hi. destruct (end_at eb t pos m skip H Hm) as (x & -> & Hx). cbn [mbind option_bind].
  rewrite (proj2 (Z.ltb_ge x 0)) by lia.
  destruct (delete_range _ t pos x (ed_repr _ _ _ H) ltac:(lia)) as (t' & Hd & Hl). apply (edit_keeps eb t pos _ t' pos H).
  intros eb1 H1. rewrite (ed_cursor _ _ _ H1). destruct (Hd _ (ed_repr _ _ _ H1)) as (sb & -> & Hr). exists sb. split_and!; [done|done|lia|lia].
Qed.

Lemma on_line_keeps eb k : ed_ok eb ->
  (forall t pos start end_, ed_at eb t pos -> 0 <= start <= pos -> pos <= end_ <= Z.of_nat (length t) -> keeps (k start end_)) -> keeps (on_line eb k).
Proof.
  intros (t & pos & H) Hk. unfold on_line, sbuf_find_line_start, sbuf_find_line_end, str_find_line_start, str_find_line_end.
  destruct (start_at eb t pos char_is_linefeed false H linefeed_total) as (x & -> & Hx). cbn [mbind option_bind]. rewrite (proj2 (Z.ltb_ge x 0)) by lia.
  destruct (end_at eb t pos char_is_linefeed false H linefeed_total) as (y & -> & Hy). cbn [mbind option_bind].
  pose proof (ed_inside _ _ _ H). rewrite (proj2 (Z.ltb_ge y 0)) by lia. by apply (Hk t pos).
Qed.

Lemma char_at_ok sb t i : sbuf_repr sb t -> exists c, sbuf_char_at sb i = Some c /\ (c <> 0 -> 0 <= i).
Proof.
  intros (_ & Hc & Hb). unfold sbuf_char_at. destruct (sb_buf sb) as [b|]; [|by exists 0]. destruct Hb as (r & -> & _). rewrite Hc.
  destruct (Z.ltb_spec i 0), (Z.ltb_spec (Z.of_nat (length t)) i); cbn [orb]; try (by exists 0).
  destruct (lookup_lt_is_Some_2 (t ++ 0 :: r) (Z.to_nat i)) as [c ->]; [rewrite length_app; cbn; lia|]. by exists c.
Qed.

Lemma delete_eol_keeps eb : ed_ok eb -> keeps (edit_delete_to_end_of_line eb).
Proof.
  intros He. apply on_line_keeps; [done|]. intros t pos start end_ H Hs Hen.
  destruct (char_at_ok _ t end_ (ed_repr _ _ _ H)) as (h & Eh & _). destruct (char_at_ok _ t (start - 1) (ed_repr _ _ _ H)) as (b & Eb & Hb).
  unfold edit_input. destruct (start_modify_at enough eb t pos H) as (eb1 & E1 & H1 & _). rewrite E1. cbn [mbind option_bind].
  destruct (char_at_ok _ t end_ (ed_repr _ _ _ H1)) as (h1 & -> & _). destruct (char_at_ok _ t (start - 1) (ed_repr _ _ _ H1)) as (b1 & -> & Hb1).
  cbn [mbind option_bind]. rewrite (ed_cursor _ _ _ H1).
  assert (Hgo : forall p q, 0 <= p <= Z.of_nat (length t) ->
    keeps ('(input, pos) ← (input ← sbuf_delete_from_to (ed_input eb1) p q; Some (input, p)); Some (with_input eb1 input pos))).
  { intros p q Hp. destruct (delete_range _ t p q (ed_repr _ _ _ H1) Hp) as (t' & Hd & Hl).
    destruct (Hd _ (ed_repr _ _ _ H1)) as (sb & -> & Hr). cbn. eexists. split; [done|]. exists t', p. eapply input_keeps; [exact H1|done|lia]. }
  destruct ((start =? end_) && (h1 =? 10)); [apply Hgo; lia|].
  destruct ((start =? end_) && (b1 =? 10)) eqn:Eq; [|apply Hgo; lia]. specialize (Hb1 ltac:(lia)). apply Hgo. lia.
Qed.

Lemma delete_sol_keeps eb : ed_ok eb -> keeps (edit_delete_to_start_of_line eb).
Proof.
  intros He. apply on_line_keeps; [done|]. intros t pos start end_ H Hs Hen. pose proof (ed_inside _ _ _ H).
  destruct (char_at_ok _ t (start - 1) (ed_repr _ _ _ H)) as (b & -> & Hb). cbn [mbind option_bind].
  set (right := (0 <? start) && (b =? 10) && (start =? end_)). set (x := if right then start - 1 else start).
  assert (Hx : 0 <= x <= Z.of_nat (length t)) by (unfold x, right; destruct (Z.ltb_spec 0 start); cbn; repeat case_match; lia).
  destruct (delete_range _ t x pos (ed_repr _ _ _ H) Hx) as (t' & Hd & Hl).
  destruct (edit_keeps eb t pos (fun eb => input ← sbuf_delete_from_to (ed_input eb) x (ed_pos eb); Some (input, x)) t' x H) as (eb' & -> & He').
  { intros eb1 H1. rewrite (ed_cursor _ _ _ H1). destruct (Hd _ (ed_repr _ _ _ H1)) as (sb & -> & Hr). exists sb. split_and!; [done|done|lia|lia]. }
  cbn [mbind option_bind]. unfold go_right. destruct right; [by apply right_keeps|by apply keeps_same].
Qed.

(** ** Inserting *)

Lemma encoded_text u : 0 <= u <= 0x10FFFF -> exists c more, unicode_to_qutf8 u = c ++ 0 :: more /\ text_ok c.
Proof.
  intros Hu. destruct (unicode_cstr u Hu) as [more E]. unfold qutf8 in E. rewrite is_raw_spec in E. destruct (decide (0xEE000 <= u <= 0xEE0FF)).
  - destruct (decide (u - 0xEE000 = 0)) as [E0|]; [rewrite E0 in E; exists [], (0 :: more); split; [exact E|constructor]|].
    exists [u - 0xEE000], more. split; [done|]. by constructor.
  - destruct (decide (u <= 0x7F)).
    + unfold utf8_seq in E. rewrite (proj2 (Z.leb_le u 0x7F)) in E by lia. destruct (decide (u = 0)) as [->|]; [exists [], (0 :: more); split; [exact E|constructor]|].
      exists [u], more. split; [done|]. by constructor.
    + exists (utf8_seq u), more. split; [done|]. eapply Forall_impl; [|apply seq_high; lia]. cbn. lia.
Qed.

Lemma insert_char_keeps eb c : ed_ok eb -> 32 <= c -> keeps (edit_insert_char env eb c).
Proof.
  intros (t & pos & H) Hc. unfold edit_insert_char.
  destruct (insert_text_at enough eb t pos (fun input pos => sbuf_insert_char_at input c pos) [c] H) as (eb1 & -> & H1 & _).
  { intros sb Hr. apply (insert_n_now enough sb t [c; 0] 1 [c]); [done| |apply (ed_inside _ _ _ H)]. apply (points_to_cstr [c] []). constructor; [lia|constructor]. }
  cbn [mbind option_bind].
  assert (Hb : keeps (edit_auto_brace env eb1 c)).
  { unfold edit_auto_brace. destruct (no_autobrace env); [apply keeps_same|apply auto_brace_keeps]; by eexists _, _. }
  destruct Hb as (eb2 & -> & H2). cbn [mbind option_bind]. rewrite (proj2 (Z.eqb_neq c 10)) by lia. by apply keeps_same.
Qed.

Lemma insert_unicode_keeps eb u : ed_ok eb -> 0 <= u <= 0x10FFFF -> keeps (edit_insert_unicode eb u).
Proof.
  intros (t & pos & H) Hu. destruct (encoded_text u Hu) as (c & more & E & Hc). unfold edit_insert_unicode.
  destruct (insert_text_at enough eb t pos (fun input pos => sbuf_insert_unicode_at input u pos) c H) as (eb1 & -> & H1 & _).
  { intros sb Hr. unfold sbuf_insert_unicode_at, sbuf_insert_at, ic_strlen. rewrite E, c_strlen_app by done. cbn [mbind option_bind].
    apply (insert_n_now enough); [done|by apply points_to_cstr|apply (ed_inside _ _ _ H)]. }
  apply keeps_same. by eexists _, _.
Qed.

Lemma insert_code_keeps eb c : ed_ok eb -> 0 <= c -> exists r, edit_insert_code env eb c = Some r /\ ed_ok (default eb r).
Proof.
  intros He Hc. unfold edit_insert_code, code_is_ascii_char, code_is_unicode, KEY_UNICODE_MAX. destruct ((32 <=? c) && (c <=? 0x7F)) eqn:E.
  - destruct (insert_char_keeps eb c He ltac:(lia)) as (eb' & -> & He'). by exists (Some eb').
  - destruct (Z.leb_spec c 0x10FFFF); [|by exists None]. destruct (insert_unicode_keeps eb c He ltac:(lia)) as (eb' & -> & He'). by exists (Some eb').
Qed.

(** ** Undo and history *)

Lemma modified_ok eb m : ed_ok eb -> ed_ok (with_modified eb m).
Proof. intros (t & pos & []). exists t, pos. by split. Qed.

Lemma undo_keeps eb redo : ed_ok eb -> keeps (editor_undo_restore eb redo).
Proof.
  intros (t & pos & H). destruct (ed_disable_undo eb) eqn:Ed; [unfold editor_undo_restore; rewrite Ed; apply keeps_same; by exists t, pos|].
  destruct (ed_undo eb) as [|[s p] us] eqn:Eu; [unfold editor_undo_restore; rewrite Ed, Eu; apply keeps_same; by exists t, pos|].
  pose proof (ed_undo_ok _ _ _ H) as Hus. rewrite Eu in Hus. apply Forall_cons_1 in Hus as [(t0 & E0 & _) _]. cbn in E0. subst s.
  destruct (undo_restore_at enough eb t pos t0 p us redo H Ed Eu) as (eb' & -> & H' & _). apply keeps_same. by exists t0, p.
Qed.

Lemma redo_keeps eb : ed_ok eb -> keeps (editor_redo_restore eb).
Proof.
  intros (t & pos & H).
  assert (Hm : keeps (Some (with_modified eb false))) by (apply keeps_same, modified_ok; by exists t, pos).
  destruct (ed_disable_undo eb) eqn:Ed; [unfold editor_redo_restore; by rewrite Ed|].
  destruct (ed_redo eb) as [|[s p] rs] eqn:Er; [unfold editor_redo_restore; by rewrite Ed, Er|].
  pose proof (ed_redo_ok _ _ _ H) as Hrs. rewrite Er in Hrs. apply Forall_cons_1 in Hrs as [(t0 & E0 & _) _]. cbn in E0. subst s.
  destruct (redo_restore_at enough eb t pos t0 p rs H Ed Er) as (eb' & -> & H' & _). apply keeps_same. by exists t0, p.
Qed.

Lemma update_history_keeps eb t pos : ed_at eb t pos -> exists eb', update_history eb = Some eb' /\ ed_at eb' t pos.
Proof.
  intros H. unfold update_history. destruct (ed_modified eb); [|by exists eb]. destruct (input_string eb t pos H) as [r Er]. rewrite Er.
  destruct (ed_hist _ _ _ H) as (Hl & es & Hh & Hnd). destruct (ed_repr _ _ _ H) as (Ht & _).
  destruct (push_any enough (history_remove_last (ed_history eb)) (take (length es - 1) es) t r (remove_last_ok _ _ Hh)) as (b & h & E & Hh' & Hl' & Hd' & _).
  { cbn. lia. } { done. } { intros Hd. apply take_nodup, Hnd, Hd. }
  unfold history_update. rewrite E. cbn [mbind option_bind]. eexists. split; [done|]. destruct H. split; try done. cbn. split; [rewrite Hl'; cbn; lia|].
  eexists. split; [exact Hh'|]. rewrite Hd'. intros Hd. apply (add_nodup enough); [|exact Hd]. intros Hd2. apply take_nodup, Hnd, Hd2.
Qed.

Lemma history_get_ok h es n : hist_ok h es -> exists e, history_get h n = Some e /\ (e = None \/ exists x, e = Some (cstr x) /\ text_ok x).
Proof.
  intros (Ht & Hc & _ & junk & Hj). unfold history_get. rewrite Hc. destruct (Z.ltb_spec n 0), (Z.leb_spec (Z.of_nat (length es)) n); cbn [orb];
    try (exists None; by eauto).
  destruct (lookup_lt_is_Some_2 es (Z.to_nat (Z.of_nat (length es) - n - 1)) ltac:(lia)) as [x Hx].
  exists (Some (cstr x)). split; [rewrite Hj; apply lookup_app_l_Some; by rewrite list_lookup_fmap, Hx|]. right. exists x. split; [done|].
  rewrite Forall_forall in Ht. apply Ht. apply list_elem_of_In. by eapply list_elem_of_lookup_2.
Qed.

Lemma history_at_keeps eb ofs : ed_ok eb -> keeps (edit_history_at eb ofs).
Proof.
  intros (t & pos & H). unfold edit_history_at. destruct (update_history_keeps eb t pos H) as (eb1 & -> & H1). cbn [mbind option_bind].
  destruct (ed_hist _ _ _ H1) as (Hl & es & Hh & Hnd). destruct (history_get_ok _ es (ed_history_idx eb1 + ofs) Hh) as (e & -> & [->|(x & -> & Hx)]);
    cbn [mbind option_bind]; [apply keeps_same; by exists t, pos|].
  destruct (replace_cstr enough _ t x (ed_repr _ _ _ H1) Hx) as (sb & -> & Hr). cbn [mbind option_bind].
  assert (H2 : forall idx p, 0 <= p <= Z.of_nat (length x) -> ed_ok (with_pos (with_history (with_input eb1 sb (ed_pos eb1)) idx (ed_history eb1)) p)).
  { intros idx p Hp. exists x, p. destruct H1. by split. }
  destruct (0 <? ofs).
  - cbn [ed_input with_history with_input]. unfold sbuf_find_line_end, str_find_line_end.
    destruct (find_end_ok sb x Hr char_is_linefeed false 0 linefeed_total ltac:(lia)) as (y & -> & Hy). cbn [mbind option_bind].
    rewrite (proj2 (Z.ltb_ge y 0)) by lia. eexists. split; [done|]. by apply H2.
  - eexists. split; [done|]. apply H2. cbn. destruct Hr as (_ & Hc & _). unfold sbuf_len. lia.
Qed.

Lemma row_up_keeps eb : ed_ok eb -> keeps (edit_cursor_row_up env eb).
Proof.
  intros He. pose proof He as (t & pos & H). unfold edit_cursor_row_up, edit_get_rowcol. rewrite (ed_cursor _ _ _ H).
  destruct (get_rc_ok _ t (termw env) (promptw env) (cpromptw env) pos (ed_repr _ _ _ H) (ed_inside _ _ _ H)) as (rows & rc & ->). cbn [mbind option_bind].
  destruct (_ =? 0); [by apply history_at_keeps|by apply set_rowcol_keeps].
Qed.

Lemma row_down_keeps eb : ed_ok eb -> keeps (edit_cursor_row_down env eb).
Proof.
  intros He. pose proof He as (t & pos & H). unfold edit_cursor_row_down, edit_get_rowcol. rewrite (ed_cursor _ _ _ H).
  destruct (get_rc_ok _ t (termw env) (promptw env) (cpromptw env) pos (ed_repr _ _ _ H) (ed_inside _ _ _ H)) as (rows & rc & ->). cbn [mbind option_bind].
  destruct (_ <=? _); [by apply history_at_keeps|by apply set_rowcol_keeps].
Qed.

Lemma completions_keeps eb : ed_ok eb -> keeps (edit_generate_completions eb).
Proof.
  intros He. pose proof He as (t & pos & H). unfold edit_generate_completions. destruct (ed_pos eb <? 0); [by apply keeps_same|].
  destruct (input_string eb t pos H) as [r ->]. unfold completions_generate. destruct (ed_repr _ _ _ H) as (Ht & _).
  rewrite c_strlen_app by done. cbn [mbind option_bind]. destruct (_ <? _); by apply keeps_same.
Qed.

Lemma at_end_keeps eb move : ed_ok eb -> keeps (move eb) -> keeps (at_end_or eb move).
Proof. intros He Hm. unfold at_end_or. destruct (_ =? _); [by apply completions_keeps|done]. Qed.

Lemma to_start_keeps eb : ed_ok eb -> keeps (edit_cursor_to_start eb).
Proof. intros (t & pos & H). eexists. split; [done|]. pose proof (ed_inside _ _ _ H). apply (pos_keeps eb t pos); [done|lia]. Qed.

Lemma to_end_keeps eb : ed_ok eb -> keeps (edit_cursor_to_end eb).
Proof. intros (t & pos & H). eexists. split; [done|]. apply (pos_keeps eb t pos); [done|]. rewrite (input_len _ _ _ H). lia. Qed.

(** ** Every key *)

Section Keys.
Context (sys : nat -> wait) (tf fuel : nat).

(** The operation returns without a byte of the terminal. *)
Definition runs (m : tty_m editor) : Prop := forall s, exists eb', m s = Some (eb', s) /\ ed_ok eb'.

Lemma runs_lift r : keeps r -> runs (lift r).
Proof. intros (eb' & -> & H) s. by exists eb'. Qed.

Lemma runs_mret eb : ed_ok eb -> runs (mret eb).
Proof. intros H s. by exists eb. Qed.

Lemma runs_if (b : bool) m m' : (b = true -> runs m) -> (b = false -> runs m') -> runs (if b then m else m').
Proof. destruct b; auto. Qed.

Create HintDb editor.
#[local] Hint Resolve keeps_same left_keeps right_keeps move_start_keeps move_end_keeps match_brace_keeps backspace_keeps delete_char_keeps delete_all_keeps
  swap_keeps delete_to_start_keeps delete_to_end_keeps delete_eol_keeps delete_sol_keeps undo_keeps redo_keeps history_at_keeps row_up_keeps row_down_keeps
  completions_keeps at_end_keeps to_start_keeps to_end_keeps runs_lift runs_mret linefeed_total white_total idletter_total : editor.

Lemma edit_operation_keeps c eb : singleline_only env = true -> ed_ok eb -> 0 <= c -> c ∉ [KEY_CTRL_R; KEY_CTRL_S] ->
  runs (edit_operation sys tf env fuel c eb).
Proof.
  intros Hone He Hc Hs. unfold edit_operation. cbv zeta.
  repeat (apply runs_if; [intros Ek|intros _]); try (by auto with editor);
    try (by apply runs_lift, history_at_keeps); try (by apply runs_lift, move_start_keeps; auto with editor);
    try (by apply runs_lift, move_end_keeps; auto with editor); try (by apply runs_lift, delete_to_start_keeps; auto with editor);
    try (by apply runs_lift, delete_to_end_keeps; auto with editor).
  - exfalso. apply Hs. apply existsb_exists in Ek as (k & Hin & Ek). apply Z.eqb_eq in Ek as <-. by apply list_elem_of_In.
  - apply runs_lift, at_end_keeps; [done|]. apply move_end_keeps; auto with editor.
  - rewrite Hone. cbn. by apply runs_lift, keeps_same.
  - intros s. destruct (insert_code_keeps eb c He Hc) as (r & E & Hr). exists (default eb r). by rewrite bind_unfold, E.
Qed.

Lemma edit_key_keeps c eb : singleline_only env = true -> ed_ok eb -> 0 <= c -> c ∉ [KEY_CTRL_R; KEY_CTRL_S] ->
  forall s, exists fin eb', edit_key sys tf env fuel c eb s = Some ((fin, eb'), s) /\ ed_ok eb'.
Proof.
  intros Hone He Hc Hs s. unfold edit_key. rewrite Hone. cbn [negb andb].
  assert (Hlift : forall b r, keeps r -> exists fin eb', (eb ← lift r; mret ((b : bool), eb) : tty_m _) s = Some ((fin, eb'), s) /\ ed_ok eb')
    by (intros b r (eb' & -> & H); by exists b, eb').
  destruct (c =? KEY_ENTER); [by exists true, eb|].
  destruct (c =? KEY_CTRL_D); [destruct (_ && _); [by exists true, eb|by apply Hlift, delete_char_keeps]|].
  destruct (_ || _); [by exists true, eb|].
  destruct (c =? KEY_ESC); [destruct (_ && _); [by exists true, eb|by apply Hlift, delete_all_keeps]|].
  destruct (c =? KEY_BELL); [by apply Hlift, delete_all_keeps|].
  destruct (edit_operation_keeps c eb Hone He Hc Hs s) as (eb' & E & H). exists false, eb'. by rewrite bind_unfold, E.
Qed.
End Keys.
End Safe.

(** ** A line being edited *)

(** The editor [edit_line] starts with, and what keys other than the search of the
    history (ctrl+R, ctrl+S) make of it. *)
Inductive edited {A : allocator} (sys : nat -> wait) (tf : nat) (env : settings) (h : history) : editor -> Prop :=
| Edited_start input b h' : sbuf_new = Some input -> history_push h (Some [0]) = Some (b, h') ->
    edited sys tf env h (Editor input 0 false false 0 editstate_init editstate_init h')
| Edited_key eb fuel c s finished eb' s' : edited sys tf env h eb -> 0 <= c -> c ∉ [KEY_CTRL_R; KEY_CTRL_S] ->
    edit_key sys tf env fuel c eb s = Some ((finished, eb'), s') -> edited sys tf env h eb'.

Lemma edited_ok `{A : allocator, !allocator_ok A} sys tf env h es eb :
  ~ exhausted -> singleline_only env = true -> hist_ok h es -> 0 <= h_len h -> (h_allow_duplicates h = false -> NoDup es) ->
  edited sys tf env h eb -> ed_ok eb.
Proof.
  intros Hmem Hone Hh Hl Hnd. induction 1 as [input b h' Hn Hp|eb fuel c s fin eb' s' _ IH Hc Hk E].
  - destruct (push_any Hmem h es [] [] Hh Hl) as (b1 & h1 & E1 & Hh1 & Hl1 & Hd1 & _); [by constructor|done|].
    cbn [app] in E1. rewrite Hp in E1. injection E1 as <- <-. unfold sbuf_new in Hn. destruct (realloc None 16); [|done]. injection Hn as <-.
    exists [], 0. split; try done; [by split; [constructor|]|]. split; [cbn; lia|]. eexists. split; [exact Hh1|]. cbn. rewrite Hd1. intros Hd. by apply (add_nodup Hmem).
  - destruct (edit_key_keeps Hmem env sys tf fuel c eb Hone IH Hc Hk s) as (f & e & E' & He). rewrite E in E'. by injection E' as <- <- <-.
Qed.

(** C9: The editor never faults: whatever keys a line has been edited with, the text
    buffer holds a text with the cursor inside it, the undo and redo stacks and
    the history are well formed, and the next key, whichever it is, is handled with
    every read and write inside its object and without reading further keys. *)
Theorem editor_never_faults `{A : allocator, !allocator_ok A} sys tf env h es eb fuel c s :
  ~ exhausted -> singleline_only env = true -> hist_ok h es -> 0 <= h_len h -> (h_allow_duplicates h = false -> NoDup es) ->
  edited sys tf env h eb -> 0 <= c -> c ∉ [KEY_CTRL_R; KEY_CTRL_S] ->
  ed_ok eb /\ exists finished eb', edit_key sys tf env fuel c eb s = Some ((finished, eb'), s) /\ ed_ok eb'.
Proof.
  intros Hmem Hone Hh Hl Hnd He Hc Hk. assert (Hok : ed_ok eb) by by eapply edited_ok.
  split; [done|]. by apply edit_key_keeps.
Qed.

(** A "(" was typed, and its partner came with it; the cursor is brought home and ctrl+K is next. *)
Lemma editor_never_faults_witness : exists eb finished eb',
  edited (typed []) 1 (shell_settings 80 6) history_new eb
  /\ edit_key (typed []) 1 (shell_settings 80 6) 1 KEY_CTRL_K eb (tty_new true true) = Some ((finished, eb'), tty_new true true) /\ ed_ok eb'.
Proof.
  assert (Hex : exists eb, edited (typed []) 1 (shell_settings 80 6) history_new eb).
  { epose proof (Edited_start (typed []) 1 (shell_settings 80 6) history_new _ _ _ eq_refl eq_refl) as H0.
    epose proof (Edited_key _ _ _ _ _ 1 40 (tty_new true true) _ _ _ H0 ltac:(done) ltac:(apply (bool_decide_unpack _); reflexivity) ltac:(vm_compute; reflexivity)) as H1.
    epose proof (Edited_key _ _ _ _ _ 1 KEY_HOME (tty_new true true) _ _ _ H1 ltac:(done) ltac:(apply (bool_decide_unpack _); reflexivity) ltac:(vm_compute; reflexivity)) as H2.
    eexists. exact H2. }
  destruct Hex as [eb He].
  destruct (editor_never_faults (typed []) 1 (shell_settings 80 6) history_new [] eb 1 KEY_CTRL_K (tty_new true true) heap_lasts) as (_ & f & eb' & E & H).
  - done.
  - split; [constructor|]. split; [done|]. split; [done|]. by exists [].
  - done.
  - intros _. constructor.
  - exact He.
  - done.
  - apply (bool_decide_unpack _). reflexivity.
  - by exists eb, f, eb'.
Defined.
