(* ===== verification/Lz77Correct.v ===== *)
(** The LZ77 stage of the PNG encoder (LodeLz77) is lossless.

    [lz h syms h']: the symbols [syms] turn the output [h] into [h'], by the rules of
    RFC 1951.  The proof is an invariant of the hash chains ([hash_ok]: every link leads
    to a position that was visited, and the recorded runs of zeros are true), which
    makes every match of [search_chain] a true repetition, and an invariant of the
    loop over the lazy match. *)
From S2P Require Import Prelude Checksum BitReader Huffman Canonical Deflate LodeLz77.

(** ** Symbols *)

Inductive lz : bytes -> list Z -> bytes -> Prop :=
| lz_nil h : lz h [] h
| lz_lit h b syms h' : 0 <= b < 256 -> lz (h ++ [b]) syms h' -> lz h (b :: syms) h'
| lz_match h s base n e d dbase m f syms h' :
    length_codes !! s = Some (base, n) -> 0 <= e < 2 ^ Z.of_nat n ->
    distance_codes !! d = Some (dbase, m) -> 0 <= f < 2 ^ Z.of_nat m -> dbase + f <= Z.of_nat (length h) ->
    lz (lz_copy (Z.to_nat (base + e)) (Z.to_nat (dbase + f)) h) syms h' ->
    lz h (Z.of_nat (257 + s) :: e :: Z.of_nat d :: f :: syms) h'.

Lemma lz_app h s1 h1 s2 h2 : lz h s1 h1 -> lz h1 s2 h2 -> lz h (s1 ++ s2) h2.
Proof. induction 1; intros Hrest; cbn [app]; [done|apply lz_lit; auto|]. eapply lz_match; eauto. Qed.

(** ** Codes of lengths and distances *)

Definition code_check (table : list Z) (codes : list (Z * nat)) (v : Z) : bool :=
  match searchCodeIndex table v with
  | Some i =>
      match at_ table i, codes !! Z.to_nat i with
      | Some b, Some (b', n) => (0 <=? i) && (b =? b') && (b <=? v) && (v - b <? 2 ^ Z.of_nat n)
      | _, _ => false
      end
  | None => false
  end.

Lemma code_check_spec table codes v : code_check table codes v = true ->
  exists i b n, searchCodeIndex table v = Some (Z.of_nat i) /\ at_ table (Z.of_nat i) = Some b
    /\ codes !! i = Some (b, n) /\ 0 <= v - b < 2 ^ Z.of_nat n.
Proof.
  unfold code_check. destruct (searchCodeIndex table v) as [i|]; [|done]. destruct (at_ table i) as [b|] eqn:Hb; [|done].
  destruct (codes !! Z.to_nat i) as [[b' n]|] eqn:Hc; [|done]. intros H.
  apply andb_true_iff in H as [[[Hi%Z.leb_le Hbb%Z.eqb_eq]%andb_true_iff Hl%Z.leb_le]%andb_true_iff Hr%Z.ltb_lt]. subst b'.
  exists (Z.to_nat i), b, n. rewrite Z2Nat.id by lia. split; [done|]. split; [done|]. split; [done|]. lia.
Qed.

Fixpoint all_from (n : nat) (v : Z) (p : Z -> bool) : bool :=
  match n with O => true | S n => p v && all_from n (v + 1) p end.

Lemma all_from_spec n p : forall a v, all_from n a p = true -> a <= v < a + Z.of_nat n -> p v = true.
Proof.
  induction n as [|n IH]; intros a v H Hv; [lia|]. cbn [all_from] in H. apply andb_true_iff in H as [H1 H2].
  destruct (decide (v = a)) as [->|]; [done|]. apply (IH (a + 1) v H2). lia.
Qed.

Lemma codes_checked :
  all_from 256 3 (code_check LENGTHBASE length_codes) = true
  /\ all_from (Z.to_nat 32768) 1 (code_check DISTANCEBASE distance_codes) = true.
Proof. split; vm_compute; reflexivity. Qed.

(** A copy from what is already there. *)
Lemma lz_copy_take (data : bytes) pos off n :
  (0 < off <= pos)%nat -> (pos + n <= length data)%nat ->
  (forall k, (k < n)%nat -> data !! (pos - off + k)%nat = data !! (pos + k)%nat) ->
  lz_copy n off (take pos data) = take (pos + n) data.
Proof.
  intros Ho Hl. induction n as [|n IH]; intros Heq; [by rewrite Nat.add_0_r|].
  change (lz_copy (S n) off (take pos data)) with (lz_byte off (lz_copy n off (take pos data))).
  rewrite IH by (intros; try apply Heq; lia).
  unfold lz_byte. rewrite length_take, Nat.min_l by lia.
  destruct (lookup_lt_is_Some_2 data (pos + n) ltac:(lia)) as [x Hx].
  replace (pos + S n)%nat with (S (pos + n)) by lia. rewrite (take_S_r _ _ x Hx). do 2 f_equal.
  apply nth_lookup_Some. rewrite lookup_take_lt by lia. rewrite <- Hx, <- (Heq n) by lia. f_equal. lia.
Qed.

Lemma add_length_distance_ok (data : bytes) out pos len off :
  3 <= len <= 258 -> 1 <= off <= 32768 -> off <= pos -> pos + len <= Z.of_nat (length data) ->
  (forall k, 0 <= k < len -> at_ data (pos - off + k) = at_ data (pos + k)) ->
  exists syms, addLengthDistance out len off = Some (out ++ syms)
    /\ lz (take (Z.to_nat pos) data) syms (take (Z.to_nat (pos + len)) data).
Proof.
  intros Hlen Hoff Hpos Hend Heq. destruct codes_checked as [CL CD].
  destruct (code_check_spec _ _ _ (all_from_spec _ _ _ len CL ltac:(lia))) as (s & b & n & E1 & E2 & E3 & E4).
  destruct (code_check_spec _ _ _ (all_from_spec _ _ _ off CD ltac:(lia))) as (d & b' & m & F1 & F2 & F3 & F4).
  unfold addLengthDistance. rewrite E1. cbn [mbind option_bind]. rewrite E2. cbn [mbind option_bind]. rewrite F1. cbn [mbind option_bind].
  rewrite F2. cbn [mbind option_bind]. eexists. split; [done|]. unfold FIRST_LENGTH_CODE_INDEX.
  replace (Z.of_nat s + 257) with (Z.of_nat (257 + s)) by lia.
  eapply lz_match; [exact E3|exact E4|exact F3|exact F4|rewrite length_take; lia|].
  replace (b + (len - b)) with len by lia. replace (b' + (off - b')) with off by lia.
  rewrite lz_copy_take; [|lia|lia|].
  - replace (Z.to_nat pos + Z.to_nat len)%nat with (Z.to_nat (pos + len)) by lia. constructor.
  - intros k Hk. specialize (Heq (Z.of_nat k) ltac:(lia)). unfold at_ in Heq.
    rewrite !(proj2 (Z.ltb_ge _ 0)) in Heq by lia.
    replace (Z.to_nat (pos - off + Z.of_nat k)) with (Z.to_nat pos - Z.to_nat off + k)%nat in Heq by lia.
    by replace (Z.to_nat (pos + Z.of_nat k)) with (Z.to_nat pos + k)%nat in Heq by lia.
Qed.

(** ** The invariant of the chains *)

Section Chains.
Context (data : bytes) (ws : Z) (Hws : 0 < ws).

(** The last visited position that falls on the index [w], when [P] positions were visited. *)
Definition last_at (P w : Z) : Z := P - 1 - (P - 1 - w) mod ws.

Definition zero_run (p n : Z) : Prop := 0 <= n /\ forall k, 0 <= k < n -> at_ data (p + k) = Some 0.

(** A table of heads: unused, or a visited index. *)
Definition heads (P : Z) (t : list Z) : Prop := forall i x, at_ t i = Some x -> x = -1 \/ (0 <= x < ws /\ x < P).

(** A table of links: a visited index leads to a visited index, the others to themselves. *)
Definition links (P : Z) (t : list Z) : Prop :=
  Z.of_nat (length t) = ws
  /\ forall w c, at_ t w = Some c -> 0 <= c < ws /\ (w < P -> c < P) /\ (P <= w -> c = w).

Record hash_ok (P : Z) (h : Hash) : Prop := {
  ok_head : Z.of_nat (length (head h)) = HASH_NUM_VALUES /\ heads P (head h);
  ok_val : Z.of_nat (length (val h)) = ws;
  ok_chain : links P (chain h);
  ok_headz : Z.of_nat (length (headz h)) = MAX_SUPPORTED_DEFLATE_LENGTH + 1 /\ heads P (headz h);
  ok_chainz : links P (chainz h);
  ok_zeros : Z.of_nat (length (zeros h)) = ws
    /\ forall w, 0 <= w < ws -> w < P -> exists n, at_ (zeros h) w = Some (Some n) /\ zero_run (last_at P w) n
}.

Lemma heads_put P P' t i x t' :
  heads P t -> P <= P' -> 0 <= i < Z.of_nat (length t) -> (x = -1 \/ (0 <= x < ws /\ x < P')) -> put_at t i x = Some t' ->
  length t' = length t /\ heads P' t'.
Proof.
  intros Ht HP Hi Hx. rewrite put_at_ok by done. intros [= <-]. split; [apply length_insert|]. intros j y. rewrite at_insert by done.
  destruct (decide (i = j)); [intros [= <-]; done|]. intros Hy. destruct (Ht j y Hy) as [->|]; [by left|right; lia].
Qed.

(** The position [pos] is new, or the last one again. *)
Lemma links_visit P pos t hd :
  links P t -> 0 <= pos -> pos = P \/ pos = P - 1 -> (hd = -1 \/ (0 <= hd < ws /\ hd < P)) ->
  exists t', (if negb (hd =? -1) then put_at t (pos mod ws) hd else Some t) = Some t' /\ links (Z.max P (pos + 1)) t'.
Proof.
  intros [Hl Ht] Hp Hpp Hhd. pose proof (Z.mod_pos_bound pos ws Hws) as Hm.
  assert (Hsmall : P < ws -> pos mod ws = pos) by (intros; apply Z.mod_small; lia).
  assert (Hkeep : links (Z.max P (pos + 1)) t).
  { split; [done|]. intros w c Hc. destruct (Ht w c Hc) as (H1 & H2 & H3). pose proof (at_range _ _ _ Hc).
    split; [done|]. split; [|intros; apply H3; lia]. intros Hw. destruct (decide (w < P)); [specialize (H2 ltac:(lia)); lia|].
    rewrite (H3 ltac:(lia)). lia. }
  destruct (Z.eqb_spec hd (-1)) as [->|Hne]; cbn [negb]; [by exists t|].
  destruct Hhd as [->|Hhd]; [done|]. rewrite put_at_ok by lia. eexists. split; [done|].
  destruct Hkeep as [_ Hkeep]. split; [by rewrite length_insert|]. intros w c. rewrite at_insert by lia.
  destruct (decide (pos mod ws = w)) as [<-|]; [|apply Hkeep]. intros [= <-]. split; [lia|]. split; [lia|].
  intros Hge. exfalso. destruct (decide (P < ws)); [rewrite Hsmall in Hge by done; lia|lia].
Qed.

Lemma last_at_visit P pos w :
  0 <= pos -> pos = P \/ pos = P - 1 -> 0 <= w < ws ->
  last_at (Z.max P (pos + 1)) w = if decide (w = pos mod ws) then pos else last_at P w.
Proof.
  intros Hp Hpp Hw. unfold last_at. pose proof (Z.mod_pos_bound pos ws Hws). destruct (decide (w = pos mod ws)) as [->|Hne].
  - replace (Z.max P (pos + 1) - 1) with pos by lia.
    rewrite <- (Zminus_mod_idemp_l pos). rewrite Z.sub_diag, Z.mod_0_l by lia. lia.
  - destruct Hpp as [->| ->]; [|by replace (Z.max P (P - 1 + 1)) with P by lia].
    replace (Z.max P (P + 1) - 1) with P by lia. assert (Hnz : (P - w) mod ws <> 0).
    { intros H0. apply Hne. rewrite Z.mod_divide in H0 by lia. destruct H0 as [q Hq]. apply (Z.mod_unique_pos _ _ q); lia. }
    pose proof (Z.mod_pos_bound (P - w) ws Hws). assert (Hs : (P - 1 - w) mod ws = (P - w) mod ws - 1).
    { symmetry. apply (Z.mod_unique_pos _ _ ((P - w) / ws)); [lia|]. pose proof (Z.div_mod (P - w) ws). lia. }
    rewrite Hs. lia.
Qed.

(** Where a link leads back to. *)
Lemma offset_of pos w : 0 <= pos -> 0 <= w < ws -> w < pos + 1 ->
  let off := if w <=? pos mod ws then pos mod ws - w else pos mod ws - w + ws in
  0 <= off < ws /\ off <= pos /\ last_at (pos + 1) w = pos - off.
Proof.
  intros Hp Hw Hv. pose proof (Z.mod_pos_bound pos ws Hws). cbn.
  assert (Hoff : (pos - w) mod ws = if w <=? pos mod ws then pos mod ws - w else pos mod ws - w + ws).
  { rewrite <- Zminus_mod_idemp_l. destruct (Z.leb_spec w (pos mod ws)); [apply Z.mod_small; lia|].
    symmetry. apply (Z.mod_unique_pos _ _ (-1)); lia. }
  rewrite <- Hoff. pose proof (Z.mod_pos_bound (pos - w) ws Hws). split; [done|].
  assert ((pos - w) mod ws <= pos - w) by (apply Z.mod_le; lia). split; [lia|]. unfold last_at.
  replace (pos + 1 - 1) with pos by lia. done.
Qed.

Lemma update_ok P pos h hashval nz :
  hash_ok P h -> 0 <= pos -> pos = P \/ pos = P - 1 -> 0 <= hashval < HASH_NUM_VALUES -> 0 <= nz <= MAX_SUPPORTED_DEFLATE_LENGTH ->
  zero_run pos nz ->
  exists h', updateHashChain h (pos mod ws) hashval nz = Some h' /\ hash_ok (Z.max P (pos + 1)) h'.
Proof.
  intros [[Hh1 Hh2] Hv Hc [Hz1 Hz2] Hcz [Hzl Hz]] Hp Hpp Hhv Hnz Hrun. unfold updateHashChain.
  pose proof (Z.mod_pos_bound pos ws Hws) as Hm.
  assert (Hw : 0 <= pos mod ws < ws /\ pos mod ws < Z.max P (pos + 1)) by (pose proof (Z.mod_le pos ws Hp Hws); lia).
  rewrite (put_at_ok (val h)) by lia. cbn [mbind option_bind].
  destruct (at_some (head h) hashval ltac:(lia)) as [hd Hhd]. rewrite Hhd. cbn [mbind option_bind].
  destruct (links_visit P pos (chain h) hd Hc Hp Hpp (Hh2 _ _ Hhd)) as (c' & -> & Hc'). cbn [mbind option_bind].
  destruct (put_at (head h) hashval (pos mod ws)) as [h'|] eqn:Eh; [|rewrite put_at_ok in Eh by lia; done]. cbn [mbind option_bind].
  destruct (heads_put P (Z.max P (pos + 1)) (head h) hashval (pos mod ws) h' Hh2 ltac:(lia) ltac:(lia) ltac:(by right) Eh) as [Hl' Hh'].
  rewrite (put_at_ok (zeros h)) by lia. cbn [mbind option_bind].
  destruct (at_some (headz h) nz ltac:(lia)) as [hz Hhz]. rewrite Hhz. cbn [mbind option_bind].
  destruct (links_visit P pos (chainz h) hz Hcz Hp Hpp (Hz2 _ _ Hhz)) as (cz' & -> & Hcz'). cbn [mbind option_bind].
  destruct (put_at (headz h) nz (pos mod ws)) as [z'|] eqn:Ez; [|rewrite put_at_ok in Ez by lia; done]. cbn [mbind option_bind].
  destruct (heads_put P (Z.max P (pos + 1)) (headz h) nz (pos mod ws) z' Hz2 ltac:(lia) ltac:(lia) ltac:(by right) Ez) as [Hlz' Hz'].
  eexists. split; [done|]. split; cbn; [by rewrite Hl'|by rewrite length_insert|done|by rewrite Hlz'|done|].
  rewrite length_insert. split; [done|]. intros w Hw0 HwP. rewrite at_insert by lia. rewrite last_at_visit by done.
  destruct (decide (pos mod ws = w)) as [<-|Hne]; [rewrite decide_True by done; by exists nz|].
  rewrite decide_False by done. apply Hz; [done|]. destruct (decide (P < ws)); [|lia].
  rewrite (Z.mod_small pos ws) in Hne by lia. lia.
Qed.

(** ** Visiting a position *)

Context (Hdata : bytes_ok data) (insize : Z) (Hin : insize <= Z.of_nat (length data)).

Definition nz_ok (p n : Z) : Prop := zero_run p n /\ p + n <= insize /\ n <= MAX_SUPPORTED_DEFLATE_LENGTH.

Lemma hash_rest_ok fuel : forall pos i r, 0 <= pos + i -> pos + i + Z.of_nat fuel <= Z.of_nat (length data) ->
  exists v, hash_rest fuel data pos i r = Some v.
Proof.
  induction fuel as [|fuel IH]; intros pos i r Hi Hl; [by eexists|]. cbn [hash_rest].
  destruct (at_some data (pos + i) ltac:(lia)) as [x ->]. cbn [mbind option_bind]. apply IH; lia.
Qed.

Lemma getHash_ok pos : 0 <= pos -> exists v, getHash data insize pos = Some v /\ 0 <= v < HASH_NUM_VALUES.
Proof.
  intros Hp. unfold getHash. assert (H : exists r, (if pos + 2 <? insize then a ← at_ data pos; b ← at_ data (pos + 1); c ← at_ data (pos + 2);
    Some (a .^ (b << 4) .^ (c << 8)) else if insize <=? pos then Some 0 else hash_rest (Z.to_nat (insize - pos)) data pos 0 0) = Some r).
  { destruct (Z.ltb_spec (pos + 2) insize).
    - destruct (at_some data pos ltac:(lia)) as [a ->], (at_some data (pos + 1) ltac:(lia)) as [b ->], (at_some data (pos + 2) ltac:(lia)) as [c ->].
      by eexists.
    - destruct (Z.leb_spec insize pos); [by eexists|]. apply hash_rest_ok; lia. }
  destruct H as [r ->]. cbn [mbind option_bind]. eexists. split; [done|]. unfold HASH_BIT_MASK, HASH_NUM_VALUES.
  change 65535 with (Z.ones 16). rewrite land_ones_mod by lia. apply Z.mod_pos_bound. lia.
Qed.

Lemma count_zeros_ok fuel : forall p, 0 <= p -> p + Z.of_nat fuel <= Z.of_nat (length data) ->
  exists n, count_zeros fuel data p = Some n /\ zero_run p n /\ n <= Z.of_nat fuel.
Proof.
  induction fuel as [|fuel IH]; intros p Hp Hl.
  { exists 0. split; [done|]. split; [split; [lia|]; intros; lia|lia]. }
  cbn [count_zeros]. destruct (at_some data p ltac:(lia)) as [x Hx]. rewrite Hx. cbn [mbind option_bind].
  destruct (Z.eqb_spec x 0) as [->|].
  - destruct (IH (p + 1) ltac:(lia) ltac:(lia)) as (n & -> & [Hn Hrun] & Hle). cbn [mbind option_bind]. exists (n + 1). split; [done|].
    split; [|lia]. split; [lia|]. intros k Hk. destruct (decide (k = 0)) as [->|]; [by rewrite Z.add_0_r|].
    replace (p + k) with (p + 1 + (k - 1)) by lia. apply Hrun. lia.
  - exists 0. split; [done|]. split; [split; [lia|]; intros; lia|lia].
Qed.

Lemma zero_run_shift p n : zero_run (p - 1) n -> 1 <= n -> zero_run p (n - 1).
Proof. intros [_ H] Hn. split; [lia|]. intros k Hk. replace (p + k) with (p - 1 + (k + 1)) by lia. apply H. lia. Qed.

(** The run of zeros known at the position before, or at this one. *)
Definition nz_before (pos nz : Z) : Prop := nz = 0 \/ nz_ok (pos - 1) nz \/ nz_ok pos nz.

Lemma next_zeros_ok pos hv nz :
  0 <= pos < insize -> nz_before pos nz -> exists n, next_zeros data insize pos hv nz = Some n /\ nz_ok pos n.
Proof.
  intros Hp Hb. unfold next_zeros. assert (Hz0 : nz_ok pos 0) by (split; [split; [lia|]; intros; lia|unfold MAX_SUPPORTED_DEFLATE_LENGTH; lia]).
  destruct (hv =? 0); [|by exists 0]. destruct (Z.eqb_spec nz 0) as [->|Hnz].
  - unfold countZeros. set (e := if insize <? _ then _ else _).
    assert (He : pos <= e <= insize /\ e <= pos + MAX_SUPPORTED_DEFLATE_LENGTH).
    { unfold e, MAX_SUPPORTED_DEFLATE_LENGTH. destruct (Z.ltb_spec insize (pos + 258)); lia. }
    destruct (count_zeros_ok (Z.to_nat (e - pos)) pos) as (n & -> & Hr & Hle); [lia|lia|]. exists n. split; [done|].
    split; [done|]. destruct Hr as [? _]. lia.
  - destruct Hb as [->|Hb]; [done|]. destruct (Z.ltb_spec insize (pos + nz)).
    + destruct Hb as [(Hr & Hl & Hm)|(_ & Hl & _)]; [|lia]. exists (nz - 1). split; [done|].
      split; [apply zero_run_shift; [done|destruct Hr; lia]|lia].
    + assert (1 <= nz) by (destruct Hb as [([? _] & _)|([? _] & _)]; lia).
      destruct (at_some data (pos + nz - 1) ltac:(lia)) as [x Hx]. rewrite Hx. cbn [mbind option_bind].
      destruct Hb as [(Hr & Hl & Hm)|(Hr & Hl & Hm)].
      * pose proof (zero_run_shift _ _ Hr ltac:(lia)) as Hr'. destruct (Z.eqb_spec x 0) as [->|]; [|exists (nz - 1); split; [done|]; split; [done|lia]].
        exists nz. split; [done|]. split; [|lia]. split; [lia|]. intros k Hk. destruct (decide (k = nz - 1)) as [->|]; [by rewrite Z.add_sub_assoc|].
        apply Hr'. lia.
      * destruct Hr as [Hr0 Hr]. assert (x = 0) as ->.
        { specialize (Hr (nz - 1) ltac:(lia)). rewrite Z.add_sub_assoc in Hr. congruence. }
        exists nz. split; [done|]. split; [by split|lia].
Qed.

Context (k : Z) (Hk : 0 <= k) (Hpow : ws = 2 ^ k).

Lemma visit_ok P pos nz h :
  hash_ok P h -> 0 <= pos < insize -> pos = P \/ pos = P - 1 -> nz_before pos nz ->
  exists hv nz' h', visit data insize ws pos nz h = Some (pos mod ws, hv, nz', h') /\ nz_ok pos nz' /\ 0 <= hv < HASH_NUM_VALUES
    /\ hash_ok (Z.max P (pos + 1)) h'.
Proof.
  intros Hh Hp Hpp Hb. unfold visit. destruct (getHash_ok pos ltac:(lia)) as (hv & -> & Hhv). cbn [mbind option_bind].
  destruct (next_zeros_ok pos hv nz Hp Hb) as (n & -> & Hn). cbn [mbind option_bind].
  replace (pos .& (ws - 1)) with (pos mod ws) by (rewrite Hpow, <- Z.land_ones by lia; by rewrite Z.ones_equiv).
  destruct Hn as (Hr & Hl & Hm). destruct (update_ok P pos h hv n Hh ltac:(lia) Hpp Hhv) as (h' & -> & Hh').
  { destruct Hr. lia. }
  { done. }
  cbn [mbind option_bind]. exists hv, n, h'. done.
Qed.

Lemma skip_match_ok n : forall P pos nz h,
  hash_ok P h -> 0 <= pos -> pos + 1 = P \/ pos + 1 = P - 1 -> pos + Z.of_nat n < insize -> P <= insize -> nz_before (pos + 1) nz ->
  exists nz' h', skip_match n data insize ws pos nz h = Some (pos + Z.of_nat n, nz', h')
    /\ nz_before (pos + Z.of_nat n + 1) nz'
    /\ exists P', hash_ok P' h' /\ P' <= insize /\ (pos + Z.of_nat n + 1 = P' \/ (n = 0%nat /\ P' = P)).
Proof.
  induction n as [|n IH]; intros P pos nz h Hh Hp Hpp Hl HP Hb.
  { exists nz, h. rewrite Z.add_0_r. split; [done|]. split; [done|]. exists P. split; [done|]. split; [done|]. by right. }
  cbn [skip_match]. destruct (visit_ok P (pos + 1) nz h Hh ltac:(lia) Hpp Hb) as (hv & nz1 & h1 & -> & Hn1 & _ & Hh1). cbn [mbind option_bind].
  destruct (IH (Z.max P (pos + 1 + 1)) (pos + 1) nz1 h1 Hh1) as (nz' & h' & -> & Hb' & P' & Hh' & HP' & Hor); [lia..| |].
  { right. left. by replace (pos + 1 + 1 - 1) with (pos + 1) by lia. }
  exists nz', h'. replace (pos + 1 + Z.of_nat n) with (pos + Z.of_nat (S n)) in * by lia.
  split; [done|]. split; [done|]. exists P'. split; [done|]. split; [done|]. left. destruct Hor as [|[-> ->]]; [done|]. lia.
Qed.

(** ** Matches *)

(** The [len] bytes at [pos] repeat those [off] before. *)
Definition match_ok (pos len off : Z) : Prop :=
  0 <= len <= MAX_SUPPORTED_DEFLATE_LENGTH /\ pos + len <= insize
  /\ (0 < len -> 0 < off < ws /\ off <= pos /\ forall k, 0 <= k < len -> at_ data (pos - off + k) = at_ data (pos + k)).

Lemma extend_ok pos off last fuel : forall j,
  0 < off <= pos -> 0 <= j -> pos + j <= last -> last <= Z.of_nat (length data) -> (Z.to_nat (last - pos - j) < fuel)%nat ->
  (forall i, 0 <= i < j -> at_ data (pos - off + i) = at_ data (pos + i)) ->
  exists fore, extend fuel data (pos - off + j) (pos + j) last = Some fore /\ pos <= fore <= last
    /\ forall i, 0 <= i < fore - pos -> at_ data (pos - off + i) = at_ data (pos + i).
Proof.
  induction fuel as [|fuel IH]; intros j Ho Hj Hl Hlen Hf Heq; [lia|]. cbn [extend].
  destruct (Z.eqb_spec (pos + j) last) as [E|Hne].
  { exists (pos + j). split; [done|]. split; [lia|]. intros i Hi. apply Heq. lia. }
  destruct (at_some data (pos - off + j) ltac:(lia)) as [b Hb], (at_some data (pos + j) ltac:(lia)) as [f Hf']. rewrite Hb, Hf'. cbn [mbind option_bind].
  destruct (Z.eqb_spec b f) as [->|].
  - rewrite <- !Z.add_assoc. apply IH; [done|lia|lia|done|lia|]. intros i Hi. destruct (decide (i = j)) as [->|]; [congruence|]. apply Heq. lia.
  - exists (pos + j). split; [done|]. split; [lia|]. intros i Hi. apply Heq. lia.
Qed.

Lemma zeros_agree pos off z nz skip :
  zero_run (pos - off) z -> zero_run pos nz -> skip = Z.min z nz ->
  forall i, 0 <= i < skip -> at_ data (pos - off + i) = at_ data (pos + i).
Proof. intros [_ H1] [_ H2] -> i Hi. rewrite H1, H2 by lia. done. Qed.

Lemma search_chain_ok pos h hv nz nice :
  0 <= pos < insize -> hash_ok (pos + 1) h -> nz_ok pos nz ->
  let last := if insize <? pos + MAX_SUPPORTED_DEFLATE_LENGTH then insize else pos + MAX_SUPPORTED_DEFLATE_LENGTH in
  forall turns hashpos prev len off, 0 <= hashpos < ws -> hashpos < pos + 1 -> match_ok pos len off ->
  exists len' off', search_chain turns data h ws nice pos (pos mod ws) last hv nz hashpos prev len off = Some (len', off') /\ match_ok pos len' off'.
Proof.
  intros Hp Hh Hnz last. assert (Hlast : pos <= last <= insize /\ last <= pos + MAX_SUPPORTED_DEFLATE_LENGTH)
    by (unfold last, MAX_SUPPORTED_DEFLATE_LENGTH; destruct (Z.ltb_spec insize (pos + 258)); lia).
  assert (Hnzl : pos + nz <= last).
  { destruct Hnz as (_ & ? & ?). unfold last. destruct (Z.ltb_spec insize (pos + MAX_SUPPORTED_DEFLATE_LENGTH)); lia. }
  clearbody last. pose proof Hh as [_ Hval [Hcl Hc] _ [Hczl Hcz] [Hzl Hz]].
  induction turns as [|turns IH]; intros hashpos prev len off Hhp Hv Hm; [by eexists _, _|]. cbn [search_chain].
  destruct (offset_of pos hashpos ltac:(lia) Hhp Hv) as (Ho1 & Ho2 & Hla).
  set (cur := if hashpos <=? pos mod ws then _ else _) in *. clearbody cur.
  destruct (cur <? prev); [by eexists _, _|].
  destruct (Hz hashpos Hhp Hv) as (z & Hzh & Hzr). rewrite Hla in Hzr.
  match goal with |- context [?X ≫= _] => assert (H1 : exists len1 off1 stop, X = Some (len1, off1, stop) /\ match_ok pos len1 off1) end.
  { destruct (Z.ltb_spec 0 cur); [|by eexists _, _, _]. rewrite Hzh. cbn [mjoin option_join mbind option_bind].
    set (skip := if 3 <=? nz then Some (if nz <? z then nz else z) else Some 0).
    assert (Hs : exists s, skip = Some s /\ 0 <= s <= nz /\ forall i, 0 <= i < s -> at_ data (pos - cur + i) = at_ data (pos + i)).
    { destruct Hnz as (Hr & _). pose proof Hr as [? _]. pose proof Hzr as [? _]. unfold skip. destruct (Z.leb_spec 3 nz).
      - eexists. split; [done|]. split; [destruct (Z.ltb_spec nz z); lia|]. apply (zeros_agree _ _ z nz); [done|done|].
        destruct (Z.ltb_spec nz z); lia.
      - exists 0. split; [done|]. split; [lia|]. intros; lia. }
    destruct Hs as (s & -> & Hs & Heq). cbn [mbind option_bind].
    destruct (extend_ok pos cur last (S (Z.to_nat (last - pos))) s) as (fore & -> & Hf & Hag); [lia|lia|lia|lia|lia|done|]. cbn [mbind option_bind].
    destruct (Z.ltb_spec len (fore - pos)); [|by eexists _, _, _]. eexists _, _, _. split; [done|].
    split; [lia|]. split; [lia|]. intros _. split; [lia|]. split; [lia|]. exact Hag. }
  destruct H1 as (len1 & off1 & stop & -> & Hm1). cbn [mbind option_bind]. destruct stop; [by eexists _, _|].
  destruct (at_some (chain h) hashpos ltac:(lia)) as [c Hcc]. rewrite Hcc. cbn [mbind option_bind].
  destruct (hashpos =? c); [by eexists _, _|]. destruct ((3 <=? nz) && (nz <? len1)).
  - destruct (at_some (chainz h) hashpos ltac:(lia)) as [hp Hhpz]. rewrite Hhpz. cbn [mbind option_bind].
    destruct (Hcz _ _ Hhpz) as (Hr1 & Hr2 & _). specialize (Hr2 Hv).
    destruct (Hz hp Hr1 Hr2) as (z' & -> & _). cbn [mjoin option_join mbind option_bind].
    destruct (negb (z' =? nz)); [by eexists _, _|]. by apply IH.
  - destruct (Hc _ _ Hcc) as (Hr1 & Hr2 & _). specialize (Hr2 Hv).
    destruct (at_some (val h) c ltac:(lia)) as [v ->]. cbn [mbind option_bind].
    destruct (negb (v =? hv)); [by eexists _, _|]. by apply IH.
Qed.

(** ** The loop *)

Context (s : lz_settings) (Hset : windowsize s = ws) (Hws_max : ws <= 32768) (inpos : Z) (Hinpos : 0 <= inpos).

Abbreviation encoded cur out := (lz (take (Z.to_nat inpos) data) out (take (Z.to_nat cur) data)).

(** What the loop gives. *)
Definition finishes (r : option lz_result) : Prop :=
  exists out h, r = Some (inr (out, h)) /\ encoded insize out /\ hash_ok insize h.

Lemma push_literal pos out : inpos <= pos < insize -> encoded pos out ->
  exists x, at_ data pos = Some x /\ encoded (pos + 1) (out ++ [x]).
Proof.
  intros Hp Hd. destruct (at_some data pos ltac:(lia)) as [x Hx]. exists x. split; [done|]. apply (lz_app _ _ _ _ _ Hd).
  unfold at_ in Hx. rewrite (proj2 (Z.ltb_ge pos 0)) in Hx by lia. apply lz_lit.
  { pose proof (Forall_lookup_1 _ _ _ _ Hdata Hx) as Hb. exact Hb. }
  replace (Z.to_nat (pos + 1)) with (S (Z.to_nat pos)) by lia. rewrite (take_S_r _ _ x Hx). constructor.
Qed.

Lemma encode_symbol_ok P pos nz len off h out continue :
  hash_ok P h -> inpos <= pos < insize -> pos + 1 = P \/ pos + 1 = P - 1 -> P <= insize -> nz_before (pos + 1) nz -> match_ok pos len off ->
  encoded pos out ->
  (forall pos' nz' h' out' P', hash_ok P' h' -> pos < pos' + 1 <= insize -> pos' + 1 = P' \/ pos' + 1 = P' - 1 -> P' <= insize ->
     nz_before (pos' + 1) nz' -> encoded (pos' + 1) out' -> finishes (continue pos' nz' h' out')) ->
  finishes (encode_symbol s data insize pos nz len off h out continue).
Proof.
  intros Hh Hp Hpp HP Hb (Hm1 & Hm2 & Hm3) Hd Hk'. unfold encode_symbol. rewrite Hset.
  destruct ((3 <=? len) && (ws <? off)) eqn:E86; [exfalso; zbool; destruct Hm3; lia|].
  destruct ((len <? 3) || (len <? minmatch s) || ((len =? 3) && (4096 <? off))) eqn:Elit.
  - destruct (push_literal pos out Hp Hd) as (x & -> & Hd'). cbn [mbind option_bind]. apply (Hk' pos nz h _ P); done || lia.
  - assert (3 <= len) by (destruct (Z.ltb_spec len 3); [done|lia]). destruct (Hm3 ltac:(lia)) as (Ho1 & Ho2 & Hag).
    unfold MAX_SUPPORTED_DEFLATE_LENGTH in *.
    destruct (add_length_distance_ok data out pos len off) as (syms & -> & Hlz); [lia..|done|]. cbn [mbind option_bind].
    destruct (skip_match_ok (Z.to_nat (len - 1)) P pos nz h Hh ltac:(lia) Hpp ltac:(lia) HP Hb) as (nz' & h' & -> & Hb' & P' & Hh' & HP' & Hor).
    cbn [mbind option_bind]. rewrite Z2Nat.id in * by lia. apply (Hk' _ _ _ _ P'); [done|lia|lia|done|done|].
    replace (pos + (len - 1) + 1) with (pos + len) by lia. by apply (lz_app _ _ _ _ _ Hd).
Qed.

Definition lazy_ok (pos : Z) (lazy : lazy_match) : Prop :=
  match lazy with
  | None => True
  | Some (len, off) => lazymatching s = true /\ inpos < pos /\ 3 <= len /\ match_ok (pos - 1) len off
  end.

Definition lazy_pos (pos : Z) (lazy : lazy_match) : Z := match lazy with None => pos | Some _ => pos - 1 end.

Lemma head_reset_ok P h hv nz hd hz :
  hash_ok P h -> 0 <= hv < HASH_NUM_VALUES -> 0 <= nz <= MAX_SUPPORTED_DEFLATE_LENGTH ->
  put_at (head h) hv (-1) = Some hd -> put_at (headz h) nz (-1) = Some hz ->
  hash_ok P (mkHash hd (val h) (chain h) hz (chainz h) (zeros h)).
Proof.
  intros [[Hh1 Hh2] Hv Hc [Hz1 Hz2] Hcz Hz] Hhv Hnz Eh Ez.
  destruct (heads_put P P (head h) hv (-1) hd Hh2 ltac:(lia) ltac:(lia) ltac:(by left) Eh) as [Hl' Hh'].
  destruct (heads_put P P (headz h) nz (-1) hz Hz2 ltac:(lia) ltac:(lia) ltac:(by left) Ez) as [Hlz' Hz'].
  split; cbn; [by rewrite Hl'|done|done|by rewrite Hlz'|done|done].
Qed.

Lemma encode_loop_ok fuel : forall P pos nz lazy h out,
  hash_ok P h -> inpos <= pos <= insize -> pos = P \/ pos = P - 1 -> P <= insize -> nz_before pos nz -> lazy_ok pos lazy ->
  encoded (lazy_pos pos lazy) out -> 2 * (insize - lazy_pos pos lazy) + (match lazy with None => 1 | Some _ => 0 end) <= Z.of_nat fuel ->
  finishes (encode_loop fuel s data insize pos nz lazy h out).
Proof.
  induction fuel as [|fuel IH]; intros P pos nz lazy h out Hh Hp Hpp HP Hb Hlazy Hd Hf.
  { exfalso. destruct lazy as [[l o]|]; cbn in *; [|lia]. destruct Hlazy as (_ & ? & ? & _ & ? & _). lia. }
  cbn [encode_loop]. destruct (Z.leb_spec insize pos) as [Hend|Hlt].
  { destruct lazy as [[l o]|]; [exfalso; destruct Hlazy as (_ & ? & ? & _ & ? & _); lia|]. cbn in Hd. exists out, h.
    replace pos with insize in * by lia. replace P with insize in * by lia. done. }
  rewrite Hset. destruct (visit_ok P pos nz h Hh ltac:(lia) Hpp Hb) as (hv & nz1 & h1 & -> & Hn1 & Hhv & Hh1). cbn [mbind option_bind].
  replace (Z.max P (pos + 1)) with (pos + 1) in Hh1 by lia. pose proof Hh1 as [_ _ [Hcl Hc] _ _ _].
  pose proof (Z.mod_pos_bound pos ws Hws). pose proof (Z.mod_le pos ws ltac:(lia) Hws).
  destruct (at_some (chain h1) (pos mod ws) ltac:(lia)) as [hp Hhp]. rewrite Hhp. cbn [mbind option_bind]. destruct (Hc _ _ Hhp) as (Hr1 & Hr2 & _).
  destruct (search_chain_ok pos h1 hv nz1 (nicematch s) ltac:(lia) Hh1 Hn1
    (Z.to_nat (if 8192 <=? ws then ws else ws / 8)) hp 0 0 0 Hr1 (Hr2 ltac:(lia))) as (len & off & -> & Hm).
  { split; [unfold MAX_SUPPORTED_DEFLATE_LENGTH; lia|]. split; [lia|]. lia. }
  cbn [mbind option_bind].
  assert (Hnext : nz_before (pos + 1) nz1) by (right; left; by replace (pos + 1 - 1) with pos by lia).
  assert (Hemit : forall out', encoded pos out' -> 2 * (insize - pos) + 1 <= Z.of_nat (S fuel) -> finishes (encode_symbol s data insize pos nz1 len off h1 out'
    (fun pos nz h out => encode_loop fuel s data insize (pos + 1) nz None h out))).
  { intros out' Hd' Hf'. apply (encode_symbol_ok (pos + 1)); [done|lia|lia|lia|done|done|done|]. intros pos' nz' h' o' P' ? ? ? ? ? ?.
    apply (IH P'); [done|lia|lia|done|done|done|done|cbn; lia]. }
  destruct (lazymatching s) eqn:Elm; [|destruct lazy as [[l o]|]; [by destruct Hlazy as [? _]; congruence|by apply Hemit]].
  destruct lazy as [[l o]|]; cbn [lazy_pos lazy_ok] in *.
  - destruct Hlazy as (_ & Hl1 & Hl2 & Hlm). rewrite (proj2 (Z.eqb_neq pos 0)) by lia. destruct (Z.ltb_spec (l + 1) len).
    + destruct (push_literal (pos - 1) out ltac:(lia) Hd) as (x & -> & Hd'). cbn [mbind option_bind].
      replace (pos - 1 + 1) with pos in Hd' by lia. apply Hemit; [done|lia].
    + pose proof Hh1 as [[Hhl _] _ _ [Hzl _] _ _]. destruct Hn1 as (Hzr & Hz1 & Hz2). pose proof Hzr as [? _].
      destruct (put_at (head h1) hv (-1)) as [hd|] eqn:Eh; [|rewrite put_at_ok in Eh by lia; done]. cbn [mbind option_bind].
      destruct (put_at (headz h1) nz1 (-1)) as [hz|] eqn:Ez; [|rewrite put_at_ok in Ez by lia; done]. cbn [mbind option_bind].
      apply (encode_symbol_ok (pos + 1)); [by apply (head_reset_ok _ h1 hv nz1)|lia|lia|lia| |done|done|].
      { right. right. by replace (pos - 1 + 1) with pos by lia. }
      intros pos' nz' h' o' P' ? ? ? ? ? ?. apply (IH P'); [done|lia|lia|done|done|done|done|cbn; lia].
  - destruct ((3 <=? len) && (len <=? _) && (len <? MAX_SUPPORTED_DEFLATE_LENGTH)) eqn:El; [|by apply Hemit; [|lia]].
    assert (3 <= len) by (destruct (Z.leb_spec 3 len); [done|done]).
    apply (IH (pos + 1)); [done|lia|lia|lia|done| |cbn [lazy_pos]; by replace (pos + 1 - 1) with pos by lia|cbn [lazy_pos]; lia].
    cbn [lazy_ok]. split; [done|]. split; [lia|]. split; [done|]. by replace (pos + 1 - 1) with pos by lia.
Qed.
End Chains.

(** ** A block *)

Lemma hash_init_ok data ws : 0 < ws -> hash_ok data ws 0 (hash_init ws).
Proof.
  intros Hws. unfold hash_init.
  assert (Hrep : forall n (x : Z) i, at_ (replicate n (-1)) i = Some x -> x = -1).
  { intros n x i. unfold at_. destruct (i <? 0); [done|]. by intros [-> _]%lookup_replicate_1. }
  assert (Hlink : links ws 0 (seqZ 0 ws)).
  { split; [rewrite length_seqZ; lia|]. intros w c. unfold at_. destruct (Z.ltb_spec w 0); [done|].
    intros Hc%lookup_seqZ. lia. }
  split; cbn [head val chain headz chainz zeros].
  - rewrite length_replicate. split; [done|]. intros i x Hx. left. by apply (Hrep _ _ _ Hx).
  - rewrite length_replicate. lia.
  - done.
  - rewrite length_replicate. split; [done|]. intros i x Hx. left. by apply (Hrep _ _ _ Hx).
  - done.
  - rewrite length_replicate. split; [lia|]. lia.
Qed.

Lemma power_of_two k : 0 <= k -> (2 ^ k .& (2 ^ k - 1)) = 0.
Proof.
  intros Hk. replace (2 ^ k - 1) with (Z.ones k) by (rewrite Z.ones_equiv; lia). rewrite Z.land_ones by lia.
  apply Z.mod_same. pose proof (Z.pow_pos_nonneg 2 k). lia.
Qed.

(** The symbols of a block of the input, between [inpos] and [insize], turn the
    output before it into the output after it; the chains are ready for the next
    block. *)
Lemma encode_lossless data s k h inpos insize :
  bytes_ok data -> 0 <= inpos <= insize -> insize <= Z.of_nat (length data) -> 0 <= k <= 15 -> windowsize s = 2 ^ k ->
  hash_ok data (windowsize s) inpos h ->
  exists out h', encodeLZ77 [] h data inpos insize s = Some (inr (out, h'))
    /\ lz (take (Z.to_nat inpos) data) out (take (Z.to_nat insize) data) /\ hash_ok data (windowsize s) insize h'.
Proof.
  intros Hd Hi Hl Hk Hw Hh. assert (Hws : 0 < windowsize s <= 32768).
  { rewrite Hw. split; [apply Z.pow_pos_nonneg; lia|]. change 32768 with (2 ^ 15). apply Z.pow_le_mono_r; lia. }
  unfold encodeLZ77. rewrite (proj2 (Z.eqb_neq _ 0)), (proj2 (Z.ltb_ge 32768 _)) by lia. cbn [orb].
  assert (Hp : windowsize s .& (windowsize s - 1) = 0) by (rewrite Hw; apply power_of_two; lia). rewrite Hp. cbn [Z.eqb negb].
  set (s' := LzSettings _ _ _ _).
  destruct (encode_loop_ok data (windowsize s) ltac:(lia) Hd insize Hl k ltac:(lia) Hw s' eq_refl ltac:(lia) inpos ltac:(lia)
    (Z.to_nat (2 * (insize - inpos) + 2)) inpos inpos 0 None h []) as (out & h' & E & Hlz & Hh');
    [done|lia|by left|lia|by left|done|constructor|cbn; lia|].
  exists out, h'. done.
Qed.

(** C20: from fresh chains, the symbols [encodeLZ77] finds for an input stand for exactly
    the input: literals and copies of what was decoded before, with lengths of 3 to 258,
    distances inside the window, and the extra bits of RFC 1951.  The search ends within
    its bounds for every input and every window the format allows, with and without lazy
    matching. *)
Theorem lz77_lossless data s k : bytes_ok data -> 0 <= k <= 15 -> windowsize s = 2 ^ k ->
  exists out h, encodeLZ77 [] (hash_init (windowsize s)) data 0 (Z.of_nat (length data)) s = Some (inr (out, h)) /\ lz [] out data.
Proof.
  intros Hd Hk Hw. destruct (encode_lossless data s k (hash_init (windowsize s)) 0 (Z.of_nat (length data))) as (out & h & E & Hlz & _); try done; try lia.
  - apply hash_init_ok. rewrite Hw. apply Z.pow_pos_nonneg; lia.
  - exists out, h. split; [done|]. by rewrite Nat2Z.id, (take_ge data (length data)) in Hlz by lia.
Qed.

Lemma lz77_lossless_witness :
  exists out h, encodeLZ77 [] (hash_init 8) [97; 98; 97; 98; 97; 98; 97] 0 7 (LzSettings 8 3 128 true) = Some (inr (out, h)) /\ lz [] out [97; 98; 97; 98; 97; 98; 97].
Proof. apply (lz77_lossless [97; 98; 97; 98; 97; 98; 97] (LzSettings 8 3 128 true) 3); [repeat constructor; lia|lia|reflexivity]. Defined.
