(* ===== verification/PackageMerge.v ===== *)
(** Boundary package merge (LodeHuff) makes a complete code: the chains as values.

    [bpm] is [boundaryPM] on chains that are lists of pairs of weight and index,
    without the memory pool.  [Inv c t X] says what the levels up to [c] look like
    after [t] items of level [c] were asked for: each level is a merge of the leaves
    and the pairs of the level below, the two chains of the level below are the next
    pair, and a level that has run out of items offers pairs too heavy to be taken
    while a leaf is left.  Only the first [level_items c] items of a level are true ones. *)
From stdpp Require Import functions.
From S2P Require Import Prelude Checksum BitReader Huffman Canonical Deflate LodeLz77 LodeHuff.

Abbreviation chain_val := (list (Z * Z)).
Abbreviation levels := (nat -> chain_val * chain_val).

Definition cw (ch : chain_val) : Z := match ch with (w, _) :: _ => w | [] => 0 end.
Definition ci (ch : chain_val) : Z := match ch with (_, i) :: _ => i | [] => 0 end.
Definition pair_weight (x : chain_val * chain_val) : Z := cw (fst x) + cw (snd x).

Section Levels.
Context (leaves : list (Z * Z)).

Let n := Z.of_nat (length leaves).

Definition wt (i : Z) : Z := match at_ leaves i with Some leaf => fst leaf | None => 0 end.

Fixpoint bpm (c : nat) (recurse : bool) (X : levels) : levels :=
  let x1 := snd (X c) in
  let a := ci x1 in
  match c with
  | O => if n <=? a then X else <[c := (x1, [(wt a, a + 1)])]> X
  | S c' =>
      let sum := pair_weight (X c') in
      if (a <? n) && (wt a <? sum) then <[c := (x1, (wt a, a + 1) :: tail x1)]> X
      else
        let X := <[c := (x1, (sum, a) :: snd (X c'))]> X in
        if recurse then bpm c' recurse (bpm c' recurse X) else X
  end.

(** How many items a level has *)
Fixpoint level_items (c : nat) : Z := match c with O => n | S c => n + level_items c / 2 end.

(** Item [t] of level [c], of which the first [a] leaves are a part, is followed by
    item [2 (t - a)] of the level below, which has no more leaves. *)
Fixpoint chain_ok (c : nat) (t : Z) (ch : chain_val) : Prop :=
  match ch with
  | [] => False
  | (_, a) :: rest =>
      2 <= a <= n /\ a <= t
      /\ match rest with
         | [] => t = a
         | (_, b) :: _ => b <= a /\ match c with O => False | S c => chain_ok c (2 * (t - a)) rest end
         end
  end.

Record level_ok (t : Z) (x : chain_val * chain_val) : Prop := {
  lv_weights : 0 < cw (fst x) <= cw (snd x);
  lv_index : 2 <= ci (snd x) <= n /\ ci (snd x) <= t;
  lv_lower : wt (ci (snd x) - 1) <= cw (snd x);
  lv_upper : ci (snd x) < n -> cw (snd x) <= wt (ci (snd x))
}.

Let top2 := wt (n - 2) + wt (n - 1).

(** Bounds on the weights *)
Definition size_ok (c : nat) (t : Z) (x : chain_val * chain_val) : Prop :=
  (t = 2 -> cw (fst x) = wt 0 /\ cw (snd x) = wt 1)
  /\ (t <= 4 -> cw (fst x) <= top2 /\ cw (snd x) <= top2)
  /\ match c with
     | O => cw (snd x) = wt (ci (snd x) - 1) /\ pair_weight x <= top2
     | S c => cw (fst x) <= 2 ^ Z.of_nat c * top2 /\ cw (snd x) <= 2 ^ Z.of_nat c * top2
     end.

Fixpoint Inv (c : nat) (t : Z) (X : levels) : Prop :=
  let x := X c in
  let a := ci (snd x) in
  level_ok t x /\ size_ok c t x /\ (t <= level_items c -> chain_ok c t (snd x)) /\ (level_items c <= t -> a = n)
  /\ match c with
     | O => a = Z.min t n
     | S c => (t <= level_items (S c) -> t - a <= level_items c / 2) /\ cw (snd x) <= pair_weight (X c) /\ Inv c (2 * (t - a) + 2) X
     end.

Context (Hsorted : forall i j, 0 <= i <= j -> j < n -> wt i <= wt j) (Hpos : forall i, 0 <= i < n -> 0 < wt i) (Hn : 3 <= n).

Lemma Inv_ext c : forall t X Y, (forall d, (d <= c)%nat -> X d = Y d) -> Inv c t X -> Inv c t Y.
Proof.
  induction c as [|c IH]; intros t X Y E; cbn [Inv]; [by rewrite (E 0%nat) by lia|]. rewrite (E (S c)) by lia.
  intros (H1 & H2 & H3 & H4 & H5 & H6 & H7). rewrite (E c ltac:(lia)) in H6. do 6 (split; [done|]). apply (IH _ X); [|done].
  intros d Hd. apply E. lia.
Qed.

Lemma Inv_top c t X : Inv c t X -> level_ok t (X c) /\ size_ok c t (X c) /\ (level_items c <= t -> ci (snd (X c)) = n).
Proof. destruct c; cbn [Inv]; tauto. Qed.

Lemma top2_bounds i : 0 <= i < n -> wt i <= top2.
Proof. intros Hi. pose proof (Hsorted i (n - 1) ltac:(lia) ltac:(lia)). pose proof (Hpos (n - 2) ltac:(lia)). unfold top2. lia. Qed.

Lemma size_pair c t x : size_ok c t x -> pair_weight x <= 2 ^ Z.of_nat c * top2.
Proof.
  unfold size_ok, pair_weight. intros (_ & _ & H). destruct c; [rewrite Z.mul_1_l; lia|].
  rewrite Nat2Z.inj_succ, Z.pow_succ_r by lia. lia.
Qed.

(** Levels above the one worked on stay as they are. *)
Lemma bpm_above c r : forall X d, (c < d)%nat -> bpm c r X d = X d.
Proof.
  induction c as [|c IH]; intros X d Hd; cbn [bpm].
  - destruct (_ <=? _); [done|]. rewrite fn_lookup_insert_ne by lia. done.
  - destruct (_ && _); [by rewrite fn_lookup_insert_ne by lia|].
    destruct r; [rewrite !IH by lia|]; by rewrite fn_lookup_insert_ne by lia.
Qed.

(** A step of a level, from what it does to its two chains. *)
Lemma bpm_heads c X t : Inv c t X -> Inv c (t + 1) (bpm c true X) ->
  cw (fst (X c)) <= cw (fst (bpm c true X c)) /\ cw (snd (X c)) <= cw (snd (bpm c true X c)).
Proof.
  intros [H1 _]%Inv_top [H2 _]%Inv_top. destruct (lv_weights _ _ H1) as [? ?]. destruct (lv_weights _ _ H2) as [_ HW].
  assert (E : bpm c true X = X \/ fst (bpm c true X c) = snd (X c)).
  { destruct c as [|c]; cbn [bpm]; [destruct (_ <=? _); [by left|right; by rewrite fn_lookup_insert]|right].
    destruct (_ && _); [by rewrite fn_lookup_insert|]. rewrite !bpm_above by lia. by rewrite fn_lookup_insert. }
  destruct E as [->|E]; [done|]. rewrite E in *. lia.
Qed.

(** The level that takes a leaf *)
Lemma level_leaf t x rest : level_ok t x -> ci (snd x) < n ->
  level_ok (t + 1) (snd x, (wt (ci (snd x)), ci (snd x) + 1) :: rest).
Proof.
  intros [H1 H2 H3 H4] Ha. split; cbn [fst snd cw ci].
  - specialize (H4 Ha). lia.
  - lia.
  - by replace (ci (snd x) + 1 - 1) with (ci (snd x)) by lia.
  - intros H. apply Hsorted; lia.
Qed.

(** The level that takes a pair of the level below *)
Lemma level_pair t x sum ch : level_ok t x -> cw (snd x) <= sum -> (ci (snd x) < n -> sum <= wt (ci (snd x))) ->
  level_ok (t + 1) (snd x, (sum, ci (snd x)) :: ch).
Proof. intros [H1 H2 H3 H4] Hs Ha. split; cbn [fst snd cw ci]; [lia|lia|lia|done]. Qed.

Lemma chain_ok_cons c t w a rest :
  chain_ok c t ((w, a) :: rest) <->
  2 <= a <= n /\ a <= t
  /\ match rest with
     | [] => t = a
     | (_, b) :: _ => b <= a /\ match c with O => False | S c => chain_ok c (2 * (t - a)) rest end
     end.
Proof. by destruct c. Qed.

Lemma chain_leaf c t ch : chain_ok c t ch -> ci ch < n -> chain_ok c (t + 1) ((wt (ci ch), ci ch + 1) :: tail ch).
Proof.
  destruct ch as [|[w a] rest]; [by destruct c|]. cbn [ci tail]. rewrite !chain_ok_cons. intros (H1 & H2 & H3) Ha.
  split; [lia|]. split; [lia|]. destruct rest as [|[? b] rest]; [lia|]. destruct H3 as [H3 H4]. split; [lia|].
  destruct c; [done|]. by replace (t + 1 - (a + 1)) with (t - a) by lia.
Qed.

(** Index of the next pair against that of the level that takes it *)
Lemma taken_index t1 t2 x y : level_ok t1 x -> level_ok t2 y ->
  (ci (snd x) < n -> pair_weight y <= wt (ci (snd x))) -> ci (snd y) <= ci (snd x).
Proof.
  intros [_ [? _] _ _] [? [? _] Hl _] Hp. destruct (Z.le_gt_cases (ci (snd y)) (ci (snd x))); [done|].
  assert (ci (snd x) < n) as Hx by lia. specialize (Hp Hx). unfold pair_weight in Hp.
  pose proof (Hsorted (ci (snd x)) (ci (snd y) - 1) ltac:(lia) ltac:(lia)). lia.
Qed.

(** An exhausted level offers a pair heavier than every leaf. *)
Lemma exhausted_heavy t y i : level_ok t y -> ci (snd y) = n -> 0 <= i < n -> wt i < pair_weight y.
Proof.
  intros [? _ Hl _] E Hi. rewrite E in Hl. pose proof (Hsorted i (n - 1) ltac:(lia) ltac:(lia)). unfold pair_weight. lia.
Qed.

Lemma level_later t x : level_ok t x -> level_ok (t + 1) x.
Proof. intros [? ? ? ?]. split; [done|lia|done|done]. Qed.

Lemma bpm_inv_0 t X : Inv 0 t X -> Inv 0 (t + 1) (bpm 0 true X).
Proof.
  cbn [Inv bpm level_items]. intros (Hl & (Hs1 & Hs2 & Hs3 & Hs4) & Hc & He & Ha). pose proof (lv_index _ _ Hl) as [Hi1 Hi2].
  destruct (Z.leb_spec n (ci (snd (X 0%nat)))).
  - split; [by apply level_later|]. split; [|lia]. split; [lia|]. split; [intros; apply Hs2; lia|done].
  - rewrite fn_lookup_insert. cbn [fst snd].
    assert (Hw : wt (ci (snd (X 0%nat)) - 1) <= wt (n - 2) /\ wt (ci (snd (X 0%nat))) <= wt (n - 1)) by (split; apply Hsorted; lia).
    split; [by apply level_leaf|]. split.
    { split; [lia|]. cbn [cw ci fst snd pair_weight]. unfold top2 in *. pose proof (top2_bounds (ci (snd (X 0%nat))) ltac:(lia)).
      unfold pair_weight. cbn [cw fst snd].
      split; [intros; split; [apply Hs2; lia|done]|]. split; [f_equal; lia|]. lia. }
    cbn [ci chain_ok]. lia.
Qed.

Lemma scale_le c x : 0 <= x -> x <= 2 ^ Z.of_nat c * x.
Proof. intros Hx. pose proof (Z.pow_pos_nonneg 2 (Z.of_nat c) ltac:(lia) ltac:(lia)). nia. Qed.

Lemma top2_pos : 0 < top2.
Proof. pose proof (Hpos (n - 2) ltac:(lia)). pose proof (Hpos (n - 1) ltac:(lia)). unfold top2. lia. Qed.

(** A level with a leaf to take takes it before a pair of an exhausted level. *)
Lemma pairs_left c t X :
  Inv (S c) t X -> (ci (snd (X (S c))) < n -> pair_weight (X c) <= wt (ci (snd (X (S c))))) -> t + 1 <= level_items (S c) ->
  t + 1 - ci (snd (X (S c))) <= level_items c / 2.
Proof.
  cbn [Inv level_items]. intros (Hl & _ & _ & _ & H5 & _ & Hb) Hp Ht. specialize (H5 ltac:(lia)).
  apply Inv_top in Hb as (Hlb & _ & Heb). pose proof (lv_index _ _ Hl) as [Hi1 Hi2].
  destruct (Z.le_gt_cases (t + 1 - ci (snd (X (S c)))) (level_items c / 2)) as [|Hgt]; [done|exfalso].
  pose proof (Z.div_mod (level_items c) 2 ltac:(lia)). pose proof (Z.mod_pos_bound (level_items c) 2 ltac:(lia)).
  pose proof (exhausted_heavy _ _ (ci (snd (X (S c)))) Hlb (Heb ltac:(lia)) ltac:(lia)). lia.
Qed.

Lemma size_leaf c t x : size_ok (S c) t x -> level_ok t x -> ci (snd x) < n ->
  size_ok (S c) (t + 1) (snd x, (wt (ci (snd x)), ci (snd x) + 1) :: tail (snd x)).
Proof.
  intros (H1 & H2 & H3) Hl Ha. pose proof (lv_index _ _ Hl) as [? ?]. unfold size_ok. cbn [cw fst snd].
  pose proof (top2_bounds (ci (snd x)) ltac:(lia)). pose proof (scale_le c top2 ltac:(pose proof top2_pos; lia)).
  split; [lia|]. split; [intros; split; [apply H2; lia|done]|lia].
Qed.

Lemma size_taken c t x y : size_ok (S c) t x -> level_ok t x -> size_ok c (2 * (t - ci (snd x)) + 2) y ->
  (ci (snd x) < n -> pair_weight y <= wt (ci (snd x))) ->
  size_ok (S c) (t + 1) (snd x, (pair_weight y, ci (snd x)) :: snd y).
Proof.
  intros (H1 & H2 & H3) Hl Hy Hp. pose proof (lv_index _ _ Hl) as [? ?]. pose proof (size_pair _ _ _ Hy).
  unfold size_ok. cbn [cw fst snd]. split; [lia|]. split; [|lia]. intros Ht. split; [apply H2; lia|].
  destruct (Z.lt_ge_cases (ci (snd x)) n) as [Ha|Ha].
  - specialize (Hp Ha). pose proof (top2_bounds (ci (snd x)) ltac:(lia)). lia.
  - destruct Hy as (Hy & _). destruct (Hy ltac:(lia)) as [E1 E2]. unfold pair_weight. rewrite E1, E2.
    unfold top2. pose proof (Hsorted 0 (n - 2) ltac:(lia) ltac:(lia)). pose proof (Hsorted 1 (n - 1) ltac:(lia) ltac:(lia)). lia.
Qed.

Lemma inv_leaf c t X : Inv (S c) t X -> ci (snd (X (S c))) < n -> wt (ci (snd (X (S c)))) < pair_weight (X c) ->
  Inv (S c) (t + 1) (<[S c := (snd (X (S c)), (wt (ci (snd (X (S c)))), ci (snd (X (S c))) + 1) :: tail (snd (X (S c))))]> X).
Proof.
  intros (Hl & Hs & Hc & He & H5 & H6 & Hb) Ha Hw. cbn [Inv]. rewrite fn_lookup_insert, fn_lookup_insert_ne by lia.
  cbn [fst snd ci cw] in *. pose proof (lv_index _ _ Hl) as [Hi1 Hi2].
  split; [by apply level_leaf|]. split; [by apply size_leaf|]. split; [intros; apply chain_leaf; [apply Hc; lia|done]|].
  cbn [level_items] in *. split; [intros; destruct (Z.le_gt_cases (n + level_items c / 2) t); [specialize (He ltac:(done)); lia|specialize (H5 ltac:(lia)); lia]|].
  split; [intros; specialize (H5 ltac:(lia)); lia|]. split; [lia|].
  replace (t + 1 - (ci (snd (X (S c))) + 1)) with (t - ci (snd (X (S c)))) by lia.
  apply (Inv_ext c _ X); [|done]. intros d Hd. by rewrite fn_lookup_insert_ne by lia.
Qed.

(** The level that takes a pair, given how the level below goes on *)
Lemma inv_pair c t X Y : Inv (S c) t X -> (ci (snd (X (S c))) < n -> pair_weight (X c) <= wt (ci (snd (X (S c))))) ->
  Y (S c) = (snd (X (S c)), (pair_weight (X c), ci (snd (X (S c)))) :: snd (X c)) ->
  pair_weight (X c) <= pair_weight (Y c) -> Inv c (2 * (t - ci (snd (X (S c)))) + 4) Y -> Inv (S c) (t + 1) Y.
Proof.
  intros HI Hp HY Hmono HbY. pose proof (pairs_left _ _ _ HI Hp) as H5'.
  destruct HI as (Hl & Hs & Hc & He & H5 & H6 & Hb). pose proof (lv_index _ _ Hl) as [Hi1 Hi2].
  cbn [Inv]. rewrite HY. cbn [fst snd ci cw]. pose proof (Inv_top _ _ _ Hb) as (Hlb & Hsb & _).
  split; [by apply level_pair|]. split; [by apply size_taken|]. split.
  { intros Ht. specialize (H5' Ht). apply chain_ok_cons. split; [lia|]. split; [lia|].
    pose proof (Z.div_mod (level_items c) 2 ltac:(lia)). pose proof (Z.mod_pos_bound (level_items c) 2 ltac:(lia)).
    assert (Hcb : chain_ok c (2 * (t + 1 - ci (snd (X (S c))))) (snd (X c))).
    { replace (2 * (t + 1 - ci (snd (X (S c))))) with (2 * (t - ci (snd (X (S c)))) + 2) by lia.
      destruct c; cbn [Inv] in Hb; apply Hb; lia. }
    pose proof (taken_index _ _ _ _ Hl Hlb Hp) as Hti. destruct (snd (X c)) as [|[w b] rest]; [by destruct c|]. by split. }
  cbn [level_items] in *. split; [intros; destruct (Z.le_gt_cases (n + level_items c / 2) t); [by apply He|specialize (H5' ltac:(lia)); lia]|].
  split; [done|]. split; [done|]. by replace (2 * (t + 1 - ci (snd (X (S c)))) + 2) with (2 * (t - ci (snd (X (S c)))) + 4) by lia.
Qed.

Lemma bpm_inv c : forall t X, Inv c t X -> Inv c (t + 1) (bpm c true X).
Proof.
  induction c as [|c IH]; intros t X HI; [by apply bpm_inv_0|]. cbn [bpm].
  destruct ((ci (snd (X (S c))) <? n) && (wt (ci (snd (X (S c)))) <? pair_weight (X c))) eqn:E.
  - apply andb_true_iff in E as [E1%Z.ltb_lt E2%Z.ltb_lt]. by apply inv_leaf.
  - assert (Hp : ci (snd (X (S c))) < n -> pair_weight (X c) <= wt (ci (snd (X (S c))))).
    { intros Ha%Z.ltb_lt. rewrite Ha in E. by apply Z.ltb_ge in E. }
    set (X1 := <[S c := _]> X). set (T := 2 * (t - ci (snd (X (S c)))) + 2).
    assert (Hb : Inv c T X1).
    { apply (Inv_ext c _ X); [|apply HI]. intros d Hd. unfold X1. by rewrite fn_lookup_insert_ne by lia. }
    pose proof (IH _ _ Hb) as Hb2. pose proof (IH _ _ Hb2) as Hb3.
    pose proof (bpm_heads _ _ _ Hb Hb2) as [? ?]. pose proof (bpm_heads _ _ _ Hb2 Hb3) as [? ?].
    assert (EX : X c = X1 c) by (unfold X1; by rewrite fn_lookup_insert_ne by lia).
    apply inv_pair with X; [done|done| | |].
    + rewrite !bpm_above by lia. unfold X1. by rewrite fn_lookup_insert.
    + rewrite EX. unfold pair_weight. lia.
    + replace (2 * (t - ci (snd (X (S c)))) + 4) with (T + 1 + 1) by (unfold T; lia). done.
Qed.

(** The last call does not recurse; its own level does not depend on that. *)
Lemma bpm_same c r r' X : bpm c r X c = bpm c r' X c.
Proof.
  destruct c as [|c]; [done|]. cbn [bpm]. destruct (_ && _); [done|].
  destruct r, r'; rewrite ?bpm_above by lia; done.
Qed.

Definition start_levels : levels := fun _ => ([(wt 0, 1)], [(wt 1, 2)]).

Lemma items_ge c : n <= level_items c.
Proof. induction c; cbn [level_items]; [lia|]. pose proof (Z.div_pos (level_items c) 2). lia. Qed.

Lemma start_inv c : Inv c 2 start_levels.
Proof.
  pose proof (Hpos 0 ltac:(lia)). pose proof (Hsorted 0 1 ltac:(lia) ltac:(lia)). pose proof (Hsorted 1 2 ltac:(lia) ltac:(lia)).
  pose proof top2_pos. pose proof (Hsorted 0 (n - 2) ltac:(lia) ltac:(lia)). pose proof (Hsorted 1 (n - 1) ltac:(lia) ltac:(lia)).
  assert (Ht : wt 0 + wt 1 <= top2) by (unfold top2; lia).
  assert (Hl : level_ok 2 (start_levels c)) by (split; cbn [fst snd cw ci start_levels]; change (2 - 1) with 1; lia).
  assert (Hi := items_ge c).
  induction c as [|c IH].
  - cbn [Inv]. split; [done|]. unfold size_ok, pair_weight. cbn [fst snd cw ci start_levels level_items chain_ok] in *.
    change (2 - 1) with 1. lia.
  - specialize (IH Hl (items_ge c)). cbn [Inv]. split; [done|]. split.
    { unfold size_ok. cbn [fst snd cw ci start_levels]. pose proof (scale_le c top2 ltac:(lia)). lia. }
    cbn [fst snd cw ci start_levels level_items chain_ok pair_weight] in *. unfold pair_weight. cbn [fst snd cw start_levels].
    pose proof (items_ge c). pose proof (Z.div_pos (level_items c) 2 ltac:(lia) ltac:(lia)).
    split; [lia|]. split; [lia|]. split; [lia|]. split; [lia|]. apply IH.
Qed.

(** A code of at most [2 ^ k] symbols needs no more than [k] levels. *)
Lemma items_enough k c : n <= 2 ^ Z.of_nat (k + c) -> 2 * n - 2 ^ Z.of_nat k <= level_items c.
Proof.
  revert k. induction c as [|c IH]; intros k Hk; cbn [level_items].
  - rewrite Nat.add_0_r in Hk. lia.
  - specialize (IH (S k)). replace (S k + c)%nat with (k + S c)%nat in IH by lia. specialize (IH Hk).
    rewrite Nat2Z.inj_succ, Z.pow_succ_r in IH by lia.
    assert (Hm : (n - 2 ^ Z.of_nat k) * 2 <= level_items c) by lia. apply (Z.div_le_mono _ _ 2) in Hm as Hd; [|lia].
    rewrite Z.div_mul in Hd by lia. lia.
Qed.

(** The calls from [i] on *)
Fixpoint bpm_loop (k : nat) (i : Z) (c : nat) (X : levels) : levels :=
  match k with
  | O => X
  | S k => bpm_loop k (i + 1) c (bpm c (i + 1 <? 2 * n - 2) X)
  end.

Lemma bpm_loop_chain c k : forall i X, i + Z.of_nat k = 2 * n - 2 -> 2 * n - 2 <= level_items c ->
  Inv c i X -> chain_ok c (2 * n - 2) (snd (bpm_loop k i c X c)).
Proof.
  induction k as [|k IH]; intros i X Hi Hit HI; cbn [bpm_loop].
  - replace i with (2 * n - 2) in HI by lia. destruct c; cbn [Inv] in HI; by apply HI.
  - destruct (Z.ltb_spec (i + 1) (2 * n - 2)).
    + apply IH; [lia|done|]. by apply bpm_inv.
    + assert (k = 0%nat) as -> by lia. cbn [bpm_loop]. rewrite (bpm_same _ _ true).
      pose proof (bpm_inv _ _ _ HI) as HI'. replace (i + 1) with (2 * n - 2) in HI' by lia.
      destruct c; cbn [Inv] in HI'; by apply HI'.
Qed.
End Levels.

(** ** The lengths of a chain *)

Definition zsum (l : list Z) : Z := foldr Z.add 0 l.

Lemma zsum_cons x l : zsum (x :: l) = x + zsum l.
Proof. done. Qed.

Lemma zsum_app a b : zsum (a ++ b) = zsum a + zsum b.
Proof. induction a as [|x a IH]; cbn; [done|]. unfold zsum in *. lia. Qed.

Lemma zsum_perm a b : a ≡ₚ b -> zsum a = zsum b.
Proof. unfold zsum. induction 1; cbn [foldr]; lia. Qed.

Lemma zsum_plus {A} (f g : A -> Z) l : zsum (map (fun x => f x + g x) l) = zsum (map f l) + zsum (map g l).
Proof. unfold zsum. induction l; cbn [map foldr]; lia. Qed.

Lemma zsum_scale {A} (f : A -> Z) k l : zsum (map (fun x => k * f x) l) = k * zsum (map f l).
Proof. unfold zsum. induction l; cbn [map foldr]; lia. Qed.

Lemma zsum_ext {A} (f g : A -> Z) l : (forall x, x ∈ l -> f x = g x) -> zsum (map f l) = zsum (map g l).
Proof.
  unfold zsum. induction l as [|x l IH]; intros H; cbn [map foldr]; [done|].
  rewrite H, IH by set_solver. done.
Qed.

(** The length of the code of leaf [i] *)
Definition chain_len (ch : chain_val) (i : Z) : nat := length (filter (fun x => i < snd x) ch).

Lemma chain_len_cons w a ch i : chain_len ((w, a) :: ch) i = ((if decide (i < a)%Z then 1 else 0) + chain_len ch i)%nat.
Proof. unfold chain_len. rewrite filter_cons. cbn [snd]. by case_decide. Qed.

Lemma chain_len_le ch i : (chain_len ch i <= length ch)%nat.
Proof. apply length_filter. Qed.

Lemma chain_ok_length leaves ch : forall c t, chain_ok leaves c t ch -> (length ch <= S c)%nat.
Proof.
  induction ch as [|[w a] rest IH]; intros c t H; [cbn; lia|]. apply chain_ok_cons in H as (_ & _ & H).
  destruct rest as [|[w' b] rest]; [cbn; lia|]. destruct H as [_ H]. destruct c; [done|].
  apply IH in H. cbn [length] in *. lia.
Qed.

Lemma chain_indices leaves ch : forall c t, chain_ok leaves c t ch -> Forall (fun x => 0 <= snd x <= Z.of_nat (length leaves)) ch.
Proof.
  induction ch as [|[w a] rest IH]; intros c t H; [by destruct c|]. apply chain_ok_cons in H as (H1 & _ & H3).
  constructor; [cbn; lia|]. destruct rest as [|[w' b] rest]; [constructor|]. destruct H3 as [_ H3]. destruct c; [done|]. by apply (IH c (2 * (t - a))).
Qed.

(** A leaf beyond the first index of a chain is in none of its nodes. *)
Lemma chain_ok_nested leaves ch : forall c t i, chain_ok leaves c t ch -> ci ch <= i -> chain_len ch i = 0%nat.
Proof.
  induction ch as [|[w a] rest IH]; intros c t i H Hi; [done|]. apply chain_ok_cons in H as (_ & _ & H). cbn [ci] in Hi.
  rewrite chain_len_cons, decide_False by lia. destruct rest as [|[w' b] rest]; [done|]. destruct H as [Hb H]. destruct c; [done|].
  apply (IH _ _ _ H). cbn [ci]. lia.
Qed.

Definition kraft_terms (D : nat) (ch : chain_val) (n : Z) : Z :=
  zsum (map (fun i => 2 ^ Z.of_nat (D - chain_len ch i)) (seqZ 0 n)).

Lemma seqZ_split m n : 0 <= m <= n -> seqZ 0 n = seqZ 0 m ++ seqZ m (n - m).
Proof. intros H. replace n with (m + (n - m)) at 1 by lia. by rewrite seqZ_app by lia. Qed.

Lemma zsum_const k n m : 0 <= n -> zsum (map (fun _ => k) (seqZ m n)) = n * k.
Proof.
  intros Hn. assert (G : forall l : list Z, zsum (map (fun _ => k) l) = Z.of_nat (length l) * k).
  { unfold zsum. induction l as [|x l IH]; cbn [map foldr length]; [done|]. rewrite IH. lia. }
  rewrite G, length_seqZ, Z2Nat.id by lia. done.
Qed.

(** The sum of the Kraft terms depends on the number of the item alone. *)
Lemma chain_kraft leaves ch : forall c t D, let n := Z.of_nat (length leaves) in
  chain_ok leaves c t ch -> (length ch <= D)%nat -> 2 * kraft_terms D ch n = 2 ^ Z.of_nat D * (2 * n - t).
Proof.
  induction ch as [|[w a] rest IH]; intros c t D n H HD; [by destruct c|].
  pose proof (fun i => chain_ok_nested _ _ _ _ i H) as Hnest. cbn [ci] in Hnest.
  apply chain_ok_cons in H as ((Ha1 & Ha2) & Hat & H). destruct D as [|D]; [cbn in HD; lia|]. cbn [length] in HD.
  assert (Hr : forall i, a <= i -> chain_len rest i = 0%nat).
  { intros i Hi. specialize (Hnest i Hi). rewrite chain_len_cons in Hnest. lia. }
  assert (E : 2 * kraft_terms D rest n = 2 ^ Z.of_nat D * (2 * n - 2 * (t - a))).
  { destruct rest as [|[w' b] rest].
    - unfold kraft_terms. rewrite (zsum_ext _ (fun _ => 2 ^ Z.of_nat D)) by (intros; by rewrite Nat.sub_0_r).
      rewrite zsum_const by lia. nia.
    - destruct H as [Hb H]. destruct c; [done|]. apply (IH c); [done|lia]. }
  unfold kraft_terms in *. pose proof (seqZ_split a n ltac:(unfold n; lia)) as Hsp. rewrite Hsp, map_app, zsum_app. rewrite Hsp, map_app, zsum_app in E.
  rewrite (zsum_ext _ (fun i => 2 ^ Z.of_nat (D - chain_len rest i)) (seqZ 0 a)).
  2: { intros i Hi%elem_of_seqZ. rewrite chain_len_cons, decide_True by lia. done. }
  rewrite (zsum_ext _ (fun _ => 2 ^ Z.of_nat (S D)) (seqZ a (n - a))).
  2: { intros i Hi%elem_of_seqZ. by rewrite Hnest by lia. }
  rewrite (zsum_ext _ (fun _ => 2 ^ Z.of_nat D) (seqZ a (n - a))) in E.
  2: { intros i Hi%elem_of_seqZ. by rewrite Hr, Nat.sub_0_r by lia. }
  rewrite zsum_const in * by lia. rewrite Nat2Z.inj_succ, Z.pow_succ_r in * by lia. lia.
Qed.
