(* ===== verification/PackagePool.v ===== *)
(** Boundary package merge (LodeHuff) makes a complete code: the memory pool.

    [rep m p ns]: the nodes [ns] are those of the chain at [p].  [lists_ok] relates the
    lists of the program to the levels of PackageMerge: each of the two chains of a
    level is in the pool, on nodes that are not free.  At most [2 L^2] nodes are in use,
    of [2 L (L + 1)], so the garbage collection always finds one. *)
From stdpp Require Import functions.
From S2P Require Import Prelude Checksum BitReader Huffman Canonical Deflate LodeLz77 LodeHuff PackageMerge.

Abbreviation pool := (list (option BPMNode)).

Fixpoint rep (m : pool) (p : option nat) (ns : list (nat * BPMNode)) : Prop :=
  match ns with
  | [] => p = None
  | (q, nd) :: ns => p = Some q /\ m !! q = Some (Some nd) /\ rep m (n_tail nd) ns
  end.

Definition values (ns : list (nat * BPMNode)) : chain_val := map (fun x => (n_weight (snd x), n_index (snd x))) ns.

Definition chain_in (m : pool) (free : list nat) (p : option nat) (ch : chain_val) : Prop :=
  exists ns, rep m p ns /\ values ns = ch /\ forall q, q ∈ ns.*1 -> q ∉ free.

Lemma length_values ns : length (values ns) = length ns.
Proof. apply length_map. Qed.

Lemma rep_unique m ns : forall p ns', rep m p ns -> rep m p ns' -> ns = ns'.
Proof.
  induction ns as [|[q nd] ns IH]; intros p [|[q' nd'] ns']; cbn [rep]; [done|by intros -> [? _]|by intros [-> _] ?|].
  intros (-> & H1 & H2) ([= <-] & H1' & H2'). rewrite H1 in H1'. injection H1' as <-. f_equal. by apply (IH (n_tail nd)).
Qed.

Lemma rep_store m q v ns : forall p, q ∉ ns.*1 -> rep m p ns -> rep (<[q := v]> m) p ns.
Proof.
  induction ns as [|[q' nd] ns IH]; intros p Hq; cbn [rep]; [done|]. rewrite fmap_cons in Hq. cbn [fst] in Hq. apply not_elem_of_cons in Hq as [Hq Hq'].
  intros (-> & H1 & H2). split; [done|]. split; [by rewrite list_lookup_insert_ne|]. by apply IH.
Qed.

(** ** Garbage collection *)

Lemma mark_run m ns : forall fuel p u, rep m p ns -> (length ns <= fuel)%nat -> mark fuel m p u = Some (reverse ns.*1 ++ u).
Proof.
  induction ns as [|[q nd] ns IH]; intros fuel p u; cbn [rep].
  - intros -> _. by destruct fuel.
  - intros (-> & H1 & H2) Hl. destruct fuel as [|fuel]; [cbn in Hl; lia|]. cbn [mark node_at mbind option_bind]. rewrite H1.
    cbn [mjoin option_join mbind option_bind]. rewrite (IH _ _ _ H2) by (cbn in Hl; lia).
    by rewrite fmap_cons, reverse_cons, <- app_assoc.
Qed.

Lemma mark_all_run m k cs : forall u, (k <= length m)%nat -> (forall p, p ∈ cs -> exists ns, rep m p ns /\ (length ns <= k)%nat) ->
  exists u', mark_all m cs u = Some u' /\ (length u' <= length u + k * length cs)%nat /\ (forall q, q ∈ u -> q ∈ u')
    /\ (forall p ns q, p ∈ cs -> rep m p ns -> q ∈ ns.*1 -> q ∈ u').
Proof.
  induction cs as [|p cs IH]; intros u Hk Hcs; cbn [mark_all].
  - exists u. split; [done|]. split; [cbn; lia|]. split; [done|]. intros p ns q Hp. set_solver.
  - destruct (Hcs p ltac:(set_solver)) as (ns & Hr & Hl). rewrite (mark_run _ _ _ _ _ Hr) by lia. cbn [mbind option_bind].
    destruct (IH (reverse ns.*1 ++ u) Hk ltac:(set_solver)) as (u' & E & Hl' & Hu & Hp). exists u'. split; [done|].
    rewrite length_app, length_reverse, length_fmap in Hl'. cbn [length]. split; [lia|].
    split; [intros q Hq; apply Hu; set_solver|]. intros p' ns' q [->|Hp']%elem_of_cons Hr' Hq; [|by apply (Hp p' ns')].
    rewrite (rep_unique _ _ _ _ Hr' Hr) in Hq. apply Hu. apply elem_of_app. left. by apply elem_of_reverse.
Qed.

Lemma pigeon (u : list nat) N : (length u < N)%nat -> exists q, (q < N)%nat /\ q ∉ u.
Proof.
  intros Hl. destruct (decide (Exists (fun q => q ∉ u) (seq 0 N))) as [H|H].
  - apply list.Exists_exists in H as (q & Hq & Hu). exists q. apply elem_of_seq in Hq. split; [lia|done].
  - exfalso. apply not_Exists_Forall in H; [|apply _].
    assert (Hs : seq 0 N ⊆ u).
    { intros q Hq. rewrite list.Forall_forall in H. specialize (H q Hq). cbn in H. destruct (decide (q ∈ u)); [done|by contradict H]. }
    pose proof (NoDup_submseteq _ _ (NoDup_seq 0 N) Hs) as Hsub. apply submseteq_length in Hsub. rewrite length_seq in Hsub. lia.
Qed.

(** ** The lists *)

Section Pool.
Context (L : nat) (HL : (0 < L)%nat).

Definition roots (l : BPMLists) : list (option nat) := chains0 l ++ chains1 l.

Record lists_ok (l : BPMLists) (X : levels) : Prop := {
  lo_memory : length (memory l) = (2 * L * (L + 1))%nat;
  lo_free : NoDup (freelist l) /\ forall q, q ∈ freelist l -> (q < length (memory l))%nat;
  lo_len0 : length (chains0 l) = L;
  lo_len1 : length (chains1 l) = L;
  lo_chains : forall c p, (chains0 l !! c = Some p -> chain_in (memory l) (freelist l) p (fst (X c)))
                          /\ (chains1 l !! c = Some p -> chain_in (memory l) (freelist l) p (snd (X c)));
  lo_short : forall c, (length (fst (X c)) <= S c)%nat /\ (length (snd (X c)) <= S c)%nat
}.

Lemma root_rep l X p : lists_ok l X -> p ∈ roots l -> exists ns, rep (memory l) p ns /\ (length ns <= L)%nat.
Proof.
  intros [_ _ H0 H1 Hc Hs] [Hp|Hp]%elem_of_app; apply list_elem_of_lookup in Hp as (c & Hp);
    pose proof (lookup_lt_Some _ _ _ Hp); destruct (Hc c p) as [Hc0 Hc1]; specialize (Hs c).
  - destruct (Hc0 Hp) as (ns & Hr & Hv & _). exists ns. split; [done|]. rewrite <- (length_values ns), Hv. lia.
  - destruct (Hc1 Hp) as (ns & Hr & Hv & _). exists ns. split; [done|]. rewrite <- (length_values ns), Hv. lia.
Qed.

(** Nodes to hand out, all of them out of use *)
Definition spare (l : BPMLists) (free : list nat) : Prop :=
  NoDup free /\ (forall q, q ∈ free -> (q < length (memory l))%nat)
  /\ forall p ns q, p ∈ roots l -> rep (memory l) p ns -> q ∈ ns.*1 -> q ∉ free.

Lemma collect_run l X : lists_ok l X -> exists free, collect l = Some free /\ free <> [] /\ spare l free.
Proof.
  intros Hl. unfold collect. pose proof Hl as [Hm _ H0 H1 _ _].
  destruct (mark_all_run (memory l) L (roots l) [] ltac:(nia)) as (u & E & Hlen & _ & Hu); [intros p; by apply (root_rep l X)|].
  unfold roots in E at 1. rewrite E. cbn [mbind option_bind]. eexists. split; [done|].
  unfold roots in Hlen. rewrite length_app, H0, H1 in Hlen. cbn [length] in Hlen.
  destruct (pigeon u (length (memory l)) ltac:(nia)) as (q & Hq & Hqu). split; [|split; [|split]].
  - intros Hnil. apply (not_elem_of_nil (A := nat) q). rewrite <- Hnil. apply list_elem_of_filter. split; [done|]. apply elem_of_seq. lia.
  - apply list.NoDup_filter, NoDup_seq.
  - intros q' [_ Hq'%elem_of_seq]%list_elem_of_filter. lia.
  - intros p ns q' Hp Hr Hin [Hq' _]%list_elem_of_filter. by eapply Hq', Hu.
Qed.

Lemma free_spare l X : lists_ok l X -> spare l (freelist l).
Proof.
  intros [_ [Hf1 Hf2] _ _ Hc _]. split; [done|]. split; [done|]. intros p ns q [Hp|Hp]%elem_of_app Hr;
    apply list_elem_of_lookup in Hp as (c & Hp); destruct (Hc c p) as [Hc0 Hc1].
  - destruct (Hc0 Hp) as (ns' & Hr' & _ & Hd). rewrite (rep_unique _ _ _ _ Hr Hr'). apply Hd.
  - destruct (Hc1 Hp) as (ns' & Hr' & _ & Hd). rewrite (rep_unique _ _ _ _ Hr Hr'). apply Hd.
Qed.

(** A chain, or its tail *)
Definition live (l : BPMLists) (p : option nat) : Prop :=
  exists r, r ∈ roots l /\ (p = r \/ exists nd, node_at (memory l) r = Some nd /\ p = n_tail nd).

Lemma live_rep l X p free : lists_ok l X -> spare l free -> live l p ->
  exists ns, rep (memory l) p ns /\ forall q, q ∈ ns.*1 -> q ∉ free.
Proof.
  intros Hl (_ & _ & Hs) (r & Hr & Hp). destruct (root_rep l X r Hl Hr) as (ns & Hns & _).
  destruct Hp as [->|(nd & Hnd & ->)]; [exists ns; split; [done|]; intros q; by apply (Hs r ns)|].
  destruct ns as [|[q nd'] ns]; cbn [rep] in Hns; [by rewrite Hns in Hnd|]. pose proof Hns as (-> & H1 & H2).
  cbn [node_at mbind option_bind] in Hnd. rewrite H1 in Hnd. injection Hnd as <-. exists ns. split; [done|].
  intros q' Hq'. apply (Hs (Some q) ((q, nd') :: ns)); [done|done|]. by apply elem_of_cons; right.
Qed.

(** A new node in front of a chain that is in use; all chains stay as they are. *)
Lemma create_run l X w i p ch : lists_ok l X -> live l p -> chain_in (memory l) (freelist l) p ch ->
  exists q l', bpmnode_create l w i p = Some (q, l') /\ lists_ok l' X
    /\ chain_in (memory l') (freelist l') (Some q) ((w, i) :: ch) /\ chains0 l' = chains0 l /\ chains1 l' = chains1 l.
Proof.
  intros Hl Hp (ns & Hns & Hv & _). unfold bpmnode_create.
  assert (HF : exists free, match freelist l with [] => collect l | f => Some f end = Some free /\ free <> [] /\ spare l free).
  { pose proof (free_spare l X Hl). destruct (freelist l); [by apply (collect_run l X)|by eexists]. }
  destruct HF as (free & -> & Hne & Hsp). cbn [mbind option_bind]. destruct free as [|q free]; [done|].
  pose proof Hsp as ([Hq Hnd]%list.NoDup_cons & Hb & Hout). pose proof (Hb q (proj2 (elem_of_cons _ _ _) (or_introl eq_refl))) as Hqm.
  unfold store_at. rewrite (proj2 (Nat.ltb_lt _ _) Hqm). cbn [mbind option_bind]. eexists _, _. split; [done|].
  cbn [memory freelist chains0 chains1].
  destruct (live_rep l X p _ Hl Hsp Hp) as (ns' & Hns' & Hd). rewrite (rep_unique _ _ _ _ Hns' Hns) in Hd. clear ns' Hns'.
  assert (Hkeep : forall r ns0 ch0, r ∈ roots l -> rep (memory l) r ns0 -> values ns0 = ch0 ->
    chain_in (<[q := Some (mkNode w i p)]> (memory l)) free r ch0).
  { intros r ns0 ch0 Hr Hns0 Hv0. exists ns0. split; [|split; [done|]].
    - apply rep_store; [|done]. intros Hin. apply (Hout r ns0 q Hr Hns0 Hin). by apply elem_of_cons; left.
    - intros q' Hin Hf. apply (Hout r ns0 q' Hr Hns0 Hin). by apply elem_of_cons; right. }
  split; [|split; [|done]].
  - pose proof Hl as [Hm _ H0 H1 Hc Hs]. split; cbn [memory freelist chains0 chains1]; rewrite ?length_insert; try done.
    + split; [done|]. intros q' Hq'. apply Hb. by apply elem_of_cons; right.
    + intros c r. destruct (Hc c r) as [Hc0 Hc1]. split; intros Hr.
      * destruct (Hc0 Hr) as (ns0 & ? & ? & _). apply (Hkeep r ns0); [|done|done]. apply elem_of_app. left. by apply list_elem_of_lookup_2 in Hr.
      * destruct (Hc1 Hr) as (ns0 & ? & ? & _). apply (Hkeep r ns0); [|done|done]. apply elem_of_app. right. by apply list_elem_of_lookup_2 in Hr.
  - exists ((q, mkNode w i p) :: ns). split; [|split].
    + cbn [rep n_tail]. split; [done|]. split; [by rewrite list_lookup_insert_eq|]. apply rep_store; [|done]. intros Hin. apply (Hd q Hin). by apply elem_of_cons; left.
    + cbn [values map snd n_weight n_index]. f_equal. done.
    + intros q' [->|Hin]%elem_of_cons; [done|]. intros Hf. apply (Hd q' Hin). by apply elem_of_cons; right.
Qed.

Lemma chain1_node l X c : lists_ok l X -> (c < L)%nat -> snd (X c) <> [] ->
  exists p nd, chains1 l !! c = Some p /\ chain_node l (chains1 l) c = Some nd
    /\ n_weight nd = cw (snd (X c)) /\ n_index nd = ci (snd (X c)) /\ chain_in (memory l) (freelist l) (n_tail nd) (tail (snd (X c))).
Proof.
  intros [_ _ _ H1 Hc _] HcL Hne. destruct (lookup_lt_is_Some_2 (chains1 l) c ltac:(lia)) as [p Hp].
  destruct (Hc c p) as [_ Hc1]. destruct (Hc1 Hp) as (ns & Hr & Hv & Hd). destruct ns as [|[q nd] ns]; [by rewrite <- Hv in Hne|].
  cbn [rep] in Hr. destruct Hr as (-> & Hq & Hr). exists (Some q), nd. split; [done|]. unfold chain_node. rewrite Hp.
  cbn [mbind option_bind node_at]. rewrite Hq. split; [done|]. rewrite <- Hv. split; [done|]. split; [done|].
  exists ns. split; [done|]. split; [done|]. intros q' Hq'. apply Hd. cbn. by right.
Qed.

Lemma chain0_node l X c : lists_ok l X -> (c < L)%nat -> fst (X c) <> [] ->
  exists nd, chain_node l (chains0 l) c = Some nd /\ n_weight nd = cw (fst (X c)).
Proof.
  intros [_ _ H0 _ Hc _] HcL Hne. destruct (lookup_lt_is_Some_2 (chains0 l) c ltac:(lia)) as [p Hp].
  destruct (Hc c p) as [Hc0 _]. destruct (Hc0 Hp) as (ns & Hr & Hv & Hd). destruct ns as [|[q nd] ns]; [by rewrite <- Hv in Hne|].
  cbn [rep] in Hr. destruct Hr as (-> & Hq & Hr). exists nd. unfold chain_node. rewrite Hp.
  cbn [mbind option_bind node_at]. rewrite Hq. by rewrite <- Hv.
Qed.

Lemma set_chain0_run l X c p ch : lists_ok l X -> (c < L)%nat -> chain_in (memory l) (freelist l) p ch -> (length ch <= S c)%nat ->
  exists l', set_chain0 l c p = Some l' /\ lists_ok l' (<[c := (ch, snd (X c))]> X)
    /\ memory l' = memory l /\ freelist l' = freelist l /\ chains1 l' = chains1 l.
Proof.
  intros [Hm Hf H0 H1 Hc Hs] HcL Hh Hlen. unfold set_chain0, store_at. rewrite (proj2 (Nat.ltb_lt c _)) by lia.
  cbn [mbind option_bind]. eexists. split; [done|]. split; [|done]. split; cbn [memory freelist chains0 chains1]; rewrite ?length_insert; try done.
  - intros d r. destruct (Hc d r) as [Hc0 Hc1]. destruct (decide (d = c)) as [->|Hd].
    + rewrite fn_lookup_insert. cbn [fst snd]. split; [|done]. rewrite list_lookup_insert_eq by lia. by intros [= <-].
    + rewrite fn_lookup_insert_ne by done. split; [|done]. rewrite list_lookup_insert_ne by done. done.
  - intros d. destruct (Hs d). destruct (decide (d = c)) as [->|Hd]; [by rewrite fn_lookup_insert|by rewrite fn_lookup_insert_ne].
Qed.

Lemma set_chain1_run l X c p ch : lists_ok l X -> (c < L)%nat -> chain_in (memory l) (freelist l) p ch -> (length ch <= S c)%nat ->
  exists l', set_chain1 l c p = Some l' /\ lists_ok l' (<[c := (fst (X c), ch)]> X).
Proof.
  intros [Hm Hf H0 H1 Hc Hs] HcL Hh Hlen. unfold set_chain1, store_at. rewrite (proj2 (Nat.ltb_lt c _)) by lia.
  cbn [mbind option_bind]. eexists. split; [done|]. split; cbn [memory freelist chains0 chains1]; rewrite ?length_insert; try done.
  - intros d r. destruct (Hc d r) as [Hc0 Hc1]. destruct (decide (d = c)) as [->|Hd].
    + rewrite fn_lookup_insert. cbn [fst snd]. split; [done|]. rewrite list_lookup_insert_eq by lia. by intros [= <-].
    + rewrite fn_lookup_insert_ne by done. split; [done|]. rewrite list_lookup_insert_ne by done. done.
  - intros d. destruct (Hs d). destruct (decide (d = c)) as [->|Hd]; [by rewrite fn_lookup_insert|by rewrite fn_lookup_insert_ne].
Qed.

Lemma lists_ok_ext l X Y : (forall c, X c = Y c) -> lists_ok l X -> lists_ok l Y.
Proof.
  intros E [Hm Hf H0 H1 Hc Hs]. split; try done; [intros c p; rewrite <- E; apply Hc|intros c; rewrite <- E; apply Hs].
Qed.

(** The step all branches share: [chains0[c] = chains1[c]], a new node in front of a
    chain in use, [chains1[c]] is the new node. *)
Lemma push_run l X c w i t ch :
  lists_ok l X -> (c < L)%nat -> snd (X c) <> [] -> (length ch <= c)%nat ->
  chain_in (memory l) (freelist l) t ch ->
  (forall l0, memory l0 = memory l -> chains1 l0 = chains1 l -> live l0 t) ->
  exists p l0 q l1 l2, chains1 l !! c = Some p /\ set_chain0 l c p = Some l0 /\ chains1 l0 = chains1 l
    /\ bpmnode_create l0 w i t = Some (q, l1) /\ set_chain1 l1 c (Some q) = Some l2
    /\ lists_ok l2 (<[c := (snd (X c), (w, i) :: ch)]> X).
Proof.
  intros Hl HcL Hne Hlen Hh Hlive. pose proof Hl as [_ _ _ H1 Hc Hs].
  destruct (lookup_lt_is_Some_2 (chains1 l) c ltac:(lia)) as [p Hp]. destruct (Hc c p) as [_ Hcp]. specialize (Hcp Hp).
  destruct (set_chain0_run l X c p (snd (X c)) Hl HcL Hcp) as (l0 & E0 & Hl0 & Em & Ef & E1); [apply Hs|].
  destruct (create_run l0 _ w i t ch Hl0 (Hlive _ Em E1)) as (q & l1 & Eq & Hl1 & Hq & _ & _); [by rewrite Em, Ef|].
  destruct (set_chain1_run l1 _ c (Some q) ((w, i) :: ch) Hl1 HcL Hq) as (l2 & E2 & Hl2); [cbn; lia|].
  exists p, l0, q, l1, l2. do 5 (split; [done|]). revert Hl2. apply lists_ok_ext. intros d.
  destruct (decide (d = c)) as [->|Hd]; [by rewrite !fn_lookup_insert|by rewrite !fn_lookup_insert_ne].
Qed.

Lemma live_tail l0 l c nd : memory l0 = memory l -> chains1 l0 = chains1 l -> chain_node l (chains1 l) c = Some nd -> live l0 (n_tail nd).
Proof.
  intros Em E1 Hn. unfold chain_node in Hn. destruct (chains1 l !! c) as [r|] eqn:Hr; [|done]. cbn [mbind option_bind] in Hn.
  exists r. split; [|right; exists nd; by rewrite Em]. apply elem_of_app. right. rewrite E1. by apply list_elem_of_lookup_2 in Hr.
Qed.

Lemma live_chain l0 l c r : chains1 l0 = chains1 l -> chains1 l !! c = Some r -> live l0 r.
Proof. intros E1 Hr. exists r. split; [|by left]. apply elem_of_app. right. rewrite E1. by apply list_elem_of_lookup_2 in Hr. Qed.

(** ** One call *)

Section Call.
Context (leaves : list (Z * Z)).
Let n := Z.of_nat (length leaves).
Context (Hsorted : forall i j, 0 <= i <= j -> j < n -> wt leaves i <= wt leaves j)
  (Hpos : forall i, 0 <= i < n -> 0 < wt leaves i) (Hn : 3 <= n).
Let top2 := wt leaves (n - 2) + wt leaves (n - 1).

Lemma level_nonempty t x : level_ok leaves t x -> fst x <> [] /\ snd x <> [].
Proof. intros [H1 H2 _ _]. split; intros E; rewrite E in *; cbn [cw ci] in *; lia. Qed.

Lemma leaf_at i : 0 <= i < n -> exists leaf, at_ leaves i = Some leaf /\ fst leaf = wt leaves i.
Proof. intros Hi. unfold wt. destruct (at_some leaves i Hi) as [leaf ->]. by exists leaf. Qed.

Lemma boundaryPM_0 l X t num : lists_ok l X -> Inv leaves 0 t X ->
  exists l', boundaryPM 0 l leaves num = Some l' /\ lists_ok l' (bpm leaves 0 true X).
Proof.
  intros Hl HI. apply Inv_top in HI as (Hlv & _ & _). destruct (level_nonempty _ _ Hlv) as [_ Hne].
  destruct (chain1_node l X 0 Hl ltac:(lia) Hne) as (p & nd & Hp & Hnd & _ & Hi & Ht).
  pose proof (lo_short _ _ Hl 0%nat) as [_ Hs]. pose proof (lv_index _ _ _ Hlv) as [Hi1 _].
  assert (E : tail (snd (X 0%nat)) = []) by (destruct (snd (X 0%nat)) as [|? [|]]; [done|done|cbn in Hs; lia]).
  cbn [boundaryPM bpm]. rewrite Hnd. cbn [mbind option_bind]. rewrite Hi. fold n. destruct (Z.leb_spec n (ci (snd (X 0%nat)))); [by eexists|].
  destruct (push_run l X 0 (wt leaves (ci (snd (X 0%nat)))) (ci (snd (X 0%nat)) + 1) (n_tail nd) [] Hl ltac:(lia) Hne ltac:(done))
    as (p' & l0 & q & l1 & l2 & Hp' & E0 & _ & E1 & E2 & Hl2);
    [by rewrite <- E|intros; by apply (live_tail _ l 0)|].
  destruct Ht as (ns & Hr & Hv & _). rewrite E in Hv. destruct ns; [|done]. cbn [rep] in Hr. rewrite Hr in E1.
  destruct (leaf_at (ci (snd (X 0%nat))) ltac:(lia)) as (leaf & Elf & Ew).
  rewrite Hp'. cbn [mbind option_bind]. rewrite E0. cbn [mbind option_bind]. rewrite Elf. cbn [mbind option_bind].
  rewrite Ew, E1. cbn [mbind option_bind]. by exists l2.
Qed.

Lemma boundaryPM_run c : forall l X t num, (c < L)%nat -> lists_ok l X -> Inv leaves c t X ->
  match c with O => True | S c => pair_weight (X c) < 2 ^ 31 end -> (forall d, (S d < c)%nat -> 2 ^ Z.of_nat d * top2 < 2 ^ 31) ->
  exists l', boundaryPM c l leaves num = Some l' /\ lists_ok l' (bpm leaves c (num + 1 <? 2 * n - 2) X).
Proof.
  induction c as [|c IH]; intros l X t num HcL Hl HI Hpw Hroom; [by apply (boundaryPM_0 l X t num)|].
  pose proof HI as (Hlv & _ & _ & _ & _ & _ & Hb). pose proof (Inv_top _ _ _ _ Hb) as (Hlb & Hsb & _).
  destruct (level_nonempty _ _ Hlv) as [_ Hne]. destruct (level_nonempty _ _ Hlb) as [Hne0 Hne1].
  destruct (chain1_node l X (S c) Hl HcL Hne) as (p & nd & Hp & Hnd & _ & Hi & Ht).
  destruct (chain1_node l X c Hl ltac:(lia) Hne1) as (p1 & nd1 & Hp1 & Hnd1 & Hw1 & _ & _).
  destruct (chain0_node l X c Hl ltac:(lia) Hne0) as (nd0 & Hnd0 & Hw0).
  pose proof (lo_short _ _ Hl (S c)) as [_ Hs]. pose proof (lo_short _ _ Hl c) as [_ Hsc]. pose proof (lv_index _ _ _ Hlv) as [Hi1 _].
  cbn [boundaryPM bpm]. rewrite Hnd. cbn [mbind option_bind]. rewrite Hnd0. cbn [mbind option_bind]. rewrite Hnd1. cbn [mbind option_bind].
  rewrite Hi, Hw0, Hw1. fold n. change (cw (fst (X c)) + cw (snd (X c))) with (pair_weight (X c)).
  rewrite option_guard_True by done. cbn [mbind option_bind]. rewrite Hp. cbn [mbind option_bind].
  set (a := ci (snd (X (S c)))) in *.
  destruct ((a <? n) && (wt leaves a <? pair_weight (X c))) eqn:Eb.
  - apply andb_true_iff in Eb as [Ha Hlt]. rewrite Ha. apply Z.ltb_lt in Ha.
    destruct (leaf_at a ltac:(lia)) as (leaf & Elf & Ew).
    destruct (push_run l X (S c) (wt leaves a) (a + 1) (n_tail nd) (tail (snd (X (S c)))) Hl HcL Hne)
      as (p' & l0 & q & l1 & l2 & Hp' & E0 & _ & E1 & E2 & Hl2);
      [destruct (snd (X (S c))); cbn in *; lia|done|intros; by apply (live_tail _ l (S c))|].
    rewrite Hp in Hp'. injection Hp' as <-. rewrite E0. cbn [mbind option_bind]. rewrite Elf. cbn [mbind option_bind]. rewrite Ew, Hlt.
    rewrite E1. cbn [mbind option_bind]. by exists l2.
  - destruct (push_run l X (S c) (pair_weight (X c)) a p1 (snd (X c)) Hl HcL Hne Hsc)
      as (p' & l0 & q & l1 & l2 & Hp' & E0 & Ec1 & E1 & E2 & Hl2);
      [by apply (lo_chains _ _ Hl)|intros; by apply (live_chain _ l c)|].
    rewrite Hp in Hp'. injection Hp' as <-. rewrite E0. cbn [mbind option_bind].
    assert (Etl : (if a <? n then leaf ← at_ leaves a; Some (fst leaf <? pair_weight (X c)) else Some false) = Some false).
    { destruct (Z.ltb_spec a n) as [Ha|]; [|done]. destruct (leaf_at a ltac:(lia)) as (leaf & -> & Ew). cbn [mbind option_bind].
      rewrite Ew. by cbn [andb] in Eb; rewrite Eb. }
    rewrite Etl. cbn [mbind option_bind]. rewrite Ec1, Hp1. cbn [mbind option_bind]. rewrite E1. cbn [mbind option_bind]. rewrite E2.
    cbn [mbind option_bind]. destruct (num + 1 <? 2 * n - 2) eqn:Enum; [|by exists l2].
    set (X1 := <[S c := _]> X) in *. set (T := 2 * (t - a) + 2) in *.
    assert (Hb1 : Inv leaves c T X1) by (apply (Inv_ext _ c _ X); [intros d Hd; unfold X1; by rewrite fn_lookup_insert_ne by lia|done]).
    pose proof (bpm_inv leaves Hsorted Hpos Hn _ _ _ Hb1) as Hb2.
    assert (Hroom' : forall Y T, Inv leaves c T Y -> match c with O => True | S c => pair_weight (Y c) < 2 ^ 31 end).
    { intros Y T' HY. destruct c as [|c']; [done|]. destruct HY as (_ & _ & _ & _ & _ & _ & HY). apply Inv_top in HY as (_ & HY & _).
      apply size_pair in HY. specialize (Hroom c' ltac:(lia)). unfold top2, n in Hroom. lia. }
    destruct (IH l2 X1 T num ltac:(lia) Hl2 Hb1 (Hroom' _ _ Hb1) ltac:(intros; apply Hroom; lia)) as (l3 & E3 & Hl3).
    rewrite E3. cbn [mbind option_bind]. rewrite Enum in Hl3.
    destruct (IH l3 _ (T + 1) num ltac:(lia) Hl3 Hb2 (Hroom' _ _ Hb2) ltac:(intros; apply Hroom; lia)) as (l4 & E4 & Hl4).
    rewrite Enum in Hl4. by exists l4.
Qed.
End Call.
End Pool.
