(* ===== verification/CodeLengths.v ===== *)
(** The code lengths of the PNG encoder (LodeHuff, [lodepng_huffman_code_lengths]): the
    merge sort of the leaves, the run of boundary package merge from its start to the
    last chain, and the lengths counted from that chain.  Every code is complete:
    the Kraft sum of the lengths is one. *)
From stdpp Require Import functions sorting.
From S2P Require Import Prelude Checksum BitReader Huffman Canonical Deflate LodeLz77 LodeHuff PackageMerge PackagePool.

(** ** The merge sort *)

Definition lighter (x y : Z * Z) : Prop := fst x <= fst y.
#[local] Instance lighter_dec x y : Decision (lighter x y).
Proof. unfold lighter. apply _. Defined.
#[local] Instance lighter_total : Total lighter.
Proof. intros x y. unfold lighter. lia. Qed.
#[local] Instance lighter_trans : Transitive lighter.
Proof. intros x y z. unfold lighter. lia. Qed.

Definition seg {A} (a : list A) (i q : nat) : list A := take (q - i) (drop i a).

Lemma seg_cons {A} (a : list A) i q x : (i < q)%nat -> a !! i = Some x -> seg a i q = x :: seg a (S i) q.
Proof.
  intros Hi Hx. unfold seg. rewrite (drop_S _ _ _ Hx). replace (q - i)%nat with (S (q - S i)) by lia. done.
Qed.

Lemma seg_nil {A} (a : list A) i q : (q <= i)%nat -> seg a i q = [].
Proof. intros H. unfold seg. by replace (q - i)%nat with 0%nat by lia. Qed.

Lemma merge_run_ok a q r fuel : forall i j, (i <= q)%nat -> (j <= r)%nat -> (q <= length a)%nat -> (r <= length a)%nat ->
  fuel = (q - i + (r - j))%nat -> merge_run fuel a i q j r = Some (list_merge lighter (seg a i q) (seg a j r)).
Proof.
  induction fuel as [|fuel IH]; intros i j Hi Hj Hq Hr Hf; cbn [merge_run].
  - by rewrite !seg_nil by lia.
  - destruct (Nat.ltb_spec i q) as [Hiq|Hiq].
    + destruct (lookup_lt_is_Some_2 a i ltac:(lia)) as [x Hx]. rewrite (seg_cons a i q x Hiq Hx).
      destruct (Nat.leb_spec r j) as [Hrj|Hrj].
      * cbn [mbind option_bind]. rewrite Hx. cbn [mbind option_bind]. rewrite IH by lia. cbn [mbind option_bind].
        by rewrite (seg_nil a j r Hrj), !list_merge_nil_r.
      * destruct (lookup_lt_is_Some_2 a j ltac:(lia)) as [y Hy]. rewrite Hx. cbn [mbind option_bind]. rewrite Hy. cbn [mbind option_bind].
        rewrite (seg_cons a j r y Hrj Hy), list_merge_cons. destruct (Z.leb_spec (fst x) (fst y)).
        -- rewrite decide_True by done. rewrite IH by lia. cbn [mbind option_bind]. by rewrite (seg_cons a j r y Hrj Hy).
        -- rewrite decide_False by (unfold lighter; lia). rewrite IH by lia. cbn [mbind option_bind]. by rewrite (seg_cons a i q x Hiq Hx).
    + cbn [mbind option_bind]. destruct (lookup_lt_is_Some_2 a j ltac:(lia)) as [y Hy]. rewrite Hy. cbn [mbind option_bind].
      rewrite IH by lia. cbn [mbind option_bind]. rewrite (seg_nil a i q Hiq), !list_merge_nil_l. by rewrite (seg_cons a j r y ltac:(lia) Hy).
Qed.

(** Every block of [w] entries is sorted. *)
Definition runs (w : nat) (a : list (Z * Z)) : Prop := forall k, Sorted lighter (take w (drop (k * w) a)).

Lemma cap_min num x : cap num x = Nat.min num x.
Proof. unfold cap. destruct (Nat.ltb_spec num x); lia. Qed.

Lemma seg_take {A} (a : list A) i w : seg a i (Nat.min (length a) (i + w)) = take w (drop i a).
Proof.
  unfold seg. destruct (Nat.le_gt_cases (i + w) (length a)).
  - f_equal. lia.
  - rewrite !take_ge; [done| |]; rewrite length_drop; lia.
Qed.

Lemma seg_app {A} (a : list A) i q r : (i <= q <= r)%nat -> seg a i q ++ seg a q r = seg a i r.
Proof.
  intros H. unfold seg. replace (r - i)%nat with (q - i + (r - q))%nat by lia.
  rewrite <- take_take_drop, drop_drop. by replace (i + (q - i))%nat with q by lia.
Qed.

(** A pass sorts the blocks of twice the width. *)
Lemma merge_pass_ok w a fuel : forall k, (0 < w)%nat -> runs w a -> (length a - 2 * k * w < fuel)%nat ->
  exists b, merge_pass fuel a (length a) w (2 * k * w) = Some b /\ b ≡ₚ drop (2 * k * w) a /\ runs (2 * w) b.
Proof.
  induction fuel as [|fuel IH]; intros k Hw Hr Hf; [lia|]. cbn [merge_pass].
  destruct (Nat.ltb_spec (2 * k * w) (length a)) as [Hp|Hp].
  - rewrite !cap_min. set (p := (2 * k * w)%nat) in *. set (q := Nat.min (length a) (p + w)). set (r := Nat.min (length a) (p + 2 * w)).
    rewrite (merge_run_ok a q r) by lia. cbn [mbind option_bind].
    destruct (IH (S k) Hw Hr ltac:(nia)) as (b & E & Hb & Hrb). replace (2 * S k * w)%nat with (p + 2 * w)%nat in * by nia.
    rewrite E. cbn [mbind option_bind]. eexists. split; [done|].
    assert (Hperm : list_merge lighter (seg a p q) (seg a q r) ≡ₚ take (2 * w) (drop p a)).
    { rewrite merge_Permutation, seg_app by lia. unfold r. by rewrite seg_take. }
    assert (Hso : Sorted lighter (list_merge lighter (seg a p q) (seg a q r))).
    { apply (Sorted_list_merge lighter).
      - unfold q. rewrite seg_take. specialize (Hr (2 * k)%nat). done.
      - destruct (Nat.le_gt_cases (p + w) (length a)) as [Hle|Hgt]; [|rewrite seg_nil by lia; constructor].
        replace q with (p + w)%nat by lia. unfold r. replace (p + 2 * w)%nat with (p + w + w)%nat by lia. rewrite seg_take.
        specialize (Hr (S (2 * k))). by replace (S (2 * k) * w)%nat with (p + w)%nat in Hr by lia. }
    split.
    + rewrite Hperm, Hb. replace (p + 2 * w)%nat with (p + (2 * w))%nat by lia. rewrite <- drop_drop. by rewrite take_drop.
    + assert (Hlen : length (list_merge lighter (seg a p q) (seg a q r)) = Nat.min (2 * w) (length a - p)).
      { by rewrite Hperm, length_take, length_drop. }
      destruct (Nat.le_gt_cases (p + 2 * w) (length a)) as [Hle|Hgt].
      * intros [|i].
        { rewrite Nat.mul_0_l, drop_0, take_app_le by lia. rewrite take_ge by lia. done. }
        replace (S i * (2 * w))%nat with (length (list_merge lighter (seg a p q) (seg a q r)) + i * (2 * w))%nat by lia.
        rewrite drop_app_add. apply Hrb.
      * assert (b = []) as -> by (apply Permutation_nil_r; rewrite Hb, drop_ge by lia; done). rewrite app_nil_r.
        intros [|i]; [rewrite Nat.mul_0_l, drop_0, take_ge by lia; done|]. rewrite drop_ge by (rewrite Hlen; lia).
        rewrite take_nil. constructor.
  - exists []. split; [done|]. rewrite drop_ge by lia. split; [done|]. intros k'. rewrite drop_nil, take_nil. constructor.
Qed.

Lemma merge_passes_ok a0 fuel : forall a w, (0 < w)%nat -> a ≡ₚ a0 -> runs w a -> (length a <= w + fuel)%nat ->
  exists b, merge_passes (S fuel) a (length a) w = Some b /\ b ≡ₚ a0 /\ Sorted lighter b.
Proof.
  induction fuel as [|fuel IH]; intros a w Hw Hp Hr Hf.
  - cbn [merge_passes]. rewrite (proj2 (Nat.ltb_ge _ _)) by lia. exists a. split; [done|]. split; [done|].
    specialize (Hr 0%nat). by rewrite Nat.mul_0_l, drop_0, take_ge in Hr by lia.
  - cbn [merge_passes]. destruct (Nat.ltb_spec w (length a)) as [Hlt|Hge].
    + destruct (merge_pass_ok w a (S (length a)) 0 Hw Hr ltac:(lia)) as (b & E & Hb & Hrb).
      rewrite Nat.mul_0_r, Nat.mul_0_l in E, Hb. rewrite drop_0 in Hb. rewrite E. cbn [mbind option_bind].
      replace (length a) with (length b) by (by rewrite Hb). rewrite (Nat.mul_comm w 2).
      apply (IH b (2 * w)%nat); [lia|by rewrite Hb|done|rewrite Hb; lia].
    + exists a. split; [done|]. split; [done|]. specialize (Hr 0%nat). by rewrite Nat.mul_0_l, drop_0, take_ge in Hr by lia.
Qed.

Lemma bpmnode_sort_ok a : exists b, bpmnode_sort a = Some b /\ b ≡ₚ a /\ Sorted lighter b.
Proof.
  unfold bpmnode_sort. apply merge_passes_ok; [lia|done| |lia]. intros k. destruct (drop (k * 1) a); cbn; repeat constructor.
Qed.

(** ** Counting *)

(** Leaf [i] has the length [f i], the symbols that are no leaf have none. *)
Record lens_are (leaves : list (Z * Z)) (N : nat) (f : nat -> Z) (lengths : list Z) : Prop := {
  la_length : length lengths = N;
  la_leaf : forall i w s, leaves !! i = Some (w, s) -> at_ lengths s = Some (f i);
  la_other : forall s, 0 <= s < Z.of_nat N -> s ∉ leaves.*2 -> at_ lengths s = Some 0
}.

Section Count.
Context (leaves : list (Z * Z)) (N : nat) (Hnd : NoDup leaves.*2) (Hrange : forall s, s ∈ leaves.*2 -> 0 <= s < Z.of_nat N).

Lemma leaf_unique i j w w' s : leaves !! i = Some (w, s) -> leaves !! j = Some (w', s) -> i = j.
Proof. intros Hi Hj. apply (NoDup_lookup _ i j s Hnd); rewrite list_lookup_fmap; [by rewrite Hi|by rewrite Hj]. Qed.

Lemma leaf_symbol i w s : leaves !! i = Some (w, s) -> s ∈ leaves.*2.
Proof. intros Hi. apply list_elem_of_fmap. exists (w, s). split; [done|]. by apply list_elem_of_lookup_2 in Hi. Qed.

Lemma lens_ext f g lengths : (forall i, f i = g i) -> lens_are leaves N f lengths -> lens_are leaves N g lengths.
Proof. intros E [H1 H2 H3]. split; [done| |done]. intros i w s Hi. rewrite <- E. by apply (H2 i w). Qed.

Lemma count_leaves_run k : forall pre rest f lengths, leaves = pre ++ rest -> (k <= length rest)%nat -> lens_are leaves N f lengths ->
  exists lengths', count_leaves k rest lengths = Some lengths'
    /\ lens_are leaves N (fun i => f i + if decide (length pre <= i < length pre + k)%nat then 1 else 0) lengths'.
Proof.
  induction k as [|k IH]; intros pre rest f lengths El Hk Hf; cbn [count_leaves].
  - exists lengths. split; [done|]. revert Hf. apply lens_ext. intros i. rewrite decide_False by lia. lia.
  - destruct rest as [|[w s] rest]; [cbn in Hk; lia|].
    assert (Hi : leaves !! length pre = Some (w, s)) by (rewrite El; by apply list_lookup_middle).
    pose proof Hf as [H1 H2 H3]. rewrite (H2 _ _ _ Hi). cbn [mbind option_bind]. pose proof (Hrange s (leaf_symbol _ _ _ Hi)) as Hs.
    rewrite put_at_ok by lia. cbn [mbind option_bind].
    destruct (IH (pre ++ [(w, s)]) rest (fun i => f i + if decide (i = length pre) then 1 else 0) (<[Z.to_nat s := f (length pre) + 1]> lengths))
      as (l' & E & Hl'); [by rewrite <- app_assoc|cbn in Hk; lia| |].
    + split.
      * by rewrite length_insert.
      * intros i w' s' Hi'. rewrite at_insert by lia. destruct (decide (s = s')) as [<-|Hne].
        -- rewrite (leaf_unique _ _ _ _ _ Hi' Hi). by rewrite decide_True.
        -- rewrite (H2 _ _ _ Hi'). rewrite decide_False by congruence. f_equal. lia.
      * intros s' Hs' Hout. rewrite at_insert by lia. rewrite decide_False; [by apply H3|]. intros <-. by apply Hout, (leaf_symbol _ _ _ Hi).
    + exists l'. split; [done|]. revert Hl'. apply lens_ext. intros i. rewrite length_app. cbn [length].
      destruct (decide (i = length pre)) as [->|]; [rewrite decide_False, decide_True by lia; lia|].
      destruct (decide (length pre <= i < length pre + S k)%nat); [rewrite decide_True by lia|rewrite decide_False by lia]; lia.
Qed.

Lemma count_chain_run m ns : forall fuel p f lengths, rep m p ns -> (length ns <= fuel)%nat ->
  Forall (fun x => 0 <= snd x <= Z.of_nat (length leaves)) (values ns) -> lens_are leaves N f lengths ->
  exists lengths', count_chain fuel m p leaves lengths = Some lengths'
    /\ lens_are leaves N (fun i => f i + Z.of_nat (chain_len (values ns) (Z.of_nat i))) lengths'.
Proof.
  induction ns as [|[q nd] ns IH]; intros fuel p f lengths; cbn [rep].
  - intros -> _ _ Hf. exists lengths. split; [by destruct fuel|]. revert Hf. apply lens_ext. intros i. cbn. lia.
  - intros (-> & Hq & Hr) Hl [Hi Hall]%list.Forall_cons Hf. cbn [snd] in Hi. destruct fuel as [|fuel]; [cbn in Hl; lia|].
    cbn [count_chain node_at mbind option_bind]. rewrite Hq. cbn [mjoin option_join mbind option_bind].
    destruct (count_leaves_run (Z.to_nat (n_index nd)) [] leaves f lengths eq_refl ltac:(lia) Hf) as (l1 & E1 & Hl1).
    rewrite E1. cbn [mbind option_bind]. destruct (IH fuel _ _ l1 Hr ltac:(cbn in Hl; lia) Hall Hl1) as (l2 & E2 & Hl2).
    exists l2. split; [done|]. revert Hl2. apply lens_ext. intros i. cbn [values map snd length]. fold (values ns).
    rewrite chain_len_cons. destruct (decide (Z.of_nat i < n_index nd)); [rewrite decide_True by lia|rewrite decide_False by lia]; lia.
Qed.
End Count.

(** ** The Kraft sum *)

(** In units of [2 ^ -15] *)
Definition kraft (lengths : list Z) : Z := zsum (map (fun x => if x =? 0 then 0 else 2 ^ (15 - x)) lengths).

Lemma lookup_all (l : list Z) : l = map (fun s => default 0 (at_ l s)) (seqZ 0 (Z.of_nat (length l))).
Proof.
  apply list_eq. intros i. rewrite list_lookup_fmap. destruct (Nat.lt_ge_cases i (length l)) as [Hi|Hi].
  - assert (E : seqZ 0 (Z.of_nat (length l)) !! i = Some (Z.of_nat i)) by (apply lookup_seqZ; lia). rewrite E. cbn.
    unfold at_. rewrite (proj2 (Z.ltb_ge _ 0)), Nat2Z.id by lia. destruct (lookup_lt_is_Some_2 l i Hi) as [x Hx]. by rewrite Hx.
  - rewrite (lookup_ge_None_2 l) by lia. rewrite (lookup_ge_None_2 (seqZ _ _)); [done|]. rewrite length_seqZ. lia.
Qed.

(** A sum over the symbols is a sum over the leaves. *)
Lemma sum_leaves leaves N f lengths g :
  NoDup leaves.*2 -> (forall s, s ∈ leaves.*2 -> 0 <= s < Z.of_nat N) -> lens_are leaves N f lengths -> g 0 = 0 ->
  zsum (map g lengths) = zsum (map (fun i => g (f (Z.to_nat i))) (seqZ 0 (Z.of_nat (length leaves)))).
Proof.
  intros Hnd Hr [Hl Hleaf Hother] Hg. rewrite (lookup_all lengths), map_map, Hl.
  set (h := fun s => g (default 0 (at_ lengths s))).
  set (others := filter (fun s => s ∉ leaves.*2) (seqZ 0 (Z.of_nat N))).
  assert (Hp : seqZ 0 (Z.of_nat N) ≡ₚ leaves.*2 ++ others).
  { apply list.NoDup_Permutation; [apply NoDup_seqZ|apply list.NoDup_app; split; [done|]; split; [|apply list.NoDup_filter, NoDup_seqZ]|].
    - intros s Hs [Hn _]%list_elem_of_filter. done.
    - intros s. rewrite elem_of_app, elem_of_seqZ. unfold others. rewrite list_elem_of_filter, elem_of_seqZ.
      destruct (decide (s ∈ leaves.*2)) as [Hs|Hs]; [specialize (Hr s Hs); split; [by left|lia]|]. split; [right; split; [done|lia]|].
      intros [?|[_ ?]]; [done|lia]. }
  rewrite (zsum_perm _ (map h (leaves.*2 ++ others))) by (by apply Permutation_map). rewrite map_app, zsum_app.
  rewrite (zsum_ext h (fun _ => 0) others).
  2: { intros s [Hn Hs%elem_of_seqZ]%list_elem_of_filter. unfold h. rewrite Hother by (done || lia). done. }
  assert (Hz : forall l : list Z, zsum (map (fun _ => 0) l) = 0) by (unfold zsum; induction l; cbn [map foldr]; lia). rewrite Hz, Z.add_0_r.
  f_equal. apply list_eq. intros i. rewrite !list_lookup_fmap. destruct (leaves !! i) as [[w s]|] eqn:Hi.
  - pose proof (lookup_lt_Some _ _ _ Hi).
    assert (E : seqZ 0 (Z.of_nat (length leaves)) !! i = Some (Z.of_nat i)) by (apply lookup_seqZ; lia). rewrite E. cbn.
    unfold h. rewrite (Hleaf i w s Hi), Nat2Z.id. done.
  - apply lookup_ge_None in Hi. rewrite (lookup_ge_None_2 (seqZ _ _)); [done|]. rewrite length_seqZ. lia.
Qed.

(** ** Package merge *)

Section Package.
Context (L : nat) (HL : (0 < L <= 15)%nat).

Definition start_lists (leaves : list (Z * Z)) : BPMLists :=
  mkLists (<[1%nat := Some (mkNode (wt leaves 1) 2 None)]> (<[0%nat := Some (mkNode (wt leaves 0) 1 None)]> (replicate (2 * L * (L + 1)) None)))
    (seq 2 (2 * L * (L + 1) - 2)) (replicate L (Some 0%nat)) (replicate L (Some 1%nat)).

Lemma start_lists_ok leaves : lists_ok L (start_lists leaves) (start_levels leaves).
Proof.
  unfold start_lists. split; cbn [memory freelist chains0 chains1]; rewrite ?length_insert, ?length_replicate; try done.
  - split; [apply NoDup_seq|]. intros q Hq%elem_of_seq. lia.
  - intros c p. split; intros [-> _]%lookup_replicate_1; cbn [start_levels fst snd].
    + exists [(0%nat, mkNode (wt leaves 0) 1 None)]. split; [|split; [done|]].
      * cbn [rep n_tail]. split; [done|]. split; [|done]. rewrite list_lookup_insert_ne by done. apply list_lookup_insert_eq. rewrite length_replicate. lia.
      * intros q [->|[]%not_elem_of_nil]%elem_of_cons [? _]%elem_of_seq. cbn in *. lia.
    + exists [(1%nat, mkNode (wt leaves 1) 2 None)]. split; [|split; [done|]].
      * cbn [rep n_tail]. split; [done|]. split; [|done]. apply list_lookup_insert_eq. rewrite length_insert, length_replicate. lia.
      * intros q [->|[]%not_elem_of_nil]%elem_of_cons [? _]%elem_of_seq. cbn in *. lia.
  - intros c. cbn. lia.
Qed.

(** The sums of the weights fit in an [int]. *)
Definition fits (leaves : list (Z * Z)) : Prop :=
  let n := Z.of_nat (length leaves) in
  let top2 := wt leaves (n - 2) + wt leaves (n - 1) in
  (3 <= n -> top2 <= 2 ^ 18) /\ (3 < n -> top2 < 2 ^ 18).

Section Sorted.
Context (leaves : list (Z * Z)).
Let n := Z.of_nat (length leaves).
Context (Hsorted : forall i j, 0 <= i <= j -> j < n -> wt leaves i <= wt leaves j)
  (Hpos : forall i, 0 <= i < n -> 0 < wt leaves i) (Hfits : fits leaves).

Lemma pair_fits t X : 3 <= n -> 2 <= t < 2 * n - 2 -> Inv leaves (L - 1) t X ->
  match (L - 1)%nat with O => True | S c => pair_weight (X c) < 2 ^ 31 end.
Proof.
  intros Hn Ht HI. destruct (L - 1)%nat as [|c] eqn:EL; [done|]. destruct HI as (Hlv & _ & _ & _ & _ & _ & HI).
  apply Inv_top in HI as (_ & Hs & _). pose proof (lv_index _ _ _ Hlv) as [Hi1 Hi2]. destruct Hfits as [F1 F2]. fold n in F1, F2.
  destruct (Z.lt_ge_cases 3 n) as [H3|H3].
  - specialize (F2 H3). apply size_pair in Hs. fold n in Hs.
    pose proof (Z.pow_le_mono_r 2 (Z.of_nat c) 13 ltac:(lia) ltac:(lia)). pose proof (Z.pow_pos_nonneg 2 (Z.of_nat c) ltac:(lia) ltac:(lia)). nia.
  - destruct Hs as (_ & Hs & _). unfold pair_weight. fold n in Hs. specialize (Hs ltac:(lia)). specialize (F1 Hn). lia.
Qed.

Lemma package_loop_run k : forall i l X, 3 <= n -> 2 <= i -> i + Z.of_nat k = 2 * n - 2 -> lists_ok L l X -> Inv leaves (L - 1) i X ->
  exists l', package_loop k i (L - 1) l leaves = Some l' /\ lists_ok L l' (bpm_loop leaves k i (L - 1) X).
Proof.
  induction k as [|k IH]; intros i l X Hn Hi2 Hi Hl HI; cbn [package_loop bpm_loop]; [by exists l|].
  destruct (boundaryPM_run L ltac:(lia) leaves Hsorted Hpos Hn (L - 1) l X i i ltac:(lia) Hl HI) as (l1 & E1 & Hl1).
  - apply (pair_fits i X); [done|lia|done].
  - intros d Hd. destruct Hfits as [F1 _]. fold n in F1. specialize (F1 Hn). fold n.
    pose proof (Z.pow_le_mono_r 2 (Z.of_nat d) 12 ltac:(lia) ltac:(lia)). pose proof (Z.pow_pos_nonneg 2 (Z.of_nat d) ltac:(lia) ltac:(lia)). nia.
  - rewrite E1. cbn [mbind option_bind]. fold n in Hl1 |- *. destruct k as [|k]; [cbn [package_loop bpm_loop]; by exists l1|].
    apply IH; [done|lia|lia|done|]. rewrite (proj2 (Z.ltb_lt _ _)) by lia. by apply bpm_inv.
Qed.

(** The last chain *)
Lemma package_chain : 2 <= n <= 2 ^ Z.of_nat L ->
  exists l p ch, package_loop (2 * length leaves - 4) 2 (L - 1) (start_lists leaves) leaves = Some l
    /\ chains1 l !! (L - 1)%nat = Some p /\ chain_in (memory l) (freelist l) p ch /\ chain_ok leaves (L - 1) (2 * n - 2) ch
    /\ length (memory l) = (2 * L * (L + 1))%nat.
Proof.
  intros Hn.
  assert (G : exists l X, package_loop (2 * length leaves - 4) 2 (L - 1) (start_lists leaves) leaves = Some l
    /\ lists_ok L l X /\ chain_ok leaves (L - 1) (2 * n - 2) (snd (X (L - 1)%nat))).
  { destruct (decide (n = 2)) as [E|E].
    - replace (2 * length leaves - 4)%nat with 0%nat by lia. exists (start_lists leaves), (start_levels leaves).
      split; [done|]. split; [apply start_lists_ok|]. cbn [start_levels snd]. apply chain_ok_cons. fold n. lia.
    - destruct (package_loop_run (2 * length leaves - 4) 2 (start_lists leaves) (start_levels leaves)) as (l & E1 & Hl);
        [lia|lia|lia|apply start_lists_ok|by apply start_inv; [| |lia]|].
      exists l, (bpm_loop leaves (2 * length leaves - 4) 2 (L - 1) (start_levels leaves)). split; [done|]. split; [done|].
      apply bpm_loop_chain; [done|done|fold n; lia|fold n; lia| |by apply start_inv; [| |fold n; lia]].
      pose proof (items_enough leaves 1 (L - 1)) as He. fold n in He. change (2 ^ Z.of_nat 1) with 2 in He. apply He.
      replace (1 + (L - 1))%nat with L by lia. apply Hn. }
  destruct G as (l & X & E & Hl & Hc). destruct (lookup_lt_is_Some_2 (chains1 l) (L - 1)) as [p Hp]; [rewrite (lo_len1 _ _ _ Hl); lia|].
  exists l, p, (snd (X (L - 1)%nat)). split; [done|]. split; [done|]. split; [by apply (lo_chains _ _ _ Hl)|]. split; [done|]. apply (lo_memory _ _ _ Hl).
Qed.

End Sorted.
End Package.

(** ** The lengths *)

(** Lengths of at most [L] bits for the frequencies [fs]: no symbol that occurs is left
    out, and the code is complete. *)
Record code_lengths_ok (fs : list Z) (L : nat) (lengths : list Z) : Prop := {
  cl_length : length lengths = length fs;
  cl_range : Forall (fun x => 0 <= x <= Z.of_nat L) lengths;
  cl_kraft : kraft lengths = 2 ^ 15;
  cl_used : forall s f, fs !! s = Some f -> 0 < f -> exists x, lengths !! s = Some x /\ 0 < x
}.

Lemma at_of_nat {X} (l : list X) i : at_ l (Z.of_nat i) = l !! i.
Proof. unfold at_. by rewrite (proj2 (Z.ltb_ge _ 0)), Nat2Z.id by lia. Qed.

Lemma lens_code_ok fs L leaves f lengths :
  NoDup leaves.*2 -> (forall s, s ∈ leaves.*2 -> 0 <= s < Z.of_nat (length fs)) -> lens_are leaves (length fs) f lengths ->
  (forall i, (i < length leaves)%nat -> 1 <= f i <= Z.of_nat L) ->
  (forall s x, fs !! s = Some x -> 0 < x -> Z.of_nat s ∈ leaves.*2) ->
  zsum (map (fun i => 2 ^ (15 - f (Z.to_nat i))) (seqZ 0 (Z.of_nat (length leaves)))) = 2 ^ 15 -> code_lengths_ok fs L lengths.
Proof.
  intros Hnd Hr Hla Hf Hused Hk. pose proof Hla as [Hl Hleaf Hother].
  assert (Hget : forall s, 0 <= s < Z.of_nat (length fs) -> (s ∈ leaves.*2 /\ exists x, at_ lengths s = Some x /\ 1 <= x <= Z.of_nat L) \/ at_ lengths s = Some 0).
  { intros s Hs. destruct (decide (s ∈ leaves.*2)) as [Hin|Hout]; [left; split; [done|]|right; by apply Hother].
    apply list_elem_of_fmap in Hin as ([w s'] & -> & Hin). apply list_elem_of_lookup in Hin as (i & Hi).
    exists (f i). split; [by apply (Hleaf i w)|]. apply Hf. by apply lookup_lt_Some in Hi. }
  split; [done| | |].
  - apply list.Forall_lookup. intros s x Hx. pose proof (lookup_lt_Some _ _ _ Hx).
    destruct (Hget (Z.of_nat s) ltac:(lia)) as [(_ & y & Hy & Hy')|Hy]; rewrite at_of_nat, Hx in Hy; injection Hy as Ey; lia.
  - unfold kraft. rewrite (sum_leaves leaves (length fs) f); [|done|done|done|done]. rewrite <- Hk. apply zsum_ext.
    intros i Hi%elem_of_seqZ. specialize (Hf (Z.to_nat i) ltac:(lia)). by rewrite (proj2 (Z.eqb_neq _ 0)) by lia.
  - intros s x Hx Hpos. pose proof (lookup_lt_Some _ _ _ Hx). specialize (Hused s x Hx Hpos).
    destruct (decide (Z.of_nat s ∈ leaves.*2)) as [Hin|]; [|done]. apply list_elem_of_fmap in Hin as ([w s'] & E & Hin).
    apply list_elem_of_lookup in Hin as (i & Hi). cbn [snd] in E. subst s'. exists (f i). rewrite <- at_of_nat. split; [by apply (Hleaf i w)|].
    specialize (Hf i ltac:(by apply lookup_lt_Some in Hi)). lia.
Qed.

(** The symbols that occur *)
Lemma present_spec fs : forall i, 0 <= i -> Forall (fun x => 0 <= x) fs ->
  NoDup (present i fs).*2 /\ (forall w s, (w, s) ∈ present i fs <-> exists k, s = i + Z.of_nat k /\ fs !! k = Some w /\ 0 < w)
  /\ zsum (map fst (present i fs)) = zsum fs.
Proof.
  induction fs as [|f fs IH]; intros i Hi Hall; cbn [present].
  - split; [constructor|]. split; [|done]. intros w s. split; [by intros []%not_elem_of_nil|by intros (k & _ & Hk & _)].
  - apply list.Forall_cons in Hall as [Hf Hall]. destruct (IH (i + 1) ltac:(lia) Hall) as (H1 & H2 & H3).
    assert (Hsucc : forall w s, (w, s) ∈ present (i + 1) fs <-> exists k, s = i + Z.of_nat (S k) /\ fs !! k = Some w /\ 0 < w).
    { intros w s. rewrite H2. split; intros (k & -> & Hk); exists k; (split; [lia|done]). }
    destruct (Z.ltb_spec 0 f).
    + split; [|split].
      * rewrite fmap_cons. apply list.NoDup_cons. split; [|done]. intros ([w s] & E & Hin)%list_elem_of_fmap. cbn in E. subst s.
        apply Hsucc in Hin as (k & Hk & _). lia.
      * intros w s. rewrite elem_of_cons, Hsucc. split.
        -- intros [[= -> ->]|(k & -> & Hk)]; [exists 0%nat; split; [lia|done]|exists (S k); done].
        -- intros ([|k] & -> & Hk & Hw); cbn in Hk; [left; injection Hk as ->; f_equal; lia|right; by exists k].
      * cbn [map fst]. unfold zsum in *. cbn [foldr]. lia.
    + split; [done|]. split.
      * intros w s. rewrite Hsucc. split; [intros (k & -> & Hk); exists (S k); done|].
        intros ([|k] & -> & Hk & Hw); cbn in Hk; [injection Hk as ->; lia|by exists k].
      * rewrite H3. unfold zsum. cbn [foldr]. lia.
Qed.

Lemma wt_nth (leaves : list (Z * Z)) i x : leaves !! i = Some x -> wt leaves (Z.of_nat i) = fst x.
Proof. intros H. unfold wt. by rewrite at_of_nat, H. Qed.

(** The two heaviest leaves leave room for the others. *)
Lemma fits_sum leaves : Forall (fun x => 0 < fst x) leaves -> zsum (map fst leaves) <= 2 ^ 18 + 1 -> fits leaves.
Proof.
  intros Hpos Hsum. unfold fits. set (n := Z.of_nat (length leaves)).
  assert (G : 2 <= n -> n - 2 + (wt leaves (n - 2) + wt leaves (n - 1)) <= zsum (map fst leaves)).
  { intros Hn. destruct (lookup_lt_is_Some_2 leaves (length leaves - 2) ltac:(lia)) as [x Hx].
    destruct (lookup_lt_is_Some_2 leaves (length leaves - 1) ltac:(lia)) as [y Hy].
    replace (n - 2) with (Z.of_nat (length leaves - 2)) by lia. replace (n - 1) with (Z.of_nat (length leaves - 1)) by lia.
    rewrite (wt_nth _ _ _ Hx), (wt_nth _ _ _ Hy).
    assert (E : leaves = take (length leaves - 2) leaves ++ [x; y]).
    { rewrite <- (take_drop_middle _ _ _ Hx) at 1. replace (S (length leaves - 2)) with (length leaves - 1)%nat by lia.
      by rewrite (drop_S _ _ _ Hy), drop_ge by lia. }
    apply (f_equal (fun l => zsum (map fst l))) in E. rewrite map_app, zsum_app in E. rewrite E.
    assert (Hge : forall l : list (Z * Z), Forall (fun x => 0 < fst x) l -> Z.of_nat (length l) <= zsum (map fst l)).
    { unfold zsum. induction 1; cbn [map foldr length]; lia. }
    pose proof (Hge (take (length leaves - 2) leaves) ltac:(by apply Forall_take)) as Ht. rewrite length_take in Ht.
    unfold zsum in *. cbn [map foldr]. lia. }
  split; intros; lia.
Qed.

Lemma sorted_weights leaves : Sorted lighter leaves ->
  forall i j, 0 <= i <= j -> j < Z.of_nat (length leaves) -> wt leaves i <= wt leaves j.
Proof.
  intros Hs%(Sorted_StronglySorted lighter) i j Hij Hj.
  destruct (lookup_lt_is_Some_2 leaves (Z.to_nat i) ltac:(lia)) as [x Hx]. destruct (lookup_lt_is_Some_2 leaves (Z.to_nat j) ltac:(lia)) as [y Hy].
  rewrite <- (Z2Nat.id i), <- (Z2Nat.id j), (wt_nth _ _ _ Hx), (wt_nth _ _ _ Hy) by lia.
  destruct (decide (i = j)) as [->|Hne]; [rewrite Hx in Hy; injection Hy as ->; lia|].
  rewrite <- (take_drop_middle _ _ _ Hx) in Hs. apply StronglySorted_app_1_r in Hs. apply StronglySorted_cons in Hs as [Hall _].
  rewrite list.Forall_forall in Hall. apply (Hall y). apply list_elem_of_lookup. exists (Z.to_nat j - S (Z.to_nat i))%nat.
  rewrite lookup_drop. rewrite <- Hy. f_equal. lia.
Qed.

(** The first two nodes of the pool *)
Lemma first_nodes L leaves l0 l1 : (0 < L)%nat -> leaves !! 0%nat = Some l0 -> leaves !! 1%nat = Some l1 ->
  let memsize := (2 * L * (L + 1))%nat in
  exists l, bpmnode_create (mkLists (replicate memsize None) (seq 0 memsize) [] []) (fst l0) 1 None = Some (0%nat, l)
    /\ exists l', bpmnode_create l (fst l1) 2 None = Some (1%nat, l')
    /\ mkLists (memory l') (freelist l') (replicate L (Some 0%nat)) (replicate L (Some 1%nat)) = start_lists L leaves.
Proof.
  intros HL H0 H1. cbn zeta. unfold start_lists.
  rewrite (wt_nth leaves 0 l0 H0 : wt leaves 0 = _), (wt_nth leaves 1 l1 H1 : wt leaves 1 = _).
  assert (exists k, (2 * L * (L + 1))%nat = S (S k)) as [k ->] by (exists (2 * L * (L + 1) - 2)%nat; nia).
  unfold bpmnode_create at 1. cbn [freelist memory seq mbind option_bind]. unfold store_at.
  rewrite length_replicate. cbn [Nat.ltb Nat.leb mbind option_bind]. eexists. split; [done|].
  unfold bpmnode_create at 1. cbn [freelist memory chains0 chains1 seq mbind option_bind].
  unfold store_at. rewrite length_insert, length_replicate. cbn [Nat.ltb Nat.leb mbind option_bind]. eexists. split; [done|].
  cbn [freelist memory chains0 chains1]. by replace (S (S k) - 2)%nat with k by lia.
Qed.

(** A complete code with at least two words has no empty word. *)
Lemma kraft_positive n D (f : Z -> nat) : 2 <= n -> zsum (map (fun i => 2 ^ Z.of_nat (D - f i)) (seqZ 0 n)) = 2 ^ Z.of_nat D ->
  forall i, 0 <= i < n -> (1 <= f i)%nat.
Proof.
  intros Hn Hk i Hi. destruct (f i) eqn:E; [exfalso|lia].
  assert (Hpos : forall l : list Z, Z.of_nat (length l) <= zsum (map (fun i => 2 ^ Z.of_nat (D - f i)) l)).
  { unfold zsum. induction l as [|x l IH]; cbn [map foldr length]; [lia|].
    pose proof (Z.pow_pos_nonneg 2 (Z.of_nat (D - f x)) ltac:(lia) ltac:(lia)). lia. }
  assert (Hsp : seqZ 0 n = seqZ 0 i ++ [i] ++ seqZ (i + 1) (n - i - 1)).
  { rewrite (seqZ_split i n) by lia. f_equal. rewrite seqZ_cons by lia. cbn. do 2 f_equal; lia. }
  rewrite Hsp, !map_app, !zsum_app in Hk. pose proof (Hpos (seqZ 0 i)) as P1. pose proof (Hpos (seqZ (i + 1) (n - i - 1))) as P2.
  rewrite length_seqZ in P1, P2. unfold zsum in Hk at 2. cbn [map foldr] in Hk. rewrite E, Nat.sub_0_r in Hk. lia.
Qed.

(** The leaves are the symbols that occur, in some order. *)
Record leaf_set (fs : list Z) (leaves : list (Z * Z)) : Prop := {
  ls_nodup : NoDup leaves.*2;
  ls_elem : forall w s, (w, s) ∈ leaves <-> exists k, s = Z.of_nat k /\ fs !! k = Some w /\ 0 < w;
  ls_sum : zsum (map fst leaves) = zsum fs
}.

Lemma present_leaf_set fs leaves : Forall (fun x => 0 <= x) fs -> leaves ≡ₚ present 0 fs -> leaf_set fs leaves.
Proof.
  intros Hall Hperm. destruct (present_spec fs 0 ltac:(lia) Hall) as (Hnd & Hin & Hs). split.
  - by rewrite Hperm.
  - intros w s. by rewrite Hperm, Hin.
  - rewrite <- Hs. apply zsum_perm. by apply Permutation_map.
Qed.

Lemma leaf_range fs leaves s : leaf_set fs leaves -> s ∈ leaves.*2 -> 0 <= s < Z.of_nat (length fs).
Proof. intros [_ H _] ([w s'] & -> & (k & -> & Hk%lookup_lt_Some & _)%H)%list_elem_of_fmap. cbn. lia. Qed.

Lemma leaf_count fs leaves : leaf_set fs leaves -> (length leaves <= length fs)%nat.
Proof.
  intros H. pose proof (NoDup_submseteq leaves.*2 (seqZ 0 (Z.of_nat (length fs))) (ls_nodup _ _ H)) as Hsub.
  assert (Hi : leaves.*2 ⊆ seqZ 0 (Z.of_nat (length fs))) by (intros s Hs%(leaf_range fs _ _ H); apply elem_of_seqZ; lia).
  specialize (Hsub Hi). apply submseteq_length in Hsub. rewrite length_fmap, length_seqZ in Hsub. lia.
Qed.

Lemma leaf_positive fs leaves : leaf_set fs leaves -> Forall (fun x => 0 < fst x) leaves.
Proof. intros [_ H _]. apply list.Forall_forall. intros [w s] (k & _ & _ & Hw)%H. done. Qed.

Lemma wt_positive leaves i : Forall (fun x => 0 < fst x) leaves -> 0 <= i < Z.of_nat (length leaves) -> 0 < wt leaves i.
Proof.
  intros Hpos Hi. destruct (lookup_lt_is_Some_2 leaves (Z.to_nat i) ltac:(lia)) as [x Hx].
  rewrite <- (Z2Nat.id i), (wt_nth _ _ _ Hx) by lia. rewrite list.Forall_forall in Hpos. apply Hpos. by apply list_elem_of_lookup_2 in Hx.
Qed.

Lemma no_lens fs leaves : leaf_set fs leaves -> lens_are leaves (length fs) (fun _ => 0) (replicate (length fs) 0).
Proof.
  intros H. assert (G : forall s, 0 <= s < Z.of_nat (length fs) -> at_ (replicate (length fs) 0) s = Some 0).
  { intros s Hs. unfold at_. rewrite (proj2 (Z.ltb_ge _ 0)) by lia. apply lookup_replicate_2. lia. }
  split; [apply length_replicate| |intros; by apply G]. intros i w s Hi. apply G, (leaf_range fs leaves); [done|].
  apply list_elem_of_fmap. exists (w, s). split; [done|]. by apply list_elem_of_lookup_2 in Hi.
Qed.

(** The lengths of the last chain *)
Lemma chain_code_ok fs leaves L ch lengths : (0 < L <= 15)%nat -> leaf_set fs leaves -> (2 <= length leaves)%nat ->
  chain_ok leaves (L - 1) (2 * Z.of_nat (length leaves) - 2) ch ->
  lens_are leaves (length fs) (fun i => 0 + Z.of_nat (chain_len ch (Z.of_nat i))) lengths -> code_lengths_ok fs L lengths.
Proof.
  intros HL Hls Hn Hc Hla. pose proof (chain_ok_length _ _ _ _ Hc) as Hcl.
  pose proof (chain_kraft leaves ch (L - 1) _ 15 Hc ltac:(lia)) as Hk. cbn zeta in Hk. unfold kraft_terms in Hk.
  apply (lens_code_ok fs L leaves _ lengths (ls_nodup _ _ Hls) (fun s => leaf_range fs leaves s Hls) Hla).
  - intros i Hi. pose proof (kraft_positive (Z.of_nat (length leaves)) 15 (chain_len ch) ltac:(lia) ltac:(lia) (Z.of_nat i) ltac:(lia)).
    pose proof (chain_len_le ch (Z.of_nat i)). lia.
  - intros s x Hx Hpos. apply list_elem_of_fmap. exists (x, Z.of_nat s). split; [done|]. apply (ls_elem _ _ Hls). by exists s.
  - transitivity (zsum (map (fun i => 2 ^ Z.of_nat (15 - chain_len ch i)) (seqZ 0 (Z.of_nat (length leaves))))); [|lia].
    apply zsum_ext. intros i Hi%elem_of_seqZ. rewrite Z2Nat.id by lia. pose proof (chain_len_le ch i). f_equal. lia.
Qed.

Lemma package_lengths_ok fs L : (0 < L <= 15)%nat -> Forall (fun x => 0 <= x) fs -> zsum fs <= 2 ^ 18 + 1 ->
  (2 <= length (present 0 fs))%nat -> Z.of_nat (length fs) <= 2 ^ Z.of_nat L ->
  exists lengths, package_lengths (present 0 fs) L (replicate (length fs) 0) = Some lengths /\ code_lengths_ok fs L lengths.
Proof.
  intros HL Hall Hsum Hn Hfs. unfold package_lengths.
  destruct (bpmnode_sort_ok (present 0 fs)) as (leaves & -> & Hperm & Hsorted). cbn [mbind option_bind].
  pose proof (present_leaf_set fs leaves Hall Hperm) as Hls. pose proof (leaf_positive _ _ Hls) as Hpos. pose proof (leaf_count _ _ Hls).
  assert (Hlen : length leaves = length (present 0 fs)) by (by rewrite Hperm).
  destruct (lookup_lt_is_Some_2 leaves 0 ltac:(lia)) as [l0 H0]. destruct (lookup_lt_is_Some_2 leaves 1 ltac:(lia)) as [l1 H1].
  rewrite H0. cbn [mbind option_bind]. rewrite H1. cbn [mbind option_bind].
  destruct (first_nodes L leaves l0 l1 ltac:(lia) H0 H1) as (m0 & -> & m1 & E1 & Estart). cbn [mbind option_bind]. rewrite E1.
  cbn [mbind option_bind]. rewrite Estart.
  destruct (package_chain L HL leaves (sorted_weights leaves Hsorted) (fun i => wt_positive leaves i Hpos))
    as (l & p & ch & El & Hp & (ns & Hr & Hv & _) & Hc & Hm); [apply fits_sum; [done|by rewrite (ls_sum _ _ Hls)]|lia|].
  rewrite El. cbn [mbind option_bind]. rewrite Hp. cbn [mbind option_bind].
  pose proof (chain_ok_length _ _ _ _ Hc) as Hcl. rewrite <- Hv, length_values in Hcl.
  destruct (count_chain_run leaves (length fs) (ls_nodup _ _ Hls) (fun s => leaf_range fs leaves s Hls) (memory l) ns (length (memory l)) p
    (fun _ => 0) (replicate (length fs) 0)) as (lengths & Ec & Hla);
    [done|rewrite Hm; nia|rewrite Hv; by apply (chain_indices leaves _ _ _ Hc)|by apply no_lens|].
  exists lengths. split; [done|]. rewrite Hv in Hla. apply (chain_code_ok fs leaves L ch); [done|done|lia|done|done].
Qed.

(** Two symbols with words of one bit, when fewer than two occur *)
Lemma two_words_ok fs L a b : (0 < L)%nat -> 0 <= a < Z.of_nat (length fs) -> 0 <= b < Z.of_nat (length fs) -> a <> b ->
  (forall s x, fs !! s = Some x -> 0 < x -> Z.of_nat s = a \/ Z.of_nat s = b) ->
  exists l1 l2, put_at (replicate (length fs) 0) a 1 = Some l1 /\ put_at l1 b 1 = Some l2 /\ code_lengths_ok fs L l2.
Proof.
  intros HL Ha Hb Hab Hu. rewrite put_at_ok by (rewrite length_replicate; lia). eexists _, _. split; [done|].
  split; [apply put_at_ok; rewrite length_insert, length_replicate; lia|].
  apply (lens_code_ok fs L [(1, a); (1, b)] (fun _ => 1)).
  - cbn. apply list.NoDup_cons. split; [set_solver|]. apply NoDup_singleton.
  - intros s. cbn. intros [->|[->|[]%not_elem_of_nil]%elem_of_cons]%elem_of_cons; lia.
  - split; [by rewrite !length_insert, length_replicate| |].
    + intros [|[|i]] w s [= <- <-]; rewrite at_insert by (rewrite length_insert, length_replicate; lia); [rewrite decide_False by done|by rewrite decide_True].
      rewrite at_insert by (rewrite length_replicate; lia). by rewrite decide_True.
    + intros s Hs Hout. cbn in Hout. apply not_elem_of_cons in Hout as [? [? _]%not_elem_of_cons].
      rewrite at_insert by (rewrite length_insert, length_replicate; lia). rewrite decide_False by done.
      rewrite at_insert by (rewrite length_replicate; lia). rewrite decide_False by done.
      unfold at_. rewrite (proj2 (Z.ltb_ge _ 0)) by lia. apply lookup_replicate_2. lia.
  - intros; lia.
  - intros s x Hx Hp. cbn. destruct (Hu s x Hx Hp) as [->| ->]; set_solver.
  - reflexivity.
Qed.

(** [lodepng_huffman_code_lengths] finds a complete code for every list of frequencies
    of at least two symbols with a sum of at most 2^18 + 1, which is what a block has. *)
Lemma code_lengths_total fs L : (0 < L <= 15)%nat -> Forall (fun x => 0 <= x) fs -> zsum fs <= 2 ^ 18 + 1 ->
  2 <= Z.of_nat (length fs) <= 2 ^ Z.of_nat L ->
  exists lengths, lodepng_huffman_code_lengths fs L = Some (inr lengths) /\ code_lengths_ok fs L lengths.
Proof.
  intros HL Hall Hsum Hlen. unfold lodepng_huffman_code_lengths. rewrite (proj2 (Z.eqb_neq _ 0)), (proj2 (Z.ltb_ge _ _)) by lia.
  destruct (present_spec fs 0 ltac:(lia) Hall) as (_ & Hin & _).
  assert (Hu : forall s x, fs !! s = Some x -> 0 < x -> (x, Z.of_nat s) ∈ present 0 fs) by (intros s x Hx Hp; apply Hin; by exists s).
  pose proof (package_lengths_ok fs L HL Hall Hsum) as Hpk.
  destruct (present 0 fs) as [|[w s] [|y rest]] eqn:E.
  - destruct (two_words_ok fs L 1 0 ltac:(lia) ltac:(lia) ltac:(lia) ltac:(lia)) as (l1 & l2 & -> & E2 & Hok);
      [intros s x Hx Hp; by destruct (not_elem_of_nil _ (Hu s x Hx Hp))|].
    cbn [mbind option_bind]. rewrite E2. cbn [mbind option_bind]. by exists l2.
  - destruct (proj1 (Hin w s)) as (k & -> & Hk%lookup_lt_Some & _); [apply list_elem_of_singleton; done|].
    destruct (two_words_ok fs L (0 + Z.of_nat k) (if 0 + Z.of_nat k =? 0 then 1 else 0)) as (l1 & l2 & -> & E2 & Hok);
      [lia|lia|destruct (Z.eqb_spec (0 + Z.of_nat k) 0); lia|destruct (Z.eqb_spec (0 + Z.of_nat k) 0); lia| |].
    { intros s x Hx Hp. left. specialize (Hu s x Hx Hp). apply list_elem_of_singleton in Hu. congruence. }
    cbn [mbind option_bind]. rewrite E2. cbn [mbind option_bind]. by exists l2.
  - destruct (Hpk ltac:(cbn; lia) ltac:(lia)) as (lengths & El & Hok). rewrite El. by exists lengths.
Qed.

(** C19: for every list of at least two frequencies that sum up to at most 2^18 + 1, which
    is what a block has, and every limit that leaves room for the symbols, the boundary
    package-merge algorithm with its pool of nodes and garbage collection terminates
    without reading outside an array or overflowing an int.  The lengths are those of a
    complete prefix code: none exceeds the limit, the Kraft sum is exactly one, and every
    symbol that occurs has a word. *)
Theorem huffman_lengths_complete frequencies maxbitlen :
  (0 < maxbitlen <= 15)%nat -> Forall (fun x => 0 <= x) frequencies -> zsum frequencies <= 2 ^ 18 + 1 ->
  2 <= Z.of_nat (length frequencies) <= 2 ^ Z.of_nat maxbitlen ->
  exists lengths, lodepng_huffman_code_lengths frequencies maxbitlen = Some (inr lengths)
    /\ length lengths = length frequencies /\ Forall (fun x => 0 <= x <= Z.of_nat maxbitlen) lengths /\ kraft lengths = 2 ^ 15
    /\ forall s f, frequencies !! s = Some f -> 0 < f -> exists x, lengths !! s = Some x /\ 0 < x.
Proof. intros HL Hall Hsum Hlen. destruct (code_lengths_total _ _ HL Hall Hsum Hlen) as (lengths & E & []). by exists lengths. Qed.

Lemma huffman_lengths_complete_witness :
  exists lengths, lodepng_huffman_code_lengths [5; 9; 0; 12; 13; 16; 45] 3 = Some (inr lengths)
    /\ length lengths = 7%nat /\ Forall (fun x => 0 <= x <= 3) lengths /\ kraft lengths = 2 ^ 15
    /\ forall s f, [5; 9; 0; 12; 13; 16; 45] !! s = Some f -> 0 < f -> exists x, lengths !! s = Some x /\ 0 < x.
Proof.
  apply (huffman_lengths_complete [5; 9; 0; 12; 13; 16; 45] 3); [lia|repeat constructor; lia|vm_compute; discriminate|cbn; lia].
Defined.
