(* ===== verification/CodeTable.v ===== *)
(** The canonical code of complete lengths (RFC 1951, 3.2.2), and what the encoder makes of it.

    Lengths with a Kraft sum of one ([complete]) give a code in which every bit string
    starts with exactly one code word ([words_cover], [words_differ]).  On such lengths
    [HuffmanTree_makeFromLengths2] assigns the canonical code words, although it
    counts the symbols without a code too, and [HuffmanTree_makeTable], which refuses
    codes that are not complete, builds its table without an error. *)
From S2P Require Import Prelude Checksum BitReader Huffman Canonical Deflate LodeLz77 LodeHuff PackageMerge PackagePool CodeLengths LodeTree.

Definition complete (L : list Z) : Prop := Forall (fun x => 0 <= x <= 15) L /\ kraft L = 2 ^ 15.

(** ** Complete codes *)

Section Complete.
Context (L : list Z) (HL : complete L).

(** What the codes shorter than [l] take, in units of [2 ^ -15] *)
Fixpoint below (l : nat) : Z := match l with O => 0 | S l => below l + Z.of_nat (cnt L l) * 2 ^ (15 - Z.of_nat l) end.

Lemma below_first l : (l <= 15)%nat -> 2 ^ (15 - Z.of_nat l) * first_code L l = below l.
Proof.
  induction l as [|l IH]; intros Hl; [done|]. cbn [first_code below]. rewrite <- IH by lia.
  replace (15 - Z.of_nat l) with (Z.succ (15 - Z.of_nat (S l))) by lia. rewrite Z.pow_succ_r by lia. lia.
Qed.

Lemma below_mono l l' : (l <= l')%nat -> below l <= below l'.
Proof.
  induction 1 as [|l' _ IH]; [done|]. cbn [below].
  pose proof (Z.pow_nonneg 2 (15 - Z.of_nat l') ltac:(lia)). nia.
Qed.

Definition kraft_count (n : nat) : Z := zsum (map (fun j => Z.of_nat (length (syms L n j)) * 2 ^ (15 - Z.of_nat j)) (seq 1 15)).

Lemma kraft_count_S n x : L !! n = Some x -> kraft_count (S n) = kraft_count n + if x =? 0 then 0 else 2 ^ (15 - x).
Proof.
  intros Hx. unfold kraft_count.
  rewrite (zsum_ext _ (fun j => Z.of_nat (length (syms L n j)) * 2 ^ (15 - Z.of_nat j) + (if x =? Z.of_nat j then 2 ^ (15 - Z.of_nat j) else 0))).
  2: { intros j _. rewrite syms_S, Hx, length_app. destruct (Z.eqb_spec x (Z.of_nat j)) as [->|Hne].
       - rewrite decide_True by done. cbn [length]. lia.
       - rewrite decide_False by congruence. cbn [length]. lia. }
  rewrite zsum_plus. f_equal.
  destruct HL as [Hr _]. rewrite list.Forall_lookup in Hr. specialize (Hr n x Hx).
  assert (Hc : In x [0; 1; 2; 3; 4; 5; 6; 7; 8; 9; 10; 11; 12; 13; 14; 15]) by (cbn; lia).
  repeat (destruct Hc as [<-|Hc]; [reflexivity|]). done.
Qed.

Lemma kraft_count_take n : (n <= length L)%nat -> kraft_count n = kraft (take n L).
Proof.
  induction n as [|n IH]; intros Hn; [done|]. destruct (lookup_lt_is_Some_2 L n ltac:(lia)) as [x Hx].
  rewrite (kraft_count_S n x Hx), IH by lia. unfold kraft. rewrite (take_S_r _ _ _ Hx), map_app, zsum_app. cbn [map]. unfold zsum. cbn [foldr]. lia.
Qed.

Lemma below_16 : below 16 = 2 ^ 15.
Proof.
  destruct HL as [_ <-]. pose proof (kraft_count_take (length L) ltac:(done)) as E. rewrite take_ge in E by done. rewrite <- E.
  unfold kraft_count, zsum. cbn [below map seq foldr]. change (cnt L 0) with 0%nat. unfold cnt. cbv beta iota. lia.
Qed.

Lemma complete_enough_of : complete_enough L.
Proof.
  intros l Hl. pose proof (below_first l ltac:(lia)) as E. pose proof (below_mono (S l) 16 ltac:(lia)) as Hm. rewrite below_16 in Hm.
  cbn [below] in Hm. rewrite <- E in Hm. replace (2 ^ 15) with (2 ^ (15 - Z.of_nat l) * 2 ^ Z.of_nat l) in Hm by (rewrite <- Z.pow_add_r by lia; f_equal; lia).
  pose proof (Z.pow_pos_nonneg 2 (15 - Z.of_nat l) ltac:(lia) ltac:(lia)). nia.
Qed.

(** Symbol [s] has a code word of [l] bits, [word s l]. *)
Definition symbol (s l : nat) : Prop := L !! s = Some (Z.of_nat l) /\ (1 <= l <= 15)%nat.
Definition word (s l : nat) : Z := code_word L l (length (syms L s l)).

Lemma symbol_rank s l : symbol s l -> syms L (length L) l !! length (syms L s l) = Some s /\ (length (syms L s l) < cnt L l)%nat.
Proof.
  intros [Hs Hl]. pose proof (syms_rank L (length L) s l (lookup_lt_Some _ _ _ Hs) Hs) as Hr. split; [done|].
  apply lookup_lt_Some in Hr. destruct l; [lia|]. done.
Qed.

Lemma word_range s l : symbol s l -> 0 <= word s l < 2 ^ Z.of_nat l.
Proof.
  intros Hs. pose proof (symbol_rank s l Hs) as [_ Hr]. pose proof (complete_enough_of l (proj2 Hs)).
  unfold word, code_word. pose proof (first_code_nonneg L l). lia.
Qed.

(** A bit string starts with at most one code word. *)
Lemma words_differ s l s' l' w : symbol s l -> symbol s' l' -> hits l (word s l) w -> hits l' (word s' l') w -> s = s'.
Proof.
  intros Hs Hs' H H'. pose proof (symbol_rank s l Hs) as [Hk Hr]. pose proof (symbol_rank s' l' Hs') as [Hk' Hr'].
  pose proof (word_range s l Hs) as [_ Hw]. pose proof (word_range s' l' Hs') as [_ Hw'].
  destruct (Nat.lt_trichotomy (start L l + length (syms L s l)) (start L l' + length (syms L s' l'))) as [Hlt|[Heq|Hlt]].
  - exfalso. eapply (hits_unique L l' _ l _ w); [apply Hs'|exact Hr'|split; [apply Hs|by split]|exact Hw'|exact Hw|exact H'|exact H].
  - assert (l = l') as <- by (apply (position_length L l l' (start L l + length (syms L s l))); lia).
    replace (length (syms L s' l)) with (length (syms L s l)) in Hk' by lia. congruence.
  - exfalso. eapply (hits_unique L l _ l' _ w); [apply Hs|exact Hr|split; [apply Hs'|by split]|exact Hw|exact Hw'|exact H|exact H'].
Qed.

Lemma spelled_prefix k l w : spelled (k + l) w / 2 ^ Z.of_nat k = spelled l w.
Proof.
  apply (hits_prefix k l _ _ w); [apply spelled_range|apply spelled_range|apply spelled_hits|apply spelled_hits].
Qed.

Lemma between v k : 0 <= v < below k -> exists l, (l < k)%nat /\ below l <= v < below (S l).
Proof.
  induction k as [|k IH]; intros Hv; [cbn in Hv; lia|]. destruct (Z.lt_ge_cases v (below k)) as [Hlt|Hge].
  - destruct (IH ltac:(lia)) as (l & Hl & Hb). exists l. split; [lia|done].
  - exists k. split; [lia|lia].
Qed.

(** The code word of the interval that contains [v] *)
Lemma slot_of v : 0 <= v < 2 ^ 15 ->
  exists l r, (1 <= l <= 15)%nat /\ (r < cnt L l)%nat /\ code_word L l r = v / 2 ^ Z.of_nat (15 - l).
Proof.
  rewrite <- below_16. intros Hv. destruct (between v 16 Hv) as (l & Hl & Hb).
  assert (Hl1 : (1 <= l)%nat) by (destruct l; [cbn in Hb; lia|lia]). cbn [below] in Hb. pose proof (below_first l ltac:(lia)) as Ef.
  pose proof (Z.pow_pos_nonneg 2 (15 - Z.of_nat l) ltac:(lia) ltac:(lia)) as Hp.
  exists l, (Z.to_nat ((v - below l) / 2 ^ (15 - Z.of_nat l))). replace (Z.of_nat (15 - l)) with (15 - Z.of_nat l) by lia.
  set (u := 2 ^ (15 - Z.of_nat l)) in *. clearbody u.
  assert (Hr : 0 <= (v - below l) / u < Z.of_nat (cnt L l)).
  { split; [apply Z.div_pos; lia|]. apply Z.div_lt_upper_bound; lia. }
  split; [lia|]. split; [lia|]. unfold code_word. rewrite Z2Nat.id by lia.
  replace v with (first_code L l * u + (v - below l)) at 2 by lia. by rewrite Z.div_add_l by lia.
Qed.

Lemma rank_symbol l r : (1 <= l <= 15)%nat -> (r < cnt L l)%nat -> exists s, symbol s l /\ length (syms L s l) = r.
Proof.
  intros Hl Hr. assert (Hc : (r < length (syms L (length L) l))%nat) by (destruct l; [lia|done]).
  destruct (lookup_lt_is_Some_2 _ _ Hc) as [s Hs].
  assert (HLs : L !! s = Some (Z.of_nat l)).
  { apply list_elem_of_lookup_2 in Hs. unfold syms in Hs. by apply list_elem_of_filter in Hs as [Hs _]. }
  assert (Hsym : symbol s l) by done. exists s. split; [done|].
  pose proof (symbol_rank s l Hsym) as [Hk _]. apply (NoDup_lookup (syms L (length L) l) _ _ s); [|done|done].
  apply list.NoDup_filter, NoDup_seq.
Qed.

(** Every bit string starts with a code word. *)
Lemma words_cover w : exists s l, symbol s l /\ hits l (word s l) w.
Proof.
  destruct (slot_of (spelled 15 w) (spelled_range 15 w)) as (l & r & Hl & Hr & E).
  destruct (rank_symbol l r Hl Hr) as (s & Hs & Er). exists s, l. split; [done|]. unfold word. rewrite Er, E.
  pose proof (spelled_prefix (15 - l) l w) as Ep. replace (15 - l + l)%nat with 15%nat in Ep by lia. rewrite Ep. apply spelled_hits.
Qed.

Lemma code_of_word s l : symbol s l -> code_of L s = Some (cbits l (word s l)).
Proof. intros [Hs Hl]. unfold code_of. rewrite Hs. cbn [mbind option_bind]. rewrite decide_True by lia. by rewrite Nat2Z.id. Qed.
End Complete.

(** ** Reversed words *)

Lemma reverse_loop_ok n : forall i bits result, 0 <= i -> 0 <= result < 2 ^ i ->
  reverse_loop n i bits (i + Z.of_nat n) result = result + 2 ^ i * lsb_val (cbits n bits).
Proof.
  induction n as [|n IH]; intros i bits result Hi Hr; cbn [reverse_loop cbits lsb_val]; [lia|].
  replace (i + Z.of_nat (S n)) with (i + 1 + Z.of_nat n) by lia. rewrite bit_of.
  replace (i + 1 + Z.of_nat n - i - 1) with (Z.of_nat n) by lia. rewrite lor_shiftl by lia.
  rewrite IH; [rewrite Z.pow_add_r by lia; lia|lia|]. rewrite Z.pow_add_r by lia. destruct (Z.testbit _ _); cbn [b2z]; lia.
Qed.

Lemma reverseBits_ok bits l : reverseBits bits (Z.of_nat l) = lsb_val (cbits l bits).
Proof. unfold reverseBits. rewrite Nat2Z.id. pose proof (reverse_loop_ok l 0 bits 0 ltac:(lia) ltac:(lia)) as E. rewrite Z.add_0_l in E. rewrite E. lia. Qed.

(** ** The codes that are assigned *)

Section Assign.
Context (L : list Z) (HL : complete L) (M : nat) (HM : (1 <= M <= 15)%nat) (HLM : Forall (fun x => 0 <= x <= Z.of_nat M) L).

Let nsyms (k : nat) (l : Z) : Z := Z.of_nat (length (syms L k (Z.to_nat l))).

Lemma nsyms_S k l x : L !! k = Some x -> 0 <= l -> nsyms (S k) l = nsyms k l + if decide (x = l) then 1 else 0.
Proof.
  intros Hx Hl. unfold nsyms. rewrite syms_S, Hx, length_app, Z2Nat.id by lia.
  destruct (decide (x = l)) as [->|Hne]; [rewrite decide_True by done; cbn [length]; lia|].
  rewrite decide_False by congruence. cbn [length]. lia.
Qed.

Lemma length_range k x : L !! k = Some x -> 0 <= x <= Z.of_nat M.
Proof. intros Hx. rewrite list.Forall_lookup in HLM. by apply (HLM k). Qed.

Definition counts (k : nat) (bl : list Z) : Prop := length bl = S M /\ forall l, 0 <= l <= Z.of_nat M -> at_ bl l = Some (nsyms k l).

Lemma count_codes_ok k bl : (k <= length L)%nat -> counts k bl ->
  exists bl', count_codes (drop k L) bl = Some bl' /\ counts (length L) bl'.
Proof.
  remember (length L - k)%nat as d. revert k bl Heqd. induction d as [|d IH]; intros k bl Ed Hk [Hlen Hat].
  - rewrite drop_ge by lia. exists bl. split; [done|]. replace (length L) with k by lia. done.
  - destruct (lookup_lt_is_Some_2 L k ltac:(lia)) as [x Hx]. pose proof (length_range k x Hx) as Hr.
    rewrite (drop_S _ _ _ Hx). cbn [count_codes]. rewrite Hat by done. cbn [mbind option_bind].
    rewrite put_at_ok by lia. cbn [mbind option_bind]. apply (IH (S k)); [lia|lia|]. split; [by rewrite length_insert|].
    intros l Hl. rewrite at_insert by lia. rewrite (nsyms_S k l x Hx) by lia. case_decide as E; [by rewrite E|]. rewrite Hat by done. f_equal. lia.
Qed.

(** The counter of the codes of [l] bits, before the [k]-th symbol *)
Definition code_at (k : nat) (l : Z) : Z := u32 (first_code L (Z.to_nat l) + nsyms k l + 2 ^ l * nsyms (length L) 0).

Definition counters (k : nat) (nc : list Z) : Prop := length nc = S M /\ forall l, 1 <= l <= Z.of_nat M -> at_ nc l = Some (code_at k l).

Lemma next_codes_ok bl n : forall b nc, counts (length L) bl -> 1 <= b -> b + Z.of_nat n = Z.of_nat M + 1 -> length nc = S M ->
  at_ nc 0 = Some 0 -> (forall l, 1 <= l < b -> at_ nc l = Some (code_at 0 l)) ->
  exists nc', next_codes n b bl nc = Some nc' /\ counters 0 nc'.
Proof.
  induction n as [|n IH]; intros b nc Hbl Hb Hbn Hlen H0 Hat; cbn [next_codes].
  - exists nc. split; [done|]. split; [done|]. intros l Hl. apply Hat. lia.
  - destruct Hbl as [Hbl1 Hbl2]. destruct (at_some nc (b - 1) ltac:(lia)) as [x Hx]. rewrite Hx. cbn [mbind option_bind].
    rewrite Hbl2 by lia. cbn [mbind option_bind]. rewrite put_at_ok by lia. cbn [mbind option_bind].
    apply IH; [done|lia|lia|by rewrite length_insert|rewrite at_insert by lia; by rewrite decide_False by lia|].
    intros l Hl. rewrite at_insert by lia. case_decide as E; [|apply Hat; lia]. subst l. f_equal. unfold code_at.
    assert (E0 : nsyms 0 b = 0) by done. rewrite E0, Z.shiftl_mul_pow2, Z.add_0_r by lia. change (2 ^ 1) with 2.
    replace (Z.to_nat b) with (S (Z.to_nat (b - 1))) by lia. cbn [first_code].
    destruct (decide (b = 1)) as [->|Hb1].
    + change (1 - 1) with 0 in *. rewrite H0 in Hx. injection Hx as <-. change (first_code L (Z.to_nat 0)) with 0. change (cnt L (Z.to_nat 0)) with 0%nat. f_equal. lia.
    + rewrite Hat in Hx by lia. injection Hx as <-. unfold code_at, u32 at 2.
      assert (E1 : nsyms 0 (b - 1) = 0) by done. rewrite E1, Z.add_0_r.
      assert (Ec : Z.of_nat (cnt L (Z.to_nat (b - 1))) = nsyms (length L) (b - 1)) by (unfold nsyms; destruct (Z.to_nat (b - 1)) eqn:E2; [lia|done]).
      rewrite Ec. unfold u32.
      rewrite <- (Z.mul_mod_idemp_l (_ mod _ + _)) by lia. rewrite Z.add_mod_idemp_l by lia. rewrite Z.mul_mod_idemp_l by lia.
      f_equal. replace b with (Z.succ (b - 1)) at 6 by lia. rewrite Z.pow_succ_r by lia. lia.
Qed.

Lemma masked_word s l : symbol L s l -> code_at s (Z.of_nat l) .& ((1 << Z.of_nat l) - 1) = word L s l.
Proof.
  intros Hs. pose proof (word_range L HL s l Hs) as Hw. destruct Hs as [_ Hl].
  rewrite Z.shiftl_1_l. replace (2 ^ Z.of_nat l - 1) with (Z.ones (Z.of_nat l)) by (rewrite Z.ones_equiv; lia).
  rewrite land_ones_mod by lia. unfold code_at, u32, nsyms. rewrite Nat2Z.id. fold (word L s l).
  replace (first_code L l + Z.of_nat (length (syms L s l))) with (word L s l) by done. set (z := Z.of_nat (length (syms L (length L) _))).
  replace (2 ^ 32) with (2 ^ Z.of_nat l * 2 ^ (32 - Z.of_nat l)) by (rewrite <- Z.pow_add_r by lia; f_equal; lia).
  rewrite Z.rem_mul_r by lia. rewrite (Z.mul_comm (2 ^ Z.of_nat l) (_ mod _)), Z.mod_add, Z.mod_mod by lia.
  rewrite (Z.mul_comm _ z), Z.mod_add by lia. by apply Z.mod_small.
Qed.

(** Codes for the symbols from [k] on *)
Lemma assign_ok d : forall k nc, d = (length L - k)%nat -> (k <= length L)%nat -> counters k nc ->
  exists cs, assign (drop k L) nc = Some cs /\ length cs = d
    /\ forall s x, L !! (k + s)%nat = Some x -> cs !! s = Some (if x =? 0 then None else Some (word L (k + s) (Z.to_nat x))).
Proof.
  induction d as [|d IH]; intros k nc Ed Hk [Hlen Hat].
  - rewrite drop_ge by lia. exists []. split; [done|]. split; [done|]. intros s x Hx%lookup_lt_Some. lia.
  - destruct (lookup_lt_is_Some_2 L k ltac:(lia)) as [x Hx]. pose proof (length_range k x Hx) as Hr.
    rewrite (drop_S _ _ _ Hx). cbn [assign]. destruct (Z.eqb_spec x 0) as [->|Hx0].
    + destruct (IH (S k) nc ltac:(lia) ltac:(lia)) as (cs & E & Hl & Hcs).
      { split; [done|]. intros l Hl. rewrite Hat by done. unfold code_at. rewrite (nsyms_S k l 0 Hx), decide_False by lia. do 2 f_equal. lia. }
      rewrite E. cbn [mbind option_bind]. eexists. split; [done|]. split; [cbn; lia|]. intros [|s] y Hy.
      * rewrite Nat.add_0_r, Hx in Hy. injection Hy as <-. done.
      * replace (k + S s)%nat with (S k + s)%nat in * by lia. cbn. by apply Hcs.
    + rewrite Hat by lia. cbn [mbind option_bind]. rewrite put_at_ok by lia. cbn [mbind option_bind].
      destruct (IH (S k) (<[Z.to_nat x := u32 (code_at k x + 1)]> nc) ltac:(lia) ltac:(lia)) as (cs & E & Hl & Hcs).
      { split; [by rewrite length_insert|]. intros l Hl. rewrite at_insert by lia. unfold code_at. rewrite (nsyms_S k l x Hx) by lia.
        case_decide as Exl; [subst l|rewrite Hat by done; unfold code_at; do 2 f_equal; lia]. f_equal. unfold u32.
        rewrite Z.add_mod_idemp_l by lia. f_equal. lia. }
      rewrite E. cbn [mbind option_bind]. eexists. split; [done|]. split; [cbn; lia|]. intros [|s] y Hy.
      * rewrite Nat.add_0_r, Hx in Hy. injection Hy as <-. rewrite (proj2 (Z.eqb_neq x 0)), Nat.add_0_r by done. cbn. do 2 f_equal.
        rewrite <- (masked_word k (Z.to_nat x)); [by rewrite Z2Nat.id by lia|]. split; [by rewrite Z2Nat.id by lia|lia].
      * replace (k + S s)%nat with (S k + s)%nat in * by lia. cbn. by apply Hcs.
Qed.

(** The codes that [HuffmanTree_makeFromLengths2] assigns are the canonical ones. *)
Definition canonical (cs : list (option Z)) : Prop :=
  length cs = length L /\ forall s x, L !! s = Some x -> cs !! s = Some (if x =? 0 then None else Some (word L s (Z.to_nat x))).

Lemma codes_ok : exists bl nc cs, count_codes L (replicate (S M) 0) = Some bl /\ next_codes M 1 bl (replicate (S M) 0) = Some nc
  /\ assign L nc = Some cs /\ canonical cs.
Proof.
  assert (Hz : forall l, 0 <= l <= Z.of_nat M -> at_ (replicate (S M) 0) l = Some 0).
  { intros l Hl. unfold at_. rewrite (proj2 (Z.ltb_ge _ 0)) by lia. apply lookup_replicate_2. lia. }
  destruct (count_codes_ok 0 (replicate (S M) 0) ltac:(lia)) as (bl & E1 & Hbl); [split; [apply length_replicate|intros l Hl; by rewrite Hz]|].
  destruct (next_codes_ok bl M 1 (replicate (S M) 0) Hbl ltac:(lia) ltac:(lia)) as (nc & E2 & Hnc); [apply length_replicate|apply Hz; lia|lia|].
  destruct (assign_ok (length L) 0 nc ltac:(lia) ltac:(lia) Hnc) as (cs & E3 & Hl & Hcs). rewrite drop_0 in *.
  exists bl, nc, cs. split; [done|]. split; [done|]. split; [done|]. split; [done|]. intros s x. apply Hcs.
Qed.
End Assign.
