(* ===== verification/TreeTable.v ===== *)
(** [HuffmanTree_makeTable] (LodeTree) accepts every complete code.

    The table has an entry for each string of nine bits and, for the strings that start
    longer code words, a secondary table.  [marked k] says which entries are taken after
    the first [k] symbols: none is taken twice, since no bit string starts with two code
    words, and all are taken at the end, since each starts with one. *)
From S2P Require Import Prelude Checksum BitReader Huffman Canonical Deflate LodeLz77 LodeHuff PackageMerge PackagePool CodeLengths LodeTree CodeTable.

(** ** Filling a set of entries *)

(** [tl'], [tv'] have [l] at [f j], ..., [f (j + n - 1)], and are [tl], [tv] elsewhere. *)
Record fills (f : Z -> Z) (j n l : Z) (tl tl' : list Z) (tv tv' : list (option Z)) : Prop := {
  fl_len : length tl' = length tl /\ length tv' = length tv;
  fl_set : forall t, j <= t < j + n -> at_ tl' (f t) = Some l;
  fl_any : forall idx, at_ tl' idx = Some l \/ at_ tl' idx = at_ tl idx;
  fl_keep : forall idx, (forall t, j <= t < j + n -> idx <> f t) -> at_ tl' idx = at_ tl idx /\ at_ tv' idx = at_ tv idx
}.

Lemma fills_none f j l tl tv : fills f j 0 l tl tl tv tv.
Proof. split; [done|lia|by right|done]. Qed.

Lemma fills_step f j n l v tl tl' tv tv' : 0 <= n -> 0 <= f j < Z.of_nat (length tl) -> length tv = length tl ->
  fills f (j + 1) n l (<[Z.to_nat (f j) := l]> tl) tl' (<[Z.to_nat (f j) := v]> tv) tv' -> fills f j (n + 1) l tl tl' tv tv'.
Proof.
  intros Hn Hj Hlen [Hl Hs Ha Hk]. rewrite !length_insert in Hl. split; [done| | |].
  - intros t Ht. destruct (decide (t = j)) as [->|]; [|apply Hs; lia]. destruct (Ha (f j)) as [|E]; [done|].
    rewrite E, at_insert by lia. by rewrite decide_True.
  - intros idx. destruct (Ha idx) as [|E]; [by left|]. rewrite E, at_insert by lia. case_decide; [by left|by right].
  - intros idx Hidx. destruct (Hk idx) as [E1 E2]; [intros t Ht; apply Hidx; lia|]. rewrite E1, E2, !at_insert by lia.
    specialize (Hidx j ltac:(lia)). by rewrite !decide_False by congruence.
Qed.

Lemma fill_short_ok reverse l i n : forall j tl tv, 0 <= l -> 0 <= reverse < 2 ^ l -> 0 <= j -> length tv = length tl ->
  (forall t, j <= t < j + Z.of_nat n -> at_ tl (reverse + 2 ^ l * t) = Some 16) ->
  exists tl' tv', fill_short n j reverse l i tl tv = Some (inr (tl', tv'))
    /\ fills (fun t => reverse + 2 ^ l * t) j (Z.of_nat n) l tl tl' tv tv'.
Proof.
  induction n as [|n IH]; intros j tl tv Hl Hr Hj Hlen Hfree; cbn [fill_short].
  - exists tl, tv. split; [done|apply fills_none].
  - rewrite lor_shiftl by lia. pose proof (Hfree j ltac:(lia)) as Hx. rewrite Hx. cbn [mbind option_bind negb Z.eqb Pos.eqb].
    pose proof (at_range _ _ _ Hx) as Hr'. rewrite !put_at_ok by lia. cbn [mbind option_bind].
    pose proof (Z.pow_pos_nonneg 2 l ltac:(lia) ltac:(lia)).
    destruct (IH (j + 1) (<[Z.to_nat (reverse + 2 ^ l * j) := l]> tl) (<[Z.to_nat (reverse + 2 ^ l * j) := Some (u16 i)]> tv))
      as (tl' & tv' & E & Hf); [done|done|lia|by rewrite !length_insert| |].
    { intros t Ht. rewrite at_insert by lia. rewrite decide_False by nia. apply Hfree. lia. }
    rewrite E. exists tl', tv'. split; [done|]. rewrite Nat2Z.inj_succ. unfold Z.succ.
    apply (fills_step (fun t => reverse + 2 ^ l * t) j _ l (Some (u16 i))); [lia|lia|done|done].
Qed.

Lemma fill_long_ok start reverse l i n : forall j tl tv, 9 <= l -> 0 <= reverse < 2 ^ l -> 0 <= j -> length tv = length tl ->
  (forall t, j <= t < j + Z.of_nat n -> 0 <= start + (reverse / 2 ^ 9 + 2 ^ (l - 9) * t) < Z.of_nat (length tl)) ->
  exists tl' tv', fill_long n j start reverse l i tl tv = Some (tl', tv')
    /\ fills (fun t => start + (reverse / 2 ^ 9 + 2 ^ (l - 9) * t)) j (Z.of_nat n) l tl tl' tv tv'.
Proof.
  induction n as [|n IH]; intros j tl tv Hl Hr Hj Hlen Hin; cbn [fill_long].
  - exists tl, tv. split; [done|apply fills_none].
  - unfold FIRSTBITS. rewrite Z.shiftr_div_pow2 by lia.
    assert (Hq : 0 <= reverse / 2 ^ 9 < 2 ^ (l - 9)).
    { split; [apply Z.div_pos; lia|]. apply Z.div_lt_upper_bound; [lia|]. rewrite <- Z.pow_add_r by lia. replace (9 + (l - 9)) with l by lia. lia. }
    rewrite lor_shiftl by lia. pose proof (Hin j ltac:(lia)) as Hj'. rewrite !put_at_ok by lia. cbn [mbind option_bind].
    set (idx := start + (reverse / 2 ^ 9 + 2 ^ (l - 9) * j)) in *.
    destruct (IH (j + 1) (<[Z.to_nat idx := l]> tl) (<[Z.to_nat idx := Some (u16 i)]> tv))
      as (tl' & tv' & E & Hf); [done|done|lia|by rewrite !length_insert|rewrite length_insert; intros; apply Hin; lia|].
    rewrite E. exists tl', tv'. split; [done|]. rewrite Nat2Z.inj_succ. unfold Z.succ.
    apply (fills_step (fun t => start + (reverse / 2 ^ 9 + 2 ^ (l - 9) * t)) j _ l (Some (u16 i))); [lia|done|done|done].
Qed.

Section Table.
Context (L : list Z) (HL : complete L) (cs : list (option Z)) (Hcs : canonical L cs).

(** The word of symbol [s] as the reader of the table sees it *)
Definition rev (s l : nat) : Z := lsb_val (cbits l (word L s l)).
Definition pref (s l : nat) : Z := rev s l mod 2 ^ 9.

Lemma rev_range s l : 0 <= rev s l < 2 ^ Z.of_nat l.
Proof. unfold rev. pose proof (lsb_val_range (cbits l (word L s l))) as H. by rewrite length_cbits in H. Qed.

Lemma pref_range s l : 0 <= pref s l < 2 ^ 9.
Proof. apply Z.mod_pos_bound. lia. Qed.

Lemma pref_hits s l w : (9 < l)%nat -> hits l (word L s l) w -> w mod 2 ^ 9 = pref s l.
Proof.
  intros Hl H. unfold pref, rev. rewrite <- H. replace (2 ^ Z.of_nat l) with (2 ^ 9 * 2 ^ (Z.of_nat l - 9)) by (rewrite <- Z.pow_add_r by lia; f_equal; lia).
  rewrite Z.rem_mul_r by lia. by rewrite (Z.mul_comm (2 ^ 9)), Z.mod_add, Z.mod_mod by lia.
Qed.

Lemma reversed_prefix s l : (9 < l)%nat -> reverseBits (word L s l >> (Z.of_nat l - FIRSTBITS)) FIRSTBITS = pref s l.
Proof.
  intros Hl. change FIRSTBITS with (Z.of_nat 9). rewrite reverseBits_ok. unfold pref, rev.
  change (2 ^ 9) with (2 ^ Z.of_nat 9). rewrite lsb_val_take by (rewrite length_cbits; lia).
  replace (Z.of_nat l - Z.of_nat 9) with (Z.of_nat (l - 9)) by lia. rewrite <- take_cbits. by replace (l - 9 + 9)%nat with l by lia.
Qed.

Lemma hits_rev s l w : hits l (word L s l) w <-> w mod 2 ^ Z.of_nat l = rev s l.
Proof. done. Qed.

Lemma code_cases k x : L !! k = Some x -> cs !! k = Some (if x =? 0 then None else Some (word L k (Z.to_nat x))) /\ 0 <= x <= 15
  /\ (x <> 0 -> symbol L k (Z.to_nat x)).
Proof.
  intros Hx. pose proof (proj2 Hcs k x Hx). destruct HL as [Hr _]. rewrite list.Forall_lookup in Hr. specialize (Hr k x Hx). cbn in Hr.
  split; [done|]. split; [lia|]. intros H0. split; [rewrite Z2Nat.id by lia; done|lia].
Qed.

(** ** The lengths behind the first table *)

(** [maxlens] after the first [k] symbols *)
Definition maxlens_ok (k : nat) (ml : list Z) : Prop :=
  length ml = 512%nat
  /\ (forall s l, (s < k)%nat -> symbol L s l -> (9 < l)%nat -> exists m, at_ ml (pref s l) = Some m /\ Z.of_nat l <= m)
  /\ (forall i m, at_ ml i = Some m -> m = 0 \/ exists s l, (s < k)%nat /\ symbol L s l /\ (9 < l)%nat /\ pref s l = i /\ m = Z.of_nat l).

Lemma maxlens_step k ml l m : maxlens_ok k ml -> symbol L k l -> (9 < l)%nat -> at_ ml (pref k l) = Some m ->
  maxlens_ok (S k) (<[Z.to_nat (pref k l) := Z.max m (Z.of_nat l)]> ml).
Proof.
  intros (Hlen & Hup & Hdn) Hs Hl Hm. pose proof (pref_range k l) as Hp. change (2 ^ 9) with 512 in Hp. split; [by rewrite length_insert|]. split.
  - intros s l' Hlt Hs' Hl'. rewrite at_insert by lia. destruct (decide (s = k)) as [->|Hne].
    + assert (l' = l) as -> by (destruct Hs as [Ha _], Hs' as [Hb _]; rewrite Ha in Hb; injection Hb; lia).
      rewrite decide_True by done. eexists. split; [done|]. lia.
    + destruct (Hup s l' ltac:(lia) Hs' Hl') as (m' & Hm' & Hle). case_decide as E; [|by exists m'].
      rewrite E, Hm' in Hm. injection Hm as ->. eexists. split; [done|]. lia.
  - intros i x. rewrite at_insert by lia. case_decide as E.
    + intros [= <-]. right. destruct (Z.max_spec m (Z.of_nat l)) as [[Hlt ->]|[Hge ->]].
      * exists k, l. split; [lia|]. done.
      * destruct (Hdn _ _ Hm) as [->|(s & l' & H1 & H2 & H3 & H4 & H5)]; [lia|]. exists s, l'. split; [lia|]. split; [done|]. split; [done|]. split; [congruence|done].
    + intros Hx. destruct (Hdn _ _ Hx) as [->|(s & l' & H1 & H2)]; [by left|right]. exists s, l'. split; [lia|done].
Qed.

Lemma maxlens_keep k ml : maxlens_ok k ml -> (forall l, symbol L k l -> (l <= 9)%nat) -> maxlens_ok (S k) ml.
Proof.
  intros (Hlen & Hup & Hdn) Hk. split; [done|]. split.
  - intros s l Hlt Hs Hl. destruct (decide (s = k)) as [->|]; [specialize (Hk l Hs); lia|]. apply Hup; [lia|done|done].
  - intros i m Hm. destruct (Hdn _ _ Hm) as [->|(s & l & H1 & H2)]; [by left|right]. exists s, l. split; [lia|done].
Qed.

Lemma maxlens_loop_ok d : forall k ml, d = (length L - k)%nat -> (k <= length L)%nat -> maxlens_ok k ml ->
  exists ml', maxlens_loop (drop k cs) (drop k L) ml = Some ml' /\ maxlens_ok (length L) ml'.
Proof.
  induction d as [|d IH]; intros k ml Ed Hk Hml.
  - rewrite (drop_ge L) by lia. exists ml. split; [by destruct (drop k cs)|]. by replace (length L) with k by lia.
  - destruct (lookup_lt_is_Some_2 L k ltac:(lia)) as [x Hx]. destruct (code_cases k x Hx) as (Hc & Hr & Hsym).
    rewrite (drop_S _ _ _ Hx), (drop_S _ _ _ Hc). cbn [maxlens_loop]. unfold FIRSTBITS. destruct (Z.leb_spec x 9) as [Hle|Hgt].
    + apply IH; [lia|lia|]. apply maxlens_keep; [done|]. intros l [Hl _]. rewrite Hx in Hl. injection Hl. lia.
    + rewrite (proj2 (Z.eqb_neq x 0)) by lia. cbn [mbind option_bind]. specialize (Hsym ltac:(lia)).
      pose proof (reversed_prefix k (Z.to_nat x) ltac:(lia)) as E. rewrite Z2Nat.id in E by lia. unfold FIRSTBITS in E. rewrite E.
      pose proof (pref_range k (Z.to_nat x)) as Hp. change (2 ^ 9) with 512 in Hp. pose proof Hml as (Hlen & _ & _).
      destruct (at_some ml (pref k (Z.to_nat x)) ltac:(lia)) as [m Hm]. rewrite Hm. cbn [mbind option_bind].
      rewrite put_at_ok by lia. cbn [mbind option_bind]. apply IH; [lia|lia|].
      pose proof (maxlens_step k ml (Z.to_nat x) m Hml Hsym ltac:(lia) Hm) as Hst. by rewrite Z2Nat.id in Hst by lia.
Qed.

(** ** The first table *)

Section Filling.
Context (ml : list Z) (Hml : maxlens_ok (length L) ml).

Definition mlz (i : Z) : Z := default 0 (at_ ml i).
Definition ptr (i : nat) : Z := foldl (fun size l => size + secondary l) headsize (take i ml).
Let size := Z.to_nat (table_size ml).

Lemma length_ml : length ml = 512%nat.
Proof. apply Hml. Qed.

Lemma mlz_range i : mlz i = 0 \/ 9 < mlz i <= 15.
Proof.
  unfold mlz. destruct (at_ ml i) as [m|] eqn:E; [|by left]. cbn. destruct Hml as (_ & _ & Hdn).
  destruct (Hdn i m E) as [->|(s & l & _ & [_ Hl] & Hl9 & _ & ->)]; [by left|right]. lia.
Qed.

Lemma ptr_S i : (i < 512)%nat -> ptr (S i) = ptr i + secondary (mlz (Z.of_nat i)).
Proof.
  intros Hi. destruct (lookup_lt_is_Some_2 ml i) as [l Hl]; [by rewrite length_ml|].
  unfold ptr, mlz. rewrite (take_S_r _ _ _ Hl), foldl_app, at_of_nat, Hl. done.
Qed.

Lemma secondary_range i : 0 <= secondary (mlz i) <= 64.
Proof.
  unfold secondary, FIRSTBITS. destruct (mlz_range i) as [->|H]; [cbn; lia|]. rewrite (proj2 (Z.ltb_lt _ _)), Z.shiftl_1_l by lia.
  split; [apply Z.pow_nonneg; lia|]. change 64 with (2 ^ 6). apply Z.pow_le_mono_r; lia.
Qed.

Lemma secondary_long i : 9 < mlz i -> secondary (mlz i) = 2 ^ (mlz i - 9).
Proof. intros H. unfold secondary, FIRSTBITS. by rewrite (proj2 (Z.ltb_lt _ _)), Z.shiftl_1_l by lia. Qed.

Lemma ptr_bound i : (i <= 512)%nat -> 512 <= ptr i <= 512 + 64 * Z.of_nat i.
Proof.
  induction i as [|i IH]; intros Hi; [change (ptr 0) with 512; lia|]. rewrite ptr_S by lia. pose proof (secondary_range (Z.of_nat i)). lia.
Qed.

Lemma ptr_mono i j : (i <= j <= 512)%nat -> ptr i <= ptr j.
Proof.
  intros [Hij Hj]. induction Hij as [|j Hij IH]; [lia|]. rewrite ptr_S by lia. pose proof (secondary_range (Z.of_nat j)). specialize (IH ltac:(lia)). lia.
Qed.

Lemma size_ptr : Z.of_nat size = ptr 512.
Proof.
  unfold size, table_size. pose proof (ptr_bound 512 ltac:(lia)) as H. unfold ptr in *. rewrite take_ge in * by (rewrite length_ml; lia). lia.
Qed.

Lemma second_bound i r : 0 <= i < 512 -> 0 <= r < secondary (mlz i) -> 512 <= ptr (Z.to_nat i) + r < Z.of_nat size.
Proof.
  intros Hi Hr. pose proof (ptr_bound (Z.to_nat i) ltac:(lia)). pose proof (ptr_S (Z.to_nat i) ltac:(lia)) as E. rewrite Z2Nat.id in E by lia.
  pose proof (ptr_mono (S (Z.to_nat i)) 512 ltac:(lia)). rewrite size_ptr. lia.
Qed.

(** The heads of the secondary tables among the first [k] entries *)
Definition heads_ok (k : Z) (tl : list Z) (tv : list (option Z)) : Prop :=
  length tl = size /\ length tv = size
  /\ (forall i, 0 <= i < k -> 9 < mlz i -> at_ tl i = Some (mlz i) /\ at_ tv i = Some (Some (ptr (Z.to_nat i))))
  /\ (forall i, 0 <= i < Z.of_nat size -> k <= i \/ mlz i <= 9 -> at_ tl i = Some 16).

Lemma heads_loop_ok d : forall k tl tv, d = (512 - k)%nat -> (k <= 512)%nat -> heads_ok (Z.of_nat k) tl tv ->
  exists tl' tv', heads_loop (Z.of_nat k) (drop k ml) (ptr k) tl tv = Some (tl', tv') /\ heads_ok 512 tl' tv'.
Proof.
  induction d as [|d IH]; intros k tl tv Ed Hk H.
  - rewrite drop_ge by (rewrite length_ml; lia). exists tl, tv. split; [done|]. by replace 512 with (Z.of_nat k) by lia.
  - destruct (lookup_lt_is_Some_2 ml k) as [l Hl]; [rewrite length_ml; lia|]. rewrite (drop_S _ _ _ Hl). cbn [heads_loop].
    assert (El : mlz (Z.of_nat k) = l) by (unfold mlz; by rewrite at_of_nat, Hl).
    pose proof (ptr_S k ltac:(lia)) as Ep. rewrite El in Ep. destruct H as (H1 & H2 & H3 & H4).
    replace (Z.of_nat k + 1) with (Z.of_nat (S k)) by lia. pose proof (ptr_bound k ltac:(lia)). pose proof size_ptr. pose proof (ptr_bound 512 ltac:(lia)).
    unfold FIRSTBITS in *. destruct (Z.leb_spec l 9) as [Hle|Hgt].
    + assert (Es : secondary l = 0) by (unfold secondary, FIRSTBITS; by rewrite (proj2 (Z.ltb_ge _ _)) by lia).
      replace (ptr k) with (ptr (S k)) by lia. apply IH; [lia|lia|]. split; [done|]. split; [done|]. split.
      * intros i Hi Hm. apply H3; [|done]. destruct (decide (i = Z.of_nat k)) as [->|]; lia.
      * intros i Hi Hm. apply H4; [done|]. destruct (decide (i = Z.of_nat k)) as [->|]; [left; lia|]. lia.
    + rewrite !put_at_ok by lia. cbn [mbind option_bind]. rewrite Z.shiftl_1_l.
      assert (Es : secondary l = 2 ^ (l - 9)) by (unfold secondary, FIRSTBITS; by rewrite (proj2 (Z.ltb_lt _ _)), Z.shiftl_1_l by lia).
      replace (ptr k + 2 ^ (l - 9)) with (ptr (S k)) by lia. apply IH; [lia|lia|]. split; [by rewrite length_insert|]. split; [by rewrite length_insert|]. split.
      * intros i Hi Hm. rewrite !at_insert by lia. case_decide as E; [subst i|apply H3; [lia|done]].
        rewrite u16_small by lia. rewrite El, Nat2Z.id. done.
      * intros i Hi Hm. rewrite at_insert by lia. case_decide as E; [subst i; lia|]. apply H4; [done|]. lia.
Qed.

(** ** The symbols *)

Record marked (k : nat) (tl : list Z) (tv : list (option Z)) : Prop := {
  mk_len : length tl = size /\ length tv = size;
  mk_long : forall i, 0 <= i < 512 -> 9 < mlz i -> at_ tl i = Some (mlz i) /\ at_ tv i = Some (Some (ptr (Z.to_nat i)));
  mk_free : forall i, 0 <= i < 512 -> mlz i <= 9 ->
    (forall s l, (s < k)%nat -> symbol L s l -> (l <= 9)%nat -> ~ hits l (word L s l) i) -> at_ tl i = Some 16;
  mk_short : forall i s l, 0 <= i < 512 -> (s < k)%nat -> symbol L s l -> (l <= 9)%nat -> hits l (word L s l) i ->
    exists x, at_ tl i = Some x /\ x <> 16;
  mk_second : forall i r s l, 0 <= i < 512 -> 0 <= r < secondary (mlz i) -> (s < k)%nat -> symbol L s l -> (9 < l)%nat ->
    hits l (word L s l) (i + 512 * r) -> exists x, at_ tl (ptr (Z.to_nat i) + r) = Some x /\ x <> 16
}.

(** An entry that leads to a secondary table starts no short word. *)
Lemma short_not_long s l i : symbol L s l -> (l <= 9)%nat -> 0 <= i < 512 -> hits l (word L s l) i -> mlz i <= 9.
Proof.
  intros Hs Hl Hi Hh. destruct (Z.le_gt_cases (mlz i) 9) as [|Hgt]; [done|exfalso]. unfold mlz in Hgt.
  destruct (at_ ml i) as [m|] eqn:E; [|cbn in Hgt; lia]. cbn in Hgt. destruct Hml as (_ & _ & Hdn).
  destruct (Hdn i m E) as [->|(s' & l' & _ & Hs' & Hl' & Hp & _)]; [lia|].
  assert (Hh' : hits l' (word L s' l') (rev s' l')) by (apply hits_rev, Z.mod_small, rev_range).
  assert (Hh2 : hits l (word L s l) (rev s' l')).
  { unfold pref in Hp. rewrite <- Hp in Hh. by apply (hits_low l _ (rev s' l') 9). }
  pose proof (words_differ L HL _ _ _ _ _ Hs Hs' Hh2 Hh') as <-. destruct Hs as [Ha _], Hs' as [Hb _]. rewrite Ha in Hb. injection Hb. lia.
Qed.

Lemma symbol_unique s l l' : symbol L s l -> symbol L s l' -> l = l'.
Proof. intros [H _] [H' _]. rewrite H in H'. injection H'. lia. Qed.

Lemma stays_taken f j n l tl tl' tv tv' idx x : fills f j n l tl tl' tv tv' -> l <> 16 -> at_ tl idx = Some x -> x <> 16 ->
  exists y, at_ tl' idx = Some y /\ y <> 16.
Proof. intros Hf Hl Hx Hne. destruct (fl_any _ _ _ _ _ _ _ _ Hf idx) as [E|E]; rewrite E; [by exists l|by exists x]. Qed.

Lemma marked_short k l i tl tv : marked k tl tv -> symbol L k l -> (l <= 9)%nat ->
  exists tl' tv', fill_short (Z.to_nat (2 ^ (9 - Z.of_nat l))) 0 (rev k l) (Z.of_nat l) i tl tv = Some (inr (tl', tv')) /\ marked (S k) tl' tv'.
Proof.
  intros Hm Hs Hl. pose proof (rev_range k l) as Hr. pose proof Hs as [_ Hl1]. set (P := 2 ^ Z.of_nat l) in *. set (Q := 2 ^ (9 - Z.of_nat l)).
  assert (HP : 0 < P) by (apply Z.pow_pos_nonneg; lia). assert (HQ : 0 < Q) by (apply Z.pow_pos_nonneg; lia).
  assert (HPQ : P * Q = 512) by (unfold P, Q; rewrite <- Z.pow_add_r by lia; by replace (Z.of_nat l + (9 - Z.of_nat l)) with 9 by lia).
  assert (Hidx : forall t, 0 <= t < Q -> 0 <= rev k l + P * t < 512 /\ hits l (word L k l) (rev k l + P * t)).
  { intros t Ht. split; [nia|]. apply hits_rev. fold P. rewrite (Z.mul_comm P), Z.mod_add by lia. by apply Z.mod_small. }
  assert (Hall : forall w, 0 <= w < 512 -> hits l (word L k l) w -> exists t, 0 <= t < Q /\ w = rev k l + P * t).
  { intros w Hw Hh. exists (w / P). change (w mod P = rev k l) in Hh. pose proof (Z.div_mod w P ltac:(lia)).
    split; [split; [apply Z.div_pos; lia|apply Z.div_lt_upper_bound; [lia|rewrite HPQ; lia]]|lia]. }
  destruct (fill_short_ok (rev k l) (Z.of_nat l) i (Z.to_nat Q) 0 tl tv) as (tl' & tv' & E & Hf); [lia|done|lia|by destruct (mk_len _ _ _ Hm) as [-> ->]| |].
  { intros t Ht. destruct (Hidx t ltac:(lia)) as [H1 H2]. apply (mk_free _ _ _ Hm); [done|by apply (short_not_long k l)|].
    intros s l' Hlt Hs' _ Hh'. pose proof (words_differ L HL _ _ _ _ _ Hs Hs' H2 Hh'). lia. }
  exists tl', tv'. split; [done|]. rewrite Z2Nat.id in Hf by lia. fold P in Hf. destruct (mk_len _ _ _ Hm) as [Hm1 Hm2]. split.
  - destruct (fl_len _ _ _ _ _ _ _ _ Hf) as [-> ->]. done.
  - intros w Hw Hlong. destruct (fl_keep _ _ _ _ _ _ _ _ Hf w) as [-> ->]; [|by apply (mk_long _ _ _ Hm)].
    intros t Ht ->. destruct (Hidx t ltac:(lia)) as [_ H2]. pose proof (short_not_long k l _ Hs Hl Hw H2). lia.
  - intros w Hw Hshort Hno. destruct (fl_keep _ _ _ _ _ _ _ _ Hf w) as [-> _]; [|apply (mk_free _ _ _ Hm); [done|done|]].
    + intros t Ht ->. destruct (Hidx t ltac:(lia)) as [_ H2]. by apply (Hno k l ltac:(lia) Hs Hl).
    + intros s l' Hlt. apply Hno. lia.
  - intros w s l' Hw Hlt Hs' Hl' Hh. destruct (decide (s = k)) as [->|Hne].
    + pose proof (symbol_unique _ _ _ Hs Hs') as <-. destruct (Hall w Hw Hh) as (t & Ht & ->). exists (Z.of_nat l).
      split; [apply (fl_set _ _ _ _ _ _ _ _ Hf); lia|lia].
    + destruct (mk_short _ _ _ Hm w s l' Hw ltac:(lia) Hs' Hl' Hh) as (x & Hx & Hxn). eapply stays_taken; [exact Hf|lia|exact Hx|done].
  - intros w r s l' Hw Hrr Hlt Hs' Hl' Hh. destruct (decide (s = k)) as [->|Hne]; [pose proof (symbol_unique _ _ _ Hs Hs'); lia|].
    destruct (mk_second _ _ _ Hm w r s l' Hw Hrr ltac:(lia) Hs' Hl' Hh) as (x & Hx & Hxn). eapply stays_taken; [exact Hf|lia|exact Hx|done].
Qed.

(** The entries of a long word in the secondary table of its first nine bits *)
Lemma long_entries k l : symbol L k l -> (9 < l)%nat -> Z.of_nat l <= mlz (pref k l) ->
  let P := 2 ^ (Z.of_nat l - 9) in let Q := 2 ^ (mlz (pref k l) - Z.of_nat l) in
  (forall t, 0 <= t < Q -> 0 <= rev k l / 2 ^ 9 + P * t < secondary (mlz (pref k l)))
  /\ forall i r, 0 <= i < 512 -> 0 <= r < secondary (mlz i) -> hits l (word L k l) (i + 512 * r) ->
       i = pref k l /\ exists t, 0 <= t < Q /\ r = rev k l / 2 ^ 9 + P * t.
Proof.
  intros Hs Hl Hle P Q. pose proof (rev_range k l) as Hr. rewrite (secondary_long (pref k l)) by lia.
  assert (HP : 0 < P) by (apply Z.pow_pos_nonneg; lia). assert (HQ : 0 < Q) by (apply Z.pow_pos_nonneg; lia).
  assert (HPQ : 2 ^ (mlz (pref k l) - 9) = P * Q) by (unfold P, Q; rewrite <- Z.pow_add_r by lia; f_equal; lia).
  assert (E2 : 2 ^ Z.of_nat l = 2 ^ 9 * P) by (unfold P; rewrite <- Z.pow_add_r by lia; f_equal; lia).
  assert (Hq : 0 <= rev k l / 2 ^ 9 < P) by (split; [apply Z.div_pos; lia|apply Z.div_lt_upper_bound; lia]).
  rewrite HPQ. split; [intros; nia|]. intros i r Hi Hrr Hh.
  assert (Ei : i = pref k l).
  { rewrite <- (pref_hits k l _ Hl Hh). change 512 with (2 ^ 9). rewrite (Z.mul_comm (2 ^ 9)), Z.mod_add by lia. symmetry. apply Z.mod_small. lia. }
  split; [done|]. rewrite Ei, (secondary_long (pref k l)), HPQ in Hrr by lia.
  change ((i + 512 * r) mod 2 ^ Z.of_nat l = rev k l) in Hh.
  assert (Er : r mod P = rev k l / 2 ^ 9).
  { rewrite <- Hh, E2, Z.rem_mul_r by lia. rewrite (Z.mul_comm (2 ^ 9) (_ mod P)), Z.div_add, (Z.div_small (_ mod 2 ^ 9)) by (apply Z.mod_pos_bound || lia; lia).
    change 512 with (2 ^ 9). rewrite (Z.mul_comm (2 ^ 9) r), Z.div_add, (Z.div_small i) by lia. done. }
  exists (r / P). pose proof (Z.div_mod r P ltac:(lia)). split; [split; [apply Z.div_pos; lia|apply Z.div_lt_upper_bound; [lia|]]; lia|lia].
Qed.

Lemma marked_long k l i tl tv : marked k tl tv -> symbol L k l -> (9 < l)%nat -> Z.of_nat l <= mlz (pref k l) ->
  exists tl' tv', fill_long (Z.to_nat (2 ^ (mlz (pref k l) - Z.of_nat l))) 0 (ptr (Z.to_nat (pref k l))) (rev k l) (Z.of_nat l) i tl tv = Some (tl', tv')
    /\ marked (S k) tl' tv'.
Proof.
  intros Hm Hs Hl Hle. pose proof (rev_range k l) as Hr. pose proof (pref_range k l) as Hp. change (2 ^ 9) with 512 in Hp. pose proof Hs as [_ Hl1].
  destruct (long_entries k l Hs Hl Hle) as [Hin Hall]. set (P := 2 ^ (Z.of_nat l - 9)) in *. set (Q := 2 ^ (mlz (pref k l) - Z.of_nat l)) in *.
  assert (HQ : 0 < Q) by (apply Z.pow_pos_nonneg; lia). destruct (mk_len _ _ _ Hm) as [Hm1 Hm2].
  assert (Hb : forall t, 0 <= t < Q -> 512 <= ptr (Z.to_nat (pref k l)) + (rev k l / 2 ^ 9 + P * t) < Z.of_nat size).
  { intros t Ht. apply second_bound; [done|by apply Hin]. }
  destruct (fill_long_ok (ptr (Z.to_nat (pref k l))) (rev k l) (Z.of_nat l) i (Z.to_nat Q) 0 tl tv) as (tl' & tv' & E & Hf);
    [lia|done|lia|congruence|intros t Ht; fold P; rewrite Hm1; specialize (Hb t ltac:(lia)); lia|].
  exists tl', tv'. split; [done|]. rewrite Z2Nat.id in Hf by lia. fold P in Hf.
  assert (Hhead : forall w, 0 <= w < 512 -> at_ tl' w = at_ tl w /\ at_ tv' w = at_ tv w).
  { intros w Hw. apply (fl_keep _ _ _ _ _ _ _ _ Hf). intros t Ht. specialize (Hb t ltac:(lia)). lia. }
  split.
  - destruct (fl_len _ _ _ _ _ _ _ _ Hf) as [-> ->]. done.
  - intros w Hw Hlong. destruct (Hhead w Hw) as [-> ->]. by apply (mk_long _ _ _ Hm).
  - intros w Hw Hshort Hno. destruct (Hhead w Hw) as [-> _]. apply (mk_free _ _ _ Hm); [done|done|]. intros s l' Hlt. apply Hno. lia.
  - intros w s l' Hw Hlt Hs' Hl' Hh. destruct (decide (s = k)) as [->|Hne]; [pose proof (symbol_unique _ _ _ Hs Hs'); lia|].
    destruct (mk_short _ _ _ Hm w s l' Hw ltac:(lia) Hs' Hl' Hh) as (x & Hx & Hxn). eapply stays_taken; [exact Hf|lia|exact Hx|done].
  - intros w r s l' Hw Hrr Hlt Hs' Hl' Hh. destruct (decide (s = k)) as [->|Hne].
    + pose proof (symbol_unique _ _ _ Hs Hs') as <-. destruct (Hall w r Hw Hrr Hh) as (-> & t & Ht & ->). exists (Z.of_nat l).
      split; [apply (fl_set _ _ _ _ _ _ _ _ Hf); lia|lia].
    + destruct (mk_second _ _ _ Hm w r s l' Hw Hrr ltac:(lia) Hs' Hl' Hh) as (x & Hx & Hxn). eapply stays_taken; [exact Hf|lia|exact Hx|done].
Qed.

Lemma fill_symbol_ok k l tl tv : marked k tl tv -> symbol L k l ->
  exists tl' tv', fill_symbol (Z.of_nat k) (Z.of_nat l) (word L k l) tl tv = Some (inr (tl', tv')) /\ marked (S k) tl' tv'.
Proof.
  intros Hm Hs. unfold fill_symbol, FIRSTBITS. rewrite reverseBits_ok. fold (rev k l). rewrite Z.shiftl_1_l.
  destruct (Z.leb_spec (Z.of_nat l) 9) as [Hle|Hgt]; [apply marked_short; [done|done|lia]|].
  unfold headsize, FIRSTBITS. change ((1 << 9) - 1) with (Z.ones 9). rewrite land_ones_mod by lia. fold (pref k l).
  pose proof (pref_range k l) as Hp. change (2 ^ 9) with 512 in Hp.
  destruct Hml as (_ & Hup & _). destruct (Hup k l (lookup_lt_Some _ _ _ (proj1 Hs)) Hs ltac:(lia)) as (m & Hm' & Hlm).
  assert (E : mlz (pref k l) = m) by (unfold mlz; by rewrite Hm'). rewrite <- E in Hlm.
  destruct (mk_long _ _ _ Hm (pref k l) Hp ltac:(lia)) as [-> ->]. cbn [mbind option_bind mjoin option_join].
  rewrite (proj2 (Z.ltb_ge _ _)), Z.shiftl_1_l by lia.
  replace (mlz (pref k l) - 9 - (Z.of_nat l - 9)) with (mlz (pref k l) - Z.of_nat l) by lia.
  destruct (marked_long k l (Z.of_nat k) tl tv Hm Hs ltac:(lia) Hlm) as (tl' & tv' & -> & Hm2). by exists tl', tv'.
Qed.

Definition nonzero (ls : list Z) : Z := zsum (map (fun x => if x =? 0 then 0 else 1) ls).

Lemma fill_loop_ok d : forall k np tl tv, d = (length L - k)%nat -> (k <= length L)%nat -> marked k tl tv ->
  exists tl' tv', fill_loop (Z.of_nat k) (drop k cs) (drop k L) np tl tv = Some (inr (np + nonzero (drop k L), tl', tv')) /\ marked (length L) tl' tv'.
Proof.
  induction d as [|d IH]; intros k np tl tv Ed Hk Hm.
  - rewrite (drop_ge L) by lia. exists tl, tv. split; [destruct (drop k cs); cbn; by rewrite Z.add_0_r|]. by replace (length L) with k by lia.
  - destruct (lookup_lt_is_Some_2 L k ltac:(lia)) as [x Hx]. destruct (code_cases k x Hx) as (Hc & Hr & Hsym).
    rewrite (drop_S _ _ _ Hx), (drop_S _ _ _ Hc). cbn [fill_loop]. replace (Z.of_nat k + 1) with (Z.of_nat (S k)) by lia.
    assert (En : nonzero (x :: drop (S k) L) = (if x =? 0 then 0 else 1) + nonzero (drop (S k) L)) by done. rewrite En. clear En.
    destruct (Z.eqb_spec x 0) as [->|Hx0].
    + destruct (IH (S k) np tl tv) as (tl' & tv' & E & Hm'); [lia|lia| |].
      { destruct Hm as [M1 M2 M3 M4 M5].
        assert (Hlt : forall s l, (s < S k)%nat -> symbol L s l -> (s < k)%nat).
        { intros s l Hs Hsy. destruct (decide (s = k)) as [->|]; [|lia]. destruct Hsy as [Hsy Hl]. rewrite Hx in Hsy. injection Hsy. lia. }
        split; [done|done| | |]; eauto. }
      rewrite E. exists tl', tv'. split; [do 4 f_equal; lia|done].
    + cbn [mbind option_bind]. specialize (Hsym Hx0). destruct (fill_symbol_ok k (Z.to_nat x) tl tv Hm Hsym) as (tl1 & tv1 & E1 & Hm1).
      rewrite Z2Nat.id in E1 by lia. rewrite E1. cbn [mbind option_bind].
      destruct (IH (S k) (np + 1) tl1 tv1) as (tl' & tv' & E & Hm'); [lia|lia|done|]. rewrite E. exists tl', tv'. split; [do 4 f_equal; lia|done].
Qed.

(** Every entry of the second part of the table is in one secondary table. *)
Lemma second_index idx n : (n <= 512)%nat -> 512 <= idx < ptr n -> exists i, 0 <= i < 512 /\ ptr (Z.to_nat i) <= idx < ptr (Z.to_nat i) + secondary (mlz i).
Proof.
  induction n as [|n IH]; intros Hn Hi; [change (ptr 0) with 512 in Hi; lia|].
  destruct (Z.lt_ge_cases idx (ptr n)); [apply IH; lia|]. exists (Z.of_nat n). rewrite Nat2Z.id. split; [lia|]. rewrite ptr_S in Hi by lia. lia.
Qed.

Lemma marked_all tl tv : marked (length L) tl tv -> existsb (fun x => x =? 16) tl = false.
Proof.
  intros Hm. apply not_true_iff_false. intros (x & Hin & ->%Z.eqb_eq)%existsb_exists. apply list_elem_of_In, list_elem_of_lookup in Hin as (j & Hj).
  pose proof (lookup_lt_Some _ _ _ Hj) as Hlt. rewrite (proj1 (mk_len _ _ _ Hm)) in Hlt. rewrite <- at_of_nat in Hj.
  assert (Hsl : forall s l, symbol L s l -> (s < length L)%nat) by (intros s l [Hs _]; by apply lookup_lt_Some in Hs).
  assert (Hhead : forall i s l, 0 <= i < 512 -> symbol L s l -> (9 < l)%nat -> hits l (word L s l) i -> 9 < mlz i).
  { intros i s l Hi Hs Hl Hh. pose proof (pref_hits s l i Hl Hh) as E. change (2 ^ 9) with 512 in E. rewrite Z.mod_small in E by done.
    destruct Hml as (_ & Hup & _). destruct (Hup s l (Hsl _ _ Hs) Hs Hl) as (m & Hm' & Hle). unfold mlz. rewrite E, Hm'. cbn. lia. }
  destruct (Z.lt_ge_cases (Z.of_nat j) 512) as [Hh|Hh].
  - destruct (words_cover L HL (Z.of_nat j)) as (s & l & Hs & Hw). destruct (Z.lt_ge_cases 9 (mlz (Z.of_nat j))) as [Hlong|Hshort].
    + destruct (mk_long _ _ _ Hm (Z.of_nat j) ltac:(lia) Hlong) as [E _]. rewrite E in Hj. injection Hj. destruct (mlz_range (Z.of_nat j)); lia.
    + destruct (Nat.le_gt_cases l 9) as [Hl|Hl]; [|specialize (Hhead (Z.of_nat j) s l ltac:(lia) Hs Hl Hw); lia].
      destruct (mk_short _ _ _ Hm (Z.of_nat j) s l ltac:(lia) (Hsl _ _ Hs) Hs Hl Hw) as (x & Hx & Hne). congruence.
  - destruct (second_index (Z.of_nat j) 512 ltac:(lia)) as (i & Hi & Hr); [pose proof size_ptr; lia|].
    set (r := Z.of_nat j - ptr (Z.to_nat i)). assert (Hlong : 9 < mlz i).
    { destruct (mlz_range i) as [E|]; [|lia]. rewrite E in Hr. cbn in Hr. lia. }
    destruct (words_cover L HL (i + 512 * r)) as (s & l & Hs & Hw). destruct (Nat.le_gt_cases l 9) as [Hl|Hl].
    + assert (hits l (word L s l) i).
      { apply (hits_low l _ (i + 512 * r) 9) in Hw; [|lia]. change (2 ^ Z.of_nat 9) with 512 in Hw. rewrite (Z.mul_comm 512), Z.mod_add, Z.mod_small in Hw by lia. done. }
      pose proof (short_not_long s l i Hs Hl Hi ltac:(done)). lia.
    + destruct (mk_second _ _ _ Hm i r s l Hi ltac:(lia) (Hsl _ _ Hs) Hs Hl Hw) as (x & Hx & Hne).
      replace (ptr (Z.to_nat i) + r) with (Z.of_nat j) in Hx by lia. congruence.
Qed.
End Filling.
End Table.

(** ** The trees *)

(** A code without too short words has two of them. *)
Lemma two_present ls : kraft ls = 2 ^ 15 -> Forall (fun x => 0 <= x <= 15) ls -> 2 <= nonzero ls.
Proof.
  intros Hk Hall. assert (G : kraft ls <= 2 ^ 14 * nonzero ls).
  { clear Hk. unfold kraft, nonzero, zsum. induction Hall as [|x ls Hx Hall IH]; cbn [map foldr]; [lia|].
    destruct (Z.eqb_spec x 0); [lia|]. pose proof (Z.pow_le_mono_r 2 (15 - x) 14 ltac:(lia) ltac:(lia)). lia. }
  lia.
Qed.

Lemma makeTable_ok L cs : complete L -> canonical L cs -> exists t, HuffmanTree_makeTable cs L = Some (inr t).
Proof.
  intros HL Hcs. unfold HuffmanTree_makeTable.
  destruct (maxlens_loop_ok L HL cs Hcs (length L) 0 (replicate (Z.to_nat headsize) 0) ltac:(lia) ltac:(lia)) as (ml & E & Hml).
  { split; [by rewrite length_replicate|]. split; [lia|]. intros i m. unfold at_. destruct (i <? 0); [done|]. intros [-> _]%lookup_replicate_1. by left. }
  rewrite !drop_0 in E. rewrite E. cbn [mbind option_bind]. set (size := Z.to_nat (table_size ml)).
  assert (H0 : heads_ok ml (Z.of_nat 0) (replicate size 16) (replicate size None)).
  { split; [apply length_replicate|]. split; [apply length_replicate|]. split; [lia|]. intros i Hi _. fold size in Hi. unfold at_.
    rewrite (proj2 (Z.ltb_ge _ 0)) by lia. apply lookup_replicate_2. lia. }
  destruct (heads_loop_ok L ml Hml 512 0 _ _ ltac:(lia) ltac:(lia) H0) as (tl & tv & E2 & H1 & H2 & H3 & H4).
  rewrite drop_0 in E2. change (ptr ml 0) with headsize in E2. change (Z.of_nat 0) with 0 in E2. rewrite E2. cbn [mbind option_bind].
  assert (Hm : marked L ml 0 tl tv).
  { split; [done|done| |lia|lia]. intros i Hi Hs _. apply H4; [|by right].
    pose proof (size_ptr L ml Hml). pose proof (ptr_bound L ml Hml 512 ltac:(lia)). lia. }
  destruct (fill_loop_ok L HL cs Hcs ml Hml (length L) 0 0 tl tv ltac:(lia) ltac:(lia) Hm) as (tl' & tv' & E3 & Hm').
  rewrite !drop_0, Z.add_0_l in E3. change (Z.of_nat 0) with 0 in E3. rewrite E3. cbn [mbind option_bind].
  pose proof (two_present L (proj2 HL) (proj1 HL)). rewrite (proj2 (Z.ltb_ge _ _)) by lia.
  rewrite (marked_all L HL ml Hml tl' tv' Hm'). by eexists.
Qed.

(** A tree for the lengths [L]: the canonical code *)
Definition tree_of (L : list Z) (t : HuffmanTree) : Prop := t_lengths t = L /\ canonical L (t_codes t).

Lemma makeFromLengths2_ok L M : complete L -> (1 <= M <= 15)%nat -> Forall (fun x => 0 <= x <= Z.of_nat M) L ->
  exists t, HuffmanTree_makeFromLengths2 L M = Some (inr t) /\ tree_of L t.
Proof.
  intros HL HM HLM. unfold HuffmanTree_makeFromLengths2. destruct (codes_ok L HL M HM HLM) as (bl & nc & cs & -> & E2 & E3 & Hcs).
  cbn [mbind option_bind]. rewrite E2. cbn [mbind option_bind]. rewrite E3. cbn [mbind option_bind].
  destruct (makeTable_ok L cs HL Hcs) as ([tl tv] & ->). cbn [mbind option_bind]. by eexists.
Qed.

Lemma code_lengths_complete fs L lengths : code_lengths_ok fs L lengths -> (L <= 15)%nat -> complete lengths.
Proof. intros [_ H2 H3 _] HL. split; [|done]. eapply list.Forall_impl; [exact H2|]. cbn. lia. Qed.

Lemma trim_codes_ok fs m n : (1 <= m <= n)%nat -> n = length fs ->
  exists k, trim_codes n fs m = Some k /\ (m <= k <= n)%nat /\ forall s f, fs !! s = Some f -> f <> 0 -> (s < k)%nat.
Proof.
  intros Hm Hn. assert (G : forall j, (m <= j <= n)%nat -> (forall s f, fs !! s = Some f -> f <> 0 -> (s < j)%nat) ->
    exists k, trim_codes j fs m = Some k /\ (m <= k <= n)%nat /\ forall s f, fs !! s = Some f -> f <> 0 -> (s < k)%nat).
  { induction j as [|j IH]; intros Hj Hs; [lia|]. cbn [trim_codes]. destruct (lookup_lt_is_Some_2 fs j ltac:(lia)) as [x Hx]. rewrite Hx.
    cbn [mbind option_bind]. destruct (Z.eqb_spec x 0) as [->|Hx0]; cbn [andb]; [|by exists (S j)].
    destruct (Nat.ltb_spec m (S j)); [|by exists (S j)]. apply IH; [lia|]. intros s f Hsf Hf. specialize (Hs s f Hsf Hf).
    destruct (decide (s = j)) as [->|]; [congruence|lia]. }
  apply (G n); [lia|]. intros s f Hs%lookup_lt_Some _. lia.
Qed.

(** A tree from the frequencies of a block: a complete code in which every symbol that
    occurs has a code word. *)
Lemma makeFromFrequencies_ok fs m M : (2 <= m <= length fs)%nat -> (1 <= M <= 15)%nat -> Z.of_nat (length fs) <= 2 ^ Z.of_nat M ->
  Forall (fun x => 0 <= x) fs -> zsum fs <= 2 ^ 18 + 1 ->
  exists t L, HuffmanTree_makeFromFrequencies fs m (length fs) M = Some (inr t) /\ tree_of L t /\ complete L
    /\ Forall (fun x => 0 <= x <= Z.of_nat M) L /\ (m <= length L <= length fs)%nat
    /\ forall s f, fs !! s = Some f -> 0 < f -> exists l, symbol L s l.
Proof.
  intros Hm HM Hlen Hall Hsum. unfold HuffmanTree_makeFromFrequencies.
  destruct (trim_codes_ok fs m (length fs) ltac:(lia) eq_refl) as (k & -> & Hk & Hs). cbn [mbind option_bind].
  assert (Hsum' : zsum (take k fs) <= 2 ^ 18 + 1).
  { rewrite <- (take_drop k fs), zsum_app in Hsum. assert (0 <= zsum (drop k fs)); [|lia].
    assert (Hd : Forall (fun x => 0 <= x) (drop k fs)) by (by apply Forall_drop). unfold zsum. clear -Hd. induction Hd; cbn [foldr]; lia. }
  destruct (code_lengths_total (take k fs) M ltac:(lia) ltac:(by apply Forall_take) Hsum') as (lengths & -> & Hok); [rewrite length_take; lia|].
  cbn [mbind option_bind]. pose proof Hok as [Hl Hr _ Hu]. pose proof (code_lengths_complete _ _ _ Hok ltac:(lia)) as Hc.
  destruct (makeFromLengths2_ok lengths M Hc HM Hr) as (t & -> & Ht). exists t, lengths. split; [done|]. split; [done|]. split; [done|]. split; [done|].
  rewrite length_take in Hl. split; [lia|]. intros s f Hf Hpos. specialize (Hs s f Hf ltac:(lia)).
  destruct (Hu s f) as (x & Hx & Hx0); [by rewrite lookup_take_lt|done|]. rewrite list.Forall_lookup in Hr. specialize (Hr s x Hx). cbn in Hr.
  exists (Z.to_nat x). split; [rewrite Z2Nat.id by lia; done|lia].
Qed.

Lemma fixed_literals_complete : complete fixed_literals /\ complete fixed_distances.
Proof.
  assert (Hrep : forall n x, 0 <= x <= 15 -> Forall (fun y => 0 <= y <= 15) (replicate n x)).
  { intros n x Hx. apply list.Forall_forall. intros y [-> _]%elem_of_replicate. done. }
  split; (split; [|vm_compute; reflexivity]); [|apply Hrep; lia].
  unfold fixed_literals. repeat (apply list.Forall_app; split); apply Hrep; lia.
Qed.

Lemma fixed_trees_ok : exists ll d, generateFixedLitLenTree = Some (inr ll) /\ tree_of fixed_literals ll
  /\ generateFixedDistanceTree = Some (inr d) /\ tree_of fixed_distances d.
Proof.
  destruct fixed_literals_complete as [H1 H2].
  destruct (makeFromLengths2_ok fixed_literals 15 H1 ltac:(lia) (proj1 H1)) as (ll & E1 & T1).
  destruct (makeFromLengths2_ok fixed_distances 15 H2 ltac:(lia) (proj1 H2)) as (d & E2 & T2).
  exists ll, d. unfold generateFixedLitLenTree, generateFixedDistanceTree, HuffmanTree_makeFromLengths.
  fold fixed_literals. change (replicate NUM_DISTANCE_SYMBOLS 5) with fixed_distances. rewrite E1, E2. auto.
Qed.
