(* ===== verification/BitWriter.v ===== *)
(** The bit writer of the PNG encoder and the body of a compressed block (LodeDeflate).

    [written w bits]: the writer holds the bits [bits], followed by zeros up to the next
    byte.  The three writing functions append the bits of the deflate format, and the
    symbols of [encodeLZ77] become the items of RFC 1951. *)
From S2P Require Import Prelude Checksum BitReader Huffman Canonical Deflate LodeLz77 Lz77Correct LodeHuff PackageMerge PackagePool CodeLengths.
From S2P Require Import LodeTree CodeTable TreeTable LodeDeflate.

(** ** One bit *)

Record written (w : LodePNGBitWriter) (bits : list bool) : Prop := {
  wr_ok : bytes_ok (w_data w);
  wr_bp : 0 <= w_bp w < 256 /\ w_bp w mod 8 = Z.of_nat (length bits) mod 8;
  wr_bits : exists pad, bytes_bits (w_data w) = bits ++ pad /\ Forall (fun b => b = false) pad /\ (length pad < 8)%nat
}.

Lemma bytes_bits_one x : bytes_bits [x] = zbits 8 x.
Proof. change (bytes_bits [x]) with (zbits 8 x ++ []). apply app_nil_r. Qed.

Definition bools_eqb (a b : list bool) : bool := bool_decide (a = b).

Definition set_bit_check : bool :=
  forallb (fun x => forallb (fun k => forallb (fun b =>
    let z := zbits 8 (Z.of_nat x) in
    existsb id (drop k z)
    || bools_eqb (zbits 8 (u8 (Z.of_nat x .| (b2z b << Z.of_nat k)))) (take k z ++ b :: replicate (7 - k) false))
    [true; false]) (seq 0 8)) (seq 0 256).

Lemma set_bit_checked : set_bit_check = true.
Proof. vm_compute. reflexivity. Qed.

(** A bit set behind the bits of the last byte *)
Lemma set_bit x k b : byte_ok x -> (k < 8)%nat -> Forall (fun b => b = false) (drop k (zbits 8 x)) ->
  zbits 8 (u8 (x .| (b2z b << Z.of_nat k))) = take k (zbits 8 x) ++ b :: replicate (7 - k) false.
Proof.
  intros Hx Hk Hz. pose proof set_bit_checked as H. unfold set_bit_check in H. rewrite forallb_forall in H. unfold byte_ok in Hx.
  specialize (H (Z.to_nat x) ltac:(apply in_seq; lia)). rewrite Z2Nat.id in H by lia. cbv beta in H. rewrite forallb_forall in H.
  specialize (H k ltac:(apply in_seq; lia)). cbv beta in H. rewrite forallb_forall in H. specialize (H b ltac:(destruct b; cbn; auto)). cbv beta zeta in H.
  apply orb_true_iff in H as [H|H]; [|by apply bool_decide_eq_true in H].
  apply existsb_exists in H as (y & Hy & Ey). rewrite list.Forall_forall in Hz. rewrite (Hz y) in Ey; [done|]. by apply list_elem_of_In.
Qed.

Lemma WRITEBIT_ok w bits b : written w bits -> exists w', WRITEBIT w (b2z b) = Some w' /\ written w' (bits ++ [b]).
Proof.
  intros [Hok [Hbp Hmod] (pad & Eb & Hpad & Hlp)]. unfold WRITEBIT.
  assert (Hk : w_bp w .& 7 = w_bp w mod 8) by (change 7 with (Z.ones 3); by rewrite land_ones_mod by lia). rewrite Hk.
  set (k := Z.to_nat (w_bp w mod 8)). pose proof (Z.mod_pos_bound (w_bp w) 8 ltac:(lia)) as Hk8.
  assert (Hlen := f_equal length Eb). rewrite length_bytes_bits, length_app in Hlen.
  assert (G : exists d x, (if w_bp w mod 8 =? 0 then w_data w ++ [0] else w_data w) = d ++ [x] /\ bytes_ok d /\ byte_ok x
    /\ bytes_bits d ++ take k (zbits 8 x) = bits /\ Forall (fun b => b = false) (drop k (zbits 8 x))).
  { destruct (Z.eqb_spec (w_bp w mod 8) 0) as [E0|E0].
    - exists (w_data w), 0. split; [done|]. split; [done|]. split; [done|]. replace k with 0%nat by lia.
      assert (pad = []) as -> by (apply nil_length_inv; pose proof (Z.div_mod (Z.of_nat (length bits)) 8 ltac:(lia)); lia). rewrite app_nil_r in Eb. rewrite Eb, take_0, app_nil_r.
      split; [done|]. repeat constructor.
    - assert (Hne : w_data w <> []) by (intros Ed; rewrite Ed in Hlen; destruct bits; [by apply E0; rewrite Hmod|cbn in Hlen; lia]).
      destruct (exists_last Hne) as (d & x & Ed).
      exists d, x. split; [done|]. rewrite Ed in Hok. apply list.Forall_app in Hok as [Hd [Hx _]%list.Forall_cons].
      split; [exact Hd|]. split; [exact Hx|]. rewrite Ed, bytes_bits_app, bytes_bits_one in Eb.
      assert (Hld : length bits = (8 * length d + k)%nat).
      { rewrite Ed, length_app in Hlen. cbn [length] in Hlen. pose proof (Z.div_mod (Z.of_nat (length bits)) 8 ltac:(lia)). lia. }
      apply (f_equal (take (8 * length d + k))) in Eb as Et. apply (f_equal (drop (8 * length d + k))) in Eb.
      rewrite <- (length_bytes_bits d) in Et, Eb, Hld. rewrite take_app_add, take_app_length' in Et by done.
      rewrite drop_app_add, drop_app_length' in Eb by done. by rewrite Eb. }
  destruct G as (d & x & -> & Hd & Hx & Hbits & Hz). rewrite length_app. cbn [length].
  replace (Z.of_nat (length d + 1) - 1) with (Z.of_nat (length d)) by lia.
  rewrite at_of_nat, lookup_app_r, Nat.sub_diag by lia. change ([x] !! 0%nat) with (Some x). cbn [mbind option_bind].
  rewrite put_at_ok by (rewrite length_app; cbn; lia). cbn [mbind option_bind]. rewrite Nat2Z.id, insert_app_r_alt, Nat.sub_diag by lia.
  eexists. split; [done|]. split; cbn [w_data w_bp].
  - apply list.Forall_app. split; [done|]. constructor; [apply u8_range|constructor].
  - split; [apply u8_range|]. unfold u8. change (2 ^ 8) with (8 * 32). rewrite Z.rem_mul_r, (Z.mul_comm 8 (_ mod _)), Z.mod_add, Z.mod_mod by lia.
    rewrite length_app, Nat2Z.inj_add, Z.add_mod, Hmod by lia. cbn [length]. by rewrite <- Z.add_mod by lia.
  - replace (w_bp w mod 8) with (Z.of_nat k) by lia. exists (replicate (7 - k) false). rewrite bytes_bits_app.
    cbn [insert list_insert]. rewrite bytes_bits_one, set_bit by (done || lia). split; [by rewrite <- Hbits, <- !app_assoc|]. split; [by apply Forall_replicate|]. rewrite length_replicate. lia.
Qed.

(** ** Values and code words *)

Lemma bits_loop_ok v n : forall i w bits, written w bits ->
  exists w', write_loop n (Z.of_nat i) w v = Some w' /\ written w' (bits ++ map (fun j => Z.testbit v (Z.of_nat j)) (seq i n)).
Proof.
  induction n as [|n IH]; intros i w bits Hw; cbn [write_loop seq map]; [exists w; by rewrite app_nil_r|].
  rewrite bit_of. destruct (WRITEBIT_ok w bits (Z.testbit v (Z.of_nat i)) Hw) as (w1 & -> & Hw1). cbn [mbind option_bind].
  replace (Z.of_nat i + 1) with (Z.of_nat (S i)) by lia. destruct (IH (S i) w1 _ Hw1) as (w2 & -> & Hw2). exists w2. split; [done|].
  by rewrite <- app_assoc in Hw2.
Qed.

(** [writeBits] appends the low bits of a value that fits, lowest first. *)
Lemma writeBits_ok w bits v n : written w bits -> 0 <= v < 2 ^ Z.of_nat n ->
  exists w', writeBits w v (Z.of_nat n) = Some w' /\ written w' (bits ++ zbits n v).
Proof.
  intros Hw Hv. unfold writeBits. destruct (Z.eqb_spec (Z.of_nat n) 1) as [E|E].
  - assert (n = 1%nat) as -> by lia. change (2 ^ Z.of_nat 1) with 2 in Hv. assert (Hb : v = b2z (Z.testbit v 0)) by (assert (v = 0 \/ v = 1) as [->| ->] by lia; done).
    destruct (WRITEBIT_ok w bits (Z.testbit v 0) Hw) as (w1 & E1 & Hw1). rewrite <- Hb in E1. by exists w1.
  - rewrite Nat2Z.id. apply (bits_loop_ok v n 0). done.
Qed.

Lemma writeBits_z w bits v n nb : Z.of_nat n = nb -> written w bits -> 0 <= v < 2 ^ nb ->
  exists w', writeBits w v nb = Some w' /\ written w' (bits ++ zbits n v).
Proof. intros <-. apply writeBits_ok. Qed.

Lemma reversed_loop_ok v n : forall w bits, written w bits ->
  exists w', reversed_loop n w v = Some w' /\ written w' (bits ++ cbits n v).
Proof.
  induction n as [|n IH]; intros w bits Hw; cbn [reversed_loop cbits]; [exists w; by rewrite app_nil_r|].
  rewrite bit_of. destruct (WRITEBIT_ok w bits (Z.testbit v (Z.of_nat n)) Hw) as (w1 & -> & Hw1). cbn [mbind option_bind].
  destruct (IH w1 _ Hw1) as (w2 & -> & Hw2). exists w2. split; [done|]. by rewrite <- app_assoc in Hw2.
Qed.

(** A symbol with a code word: its bits are those of the canonical code. *)
Lemma write_symbol_ok w bits L t s l : written w bits -> tree_of L t -> symbol L s l ->
  exists w' c, write_symbol w t (Z.of_nat s) = Some w' /\ code_of L s = Some c /\ written w' (bits ++ c).
Proof.
  intros Hw [Hl [_ Hc]] Hs. unfold write_symbol. pose proof Hs as [Hs1 Hs2]. rewrite !at_of_nat, (Hc s _ Hs1).
  rewrite (proj2 (Z.eqb_neq _ 0)), Nat2Z.id by lia. cbn [mjoin option_join mbind option_bind]. rewrite Hl, Hs1. cbn [mbind option_bind].
  unfold writeBitsReversed. rewrite Nat2Z.id. destruct (reversed_loop_ok (word L s l) l w bits Hw) as (w' & -> & Hw').
  exists w', (cbits l (word L s l)). split; [done|]. split; [by apply code_of_word|done].
Qed.

(** ** The body of a block *)

(** Symbols whose literals and lengths satisfy [P] and whose distances satisfy [Q] *)
Inductive uses (P Q : nat -> Prop) : list Z -> Prop :=
| uses_nil : uses P Q []
| uses_lit s syms : (s < 256)%nat -> P s -> uses P Q syms -> uses P Q (Z.of_nat s :: syms)
| uses_match s e d f syms : P (257 + s)%nat -> Q d -> uses P Q syms -> uses P Q (Z.of_nat (257 + s) :: e :: Z.of_nat d :: f :: syms).

Lemma uses_mono (P Q P' Q' : nat -> Prop) syms : (forall s, P s -> P' s) -> (forall s, Q s -> Q' s) -> uses P Q syms -> uses P' Q' syms.
Proof. intros HP HQ. induction 1; [constructor|apply uses_lit; auto|apply uses_match; auto]. Qed.

(** Symbol [s] has a code word. *)
Definition has_word (L : list Z) (s : nat) : Prop := exists l, symbol L s l.

Lemma extra_bits s base n : length_codes !! s = Some (base, n) -> at_ LENGTHEXTRA (Z.of_nat s) = Some (Z.of_nat n).
Proof.
  intros H. rewrite at_of_nat. assert (E : LENGTHEXTRA = map (fun x => Z.of_nat (snd x)) length_codes) by reflexivity.
  by rewrite E, list_lookup_fmap, H.
Qed.

Lemma extra_distance_bits d base n : distance_codes !! d = Some (base, n) -> at_ DISTANCEEXTRA (Z.of_nat d) = Some (Z.of_nat n).
Proof.
  intros H. rewrite at_of_nat. assert (E : DISTANCEEXTRA = map (fun x => Z.of_nat (snd x)) distance_codes) by reflexivity.
  by rewrite E, list_lookup_fmap, H.
Qed.

(** Bits that, followed by an end code, are the items from [h] to [h'] *)
Definition item_bits (LL DL : list Z) (h : bytes) (bits : list bool) (h' : bytes) : Prop :=
  forall c, code_of LL 256 = Some c -> items LL DL h (bits ++ c) h'.

Lemma writeLZ77data_ok LL DL tll td h syms h' : lz h syms h' -> uses (has_word LL) (has_word DL) syms -> tree_of LL tll -> tree_of DL td ->
  forall w bits, written w bits ->
  exists w' ib, writeLZ77data w syms tll td = Some w' /\ written w' (bits ++ ib) /\ item_bits LL DL h ib h'.
Proof.
  intros Hlz Hcs Hll Hd. induction Hlz as [h|h b syms h' Hb Hlz IH|h s base n e d dbase m f syms h' Hs He Hdc Hf Hle Hlz IH]; intros w bits Hw.
  - exists w, []. cbn [writeLZ77data]. rewrite app_nil_r. split; [done|]. split; [done|]. intros c Hc. by constructor.
  - inversion Hcs as [|s syms' Hs256 [l Hsym] Hcs' E|s e d f syms' Hs1 Hs2 Hcs' E]; subst; [|lia]. cbn [writeLZ77data].
    destruct (write_symbol_ok w bits LL tll s l Hw Hll Hsym) as (w1 & c & -> & Hc & Hw1). cbn [mbind option_bind].
    rewrite (proj2 (Z.ltb_ge _ _)) by lia. destruct (IH Hcs' w1 _ Hw1) as (w2 & ib & -> & Hw2 & Hib).
    exists w2, (c ++ ib). split; [done|]. rewrite app_assoc. split; [done|]. intros c' Hc'. rewrite <- app_assoc. apply items_lit with s; [done|done|by apply Hib].
  - inversion Hcs as [|s' syms' Hs256 Hsym Hcs' E|s' e' d' f' syms' [l Hs1] [m' Hs2] Hcs' E]; subst; [lia|].
    assert (s' = s) as -> by lia. assert (d' = d) as -> by lia. cbn [writeLZ77data].
    destruct (write_symbol_ok w bits LL tll _ l Hw Hll Hs1) as (w1 & c & -> & Hc & Hw1). cbn [mbind option_bind].
    rewrite (proj2 (Z.ltb_lt _ _)) by lia. unfold FIRST_LENGTH_CODE_INDEX. replace (Z.of_nat (257 + s) - 257) with (Z.of_nat s) by lia.
    rewrite (extra_bits s base n Hs). cbn [mbind option_bind]. rewrite (extra_distance_bits d dbase m Hdc). cbn [mbind option_bind].
    destruct (writeBits_ok w1 _ e n Hw1 He) as (w2 & -> & Hw2). cbn [mbind option_bind].
    destruct (write_symbol_ok w2 _ DL td d m' Hw2 Hd Hs2) as (w3 & dc & -> & Hdc' & Hw3). cbn [mbind option_bind].
    destruct (writeBits_ok w3 _ f m Hw3 Hf) as (w4 & -> & Hw4). cbn [mbind option_bind].
    destruct (IH Hcs' w4 _ Hw4) as (w5 & ib & -> & Hw5 & Hib). exists w5, (c ++ zbits n e ++ dc ++ zbits m f ++ ib). split; [done|].
    rewrite <- !app_assoc in Hw5. split; [done|]. intros c' Hc'. rewrite <- !app_assoc. eapply items_match; [done|done|done|done|done|done|done|by apply Hib].
Qed.
