(* ===== verification/DynamicBlock.v ===== *)
(** Dynamic blocks of the PNG encoder (LodeDeflate): the frequencies of a block, the run-length
    coding of its code lengths, and [deflateDynamic] as a whole.  Whatever the data, the
    three trees are complete codes for what is written, the array for the coded lengths
    is large enough, and the bits are a dynamic block of RFC 1951. *)
From S2P Require Import Prelude Checksum BitReader Huffman Canonical Deflate LodeLz77 Lz77Correct LodeHuff PackageMerge PackagePool CodeLengths.
From S2P Require Import LodeTree CodeTable TreeTable LodeDeflate BitWriter.

(** ** Frequencies *)

Definition occurs (fs : list Z) (s : nat) : Prop := exists f, fs !! s = Some f /\ 0 < f.

Lemma zsum_insert fs i x y : fs !! i = Some x -> zsum (<[i := y]> fs) = zsum fs - x + y.
Proof.
  revert i. induction fs as [|f fs IH]; intros [|i] Hi; [done|done| |].
  - injection Hi as ->. change (<[0%nat := y]> (x :: fs)) with (y :: fs). rewrite !zsum_cons. lia.
  - change (<[S i := y]> (f :: fs)) with (f :: <[i := y]> fs). rewrite !zsum_cons, (IH i Hi). lia.
Qed.

Lemma occurs_insert fs i x s : (i < length fs)%nat -> 0 < x -> occurs fs s \/ s = i -> occurs (<[i := x]> fs) s.
Proof.
  intros Hi Hx Hs. destruct (decide (s = i)) as [->|Hne]; [exists x; by rewrite list_lookup_insert_eq|].
  destruct Hs as [(f & Hf & Hpos)|]; [|done]. exists f. by rewrite list_lookup_insert_ne by done.
Qed.

Lemma bump_ok fs s : (s < length fs)%nat -> Forall (fun x => 0 <= x) fs ->
  exists fs', bump fs (Z.of_nat s) = Some fs' /\ length fs' = length fs /\ Forall (fun x => 0 <= x) fs'
    /\ zsum fs' = zsum fs + 1 /\ forall k, occurs fs k \/ k = s -> occurs fs' k.
Proof.
  intros Hs Hall. destruct (lookup_lt_is_Some_2 fs s Hs) as [x Hx]. unfold bump. rewrite at_of_nat, Hx. cbn [mbind option_bind].
  rewrite put_at_ok by lia. rewrite Nat2Z.id. eexists. split; [done|]. rewrite length_insert. split; [done|].
  assert (Hx0 : 0 <= x) by (rewrite list.Forall_lookup in Hall; by apply (Hall s)).
  split; [apply Forall_insert; [done|lia]|]. split; [rewrite (zsum_insert _ _ _ _ Hx); lia|]. intros k. apply occurs_insert; [done|lia].
Qed.

Lemma length_base s base n : length_codes !! s = Some (base, n) -> 3 <= base /\ (s < 29)%nat.
Proof.
  intros H. split; [|by apply lookup_lt_Some in H]. assert (F : Forall (fun x => 3 <= fst x) length_codes) by (repeat constructor; cbn; lia).
  rewrite list.Forall_lookup in F. by apply (F s _ H).
Qed.

(** Counting the symbols of a block: no more than its bytes *)
Lemma count_symbols_ok h syms h' : lz h syms h' -> forall ll d, length ll = 286%nat -> length d = 30%nat ->
  Forall (fun x => 0 <= x) ll -> Forall (fun x => 0 <= x) d ->
  exists ll' d', count_symbols syms ll d = Some (ll', d') /\ length ll' = 286%nat /\ length d' = 30%nat
    /\ Forall (fun x => 0 <= x) ll' /\ Forall (fun x => 0 <= x) d'
    /\ zsum ll' <= zsum ll + Z.of_nat (length h') - Z.of_nat (length h) /\ zsum d' <= zsum d + Z.of_nat (length h') - Z.of_nat (length h)
    /\ (forall k, occurs ll k -> occurs ll' k) /\ (forall k, occurs d k -> occurs d' k) /\ uses (occurs ll') (occurs d') syms.
Proof.
  induction 1 as [h|h b syms h' Hb Hlz IH|h s base n e dd dbase m f syms h' Hs He Hdc Hf Hle Hlz IH]; intros ll d Hll Hd Fl Fd.
  - exists ll, d. do 5 (split; [done|]). split; [lia|]. split; [lia|]. split; [done|]. split; [done|]. constructor.
  - cbn [count_symbols]. rewrite <- (Z2Nat.id b) by lia. destruct (bump_ok ll (Z.to_nat b) ltac:(lia) Fl) as (l1 & -> & Hl1 & Fl1 & Sl1 & Ol1). cbn [mbind option_bind].
    rewrite (proj2 (Z.ltb_ge _ _)) by lia. destruct (IH l1 d ltac:(lia) Hd Fl1 Fd) as (l2 & d2 & E & ? & ? & ? & ? & S1 & S2 & O1 & O2 & U).
    rewrite length_app in S1, S2. cbn [length] in S1, S2. exists l2, d2. do 5 (split; [done|]). split; [lia|]. split; [lia|]. split; [auto|]. split; [done|].
    apply uses_lit; [lia|apply O1, Ol1; by right|done].
  - destruct (length_base s base n Hs) as [Hbase Hs29]. pose proof (lookup_lt_Some _ _ _ Hdc) as Hd30. change (length distance_codes) with 30%nat in Hd30.
    cbn [count_symbols]. destruct (bump_ok ll (257 + s) ltac:(lia) Fl) as (l1 & -> & Hl1 & Fl1 & Sl1 & Ol1). cbn [mbind option_bind].
    rewrite (proj2 (Z.ltb_lt _ _)) by lia. destruct (bump_ok d dd ltac:(lia) Fd) as (d1 & -> & Hd1 & Fd1 & Sd1 & Od1). cbn [mbind option_bind].
    destruct (IH l1 d1 ltac:(lia) ltac:(lia) Fl1 Fd1) as (l2 & d2 & E & ? & ? & ? & ? & S1 & S2 & O1 & O2 & U).
    rewrite length_lz_copy in S1, S2. exists l2, d2. do 5 (split; [done|]). split; [lia|]. split; [lia|]. split; [auto|]. split; [auto|].
    apply uses_match; [apply O1, Ol1; by right|apply O2, Od1; by right|done].
Qed.

(** ** Run-length coding *)

(** What the coded lengths stand for; [prev] is the length before, if any. *)
Inductive rle : option Z -> list Z -> list Z -> Prop :=
| rle_nil prev : rle prev [] []
| rle_len prev l e ls : (l < 16)%nat -> rle (Some (Z.of_nat l)) e ls -> rle prev (Z.of_nat l :: e) (Z.of_nat l :: ls)
| rle_repeat p n e ls : (n < 4)%nat -> rle (Some p) e ls -> rle (Some p) (16 :: Z.of_nat n :: e) (replicate (3 + n) p ++ ls)
| rle_zeros prev n e ls : (n < 8)%nat -> rle (Some 0) e ls -> rle prev (17 :: Z.of_nat n :: e) (replicate (3 + n) 0 ++ ls)
| rle_many prev n e ls : (n < 128)%nat -> rle (Some 0) e ls -> rle prev (18 :: Z.of_nat n :: e) (replicate (11 + n) 0 ++ ls).

Lemma repeats_split x ls : exists rest, ls = replicate (repeats x ls) x ++ rest.
Proof.
  induction ls as [|y ls [rest IH]]; [by exists []|]. cbn [repeats]. destruct (Z.eqb_spec y x) as [->|]; [|by exists (y :: ls)].
  exists rest. cbn [replicate app]. by rewrite <- IH.
Qed.

Lemma push_entry_ok cap e v : (length e < cap)%nat -> push cap e v = Some (e ++ [v]).
Proof. intros H. unfold push. by rewrite option_guard_True. Qed.

Fixpoint sixes (num : nat) : list Z := match num with O => [] | S num => 16 :: 3 :: sixes num end.

Lemma push_repeats_ok num cap : forall e, (length e + 2 * num <= cap)%nat -> push_repeats num cap e = Some (e ++ sixes num).
Proof.
  induction num as [|num IH]; intros e He; cbn [push_repeats sixes]; [by rewrite app_nil_r|].
  rewrite push_entry_ok by lia. cbn [mbind option_bind]. rewrite push_entry_ok by (rewrite length_app; cbn; lia). cbn [mbind option_bind].
  rewrite IH by (rewrite !length_app; cbn; lia). by rewrite <- !app_assoc.
Qed.

Lemma length_sixes num : length (sixes num) = (2 * num)%nat.
Proof. induction num; cbn [sixes length]; lia. Qed.

Lemma rle_sixes x num e ls : rle (Some x) e ls -> rle (Some x) (sixes num ++ e) (replicate (6 * num) x ++ ls).
Proof.
  intros H. induction num as [|num IH]; [done|]. cbn [sixes app].
  replace (6 * S num)%nat with (3 + 3 + 6 * num)%nat by lia. rewrite replicate_add, <- app_assoc. change 3 with (Z.of_nat 3). apply rle_repeat; [lia|done].
Qed.

Lemma drop_run (x : Z) j k rest : (k <= j)%nat -> drop k (replicate j x ++ rest) = replicate (j - k) x ++ rest.
Proof. intros H. by rewrite drop_app_le, drop_replicate by (rewrite ?length_replicate; lia). Qed.

(** A step that codes [k] lengths with [e1] leaves the rest to the loop. *)
Definition rle_step (ls : list Z) (k : nat) (e1 : list Z) : Prop :=
  (0 < k <= length ls)%nat /\ (length e1 <= k)%nat /\ forall prev e' , (forall prev, rle prev e' (drop k ls)) -> rle prev (e1 ++ e') ls.

Lemma step_run x j k tl e1 : (0 < k <= j)%nat -> (length e1 <= k)%nat ->
  (forall prev e', (forall prev, rle prev e' (replicate (j - k) x ++ tl)) -> rle prev (e1 ++ e') (replicate k x ++ replicate (j - k) x ++ tl)) ->
  rle_step (replicate j x ++ tl) k e1.
Proof.
  intros Hk Hl H. split; [rewrite length_app, length_replicate; lia|]. split; [done|]. intros prev e' He'. rewrite drop_run in He' by lia.
  replace j with (k + (j - k))%nat at 1 by lia. rewrite replicate_add, <- app_assoc. by apply H.
Qed.

Lemma step_zeros j tl : (3 <= j <= 10)%nat -> rle_step (replicate j 0 ++ tl) j [17; Z.of_nat j - 3].
Proof.
  intros Hj. apply step_run; [lia|cbn; lia|]. intros prev e' He'. replace (Z.of_nat j - 3) with (Z.of_nat (j - 3)) by lia.
  replace (replicate j 0) with (replicate (3 + (j - 3)) 0) by (f_equal; lia). apply rle_zeros; [lia|done].
Qed.

Lemma step_many j k tl : (11 <= k <= j)%nat -> (k <= 138)%nat -> rle_step (replicate j 0 ++ tl) k [18; Z.of_nat k - 11].
Proof.
  intros Hk H138. apply step_run; [lia|cbn; lia|]. intros prev e' He'. replace (Z.of_nat k - 11) with (Z.of_nat (k - 11)) by lia.
  replace (replicate k 0) with (replicate (11 + (k - 11)) 0) by (f_equal; lia). apply rle_many; [lia|done].
Qed.

Lemma rle_first x prev e ls : 0 <= x < 16 -> rle (Some x) e ls -> rle prev (x :: e) (x :: ls).
Proof. intros Hx H. rewrite <- (Z2Nat.id x) in * by lia. apply rle_len; [lia|done]. Qed.

Lemma step_sixes x num more tl : 0 <= x < 16 -> rle_step (replicate (S (6 * num + more)) x ++ tl) (S (6 * num)) (x :: sixes num).
Proof.
  intros Hx. apply step_run; [lia|cbn [length]; rewrite length_sixes; lia|]. intros prev e' He'. cbn [replicate app].
  apply rle_first; [done|]. apply rle_sixes, He'.
Qed.

Lemma step_more x num more tl : 0 <= x < 16 -> (3 <= more < 6)%nat ->
  rle_step (replicate (S (6 * num + more)) x ++ tl) (S (6 * num + more)) (x :: sixes num ++ [16; Z.of_nat more - 3]).
Proof.
  intros Hx Hm. apply step_run; [lia|cbn [length]; rewrite length_app, length_sixes; cbn; lia|]. intros prev e' He'. cbn [replicate app].
  apply rle_first; [done|]. rewrite <- app_assoc, replicate_add, <- app_assoc. apply rle_sixes. cbn [app].
  replace (Z.of_nat more - 3) with (Z.of_nat (more - 3)) by lia.
  replace (replicate more x) with (replicate (3 + (more - 3)) x) by (f_equal; lia). apply rle_repeat; [lia|done].
Qed.

Lemma step_one x rest : 0 <= x < 16 -> rle_step (x :: rest) 1 [x].
Proof. intros Hx. split; [cbn; lia|]. split; [cbn; lia|]. intros prev e' He'. apply rle_first; [done|]. apply He'. Qed.

(** [push] of several values *)
Lemma push2_ok cap e a b : (length e + 2 <= cap)%nat -> (e ← push cap e a; push cap e b) = Some (e ++ [a; b]).
Proof. intros H. rewrite push_entry_ok by lia. cbn [mbind option_bind]. rewrite push_entry_ok by (rewrite length_app; cbn; lia). by rewrite <- app_assoc. Qed.

Lemma push2_then {A} cap e a b (k : list Z -> option A) : (length e + 2 <= cap)%nat ->
  (e ← push cap e a; e ← push cap e b; k e) = k (e ++ [a; b]).
Proof.
  intros H. pose proof (push2_ok cap e a b H) as E. rewrite push_entry_ok in * by lia. cbn [mbind option_bind] in *. by rewrite E.
Qed.

Lemma rle_loop_ok cap fuel : forall ls e, (length ls < fuel)%nat -> (length e + length ls <= cap)%nat -> Forall (fun x => 0 <= x < 16) ls ->
  exists e', rle_loop fuel cap ls e = Some (e ++ e') /\ (length e' <= length ls)%nat /\ forall prev, rle prev e' ls.
Proof.
  induction fuel as [|fuel IH]; intros ls e Hf Hcap Hall; [lia|]. cbn [rle_loop].
  destruct ls as [|x rest]; [exists []; rewrite app_nil_r; split; [done|]; split; [done|]; intros; constructor|].
  assert (Hgo : forall k e1, rle_step (x :: rest) k e1 -> exists e', rle_loop fuel cap (drop k (x :: rest)) (e ++ e1) = Some (e ++ e')
    /\ (length e' <= length (x :: rest))%nat /\ forall prev, rle prev e' (x :: rest)).
  { intros k e1 (Hk & Hl & Hr). destruct (IH (drop k (x :: rest)) (e ++ e1)) as (e' & E & Hle & Hrle);
      [rewrite length_drop; lia|rewrite length_app, length_drop; lia|by apply Forall_drop|].
    rewrite length_drop in Hle. exists (e1 ++ e'). rewrite app_assoc. split; [done|]. rewrite length_app. split; [lia|]. intros prev. by apply Hr. }
  destruct (repeats_split x rest) as [tl Etl]. apply list.Forall_cons in Hall as [Hx _].
  assert (Els : x :: rest = replicate (S (repeats x rest)) x ++ tl) by (cbn [replicate app]; by rewrite <- Etl).
  assert (Hlen : length (x :: rest) = (S (repeats x rest) + length tl)%nat) by (by rewrite Els at 1; rewrite length_app, length_replicate).
  set (j := repeats x rest) in *. destruct ((x =? 0) && (2 <=? j)%nat) eqn:Ez.
  - apply andb_true_iff in Ez as [->%Z.eqb_eq Hj%Nat.leb_le]. destruct (Nat.leb_spec (S j) 10).
    + rewrite push2_then by lia. apply Hgo. rewrite Els. apply step_zeros. lia.
    + rewrite push2_then by lia. apply Hgo. rewrite Els. apply step_many; destruct (Nat.ltb_spec 138 (S j)); lia.
  - destruct (Nat.leb_spec 3 j) as [Hj|Hj]; [|rewrite push_entry_ok by lia; cbn [mbind option_bind]; apply (Hgo 1%nat [x]); by apply step_one].
    pose proof (Nat.div_mod_eq j 6) as Hdm. pose proof (Nat.mod_upper_bound j 6 ltac:(lia)) as Hm. set (num := (j / 6)%nat) in *. set (more := (j mod 6)%nat) in *.
    rewrite push_entry_ok by lia. cbn [mbind option_bind]. rewrite push_repeats_ok by (rewrite length_app; cbn [length] in *; lia). cbn [mbind option_bind].
    destruct (Nat.leb_spec 3 more).
    + rewrite push2_then by (rewrite !length_app, length_sixes; cbn [length] in *; lia). rewrite <- !app_assoc.
      apply (Hgo (S j) (x :: sixes num ++ [16; Z.of_nat more - 3])). rewrite Els. replace j with (6 * num + more)%nat by lia. apply step_more; [done|lia].
    + rewrite <- !app_assoc. apply (Hgo (S (j - more)) (x :: sixes num)). rewrite Els. replace (S (j - more)) with (S (6 * num)) by lia.
      replace j with (6 * num + more)%nat by lia. by apply step_sixes.
Qed.

(** The code length symbols of coded lengths satisfy [P]. *)
Inductive cl_uses (P : nat -> Prop) : list Z -> Prop :=
| clu_nil : cl_uses P []
| clu_len s e : (s < 16)%nat -> P s -> cl_uses P e -> cl_uses P (Z.of_nat s :: e)
| clu_ext s x e : (16 <= s <= 18)%nat -> P s -> cl_uses P e -> cl_uses P (Z.of_nat s :: x :: e).

Lemma cl_uses_mono (P P' : nat -> Prop) e : (forall s, P s -> P' s) -> cl_uses P e -> cl_uses P' e.
Proof. intros H. induction 1; [constructor|apply clu_len; auto|apply clu_ext; auto]. Qed.

Lemma count_coded_ok prev e ls : rle prev e ls -> forall fs, length fs = 19%nat -> Forall (fun x => 0 <= x) fs ->
  exists fs', count_coded e fs = Some fs' /\ length fs' = 19%nat /\ Forall (fun x => 0 <= x) fs' /\ zsum fs' <= zsum fs + Z.of_nat (length e)
    /\ (forall k, occurs fs k -> occurs fs' k) /\ cl_uses (occurs fs') e.
Proof.
  assert (Hext : forall (s : nat) x e, (16 <= s <= 18)%nat ->
    (forall fs, length fs = 19%nat -> Forall (fun x => 0 <= x) fs -> exists fs', count_coded e fs = Some fs' /\ length fs' = 19%nat
       /\ Forall (fun x => 0 <= x) fs' /\ zsum fs' <= zsum fs + Z.of_nat (length e) /\ (forall k, occurs fs k -> occurs fs' k) /\ cl_uses (occurs fs') e) ->
    forall fs, length fs = 19%nat -> Forall (fun x => 0 <= x) fs -> exists fs', count_coded (Z.of_nat s :: x :: e) fs = Some fs' /\ length fs' = 19%nat
       /\ Forall (fun x => 0 <= x) fs' /\ zsum fs' <= zsum fs + Z.of_nat (length (Z.of_nat s :: x :: e)) /\ (forall k, occurs fs k -> occurs fs' k)
       /\ cl_uses (occurs fs') (Z.of_nat s :: x :: e)).
  { intros s x e' Hs IH fs Hfs Hall. cbn [count_coded]. destruct (bump_ok fs s ltac:(lia) Hall) as (f1 & -> & Hl1 & Hall1 & S1 & O1). cbn [mbind option_bind].
    rewrite (proj2 (Z.leb_le _ _)) by lia. destruct (IH f1 ltac:(lia) Hall1) as (f2 & -> & Hl2 & Hall2 & S2 & O2 & U). exists f2. do 3 (split; [done|]).
    cbn [length]. split; [lia|]. split; [auto|]. apply clu_ext; [done|apply O2, O1; by right|done]. }
  induction 1 as [prev|prev l e ls Hl Hr IH|p n e ls Hn Hr IH|prev n e ls Hn Hr IH|prev n e ls Hn Hr IH].
  - intros fs Hfs Hall. exists fs. do 3 (split; [done|]). split; [cbn; lia|]. split; [done|]. constructor.
  - intros fs Hfs Hall. cbn [count_coded]. destruct (bump_ok fs l ltac:(lia) Hall) as (f1 & -> & Hl1 & Hall1 & S1 & O1). cbn [mbind option_bind].
    rewrite (proj2 (Z.leb_gt _ _)) by lia. destruct (IH f1 ltac:(lia) Hall1) as (f2 & -> & Hl2 & Hall2 & S2 & O2 & U). exists f2. do 3 (split; [done|]).
    cbn [length]. split; [lia|]. split; [auto|]. apply clu_len; [done|apply O2, O1; by right|done].
  - apply (Hext 16%nat); [lia|done].
  - apply (Hext 17%nat); [lia|done].
  - apply (Hext 18%nat); [lia|done].
Qed.

Lemma cl_uses_ext P s x e : (16 <= s)%nat -> cl_uses P (Z.of_nat s :: x :: e) -> P s /\ cl_uses P e.
Proof.
  intros Hs H. inversion H as [|s' e' Hs' _ Hu E|s' x' e' Hs' HP Hu E]; subst; [lia|]. assert (s' = s) as -> by lia. done.
Qed.

(** A repeat code with its extra bits *)
Lemma write_ext_ok CL t s nb n e w bits : In (s, nb) [(16, 2); (17, 3); (18, 7)]%nat -> has_word CL s -> tree_of CL t ->
  0 <= n < 2 ^ Z.of_nat nb -> written w bits ->
  exists w1 c, write_coded w (Z.of_nat s :: n :: e) t = write_coded w1 e t /\ code_of CL s = Some c /\ written w1 (bits ++ c ++ zbits nb n).
Proof.
  intros Hin [m Hm] Ht Hn Hw. cbn [write_coded]. destruct (write_symbol_ok w bits CL t s m Hw Ht Hm) as (w1 & c & -> & Hc & Hw1). cbn [mbind option_bind].
  destruct (writeBits_ok w1 _ n nb Hw1 Hn) as (w2 & E2 & Hw2). exists w2, c. rewrite <- app_assoc in Hw2. split; [|done].
  destruct Hin as [[= <- <-]|[[= <- <-]|[[= <- <-]|[]]]].
  - change (Z.of_nat 16 =? 16) with true. change (Z.of_nat 2) with 2 in E2. cbv iota. by rewrite E2.
  - change (Z.of_nat 17 =? 16) with false. change (Z.of_nat 17 =? 17) with true. change (Z.of_nat 3) with 3 in E2. cbv iota. by rewrite E2.
  - change (Z.of_nat 18 =? 16) with false. change (Z.of_nat 18 =? 17) with false. change (Z.of_nat 18 =? 18) with true. change (Z.of_nat 7) with 7 in E2.
    cbv iota. by rewrite E2.
Qed.

Lemma write_coded_ok CL t prev e ls : rle prev e ls -> cl_uses (has_word CL) e -> tree_of CL t ->
  forall w bits, written w bits -> exists w' b, write_coded w e t = Some w' /\ written w' (bits ++ b) /\ coded CL prev b ls.
Proof.
  intros Hr Hu Ht. induction Hr as [prev|prev l e ls Hl Hr IH|p n e ls Hn Hr IH|prev n e ls Hn Hr IH|prev n e ls Hn Hr IH]; intros w bits Hw.
  - exists w, []. rewrite app_nil_r. split; [done|]. split; [done|]. constructor.
  - inversion Hu as [|s e' Hs [m Hm] Hu' E|s x e' Hs _ Hu' E]; subst; [|lia]. assert (s = l) as -> by lia. cbn [write_coded].
    destruct (write_symbol_ok w bits CL t l m Hw Ht Hm) as (w1 & c & -> & Hc & Hw1). cbn [mbind option_bind].
    rewrite !(proj2 (Z.eqb_neq _ _)) by lia. destruct (IH Hu' w1 _ Hw1) as (w2 & b & -> & Hw2 & Hb). exists w2, (c ++ b). rewrite app_assoc.
    split; [by destruct e|]. split; [done|]. by apply coded_len.
  - apply (cl_uses_ext _ 16) in Hu as [Hs Hu]; [|lia].
    destruct (write_ext_ok CL t 16 2 (Z.of_nat n) e w bits) as (w1 & c & E1 & Hc & Hw1); [cbn; auto|done|done|cbn; lia|done|].
    change (Z.of_nat 16) with 16 in E1. rewrite E1. destruct (IH Hu w1 _ Hw1) as (w3 & b & -> & Hw3 & Hb).
    exists w3, (c ++ zbits 2 (Z.of_nat n) ++ b). rewrite <- !app_assoc in Hw3. split; [done|]. split; [done|]. by apply coded_repeat.
  - apply (cl_uses_ext _ 17) in Hu as [Hs Hu]; [|lia].
    destruct (write_ext_ok CL t 17 3 (Z.of_nat n) e w bits) as (w1 & c & E1 & Hc & Hw1); [cbn; auto|done|done|cbn; lia|done|].
    change (Z.of_nat 17) with 17 in E1. rewrite E1. destruct (IH Hu w1 _ Hw1) as (w3 & b & -> & Hw3 & Hb).
    exists w3, (c ++ zbits 3 (Z.of_nat n) ++ b). rewrite <- !app_assoc in Hw3. split; [done|]. split; [done|]. by apply coded_zeros.
  - apply (cl_uses_ext _ 18) in Hu as [Hs Hu]; [|lia].
    destruct (write_ext_ok CL t 18 7 (Z.of_nat n) e w bits) as (w1 & c & E1 & Hc & Hw1); [cbn; auto|done|done|cbn; lia|done|].
    change (Z.of_nat 18) with 18 in E1. rewrite E1. destruct (IH Hu w1 _ Hw1) as (w3 & b & -> & Hw3 & Hb).
    exists w3, (c ++ zbits 7 (Z.of_nat n) ++ b). rewrite <- !app_assoc in Hw3. split; [done|]. split; [done|]. by apply coded_many_zeros.
Qed.

(** ** The code length code *)

Lemma ordered_all T : length T = 19%nat -> ordered code_length_order (map (fun o => nth o T 0) code_length_order) (replicate 19 0) = T.
Proof. intros HT. do 19 (destruct T as [|? T]; [done|]). destruct T; [reflexivity|done]. Qed.

Section CodeLengthCode.
Context (T : list Z) (HT : length T = 19%nat) (t : HuffmanTree) (Ht : t_lengths t = T).

(** The lengths in the order of transmission *)
Definition in_order : list Z := map (fun o => nth o T 0) code_length_order.

Lemma clcl_length_ok i : (i < 19)%nat -> clcl_length t i = Some (nth i in_order 0).
Proof.
  intros Hi. unfold clcl_length. assert (E : CLCL_ORDER = map Z.of_nat code_length_order) by reflexivity. rewrite E, list_lookup_fmap.
  destruct (lookup_lt_is_Some_2 code_length_order i Hi) as [o Ho]. rewrite Ho. cbn [fmap option_fmap option_map mbind option_bind]. rewrite at_of_nat, Ht.
  assert (Ho19 : (o < 19)%nat).
  { assert (F : Forall (fun o => (o < 19)%nat) code_length_order) by (repeat constructor; lia). rewrite list.Forall_lookup in F. by apply (F i). }
  destruct (lookup_lt_is_Some_2 T o ltac:(lia)) as [x Hx]. rewrite Hx. f_equal. symmetry. apply nth_lookup_Some.
  unfold in_order. rewrite list_lookup_fmap, Ho. cbn. f_equal. by apply nth_lookup_Some.
Qed.

Lemma length_in_order : length in_order = 19%nat.
Proof. done. Qed.

Lemma trim_cl_ok : exists k, trim_cl 19 t = Some k /\ (4 <= k <= 19)%nat /\ drop k in_order = replicate (19 - k) 0.
Proof.
  assert (G : forall n, (4 <= n <= 19)%nat -> drop n in_order = replicate (19 - n) 0 ->
    exists k, trim_cl n t = Some k /\ (4 <= k <= 19)%nat /\ drop k in_order = replicate (19 - k) 0).
  { induction n as [|n IH]; intros Hn Hd; [lia|]. cbn [trim_cl]. destruct (Nat.ltb_spec 4 (S n)); [|by exists (S n)].
    rewrite clcl_length_ok by lia. cbn [mbind option_bind]. destruct (Z.eqb_spec (nth n in_order 0) 0) as [E|E]; [|by exists (S n)].
    apply IH; [lia|]. destruct (lookup_lt_is_Some_2 in_order n ltac:(rewrite length_in_order; lia)) as [x Hx]. rewrite (drop_S _ _ _ Hx), Hd.
    rewrite (nth_lookup_Some _ _ _ _ Hx) in E. subst x. replace (19 - n)%nat with (S (19 - S n)) by lia. done. }
  apply (G 19%nat); [lia|done].
Qed.

Lemma code_lengths_in_order k : (k <= 19)%nat -> drop k in_order = replicate (19 - k) 0 -> code_lengths (take k in_order) = T.
Proof.
  intros Hk Hd. unfold code_lengths. rewrite length_take, length_in_order, Nat.min_l by lia. rewrite <- Hd, take_drop.
  by apply ordered_all.
Qed.

Lemma write_cl_ok n : forall i w bits, (i + n <= 19)%nat -> Forall (fun x => 0 <= x < 8) T -> written w bits ->
  exists w', write_cl n i w t = Some w' /\ written w' (bits ++ mjoin (map (zbits 3) (take n (drop i in_order)))).
Proof.
  induction n as [|n IH]; intros i w bits Hi HT8 Hw; cbn [write_cl]; [exists w; by rewrite app_nil_r|].
  rewrite clcl_length_ok by lia. cbn [mbind option_bind]. destruct (lookup_lt_is_Some_2 in_order i ltac:(rewrite length_in_order; lia)) as [x Hx].
  rewrite (nth_lookup_Some _ _ _ _ Hx). assert (Hx8 : 0 <= x < 8).
  { unfold in_order in Hx. rewrite list_lookup_fmap in Hx. destruct (code_length_order !! i) as [o|]; [|done]. injection Hx as <-.
    destruct (nth_lookup_or_length T o 0) as [E|E]; [|rewrite nth_overflow by lia; lia]. rewrite list.Forall_lookup in HT8. by apply (HT8 o). }
  destruct (writeBits_z w bits x 3 3 eq_refl Hw Hx8) as (w1 & -> & Hw1). cbn [mbind option_bind].
  destruct (IH (S i) w1 _ ltac:(lia) HT8 Hw1) as (w2 & -> & Hw2). exists w2. split; [done|]. rewrite (drop_S _ _ _ Hx).
  cbn [take map]. change (mjoin (zbits 3 x :: ?r)) with (zbits 3 x ++ mjoin r). by rewrite app_assoc.
Qed.
End CodeLengthCode.

(** ** The block *)

(** One block: its final bit and the bits of [block] *)
Definition block_bits (final : bool) (h h' : bytes) (bits : list bool) : Prop :=
  exists b, bits = final :: b /\ forall rest, block h (b ++ rest) h' rest.

Lemma write_bit_ok w bits (b : bool) : written w bits -> exists w', writeBits w (b2z b) 1 = Some w' /\ written w' (bits ++ [b]).
Proof. intros Hw. unfold writeBits. rewrite Z.eqb_refl. by apply WRITEBIT_ok. Qed.

Lemma write_dynamic_ok w bits (final : bool) h syms h' LL DL CL tll td tcl e :
  tree_of LL tll -> complete LL -> (257 <= length LL <= 286)%nat -> tree_of DL td -> complete DL -> (2 <= length DL <= 30)%nat ->
  tree_of CL tcl -> complete CL -> length CL = 19%nat -> Forall (fun x => 0 <= x <= 7) CL ->
  lz h syms h' -> uses (has_word LL) (has_word DL) syms -> has_word LL 256 -> rle None e (LL ++ DL) -> cl_uses (has_word CL) e ->
  written w bits ->
  exists w' b, write_dynamic w (b2z final) syms tll td tcl e = Some (inr w') /\ written w' (bits ++ b) /\ block_bits final h h' b.
Proof.
  intros Tl Cl Nl Td Cd Nd Tc Cc Nc C7 Hlz Hu [l Hend] Hrle Hclu Hw. unfold write_dynamic.
  rewrite (proj1 Tl), (proj1 Td), !Nat.min_l by lia.
  destruct (trim_cl_ok CL Nc tcl (proj1 Tc)) as (k & Ek & Hk & Hdrop). unfold NUM_CODE_LENGTH_CODES. rewrite Ek. cbn [mbind option_bind].
  destruct (write_bit_ok w bits final Hw) as (w1 & -> & Hw1). cbn [mbind option_bind].
  destruct (write_bit_ok w1 _ false Hw1) as (w2 & E2 & Hw2). change (b2z false) with 0 in E2. rewrite E2. cbn [mbind option_bind].
  destruct (write_bit_ok w2 _ true Hw2) as (w3 & E3 & Hw3). change (b2z true) with 1 in E3. rewrite E3. cbn [mbind option_bind].
  destruct (writeBits_z w3 _ (Z.of_nat (length LL) - 257) 5 5 eq_refl Hw3 ltac:(lia)) as (w4 & -> & Hw4). cbn [mbind option_bind].
  destruct (writeBits_z w4 _ (Z.of_nat (length DL) - 1) 5 5 eq_refl Hw4 ltac:(lia)) as (w5 & -> & Hw5). cbn [mbind option_bind].
  destruct (writeBits_z w5 _ (Z.of_nat k - 4) 4 4 eq_refl Hw5 ltac:(lia)) as (w6 & -> & Hw6). cbn [mbind option_bind].
  assert (C8 : Forall (fun x => 0 <= x < 8) CL) by (eapply list.Forall_impl; [exact C7|]; cbn; lia).
  destruct (write_cl_ok CL Nc tcl (proj1 Tc) k 0 w6 _ ltac:(lia) C8 Hw6) as (w7 & -> & Hw7). cbn [mbind option_bind]. rewrite drop_0 in Hw7.
  destruct (write_coded_ok CL tcl None e _ Hrle Hclu Tc w7 _ Hw7) as (w8 & lb & -> & Hw8 & Hlb). cbn [mbind option_bind].
  destruct (writeLZ77data_ok LL DL tll td h syms h' Hlz Hu Tl Td w8 _ Hw8) as (w9 & ib & -> & Hw9 & Hib). cbn [mbind option_bind].
  pose proof Hend as [He1 He2]. rewrite (at_of_nat LL 256 : at_ LL 256 = _), He1. cbn [mbind option_bind]. rewrite (proj2 (Z.eqb_neq _ 0)) by lia.
  destruct (write_symbol_ok w9 _ LL tll 256 l Hw9 Tl Hend) as (w10 & c & E10 & Hc & Hw10). change (Z.of_nat 256) with 256 in E10. rewrite E10.
  cbn [fmap option_fmap option_map]. eexists w10, _. split; [done|]. rewrite <- !app_assoc in Hw10. split; [exact Hw10|].
  eexists. split; [cbn [app]; reflexivity|]. intros rest.
  assert (Ev : length (take k (in_order CL)) = k) by (rewrite length_take, length_in_order; lia).
  assert (Ecl : code_lengths (take k (in_order CL)) = CL) by (apply code_lengths_in_order; [done|lia|done]).
  pose proof (block_dynamic h (length LL) (length DL) (take k (in_order CL)) lb (LL ++ DL) (ib ++ c) h' rest) as B.
  rewrite Ev, Ecl, take_app_length, drop_app_length in B. rewrite <- !app_assoc in B. cbn [app] in *. rewrite <- !app_assoc. apply B; clear B.
  - done.
  - lia.
  - lia.
  - apply Forall_take. unfold in_order. apply list.Forall_forall. intros x (o & -> & _)%list_elem_of_fmap.
    destruct (nth_lookup_or_length CL o 0) as [E|E]; [|rewrite nth_overflow by lia; lia]. rewrite list.Forall_lookup in C8. by apply (C8 o).
  - by apply complete_enough_of.
  - done.
  - by rewrite length_app.
  - by apply complete_enough_of.
  - by apply complete_enough_of.
  - by apply Hib.
Qed.

(** A window size the compressor accepts *)
Definition settings_ok (s : LodePNGCompressSettings) : Prop :=
  use_lz77 s = true -> exists k, 0 <= k <= 15 /\ windowsize (lz77 s) = 2 ^ k.

(** The chains when the data up to [pos] was compressed *)
Definition hash_state (s : LodePNGCompressSettings) (data : bytes) (pos : Z) (h : Hash) : Prop :=
  use_lz77 s = true -> hash_ok data (windowsize (lz77 s)) pos h.

Lemma lz_literals data a n : bytes_ok data -> (a + n <= length data)%nat -> lz (take a data) (sub data a n) (take (a + n) data).
Proof.
  intros Hd. revert a. induction n as [|n IH]; intros a Hl; [rewrite Nat.add_0_r; constructor|].
  destruct (lookup_lt_is_Some_2 data a ltac:(lia)) as [x Hx]. unfold sub. rewrite (drop_S _ _ _ Hx). cbn [take].
  unfold bytes_ok in Hd. rewrite list.Forall_lookup in Hd. apply lz_lit; [apply (Hd a x Hx)|]. rewrite <- (take_S_r _ _ _ Hx).
  replace (a + S n)%nat with (S a + n)%nat by lia. apply IH. lia.
Qed.

Lemma block_symbols_ok s data h a b : bytes_ok data -> 0 <= a <= b -> b <= Z.of_nat (length data) -> settings_ok s -> hash_state s data a h ->
  exists syms h', block_symbols s h data a b = Some (inr (syms, h')) /\ lz (take (Z.to_nat a) data) syms (take (Z.to_nat b) data) /\ hash_state s data b h'.
Proof.
  intros Hd Hab Hb Hs Hh. unfold block_symbols, settings_ok, hash_state in *. destruct (use_lz77 s).
  - destruct (Hs eq_refl) as (k & Hk & Hw). destruct (encode_lossless data (lz77 s) k h a b Hd Hab Hb Hk Hw (Hh eq_refl)) as (out & h' & E & Hlz & Hh').
    exists out, h'. done.
  - eexists _, h. split; [done|]. split; [|done]. pose proof (lz_literals data (Z.to_nat a) (Z.to_nat (b - a)) Hd ltac:(lia)) as H.
    by replace (Z.to_nat a + Z.to_nat (b - a))%nat with (Z.to_nat b) in H by lia.
Qed.

Lemma zsum_replicate n : zsum (replicate n 0) = 0.
Proof. induction n as [|n IH]; [done|]. cbn [replicate]. rewrite zsum_cons, IH. done. Qed.

Lemma no_frequencies n : Forall (fun x => 0 <= x) (replicate n 0).
Proof. apply list.Forall_forall. intros x [-> _]%elem_of_replicate. lia. Qed.

(** The frequencies of a block, with the end code *)
Lemma block_frequencies h syms h' : lz h syms h' -> Z.of_nat (length h') - Z.of_nat (length h) <= 2 ^ 18 ->
  exists ll0 ll d, count_symbols syms (replicate 286 0) (replicate 30 0) = Some (ll0, d) /\ put_at ll0 256 1 = Some ll
    /\ length ll = 286%nat /\ length d = 30%nat /\ Forall (fun x => 0 <= x) ll /\ Forall (fun x => 0 <= x) d
    /\ zsum ll <= 2 ^ 18 + 1 /\ zsum d <= 2 ^ 18 + 1 /\ uses (occurs ll) (occurs d) syms /\ occurs ll 256.
Proof.
  intros Hlz Hsize.
  destruct (count_symbols_ok h syms h' Hlz (replicate 286 0) (replicate 30 0)) as (ll0 & d & E & L1 & L2 & F1 & F2 & S1 & S2 & _ & _ & U);
    [apply length_replicate|apply length_replicate|apply no_frequencies|apply no_frequencies|].
  rewrite !zsum_replicate in S1, S2. destruct (lookup_lt_is_Some_2 ll0 256 ltac:(lia)) as [x Hx].
  assert (Hx0 : 0 <= x) by (rewrite list.Forall_lookup in F1; by apply (F1 256%nat)).
  exists ll0, (<[256%nat := 1]> ll0), d. split; [done|]. split; [by rewrite put_at_ok by lia|]. rewrite length_insert. split; [done|]. split; [done|].
  split; [apply Forall_insert; [done|lia]|]. split; [done|]. split; [rewrite (zsum_insert _ _ _ _ Hx); lia|]. split; [lia|]. split.
  - revert U. apply uses_mono; [|done]. intros k Hk. apply occurs_insert; [lia|lia|by left].
  - apply occurs_insert; [lia|lia|by right].
Qed.

Lemma occurs_has_word fs L : (forall s f, fs !! s = Some f -> 0 < f -> exists l, symbol L s l) -> forall s, occurs fs s -> has_word L s.
Proof. intros H s (f & Hf & Hpos). by apply (H s f). Qed.

(** [deflateDynamic] turns every block of at most 2^18 bytes into a dynamic block of
    RFC 1951 that stands for it. *)
Lemma deflateDynamic_ok w bits h data a b s (final : bool) : bytes_ok data -> 0 <= a <= b -> b <= Z.of_nat (length data) -> b - a <= 2 ^ 18 ->
  settings_ok s -> hash_state s data a h -> written w bits ->
  exists w' h' bb, deflateDynamic w h data a b s (b2z final) = Some (inr (w', h')) /\ written w' (bits ++ bb)
    /\ block_bits final (take (Z.to_nat a) data) (take (Z.to_nat b) data) bb /\ hash_state s data b h'.
Proof.
  intros Hd Hab Hb Hsize Hs Hh Hw. unfold deflateDynamic.
  destruct (block_symbols_ok s data h a b Hd Hab Hb Hs Hh) as (syms & h' & -> & Hlz & Hh'). cbn [unless_error mbind option_bind].
  destruct (block_frequencies _ _ _ Hlz) as (ll0 & ll & d & -> & E2 & L1 & L2 & F1 & F2 & S1 & S2 & U & O256); [rewrite !length_take; lia|].
  cbn [mbind option_bind]. rewrite E2. cbn [mbind option_bind].
  destruct (makeFromFrequencies_ok ll 257 15) as (tll & LL & E3 & Tl & Cl & _ & Nl & Wl); [lia|lia|rewrite L1; cbn; lia|done|done|].
  rewrite L1 in E3, Nl. rewrite E3. unfold unless_error at 1. cbn [mbind option_bind].
  destruct (makeFromFrequencies_ok d 2 15) as (td & DL & E4 & Td & Cd & _ & Nd & Wd); [lia|lia|rewrite L2; cbn; lia|done|done|].
  rewrite L2 in E4, Nd. rewrite E4. unfold unless_error at 1. cbn [mbind option_bind].
  rewrite (proj1 Tl), (proj1 Td), !take_ge by lia.
  destruct (rle_loop_ok (length (LL ++ DL)) (S (length (LL ++ DL))) (LL ++ DL) []) as (e & E5 & He & Hrle).
  { lia. } { cbn [length]. lia. } { apply list.Forall_app. split; [eapply list.Forall_impl; [exact (proj1 Cl)|]|eapply list.Forall_impl; [exact (proj1 Cd)|]]; cbn; lia. }
  rewrite E5. cbn [mbind option_bind app]. rewrite length_app in He.
  destruct (count_coded_ok None e _ (Hrle None) (replicate NUM_CODE_LENGTH_CODES 0)) as (fc & E6 & L6 & F6 & S6 & _ & U6); [done|apply no_frequencies|].
  rewrite E6. cbn [mbind option_bind]. rewrite zsum_replicate in S6.
  destruct (makeFromFrequencies_ok fc 19 7) as (tc & CL & E7 & Tc & Cc & C7 & Nc & Wc); [lia|lia|rewrite L6; cbn; lia|done|lia|].
  rewrite L6 in E7, Nc. unfold NUM_CODE_LENGTH_CODES. rewrite E7. unfold unless_error at 1. cbn [mbind option_bind].
  destruct (write_dynamic_ok w bits final _ syms _ LL DL CL tll td tc e Tl Cl Nl Td Cd Nd Tc Cc ltac:(lia) C7 Hlz) as (w' & bb & E8 & Hw' & Hbb).
  - revert U. apply uses_mono; by apply occurs_has_word.
  - by apply (occurs_has_word ll).
  - apply Hrle.
  - revert U6. apply cl_uses_mono. by apply occurs_has_word.
  - done.
  - rewrite E8. cbn [with_hash mbind option_bind]. by exists w', h', bb.
Qed.
