(* ===== verification/ZlibCompress.v ===== *)
(** The compressor of the PNG encoder is correct: for every input and every accepted
    setting, [lodepng_zlib_compress] (LodeDeflate) returns a zlib stream of RFC 1950 and
    1951 that stands for the input, and em_inflate reads the input back from it.

    The two exceptions are empty inputs with the block types 0, which yields a stream
    without a block, and 1, which divides by zero; the PNG encoder uses type 2. *)
From S2P Require Import Prelude Checksum BitReader Huffman Canonical Inflate InflateSafe Deflate InflateCorrect LodeLz77 Lz77Correct LodeHuff PackageMerge.
From S2P Require Import PackagePool CodeLengths LodeTree CodeTable TreeTable LodeDeflate BitWriter DynamicBlock.

(** ** Fixed blocks *)

Lemma lz_uses_all (P Q : nat -> Prop) h syms h' : lz h syms h' -> (forall s, (s < 286)%nat -> P s) -> (forall d, (d < 30)%nat -> Q d) -> uses P Q syms.
Proof.
  intros Hlz HP HQ. induction Hlz as [h|h b syms h' Hb Hlz IH|h s base n e d dbase m f syms h' Hs He Hd Hf Hle Hlz IH]; [constructor| |].
  - rewrite <- (Z2Nat.id b) by lia. apply uses_lit; [lia|apply HP; lia|done].
  - destruct (length_base s base n Hs) as [_ Hs29]. pose proof (lookup_lt_Some _ _ _ Hd) as Hd30. change (length distance_codes) with 30%nat in Hd30.
    apply uses_match; [apply HP; lia|by apply HQ|done].
Qed.

Lemma word_of_length L s x : L !! s = Some x -> 1 <= x <= 15 -> has_word L s.
Proof. intros Hx Hr. exists (Z.to_nat x). split; [by rewrite Z2Nat.id by lia|lia]. Qed.

Lemma fixed_words : (forall s, (s < 288)%nat -> has_word fixed_literals s) /\ (forall d, (d < 32)%nat -> has_word fixed_distances d).
Proof.
  assert (G : Forall (fun x => 1 <= x <= 15) fixed_literals /\ Forall (fun x => 1 <= x <= 15) fixed_distances).
  { assert (Hrep : forall n x, 1 <= x <= 15 -> Forall (fun y => 1 <= y <= 15) (replicate n x)).
    { intros n x Hx. apply list.Forall_forall. intros y [-> _]%elem_of_replicate. done. }
    split; [|apply Hrep; lia]. unfold fixed_literals. repeat (apply list.Forall_app; split); apply Hrep; lia. }
  destruct G as [G1 G2]. rewrite list.Forall_lookup in G1, G2.
  split; intros s Hs.
  - destruct (lookup_lt_is_Some_2 fixed_literals s Hs) as [x Hx]. apply (word_of_length _ _ _ Hx (G1 s x Hx)).
  - destruct (lookup_lt_is_Some_2 fixed_distances s Hs) as [x Hx]. apply (word_of_length _ _ _ Hx (G2 s x Hx)).
Qed.

Lemma write_literals_eq t td data : bytes_ok data -> forall w, write_literals w data t = writeLZ77data w data t td.
Proof.
  induction 1 as [|x data Hx Hd IH]; intros w; cbn [write_literals writeLZ77data]; [done|]. destruct (write_symbol w t x) as [w'|]; [|done].
  cbn [mbind option_bind]. unfold byte_ok in Hx. rewrite (proj2 (Z.ltb_ge _ _)) by lia. apply IH.
Qed.

Lemma deflateFixed_ok w bits h data a b s (final : bool) : bytes_ok data -> 0 <= a <= b -> b <= Z.of_nat (length data) ->
  settings_ok s -> hash_state s data a h -> written w bits ->
  exists w' h' bb, deflateFixed w h data a b s (b2z final) = Some (inr (w', h')) /\ written w' (bits ++ bb)
    /\ block_bits final (take (Z.to_nat a) data) (take (Z.to_nat b) data) bb /\ hash_state s data b h'.
Proof.
  intros Hd Hab Hb Hs Hh Hw. unfold deflateFixed. destruct fixed_trees_ok as (tll & td & -> & Tl & -> & Td). unfold unless_error at 1 2. cbn [mbind option_bind].
  destruct (write_bit_ok w bits final Hw) as (w1 & -> & Hw1). cbn [mbind option_bind].
  destruct (write_bit_ok w1 _ true Hw1) as (w2 & E2 & Hw2). change (b2z true) with 1 in E2. rewrite E2. cbn [mbind option_bind].
  destruct (write_bit_ok w2 _ false Hw2) as (w3 & E3 & Hw3). change (b2z false) with 0 in E3. rewrite E3. cbn [mbind option_bind].
  destruct fixed_words as [Fl Fd].
  assert (G : forall syms, lz (take (Z.to_nat a) data) syms (take (Z.to_nat b) data) ->
    exists w4 w5 bb, writeLZ77data w3 syms tll td = Some w4 /\ write_symbol w4 tll 256 = Some w5 /\ written w5 (bits ++ bb)
      /\ block_bits final (take (Z.to_nat a) data) (take (Z.to_nat b) data) bb).
  { intros syms Hlz.
    assert (Hu : uses (has_word fixed_literals) (has_word fixed_distances) syms).
    { apply (lz_uses_all _ _ _ _ _ Hlz); intros k Hk; [apply Fl|apply Fd]; lia. }
    destruct (writeLZ77data_ok _ _ _ _ _ _ _ Hlz Hu Tl Td w3 _ Hw3) as (w4 & ib & E4 & Hw4 & Hib). destruct (Fl 256%nat ltac:(lia)) as [l Hl].
    destruct (write_symbol_ok w4 _ _ _ 256 l Hw4 Tl Hl) as (w5 & c & E5 & Hc & Hw5). rewrite <- !app_assoc in Hw5. exists w4, w5. eexists.
    split; [done|]. split; [done|]. split; [exact Hw5|]. eexists. split; [cbn [app]; reflexivity|]. intros rest.
    pose proof (block_fixed _ (ib ++ c) _ rest (Hib c Hc)) as B. cbn [app] in *. done. }
  destruct (block_symbols_ok s data h a b Hd Hab Hb Hs Hh) as (syms & h' & E & Hlz & Hh'). unfold block_symbols in E.
  destruct (G syms Hlz) as (w4 & w5 & bb & E4 & E5 & Hw5 & Hbb). destruct (use_lz77 s).
  - rewrite E. cbn [unless_error mbind option_bind]. rewrite E4. cbn [mbind option_bind]. rewrite E5. cbn. by exists w5, h', bb.
  - injection E as <- <-. rewrite (write_literals_eq _ td) by (by apply bytes_ok_sub). rewrite E4. cbn [mbind option_bind]. rewrite E5. cbn. by exists w5, h, bb.
Qed.

(** ** Stored blocks *)

Lemma zbits_add a b v : zbits (a + b) v = zbits a v ++ zbits b (v >> Z.of_nat a).
Proof.
  induction b as [|b IH]; [by rewrite Nat.add_0_r, app_nil_r|]. rewrite Nat.add_succ_r, !zbits_S, IH, <- app_assoc. do 3 f_equal.
  rewrite Z.shiftr_spec by lia. f_equal. lia.
Qed.

Lemma zbits_low n k v : (n <= k)%nat -> zbits n (v .& Z.ones (Z.of_nat k)) = zbits n v.
Proof.
  intros Hn. unfold zbits. apply map_ext_in. intros i Hi%in_seq. rewrite Z.land_spec, Z.ones_spec_low, andb_true_r by lia. done.
Qed.

(** A 16-bit number, low byte first *)
Lemma bytes_bits_16 v : bytes_bits [v .& 255; v >> 8] = zbits 16 v.
Proof.
  change (bytes_bits [v .& 255; v >> 8]) with (zbits 8 (v .& 255) ++ bytes_bits [v >> 8]). rewrite bytes_bits_one.
  change 255 with (Z.ones (Z.of_nat 8)). rewrite zbits_low by lia. by rewrite (zbits_add 8 8 v : zbits 16 v = _).
Qed.

(** The bits of the stored blocks from [pos] on *)
Definition stored_bits (data bs : bytes) (pos : nat) : Prop :=
  bytes_ok bs /\ forall rest, (length rest mod 8 = 0)%nat -> stream (take pos data) (bytes_bits bs ++ rest) data rest.

Lemma stored_block (final : bool) data pos len rest : bytes_ok data -> (pos + len <= length data)%nat -> Z.of_nat len < 2 ^ 16 -> (length rest mod 8 = 0)%nat ->
  exists b, bytes_bits ([b2z final; Z.of_nat len .& 255; Z.of_nat len >> 8; (65535 - Z.of_nat len) .& 255; (65535 - Z.of_nat len) >> 8] ++ sub data pos len) ++ rest = final :: b
    /\ block (take pos data) b (take (pos + len) data) rest.
Proof.
  intros Hd Hl Hn Hr. set (len' := Z.of_nat len).
  assert (E : take (pos + len) data = take pos data ++ sub data pos len) by (unfold sub; by rewrite <- take_take_drop).
  assert (Hs : length (sub data pos len) = len) by (apply length_sub; lia).
  pose proof (block_stored (take pos data) (replicate 5 false) (sub data pos len) rest) as B.
  rewrite Hs, <- E in B. fold len' in B.
  assert (Eb : bytes_bits ([b2z final; len' .& 255; len' >> 8; (65535 - len') .& 255; (65535 - len') >> 8] ++ sub data pos len)
    = zbits 8 (b2z final) ++ zbits 16 len' ++ zbits 16 (65535 - len') ++ bytes_bits (sub data pos len)).
  { rewrite <- !bytes_bits_16, <- bytes_bits_one, <- !bytes_bits_app. done. }
  assert (Ef : zbits 8 (b2z final) = final :: [false; false] ++ replicate 5 false) by (by destruct final).
  eexists. rewrite Eb, Ef. split; [cbn [app]; reflexivity|]. cbn [app replicate] in *. rewrite <- !app_assoc. apply B; [cbn; lia|done|by apply bytes_ok_sub|lia].
Qed.

Lemma stored_loop_ok data n : forall out pos, bytes_ok data -> Z.of_nat (length data) < 2 ^ 31 -> (pos <= length data)%nat -> (0 < n)%nat ->
  65535 * (Z.of_nat n - 1) < Z.of_nat (length data - pos) <= 65535 * Z.of_nat n ->
  exists bs, stored_loop n out data (Z.of_nat pos) = out ++ bs /\ stored_bits data bs pos.
Proof.
  induction n as [|n IH]; intros out pos Hd H32 Hpos Hn Hlen; [lia|]. cbn [stored_loop]. set (rem := Z.of_nat (length data - pos)) in *.
  replace (Z.of_nat (length data) - Z.of_nat pos) with rem by lia. rewrite (u32_small rem) by lia.
  set (LEN := if rem <? 65535 then rem else 65535). assert (HLEN : LEN = Z.of_nat (Z.to_nat LEN) /\ 0 <= LEN <= 65535 /\ LEN <= rem).
  { unfold LEN. destruct (Z.ltb_spec rem 65535); lia. }
  destruct HLEN as (HL1 & HL2 & HL3). set (len := Z.to_nat LEN) in *. rewrite HL1, u32_small, <- Nat2Z.inj_add, Nat2Z.id by lia.
  assert (Hok : bytes_ok ([b2z (n =? 0)%nat; Z.of_nat len .& 255; Z.of_nat len >> 8; (65535 - Z.of_nat len) .& 255; (65535 - Z.of_nat len) >> 8] ++ sub data pos len)).
  { apply list.Forall_app. split; [|by apply bytes_ok_sub]. assert (Hlow : forall v, byte_ok (v .& 255)).
    { intros v. change 255 with (Z.ones 8). rewrite land_ones_mod by lia. apply (Z.mod_pos_bound v 256). lia. }
    assert (Hhigh : forall v, 0 <= v <= 65535 -> byte_ok (v >> 8)).
    { intros v Hv. rewrite Z.shiftr_div_pow2 by lia. split; [apply Z.div_pos; lia|]. apply Z.div_lt_upper_bound; lia. }
    repeat (constructor; [first [apply Hlow|apply Hhigh; lia|by destruct (n =? 0)%nat]|]). constructor. }
  set (blk := _ ++ sub data pos len) in *. destruct n as [|n].
  - cbn [stored_loop]. exists blk. split; [done|]. split; [done|]. intros rest Hr.
    assert (El : len = (length data - pos)%nat) by (unfold LEN in HL1; destruct (Z.ltb_spec rem 65535); lia).
    destruct (stored_block true data pos len rest Hd ltac:(lia) ltac:(lia) Hr) as (b & Eb & Hb).
    change (b2z (0 =? 0)%nat) with (b2z true) in blk. fold blk in Eb. rewrite Eb. replace (pos + len)%nat with (length data) in Hb by lia.
    rewrite (take_ge data (length data)) in Hb by lia. by constructor.
  - assert (El : Z.of_nat len = 65535) by (unfold LEN in HL1; destruct (Z.ltb_spec rem 65535); lia).
    destruct (IH (out ++ blk) (pos + len)%nat Hd H32 ltac:(lia) ltac:(lia)) as (bs & E & Hbs1 & Hbs2); [lia|]. rewrite E. exists (blk ++ bs).
    split; [by rewrite app_assoc|]. split; [apply list.Forall_app; by split|]. intros rest Hr. rewrite bytes_bits_app, <- app_assoc.
    destruct (stored_block false data pos len (bytes_bits bs ++ rest) Hd ltac:(lia) ltac:(lia)) as (b & Eb & Hb).
    { rewrite length_app, length_bytes_bits. rewrite Nat.add_comm, (Nat.mul_comm 8), Nat.Div0.mod_add. done. }
    change (b2z (S n =? 0)%nat) with (b2z false) in blk. fold blk in Eb. rewrite Eb. eapply stream_more; [exact Hb|]. by apply Hbs2.
Qed.

Lemma deflateNoCompression_ok data : bytes_ok data -> Z.of_nat (length data) < 2 ^ 31 -> data <> [] -> exists bs, deflateNoCompression [] data = bs /\ stored_bits data bs 0.
Proof.
  intros Hd H32 Hne. unfold deflateNoCompression. destruct data as [|x data']; [done|]. set (data := x :: data') in *.
  assert (Hl : 0 < Z.of_nat (length data)) by (cbn; lia). rewrite u32_small by lia. set (n := Z.to_nat _).
  pose proof (Z.div_mod (Z.of_nat (length data) + 65534) 65535 ltac:(lia)) as Hdm. pose proof (Z.mod_pos_bound (Z.of_nat (length data) + 65534) 65535 ltac:(lia)).
  destruct (stored_loop_ok data n [] 0 Hd H32 ltac:(lia)) as (bs & E & Hbs); [lia|rewrite Nat.sub_0_r; lia|]. by exists bs.
Qed.

(** ** The blocks of a stream *)

Lemma blocks_loop_ok data s bs n : forall i w h bits, bytes_ok data -> Z.of_nat (length data) < 2 ^ 31 -> settings_ok s -> 0 < bs -> bs < 2 ^ 31 -> (btype s <> 1 -> bs <= 2 ^ 18) ->
  0 <= i -> (0 < n)%nat -> (i + Z.of_nat n - 1) * bs <= Z.of_nat (length data) <= (i + Z.of_nat n) * bs ->
  hash_state s data (i * bs) h -> written w bits ->
  exists w' sb, blocks_loop n i bs w h data s = Some (inr w') /\ written w' (bits ++ sb)
    /\ (forall rest, stream (take (Z.to_nat (i * bs)) data) (sb ++ rest) data rest)
    /\ (length sb <= 16 * (length data - Z.to_nat (i * bs)) + n * (block_overhead + 1))%nat.
Proof.
  induction n as [|n IH]; intros i w h bits Hd H31 Hs Hbs Hbs31 Hsize Hi Hn Hlen Hh Hw; [lia|]. cbn [blocks_loop].
  assert (Hpos : 0 <= i * bs <= Z.of_nat (length data)) by nia. rewrite !(u32_small (i * bs)), !u32_small by lia.
  set (len := Z.of_nat (length data)) in *. set (b := if len <? i * bs + bs then len else i * bs + bs).
  assert (Hb : 0 <= i * bs <= b /\ b <= len /\ b - i * bs <= bs /\ (n = 0%nat -> b = len) /\ (n <> 0%nat -> b = (i + 1) * bs)).
  { unfold b. destruct (Z.ltb_spec len (i * bs + bs)); repeat split; nia. }
  destruct Hb as (Hb1 & Hb2 & Hb3 & Hb4 & Hb5).
  set (r := if btype s =? 1 then _ else _).
  assert (G : exists w' h' bb, r = Some (inr (w', h')) /\ written w' (bits ++ bb)
      /\ block_bits (n =? 0)%nat (take (Z.to_nat (i * bs)) data) (take (Z.to_nat b) data) bb /\ hash_state s data b h').
  { unfold r. destruct (Z.eqb_spec (btype s) 1); [by apply deflateFixed_ok|]. apply deflateDynamic_ok; try done. specialize (Hsize ltac:(done)). lia. }
  destruct G as (w1 & h1 & bb & -> & Hw1 & (b1 & -> & Hblk) & Hh1). cbn [unless_error mbind option_bind]. destruct (Nat.eqb_spec n 0) as [->|Hn0].
  - cbn [blocks_loop]. rewrite Hb4 in Hblk by done. rewrite (take_ge data (Z.to_nat len)) in Hblk by (unfold len; lia).
    eexists w1, _. split; [done|]. split; [exact Hw1|]. split; [intros rest; apply stream_last, Hblk|].
    destruct (block_size _ _ _ _ (Hblk [])) as [_ Hz]. rewrite app_nil_r, length_take in Hz. cbn [length] in *. lia.
  - rewrite Hb5 in Hh1, Hblk by done. destruct (IH (i + 1) w1 h1 _ Hd H31 Hs Hbs Hbs31 Hsize ltac:(lia) ltac:(lia) ltac:(lia) Hh1 Hw1) as (w2 & sb & E2 & Hw2 & Hst & Hz2).
    eexists w2, _. split; [done|]. rewrite <- app_assoc in Hw2. split; [exact Hw2|]. split.
    + intros rest. cbn [app]. rewrite <- app_assoc. eapply stream_more; [apply Hblk|apply Hst].
    + destruct (block_size _ _ _ _ (Hblk [])) as [_ Hz]. rewrite app_nil_r, !length_take in Hz. rewrite length_app. cbn [length] in *. lia.
Qed.

(** The settings and inputs the compressor handles: empty inputs need dynamic blocks, and
    an object of the 32-bit program has less than 2^31 bytes. *)
Record accepted (data : bytes) (s : LodePNGCompressSettings) : Prop := {
  acc_data : bytes_ok data;
  acc_size : Z.of_nat (length data) < 2 ^ 31;
  acc_btype : 0 <= btype s <= 2;
  acc_empty : data = [] -> btype s = 2;
  acc_settings : settings_ok s
}.

(** A complete stream that is padded to bytes *)
Definition deflated (data out : bytes) : Prop :=
  bytes_ok out /\ exists pad, (length pad < 8)%nat /\ forall rest, (length rest mod 8 = 0)%nat -> stream [] (bytes_bits out ++ rest) data (pad ++ rest).

Lemma written_nothing : written (mkWriter [] 0) [].
Proof. split; [constructor|done|exists []; split; [done|split; [constructor|cbn; lia]]]. Qed.

Lemma block_count bs len : 0 < bs -> 0 <= len ->
  let n := (len + bs - 1) / bs in let n := if n =? 0 then 1 else n in 0 < n /\ (n - 1) * bs <= len <= n * bs.
Proof.
  intros Hbs Hlen. pose proof (Z.div_mod (len + bs - 1) bs ltac:(lia)) as Hdm. pose proof (Z.mod_pos_bound (len + bs - 1) bs ltac:(lia)).
  cbn zeta. destruct (Z.eqb_spec ((len + bs - 1) / bs) 0) as [E|E]; nia.
Qed.

(** How long the output of the compressor can be *)
Definition deflate_bound (len : Z) : Z := 2 * len + 1001 * (len / 65536 + 2) + 1.

Lemma lodepng_deflate_ok data s : accepted data s -> exists out, lodepng_deflate [] data s = Some (inr out) /\ deflated data out
  /\ (btype s <> 0 -> Z.of_nat (length out) <= deflate_bound (Z.of_nat (length data))).
Proof.
  intros [Hd H32 Hbt He Hs]. unfold lodepng_deflate, lodepng_deflatev. rewrite (proj2 (Z.ltb_ge _ _)) by lia. set (len := Z.of_nat (length data)).
  destruct (Z.eqb_spec (btype s) 0) as [E0|E0].
  - destruct (deflateNoCompression_ok data Hd H32) as (bs & -> & Hok & Hst); [intros ->; specialize (He eq_refl); lia|]. exists bs. split; [done|].
    split; [|done]. split; [done|]. exists []. split; [cbn; lia|]. done.
  - set (bs := if btype s =? 1 then len else _).
    assert (Hbs : 0 < bs < 2 ^ 31 /\ (btype s <> 1 -> bs <= 2 ^ 18) /\ (bs = len \/ 65536 <= bs)).
    { unfold bs. destruct (Z.eqb_spec (btype s) 1) as [E1|E1].
      - split; [|split; [done|by left]]. destruct data; [specialize (He eq_refl); lia|unfold len in *; cbn [length] in *; lia].
      - destruct (Z.ltb_spec (len / 8 + 8) 65536); [split; [done|]; split; [done|]; right; done|]. destruct (Z.ltb_spec 262144 (len / 8 + 8)); lia. }
    destruct Hbs as (Hb1 & Hb2 & Hb3). rewrite option_guard_True by lia. pose proof (block_count bs len ltac:(lia) ltac:(lia)) as Hn.
    cbn zeta in Hn. rewrite u32_small by lia. set (n := if (len + bs - 1) / bs =? 0 then 1 else (len + bs - 1) / bs) in *. destruct Hn as [Hn1 Hn2].
    destruct (blocks_loop_ok data s bs (Z.to_nat n) 0 (mkWriter [] 0) (hash_init (windowsize (lz77 s))) []) as (w & sb & -> & [Hok _ (pad & Eb & _ & Hpad)] & Hst & Hz).
    1-9: first [done|lia].
    { intros Hu. destruct (Hs Hu) as (k & Hk & ->). apply hash_init_ok. lia. } { apply written_nothing. }
    cbn [unless_error mbind option_bind]. cbn [app] in Eb. eexists. split; [done|]. split.
    + split; [done|]. exists pad. split; [done|]. intros rest _. rewrite Eb, <- app_assoc. apply Hst.
    + intros _. apply (f_equal length) in Eb. rewrite length_bytes_bits, length_app in Eb. unfold block_overhead in Hz.
      assert (Hnb : n <= len / 65536 + 2).
      { destruct Hb3 as [E|E]; [assert (n <= 2) by nia; pose proof (Z.div_pos len 65536 ltac:(lia) ltac:(lia)); lia|].
        assert (n - 1 <= len / 65536) by (apply Z.div_le_lower_bound; nia). lia. }
      unfold deflate_bound. fold len. lia.
Qed.

(** ** Checksum and wrapping *)

Lemma adler_sums_eq data : forall s, adler_sums s data = fold_left DO1 data s.
Proof. induction data as [|x data IH]; intros s; [done|]. apply IH. Qed.

Lemma adler_loop_ok fuel : forall s data, (length data <= fuel)%nat -> reduced s -> bytes_ok data -> adler_loop fuel s data = Some (fold_left adler_step data s).
Proof.
  induction fuel as [|fuel IH]; intros s [|x data'] Hl Hr Hd; try done; [cbn in Hl; lia|]. set (data := x :: data') in *.
  change (adler_loop (S fuel) s data) with (let amount := Nat.min (length data) (Z.to_nat 5552) in
    let '(s1, s2) := adler_sums s (take amount data) in adler_loop fuel (s1 mod 65521, s2 mod 65521) (drop amount data)).
  cbn zeta. set (k := Nat.min _ _). assert (Hk : (k <= NMAX /\ 0 < k)%nat).
  { unfold k, NMAX, data. rewrite length_cons. lia. }
  rewrite adler_sums_eq. pose proof (run_reduced (take k data) s Hr ltac:(rewrite length_take; lia) ltac:(by apply Forall_take)) as E.
  destruct (fold_left DO1 (take k data) s) as [s1 s2]. change (s1 mod 65521, s2 mod 65521) with (MOD (s1, s2)). rewrite E, IH.
  - by rewrite <- fold_left_app, take_drop.
  - rewrite length_drop. lia.
  - by apply adler_steps_reduced.
  - by apply Forall_drop.
Qed.

(** The checksum of the compressor is that of RFC 1950. *)
Lemma adler32_ok data : bytes_ok data -> adler32 data = Some (adler_ref 1 data).
Proof.
  intros Hd. unfold adler32, update_adler32. rewrite adler_state_split by lia.
  assert (Hr : reduced (adler_state 1)) by (apply adler_state_reduced; repeat split; cbn; unfold BASE; lia).
  rewrite (adler_loop_ok _ _ _ (le_n _) Hr Hd). cbn [mbind option_bind]. pose proof (adler_join_value _ (adler_steps_reduced data _ Hr)) as E.
  unfold adler_ref. rewrite <- E. destruct (fold_left _ _ _) as [s1 s2]. unfold adler_join. cbn [fst snd]. by rewrite Z.lor_comm.
Qed.

Lemma set32_be v : lodepng_set32bitInt v = be_bytes 4 v.
Proof.
  unfold lodepng_set32bitInt, be_bytes, le_bytes. change 255 with (Z.ones 8). rewrite !land_ones_mod by lia.
  rewrite !Z.shiftr_div_pow2 by lia. rewrite !Z.div_div by lia. done.
Qed.

Lemma compressed_ok data s : accepted data s -> custom_deflate s = None ->
  exists out, lodepng_zlib_compress data s = Some (inr out) /\ zlib_stream out data /\ bytes_ok out
    /\ (btype s <> 0 -> Z.of_nat (length out) <= deflate_bound (Z.of_nat (length data)) + 6).
Proof.
  intros Ha Hc. unfold lodepng_zlib_compress, deflate. rewrite Hc. destruct (lodepng_deflate_ok data s Ha) as (body & -> & (Hok & pad & Hpad & Hst) & Hz).
  pose proof (acc_size _ _ Ha). rewrite u32_small, Nat2Z.id, take_ge by lia.
  cbn [unless_error mbind option_bind]. rewrite adler32_ok by apply Ha. cbn [mbind option_bind]. rewrite set32_be.
  exists ([120; 1] ++ body ++ be_bytes 4 (adler_ref 1 data)). split; [done|]. assert (Hbe : bytes_ok (be_bytes 4 (adler_ref 1 data))) by (unfold be_bytes; apply Forall_reverse, le_bytes_ok).
  split; [|split].
  - exists 120, 1, body, pad. repeat (split; [first [done|unfold byte_ok; lia]|]). rewrite bytes_bits_app. apply Hst. by rewrite length_bytes_bits.
  - repeat (constructor; [unfold byte_ok; lia|]). apply list.Forall_app. by split.
  - intros Hb. specialize (Hz Hb). rewrite !length_app, length_be_bytes. cbn [length]. lia.
Qed.

(** An error of the LZ77 stage is the result of the compressor. *)
Lemma lz77_error_returned s data e : Z.of_nat (length data) < 2 ^ 31 -> btype s = 2 -> use_lz77 s = true -> (forall h a b, encodeLZ77 [] h data a b (lz77 s) = Some (inl e)) ->
  lodepng_deflatev [] data s = Some (inl e).
Proof.
  intros H31 Hb Hu He. unfold lodepng_deflatev. rewrite Hb. change (2 <? 2) with false. change (2 =? 0) with false. change (2 =? 1) with false. cbv iota. set (len := Z.of_nat (length data)). set (bs := if 262144 <? _ then _ else _).
  assert (Hbs : 0 < bs < 2 ^ 31).
  { unfold bs. destruct (Z.ltb_spec (len / 8 + 8) 65536); [done|]. destruct (Z.ltb_spec 262144 (len / 8 + 8)); lia. }
  rewrite option_guard_True by lia. rewrite u32_small by lia. pose proof (block_count bs len ltac:(lia) ltac:(lia)) as Hn. cbn zeta in Hn.
  set (n := if (len + bs - 1) / bs =? 0 then 1 else (len + bs - 1) / bs) in *. destruct Hn as [Hn _].
  destruct (Z.to_nat n) as [|m] eqn:Em; [lia|]. cbn [blocks_loop]. rewrite Hb. change (2 =? 1) with false. unfold deflateDynamic, block_symbols. by rewrite Hu, He.
Qed.

(** ** Theorems *)

(** C3: for every input and every accepted setting (block type 0, 1 or 2, with or without
    LZ77, every window of the format, any match limits) the compressor returns without
    reading or writing outside its arrays, and what it returns is a zlib stream of
    RFC 1950 and 1951 that stands for exactly the input; the types 1 and 2 make it at
    most twice as long, apart from about a thousand bytes for every 64 KB. *)
Theorem zlib_compress_valid data s : accepted data s -> custom_deflate s = None -> custom_zlib s = None ->
  exists out, zlib_compress data s = Some (inr out) /\ zlib_stream out data /\ bytes_ok out
    /\ (btype s <> 0 -> Z.of_nat (length out) <= deflate_bound (Z.of_nat (length data)) + 6).
Proof. intros Ha Hd Hz. unfold zlib_compress. rewrite Hz. by apply compressed_ok. Qed.

(** C4: what the compressor of the PNG encoder writes, em_inflate reads back: the size of
    the input is returned, the input is in the buffer, and nothing after the room the
    caller gave is written. *)
Theorem compress_inflate_roundtrip data s buf nMax :
  accepted data s -> custom_deflate s = None -> custom_zlib s = None -> Z.of_nat (length data) <= nMax <= Z.of_nat (length buf) ->
  exists out buf', zlib_compress data s = Some (inr out) /\ em_inflate out (Z.of_nat (length out)) buf nMax = Ok (Z.of_nat (length data), buf')
    /\ take (length data) buf' = data /\ kept nMax buf buf'.
Proof.
  intros Ha Hd Hz Hn. unfold zlib_compress. rewrite Hz. destruct (compressed_ok data s Ha Hd) as (out & E & Hs & Hok & _).
  destruct (zlib_inflated out data buf nMax Hs Hok Hn) as (buf' & Hi). by exists out, buf'.
Qed.

(** The inputs the compressor does not handle.  A block type over 2 and a window that
    is not a power of two of at most 32768 are errors 61, 60 and 90; the block type 1
    divides by zero on an empty input, and the block type 0 writes a stream without a
    block there. *)
Theorem compress_rejects (s : LodePNGCompressSettings) (data : bytes) : Z.of_nat (length data) < 2 ^ 31 -> custom_deflate s = None -> custom_zlib s = None ->
  (2 < btype s -> zlib_compress data s = Some (inl 61))
  /\ (btype s = 2 -> use_lz77 s = true -> windowsize (lz77 s) = 0 \/ 32768 < windowsize (lz77 s) -> zlib_compress data s = Some (inl 60))
  /\ (btype s = 2 -> use_lz77 s = true -> 0 < windowsize (lz77 s) <= 32768 -> windowsize (lz77 s) .& (windowsize (lz77 s) - 1) <> 0 ->
      zlib_compress data s = Some (inl 90))
  /\ (btype s = 1 -> zlib_compress [] s = None)
  /\ (btype s = 0 -> zlib_compress [] s = Some (inr [120; 1; 0; 0; 0; 1])).
Proof.
  intros H31 Hd Hz. unfold zlib_compress, lodepng_zlib_compress, deflate, lodepng_deflate. rewrite Hd, Hz. repeat split.
  - intros Hb. unfold lodepng_deflatev. by rewrite (proj2 (Z.ltb_lt _ _)) by lia.
  - intros Hb Hu Hw. rewrite (lz77_error_returned s data 60 H31 Hb Hu); [done|]. intros h a b. unfold encodeLZ77.
    destruct (Z.eqb_spec (windowsize (lz77 s)) 0); [done|]. by rewrite (proj2 (Z.ltb_lt _ _)) by lia.
  - intros Hb Hu Hw Hp. rewrite (lz77_error_returned s data 90 H31 Hb Hu); [done|]. intros h a b. unfold encodeLZ77.
    rewrite (proj2 (Z.eqb_neq _ 0)), (proj2 (Z.ltb_ge _ _)), (proj2 (Z.eqb_neq _ _) Hp) by lia. done.
  - intros Hb. unfold lodepng_deflatev. by rewrite Hb.
  - intros Hb. unfold lodepng_deflatev. by rewrite Hb.
Qed.

(** ** Witnesses *)

Lemma default_accepted data : bytes_ok data -> Z.of_nat (length data) < 2 ^ 31 -> accepted data lodepng_default_compress_settings.
Proof. intros Hd H32. split; [done|done|cbn; lia|done|]. intros _. exists 11. split; [lia|done]. Qed.

Definition sample_text : bytes := [97; 98; 99; 97; 98; 99; 97; 98; 99; 97; 98; 99; 100; 101].

Lemma sample_accepted : accepted sample_text lodepng_default_compress_settings.
Proof. apply default_accepted; [repeat constructor; lia|done]. Qed.

Lemma zlib_compress_valid_witness :
  exists out, zlib_compress sample_text lodepng_default_compress_settings = Some (inr out) /\ zlib_stream out sample_text /\ bytes_ok out
    /\ (2 <> 0 -> Z.of_nat (length out) <= deflate_bound 14 + 6).
Proof. apply (zlib_compress_valid sample_text lodepng_default_compress_settings sample_accepted); reflexivity. Defined.

Lemma compress_inflate_roundtrip_witness :
  exists out buf', zlib_compress sample_text lodepng_default_compress_settings = Some (inr out)
    /\ em_inflate out (Z.of_nat (length out)) (replicate 20 0) 16 = Ok (14, buf')
    /\ take 14 buf' = sample_text /\ kept 16 (replicate 20 0) buf'.
Proof.
  apply (compress_inflate_roundtrip sample_text lodepng_default_compress_settings (replicate 20 0) 16 sample_accepted); [reflexivity|reflexivity|cbn; lia].
Defined.

Lemma compress_rejects_witness :
  zlib_compress [] (mkSettings 1 true (lz77 lodepng_default_compress_settings) None None) = None.
Proof.
  destruct (compress_rejects (mkSettings 1 true (lz77 lodepng_default_compress_settings) None None) []) as (_ & _ & _ & H & _); [reflexivity|reflexivity|reflexivity|].
  apply H. reflexivity.
Defined.
