(* ===== verification/PngFormat.v ===== *)
(** The PNG format (ISO 15948) as far as the encoder uses it, independent of lodepng:
    chunks with their checksums, scanlines and their filters, samples, palettes and
    transparency.  [png_file w h px file]: the file is a PNG of [w] times [h] pixels, not
    interlaced, with at most 8 bits for a sample, and a decoder shows the pixels [px]. *)
From S2P Require Import Prelude CLib Checksum BitReader Huffman Canonical Deflate.

(** A pixel as a decoder shows it: red, green, blue and alpha *)
Definition color : Type := (Z * Z * Z * Z)%type.

(** ** Scanlines *)

Definition paeth (a b c : Z) : Z :=
  let p := a + b - c in
  let pa := Z.abs (p - a) in
  let pb := Z.abs (p - b) in
  let pc := Z.abs (p - c) in
  if (pa <=? pb) && (pa <=? pc) then a else if pb <=? pc then b else c.

(** The prediction from the bytes to the left, above, and above on the left *)
Definition predicted (type a b c : Z) : Z :=
  if type =? 0 then 0 else if type =? 1 then a else if type =? 2 then b else if type =? 3 then (a + b) / 2 else paeth a b c.

(** The byte [bw] before the end of [l], 0 before the first one *)
Definition back (bw : nat) (l : bytes) : Z := if (length l <? bw)%nat then 0 else nth (length l - bw) l 0.

(** [l] are the bytes of the line that are known, [line] the filtered ones that follow. *)
Fixpoint recon (type : Z) (bw : nat) (above l line : bytes) : bytes :=
  match line with
  | [] => l
  | x :: line =>
      let c := back bw (take (length l) above) in
      recon type bw above (l ++ [(x + predicted type (back bw l) (nth (length l) above 0) c) mod 256]) line
  end.

(** [h] lines of [lb] bytes, each behind its filter type *)
Fixpoint unfilter (h lb bw : nat) (above data : bytes) : option (list bytes) :=
  match h, data with
  | O, [] => Some []
  | S h, type :: data =>
      guard (0 <= type <= 4 /\ (lb <= length data)%nat);;
      let line := recon type bw above [] (take lb data) in
      lines ← unfilter h lb bw line (drop lb data);
      Some (line :: lines)
  | _, _ => None
  end.

(** ** Samples *)

(** Bits with the most significant one first *)
Definition mbits (n : nat) (v : Z) : list bool := reverse (zbits n v).
Definition line_bits (bs : bytes) : list bool := mjoin (map (mbits 8) bs).
Definition mval (bs : list bool) : Z := foldl (fun v b => 2 * v + b2z b) 0 bs.

(** The [k]th sample of [d] bits *)
Definition sample (d : nat) (bits : list bool) (k : nat) : Z := mval (take d (drop (k * d) bits)).

Definition channels (ct : Z) : nat :=
  if ct =? 2 then 3 else if ct =? 4 then 2 else if ct =? 6 then 4 else 1.

(** The combinations of a colour type and a depth *)
Definition depth_ok (ct : Z) (d : nat) : Prop :=
  (ct = 0 \/ ct = 3) /\ d ∈ [1; 2; 4; 8]%nat \/ (ct = 2 \/ ct = 4 \/ ct = 6) /\ d = 8%nat.

(** Transparent when the samples are those of the tRNS chunk *)
Definition key_alpha (trns : option bytes) (samples : list Z) : Z :=
  match trns with Some t => if decide (t = mjoin (map (be_bytes 2) samples)) then 0 else 255 | None => 255 end.

Definition pixel (ct : Z) (d : nat) (plte trns : option bytes) (bits : list bool) : option color :=
  let s := sample d bits in
  if ct =? 0 then let v := s 0%nat * 255 / (2 ^ Z.of_nat d - 1) in Some (v, v, v, key_alpha trns [s 0%nat])
  else if ct =? 2 then Some (s 0%nat, s 1%nat, s 2%nat, key_alpha trns [s 0%nat; s 1%nat; s 2%nat])
  else if ct =? 3 then
    p ← plte;
    let i := Z.to_nat (s 0%nat) in
    r ← p !! (3 * i)%nat; g ← p !! (3 * i + 1)%nat; b ← p !! (3 * i + 2)%nat;
    Some (r, g, b, default 255 (t ← trns; t !! i))
  else if ct =? 4 then Some (s 0%nat, s 0%nat, s 0%nat, s 1%nat)
  else Some (s 0%nat, s 1%nat, s 2%nat, s 3%nat).

(** The pixels of a line *)
Definition line_pixels (ct : Z) (d : nat) (plte trns : option bytes) (w : nat) (line : bytes) : option (list color) :=
  mapM (fun x => pixel ct d plte trns (drop (x * (channels ct * d)) (line_bits line))) (seq 0 w).

(** The pixels of the decompressed data *)
Definition image_pixels (ct : Z) (d : nat) (plte trns : option bytes) (w h : nat) (data : bytes) : option (list color) :=
  let bpp := (channels ct * d)%nat in
  let lb := ((w * bpp + 7) / 8)%nat in
  lines ← unfilter h lb ((bpp + 7) / 8) (replicate lb 0) data;
  rows ← mapM (line_pixels ct d plte trns w) lines;
  Some (mjoin rows).

(** ** Chunks *)

Definition chunk (type : string) (data : bytes) : bytes :=
  be_bytes 4 (Z.of_nat (length data)) ++ bytes_of_string type ++ data ++ be_bytes 4 (crc_ref (bytes_of_string type ++ data) 0).

Definition opt_chunk (type : string) (data : option bytes) : bytes := match data with Some data => chunk type data | None => [] end.

Definition signature : bytes := [137; 80; 78; 71; 13; 10; 26; 10].

Definition header (w h : nat) (ct : Z) (d : nat) : bytes :=
  be_bytes 4 (Z.of_nat w) ++ be_bytes 4 (Z.of_nat h) ++ [Z.of_nat d; ct; 0; 0; 0].

(** A palette has at most as many colours as the depth allows. *)
Definition plte_ok (ct : Z) (d : nat) (plte : option bytes) : Prop :=
  match plte with
  | Some p => ct = 3 /\ exists n, length p = (3 * n)%nat /\ (1 <= n)%nat /\ Z.of_nat n <= 2 ^ Z.of_nat d
  | None => ct <> 3
  end.

(** The transparency: a key for types 0 and 2, alphas for at most all colours for type 3 *)
Definition trns_ok (ct : Z) (plte trns : option bytes) : Prop :=
  match trns with
  | Some t => ct = 0 /\ length t = 2%nat \/ ct = 2 /\ length t = 6%nat
              \/ ct = 3 /\ exists p, plte = Some p /\ (1 <= length t)%nat /\ (3 * length t <= length p)%nat
  | None => True
  end.

Definition png_file (w h : nat) (px : list color) (file : bytes) : Prop :=
  exists ct d plte trns idat data,
    (0 < w)%nat /\ Z.of_nat w < 2 ^ 31 /\ (0 < h)%nat /\ Z.of_nat h < 2 ^ 31 /\ Z.of_nat (length idat) < 2 ^ 31
    /\ depth_ok ct d /\ plte_ok ct d plte /\ trns_ok ct plte trns
    /\ file = signature ++ chunk "IHDR" (header w h ct d) ++ opt_chunk "PLTE" plte ++ opt_chunk "tRNS" trns ++ chunk "IDAT" idat ++ chunk "IEND" []
    /\ zlib_stream idat data /\ image_pixels ct d plte trns w h data = Some px.
