(* ===== verification/FilterCorrect.v ===== *)
(** The filters of the PNG encoder (LodeFilter) are undone by those of the format
    (PngFormat): whatever strategy chooses the types, the unfiltered lines are the lines
    of the image. *)
From S2P Require Import Prelude CLib Checksum BitReader Huffman Canonical Deflate LodeLz77 Lz77Correct LodeHuff PackageMerge PackagePool.
From S2P Require Import CodeLengths LodeTree CodeTable TreeTable LodeDeflate BitWriter DynamicBlock ZlibCompress LodeColor LodeFilter PngFormat.

(** ** Buffers *)

(** Assignments inside a buffer *)
Lemma put_list_ok vs : forall out i, (i + length vs <= length out)%nat -> put_list out (Z.of_nat i) vs = Some (overlay i vs out).
Proof.
  induction vs as [|v vs IH]; intros out i Hl; cbn [put_list length] in *.
  - f_equal. unfold overlay. cbn [length app]. by rewrite Nat.add_0_r, take_drop.
  - rewrite put_at_ok by lia. cbn [mbind option_bind]. rewrite Nat2Z.id. replace (Z.of_nat i + 1) with (Z.of_nat (S i)) by lia.
    rewrite IH by (rewrite length_insert; lia). f_equal. unfold overlay. cbn [length]. rewrite drop_insert_lt by lia.
    replace (S i + length vs)%nat with (i + S (length vs))%nat by lia. rewrite (take_S_r _ i v) by (apply list_lookup_insert_eq; lia).
    rewrite take_insert_ge by lia. by rewrite <- app_assoc.
Qed.

Lemma put_list_z out i k vs : Z.of_nat k = i -> (k + length vs <= length out)%nat -> put_list out i vs = Some (overlay k vs out).
Proof. intros <-. apply put_list_ok. Qed.

(** A buffer that is written from its start *)
Lemma overlay_next (a vs rest : bytes) : (length vs <= length rest)%nat -> overlay (length a) vs (a ++ rest) = (a ++ vs) ++ drop (length vs) rest.
Proof.
  intros Hl. unfold overlay. rewrite take_app_length, drop_app, drop_ge, <- !app_assoc by lia. cbn [app]. do 3 f_equal. lia.
Qed.

Lemma mapM_seqZ {A} (f : Z -> option A) (g : nat -> A) n : (forall i, (i < n)%nat -> f (Z.of_nat i) = Some (g i)) -> mapM f (seqZ 0 (Z.of_nat n)) = Some (map g (seq 0 n)).
Proof.
  intros H. unfold seqZ. rewrite Nat2Z.id. assert (G : forall m k, (m + k <= n)%nat -> mapM f ((fun i => Z.of_nat i + 0) <$> seq m k) = Some (map g (seq m k))).
  { intros m k. revert m. induction k as [|k IH]; intros m Hm; [done|]. cbn [seq fmap list_fmap mapM map]. rewrite Z.add_0_r, H by lia. cbn [mbind option_bind].
    rewrite IH by lia. done. }
  by apply G.
Qed.

(** ** One line *)

(** lodepng's predictor is that of the format *)
Lemma paeth_ok a b c : byte_ok a -> byte_ok b -> byte_ok c -> paethPredictor a b c = paeth a b c.
Proof.
  unfold byte_ok. intros Ha Hb Hc. unfold paethPredictor, paeth, s16. rewrite !signed_id by lia.
  replace (a + b - c - a) with (b - c) by lia. replace (a + b - c - b) with (a - c) by lia. replace (a + b - c - c) with (a + b - c - c) by lia.
  unfold u8. destruct (Z.ltb_spec (Z.abs (a - c)) (Z.abs (b - c))).
  - rewrite (proj2 (Z.leb_gt _ _)) by lia. cbn [andb].
    destruct (Z.ltb_spec (Z.abs (a + b - c - c)) (Z.abs (a - c))); [rewrite (proj2 (Z.leb_gt _ _)) by lia|rewrite (proj2 (Z.leb_le _ _)) by lia]; apply Z.mod_small; lia.
  - rewrite (proj2 (Z.leb_le (Z.abs (b - c)) _)) by lia. cbn [andb].
    destruct (Z.ltb_spec (Z.abs (a + b - c - c)) (Z.abs (b - c))).
    + rewrite (proj2 (Z.leb_gt (Z.abs (b - c)) _)), (proj2 (Z.leb_gt (Z.abs (a - c)) _)) by lia. apply Z.mod_small. lia.
    + rewrite (proj2 (Z.leb_le (Z.abs (b - c)) _)) by lia. apply Z.mod_small. lia.
Qed.

Lemma unfilter_byte x p : byte_ok x -> (u8 (x - p) + p) mod 256 = x.
Proof.
  intros Hx. unfold u8. change (2 ^ 8) with 256. rewrite Z.add_mod_idemp_l by lia. replace (x - p + p) with x by lia. apply Z.mod_small. apply Hx.
Qed.

Lemma nth_byte (l : bytes) i : bytes_ok l -> byte_ok (nth i l 0).
Proof.
  intros Hl. destruct (nth_lookup_or_length l i 0) as [E|E]; [|by rewrite nth_overflow by lia]. unfold bytes_ok in Hl. rewrite list.Forall_lookup in Hl.
  by apply (Hl i).
Qed.

Lemma at_nth (l : bytes) i : (i < length l)%nat -> at_ l (Z.of_nat i) = Some (nth i l 0).
Proof. intros Hi. rewrite at_of_nat. destruct (lookup_lt_is_Some_2 l i Hi) as [x Hx]. by rewrite Hx, (nth_lookup_Some _ _ _ _ Hx). Qed.

Lemma paeth_left a : byte_ok a -> paeth a 0 0 = a.
Proof. intros _. unfold paeth. rewrite (proj2 (Z.leb_le _ _)), (proj2 (Z.leb_le _ _)) by lia. done. Qed.
Lemma paeth_above b : byte_ok b -> paeth 0 b 0 = b.
Proof.
  unfold byte_ok. intros Hb. unfold paeth. destruct (Z.eq_dec b 0) as [->|Hne]; [done|]. rewrite (proj2 (Z.leb_gt (Z.abs (0 + b - 0 - 0)) _)) by lia. cbn [andb].
  by rewrite (proj2 (Z.leb_le _ _)) by lia.
Qed.

Lemma nth_zeros n k : nth k (replicate n 0) 0 = 0.
Proof. destruct (nth_lookup_or_length (replicate n 0) k 0) as [E|E]; [apply lookup_replicate in E as [? _]; done|by rewrite nth_overflow by lia]. Qed.

Definition left_of (bw : nat) (l : bytes) (i : nat) : Z := if (i <? bw)%nat then 0 else nth (i - bw) l 0.

Lemma left_byte bw l i : bytes_ok l -> byte_ok (left_of bw l i).
Proof. intros Hl. unfold left_of. destruct (i <? bw)%nat; [done|by apply nth_byte]. Qed.

Section Line.
Context (type : Z) (bw : nat) (scanline above : bytes).
Context (Htype : 0 <= type <= 4) (Hbw : (1 <= bw <= length scanline)%nat).
Context (Hsl : bytes_ok scanline) (Hab : bytes_ok above) (Hlen : length above = length scanline).

(** What precedes the first line *)
Definition prev_of (prevline : option bytes) : Prop := prevline = Some above \/ prevline = None /\ above = replicate (length scanline) 0.

(** A byte of the filtered line *)
Lemma filter_byte_ok prevline i : prev_of prevline -> (i < length scanline)%nat ->
  filter_byte scanline prevline (Z.of_nat bw) type (Z.of_nat i)
  = Some (u8 (nth i scanline 0 - predicted type (left_of bw scanline i) (nth i above 0) (left_of bw above i))).
Proof.
  intros Hprev Hi. unfold filter_byte. rewrite (at_nth scanline) by lia. cbn [mbind option_bind].
  pose proof (nth_byte scanline i Hsl) as Hx. pose proof (nth_byte above i Hab) as Hu. pose proof (left_byte bw scanline i Hsl) as Hl.
  pose proof (left_byte bw above i Hab) as Hc. set (x := nth i scanline 0) in *. set (u := nth i above 0) in *.
  assert (Hx0 : u8 (x - 0) = x) by (rewrite Z.sub_0_r; unfold u8; apply Z.mod_small; apply Hx).
  assert (Eleft : (i <? bw)%nat = false -> at_ scanline (Z.of_nat i - Z.of_nat bw) = Some (left_of bw scanline i) /\ at_ above (Z.of_nat i - Z.of_nat bw) = Some (left_of bw above i)).
  { intros Hb. unfold left_of. rewrite Hb. apply Nat.ltb_ge in Hb. rewrite <- Nat2Z.inj_sub by lia. split; apply at_nth; lia. }
  assert (Elt : (Z.of_nat i <? Z.of_nat bw) = (i <? bw)%nat) by (destruct (Nat.ltb_spec i bw); [apply Z.ltb_lt|apply Z.ltb_ge]; lia).
  assert (Hfirst : (i <? bw)%nat = true -> left_of bw scanline i = 0 /\ left_of bw above i = 0) by (intros Hb; unfold left_of; by rewrite Hb).
  assert (Hzero : above = replicate (length scanline) 0 -> u = 0 /\ left_of bw above i = 0).
  { intros ->. assert (Hz : forall k, nth k (replicate (length scanline) 0) 0 = 0) by (intros k; apply nth_zeros).
    unfold u, left_of. rewrite !Hz. by destruct (i <? bw)%nat. }
  assert (Hup : at_ above (Z.of_nat i) = Some u) by (apply at_nth; lia).
  rewrite Elt. assert (type = 0 \/ type = 1 \/ type = 2 \/ type = 3 \/ type = 4) as [Et|[Et|[Et|[Et|Et]]]] by lia; rewrite Et; unfold predicted; cbn [Z.eqb Pos.eqb].
  - by rewrite Hx0.
  - destruct (i <? bw)%nat eqn:Hb; [rewrite (proj1 (Hfirst eq_refl)), Hx0; done|]. by rewrite (proj1 (Eleft eq_refl)).
  - destruct Hprev as [-> | [-> Hz]]; [by rewrite Hup|]. rewrite (proj1 (Hzero Hz)), Hx0. done.
  - destruct Hprev as [-> | [-> Hz]].
    + rewrite Hup. cbn [mbind option_bind]. destruct (i <? bw)%nat eqn:Hb.
      * rewrite (proj1 (Hfirst eq_refl)), Z.shiftr_div_pow2 by lia. done.
      * rewrite (proj1 (Eleft eq_refl)). cbn [mbind option_bind]. by rewrite Z.shiftr_div_pow2 by lia.
    + rewrite (proj1 (Hzero Hz)), Z.add_0_r. destruct (i <? bw)%nat eqn:Hb; [rewrite (proj1 (Hfirst eq_refl)); change (0 / 2) with 0; by rewrite Hx0|].
      rewrite (proj1 (Eleft eq_refl)). cbn [mbind option_bind]. by rewrite Z.shiftr_div_pow2 by lia.
  - destruct Hprev as [-> | [-> Hz]].
    + rewrite Hup. cbn [mbind option_bind]. destruct (i <? bw)%nat eqn:Hb.
      * destruct (Hfirst eq_refl) as [-> ->]. by rewrite paeth_above.
      * destruct (Eleft eq_refl) as [-> ->]. cbn [mbind option_bind]. by rewrite paeth_ok.
    + destruct (Hzero Hz) as [-> ->]. rewrite paeth_left by done. destruct (i <? bw)%nat eqn:Hb; [rewrite (proj1 (Hfirst eq_refl)), Hx0; done|].
      by rewrite (proj1 (Eleft eq_refl)).
Qed.

(** The filtered line *)
Definition filtered : bytes := map (fun i => u8 (nth i scanline 0 - predicted type (left_of bw scanline i) (nth i above 0) (left_of bw above i))) (seq 0 (length scanline)).

Lemma filterScanline_ok out prevline : prev_of prevline -> filterScanline out scanline prevline (length scanline) (Z.of_nat bw) type = Some filtered.
Proof.
  intros Hprev. unfold filterScanline. rewrite (proj2 (Z.leb_le 0 _)), (proj2 (Z.leb_le _ 4)) by lia. cbn [andb]. rewrite option_guard_True by lia.
  apply mapM_seqZ. intros i Hi. by apply filter_byte_ok.
Qed.

Lemma back_take (l : bytes) k : (k <= length l)%nat -> back bw (take k l) = left_of bw l k.
Proof.
  intros Hk. unfold back, left_of. rewrite length_take, Nat.min_l by lia. destruct (Nat.ltb_spec k bw); [done|].
  rewrite <- (take_drop k l) at 2. by rewrite app_nth1 by (rewrite length_take; lia).
Qed.

Lemma recon_filtered k : (k <= length scanline)%nat -> recon type bw above (take k scanline) (drop k filtered) = scanline.
Proof.
  intros Hk. remember (length scanline - k)%nat as m eqn:Em. revert k Hk Em. induction m as [|m IH]; intros k Hk Em.
  - rewrite !take_ge, drop_ge by (unfold filtered; rewrite ?length_map, ?length_seq; lia). done.
  - destruct (lookup_lt_is_Some_2 scanline k ltac:(lia)) as [x Hx]. rewrite (drop_S filtered (u8 (nth k scanline 0 - predicted type (left_of bw scanline k) (nth k above 0) (left_of bw above k))) k).
    2: { unfold filtered. apply list_lookup_fmap_Some. exists k. split; [done|]. apply lookup_seq. lia. }
    cbn [recon]. rewrite length_take, Nat.min_l, !back_take by lia. rewrite unfilter_byte by (by apply nth_byte).
    rewrite (nth_lookup_Some _ _ _ _ Hx), <- (take_S_r _ _ _ Hx). apply IH; lia.
Qed.
End Line.

Lemma filtered_bytes type bw scanline above : bytes_ok (filtered type bw scanline above).
Proof. apply list.Forall_forall. intros x (i & -> & _)%list_elem_of_fmap. apply (Z.mod_pos_bound _ 256). lia. Qed.

(** ** The choice of a filter *)

Lemma try_types_ok attempt measure better n : forall type best,
  (forall t, type <= t < type + Z.of_nat n -> exists line sum, attempt t = Some line /\ measure t line = Some sum) ->
  exists r, try_types n type attempt measure better best = Some r
    /\ match r with
       | None => best = None /\ n = 0%nat
       | Some (t, sum, line) => best = Some (t, sum, line) \/ type <= t < type + Z.of_nat n /\ attempt t = Some line
       end.
Proof.
  induction n as [|n IH]; intros type best H; cbn [try_types]; [exists best; split; [done|]; destruct best as [[[t sum] line]|]; [by left|done]|].
  destruct (H type ltac:(lia)) as (line & sum & El & Em). rewrite El. cbn [mbind option_bind]. rewrite Em. cbn [mbind option_bind].
  destruct (IH (type + 1) (match best with None => Some (type, sum, line) | Some (_, smallest, _) => if better sum smallest then Some (type, sum, line) else best end))
    as (r & -> & Hr); [intros t Ht; apply H; lia|]. exists r. split; [done|]. destruct r as [[[t s'] l']|].
  - destruct Hr as [Hr|[Ht Ea]]; [|right; split; [lia|done]]. destruct best as [[[t0 s0] l0]|].
    + destruct (better sum s0); [|by left]. injection Hr as <- <- <-. right. split; [lia|done].
    + injection Hr as <- <- <-. right. split; [lia|done].
  - destruct Hr as [Hb _]. destruct best as [[[t0 s0] l0]|]; [destruct (better sum s0)|]; done.
Qed.

Lemma bump_some l i : 0 <= i < Z.of_nat (length l) -> exists l', bump l i = Some l' /\ length l' = length l.
Proof.
  intros Hi. unfold bump. destruct (at_some l i Hi) as [x ->]. cbn [mbind option_bind]. rewrite put_at_ok by done. eexists. split; [done|]. apply length_insert.
Qed.

Lemma byte_counts_some attempt : bytes_ok attempt -> forall count, length count = 256%nat -> exists c, byte_counts attempt count = Some c /\ length c = 256%nat.
Proof.
  induction 1 as [|x attempt Hx _ IH]; intros count Hl; cbn [byte_counts]; [by exists count|]. destruct (bump_some count x) as (c & -> & Hc); [unfold byte_ok in Hx; lia|].
  cbn [mbind option_bind]. apply IH. lia.
Qed.

Section Lines.
Context {M : Memory} (settings : LodePNGEncoderSettings) (strategy : LodePNGFilterStrategy) (bw lb rows : nat) (Hbw : (1 <= bw <= lb)%nat).

(** What a strategy needs: types for all lines, or a compressor that works on lines *)
Definition strategy_ok : Prop :=
  match strategy with
  | LFS_PREDEFINED => exists p, e_predefined_filters settings = Some p /\ (rows <= length p)%nat /\ Forall (fun t => 0 <= t <= 4) p
  | LFS_BRUTE_FORCE => settings_ok (e_zlibsettings settings) /\ Z.of_nat lb < 2 ^ 31
  | _ => True
  end.
Context (Hok : strategy_ok).

Lemma deflated_size_some attempt : settings_ok (e_zlibsettings settings) -> bytes_ok attempt -> length attempt = lb -> Z.of_nat lb < 2 ^ 31 ->
  exists n, deflated_size (e_zlibsettings settings) attempt = Some n.
Proof.
  intros Hs Ha Hl H31. unfold deflated_size, zlib_compress. cbn [custom_zlib].
  destruct (compressed_ok attempt (mkSettings 1 (use_lz77 (e_zlibsettings settings)) (lz77 (e_zlibsettings settings)) None None)) as (out & -> & _); [|done|].
  - split; [done|lia|cbn; lia| |done]. intros ->. cbn in Hl. lia.
  - by eexists.
Qed.

Lemma filtered_line_ok y out scanline above prevline : (y < rows)%nat -> length scanline = lb -> length above = lb -> bytes_ok scanline -> bytes_ok above ->
  prev_of scanline above prevline ->
  exists type, filtered_line settings strategy y out scanline prevline (Z.of_nat bw) = Some (type, filtered type bw scanline above) /\ 0 <= type <= 4.
Proof.
  intros Hy Hl Ha Hs Hab Hprev. unfold filtered_line.
  assert (Hf : forall o t, 0 <= t <= 4 -> filterScanline o scanline prevline (length scanline) (Z.of_nat bw) t = Some (filtered t bw scanline above)).
  { intros o t Ht. apply filterScanline_ok; (done || lia). }
  assert (Hfix : forall t, 0 <= t <= 4 -> exists type, (line ← filterScanline out scanline prevline (length scanline) (Z.of_nat bw) t; Some (t, line))
    = Some (type, filtered type bw scanline above) /\ 0 <= type <= 4) by (intros t Ht; exists t; by rewrite Hf).
  assert (Hada : forall measure better, (forall t line, 0 <= t <= 4 -> bytes_ok line -> length line = lb -> exists sum, measure t line = Some sum) ->
    exists type, (best ← try_types 5 0 (filterScanline (fresh Attempt (length scanline)) scanline prevline (length scanline) (Z.of_nat bw)) measure better None;
      '(type, _, line) ← best; Some (type, line)) = Some (type, filtered type bw scanline above) /\ 0 <= type <= 4).
  { intros measure better Hm.
    destruct (try_types_ok (filterScanline (fresh Attempt (length scanline)) scanline prevline (length scanline) (Z.of_nat bw)) measure better 5 0 None) as (r & -> & Hr).
    - intros t Ht. destruct (Hm t (filtered t bw scanline above)) as [sum Hsum]; [lia|apply filtered_bytes|unfold filtered; rewrite length_map, length_seq; done|].
      exists (filtered t bw scanline above), sum. split; [apply Hf; lia|done].
    - destruct r as [[[t sum] line]|]; [|by destruct Hr]. destruct Hr as [|[Ht E]]; [done|]. rewrite Hf in E by lia. injection E as <-. exists t. split; [done|lia]. }
  unfold strategy_ok in Hok. destruct strategy; first [apply Hfix; lia|idtac].
  - apply Hada. by eexists.
  - apply Hada. intros t line Ht Hlb _. unfold entropy_sum. destruct (byte_counts_some line Hlb (replicate 256 0) eq_refl) as (c & -> & Hc). cbn [mbind option_bind].
    destruct (bump_some c t) as (c' & -> & _); [lia|]. by eexists.
  - apply Hada. intros t line _ Hlb Hll. apply deflated_size_some; [apply Hok|done|done|apply Hok].
  - destruct Hok as (p & -> & Hp & Hall). cbn [mbind option_bind]. destruct (lookup_lt_is_Some_2 p y ltac:(lia)) as [t Ht]. rewrite Ht. cbn [mbind option_bind].
    apply Hfix. rewrite list.Forall_lookup in Hall. by apply (Hall y).
Qed.

(** The lines of an image *)
Definition lines_of (in_ : bytes) (y n : nat) : list bytes := map (fun k => sub in_ (k * lb) lb) (seq y n).

Lemma filter_loop_ok in_ n : forall y a rest above prevline, bytes_ok in_ -> (y + n <= rows)%nat -> ((y + n) * lb <= length in_)%nat -> length a = ((lb + 1) * y)%nat ->
  length rest = (n * (lb + 1))%nat -> length above = lb -> bytes_ok above -> prev_of (replicate lb 0) above prevline ->
  exists data, filter_loop n y settings strategy (a ++ rest) in_ lb (Z.of_nat bw) prevline = Some (a ++ data)
    /\ bytes_ok data /\ unfilter n lb bw above data = Some (lines_of in_ y n).
Proof.
  induction n as [|n IH]; intros y a rest above prevline Hin Hrows Hlen Hla Hlr Hab1 Hab2 Hprev; cbn [filter_loop].
  - destruct rest; [|done]. exists []. rewrite app_nil_r. split; [done|]. split; [constructor|done].
  - rewrite option_guard_True by lia. set (scanline := sub in_ (y * lb) lb).
    assert (Hsl : length scanline = lb) by (apply length_sub; lia). assert (Hsb : bytes_ok scanline) by (by apply bytes_ok_sub).
    destruct (filtered_line_ok y (sub (a ++ rest) ((lb + 1) * y + 1) lb) scanline above prevline) as (type & -> & Ht); [lia|done..| |].
    { unfold prev_of in *. rewrite length_replicate in Hprev. by rewrite Hsl. }
    cbn [mbind option_bind]. set (line := filtered type bw scanline above).
    assert (Hll : length line = lb) by (unfold line, filtered; by rewrite length_map, length_seq).
    rewrite <- Hla, put_list_ok, overlay_next by (rewrite ?length_app; cbn [length]; lia). cbn [mbind option_bind].
    destruct (IH (S y) (a ++ type :: line) (drop (length (type :: line)) rest) scanline (Some scanline)) as (data & E & Hd & Hu);
      [done|lia|lia|rewrite length_app; cbn [length]; lia|rewrite length_drop; cbn [length]; lia|done|done|by left|].
    rewrite E. exists (type :: line ++ data). split; [by rewrite <- app_assoc|]. split.
    + constructor; [unfold byte_ok; lia|]. apply list.Forall_app. split; [apply filtered_bytes|done].
    + cbn [unfilter]. rewrite option_guard_True by (rewrite length_app; lia). rewrite take_app_length', drop_app_length' by done.
      assert (Er : recon type bw above [] line = scanline) by (apply (recon_filtered type bw scanline above) with (k := 0%nat); first [done|lia]).
      rewrite Er, Hu. done.
Qed.
End Lines.
