(* ===== verification/PngBits.v ===== *)
(** The bits of the PNG encoder: [line_bits] (PngFormat) of a buffer, what the functions of
    lodepng that read and write single bits and small samples do with them, and padding
    ([addPaddingBits]): every line gets zeros up to the next byte. *)
From S2P Require Import Prelude CLib Checksum BitReader Huffman Canonical Deflate LodeLz77 LodeHuff LodeTree LodeDeflate CodeLengths LodeColor LodeFilter PngFormat.

(** ** The bits of a buffer *)

Lemma length_mbits n v : length (mbits n v) = n.
Proof. unfold mbits. by rewrite length_reverse, length_zbits. Qed.

Lemma line_bits_app a b : line_bits (a ++ b) = line_bits a ++ line_bits b.
Proof. unfold line_bits. by rewrite map_app, join_app. Qed.

Lemma line_bits_cons x b : line_bits (x :: b) = mbits 8 x ++ line_bits b.
Proof. done. Qed.

Lemma length_line_bits bs : length (line_bits bs) = (8 * length bs)%nat.
Proof. induction bs as [|x bs IH]; [done|]. rewrite line_bits_cons, length_app, length_mbits, IH. cbn [length]. lia. Qed.

Lemma line_bits_take k bs : line_bits (take k bs) = take (8 * k) (line_bits bs).
Proof.
  destruct (decide (k <= length bs)%nat) as [Hk|Hk].
  - rewrite <- (take_drop k bs) at 2. rewrite line_bits_app, take_app_length'; [done|]. rewrite length_line_bits, length_take. lia.
  - rewrite !take_ge; [done|rewrite length_line_bits; lia|lia].
Qed.

Lemma line_bits_drop k bs : line_bits (drop k bs) = drop (8 * k) (line_bits bs).
Proof.
  destruct (decide (k <= length bs)%nat) as [Hk|Hk].
  - rewrite <- (take_drop k bs) at 2. rewrite line_bits_app, drop_app_length'; [done|]. rewrite length_line_bits, length_take. lia.
  - rewrite !drop_ge; [done|rewrite length_line_bits; lia|lia].
Qed.

Lemma line_bits_sub off n bs : line_bits (sub bs off n) = take (8 * n) (drop (8 * off) (line_bits bs)).
Proof. unfold sub. by rewrite line_bits_take, line_bits_drop. Qed.

Lemma mbits_lookup n v i : (i < n)%nat -> mbits n v !! i = Some (Z.testbit v (Z.of_nat (n - 1 - i))).
Proof.
  intros Hi. unfold mbits. rewrite reverse_lookup by (rewrite length_zbits; lia). rewrite length_zbits. unfold zbits.
  apply list_lookup_fmap_Some. exists (n - S i)%nat. split; [do 2 f_equal; lia|]. apply lookup_seq. lia.
Qed.

Lemma line_bits_lookup bs p x : bs !! (p / 8)%nat = Some x -> line_bits bs !! p = Some (Z.testbit x (Z.of_nat (7 - p mod 8))).
Proof.
  intros Hx. pose proof (Nat.div_mod p 8 ltac:(lia)) as Hdm. pose proof (Nat.mod_upper_bound p 8 ltac:(lia)).
  rewrite <- (take_drop_middle bs _ _ Hx) at 1. rewrite line_bits_app, line_bits_cons. pose proof (lookup_lt_Some _ _ _ Hx).
  rewrite lookup_app_r by (rewrite length_line_bits, length_take; lia). rewrite length_line_bits, length_take, Nat.min_l by lia.
  rewrite lookup_app_l by (rewrite length_mbits; lia). rewrite mbits_lookup by lia. do 3 f_equal. lia.
Qed.

(** ** Single bits *)

Lemma readBit_ok s p b : line_bits s !! p = Some b -> readBitFromReversedStream (Z.of_nat p) s = Some (b2z b).
Proof.
  intros Hb. pose proof (lookup_lt_Some _ _ _ Hb) as Hp. rewrite length_line_bits in Hp. unfold readBitFromReversedStream.
  destruct (lookup_lt_is_Some_2 s (p / 8)%nat) as [x Hx]; [apply Nat.Div0.div_lt_upper_bound; lia|].
  assert (E : Z.of_nat p >> 3 = Z.of_nat (p / 8)) by (rewrite Z.shiftr_div_pow2, Nat2Z.inj_div by lia; done).
  rewrite E, at_of_nat, Hx. cbn [mbind option_bind]. rewrite (line_bits_lookup s p x Hx) in Hb. injection Hb as <-.
  assert (Em : Z.of_nat p .& 7 = Z.of_nat (p mod 8)) by (change 7 with (Z.ones 3); rewrite land_ones_mod, Nat2Z.inj_mod by lia; done).
  rewrite Em, bit_of. pose proof (Nat.mod_upper_bound p 8 ltac:(lia)) as Hr. rewrite Nat2Z.inj_sub by lia. done.
Qed.

(** Setting one bit of a byte *)
Definition put_bit (x : Z) (k : Z) (bit : bool) : Z := if bit then x .| (1 << k) else x .& u8 (Z.lnot (1 << k)).

Lemma put_bit_checked : forallb (fun x => forallb (fun r => forallb (fun b =>
  let y := put_bit (Z.of_nat x) (7 - Z.of_nat r) b in
  bool_decide (mbits 8 y = <[r := b]> (mbits 8 (Z.of_nat x))) && (0 <=? y) && (y <? 256)) [true; false]) (seq 0 8)) (seq 0 256) = true.
Proof. vm_compute. reflexivity. Qed.

Lemma put_bit_ok x r b : byte_ok x -> (r < 8)%nat ->
  mbits 8 (put_bit x (7 - Z.of_nat r) b) = <[r := b]> (mbits 8 x) /\ byte_ok (put_bit x (7 - Z.of_nat r) b).
Proof.
  intros Hx Hr. pose proof put_bit_checked as H. rewrite forallb_forall in H. specialize (H (Z.to_nat x) ltac:(apply in_seq; unfold byte_ok in Hx; lia)).
  rewrite forallb_forall in H. specialize (H r ltac:(apply in_seq; lia)). rewrite forallb_forall in H. specialize (H b ltac:(destruct b; cbn; auto)).
  rewrite Z2Nat.id in H by (unfold byte_ok in Hx; lia). cbn zeta in H. apply andb_prop in H as [H H3]. apply andb_prop in H as [H1 H2].
  apply bool_decide_eq_true in H1. split; [done|]. unfold byte_ok. lia.
Qed.

Lemma insert_bits (a : bytes) x c (y : Z) r b : (r < 8)%nat -> mbits 8 y = <[r := b]> (mbits 8 x) ->
  line_bits (a ++ y :: c) = <[(8 * length a + r)%nat := b]> (line_bits (a ++ x :: c)).
Proof.
  intros Hr Hy. rewrite !line_bits_app, !line_bits_cons, Hy. rewrite insert_app_r_alt by (rewrite length_line_bits; lia). f_equal.
  rewrite length_line_bits. replace (8 * length a + r - 8 * length a)%nat with r by lia. by rewrite insert_app_l by (rewrite length_mbits; lia).
Qed.

Lemma setBit_ok s p b : bytes_ok s -> (p < 8 * length s)%nat ->
  exists s', setBitOfReversedStream (Z.of_nat p) s (b2z b) = Some s' /\ line_bits s' = <[p := b]> (line_bits s) /\ bytes_ok s' /\ length s' = length s.
Proof.
  intros Hs Hp. unfold setBitOfReversedStream.
  assert (E : Z.of_nat p >> 3 = Z.of_nat (p / 8)) by (rewrite Z.shiftr_div_pow2, Nat2Z.inj_div by lia; done).
  assert (Em : Z.of_nat p .& 7 = Z.of_nat (p mod 8)) by (change 7 with (Z.ones 3); rewrite land_ones_mod, Nat2Z.inj_mod by lia; done).
  assert (Hq : (p / 8 < length s)%nat) by (apply Nat.Div0.div_lt_upper_bound; lia).
  destruct (lookup_lt_is_Some_2 s (p / 8)%nat Hq) as [x Hx]. rewrite E, Em, at_of_nat, Hx. cbn [mbind option_bind].
  rewrite put_at_ok, Nat2Z.id by lia. set (y := if _ =? 0 then _ else _).
  assert (Ey : y = put_bit x (7 - Z.of_nat (p mod 8)) b) by (unfold y; by destruct b).
  assert (Hxb : byte_ok x) by (unfold bytes_ok in Hs; rewrite list.Forall_lookup in Hs; by apply (Hs (p / 8)%nat)).
  pose proof (Nat.mod_upper_bound p 8 ltac:(lia)) as Hr. destruct (put_bit_ok x (p mod 8) b Hxb Hr) as [Hy1 Hy2]. rewrite <- Ey in Hy1, Hy2.
  eexists. split; [done|]. split; [|split; [by apply Forall_insert|apply length_insert]].
  rewrite insert_take_drop by done. rewrite (insert_bits _ x _ y (p mod 8) b Hr Hy1). rewrite length_take, Nat.min_l, (take_drop_middle _ _ _ Hx) by lia.
  f_equal. pose proof (Nat.div_mod p 8 ltac:(lia)). lia.
Qed.

(** ** Padding *)

Lemma overlay_nil {X} (l : list X) k : overlay k [] l = l.
Proof. unfold overlay. cbn [length app]. by rewrite Nat.add_0_r, take_drop. Qed.

Lemma overlay_insert {X} (l : list X) k x xs : (k + S (length xs) <= length l)%nat -> overlay (S k) xs (<[k := x]> l) = overlay k (x :: xs) l.
Proof.
  intros Hl. unfold overlay. rewrite (take_S_r _ k x) by (apply list_lookup_insert_eq; lia). rewrite take_insert_ge, drop_insert_lt by lia.
  rewrite <- app_assoc. cbn [length app]. do 4 f_equal. lia.
Qed.

Lemma copy_bits_ok n : forall o i out in_, bytes_ok out -> (o + n <= 8 * length out)%nat -> (i + n <= 8 * length in_)%nat ->
  exists out', copy_bits n (Z.of_nat o) (Z.of_nat i) out in_ = Some out' /\ line_bits out' = overlay o (take n (drop i (line_bits in_))) (line_bits out)
    /\ bytes_ok out' /\ length out' = length out.
Proof.
  induction n as [|n IH]; intros o i out in_ Ho Hlo Hli; cbn [copy_bits].
  - exists out. split; [done|]. split; [|done]. by rewrite take_0, overlay_nil.
  - destruct (lookup_lt_is_Some_2 (line_bits in_) i) as [b Hb]; [rewrite length_line_bits; lia|]. rewrite (readBit_ok _ _ _ Hb). cbn [mbind option_bind].
    destruct (setBit_ok out o b Ho ltac:(lia)) as (out1 & -> & Hb1 & Ho1 & Hl1). cbn [mbind option_bind].
    replace (Z.of_nat o + 1) with (Z.of_nat (S o)) by lia. replace (Z.of_nat i + 1) with (Z.of_nat (S i)) by lia.
    destruct (IH (S o) (S i) out1 in_ Ho1 ltac:(lia) ltac:(lia)) as (out2 & -> & Hb2 & Ho2 & Hl2). exists out2. split; [done|].
    split; [|split; [done|lia]]. rewrite Hb2, Hb1, (drop_S _ _ _ Hb). cbn [take]. apply overlay_insert.
    rewrite length_take, length_drop, !length_line_bits. lia.
Qed.

Lemma zero_bits_ok n : forall o out, bytes_ok out -> (o + n <= 8 * length out)%nat ->
  exists out', zero_bits n (Z.of_nat o) out = Some out' /\ line_bits out' = overlay o (replicate n false) (line_bits out) /\ bytes_ok out' /\ length out' = length out.
Proof.
  induction n as [|n IH]; intros o out Ho Hlo; cbn [zero_bits].
  - exists out. split; [done|]. split; [|done]. symmetry. apply overlay_nil.
  - destruct (setBit_ok out o false Ho ltac:(lia)) as (out1 & E & Hb1 & Ho1 & Hl1). change (b2z false) with 0 in E. rewrite E. cbn [mbind option_bind].
    replace (Z.of_nat o + 1) with (Z.of_nat (S o)) by lia. destruct (IH (S o) out1 Ho1 ltac:(lia)) as (out2 & -> & Hb2 & Ho2 & Hl2). exists out2. split; [done|].
    split; [|split; [done|lia]]. rewrite Hb2, Hb1. cbn [replicate]. apply overlay_insert. rewrite length_replicate, length_line_bits. lia.
Qed.

Lemma overlay_after {X} (a b rest : list X) : (length b <= length rest)%nat -> overlay (length a) b (a ++ rest) = (a ++ b) ++ drop (length b) rest.
Proof. intros Hl. unfold overlay. rewrite take_app_length, drop_app, drop_ge, <- !app_assoc by lia. cbn [app]. do 3 f_equal. lia. Qed.

(** [n] lines of [il] bits, each with zeros up to [ol] bits *)
Fixpoint padded_bits (n il ol : nat) (bits : list bool) : list bool :=
  match n with
  | O => []
  | S n => (take il bits ++ replicate (ol - il) false) ++ padded_bits n il ol (drop il bits)
  end.

Lemma pad_loop_ok n il ol : forall i a rest out in_, (il <= ol)%nat -> bytes_ok out -> line_bits out = a ++ rest -> (n * ol <= length rest)%nat ->
  (i + n * il <= 8 * length in_)%nat ->
  exists out', pad_loop n (Z.of_nat (length a)) (Z.of_nat i) out in_ (Z.of_nat ol) (Z.of_nat il) = Some out'
    /\ line_bits out' = a ++ padded_bits n il ol (drop i (line_bits in_)) ++ drop (n * ol) rest /\ bytes_ok out' /\ length out' = length out.
Proof.
  induction n as [|n IH]; intros i a rest out in_ Hio Ho Hb Hrest Hin; cbn [pad_loop padded_bits]; [by exists out|].
  assert (Hlen : (8 * length out = length a + length rest)%nat) by (rewrite <- length_line_bits, Hb, length_app; done).
  rewrite Nat2Z.id. destruct (copy_bits_ok il (length a) i out in_ Ho ltac:(lia) ltac:(lia)) as (out1 & -> & Hb1 & Ho1 & Hl1). cbn [mbind option_bind].
  assert (Ht : length (take il (drop i (line_bits in_))) = il) by (rewrite length_take, length_drop, length_line_bits; lia).
  rewrite Hb, overlay_after in Hb1 by lia. set (l1 := a ++ take il (drop i (line_bits in_))) in *.
  replace (Z.of_nat (length a) + Z.of_nat il) with (Z.of_nat (length l1)) by (unfold l1; rewrite length_app; lia). rewrite <- Nat2Z.inj_sub, Nat2Z.id by lia.
  destruct (zero_bits_ok (ol - il) (length l1) out1 Ho1) as (out2 & -> & Hb2 & Ho2 & Hl2); [unfold l1; rewrite length_app; lia|]. cbn [mbind option_bind].
  rewrite Hb1, overlay_after in Hb2 by (rewrite length_replicate, length_drop; lia). rewrite length_replicate, drop_drop, Ht in Hb2.
  replace (il + (ol - il))%nat with ol in Hb2 by lia. set (l2 := l1 ++ replicate (ol - il) false) in *.
  assert (El2 : length l2 = (length a + ol)%nat) by (unfold l2, l1; rewrite !length_app, length_replicate; lia).
  replace (Z.of_nat (length a) + Z.of_nat ol) with (Z.of_nat (length l2)) by lia. replace (Z.of_nat i + Z.of_nat il) with (Z.of_nat (i + il)) by lia.
  destruct (IH (i + il)%nat l2 (drop ol rest) out2 in_ Hio Ho2 Hb2) as (out3 & -> & Hb3 & Ho3 & Hl3); [rewrite length_drop; lia|lia|].
  exists out3. split; [done|]. split; [|split; [done|lia]]. rewrite Hb3. unfold l2, l1. rewrite !drop_drop, <- !app_assoc. do 4 f_equal.
Qed.

(** The value of bits *)
Lemma mval_app a b : mval (a ++ b) = mval a * 2 ^ Z.of_nat (length b) + mval b.
Proof.
  unfold mval. rewrite foldl_app. generalize (foldl (fun v b => 2 * v + b2z b) 0 a) as z. induction b as [|x b IH]; intros z; cbn [foldl length]; [cbn; lia|].
  rewrite IH, (IH (2 * 0 + b2z x)), Nat2Z.inj_succ, Z.pow_succ_r by lia. lia.
Qed.

Lemma mval_mbits n v : mval (mbits n v) = v mod 2 ^ Z.of_nat n.
Proof.
  induction n as [|n IH]; [by rewrite Z.mod_1_r|]. unfold mbits in *. rewrite zbits_S, reverse_snoc. change (?x :: ?l) with ([x] ++ l).
  rewrite mval_app, IH, length_reverse, length_zbits. rewrite mod_pow2_S. unfold mval. cbn [foldl]. lia.
Qed.

Lemma line_bits_inj a b : length a = length b -> bytes_ok a -> bytes_ok b -> line_bits a = line_bits b -> a = b.
Proof.
  intros Hl. revert b Hl. induction a as [|x a IH]; intros [|y b] Hl Ha Hb E; try done. apply Forall_cons_1 in Ha as [Hx Ha], Hb as [Hy Hb].
  rewrite !line_bits_cons in E. apply app_inj_1 in E as [E1 E2]; [|by rewrite !length_mbits]. f_equal; [|apply IH; [by injection Hl|done..]].
  unfold byte_ok in *. rewrite <- (Z.mod_small x (2 ^ Z.of_nat 8)), <- (Z.mod_small y (2 ^ Z.of_nat 8)), <- !mval_mbits by (change (2 ^ Z.of_nat 8) with 256; lia).
  by rewrite E1.
Qed.

(** ** Samples of less than a byte *)

(** The bits [B] are written, and the rest of the byte they end in is zero. *)
Definition filled_bits (out : bytes) (B : list bool) : Prop :=
  take (length B) (line_bits out) = B
  /\ (length B mod 8 <> 0 -> drop (length B mod 8) (mbits 8 (nth (length B / 8) out 0%Z)) = replicate (8 - length B mod 8) false)%nat.

Definition small_ok (d r : nat) (x v : Z) : bool :=
  let y := u8 ((if (r =? 0)%nat then 0 else x) .| (v << (8 - Z.of_nat d - Z.of_nat r))) in
  implb ((r =? 0)%nat || bool_decide (drop r (mbits 8 x) = replicate (8 - r) false))
    (bool_decide (mbits 8 y = (take r (mbits 8 x) ++ mbits d v) ++ replicate (8 - r - d) false)).

Lemma small_checked : forallb (fun d => forallb (fun k => forallb (fun x => forallb (fun v => small_ok d (d * k) (Z.of_nat x) (Z.of_nat v))
  (seq 0 (2 ^ d))) (seq 0 256)) (seq 0 (8 / d))) [1; 2; 4]%nat = true.
Proof. vm_compute. reflexivity. Qed.

Lemma small_byte d k x v : d ∈ [1; 2; 4]%nat -> (k < 8 / d)%nat -> byte_ok x -> 0 <= v < 2 ^ Z.of_nat d -> small_ok d (d * k) x v = true.
Proof.
  intros Hd Hk Hx Hv. pose proof small_checked as H. rewrite forallb_forall in H. specialize (H d ltac:(by apply list_elem_of_In)).
  rewrite forallb_forall in H. specialize (H k ltac:(apply in_seq; lia)). rewrite forallb_forall in H. unfold byte_ok in Hx.
  specialize (H (Z.to_nat x) ltac:(apply in_seq; lia)). rewrite forallb_forall in H.
  assert (Hp : (2 ^ d)%nat = Z.to_nat (2 ^ Z.of_nat d)) by (rewrite <- (Nat2Z.id (2 ^ d)), Nat2Z.inj_pow; done).
  specialize (H (Z.to_nat v) ltac:(apply in_seq; lia)). by rewrite !Z2Nat.id in H by lia.
Qed.

Lemma land_ones_nat i a : Z.of_nat i .& Z.ones (Z.of_nat a) = Z.of_nat (i mod 2 ^ a).
Proof. rewrite land_ones_mod, Nat2Z.inj_mod, Nat2Z.inj_pow by lia. done. Qed.

(** The partial index in a byte *)
Lemma part_index d i : d ∈ [1; 2; 4]%nat ->
  let m := if Z.of_nat d =? 1 then 7 else if Z.of_nat d =? 2 then 3 else 1 in
  m = Z.of_nat (8 / d) - 1 /\ Z.of_nat i .& m = Z.of_nat (i mod (8 / d)) /\ (d * (8 / d) = 8)%nat /\ (0 < d)%nat.
Proof.
  intros [->|[->|[->|[]%not_elem_of_nil]%elem_of_cons]%elem_of_cons]%elem_of_cons; cbn zeta; (split; [done|]); (split; [|split; [done|lia]]).
  - apply (land_ones_nat i 3).
  - apply (land_ones_nat i 2).
  - apply (land_ones_nat i 1).
Qed.

Lemma bits_around (out : bytes) q x n : out !! q = Some x -> (n <= 8)%nat -> take (8 * q + n) (line_bits out) = line_bits (take q out) ++ take n (mbits 8 x).
Proof.
  intros Hx Hn. pose proof (lookup_lt_Some _ _ _ Hx). rewrite <- (take_drop_middle out q x Hx) at 1. rewrite line_bits_app, line_bits_cons.
  rewrite take_app, length_line_bits, length_take, Nat.min_l by lia. rewrite take_ge by (rewrite length_line_bits, length_take; lia). f_equal.
  replace (8 * q + n - 8 * q)%nat with n by lia. by rewrite take_app_le by (rewrite length_mbits; lia).
Qed.

Lemma div_mod_8 q r : (r < 8)%nat -> ((8 * q + r) mod 8 = r /\ (8 * q + r) / 8 = q)%nat.
Proof. intros Hr. split; symmetry; [by apply (Nat.mod_unique _ 8 q)|by apply (Nat.div_unique _ 8 q r)]. Qed.

(** One more sample *)
Lemma addColorBits_ok d out B i v : d ∈ [1; 2; 4]%nat -> bytes_ok out -> filled_bits out B -> length B = (i * d)%nat -> (i * d < 8 * length out)%nat ->
  0 <= v < 2 ^ Z.of_nat d ->
  exists out', addColorBits out (Z.of_nat i) (Z.of_nat d) v = Some out' /\ filled_bits out' (B ++ mbits d v) /\ bytes_ok out' /\ length out' = length out.
Proof.
  intros Hd Ho [HB1 HB2] HlB Hi Hv. unfold addColorBits. destruct (part_index d i Hd) as (Em & Ep & He & Hd0). cbn zeta in Em, Ep. rewrite Ep, Em.
  set (e := (8 / d)%nat) in *. set (k := (i mod e)%nat). set (q := (i / e)%nat).
  assert (Hik : i = (e * q + k)%nat) by (apply Nat.div_mod; lia). assert (Hk : (k < e)%nat) by (apply Nat.mod_upper_bound; lia).
  assert (Hpos : (i * d = 8 * q + d * k)%nat) by nia. assert (Hr : (d * k + d <= 8)%nat) by nia.
  assert (Eq : Z.of_nat i * Z.of_nat d / 8 = Z.of_nat q).
  { rewrite <- Nat2Z.inj_mul, Hpos. change 8 with (Z.of_nat 8). rewrite <- Nat2Z.inj_div. f_equal. apply div_mod_8. lia. }
  destruct (div_mod_8 q (d * k) ltac:(lia)) as [Emod Ediv]. rewrite <- Hpos, <- HlB in Emod, Ediv.
  rewrite Emod, Ediv in HB2. destruct (lookup_lt_is_Some_2 out q ltac:(nia)) as [x Hx]. rewrite (nth_lookup_Some _ _ _ _ Hx) in HB2.
  assert (Hxb : byte_ok x) by (unfold bytes_ok in Ho; rewrite list.Forall_lookup in Ho; by apply (Ho q)).
  assert (Evm : v .& ((1 << Z.of_nat d) - 1) = v).
  { replace ((1 << Z.of_nat d) - 1) with (Z.ones (Z.of_nat d)) by (rewrite Z.ones_equiv, Z.shiftl_mul_pow2 by lia; lia).
    rewrite land_ones_mod by lia. apply Z.mod_small. lia. }
  rewrite Evm, Eq, at_of_nat, Hx. set (s := v << _).
  set (y := u8 ((if (d * k =? 0)%nat then 0 else x) .| s)).
  assert (Eput : (if Z.of_nat k =? 0 then put_at out (Z.of_nat q) (u8 s) else x ← Some x; put_at out (Z.of_nat q) (u8 (x .| s))) = Some (<[q := y]> out)).
  { pose proof (lookup_lt_Some _ _ _ Hx). unfold y. destruct (Z.eqb_spec (Z.of_nat k) 0) as [E|E].
    - rewrite (proj2 (Nat.eqb_eq _ _)) by nia. rewrite put_at_ok, Nat2Z.id by lia. done.
    - rewrite (proj2 (Nat.eqb_neq _ _)) by nia. cbn [mbind option_bind]. by rewrite put_at_ok, Nat2Z.id by lia. }
  rewrite Eput. eexists. split; [done|].
  assert (Hy : mbits 8 y = (take (d * k) (mbits 8 x) ++ mbits d v) ++ replicate (8 - d * k - d) false).
  { pose proof (small_byte d k x v Hd Hk Hxb Hv) as Hs. unfold small_ok in Hs. replace (8 - Z.of_nat d - Z.of_nat (d * k)) with (Z.of_nat d * (Z.of_nat e - 1 - Z.of_nat k)) in Hs by nia.
    fold s y in Hs. destruct (Nat.eqb_spec (d * k) 0) as [E|E]; cbn [orb implb] in Hs; [by apply bool_decide_eq_true in Hs|].
    rewrite bool_decide_true in Hs by (by apply HB2). cbn [implb] in Hs. by apply bool_decide_eq_true in Hs. }
  assert (Hlk : (<[q := y]> out : bytes) !! q = Some y) by (apply list_lookup_insert_eq; by apply lookup_lt_Some in Hx).
  assert (Ht : length (take (d * k) (mbits 8 x) ++ mbits d v) = (d * k + d)%nat) by (rewrite length_app, length_take, !length_mbits; lia).
  assert (HlB' : length (B ++ mbits d v) = (8 * q + (d * k + d))%nat) by (rewrite length_app, length_mbits, HlB; lia).
  split; [|split; [apply Forall_insert; [done|apply (Z.mod_pos_bound _ 256); lia]|apply length_insert]]. split.
  - rewrite HlB', (bits_around _ q y) by (done || lia). rewrite Hy, take_app_length' by done. rewrite take_insert_ge by lia.
    rewrite app_assoc. f_equal. rewrite <- (bits_around out q x) by (done || lia). by rewrite <- Hpos, <- HlB.
  - intros Hne. rewrite HlB' in *. destruct (decide (d * k + d = 8)%nat) as [E8|E8].
    { exfalso. apply Hne. rewrite E8. replace (8 * q + 8)%nat with (8 * S q + 0)%nat by lia. by apply div_mod_8; lia. }
    destruct (div_mod_8 q (d * k + d) ltac:(lia)) as [Em' Ed'].
    rewrite Em', Ed', (nth_lookup_Some _ _ _ _ Hlk), Hy, drop_app_length' by done. f_equal. lia.
Qed.

Lemma filled_nil out : filled_bits out [].
Proof. split; [done|]. cbn. lia. Qed.
