(* ===== verification/ColorStats.v ===== *)
(** The statistics of an image (LodeColor): after [lodepng_compute_color_stats] on RGBA
    pixels, [stats_ok] says what they are: whether the image is grey, opaque or has a
    colour key, how many bits its samples need, and its colours if there are few. *)
From S2P Require Import Prelude CLib Checksum BitReader Huffman Canonical Deflate LodeLz77 LodeHuff LodeTree LodeDeflate CodeLengths.
From S2P Require Import ZlibCompress LodeColor LodeFilter PngFormat FilterCorrect PngBits.

Definition px_ok (p : rgba) : Prop := let '(r, g, b, a) := p in byte_ok r /\ byte_ok g /\ byte_ok b /\ byte_ok a.

#[export] Instance px_ok_dec p : Decision (px_ok p).
Proof. destruct p as [[[r g] b] a]. unfold px_ok, byte_ok. apply _. Defined.

(** ** The tree of colours *)

(** Every node has 16 children. *)
Fixpoint tree_wf (n : nat) (t : ColorTree) : Prop :=
  match t with
  | Null => True
  | Node children _ => length children = 16%nat /\ match n with O => True | S n => Forall (tree_wf n) children end
  end.

Definition child_of (bit : Z) (p : rgba) : nat := let '(r, g, b, a) := p in child_index bit r g b a.
Definition get_of (n : nat) (bit : Z) (t : ColorTree) (p : rgba) : Z := let '(r, g, b, a) := p in tree_get n bit t r g b a.
Definition add_of (n : nat) (bit : Z) (t : ColorTree) (p : rgba) (index : Z) : ColorTree := let '(r, g, b, a) := p in tree_add n bit t r g b a index.

Lemma get_of_S n bit children i p : get_of (S n) bit (Node children i) p = get_of n (bit + 1) (default Null (children !! child_of bit p)) p.
Proof. by destruct p as [[[r g] b] a]. Qed.
Lemma get_of_Null n bit p : get_of n bit Null p = -1.
Proof. destruct p as [[[r g] b] a]. by destruct n. Qed.
Lemma add_of_S n bit children i p index : add_of (S n) bit (Node children i) p index
  = Node (<[child_of bit p := add_of n (bit + 1) (default Null (children !! child_of bit p)) p index]> children) i.
Proof. by destruct p as [[[r g] b] a]. Qed.
Lemma add_of_Null n bit p index : add_of n bit Null p index = add_of n bit color_tree_init p index.
Proof. destruct p as [[[r g] b] a]. by destruct n. Qed.

Lemma child_range bit p : (child_of bit p < 16)%nat.
Proof.
  destruct p as [[[r g] b] a]. unfold child_of, child_index. rewrite !bit_of.
  destruct (Z.testbit r bit), (Z.testbit g bit), (Z.testbit b bit), (Z.testbit a bit); cbn; lia.
Qed.

Lemma init_wf n : tree_wf n color_tree_init.
Proof. cbn [tree_wf color_tree_init]. destruct n; (split; [done|]); [done|]. apply list.Forall_forall. intros t [-> _]%elem_of_replicate. by destruct n. Qed.

Lemma get_init n bit p : get_of n bit color_tree_init p = -1.
Proof.
  destruct n; [by destruct p as [[[r g] b] a]|]. unfold color_tree_init. rewrite get_of_S, lookup_replicate_2 by apply child_range. apply get_of_Null.
Qed.

(** Two colours take the same way from [bit] on. *)
Definition same_way (n : nat) (bit : Z) (p q : rgba) : Prop := forall j, (j < n)%nat -> child_of (bit + Z.of_nat j) p = child_of (bit + Z.of_nat j) q.

Lemma tree_add_get n : forall bit t p q index, tree_wf n t ->
  tree_wf n (add_of n bit t p index)
  /\ (same_way n bit p q -> get_of n bit (add_of n bit t p index) q = index)
  /\ (~ same_way n bit p q -> get_of n bit (add_of n bit t p index) q = get_of n bit t q).
Proof.
  induction n as [|n IH]; intros bit t p q index Hwf.
  - assert (H0 : same_way 0 bit p q) by (intros j Hj; lia). destruct p as [[[r g] b] a], q as [[[r' g'] b'] a'].
    destruct t as [|children i]; cbn; [split; [done|]; split; done|]. split; [done|]. split; [done|]. intros H. by destruct H.
  - assert (G : forall children i, tree_wf (S n) (Node children i) ->
      tree_wf (S n) (add_of (S n) bit (Node children i) p index)
      /\ (same_way (S n) bit p q -> get_of (S n) bit (add_of (S n) bit (Node children i) p index) q = index)
      /\ (~ same_way (S n) bit p q -> get_of (S n) bit (add_of (S n) bit (Node children i) p index) q = get_of (S n) bit (Node children i) q)).
    { intros children i [Hlen Hall]. rewrite add_of_S, !get_of_S. set (c := default Null (children !! child_of bit p)).
      assert (Hc : tree_wf n c).
      { unfold c. destruct (children !! child_of bit p) as [t'|] eqn:E; [|by destruct n]. cbn. rewrite list.Forall_lookup in Hall. by apply (Hall _ _ E). }
      destruct (IH (bit + 1) c p q index Hc) as (H1 & H2 & H3). pose proof (child_range bit p) as Hr.
      split; [split; [by rewrite length_insert|by apply Forall_insert]|].
      assert (Hway : same_way (S n) bit p q <-> child_of bit p = child_of bit q /\ same_way n (bit + 1) p q).
      { split.
        - intros H. split; [specialize (H 0%nat ltac:(lia)); by rewrite Z.add_0_r in H|]. intros j Hj. specialize (H (S j) ltac:(lia)).
          by replace (bit + Z.of_nat (S j)) with (bit + 1 + Z.of_nat j) in H by lia.
        - intros [H0 H] [|j] Hj; [by rewrite Z.add_0_r|]. replace (bit + Z.of_nat (S j)) with (bit + 1 + Z.of_nat j) by lia. apply H. lia. }
      split.
      - intros [E Hs]%Hway. rewrite <- E, list_lookup_insert_eq by lia. cbn [from_option id]. by apply H2.
      - intros Hn. destruct (decide (child_of bit p = child_of bit q)) as [E|E].
        + rewrite <- E, list_lookup_insert_eq by lia. cbn [from_option id]. rewrite H3; [done|]. intros Hs. apply Hn, Hway. done.
        + by rewrite list_lookup_insert_ne. }
    destruct t as [|children i]; [|by apply G]. rewrite add_of_Null. destruct (G (replicate 16 Null) (-1) (init_wf (S n))) as (H1 & H2 & H3).
    fold color_tree_init in *. split; [done|]. split; [done|]. intros Hn. rewrite H3, get_init, get_of_Null by done. done.
Qed.

Lemma same_bits x y : byte_ok x -> byte_ok y -> (forall j, (j < 8)%nat -> Z.testbit x (Z.of_nat j) = Z.testbit y (Z.of_nat j)) -> x = y.
Proof.
  unfold byte_ok. intros Hx Hy H. rewrite <- (Z.mod_small x (2 ^ Z.of_nat 8)), <- (Z.mod_small y (2 ^ Z.of_nat 8)) by (change (2 ^ Z.of_nat 8) with 256; lia).
  rewrite <- !mval_mbits. unfold mbits. do 2 f_equal. unfold zbits. apply map_ext_in. intros i Hi%in_seq. apply H. lia.
Qed.

Lemma same_way_eq p q : px_ok p -> px_ok q -> same_way 8 0 p q -> p = q.
Proof.
  destruct p as [[[r g] b] a], q as [[[r' g'] b'] a']. intros (Hr & Hg & Hb & Ha) (Hr' & Hg' & Hb' & Ha') H.
  assert (G : forall j, (j < 8)%nat -> Z.testbit r (Z.of_nat j) = Z.testbit r' (Z.of_nat j) /\ Z.testbit g (Z.of_nat j) = Z.testbit g' (Z.of_nat j)
    /\ Z.testbit b (Z.of_nat j) = Z.testbit b' (Z.of_nat j) /\ Z.testbit a (Z.of_nat j) = Z.testbit a' (Z.of_nat j)).
  { intros j Hj. specialize (H j Hj). rewrite Z.add_0_l in H. cbn [child_of] in H. unfold child_index in H. rewrite !bit_of in H.
    destruct (Z.testbit r _), (Z.testbit g _), (Z.testbit b _), (Z.testbit a _), (Z.testbit r' _), (Z.testbit g' _), (Z.testbit b' _), (Z.testbit a' _);
      first [done|exfalso; cbn in H; lia]. }
  by rewrite (same_bits r r'), (same_bits g g'), (same_bits b b'), (same_bits a a') by (first [done|intros j Hj; by apply G]).
Qed.

(** The tree of the colours [cs], each with its index *)
Record tree_for (cs : list rgba) (t : ColorTree) : Prop := {
  tf_wf : tree_wf 8 t;
  tf_in : forall i c, cs !! i = Some c -> get_of 8 0 t c = Z.of_nat i;
  tf_out : forall c, px_ok c -> c ∉ cs -> get_of 8 0 t c = -1
}.

Lemma tree_for_init : tree_for [] color_tree_init.
Proof. split; [apply init_wf|done|intros c _ _; apply get_init]. Qed.

Lemma tree_for_add cs t c : tree_for cs t -> Forall px_ok cs -> px_ok c -> c ∉ cs -> tree_for (cs ++ [c]) (add_of 8 0 t c (Z.of_nat (length cs))).
Proof.
  intros [Hwf Hin Hout] Hcs Hc Hnew. split.
  - apply (tree_add_get 8 0 t c c). done.
  - intros i q Hq. destruct (tree_add_get 8 0 t c q (Z.of_nat (length cs)) Hwf) as (_ & H2 & H3).
    apply lookup_app_Some in Hq as [Hq|[Hi Hq]].
    + rewrite H3; [by apply Hin|]. intros Hs. apply Hnew. rewrite (same_way_eq c q Hc); [by apply list_elem_of_lookup_2 in Hq| |done].
      rewrite list.Forall_lookup in Hcs. by apply (Hcs i).
    + apply list_lookup_singleton_Some in Hq as [Hz <-]. rewrite H2; [lia|]. by intros j _.
  - intros q Hqok Hq. destruct (tree_add_get 8 0 t c q (Z.of_nat (length cs)) Hwf) as (_ & _ & H3). apply not_elem_of_app in Hq as [Hq1 Hq2].
    rewrite H3; [by apply Hout|]. intros Hs. apply Hq2. rewrite (same_way_eq c q Hc Hqok Hs). by apply list_elem_of_singleton.
Qed.

(** ** Pixels *)

Definition flat (px : list rgba) : bytes := mjoin (map (fun '(r, g, b, a) => [r; g; b; a]) px).
Definition raw : LodePNGColorMode := lodepng_color_mode_make LCT_RGBA 8.
Definition red (p : rgba) : Z := p.1.1.1.
Definition alpha (p : rgba) : Z := p.2.
Definition grey (p : rgba) : Prop := let '(r, g, b, a) := p in r = g /\ r = b.
Definition rgb (p : rgba) : Z * Z * Z := p.1.

Lemma flat_app a b : flat (a ++ b) = flat a ++ flat b.
Proof. unfold flat. by rewrite map_app, join_app. Qed.

Lemma length_flat px : length (flat px) = (4 * length px)%nat.
Proof. induction px as [|[[[r g] b] a] px IH]; [done|]. change (flat ((r, g, b, a) :: px)) with ([r; g; b; a] ++ flat px). rewrite length_app, IH. cbn [length]. lia. Qed.

Lemma flat_lookup px i r g b a : px !! i = Some (r, g, b, a) -> drop (4 * i) (flat px) = [r; g; b; a] ++ flat (drop (S i) px).
Proof.
  intros Hp. rewrite <- (take_drop_middle px i _ Hp) at 1. rewrite flat_app, drop_app_length'; [done|]. rewrite length_flat, length_take.
  rewrite Nat.min_l; [done|]. apply Nat.lt_le_incl. exact (lookup_lt_Some _ _ _ Hp).
Qed.

Lemma flat_at px i r g b a : px !! i = Some (r, g, b, a) ->
  at_ (flat px) (Z.of_nat i * 4 + 0) = Some r /\ at_ (flat px) (Z.of_nat i * 4 + 1) = Some g
  /\ at_ (flat px) (Z.of_nat i * 4 + 2) = Some b /\ at_ (flat px) (Z.of_nat i * 4 + 3) = Some a.
Proof.
  intros Hp. pose proof (flat_lookup px i r g b a Hp) as Hd.
  assert (G : forall k, at_ (flat px) (Z.of_nat i * 4 + Z.of_nat k) = ([r; g; b; a] ++ flat (drop (S i) px)) !! k).
  { intros k. replace (Z.of_nat i * 4 + Z.of_nat k) with (Z.of_nat (4 * i + k)) by lia. by rewrite at_of_nat, <- lookup_drop, Hd. }
  split; [apply (G 0%nat)|]. split; [apply (G 1%nat)|]. split; [apply (G 2%nat)|apply (G 3%nat)].
Qed.

Lemma get_raw px i p : px !! i = Some p -> getPixelColorRGBA8 (flat px) (Z.of_nat i) raw = Some p.
Proof.
  destruct p as [[[r g] b] a]. intros Hp. destruct (flat_at px i r g b a Hp) as (H0 & H1 & H2 & H3).
  unfold getPixelColorRGBA8, raw, lodepng_color_mode_make. cbn [m_colortype m_bitdepth]. change (8 =? 8) with true. cbv iota.
  rewrite H0. cbn [mbind option_bind]. rewrite H1. cbn [mbind option_bind]. rewrite H2. cbn [mbind option_bind]. by rewrite H3.
Qed.

Lemma flat_bytes px : Forall px_ok px -> bytes_ok (flat px).
Proof.
  induction 1 as [|[[[r g] b] a] px (Hr & Hg & Hb & Ha) _ IH]; [constructor|]. change (flat ((r, g, b, a) :: px)) with ([r; g; b; a] ++ flat px).
  apply list.Forall_app. split; [|done]. do 4 (apply Forall_cons_2; [done|]). constructor.
Qed.

(** ** One pixel *)

Definition key_of (s : LodePNGColorStats) : Z * Z * Z := (s_key_r s, s_key_g s, s_key_b s).

(** The statistics of the pixels [P], except for the colours *)
Record stats_for (P : list rgba) (s : LodePNGColorStats) : Prop := {
  sf_bits : s_bits s ∈ [1; 2; 4; 8];
  sf_deep : s_colored s = true \/ s_alpha s = true -> s_bits s = 8;
  sf_grey : s_colored s = false -> Forall grey P;
  sf_need : Forall (fun p => getValueRequiredBits (red p) <= s_bits s) P;
  sf_opaque : s_alpha s = false -> s_key s = false -> Forall (fun p => alpha p = 255) P;
  sf_key : s_key s = true -> s_alpha s = false /\ (exists p, p ∈ P /\ rgb p = key_of s)
    /\ Forall (fun p => alpha p = 255 \/ alpha p = 0 /\ rgb p = key_of s) P;
  sf_allow : s_allow_palette s = true /\ s_allow_greyscale s = true
}.

(** The statistics and the flags of a scan *)
Record scan_for (P : list rgba) (c : scan) : Prop := {
  sn_stats : stats_for P (sc_stats c);
  sn_colored : sc_colored_done c = s_colored (sc_stats c);
  sn_alpha : sc_alpha_done c = s_alpha (sc_stats c);
  sn_bits : sc_bits_done c = false
}.

Lemma depths : 1 ∈ [1; 2; 4; 8] /\ 2 ∈ [1; 2; 4; 8] /\ 4 ∈ [1; 2; 4; 8] /\ 8 ∈ [1; 2; 4; 8].
Proof. set_solver. Qed.

Lemma required_range v : getValueRequiredBits v ∈ [1; 2; 4; 8].
Proof. unfold getValueRequiredBits. destruct (_ || _); [apply depths|]. destruct (_ =? 0); [destruct (_ =? 0)|]; apply depths. Qed.

Lemma depth_cases d : d ∈ [1; 2; 4; 8] -> d = 1 \/ d = 2 \/ d = 4 \/ d = 8.
Proof. intros [->|[->|[->|[->|[]%not_elem_of_nil]%elem_of_cons]%elem_of_cons]%elem_of_cons]%elem_of_cons; auto. Qed.

Lemma depth_range d : d ∈ [1; 2; 4; 8] -> 1 <= d <= 8.
Proof. intros Hd%depth_cases. lia. Qed.

Lemma bits_step_ok P c r : scan_for P c -> scan_for P (bits_step 32 r c) /\ getValueRequiredBits r <= s_bits (sc_stats (bits_step 32 r c)).
Proof.
  intros [[Hb Hd Hg Hn Ho Hk Ha] Hc Hal Hbd]. unfold bits_step. rewrite Hbd. cbn [negb andb].
  pose proof (required_range r) as Hr. pose proof (depth_range _ Hr). pose proof (depth_range _ Hb).
  assert (Hsmall : forall x, x ∈ [1; 2; 4; 8] -> (32 <=? x) = false) by (intros x Hx%depth_range; apply Z.leb_gt; lia).
  destruct (Z.ltb_spec (s_bits (sc_stats c)) 8); [destruct (Z.ltb_spec (s_bits (sc_stats c)) (getValueRequiredBits r))|]; cbn [sc_stats set_bits s_bits].
  - split; [|done]. assert (Hnot : ~ (s_colored (sc_stats c) = true \/ s_alpha (sc_stats c) = true)) by (intros Hx; specialize (Hd Hx); lia).
    split; cbn [sc_stats sc_colored_done sc_alpha_done sc_bits_done set_bits s_bits s_colored s_alpha s_key s_allow_palette s_allow_greyscale]; try done.
    + split; cbn [set_bits s_bits s_colored s_alpha s_key s_allow_palette s_allow_greyscale]; try done. eapply list.Forall_impl; [exact Hn|]. cbn. lia.
    + by apply Hsmall.
  - split; [|lia]. split; cbn [sc_stats sc_colored_done sc_alpha_done sc_bits_done]; try done. by apply Hsmall.
  - split; [|lia]. split; cbn [sc_stats sc_colored_done sc_alpha_done sc_bits_done]; try done. by apply Hsmall.
Qed.

(** Raising the depth to 8 bits *)
Lemma raise_bits s : s_bits s ∈ [1; 2; 4; 8] -> s_bits (at_least_8 s) = 8.
Proof. intros Hb%depth_range. unfold at_least_8. destruct (Z.ltb_spec (s_bits s) 8); [done|lia]. Qed.

Lemma raise_keeps s : let s' := at_least_8 s in s_colored s' = s_colored s /\ s_key s' = s_key s /\ key_of s' = key_of s /\ s_alpha s' = s_alpha s
  /\ s_numcolors s' = s_numcolors s /\ s_palette s' = s_palette s /\ s_numpixels s' = s_numpixels s
  /\ s_allow_palette s' = s_allow_palette s /\ s_allow_greyscale s' = s_allow_greyscale s.
Proof. unfold at_least_8. by destruct (s_bits s <? 8). Qed.

Lemma need_8 P : Forall (fun p => getValueRequiredBits (red p) <= 8) P.
Proof. apply list.Forall_forall. intros p _. apply depth_range, required_range. Qed.

Lemma colored_step_ok P c r g b a : scan_for P c -> getValueRequiredBits r <= s_bits (sc_stats c) ->
  let c' := colored_step at_least_8 r g b c in
  scan_for P c' /\ getValueRequiredBits r <= s_bits (sc_stats c') /\ (s_colored (sc_stats c') = false -> grey (r, g, b, a)).
Proof.
  intros [[Hb Hd Hg Hn Ho Hk Ha] Hc Hal Hbd] Hr. unfold colored_step. cbn zeta.
  destruct (sc_colored_done c) eqn:Ecd; cbn [negb andb].
  { split; [split; try done; congruence|]. split; [done|]. congruence. }
  destruct (Z.eqb_spec r g) as [Eg|Eg]; [destruct (Z.eqb_spec r b) as [Eb|Eb]|]; cbn [negb orb].
  { split; [split; try done; congruence|]. split; [done|]. intros _. by split. }
  all: set (s' := at_least_8 (set_colored (sc_stats c))).
  all: assert (E8 : s_bits s' = 8) by (by apply raise_bits).
  all: destruct (raise_keeps (set_colored (sc_stats c))) as (K1 & K2 & K3 & K4 & K5 & K6 & K7 & K8 & K9); fold s' in K1, K2, K3, K4, K8, K9.
  all: split; [|split; [cbn [sc_stats]; rewrite E8; apply depth_range, required_range|cbn [sc_stats]; rewrite K1; done]].
  all: split; cbn [sc_stats sc_colored_done sc_alpha_done sc_bits_done]; [|by rewrite K1|by rewrite K4|done].
  all: split; rewrite ?E8, ?K1, ?K2, ?K3, ?K4, ?K8, ?K9; try done; [apply depths|apply need_8].
Qed.

Lemma matches_key_ok s r g b a : matches_key s r g b = true <-> rgb (r, g, b, a) = key_of s.
Proof.
  unfold matches_key, rgb, key_of. cbn [fst]. rewrite !andb_true_iff, !Z.eqb_eq. split; [intros [[-> ->] ->]; done|intros [= -> -> ->]; done].
Qed.

Lemma key_lost P s : stats_for P s -> stats_for P (at_least_8 (set_alpha s)) /\ s_alpha (at_least_8 (set_alpha s)) = true /\ s_bits (at_least_8 (set_alpha s)) = 8.
Proof.
  intros [Hb Hd Hg Hn Ho Hk Ha]. set (s' := at_least_8 (set_alpha s)). assert (E8 : s_bits s' = 8) by (by apply raise_bits).
  destruct (raise_keeps (set_alpha s)) as (K1 & K2 & K3 & K4 & K5 & K6 & K7 & K8 & K9). fold s' in K1, K2, K3, K4, K8, K9.
  split; [|split; [by rewrite K4|done]]. split; rewrite ?E8, ?K1, ?K2, ?K3, ?K4, ?K8, ?K9; try done; [apply depths|apply need_8].
Qed.

(** A pixel that needs no more than an alpha channel allows *)
Lemma stats_more P s p : stats_for P s -> (s_colored s = false -> grey p) -> getValueRequiredBits (red p) <= s_bits s ->
  (s_alpha s = false -> s_key s = false -> alpha p = 255) -> (s_key s = true -> alpha p = 255 \/ alpha p = 0 /\ rgb p = key_of s) -> stats_for (P ++ [p]) s.
Proof.
  intros [Hb Hd Hg Hn Ho Hk Ha] Hgp Hr Hop Hkp. split; [done|done| | | | |done].
  - intros Hc. apply list.Forall_app. split; [by apply Hg|]. by repeat constructor; apply Hgp.
  - apply list.Forall_app. split; [done|]. by repeat constructor.
  - intros Hal Hke. apply list.Forall_app. split; [by apply Ho|]. repeat constructor. by apply Hop.
  - intros Hke. destruct (Hk Hke) as (Hal & (q & Hq & Eq) & Hall). split; [done|]. split; [exists q; split; [|done]; apply elem_of_app; by left|].
    apply list.Forall_app. split; [done|]. constructor; [by apply Hkp|constructor].
Qed.

Lemma alpha_step_ok P c r g b a : scan_for P c -> getValueRequiredBits r <= s_bits (sc_stats c) -> (s_colored (sc_stats c) = false -> grey (r, g, b, a)) ->
  px_ok (r, g, b, a) -> scan_for (P ++ [(r, g, b, a)]) (alpha_step at_least_8 255 r g b a c).
Proof.
  destruct c as [s t cd ad nd bd]. intros [Hs Hc Hal Hbd] Hr Hg Hp. cbn [sc_stats sc_colored_done sc_alpha_done sc_bits_done] in *. subst cd ad bd.
  unfold alpha_step. cbn [sc_stats sc_colored_done sc_alpha_done sc_bits_done sc_tree sc_numcolors_done]. destruct (s_alpha s) eqn:Eal.
  { split; cbn [sc_stats sc_colored_done sc_alpha_done sc_bits_done]; [|done|done|done]. apply stats_more; [done|done|done|congruence|]. intros Hk. destruct (sf_key _ _ Hs Hk). congruence. }
  set (to_alpha := mkScan _ _ _ true _ _).
  assert (Hlost : scan_for (P ++ [(r, g, b, a)]) to_alpha).
  { destruct (key_lost P s Hs) as (Hs' & Ha' & H8). destruct (raise_keeps (set_alpha s)) as (K1 & K2 & _).
    split; cbn [to_alpha sc_stats sc_colored_done sc_alpha_done sc_bits_done]; [|by rewrite K1|by rewrite Ha'|done].
    apply stats_more; [done|by rewrite K1|rewrite H8; apply depth_range, required_range|congruence|by rewrite K2]. }
  destruct (Z.eqb_spec a 255) as [E255|E255]; cbn [negb andb].
  - rewrite (proj2 (Z.eqb_neq a 0)) by lia. cbn [andb]. destruct (s_key s) eqn:Ek; cbn [andb].
    + destruct (matches_key s r g b); [done|]. split; cbn [sc_stats sc_colored_done sc_alpha_done sc_bits_done]; [|done|done|done]. apply stats_more; [done|done|done|congruence|by left].
    + split; cbn [sc_stats sc_colored_done sc_alpha_done sc_bits_done]; [|done|done|done]. apply stats_more; [done|done|done|done|congruence].
  - destruct (Z.eqb_spec a 0) as [E0|E0]; cbn [negb orb andb]; [|done]. destruct (s_key s) eqn:Ek; cbn [negb andb].
    + destruct (matches_key s r g b) eqn:Em; cbn [negb]; [|done]. apply (matches_key_ok _ _ _ _ a) in Em. split; cbn [sc_stats sc_colored_done sc_alpha_done sc_bits_done]; [|done|done|done].
      apply stats_more; [done|done|done|congruence|]. intros _. by right.
    + pose proof Hs as [Hb Hd Hgr Hn Ho Hk Ha]. split; cbn [sc_stats sc_colored_done sc_alpha_done sc_bits_done]; [|done|done|done].
      cbn [sc_stats]. split; cbn [set_key s_bits s_colored s_alpha s_key s_allow_palette s_allow_greyscale]; try done.
      * intros Hcol. apply list.Forall_app. split; [by apply Hgr|]. constructor; [by apply Hg|constructor].
      * apply list.Forall_app. split; [done|]. by repeat constructor.
      * intros _. split; [done|]. split; [exists (r, g, b, a); split; [apply elem_of_app; right; by apply list_elem_of_singleton|done]|]. apply list.Forall_app. split.
        -- eapply list.Forall_impl; [by apply Ho|]. cbn. intros q Hq. by left.
        -- constructor; [by right|constructor].
Qed.

(** ** The colours *)

(** The colours [cs] of the pixels [P], up to 257 *)
Record colors_for (N : Z) (P cs : list rgba) (c : scan) : Prop := {
  cf_pixels : s_numpixels (sc_stats c) = N;
  cf_nodup : NoDup cs;
  cf_bytes : Forall px_ok cs;
  cf_count : s_numcolors (sc_stats c) = Z.of_nat (length cs);
  cf_done : sc_numcolors_done c = (257 <=? s_numcolors (sc_stats c));
  cf_tree : tree_for cs (sc_tree c);
  cf_room : length (s_palette (sc_stats c)) = 1024%nat;
  cf_palette : (length cs <= 256)%nat -> take (4 * length cs) (s_palette (sc_stats c)) = flat cs;
  cf_all : (length cs <= 256)%nat -> Forall (fun p => p ∈ cs) P
}.

(** What the colours depend on *)
Lemma colors_keep N P cs c c' : s_numpixels (sc_stats c') = s_numpixels (sc_stats c) -> s_numcolors (sc_stats c') = s_numcolors (sc_stats c) -> s_palette (sc_stats c') = s_palette (sc_stats c) ->
  sc_tree c' = sc_tree c -> sc_numcolors_done c' = sc_numcolors_done c -> colors_for N P cs c -> colors_for N P cs c'.
Proof. intros E0 E1 E2 E3 E4 []. split; rewrite ?E0, ?E1, ?E2, ?E3, ?E4; done. Qed.

Lemma steps_keep_colors N P cs c bpp r g b a :
  colors_for N P cs c -> colors_for N P cs (alpha_step at_least_8 255 r g b a (colored_step at_least_8 r g b (bits_step bpp r c))).
Proof.
  intros H. set (c1 := bits_step bpp r c). set (c2 := colored_step at_least_8 r g b c1).
  assert (H1 : colors_for N P cs c1).
  { revert H. unfold c1, bits_step. apply colors_keep; cbn [sc_stats sc_tree sc_numcolors_done]; try done; destruct (_ && _); try done; by destruct (_ <? _). }
  assert (H2 : colors_for N P cs c2).
  { revert H1. destruct (raise_keeps (set_colored (sc_stats c1))) as (_ & _ & _ & _ & K5 & K6 & K7 & _).
    unfold c2, colored_step. destruct (_ && _); [|done]. apply colors_keep; cbn [sc_stats sc_tree sc_numcolors_done]; by rewrite ?K5, ?K6, ?K7. }
  revert H2. destruct (raise_keeps (set_alpha (sc_stats c2))) as (_ & _ & _ & _ & K5 & K6 & K7 & _). unfold alpha_step. destruct (sc_alpha_done c2); [done|].
  destruct (_ && _); [apply colors_keep; cbn [sc_stats sc_tree sc_numcolors_done]; by rewrite ?K5, ?K6, ?K7|].
  destruct (_ && _); [apply colors_keep; done|]. destruct (_ && _); [|done]. apply colors_keep; cbn [sc_stats sc_tree sc_numcolors_done]; by rewrite ?K5, ?K6, ?K7.
Qed.

Lemma flat_one r g b a : flat [(r, g, b, a)] = [r; g; b; a].
Proof. done. Qed.

Lemma colors_step_ok N P cs c r g b a : colors_for N P cs c -> px_ok (r, g, b, a) ->
  exists c' cs', colors_step 257 r g b a c = Some c' /\ colors_for N (P ++ [(r, g, b, a)]) cs' c'
    /\ (forall Q, stats_for Q (sc_stats c) -> stats_for Q (sc_stats c')) /\ (forall Q, scan_for Q c -> scan_for Q c').
Proof.
  intros [HN Hnd Hb Hc Hdone Ht Hr Hp Hall] Hpx. unfold colors_step. rewrite Hdone. destruct (Z.leb_spec 257 (s_numcolors (sc_stats c))) as [Hm|Hm].
  { exists c, cs. split; [done|]. split; [|done]. split; try done; [by rewrite Hdone, (proj2 (Z.leb_le _ _)) by lia|]. intros Hl. lia. }
  unfold color_tree_has. change (color_tree_get (sc_tree c) r g b a) with (get_of 8 0 (sc_tree c) (r, g, b, a)).
  destruct (decide ((r, g, b, a) ∈ cs)) as [Hin|Hin].
  - destruct (proj1 (list_elem_of_lookup _ _) Hin) as [i Hi]. rewrite (tf_in _ _ Ht i _ Hi), (proj2 (Z.leb_le _ _)) by lia.
    exists c, cs. split; [done|]. split; [|done]. split; try done; [by rewrite Hdone, (proj2 (Z.leb_gt _ _)) by lia|].
    intros Hl. apply list.Forall_app. split; [by apply Hall|]. by repeat constructor.
  - rewrite (tf_out _ _ Ht _ Hpx Hin). change (0 <=? -1) with false. cbv iota. rewrite Hc.
    assert (Hput : exists p, (if Z.of_nat (length cs) <? 256 then put_list (s_palette (sc_stats c)) (Z.of_nat (length cs) * 4) [r; g; b; a] else Some (s_palette (sc_stats c)))
        = Some p /\ length p = 1024%nat /\ ((length (cs ++ [(r, g, b, a)]) <= 256)%nat -> take (4 * length (cs ++ [(r, g, b, a)])) p = flat (cs ++ [(r, g, b, a)]))).
    { destruct (Z.ltb_spec (Z.of_nat (length cs)) 256) as [Hl|Hl].
      - rewrite (put_list_z _ _ (4 * length cs)%nat) by (cbn [length]; lia). eexists. split; [done|]. split; [rewrite length_overlay; [done|cbn [length]; lia]|].
        intros Hle. rewrite flat_app, flat_one, <- (Hp ltac:(lia)). unfold overlay. rewrite length_app. cbn [length].
        replace (4 * (length cs + 1))%nat with (4 * length cs + 4)%nat by lia. rewrite app_assoc, take_app_length'; [done|].
        rewrite length_app, length_take. cbn [length]. lia.
      - eexists. split; [done|]. split; [done|]. rewrite length_app. cbn [length]. lia. }
    destruct Hput as (p & Ep & Hp1 & Hp2). rewrite Ep. cbn [mbind option_bind].
    eexists _, (cs ++ [(r, g, b, a)]). split; [done|]. split; [|split].
    + split; cbn [sc_stats sc_tree sc_numcolors_done set_colors s_numcolors s_palette]; [done| | | |done| |done|done|].
      * apply list.NoDup_app. split; [done|]. split; [|apply NoDup_singleton]. intros q Hq Hq2%list_elem_of_singleton. by subst q.
      * apply list.Forall_app. split; [done|]. constructor; [done|constructor].
      * rewrite length_app. cbn [length]. lia.
      * apply (tree_for_add cs _ (r, g, b, a)); done.
      * rewrite length_app. cbn [length]. intros Hl. apply list.Forall_app. split; [|constructor; [apply elem_of_app; right; by apply list_elem_of_singleton|constructor]].
        eapply list.Forall_impl; [apply Hall; lia|]. intros q Hq. apply elem_of_app. by left.
    + by intros Q [].
    + intros Q [[] ? ? ?]. by split.
Qed.

(** ** All pixels *)

Section Scan.
Context (px : list rgba) (Hpx : Forall px_ok px).

Lemma scan8_ok N rest : forall P cs c, px = P ++ rest -> scan_for P c -> colors_for N P cs c ->
  exists c' cs', scan8_loop (length rest) (Z.of_nat (length P)) (flat px) raw 32 257 c = Some c' /\ scan_for px c' /\ colors_for N px cs' c'.
Proof.
  induction rest as [|p rest IH]; intros P cs c E Hs Hc; cbn [length scan8_loop]; [exists c, cs; rewrite app_nil_r in E; by subst P|].
  assert (Hp : px !! length P = Some p) by (rewrite E; by apply list_lookup_middle).
  rewrite (get_raw px (length P) p Hp). cbn [mbind option_bind]. destruct p as [[[r g] b] a].
  assert (Hok : px_ok (r, g, b, a)) by (rewrite list.Forall_lookup in Hpx; by apply (Hpx (length P))).
  destruct (bits_step_ok P c r Hs) as [Hs1 Hr1]. destruct (colored_step_ok P _ r g b a Hs1 Hr1) as (Hs2 & Hr2 & Hg2).
  pose proof (alpha_step_ok P _ r g b a Hs2 Hr2 Hg2 Hok) as Hs3. pose proof (steps_keep_colors N P cs c 32 r g b a Hc) as Hc3.
  set (c3 := alpha_step _ _ _ _ _ _ _) in *. destruct (colors_step_ok N P cs c3 r g b a Hc3 Hok) as (c4 & cs4 & E4 & Hc4 & _ & Hs4). rewrite E4. cbn [mbind option_bind].
  specialize (Hs4 _ Hs3). assert (Hnot : all_done c4 = false) by (unfold all_done; rewrite (sn_bits _ _ Hs4); apply andb_false_r). rewrite Hnot.
  replace (Z.of_nat (length P) + 1) with (Z.of_nat (length (P ++ [(r, g, b, a)]))) by (rewrite length_app; cbn [length]; lia).
  apply (IH (P ++ [(r, g, b, a)]) cs4 c4); [by rewrite <- app_assoc|done|done].
Qed.

Lemma raise_again s : at_least_8 (set_alpha (at_least_8 (set_alpha s))) = at_least_8 (set_alpha s).
Proof. destruct s as [x1 x2 x3 x4 x5 x6 x7 x8 bits x10 x11 x12]. unfold at_least_8, set_alpha, set_bits. cbn. destruct (bits <? 8) eqn:E; cbn; [done|by rewrite E]. Qed.

Lemma raise_matches s r g b : matches_key (at_least_8 (set_alpha s)) r g b = matches_key s r g b.
Proof. unfold at_least_8, matches_key. by destruct (s_bits (set_alpha s) <? 8). Qed.

(** Whether an opaque pixel has the colour of the key *)
Lemma key_loop_ok s rest : forall P s1, px = P ++ rest ->
  s1 = s /\ Forall (fun p => alpha p = 0 \/ rgb p <> key_of s) P \/ s1 = at_least_8 (set_alpha s) ->
  exists s2, key_loop (length rest) (Z.of_nat (length P)) (fun i => getPixelColorRGBA8 (flat px) i raw) at_least_8 s1 = Some s2
    /\ (s2 = s /\ Forall (fun p => alpha p = 0 \/ rgb p <> key_of s) px \/ s2 = at_least_8 (set_alpha s)).
Proof.
  induction rest as [|p rest IH]; intros P s1 E Hs; cbn [length key_loop]; [rewrite app_nil_r in E; subst P; by exists s1|].
  assert (Hp : px !! length P = Some p) by (rewrite E; by apply list_lookup_middle).
  rewrite (get_raw px (length P) p Hp). cbn [mbind option_bind]. destruct p as [[[r g] b] a].
  replace (Z.of_nat (length P) + 1) with (Z.of_nat (length (P ++ [(r, g, b, a)]))) by (rewrite length_app; cbn [length]; lia).
  apply IH; [by rewrite <- app_assoc|]. destruct Hs as [[-> Hall] | ->].
  - destruct (Z.eqb_spec a 0) as [Ea|Ea]; cbn [negb andb].
    + left. split; [done|]. apply list.Forall_app. split; [done|]. constructor; [by left|constructor].
    + destruct (matches_key s r g b) eqn:Em; [by right|]. left. split; [done|]. apply list.Forall_app. split; [done|]. constructor; [|constructor].
      right. intros Ek. apply (matches_key_ok _ _ _ _ a) in Ek. congruence.
  - right. rewrite raise_matches, raise_again. by destruct (negb _ && _).
Qed.

(** What the statistics say *)
Record stats_ok (s : LodePNGColorStats) : Prop := {
  so_bits : s_bits s ∈ [1; 2; 4; 8];
  so_deep : s_colored s = true \/ s_alpha s = true -> s_bits s = 8;
  so_grey : s_colored s = false -> Forall grey px;
  so_need : Forall (fun p => getValueRequiredBits (red p) <= s_bits s) px;
  so_opaque : s_alpha s = false -> s_key s = false -> Forall (fun p => alpha p = 255) px;
  so_key : s_key s = true -> s_alpha s = false /\ exists r g b a, (r, g, b, a) ∈ px /\ key_of s = (257 * r, 257 * g, 257 * b)
    /\ Forall (fun p => alpha p = 255 /\ rgb p <> (r, g, b) \/ alpha p = 0 /\ rgb p = (r, g, b)) px;
  so_allow : s_allow_palette s = true /\ s_allow_greyscale s = true;
  so_pixels : s_numpixels s = Z.of_nat (length px);
  so_colors : exists cs, NoDup cs /\ Forall px_ok cs /\ s_numcolors s = Z.of_nat (length cs) /\ length (s_palette s) = 1024%nat
    /\ ((length cs <= 256)%nat -> take (4 * length cs) (s_palette s) = flat cs /\ Forall (fun p => p ∈ cs) px)
}.

Lemma double_byte v : byte_ok v -> u16 (v + (v << 8)) = 257 * v.
Proof. unfold byte_ok. intros Hv. rewrite Z.shiftl_mul_pow2 by lia. unfold u16. rewrite Z.mod_small; lia. Qed.

Lemma stats_final cs c s : stats_for px s -> colors_for (Z.of_nat (length px)) px cs c ->
  s_numcolors s = s_numcolors (sc_stats c) -> s_palette s = s_palette (sc_stats c) -> s_numpixels s = s_numpixels (sc_stats c) ->
  (s_key s = true -> Forall (fun p => alpha p = 0 \/ rgb p <> key_of s) px) -> stats_ok (double_key s).
Proof.
  intros [Hb Hd Hg Hn Ho Hk Ha] [HN Hnd Hcb Hcc Hdone Ht Hr Hp Hall] E1 E2 E3 Hkey. split; try done.
  - intros Hke. destruct (Hk Hke) as (Hal & ([[[r g] b] a] & Hin & Erg) & Hpk). split; [done|]. exists r, g, b, a. split; [done|].
    assert (Hpok : px_ok (r, g, b, a)) by (rewrite list.Forall_forall in Hpx; by apply Hpx). destruct Hpok as (B1 & B2 & B3 & _).
    unfold rgb, key_of in Erg. cbn [fst] in Erg. injection Erg as -> -> ->.
    split; [unfold double_key, key_of; cbn [set_key s_key_r s_key_g s_key_b]; by rewrite !double_byte by done|].
    rewrite list.Forall_forall in Hpk. specialize (Hkey Hke). rewrite list.Forall_forall in Hkey. apply list.Forall_forall. intros p Hp'.
    destruct (Hpk p Hp') as [E|E]; [left|by right]. split; [done|]. destruct (Hkey p Hp') as [E0|E0]; [congruence|done].
  - unfold double_key, set_key. cbn [s_numpixels]. congruence.
  - exists cs. unfold double_key, set_key. cbn [s_numcolors s_palette]. rewrite E1, E2. split; [done|]. split; [done|]. split; [done|]. split; [done|].
    intros Hl. split; [by apply Hp|by apply Hall].
Qed.

(** The statistics of an image of RGBA pixels *)
Lemma color_stats_ok {M : Memory} {HM : MemoryOk M} w h : 0 <= w -> 0 <= h -> w * h = Z.of_nat (length px) -> w * h < 2 ^ 32 ->
  exists s, lodepng_compute_color_stats lodepng_color_stats_init (flat px) w h raw = Some s /\ stats_ok s.
Proof.
  intros Hw Hh Hn Hlt. unfold lodepng_compute_color_stats. rewrite u32_small by nia. cbn [lodepng_can_have_alpha raw lodepng_color_mode_make m_key_defined orb].
  change (lodepng_can_have_alpha raw) with (Some true). cbn [mbind option_bind]. change (lodepng_get_bpp raw) with 32. change (32 <=? 8) with false. cbv iota.
  change (lodepng_is_greyscale_type raw) with false. change (m_bitdepth raw =? 16) with false.
  set (s0 := add_pixels (w * h) lodepng_color_stats_init). cbn [orb negb].
  change (negb (s_allow_palette s0) || (s_bits s0 =? 16) || (257 <=? s_numcolors s0)) with false. change (s_colored s0) with false. change (s_alpha s0) with false.
  change (32 <=? s_bits s0) with false. change (Z.to_nat (s_numcolors s0)) with 0%nat. cbn [palette_tree]. cbv iota. cbn [mbind option_bind].
  set (c0 := mkScan s0 color_tree_init false false false false). rewrite Hn, Nat2Z.id.
  assert (Hs0 : scan_for [] c0) by (split; [split; cbn; [apply depths|by intros [|]|..]; done|done|done|done]).
  assert (Hc0 : colors_for (Z.of_nat (length px)) [] [] c0).
  { split; try done; [cbn; rewrite u32_small; lia|apply NoDup_nil_2|apply tree_for_init|apply fresh_length]. }
  destruct (scan8_ok (Z.of_nat (length px)) px [] [] c0 eq_refl Hs0 Hc0) as (c & cs & Ec & Hs & Hc).
  change (Z.of_nat (length [])) with 0 in Ec. rewrite Ec. cbn [mbind option_bind].
  destruct (s_key (sc_stats c)) eqn:Ek; cbn [andb].
  - destruct (sf_key _ _ (sn_stats _ _ Hs) Ek) as (Ea & _). rewrite Ea. cbn [negb].
    destruct (key_loop_ok (sc_stats c) px [] (sc_stats c) eq_refl) as (s2 & E2 & Hs2); [left; by split|]. change (Z.of_nat (length [])) with 0 in E2.
    rewrite E2. cbn [mbind option_bind]. eexists. split; [done|].
    destruct Hs2 as [[-> Hall] | ->]; [by apply (stats_final cs c); [apply Hs|..]|].
    destruct (raise_keeps (set_alpha (sc_stats c))) as (K1 & K2 & K3 & K4 & K5 & K6 & K7 & K8 & K9).
    apply (stats_final cs c); [by apply key_lost, Hs|done|done|done|done|]. rewrite K2. done.
  - cbn [mbind option_bind]. eexists. split; [done|]. apply (stats_final cs c); [apply Hs|done|done|done|done|]. congruence.
Qed.
End Scan.
