(* ===== verification/ColorChoice.v ===== *)
(** The choice of a colour mode by the PNG encoder ([auto_choose_color]): the mode chosen
    from the statistics can express every pixel of the image ([mode_for]). *)
From S2P Require Import Prelude CLib Checksum BitReader Huffman Canonical Deflate LodeLz77 LodeHuff LodeTree LodeDeflate LodeColor.
From S2P Require Import LodeFilter LodeEncode CodeLengths ZlibCompress PngFormat FilterCorrect PngBits ColorStats.

Definition opaque (p : rgba) : Prop := alpha p = 255.
Definition keyed (k : Z * Z * Z) (p : rgba) : Prop := alpha p = 255 /\ rgb p <> k \/ alpha p = 0 /\ rgb p = k.
Definition needs (d : Z) (p : rgba) : Prop := getValueRequiredBits (red p) <= d.

(** The colour modes that can express the pixels [px] *)
Inductive mode_for (px : list rgba) : LodePNGColorMode -> Prop :=
| for_rgba : mode_for px (mkMode LCT_RGBA 8 None 0 false 0 0 0)
| for_rgb : Forall opaque px -> mode_for px (mkMode LCT_RGB 8 None 0 false 0 0 0)
| for_rgb_key r g b a : (r, g, b, a) ∈ px -> Forall (keyed (r, g, b)) px -> mode_for px (mkMode LCT_RGB 8 None 0 true r g b)
| for_grey_alpha : Forall grey px -> mode_for px (mkMode LCT_GREY_ALPHA 8 None 0 false 0 0 0)
| for_grey d : d ∈ [1; 2; 4; 8] -> Forall grey px -> Forall (needs d) px -> Forall opaque px -> mode_for px (mkMode LCT_GREY d None 0 false 0 0 0)
| for_grey_key d r g b a k2 k3 : d ∈ [1; 2; 4; 8] -> (r, g, b, a) ∈ px -> Forall grey px -> Forall (needs d) px -> Forall (keyed (r, g, b)) px ->
    mode_for px (mkMode LCT_GREY d None 0 true (r >> (8 - d)) k2 k3)
| for_palette d p cs : d ∈ [1; 2; 4; 8] -> NoDup cs -> Forall px_ok cs -> (1 <= length cs <= 256)%nat -> Z.of_nat (length cs) <= 2 ^ d ->
    length p = 1024%nat -> take (4 * length cs) p = flat cs -> Forall (fun q => q ∈ cs) px ->
    mode_for px (mkMode LCT_PALETTE d (Some p) (Z.of_nat (length cs)) false 0 0 0).

(** ** Palettes *)

Lemma at_take (l : bytes) n i : (i < n)%nat -> at_ (take n l) (Z.of_nat i) = at_ l (Z.of_nat i).
Proof. intros Hi. rewrite !at_of_nat. by apply lookup_take_lt. Qed.

(** The colours of a palette *)
Lemma palette_at (p : bytes) cs i r g b a : take (4 * length cs) p = flat cs -> cs !! i = Some (r, g, b, a) ->
  at_ p (Z.of_nat i * 4 + 0) = Some r /\ at_ p (Z.of_nat i * 4 + 1) = Some g /\ at_ p (Z.of_nat i * 4 + 2) = Some b /\ at_ p (Z.of_nat i * 4 + 3) = Some a.
Proof.
  intros Hp Hc. pose proof (flat_at cs i r g b a Hc) as H. rewrite <- Hp in H. pose proof (lookup_lt_Some _ _ _ Hc) as Hl.
  assert (G : forall k, (k < 4)%nat -> at_ (take (4 * length cs) p) (Z.of_nat i * 4 + Z.of_nat k) = at_ p (Z.of_nat i * 4 + Z.of_nat k)).
  { intros k Hk. replace (Z.of_nat i * 4 + Z.of_nat k) with (Z.of_nat (4 * i + k)) by lia. apply at_take. unfold rgba in *. lia. }
  pose proof (G 0%nat ltac:(lia)) as G0. pose proof (G 1%nat ltac:(lia)) as G1. pose proof (G 2%nat ltac:(lia)) as G2. pose proof (G 3%nat ltac:(lia)) as G3.
  change (Z.of_nat 0) with 0 in G0. change (Z.of_nat 1) with 1 in G1. change (Z.of_nat 2) with 2 in G2. change (Z.of_nat 3) with 3 in G3. rewrite G0, G1, G2, G3 in H. done.
Qed.

Lemma length_all_black : length lodepng_color_mode_alloc_palette = 1024%nat.
Proof. reflexivity. Qed.

(** The mode while colours are added to its palette *)
Definition with_palette (m : LodePNGColorMode) (cs : list rgba) (q : bytes) : LodePNGColorMode :=
  set_palette m (match cs with [] => None | _ => Some q end) (Z.of_nat (length cs)).

Lemma palette_add_ok m cs q r g b a : (length cs < 256)%nat -> length q = 1024%nat -> take (4 * length cs) q = flat cs ->
  exists q', lodepng_palette_add (with_palette m cs q) [r; g; b; a] = Some (inr (with_palette m (cs ++ [(r, g, b, a)]) q'))
    /\ length q' = 1024%nat /\ take (4 * length (cs ++ [(r, g, b, a)])) q' = flat (cs ++ [(r, g, b, a)]).
Proof.
  intros Hl Hq Ht. unfold lodepng_palette_add, with_palette. cbn [set_palette m_palette m_palettesize]. rewrite (proj2 (Z.leb_gt _ _)) by lia.
  set (q1 := default _ _). assert (Hq1 : length q1 = 1024%nat /\ take (4 * length cs) q1 = flat cs) by (unfold q1; by destruct cs).
  destruct Hq1 as [Hq1 Ht1]. rewrite (put_list_z _ _ (4 * length cs)%nat) by (cbn [length]; lia). cbn [mbind option_bind].
  eexists. split; [|split].
  - replace (Z.of_nat (length cs) + 1) with (Z.of_nat (length (cs ++ [(r, g, b, a)]))) by (rewrite length_app; cbn [length]; lia). by destruct cs.
  - rewrite length_overlay; [done|]. cbn [length]. lia.
  - rewrite flat_app, flat_one, <- Ht1. unfold overlay. rewrite length_app. cbn [length]. replace (4 * (length cs + 1))%nat with (4 * length cs + 4)%nat by lia.
    rewrite app_assoc, take_app_length'; [done|]. rewrite length_app, length_take. cbn [length]. lia.
Qed.

Lemma add_colors_ok m p cs rest : forall a q, cs = a ++ rest -> (length cs <= 256)%nat -> take (4 * length cs) p = flat cs -> length q = 1024%nat ->
  take (4 * length a) q = flat a ->
  exists q', add_colors (length rest) (Z.of_nat (length a)) p (with_palette m a q) = Some (inr (with_palette m cs q'))
    /\ length q' = 1024%nat /\ take (4 * length cs) q' = flat cs.
Proof.
  induction rest as [|c rest IH]; intros a q E Hl Hp Hq Ha; cbn [length add_colors]; [exists q; rewrite app_nil_r in E; by subst a|].
  assert (Hc : cs !! length a = Some c) by (rewrite E; by apply list_lookup_middle). destruct c as [[[cr cg] cb] ca].
  destruct (palette_at p cs (length a) cr cg cb ca Hp Hc) as (H0 & H1 & H2 & H3).
  rewrite H0. cbn [mbind option_bind]. rewrite H1. cbn [mbind option_bind]. rewrite H2. cbn [mbind option_bind]. rewrite H3. cbn [mbind option_bind].
  destruct (palette_add_ok m a q cr cg cb ca) as (q1 & -> & Hq1 & Ht1); [rewrite E, length_app in Hl; cbn [length] in Hl; lia|done|done|]. cbn [unless_error mbind option_bind].
  replace (Z.of_nat (length a) + 1) with (Z.of_nat (length (a ++ [(cr, cg, cb, ca)]))) by (rewrite length_app; cbn [length]; lia).
  apply IH; [by rewrite <- app_assoc|done..].
Qed.

(** ** Keys *)

Lemma key_masked_checked : forallb (fun d => forallb (fun x => let r := Z.of_nat x in
  implb (getValueRequiredBits r <=? d) ((257 * r) .& ((1 << d) - 1) =? r >> (8 - d))) (seq 0 256)) [1; 2; 4; 8] = true.
Proof. vm_compute. reflexivity. Qed.

Lemma key_masked d r : d ∈ [1; 2; 4; 8] -> byte_ok r -> getValueRequiredBits r <= d -> (257 * r) .& ((1 << d) - 1) = r >> (8 - d).
Proof.
  intros Hd Hr Hn. pose proof key_masked_checked as H. rewrite forallb_forall in H. specialize (H d ltac:(by apply list_elem_of_In)).
  rewrite forallb_forall in H. unfold byte_ok in Hr. specialize (H (Z.to_nat r) ltac:(apply in_seq; lia)). cbn zeta in H. rewrite Z2Nat.id in H by lia.
  rewrite (proj2 (Z.leb_le _ _) Hn) in H. cbn [implb] in H. by apply Z.eqb_eq.
Qed.

Lemma key_masked_8 r : byte_ok r -> (257 * r) .& ((1 << 8) - 1) = r.
Proof.
  intros Hr. rewrite (key_masked 8 r); [|apply depths|done|apply depth_range, required_range]. by rewrite Z.shiftr_0_r.
Qed.

(** ** The choice *)

Lemma palette_depth n : 1 <= n <= 256 ->
  let d := if n <=? 2 then 1 else if n <=? 4 then 2 else if n <=? 16 then 4 else 8 in d ∈ [1; 2; 4; 8] /\ n <= 2 ^ d.
Proof.
  intros Hn. destruct (Z.leb_spec n 2); [|destruct (Z.leb_spec n 4); [|destruct (Z.leb_spec n 16)]]; cbn zeta; (split; [apply depths|lia]).
Qed.

(** The depth when there is no palette *)
Definition chosen_bits (s : LodePNGColorStats) : Z :=
  let few := s_key s && (s_numpixels s <=? 16) in
  let bits := if few && (s_bits s <? 8) then 8 else s_bits s in
  if negb (negb (s_colored s) && s_allow_greyscale s) && (bits <? 8) then 8 else bits.

Lemma chosen_bits_ok px s : stats_ok px s -> let few := s_key s && (s_numpixels s <=? 16) in
  (s_colored s = true \/ s_alpha s || few = true -> chosen_bits s = 8) /\ (s_colored s = false -> s_alpha s || few = false -> chosen_bits s = s_bits s).
Proof.
  intros Hs. cbn zeta. unfold chosen_bits. destruct (so_allow _ _ Hs) as [_ ->]. rewrite andb_true_r, negb_involutive.
  pose proof (so_bits _ _ Hs) as Hb. pose proof (depth_range _ Hb). pose proof (so_deep _ _ Hs) as Hd. split.
  - intros H0. destruct (s_key s && (s_numpixels s <=? 16)); cbn [andb].
    + destruct (Z.ltb_spec (s_bits s) 8); [by rewrite andb_false_r|]. rewrite (proj2 (Z.ltb_ge _ _)), andb_false_r by lia. lia.
    + rewrite orb_false_r in H0. rewrite (Hd H0). by rewrite andb_false_r.
  - intros Hc [Ha Hf]%orb_false_iff. rewrite Hc, Hf. done.
Qed.

(** The colour types when there is no palette *)
Lemma plain_mode px s : Forall px_ok px -> stats_ok px s ->
  let few := s_key s && (s_numpixels s <=? 16) in
  let alpha := s_alpha s || few in
  let key := s_key s && negb few in
  let gray_ok := negb (s_colored s) in
  let colortype := if alpha then (if gray_ok then LCT_GREY_ALPHA else LCT_RGBA) else (if gray_ok then LCT_GREY else LCT_RGB) in
  let mask := (1 << chosen_bits s) - 1 in
  mode_for px (if key then mkMode colortype (chosen_bits s) None 0 true (s_key_r s .& mask) (s_key_g s .& mask) (s_key_b s .& mask)
               else mkMode colortype (chosen_bits s) None 0 false 0 0 0).
Proof.
  intros Hpx Hs. destruct (chosen_bits_ok px s Hs) as [Hb8 Hbs]. cbn zeta in *. set (few := s_key s && (s_numpixels s <=? 16)) in *.
  destruct (s_alpha s || few) eqn:Ea.
  - rewrite (Hb8 (or_intror eq_refl)). assert (Hk : s_key s && negb few = false).
    { destruct (s_key s) eqn:Ek; [|done]. destruct (so_key _ _ Hs Ek) as (Hal & _). rewrite Hal in Ea. cbn [orb] in Ea. by rewrite Ea. }
    rewrite Hk. destruct (s_colored s) eqn:Ec; cbn [negb]; [apply for_rgba|]. apply for_grey_alpha. by apply (so_grey _ _ Hs).
  - apply orb_false_iff in Ea as [Eal Ef]. rewrite Ef, andb_true_r. destruct (s_key s) eqn:Ek.
    + destruct (so_key _ _ Hs Ek) as (_ & r & g & b & a & Hin & Ekey & Hall). unfold key_of in Ekey. injection Ekey as -> -> ->.
      assert (Hok : px_ok (r, g, b, a)) by (rewrite list.Forall_forall in Hpx; by apply Hpx). destruct Hok as (B1 & B2 & B3 & _).
      destruct (s_colored s) eqn:Ec; cbn [negb].
      * rewrite (Hb8 (or_introl eq_refl)), !key_masked_8 by done. by apply (for_rgb_key px r g b a).
      * rewrite (Hbs eq_refl eq_refl). pose proof (so_need _ _ Hs) as Hn.
        rewrite (key_masked _ r (so_bits _ _ Hs) B1) by (rewrite list.Forall_forall in Hn; by apply (Hn (r, g, b, a))).
        apply (for_grey_key px _ r g b a); [apply Hs|done|by apply Hs|done|done].
    + destruct (s_colored s) eqn:Ec; cbn [negb].
      * rewrite (Hb8 (or_introl eq_refl)). apply for_rgb. by apply (so_opaque _ _ Hs).
      * rewrite (Hbs eq_refl eq_refl). apply for_grey; [apply Hs|by apply Hs|apply Hs|by apply (so_opaque _ _ Hs)].
Qed.

Lemma auto_choose_ok {M : Memory} px s : Forall px_ok px -> stats_ok px s ->
  exists color, auto_choose_color lodepng_color_mode_init raw s = Some (inr color) /\ mode_for px color.
Proof.
  intros Hpx Hs. unfold auto_choose_color. destruct (so_allow _ _ Hs) as [Hap Hag]. fold (chosen_bits s). rewrite Hap, Hag, !andb_true_r.
  destruct (so_colors _ _ Hs) as (cs & Hnd & Hcb & Hcc & Hlp & Hcs). rewrite Hcc.
  set (d := if Z.of_nat (length cs) <=? 2 then 1 else _).
  match goal with |- context [if ?c then unless_error _ _ else _] => destruct c eqn:Eok end.
  - apply andb_prop in Eok as [Eok _]. apply andb_prop in Eok as [Eok _]. apply andb_prop in Eok as [Eok En0]. apply andb_prop in Eok as [En _].
    apply Z.leb_le in En. apply negb_true_iff, Z.eqb_neq in En0. destruct (Hcs ltac:(lia)) as [Hpal Hall].
    destruct (add_colors_ok lodepng_color_mode_init (s_palette s) cs cs [] lodepng_color_mode_alloc_palette eq_refl) as (q & E & Hq & Ht); [lia|done|done|done|].
    change (with_palette lodepng_color_mode_init [] lodepng_color_mode_alloc_palette) with (lodepng_palette_clear lodepng_color_mode_init) in E.
    change (Z.of_nat (length [])) with 0 in E. rewrite Nat2Z.id, E. cbn [unless_error mbind option_bind].
    rewrite bool_decide_false by done. cbn [andb]. eexists. split; [done|]. destruct (palette_depth (Z.of_nat (length cs)) ltac:(lia)) as [Hd1 Hd2].
    replace (m_palette (with_palette lodepng_color_mode_init cs q)) with (Some q) by (destruct cs; [cbn in En0; lia|done]).
    apply (for_palette px d q cs); try done. lia.
  - eexists. split; [done|]. apply (plain_mode px s Hpx Hs).
Qed.

Lemma mode_copy_ok {M : Memory} {HM : MemoryOk M} px color : mode_for px color -> exists color', lodepng_color_mode_copy color = Some color' /\ mode_for px color'.
Proof.
  intros H. destruct H as [| | | | | |d p cs Hd Hnd Hb Hl Hle Hp Ht Hall]; try (eexists; split; [reflexivity|]; by econstructor). unfold lodepng_color_mode_copy. cbn [m_palette m_palettesize].
  replace (Z.to_nat (4 * Z.of_nat (length cs))) with (4 * length cs)%nat by lia. rewrite option_guard_True by lia. rewrite Ht.
  rewrite (put_list_z _ _ 0%nat) by (rewrite ?length_flat, ?fresh_length; lia). cbn [mbind option_bind]. eexists. split; [done|].
  apply for_palette; try done; [by rewrite length_overlay, fresh_length by (rewrite length_flat, fresh_length; lia)|].
  unfold overlay. rewrite take_0. cbn [app]. rewrite take_app_length'; [done|]. by rewrite length_flat.
Qed.

(** The conversion to the chosen colour mode ([lodepng_convert]): the pixels of the file
    are those of the image, as a decoder of the format (PngFormat) reads them. *)

(** The bits of a pixel; [t] gives the indices of a palette. *)
Definition pixel_bits (color : LodePNGColorMode) (t : ColorTree) (p : rgba) : list bool :=
  let '(r, g, b, a) := p in
  let d := m_bitdepth color in
  match m_colortype color with
  | LCT_GREY => mbits (Z.to_nat d) (r >> (8 - d))
  | LCT_RGB => line_bits [r; g; b]
  | LCT_PALETTE => mbits (Z.to_nat d) (get_of 8 0 t p)
  | LCT_GREY_ALPHA => line_bits [r; a]
  | _ => line_bits [r; g; b; a]
  end.

Definition depth_of (color : LodePNGColorMode) : nat := Z.to_nat (m_bitdepth color).
Definition type_of (color : LodePNGColorMode) : Z := lct_value (m_colortype color).
Definition bpp_of (color : LodePNGColorMode) : nat := (channels (type_of color) * depth_of color)%nat.

Lemma mode_bpp px color : mode_for px color ->
  lodepng_get_bpp color = Z.of_nat (bpp_of color) /\ (1 <= bpp_of color <= 32)%nat /\ depth_ok (type_of color) (depth_of color)
  /\ (forall t p, length (pixel_bits color t p) = bpp_of color).
Proof.
  assert (D : forall d ct, d ∈ [1; 2; 4; 8] -> ct = LCT_GREY \/ ct = LCT_PALETTE -> lodepng_get_bpp_lct ct d = Z.of_nat (Z.to_nat d) /\ (1 <= Z.to_nat d <= 32)%nat
    /\ depth_ok (lct_value ct) (Z.to_nat d)).
  { intros d ct Hd Hct. pose proof (depth_range _ Hd). assert (Hin : Z.to_nat d ∈ [1; 2; 4; 8]%nat).
    { destruct (depth_cases d Hd) as [->|[->|[->| ->]]]; cbn; repeat constructor. }
    unfold lodepng_get_bpp_lct. split; [destruct Hct as [-> | ->]; cbn [getNumColorChannels]; rewrite u32_small by lia; lia|]. split; [lia|].
    left. split; [destruct Hct as [-> | ->]; cbn; auto|done]. }
  intros H. destruct H as [| |r g b a Hin Hall|Hg|d Hd Hg Hn Ho|d r g b a k2 k3 Hd Hin Hg Hn Hk|d p cs Hd Hnd Hb Hl Hle Hp Ht Hall].
  1-4: split; [done|]; split; [vm_compute; lia|]; split; [right; cbn; auto|]; intros t [[[x y] z] u]; done.
  all: unfold lodepng_get_bpp, bpp_of, type_of, depth_of; cbn [m_colortype m_bitdepth lct_value].
  - destruct (D d LCT_GREY Hd (or_introl eq_refl)) as (D1 & D2 & D3). cbn [lct_value] in *. change (channels 0) with 1%nat. rewrite Nat.mul_1_l.
    split; [done|]. split; [done|]. split; [done|]. intros t [[[x y] z] u]. cbn. by rewrite length_mbits.
  - destruct (D d LCT_GREY Hd (or_introl eq_refl)) as (D1 & D2 & D3). cbn [lct_value] in *. change (channels 0) with 1%nat. rewrite Nat.mul_1_l.
    split; [done|]. split; [done|]. split; [done|]. intros t [[[x y] z] u]. cbn. by rewrite length_mbits.
  - destruct (D d LCT_PALETTE Hd (or_intror eq_refl)) as (D1 & D2 & D3). cbn [lct_value] in *. change (channels 3) with 1%nat. rewrite Nat.mul_1_l.
    split; [done|]. split; [done|]. split; [done|]. intros t [[[x y] z] u]. cbn [pixel_bits m_colortype m_bitdepth]. by rewrite length_mbits.
Qed.

(** ** Writing pixels *)

Lemma put_filled out B k vs : bytes_ok out -> bytes_ok vs -> filled_bits out B -> length B = (8 * k)%nat -> (k + length vs <= length out)%nat ->
  exists out', put_list out (Z.of_nat k) vs = Some out' /\ filled_bits out' (B ++ line_bits vs) /\ bytes_ok out' /\ length out' = length out.
Proof.
  intros Ho Hv [HB _] HlB Hl. rewrite put_list_ok by done. eexists. split; [done|]. rewrite length_overlay by done.
  assert (E : take (k + length vs) (overlay k vs out) = take k out ++ vs).
  { unfold overlay. rewrite app_assoc, take_app_length'; [done|]. rewrite length_app, length_take. lia. }
  split; [|split; [|done]].
  - split.
    + rewrite length_app, length_line_bits, HlB, <- Nat.mul_add_distr_l, <- line_bits_take, E, line_bits_app, line_bits_take, <- HlB, HB. done.
    + intros Hne. exfalso. apply Hne. rewrite length_app, length_line_bits, HlB, <- Nat.mul_add_distr_l, Nat.mul_comm. apply Nat.Div0.mod_mul.
  - unfold overlay. unfold bytes_ok in *. apply list.Forall_app. split; [by apply Forall_take|]. apply list.Forall_app. split; [done|by apply Forall_drop].
Qed.

Lemma put_at_one out i v : put_at out i v = put_list out i [v].
Proof. cbn [put_list]. by destruct (put_at out i v). Qed.

(** What is true of an output buffer after [i] pixels *)
Definition converted (color : LodePNGColorMode) (t : ColorTree) (P : list rgba) (size : nat) (out : bytes) : Prop :=
  bytes_ok out /\ length out = size /\ filled_bits out (mjoin (map (pixel_bits color t) P)).

Lemma length_pixels_bits px color t P : mode_for px color -> length (mjoin (map (pixel_bits color t) P)) = (length P * bpp_of color)%nat.
Proof.
  intros H. destruct (mode_bpp px color H) as (_ & _ & _ & Hl). induction P as [|p P IH]; [done|]. cbn [map].
  change (mjoin (?x :: ?l)) with (x ++ mjoin l). rewrite length_app, Hl, IH. cbn [length]. lia.
Qed.

Lemma pixels_bits_app color t P p : mjoin (map (pixel_bits color t) (P ++ [p])) = mjoin (map (pixel_bits color t) P) ++ pixel_bits color t p.
Proof. rewrite map_app, join_app. cbn [map]. change (mjoin [?x]) with (x ++ []). by rewrite app_nil_r. Qed.

Lemma byte_bits v : line_bits [v] = mbits 8 v.
Proof. unfold line_bits. cbn [map]. change (mjoin [?x]) with (x ++ []). apply app_nil_r. Qed.

Lemma shifted_range d r : d ∈ [1; 2; 4; 8] -> byte_ok r -> 0 <= r >> (8 - d) < 2 ^ d.
Proof.
  unfold byte_ok. intros Hd Hr. pose proof (depth_range _ Hd). rewrite Z.shiftr_div_pow2 by lia. split; [apply Z.div_pos; lia|].
  apply Z.div_lt_upper_bound; [lia|]. rewrite <- Z.pow_add_r by lia. replace (8 - d + d) with 8 by lia. lia.
Qed.

(** A sample of [d] bits, the whole byte when [d] is 8 *)
Lemma put_sample d out B i v : d ∈ [1; 2; 4; 8] -> bytes_ok out -> filled_bits out B -> length B = (i * Z.to_nat d)%nat -> (i * Z.to_nat d + Z.to_nat d <= 8 * length out)%nat ->
  0 <= v < 2 ^ d ->
  exists out', (if d =? 8 then put_at out (Z.of_nat i) v else addColorBits out (Z.of_nat i) d v) = Some out'
    /\ filled_bits out' (B ++ mbits (Z.to_nat d) v) /\ bytes_ok out' /\ length out' = length out.
Proof.
  intros Hd Ho HB HlB Hl Hv. destruct (Z.eqb_spec d 8) as [-> | Hne].
  - rewrite put_at_one. change (Z.to_nat 8) with 8%nat in *. rewrite <- byte_bits. apply put_filled; [done|constructor; [exact Hv|constructor]|done|lia|cbn [length]; lia].
  - pose proof (depth_range _ Hd). pose proof (addColorBits_ok (Z.to_nat d) out B i v) as H4. rewrite Z2Nat.id in H4 by lia.
    apply H4; [|done|done|done|lia|done]. destruct (depth_cases d Hd) as [->|[->|[->| ->]]]; cbn; first [done|repeat constructor].
Qed.

(** ** The loops *)

(** A grey sample *)
Lemma grey_written d out B i r size : d ∈ [1; 2; 4; 8] -> bytes_ok out -> length out = size -> filled_bits out B -> byte_ok r ->
  length B = (i * (channels 0 * Z.to_nat d))%nat -> (S i * (channels 0 * Z.to_nat d) <= 8 * size)%nat ->
  exists out', inr (A := Z) <$> (if d =? 8 then put_at out (Z.of_nat i) r
               else if d =? 16 then put_list out (Z.of_nat i * 2) [r; r]
               else addColorBits out (Z.of_nat i) d ((r >> (8 - d)) .& ((1 << d) - 1))) = Some (inr out')
    /\ bytes_ok out' /\ length out' = size /\ filled_bits out' (B ++ mbits (Z.to_nat d) (r >> (8 - d))).
Proof.
  intros Hd Ho Hl HB Hr HlB Hs. change (channels 0) with 1%nat in *. rewrite Nat.mul_1_l in *. pose proof (shifted_range d r Hd Hr) as Hv.
  destruct (put_sample d out B i (r >> (8 - d)) Hd Ho HB ltac:(lia) ltac:(lia) Hv) as (out' & E & H1 & H2 & H3). pose proof (depth_range _ Hd).
  exists out'. split; [|split; [done|split; [lia|done]]]. destruct (Z.eqb_spec d 8) as [->|E8]; [by rewrite Z.shiftr_0_r in E; rewrite E|].
  rewrite (proj2 (Z.eqb_neq d 16)) by lia. replace ((1 << d) - 1) with (Z.ones d) by (rewrite Z.ones_equiv, Z.shiftl_mul_pow2 by lia; lia).
  rewrite land_ones_mod, Z.mod_small by lia. by rewrite E.
Qed.

(** One pixel of the general loop *)
Lemma pixel_written px color t P p out size : mode_for px color -> m_colortype color <> LCT_RGBA -> m_colortype color <> LCT_RGB -> px_ok p ->
  (m_colortype color = LCT_PALETTE -> 0 <= get_of 8 0 t p < 2 ^ m_bitdepth color) ->
  converted color t P size out -> (S (length P) * bpp_of color <= 8 * size)%nat ->
  let '(r, g, b, a) := p in exists out', rgba8ToPixel out (Z.of_nat (length P)) color t r g b a = Some (inr out') /\ converted color t (P ++ [p]) size out'.
Proof.
  intros Hm Hct1 Hct2 Hp Hi (Ho & Hl & HB) Hs. destruct p as [[[r g] b] a]. pose proof (length_pixels_bits px color t P Hm) as HlB.
  unfold converted. rewrite pixels_bits_app. set (B := mjoin _) in *. destruct Hp as (Hr & Hg & Hb & Ha).
  destruct Hm as [| |r0 g0 b0 a0 Hin Hall|Hgr|d Hd Hgr Hn Hop|d r0 g0 b0 a0 k2 k3 Hd Hin Hgr Hn Hk|d p cs Hd Hnd Hcb Hcl Hle Hpl Ht Hall];
    unfold rgba8ToPixel, bpp_of, type_of, depth_of in *; cbn [m_colortype m_bitdepth lct_value pixel_bits] in *; try done.
  - change (8 =? 8) with true. cbv iota. change (channels 4 * Z.to_nat 8)%nat with 16%nat in *.
    replace (Z.of_nat (length P) * 2) with (Z.of_nat (2 * length P)) by lia.
    destruct (put_filled out B (2 * length P) [r; a]) as (out' & -> & H1 & H2 & H3); [done|do 2 (apply Forall_cons_2; [done|]); constructor|done|lia|cbn [length]; lia|].
    exists out'. split; [done|]. split; [done|]. split; [lia|done].
  - by apply grey_written.
  - by apply grey_written.
  - change (channels 3) with 1%nat in *. rewrite Nat.mul_1_l in *. specialize (Hi eq_refl). cbn [get_of] in Hi.
    destruct (put_sample d out B (length P) (tree_get 8 0 t r g b a) Hd Ho HB ltac:(lia) ltac:(lia) Hi) as (out' & E & H1 & H2 & H3).
    unfold color_tree_get. rewrite (proj2 (Z.ltb_ge _ _)) by lia. exists out'. split; [|split; [done|split; [lia|done]]].
    assert (Hi8 : d = 8 -> u8 (tree_get 8 0 t r g b a) = tree_get 8 0 t r g b a) by (intros ->; unfold u8; apply Z.mod_small; lia).
    destruct (Z.eqb_spec d 8) as [E8|E8]; [rewrite (Hi8 E8)|]; by rewrite E.
Qed.

Lemma convert8_ok px color t size rest : forall P out, px = P ++ rest -> mode_for px color -> m_colortype color <> LCT_RGBA -> m_colortype color <> LCT_RGB ->
  Forall px_ok px -> (m_colortype color = LCT_PALETTE -> Forall (fun p => 0 <= get_of 8 0 t p < 2 ^ m_bitdepth color) px) ->
  converted color t P size out -> (length px * bpp_of color <= 8 * size)%nat ->
  exists out', convert8_loop (length rest) (Z.of_nat (length P)) out (flat px) color raw t = Some (inr out') /\ converted color t px size out'.
Proof.
  induction rest as [|p rest IH]; intros P out E Hm H1 H2 Hpx Hi Hc Hs; cbn [length convert8_loop].
  { exists out. split; [done|]. by rewrite E, app_nil_r. }
  assert (Hp : px !! length P = Some p) by (rewrite E; by apply list_lookup_middle). rewrite (get_raw px _ p Hp).
  pose proof (lookup_lt_Some _ _ _ Hp) as Hlt. rewrite list.Forall_lookup in Hpx.
  pose proof (pixel_written px color t P p out size Hm H1 H2 (Hpx _ _ Hp)) as W. destruct p as [[[r g] b] a]. cbn [mbind option_bind].
  destruct W as (out1 & -> & Hc1); [|done|nia|].
  { intros Ect. specialize (Hi Ect). rewrite list.Forall_lookup in Hi. by apply (Hi (length P)). }
  cbn [unless_error mbind option_bind]. replace (Z.of_nat (length P) + 1) with (Z.of_nat (length (P ++ [(r, g, b, a)]))) by (rewrite length_app; cbn [length]; lia).
  apply IH; [by rewrite <- app_assoc|done|done|done|by apply list.Forall_lookup|done..].
Qed.

Lemma rgb_loop_ok px color t size rest : forall P out, px = P ++ rest -> mode_for px color -> m_colortype color = LCT_RGB -> Forall px_ok px ->
  converted color t P size out -> (length px * bpp_of color <= 8 * size)%nat ->
  exists out', pixels_loop (length rest) (Z.of_nat (length P)) 3
      (fun i => r ← at_ (flat px) (i * 4 + 0); g ← at_ (flat px) (i * 4 + 1); b ← at_ (flat px) (i * 4 + 2); Some [r; g; b]) out = Some out'
    /\ converted color t px size out'.
Proof.
  induction rest as [|p rest IH]; intros P out E Hm H1 Hpx Hc Hs; cbn [length pixels_loop].
  { exists out. split; [done|]. by rewrite E, app_nil_r. }
  assert (Hp : px !! length P = Some p) by (rewrite E; by apply list_lookup_middle). destruct p as [[[r g] b] a].
  destruct (flat_at px _ r g b a Hp) as (-> & -> & -> & _). cbn [mbind option_bind]. pose proof (lookup_lt_Some _ _ _ Hp) as Hlt.
  destruct Hc as (Ho & Hl & HB). pose proof (length_pixels_bits px color t P Hm) as HlB.
  assert (Eb : bpp_of color = 24%nat) by (destruct Hm; first [discriminate H1|reflexivity]). rewrite Eb in *.
  pose proof Hpx as Hpx'. rewrite list.Forall_lookup in Hpx'. destruct (Hpx' _ _ Hp) as (Hr & Hg & Hb & Ha).
  replace (Z.of_nat (length P) * 3) with (Z.of_nat (3 * length P)) by lia.
  destruct (put_filled out (mjoin (map (pixel_bits color t) P)) (3 * length P) [r; g; b] Ho) as (out1 & -> & W1 & W2 & W3);
    [do 3 (apply Forall_cons_2; [done|]); constructor|exact HB|lia|cbn [length]; lia|]. cbn [mbind option_bind].
  replace (Z.of_nat (length P) + 1) with (Z.of_nat (length (P ++ [(r, g, b, a)]))) by (rewrite length_app; cbn [length]; lia).
  apply IH; [by rewrite <- app_assoc|done|done|done| |done]. split; [done|]. split; [lia|]. rewrite pixels_bits_app.
  replace (pixel_bits color t (r, g, b, a)) with (line_bits [r; g; b]); [done|]. unfold pixel_bits. by rewrite H1.
Qed.

(** ** The conversion *)

Lemma palette_tree_ok p cs rest : forall a t, cs = a ++ rest -> NoDup cs -> Forall px_ok cs -> take (4 * length cs) p = flat cs -> tree_for a t ->
  exists t', palette_tree (length rest) (Z.of_nat (length a)) p t = Some t' /\ tree_for cs t'.
Proof.
  induction rest as [|c rest IH]; intros a t E Hnd Hcs Hp Ht; cbn [length palette_tree]; [exists t; rewrite app_nil_r in E; by subst a|].
  assert (Hc : cs !! length a = Some c) by (rewrite E; by apply list_lookup_middle).
  assert (Hnew : c ∉ a) by (rewrite E in Hnd; apply list.NoDup_app in Hnd as (_ & Hd & _); intros Hin; apply (Hd c Hin); left).
  rewrite E in Hcs. apply list.Forall_app in Hcs as [Ha Hr]. apply Forall_cons_1 in Hr as [Hcok Hr].
  pose proof (tree_for_add a t c Ht Ha Hcok Hnew) as Ht'. destruct c as [[[r g] b] al].
  destruct (palette_at p cs (length a) r g b al Hp Hc) as (-> & -> & -> & ->). cbn [mbind option_bind].
  replace (Z.of_nat (length a) + 1) with (Z.of_nat (length (a ++ [(r, g, b, al)]))) by (rewrite length_app; cbn [length]; lia).
  apply IH; [by rewrite <- app_assoc|done| |done|exact Ht']. rewrite E. apply list.Forall_app. split; [done|by constructor].
Qed.

(** The tree for the indices of the palette *)
Definition tree_of (color : LodePNGColorMode) (t : ColorTree) : Prop :=
  match m_colortype color, m_palette color with
  | LCT_PALETTE, Some p => exists cs, tree_for cs t /\ m_palettesize color = Z.of_nat (length cs) /\ take (4 * length cs) p = flat cs
  | _, _ => True
  end.

Lemma convert_ok px color size out w h : Forall px_ok px -> mode_for px color -> m_colortype color <> LCT_RGBA ->
  0 <= w -> 0 <= h -> w * h = Z.of_nat (length px) -> w * h < 2 ^ 32 -> length out = size -> bytes_ok out -> (length px * bpp_of color <= 8 * size)%nat ->
  exists t conv, lodepng_convert out (flat px) color raw w h = Some (inr conv) /\ converted color t px size conv /\ tree_of color t.
Proof.
  intros Hpx Hm Hct Hw Hh Hn Hlt Hl Ho Hs. unfold lodepng_convert. rewrite u32_small by lia. rewrite Hn.
  assert (Hc0 : forall t, converted color t [] size out) by (intros t; split; [done|]; split; [done|apply filled_nil]).
  rewrite bool_decide_false by done. cbn [andb].
  assert (Heq : lodepng_color_mode_equal color raw = Some false).
  { unfold lodepng_color_mode_equal. by rewrite bool_decide_false. }
  rewrite Heq. cbn [mbind option_bind].
  assert (Hpix : forall t, (m_colortype color = LCT_PALETTE -> Forall (fun p => 0 <= get_of 8 0 t p < 2 ^ m_bitdepth color) px) ->
    exists conv, convert_pixels out (flat px) color raw (Z.of_nat (length px)) t = Some (inr conv) /\ converted color t px size conv).
  { intros t Ht. unfold convert_pixels. rewrite Nat2Z.id. change (m_bitdepth raw =? 16) with false. cbn [andb]. rewrite (bool_decide_false (_ = LCT_RGBA)), andb_false_r by done.
    destruct (decide (m_colortype color = LCT_RGB)) as [Ergb|Ergb].
    - rewrite bool_decide_true by done. assert (E8 : m_bitdepth color = 8) by (destruct Hm; first [discriminate Ergb|reflexivity]). rewrite E8. change (8 =? 8) with true. cbn [andb].
      destruct (rgb_loop_ok px color t size px [] out eq_refl Hm Ergb Hpx (Hc0 t) Hs) as (conv & E & Hc). exists conv. split; [|done].
      unfold getPixelColorsRGB8. cbn [raw lodepng_color_mode_make m_colortype m_bitdepth]. change (8 =? 8) with true. cbv iota. rewrite Nat2Z.id.
      change (Z.of_nat (length [])) with 0 in E. by rewrite E.
    - rewrite bool_decide_false, andb_false_r by done. by apply (convert8_ok px color t size px [] out). }
  destruct (decide (m_colortype color = LCT_PALETTE)) as [Epal|Epal].
  - rewrite bool_decide_true by done. destruct Hm as [| | | | | |d p cs Hd Hnd Hcb Hcl Hle Hpl Ht Hall]; try done. cbn [m_palettesize m_palette m_bitdepth].
    assert (Hle' : Z.of_nat (length cs) <= 1 << d) by (pose proof (depth_range _ Hd); rewrite Z.shiftl_mul_pow2; lia).
    rewrite (proj2 (Z.eqb_neq _ 0)) by (unfold rgba in *; lia). cbn [andb]. cbv zeta.
    replace (if Z.of_nat (length cs) <? 1 << d then Z.of_nat (length cs) else 1 << d) with (Z.of_nat (length cs)) by (destruct (Z.ltb_spec (Z.of_nat (length cs)) (1 << d)); lia).
    rewrite (proj2 (Z.eqb_neq _ 0)) by (unfold rgba in *; lia). cbn [mbind option_bind].
    destruct (palette_tree_ok p cs cs [] color_tree_init eq_refl Hnd Hcb Ht tree_for_init) as (t & Et & Hfor). change (Z.of_nat (length [])) with 0 in Et.
    rewrite Nat2Z.id, Et. cbn [mbind option_bind]. destruct (Hpix t) as (conv & E & Hc).
    { intros _. cbn [m_bitdepth]. eapply list.Forall_impl; [exact Hall|]. intros q [i Hi]%list_elem_of_lookup_1. rewrite (tf_in _ _ Hfor _ _ Hi).
      apply lookup_lt_Some in Hi. lia. }
    exists t, conv. split; [done|]. split; [done|]. by exists cs.
  - rewrite bool_decide_false by done. destruct (Hpix color_tree_init) as (conv & E & Hc); [done|]. exists color_tree_init, conv. split; [done|]. split; [done|].
    unfold tree_of. by destruct (m_colortype color).
Qed.
