(* ===== verification/PngPixels.v ===== *)
(** Pixels of the file: a decoder of the format (PngFormat) shows the colour that the bits of
    a pixel, the palette and the transparency of the chosen mode stand for. *)
From S2P Require Import Prelude CLib Checksum BitReader Huffman Canonical Deflate LodeLz77 LodeHuff LodeTree LodeDeflate CodeLengths.
From S2P Require Import ZlibCompress LodeColor LodeFilter LodeEncode PngFormat FilterCorrect PngBits ColorStats ColorChoice.

(** ** Chunk data *)

(** The colours without and the alphas of a palette *)
Definition reds (cs : list rgba) : bytes := mjoin (map (fun '(r, g, b, _) => [r; g; b]) cs).

(** The data of the chunks PLTE and tRNS for a colour mode *)
Inductive chunks_for (color : LodePNGColorMode) : option bytes -> option bytes -> Prop :=
| chunks_plain : m_colortype color <> LCT_PALETTE -> m_key_defined color = false -> chunks_for color None None
| chunks_grey : m_colortype color = LCT_GREY -> m_key_defined color = true -> chunks_for color None (Some (be_bytes 2 (m_key_r color)))
| chunks_rgb : m_colortype color = LCT_RGB -> m_key_defined color = true ->
    chunks_for color None (Some (be_bytes 2 (m_key_r color) ++ be_bytes 2 (m_key_g color) ++ be_bytes 2 (m_key_b color)))
| chunks_palette p cs k : m_colortype color = LCT_PALETTE -> m_palette color = Some p -> m_palettesize color = Z.of_nat (length cs) ->
    take (4 * length cs) p = flat cs -> (k <= length cs)%nat -> (forall i c, (k <= i)%nat -> cs !! i = Some c -> alpha c = 255) ->
    chunks_for color (Some (reds cs)) (match k with O => None | S _ => Some (map alpha (take k cs)) end).

Lemma flat_inj a : forall b, flat a = flat b -> a = b.
Proof.
  induction a as [|[[[r g] b0] al] a IH]; intros [|[[[r' g'] b'] al'] b] E; try done. unfold flat in E. cbn [map] in E.
  change (mjoin (?x :: ?l)) with (x ++ mjoin l) in E. cbn [app] in E. injection E as -> -> -> -> E. by rewrite (IH b E).
Qed.

(** ** Samples *)

Lemma sample_first d bits rest : length bits = d -> sample d (bits ++ rest) 0 = mval bits.
Proof. intros Hl. unfold sample. by rewrite Nat.mul_0_l, drop_0, take_app_length'. Qed.

Lemma sample_byte k vs rest v : bytes_ok vs -> vs !! k = Some v -> sample 8 (line_bits vs ++ rest) k = v.
Proof.
  intros Hok Hv. unfold sample. pose proof (lookup_lt_Some _ _ _ Hv). rewrite drop_app_le by (rewrite length_line_bits; lia).
  rewrite (Nat.mul_comm k 8), <- line_bits_drop, (drop_S _ _ _ Hv), line_bits_cons, <- app_assoc, take_app_length' by (by rewrite length_mbits).
  rewrite mval_mbits. unfold bytes_ok in Hok. rewrite list.Forall_lookup in Hok. apply Z.mod_small. apply (Hok _ _ Hv).
Qed.

Lemma sample_small d v rest : 0 <= v < 2 ^ Z.of_nat d -> sample d (mbits d v ++ rest) 0 = v.
Proof. intros Hv. rewrite sample_first by apply length_mbits. rewrite mval_mbits. by apply Z.mod_small. Qed.

Lemma grey_checked : forallb (fun d => forallb (fun x => let r := Z.of_nat x in
  implb (getValueRequiredBits r <=? d) ((r >> (8 - d)) * 255 / (2 ^ d - 1) =? r)) (seq 0 256)) [1; 2; 4; 8] = true.
Proof. vm_compute. reflexivity. Qed.

(** The samples of a depth that is enough lose nothing. *)
Lemma grey_value d r : d ∈ [1; 2; 4; 8] -> byte_ok r -> getValueRequiredBits r <= d -> (r >> (8 - d)) * 255 / (2 ^ d - 1) = r.
Proof.
  intros Hd Hr Hn. pose proof grey_checked as H. rewrite forallb_forall in H. specialize (H d ltac:(by apply list_elem_of_In)).
  rewrite forallb_forall in H. unfold byte_ok in Hr. specialize (H (Z.to_nat r) ltac:(apply in_seq; lia)). cbn zeta in H. rewrite Z2Nat.id in H by lia.
  rewrite (proj2 (Z.leb_le _ _) Hn) in H. cbn [implb] in H. by apply Z.eqb_eq.
Qed.

(** ** Transparency *)

Lemma key_bytes_be v : key_bytes v = be_bytes 2 v.
Proof.
  unfold key_bytes, be_bytes, le_bytes, u8. change 255 with (Z.ones 8). rewrite land_ones_mod, Z.shiftr_div_pow2 by lia. done.
Qed.

Lemma be_bytes_2_inj a b : byte_ok a -> byte_ok b -> be_bytes 2 a = be_bytes 2 b -> a = b.
Proof.
  unfold byte_ok. intros Ha Hb E. apply (f_equal be_val) in E. by rewrite !be_val_be_bytes, !Z.mod_small in E by lia.
Qed.

(** The alpha of a pixel whose colour is the key exactly when it is transparent *)
Lemma key_alpha_ok k s a : Forall byte_ok k -> Forall byte_ok s -> length k = length s -> a = 255 /\ s <> k \/ a = 0 /\ s = k ->
  key_alpha (Some (mjoin (map (be_bytes 2) k))) s = a.
Proof.
  intros Hk Hs Hl Ha. unfold key_alpha. destruct (decide _) as [E|E].
  - destruct Ha as [[_ Hne]|[-> _]]; [|done]. exfalso. apply Hne. clear Hne. revert s Hs Hl E. induction Hk as [|x k Hx _ IH]; intros [|y s] Hs Hl E; try done.
    apply Forall_cons_1 in Hs as [Hy Hs]. cbn [map] in E. change (mjoin (?x :: ?l)) with (x ++ mjoin l) in E. apply app_inj_1 in E as [E1 E2]; [|done].
    f_equal; [symmetry; by apply be_bytes_2_inj|apply IH; [done|by injection Hl|done]].
  - destruct Ha as [[-> _]|[_ ->]]; done.
Qed.

(** ** Pixels *)

Lemma reds_lookup cs i r g b a : cs !! i = Some (r, g, b, a) ->
  reds cs !! (3 * i)%nat = Some r /\ reds cs !! (3 * i + 1)%nat = Some g /\ reds cs !! (3 * i + 2)%nat = Some b.
Proof.
  revert i. induction cs as [|[[[r' g'] b'] a'] cs IH]; intros [|i] E; try done; cbn [lookup list_lookup] in E.
  - injection E as -> -> -> ->. done.
  - destruct (IH i E) as (H0 & H1 & H2). unfold reds in *. cbn [map]. change (mjoin (?x :: ?l)) with (x ++ mjoin l).
    replace (3 * S i)%nat with (S (S (S (3 * i)))) by lia. done.
Qed.

Lemma length_reds cs : length (reds cs) = (3 * length cs)%nat.
Proof.
  induction cs as [|[[[r g] b] a] cs IH]; [done|]. unfold reds in *. cbn [map]. change (mjoin (?x :: ?l)) with (x ++ mjoin l). rewrite length_app, IH. cbn [length]. lia.
Qed.

Lemma pixel_grey px d k1 k2 k3 key r0 t plte trns rest p : d ∈ [1; 2; 4; 8] -> p ∈ px -> Forall px_ok px -> Forall grey px -> Forall (needs d) px ->
  (key = false /\ trns = None /\ Forall opaque px
   \/ key = true /\ trns = Some (be_bytes 2 (r0 >> (8 - d))) /\ exists g0 b0 a0, (r0, g0, b0, a0) ∈ px /\ Forall (keyed (r0, g0, b0)) px) ->
  pixel 0 (Z.to_nat d) plte trns (pixel_bits (mkMode LCT_GREY d None 0 key k1 k2 k3) t p ++ rest) = Some p.
Proof.
  intros Hd Hp Hpx Hg Hn Hkey. rewrite list.Forall_forall in Hpx, Hg, Hn. pose proof (Hpx p Hp) as Bp. pose proof (Hg p Hp) as Gp. pose proof (Hn p Hp) as Np.
  destruct p as [[[r g] b] a]. destruct Bp as (Br & _). destruct Gp as [<- <-]. cbn [pixel_bits m_bitdepth m_colortype].
  unfold needs, red in Np. cbn [fst] in Np. pose proof (depth_range _ Hd) as Rd. pose proof (shifted_range d r Hd Br) as Sr.
  unfold pixel. change (0 =? 0) with true. cbv iota zeta. rewrite sample_small by (rewrite Z2Nat.id by lia; done). rewrite Z2Nat.id, grey_value by (done || lia).
  do 2 f_equal. destruct Hkey as [(-> & -> & Ho)|(-> & -> & g0 & b0 & a0 & Hin & Hk)].
  - rewrite list.Forall_forall in Ho. by rewrite (Ho _ Hp).
  - rewrite list.Forall_forall in Hk. pose proof (Hk _ Hp) as Kp. destruct (Hpx _ Hin) as (Br0 & _). destruct (Hg _ Hin) as [<- <-].
    pose proof (Hn _ Hin) as N0. unfold needs, red in N0. cbn [fst] in N0. pose proof (shifted_range d r0 Hd Br0) as Sr0.
    assert (P8 : 2 ^ d <= 2 ^ 8) by (apply Z.pow_le_mono_r; lia).
    rewrite <- (app_nil_r (be_bytes 2 _)).
    change (be_bytes 2 (r0 >> (8 - d)) ++ []) with (mjoin (map (be_bytes 2) [r0 >> (8 - d)])).
    apply key_alpha_ok; [constructor; [unfold byte_ok; lia|constructor]..|done|].
    unfold keyed, alpha, rgb in Kp. cbn [fst snd] in Kp. destruct Kp as [[-> Hne]|[-> E]]; [left|right; split; [done|congruence]]. split; [done|].
    intros [= E]. apply Hne. assert (r = r0); [|congruence]. by rewrite <- (grey_value d r), <- (grey_value d r0), E.
Qed.

Lemma byte_list r g b a : px_ok (r, g, b, a) -> bytes_ok [r; g; b; a] /\ bytes_ok [r; g; b] /\ bytes_ok [r; a].
Proof. intros (Hr & Hg & Hb & Ha). unfold bytes_ok. split; [|split]; repeat (apply Forall_cons_2; [done|]); apply list.Forall_nil_2. Qed.

Lemma pixel_rgb r g b a plte trns rest : px_ok (r, g, b, a) -> key_alpha trns [r; g; b] = a -> pixel 2 8 plte trns (line_bits [r; g; b] ++ rest) = Some (r, g, b, a).
Proof.
  intros (_ & Hok & _)%byte_list Hk. unfold pixel. change (2 =? 0) with false. change (2 =? 2) with true. cbv iota zeta.
  rewrite (sample_byte 0 _ rest r Hok), (sample_byte 1 _ rest g Hok), (sample_byte 2 _ rest b Hok), Hk by done. done.
Qed.

Lemma pixel_palette cs d k t plte p i rest : cs !! i = Some p -> 0 <= Z.of_nat i < 2 ^ Z.of_nat d -> get_of 8 0 t p = Z.of_nat i -> plte = Some (reds cs) ->
  (k <= length cs)%nat -> (forall i c, (k <= i)%nat -> cs !! i = Some c -> alpha c = 255) ->
  pixel 3 d plte (match k with O => None | S _ => Some (map alpha (take k cs)) end) (mbits d (get_of 8 0 t p) ++ rest) = Some p.
Proof.
  intros Hi Hr Hg -> Hk Hopaque. unfold pixel. change (3 =? 0) with false. change (3 =? 2) with false. change (3 =? 3) with true. cbv iota zeta.
  rewrite Hg, sample_small by done. cbn [mbind option_bind]. rewrite Nat2Z.id. destruct p as [[[r g] b] a].
  destruct (reds_lookup cs i r g b a Hi) as (-> & -> & ->). cbn [mbind option_bind]. do 2 f_equal.
  destruct (decide (k <= i)%nat) as [Hki|Hki].
  - specialize (Hopaque i _ Hki Hi). unfold alpha in Hopaque. cbn in Hopaque. subst a. destruct k as [|k]; [done|]. cbn [mbind option_bind].
    rewrite lookup_ge_None_2; [done|]. rewrite length_map, length_take. lia.
  - destruct k as [|k]; [lia|]. cbn [mbind option_bind]. rewrite (list_lookup_fmap alpha), lookup_take_lt, Hi by lia. done.
Qed.

(** What a decoder shows for the bits of a pixel *)
Lemma pixel_decoded px color t plte trns rest p : Forall px_ok px -> mode_for px color -> tree_of color t -> chunks_for color plte trns -> p ∈ px ->
  pixel (type_of color) (depth_of color) plte trns (pixel_bits color t p ++ rest) = Some p.
Proof.
  intros Hpx Hm Ht Hc Hp. pose proof Hpx as Hpx'. rewrite list.Forall_forall in Hpx'. pose proof (Hpx' p Hp) as Bp.
  destruct Hm as [|Ho|r0 g0 b0 a0 Hin Hk|Hg|d Hd Hg Hn Ho|d r0 g0 b0 a0 k2 k3 Hd Hin Hg Hn Hk|d pal cs Hd Hnd Hcb Hcl Hle Hpl Htk Hall];
    unfold type_of, depth_of; cbn [m_colortype m_bitdepth lct_value];
    destruct Hc as [Hct Hkd|Hct Hkd|Hct Hkd|pal' cs' k Hct Hmp Hms Htk' Hkl Hop]; cbn [m_colortype m_key_defined m_key_r m_key_g m_key_b m_palette m_palettesize] in *; try done.
  - destruct p as [[[r g] b] a]. destruct (byte_list r g b a Bp) as (Hok & _). cbn [pixel_bits m_colortype]. unfold pixel. cbn [Z.eqb Pos.eqb]. cbv zeta. change (Z.to_nat 8) with 8%nat.
    by rewrite (sample_byte 0 _ rest r Hok), (sample_byte 1 _ rest g Hok), (sample_byte 2 _ rest b Hok), (sample_byte 3 _ rest a Hok).
  - rewrite list.Forall_forall in Ho. specialize (Ho p Hp). destruct p as [[[r g] b] a]. by apply pixel_rgb.
  - rewrite list.Forall_forall in Hk. specialize (Hk p Hp). destruct p as [[[r g] b] a]. apply pixel_rgb; [done|].
    destruct (Hpx' _ Hin) as (B1 & B2 & B3 & _). destruct Bp as (B4 & B5 & B6 & _).
    rewrite <- (app_nil_r (be_bytes 2 b0)). change (be_bytes 2 r0 ++ be_bytes 2 g0 ++ be_bytes 2 b0 ++ []) with (mjoin (map (be_bytes 2) [r0; g0; b0])).
    apply key_alpha_ok; [by repeat (apply Forall_cons_2; [done|])..|done|].
    unfold keyed, alpha, rgb in Hk. cbn [fst snd] in Hk. destruct Hk as [[-> Hne]|[-> E]]; [left; split; [done|congruence]|right; split; [done|congruence]].
  - rewrite list.Forall_forall in Hg. specialize (Hg p Hp). destruct p as [[[r g] b] a]. destruct Hg as [<- <-]. destruct (byte_list r r r a Bp) as (_ & _ & Hok).
    cbn [pixel_bits m_colortype]. unfold pixel. cbn [Z.eqb Pos.eqb]. cbv zeta. change (Z.to_nat 8) with 8%nat.
    by rewrite (sample_byte 0 _ rest r Hok), (sample_byte 1 _ rest a Hok).
  - apply (pixel_grey px) with (r0 := 0); try done. left. by split.
  - apply (pixel_grey px) with (r0 := r0); try done. right. split; [done|]. split; [done|]. by exists g0, b0, a0.
  - injection Hmp as <-. assert (El : length cs = length cs') by lia. rewrite <- El in Htk'. rewrite Htk in Htk'. apply flat_inj in Htk' as <-.
    unfold tree_of in Ht. cbn [m_colortype m_palette m_palettesize] in Ht. destruct Ht as (cs2 & Hfor & El2 & Htk2). assert (El3 : length cs = length cs2) by lia.
    rewrite <- El3, Htk in Htk2. apply flat_inj in Htk2 as <-. rewrite list.Forall_forall in Hall. destruct (list_elem_of_lookup_1 _ _ (Hall p Hp)) as [i Hi].
    pose proof (depth_range _ Hd). replace (pixel_bits _ t p) with (mbits (Z.to_nat d) (get_of 8 0 t p)) by (by destruct p as [[[r g] b] a]).
    apply (pixel_palette cs _ k t _ p i); try done; [|by apply (tf_in _ _ Hfor)]. rewrite Z2Nat.id by lia. apply lookup_lt_Some in Hi. lia.
Qed.
