(* ===== verification/PngChunks.v ===== *)
(** The chunks of the PNG encoder are those of the format (PngFormat): the checksum is the
    CRC-32 of the format, and the data of PLTE and tRNS are those of the colour mode. *)
From S2P Require Import Prelude CLib Checksum BitReader Huffman Canonical Deflate LodeLz77 LodeHuff LodeTree LodeDeflate LodeColor.
From S2P Require Import LodeFilter LodeEncode CodeLengths ZlibCompress PngFormat FilterCorrect PngBits ColorStats ColorChoice.
From S2P Require Import PngPixels.

(** ** The checksum *)

Lemma crc_table_lode : forallb (fun i => bool_decide (lodepng_crc32_table !! i = Some (lookup_crc 0 (Z.of_nat i)))) (seq 0 256) = true.
Proof. vm_compute. reflexivity. Qed.

Lemma crc_table_at i : 0 <= i < 256 -> at_ lodepng_crc32_table i = Some (lookup_crc 0 i).
Proof.
  intros Hi. pose proof crc_table_lode as H. rewrite forallb_forall in H. specialize (H (Z.to_nat i) ltac:(apply in_seq; lia)).
  apply bool_decide_eq_true in H. rewrite <- (Z2Nat.id i) at 1 by lia. rewrite at_of_nat, H, Z2Nat.id by lia. done.
Qed.

Lemma crc_step x r : byte_ok x -> lookup_crc 0 ((r .^ x) .& 0xff) .^ (r >> 8) = crc_byte r x.
Proof.
  unfold byte_ok. intros Hx. rewrite crc_byte_bits, crc_bits_8, Z.lxor_comm, Z.shiftr_lxor, (Z.shiftr_div_pow2 x), Z.div_small, Z.lxor_0_r by lia. reflexivity.
Qed.

Lemma crc_loop_cons r x data : byte_ok x -> lodepng_crc_loop r (x :: data) = lodepng_crc_loop (crc_byte r x) data.
Proof.
  intros Hx. rewrite <- crc_step by done. pose proof (crc_table_at _ (low_byte_range (r .^ x))) as H. unfold lodepng_crc_loop at 1.
  fold lodepng_crc_loop. rewrite H. reflexivity.
Qed.

Lemma crc_loop_ok data : bytes_ok data -> forall r, lodepng_crc_loop r data = Some (fold_left crc_byte data r).
Proof.
  induction 1 as [|x data Hx _ IH]; intros r; [reflexivity|]. rewrite crc_loop_cons, fold_left_cons by done. apply IH.
Qed.

Lemma not32_lxor x : 0 <= x < 2 ^ 32 -> not32 x = x .^ 4294967295.
Proof.
  intros Hx. unfold not32, u32. change 4294967295 with (Z.ones 32). rewrite <- Z.land_ones by lia. apply Z.bits_inj'. intros n Hn.
  rewrite Z.land_spec, Z.lxor_spec, Z.lnot_spec, Z.testbit_ones_nonneg by lia. destruct (Z.ltb_spec n 32); [by rewrite andb_true_r, xorb_true_r|].
  rewrite andb_false_r, xorb_false_r. rewrite <- (Z.mod_small x (2 ^ 32)) by lia. symmetry. apply Z.mod_pow2_bits_high. lia.
Qed.

Lemma lodepng_crc32_ok data : bytes_ok data -> lodepng_crc32 data = Some (crc_ref data 0).
Proof. intros Hd. unfold lodepng_crc32. rewrite crc_loop_ok by done. cbn [mbind option_bind]. unfold crc_ref. change (not32 0) with 4294967295.
  rewrite not32_lxor; [done|]. by apply crc_bytes_range. Qed.

(** ** Chunks *)

Lemma chunk_ok out type data : bytes_ok data -> bytes_ok (bytes_of_string type) -> length (bytes_of_string type) = 4%nat -> Z.of_nat (length out + length data) + 12 < 2 ^ 32 ->
  lodepng_chunk_createv out type data = Some (inr (out ++ chunk type data)).
Proof.
  intros Hd Ht Hl Hs. unfold lodepng_chunk_createv, lodepng_chunk_init, lodepng_addofl. rewrite (proj2 (Z.leb_gt _ _)), (proj2 (Z.leb_gt _ _)) by lia.
  cbn [orb unless_error mbind option_bind]. unfold lodepng_chunk_generate_crc. rewrite !set32_be, <- app_assoc, drop_app_length' by (by rewrite length_be_bytes).
  rewrite lodepng_crc32_ok by (by apply list.Forall_app). cbn [mbind option_bind]. rewrite set32_be. unfold chunk. by rewrite <- !app_assoc.
Qed.

(** ** The palette *)

Lemma plte_loop_ok p cs rest : forall a, cs = a ++ rest -> take (4 * length cs) p = flat cs -> plte_loop (length rest) (Z.of_nat (length a)) p = Some (reds rest).
Proof.
  induction rest as [|c rest IH]; intros a E Hp; cbn [length plte_loop]; [done|].
  assert (Hc : cs !! length a = Some c) by (rewrite E; by apply list_lookup_middle). destruct c as [[[r g] b] al].
  destruct (palette_at p cs (length a) r g b al Hp Hc) as (-> & -> & -> & _). cbn [mbind option_bind].
  replace (Z.of_nat (length a) + 1) with (Z.of_nat (length (a ++ [(r, g, b, al)]))) by (rewrite length_app; cbn [length]; lia).
  rewrite IH by (done || by rewrite <- app_assoc). done.
Qed.

Lemma palette_alpha_at p cs i c : take (4 * length cs) p = flat cs -> cs !! i = Some c -> at_ p (4 * Z.of_nat i + 3) = Some (alpha c).
Proof. intros Hp Hc. destruct c as [[[r g] b] a]. destruct (palette_at p cs i r g b a Hp Hc) as (_ & _ & _ & H). by replace (4 * Z.of_nat i + 3) with (Z.of_nat i * 4 + 3) by lia. Qed.

Lemma trns_amount_ok p cs n : (n <= length cs)%nat -> take (4 * length cs) p = flat cs -> (forall i c, (n <= i)%nat -> cs !! i = Some c -> alpha c = 255) ->
  exists k, trns_amount n p = Some k /\ (k <= length cs)%nat /\ (forall i c, (k <= i)%nat -> cs !! i = Some c -> alpha c = 255).
Proof.
  induction n as [|n IH]; intros Hn Hp Hop; cbn [trns_amount]; [exists 0%nat; split; [done|]; split; [lia|done]|].
  destruct (lookup_lt_is_Some_2 cs n ltac:(lia)) as [c Hc]. rewrite (palette_alpha_at p cs n c Hp Hc). cbn [mbind option_bind].
  destruct (Z.eqb_spec (alpha c) 255) as [E|E]; cbn [negb]; [|by exists (S n)]. apply IH; [lia|done|]. intros i c' Hi Hc'.
  destruct (decide (i = n)) as [->|Hne]; [congruence|]. by apply (Hop i); [lia|].
Qed.

Lemma alphas_ok p cs n : forall i, (i + n <= length cs)%nat -> take (4 * length cs) p = flat cs -> alphas n (Z.of_nat i) p = Some (map alpha (take n (drop i cs))).
Proof.
  induction n as [|n IH]; intros i Hi Hp; cbn [alphas]; [done|]. destruct (lookup_lt_is_Some_2 cs i ltac:(lia)) as [c Hc].
  rewrite (palette_alpha_at p cs i c Hp Hc). cbn [mbind option_bind]. replace (Z.of_nat i + 1) with (Z.of_nat (S i)) by lia. rewrite IH by (done || lia).
  by rewrite (drop_S _ _ _ Hc).
Qed.

Lemma reds_bytes cs : Forall px_ok cs -> bytes_ok (reds cs) /\ bytes_ok (map alpha cs).
Proof.
  induction 1 as [|[[[r g] b] a] cs Hc _ [IH1 IH2]]; [split; constructor|]. destruct (byte_list r g b a Hc) as (_ & H & _). destruct Hc as (_ & _ & _ & Ha). split.
  - change (reds ((r, g, b, a) :: cs)) with ([r; g; b] ++ reds cs). apply list.Forall_app. by split.
  - by constructor.
Qed.

Lemma be_bytes_ok n v : bytes_ok (be_bytes n v).
Proof. unfold be_bytes. apply Forall_reverse, le_bytes_ok. Qed.

Lemma length_chunk type data : length (bytes_of_string type) = 4%nat -> length (chunk type data) = (12 + length data)%nat.
Proof. intros Ht. unfold chunk. rewrite !length_app, !length_be_bytes. lia. Qed.

(** What the encoder writes between the header and the image data *)
Definition color_written (color : LodePNGColorMode) (plte trns : option bytes) : Prop :=
  chunks_for color plte trns /\ plte_ok (type_of color) (depth_of color) plte /\ trns_ok (type_of color) plte trns
  /\ (length (opt_chunk "PLTE" plte) + length (opt_chunk "tRNS" trns) <= 2000)%nat
  /\ forall out, Z.of_nat (length out) < 100 ->
     (if bool_decide (m_colortype color = LCT_PALETTE) then addChunk_PLTE out color else Some (inr out)) = Some (inr (out ++ opt_chunk "PLTE" plte))
     /\ addChunk_tRNS (out ++ opt_chunk "PLTE" plte) color = Some (inr ((out ++ opt_chunk "PLTE" plte) ++ opt_chunk "tRNS" trns)).

Lemma palette_written d p cs : d ∈ [1; 2; 4; 8] -> Forall px_ok cs -> (1 <= length cs <= 256)%nat -> Z.of_nat (length cs) <= 2 ^ d -> take (4 * length cs) p = flat cs ->
  exists plte trns, color_written (mkMode LCT_PALETTE d (Some p) (Z.of_nat (length cs)) false 0 0 0) plte trns.
Proof.
  intros Hd Hcb Hcl Hle Htk. destruct (trns_amount_ok p cs (length cs) (le_n _) Htk) as (k & Hk & Hkl & Hop).
  { intros i c Hi Hc. apply lookup_lt_Some in Hc. lia. }
  exists (Some (reds cs)), (match k with O => None | S _ => Some (map alpha (take k cs)) end). set (trns := match k with O => None | S _ => _ end).
  assert (Hlt : length (opt_chunk "tRNS" trns) = match k with O => 0 | S _ => 12 + k end%nat).
  { unfold trns. destruct k as [|k]; [done|]. unfold opt_chunk. rewrite length_chunk, length_map, length_take by done. lia. }
  assert (Hlp : length (opt_chunk "PLTE" (Some (reds cs))) = (12 + 3 * length cs)%nat) by (unfold opt_chunk; rewrite length_chunk, length_reds by done; done).
  destruct (reds_bytes cs Hcb) as [Hrb Hab].
  split; [by apply (chunks_palette _ p cs k)|]. split; [|split; [|split]].
  - split; [done|]. exists (length cs). rewrite length_reds. split; [done|]. split; [lia|]. unfold depth_of. cbn [m_bitdepth]. pose proof (depth_range _ Hd). by rewrite Z2Nat.id by lia.
  - unfold trns, trns_ok. destruct k as [|k]; [done|]. right; right. split; [done|]. exists (reds cs). split; [done|]. rewrite length_reds, length_map, length_take. lia.
  - rewrite Hlt, Hlp. destruct k; lia.
  - intros out Ho. rewrite bool_decide_true by done. unfold addChunk_PLTE, addChunk_tRNS. cbn [m_palettesize m_palette m_colortype].
    rewrite !(proj2 (Z.eqb_neq _ 0)), (proj2 (Z.ltb_ge _ _)) by (unfold rgba in *; lia). cbn [orb mbind option_bind]. rewrite Nat2Z.id.
    pose proof (plte_loop_ok p cs cs [] eq_refl Htk) as Hpl. change (Z.of_nat (length [])) with 0 in Hpl. rewrite Hpl, Hk. cbn [mbind option_bind].
    split; [apply chunk_ok; [done|by repeat constructor|done|rewrite length_reds; lia]|].
    destruct k as [|k]; [cbn [Nat.eqb trns opt_chunk]; by rewrite app_nil_r|]. cbn [Nat.eqb].
    pose proof (alphas_ok p cs (S k) 0 ltac:(lia) Htk) as Ha. change (Z.of_nat 0) with 0 in Ha. rewrite drop_0 in Ha. rewrite Ha. cbn [mbind option_bind]. change (opt_chunk _ trns) with (chunk "tRNS" (map alpha (take (S k) cs))).
    apply chunk_ok; [apply reds_bytes; by apply Forall_take|by repeat constructor|done|]. rewrite length_app, length_map, length_take, Hlp. lia.
Qed.

Lemma color_chunks px color : mode_for px color -> exists plte trns, color_written color plte trns.
Proof.
  assert (Hkey : forall data, bytes_ok data -> (length data <= 10)%nat -> forall out, Z.of_nat (length out) < 100 ->
    lodepng_chunk_createv (out ++ opt_chunk "PLTE" None) "tRNS" data = Some (inr ((out ++ opt_chunk "PLTE" None) ++ opt_chunk "tRNS" (Some data)))).
  { intros data Hd Hl out Ho. cbn [opt_chunk]. rewrite app_nil_r. apply chunk_ok; [done|by repeat constructor|done|lia]. }
  assert (Hnone : forall c, m_colortype c <> LCT_PALETTE -> m_key_defined c = false -> color_written c None None).
  { intros c Hp Hk. split; [by constructor|]. split; [unfold plte_ok, type_of; by destruct (m_colortype c)|]. split; [done|]. split; [cbn; lia|].
    intros out Ho. rewrite bool_decide_false by done. cbn [opt_chunk]. rewrite !app_nil_r. split; [done|]. unfold addChunk_tRNS. rewrite Hk. by destruct (m_colortype c). }
  intros Hm. destruct Hm as [|Ho|r0 g0 b0 a0 Hin Hk|Hg|d Hd Hg Hn Ho|d r0 g0 b0 a0 k2 k3 Hd Hin Hg Hn Hk|d p cs Hd Hnd Hcb Hcl Hle Hpl Htk Hall];
    try (by exists None, None; apply Hnone).
  - exists None, (Some (be_bytes 2 r0 ++ be_bytes 2 g0 ++ be_bytes 2 b0)). split; [by apply chunks_rgb|]. split; [done|]. split; [right; left; done|].
    split; [unfold opt_chunk; rewrite length_chunk by done; cbn; lia|]. intros out Ho. rewrite bool_decide_false by done. split; [by rewrite app_nil_r|].
    unfold addChunk_tRNS. cbn [m_colortype m_key_defined m_key_r m_key_g m_key_b]. rewrite !key_bytes_be. apply Hkey; [|cbn; lia|done].
    apply list.Forall_app. split; [apply be_bytes_ok|]. apply list.Forall_app. split; apply be_bytes_ok.
  - exists None, (Some (be_bytes 2 (r0 >> (8 - d)))). split; [by apply chunks_grey|]. split; [done|]. split; [left; done|].
    split; [unfold opt_chunk; rewrite length_chunk by done; cbn; lia|]. intros out Ho. rewrite bool_decide_false by done. split; [by rewrite app_nil_r|].
    unfold addChunk_tRNS. cbn [m_colortype m_key_defined m_key_r]. rewrite key_bytes_be. apply Hkey; [apply be_bytes_ok|cbn; lia|done].
  - by apply palette_written.
Qed.

(** The scanlines of the PNG encoder ([preProcessScanlines]): a decoder that undoes the filters
    gets lines that begin with the bits of their pixels, and from them the image. *)

(** ** Rows *)

Section Rows.
Context {A : Type} (f : A -> list bool) (m : nat) (Hf : forall x, length (f x) = m).

Lemma length_bits_of l : length (mjoin (map f l)) = (length l * m)%nat.
Proof. induction l as [|x l IH]; [done|]. cbn [map]. change (mjoin (?x :: ?l)) with (x ++ mjoin l). rewrite length_app, Hf, IH. cbn [length]. lia. Qed.

Lemma bits_of_split k l : mjoin (map f l) = mjoin (map f (take k l)) ++ mjoin (map f (drop k l)).
Proof. by rewrite <- join_app, <- map_app, take_drop. Qed.

Lemma drop_bits k l : (k <= length l)%nat -> drop (k * m) (mjoin (map f l)) = mjoin (map f (drop k l)).
Proof. intros Hk. rewrite (bits_of_split k l), drop_app_length'; [done|]. rewrite length_bits_of, length_take. f_equal. lia. Qed.

Lemma take_bits k l : (k <= length l)%nat -> take (k * m) (mjoin (map f l)) = mjoin (map f (take k l)).
Proof. intros Hk. rewrite (bits_of_split k l), take_app_length'; [done|]. rewrite length_bits_of, length_take. f_equal. lia. Qed.
End Rows.

Lemma padded_row n il ol : forall y bits, (y < n)%nat -> (il <= ol)%nat -> (n * il <= length bits)%nat ->
  take il (drop (y * ol) (padded_bits n il ol bits)) = take il (drop (y * il) bits).
Proof.
  induction n as [|n IH]; intros y bits Hy Hio Hl; [lia|]. cbn [padded_bits].
  assert (Hln : length (take il bits ++ replicate (ol - il) false) = ol) by (rewrite length_app, length_take, length_replicate; lia).
  destruct y as [|y].
  - rewrite !Nat.mul_0_l, !drop_0, <- app_assoc, take_app_length' by (rewrite length_take; lia). done.
  - change (S y * ol)%nat with (ol + y * ol)%nat. change (S y * il)%nat with (il + y * il)%nat. rewrite <- !drop_drop, drop_app_length' by done.
    apply IH; [lia|done|]. rewrite length_drop. lia.
Qed.

Lemma padded_length n il ol : forall bits, (il <= ol)%nat -> (n * il <= length bits)%nat -> length (padded_bits n il ol bits) = (n * ol)%nat.
Proof.
  induction n as [|n IH]; intros bits Hio Hl; [done|]. cbn [padded_bits]. rewrite !length_app, length_take, length_replicate, IH by (rewrite ?length_drop; lia). lia.
Qed.

(** ** Lines *)

(** The bytes of a line *)
Definition line_bytes (w bpp : nat) : nat := ((w * bpp + 7) / 8)%nat.

Lemma line_bytes_z w bpp : (Z.of_nat w * Z.of_nat bpp + 7) / 8 = Z.of_nat (line_bytes w bpp).
Proof. unfold line_bytes. rewrite Nat2Z.inj_div, Nat2Z.inj_add, Nat2Z.inj_mul. done. Qed.

Lemma raw_size_line w bpp : 0 <= w -> 0 <= bpp -> w * bpp + 15 < 2 ^ 32 -> lodepng_get_raw_size_idat w 1 bpp - 1 = (w * bpp + 7) / 8.
Proof.
  intros Hw Hb Hs. unfold lodepng_get_raw_size_idat. change 7 with (Z.ones 3) at 1. rewrite land_ones_mod by lia. change (2 ^ 3) with 8. rewrite Z.mul_1_l.
  replace ((w * bpp + 7) / 8) with (w / 8 * bpp + (w mod 8 * bpp + 7) / 8).
  - rewrite u32_small; [lia|]. pose proof (Z.div_mod w 8 ltac:(lia)). pose proof (Z.mod_pos_bound w 8 ltac:(lia)).
    assert (0 <= w / 8 * bpp /\ 0 <= w mod 8 * bpp) by (split; apply Z.mul_nonneg_nonneg; first [lia|apply Z.div_pos; lia]).
    assert ((w mod 8 * bpp + 7) / 8 <= w mod 8 * bpp + 7) by (apply Z.div_le_upper_bound; lia). assert (0 <= (w mod 8 * bpp + 7) / 8) by (apply Z.div_pos; lia). nia.
  - rewrite (Z.div_mod w 8) at 3 by lia. replace ((8 * (w / 8) + w mod 8) * bpp + 7) with (w / 8 * bpp * 8 + (w mod 8 * bpp + 7)) by ring.
    by rewrite Z.div_add_l by lia.
Qed.

Lemma unfilter_length h lb bw : forall above data lines, unfilter h lb bw above data = Some lines -> length data = (h * (lb + 1))%nat.
Proof.
  induction h as [|h IH]; intros above [|type data] lines E; cbn [unfilter] in E; try done. case_guard as G; [|done]. cbn [mbind option_bind] in E.
  destruct (unfilter h lb bw _ (drop lb data)) as [ls|] eqn:El; [|done]. apply IH in El. rewrite length_drop in El. cbn [length]. lia.
Qed.

Section Scanlines.
Context {M : Memory} {HM : MemoryOk M}.

(** The filter strategy for a colour mode *)
Definition strategy_for (settings : LodePNGEncoderSettings) (color : LodePNGColorMode) : LodePNGFilterStrategy :=
  if e_filter_palette_zero settings && (bool_decide (m_colortype color = LCT_PALETTE) || (m_bitdepth color <? 8)) then LFS_ZERO else e_filter_strategy settings.

Context (settings : LodePNGEncoderSettings) (color : LodePNGColorMode) (w h bpp : nat).
Context (Hbpp : lodepng_get_bpp color = Z.of_nat bpp) (Hb : (1 <= bpp <= 32)%nat) (Hmul : (bpp < 8)%nat \/ exists c, bpp = (8 * c)%nat) (Hw : (0 < w)%nat) (Hwh : Z.of_nat (w * h) < 2 ^ 27) (Hh : (0 < h)%nat).
Let lb := line_bytes w bpp.
Context (Hstrategy : strategy_ok settings (strategy_for settings color) lb h).

Lemma sizes : (w * bpp <= 8 * lb < w * bpp + 8)%nat /\ (1 <= (bpp + 7) / 8 <= lb)%nat /\ Z.of_nat (h * lb) <= 2 ^ 29 + 2 ^ 27 /\ Z.of_nat w < 2 ^ 27 /\ Z.of_nat h < 2 ^ 27
  /\ (w * bpp <= 32 * w)%nat.
Proof.
  unfold lb, line_bytes. pose proof (Nat.div_mod (w * bpp + 7) 8 ltac:(lia)). pose proof (Nat.mod_upper_bound (w * bpp + 7) 8 ltac:(lia)).
  assert (Hm : ((bpp + 7) / 8 <= (w * bpp + 7) / 8)%nat) by (apply Nat.Div0.div_le_mono; nia).
  assert (H1 : (1 <= (bpp + 7) / 8)%nat) by (apply Nat.div_le_lower_bound; lia).
  set (q := ((w * bpp + 7) / 8)%nat) in *. split; [lia|]. split; [lia|].
  assert (Hq : (q <= 4 * w + 1)%nat) by nia. assert (Hhq : (h * q <= 4 * (w * h) + h)%nat) by nia. assert (h <= w * h)%nat by nia. assert (w <= w * h)%nat by nia.
  split; [lia|]. split; [lia|]. split; [lia|]. nia.
Qed.

(** The lines of the bytes [in_], filtered *)
Lemma filter_ok in_ : bytes_ok in_ -> (h * lb <= length in_)%nat ->
  exists data, filter (fresh Scanlines (h * (lb + 1))) in_ (Z.of_nat w) (Z.of_nat h) color settings = Some (inr data)
    /\ bytes_ok data /\ length data = (h * (lb + 1))%nat /\ unfilter h lb ((bpp + 7) / 8) (replicate lb 0) data = Some (lines_of lb in_ 0 h).
Proof.
  intros Hin Hl. destruct sizes as (S1 & S2 & S3 & S4 & S5 & S6). unfold filter. rewrite Hbpp. fold (strategy_for settings color).
  rewrite raw_size_line, line_bytes_z, Nat2Z.id by lia. fold lb. rewrite (proj2 (Z.eqb_neq _ 0)), Nat2Z.id by lia.
  replace ((Z.of_nat bpp + 7) / 8) with (Z.of_nat ((bpp + 7) / 8)) by (rewrite Nat2Z.inj_div, Nat2Z.inj_add; done).
  destruct (filter_loop_ok settings (strategy_for settings color) ((bpp + 7) / 8) lb h S2 Hstrategy in_ h 0 [] (fresh Scanlines (h * (lb + 1))) (replicate lb 0) None)
    as (data & E & Hd & Hu); [done|lia|lia|cbn; lia|by rewrite fresh_length|by rewrite length_replicate| | |].
  - apply list.Forall_forall. intros x [-> _]%elem_of_replicate. done.
  - right. split; [done|]. by rewrite length_replicate.
  - cbn [app] in E. rewrite E. exists data. split; [done|]. split; [done|]. split; [|done]. 
    apply unfilter_length in Hu. lia.
Qed.

(** [data] are filtered lines, and line [y] begins with the [w] pixels from the bit [y * w * bpp] of [in_] on. *)
Definition lines_for (in_ data : bytes) : Prop :=
  bytes_ok data /\ length data = (h * (lb + 1))%nat
  /\ exists lines, unfilter h lb ((bpp + 7) / 8) (replicate lb 0) data = Some lines /\ length lines = h
     /\ forall y line, lines !! y = Some line -> take (w * bpp) (line_bits line) = take (w * bpp) (drop (y * (w * bpp)) (line_bits in_)).

Lemma lines_lookup in_ y line : lines_of lb in_ 0 h !! y = Some line -> (y < h)%nat /\ line = sub in_ (y * lb) lb.
Proof. intros (i & -> & Hi)%list_lookup_fmap_Some. apply lookup_seq in Hi as [-> Hy]. done. Qed.

(** Lines that end with a byte *)
Lemma whole_lines_ok in_ : bytes_ok in_ -> (w * h * bpp <= 8 * length in_)%nat -> (w * bpp = 8 * lb)%nat ->
  exists data, filter (fresh Scanlines (h * (lb + 1))) in_ (Z.of_nat w) (Z.of_nat h) color settings = Some (inr data) /\ lines_for in_ data.
Proof.
  intros Hin Hl E. destruct (filter_ok in_ Hin ltac:(nia)) as (data & -> & Hd & Hld & Hu). exists data. split; [done|]. split; [done|]. split; [done|].
  exists (lines_of lb in_ 0 h). split; [done|]. split; [unfold lines_of; by rewrite length_map, length_seq|]. intros y line [Hy ->]%lines_lookup.
  rewrite line_bits_sub, take_take, Nat.min_l by lia. do 2 f_equal. nia.
Qed.

Lemma scanlines_ok in_ : bytes_ok in_ -> (w * h * bpp <= 8 * length in_)%nat ->
  exists data, preProcessScanlines in_ (Z.of_nat w) (Z.of_nat h) color settings = Some (inr data) /\ lines_for in_ data.
Proof.
  intros Hin Hl. destruct sizes as (S1 & S2 & S3 & S4 & S5 & S6). unfold preProcessScanlines. rewrite Hbpp.
  rewrite (u32_small (Z.of_nat w * Z.of_nat bpp)), (u32_small (_ + 7)), line_bytes_z by lia. fold lb.
  rewrite (u32_small (Z.of_nat h * Z.of_nat lb)), (u32_small (_ + _)), (u32_small (Z.of_nat lb * 8)) by lia.
  replace (Z.to_nat (Z.of_nat h + Z.of_nat h * Z.of_nat lb)) with (h * (lb + 1))%nat by lia. replace (Z.to_nat (Z.of_nat h * Z.of_nat lb)) with (h * lb)%nat by lia.
  destruct (Z.ltb_spec (Z.of_nat bpp) 8) as [H8|H8]; cbn [andb].
  2: { apply whole_lines_ok; [done|done|]. destruct Hmul as [|[c Hc]]; [lia|]. subst bpp. assert (w * (8 * c) = 8 * (w * c))%nat by lia. lia. }
  destruct (Z.eqb_spec (Z.of_nat w * Z.of_nat bpp) (Z.of_nat lb * 8)) as [E|E]; cbn [negb]; [apply whole_lines_ok; [done|done|lia]|].
  replace (Z.of_nat lb * 8) with (Z.of_nat (8 * lb)) by lia. replace (Z.of_nat w * Z.of_nat bpp) with (Z.of_nat (w * bpp)) by lia.
  unfold addPaddingBits. rewrite Nat2Z.id. pose proof (fresh_length Padded (h * lb)) as Hfl.
  destruct (pad_loop_ok h (w * bpp) (8 * lb) 0 [] (line_bits (fresh Padded (h * lb))) (fresh Padded (h * lb)) in_) as (padded & Ep & Hpb & Hpok & Hpl);
    [lia|apply fresh_bytes|done|rewrite length_line_bits; nia|nia|]. change (Z.of_nat (length [])) with 0 in Ep. change (Z.of_nat 0) with 0 in Ep. rewrite Ep.
  cbn [mbind option_bind app] in *. rewrite drop_0 in Hpb.
  destruct (filter_ok padded Hpok ltac:(lia)) as (data & -> & Hd & Hld & Hu). exists data. split; [done|]. split; [done|]. split; [done|].
  exists (lines_of lb padded 0 h). split; [done|]. split; [unfold lines_of; by rewrite length_map, length_seq|]. intros y line [Hy ->]%lines_lookup.
  rewrite line_bits_sub, take_take, Nat.min_l, Hpb by lia. rewrite (drop_ge (line_bits (fresh Padded _))), app_nil_r by (rewrite length_line_bits; nia).
  replace (8 * (y * lb))%nat with (y * (8 * lb))%nat by lia. apply padded_row; [done|lia|rewrite length_line_bits; nia].
Qed.
End Scanlines.

(** ** The image *)

Lemma mapM_seq_ok {A} (f : nat -> option A) (l : list A) : (forall i x, l !! i = Some x -> f i = Some x) -> mapM f (seq 0 (length l)) = Some l.
Proof.
  intros H. apply mapM_Some. apply Forall2_same_length_lookup. split; [apply length_seq|]. intros i x y Hx Hy. apply lookup_seq in Hx as [-> _]. by apply H.
Qed.

Lemma mjoin_rows {A} (w h : nat) (px : list A) : length px = (w * h)%nat -> mjoin (map (fun y => take w (drop (y * w) px)) (seq 0 h)) = px.
Proof.
  revert px. induction h as [|h IH]; intros px Hl; [rewrite Nat.mul_0_r in Hl; by apply nil_length_inv in Hl as ->|].
  cbn [seq map]. change (mjoin (?x :: ?l)) with (x ++ mjoin l). rewrite Nat.mul_0_l, drop_0, <- seq_shift, map_map.
  rewrite (map_ext _ (fun y => take w (drop (y * w) (drop w px)))); [|intros y; by rewrite drop_drop].
  rewrite IH, take_drop; [done|]. rewrite length_drop. lia.
Qed.

Lemma image_decoded px color t plte trns w h in_ data : Forall px_ok px -> mode_for px color -> tree_of color t -> chunks_for color plte trns ->
  length px = (w * h)%nat -> (0 < w)%nat -> lines_for w h (bpp_of color) in_ data -> take (length px * bpp_of color) (line_bits in_) = mjoin (map (pixel_bits color t) px) ->
  image_pixels (type_of color) (depth_of color) plte trns w h data = Some px.
Proof.
  intros Hpx Hm Ht Hc Hl Hw (Hd & Hld & lines & Hu & Hll & Hlines) Hbits. destruct (mode_bpp px color Hm) as (_ & Hb & _ & Hpb).
  unfold image_pixels. fold (bpp_of color). fold (line_bytes w (bpp_of color)). rewrite Hu. cbn [mbind option_bind].
  set (rows := map (fun y => take w (drop (y * w) px)) (seq 0 h)).
  assert (Hrows : mapM (line_pixels (type_of color) (depth_of color) plte trns w) lines = Some rows).
  { apply mapM_Some, Forall2_same_length_lookup. split; [unfold rows; by rewrite length_map, length_seq|]. intros y line row Hy Hr.
    unfold rows in Hr. apply list_lookup_fmap_Some in Hr as (y' & -> & Hs). apply lookup_seq in Hs as [-> Hyh]. cbn [Nat.add] in *.
    specialize (Hlines y line Hy). assert (Hyw : (y * w + w <= length px)%nat) by nia.
    assert (Hrow : take (w * bpp_of color) (line_bits line) = mjoin (map (pixel_bits color t) (take w (drop (y * w) px)))).
    { rewrite Hlines, <- (take_bits _ _ (Hpb t)), <- (drop_bits _ _ (Hpb t)) by (rewrite ?length_drop; lia). rewrite <- Hbits, skipn_firstn_comm, take_take.
      replace (y * w * bpp_of color)%nat with (y * (w * bpp_of color))%nat by lia. f_equal. nia. }
    set (row := take w (drop (y * w) px)) in *. assert (Hlr : length row = w) by (unfold row; rewrite length_take, length_drop; lia).
    unfold line_pixels. fold (bpp_of color). rewrite <- Hlr at 1. apply mapM_seq_ok. intros x p Hp.
    assert (Hin : p ∈ px).
    { unfold row in Hp. apply lookup_take_Some in Hp as [Hp _]. rewrite lookup_drop in Hp. by apply list_elem_of_lookup_2 in Hp. }
    rewrite <- (take_drop (w * bpp_of color) (line_bits line)), Hrow. pose proof (lookup_lt_Some _ _ _ Hp) as Hx.
    rewrite drop_app_le by (rewrite (length_bits_of _ _ (Hpb t)); apply Nat.mul_le_mono_r, Nat.lt_le_incl, Hx).
    rewrite (drop_bits _ _ (Hpb t)), (drop_S (A := rgba) row p x Hp) by (apply Nat.lt_le_incl, Hx). cbn [map].
    change (mjoin (?x :: ?l)) with (x ++ mjoin l). rewrite <- app_assoc. by apply (pixel_decoded px). }
  rewrite Hrows. cbn [mbind option_bind]. f_equal. by apply mjoin_rows.
Qed.
