(* ===== verification/PngEncode.v ===== *)
(** The PNG encoder is correct: for every image of RGBA pixels, [lodepng_encode32] returns a
    PNG file (PngFormat) from which a decoder shows exactly these pixels. *)
From S2P Require Import Prelude CLib Checksum BitReader Huffman Canonical Deflate LodeLz77 LodeHuff LodeTree LodeDeflate CodeLengths.
From S2P Require Import ZlibCompress LodeColor LodeFilter LodeEncode PngFormat FilterCorrect PngBits ColorStats ColorChoice.
From S2P Require Import PngPixels PngChunks.

Section Encode.
Context {M : Memory} {HM : MemoryOk M}.

Definition start_state : LodePNGState := mkState raw raw (encoder lodepng_state_init).

(** ** The colour mode *)

Lemma choose_color_ok px w h : Forall px_ok px -> 0 <= w -> 0 <= h -> w * h = Z.of_nat (length px) -> w * h < 2 ^ 32 ->
  exists color, choose_color (flat px) w h start_state = Some (inr color) /\ mode_for px color.
Proof.
  intros Hpx Hw Hh Hn Hlt. unfold choose_color. change (lodepng_color_mode_copy (info_png_color start_state)) with (Some raw). cbn [mbind option_bind].
  change (e_auto_convert (encoder start_state)) with true. cbv iota. change (info_raw start_state) with raw.
  destruct (color_stats_ok px Hpx w h Hw Hh Hn Hlt) as (s & -> & Hs). cbn [mbind option_bind].
  destruct (auto_choose_ok px s Hpx Hs) as (c & -> & Hc). cbn [unless_error mbind option_bind]. change (e_force_palette (encoder start_state)) with false. cbn [andb].
  destruct (mode_copy_ok px c Hc) as (c' & -> & Hc'). by exists c'.
Qed.

(** ** The scanlines *)

Lemma bpp_bytes px color : mode_for px color -> (bpp_of color < 8)%nat \/ exists c, bpp_of color = (8 * c)%nat.
Proof.
  assert (D : forall d ct, d ∈ [1; 2; 4; 8] -> channels (lct_value ct) = 1%nat -> (channels (lct_value ct) * Z.to_nat d < 8)%nat \/ exists c, (channels (lct_value ct) * Z.to_nat d = 8 * c)%nat).
  { intros d ct Hd ->. destruct (depth_cases d Hd) as [->|[->|[->| ->]]]; [left; cbn; lia..|right; by exists 1%nat]. }
  intros [|Ho|r0 g0 b0 a0 Hin Hk|Hg|d Hd Hg Hn Ho|d r0 g0 b0 a0 k2 k3 Hd Hin Hg Hn Hk|d p cs Hd Hnd Hcb Hcl Hle Hpl Htk Hall];
    [right; by exists 4%nat|right; by exists 3%nat|right; by exists 3%nat|right; by exists 2%nat|by apply D..].
Qed.

Lemma flat_bits px : line_bits (flat px) = mjoin (map (pixel_bits raw color_tree_init) px).
Proof.
  induction px as [|[[[r g] b] a] px IH]; [done|]. change (flat ((r, g, b, a) :: px)) with ([r; g; b; a] ++ flat px). rewrite line_bits_app, IH. done.
Qed.

Lemma default_strategy color lb h : strategy_ok lodepng_encoder_settings_init (strategy_for lodepng_encoder_settings_init color) lb h.
Proof. unfold strategy_for. cbn [lodepng_encoder_settings_init e_filter_palette_zero e_filter_strategy andb]. by destruct (_ || _). Qed.

Lemma encode_data_ok px color (w h : nat) : Forall px_ok px -> mode_for px color -> length px = (w * h)%nat -> (0 < w)%nat -> (0 < h)%nat -> Z.of_nat (w * h) < 2 ^ 27 ->
  exists in_ data t, encode_data (flat px) (Z.of_nat w) (Z.of_nat h) color start_state = Some (inr data) /\ lines_for w h (bpp_of color) in_ data /\ tree_of color t
    /\ take (length px * bpp_of color) (line_bits in_) = mjoin (map (pixel_bits color t) px).
Proof.
  intros Hpx Hm Hl Hw Hh Hlt. destruct (mode_bpp px color Hm) as (Hbpp & Hb & _ & Hpb). unfold encode_data. change (info_raw start_state) with raw.
  change (encoder start_state) with lodepng_encoder_settings_init. pose proof (bpp_bytes px color Hm) as Hmul.
  destruct (decide (m_colortype color = LCT_RGBA)) as [Ect|Ect].
  - assert (Ec : color = raw) by (destruct Hm; done). subst color. change (lodepng_color_mode_equal raw raw) with (Some true). cbn [mbind option_bind].
    destruct (scanlines_ok lodepng_encoder_settings_init raw w h (bpp_of raw) Hbpp Hb Hmul Hw Hlt Hh (default_strategy _ _ _) (flat px)) as (data & E & Hd);
      [by apply flat_bytes|rewrite length_flat, Hl; change (bpp_of raw) with 32%nat; lia|].
    exists (flat px), data, color_tree_init. split; [done|]. split; [done|]. split; [done|]. rewrite take_ge by (rewrite length_line_bits, length_flat; change (bpp_of raw) with 32%nat; lia). apply flat_bits.
  - assert (Heq : lodepng_color_mode_equal raw color = Some false) by (unfold lodepng_color_mode_equal; rewrite bool_decide_false by (intros E; apply Ect; by rewrite <- E); done).
    rewrite Heq. cbn [mbind option_bind]. rewrite Hbpp. rewrite (u32_small (Z.of_nat w * Z.of_nat h)), (u32_small (_ * Z.of_nat (bpp_of color))), (u32_small (_ + 7)) by nia.
    set (size := Z.to_nat _). assert (Hsize : (length px * bpp_of color <= 8 * size)%nat).
    { rewrite Hl. unfold size. pose proof (Z.div_mod (Z.of_nat w * Z.of_nat h * Z.of_nat (bpp_of color) + 7) 8 ltac:(lia)).
      pose proof (Z.mod_pos_bound (Z.of_nat w * Z.of_nat h * Z.of_nat (bpp_of color) + 7) 8 ltac:(lia)). nia. }
    destruct (convert_ok px color size (fresh Converted size) (Z.of_nat w) (Z.of_nat h) Hpx Hm Ect) as (t & conv & -> & (Hc1 & Hc2 & Hc3 & _) & Ht);
      [lia|lia|rewrite Hl; lia|lia|apply fresh_length|apply fresh_bytes|done|]. cbn [unless_error mbind option_bind].
    destruct (scanlines_ok lodepng_encoder_settings_init color w h (bpp_of color) Hbpp Hb Hmul Hw Hlt Hh (default_strategy _ _ _) conv Hc1) as (data & E & Hd); [rewrite <- Hl; lia|].
    exists conv, data, t. split; [done|]. split; [done|]. split; [done|]. by rewrite (length_pixels_bits px color t px Hm) in Hc3.
Qed.

(** ** The file *)

Lemma encode_chunks_ok px color (w h : nat) data plte trns : mode_for px color -> (0 < w)%nat -> (0 < h)%nat -> Z.of_nat (w * h) < 2 ^ 27 -> bytes_ok data ->
  Z.of_nat (length data) <= 2 ^ 29 + 2 ^ 28 -> color_written color plte trns ->
  exists idat, encode_chunks data (Z.of_nat w) (Z.of_nat h) color start_state
      = Some (inr (signature ++ chunk "IHDR" (header w h (type_of color) (depth_of color)) ++ opt_chunk "PLTE" plte ++ opt_chunk "tRNS" trns ++ chunk "IDAT" idat ++ chunk "IEND" []))
    /\ zlib_stream idat data /\ Z.of_nat (length idat) < 2 ^ 31.
Proof.
  intros Hm Hw Hh Hlt Hd Hld (_ & _ & _ & Hsz & Hcw). destruct (mode_bpp px color Hm) as (_ & _ & Hdok & _). unfold encode_chunks.
  change (e_force_palette (encoder start_state)) with false. cbn [andb]. change (e_zlibsettings (encoder start_state)) with lodepng_default_compress_settings.
  change (writeSignature []) with signature. set (hd := header w h (type_of color) (depth_of color)).
  assert (Hhl : length hd = 13%nat) by (unfold hd, header; rewrite !length_app, !length_be_bytes; done).
  assert (Hd8 : (depth_of color <= 8)%nat /\ 0 <= m_bitdepth color <= 8) by (destruct Hm; unfold depth_of; cbn [m_bitdepth]; first [split; [cbn; lia|lia]|match goal with H : _ ∈ [1; 2; 4; 8] |- _ => pose proof (depth_range _ H); lia end]).
  assert (Hhb : bytes_ok hd).
  { unfold hd, header. apply list.Forall_app. split; [apply be_bytes_ok|]. apply list.Forall_app. split; [apply be_bytes_ok|].
    repeat (apply Forall_cons_2; [unfold byte_ok, type_of; first [lia|destruct (m_colortype color); cbn; lia]|]). apply list.Forall_nil_2. }
  assert (E1 : addChunk_IHDR signature (Z.of_nat w) (Z.of_nat h) (m_colortype color) (m_bitdepth color) 0 = Some (inr (signature ++ chunk "IHDR" hd))).
  { unfold addChunk_IHDR. rewrite !set32_be. unfold hd, header, depth_of in *. rewrite Z2Nat.id in * by lia.
    replace (u8 (m_bitdepth color)) with (m_bitdepth color) by (unfold u8; rewrite Z.mod_small; lia). change (u8 0) with 0.
    apply chunk_ok; [done|by repeat constructor|done|]. change (length signature) with 8%nat. lia. }
  rewrite E1. cbn [unless_error mbind option_bind]. assert (Hl1 : length (signature ++ chunk "IHDR" hd) = 33%nat) by (rewrite length_app, length_chunk by done; rewrite Hhl; done).
  destruct (Hcw (signature ++ chunk "IHDR" hd) ltac:(lia)) as [-> E3]. cbn [unless_error mbind option_bind]. rewrite E3. cbn [unless_error mbind option_bind].
  unfold addChunk_IDAT. destruct (compressed_ok data lodepng_default_compress_settings) as (idat & E4 & Hz & Hzb & Hzl); [apply default_accepted; [done|lia]|done|].
  change (zlib_compress data lodepng_default_compress_settings) with (lodepng_zlib_compress data lodepng_default_compress_settings). rewrite E4. cbn [unless_error mbind option_bind].
  specialize (Hzl ltac:(done)). assert (Hq : Z.of_nat (length data) / 65536 < 2 ^ 14) by (apply Z.div_lt_upper_bound; lia).
  assert (Hil : Z.of_nat (length idat) < 2 ^ 31) by (unfold deflate_bound in Hzl; lia).
  set (out := _ ++ opt_chunk "tRNS" trns). assert (Hol : (length out <= 2100)%nat) by (unfold out; rewrite !length_app in *; lia).
  rewrite (chunk_ok out "IDAT" idat) by (first [done|by repeat constructor|lia]). cbn [unless_error mbind option_bind]. unfold addChunk_IEND.
  assert (E5 : lodepng_chunk_createv (out ++ chunk "IDAT" idat) "IEND" [] = Some (inr ((out ++ chunk "IDAT" idat) ++ chunk "IEND" []))).
  { apply chunk_ok; [constructor|by repeat constructor|done|rewrite length_app, length_chunk by done; cbn [length]; lia]. }
  rewrite E5.
  exists idat. split; [|done]. unfold out. by rewrite <- !app_assoc.
Qed.

Lemma encode32_ok (px : list rgba) (w h : nat) : Forall px_ok px -> length px = (w * h)%nat -> (0 < w)%nat -> (0 < h)%nat -> Z.of_nat (w * h) < 2 ^ 27 ->
  exists file, lodepng_encode32 (flat px) (Z.of_nat w) (Z.of_nat h) = Some (inr file) /\ png_file w h px file.
Proof.
  intros Hpx Hl Hw Hh Hlt. unfold lodepng_encode32, lodepng_encode_memory. fold raw. fold start_state. unfold lodepng_encode.
  change ((bool_decide _ || _) && _) with false. cbv iota. change (2 <? _) with false. cbv iota. cbv zeta. change (negb (checkColorValidity _ _ =? 0)) with false. cbv iota.
  destruct (choose_color_ok px (Z.of_nat w) (Z.of_nat h) Hpx) as (color & -> & Hm); [lia|lia|unfold rgba in *; lia|lia|]. cbn [unless_error mbind option_bind].
  destruct (encode_data_ok px color w h Hpx Hm Hl Hw Hh Hlt) as (in_ & data & t & -> & Hlines & Ht & Hbits). cbn [unless_error mbind option_bind].
  destruct (color_chunks px color Hm) as (plte & trns & Hcw). pose proof Hcw as (Hc & Hp & Htr & _).
  pose proof Hlines as (Hd & Hld & _). destruct (mode_bpp px color Hm) as (Hbpp & Hb & Hdok & _). pose proof (bpp_bytes px color Hm) as Hmul.
  destruct (sizes w h (bpp_of color) Hb Hmul Hw Hlt Hh) as (_ & _ & S3 & S4 & S5 & _).
  destruct (encode_chunks_ok px color w h data plte trns Hm Hw Hh Hlt Hd) as (idat & E & Hz & Hil); [lia|done|].
  eexists. split; [exact E|]. exists (type_of color), (depth_of color), plte, trns, idat, data. do 5 (split; [lia|]). do 5 (split; [done|]).
  by apply (image_decoded px color t plte trns w h in_ data).
Qed.

(** C2: [lodepng_encode32] takes every image of up to 2^27 pixels with 8 bits for red,
    green, blue and alpha and returns a PNG file that shows exactly these pixels: whatever
    colour type, depth, palette or colour key it chooses for the image, undoing the zlib
    compression, the filters, the packing into bits and the palette of the file gives the
    image back.  Nothing outside a buffer is read or written, and nothing depends on what
    memory held before it was written. *)
Theorem encode32_correct (px : list rgba) (w h : nat) : Forall px_ok px -> length px = (w * h)%nat -> (0 < w)%nat -> (0 < h)%nat -> Z.of_nat (w * h) < 2 ^ 27 ->
  exists file, lodepng_encode32 (flat px) (Z.of_nat w) (Z.of_nat h) = Some (inr file) /\ png_file w h px file.
Proof. apply encode32_ok. Qed.
End Encode.

(** ** Witnesses *)

Definition old_memory : Memory := fun _ n => replicate n 90.

Lemma old_memory_ok : MemoryOk old_memory.
Proof.
  split; intros s n; [apply length_replicate|]. apply list.Forall_forall. intros x [-> _]%elem_of_replicate. done.
Qed.

(** A grey pixel, a coloured one and a transparent one in a row *)
Definition three_pixels : list rgba := [(128, 128, 128, 255); (1, 2, 3, 255); (0, 0, 0, 0)].

Lemma encode32_correct_witness :
  exists file, lodepng_encode32 (M := old_memory) [128; 128; 128; 255; 1; 2; 3; 255; 0; 0; 0; 0] 3 1 = Some (inr file) /\ png_file 3 1 three_pixels file.
Proof.
  apply (encode32_correct (HM := old_memory_ok) three_pixels 3 1); [|reflexivity|lia|lia|lia].
  do 3 (apply Forall_cons_2; [unfold px_ok, byte_ok; lia|]). apply list.Forall_nil_2.
Defined.

(** An image without pixels is not refused: the file has the width and height 0, which the
    format does not allow (and the decoder of lodepng refuses with error 93). *)
Lemma empty_image_encoded : exists rest, lodepng_encode32 (M := old_memory) [] 0 0 = Some (inr (signature ++ chunk "IHDR" (header 0 0 0 1) ++ rest)).
Proof. eexists. vm_compute. reflexivity. Qed.
