(* ===== verification/Screenshot.v ===== *)
(** The command [scrot] of the shell from the frame buffer to the file: the copy of the
    display (Umkart), the command (CmdGui) and the PNG encoder (LodeEncode) together. *)
From S2P Require Import PngFormat LodeColor LodeFilter LodeEncode ColorStats PngEncode.
From S2P Require Import Prelude CLib Io Disk Syscall Optparse Umkart Usage Shell Sample CmdGui.

(** A colour of the display, opaque *)
Definition opaque (c : Z * Z * Z) : PngFormat.color := (c, 255).

(** The colour of a word of the copy *)
Definition shown (p : Z) : PngFormat.color := opaque (word_color p).

Lemma swap_rgb_bytes p : le_bytes 4 (swap_rgb p) = [u8 (p >> 16); u8 (p >> 8); u8 p; 255].
Proof.
  unfold swap_rgb. pose proof (Z.mod_pos_bound p 256 ltac:(lia)) as H0. pose proof (Z.mod_pos_bound (p >> 8) 256 ltac:(lia)) as H1.
  pose proof (Z.mod_pos_bound (p >> 16) 256 ltac:(lia)) as H2. unfold u8. set (a := p mod _) in *. set (b := (p >> 8) mod _) in *. set (c := (p >> 16) mod _) in *.
  rewrite !Z.shiftl_mul_pow2, u32_small by lia. cbn [le_bytes]. clearbody a b c. repeat f_equal; Z.to_euclidean_division_equations; lia.
Qed.

Lemma words_flat l : mjoin (map (le_bytes 4) (map swap_rgb l)) = flat (map shown l).
Proof.
  induction l as [|p l IH]; [done|]. cbn [map]. change (mjoin (?x :: ?l)) with (x ++ mjoin l). rewrite swap_rgb_bytes, IH. done.
Qed.

Lemma shown_ok l : Forall px_ok (map shown l).
Proof.
  apply list.Forall_forall. intros q (p & -> & _)%list_elem_of_fmap. unfold shown, px_ok, byte_ok, u8. repeat split; first [apply Z.mod_pos_bound; lia|lia].
Qed.

Section Scrot.
Context `{Kn : ShellKernel K} {Ho : Host} {HM : MemoryOk host_memory}.

(** C5: [scrot <file>] on a display of up to 2^27 pixels with 16, 24 or 32 bits each, whose rows
    follow each other without padding.  When the file can be opened it becomes a PNG file of
    the size of the display that shows at every column and row the colour the frame buffer
    has there, as the layout of the mode defines it ([frame]); nothing is printed and nothing
    else changes.  Otherwise the error of lodepng is printed and no file changes. *)
Theorem scrot_png (cmd fname : string) (w : world K) (d := kos_display (w_k w)) :
  plain_mode d -> (0 < width_ d)%nat -> (0 < height_ d)%nat -> Z.of_nat (width_ d * height_ d) < 2 ^ 27 ->
  if can_write fname
  then exists file, cmd_scrot 2 (Some [SStr cmd; SStr fname]) w = Done tt (set_files (<[fname := file]> (w_files w)) w)
         /\ png_file (width_ d) (height_ d) (map opaque (frame d)) file
  else cmd_scrot 2 (Some [SStr cmd; SStr fname]) w
       = Done tt (set_out (w_out w +:+ "error 79: failed to open file for writing" +:+ nl) w).
Proof.
  intros Hm Hw Hh Hlt. rewrite <- (pixels_frame d Hm), map_map.
  assert (Hl : length (map shown (pixels d)) = (width_ d * height_ d)%nat) by (unfold pixels; rewrite !length_map, length_seq; lia).
  destruct (encode32_ok (map shown (pixels d)) (width_ d) (height_ d) (shown_ok _) Hl Hw Hh Hlt) as (file & E & Hf).
  assert (Hrun : cmd_scrot 2 (Some [SStr cmd; SStr fname]) w
    = (if can_write fname then Done tt (set_files (<[fname := file]> (w_files w)) w)
       else Done tt (set_out (w_out w +:+ "error 79: failed to open file for writing" +:+ nl) w))).
  { unfold cmd_scrot, usage_unless. change (2 =? 2) with true. cbv iota. unfold arg, argp, str_of, need, peek, mbind, M_bind. cbn [lookup list_lookup]. cbn [mret M_ret].
    unfold mret, M_ret. fold d. rewrite scrot_exact by (done || by rewrite length_replicate). rewrite words_flat.
    unfold lodepng_encode32_file, lodepng_encode_file. fold (lodepng_encode32 (flat (map shown (pixels d))) (Z.of_nat (width_ d)) (Z.of_nat (height_ d))).
    rewrite E. cbn [mbind option_bind]. unfold lodepng_save_file. by destruct (can_write fname). }
  rewrite Hrun. destruct (can_write fname); [by exists file|done].
Qed.
End Scrot.

(** ** Witness *)

Lemma small_memory_ok : MemoryOk (@host_memory small_host).
Proof. split; intros s n; [apply length_replicate|]. apply list.Forall_forall. intros x [-> _]%elem_of_replicate. done. Qed.

Lemma small_plain : plain_mode display24.
Proof. split; [by right; left|done|cbn; lia|by repeat constructor]. Qed.

Lemma scrot_png_witness :
  exists file, cmd_scrot 2 (Some [SStr "scrot"; SStr "a.png"]) (small_world [] (always 0 0))
      = Done tt (set_files (<["a.png" := file]> ∅) (small_world [] (always 0 0)))
    /\ png_file 1 2 [(3, 2, 1, 255); (6, 5, 4, 255)] file.
Proof. apply (scrot_png (Kn := small_shell_kernel) (HM := small_memory_ok) "scrot" "a.png" (small_world [] (always 0 0)) small_plain); cbn; lia. Defined.

(** Rows with padding: the second pixel of the picture is not that of the display. *)
Theorem scrot_ignores_pitch :
  let d := Display 1 2 24 4 [1; 2; 3; 0; 4; 5; 6; 0] in
  (map word_color <$> copy_display_to_rgb888 d [0; 0]) = Some [(3, 2, 1); (5, 4, 0)] /\ frame d = [(3, 2, 1); (6, 5, 4)].
Proof. by vm_compute. Qed.
